(* ===== verification/_CoqProject ===== *)
-Q . S2P
Prelude.v
PyString.v
PatchRegistry.v
PatchRegistryCorrect.v
ImportCoordinator.v
ImportCoordinatorCorrect.v
Tensors.v
LightlyCp.v
LightlyCpCorrect.v
LayerSplit.v
LayerSplitCorrect.v
LayerSplitConfig.v
LayerBroadcast.v
LayerBroadcastCorrect.v
SplitCache.v
LayerPacking.v
LayerPackingCorrect.v
PcpLayout.v
PcpLayoutCorrect.v
PcpIndexesCorrect.v
PcpCorrect.v
PcpPartition.v
PcpPartitionCorrect.v
MemoryPool.v
BuddyTiling.v
MemoryPoolCorrect.v
TensorStore.v
SwiftEngine.v
SwiftEngineCorrect.v
SwiftRouting.v
SwiftRoutingCorrect.v
SwiftConnector.v
SwiftConnectorCorrect.v
Envs.v
EnvsCorrect.v
KvPlanner.v
KvPlannerCorrect.v
KvMemoryCorrect.v
KvCache.v
KvViewCorrect.v
KvAllocCorrect.v
KvPipelineCorrect.v
KvOffload.v
KvOffloadCorrect.v
RunnerCache.v
RunnerCacheCorrect.v
MooncakeRegions.v
MooncakeRegionsCorrect.v
MooncakeTopology.v
MooncakeTopologyCorrect.v
MooncakeSender.v
MooncakeSenderCorrect.v
MooncakeAckCorrect.v
MooncakeReceiver.v
MooncakeReceiverCorrect.v
MooncakeEndToEnd.v
MooncakeLedger.v
MooncakeScheduler.v
MooncakeSchedulerCorrect.v
MooncakeProducer.v
MooncakeProducerCorrect.v
EplbDispatch.v
EplbDispatchCorrect.v
FeatureConfig.v
FeatureConfigCorrect.v
StaticEplb.v
StaticEplbCorrect.v
OfflineRecord.v
OfflineRecordCorrect.v
OfflineHooks.v
OfflineHooksCorrect.v
ModuleExchange.v
ModuleExchangeCorrect.v
DsaPending.v
DsaSchedule.v
DsaScheduleCorrect.v
DsaSummary.v
DsaDecodeCorrect.v
DsaVerifyCorrect.v
DsaEngine.v
