(* ===== verification/Prelude.v ===== *)
(** * Verification of the vLLM HCU plugin (vllm_hcu)

    vllm_hcu is a plugin that runs vLLM on HCU accelerators.  It is Python
    code that (1) changes vLLM while it is imported, under switches read from
    the environment and from the configuration; (2) distributes the tokens and
    the KV cache of a prefill over the ranks of a context-parallel group; (3)
    sends KV caches from prefill to decode instances; (4) places experts on
    physical slots and chooses between their replicas; (5) keeps the summaries
    of token regions that a sparse attention scores.  This development models
    these five parts, from the source under src/vllm_hcu, as executable
    functions, and proves what they promise.  The kernels, the model
    definitions and the overrides of classes of vLLM are not modelled (see the
    end of this comment).

    ** Conventions

    A Python function is a Rocq function.  What it may raise is the [Err] side
    of [result], with the class of the exception and its message; a message
    that embeds a value keeps its constant text.  An object that is mutated is
    a record, and its methods take it and return it; where a method raises
    after a change, the outcome carries the changed state too.  Integers are
    [Z], as Python integers have no width; int32 buffers are noted where they
    occur.  Dictionaries are [gmap], or association lists where the order of
    insertion is observable.  Collective operations, clocks, thread identities,
    file contents, JSON, hashes, and functions of torch and of vLLM are
    parameters; what the code relies on about them is a named hypothesis, and
    a witness shows it can hold.

    Loops that are not structural take fuel; running out of it is the
    exception [OutOfFuel].  In MemoryPool.v the fuel is [size_fuel], two more
    than the binary logarithm of the size that the loop halves or doubles, and
    the theorems on [allocate] and on the constructor show that it is enough;
    the merge loop has the bound MAX_MERGE_DEPTH = 30 of the source itself.

    ** Part 1: changing vLLM at import

    - PatchRegistry.v, PatchRegistryCorrect.v: patch/runtime_state.py.  The
      registry of patches ([declare], [begin], [mark_applied], [run_patch]).
      A patch that has ended stays ended; over every interleaving of threads
      that call [run_patch] the callback runs at most once, never in two
      threads, and every interleaving ends with exactly one run (of a patch
      whose id has no white space around it).
    - ImportCoordinator.v, ImportCoordinatorCorrect.v:
      patch/import_coordinator.py.  The finder on sys.meta_path, its loaders,
      registration and application of callbacks and of module replacements,
      over an explicit interpreter state.  It calls the registry.  Callbacks
      run at most once over any sequence of calls; imports of modules with a
      failed or unfinished patch only raise; loading a module starts every
      waiting callback; a late replacement is undone by a reset.
    - ModuleExchange.v, ModuleExchangeCorrect.v: patch/module_exchange.py.
      The table of exchanged modules, on top of the coordinator and of Envs.v.
      Registering it arms the whole table or nothing; imports then get the
      replacements.
    - FeatureConfig.v, FeatureConfigCorrect.v: patch/config.py.  The switches
      of the plugin inside the configuration of vLLM.  Validation, and what is
      stored is what is read.
    - Envs.v, EnvsCorrect.v: platforms/envs.py.  The table of environment
      variables.  Every variable reads at its declared type or ends with a
      ValueError when it is set badly.

    ** Part 2: context-parallel prefill

    - LightlyCp.v, LightlyCpCorrect.v: v1/attention/lightly_cp_utils.py.  The
      chunks of the ranks hold every token once, and the gather index undoes
      the split.
    - PcpLayout.v, PcpLayoutCorrect.v, PcpIndexesCorrect.v, PcpCorrect.v,
      PcpPartition.v, PcpPartitionCorrect.v: v1/pcp_manager.py.  The layout of
      a batch (rank segments, virtual rows, gather, mask and restore indexes)
      and the batch of one rank ([partition_batch]).  Restoring the gathered
      outputs gives the batch in order, every token is written to its slot
      once, the dispatch size is exact, and the buffers of a rank hold the
      tokens its rows say.
    - LayerSplit.v, LayerSplitCorrect.v, LayerSplitConfig.v, LayerBroadcast.v,
      LayerBroadcastCorrect.v, SplitCache.v, LayerPacking.v,
      LayerPackingCorrect.v: v1/dsa_cache_layer_split.py and its call sites in
      patch/worker/op_opt/patch_mla_attention.py and
      model_executor/layers/sparse_attn_indexer.py.  Which rank owns which
      layer, the packed slots, when the split is allowed, the broadcasts of
      rows to the ranks that do not own a layer, and the packed byte layout.
      The broadcast is proved against an interface of slots that the packed
      layout discharges; SplitCache.v composes them into a refinement: over
      any sequence of calls the ranks hold and serve the rows of one cache
      that is not split.  The condition on the calls is stated on their
      history, not on what the code holds: no MLA write goes to a layer of
      which an earlier call left rows in the scratch that were sent under other
      active blocks.
    - KvPlanner.v, KvPlannerCorrect.v, KvMemoryCorrect.v:
      patch/platform/framework_opt/patch_dsa_layer_split_kv_config.py and the
      scratch buffers of dsa_cache_layer_split.py.  How many blocks the split
      caches get and the descriptors of the packed plan.  The caches and the
      scratch of any sequence of broadcasts fit the memory the plan was made
      for, planning again with the memory that was used gives the same plan,
      and every worker accepts the plan.
    - KvCache.v, KvViewCorrect.v, KvAllocCorrect.v: v1/kv_cache.py and the
      allocator of v1/hcu_model_runner.py.  Byte tensors, and the strided views
      of the packed and of the flash-attention caches.  A view stays in its
      pages and maps elements to distinct addresses; descriptors share a tensor
      exactly when they name the same backing; when every descriptor names a
      layer and the layers are those of the groups, both allocators agree.
    - KvPipelineCorrect.v composes plan, rewrite, allocation and views: on
      every rank they succeed, and no byte of a layer the rank keeps belongs
      to another layer.
    - KvOffload.v, KvOffloadCorrect.v:
      patch/platform/framework_opt/patch_packed_kv_offload.py.  The CPU copy of
      the packed caches has the layout of the device.
    - RunnerCache.v, RunnerCacheCorrect.v: [_reshape_kv_cache_tensors] of
      v1/hcu_model_runner.py.  The views of the older runner; the states of a
      Mamba layer do not overlap.

    ** Part 3: KV transfer

    - MemoryPool.v, BuddyTiling.v, MemoryPoolCorrect.v, TensorStore.v:
      distributed/kv_transfer/kv_connector/v1/du/tensor_memory_pool.py.  The
      buddy allocator: live blocks are disjoint and tile the arena with the
      free ones, allocation fails only when no block fits, freeing everything
      restores the initial block; tensors stored in it refine a finite map.
    - SwiftEngine.v, SwiftEngineCorrect.v, SwiftRouting.v,
      SwiftRoutingCorrect.v: du_swift_engine.py in the same directory.  The
      stores of received and offered tensors with their byte accounting and
      spill into the pool, the handlers of the listener, the send queue and
      its thread, and the choice of peers.  In every mode but GET the
      receiving side refines a map of tensors (through the refinement of the pool), its bytes are
      accounted for, offers stay below the threshold, the queue drains, and
      the addresses in a request id are read back.
    - SwiftConnector.v, SwiftConnectorCorrect.v: du_swift_connector.py.  The
      scheduler side and the copies of blocks.  A prompt prefilled in chunks
      that each bring new blocks is sent once with all its blocks, and blocks
      arrive in order.
    - MooncakeRegions.v, MooncakeTopology.v, MooncakeSender.v,
      MooncakeReceiver.v and their Correct files, MooncakeAckCorrect.v,
      MooncakeEndToEnd.v: mooncake/mooncake_connector.py next to du.  The
      split of registered caches into transfer regions and the copies between
      the regions of two workers; the bootstrap table and which workers a
      consumer asks; the sender's and the receiver's event loops, where the
      code between two awaits is one step and clocks, peers and the transfer
      engine choose the next one.  The copies move exactly the bytes of the
      requested blocks and no others; the shards of the tensor-parallel ranks
      cover a block once; the workers asked hold every layer and head the
      consumer needs; blocks are not given back while a transfer reads them,
      as long as no transfer is asked for again after it was released;
      a request that is acknowledged was written; a request reported as
      received was acknowledged by every worker asked; and, end to end, the
      bytes of a pulled request are in the consumer's memory.
    - MooncakeLedger.v, MooncakeScheduler.v, MooncakeSchedulerCorrect.v,
      MooncakeProducer.v, MooncakeProducerCorrect.v: the scheduler side of the
      same file.  A producer prefills as many tokens as the consumer counts as
      computed, also when a request is scheduled again; a request is pulled
      once, with the blocks of its allocation.  The scheduler and the worker of
      a producer are composed into one machine: its metadata is built and
      recorded without an exception, blocks are kept until the worker reports
      their request, only finished requests are reported, and a request is
      reported after its deadline once no coroutine transfers its blocks.
      MooncakeLedger.v shows for that what the counter of running transfers
      counts: the coroutines that transfer, and those that ended with an error.

    ** Part 4: experts

    - EplbDispatch.v, EplbDispatchCorrect.v:
      model_executor/layers/fused_moe/eplb_dispatch.py.  The order of the
      replicas of an expert seen from a rank: nearest first, and with primaries
      spread evenly over the ranks.
    - StaticEplb.v, StaticEplbCorrect.v: static_eplb.py in the same directory.
      Reading and validating a placement, agreement of the ranks, binding it
      to a model, and loading a checkpoint through the bound loaders, which
      fills every physical slot with its expert.
    - OfflineRecord.v, OfflineRecordCorrect.v, OfflineHooks.v,
      OfflineHooksCorrect.v: patch/worker/framework_opt/patch_offline_eplb.py.
      The record of proposed placements, on a disk whose operations may fail
      and which may lose power, and the wrappers around the placement code of
      vLLM.  A call refines a map of placements and never leaves a torn
      record, recorded proposals are what a static run loads, recording
      commits and moves nothing whatever vLLM does, and a static model gets
      its bound placement in the order of EplbDispatch.v.

    ** Part 5: sparse attention

    Of model_executor/layers/step4_dsa.py, what is not arithmetic.
    - DsaPending.v: [Step4PendingTable], the rows that hold the tokens of
      regions that are not complete.  Rows used in a step are not recycled in
      it, and two rows for every request are enough.
    - DsaSchedule.v, DsaScheduleCorrect.v: [Step4DSAState] and the builder's
      [build].  The schedules of a step, general, one token per request, and
      verification of speculative tokens, with the buffers a captured graph
      reads again.
    - DsaSummary.v, DsaDecodeCorrect.v, DsaVerifyCorrect.v:
      [_update_summaries] on its paths, and the fused kernel as programs that
      run in any order.  The compression of a region is a parameter.  Each
      path moves the tokens its schedule says and writes no other row.
    - DsaEngine.v composes them: against a reference that keeps the tokens of
      every region, over any sequence of eager, built and replayed steps the
      summary of a complete region of a request is the compression of its
      tokens, also when speculative tokens were rejected in between.

    ** Shared files

    This file: exceptions and the [result] monad, tactics, the hint databases,
    and lemmas on lists, options and integers.  PyString.v: string methods.
    Tensors.v: the operations on one-dimensional tensors that several
    components use.

    ** Theorems that show a fault

    Where the code does not do what it means to, a theorem states what it does
    on a concrete input: [padded_id_never_finishes], [merge_depth_fragments],
    [pinned_tensor_backing], [prepare_metadata_spec],
    [grown_active_set_leaves_stale_row], [asymmetric_stage_unavailable],
    [full_pool_stops_listener], [finished_request_keeps_bytes],
    [offered_twice_asserts], [get_mode_loads_nothing],
    [chunk_without_blocks_not_sent], [misdeclared_defaults],
    [expired_id_reused], [aborted_request_stops_scheduler] and
    [kernel_block_leaks].

    ** Not modelled

    - Kernels and what only wraps them: attention operators and backends,
      the scores of the sparse attention, fused MoE and quantization layers, models,
      operators, C++ and HIP extensions.  Their results are floating-point
      tensors computed by device code.
    - Overrides of classes of vLLM (model runner, worker, platform and most
      patches): without those classes, which are not part of the repository,
      the methods have no meaning of their own.
    - In the modelled files: the attention plan over cached context of
      pcp_manager.py ([build_plan]) and its copies into the buffers of the
      runner; sockets, NCCL and the ping thread of du_swift_engine.py; the
      choice of peers from an address file in [save_kv_layer] of
      du_swift_connector.py; sockets, encoding, threads and statistics of
      mooncake_connector.py; the layer-name mapping of vLLM in
      static_eplb.py; projections, scores, device allocation and the ring of
      staging buffers of step4_dsa.py.
    - Not reached yet, and the plan for later work: [register_kv_caches] of
      mooncake_connector.py, the data-parallel variant of the engine
      (du_swift_engine_dp.py), patch/runtime_callbacks.py on top of the
      coordinator, [build_plan], v1/hcu_dbo.py and v1/glm53_pcp.py. *)

From stdpp Require Export prelude strings list gmap.
From Stdlib Require Export ZArith Lia.

(** ** Python exceptions and results

    An exception is its class and its message.  [OutOfFuel] is not a Python
    class: a loop of the model that exhausts its fuel raises it, and the
    component theorems show that this never happens.  Neither is [Waits]: it
    marks a call that waits for another thread and so does not return. *)

Inductive exn_class :=
  | ValueError
  | TypeError
  | KeyError
  | IndexError
  | RuntimeError
  | AssertionError
  | AttributeError
  | ZeroDivisionError
  | ImportError
  | ModuleNotFoundError
  | OtherError (name : string)
  | OutOfFuel
  | Waits.

#[global] Instance exn_class_eq_dec : EqDecision exn_class.
Proof. solve_decision. Defined.

Record exn := Exn { exn_type : exn_class; exn_msg : string }.

#[global] Instance exn_eq_dec : EqDecision exn.
Proof. solve_decision. Defined.

Inductive result (A : Type) :=
  | Ok (a : A)
  | Err (e : exn).
Arguments Ok {A} _.
Arguments Err {A} _.

#[global] Instance result_ret : MRet result := fun A a => Ok a.
#[global] Instance result_bind : MBind result := fun A B f m =>
  match m with Ok a => f a | Err e => Err e end.

Definition is_ok {A} (r : result A) : bool :=
  match r with Ok _ => true | Err _ => false end.

(** [raises c r]: the computation ends with an exception of class [c]. *)
Definition raises {A} (c : exn_class) (r : result A) : Prop :=
  exists msg, r = Err (Exn c msg).

(** ** State and exceptions

    A method of a Python object is a function of the object's state.  The
    state survives an exception, as an object's attributes do. *)

Definition M (S A : Type) : Type := S -> result A * S.

#[global] Instance M_ret {S} : MRet (M S) := fun A a s => (Ok a, s).
#[global] Instance M_bind {S} : MBind (M S) := fun A B f m s =>
  match m s with
  | (Ok a, s') => f a s'
  | (Err e, s') => (Err e, s')
  end.

Section state_monad.
Context {S : Type}.

Definition raise {A} (c : exn_class) (msg : string) : M S A :=
  fun s => (Err (Exn c msg), s).
Definition throw {A} (e : exn) : M S A := fun s => (Err e, s).
Definition get_state : M S S := fun s => (Ok s, s).
Definition put_state (s : S) : M S unit := fun _ => (Ok tt, s).
Definition modify (f : S -> S) : M S unit := fun s => (Ok tt, f s).

(** [lift r] is a computation that does not touch the state. *)
Definition lift {A} (r : result A) : M S A := fun s => (r, s).

(** [try_ m h]: Python's [try: m except BaseException as e: h(e)]. *)
Definition try_ {A} (m : M S A) (h : exn -> M S A) : M S A := fun s =>
  match m s with
  | (Ok a, s') => (Ok a, s')
  | (Err e, s') => h e s'
  end.

(** A Python [for] loop whose body may raise. *)
Fixpoint for_each {A} (xs : list A) (body : A -> M S unit) : M S unit :=
  match xs with
  | [] => mret tt
  | x :: xs' => body x ≫= fun _ => for_each xs' body
  end.
End state_monad.

(** A statement before another. *)
Notation "m ;; k" := (mbind (fun _ => k) m)
  (at level 100, right associativity, only parsing) : stdpp_scope.

Lemma M_bind_ok {S A B} (m : M S A) (f : A -> M S B) s a s' :
  m s = (Ok a, s') -> (m ≫= f) s = f a s'.
Proof. intros H. unfold mbind, M_bind. by rewrite H. Qed.

Lemma M_bind_err {S A B} (m : M S A) (f : A -> M S B) s e s' :
  m s = (Err e, s') -> (m ≫= f) s = (Err e, s').
Proof. intros H. unfold mbind, M_bind. by rewrite H. Qed.

Lemma M_bind_inv {S A B} (m : M S A) (f : A -> M S B) s b s' :
  (m ≫= f) s = (Ok b, s') ->
  exists a s1, m s = (Ok a, s1) /\ f a s1 = (Ok b, s').
Proof.
  unfold mbind, M_bind. destruct (m s) as [[a|e] s1]; [|done].
  intros H. by exists a, s1.
Qed.

(** ** Insertion-ordered dictionaries

    A Python [dict] keeps its keys in insertion order; assigning to a present
    key keeps the key's place and [popitem] removes the newest key. *)

Definition dict (K V : Type) : Type := list (K * V).

Section dict_ops.
Context {K V : Type} `{EqDecision K}.

Fixpoint dget (d : dict K V) (k : K) : option V :=
  match d with
  | [] => None
  | (k', v) :: d' => if decide (k' = k) then Some v else dget d' k
  end.

(** [d[k] = v] *)
Fixpoint dset (d : dict K V) (k : K) (v : V) : dict K V :=
  match d with
  | [] => [(k, v)]
  | (k', v') :: d' =>
      if decide (k' = k) then (k', v) :: d' else (k', v') :: dset d' k v
  end.

(** [d.pop(k, None)], or [del d[k]] for a present key *)
Fixpoint ddel (d : dict K V) (k : K) : dict K V :=
  match d with
  | [] => []
  | (k', v') :: d' => if decide (k' = k) then d' else (k', v') :: ddel d' k
  end.

(** [d.popitem()] *)
Fixpoint dpopitem (d : dict K V) : option (K * V * dict K V) :=
  match d with
  | [] => None
  | kv :: d' =>
      match dpopitem d' with
      | None => Some (kv, [])
      | Some (last, rest) => Some (last, kv :: rest)
      end
  end.

Definition dkeys (d : dict K V) : list K := map fst d.
Definition dvalues (d : dict K V) : list V := map snd d.
Definition dmem (d : dict K V) (k : K) : bool :=
  match dget d k with Some _ => true | None => false end.
End dict_ops.

(** ** Lemmas on dictionaries *)

Section dict_lemmas.
Context {K V : Type} `{EqDecision K}.
Implicit Types (d : dict K V) (k : K) (v : V).

Lemma dget_dset_eq d k v : dget (dset d k v) k = Some v.
Proof.
  induction d as [|[k' v'] d IH]; simpl.
  - by rewrite decide_True.
  - case_decide; simpl; [by rewrite decide_True | by rewrite decide_False].
Qed.

Lemma dget_dset_ne d k k' v : k <> k' -> dget (dset d k v) k' = dget d k'.
Proof.
  intros Hne. induction d as [|[k0 v0] d IH]; simpl.
  - by rewrite decide_False.
  - repeat (case_decide; simpl); subst; simplify_eq; auto.
Qed.

Lemma dget_dset d k k' v :
  dget (dset d k v) k' = if decide (k = k') then Some v else dget d k'.
Proof.
  case_decide; subst; [apply dget_dset_eq | by apply dget_dset_ne].
Qed.

Lemma dget_None d k : dget d k = None <-> k ∉ dkeys d.
Proof.
  induction d as [|[k' v'] d IH]; simpl; [set_solver|].
  case_decide; set_solver.
Qed.

Lemma dget_Some_key d k v : dget d k = Some v -> k ∈ dkeys d.
Proof.
  intros H. destruct (decide (k ∈ dkeys d)) as [|Hn]; [done|].
  apply dget_None in Hn. congruence.
Qed.

Lemma key_dget_Some d k : k ∈ dkeys d -> exists v, dget d k = Some v.
Proof.
  intros H. destruct (dget d k) eqn:E; [eauto|].
  by apply dget_None in E.
Qed.

Lemma dkeys_dset_in d k v : k ∈ dkeys d -> dkeys (dset d k v) = dkeys d.
Proof.
  induction d as [|[k' v'] d IH]; simpl; [set_solver|].
  intros Hin. case_decide; simpl; [by subst|]. f_equal. apply IH. set_solver.
Qed.

Lemma dset_notin d k v : k ∉ dkeys d -> dset d k v = d ++ [(k, v)].
Proof.
  induction d as [|[k' v'] d IH]; simpl; [done|].
  intros Hin. rewrite decide_False by set_solver. f_equal. apply IH. set_solver.
Qed.

Lemma dkeys_dset_notin d k v : k ∉ dkeys d -> dkeys (dset d k v) = dkeys d ++ [k].
Proof. intros H. rewrite dset_notin by done. unfold dkeys. by rewrite map_app. Qed.

Lemma NoDup_dset d k v : NoDup (dkeys d) -> NoDup (dkeys (dset d k v)).
Proof.
  intros H. destruct (decide (k ∈ dkeys d)).
  - by rewrite dkeys_dset_in.
  - rewrite dkeys_dset_notin by done. apply NoDup_app. split_and!; [done| |].
    + set_solver.
    + apply NoDup_singleton.
Qed.

Lemma dkeys_dset_elem d k v k' : k' ∈ dkeys (dset d k v) <-> k' = k \/ k' ∈ dkeys d.
Proof.
  destruct (decide (k ∈ dkeys d)).
  - rewrite dkeys_dset_in by done. split; [tauto|]. by intros [->|].
  - rewrite dkeys_dset_notin by done. set_solver.
Qed.

Lemma ddel_perm d k v : dget d k = Some v -> d ≡ₚ (k, v) :: ddel d k.
Proof.
  induction d as [|[k' v'] d IH]; simpl; [done|].
  case_decide; intros; simplify_eq; [done|].
  rewrite IH at 1 by done. constructor.
Qed.

Lemma ddel_sublist d k : ddel d k `sublist_of` d.
Proof.
  induction d as [|[k' v'] d IH]; simpl; [done|].
  case_decide; [by constructor|by constructor].
Qed.

Lemma NoDup_ddel d k : NoDup (dkeys d) -> NoDup (dkeys (ddel d k)).
Proof.
  intros H. eapply sublist_NoDup; [exact H|].
  apply (fmap_sublist fst), ddel_sublist.
Qed.

Lemma dget_ddel_ne d k k' : k <> k' -> dget (ddel d k) k' = dget d k'.
Proof.
  intros Hne. induction d as [|[k0 v0] d IH]; simpl; [done|].
  repeat (case_decide; simpl); subst; simplify_eq; auto.
Qed.

Lemma dget_ddel_eq d k : NoDup (dkeys d) -> dget (ddel d k) k = None.
Proof.
  induction d as [|[k0 v0] d IH]; simpl; [done|].
  intros [Hni Hnd]%NoDup_cons. case_decide; subst.
  - by apply dget_None.
  - simpl. rewrite decide_False by done. auto.
Qed.

Lemma dget_elem d k v : dget d k = Some v -> (k, v) ∈ d.
Proof. intros H%ddel_perm. rewrite H. by left. Qed.

Lemma elem_dget d k v : NoDup (dkeys d) -> (k, v) ∈ d -> dget d k = Some v.
Proof.
  induction d as [|[k0 v0] d IH]; simpl; [set_solver|].
  intros [Hni Hnd]%NoDup_cons [Heq|Hin]%elem_of_cons; simplify_eq.
  - by rewrite decide_True.
  - rewrite decide_False; [auto|]. intros ->. apply Hni.
    change k with ((k, v).1). by apply list_elem_of_fmap_2.
Qed.

Lemma dpopitem_app d kv rest : dpopitem d = Some (kv, rest) -> d = rest ++ [kv].
Proof.
  revert kv rest. induction d as [|kv0 d IH]; simpl; [done|].
  intros kv rest. destruct (dpopitem d) as [[last rest']|] eqn:E; intros; simplify_eq.
  - by rewrite (IH _ _ eq_refl).
  - destruct d as [|kv1 d']; [done|]. simpl in E.
    by destruct (dpopitem d') as [[??]|].
Qed.

Lemma dpopitem_None d : dpopitem d = None <-> d = [].
Proof.
  split; [|by intros ->]. destruct d; simpl; [done|].
  by destruct (dpopitem _) as [[??]|].
Qed.

Lemma dvalues_perm d d' : d ≡ₚ d' -> dvalues d ≡ₚ dvalues d'.
Proof. apply Permutation_map. Qed.
End dict_lemmas.

(** ** Machine-independent integer helpers of Python *)

(** [int.bit_length()] *)
Definition bit_length (z : Z) : Z :=
  if (z =? 0)%Z then 0%Z else (Z.log2 (Z.abs z) + 1)%Z.

(** ** Tactics and hints *)

Create HintDb hcu.

(** Case analysis on the boolean comparisons of the model, turned into the
    propositions they decide. *)
Ltac bool_prop :=
  repeat match goal with
  | H : (_ <=? _)%Z = true |- _ => apply Z.leb_le in H
  | H : (_ <=? _)%Z = false |- _ => apply Z.leb_gt in H
  | H : (_ <? _)%Z = true |- _ => apply Z.ltb_lt in H
  | H : (_ <? _)%Z = false |- _ => apply Z.ltb_ge in H
  | H : (_ =? _)%Z = true |- _ => apply Z.eqb_eq in H
  | H : (_ =? _)%Z = false |- _ => apply Z.eqb_neq in H
  | H : (_ && _) = true |- _ => apply andb_true_iff in H; destruct H
  | H : (_ || _) = false |- _ => apply orb_false_iff in H; destruct H
  | H : negb _ = true |- _ => apply negb_true_iff in H
  | H : negb _ = false |- _ => apply negb_false_iff in H
  end.

(** Splits the innermost conditional of the goal. *)
Ltac case_if :=
  match goal with
  | |- context [if ?b then _ else _] =>
      lazymatch type of b with
      | bool => let E := fresh "E" in destruct b eqn:E; bool_prop
      end
  end.

(** Runs the state monad one step. *)
Ltac munfold :=
  unfold mbind, M_bind, mret, M_ret, get_state, put_state, modify, raise, throw, lift in *;
  cbn beta iota in *.
