(* ===== verification/PatchRegistry.v ===== *)
(** * The process-local patch registry

    Models src/vllm_hcu/patch/runtime_state.py: the lifecycle record of every
    runtime patch, claimed by one thread at a time, and [run_patch], which
    applies a patch once and latches its failure.

    Parameters annotated [str] or [bool] in the source are taken at these
    types, so the [isinstance] tests on them hold.  A method body runs under
    the registry's lock and is one atomic step; [now] is the value of
    [time.time()] and [tid] that of [threading.get_ident()]. *)

From S2P Require Import Prelude PyString.
From stdpp Require Import sorting.
From Stdlib Require Import Ascii String.
Local Open Scope string_scope.

Module Registry.

(** ** Data *)

Inductive ProcessRole := MAIN | ENGINE_CORE | WORKER.

Inductive PatchStatus := ARMED | APPLYING | APPLIED | SKIPPED | FAILED.

#[global] Instance ProcessRole_eq_dec : EqDecision ProcessRole.
Proof. solve_decision. Defined.
#[global] Instance PatchStatus_eq_dec : EqDecision PatchStatus.
Proof. solve_decision. Defined.

(** [PatchStatus.value] *)
Definition status_value (s : PatchStatus) : string :=
  match s with
  | ARMED => "armed" | APPLYING => "applying" | APPLIED => "applied"
  | SKIPPED => "skipped" | FAILED => "failed"
  end.

Definition role_value (r : ProcessRole) : string :=
  match r with MAIN => "Main" | ENGINE_CORE => "EngineCore" | WORKER => "Worker" end.

Record PatchRecord := Record_ {
  patch_id : string;
  status : PatchStatus;
  targets : list string;
  feature_enabled : bool;
  failure_reason : option string;
  updated_at : Z
}.

Record PatchRegistry := MkRegistry {
  records : dict string PatchRecord;
  owners : dict string Z;
  role : option ProcessRole
}.

Definition empty_registry : PatchRegistry := MkRegistry [] [] None.

Definition set_records (rs : dict string PatchRecord) (r : PatchRegistry) : PatchRegistry :=
  MkRegistry rs (owners r) (role r).
Definition set_owners (os : dict string Z) (r : PatchRegistry) : PatchRegistry :=
  MkRegistry (records r) os (role r).

(** [str | Sequence[str]] *)
Inductive targets_arg := OneTarget (s : string) | Targets (l : list string).

(** [BaseException | str] *)
Inductive failure_arg := FailExn (e : exn) | FailStr (s : string).

Definition LatchedPatchError : exn_class := OtherError "LatchedPatchError".

(** [type(error).__name__] *)
Definition class_name (c : exn_class) : string :=
  match c with
  | ValueError => "ValueError" | TypeError => "TypeError" | KeyError => "KeyError"
  | IndexError => "IndexError" | RuntimeError => "RuntimeError"
  | AssertionError => "AssertionError" | AttributeError => "AttributeError"
  | ZeroDivisionError => "ZeroDivisionError" | ImportError => "ImportError"
  | ModuleNotFoundError => "ModuleNotFoundError" | OtherError n => n
  | OutOfFuel | Waits => ""
  end.

(** ** Validation *)

Definition validate_patch_id (pid : string) : result string :=
  if blank pid then Err (Exn ValueError "patch_id must be a non-empty string")
  else Ok (strip pid).

Definition normalise_targets (ts : targets_arg) : result (list string) :=
  let values := match ts with OneTarget s => [s] | Targets l => l end in
  match values with
  | [] => Err (Exn ValueError "targets must contain at least one non-empty symbol name")
  | _ =>
      if existsb blank values
      then Err (Exn ValueError "targets must contain at least one non-empty symbol name")
      else Ok (map strip values)
  end.

Definition format_failure (f : failure_arg) : result string :=
  match f with
  | FailExn e =>
      Ok (if decide (exn_msg e = "") then class_name (exn_type e)
          else class_name (exn_type e) ++ ": " ++ exn_msg e)
  | FailStr s =>
      if blank s
      then Err (Exn ValueError "failure reason must be a non-empty string or exception")
      else Ok (strip s)
  end.

(** ** Process role *)

Definition role_aliases : dict string ProcessRole :=
  [("main", MAIN); ("mainprocess", MAIN); ("enginecore", ENGINE_CORE);
   ("engine", ENGINE_CORE); ("worker", WORKER)].

(** [_normalise_role] on a string; a [ProcessRole] is returned as it is *)
Definition normalise_role (s : string) : result ProcessRole :=
  let normalised := remove_char "-"%char (remove_char "_"%char (lower (strip s))) in
  match dget role_aliases normalised with
  | Some r => Ok r
  | None => Err (Exn ValueError ("unknown process role " ++ repr s))
  end.

(** [detect_process_role] from the environment variable, if set, and the name
    of the current process *)
Definition detect_process_role (explicit : option string) (process_name : string)
    : result ProcessRole :=
  match explicit with
  | Some (String c s) => normalise_role (String c s)
  | _ =>
      let compact_name := remove_char "-"%char (remove_char "_"%char (lower process_name)) in
      if contains "enginecore" compact_name then Ok ENGINE_CORE
      else if contains "worker" compact_name then Ok WORKER
      else Ok MAIN
  end.

Definition set_process_role (s : ProcessRole + string) : M PatchRegistry unit :=
  r ← lift (match s with inl r => Ok r | inr s => normalise_role s end);
  modify (fun g => MkRegistry (records g) (owners g) (Some r)).

Definition process_role (explicit : option string) (process_name : string)
    : M PatchRegistry ProcessRole :=
  g ← get_state;
  match role g with
  | Some r => mret r
  | None => lift (detect_process_role explicit process_name)
  end.

(** ** Registry operations *)

Definition declare (pid : string) (ts : targets_arg) (now : Z) : M PatchRegistry PatchRecord :=
  pid' ← lift (validate_patch_id pid);
  target_tuple ← lift (normalise_targets ts);
  g ← get_state;
  match dget (records g) pid' with
  | Some existing =>
      if decide (targets existing = target_tuple) then mret existing
      else raise ValueError ("patch id " ++ repr pid' ++ " is already bound")
  | None =>
      let record := Record_ pid' ARMED target_tuple false None now in
      put_state (set_records (dset (records g) pid' record) g) ;;
      mret record
  end.

(** What a call of [begin] does once it holds the lock: claim the patch,
    report that there is nothing to do, or wait on the condition variable. *)
Inductive begin_outcome := Claimed | NothingToDo | Blocked.

Definition begin (tid : Z) (pid : string) (now : Z) : M PatchRegistry begin_outcome :=
  pid' ← lift (validate_patch_id pid);
  g ← get_state;
  match dget (records g) pid' with
  | None => raise KeyError ("patch " ++ repr pid' ++ " has not been declared")
  | Some record =>
      match status record with
      | APPLYING =>
          if decide (dget (owners g) pid' = Some tid)
          then raise RuntimeError ("re-entrant application of patch " ++ repr pid')
          else mret Blocked
      | FAILED => raise LatchedPatchError ("patch " ++ repr pid' ++ " previously failed")
      | APPLIED | SKIPPED => mret NothingToDo
      | ARMED =>
          let claimed := Record_ (patch_id record) APPLYING (targets record)
                           (feature_enabled record) None now in
          put_state (MkRegistry (dset (records g) pid' claimed)
                       (dset (owners g) pid' tid) (role g)) ;;
          mret Claimed
      end
  end.

Definition require_record (pid : string) : M PatchRegistry PatchRecord :=
  pid' ← lift (validate_patch_id pid);
  g ← get_state;
  match dget (records g) pid' with
  | Some record => mret record
  | None => raise KeyError ("patch " ++ repr pid' ++ " has not been declared")
  end.

(** [_finish] files the record under the id it is given. *)
Definition finish (pid : string) (record : PatchRecord) : M PatchRegistry unit :=
  modify (fun g => MkRegistry (dset (records g) pid record) (ddel (owners g) pid) (role g)).

Definition mark_applied (pid : string) (enabled : bool) (now : Z)
    : M PatchRegistry PatchRecord :=
  record ← require_record pid;
  match status record with
  | APPLIED => mret record
  | APPLYING =>
      let updated := Record_ (patch_id record) APPLIED (targets record) enabled None now in
      finish pid updated ;; mret updated
  | s => raise RuntimeError
      ("cannot mark patch " ++ repr pid ++ " applied from " ++ repr (status_value s))
  end.

Definition mark_skipped (pid : string) (reason : option string) (now : Z)
    : M PatchRegistry PatchRecord :=
  record ← require_record pid;
  match status record with
  | SKIPPED => mret record
  | ARMED | APPLYING =>
      let updated := Record_ (patch_id record) SKIPPED (targets record)
                       (feature_enabled record) reason now in
      finish pid updated ;; mret updated
  | s => raise RuntimeError
      ("cannot skip patch " ++ repr pid ++ " from " ++ repr (status_value s))
  end.

Definition mark_failed (pid : string) (error : failure_arg) (now : Z)
    : M PatchRegistry PatchRecord :=
  reason ← lift (format_failure error);
  record ← require_record pid;
  match status record with
  | FAILED => mret record
  | APPLIED | SKIPPED => raise RuntimeError
      ("cannot fail patch " ++ repr pid ++ " from " ++ repr (status_value (status record)))
  | ARMED | APPLYING =>
      let updated := Record_ (patch_id record) FAILED (targets record)
                       (feature_enabled record) (Some reason) now in
      finish pid updated ;; mret updated
  end.

Definition set_feature_enabled (pid : string) (enabled : bool) (now : Z)
    : M PatchRegistry PatchRecord :=
  record ← require_record pid;
  match status record with
  | ARMED | APPLIED | SKIPPED =>
      let updated := Record_ (patch_id record) (status record) (targets record)
                       enabled (failure_reason record) now in
      modify (fun g => set_records (dset (records g) pid updated) g) ;;
      mret updated
  | s => raise RuntimeError
      ("feature state requires an armed, applied, or skipped patch, got " ++
       repr (status_value s))
  end.

(** [get]: by the id as given *)
Definition get (g : PatchRegistry) (pid : string) : option PatchRecord :=
  dget (records g) pid.

(** [snapshot]: the records in the order of their ids *)
Definition snapshot (g : PatchRegistry) : list PatchRecord :=
  omap (dget (records g)) (merge_sort String.le (dkeys (records g))).

(** [report]: the snapshot as a dictionary, with the process id and role *)
Definition report (pid : Z) (explicit : option string) (process_name : string)
    : M PatchRegistry (Z * string * dict string PatchRecord) :=
  r ← process_role explicit process_name;
  g ← get_state;
  mret (pid, role_value r,
        foldl (fun d record => dset d (patch_id record) record) [] (snapshot g)).

Definition reset_for_tests (_ : PatchRegistry) : PatchRegistry := empty_registry.

(** ** Applying a patch

    The callback is any computation over the registry and the rest [W] of the
    process, so it may itself use the registry. *)

Section run_patch.
Context {W : Type}.

Definition on_registry {A} (m : M PatchRegistry A) : M (PatchRegistry * W) A := fun s =>
  let (r, g) := m s.1 in (r, (g, s.2)).

(** The value of [begin] in a process with no other thread: a call that would
    wait for another owner never returns. *)
Definition begin_now (tid : Z) (pid : string) (now : Z) : M (PatchRegistry * W) bool :=
  o ← on_registry (begin tid pid now);
  match o with
  | Claimed => mret true
  | NothingToDo => mret false
  | Blocked => raise Waits "the owner of the patch has not finished"
  end.

Definition run_patch {T} (tid : Z) (pid : string) (ts : targets_arg)
    (callback : M (PatchRegistry * W) T) (enabled : bool) (now : Z)
    : M (PatchRegistry * W) (option T) :=
  on_registry (declare pid ts now) ;;
  claimed ← begin_now tid pid now;
  if (claimed : bool) then
    value ← try_ callback (fun e =>
      on_registry (mark_failed pid (FailExn e) now) ;; throw e);
    on_registry (mark_applied pid enabled now) ;;
    mret (Some value)
  else mret None.

(** The context manager: [body] is the code of the [with] block, given what
    the manager yields. *)
Definition applying_patch {T} (tid : Z) (pid : string) (ts : targets_arg)
    (body : bool -> M (PatchRegistry * W) T) (enabled : bool) (now : Z)
    : M (PatchRegistry * W) T :=
  on_registry (declare pid ts now) ;;
  should_apply ← begin_now tid pid now;
  if (should_apply : bool) then
    value ← try_ (body true) (fun e =>
      on_registry (mark_failed pid (FailExn e) now) ;; throw e);
    on_registry (mark_applied pid enabled now) ;;
    mret value
  else body false.
End run_patch.

End Registry.
