(* ===== verification/PatchRegistryCorrect.v ===== *)
(** * Correctness of the patch registry

    The lifecycle of a patch over arbitrary sequences of registry calls, the
    report, [run_patch], and mutual exclusion over interleaved threads. *)

From S2P Require Import Prelude PyString PatchRegistry.
From stdpp Require Import sorting.
From Stdlib Require Import Ascii String Wellfounded Wf_nat.
Import Registry.
Local Open Scope string_scope.

(** ** Identifiers *)

(** An id without surrounding white space, as every caller in the plugin
    writes it. *)
Definition normal (pid : string) : Prop := strip pid = pid /\ pid <> "".

#[global] Instance normal_dec pid : Decision (normal pid).
Proof. unfold normal. apply _. Defined.

Lemma validate_normal pid : normal pid -> validate_patch_id pid = Ok pid.
Proof.
  intros [Hs Hn]. unfold validate_patch_id, blank. rewrite Hs.
  by rewrite decide_False.
Qed.

Lemma validate_Ok pid pid' : validate_patch_id pid = Ok pid' -> pid' = strip pid /\ normal pid'.
Proof.
  unfold validate_patch_id, blank, normal. case_decide; intros; simplify_eq.
  split; [done|]. by rewrite strip_idemp.
Qed.

(** ** The lifecycle *)

Definition status_of (g : PatchRegistry) (k : string) : option PatchStatus :=
  status <$> dget (records g) k.

(** The transitions of one record. *)
Inductive moves : option PatchStatus -> option PatchStatus -> Prop :=
  | moves_stay s : moves s s
  | moves_declare : moves None (Some ARMED)
  | moves_claim : moves (Some ARMED) (Some APPLYING)
  | moves_apply : moves (Some APPLYING) (Some APPLIED)
  | moves_skip s : s = ARMED \/ s = APPLYING -> moves (Some s) (Some SKIPPED)
  | moves_fail s : s = ARMED \/ s = APPLYING -> moves (Some s) (Some FAILED).

#[export] Hint Constructors moves : hcu.

#[global] Instance result_eq_dec {A} `{EqDecision A} : EqDecision (result A).
Proof. solve_decision. Defined.
#[global] Instance begin_outcome_eq_dec : EqDecision begin_outcome.
Proof. solve_decision. Defined.

Definition terminal (s : PatchStatus) : bool :=
  match s with APPLIED | SKIPPED | FAILED => true | _ => false end.

Inductive reg_op :=
  | ODeclare (pid : string) (ts : targets_arg) (now : Z)
  | OBegin (tid : Z) (pid : string) (now : Z)
  | OApplied (pid : string) (enabled : bool) (now : Z)
  | OSkipped (pid : string) (reason : option string) (now : Z)
  | OFailed (pid : string) (error : failure_arg) (now : Z)
  | OFeature (pid : string) (enabled : bool) (now : Z).

Definition op_id (o : reg_op) : string :=
  match o with
  | ODeclare pid _ _ | OBegin _ pid _ | OApplied pid _ _ | OSkipped pid _ _
  | OFailed pid _ _ | OFeature pid _ _ => pid
  end.

(** The registry after a call, whether it returned or raised. *)
Definition after (o : reg_op) (g : PatchRegistry) : PatchRegistry :=
  match o with
  | ODeclare pid ts now => (declare pid ts now g).2
  | OBegin tid pid now => (begin tid pid now g).2
  | OApplied pid enabled now => (mark_applied pid enabled now g).2
  | OSkipped pid reason now => (mark_skipped pid reason now g).2
  | OFailed pid error now => (mark_failed pid error now g).2
  | OFeature pid enabled now => (set_feature_enabled pid enabled now g).2
  end.

(** Every call leaves the registry alone or replaces one record: the one it
    names, by a successor that keeps the record's id and targets, with the
    owner table kept in step. *)
Definition updates (pid : string) (g g' : PatchRegistry) : Prop :=
  g' = g \/
  exists old new, g' = MkRegistry (dset (records g) pid new) (owners g') (role g) /\
    dget (records g) pid = old /\ moves (status <$> old) (Some (status new)) /\
    patch_id new = default pid (patch_id <$> old) /\
    (forall r, old = Some r -> targets new = targets r) /\
    (owners g' = owners g /\ (status new = APPLYING -> (status <$> old) = Some APPLYING) /\
       ((status <$> old) = Some APPLYING -> status new = APPLYING) \/
     (exists tid, owners g' = dset (owners g) pid tid /\ status new = APPLYING) \/
     (owners g' = ddel (owners g) pid /\ status new <> APPLYING)).

Ltac registry_cases :=
  unfold declare, begin, mark_applied, mark_skipped, mark_failed, set_feature_enabled,
    require_record, finish, set_records; munfold;
  repeat first [ rewrite validate_normal by done | case_match; simplify_eq/= | done ].

Lemma after_updates o g : normal (op_id o) -> updates (op_id o) g (after o g).
Proof.
  intros Hn. destruct o; simpl in *; registry_cases; try (by left);
    right; (eexists _, _; split; [reflexivity|]; split; [reflexivity|]);
    repeat match goal with H : dget _ _ = _ |- _ => rewrite H end; simpl;
    repeat match goal with H : status _ = _ |- _ => rewrite H end;
    (split; [by eauto with hcu|]); (split; [done|]);
    (split; [by intros; simplify_eq|]); naive_solver.
Qed.

Lemma updates_moves pid g g' k :
  updates pid g g' -> moves (status_of g k) (status_of g' k).
Proof.
  intros [->|(old & new & -> & Hold & Hm & _)]; [constructor|].
  unfold status_of. simpl. rewrite dget_dset. case_decide as E.
  - subst. done.
  - constructor.
Qed.

Lemma updates_targets pid g g' k r :
  updates pid g g' -> dget (records g) k = Some r ->
  exists r', dget (records g') k = Some r' /\ targets r' = targets r.
Proof.
  intros [->|(old & new & -> & Hold & _ & _ & Ht & _)] Hr; [eauto|].
  simpl. rewrite dget_dset. case_decide; [|eauto]. subst. eexists. eauto.
Qed.

(** A run of registry calls, successful or not. *)
Definition after_all (ops : list reg_op) (g : PatchRegistry) : PatchRegistry :=
  foldl (fun g o => after o g) g ops.

Lemma moves_terminal s s' : moves (Some s) s' -> terminal s = true -> s' = Some s.
Proof. inversion 1; naive_solver. Qed.

(** Once a patch is applied, skipped or failed, it stays so: no sequence of
    registry calls, from whatever threads and for whatever ids, moves it to
    another status, and a patch never changes the targets it was declared
    with. *)
Theorem terminal_status_latched ops g k s r :
  Forall (fun o => normal (op_id o)) ops ->
  dget (records g) k = Some r -> status r = s -> terminal s = true ->
  exists r', dget (records (after_all ops g)) k = Some r' /\
    status r' = s /\ targets r' = targets r.
Proof.
  intros Hops. revert g r. induction ops as [|o ops IH]; intros g r Hr Hs Ht; [eauto|].
  apply Forall_cons in Hops as [Ho Hops]. simpl.
  pose proof (after_updates o g Ho) as Hu.
  destruct (updates_targets _ _ _ _ _ Hu Hr) as (r1 & Hr1 & Ht1).
  pose proof (updates_moves _ _ _ k Hu) as Hm. unfold status_of in Hm.
  rewrite Hr, Hr1 in Hm. simpl in Hm. rewrite Hs in Hm.
  apply moves_terminal in Hm; [|done]. simplify_eq.
  destruct (IH Hops _ _ Hr1) as (r2 & ? & ? & ?); [congruence|done|].
  exists r2. split_and!; congruence.
Qed.

(** ** Threads that apply the same patch

    Any number of threads call [run_patch] for one patch.  Each call is its
    sequence of registry calls with the callback in between, and the calls of
    different threads interleave freely: the lock makes each registry call
    atomic and a thread that has to wait takes no step. *)

Section threads.
Context (pid : string) (ts : targets_arg) (enabled : bool).

Inductive thread_pc :=
  | Start
  | AtBegin
  | InCallback
  | CallbackDone (raised : option exn)
  | Finished (r : result bool).

Record system := System {
  sys_registry : PatchRegistry;
  sys_threads : gmap Z thread_pc;
  sys_runs : nat  (** how often the callback was entered *)
}.

Definition after_begin (r : result begin_outcome) : thread_pc :=
  match r with
  | Ok Claimed => InCallback
  | Ok _ => Finished (Ok false)
  | Err e => Finished (Err e)
  end.

Inductive sys_step : system -> system -> Prop :=
  | step_declare t now r g g' ths n :
      ths !! t = Some Start -> declare pid ts now g = (r, g') ->
      sys_step (System g ths n)
        (System g' (<[t := match r with Ok _ => AtBegin | Err e => Finished (Err e) end]> ths) n)
  | step_begin t now r g g' ths n :
      ths !! t = Some AtBegin -> begin t pid now g = (r, g') -> r <> Ok Blocked ->
      sys_step (System g ths n) (System g' (<[t := after_begin r]> ths) n)
  | step_call t raised g ths n :
      ths !! t = Some InCallback ->
      sys_step (System g ths n) (System g (<[t := CallbackDone raised]> ths) (S n))
  | step_applied t now r g g' ths n :
      ths !! t = Some (CallbackDone None) -> mark_applied pid enabled now g = (r, g') ->
      sys_step (System g ths n)
        (System g' (<[t := Finished (match r with Ok _ => Ok true | Err e => Err e end)]> ths) n)
  | step_failed t now e r g g' ths n :
      ths !! t = Some (CallbackDone (Some e)) -> mark_failed pid (FailExn e) now g = (r, g') ->
      sys_step (System g ths n)
        (System g' (<[t := Finished (match r with Ok _ => Err e | Err e' => Err e' end)]> ths) n).

Definition initial (s : system) : Prop :=
  dget (records (sys_registry s)) pid = None /\ sys_runs s = 0 /\
  forall t pc, sys_threads s !! t = Some pc -> pc = Start.

Definition active (pc : thread_pc) : bool :=
  match pc with InCallback | CallbackDone _ => true | _ => false end.

Definition unfinished (pc : thread_pc) : bool :=
  match pc with Finished _ => false | _ => true end.

(** What the registry says of the patch determines what the threads do. *)
Inductive sys_inv (s : system) : Prop :=
  | inv_idle :
      (status_of (sys_registry s) pid = None \/ status_of (sys_registry s) pid = Some ARMED) ->
      sys_runs s = 0 ->
      (forall t pc, sys_threads s !! t = Some pc -> pc = Start \/
         (pc = AtBegin /\ status_of (sys_registry s) pid = Some ARMED)) -> sys_inv s
  | inv_applying t :
      status_of (sys_registry s) pid = Some APPLYING ->
      dget (owners (sys_registry s)) pid = Some t ->
      (sys_threads s !! t = Some InCallback /\ sys_runs s = 0 \/
       exists raised, sys_threads s !! t = Some (CallbackDone raised) /\ sys_runs s = 1) ->
      (forall t' pc, sys_threads s !! t' = Some pc -> t' <> t -> pc = Start \/ pc = AtBegin) ->
      sys_inv s
  | inv_over st :
      status_of (sys_registry s) pid = Some st -> st = APPLIED \/ st = FAILED ->
      sys_runs s = 1 ->
      (forall t pc, sys_threads s !! t = Some pc -> active pc = false) -> sys_inv s.

Definition bound (tgt : list string) (g : PatchRegistry) : Prop :=
  forall r, dget (records g) pid = Some r -> targets r = tgt.

Context (tgt : list string).
Hypothesis Hpid : normal pid.
Hypothesis Hts : normalise_targets ts = Ok tgt.

Lemma declare_case g now :
  bound tgt g ->
  exists r g', declare pid ts now g = (Ok r, g') /\ bound tgt g' /\
    (status_of g pid = None /\ status_of g' pid = Some ARMED \/
     is_Some (status_of g pid) /\ g' = g).
Proof.
  intros Hb. unfold declare, status_of, bound in *. munfold.
  rewrite validate_normal, Hts by done.
  destruct (dget (records g) pid) as [r|] eqn:E.
  - rewrite decide_True by eauto. simpl. eexists _, _. rewrite E. eauto.
  - eexists _, _. split; [done|]. simpl. rewrite dget_dset_eq.
    split; [by intros; simplify_eq|by left].
Qed.

(** The new registry holds a record of status [st] for the patch. *)
Definition filed (st : PatchStatus) (g : PatchRegistry) : Prop :=
  status_of g pid = Some st /\ bound tgt g.

Lemma filed_dset g st r os :
  status r = st -> targets r = tgt ->
  filed st (MkRegistry (dset (records g) pid r) os (role g)).
Proof.
  intros Hs Ht. unfold filed, status_of, bound. simpl. rewrite dget_dset_eq. simpl.
  split; [congruence|]. by intros; simplify_eq.
Qed.

Lemma status_record g st :
  status_of g pid = Some st -> exists r, dget (records g) pid = Some r /\ status r = st.
Proof.
  unfold status_of. destruct (dget _ _) as [r|]; simpl; [|done].
  intros; simplify_eq. eauto.
Qed.

Lemma begin_case g t now :
  bound tgt g ->
  match status_of g pid with
  | None => exists e, begin t pid now g = (Err e, g)
  | Some ARMED => exists g', begin t pid now g = (Ok Claimed, g') /\ filed APPLYING g' /\
      dget (owners g') pid = Some t
  | Some APPLYING =>
      dget (owners g) pid <> Some t -> begin t pid now g = (Ok Blocked, g)
  | Some FAILED => exists e, begin t pid now g = (Err e, g)
  | Some _ => begin t pid now g = (Ok NothingToDo, g)
  end.
Proof.
  intros Hb. destruct (status_of g pid) as [st|] eqn:E; unfold begin; munfold;
    rewrite validate_normal by done.
  - destruct (status_record _ _ E) as (r & Hr & Hs). rewrite Hr, Hs.
    destruct st; cbn; [|by intros; rewrite decide_False|done|done|by eexists].
    eexists. split; [done|]. split; [apply filed_dset; [done|exact (Hb r Hr)]|].
    apply dget_dset_eq.
  - unfold status_of in E. destruct (dget (records g) pid); [done|by eexists].
Qed.

Lemma finish_case g now :
  bound tgt g -> status_of g pid = Some APPLYING ->
  (exists r g', mark_applied pid enabled now g = (Ok r, g') /\ filed APPLIED g') /\
  (forall e, exists r g', mark_failed pid (FailExn e) now g = (Ok r, g') /\ filed FAILED g').
Proof.
  intros Hb E. destruct (status_record _ _ E) as (r & Hr & Hs).
  split; [|intros e]; unfold mark_applied, mark_failed, require_record, finish;
    munfold; simpl; rewrite validate_normal, Hr, Hs by done; eexists _, _;
    (split; [done|]); apply filed_dset; first [reflexivity|exact (Hb r Hr)].
Qed.

(** The thread that just moved, and the others. *)
Ltac thread_cases :=
  let t := fresh "t" in let pc := fresh "pc" in let Hpc := fresh "Hpc" in
  intros t pc; rewrite lookup_insert_Some; intros [[<- <-]|[? Hpc]].

Lemma inv_declare t now r g g' ths n :
  bound tgt g -> sys_inv (System g ths n) -> ths !! t = Some Start ->
  declare pid ts now g = (r, g') ->
  bound tgt g' /\
  sys_inv (System g' (<[t := match r with Ok _ => AtBegin | Err e => Finished (Err e) end]> ths) n).
Proof.
  intros Hb Hi Ht Hd. destruct (declare_case g now Hb) as (r0 & g0 & E & Hb' & Hc).
  rewrite Hd in E. simplify_eq. split; [done|].
  destruct Hi as [Hst Hn Hth|t0 Hst Ho Hrun Hth|st Hst Hov Hn Hth]; simpl in *.
  - apply inv_idle; simpl; [destruct Hc as [[_ ->]|[? ->]]; auto|done|].
    thread_cases.
    + right. split; [done|]. destruct Hc as [[_ ?]|[[? ?] ->]]; naive_solver.
    + apply Hth in Hpc as [?|[? ?]]; [by left|]. right. naive_solver.
  - destruct Hc as [[? _]|[_ ->]]; [congruence|].
    assert (t <> t0) by (intros ->; naive_solver).
    apply (inv_applying _ t0); simpl; [done|done|by rewrite lookup_insert_ne|].
    thread_cases; eauto.
  - destruct Hc as [[? _]|[_ ->]]; [congruence|].
    apply (inv_over _ st); simpl; [done|done|done|]. thread_cases; eauto.
Qed.

Lemma inv_begin t now r g g' ths n :
  bound tgt g -> sys_inv (System g ths n) -> ths !! t = Some AtBegin ->
  begin t pid now g = (r, g') -> r <> Ok Blocked ->
  bound tgt g' /\ sys_inv (System g' (<[t := after_begin r]> ths) n).
Proof.
  intros Hb Hi Ht Hbeg Hnb. pose proof (begin_case g t now Hb) as Hc.
  destruct Hi as [Hst Hn Hth|t0 Hst Ho Hrun Hth|st Hst Hov Hn Hth]; simpl in *.
  - destruct (Hth _ _ Ht) as [?|[_ Ha]]; [done|]. rewrite Ha in Hc.
    destruct Hc as (g0 & E & [Hf Hb'] & Ho). rewrite Hbeg in E. simplify_eq.
    split; [done|]. apply (inv_applying _ t); simpl; [done|done| |].
    + left. by rewrite lookup_insert_eq.
    + thread_cases; [done|]. intros _. apply Hth in Hpc. naive_solver.
  - rewrite Hst in Hc. assert (t <> t0) by (intros ->; naive_solver).
    rewrite Hc in Hbeg by congruence. simplify_eq.
  - rewrite Hst in Hc. assert (g' = g /\ exists x, after_begin r = Finished x) as [-> [x ->]].
    { destruct Hov as [-> | ->]; [|destruct Hc as [e Hc]];
        rewrite Hbeg in Hc; simplify_eq; simpl; eauto. }
    split; [done|]. apply (inv_over _ st); simpl; [done..|]. thread_cases; eauto.
Qed.

Lemma inv_call t raised g ths n :
  sys_inv (System g ths n) -> ths !! t = Some InCallback ->
  sys_inv (System g (<[t := CallbackDone raised]> ths) (S n)).
Proof.
  intros Hi Ht. destruct Hi as [Hst Hn Hth|t0 Hst Ho Hrun Hth|st Hst Hov Hn Hth]; simpl in *.
  - destruct (Hth _ _ Ht); naive_solver.
  - destruct (decide (t = t0)) as [->|]; [|destruct (Hth _ _ Ht); naive_solver].
    apply (inv_applying _ t0); simpl; [done|done| |].
    + right. exists raised. rewrite lookup_insert_eq. naive_solver.
    + thread_cases; [done|eauto].
  - apply Hth in Ht. done.
Qed.

(** A thread back from its callback is the owner of the patch. *)
Lemma callback_done_owner t raised g ths n :
  sys_inv (System g ths n) -> ths !! t = Some (CallbackDone raised) ->
  status_of g pid = Some APPLYING /\ n = 1 /\
  forall t' pc, ths !! t' = Some pc -> t' <> t -> pc = Start \/ pc = AtBegin.
Proof.
  intros Hi Ht. destruct Hi as [Hst Hn Hth|t0 Hst Ho Hrun Hth|st Hst Hov Hn Hth]; simpl in *.
  - destruct (Hth _ _ Ht); naive_solver.
  - destruct (decide (t = t0)) as [->|]; [|destruct (Hth _ _ Ht); naive_solver].
    split_and!; [done|naive_solver|done].
  - apply Hth in Ht. done.
Qed.

Lemma inv_marked t x st g' ths n :
  filed st g' -> st = APPLIED \/ st = FAILED -> n = 1 ->
  (forall t' pc, ths !! t' = Some pc -> t' <> t -> pc = Start \/ pc = AtBegin) ->
  sys_inv (System g' (<[t := Finished x]> ths) n).
Proof.
  intros [Hst _] Hov Hn Hth. apply (inv_over _ st); simpl; [done..|].
  thread_cases; [done|]. apply Hth in Hpc; naive_solver.
Qed.

Lemma sys_inv_step s s' :
  bound tgt (sys_registry s) -> sys_inv s -> sys_step s s' ->
  bound tgt (sys_registry s') /\ sys_inv s'.
Proof.
  intros Hb Hi Hs. destruct Hs as [t now r g g' ths n Ht Hd|t now r g g' ths n Ht Hbeg Hnb
    |t raised g ths n Ht|t now r g g' ths n Ht Hm|t now e r g g' ths n Ht Hm]; simpl in *.
  - by eapply inv_declare.
  - by eapply inv_begin.
  - split; [done|]. by apply inv_call.
  - destruct (callback_done_owner _ _ _ _ _ Hi Ht) as (Hst & Hn & Hth).
    destruct (finish_case g now Hb Hst) as [(r0 & g0 & E & Hf) _].
    rewrite Hm in E. simplify_eq. split; [apply Hf|]. eapply inv_marked; eauto.
  - destruct (callback_done_owner _ _ _ _ _ Hi Ht) as (Hst & Hn & Hth).
    destruct (finish_case g now Hb Hst) as [_ Hfail].
    destruct (Hfail e) as (r0 & g0 & E & Hf).
    rewrite Hm in E. simplify_eq. split; [apply Hf|]. eapply inv_marked; eauto.
Qed.

Lemma sys_inv_reachable s s' :
  initial s -> rtc sys_step s s' -> bound tgt (sys_registry s') /\ sys_inv s'.
Proof.
  intros (Hr & Hn & Hth) Hsteps.
  assert (bound tgt (sys_registry s) /\ sys_inv s) as Hi.
  { split; [intros r; congruence|]. apply inv_idle.
    - left. unfold status_of. by rewrite Hr.
    - done.
    - intros t pc Ht. left. eauto. }
  clear Hr Hn Hth. induction Hsteps as [|s1 s2 s3 Hs Hsteps IH]; [done|].
  apply IH. destruct Hi. by eapply sys_inv_step.
Qed.

(** A thread that has not finished can always be helped along. *)
Lemma sys_inv_progress s t pc :
  bound tgt (sys_registry s) -> sys_inv s ->
  sys_threads s !! t = Some pc -> unfinished pc = true -> exists s', sys_step s s'.
Proof.
  destruct s as [g ths n]. simpl. intros Hb Hi Ht Hu.
  destruct pc as [| | |[e|]|]; try done.
  - destruct (declare pid ts 0 g) as [r g'] eqn:E. eexists. by eapply step_declare.
  - destruct (begin t pid 0 g) as [r g'] eqn:E.
    destruct (decide (r = Ok Blocked)) as [->|]; [|eexists; by eapply step_begin].
    destruct Hi as [Hst Hn Hth|t0 Hst Ho Hrun Hth|st Hst Hov Hn Hth]; simpl in *.
    + pose proof (begin_case g t 0 Hb) as Hc. rewrite E in Hc.
      destruct (Hth _ _ Ht) as [?|[_ Ha]]; [done|]. rewrite Ha in Hc. naive_solver.
    + destruct Hrun as [[Ht0 _]|([e|] & Ht0 & _)].
      * eexists. by apply (step_call t0 None).
      * destruct (mark_failed pid (FailExn e) 0 g) as [r1 g1] eqn:E1.
        eexists. by eapply (step_failed t0).
      * destruct (mark_applied pid enabled 0 g) as [r1 g1] eqn:E1.
        eexists. by eapply (step_applied t0).
    + pose proof (begin_case g t 0 Hb) as Hc. rewrite E, Hst in Hc.
      destruct Hov as [-> | ->]; naive_solver.
  - eexists. by apply (step_call t None).
  - destruct (mark_failed pid (FailExn e) 0 g) as [r1 g1] eqn:E1.
    eexists. by eapply (step_failed t).
  - destruct (mark_applied pid enabled 0 g) as [r1 g1] eqn:E1.
    eexists. by eapply (step_applied t).
Qed.
End threads.

(** ** Termination of the interleaved calls *)

(** The steps a thread still has to take. *)
Definition remaining (pc : thread_pc) : nat :=
  match pc with
  | Start => 4 | AtBegin => 3 | InCallback => 2 | CallbackDone _ => 1 | Finished _ => 0
  end.

Definition work (ths : gmap Z thread_pc) : nat :=
  map_fold (fun _ pc n => remaining pc + n) 0 ths.

Lemma work_insert ths t pc :
  ths !! t = None -> work (<[t := pc]> ths) = remaining pc + work ths.
Proof.
  intros Ht. unfold work. rewrite map_fold_insert_L; [done| |done]. intros. lia.
Qed.

Lemma work_update ths t pc pc' :
  ths !! t = Some pc -> remaining pc' < remaining pc -> work (<[t := pc']> ths) < work ths.
Proof.
  intros Ht Hlt. rewrite <- (insert_delete_id ths t pc) at 2 by done.
  rewrite <- insert_delete_eq. rewrite !work_insert by apply lookup_delete_eq. lia.
Qed.

Lemma sys_step_work pid ts enabled s s' :
  sys_step pid ts enabled s s' -> work (sys_threads s') < work (sys_threads s).
Proof.
  destruct 1 as [t now r g g' ths n Ht Hd|t now r g g' ths n Ht Hbeg Hnb
    |t raised g ths n Ht|t now r g g' ths n Ht Hm|t now e r g g' ths n Ht Hm]; simpl;
    (eapply work_update; [exact Ht|]); simpl; try lia.
  - destruct r; simpl; lia.
  - destruct r as [[]|]; simpl; lia.
Qed.

Lemma sys_step_terminates pid ts enabled s : Acc (flip (sys_step pid ts enabled)) s.
Proof.
  apply (wf_incl _ (flip (sys_step pid ts enabled)) (ltof _ (fun s => work (sys_threads s)))).
  - intros s1 s2. apply sys_step_work.
  - apply well_founded_ltof.
Qed.

(** C6: however the registry calls of any number of threads running
    [run_patch] for one patch interleave, at most one thread is between its
    successful [begin] and its [mark_applied]/[mark_failed] at any time, and
    the callback is entered at most once in the life of the process. *)
Theorem run_patch_mutual_exclusion pid ts enabled tgt s s' :
  normal pid -> normalise_targets ts = Ok tgt -> initial pid s ->
  rtc (sys_step pid ts enabled) s s' ->
  sys_runs s' <= 1 /\
  forall t1 t2 pc1 pc2, sys_threads s' !! t1 = Some pc1 -> sys_threads s' !! t2 = Some pc2 ->
    active pc1 = true -> active pc2 = true -> t1 = t2.
Proof.
  intros Hp Hts Hinit Hsteps.
  destruct (sys_inv_reachable pid ts enabled tgt Hp Hts s s' Hinit Hsteps) as [_ Hi].
  destruct Hi as [Hst Hn Hth|t0 Hst Ho Hrun Hth|st Hst Hov Hn Hth]; (split; [naive_solver lia|]);
    intros t1 t2 pc1 pc2 H1 H2 A1 A2.
  - apply Hth in H1. naive_solver.
  - destruct (decide (t1 = t0)) as [->|N1], (decide (t2 = t0)) as [->|N2]; [done|..].
    + destruct (Hth _ _ H2 N2); naive_solver.
    + destruct (Hth _ _ H1 N1); naive_solver.
    + destruct (Hth _ _ H1 N1); naive_solver.
  - apply Hth in H1. congruence.
Qed.

(** C39: the interleaved calls of one patch, whose id has no white space around
    it and is not recorded yet, with valid targets and a callback that returns
    or raises, always terminate and never in a deadlock: every schedule is
    finite, and when no thread can take a step any more, every thread has
    finished, the callback was entered exactly once and the patch is recorded
    applied or failed.  With a padded id the calls wait for ever
    ([padded_id_never_finishes]). *)
Theorem run_patch_exactly_once pid ts enabled tgt s s' :
  normal pid -> normalise_targets ts = Ok tgt -> initial pid s -> sys_threads s <> ∅ ->
  rtc (sys_step pid ts enabled) s s' ->
  Acc (flip (sys_step pid ts enabled)) s' /\
  ((forall s'', ~ sys_step pid ts enabled s' s'') ->
   (forall t pc, sys_threads s' !! t = Some pc -> unfinished pc = false) /\ sys_runs s' = 1 /\
   (status_of (sys_registry s') pid = Some APPLIED \/
    status_of (sys_registry s') pid = Some FAILED)).
Proof.
  intros Hp Hts Hinit Hne Hsteps. split; [apply sys_step_terminates|]. intros Hstuck.
  destruct (sys_inv_reachable pid ts enabled tgt Hp Hts s s' Hinit Hsteps) as [Hb Hi].
  assert (forall t pc, sys_threads s' !! t = Some pc -> unfinished pc = false) as Hfin.
  { intros t pc Ht. destruct (unfinished pc) eqn:E; [|done].
    destruct (sys_inv_progress pid ts enabled tgt Hp Hts s' t pc Hb Hi Ht E) as [s'' ?].
    by destruct (Hstuck s''). }
  assert (dom (sys_threads s') = dom (sys_threads s)) as Hdom.
  { clear -Hsteps. induction Hsteps as [|s1 s2 s3 Hs _ IH]; [done|]. rewrite IH.
    destruct Hs; simpl; rewrite dom_insert_lookup_L; eauto. }
  destruct (map_choose _ Hne) as (t & pc & Ht).
  assert (is_Some (sys_threads s' !! t)) as [pc' Ht'].
  { apply elem_of_dom. rewrite Hdom. apply elem_of_dom. eauto. }
  pose proof (Hfin _ _ Ht') as Hf.
  destruct Hi as [Hst Hn Hth|t0 Hst Ho Hrun Hth|st Hst Hov Hn Hth].
  - destruct (Hth _ _ Ht') as [->|[-> _]]; done.
  - destruct Hrun as [[H0 _]|(raised & H0 & _)]; apply Hfin in H0; done.
  - split_and!; [done|done|]. rewrite Hst. destruct Hov as [-> | ->]; auto.
Qed.

(** ** One call of [run_patch] *)

(** The record a successful claim leaves behind while the callback runs. *)
Definition claimed_registry (tid : Z) (pid : string) (tgt : list string) (now : Z)
    (g : PatchRegistry) : PatchRegistry :=
  let enabled := default false (feature_enabled <$> dget (records g) pid) in
  let armed := match dget (records g) pid with
               | Some _ => records g
               | None => dset (records g) pid (Record_ pid ARMED tgt false None now)
               end in
  let rid := default pid (patch_id <$> dget (records g) pid) in
  MkRegistry (dset armed pid (Record_ rid APPLYING tgt enabled None now))
    (dset (owners g) pid tid) (role g).

Section one_call.
Context {W T : Type} (tid : Z) (pid : string) (ts : targets_arg) (tgt : list string).
Context (callback : M (PatchRegistry * W) T) (enabled : bool) (now : Z).
Hypothesis Hpid : normal pid.
Hypothesis Hts : normalise_targets ts = Ok tgt.

(** Not applied yet: no record, or an armed one with the same targets. *)
Definition pending (g : PatchRegistry) : Prop :=
  match dget (records g) pid with
  | None => True
  | Some r => status r = ARMED /\ targets r = tgt
  end.

Lemma on_registry_run {A} (m : M PatchRegistry A) (s : PatchRegistry * W) r g :
  m s.1 = (r, g) -> on_registry m s = (r, (g, s.2)).
Proof. unfold on_registry. by intros ->. Qed.

Definition armed_registry (g : PatchRegistry) : PatchRegistry :=
  match dget (records g) pid with
  | Some _ => g
  | None => set_records (dset (records g) pid (Record_ pid ARMED tgt false None now)) g
  end.

Lemma declare_pending g :
  pending g -> exists r, declare pid ts now g = (Ok r, armed_registry g).
Proof.
  unfold pending, armed_registry, declare. munfold. rewrite validate_normal, Hts by done.
  destruct (dget _ _) as [r|]; [intros [_ ->]; rewrite decide_True by done|]; by eexists.
Qed.

Lemma begin_pending g :
  pending g ->
  begin tid pid now (armed_registry g) = (Ok Claimed, claimed_registry tid pid tgt now g).
Proof.
  unfold pending, armed_registry, claimed_registry, begin. munfold.
  rewrite validate_normal by done.
  destruct (dget (records g) pid) as [r|] eqn:E; simpl; rewrite ?dget_dset_eq, ?E.
  - intros [-> ->]. done.
  - done.
Qed.

Lemma run_patch_claims g w :
  pending g ->
  run_patch tid pid ts callback enabled now (g, w) =
  (v ← try_ callback (fun e => on_registry (mark_failed pid (FailExn e) now) ;; throw e);
   on_registry (mark_applied pid enabled now) ;; mret (Some v))
  (claimed_registry tid pid tgt now g, w).
Proof.
  intros Hp. destruct (declare_pending g Hp) as [r Hd]. unfold run_patch.
  erewrite M_bind_ok by (by apply on_registry_run). unfold begin_now.
  rewrite (M_bind_ok _ _ _ true (claimed_registry tid pid tgt now g, w)); [reflexivity|].
  by erewrite M_bind_ok by (apply on_registry_run, begin_pending; done).
Qed.

Lemma mark_applied_applying g r :
  dget (records g) pid = Some r -> status r = APPLYING ->
  mark_applied pid enabled now g =
    (Ok (Record_ (patch_id r) APPLIED (targets r) enabled None now),
     MkRegistry (dset (records g) pid (Record_ (patch_id r) APPLIED (targets r) enabled None now))
       (ddel (owners g) pid) (role g)).
Proof.
  intros Hr Hs. unfold mark_applied, require_record, finish. munfold. simpl.
  by rewrite validate_normal, Hr, Hs by done.
Qed.

Lemma mark_failed_applying g r e reason :
  dget (records g) pid = Some r -> status r = APPLYING ->
  format_failure (FailExn e) = Ok reason ->
  mark_failed pid (FailExn e) now g =
    (Ok (Record_ (patch_id r) FAILED (targets r) (feature_enabled r) (Some reason) now),
     MkRegistry (dset (records g) pid
         (Record_ (patch_id r) FAILED (targets r) (feature_enabled r) (Some reason) now))
       (ddel (owners g) pid) (role g)).
Proof.
  intros Hr Hs Hf. unfold mark_failed, require_record, finish. munfold.
  rewrite Hf. simpl. by rewrite validate_normal, Hr, Hs by done.
Qed.
End one_call.

(** C19: [run_patch] on a patch that is not applied yet runs the callback once,
    in a registry where the patch is being applied by the calling thread.  When
    the callback returns, its value is returned and the patch is recorded
    applied; when it raises, the same exception is raised again and the patch is
    recorded failed with a reason built from the exception.  The callback may
    do anything that leaves this patch's own record alone. *)
Theorem run_patch_spec {W T} tid pid ts tgt (callback : M (PatchRegistry * W) T)
    enabled now g w r g' w' :
  normal pid -> normalise_targets ts = Ok tgt -> pending pid tgt g ->
  callback (claimed_registry tid pid tgt now g, w) = (r, (g', w')) ->
  dget (records g') pid = dget (records (claimed_registry tid pid tgt now g)) pid ->
  exists g'' new,
    run_patch tid pid ts callback enabled now (g, w) =
      (match r with Ok v => Ok (Some v) | Err e => Err e end, (g'', w')) /\
    dget (records g'') pid = Some new /\ targets new = tgt /\
    (forall k, k <> pid -> dget (records g'') k = dget (records g') k) /\
    match r with
    | Ok _ => status new = APPLIED /\ feature_enabled new = enabled /\ failure_reason new = None
    | Err e => status new = FAILED /\ Ok (default "" (failure_reason new)) = format_failure (FailExn e)
    end.
Proof.
  intros Hp Hts Hpend Hcb Hframe.
  rewrite run_patch_claims with (tgt := tgt) by done.
  unfold claimed_registry in Hframe. simpl in Hframe. rewrite dget_dset_eq in Hframe.
  unfold mbind, M_bind, try_, throw, mret, M_ret. rewrite Hcb. unfold on_registry.
  destruct r as [v|e]; simpl.
  - erewrite mark_applied_applying by done. eexists _, _. split; [done|]. simpl.
    split_and!; [apply dget_dset_eq|done| |done..]. intros. by apply dget_dset_ne.
  - destruct (format_failure (FailExn e)) as [reason|] eqn:Ef; [|done].
    erewrite mark_failed_applying by done. eexists _, _. split; [done|]. simpl.
    split_and!; [apply dget_dset_eq|done| |done..]. intros. by apply dget_dset_ne.
Qed.

(** The context manager is [run_patch] with the block as its callback: the
    block runs unclaimed, outside the registry's care, when there is nothing
    to apply. *)
Lemma applying_patch_run {W T} tid pid ts (body : bool -> M (PatchRegistry * W) T) enabled now s :
  applying_patch tid pid ts body enabled now s =
  (r ← run_patch tid pid ts (body true) enabled now;
   match r with Some v => mret v | None => body false end) s.
Proof.
  unfold applying_patch, run_patch. munfold.
  destruct (on_registry (declare pid ts now) s) as [[?|?] s1]; [|done].
  destruct (begin_now tid pid now s1) as [[[|]|?] s2]; [|done..].
  destruct (try_ _ _ s2) as [[?|?] s3]; [|done].
  by destruct (on_registry _ s3) as [[?|?] s4].
Qed.

(** C17: [run_patch] never runs the callback of a settled patch: an applied or
    skipped patch returns [None] and a failed one raises [LatchedPatchError],
    with the registry and the rest of the process untouched, whatever the
    callback is. *)
Theorem run_patch_settled {W T} tid pid ts tgt (callback : M (PatchRegistry * W) T)
    enabled now g w r :
  normal pid -> normalise_targets ts = Ok tgt ->
  dget (records g) pid = Some r -> targets r = tgt -> terminal (status r) = true ->
  (run_patch tid pid ts callback enabled now (g, w)).2 = (g, w) /\
  if decide (status r = FAILED)
  then raises LatchedPatchError (run_patch tid pid ts callback enabled now (g, w)).1
  else (run_patch tid pid ts callback enabled now (g, w)).1 = Ok None.
Proof.
  intros Hp Hts Hr Ht Hterm. unfold run_patch.
  assert (declare pid ts now g = (Ok r, g)) as Hd.
  { unfold declare. munfold. rewrite validate_normal, Hts, Hr by done.
    by rewrite decide_True. }
  erewrite M_bind_ok by (by apply on_registry_run).
  assert (begin tid pid now g =
    (if decide (status r = FAILED)
     then Err (Exn LatchedPatchError ("patch " ++ repr pid ++ " previously failed"))
     else Ok NothingToDo, g)) as Hb.
  { unfold begin. munfold. rewrite validate_normal, Hr by done.
    destruct (status r); done. }
  unfold begin_now. case_decide.
  - erewrite M_bind_err by (erewrite M_bind_err by (by apply on_registry_run); done).
    split; [done|by eexists].
  - rewrite (M_bind_ok _ _ _ false (g, w)); [done|].
    by erewrite M_bind_ok by (by apply on_registry_run).
Qed.

(** ** The report *)

Record registry_ok (g : PatchRegistry) : Prop := {
  registry_ids : forall k r, dget (records g) k = Some r -> patch_id r = k;
  registry_nodup : NoDup (dkeys (records g))
}.

Lemma registry_ok_updates pid g g' : updates pid g g' -> registry_ok g -> registry_ok g'.
Proof.
  intros [->|(old & new & -> & Hold & _ & Hid & _)] [Hids Hnd]; [done|].
  split; simpl; [|by apply NoDup_dset].
  intros k r. rewrite dget_dset. case_decide; [|apply Hids]. intros; simplify_eq.
  rewrite Hid. destruct (dget (records g) k) as [r0|] eqn:E; [|done]. simpl. eauto.
Qed.

Lemma foldl_dset_lookup (l : list PatchRecord) (d : dict string PatchRecord) :
  NoDup (map patch_id l) ->
  (forall r, r ∈ l -> dget (foldl (fun d r => dset d (patch_id r) r) d l) (patch_id r) = Some r) /\
  (forall k, k ∉ map patch_id l ->
     dget (foldl (fun d r => dset d (patch_id r) r) d l) k = dget d k).
Proof.
  revert d. induction l as [|r l IH]; simpl; intros d Hnd; [set_solver|].
  apply NoDup_cons in Hnd as [Hni Hnd].
  destruct (IH (dset d (patch_id r) r) Hnd) as [H1 H2]. split.
  - intros r' [->|Hin]%elem_of_cons; [|by apply H1].
    rewrite H2 by done. apply dget_dset_eq.
  - intros k Hk. rewrite H2 by set_solver. apply dget_dset_ne. set_solver.
Qed.

Lemma snapshot_elem g r :
  r ∈ snapshot g <-> exists k, dget (records g) k = Some r.
Proof.
  unfold snapshot. rewrite list_elem_of_omap. split; [naive_solver|].
  intros [k Hk]. exists k. split; [|done].
  rewrite merge_sort_Permutation. by eapply dget_Some_key.
Qed.

Lemma snapshot_ids g :
  registry_ok g -> map patch_id (snapshot g) = merge_sort String.le (dkeys (records g)).
Proof.
  intros [Hids _]. unfold snapshot.
  assert (forall ks, (forall k, k ∈ ks -> k ∈ dkeys (records g)) ->
    map patch_id (omap (dget (records g)) ks) = ks) as H.
  { induction ks as [|k ks IH]; intros Hks; [done|].
    destruct (key_dget_Some (records g) k) as [r Hr]; [apply Hks; by left|].
    unfold omap. simpl. rewrite Hr. simpl. f_equal; [by apply Hids|]. apply IH. intros; apply Hks; by right. }
  apply H. intros k. by rewrite merge_sort_Permutation.
Qed.

(** After any sequence of registry calls the report lists every declared
    patch under its own id with its current record, and nothing else, in the
    order of the ids. *)
Theorem report_faithful ops pid name rl g' pid' role' d :
  Forall (fun o => normal (op_id o)) ops ->
  report pid None name (after_all ops (MkRegistry [] [] rl)) = (Ok (pid', role', d), g') ->
  pid' = pid /\ (forall k, dget d k = dget (records (after_all ops (MkRegistry [] [] rl))) k) /\
  map patch_id (snapshot (after_all ops (MkRegistry [] [] rl))) =
    merge_sort String.le (dkeys (records (after_all ops (MkRegistry [] [] rl)))).
Proof.
  intros Hops Hrep.
  assert (registry_ok (after_all ops (MkRegistry [] [] rl))) as Hok.
  { assert (forall g, registry_ok g -> registry_ok (after_all ops g)) as H.
    { clear -Hops. induction ops as [|o ops IH]; intros g Hg; [done|].
      apply Forall_cons in Hops as [Ho Hops]. simpl. apply IH; [done|].
      eapply registry_ok_updates; [by apply after_updates|done]. }
    apply H. split; simpl; [done|constructor]. }
  set (g := after_all ops _) in *. clearbody g.
  assert (pid' = pid /\ d = foldl (fun d r => dset d (patch_id r) r) [] (snapshot g)) as [-> ->].
  { unfold report, process_role in Hrep. munfold.
    destruct (role g); munfold; [by simplify_eq|].
    destruct (detect_process_role None name); by simplify_eq. }
  split_and!; [done| |by apply snapshot_ids].
  assert (NoDup (map patch_id (snapshot g))) as Hnd.
  { rewrite snapshot_ids, merge_sort_Permutation by done. apply Hok. }
  destruct (foldl_dset_lookup (snapshot g) [] Hnd) as [H1 H2]. intros k.
  destruct (dget (records g) k) as [r|] eqn:Er.
  - pose proof (registry_ids _ Hok _ _ Er) as <-. rewrite H1; [done|].
    apply snapshot_elem. eauto.
  - rewrite H2; [done|]. rewrite snapshot_ids, merge_sort_Permutation by done.
    by apply dget_None.
Qed.

(** An id with surrounding white space is declared and claimed under its
    stripped form but finished under the form it was given: after a successful
    [run_patch] for [" x "] the record ["x"] is still being applied, the same
    thread is refused as re-entrant, and every other thread waits for an owner
    that has already returned. *)
Theorem padded_id_never_finishes :
  exists g1,
    run_patch 1 " x " (OneTarget "m") (mret tt) true 0 (empty_registry, tt) =
      (Ok (Some tt), (g1, tt)) /\
    status_of g1 "x" = Some APPLYING /\ status_of g1 " x " = Some APPLIED /\
    raises RuntimeError (run_patch 1 " x " (OneTarget "m") (mret tt) true 1 (g1, tt)).1 /\
    begin 2 "x" 1 g1 = (Ok Blocked, g1) /\ ~ normal " x ".
Proof.
  eexists. split; [vm_compute; reflexivity|]. split_and!; try reflexivity.
  - eexists. vm_compute. reflexivity.
  - intros [H _]. vm_compute in H. discriminate.
Qed.

(** ** Witnesses *)

Definition demo_ops1 : list reg_op :=
  [ODeclare "a" (Targets ["m.f"; " m.g "]) 1; OBegin 7 "a" 2;
   OFailed "a" (FailExn (Exn ValueError "boom")) 3].
Definition demo_ops2 : list reg_op :=
  [OBegin 8 "a" 4; OApplied "a" true 5; OSkipped "a" None 6; OFeature "a" true 7;
   ODeclare "b" (OneTarget "n") 8; OFailed "a" (FailStr "again") 9].
Definition demo_registry : PatchRegistry := after_all demo_ops1 empty_registry.

Lemma terminal_status_latched_witness :
  exists r', dget (records (after_all demo_ops2 demo_registry)) "a" = Some r' /\
    status r' = FAILED /\ targets r' = ["m.f"; "m.g"].
Proof.
  apply (terminal_status_latched demo_ops2 demo_registry "a" FAILED
    (Record_ "a" FAILED ["m.f"; "m.g"] false (Some "ValueError: boom") 3)); try reflexivity.
  repeat constructor; vm_compute; congruence.
Defined.

Lemma x_normal : normal "x".
Proof. split; [reflexivity|congruence]. Qed.

Definition demo_system : system :=
  System empty_registry (<[1%Z := Start]> (<[2%Z := Start]> ∅)) 0.

Lemma demo_system_initial : initial "x" demo_system.
Proof.
  split; [reflexivity|]. split; [reflexivity|]. intros t pc. simpl.
  rewrite !lookup_insert_Some, lookup_empty. naive_solver.
Qed.

(** Both threads declare, the first one claims and enters its callback. *)
Definition demo_mid : system :=
  let g1 := (declare "x" (OneTarget "m") 0 empty_registry).2 in
  let g2 := (declare "x" (OneTarget "m") 1 g1).2 in
  let g3 := (begin 1 "x" 2 g2).2 in
  System g3 (<[1%Z := CallbackDone None]> (<[1%Z := InCallback]> (<[2%Z := AtBegin]>
    (<[1%Z := AtBegin]> (<[1%Z := Start]> (<[2%Z := Start]> ∅)))))) 1.

Lemma demo_mid_reachable :
  rtc (sys_step "x" (OneTarget "m") true) demo_system demo_mid.
Proof.
  eapply rtc_l; [apply (step_declare _ _ _ 1%Z 0%Z); [reflexivity|vm_compute; reflexivity]|].
  eapply rtc_l; [apply (step_declare _ _ _ 2%Z 1%Z); [reflexivity|vm_compute; reflexivity]|].
  eapply rtc_l; [apply (step_begin _ _ _ 1%Z 2%Z); [reflexivity|vm_compute; reflexivity|done]|].
  eapply rtc_l; [apply (step_call _ _ _ 1%Z None); reflexivity|].
  apply rtc_refl.
Qed.

Lemma run_patch_mutual_exclusion_witness : sys_runs demo_mid <= 1.
Proof.
  apply (run_patch_mutual_exclusion "x" (OneTarget "m") true ["m"] demo_system demo_mid
    x_normal eq_refl demo_system_initial demo_mid_reachable).
Defined.

Lemma run_patch_exactly_once_witness :
  Acc (flip (sys_step "x" (OneTarget "m") true)) demo_mid.
Proof.
  apply (run_patch_exactly_once "x" (OneTarget "m") true ["m"] demo_system demo_mid
    x_normal eq_refl demo_system_initial); [|exact demo_mid_reachable].
  simpl. apply insert_non_empty.
Defined.

Lemma run_patch_spec_witness :
  exists g'' new, run_patch 1 "x" (OneTarget "m") (mret 7) true 5 (empty_registry, tt) =
    (Ok (Some 7), (g'', tt)) /\ dget (records g'') "x" = Some new /\ status new = APPLIED.
Proof.
  destruct (run_patch_spec 1 "x" (OneTarget "m") ["m"] (mret 7) true 5 empty_registry tt
    (Ok 7) (claimed_registry 1 "x" ["m"] 5 empty_registry) tt x_normal eq_refl I eq_refl eq_refl)
    as (g'' & new & H1 & H2 & _ & _ & H3 & _).
  exists g'', new. split; [exact H1|]. split; [exact H2|exact H3].
Defined.

Lemma run_patch_settled_witness :
  (run_patch 9 "a" (Targets ["m.f"; "m.g"]) (mret 7) true 10 (demo_registry, tt)).2 =
    (demo_registry, tt).
Proof.
  apply (run_patch_settled 9 "a" (Targets ["m.f"; "m.g"]) ["m.f"; "m.g"] (mret 7) true 10
    demo_registry tt (Record_ "a" FAILED ["m.f"; "m.g"] false (Some "ValueError: boom") 3));
    try reflexivity.
  split; [reflexivity|congruence].
Defined.

Lemma report_faithful_witness :
  exists d g', report 42 None "VllmWorker-1" (after_all demo_ops1 (MkRegistry [] [] None)) =
      (Ok (42%Z, "Worker", d), g') /\
    dget d "a" = Some (Record_ "a" FAILED ["m.f"; "m.g"] false (Some "ValueError: boom") 3).
Proof.
  eexists _, _. split; [vm_compute; reflexivity|].
  refine (eq_trans (proj1 (proj2 (report_faithful demo_ops1 42 "VllmWorker-1" None _ _ _ _
    _ (eq_refl : report 42 None "VllmWorker-1" (after_all demo_ops1 (MkRegistry [] [] None)) = _)))
    "a") _); [|reflexivity].
  repeat constructor; vm_compute; congruence.
Defined.
