(* ===== verification/ImportCoordinator.v ===== *)
(** * The exact-name import coordinator

    Models src/vllm_hcu/patch/import_coordinator.py.  The coordinator is a
    meta-path finder that runs callbacks and whole-module replacements for
    explicitly registered module names.

    The process is a [world]: the patch registry, the coordinator and the
    interpreter's import state [env].  Modules, specs and loaders are object
    identities.  A coordinator method holds the lock only around its table
    accesses; the model is that of one importing thread [tid]. *)

From S2P Require Import Prelude PyString PatchRegistry.
From stdpp Require Import sorting.
From Stdlib Require Import Ascii String.
Local Open Scope string_scope.

Module Coordinator.
Import Registry.

(** ** The interpreter *)

(** A value of [sys.modules]: a module object, or any other object. *)
Inductive pyobj := PyModule (m : Z) | PyObject (o : Z).

#[global] Instance pyobj_eq_dec : EqDecision pyobj.
Proof. solve_decision. Defined.

Inductive finder := Self | OtherFinder (n : Z).

#[global] Instance finder_eq_dec : EqDecision finder.
Proof. solve_decision. Defined.

(** [module.__spec__]: an object of the interpreter, or the reload guard
    installed for a patch. *)
Inductive spec_attr := SpecObj (o : Z) | SpecGuard (pid : string).
Inductive loader_attr := LoaderObj (o : Z) | LoaderGuard (pid : string).

Record env := Env {
  sys_modules : dict string pyobj;
  meta_path : list finder;
  mod_spec : dict Z spec_attr;
  mod_loader : dict Z loader_attr;
  initializing : list Z   (** specs with a true [_initializing] *)
}.

Definition set_sys_modules (ms : dict string pyobj) (e : env) : env :=
  Env ms (meta_path e) (mod_spec e) (mod_loader e) (initializing e).
Definition set_meta_path (mp : list finder) (e : env) : env :=
  Env (sys_modules e) mp (mod_spec e) (mod_loader e) (initializing e).

(** [_module_is_initializing] *)
Definition module_is_initializing (e : env) (m : Z) : bool :=
  match dget (mod_spec e) m with
  | Some (SpecObj o) => bool_decide (o ∈ initializing e)
  | _ => false
  end.

(** [isinstance(sys.modules.get(name), ModuleType)] *)
Definition loaded_module (e : env) (name : string) : option Z :=
  match dget (sys_modules e) name with Some (PyModule m) => Some m | _ => None end.

(** A loaded module whose import has completed. *)
Definition ready_module (e : env) (name : string) : option Z :=
  match loaded_module e name with
  | Some m => if module_is_initializing e m then None else Some m
  | None => None
  end.

(** ** Entries *)

Inductive ImportAction := CALLBACK | REPLACEMENT.
Inductive late_policy_t := LateFail | LateReplace.

#[global] Instance ImportAction_eq_dec : EqDecision ImportAction.
Proof. solve_decision. Defined.
#[global] Instance late_policy_eq_dec : EqDecision late_policy_t.
Proof. solve_decision. Defined.

(** What is registered for a module: the function to call on it, or a
    replacement given by name, as a module, or by a factory.  Functions are
    object identities. *)
Inductive payload_t :=
  | PCallback (f : Z)
  | PModuleName (s : string)
  | PModule (m : Z)
  | PFactory (f : Z).

#[global] Instance payload_eq_dec : EqDecision payload_t.
Proof. solve_decision. Defined.

Record Entry := MkEntry {
  e_patch_id : string;
  e_module_name : string;
  e_targets : list string;
  e_action : ImportAction;
  e_payload : payload_t;
  e_feature_enabled : bool;
  e_late_policy : late_policy_t;
  e_replacement_module : option Z;
  e_previous_module : option (option pyobj);  (** [Some None] is [_MISSING] *)
  e_previous_spec : option spec_attr;
  e_previous_loader : option loader_attr;
  e_reload_guard_installed : bool
}.

Record coordinator := Coord {
  entries : dict string Entry;
  by_module : dict string (list string);
  installed : bool
}.

(** The process.  [w_calls] is a ghost log of the callbacks called, newest
    first: the patch and the module it was called on. *)
Record world := World {
  w_registry : PatchRegistry;
  w_coord : coordinator;
  w_env : env;
  w_calls : list (string * Z)
}.

Record ImportRegistration := Registration {
  ir_patch_id : string;
  ir_module_name : string;
  ir_targets : list string;
  ir_action : ImportAction;
  ir_status : string;
  ir_feature_enabled : bool
}.

Definition LateModuleReplacementError : exn_class := OtherError "LateModuleReplacementError".
Definition ModuleReloadBlockedError : exn_class := OtherError "ModuleReloadBlockedError".
Definition OptionalPatchUnavailable : exn_class := OtherError "OptionalPatchUnavailable".

(** ** Access to the parts of the world *)

Definition on_reg {A} (m : M PatchRegistry A) : M world A := fun w =>
  let (r, g) := m (w_registry w) in (r, World g (w_coord w) (w_env w) (w_calls w)).
Definition on_env {A} (m : M env A) : M world A := fun w =>
  let (r, e) := m (w_env w) in (r, World (w_registry w) (w_coord w) e (w_calls w)).
Definition set_coord (c : coordinator) (w : world) : world :=
  World (w_registry w) c (w_env w) (w_calls w).
Definition set_entry (en : Entry) (w : world) : world :=
  set_coord (Coord (dset (entries (w_coord w)) (e_patch_id en) en)
               (by_module (w_coord w)) (installed (w_coord w))) w.

(** [self._entries[patch_id]] *)
Definition entry_at (pid : string) : M world Entry := fun w =>
  match dget (entries (w_coord w)) pid with
  | Some en => (Ok en, w)
  | None => (Err (Exn KeyError pid), w)
  end.

(** [self._by_module.get(name, ())] *)
Definition ids_for (w : world) (name : string) : list string :=
  default [] (dget (by_module (w_coord w)) name).

(** [[self._entries[key] for key in self._by_module.get(name, ())]] *)
Fixpoint entries_of (pids : list string) : M world (list Entry) :=
  match pids with
  | [] => mret []
  | pid :: pids' => en ← entry_at pid; ens ← entries_of pids'; mret (en :: ens)
  end.

Definition entries_for (name : string) : M world (list Entry) :=
  w ← get_state; entries_of (ids_for w name).

Definition record_status (w : world) (pid : string) : option PatchStatus :=
  status <$> get (w_registry w) pid.

Definition has_status (w : world) (s : PatchStatus) (en : Entry) : bool :=
  bool_decide (record_status w (e_patch_id en) = Some s).

(** [_is_armed] *)
Definition is_armed (w : world) (en : Entry) : bool := has_status w ARMED en.

Definition is_callback (en : Entry) : bool := bool_decide (e_action en = CALLBACK).

(** ** Validation *)

Definition validate_module_name (name : string) : result string :=
  if decide (name = "")
  then Err (Exn ValueError "module_name must be a non-empty absolute module name")
  else if startswith "." name || endswith_char "."%char name
  then Err (Exn ValueError
         ("relative or incomplete module name is not allowed: " ++ repr name))
  else if existsb (fun part => negb (isidentifier part)) (split_on "."%char name)
  then Err (Exn ValueError ("invalid exact module name: " ++ repr name))
  else Ok name.

(** [_normalise_targets]: [None] stands for the module itself *)
Definition coord_targets (module_name : string) (ts : option targets_arg)
    : result (list string) :=
  normalise_targets (default (OneTarget module_name) ts).

Definition validate_replacement (p : payload_t) : result unit :=
  match p with
  | PModuleName s => _ ← validate_module_name s; mret tt
  | _ => Ok tt
  end.

(** [_same_registration] *)
Definition same_registration (left right : Entry) : bool :=
  bool_decide (e_module_name left = e_module_name right) &&
  bool_decide (e_targets left = e_targets right) &&
  bool_decide (e_action left = e_action right) &&
  bool_decide (e_payload left = e_payload right) &&
  bool_decide (e_late_policy left = e_late_policy right).

(** [_raise_if_failed] *)
Definition raise_if_failed (en : Entry) : M world unit :=
  w ← get_state;
  match get (w_registry w) (e_patch_id en) with
  | Some r =>
      if decide (status r = FAILED)
      then raise LatchedPatchError
             ("patch " ++ repr (e_patch_id en) ++ " previously failed: " ++
              match failure_reason r with
              | Some (String c s) => String c s
              | _ => "unknown failure"
              end)
      else mret tt
  | None => mret tt
  end.

(** [_view] *)
Definition view (en : Entry) : M world ImportRegistration :=
  w ← get_state;
  let record := get (w_registry w) (e_patch_id en) in
  mret (Registration (e_patch_id en) (e_module_name en) (e_targets en) (e_action en)
          (default "unknown" (status_value ∘ status <$> record))
          (default false (feature_enabled <$> record))).

(** [_active_replacement] *)
Definition active_replacement (w : world) (ens : list Entry) : option Entry :=
  List.find (fun en => negb (is_callback en) && (has_status w ARMED en || has_status w APPLIED en)) ens.

Definition set_enabled (b : bool) (en : Entry) : Entry :=
  MkEntry (e_patch_id en) (e_module_name en) (e_targets en) (e_action en) (e_payload en)
    b (e_late_policy en) (e_replacement_module en) (e_previous_module en)
    (e_previous_spec en) (e_previous_loader en) (e_reload_guard_installed en).

(** [self._entries[...] = entry] and
    [self._by_module.setdefault(...).append(...)] *)
Definition add_entry (en : Entry) (w : world) : world :=
  set_coord
    (Coord (dset (entries (w_coord w)) (e_patch_id en) en)
       (dset (by_module (w_coord w)) (e_module_name en)
          (ids_for w (e_module_name en) ++ [e_patch_id en])%list)
       (installed (w_coord w))) w.

(** [_register] *)
Definition register (en : Entry) (now : Z) : M world (Entry * bool) :=
  w ← get_state;
  match dget (entries (w_coord w)) (e_patch_id en) with
  | Some existing =>
      if negb (same_registration existing en)
      then raise ValueError
             ("conflicting import registration for patch " ++ repr (e_patch_id en))
      else
        raise_if_failed existing ;;
        if Bool.eqb (e_feature_enabled existing) (e_feature_enabled en)
        then mret (existing, false)
        else
          let existing' := set_enabled (e_feature_enabled en) existing in
          modify (set_entry existing') ;;
          on_reg (set_feature_enabled (e_patch_id existing) (e_feature_enabled en) now) ;;
          mret (existing', false)
  | None =>
      ens ← (if is_callback en then mret [] else entries_of (ids_for w (e_module_name en)));
      match List.find (fun other => negb (is_callback other)) ens with
      | Some other => raise ValueError
          ("module " ++ repr (e_module_name en) ++ " already has replacement " ++
           repr (e_patch_id other))
      | None =>
          on_reg (declare (e_patch_id en) (Targets (e_targets en)) now) ;;
          on_reg (set_feature_enabled (e_patch_id en) (e_feature_enabled en) now) ;;
          modify (add_entry en) ;;
          mret (en, true)
      end
  end.

(** ** The rest of the process

    What the coordinator calls and does not define: registered callbacks,
    factories, [importlib.import_module], the other finders of the meta path
    and the loaders of their specs.  Each may do anything to the process,
    use of the coordinator included. *)

Section methods.
Context (tid now : Z).
Context (run_callback : Z -> Z -> M world unit).
Context (import_module : string -> M world pyobj).
Context (factory : Z -> M world pyobj).
Context (finder_find_spec : Z -> option (string -> Z -> option Z -> M world (option Z))).
Context (spec_loader : Z -> option Z).
Context (loader_create : Z -> option (Z -> M world (option Z))).
Context (loader_exec : Z -> Z -> M world unit).

(** [self._registry.begin(...)]: a call that waits for another thread does not
    return. *)
Definition begin_w (pid : string) : M world bool :=
  o ← on_reg (begin tid pid now);
  match o with
  | Claimed => mret true
  | NothingToDo => mret false
  | Blocked => raise Waits "the owner of the patch has not finished"
  end.

(** The outcome of a [try] body.  A call that waits has no outcome. *)
Definition attempt {A} (m : M world A) : M world (result A) := fun w =>
  match m w with
  | (Err (Exn Waits msg), w') => (Err (Exn Waits msg), w')
  | (r, w') => (Ok r, w')
  end.

(** The attributes an entry object has now: [_register], [_create_replacement]
    and others update it in place. *)
Definition live (w : world) (en : Entry) : Entry :=
  default en (dget (entries (w_coord w)) (e_patch_id en)).

Definition call_callback (pid : string) (f m : Z) : M world unit :=
  modify (fun w => World (w_registry w) (w_coord w) (w_env w) ((pid, m) :: w_calls w)) ;;
  run_callback f m.

(** The body of [_apply_callback] once the patch is claimed *)
Definition call_and_settle (en : Entry) (m : Z) : M world unit :=
  match e_payload en with
  | PCallback f =>
      r ← attempt (call_callback (e_patch_id en) f m);
      match r with
      | Ok _ =>
          w ← get_state;
          on_reg (mark_applied (e_patch_id en) (e_feature_enabled (live w en)) now) ;;
          mret tt
      | Err e =>
          if decide (exn_type e = OptionalPatchUnavailable) then
            on_reg (mark_skipped (e_patch_id en) (Some (exn_msg e)) now) ;; mret tt
          else
            on_reg (mark_failed (e_patch_id en) (FailExn e) now) ;; throw e
      end
  | _ => raise AssertionError ""
  end.

(** [_apply_callback] *)
Definition apply_callback (en : Entry) (m : Z) : M world unit :=
  claimed ← begin_w (e_patch_id en);
  if (claimed : bool) then call_and_settle en m else mret tt.

(** The loop of [_module_loaded]: every armed callback is tried, and the first
    error is kept. *)
Fixpoint apply_armed (ens : list Entry) (m : Z) (first_error : option exn)
    : M world (option exn) :=
  match ens with
  | [] => mret first_error
  | en :: ens' =>
      w ← get_state;
      if negb (is_callback en) || negb (is_armed w en)
      then apply_armed ens' m first_error
      else
        r ← attempt (apply_callback en m);
        match r, first_error with
        | Err e, None => apply_armed ens' m (Some e)
        | _, _ => apply_armed ens' m first_error
        end
  end.

(** [_module_loaded] *)
Definition module_loaded (fullname : string) (m : Z) : M world unit :=
  ens ← entries_for fullname;
  first_error ← apply_armed ens m None;
  match first_error with
  | Some e => throw e
  | None => mret tt
  end.

(** [_module_load_failed] *)
Definition module_load_failed (fullname : string) (error : exn) : M world unit :=
  ens ← entries_for fullname;
  for_each ens (fun en =>
    w ← get_state;
    if is_callback en && is_armed w en
    then on_reg (mark_failed (e_patch_id en) (FailExn error) now) ;; mret tt
    else mret tt).

(** [_replacement_for] *)
Definition replacement_for (fullname : string) : M world Entry :=
  ens ← entries_for fullname;
  match List.find (fun en => negb (is_callback en)) ens with
  | Some en => mret en
  | None => raise ImportError ("no HCU replacement registered for " ++ repr fullname)
  end.

(** [_resolve_replacement] *)
Definition resolve_replacement (p : payload_t) : M world Z :=
  o ← match p with
      | PModule m => mret (PyModule m)
      | PModuleName s => import_module s
      | PFactory f | PCallback f => factory f
      end;
  match o with
  | PyModule m => mret m
  | PyObject _ => raise TypeError "module replacement must resolve to ModuleType"
  end.

Definition set_replacement (en : Entry) (previous : option pyobj) (m : Z) : Entry :=
  MkEntry (e_patch_id en) (e_module_name en) (e_targets en) (e_action en) (e_payload en)
    (e_feature_enabled en) (e_late_policy en) (Some m) (Some previous)
    (e_previous_spec en) (e_previous_loader en) (e_reload_guard_installed en).

(** [_create_replacement] *)
Definition create_replacement (fullname : string) : M world Z :=
  en ← replacement_for fullname;
  w ← get_state;
  if has_status w APPLIED en then
    match e_replacement_module en with
    | None => raise LatchedPatchError
        ("replacement " ++ repr (e_patch_id en) ++ " is applied but its module reference is missing")
    | Some m => mret m
    end
  else
    begin_w (e_patch_id en) ;;
    r ← attempt (resolve_replacement (e_payload en));
    match r with
    | Err e => on_reg (mark_failed (e_patch_id en) (FailExn e) now) ;; throw e
    | Ok m => modify (fun w => set_entry (set_replacement (live w en) None m) w) ;; mret m
    end.

(** [_install_reload_guard] *)
Definition install_reload_guard (en : Entry) (m : Z) : M world unit :=
  modify (fun w =>
    let en := live w en in
    if e_reload_guard_installed en then w
    else set_entry
      (MkEntry (e_patch_id en) (e_module_name en) (e_targets en) (e_action en) (e_payload en)
         (e_feature_enabled en) (e_late_policy en) (e_replacement_module en)
         (e_previous_module en) (dget (mod_spec (w_env w)) m) (dget (mod_loader (w_env w)) m)
         true) w) ;;
  on_env (modify (fun e =>
    Env (sys_modules e) (meta_path e)
      (dset (mod_spec e) m (SpecGuard (e_patch_id en)))
      (dset (mod_loader e) m (LoaderGuard (e_patch_id en))) (initializing e))).

(** [_replacement_loaded] *)
Definition replacement_loaded (fullname : string) (m : Z) : M world unit :=
  en ← replacement_for fullname;
  w ← get_state;
  (if has_status w APPLYING en
   then on_reg (mark_applied (e_patch_id en) (e_feature_enabled en) now) ;; mret tt
   else mret tt) ;;
  install_reload_guard en m ;;
  module_loaded fullname m.

(** [_replace_loaded_module] *)
Definition replace_loaded_module (en : Entry) (previous : pyobj) : M world unit :=
  claimed ← begin_w (e_patch_id en);
  if (claimed : bool) then
    r ← attempt (resolve_replacement (e_payload en));
    match r with
    | Err e => on_reg (mark_failed (e_patch_id en) (FailExn e) now) ;; throw e
    | Ok m =>
        modify (fun w => set_entry (set_replacement (live w en) (Some previous) m) w) ;;
        on_env (modify (fun e =>
          set_sys_modules (dset (sys_modules e) (e_module_name en) (PyModule m)) e)) ;;
        w ← get_state;
        on_reg (mark_applied (e_patch_id en) (e_feature_enabled (live w en)) now) ;;
        install_reload_guard en m ;;
        module_loaded (e_module_name en) m
    end
  else mret tt.

(** ** Installation *)

Definition set_installed (b : bool) (w : world) : world :=
  set_coord (Coord (entries (w_coord w)) (by_module (w_coord w)) b) w.

Definition late_error (module_name why : string) : exn :=
  Exn LateModuleReplacementError
    ("cannot replace already imported module " ++ repr module_name ++ "; " ++ why).

(** The body of the loop of [install] *)
Definition install_one (module_name : string) : M world unit :=
  w ← get_state;
  match ready_module (w_env w) module_name with
  | None => mret tt
  | Some loaded =>
      ens ← entries_for module_name;
      match active_replacement w ens with
      | Some replacement =>
          match e_late_policy replacement with
          | LateFail =>
              let error := late_error module_name
                "the module loaded between HCU registration and coordinator install" in
              on_reg (mark_failed (e_patch_id replacement) (FailExn error) now) ;; throw error
          | LateReplace => replace_loaded_module replacement (PyModule loaded)
          end
      | None => module_loaded module_name loaded
      end
  end.

Definition install : M world unit :=
  w ← get_state;
  if decide (Self ∈ meta_path (w_env w)) then modify (set_installed true)
  else
    on_env (modify (fun e => set_meta_path (Self :: meta_path e) e)) ;;
    modify (set_installed true) ;;
    for_each (dkeys (by_module (w_coord w))) install_one.

Definition uninstall : M world unit :=
  on_env (modify (fun e => set_meta_path (filter (.≠ Self) (meta_path e)) e)) ;;
  modify (set_installed false).

(** The property [installed] *)
Definition is_installed (w : world) : bool :=
  installed (w_coord w) && bool_decide (Self ∈ meta_path (w_env w)).

(** ** Registration *)

Definition register_callback (pid module_name : string) (callback : Z)
    (ts : option targets_arg) (enabled : bool) : M world ImportRegistration :=
  name ← lift (validate_module_name module_name);
  tgts ← lift (coord_targets module_name ts);
  let entry := MkEntry pid name tgts CALLBACK (PCallback callback) enabled LateFail
                 None None None None false in
  reg ← register entry now;
  let '(existing, is_new) := (reg : Entry * bool) in
  (if is_new then mret tt else raise_if_failed existing) ;;
  w ← get_state;
  match ready_module (w_env w) (e_module_name existing) with
  | Some loaded =>
      (if is_new || is_armed w existing then apply_callback existing loaded else mret tt) ;;
      view existing
  | None => view existing
  end.

Definition register_replacement (pid module_name : string) (replacement : payload_t)
    (ts : option targets_arg) (enabled : bool) (late_policy : late_policy_t)
    : M world ImportRegistration :=
  normalized_name ← lift (validate_module_name module_name);
  lift (validate_replacement replacement) ;;
  (if decide (replacement = PModuleName normalized_name)
   then raise ValueError "replacement module must differ from the canonical module name"
   else mret tt) ;;
  tgts ← lift (coord_targets normalized_name ts);
  let entry := MkEntry pid normalized_name tgts REPLACEMENT replacement enabled late_policy
                 None None None None false in
  reg ← register entry now;
  let '(existing, is_new) := (reg : Entry * bool) in
  if is_new then
    w ← get_state;
    match dget (sys_modules (w_env w)) (e_module_name existing) with
    | Some loaded =>
        match late_policy with
        | LateFail =>
            let error := late_error (e_module_name existing)
              "register this replacement during platform plugin initialization" in
            on_reg (mark_failed (e_patch_id existing) (FailExn error) now) ;; throw error
        | LateReplace => replace_loaded_module existing loaded ;; view existing
        end
    | None => view existing
    end
  else raise_if_failed existing ;; view existing.

(** ** The finder *)

Inductive loader :=
  | PostLoadLoader (fullname : string) (delegate : option Z)
  | ReplacementLoader (fullname : string)
  | BlockedLoader (error_type : exn_class) (message : string).

(** A spec made by the coordinator, or the spec of another finder with its
    loader wrapped. *)
Inductive spec_result :=
  | NoSpec
  | FromLoader (l : loader) (origin : string)
  | Wrapped (spec : Z) (l : loader).

(** [_find_delegate_spec] *)
Fixpoint find_delegate_spec (finders : list finder) (fullname : string) (path : Z)
    (target : option Z) : M world (option Z) :=
  match finders with
  | [] => mret None
  | Self :: fs => find_delegate_spec fs fullname path target
  | OtherFinder n :: fs =>
      match finder_find_spec n with
      | None => find_delegate_spec fs fullname path target
      | Some find =>
          spec ← find fullname path target;
          match spec with
          | Some s => mret (Some s)
          | None => find_delegate_spec fs fullname path target
          end
      end
  end.

Definition reason_of (w : world) (en : Entry) : string :=
  match get (w_registry w) (e_patch_id en) ≫= failure_reason with
  | Some (String c s) => String c s
  | _ => "unknown failure"
  end.

Definition find_spec (fullname : string) (path : Z) (target : option Z) : M world spec_result :=
  ens ← entries_for fullname;
  w ← get_state;
  match ens with
  | [] => mret NoSpec
  | _ =>
      match (match target with Some _ => List.find (has_status w APPLIED) ens | None => None end) with
      | Some en => mret (FromLoader
          (BlockedLoader ModuleReloadBlockedError
             ("reload of " ++ repr fullname ++ " is blocked because HCU patch " ++
              repr (e_patch_id en) ++ " is already applied"))
          ("vllm-hcu reload guard:" ++ e_patch_id en))
      | None =>
      match List.find (has_status w APPLYING) ens with
      | Some en => mret (FromLoader
          (BlockedLoader LatchedPatchError
             ("re-entrant import of " ++ repr fullname ++ " blocked while HCU patch " ++
              repr (e_patch_id en) ++ " is applying"))
          ("vllm-hcu applying patch:" ++ e_patch_id en))
      | None =>
      match List.find (has_status w FAILED) ens with
      | Some en => mret (FromLoader
          (BlockedLoader LatchedPatchError
             ("import blocked by failed HCU patch " ++ repr (e_patch_id en) ++ ": " ++
              reason_of w en))
          ("vllm-hcu failed patch:" ++ e_patch_id en))
      | None =>
      match active_replacement w ens with
      | Some en => mret (FromLoader (ReplacementLoader fullname)
          ("vllm-hcu replacement:" ++ e_patch_id en))
      | None =>
      if existsb (fun en => is_callback en && is_armed w en) ens then
        spec ← find_delegate_spec (meta_path (w_env w)) fullname path target;
        match spec with
        | None => mret NoSpec
        | Some s => mret (Wrapped s (PostLoadLoader fullname (spec_loader s)))
        end
      else mret NoSpec
      end end end end
  end.

(** ** The loaders *)

(** [create_module]: [None] asks the interpreter for a default module *)
Definition create_module (l : loader) (spec : Z) : M world (option Z) :=
  match l with
  | PostLoadLoader _ (Some d) =>
      match loader_create d with Some create => create spec | None => mret None end
  | PostLoadLoader _ None => mret None
  | ReplacementLoader fullname => m ← create_replacement fullname; mret (Some m)
  | BlockedLoader error_type message => raise error_type message
  end.

Definition exec_module (l : loader) (m : Z) : M world unit :=
  match l with
  | PostLoadLoader fullname delegate =>
      r ← attempt (match delegate with Some d => loader_exec d m | None => mret tt end);
      match r with
      | Err e => module_load_failed fullname e ;; throw e
      | Ok _ => module_loaded fullname m
      end
  | ReplacementLoader fullname => replacement_loaded fullname m
  | BlockedLoader error_type message => raise error_type message
  end.

(** ** Reports and maintenance *)

Fixpoint views (ens : list Entry) : M world (list ImportRegistration) :=
  match ens with
  | [] => mret []
  | en :: ens' => v ← view en; vs ← views ens'; mret (v :: vs)
  end.

Definition registrations : M world (list ImportRegistration) :=
  w ← get_state;
  ens ← entries_of (merge_sort String.le (dkeys (entries (w_coord w))));
  views ens.

Definition drain_ready_callbacks : M world (list ImportRegistration) :=
  w ← get_state;
  for_each (filter (fun en => is_callback en = true) (dvalues (entries (w_coord w)))) (fun en =>
    raise_if_failed en ;;
    w ← get_state;
    if negb (is_armed w en) then mret tt
    else match ready_module (w_env w) (e_module_name en) with
         | Some loaded => apply_callback en loaded
         | None => mret tt
         end) ;;
  registrations.

Definition coord_set_feature_enabled (pid : string) (enabled : bool)
    : M world ImportRegistration :=
  w ← get_state;
  match dget (entries (w_coord w)) pid with
  | None => raise KeyError ("unknown import registration " ++ repr pid)
  | Some en =>
      modify (set_entry (set_enabled enabled en)) ;;
      on_reg (set_feature_enabled pid enabled now) ;;
      view (set_enabled enabled en)
  end.

(** What [reset_for_tests] undoes of one replacement *)
Definition restore_one (en : Entry) (e : env) : env :=
  match e_replacement_module en with
  | None => e
  | Some m =>
      let ms :=
        if decide (dget (sys_modules e) (e_module_name en) = Some (PyModule m))
        then match e_previous_module en with
             | Some (Some o) => dset (sys_modules e) (e_module_name en) o
             | _ => ddel (sys_modules e) (e_module_name en)
             end
        else sys_modules e in
      if e_reload_guard_installed en then
        Env ms (meta_path e)
          (match e_previous_spec en with
           | Some s => dset (mod_spec e) m s | None => ddel (mod_spec e) m end)
          (match e_previous_loader en with
           | Some l => dset (mod_loader e) m l | None => ddel (mod_loader e) m end)
          (initializing e)
      else set_sys_modules ms e
  end.

Definition coord_reset_for_tests (reset_registry : bool) : M world unit :=
  uninstall ;;
  w ← get_state;
  let replacements := filter (fun en => is_callback en = false)
                        (dvalues (entries (w_coord w))) in
  modify (set_coord (Coord [] [] (installed (w_coord w)))) ;;
  on_env (modify (fun e => foldl (fun e en => restore_one en e) e replacements)) ;;
  if reset_registry then on_reg (modify Registry.reset_for_tests) else mret tt.
End methods.
End Coordinator.
