(* ===== verification/ImportCoordinatorCorrect.v ===== *)
(** * Correctness of the import coordinator

    The coordinator's tables stay consistent, a callback is called at most
    once, failed and unfinished patches block imports, and only registered
    names are intercepted. *)

From S2P Require Import Prelude PyString PatchRegistry PatchRegistryCorrect ImportCoordinator.
From stdpp Require Import sorting.
From Stdlib Require Import Ascii String.
Import Registry Coordinator.
Local Open Scope string_scope.

(** ** The invariant *)

Definition started (s : option PatchStatus) : bool :=
  match s with None | Some ARMED => false | _ => true end.

Definition count_calls (pid : string) (w : world) : nat :=
  List.length (filter (fun c => c.1 = pid) (w_calls w)).

(** A patch that nobody has started has not been called; a started one has
    been called at most once. *)
Definition calls_ok (w : world) : Prop :=
  forall pid, count_calls pid w <= (if started (record_status w pid) then 1 else 0).

(** The attributes of an entry that never change. *)
Definition static (a b : Entry) : Prop :=
  e_patch_id a = e_patch_id b /\ e_module_name a = e_module_name b /\
  e_targets a = e_targets b /\ e_action a = e_action b /\ e_payload a = e_payload b /\
  e_late_policy a = e_late_policy b.

Definition registered (en : Entry) (w : world) : Prop :=
  exists en', dget (entries (w_coord w)) (e_patch_id en) = Some en' /\ static en en'.

(** The two tables agree, and a module has at most one replacement. *)
Record coord_ok (w : world) : Prop := {
  ok_nodup : NoDup (dkeys (entries (w_coord w)));
  ok_keys : forall pid en, dget (entries (w_coord w)) pid = Some en ->
    e_patch_id en = pid /\ normal pid;
  ok_listed : forall pid en, dget (entries (w_coord w)) pid = Some en ->
    pid ∈ ids_for w (e_module_name en);
  ok_ids : forall name pid, pid ∈ ids_for w name ->
    exists en, dget (entries (w_coord w)) pid = Some en /\ e_module_name en = name;
  ok_one : forall p q en en', dget (entries (w_coord w)) p = Some en ->
    dget (entries (w_coord w)) q = Some en' ->
    e_action en = REPLACEMENT -> e_action en' = REPLACEMENT ->
    e_module_name en = e_module_name en' -> p = q
}.

Definition ok (w : world) : Prop := coord_ok w /\ calls_ok w.

(** Statuses only move forward, and registrations stay. *)
Definition evolves (w w' : world) : Prop :=
  (forall pid, rtc moves (record_status w pid) (record_status w' pid)) /\
  (forall en, registered en w -> registered en w').

(** The contract of everything that runs in the process: from a world in which
    [P] holds, it keeps the invariant, whatever its outcome. *)
Definition respects {A} (P : world -> Prop) (m : M world A) : Prop :=
  forall w r w', P w -> ok w -> m w = (r, w') -> ok w' /\ evolves w w'.

Definition always (_ : world) : Prop := True.

#[global] Instance evolves_preorder : PreOrder evolves.
Proof.
  split.
  - intros w. split; [intros; apply rtc_refl|done].
  - intros w1 w2 w3 [H1 R1] [H2 R2]. split; [|auto].
    intros pid. etrans; [apply H1|apply H2].
Qed.

Lemma static_refl en : static en en.
Proof. by unfold static. Qed.

Lemma static_trans a b c : static a b -> static b c -> static a c.
Proof. unfold static. intuition congruence. Qed.

Lemma static_sym a b : static a b -> static b a.
Proof. unfold static. intuition congruence. Qed.

#[export] Hint Resolve static_refl : hcu.

Lemma registered_evolves en w w' : evolves w w' -> registered en w -> registered en w'.
Proof. intros [_ H]. apply H. Qed.

Lemma forward_started s s' : rtc moves s s' -> started s = true -> started s' = true.
Proof.
  induction 1 as [|s1 s2 s3 Hm _ IH]; [done|]. intros Hs. apply IH.
  inversion Hm; subst; simplify_eq/=; naive_solver.
Qed.

Lemma forward_terminal s s' : rtc moves (Some s) s' -> terminal s = true -> s' = Some s.
Proof.
  remember (Some s) as s0 eqn:E. intros H. revert s E.
  induction H as [|s1 s2 s3 Hm _ IH]; [done|]. intros s -> Ht.
  apply moves_terminal in Hm; [|done]. rewrite (IH s Hm Ht). done.
Qed.

Lemma forward_armed s : rtc moves (Some ARMED) s -> s = Some ARMED \/ started s = true.
Proof.
  remember (Some ARMED) as s0 eqn:E. intros H. revert E.
  induction H as [|s1 s2 s3 Hm Hr IH]; [by left|]. intros ->.
  destruct (decide (s2 = Some ARMED)) as [->|Hne]; [auto|].
  right. eapply forward_started; [done|]. inversion Hm; subst; naive_solver.
Qed.

(** ** Composition *)

Lemma respects_bind {A B} P (Q : A -> world -> Prop) (m : M world A) (f : A -> M world B) :
  respects P m ->
  (forall w a w', P w -> ok w -> m w = (Ok a, w') -> Q a w') ->
  (forall a, respects (Q a) (f a)) ->
  respects P (m ≫= f).
Proof.
  intros Hm HQ Hf w r w' HP Hok. unfold mbind, M_bind.
  destruct (m w) as [[a|e] w1] eqn:E; intros H.
  - destruct (Hm _ _ _ HP Hok E) as [Hok1 Hev1].
    destruct (Hf a _ _ _ (HQ _ _ _ HP Hok E) Hok1 H) as [? ?]. split; [done|]. by etrans.
  - simplify_eq. eauto.
Qed.

Lemma respects_weaken {A} (P Q : world -> Prop) (m : M world A) :
  (forall w, P w -> Q w) -> respects Q m -> respects P m.
Proof. intros HPQ Hm w r w' HP. apply Hm. auto. Qed.

(** For a precondition that survives, as a registration does. *)
Definition stable (P : world -> Prop) : Prop := forall w w', evolves w w' -> P w -> P w'.

Lemma stable_always : stable always.
Proof. done. Qed.
Lemma stable_registered en : stable (registered en).
Proof. intros w w' H. by apply registered_evolves. Qed.
Lemma stable_all (ens : list Entry) : stable (fun w => Forall (fun en => registered en w) ens).
Proof.
  intros w w' H HF. eapply Forall_impl; [exact HF|]. intros en. by apply registered_evolves.
Qed.

#[export] Hint Resolve stable_always stable_registered stable_all : hcu.

Lemma respects_seq {A B} P (m : M world A) (f : A -> M world B) :
  stable P -> respects P m -> (forall a, respects P (f a)) -> respects P (m ≫= f).
Proof.
  intros Hs Hm Hf. apply (respects_bind P (fun _ => P)); [done| |done].
  intros w a w' HP Hok E. eapply Hs; [|done]. by eapply Hm.
Qed.

(** A computation that changes nothing. *)
Definition pure_m {A} (m : M world A) : Prop := forall w, (m w).2 = w.

Lemma respects_pure {A} P (m : M world A) : pure_m m -> respects P m.
Proof.
  intros Hp w r w' HP Hok E. specialize (Hp w). rewrite E in Hp. simpl in Hp. by subst.
Qed.

Lemma pure_bind {A B} (m : M world A) (f : A -> M world B) :
  pure_m m -> (forall a, pure_m (f a)) -> pure_m (m ≫= f).
Proof.
  intros Hm Hf w. unfold mbind, M_bind. specialize (Hm w).
  destruct (m w) as [[a|e] w1]; simpl in *; subst; [apply Hf|done].
Qed.

Lemma pure_ret {A} (a : A) : pure_m (mret a).
Proof. done. Qed.
Lemma pure_raise {A} c msg : pure_m (raise (A:=A) c msg).
Proof. done. Qed.
Lemma pure_throw {A} e : pure_m (throw (A:=A) e).
Proof. done. Qed.
Lemma pure_get : pure_m get_state.
Proof. done. Qed.
Lemma pure_lift {A} (r : result A) : pure_m (lift r).
Proof. done. Qed.

#[export] Hint Resolve pure_ret pure_raise pure_throw pure_get pure_lift pure_bind respects_pure : hcu.

Lemma pure_entry_at pid : pure_m (entry_at pid).
Proof. intros w. unfold entry_at. by case_match. Qed.

Lemma pure_entries_of pids : pure_m (entries_of pids).
Proof. induction pids; simpl; auto using pure_entry_at with hcu. Qed.

Lemma pure_entries_for name : pure_m (entries_for name).
Proof. apply pure_bind; [done|]. intros. apply pure_entries_of. Qed.

Lemma pure_raise_if_failed en : pure_m (raise_if_failed en).
Proof. apply pure_bind; [done|]. intros w. repeat case_match; auto with hcu. Qed.

Lemma pure_view en : pure_m (view en).
Proof. apply pure_bind; [done|]. intros. apply pure_ret. Qed.

Lemma pure_replacement_for name : pure_m (replacement_for name).
Proof.
  apply pure_bind; [apply pure_entries_for|]. intros. case_match; auto with hcu.
Qed.

#[export] Hint Resolve pure_entry_at pure_entries_of pure_entries_for pure_raise_if_failed
  pure_view pure_replacement_for : hcu.

Lemma respects_attempt {A} P (m : M world A) : respects P m -> respects P (attempt m).
Proof.
  intros Hm w r w' HP Hok E. unfold attempt in E.
  destruct (m w) as [[a|[c msg]] w1] eqn:Em; [|destruct c]; simplify_eq; eauto.
Qed.

Lemma respects_for_each {A} P (xs : list A) body :
  stable P -> (forall x, x ∈ xs -> respects P (body x)) -> respects P (for_each xs body).
Proof.
  intros Hs. induction xs as [|x xs IH]; intros Hb; simpl; [auto with hcu|].
  apply respects_seq; [done|apply Hb; set_solver|]. intros _. apply IH. set_solver.
Qed.

(** ** Changes of one part of the world *)

Lemma respects_on_env {A} P (m : M env A) : respects P (on_env m).
Proof.
  intros w r w' _ [[] Hc] E. unfold on_env in E. destruct (m (w_env w)) as [r0 e]. simplify_eq.
  split; [split; [split; done|done]|]. split; [intros; apply rtc_refl|done].
Qed.

Lemma evolves_registry w g :
  (forall k, moves (status_of (w_registry w) k) (status_of g k)) ->
  evolves w (World g (w_coord w) (w_env w) (w_calls w)).
Proof. intros Hm. split; [|done]. intros pid. apply rtc_once, Hm. Qed.

Lemma calls_ok_moves w g :
  (forall k, moves (status_of (w_registry w) k) (status_of g k)) -> calls_ok w ->
  calls_ok (World g (w_coord w) (w_env w) (w_calls w)).
Proof.
  intros Hm Hc pid. specialize (Hc pid). unfold count_calls in *. simpl in *.
  destruct (started (record_status w pid)) eqn:E.
  - rewrite (forward_started (record_status w pid)); [lia| |done].
    apply rtc_once, Hm.
  - case_match; lia.
Qed.

Lemma ok_registry w g :
  (forall k, moves (status_of (w_registry w) k) (status_of g k)) -> ok w ->
  ok (World g (w_coord w) (w_env w) (w_calls w)).
Proof. intros Hm [[] Hc]. split; [by split|]. by apply calls_ok_moves. Qed.

Lemma respects_reg_op {A} P (o : reg_op) (m : M PatchRegistry A) :
  normal (op_id o) -> (forall g, (m g).2 = after o g) -> respects P (on_reg m).
Proof.
  intros Hn Hm w r w' _ Hok E. unfold on_reg in E. specialize (Hm (w_registry w)).
  destruct (m (w_registry w)) as [r0 g]. simpl in Hm. simplify_eq.
  assert (forall k, moves (status_of (w_registry w) k) (status_of (after o (w_registry w)) k)).
  { intros k. by eapply updates_moves, after_updates. }
  split; [by apply ok_registry|by apply evolves_registry].
Qed.

Lemma respects_mark_applied P pid b now : normal pid -> respects P (on_reg (mark_applied pid b now)).
Proof. intros. by apply (respects_reg_op _ (OApplied pid b now)). Qed.
Lemma respects_mark_skipped P pid s now : normal pid -> respects P (on_reg (mark_skipped pid s now)).
Proof. intros. by apply (respects_reg_op _ (OSkipped pid s now)). Qed.
Lemma respects_mark_failed P pid f now : normal pid -> respects P (on_reg (mark_failed pid f now)).
Proof. intros. by apply (respects_reg_op _ (OFailed pid f now)). Qed.
Lemma respects_feature P pid b now :
  normal pid -> respects P (on_reg (set_feature_enabled pid b now)).
Proof. intros. by apply (respects_reg_op _ (OFeature pid b now)). Qed.
Lemma respects_declare P pid ts now : normal pid -> respects P (on_reg (declare pid ts now)).
Proof. intros. by apply (respects_reg_op _ (ODeclare pid ts now)). Qed.
Lemma respects_begin P tid pid now : normal pid -> respects P (on_reg (begin tid pid now)).
Proof. intros. by apply (respects_reg_op _ (OBegin tid pid now)). Qed.

#[export] Hint Resolve respects_on_env respects_mark_applied respects_mark_skipped
  respects_mark_failed respects_feature respects_declare respects_begin respects_attempt : hcu.

Lemma registered_normal en w : ok w -> registered en w -> normal (e_patch_id en).
Proof. intros [Hc _] (en' & Hen & _). by apply (ok_keys _ Hc) in Hen as [_ ?]. Qed.

Lemma respects_normal {A} en (m : M world A) :
  (normal (e_patch_id en) -> respects (registered en) m) -> respects (registered en) m.
Proof. intros H w r w' Hr Hok. apply H; [by eapply registered_normal|done..]. Qed.

Lemma registered_live en w : registered en w -> static en (live w en).
Proof. intros (en' & Hen & Hs). unfold live. by rewrite Hen. Qed.

(** Replacing an entry by one with the same static attributes. *)
Lemma set_entry_ok en w :
  registered en w -> ok w -> ok (set_entry en w) /\ evolves w (set_entry en w).
Proof.
  intros (en0 & Hen & Hs) [[Hnd Hk Hl Hi H1] Hc].
  assert (forall k en', dget (entries (w_coord (set_entry en w))) k = Some en' ->
    exists en1, dget (entries (w_coord w)) k = Some en1 /\ static en' en1) as Hback.
  { intros k en'. simpl. rewrite dget_dset. case_decide; intros; simplify_eq; eauto with hcu. }
  assert (forall k en1, dget (entries (w_coord w)) k = Some en1 ->
    exists en', dget (entries (w_coord (set_entry en w))) k = Some en' /\ static en1 en') as Hfwd.
  { intros k en1 H. simpl. rewrite dget_dset. case_decide; simplify_eq; eauto using static_sym with hcu. }
  split; [split; [split|done]|split].
  - by apply NoDup_dset.
  - intros pid en' (en1 & H & Hst)%Hback. apply Hk in H as [? ?].
    destruct Hst as (Hp & _). by rewrite Hp.
  - intros pid en' (en1 & H & Hst)%Hback. apply Hl in H.
    destruct Hst as (_ & Hm & _). by rewrite Hm.
  - intros name pid (en1 & H & Hm)%Hi. apply Hfwd in H as (en' & ? & Hst).
    exists en'. split; [done|]. destruct Hst as (_ & <- & _). done.
  - intros p q a b (a1 & Ha & Sa)%Hback (b1 & Hb & Sb)%Hback. unfold static in *.
    intros. apply (H1 p q a1 b1); intuition congruence.
  - intros pid. apply rtc_refl.
  - intros en' (en1 & H & Hst). apply Hfwd in H as (en2 & ? & ?).
    exists en2. eauto using static_trans.
Qed.

Lemma respects_set_entry en (f : world -> Entry) :
  (forall w, static en (live w en) -> static en (f w)) ->
  respects (registered en) (modify (fun w => set_entry (f w) w)).
Proof.
  intros Hf w r w' Hr Hok E. unfold modify in E. simplify_eq.
  apply set_entry_ok; [|done]. pose proof (Hf w (registered_live _ _ Hr)) as Hst.
  destruct Hr as (en' & Hen & Hs). exists en'. destruct Hst as (Hp & Hst). rewrite <- Hp.
  split; [done|]. unfold static in *. intuition congruence.
Qed.

(** ** Reading the tables *)

Lemma Forall2_elem_l {A B} (R : A -> B -> Prop) (l : list A) (k : list B) x :
  Forall2 R l k -> x ∈ l -> exists y, y ∈ k /\ R x y.
Proof.
  induction 1 as [|a b l k H _ IH]; [set_solver|].
  intros [->|Hin]%elem_of_cons; [exists b; set_solver|].
  destruct (IH Hin) as (y & ? & ?). exists y. set_solver.
Qed.

Lemma entries_of_ok pids w :
  (forall pid, pid ∈ pids -> is_Some (dget (entries (w_coord w)) pid)) ->
  exists ens, entries_of pids w = (Ok ens, w) /\
    Forall2 (fun pid en => dget (entries (w_coord w)) pid = Some en) pids ens.
Proof.
  induction pids as [|pid pids IH]; intros H; simpl; [by exists []|].
  destruct (H pid) as [en Hen]; [set_solver|].
  destruct IH as (ens & E & HF); [set_solver|].
  exists (en :: ens). split; [|by constructor].
  unfold entry_at. munfold. rewrite Hen. munfold. by rewrite E.
Qed.

Lemma entries_for_ok name w :
  ok w -> exists ens, entries_for name w = (Ok ens, w) /\
    Forall2 (fun pid en => dget (entries (w_coord w)) pid = Some en) (ids_for w name) ens.
Proof.
  intros [Hc _]. apply entries_of_ok. intros pid (en & Hen & _)%(ok_ids _ Hc). eauto.
Qed.

Lemma Forall2_registered w pids ens :
  coord_ok w ->
  Forall2 (fun pid en => dget (entries (w_coord w)) pid = Some en) pids ens ->
  Forall (fun en => registered en w) ens.
Proof.
  intros Hc H. induction H as [|pid en pids ens Hen _ IH]; constructor; [|done].
  exists en. destruct (ok_keys _ Hc _ _ Hen) as [Hid _]. rewrite Hid. auto with hcu.
Qed.

Lemma entries_of_registered pids w r w' :
  coord_ok w -> entries_of pids w = (Ok r, w') -> Forall (fun en => registered en w') r.
Proof.
  intros Hc. revert r w'. induction pids as [|pid pids IH]; simpl; intros r w'.
  - unfold mret, M_ret. intros; simplify_eq. constructor.
  - unfold entry_at. munfold. destruct (dget _ pid) as [en|] eqn:E; [|done].
    destruct (entries_of pids w) as [[ens|?] w1] eqn:E1; intros; simplify_eq.
    constructor; [|by apply IH].
    assert (w' = w) as ->.
    { pose proof (pure_entries_of pids w) as Hp. by rewrite E1 in Hp. }
    exists en. destruct (ok_keys _ Hc _ _ E) as [Hid _]. rewrite Hid. auto with hcu.
Qed.

Lemma entries_for_registered name w r w' :
  ok w -> entries_for name w = (Ok r, w') -> Forall (fun en => registered en w') r.
Proof. intros [Hc _]. unfold entries_for. munfold. by apply entries_of_registered. Qed.

Lemma replacement_for_registered name w en w' :
  ok w -> replacement_for name w = (Ok en, w') -> registered en w'.
Proof.
  intros Hok. unfold replacement_for. intros (ens & w1 & E & H)%M_bind_inv.
  apply entries_for_registered in E; [|done].
  destruct (List.find _ ens) as [en'|] eqn:F; [|done].
  unfold mret, M_ret in H. simplify_eq. apply List.find_some in F as [Hin _].
  rewrite Forall_forall in E. apply E. by apply list_elem_of_In.
Qed.

(** ** The methods keep the invariant *)

(** The rest of the process keeps the contract that the coordinator's own
    methods keep, so it may itself use the coordinator. *)
Section methods_respect.
Context (tid now : Z).
Context (run_callback : Z -> Z -> M world unit).
Context (import_module : string -> M world pyobj).
Context (factory : Z -> M world pyobj).
Context (finder_find_spec : Z -> option (string -> Z -> option Z -> M world (option Z))).
Context (loader_create : Z -> option (Z -> M world (option Z))).
Context (loader_exec : Z -> Z -> M world unit).

Record process_respects : Prop := {
  callback_respects : forall f m, respects always (run_callback f m);
  import_respects : forall s, respects always (import_module s);
  factory_respects : forall f, respects always (factory f);
  finder_respects : forall n find, finder_find_spec n = Some find ->
    forall name path target, respects always (find name path target);
  create_respects : forall d create, loader_create d = Some create ->
    forall spec, respects always (create spec);
  exec_respects : forall d m, respects always (loader_exec d m)
}.

Hypothesis Hext : process_respects.

Lemma respects_always {A} P (m : M world A) : respects always m -> respects P m.
Proof. by apply respects_weaken. Qed.

Lemma respects_begin_w P pid : normal pid -> respects P (begin_w tid now pid).
Proof.
  intros Hn. apply (respects_bind P (fun _ => always)); [by apply respects_begin|done|].
  intros o. apply respects_pure. destruct o; auto with hcu.
Qed.

(** The caller has just claimed the patch and not yet called its callback. *)
Definition claimed (pid : string) (w : world) : Prop :=
  started (record_status w pid) = true /\ count_calls pid w = 0.

Lemma begin_w_claims pid w w' :
  normal pid -> ok w -> begin_w tid now pid w = (Ok true, w') ->
  record_status w pid = Some ARMED /\ record_status w' pid = Some APPLYING /\ claimed pid w'.
Proof.
  intros Hn [_ Hc]. specialize (Hc pid). unfold claimed, begin_w, on_reg, begin.
  unfold record_status in *. unfold get in *. munfold. rewrite validate_normal by done.
  destruct (dget (records (w_registry w)) pid) as [rec|] eqn:E; [|done].
  unfold count_calls in *.
  destruct (status rec) eqn:Hs; try case_decide; intros; simplify_eq/=.
  rewrite dget_dset_eq, Hs in *. simpl in *. split_and!; [done..|lia].
Qed.

Lemma call_callback_respects pid f m : respects (claimed pid) (call_callback run_callback pid f m).
Proof.
  apply (respects_bind _ (fun _ => always)); [|done|intros; apply (callback_respects Hext)].
  intros w r w' [Hst Hcnt] [[] Hc] E. unfold modify in E. simplify_eq.
  split; [split; [by split|]|split; [intros; apply rtc_refl|done]].
  intros pid'. specialize (Hc pid'). unfold count_calls in *. simpl.
  change (record_status (World _ _ _ _) pid') with (record_status w pid').
  rewrite filter_cons. case_decide; simpl in *; [|done].
  subst. rewrite Hst. lia.
Qed.

Lemma call_and_settle_respects en m :
  normal (e_patch_id en) ->
  respects (fun w => registered en w /\ claimed (e_patch_id en) w)
    (call_and_settle now run_callback en m).
Proof.
  intros Hn. unfold call_and_settle.
  destruct (e_payload en); try (apply respects_pure, pure_raise).
  apply (respects_bind _ (fun _ => registered en)).
  - apply respects_attempt. eapply respects_weaken; [|apply call_callback_respects].
    naive_solver.
  - intros w a w' [Hr Hcl] Hok E. eapply registered_evolves; [|done].
    by refine (proj2 (respects_attempt _ _ (call_callback_respects _ _ _) _ _ _ _ Hok E)).
  - intros [u|e]; [|case_decide];
      repeat (apply respects_seq; [auto with hcu..|intros ?]); auto with hcu.
Qed.

Lemma begin_w_Q en w b w' :
  normal (e_patch_id en) -> registered en w -> ok w ->
  begin_w tid now (e_patch_id en) w = (Ok b, w') ->
  registered en w' /\ (b = true -> claimed (e_patch_id en) w').
Proof.
  intros Hn Hr Hok E. split.
  - eapply registered_evolves; [|done]. by eapply (respects_begin_w always).
  - intros ->. by eapply begin_w_claims.
Qed.

Lemma apply_callback_respects en m :
  respects (registered en) (apply_callback tid now run_callback en m).
Proof.
  apply respects_normal. intros Hn.
  apply (respects_bind _ (fun b w => registered en w /\ (b = true -> claimed (e_patch_id en) w)));
    [by apply respects_begin_w| |].
  - intros w b w' Hr Hok E. by apply (begin_w_Q en w).
  - intros [|]; [|auto with hcu].
    eapply respects_weaken; [|by apply call_and_settle_respects]. naive_solver.
Qed.

(** Once tried, an armed callback is never armed again. *)
Lemma apply_callback_starts en m w r w' :
  registered en w -> ok w -> record_status w (e_patch_id en) = Some ARMED ->
  apply_callback tid now run_callback en m w = (r, w') ->
  started (record_status w' (e_patch_id en)) = true.
Proof.
  intros Hr Hok Hst. pose proof (registered_normal _ _ Hok Hr) as Hn.
  unfold apply_callback. intros H.
  destruct (begin_w tid now (e_patch_id en) w) as [rb w1] eqn:Eb.
  assert (rb = Ok true) as ->.
  { revert Eb. unfold begin_w, on_reg, begin, record_status, get in *. munfold.
    rewrite validate_normal by done.
    destruct (dget (records (w_registry w)) (e_patch_id en)) as [rec|]; [|done].
    simpl in Hst. simplify_eq. rewrite Hst. by intros; simplify_eq. }
  rewrite (M_bind_ok _ _ _ _ _ Eb) in H.
  destruct (begin_w_Q _ _ _ _ Hn Hr Hok Eb) as [Hr1 Hcl]. specialize (Hcl eq_refl).
  assert (ok w1) as Hok1 by by eapply (respects_begin_w always).
  eapply forward_started; [|apply Hcl].
  by eapply (call_and_settle_respects en m Hn w1).
Qed.

Lemma apply_armed_respects ens m first :
  respects (fun w => Forall (fun en => registered en w) ens)
    (apply_armed tid now run_callback ens m first).
Proof.
  revert first. induction ens as [|en ens IH]; intros first; simpl; [auto with hcu|].
  apply respects_seq; [auto with hcu..|intros w0].
  assert (forall first, respects (fun w => Forall (fun en => registered en w) (en :: ens))
    (apply_armed tid now run_callback ens m first)) as IH'.
  { intros f. eapply respects_weaken; [|apply IH]. by intros w [? ?]%Forall_cons. }
  case_match; [done|]. apply respects_seq; [auto with hcu| |intros r].
  - apply respects_attempt. eapply respects_weaken; [|apply apply_callback_respects].
    by intros w [? ?]%Forall_cons.
  - destruct r, first; apply IH'.
Qed.

Lemma module_loaded_respects P name m : respects P (module_loaded tid now run_callback name m).
Proof.
  apply respects_always.
  apply (respects_bind _ (fun ens w => Forall (fun en => registered en w) ens)).
  - auto with hcu.
  - intros w ens w' _ Hok. by apply entries_for_registered.
  - intros ens. apply respects_seq; [auto with hcu|apply apply_armed_respects|].
    intros [e|]; auto with hcu.
Qed.

Lemma module_load_failed_respects P name e : respects P (module_load_failed now name e).
Proof.
  apply respects_always.
  apply (respects_bind _ (fun ens w => Forall (fun en => registered en w) ens)).
  - auto with hcu.
  - intros w ens w' _ Hok. by apply entries_for_registered.
  - intros ens. apply respects_for_each; [auto with hcu|]. intros en Hin.
    eapply (respects_weaken _ (registered en)).
    { intros w HF. rewrite Forall_forall in HF. by apply HF. }
    apply respects_seq; [auto with hcu..|intros w0]. case_match; [|auto with hcu].
    apply respects_normal. intros Hn. apply respects_seq; auto with hcu.
Qed.

Lemma resolve_respects P p : respects P (resolve_replacement import_module factory p).
Proof.
  apply respects_always, (respects_bind _ (fun _ => always)); [|done|].
  - destruct Hext, p; auto with hcu.
  - intros []; auto with hcu.
Qed.

Lemma install_reload_guard_respects en m : respects (registered en) (install_reload_guard en m).
Proof.
  apply respects_seq; [auto with hcu| |auto with hcu].
  intros w r w' Hr Hok. unfold modify. intros E. simplify_eq.
  case_match; [split; [done|reflexivity]|]. apply set_entry_ok; [|done].
  destruct Hr as (en' & Hen & Hs). unfold live. rewrite Hen. simpl.
  exists en'. destruct Hs as (Hp & Hs). simpl. rewrite <- Hp. split; [done|]. by unfold static.
Qed.

Lemma replacement_for_bind {B} P name (f : Entry -> M world B) :
  (forall en, normal (e_patch_id en) -> respects (registered en) (f en)) ->
  respects P (replacement_for name ≫= f).
Proof.
  intros Hf. apply respects_always, (respects_bind _ registered); [auto with hcu| |].
  - intros w en w' _ Hok. by apply replacement_for_registered.
  - intros en. apply respects_normal, Hf.
Qed.

Lemma create_replacement_respects P name :
  respects P (create_replacement tid now import_module factory name).
Proof.
  apply replacement_for_bind. intros en Hn.
  apply respects_seq; [auto with hcu..|intros w0]. case_match.
  - case_match; auto with hcu.
  - apply respects_seq; [auto with hcu|by apply respects_begin_w|intros _].
    apply respects_seq; [auto with hcu|auto using resolve_respects with hcu|intros [m|e]].
    + apply respects_seq; [auto with hcu| |auto with hcu].
      apply respects_set_entry. intros w. by unfold static.
    + apply respects_seq; auto with hcu.
Qed.

Lemma replacement_loaded_respects P name m :
  respects P (replacement_loaded tid now run_callback name m).
Proof.
  apply replacement_for_bind. intros en Hn.
  apply respects_seq; [auto with hcu..|intros w0].
  apply respects_seq; [auto with hcu| |intros _].
  - case_match; [apply respects_seq; auto with hcu|auto with hcu].
  - apply respects_seq; [auto with hcu|apply install_reload_guard_respects|].
    intros _. apply module_loaded_respects.
Qed.

Lemma replace_loaded_module_respects en o :
  respects (registered en) (replace_loaded_module tid now run_callback import_module factory en o).
Proof.
  apply respects_normal. intros Hn.
  apply respects_seq; [auto with hcu|by apply respects_begin_w|intros [|]]; [|auto with hcu].
  apply respects_seq; [auto with hcu|auto using resolve_respects with hcu|intros [m|e]].
  - apply respects_seq; [auto with hcu| |intros _].
    { apply respects_set_entry. intros w. by unfold static. }
    do 3 (apply respects_seq; [auto with hcu..|intros ?]).
    apply respects_seq; [auto with hcu|apply install_reload_guard_respects|].
    intros _. apply module_loaded_respects.
  - apply respects_seq; auto with hcu.
Qed.

(** *** Registration *)

(** The patch is not registered, and it is no second replacement. *)
Definition fresh_entry (en : Entry) (w : world) : Prop :=
  dget (entries (w_coord w)) (e_patch_id en) = None /\
  (e_action en = REPLACEMENT -> forall k en', dget (entries (w_coord w)) k = Some en' ->
     e_module_name en' = e_module_name en -> e_action en' <> REPLACEMENT).

Lemma ids_for_add en w name :
  ids_for (add_entry en w) name =
  if decide (e_module_name en = name) then (ids_for w name ++ [e_patch_id en])%list
  else ids_for w name.
Proof. unfold ids_for at 1. simpl. rewrite dget_dset. by case_decide; subst. Qed.

Lemma add_entry_coord_ok en w :
  normal (e_patch_id en) -> fresh_entry en w -> coord_ok w -> coord_ok (add_entry en w).
Proof.
  intros Hn [Hf Hr] [Hnd Hk Hl Hi H1]. split; simpl.
  - by apply NoDup_dset.
  - intros pid en'. rewrite dget_dset. case_decide; intros; simplify_eq; eauto.
  - intros pid en'. rewrite dget_dset, ids_for_add. case_decide; intros; simplify_eq.
    + rewrite decide_True by done. set_solver.
    + case_decide; [|by apply Hl]. apply elem_of_app. left. by apply Hl.
  - intros name pid. rewrite ids_for_add. intros Hin.
    assert (pid ∈ ids_for w name \/ (e_module_name en = name /\ pid = e_patch_id en)) as [H|[H ->]].
    { case_decide; set_solver. }
    + destruct (Hi _ _ H) as (en' & Hen & ?). exists en'. rewrite dget_dset_ne; [done|congruence].
    + exists en. by rewrite dget_dset_eq.
  - intros p q a b. rewrite !dget_dset. repeat case_decide; intros; simplify_eq; try done.
    + exfalso. eapply Hr; eauto.
    + exfalso. eapply Hr; eauto.
    + eauto.
Qed.

Lemma add_entry_ok en w :
  normal (e_patch_id en) -> fresh_entry en w -> ok w ->
  ok (add_entry en w) /\ evolves w (add_entry en w).
Proof.
  intros Hn Hf [Hc Hl]. split; [split; [by apply add_entry_coord_ok|done]|].
  split; [intros; apply rtc_refl|]. intros en' (en1 & H & Hs). exists en1. split; [|done].
  simpl. destruct Hf as [Hf _]. rewrite dget_dset_ne; [done|congruence].
Qed.

Lemma on_reg_coord {A} (m : M PatchRegistry A) w r w' :
  on_reg m w = (r, w') -> w_coord w' = w_coord w.
Proof. unfold on_reg. destruct (m _). by intros; simplify_eq. Qed.

Lemma find_replacement_fresh en w ens :
  coord_ok w -> dget (entries (w_coord w)) (e_patch_id en) = None ->
  (if is_callback en then mret [] else entries_of (ids_for w (e_module_name en))) w = (Ok ens, w) ->
  List.find (fun other => negb (is_callback other)) ens = None -> fresh_entry en w.
Proof.
  intros Hc Hn E F. split; [done|]. intros Hact k en' Hen Hmod Hact'.
  unfold is_callback in E at 1. rewrite bool_decide_eq_false_2 in E by congruence.
  destruct (entries_of_ok (ids_for w (e_module_name en)) w) as (ens' & E' & HF).
  { intros pid (? & ? & _)%(ok_ids _ Hc). eauto. }
  rewrite E in E'. simplify_eq. apply (ok_listed _ Hc) in Hen as Hin. rewrite Hmod in Hin.
  destruct (Forall2_elem_l _ _ _ _ HF Hin) as (en1 & Hin1 & Hen1).
  simplify_eq. apply list_elem_of_In in Hin1. pose proof (List.find_none _ _ F _ Hin1) as Hb.
  simpl in Hb.   unfold is_callback in Hb. rewrite bool_decide_eq_false_2 in Hb by congruence. done.
Qed.

Lemma register_respects en :
  normal (e_patch_id en) -> respects always (register en now).
Proof.
  intros Hn. apply (respects_bind _ (fun w0 w => w0 = w)); [auto with hcu|by intros; munfold; simplify_eq|].
  intros w0. destruct (dget (entries (w_coord w0)) (e_patch_id en)) as [ex|] eqn:Hd.
  - case_match; [auto with hcu|].
    apply (respects_bind _ (fun _ w => registered ex w)); [auto with hcu| |].
    + intros w ? w' -> Hok E. pose proof (pure_raise_if_failed ex w) as Hp.
      rewrite E in Hp. simpl in Hp. subst w'. destruct Hok as [Hc _]. exists ex.
      destruct (ok_keys _ Hc _ _ Hd) as [Hid _]. rewrite Hid. auto with hcu.
    + intros _. case_match; [auto with hcu|]. apply respects_normal. intros Hex.
      apply respects_seq; [auto with hcu| |intros _].
      * apply (respects_set_entry ex (fun _ => _)). intros; unfold static; done.
      * apply respects_seq; auto with hcu.
  - apply (respects_bind _ (fun ens w => w = w0 /\
      (if is_callback en then mret [] else entries_of (ids_for w (e_module_name en))) w = (Ok ens, w))).
    + case_match; auto with hcu.
    + intros w ens w' -> Hok E. assert (w' = w) as ->; [|by rewrite E].
      case_match; munfold; [by simplify_eq|].
      pose proof (pure_entries_of (ids_for w (e_module_name en)) w) as Hp. by rewrite E in Hp.
    + intros ens. destruct (List.find _ ens) as [?|] eqn:F; [auto with hcu|].
      apply (respects_bind _ (fun _ => fresh_entry en)); [auto with hcu| |intros _].
      { intros w ? w' [-> E] [Hc _] Hr. apply on_reg_coord in Hr. unfold fresh_entry. rewrite Hr.
        eapply find_replacement_fresh; eauto. }
      apply (respects_bind _ (fun _ => fresh_entry en)); [auto with hcu| |intros _].
      { intros w ? w' Hf Hok Hr. apply on_reg_coord in Hr. unfold fresh_entry. by rewrite Hr. }
      apply (respects_bind _ (fun _ => always)); [|done|auto with hcu].
      intros w r w' Hf Hok E. unfold modify in E. simplify_eq. by apply add_entry_ok.
Qed.

Lemma on_reg_entry {A} (m : M PatchRegistry A) w r w' k :
  on_reg m w = (r, w') -> dget (entries (w_coord w')) k = dget (entries (w_coord w)) k.
Proof. by intros ->%on_reg_coord. Qed.

Lemma register_registered en w ex b w' :
  ok w -> register en now w = (Ok (ex, b), w') -> registered ex w'.
Proof.
  intros [Hc _]. unfold register. intros (w0 & w1 & Hg & H)%M_bind_inv.
  unfold get_state in Hg. simplify_eq.
  destruct (dget (entries (w_coord w0)) (e_patch_id en)) as [old|] eqn:Hd.
  - case_match; [done|]. apply M_bind_inv in H as (u & w2 & Hf & H).
    pose proof (pure_raise_if_failed old w0) as Hp. rewrite Hf in Hp. simpl in Hp. subst w2.
    destruct (ok_keys _ Hc _ _ Hd) as [Hid _]. case_match.
    + munfold. simplify_eq. exists ex. rewrite Hid. auto with hcu.
    + apply M_bind_inv in H as (u1 & w2 & Hm & H). unfold modify in Hm.
      apply M_bind_inv in H as (u2 & w3 & Hr & H). munfold. simplify_eq.
      exists (set_enabled (e_feature_enabled en) old). simpl.
      rewrite (on_reg_entry _ _ _ _ _ Hr). simpl. rewrite dget_dset_eq. auto with hcu.
  - apply M_bind_inv in H as (ens & w2 & He & H).
    destruct (List.find _ ens); [done|].
    apply M_bind_inv in H as (u1 & w3 & Hr1 & H). apply M_bind_inv in H as (u2 & w4 & Hr2 & H).
    unfold modify in H. munfold. simplify_eq. exists ex. simpl. rewrite dget_dset_eq. auto with hcu.
Qed.

Lemma register_bind {B} en (f : Entry -> bool -> M world B) :
  normal (e_patch_id en) ->
  (forall ex b, normal (e_patch_id ex) -> respects (registered ex) (f ex b)) ->
  respects always (register en now ≫= fun reg => let '(ex, b) := (reg : Entry * bool) in f ex b).
Proof.
  intros Hn Hf. apply (respects_bind _ (fun reg => registered reg.1)).
  - by apply register_respects.
  - intros w [ex b] w' _ Hok. by apply register_registered.
  - intros [ex b]. apply respects_normal. intros Hex. by apply Hf.
Qed.

Lemma register_callback_respects pid name cb ts b :
  normal pid -> respects always (register_callback tid now run_callback pid name cb ts b).
Proof.
  intros Hn. do 2 (apply respects_seq; [auto with hcu..|intros ?]).
  apply register_bind; [done|]. intros ex is_new Hex.
  apply respects_seq; [auto with hcu|destruct is_new; auto with hcu|intros _].
  apply respects_seq; [auto with hcu..|intros w0].
  case_match; [|auto with hcu].
  apply respects_seq; [auto with hcu| |auto with hcu].
  case_match; [apply apply_callback_respects|auto with hcu].
Qed.

Lemma register_replacement_respects pid name p ts b late :
  normal pid ->
  respects always (register_replacement tid now run_callback import_module factory pid name p ts b late).
Proof.
  intros Hn. do 2 (apply respects_seq; [auto with hcu..|intros ?]).
  apply respects_seq; [auto with hcu|case_match; auto with hcu|intros _].
  apply respects_seq; [auto with hcu..|intros tgts].
  apply register_bind; [done|]. intros ex [|] Hex.
  - apply respects_seq; [auto with hcu..|intros w0].
    case_match; [|auto with hcu]. destruct late.
    + apply respects_seq; auto with hcu.
    + apply respects_seq; auto using replace_loaded_module_respects with hcu.
  - apply respects_seq; auto with hcu.
Qed.

(** *** The finder, the loaders and the remaining methods *)

Lemma find_delegate_respects fs name path target :
  respects always (find_delegate_spec finder_find_spec fs name path target).
Proof.
  induction fs as [|[|n] fs IH]; simpl; [auto with hcu|done|].
  destruct (finder_find_spec n) as [find|] eqn:E; [|done].
  apply respects_seq; [auto with hcu|by eapply (finder_respects Hext)|].
  intros [s|]; auto with hcu.
Qed.

Lemma find_spec_respects spec_loader name path target :
  respects always (find_spec finder_find_spec spec_loader name path target).
Proof.
  do 2 (apply respects_seq; [auto with hcu..|intros ?]).
  repeat (case_match; [auto with hcu; fail|]).
  repeat case_match; auto with hcu;
    (apply respects_seq; [auto with hcu|apply find_delegate_respects|]);
    intros [s|]; auto with hcu.
Qed.

Lemma create_module_respects l spec :
  respects always (create_module tid now import_module factory loader_create l spec).
Proof.
  destruct l as [name [d|]|name|c msg]; simpl; [|auto with hcu..|auto with hcu].
  - destruct (loader_create d) eqn:E; [by eapply (create_respects Hext)|auto with hcu].
  - apply respects_seq; auto using create_replacement_respects with hcu.
Qed.

Lemma exec_module_respects l m :
  respects always (exec_module tid now run_callback loader_exec l m).
Proof.
  destruct l as [name d|name|c msg]; simpl;
    [|apply replacement_loaded_respects|auto with hcu].
  apply respects_seq; [auto with hcu| |intros [u|e]].
  - apply respects_attempt. destruct d; [apply (exec_respects Hext)|auto with hcu].
  - apply module_loaded_respects.
  - apply respects_seq; auto using module_load_failed_respects with hcu.
Qed.

Lemma respects_set_installed P b : respects P (modify (set_installed b)).
Proof.
  intros w r w' _ [[] Hc] E. unfold modify in E. simplify_eq.
  split; [split; [by split|done]|]. split; [intros; apply rtc_refl|done].
Qed.

Lemma install_one_respects name :
  respects always (install_one tid now run_callback import_module factory name).
Proof.
  apply respects_seq; [auto with hcu..|intros w0].
  case_match; [|auto with hcu].
  apply (respects_bind _ (fun ens w => Forall (fun en => registered en w) ens)).
  - auto with hcu.
  - intros w ens w' _ Hok. by apply entries_for_registered.
  - intros ens. destruct (active_replacement w0 ens) as [en|] eqn:E;
      [|apply module_loaded_respects].
    apply (respects_weaken _ (registered en)).
    { intros w HF. apply List.find_some in E as [Hin _]. rewrite Forall_forall in HF.
      by apply HF, list_elem_of_In. }
    apply respects_normal. intros Hn. case_match; [|apply replace_loaded_module_respects].
    apply respects_seq; auto with hcu.
Qed.

Lemma install_respects :
  respects always (install tid now run_callback import_module factory).
Proof.
  apply respects_seq; [auto with hcu..|intros w0].
  case_match; [apply respects_set_installed|].
  apply respects_seq; [auto with hcu..|intros _].
  apply respects_seq; [auto with hcu|apply respects_set_installed|intros _].
  apply respects_for_each; auto using install_one_respects with hcu.
Qed.

Lemma uninstall_respects : respects always uninstall.
Proof. apply respects_seq; auto using respects_set_installed with hcu. Qed.

Lemma pure_registrations : pure_m registrations.
Proof.
  apply pure_bind; [done|]. intros w0. apply pure_bind; [auto with hcu|].
  intros ens. induction ens; simpl; auto with hcu.
Qed.

Lemma values_registered w :
  coord_ok w -> Forall (fun en => registered en w) (dvalues (entries (w_coord w))).
Proof.
  intros Hc. apply Forall_forall. intros en ([k en'] & -> & Hin)%list_elem_of_fmap.
  apply elem_dget in Hin as Hen; [|apply (ok_nodup _ Hc)].
  destruct (ok_keys _ Hc _ _ Hen) as [Hid _]. simpl. exists en'. rewrite Hid. auto with hcu.
Qed.

Lemma drain_respects : respects always (drain_ready_callbacks tid now run_callback).
Proof.
  apply (respects_bind _ (fun w0 w => coord_ok w /\ w0 = w)); [auto with hcu| |].
  { intros w w0 w' _ [Hc _] E. unfold get_state in E. by simplify_eq. }
  intros w0. set (ens := filter _ _).
  apply (respects_weaken _ (fun w => Forall (fun en => registered en w) ens)).
  { intros w [Hc ->]. apply Forall_forall. intros en [_ Hin]%list_elem_of_filter.
    apply values_registered in Hc. rewrite Forall_forall in Hc. by apply Hc. }
  apply respects_seq; [auto with hcu| |auto using pure_registrations with hcu].
  apply respects_for_each; [auto with hcu|]. intros en Hin.
  apply (respects_weaken _ (registered en)).
  { intros w HF. rewrite Forall_forall in HF. by apply HF. }
  do 2 (apply respects_seq; [auto with hcu..|intros ?]).
  case_match; [auto with hcu|]. case_match; [apply apply_callback_respects|auto with hcu].
Qed.

Lemma coord_feature_respects pid b : normal pid -> respects always (coord_set_feature_enabled now pid b).
Proof.
  intros Hn. apply (respects_bind _ (fun w0 w => w0 = w)); [auto with hcu|by intros; munfold; simplify_eq|].
  intros w0. destruct (dget (entries (w_coord w0)) pid) as [en|] eqn:Hd; [|auto with hcu].
  apply (respects_bind _ (fun _ => always)); [|done|].
  - intros w r w' -> Hok E. unfold modify in E. simplify_eq. apply set_entry_ok; [|done].
    destruct Hok as [Hc _]. destruct (ok_keys _ Hc _ _ Hd) as [Hid _].
    exists en. simpl. rewrite Hid. by split.
  - intros _. apply respects_seq; auto with hcu.
Qed.
End methods_respect.

(** ** Runs of the coordinator *)

Record process := Process {
  p_callback : Z -> Z -> M world unit;
  p_import : string -> M world pyobj;
  p_factory : Z -> M world pyobj;
  p_finder : Z -> option (string -> Z -> option Z -> M world (option Z));
  p_spec_loader : Z -> option Z;
  p_create : Z -> option (Z -> M world (option Z));
  p_exec : Z -> Z -> M world unit
}.

Definition well_behaved (p : process) : Prop :=
  process_respects (p_callback p) (p_import p) (p_factory p) (p_finder p) (p_create p) (p_exec p).

Inductive coord_op :=
  | RegisterCallback (pid name : string) (cb : Z) (ts : option targets_arg) (enabled : bool)
  | RegisterReplacement (pid name : string) (r : payload_t) (ts : option targets_arg)
      (enabled : bool) (late : late_policy_t)
  | FindSpec (name : string) (path : Z) (target : option Z)
  | CreateModule (l : loader) (spec : Z)
  | ExecModule (l : loader) (m : Z)
  | Install
  | Uninstall
  | Drain
  | SetFeature (pid : string) (enabled : bool).

Definition op_ids (o : coord_op) : list string :=
  match o with
  | RegisterCallback pid _ _ _ _ | RegisterReplacement pid _ _ _ _ _ | SetFeature pid _ => [pid]
  | _ => []
  end.

(** The world after a call by thread [tid] at time [now], whatever its outcome. *)
Definition run_op (p : process) (tid now : Z) (o : coord_op) (w : world) : world :=
  match o with
  | RegisterCallback pid name cb ts b =>
      (register_callback tid now (p_callback p) pid name cb ts b w).2
  | RegisterReplacement pid name r ts b late =>
      (register_replacement tid now (p_callback p) (p_import p) (p_factory p)
         pid name r ts b late w).2
  | FindSpec name path target => (find_spec (p_finder p) (p_spec_loader p) name path target w).2
  | CreateModule l spec => (create_module tid now (p_import p) (p_factory p) (p_create p) l spec w).2
  | ExecModule l m => (exec_module tid now (p_callback p) (p_exec p) l m w).2
  | Install => (install tid now (p_callback p) (p_import p) (p_factory p) w).2
  | Uninstall => (uninstall w).2
  | Drain => (drain_ready_callbacks tid now (p_callback p) w).2
  | SetFeature pid b => (coord_set_feature_enabled now pid b w).2
  end.

Definition run_ops (p : process) (ops : list (Z * Z * coord_op)) (w : world) : world :=
  foldl (fun w '(tid, now, o) => run_op p tid now o w) w ops.

Lemma respects_run {A} (m : M world A) w :
  respects always m -> ok w -> ok (m w).2 /\ evolves w (m w).2.
Proof. intros Hm Hok. destruct (m w) as [r w'] eqn:E. by eapply Hm. Qed.

Lemma run_op_ok p tid now o w :
  well_behaved p -> Forall normal (op_ids o) -> ok w ->
  ok (run_op p tid now o w) /\ evolves w (run_op p tid now o w).
Proof.
  intros Hp Hn Hok.
  destruct o; cbn [run_op op_ids] in *; rewrite ?Forall_singleton in Hn; apply respects_run;
    first [ done | eapply register_callback_respects | eapply register_replacement_respects
          | eapply find_spec_respects | eapply create_module_respects
          | eapply exec_module_respects | eapply install_respects | apply uninstall_respects
          | eapply drain_respects | apply coord_feature_respects ];
    first [ exact Hp | exact Hn ].
Qed.

Lemma run_ops_ok p ops w :
  well_behaved p -> Forall (fun x => Forall normal (op_ids x.2)) ops -> ok w ->
  ok (run_ops p ops w) /\ evolves w (run_ops p ops w).
Proof.
  intros Hp. revert w. induction ops as [|[[tid now] o] ops IH]; intros w Hn Hok; simpl.
  { by split. }
  apply Forall_cons in Hn as [Ho Hn]. simpl in Ho.
  destruct (run_op_ok p tid now o w Hp Ho Hok) as [Hok1 Hev1].
  destruct (IH _ Hn Hok1) as [? ?]. split; [done|]. by etrans.
Qed.

(** A process in which nothing is registered yet. *)
Definition at_start (w : world) : Prop := w_coord w = Coord [] [] false /\ w_calls w = [].

Lemma at_start_ok w : at_start w -> ok w.
Proof.
  intros [Hc Hl]. split.
  - split; rewrite ?Hc; simpl; try done; [constructor|].
    unfold ids_for. rewrite Hc. simpl. set_solver.
  - intros pid. unfold count_calls. rewrite Hl. simpl. lia.
Qed.

(** C23: whatever sequence of coordinator methods runs, from whatever threads,
    and whatever they return or raise, each registered callback is called at
    most once; it is called only once its patch has been claimed, and the
    patch then never becomes armed again. *)
Theorem callbacks_at_most_once p ops w :
  well_behaved p -> Forall (fun x => Forall normal (op_ids x.2)) ops -> at_start w ->
  forall pid,
    count_calls pid (run_ops p ops w) <= 1 /\
    (count_calls pid (run_ops p ops w) = 1 ->
     forall ops', Forall (fun x => Forall normal (op_ids x.2)) ops' ->
       started (record_status (run_ops p (ops ++ ops')%list w) pid) = true).
Proof.
  intros Hp Hn Hs pid. destruct (run_ops_ok p ops w Hp Hn (at_start_ok w Hs)) as [[Hc Hk] Hev].
  specialize (Hk pid) as Hb. split; [case_match; lia|].
  intros H1 ops' Hn'. unfold run_ops. rewrite foldl_app.
  destruct (run_ops_ok p ops' (run_ops p ops w) Hp Hn') as [_ [Hst _]]; [by split|].
  eapply forward_started; [apply Hst|]. case_match; [done|lia].
Qed.

(** After any sequence of coordinator methods the two tables agree: every
    registered patch is listed under its module and nothing else is, and no
    module has two replacements; and a settled patch keeps its status. *)
Theorem tables_consistent p ops w :
  well_behaved p -> Forall (fun x => Forall normal (op_ids x.2)) ops -> at_start w ->
  let w' := run_ops p ops w in
  (forall pid name, pid ∈ ids_for w' name <->
     exists en, dget (entries (w_coord w')) pid = Some en /\ e_module_name en = name) /\
  (forall p1 p2 e1 e2, dget (entries (w_coord w')) p1 = Some e1 ->
     dget (entries (w_coord w')) p2 = Some e2 -> e_action e1 = REPLACEMENT ->
     e_action e2 = REPLACEMENT -> e_module_name e1 = e_module_name e2 -> p1 = p2) /\
  (forall pid s, record_status w pid = Some s -> terminal s = true ->
     record_status w' pid = Some s).
Proof.
  intros Hp Hn Hs. destruct (run_ops_ok p ops w Hp Hn (at_start_ok w Hs)) as [[Hc _] [Hev _]].
  simpl. split; [|split].
  - intros pid name. split; [apply (ok_ids _ Hc)|].
    intros (en & Hen & <-). by apply (ok_listed _ Hc).
  - apply (ok_one _ Hc).
  - intros pid s Hst Ht. specialize (Hev pid). rewrite Hst in Hev. by apply forward_terminal in Hev.
Qed.

(** ** The finder *)

Lemma entries_for_elem w name ens :
  ok w -> entries_for name w = (Ok ens, w) ->
  forall en, en ∈ ens <->
    (dget (entries (w_coord w)) (e_patch_id en) = Some en /\ e_module_name en = name).
Proof.
  intros Hok E en. destruct (entries_for_ok name w Hok) as (ens' & E' & HF).
  rewrite E in E'. simplify_eq. destruct Hok as [Hc _]. split.
  - intros Hin. apply Forall2_flip in HF.
    destruct (Forall2_elem_l _ _ _ _ HF Hin) as (pid & Hpid & Hen).
    destruct (ok_keys _ Hc _ _ Hen) as [-> _]. apply (ok_ids _ Hc) in Hpid as (en1 & ? & ?).
    split; congruence.
  - intros [Hen <-]. apply (ok_listed _ Hc) in Hen as Hin.
    destruct (Forall2_elem_l _ _ _ _ HF Hin) as (en1 & ? & ?). by simplify_eq.
Qed.

Lemma find_some_iff {A} (f : A -> bool) (l : list A) x :
  x ∈ l -> f x = true -> exists y, List.find f l = Some y /\ y ∈ l /\ f y = true.
Proof.
  intros Hin Hf. destruct (List.find f l) as [y|] eqn:E.
  - exists y. apply List.find_some in E as [??]. by rewrite list_elem_of_In.
  - apply list_elem_of_In in Hin. by rewrite (List.find_none _ _ E _ Hin) in Hf.
Qed.

Lemma has_status_iff w s en : has_status w s en = true <-> record_status w (e_patch_id en) = Some s.
Proof. unfold has_status. by rewrite bool_decide_eq_true. Qed.

(** A module name nobody registered is not intercepted, whatever other
    names are registered, ancestors and descendants included: the finder
    answers that it has no spec and changes nothing. *)
Theorem unregistered_name_ignored finder_find_spec spec_loader w name path target :
  ok w ->
  (forall pid en, dget (entries (w_coord w)) pid = Some en -> e_module_name en <> name) ->
  find_spec finder_find_spec spec_loader name path target w = (Ok NoSpec, w).
Proof.
  intros Hok Hno. destruct (entries_for_ok name w Hok) as (ens & E & HF).
  unfold find_spec. rewrite (M_bind_ok _ _ _ _ _ E). munfold.
  destruct ens as [|en ens]; [done|exfalso].
  assert (en ∈ en :: ens) as Hin by by left.
  apply (entries_for_elem w name _ Hok E) in Hin as [Hen Hn]. by eapply Hno.
Qed.

(** The loader refuses to create or to execute the module, and does nothing
    else. *)
Definition blocks (l : loader) (c : exn_class) : Prop :=
  forall tid now callback import factory create exec spec m w, exists msg,
    create_module tid now import factory create l spec w = (Err (Exn c msg), w) /\
    exec_module tid now callback exec l m w = (Err (Exn c msg), w).

Lemma BlockedLoader_blocks c msg : blocks (BlockedLoader c msg) c.
Proof. intros ??????????. by exists msg. Qed.

(** The coordinator fails closed.  While a patch of a module is being
    applied or has failed, an import of the module gets a loader that raises
    and runs neither the original module nor any patch; once a patch of the
    module is applied, so does a reload of it. *)
Theorem find_spec_fails_closed finder_find_spec spec_loader w name path target en s :
  ok w -> dget (entries (w_coord w)) (e_patch_id en) = Some en -> e_module_name en = name ->
  record_status w (e_patch_id en) = Some s ->
  s = APPLYING \/ s = FAILED \/ (s = APPLIED /\ is_Some target) ->
  exists l origin c,
    find_spec finder_find_spec spec_loader name path target w = (Ok (FromLoader l origin), w) /\
    blocks l c /\ (c = LatchedPatchError \/ (c = ModuleReloadBlockedError /\ is_Some target)).
Proof.
  intros Hok Hen Hname Hst Hs. destruct (entries_for_ok name w Hok) as (ens & E & HF).
  assert (en ∈ ens) as Hin by by apply (entries_for_elem w name _ Hok E).
  unfold find_spec. rewrite (M_bind_ok _ _ _ _ _ E). munfold.
  destruct ens as [|en0 ens0] eqn:He; [set_solver|]. rewrite <- He in *. clear He.
  destruct (match target with Some _ => List.find (has_status w APPLIED) ens | None => None end)
    as [ea|] eqn:Ea.
  { do 3 eexists. split; [done|]. split; [apply BlockedLoader_blocks|]. right.
    split; [done|]. by destruct target. }
  destruct (List.find (has_status w APPLYING) ens) as [eb|] eqn:Eb.
  { do 3 eexists. split; [done|]. split; [apply BlockedLoader_blocks|by left]. }
  destruct (List.find (has_status w FAILED) ens) as [ec|] eqn:Ec.
  { do 3 eexists. split; [done|]. split; [apply BlockedLoader_blocks|by left]. }
  exfalso. apply list_elem_of_In in Hin.
  destruct Hs as [->|[->|[-> [t ->]]]]; apply has_status_iff in Hst.
  - by rewrite (List.find_none _ _ Eb _ Hin) in Hst.
  - by rewrite (List.find_none _ _ Ec _ Hin) in Hst.
  - by rewrite (List.find_none _ _ Ea _ Hin) in Hst.
Qed.

(** ** Loading a module *)

Lemma is_armed_iff w en : is_armed w en = true <-> record_status w (e_patch_id en) = Some ARMED.
Proof. apply has_status_iff. Qed.

Lemma attempt_waits {A} (m : M world A) w r w' :
  attempt m w = (r, w') ->
  (exists r0, m w = (r0, w') /\ r = Ok r0) \/ (exists msg, r = Err (Exn Waits msg)).
Proof.
  unfold attempt. destruct (m w) as [[a|[c msg]] w1]; [|destruct c]; intros; simplify_eq; eauto.
Qed.

Section loading.
Context (tid now : Z) (run_callback : Z -> Z -> M world unit).
Hypothesis Hcb : forall f m, respects always (run_callback f m).

Lemma only_callbacks :
  process_respects run_callback (fun _ => mret (PyObject 0)) (fun _ => mret (PyObject 0))
    (fun _ => None) (fun _ => None) (fun _ _ => mret tt).
Proof. split; auto with hcu; done. Qed.

Lemma apply_armed_started ens m first w r w' :
  Forall (fun en => registered en w) ens -> ok w ->
  apply_armed tid now run_callback ens m first w = (Ok r, w') ->
  forall en, en ∈ ens -> is_callback en = true -> is_armed w en = true ->
    started (record_status w' (e_patch_id en)) = true.
Proof.
  revert first w. induction ens as [|en ens IH]; intros first w HF Hok; [set_solver|].
  simpl. unfold get_state. unfold mbind at 1, M_bind at 1.
  apply Forall_cons in HF as [Hr HF].
  destruct (negb (is_callback en) || negb (is_armed w en)) eqn:Eg.
  - intros H en' [->|Hin]%elem_of_cons Hcb' Ha; [by rewrite Hcb', Ha in Eg|by eapply IH].
  - intros H. apply M_bind_inv in H as (r1 & w1 & Ha & H).
    apply orb_false_iff in Eg as [_ Harm%negb_false_iff].
    apply attempt_waits in Ha as [(r0 & Ha & [= <-])|(msg & [=])].
    destruct (apply_callback_respects _ _ _ _ _ _ _ _ only_callbacks en m w r1 w1 Hr Hok Ha)
      as [Hok1 Hev1].
    assert (exists f1, apply_armed tid now run_callback ens m f1 w1 = (Ok r, w')) as [f1 H1].
    { destruct r1, first; eauto. }
    assert (HF1 : Forall (fun en => registered en w1) ens) by by eapply stable_all.
    destruct (apply_armed_respects _ _ _ _ _ _ _ _ only_callbacks ens m f1 w1 _ _ HF1 Hok1 H1)
      as [_ Hev2].
    intros en' [->|Hin]%elem_of_cons Hcb' Ha'.
    + eapply forward_started; [apply Hev2|]. eapply apply_callback_starts; eauto using only_callbacks.
      by apply is_armed_iff.
    + destruct (is_armed w1 en') eqn:Ha1; [by eapply IH|].
      apply is_armed_iff in Ha'. destruct Hev1 as [Hst _]. specialize (Hst (e_patch_id en')).
      rewrite Ha' in Hst. apply forward_armed in Hst as [Hst|Hst].
      * apply is_armed_iff in Hst. congruence.
      * eapply forward_started; [apply Hev2|done].
Qed.

Lemma apply_armed_err ens m first w e w' :
  apply_armed tid now run_callback ens m first w = (Err e, w') -> raises (A:=unit) Waits (Err e).
Proof.
  revert first w. induction ens as [|en ens IH]; intros first w; [done|].
  simpl. unfold get_state. unfold mbind at 1, M_bind at 1. case_match; [apply IH|].
  unfold mbind, M_bind. destruct (attempt _ w) as [[r1|e1] w2] eqn:Et.
  - destruct r1, first; apply IH.
  - apply attempt_waits in Et as [(? & _ & [=])|(msg & [= ->])].
    intros; simplify_eq. by exists msg.
Qed.
End loading.

(** When a module has been loaded, every callback registered for it that
    was waiting is started, those after a failing one included, and none is
    left to run later; this holds whether the call returns or raises. *)
Theorem module_loaded_settles tid now run_callback name m w r w' :
  (forall f m, respects always (run_callback f m)) -> ok w ->
  module_loaded tid now run_callback name m w = (r, w') ->
  ~ raises Waits r ->
  forall pid en, dget (entries (w_coord w)) pid = Some en -> e_module_name en = name ->
    e_action en = CALLBACK -> record_status w pid = Some ARMED ->
    started (record_status w' pid) = true.
Proof.
  intros Hcb Hok H Hnw pid en Hen Hname Hact Hst. unfold module_loaded in H.
  destruct (entries_for_ok name w Hok) as (ens & E & HF).
  rewrite (M_bind_ok _ _ _ _ _ E) in H. pose proof Hok as [Hc _].
  destruct (ok_keys _ Hc _ _ Hen) as [<- _].
  assert (en ∈ ens) as Hin by by apply (entries_for_elem w name _ Hok E).
  destruct (apply_armed tid now run_callback ens m None w) as [[fe|e] w1] eqn:Ea.
  - rewrite (M_bind_ok _ _ _ _ _ Ea) in H.
    assert (w' = w1) as -> by (destruct fe; munfold; by simplify_eq).
    eapply (apply_armed_started tid now run_callback Hcb ens m None w fe w1);
      [by eapply Forall2_registered|done..| |by apply is_armed_iff].
    by apply bool_decide_eq_true.
  - rewrite (M_bind_err _ _ _ _ _ Ea) in H. simplify_eq. exfalso. apply Hnw.
    by eapply apply_armed_err.
Qed.

(** ** Undoing a late replacement *)

Lemma ddel_dset_fresh {K V} `{EqDecision K} (d : dict K V) k v :
  dget d k = None -> ddel (dset d k v) k = d.
Proof.
  induction d as [|[k' v'] d IH]; simpl; [by rewrite decide_True|].
  case_decide; [done|]. intros Hd. simpl. rewrite decide_False by done. by rewrite IH.
Qed.

Lemma dget_restore {K V} `{EqDecision K} (d : dict K V) k v k' :
  dget (match dget d k with Some s => dset (dset d k v) k s | None => ddel (dset d k v) k end) k' =
  dget d k'.
Proof.
  destruct (dget d k) as [s|] eqn:E; [|by rewrite ddel_dset_fresh].
  rewrite !dget_dset. case_decide; [by subst|done].
Qed.

(** Resolves a comparison of a key with itself. *)
Ltac same_key :=
  repeat (match goal with |- context [@decide (?x = ?x) _] =>
    rewrite (decide_True (P := (x = x))) by reflexivity end; simpl).

Section late_replacement.
Context (tid now : Z) (run_callback : Z -> Z -> M world unit).
Context (import_module : string -> M world pyobj) (factory : Z -> M world pyobj).
Context (pid name : string) (p : payload_t) (m : Z) (ts : option targets_arg) (tgts : list string).
Context (enabled : bool) (w : world) (inst : bool) (o : pyobj).
Hypothesis Hpid : normal pid.
Hypothesis Hname : validate_module_name name = Ok name.
Hypothesis Hp : validate_replacement p = Ok tt.
Hypothesis Hne : p <> PModuleName name.
Hypothesis Hts : coord_targets name ts = Ok tgts.
Hypothesis Htg : normalise_targets (Targets tgts) = Ok tgts.
Hypothesis Hfresh : get (w_registry w) pid = None.
Hypothesis Hempty : w_coord w = Coord [] [] inst.
Hypothesis Hloaded : dget (sys_modules (w_env w)) name = Some o.
Hypothesis Hres : forall w, resolve_replacement import_module factory p w = (Ok m, w).

Definition late_entry : Entry :=
  MkEntry pid name tgts REPLACEMENT p enabled LateReplace None None None None false.
Definition guarded_entry : Entry :=
  MkEntry pid name tgts REPLACEMENT p enabled LateReplace (Some m) (Some (Some o))
    (dget (mod_spec (w_env w)) m) (dget (mod_loader (w_env w)) m) true.
Definition guarded_env : env :=
  let e := w_env w in
  Env (dset (sys_modules e) name (PyModule m)) (meta_path e)
    (dset (mod_spec e) m (SpecGuard pid)) (dset (mod_loader e) m (LoaderGuard pid))
    (initializing e).

Lemma register_late :
  exists g r, register late_entry now w =
    (Ok (late_entry, true),
     World g (Coord [(pid, late_entry)] [(name, [pid])] inst) (w_env w) (w_calls w)) /\
    dget (records g) pid = Some r /\ status r = ARMED.
Proof.
  unfold register, late_entry, on_reg, add_entry, ids_for, set_coord. munfold.
  simpl. rewrite Hempty. simpl. unfold get in Hfresh.
  unfold declare, set_feature_enabled, require_record. munfold.
  rewrite validate_normal, Htg, Hfresh by done. simpl. rewrite dget_dset_eq. simpl.
  rewrite Hempty. simpl.
  do 2 eexists. split; [reflexivity|]. simpl. by rewrite dget_dset_eq.
Qed.

Lemma replace_late g r :
  dget (records g) pid = Some r -> status r = ARMED ->
  exists g' r', replace_loaded_module tid now run_callback import_module factory late_entry o
      (World g (Coord [(pid, late_entry)] [(name, [pid])] inst) (w_env w) (w_calls w)) =
    (Ok tt, World g' (Coord [(pid, guarded_entry)] [(name, [pid])] inst) guarded_env (w_calls w)) /\
    dget (records g') pid = Some r' /\ status r' = APPLIED.
Proof.
  intros Hr Hs. unfold replace_loaded_module, begin_w, on_reg, begin. munfold. simpl.
  rewrite validate_normal, Hr, Hs by done. simpl. unfold attempt. rewrite Hres. simpl.
  unfold set_entry, live, set_coord, on_env. simpl. same_key.
  unfold mark_applied, require_record, finish. munfold. rewrite validate_normal by done. simpl.
  rewrite dget_dset_eq. simpl.
  unfold install_reload_guard, live, set_entry, set_coord, on_env. munfold. simpl.
  same_key.
  unfold module_loaded, entries_for, entries_of, ids_for, entry_at. munfold. simpl.
  same_key.
  do 2 eexists. split; [reflexivity|]. simpl. by rewrite dget_dset_eq.
Qed.

Lemma reset_late b g :
  exists w2, coord_reset_for_tests b
      (World g (Coord [(pid, guarded_entry)] [(name, [pid])] inst) guarded_env (w_calls w)) =
    (Ok tt, w2) /\
    (forall k, dget (sys_modules (w_env w2)) k = dget (sys_modules (w_env w)) k) /\
    (forall k, dget (mod_spec (w_env w2)) k = dget (mod_spec (w_env w)) k) /\
    (forall k, dget (mod_loader (w_env w2)) k = dget (mod_loader (w_env w)) k) /\
    w_coord w2 = Coord [] [] false.
Proof using Hloaded.
  clear - Hloaded.
  assert (forall e2, e2 = restore_one guarded_entry
      (set_meta_path (filter (.≠ Self) (meta_path guarded_env)) guarded_env) ->
    (forall k, dget (sys_modules e2) k = dget (sys_modules (w_env w)) k) /\
    (forall k, dget (mod_spec e2) k = dget (mod_spec (w_env w)) k) /\
    (forall k, dget (mod_loader e2) k = dget (mod_loader (w_env w)) k)) as Hrest.
  { intros e2 ->. unfold restore_one. simpl. rewrite dget_dset_eq, decide_True by done. simpl.
    split; [|split; intros; apply dget_restore].
    intros k. rewrite !dget_dset. case_decide; by subst. }
  destruct (Hrest _ eq_refl) as (H1 & H2 & H3).
  unfold coord_reset_for_tests, uninstall, on_env, on_reg. munfold.
  destruct b; (eexists; split; [reflexivity|]); split_and!; done.
Qed.
End late_replacement.

(** Replacing a module that is already loaded, where that is allowed, puts
    the replacement in [sys.modules], guards it against reload and records the
    patch as applied; resetting the coordinator puts back the module that was
    there and the replacement's own spec and loader, and leaves nothing
    registered. *)
Theorem late_replacement_undone tid now run_callback import_module factory
    pid name p m ts tgts enabled w inst o reset_registry :
  normal pid -> validate_module_name name = Ok name -> validate_replacement p = Ok tt ->
  p <> PModuleName name -> coord_targets name ts = Ok tgts ->
  normalise_targets (Targets tgts) = Ok tgts ->
  get (w_registry w) pid = None -> w_coord w = Coord [] [] inst ->
  dget (sys_modules (w_env w)) name = Some o ->
  (forall w, resolve_replacement import_module factory p w = (Ok m, w)) ->
  exists v w1 w2,
    register_replacement tid now run_callback import_module factory
      pid name p ts enabled LateReplace w = (Ok v, w1) /\
    ir_status v = "applied" /\
    dget (sys_modules (w_env w1)) name = Some (PyModule m) /\
    dget (mod_spec (w_env w1)) m = Some (SpecGuard pid) /\
    coord_reset_for_tests reset_registry w1 = (Ok tt, w2) /\
    (forall k, dget (sys_modules (w_env w2)) k = dget (sys_modules (w_env w)) k) /\
    (forall k, dget (mod_spec (w_env w2)) k = dget (mod_spec (w_env w)) k) /\
    (forall k, dget (mod_loader (w_env w2)) k = dget (mod_loader (w_env w)) k) /\
    w_coord w2 = Coord [] [] false.
Proof.
  intros Hpid Hname Hp Hne Hts Htg Hfresh Hempty Hloaded Hres.
  destruct (register_late now pid name p tgts enabled w inst Hpid Htg Hfresh Hempty)
    as (g & r & Hreg & Hr & Hs).
  destruct (replace_late tid now run_callback import_module factory pid name p m tgts
    enabled w inst o Hpid Hres g r Hr Hs) as (g' & r' & Hrep & Hr' & Hs').
  destruct (reset_late pid name p m tgts enabled w inst o Hloaded reset_registry g')
    as (w2 & Hreset & Hrest).
  do 2 eexists. exists w2. split.
  { unfold register_replacement. unfold lift. unfold mbind at 1, M_bind at 1. rewrite Hname.
    unfold mbind at 1, M_bind at 1. rewrite Hp. rewrite decide_False by done.
    unfold mbind at 1, M_bind at 1, mret at 1, M_ret at 1.
    unfold mbind at 1, M_bind at 1. rewrite Hts. fold (late_entry pid name p tgts enabled).
    rewrite (M_bind_ok _ _ _ _ _ Hreg). cbn beta iota. unfold get_state.
    unfold mbind at 1, M_bind at 1. cbn [w_env]. cbn [e_module_name late_entry]. rewrite Hloaded.
    rewrite (M_bind_ok _ _ _ _ _ Hrep). reflexivity. }
  unfold get. simpl. rewrite Hr'. simpl. rewrite Hs', !dget_dset_eq.
  do 3 (split; [reflexivity|]). split; [exact Hreset|exact Hrest].
Qed.

(** ** Concrete runs *)

(** A process in which [a.b] is loaded, and whose first callback registers a
    second one for the same module while it runs. *)
Definition demo_env : env := Env [("a.b", PyModule 1)] [OtherFinder 1] [(7%Z, SpecObj 5)] [] [].
Definition demo_world : world := World empty_registry (Coord [] [] false) demo_env [].
Definition nested_callback (f m : Z) : M world unit :=
  if (f =? 1)%Z
  then register_callback 1 0 (fun _ _ => mret tt) "p2" "a.b" 2 None true ;; mret tt
  else if (f =? 3)%Z then raise RuntimeError "boom" else mret tt.
Definition demo_process : process :=
  Process nested_callback (fun _ => mret (PyObject 0)) (fun _ => mret (PyObject 0))
    (fun _ => None) (fun _ => None) (fun _ => None) (fun _ _ => mret tt).

Lemma normal_p1 : normal "p1".
Proof. split; [reflexivity|discriminate]. Qed.
Lemma normal_p2 : normal "p2".
Proof. split; [reflexivity|discriminate]. Qed.
Lemma normal_p3 : normal "p3".
Proof. split; [reflexivity|discriminate]. Qed.

Lemma nested_respects f m : respects always (nested_callback f m).
Proof.
  unfold nested_callback. case_match; [|case_match; auto with hcu].
  apply respects_seq; [auto with hcu| |auto with hcu].
  eapply register_callback_respects; [apply only_callbacks; auto with hcu|apply normal_p2].
Qed.

Lemma demo_well_behaved : well_behaved demo_process.
Proof. split; auto using nested_respects with hcu; done. Qed.

Lemma demo_start : at_start demo_world.
Proof. by split. Qed.

Definition demo_ops : list (Z * Z * coord_op) :=
  [(1, 0, RegisterCallback "p1" "a.b" 1 None true);
   (2, 1, RegisterCallback "p1" "a.b" 1 None true); (1, 2, Drain)]%Z.

Definition fail_ops : list (Z * Z * coord_op) :=
  [(1, 0, RegisterCallback "p1" "x.y" 3 None true);
   (1, 1, RegisterCallback "p2" "x.y" 2 None true);
   (1, 2, ExecModule (PostLoadLoader "x.y" None) 4)]%Z.

Lemma demo_ops_normal : Forall (fun x => Forall normal (op_ids x.2)) demo_ops.
Proof. repeat constructor; discriminate. Qed.
Lemma fail_ops_normal : Forall (fun x => Forall normal (op_ids x.2)) fail_ops.
Proof. repeat constructor; discriminate. Qed.

Lemma fail_ok n : ok (run_ops demo_process (take n fail_ops) demo_world).
Proof.
  apply run_ops_ok; [apply demo_well_behaved| |apply at_start_ok, demo_start].
  apply Forall_take, fail_ops_normal.
Qed.

Lemma callbacks_at_most_once_witness :
  count_calls "p1" (run_ops demo_process demo_ops demo_world) = 1 /\
  count_calls "p2" (run_ops demo_process demo_ops demo_world) = 1 /\
  started (record_status (run_ops demo_process (demo_ops ++ fail_ops)%list demo_world) "p2") = true.
Proof.
  destruct (callbacks_at_most_once demo_process demo_ops demo_world
    demo_well_behaved demo_ops_normal demo_start "p2") as [_ H].
  split; [vm_compute; reflexivity|]. split; [vm_compute; reflexivity|].
  apply H; [vm_compute; reflexivity|apply fail_ops_normal].
Defined.

Lemma tables_consistent_witness :
  "p2" ∈ ids_for (run_ops demo_process demo_ops demo_world) "a.b".
Proof.
  destruct (tables_consistent demo_process demo_ops demo_world
    demo_well_behaved demo_ops_normal demo_start) as [H _].
  apply H. eexists. split; [vm_compute; reflexivity|reflexivity].
Defined.

Lemma unregistered_name_ignored_witness :
  find_spec (fun _ => None) (fun _ => None) "x" 0 None
    (run_ops demo_process (take 2 fail_ops) demo_world) =
  (Ok NoSpec, run_ops demo_process (take 2 fail_ops) demo_world).
Proof.
  apply unregistered_name_ignored; [apply (fail_ok 2)|].
  intros pid en H Hn. apply dget_elem in H. vm_compute in H.
  repeat (apply elem_of_cons in H as [H|H]; [injection H as -> ->; discriminate Hn|]).
  by apply not_elem_of_nil in H.
Defined.

Lemma find_spec_fails_closed_witness :
  exists en l origin c,
    find_spec (fun _ => None) (fun _ => None) "x.y" 0 None
      (run_ops demo_process fail_ops demo_world) =
      (Ok (FromLoader l origin), run_ops demo_process fail_ops demo_world) /\
    blocks l c /\ e_patch_id en = "p1".
Proof.
  destruct (dget (entries (w_coord (run_ops demo_process fail_ops demo_world))) "p1")
    as [en|] eqn:E; [|vm_compute in E; discriminate E].
  assert (e_patch_id en = "p1" /\ e_module_name en = "x.y") as [Hid Hm].
  { vm_compute in E. injection E as <-. by split. }
  destruct (find_spec_fails_closed (fun _ => None) (fun _ => None)
    (run_ops demo_process fail_ops demo_world) "x.y" 0 None en FAILED) as (l & origin & c & H & Hb & _).
  - apply (fail_ok 3).
  - by rewrite Hid.
  - done.
  - rewrite Hid. vm_compute. reflexivity.
  - by right; left.
  - exists en, l, origin, c. split; [exact H|]. by split.
Defined.

Lemma module_loaded_settles_witness :
  exists r w', module_loaded 1 2 nested_callback "x.y" 4
      (run_ops demo_process (take 2 fail_ops) demo_world) = (r, w') /\
    raises RuntimeError r /\ started (record_status w' "p2") = true.
Proof.
  destruct (module_loaded 1 2 nested_callback "x.y" 4
    (run_ops demo_process (take 2 fail_ops) demo_world)) as [r w'] eqn:E.
  assert (raises RuntimeError r) as Hr.
  { eexists. vm_compute in E. injection E as <- _. reflexivity. }
  exists r, w'. split; [done|]. split; [done|].
  destruct (dget (entries (w_coord (run_ops demo_process (take 2 fail_ops) demo_world))) "p2")
    as [en|] eqn:Een; [|vm_compute in Een; discriminate Een].
  refine (module_loaded_settles 1 2 nested_callback "x.y" 4 _ r w' nested_respects
    (fail_ok 2) E _ "p2" en Een _ _ _).
  - intros [msg Hm]. destruct Hr as [msg' Hm']. congruence.
  - vm_compute in Een. injection Een as <-. reflexivity.
  - vm_compute in Een. injection Een as <-. reflexivity.
  - vm_compute. reflexivity.
Defined.

Lemma late_replacement_undone_witness :
  exists v w1 w2,
    register_replacement 1 0 nested_callback (fun _ => mret (PyObject 0)) (fun _ => mret (PyObject 0))
      "p3" "a.b" (PModule 7) None true LateReplace demo_world = (Ok v, w1) /\
    dget (sys_modules (w_env w1)) "a.b" = Some (PyModule 7) /\
    coord_reset_for_tests true w1 = (Ok tt, w2) /\
    dget (sys_modules (w_env w2)) "a.b" = Some (PyModule 1).
Proof.
  destruct (late_replacement_undone 1 0 nested_callback (fun _ => mret (PyObject 0))
    (fun _ => mret (PyObject 0)) "p3" "a.b" (PModule 7) 7 None ["a.b"] true demo_world false
    (PyModule 1) true) as (v & w1 & w2 & H1 & _ & H2 & _ & H3 & H4 & _);
    [apply normal_p3|reflexivity|reflexivity|discriminate|reflexivity..|].
  exists v, w1, w2. split; [exact H1|]. split; [exact H2|]. split; [exact H3|].
  rewrite H4. reflexivity.
Defined.
