(* ===== verification/Tensors.v ===== *)
(** * Tensor operations the plugin relies on

    The plugin's host-side index arithmetic goes through a few operations of
    torch and of vLLM's helpers.  They are the operations of a class with the
    documented behaviour the code relies on as laws; the components are proved
    against the class, and [list_tensors] is an instance.

    A tensor is the list of its rows along dimension 0. *)

From S2P Require Import Prelude.
From stdpp Require Import sorting.
Local Open Scope Z_scope.

(** [range(start, stop)] for [stop - start = len] *)
Definition zrange (start len : Z) : list Z := seqZ start len.

Definition zlen {A} (l : list A) : Z := Z.of_nat (length l).

(** [l[i]] for a non-negative index *)
Definition zget {A} (l : list A) (i : Z) : option A :=
  if i <? 0 then None else l !! Z.to_nat i.

Definition zsum (l : list Z) : Z := foldr Z.add 0 l.

(** [np.cumsum] *)
Fixpoint cumsum_from (acc : Z) (l : list Z) : list Z :=
  match l with
  | [] => []
  | x :: l' => (acc + x) :: cumsum_from (acc + x) l'
  end.
Definition cumsum (l : list Z) : list Z := cumsum_from 0 l.

Class TensorOps := {
  (** [torch.index_select(t, 0, index)] *)
  index_select {A} : list A -> list Z -> result (list A);
  (** [torch.argsort(t)] *)
  argsort : list Z -> list Z;
  (** [torch.chunk(t, chunks, dim=0)] *)
  chunk {A} : list A -> Z -> list (list A);
  (** [vllm.utils.math_utils.round_up(x, y)] *)
  round_up : Z -> Z -> Z;
  (** [torch.unique(t, sorted=True)] *)
  unique : list Z -> list Z;

  index_select_ok {A} (t : list A) (index : list Z) (rows : list A) :
    Forall2 (fun i row => zget t i = Some row) index rows -> index_select t index = Ok rows;
  argsort_perm (l : list Z) : argsort l ≡ₚ zrange 0 (zlen l);
  argsort_sorted (l : list Z) : forall (i j : nat) a b x y,
    argsort l !! i = Some a -> argsort l !! j = Some b -> (i < j)%nat ->
    zget l a = Some x -> zget l b = Some y -> x <= y;
  chunk_concat {A} (t : list A) n : 0 < n -> concat (chunk t n) = t;
  chunk_even {A} (t : list A) n k : 0 < n -> 0 < k -> zlen t = n * k ->
    zlen (chunk t n) = n /\ Forall (fun c => zlen c = k) (chunk t n);
  round_up_spec x y : 0 < y -> (y | round_up x y) /\ x <= round_up x y < x + y;
  unique_elem (l : list Z) x : x ∈ unique l <-> x ∈ l;
  unique_sorted (l : list Z) : StronglySorted Z.lt (unique l)
}.

(** ** Lists indexed by integers *)

Section zlists.
Context {A : Type}.
Implicit Types (l : list A) (i : Z).

Lemma zlen_nonneg l : 0 <= zlen l.
Proof. unfold zlen. lia. Qed.

Lemma zlen_cons x l : zlen (x :: l) = zlen l + 1.
Proof. unfold zlen. simpl. lia. Qed.

Lemma zlen_app l k : zlen (l ++ k) = zlen l + zlen k.
Proof. unfold zlen. rewrite length_app. lia. Qed.

Lemma zget_Some l i x : zget l i = Some x -> 0 <= i < zlen l.
Proof.
  unfold zget, zlen. destruct (Z.ltb_spec i 0); [done|].
  intros Hl%lookup_lt_Some. lia.
Qed.

Lemma zlen_insert n x l : zlen (<[n := x]> l) = zlen l.
Proof. unfold zlen. by rewrite length_insert. Qed.

Lemma zget_map {B} (f : A -> B) l i : zget (map f l) i = f <$> zget l i.
Proof. unfold zget. destruct (_ <? _); [done|]. apply list_lookup_fmap. Qed.

Lemma zget_is_Some l i : 0 <= i < zlen l -> exists x, zget l i = Some x.
Proof.
  unfold zget, zlen. intros Hi. destruct (Z.ltb_spec i 0); [lia|].
  apply lookup_lt_is_Some. lia.
Qed.

Lemma zget_nat l (n : nat) : zget l (Z.of_nat n) = l !! n.
Proof. unfold zget. destruct (Z.ltb_spec (Z.of_nat n) 0); [lia|]. by rewrite Nat2Z.id. Qed.

Lemma zget_elem l i x : zget l i = Some x -> x ∈ l.
Proof. unfold zget. case_match; [done|]. apply list_elem_of_lookup_2. Qed.

Lemma elem_zget l x : x ∈ l -> exists i, zget l i = Some x.
Proof. intros [n Hn]%list_elem_of_lookup. exists (Z.of_nat n). by rewrite zget_nat. Qed.
End zlists.

Lemma zget_cons_S {A} (x : A) l i : 0 <= i -> zget (x :: l) (i + 1) = zget l i.
Proof.
  intros Hi. unfold zget. destruct (Z.ltb_spec i 0); [lia|]. destruct (Z.ltb_spec (i + 1) 0); [lia|].
  by replace (Z.to_nat (i + 1)) with (S (Z.to_nat i)) by lia.
Qed.

Lemma zget_insert {A} (l : list A) i j x :
  0 <= i < zlen l -> zget (<[Z.to_nat i := x]> l) j = if decide (j = i) then Some x else zget l j.
Proof.
  intros Hi. unfold zget, zlen in *. destruct (Z.ltb_spec j 0); [by rewrite decide_False by lia|].
  case_decide as E; [subst; apply list_lookup_insert_eq; lia|]. apply list_lookup_insert_ne. lia.
Qed.

Lemma zget_zrange s n i : 0 <= i < n -> zget (zrange s n) i = Some (s + i).
Proof.
  intros Hi. unfold zget, zrange. destruct (Z.ltb_spec i 0); [lia|].
  rewrite lookup_seqZ_lt by lia. f_equal. lia.
Qed.

Lemma zlen_zrange s n : 0 <= n -> zlen (zrange s n) = n.
Proof. intros. unfold zlen, zrange. rewrite length_seqZ. lia. Qed.

Lemma elem_zrange s n x : x ∈ zrange s n <-> s <= x < s + n.
Proof. unfold zrange. rewrite elem_of_seqZ. lia. Qed.

Lemma zrange_nil s n : n <= 0 -> zrange s n = [].
Proof. apply seqZ_nil. Qed.

Lemma zrange_app s n m : 0 <= n -> 0 <= m -> zrange s (n + m) = zrange s n ++ zrange (s + n) m.
Proof. intros. unfold zrange. by rewrite seqZ_app. Qed.

Lemma zsum_app l k : zsum (l ++ k) = zsum l + zsum k.
Proof. induction l; simpl; lia. Qed.

Lemma zsum_perm l k : l ≡ₚ k -> zsum l = zsum k.
Proof. induction 1; simpl; lia. Qed.

#[global] Instance zsum_proper : Proper ((≡ₚ) ==> eq) zsum.
Proof. intros l k. apply zsum_perm. Qed.

(** ** An instance *)

Definition list_index_select {A} (t : list A) (index : list Z) : result (list A) :=
  match mapM (zget t) index with
  | Some rows => Ok rows
  | None => Err (Exn IndexError "index out of range in self")
  end.

(** Insertion of the position [p] by the value it holds. *)
Fixpoint insert_pos (key : Z -> Z) (p : Z) (ps : list Z) : list Z :=
  match ps with
  | [] => [p]
  | q :: ps' => if key p <=? key q then p :: ps else q :: insert_pos key p ps'
  end.

Definition list_argsort (l : list Z) : list Z :=
  foldr (insert_pos (fun p => default 0 (zget l p))) [] (zrange 0 (zlen l)).

Fixpoint pieces {A} (size : nat) (n : nat) (t : list A) : list (list A) :=
  match n with
  | O => []
  | S n' => match t with [] => [] | _ => take size t :: pieces size n' (drop size t) end
  end.

(** [chunks] pieces of the rounded-up size, fewer when the tensor runs out *)
Definition list_chunk {A} (t : list A) (n : Z) : list (list A) :=
  pieces (Z.to_nat ((zlen t + n - 1) / n)) (Z.to_nat n) t.

(** Insertion into a strictly increasing list. *)
Fixpoint insert_unique (x : Z) (l : list Z) : list Z :=
  match l with
  | [] => [x]
  | y :: l' => if x =? y then l else if x <? y then x :: l else y :: insert_unique x l'
  end.
Definition list_unique (l : list Z) : list Z := foldr insert_unique [] l.

Lemma insert_unique_elem x l y : y ∈ insert_unique x l <-> y = x \/ y ∈ l.
Proof.
  induction l as [|z l IH]; simpl; [set_solver|].
  destruct (Z.eqb_spec x z) as [->|]; [set_solver|]. destruct (x <? z); [set_solver|].
  rewrite elem_of_cons, IH. set_solver.
Qed.

Lemma insert_unique_sorted x l :
  StronglySorted Z.lt l -> StronglySorted Z.lt (insert_unique x l).
Proof.
  induction 1 as [|z l Hs IH Hz]; simpl; [repeat constructor|].
  destruct (Z.eqb_spec x z) as [->|Hne]; [by constructor|].
  destruct (Z.ltb_spec x z) as [Hlt|Hge].
  - constructor; [by constructor|]. constructor; [done|].
    eapply Forall_impl; [exact Hz|]. simpl. lia.
  - constructor; [done|]. apply Forall_forall. intros y [->|Hy]%insert_unique_elem; [lia|].
    rewrite Forall_forall in Hz. auto.
Qed.

Lemma list_unique_elem l x : x ∈ list_unique l <-> x ∈ l.
Proof.
  induction l as [|y l IH]; simpl; [done|]. rewrite insert_unique_elem, IH. set_solver.
Qed.

Lemma list_unique_sorted l : StronglySorted Z.lt (list_unique l).
Proof. induction l; simpl; [constructor|by apply insert_unique_sorted]. Qed.

Lemma insert_pos_perm key p ps : insert_pos key p ps ≡ₚ p :: ps.
Proof.
  induction ps as [|q ps IH]; simpl; [done|]. case_match; [done|].
  rewrite IH. constructor.
Qed.

Lemma list_argsort_perm l : list_argsort l ≡ₚ zrange 0 (zlen l).
Proof.
  unfold list_argsort. generalize (zrange 0 (zlen l)). intros ps.
  induction ps as [|p ps IH]; simpl; [done|]. by rewrite insert_pos_perm, IH.
Qed.

(** Sorted by key: no later position has a smaller key. *)
Definition key_sorted (key : Z -> Z) (ps : list Z) : Prop :=
  forall i j a b, ps !! i = Some a -> ps !! j = Some b -> (i < j)%nat -> key a <= key b.

Lemma key_sorted_cons key p ps :
  key_sorted key (p :: ps) <-> (forall q, q ∈ ps -> key p <= key q) /\ key_sorted key ps.
Proof.
  split.
  - intros H. split.
    + intros q [j Hj]%list_elem_of_lookup. apply (H 0%nat (S j) p q); [done..|lia].
    + intros i j a b Hi Hj Hlt. apply (H (S i) (S j) a b); [done..|lia].
  - intros [H1 H2] [|i] [|j] a b Hi Hj Hlt; simplify_eq/=; try lia.
    + apply H1. by eapply list_elem_of_lookup_2.
    + apply (H2 i j); [done..|lia].
Qed.

Lemma insert_pos_sorted key p ps : key_sorted key ps -> key_sorted key (insert_pos key p ps).
Proof.
  induction ps as [|q ps IH]; simpl.
  - intros _. rewrite key_sorted_cons. split; [set_solver|by intros ?].
  - intros Hs. pose proof Hs as [Hq Hps]%key_sorted_cons. case_match eqn:E; bool_prop.
    + rewrite key_sorted_cons. split; [|done].
      intros x [->|Hx]%elem_of_cons; [done|]. specialize (Hq _ Hx). lia.
    + rewrite key_sorted_cons. split; [|auto].
      intros x. rewrite insert_pos_perm. intros [->|Hx]%elem_of_cons; [lia|auto].
Qed.

Lemma list_argsort_sorted l : key_sorted (fun p => default 0 (zget l p)) (list_argsort l).
Proof.
  unfold list_argsort. induction (zrange 0 (zlen l)); simpl; [by intros ?|].
  by apply insert_pos_sorted.
Qed.

Lemma pieces_concat {A} size n (t : list A) :
  (length t <= size * n)%nat -> concat (pieces size n t) = t.
Proof.
  revert t. induction n as [|n IH]; intros t Hl; simpl.
  - destruct t; [done|]. simpl in Hl. lia.
  - destruct t as [|x t]; [done|]. simpl concat. rewrite IH.
    + apply take_drop.
    + rewrite length_drop. lia.
Qed.

Lemma pieces_even {A} size n (t : list A) :
  (0 < size)%nat -> length t = (n * size)%nat ->
  length (pieces size n t) = n /\ Forall (fun c => length c = size) (pieces size n t).
Proof.
  intros Hs. revert t. induction n as [|n IH]; intros t Hl; simpl; [by split|].
  destruct t as [|x t]; [simpl in Hl; lia|].
  destruct (IH (drop size (x :: t))) as [H1 H2]; [rewrite length_drop; lia|].
  split; [simpl; by rewrite H1|]. constructor; [|done]. rewrite length_take. lia.
Qed.

#[refine, global] Instance list_tensors : TensorOps := {
  index_select A := list_index_select;
  argsort := list_argsort;
  chunk A := list_chunk;
  round_up x y := (x + y - 1) / y * y;
  unique := list_unique
}.
Proof.
  - intros A t index rows H. unfold list_index_select.
    replace (mapM (zget t) index) with (Some rows); [done|].
    symmetry. by apply mapM_Some.
  - apply list_argsort_perm.
  - intros l i j a b x y Hi Hj Hlt Ha Hb.
    pose proof (list_argsort_sorted l _ _ _ _ Hi Hj Hlt) as H. simpl in H. by rewrite Ha, Hb in H.
  - intros A t n Hn. apply pieces_concat.
    assert (zlen t <= (zlen t + n - 1) / n * n).
    { pose proof (Z.div_mod (zlen t + n - 1) n). pose proof (Z.mod_pos_bound (zlen t + n - 1) n). lia. }
    assert (0 <= (zlen t + n - 1) / n) by (apply Z.div_pos; unfold zlen; lia).
    unfold zlen in *. lia.
  - intros A t n k Hn Hk Ht. unfold list_chunk.
    replace ((zlen t + n - 1) / n) with k.
    2:{ rewrite Ht. replace (n * k + n - 1) with (k * n + (n - 1)) by lia.
        rewrite Z.div_add_l, Z.div_small; lia. }
    destruct (pieces_even (Z.to_nat k) (Z.to_nat n) t) as [H1 H2]; [lia|unfold zlen in Ht; lia|].
    unfold zlen. split; [lia|]. eapply Forall_impl; [exact H2|]. simpl. lia.
  - intros x y Hy. split; [by apply Z.divide_factor_r|].
    pose proof (Z.div_mod (x + y - 1) y). pose proof (Z.mod_pos_bound (x + y - 1) y). lia.
  - apply list_unique_elem.
  - apply list_unique_sorted.
Defined.
