(* ===== verification/LightlyCp.v ===== *)
(** * Distribution of query tokens over context-parallel ranks

    Models src/vllm_hcu/v1/attention/lightly_cp_utils.py: the tokens of a
    batch of requests are dealt to the ranks of a tensor-parallel group, in
    contiguous runs or, with load balancing, as one chunk from the front and
    one from the back of every request, and the ranks' rows are put back in
    order afterwards.

    Token counts are integers (the source stores them in int32 arrays).  The
    all-gather of the group is a parameter, with what each rank gets from it
    as a hypothesis of the theorems. *)

From S2P Require Import Prelude Tensors.
Local Open Scope Z_scope.

Module LightlyCp.
Section lightly_cp.
Context `{TensorOps}.

Definition pad_for_mla_cp (tp_size num_scheduled_tokens : Z) : Z :=
  round_up num_scheduled_tokens tp_size.

(** ** Load-balanced distribution *)

(** The variables of the loop over the requests. *)
Record cp_acc := CpAcc {
  a_q_lens : list Z;
  a_kv_lens : list Z;
  a_seq_indexes : list Z;
  a_scatter_indexes : list Z;
  a_seq_count : Z;
  a_rank_tokens : Z;
  a_rank_pad_tokens : Z;
  a_accu_q_start : Z
}.

Definition cp_acc0 : cp_acc := CpAcc [] [] [] [] 0 0 0 0.

(** The body of [if q_len > 0] *)
Definition add_piece (i q_len kv_len : Z) (scatter_index : list Z) (a : cp_acc) : cp_acc :=
  if 0 <? q_len then
    CpAcc (a_q_lens a ++ [q_len]) (a_kv_lens a ++ [kv_len]) (a_seq_indexes a ++ [i])
      (a_scatter_indexes a ++ scatter_index) (a_seq_count a + 1) (a_rank_tokens a + q_len)
      (a_rank_pad_tokens a) (a_accu_q_start a)
  else a.

(** The part of a chunk [start, stop) that holds real tokens *)
Definition piece_len (chunk_q_len req_q_len start stop : Z) : Z :=
  if stop <=? req_q_len then chunk_q_len else Z.max 0 (req_q_len - start).

(** One iteration of the loop over the requests *)
Definition cplb_request (tp_rank tp_size i req_q_len kv_len : Z) (a : cp_acc) : cp_acc :=
  let req_pad_q_len := round_up req_q_len (2 * tp_size) in
  let chunk_q_len := req_pad_q_len / (2 * tp_size) in
  let q_1_start := tp_rank * chunk_q_len in
  let q_1_end := (tp_rank + 1) * chunk_q_len in
  let q_2_start := req_pad_q_len - (tp_rank + 1) * chunk_q_len in
  let q_2_end := req_pad_q_len - tp_rank * chunk_q_len in
  let q_len_1 := piece_len chunk_q_len req_q_len q_1_start q_1_end in
  let q_len_2 := piece_len chunk_q_len req_q_len q_2_start q_2_end in
  let kv_len_1 := kv_len - req_q_len + Z.min req_q_len q_1_end in
  let kv_len_2 := kv_len - req_q_len + Z.min req_q_len q_2_end in
  let scatter_index1 := zrange (a_accu_q_start a + q_1_start) q_len_1 in
  let scatter_index2 := zrange (a_accu_q_start a + q_2_start) q_len_2 in
  let a := CpAcc (a_q_lens a) (a_kv_lens a) (a_seq_indexes a) (a_scatter_indexes a)
             (a_seq_count a) (a_rank_tokens a) (a_rank_pad_tokens a)
             (a_accu_q_start a + req_q_len) in
  let a := add_piece i q_len_1 kv_len_1 scatter_index1 a in
  let a := add_piece i q_len_2 kv_len_2 scatter_index2 a in
  CpAcc (a_q_lens a) (a_kv_lens a) (a_seq_indexes a) (a_scatter_indexes a)
    (a_seq_count a) (a_rank_tokens a) (a_rank_pad_tokens a + chunk_q_len * 2)
    (a_accu_q_start a).

(** [for i in range(num_requests)], from request [i] on *)
Fixpoint cplb_loop (tp_rank tp_size i : Z) (q_lens kv_lens : list Z) (a : cp_acc)
    : result cp_acc :=
  match q_lens with
  | [] => Ok a
  | q :: q_lens' =>
      match zget kv_lens i with
      | None => Err (Exn IndexError "index is out of bounds")
      | Some kv =>
          cplb_loop tp_rank tp_size (i + 1) q_lens' kv_lens
            (cplb_request tp_rank tp_size i q kv a)
      end
  end.

(** The local indexes padded with -1 *)
Definition pad_scatter (a : cp_acc) : list Z :=
  let n := zlen (a_scatter_indexes a) in
  if n <? a_rank_pad_tokens a
  then a_scatter_indexes a ++ replicate (Z.to_nat (a_rank_pad_tokens a - n)) (-1)
  else a_scatter_indexes a.

(** The positions and values of the indexes that are not padding, from
    position [p] on: [torch.where(mask)[0]] and [t[mask]] *)
Fixpoint non_neg (p : Z) (l : list Z) : list (Z * Z) :=
  match l with
  | [] => []
  | x :: l' => if x =? -1 then non_neg (p + 1) l' else (p, x) :: non_neg (p + 1) l'
  end.

(** [non_neg_positions[argsort(non_neg_values)]] *)
Definition gather_indexes (global_scatter_indexes : list Z) : list Z :=
  let marked := non_neg 0 global_scatter_indexes in
  omap (zget (map fst marked)) (argsort (map snd marked)).

(** ** Contiguous distribution *)

Record run_acc := RunAcc {
  r_q_lens : list Z;
  r_kv_lens : list Z;
  r_seq_indexes : list Z;
  r_seq_count : Z;
  r_start_token : Z
}.

(** The [while] loop, at sequence [current_seq] whose tokens start at
    [current_pos] *)
Fixpoint contiguous_loop (end_token current_seq current_pos : Z) (q_lens kv_lens : list Z)
    (a : run_acc) : result run_acc :=
  match q_lens with
  | [] => Ok a
  | q_len :: q_lens' =>
      if r_start_token a <? end_token then
        match zget kv_lens current_seq with
        | None => Err (Exn IndexError "index is out of bounds")
        | Some kv_len =>
            let q_end := current_pos + q_len in
            let overlap_start := Z.max (r_start_token a) current_pos in
            let overlap_end := Z.min end_token q_end in
            let a' :=
              if overlap_start <? overlap_end then
                RunAcc (r_q_lens a ++ [overlap_end - overlap_start])
                  (r_kv_lens a ++
                     [if q_end <=? end_token then kv_len else kv_len - (q_end - end_token)])
                  (r_seq_indexes a ++ [current_seq]) (r_seq_count a + 1) overlap_end
              else a in
            contiguous_loop end_token (current_seq + 1) q_end q_lens' kv_lens a'
        end
      else Ok a
  end.

(** ** The distribution of one rank *)

Record distribution := Distribution {
  rank_tokens : Z;
  q_lens : list Z;
  seq_count : Z;
  kv_lens : list Z;
  local_scatter_indexes : option (list Z);
  gather_index : option (list Z);
  seq_indexes : list Z
}.

(** [all_gather] is the group's all-gather as the rank sees it. *)
Definition distribute_tokens_to_cp_ranks (total_q_len : Z) (q_lens_cpu kv_lens_cpu : list Z)
    (tp_rank tp_size : Z) (enable_lightly_cplb : bool) (all_gather : list Z -> list Z)
    : result distribution :=
  if enable_lightly_cplb then
    a ← cplb_loop tp_rank tp_size 0 q_lens_cpu kv_lens_cpu cp_acc0;
    let scatter := pad_scatter a in
    mret (Distribution (a_rank_tokens a) (a_q_lens a) (a_seq_count a) (a_kv_lens a)
            (Some scatter) (Some (gather_indexes (all_gather scatter))) (a_seq_indexes a))
  else
    let tokens_per_rank := (total_q_len + tp_size - 1) / tp_size in
    let start_token := tp_rank * tokens_per_rank in
    let end_token := Z.min ((tp_rank + 1) * tokens_per_rank) total_q_len in
    let rank_tokens := Z.min tokens_per_rank (end_token - start_token) in
    a ← contiguous_loop end_token 0 0 q_lens_cpu kv_lens_cpu (RunAcc [] [] [] 0 start_token);
    mret (Distribution rank_tokens (r_q_lens a) (r_seq_count a) (r_kv_lens a)
            None None (r_seq_indexes a)).

(** ** Attention metadata of the rank *)

(** [buf[start:start+len(vals)] = vals], whose slice is cut at the end of the
    buffer; a single value is broadcast over the slice *)
Definition slice_assign (buf : list Z) (start : Z) (count : Z) (vals : list Z)
    : result (list Z) :=
  let n := Z.min (zlen buf) (start + count) - Z.min (zlen buf) start in
  let write vs := Ok (take (Z.to_nat start) buf ++ vs ++
                      drop (Z.to_nat (Z.min (zlen buf) (start + count))) buf) in
  if zlen vals =? n then write vals
  else match vals with
       | [v] => write (replicate (Z.to_nat n) v)
       | _ => Err (Exn ValueError "could not broadcast input array")
       end.

(** [buf[start:].fill(v)] *)
Definition fill_from (buf : list Z) (start v : Z) : list Z :=
  take (Z.to_nat start) buf ++ replicate (length buf - Z.to_nat start) v.

Definition list_max (l : list Z) : result Z :=
  match l with
  | [] => Err (Exn ValueError "max() arg is an empty sequence")
  | x :: l' => Ok (foldl Z.max x l')
  end.

Fixpoint diffs (l : list Z) : list Z :=
  match l with
  | x :: ((y :: _) as l') => (y - x) :: diffs l'
  | _ => []
  end.

(** The prefix sums written to the staging buffer of query offsets, whose rest
    is filled with the last one *)
Definition stage_query_start_loc (buf : list Z) (num_reqs : Z) (cu_num_tokens : list Z)
    : result (list Z) :=
  buf0 ← match buf with
         | [] => Err (Exn IndexError "index 0 is out of bounds")
         | _ :: rest => Ok (0 :: rest)
         end;
  buf1 ← slice_assign buf0 1 num_reqs cu_num_tokens;
  total ← match last cu_num_tokens with
          | Some t => Ok t
          | None => Err (Exn IndexError "index -1 is out of bounds")
          end;
  mret (fill_from buf1 (num_reqs + 1) total).

(** The key lengths written to their staging buffer, the rest zeroed *)
Definition stage_seq_lens (buf : list Z) (num_reqs : Z) (kv_lens : list Z) : result (list Z) :=
  buf0 ← slice_assign buf 0 num_reqs kv_lens;
  mret (fill_from buf0 num_reqs 0).

(** The fields of [CommonAttentionMetadata] that the function computes, with
    the two staging buffers *)
Record cp_metadata := CpMetadata {
  m_query_start_loc : list Z;
  m_seq_lens : list Z;
  m_num_computed_tokens : list Z;
  m_num_reqs : Z;
  m_num_actual_tokens : Z;
  m_max_query_len : Z;
  m_max_seq_len : Z;
  m_block_table : list (list Z);
  m_num_kv_actual_tokens : Z;
  m_seq_indexes : list Z;
  m_scatter_indexes : option (list Z);
  m_gather_indexes : option (list Z);
  m_query_start_loc_buf : list Z;
  m_seq_lens_buf : list Z
}.

Definition prepare_cp_metadata (tp_rank tp_size num_reqs_padded num_tokens : Z)
    (block_table : list (list Z)) (query_start_loc_cpu seq_lens_cpu : list Z)
    (query_start_loc_buf seq_lens_buf : list Z) (enable_lightly_cplb : bool)
    (all_gather : list Z -> list Z) : result cp_metadata :=
  let q_lens_cpu := diffs (take (Z.to_nat (num_reqs_padded + 1)) query_start_loc_cpu) in
  d ← distribute_tokens_to_cp_ranks num_tokens q_lens_cpu seq_lens_cpu tp_rank tp_size
        enable_lightly_cplb all_gather;
  let num_reqs := seq_count d in
  let cu_num_tokens := cumsum (q_lens d) in
  qbuf ← stage_query_start_loc query_start_loc_buf num_reqs cu_num_tokens;
  let q_acc_lens := take (Z.to_nat (num_reqs + 1)) qbuf in
  max_q_len ← list_max q_acc_lens;
  kbuf ← stage_seq_lens seq_lens_buf num_reqs (kv_lens d);
  let kv := take (Z.to_nat num_reqs) kbuf in
  max_kv_len ← list_max kv;
  let num_computed := zip_with Z.sub kv (drop 1 q_acc_lens) in
  blk ← match mapM (zget block_table) (seq_indexes d) with
        | Some rows => Ok rows
        | None => Err (Exn IndexError "index out of range")
        end;
  mret (CpMetadata q_acc_lens kv num_computed num_reqs (rank_tokens d) max_q_len max_kv_len
          blk num_tokens (seq_indexes d) (local_scatter_indexes d) (gather_index d) qbuf kbuf).

(** ** Splitting the rows *)

(** The rows of the rank: by the scatter index of the forward context when
    there is one, else the rank's chunk *)
Definition split_rows {A} (scatter : option (list Z)) (tp_size tp_rank : Z) (rows : list A)
    : result (list A) :=
  match scatter with
  | None =>
      match zget (chunk rows tp_size) tp_rank with
      | Some c => Ok c
      | None => Err (Exn IndexError "tuple index out of range")
      end
  | Some index => index_select rows (map (fun i => if i =? -1 then 0 else i) index)
  end.

Definition split_optional {A} (scatter : option (list Z)) (tp_size tp_rank : Z)
    (rows : option (list A)) : result (option (list A)) :=
  match rows with
  | None => Ok None
  | Some r => r' ← split_rows scatter tp_size tp_rank r; mret (Some r')
  end.

Definition lightly_cp_inputs_splitting {A P : Type} (scatter : option (list Z))
    (hidden_states : list A) (positions : option (list P)) (residual inputs_embeds : option (list A))
    (tp_size tp_rank : Z)
    : result (list A * option (list P) * option (list A) * option (list A)) :=
  hidden ← split_rows scatter tp_size tp_rank hidden_states;
  pos ← split_optional scatter tp_size tp_rank positions;
  res ← split_optional scatter tp_size tp_rank residual;
  emb ← split_optional scatter tp_size tp_rank inputs_embeds;
  mret (hidden, pos, res, emb).
End lightly_cp.
End LightlyCp.
