(* ===== verification/LightlyCpCorrect.v ===== *)
(** * Correctness of the context-parallel token distribution

    Every token goes to exactly one rank, every piece sees its own causal
    prefix, and gathering the ranks' rows undoes the split. *)

From S2P Require Import Prelude Tensors LightlyCp.
From stdpp Require Import sorting.
Import LightlyCp.
Local Open Scope Z_scope.

(** ** Concatenations *)

Lemma concat_map_app_perm {A B} (f g : A -> list B) (l : list A) :
  concat (map (fun x => f x ++ g x) l) ≡ₚ concat (map f l) ++ concat (map g l).
Proof.
  induction l as [|x l IH]; simpl; [done|]. rewrite IH. solve_Permutation.
Qed.

Lemma concat_perm {A} (l k : list (list A)) : l ≡ₚ k -> concat l ≡ₚ concat k.
Proof. induction 1; simpl; [done|by f_equiv|solve_Permutation|by etrans]. Qed.

Lemma zrange_S s n : 0 <= n -> zrange s (n + 1) = zrange s n ++ [s + n].
Proof.
  intros. rewrite zrange_app by lia. f_equal.
Qed.

Lemma rev_zrange_perm t : 0 <= t -> map (fun r => 2 * t - 1 - r) (zrange 0 t) ≡ₚ zrange t t.
Proof.
  intros Ht. apply NoDup_Permutation.
  - apply (NoDup_fmap_2_strong (fun r => 2 * t - 1 - r)); [intros; lia|apply NoDup_seqZ].
  - apply NoDup_seqZ.
  - intros x. rewrite list_elem_of_fmap. setoid_rewrite elem_zrange. split.
    + intros (r & -> & ?). lia.
    + intros ?. exists (2 * t - 1 - x). lia.
Qed.

(** Front and back chunks together are all the chunks. *)
Lemma zigzag_perm {A} (f : Z -> list A) t :
  0 <= t ->
  concat (map (fun r => f r ++ f (2 * t - 1 - r)) (zrange 0 t)) ≡ₚ concat (map f (zrange 0 (2 * t))).
Proof.
  intros Ht. rewrite concat_map_app_perm.
  replace (zrange 0 (2 * t)) with (zrange 0 (t + t)) by (f_equal; lia).
  rewrite (zrange_app 0 t t), map_app, concat_app by lia. f_equiv.
  rewrite <- (map_map (fun r => 2 * t - 1 - r) f). apply concat_perm.
  apply Permutation_map. rewrite rev_zrange_perm by lia. by rewrite Z.add_0_l.
Qed.

(** ** The pieces of a request *)

Section cplb.
Context `{TensorOps} (t : Z).
Hypothesis Ht : 0 < t.

Definition chunk_len (q : Z) : Z := round_up q (2 * t) / (2 * t).

Lemma chunk_len_pad q : round_up q (2 * t) = 2 * t * chunk_len q.
Proof.
  unfold chunk_len. destruct (round_up_spec q (2 * t)) as [[k ->] _]; [lia|].
  rewrite Z.div_mul by lia. lia.
Qed.

Lemma chunk_len_bound q : 0 <= q -> 0 <= chunk_len q /\ q <= 2 * t * chunk_len q < q + 2 * t.
Proof.
  intros Hq. rewrite <- chunk_len_pad. destruct (round_up_spec q (2 * t)) as [_ Hb]; [lia|].
  split; [|lia]. unfold chunk_len. apply Z.div_pos; lia.
Qed.

Lemma chunk_len_0 : chunk_len 0 = 0.
Proof. pose proof (chunk_len_bound 0). nia. Qed.

(** The real tokens of chunk [j] of a request of [q] tokens. *)
Definition part_len (q j : Z) : Z :=
  piece_len (chunk_len q) q (j * chunk_len q) ((j + 1) * chunk_len q).

Lemma part_len_eq q j :
  0 <= q -> part_len q j = Z.max 0 (Z.min q ((j + 1) * chunk_len q) - j * chunk_len q).
Proof.
  intros Hq. destruct (chunk_len_bound q Hq) as [Hc _]. unfold part_len, piece_len.
  case_match; bool_prop; nia.
Qed.

Lemma part_len_bound q j : 0 <= q -> 0 <= part_len q j <= chunk_len q.
Proof.
  intros Hq. destruct (chunk_len_bound q Hq) as [Hc _]. rewrite part_len_eq by done. nia.
Qed.

Definition part (accu q j : Z) : list Z := zrange (accu + j * chunk_len q) (part_len q j).

Lemma parts_prefix accu q (n : nat) :
  0 <= q ->
  concat (map (part accu q) (zrange 0 (Z.of_nat n))) =
  zrange accu (Z.min q (Z.of_nat n * chunk_len q)).
Proof.
  intros Hq. destruct (chunk_len_bound q Hq) as [Hc _].
  induction n as [|n IH].
  - simpl. rewrite zrange_nil; [done|lia].
  - rewrite Nat2Z.inj_succ. replace (Z.succ (Z.of_nat n)) with (Z.of_nat n + 1) by lia.
    rewrite zrange_S by lia.
    rewrite map_app, concat_app, IH. simpl. rewrite app_nil_r, Z.add_0_l. unfold part.
    rewrite part_len_eq by done. set (c := chunk_len q) in *. set (k := Z.of_nat n) in *.
    destruct (Z.le_gt_cases q (k * c)).
    + rewrite (Z.min_l q (k * c)), (Z.min_l q ((k + 1) * c)) by nia.
      rewrite (zrange_nil (accu + k * c)) by nia. by rewrite app_nil_r.
    + rewrite (Z.min_r q (k * c)) by lia. rewrite Z.max_r by nia.
      rewrite <- zrange_app by nia. f_equal. lia.
Qed.

(** What rank [r] gets of a request. *)
Definition share (accu q r : Z) : list Z := part accu q r ++ part accu q (2 * t - 1 - r).

Lemma shares_request accu q :
  0 <= q -> concat (map (share accu q) (zrange 0 t)) ≡ₚ zrange accu q.
Proof.
  intros Hq. unfold share. rewrite zigzag_perm by lia.
  rewrite <- (Z2Nat.id (2 * t)) by lia. rewrite parts_prefix by done.
  destruct (chunk_len_bound q Hq). rewrite Z.min_l; [done|]. rewrite Z2Nat.id by lia. lia.
Qed.

Fixpoint shares (accu : Z) (q_lens : list Z) (r : Z) : list Z :=
  match q_lens with
  | [] => []
  | q :: qs => share accu q r ++ shares (accu + q) qs r
  end.

Definition pad_total (q_lens : list Z) : Z := zsum (map (fun q => chunk_len q * 2) q_lens).

Lemma shares_perm accu q_lens :
  Forall (Z.le 0) q_lens ->
  concat (map (shares accu q_lens) (zrange 0 t)) ≡ₚ zrange accu (zsum q_lens).
Proof.
  intros Hq. revert accu. induction Hq as [|q qs Hq Hqs IH]; intros accu; simpl.
  - induction (zrange 0 t); simpl; [done|]. done.
  - rewrite concat_map_app_perm, shares_request, IH by done.
    rewrite <- zrange_app; [done|done|]. clear -Hqs. induction Hqs; simpl; lia.
Qed.

Lemma shares_length accu q_lens r :
  Forall (Z.le 0) q_lens -> 0 <= zlen (shares accu q_lens r) <= pad_total q_lens.
Proof.
  intros Hq. revert accu. induction Hq as [|q qs Hq Hqs IH]; intros accu; simpl; [by cbn|].
  unfold share, part. rewrite !zlen_app.
  pose proof (part_len_bound q r Hq). pose proof (part_len_bound q (2 * t - 1 - r) Hq).
  rewrite !zlen_zrange by lia. specialize (IH (accu + q)). unfold pad_total in *. simpl. lia.
Qed.

Lemma shares_range accu q_lens r x :
  0 <= r < t -> Forall (Z.le 0) q_lens -> x ∈ shares accu q_lens r ->
  accu <= x < accu + zsum q_lens.
Proof.
  intros Hr Hq Hx. rewrite <- elem_zrange, <- (shares_perm accu q_lens Hq).
  apply list_elem_of_In, in_concat. exists (shares accu q_lens r).
  split; [|by apply list_elem_of_In]. apply in_map, list_elem_of_In, elem_zrange. lia.
Qed.

(** ** The loop over the requests *)

(** A run of tokens of one request given to one rank: the request, where its
    tokens start in the batch, the run's start in the request and its length,
    and the tokens of the request computed before. *)
Record piece := Piece {
  p_seq : Z; p_off : Z; p_start : Z; p_len : Z; p_ctx : Z
}.

Definition piece_tokens (p : piece) : list Z := zrange (p_off p + p_start p) (p_len p).
(** The keys the run's last token attends to. *)
Definition piece_kv (p : piece) : Z := p_ctx p + p_start p + p_len p.

Definition request_pieces (i off q kv r : Z) : list piece :=
  filter (fun p => 0 < p_len p)
    [Piece i off (r * chunk_len q) (part_len q r) (kv - q);
     Piece i off ((2 * t - 1 - r) * chunk_len q) (part_len q (2 * t - 1 - r)) (kv - q)].

Fixpoint rank_pieces (i off : Z) (reqs : list (Z * Z)) (r : Z) : list piece :=
  match reqs with
  | [] => []
  | (q, kv) :: reqs' => request_pieces i off q kv r ++ rank_pieces (i + 1) (off + q) reqs' r
  end.

Definition acc_add (ps : list piece) (pad len : Z) (a : cp_acc) : cp_acc :=
  CpAcc (a_q_lens a ++ map p_len ps) (a_kv_lens a ++ map piece_kv ps)
    (a_seq_indexes a ++ map p_seq ps) (a_scatter_indexes a ++ concat (map piece_tokens ps))
    (a_seq_count a + zlen ps) (a_rank_tokens a + zsum (map p_len ps))
    (a_rank_pad_tokens a + pad) (a_accu_q_start a + len).

Lemma acc_add_app ps ps' pad pad' len len' a :
  acc_add ps' pad' len' (acc_add ps pad len a) = acc_add (ps ++ ps') (pad + pad') (len + len') a.
Proof.
  unfold acc_add. simpl. rewrite !map_app, concat_app, zlen_app, zsum_app, <- !(assoc_L (++)).
  f_equal; lia.
Qed.

Lemma piece_len_part q j : 
  piece_len (chunk_len q) q (j * chunk_len q) ((j + 1) * chunk_len q) = part_len q j.
Proof. done. Qed.

(** A non-empty part ends at the end of its chunk or of the request. *)
Lemma part_end q j : 0 <= q -> 0 < part_len q j ->
  Z.min q ((j + 1) * chunk_len q) = j * chunk_len q + part_len q j.
Proof. intros Hq. rewrite part_len_eq by done. lia. Qed.

Lemma add_piece_spec i off q kv j a :
  0 <= q -> 0 <= part_len q j ->
  add_piece i (part_len q j) (kv - q + Z.min q ((j + 1) * chunk_len q))
    (zrange (off + j * chunk_len q) (part_len q j)) a =
  acc_add (filter (fun p => 0 < p_len p)
    [Piece i off (j * chunk_len q) (part_len q j) (kv - q)]) 0 0 a.
Proof.
  intros Hq Hp. unfold add_piece, acc_add. rewrite filter_cons. simpl.
  destruct (Z.ltb_spec 0 (part_len q j)) as [Hlt|Hle].
  - rewrite decide_True by done. simpl. rewrite filter_nil. simpl. unfold piece_tokens, piece_kv. simpl.
    rewrite part_end, app_nil_r by done. by rewrite !Z.add_0_r, Z.add_assoc.
  - rewrite decide_False by lia. rewrite filter_nil. simpl.
    rewrite !app_nil_r, !Z.add_0_r. by destruct a.
Qed.

Lemma cplb_request_spec r i q kv a :
  0 <= r < t -> 0 <= q ->
  cplb_request r t i q kv a =
  acc_add (request_pieces i (a_accu_q_start a) q kv r) (chunk_len q * 2) q a.
Proof.
  intros Hr Hq. unfold cplb_request. rewrite chunk_len_pad by done.
  replace (2 * t * chunk_len q / (2 * t)) with (chunk_len q)
    by (rewrite Z.mul_comm, Z.div_mul; lia).
  replace (2 * t * chunk_len q - (r + 1) * chunk_len q)
    with ((2 * t - 1 - r) * chunk_len q) by lia.
  replace (2 * t * chunk_len q - r * chunk_len q)
    with ((2 * t - 1 - r + 1) * chunk_len q) by lia.
  rewrite !piece_len_part. cbv zeta.
  pose proof (part_len_bound q r Hq). pose proof (part_len_bound q (2 * t - 1 - r) Hq).
  rewrite !add_piece_spec by lia. rewrite acc_add_app.
  unfold request_pieces. rewrite (filter_cons _ (Piece i _ (r * _) _ _) [_]).
  unfold acc_add. simpl. rewrite filter_cons, filter_nil. simpl.
  destruct (decide (0 < part_len q r)); simpl; f_equal; try lia; done.
Qed.

Lemma cplb_loop_spec r i reqs kv_lens a :
  0 <= r < t -> 0 <= i -> Forall (fun x => 0 <= x.1) reqs ->
  (forall k q kv, reqs !! k = Some (q, kv) -> zget kv_lens (i + Z.of_nat k) = Some kv) ->
  cplb_loop r t i (map fst reqs) kv_lens a =
  Ok (acc_add (rank_pieces i (a_accu_q_start a) reqs r) (pad_total (map fst reqs))
        (zsum (map fst reqs)) a).
Proof.
  intros Hr Hi Hq. revert i a Hi. induction Hq as [|[q kv] reqs Hq Hqs IH]; intros i a Hi Hkv.
  - unfold acc_add. simpl. rewrite !app_nil_r, !Z.add_0_r. by destruct a.
  - simpl. specialize (Hkv 0%nat q kv eq_refl) as Hkv0. rewrite Z.add_0_r in Hkv0.
    rewrite Hkv0, cplb_request_spec by done.
    rewrite IH; [|lia|].
    + rewrite acc_add_app. simpl. f_equal.
    + intros k q' kv' Hk. specialize (Hkv (S k) q' kv' Hk).
      rewrite <- Hkv. f_equal. lia.
Qed.

(** The runs of a rank lie inside their requests. *)
Definition piece_ok (i off : Z) (reqs : list (Z * Z)) (p : piece) : Prop :=
  exists (k : nat) q kv, reqs !! k = Some (q, kv) /\ p_seq p = i + Z.of_nat k /\
    p_off p = off + zsum (map fst (take k reqs)) /\ p_ctx p = kv - q /\
    0 <= p_start p /\ 0 < p_len p /\ p_start p + p_len p <= q.

Lemma request_pieces_ok i off q kv r p :
  0 <= r < t -> 0 <= q -> p ∈ request_pieces i off q kv r ->
  p_seq p = i /\ p_off p = off /\ p_ctx p = kv - q /\
  0 <= p_start p /\ 0 < p_len p /\ p_start p + p_len p <= q.
Proof.
  intros Hr Hq. unfold request_pieces. rewrite list_elem_of_filter.
  destruct (chunk_len_bound q Hq) as [Hc _].
  intros [Hp [->|[->|[]%not_elem_of_nil]%elem_of_cons]%elem_of_cons]; simpl in *;
    rewrite <- part_end by done; split_and!; try done; nia.
Qed.

Lemma rank_pieces_ok i off reqs r :
  0 <= r < t -> Forall (fun x => 0 <= x.1) reqs ->
  Forall (piece_ok i off reqs) (rank_pieces i off reqs r).
Proof.
  intros Hr Hq. revert i off. induction Hq as [|[q kv] reqs Hq Hqs IH]; intros i off; simpl;
    [constructor|].
  apply Forall_app. split; apply Forall_forall.
  - intros p Hp%request_pieces_ok; [|done..]. exists 0%nat, q, kv. simpl. rewrite !Z.add_0_r. naive_solver.
  - intros p Hp. specialize (IH (i + 1) (off + q)). rewrite Forall_forall in IH.
    destruct (IH p Hp) as (k & q' & kv' & Hk & Hs & Ho & Hrest).
    exists (S k), q', kv'. simpl. split; [done|]. split; [lia|]. split; [lia|done].
Qed.

Lemma rank_pieces_tokens i off reqs r :
  0 <= r < t -> Forall (fun x => 0 <= x.1) reqs ->
  concat (map piece_tokens (rank_pieces i off reqs r)) = shares off (map fst reqs) r.
Proof.
  intros Hr Hq. revert i off. induction Hq as [|[q kv] reqs Hq Hqs IH]; intros i off; simpl; [done|].
  rewrite map_app, concat_app, IH. f_equal. unfold request_pieces, share, part.
  pose proof (part_len_bound q r Hq). pose proof (part_len_bound q (2 * t - 1 - r) Hq).
  rewrite !filter_cons, filter_nil. simpl. unfold piece_tokens.
  repeat case_decide; simpl; rewrite ?app_nil_r; rewrite ?(zrange_nil _ (part_len q r)) by lia;
    rewrite ?(zrange_nil _ (part_len q (2 * t - 1 - r))) by lia; rewrite ?app_nil_r; done.
Qed.
End cplb.

(** ** The load-balanced distribution *)

Definition scatter_of (d : distribution) : list Z := default [] (local_scatter_indexes d).
(** The indexes that are not padding. *)
Definition real_indexes (l : list Z) : list Z := filter (fun x => x <> -1) l.

Lemma real_indexes_id l : Forall (Z.le 0) l -> real_indexes l = l.
Proof.
  unfold real_indexes. induction 1 as [|x l Hx _ IH]; [done|].
  rewrite filter_cons, decide_True by lia. by rewrite IH.
Qed.

Lemma real_indexes_pad n : real_indexes (replicate n (-1)) = [].
Proof. induction n; [done|]. simpl. unfold real_indexes. by rewrite filter_cons, decide_False by auto. Qed.

Lemma real_indexes_app l k : real_indexes (l ++ k) = real_indexes l ++ real_indexes k.
Proof. apply filter_app. Qed.

(** ** Gathering *)

Lemma omap_lookup_seq {A} (l : list A) : omap (fun i => l !! i) (seq 0 (length l)) = l.
Proof.
  induction l as [|x l IH]; [done|].
  change (x :: omap (fun i => (x :: l) !! i) (seq 1 (length l)) = x :: l).
  rewrite <- fmap_S_seq. f_equal.
  assert (forall ks, omap (fun i => (x :: l) !! i) (S <$> ks) = omap (fun i => l !! i) ks) as ->.
  { induction ks as [|k ks IHk]; [done|]. csimpl. destruct (l !! k); [f_equal|]; apply IHk. }
  done.
Qed.

Lemma omap_zget_zrange {A} (l : list A) : omap (zget l) (zrange 0 (zlen l)) = l.
Proof.
  rewrite <- (omap_lookup_seq l) at 3. unfold zrange, seqZ, zlen. rewrite Nat2Z.id.
  induction (seq 0 (length l)) as [|k ks IH]; [done|]. csimpl.
  rewrite Z.add_0_r, zget_nat. destruct (l !! k); [f_equal|]; apply IH.
Qed.

Lemma omap_Forall2 {A B} (f : A -> option B) l k :
  Forall2 (fun a b => f a = Some b) l k -> omap f l = k.
Proof. induction 1 as [|a b l k Hab _ IH]; [done|]. csimpl. rewrite Hab. by f_equal. Qed.

Lemma non_neg_snd p l : map snd (non_neg p l) = real_indexes l.
Proof.
  revert p. unfold real_indexes. induction l as [|x l IH]; intros p; simpl; [done|].
  rewrite filter_cons. destruct (Z.eqb_spec x (-1)) as [->|Hx].
  - rewrite decide_False by auto. apply IH.
  - rewrite decide_True by done. simpl. by rewrite IH.
Qed.

Lemma non_neg_get p l q x : (q, x) ∈ non_neg p l -> p <= q /\ zget l (q - p) = Some x.
Proof.
  revert p q x. induction l as [|y l IH]; intros p q x; simpl; [by intros ?%not_elem_of_nil|].
  assert (forall q x, (q, x) ∈ non_neg (p + 1) l -> p <= q /\ zget (y :: l) (q - p) = Some x) as Hrest.
  { intros q' x' [Hle Hg]%IH. split; [lia|].
    unfold zget in *. destruct (Z.ltb_spec (q' - (p + 1)) 0); [lia|].
    destruct (Z.ltb_spec (q' - p) 0); [lia|].
    replace (Z.to_nat (q' - p)) with (S (Z.to_nat (q' - (p + 1)))) by lia. done. }
  case_match; [apply Hrest|]. intros [Heq|Hin]%elem_of_cons; [|by apply Hrest].
  simplify_eq. split; [lia|]. by rewrite Z.sub_diag.
Qed.

Lemma StronglySorted_lookup {A} (R : relation A) (l : list A) :
  (forall i j a b, l !! i = Some a -> l !! j = Some b -> (i < j)%nat -> R a b) -> StronglySorted R l.
Proof.
  induction l as [|x l IH]; intros Hl; constructor.
  - apply IH. intros i j a b Hi Hj Hlt. apply (Hl (S i) (S j)); [done..|lia].
  - apply Forall_forall. intros y [j Hj]%list_elem_of_lookup. apply (Hl 0%nat (S j)); [done..|lia].
Qed.

Lemma zrange_sorted s n : StronglySorted Z.le (zrange s n).
Proof.
  apply StronglySorted_lookup. unfold zrange. intros i j a b Hi Hj Hlt.
  apply lookup_seqZ in Hi, Hj. lia.
Qed.

Section gather.
Context `{TensorOps}.

Lemma gather_sorted (marked ms : list (Z * Z)) :
  Forall2 (fun a m => zget marked a = Some m) (argsort (map snd marked)) ms ->
  StronglySorted Z.le (map snd ms).
Proof.
  intros HF. apply StronglySorted_lookup. intros i j x y Hi Hj Hlt.
  apply list_lookup_fmap_Some in Hi as ([p x'] & -> & Hi), Hj as ([p' y'] & -> & Hj).
  destruct (Forall2_lookup_r _ _ _ _ _ HF Hi) as (a & Ha & Hga).
  destruct (Forall2_lookup_r _ _ _ _ _ HF Hj) as (b & Hb & Hgb).
  apply (argsort_sorted (map snd marked) i j a b); [done..| |].
  - revert Hga. unfold zget. case_match; [done|]. intros E. by rewrite list_lookup_fmap, E.
  - revert Hgb. unfold zget. case_match; [done|]. intros E. by rewrite list_lookup_fmap, E.
Qed.

(** Sorting distinct consecutive values puts value [k] at place [k]. *)
Lemma gather_spec G n :
  real_indexes G ≡ₚ zrange 0 n ->
  Forall2 (fun pos k => zget G pos = Some k) (gather_indexes G) (zrange 0 n).
Proof.
  intros HG. unfold gather_indexes. set (marked := non_neg 0 G). set (vals := map snd marked).
  assert (zlen vals = zlen marked) as Hlen by (unfold zlen, vals; by rewrite length_map).
  destruct (mapM_is_Some_2 (zget marked) (argsort vals)) as [ms Hms].
  { apply Forall_forall. intros a Ha. rewrite argsort_perm in Ha. apply elem_zrange in Ha.
    rewrite Hlen in Ha. destruct (zget_is_Some marked a) as [? ?]; [lia|]. unfold compose. eauto. }
  apply mapM_Some in Hms.
  assert (ms ≡ₚ marked) as Hperm.
  { rewrite <- (omap_Forall2 _ _ _ Hms), argsort_perm, Hlen. by rewrite omap_zget_zrange. }
  assert (map snd ms = zrange 0 n) as <-.
  { apply (StronglySorted_unique Z.le); [by eapply gather_sorted|apply zrange_sorted|].
    rewrite <- HG, <- (non_neg_snd 0). by apply Permutation_map. }
  rewrite (omap_Forall2 _ _ (map fst ms)).
  - assert (forall pos x, (pos, x) ∈ ms -> zget G pos = Some x) as Hget.
    { intros pos x Hin. rewrite Hperm in Hin. apply non_neg_get in Hin as [_ Hin].
      by rewrite Z.sub_0_r in Hin. }
    clear -Hget. induction ms as [|[pos x] ms IH]; simpl; constructor; [apply Hget; by left|].
    apply IH. intros. apply Hget. by right.
  - clear -Hms. induction Hms as [|a [p x] l k Ha _ IH]; simpl; constructor; [|done].
    revert Ha. unfold zget. case_match; [done|]. intros E. by rewrite list_lookup_fmap, E.
Qed.
End gather.

Section balanced.
Context `{TensorOps} (t : Z) (q_lens : list Z).
Hypothesis Ht : 0 < t.
Hypothesis Hq : Forall (Z.le 0) q_lens.

Definition local_scatter (r : Z) : list Z :=
  shares t 0 q_lens r ++
  replicate (Z.to_nat (pad_total t q_lens - zlen (shares t 0 q_lens r))) (-1).

Lemma local_scatter_length r : zlen (local_scatter r) = pad_total t q_lens.
Proof.
  unfold local_scatter. rewrite zlen_app. unfold zlen at 2. rewrite length_replicate.
  pose proof (shares_length t Ht 0 q_lens r Hq). lia.
Qed.

Lemma local_scatter_real r : 0 <= r < t -> real_indexes (local_scatter r) = shares t 0 q_lens r.
Proof.
  intros Hr. unfold local_scatter. rewrite real_indexes_app, real_indexes_pad, app_nil_r.
  apply real_indexes_id, Forall_forall. intros x Hx%(shares_range t Ht); [lia|done..].
Qed.

Lemma local_scatter_elem r x :
  0 <= r < t -> x ∈ local_scatter r -> x = -1 \/ 0 <= x < zsum q_lens.
Proof.
  intros Hr. unfold local_scatter. rewrite elem_of_app, elem_of_replicate.
  intros [Hx|[-> _]]; [right|by left]. apply (shares_range t Ht) in Hx; [lia|done..].
Qed.

(** The all-gather of the group: every rank's indexes, in the order of the ranks. *)
Definition global_scatter : list Z := concat (map local_scatter (zrange 0 t)).

Lemma global_real : real_indexes global_scatter ≡ₚ zrange 0 (zsum q_lens).
Proof.
  rewrite <- (shares_perm t Ht 0 q_lens Hq). unfold global_scatter.
  assert (forall rs, Forall (fun r => 0 <= r < t) rs ->
    real_indexes (concat (map local_scatter rs)) = concat (map (shares t 0 q_lens) rs)) as ->.
  { induction 1 as [|r rs Hr _ IH]; [done|]. simpl. by rewrite real_indexes_app, IH, local_scatter_real. }
  - done.
  - apply Forall_forall. intros r Hr%elem_zrange. lia.
Qed.

Lemma global_length : zlen global_scatter = t * pad_total t q_lens.
Proof.
  unfold global_scatter.
  assert (forall rs, zlen (concat (map local_scatter rs)) = zlen rs * pad_total t q_lens) as ->.
  { induction rs as [|r rs IH]; [done|]. simpl. rewrite zlen_app, IH, local_scatter_length, zlen_cons. lia. }
  rewrite zlen_zrange by lia. done.
Qed.
Context (kv_lens : list Z).
Hypothesis Hkv : (length q_lens <= length kv_lens)%nat.

Lemma fst_zip : map fst (zip q_lens kv_lens) = q_lens.
Proof. by apply fst_zip. Qed.

Lemma reqs_nonneg : Forall (fun x => 0 <= x.1) (zip q_lens kv_lens).
Proof.
  apply Forall_forall. intros [q kv] Hin%elem_of_zip_l. rewrite Forall_forall in Hq. by apply Hq.
Qed.

Lemma distribute_cplb total r all_gather :
  0 <= r < t ->
  let ps := rank_pieces t 0 0 (zip q_lens kv_lens) r in
  distribute_tokens_to_cp_ranks total q_lens kv_lens r t true all_gather =
  Ok (Distribution (zsum (map p_len ps)) (map p_len ps) (zlen ps) (map piece_kv ps)
        (Some (local_scatter r)) (Some (gather_indexes (all_gather (local_scatter r))))
        (map p_seq ps)).
Proof.
  intros Hr ps. unfold distribute_tokens_to_cp_ranks.
  rewrite <- fst_zip at 1.
  rewrite (cplb_loop_spec t Ht r 0 (zip q_lens kv_lens) kv_lens cp_acc0 Hr);
    [|lia|apply reqs_nonneg|].
  2:{ intros k q kv Hk. apply lookup_zip_Some in Hk as [_ Hk]. simpl.
      rewrite Z.add_0_l, zget_nat. done. }
  rewrite fst_zip. simpl. fold ps.
  assert (pad_scatter (acc_add ps (pad_total t q_lens) (zsum q_lens) cp_acc0) = local_scatter r) as ->.
  { unfold pad_scatter, local_scatter. simpl. subst ps.
    rewrite rank_pieces_tokens, fst_zip by (done || apply reqs_nonneg).
    pose proof (shares_length t Ht 0 q_lens r Hq). case_match; bool_prop; [done|].
    replace (Z.to_nat _) with 0%nat by lia. simpl. by rewrite app_nil_r. }
  done.
Qed.

End balanced.

Lemma pieces_len ps :
  Forall (fun p => 0 <= p_len p) ps -> zsum (map p_len ps) = zlen (concat (map piece_tokens ps)).
Proof.
  induction 1 as [|p ps Hp _ IH]; [done|]. simpl. rewrite zlen_app, <- IH. unfold piece_tokens.
  by rewrite zlen_zrange.
Qed.

Lemma Forall2_fun {A B} (P : A -> B -> Prop) (f : A -> B) (l : list A) :
  (forall x, x ∈ l -> P x (f x)) -> Forall2 P l (map f l).
Proof.
  induction l as [|x l IH]; intros Hl; simpl; constructor; [apply Hl; by left|].
  apply IH. intros. apply Hl. by right.
Qed.

(** C22: with load balancing, the ranks together get every token of the batch
    exactly once; all ranks pad their index lists to one common length, as the
    all-gather needs, and each reports the number of tokens it really has. *)
Theorem cplb_partition `{TensorOps} t total q_lens kv_lens all_gather :
  0 < t -> Forall (Z.le 0) q_lens -> (length q_lens <= length kv_lens)%nat ->
  exists ds,
    Forall2 (fun r d => distribute_tokens_to_cp_ranks total q_lens kv_lens r t true all_gather = Ok d)
      (zrange 0 t) ds /\
    concat (map (real_indexes ∘ scatter_of) ds) ≡ₚ zrange 0 (zsum q_lens) /\
    (exists n, Forall (fun d => zlen (scatter_of d) = n) ds) /\
    Forall (fun d => rank_tokens d = zlen (real_indexes (scatter_of d))) ds.
Proof.
  intros Ht Hq Hkv.
  set (f r := let ps := rank_pieces t 0 0 (zip q_lens kv_lens) r in
    Distribution (zsum (map p_len ps)) (map p_len ps) (zlen ps) (map piece_kv ps)
      (Some (local_scatter t q_lens r))
      (Some (gather_indexes (all_gather (local_scatter t q_lens r)))) (map p_seq ps)).
  exists (map f (zrange 0 t)). split_and!.
  - apply Forall2_fun. intros r Hr%elem_zrange. apply distribute_cplb; [done..|lia].
  - rewrite map_map. rewrite <- (global_real t q_lens Ht Hq). unfold global_scatter.
    generalize (zrange 0 t). intros rs. induction rs as [|r rs IH]; simpl; [done|].
    by rewrite real_indexes_app, IH.
  - exists (pad_total t q_lens). apply Forall_map, Forall_forall. intros r _.
    by apply local_scatter_length.
  - apply Forall_map, Forall_forall. intros r Hr%elem_zrange. unfold compose, f, scatter_of. simpl.
    rewrite local_scatter_real by (done || lia).
    rewrite <- (fst_zip q_lens kv_lens Hkv) at 2.
    rewrite <- (rank_pieces_tokens t Ht 0 0) by (by apply reqs_nonneg || lia).
    pose proof (rank_pieces_ok t Ht 0 0 (zip q_lens kv_lens) r) as Hok.
    apply pieces_len. eapply Forall_impl; [apply Hok; [lia|by apply reqs_nonneg]|].
    intros p (k & q & kv & _ & _ & _ & _ & _ & Hp & _). lia.
Qed.

(** A piece of the batch lies inside its request, and its context is what was
    computed of the request before. *)
Definition in_request (q_lens kv_lens : list Z) (p : piece) : Prop :=
  exists q kv, zget q_lens (p_seq p) = Some q /\ zget kv_lens (p_seq p) = Some kv /\
    p_off p = zsum (take (Z.to_nat (p_seq p)) q_lens) /\ p_ctx p = kv - q /\
    0 <= p_start p /\ 0 < p_len p /\ p_start p + p_len p <= q.

(** What a distribution says, as pieces: lengths, requests, and for each piece
    the number of keys up to and including its last token. *)
Definition describes (ps : list piece) (d : distribution) : Prop :=
  q_lens d = map p_len ps /\ seq_indexes d = map p_seq ps /\ kv_lens d = map piece_kv ps /\
  seq_count d = zlen ps.

Lemma piece_ok_in_request q_lens kv_lens p :
  (length q_lens <= length kv_lens)%nat ->
  piece_ok 0 0 (zip q_lens kv_lens) p -> in_request q_lens kv_lens p.
Proof.
  intros Hkv (k & q & kv & Hk & Hs & Ho & Hrest).
  apply lookup_zip_Some in Hk as Hk'. destruct Hk' as [Hk1 Hk2]. rewrite Z.add_0_l in Hs.
  exists q, kv. rewrite Hs, !zget_nat, Nat2Z.id. split; [done|]. split; [done|].
  split; [|done]. rewrite Ho, Z.add_0_l. f_equal.
  rewrite <- (LightlyCpCorrect.fst_zip q_lens kv_lens Hkv) at 2.
  apply (fmap_take fst).
Qed.

(** With load balancing, each run of tokens a rank gets lies inside one
    request, and the key length recorded for it is the request's computed
    context plus the tokens of the request up to the end of the run: attention
    of the run sees exactly its causal prefix.  The indexes of the rank are
    the tokens of its runs, in order. *)
Theorem cplb_causal `{TensorOps} t total q_lens kv_lens all_gather r :
  0 <= r < t -> Forall (Z.le 0) q_lens -> (length q_lens <= length kv_lens)%nat ->
  exists d ps,
    distribute_tokens_to_cp_ranks total q_lens kv_lens r t true all_gather = Ok d /\
    describes ps d /\ Forall (in_request q_lens kv_lens) ps /\
    real_indexes (scatter_of d) = concat (map piece_tokens ps).
Proof.
  intros Hr Hq Hkv. assert (0 < t) as Ht by lia.
  rewrite distribute_cplb by done. eexists _, _. split; [done|]. split; [done|].
  split.
  - eapply Forall_impl; [apply rank_pieces_ok; [done..|by apply reqs_nonneg]|].
    intros p. by apply piece_ok_in_request.
  - unfold scatter_of. simpl. rewrite local_scatter_real by done.
    rewrite rank_pieces_tokens by (done || by apply reqs_nonneg). by rewrite LightlyCpCorrect.fst_zip.
Qed.

(** *** Splitting and gathering *)

Lemma Forall2_concat {A B C} (P : A -> B -> Prop) (f : C -> list A) (g : C -> list B) (l : list C) :
  (forall x, x ∈ l -> Forall2 P (f x) (g x)) -> Forall2 P (concat (map f l)) (concat (map g l)).
Proof.
  induction l as [|x l IH]; intros Hl; simpl; [constructor|].
  apply Forall2_app; [apply Hl; by left|]. apply IH. intros. apply Hl. by right.
Qed.

Lemma Forall2_zget {A B} (P : A -> B -> Prop) l k i x :
  Forall2 P l k -> zget l i = Some x -> exists y, zget k i = Some y /\ P x y.
Proof.
  unfold zget. intros HF. case_match; [done|]. intros Hi.
  destruct (Forall2_lookup_l _ _ _ _ _ HF Hi) as (y & ? & ?). eauto.
Qed.

Definition select_index (i : Z) : Z := if i =? -1 then 0 else i.

(** Rows selected by [G], looked up at the places where [G] holds 0, 1, ... *)
Lemma gathered_rows {A B} (f : A -> B) (hidden rows : list A) (G index : list Z) n :
  0 <= n <= zlen hidden ->
  Forall2 (fun i row => zget hidden (select_index i) = Some row) G rows ->
  Forall2 (fun pos k => zget G pos = Some k) index (zrange 0 n) ->
  Forall2 (fun pos row => zget (map f rows) pos = Some row) index
    (map f (take (Z.to_nat n) hidden)).
Proof.
  intros Hn HG Hi. apply Forall2_same_length_lookup. split.
  - rewrite (Forall2_length _ _ _ Hi), length_map, length_take. unfold zrange, zlen in *.
    rewrite length_seqZ. lia.
  - intros k pos y Hpos Hy. rewrite list_lookup_fmap in Hy.
    destruct (take (Z.to_nat n) hidden !! k) as [row|] eqn:Hrow; [|done]. simplify_eq/=.
    apply lookup_take_Some in Hrow as [Hrow Hk].
    destruct (Forall2_lookup_l _ _ _ _ _ Hi Hpos) as (v & Hv & HGv).
    apply lookup_seqZ in Hv as [-> _].
    destruct (Forall2_zget _ _ _ _ _ HG HGv) as (row' & Hr' & Hsel).
    unfold select_index in Hsel. destruct (Z.eqb_spec (0 + Z.of_nat k) (-1)); [lia|].
    rewrite Z.add_0_l, zget_nat, Hrow in Hsel. simplify_eq.
    revert Hr'. unfold zget. case_match; [done|]. intros E. by rewrite list_lookup_fmap, E.
Qed.

Section split.
Context `{TensorOps} (t : Z) (q_lens : list Z).
Hypothesis Ht : 0 < t.
Hypothesis Hq : Forall (Z.le 0) q_lens.
Hypothesis Hn : 0 < zsum q_lens.
Context {A : Type} (hidden : list A).
Hypothesis Hlen : zsum q_lens <= zlen hidden.

Lemma select_rows r :
  0 <= r < t ->
  exists rows, Forall2 (fun i row => zget hidden (select_index i) = Some row)
    (local_scatter t q_lens r) rows /\
    split_rows (Some (local_scatter t q_lens r)) t r hidden = Ok rows.
Proof.
  intros Hr. destruct (mapM_is_Some_2 (zget hidden ∘ select_index) (local_scatter t q_lens r))
    as [rows Hrows].
  { apply Forall_forall. intros i Hi%(local_scatter_elem t q_lens Ht Hq); [|done].
    destruct (zget_is_Some hidden (select_index i)) as [x Hx].
    - unfold select_index. case_match; bool_prop; lia.
    - unfold compose. eauto. }
  apply mapM_Some in Hrows. exists rows. split; [done|].
  unfold split_rows. apply index_select_ok.
  clear -Hrows. induction Hrows as [|i row l k Hi _ IH]; simpl; constructor; done.
Qed.
End split.

(** Gathering undoes splitting.  Every rank selects its rows by its padded
    index list; when the rows of all ranks, each processed row by row, are put
    one after the other, selecting them by the gather index gives the
    processed rows of the batch back in their order. *)
Theorem cplb_gather_undoes_split `{TensorOps} {A B} (f : A -> B) t q_lens kv_lens (hidden : list A) :
  0 < t -> Forall (Z.le 0) q_lens -> (length q_lens <= length kv_lens)%nat ->
  0 < zsum q_lens <= zlen hidden ->
  exists ds rows,
    Forall2 (fun r d => distribute_tokens_to_cp_ranks (zsum q_lens) q_lens kv_lens r t true
       (fun _ => concat (map scatter_of ds)) = Ok d) (zrange 0 t) ds /\
    Forall2 (fun r rs => exists d, zget ds r = Some d /\
       split_rows (local_scatter_indexes d) t r hidden = Ok rs) (zrange 0 t) rows /\
    forall d, d ∈ ds ->
      match gather_index d with
      | Some g => index_select (concat (map (map f) rows)) g =
          Ok (map f (take (Z.to_nat (zsum q_lens)) hidden))
      | None => False
      end.
Proof.
  intros Ht Hq Hkv [Hn Hlen]. set (G := global_scatter t q_lens).
  set (fd r := let ps := rank_pieces t 0 0 (zip q_lens kv_lens) r in
    Distribution (zsum (map p_len ps)) (map p_len ps) (zlen ps) (map piece_kv ps)
      (Some (local_scatter t q_lens r)) (Some (gather_indexes G)) (map p_seq ps)).
  set (fr r := match split_rows (Some (local_scatter t q_lens r)) t r hidden with
               | Ok rs => rs | Err _ => [] end).
  assert (concat (map scatter_of (map fd (zrange 0 t))) = G) as HG by (by rewrite map_map).
  exists (map fd (zrange 0 t)), (map fr (zrange 0 t)). rewrite HG. split_and!.
  - apply Forall2_fun. intros r Hr%elem_zrange. apply distribute_cplb; [done..|lia].
  - apply Forall2_fun. intros r Hr%elem_zrange. exists (fd r). split.
    + unfold zget. destruct (Z.ltb_spec r 0); [lia|]. rewrite list_lookup_fmap.
      unfold zrange. rewrite lookup_seqZ_lt by lia. simpl. do 2 f_equal. lia.
    + destruct (select_rows t q_lens Ht Hq Hn hidden Hlen r) as (rows & _ & Hrows); [lia|].
      change (local_scatter_indexes (fd r)) with (Some (local_scatter t q_lens r)).
      unfold fr. by rewrite Hrows.
  - intros d Hd. apply list_elem_of_fmap in Hd as (r & -> & _). simpl.
    apply index_select_ok.
    assert (Forall2 (fun i row => zget hidden (select_index i) = Some row) G
      (concat (map fr (zrange 0 t)))) as Hall.
    { apply Forall2_concat. intros r' Hr'%elem_zrange.
      destruct (select_rows t q_lens Ht Hq Hn hidden Hlen r') as (rows & HF & Hrows); [lia|].
      unfold fr. by rewrite Hrows. }
    pose proof (gather_spec G (zsum q_lens) (global_real t q_lens Ht Hq)) as Hg.
    rewrite <- concat_map. apply gathered_rows with (G := G); [lia|done..].
Qed.

(** ** The contiguous distribution *)

Definition run_add (ps : list piece) (start : Z) (a : run_acc) : run_acc :=
  RunAcc (r_q_lens a ++ map p_len ps) (r_kv_lens a ++ map piece_kv ps)
    (r_seq_indexes a ++ map p_seq ps) (r_seq_count a + zlen ps) start.

Lemma run_add_cons p ps s s' a :
  run_add ps s' (run_add [p] s a) = run_add (p :: ps) s' a.
Proof.
  unfold run_add. simpl. rewrite <- !(assoc_L (++)), (zlen_cons p ps). f_equal.
  unfold zlen. simpl. lia.
Qed.

Lemma run_add_nil a : run_add [] (r_start_token a) a = a.
Proof. unfold run_add. simpl. rewrite !app_nil_r, Z.add_0_r. by destruct a. Qed.

Lemma zsum_nonneg l : Forall (Z.le 0) l -> 0 <= zsum l.
Proof. induction 1; simpl; lia. Qed.

Lemma piece_ok_S i off q kv reqs p :
  piece_ok (i + 1) (off + q) reqs p -> piece_ok i off ((q, kv) :: reqs) p.
Proof.
  intros (k & q' & kv' & Hk & Hs & Ho & Hrest). exists (S k), q', kv'. simpl.
  split; [done|]. split; [lia|]. split; [lia|done].
Qed.

Lemma zrange_join s m e : s <= m <= e -> zrange s (m - s) ++ zrange m (e - m) = zrange s (e - s).
Proof.
  intros. replace m with (s + (m - s)) at 2 by lia. rewrite <- zrange_app by lia. f_equal. lia.
Qed.

(** The loop stops at once when the rank has all its tokens, or when there are
    no more requests. *)
Lemma contiguous_loop_stop stop i pos q_lens kv_lens a :
  q_lens = [] \/ stop <= r_start_token a ->
  contiguous_loop stop i pos q_lens kv_lens a = Ok (run_add [] (r_start_token a) a).
Proof.
  intros Hq. rewrite run_add_nil. destruct q_lens as [|q qs]; [done|]. simpl.
  destruct (Z.ltb_spec (r_start_token a) stop); [|done]. destruct Hq; [done|lia].
Qed.

Lemma contiguous_loop_spec stop i pos reqs kv_lens a :
  0 <= i -> Forall (fun x => 0 <= x.1) reqs ->
  (forall k q kv, reqs !! k = Some (q, kv) -> zget kv_lens (i + Z.of_nat k) = Some kv) ->
  pos <= r_start_token a \/ stop <= r_start_token a ->
  exists ps s,
    contiguous_loop stop i pos (map fst reqs) kv_lens a = Ok (run_add ps s a) /\
    Forall (piece_ok i pos reqs) ps /\
    concat (map piece_tokens ps) =
      zrange (r_start_token a) (Z.min stop (pos + zsum (map fst reqs)) - r_start_token a).
Proof.
  intros Hi Hq. revert i pos a Hi.
  induction Hq as [|[q kv] reqs Hq Hqs IH]; intros i pos a Hi Hkv Hpos.
  { exists [], (r_start_token a). rewrite contiguous_loop_stop by by left.
    split_and!; [done|constructor|]. simpl. rewrite zrange_nil; [done|lia]. }
  assert (0 <= zsum (map fst reqs)) as Hs by by apply zsum_nonneg, Forall_map.
  destruct (Z.le_gt_cases stop (r_start_token a)) as [Hge|Hlt].
  { exists [], (r_start_token a). rewrite contiguous_loop_stop by by right.
    split_and!; [done|constructor|]. simpl. rewrite zrange_nil; [done|lia]. }
  destruct Hpos as [Hpos|?]; [|lia]. simpl.
  rewrite (proj2 (Z.ltb_lt _ _) Hlt).
  specialize (Hkv 0%nat q kv eq_refl) as Hkv0. rewrite Z.add_0_r in Hkv0. rewrite Hkv0.
  assert (forall k q' kv', reqs !! k = Some (q', kv') ->
    zget kv_lens (i + 1 + Z.of_nat k) = Some kv') as Hkv'.
  { intros k q' kv' Hk. rewrite <- (Hkv (S k) q' kv' Hk). f_equal. lia. }
  simpl in Hq. rewrite (Z.max_l (r_start_token a) pos) by lia.
  destruct (Z.ltb_spec (r_start_token a) (Z.min stop (pos + q))) as [Ho|Ho].
  - set (p := Piece i pos (r_start_token a - pos)
                (Z.min stop (pos + q) - r_start_token a) (kv - q)).
    match goal with |- context [contiguous_loop _ _ _ _ _ ?a'] =>
      replace a' with (run_add [p] (Z.min stop (pos + q)) a) end.
    2:{ unfold run_add, piece_kv. simpl. f_equal. do 2 f_equal.
        case_match; bool_prop; lia. }
    destruct (IH (i + 1) (pos + q) (run_add [p] (Z.min stop (pos + q)) a)) as (ps & s & E & Hok & Hc);
      [lia|done|simpl; lia|].
    exists (p :: ps), s. rewrite E, run_add_cons. split; [done|]. split.
    + constructor; [|by eapply Forall_impl; [exact Hok|]; intros; apply piece_ok_S].
      exists 0%nat, q, kv. simpl. rewrite !Z.add_0_r. split_and!; try done; lia.
    + simpl. rewrite Hc. unfold piece_tokens. simpl.
      replace (pos + (r_start_token a - pos)) with (r_start_token a) by lia.
      rewrite zrange_join by lia. f_equal. lia.
  - destruct (IH (i + 1) (pos + q) a) as (ps & s & E & Hok & Hc); [lia|done|lia|].
    exists ps, s. rewrite E. split; [done|]. split.
    + eapply Forall_impl; [exact Hok|]. intros. by apply piece_ok_S.
    + rewrite Hc. f_equal. lia.
Qed.

Section contiguous.
Context (t total : Z).
Hypothesis Ht : 0 < t.
Hypothesis Htotal : 0 <= total.

Definition per_rank : Z := (total + t - 1) / t.
Definition run_start (r : Z) : Z := r * per_rank.
Definition run_stop (r : Z) : Z := Z.min ((r + 1) * per_rank) total.

Lemma per_rank_bound : 0 <= per_rank /\ total <= t * per_rank < total + t.
Proof.
  unfold per_rank. pose proof (Z.div_mod (total + t - 1) t). 
  pose proof (Z.mod_pos_bound (total + t - 1) t). split; [apply Z.div_pos; lia|lia].
Qed.

Lemma runs_prefix m (n : nat) :
  0 <= m <= total ->
  concat (map (fun r => zrange (run_start r) (Z.min (run_stop r) m - run_start r))
    (zrange 0 (Z.of_nat n))) = zrange 0 (Z.min (Z.of_nat n * per_rank) m).
Proof.
  intros Hm. pose proof per_rank_bound as [Hp _]. induction n as [|n IH].
  - simpl. rewrite zrange_nil; [done|lia].
  - rewrite Nat2Z.inj_succ, <- Z.add_1_r, zrange_S, map_app, concat_app, IH by lia. simpl.
    rewrite app_nil_r, Z.add_0_l. unfold run_start, run_stop.
    set (k := Z.of_nat n). set (c := per_rank) in *.
    destruct (Z.le_gt_cases m (k * c)).
    + rewrite (Z.min_r (k * c) m), (Z.min_r ((k + 1) * c) m) by nia.
      rewrite (zrange_nil (k * c)) by nia. by rewrite app_nil_r.
    + rewrite (Z.min_l (k * c) m) by lia.
      pose proof (zrange_join 0 (k * c) (Z.min ((k + 1) * c) m)) as Hj.
      rewrite !Z.sub_0_r in Hj. rewrite <- Hj by nia. do 2 f_equal. nia.
Qed.
Context `{TensorOps} (q_lens kv_lens : list Z).
Hypothesis Hq : Forall (Z.le 0) q_lens.
Hypothesis Hkv : (length q_lens <= length kv_lens)%nat.

Lemma distribute_contiguous r all_gather :
  0 <= r < t ->
  exists d ps,
    distribute_tokens_to_cp_ranks total q_lens kv_lens r t false all_gather = Ok d /\
    rank_tokens d = Z.min per_rank (run_stop r - run_start r) /\
    describes ps d /\ Forall (in_request q_lens kv_lens) ps /\
    concat (map piece_tokens ps) =
      zrange (run_start r) (Z.min (run_stop r) (zsum q_lens) - run_start r).
Proof.
  intros Hr. pose proof per_rank_bound as [Hp _].
  destruct (contiguous_loop_spec (run_stop r) 0 0 (zip q_lens kv_lens) kv_lens
    (RunAcc [] [] [] 0 (run_start r))) as (ps & s & E & Hok & Hc).
  - lia.
  - by apply reqs_nonneg.
  - intros k q kv Hk. apply lookup_zip_Some in Hk as [_ Hk]. by rewrite Z.add_0_l, zget_nat.
  - left. simpl. unfold run_start. nia.
  - rewrite LightlyCpCorrect.fst_zip in E, Hc by done. unfold distribute_tokens_to_cp_ranks.
    fold per_rank. fold (run_start r) (run_stop r). rewrite E.
    eexists _, ps. split; [reflexivity|]. split; [done|]. split; [done|]. split.
    + eapply Forall_impl; [exact Hok|]. intros p. by apply piece_ok_in_request.
    + exact Hc.
Qed.

End contiguous.

(** Without load balancing, the ranks' runs of tokens, in the order of the
    ranks, are the tokens of the batch in order, each once; every run lies
    inside one request and its key length is its causal prefix. *)
Theorem contiguous_partition `{TensorOps} t total q_lens kv_lens all_gather :
  0 < t -> 0 <= total -> Forall (Z.le 0) q_lens -> (length q_lens <= length kv_lens)%nat ->
  exists ds pss,
    Forall2 (fun r d => distribute_tokens_to_cp_ranks total q_lens kv_lens r t false all_gather = Ok d)
      (zrange 0 t) ds /\
    Forall2 describes pss ds /\ Forall (Forall (in_request q_lens kv_lens)) pss /\
    concat (map (fun ps => concat (map piece_tokens ps)) pss) =
      zrange 0 (Z.min total (zsum q_lens)).
Proof.
  intros Ht Htot Hq Hkv.
  assert (forall rs, Forall (fun r => 0 <= r < t) rs -> exists ds pss,
    Forall2 (fun r d => distribute_tokens_to_cp_ranks total q_lens kv_lens r t false all_gather = Ok d)
      rs ds /\ Forall2 describes pss ds /\ Forall (Forall (in_request q_lens kv_lens)) pss /\
    map (fun ps => concat (map piece_tokens ps)) pss =
      map (fun r => zrange (run_start t total r)
        (Z.min (run_stop t total r) (Z.min total (zsum q_lens)) - run_start t total r)) rs) as Hrs.
  { induction 1 as [|r rs Hr _ (ds & pss & H1 & H2 & H3 & H4)].
    - exists [], []. split_and!; constructor.
    - destruct (distribute_contiguous t total Ht Htot q_lens kv_lens Hq Hkv r all_gather Hr)
        as (d & ps & Hd & _ & Hps & Hin & Hc).
      exists (d :: ds), (ps :: pss). split_and!; [by constructor..|].
      simpl. rewrite H4, Hc. f_equal. unfold run_stop. f_equal. lia. }
  destruct (Hrs (zrange 0 t)) as (ds & pss & H1 & H2 & H3 & H4).
  { apply Forall_forall. intros r Hr%elem_zrange. lia. }
  exists ds, pss. split_and!; [done..|]. rewrite H4.
  pose proof (zsum_nonneg _ Hq). pose proof (per_rank_bound t total Ht Htot).
  replace (zrange 0 t) with (zrange 0 (Z.of_nat (Z.to_nat t))) by (f_equal; lia).
  rewrite runs_prefix by (done || lia). f_equal. rewrite Z2Nat.id; lia.
Qed.

(** The token count reported without load balancing is the length of the
    rank's run as long as the run starts inside the batch, which padding the
    batch to a multiple of the group size ensures; for a rank whose run would
    start beyond the batch it is negative. *)
Theorem contiguous_rank_tokens `{TensorOps} t total q_lens kv_lens all_gather r :
  0 <= r < t -> 0 <= total <= zsum q_lens -> Forall (Z.le 0) q_lens ->
  (length q_lens <= length kv_lens)%nat ->
  exists d,
    distribute_tokens_to_cp_ranks total q_lens kv_lens r t false all_gather = Ok d /\
    (run_start t total r <= total -> rank_tokens d = zsum (LightlyCp.q_lens d)) /\
    (total < run_start t total r -> rank_tokens d < 0) /\
    (pad_for_mla_cp t total = total -> run_start t total r <= total).
Proof.
  intros Hr Htot Hq Hkv. assert (0 < t) as Ht by lia.
  destruct (distribute_contiguous t total Ht (proj1 Htot) q_lens kv_lens Hq Hkv r all_gather Hr)
    as (d & ps & Hd & Hn & (Hql & _) & Hin & Hc).
  exists d. split; [done|]. pose proof (per_rank_bound t total Ht (proj1 Htot)) as [Hp Hb].
  split; [|split].
  - intros Hs. rewrite Hn, Hql, pieces_len, Hc.
    + rewrite zlen_zrange by (unfold run_stop, run_start in *; nia).
      unfold run_stop, run_start in *. nia.
    + eapply Forall_impl; [exact Hin|]. intros p (? & ? & ? & ? & ? & ? & ? & ? & ?). lia.
  - intros Hs. rewrite Hn. unfold run_stop. lia.
  - unfold pad_for_mla_cp. intros Hpad. destruct (round_up_spec total t Ht) as [[k Hk] _].
    rewrite Hpad in Hk. unfold run_start. assert (per_rank t total = k) by nia. nia.
Qed.

(** ** Attention metadata *)

Lemma cumsum_from_length acc l : length (cumsum_from acc l) = length l.
Proof. revert acc. induction l; intros acc; simpl; [done|]. by f_equal. Qed.

Lemma cumsum_from_lookup acc l k q :
  l !! k = Some q -> cumsum_from acc l !! k = Some (acc + zsum (take k l) + q).
Proof.
  revert acc k. induction l as [|x l IH]; intros acc [|k] Hk; simplify_eq/=; [f_equal; lia|].
  rewrite (IH _ _ Hk). f_equal. lia.
Qed.

Lemma cumsum_from_max acc l :
  Forall (Z.le 0) l -> foldl Z.max acc (cumsum_from acc l) = acc + zsum l.
Proof.
  intros Hl. revert acc. induction Hl as [|x l Hx _ IH]; intros acc; simpl; [lia|].
  rewrite Z.max_r, IH by lia. lia.
Qed.

Lemma take_app_z {A} (l k : list A) n : zlen l = n -> take (Z.to_nat n) (l ++ k) = l.
Proof. intros <-. unfold zlen. rewrite Nat2Z.id. by rewrite take_app_length. Qed.

Lemma slice_assign_fits buf start vals :
  0 <= start -> start + zlen vals <= zlen buf ->
  slice_assign buf start (zlen vals) vals =
  Ok (take (Z.to_nat start) buf ++ vals ++ drop (Z.to_nat (start + zlen vals)) buf).
Proof.
  intros Hs Hl. pose proof (zlen_nonneg vals). unfold slice_assign.
  rewrite !Z.min_r by lia. replace (start + zlen vals - start) with (zlen vals) by lia.
  by rewrite Z.eqb_refl.
Qed.

(** Filled buffers start with what was staged. *)
Lemma fill_take l rest n v :
  zlen l = n -> take (Z.to_nat n) (fill_from (l ++ rest) n v) = l.
Proof. intros Hn. unfold fill_from. rewrite (take_app_z l) by done. by apply take_app_z. Qed.

Lemma stage_query_spec buf n cu :
  zlen cu = n -> 0 < n -> n + 1 <= zlen buf ->
  exists qbuf, stage_query_start_loc buf n cu = Ok qbuf /\ take (Z.to_nat (n + 1)) qbuf = 0 :: cu.
Proof.
  intros <- Hn Hb. unfold stage_query_start_loc. set (n := zlen cu) in *.
  destruct buf as [|b0 rest]; [unfold zlen in Hb; simpl in Hb; lia|]. cbn [mbind result_bind].
  rewrite zlen_cons in Hb. subst n.
  rewrite slice_assign_fits by (rewrite ?zlen_cons; lia). set (n := zlen cu). cbn [mbind result_bind].
  replace (Z.to_nat (1 + n)) with (S (Z.to_nat n)) by lia.
  destruct (last cu) as [tot|] eqn:Hlast.
  2:{ apply last_None in Hlast. subst cu. done. }
  eexists. split; [reflexivity|].
  change (take (Z.to_nat 1) (0 :: rest) ++ cu ++ drop (S (Z.to_nat n)) (0 :: rest))
    with ((0 :: cu) ++ drop (Z.to_nat n) rest).
  apply fill_take. apply zlen_cons.
Qed.

Lemma stage_seq_spec buf n kv :
  zlen kv = n -> n <= zlen buf ->
  exists kbuf, stage_seq_lens buf n kv = Ok kbuf /\ take (Z.to_nat n) kbuf = kv.
Proof.
  intros <- Hb. unfold stage_seq_lens. rewrite slice_assign_fits by lia.
  eexists. split; [reflexivity|]. by apply (fill_take kv).
Qed.

(** What the metadata of a rank holds when its staging buffers are large
    enough: the prefix sums of its query lengths and its key lengths, without
    the buffers' old contents; the recorded maximum query length is the
    rank's total, and the recorded number of computed tokens subtracts from a
    run's key length the query lengths of all runs up to it, its own and the
    ones before. *)
Theorem prepare_metadata_spec `{TensorOps} tp_rank t reqs tokens (block : list (list Z))
    qsl seq_lens qbuf kbuf cplb ag d :
  distribute_tokens_to_cp_ranks tokens (diffs (take (Z.to_nat (reqs + 1)) qsl)) seq_lens
    tp_rank t cplb ag = Ok d ->
  zlen (q_lens d) = seq_count d -> zlen (kv_lens d) = seq_count d -> 0 < seq_count d ->
  Forall (Z.le 0) (q_lens d) ->
  seq_count d + 1 <= zlen qbuf -> seq_count d <= zlen kbuf ->
  Forall (fun i => 0 <= i < zlen block) (seq_indexes d) ->
  exists m,
    prepare_cp_metadata tp_rank t reqs tokens block qsl seq_lens qbuf kbuf cplb ag = Ok m /\
    m_query_start_loc m = 0 :: cumsum (q_lens d) /\ m_seq_lens m = kv_lens d /\
    m_num_reqs m = seq_count d /\ m_max_query_len m = zsum (q_lens d) /\
    Forall2 (fun i row => zget block i = Some row) (seq_indexes d) (m_block_table m) /\
    forall k q kv, q_lens d !! k = Some q -> kv_lens d !! k = Some kv ->
      m_num_computed_tokens m !! k = Some (kv - q - zsum (take k (q_lens d))).
Proof.
  intros Hd Hq Hk Hn Hnn Hqb Hkb Hblk.
  assert (zlen (cumsum (q_lens d)) = seq_count d) as Hcu.
  { rewrite <- Hq. unfold zlen, cumsum. by rewrite cumsum_from_length. }
  destruct (stage_query_spec qbuf _ _ Hcu Hn Hqb) as (qb & Eq & Hqt).
  destruct (stage_seq_spec kbuf _ _ Hk Hkb) as (kb & Ek & Hkt).
  destruct (mapM_is_Some_2 (zget block) (seq_indexes d)) as [rows Hrows].
  { eapply Forall_impl; [exact Hblk|]. intros i Hi. by apply zget_is_Some. }
  destruct (list_max (kv_lens d)) as [mx|e] eqn:Hmx.
  2:{ destruct (kv_lens d); [unfold zlen in Hk; simpl in Hk; lia|done]. }
  unfold prepare_cp_metadata. rewrite Hd. cbn [mbind result_bind].
  rewrite Eq. cbn [mbind result_bind]. rewrite Hqt. cbn [list_max mbind result_bind].
  rewrite Ek. cbn [mbind result_bind]. rewrite Hkt, Hmx. cbn [mbind result_bind]. rewrite Hrows.
  eexists. split; [reflexivity|]. cbn [m_query_start_loc m_seq_lens m_num_reqs
    m_max_query_len m_block_table m_num_computed_tokens]. split_and!; [done..| |by apply mapM_Some|].
  - unfold cumsum. by rewrite cumsum_from_max.
  - intros k q kv Hkq Hkk. apply lookup_zip_with_Some. exists kv, (0 + zsum (take k (q_lens d)) + q).
    split; [lia|]. split; [done|]. simpl. by apply cumsum_from_lookup.
Qed.

(** ** Concrete batches *)

Lemma demo_nonneg : Forall (Z.le 0) [5; 3].
Proof. repeat constructor; lia. Qed.

Lemma cplb_partition_witness :
  exists ds, zlen ds = 2 /\ concat (map (real_indexes ∘ scatter_of) ds) ≡ₚ zrange 0 8.
Proof.
  destruct (cplb_partition 2 8 [5; 3] [9; 3] (fun l => l) ltac:(lia) demo_nonneg ltac:(simpl; lia))
    as (ds & H1 & H2 & _).
  exists ds. split; [|exact H2]. unfold zlen. rewrite <- (Forall2_length _ _ _ H1). reflexivity.
Defined.

Lemma cplb_causal_witness :
  exists d ps, distribute_tokens_to_cp_ranks 8 [5; 3] [9; 3] 1 2 true (fun l => l) = Ok d /\
    kv_lens d = map piece_kv ps /\ kv_lens d = [8; 9; 2; 3] /\
    real_indexes (scatter_of d) = [2; 3; 4; 6; 7].
Proof.
  destruct (cplb_causal 2 8 [5; 3] [9; 3] (fun l => l) 1 ltac:(lia) demo_nonneg ltac:(simpl; lia))
    as (d & ps & H1 & (_ & _ & H2 & _) & _ & _).
  exists d, ps. split; [exact H1|]. split; [exact H2|]. vm_compute in H1. injection H1 as <-.
  split; reflexivity.
Defined.

Lemma cplb_gather_undoes_split_witness :
  exists ds rows, length ds = 2%nat /\ length rows = 2%nat /\
    forall d, d ∈ ds -> exists g, gather_index d = Some g /\
      index_select (concat (map (map Z.opp) rows)) g =
        Ok [-10; -11; -12; -13; -14; -15; -16; -17].
Proof.
  destruct (cplb_gather_undoes_split Z.opp 2 [5; 3] [9; 3] [10; 11; 12; 13; 14; 15; 16; 17; 0; 0]
    ltac:(lia) demo_nonneg ltac:(simpl; lia) ltac:(split; vm_compute; congruence)) as (ds & rows & H1 & H2 & H3).
  exists ds, rows. split; [by rewrite <- (Forall2_length _ _ _ H1)|].
  split; [by rewrite <- (Forall2_length _ _ _ H2)|].
  intros d Hd. specialize (H3 d Hd). destruct (gather_index d) as [g|]; [|done].
  exists g. split; [done|exact H3].
Defined.

Lemma contiguous_partition_witness :
  exists ds pss, Forall2 describes pss ds /\
    concat (map (fun ps => concat (map piece_tokens ps)) pss) = [0; 1; 2; 3; 4; 5; 6; 7].
Proof.
  destruct (contiguous_partition 2 8 [5; 3] [9; 3] (fun l => l) ltac:(lia) ltac:(lia)
    demo_nonneg ltac:(simpl; lia)) as (ds & pss & _ & H2 & _ & H4).
  exists ds, pss. split; [exact H2|exact H4].
Defined.

Lemma contiguous_rank_tokens_witness :
  exists d, distribute_tokens_to_cp_ranks 5 [5; 3] [9; 3] 3 4 false (fun l => l) = Ok d /\
    rank_tokens d < 0.
Proof.
  destruct (contiguous_rank_tokens 4 5 [5; 3] [9; 3] (fun l => l) 3 ltac:(lia) ltac:(split; vm_compute; congruence)
    demo_nonneg ltac:(simpl; lia)) as (d & H1 & _ & H2 & _).
  exists d. split; [exact H1|]. apply H2. vm_compute. reflexivity.
Defined.

Lemma prepare_metadata_spec_witness :
  exists m, prepare_cp_metadata 0 1 2 8 [[1]; [2]] [0; 5; 8] [9; 13] [0; 0; 0; 0] [0; 0; 0] false
      (fun l => l) = Ok m /\
    m_seq_lens m = [9; 13] /\ m_num_computed_tokens m !! 1%nat = Some 5.
Proof.
  destruct (distribute_tokens_to_cp_ranks 8 (diffs (take (Z.to_nat (2 + 1)) [0; 5; 8])) [9; 13]
    0 1 false (fun l => l)) as [d|] eqn:Hd; [|vm_compute in Hd; discriminate Hd].
  pose proof Hd as Hd'. vm_compute in Hd'. injection Hd' as Hd'.
  destruct (prepare_metadata_spec 0 1 2 8 [[1]; [2]] [0; 5; 8] [9; 13] [0; 0; 0; 0] [0; 0; 0]
    false (fun l => l) d Hd) as (m & H1 & _ & H2 & _ & _ & _ & H3); try (by rewrite <- Hd').
  - rewrite <- Hd'. repeat constructor; lia.
  - rewrite <- Hd'. repeat constructor; vm_compute; congruence.
  - exists m. split; [exact H1|]. split; [by rewrite H2, <- Hd'|].
    rewrite (H3 1%nat 3 13); rewrite <- Hd'; reflexivity.
Defined.
