(* ===== verification/LayerSplit.v ===== *)
(** * Ownership and packing of DSA cache layers

    Models the planning half of src/vllm_hcu/v1/dsa_cache_layer_split.py:
    which prefill-context-parallel rank owns the cache of which layer, and
    where a rank keeps the layers it owns and the scratch slot that stands for
    all the others inside one packed block.

    [parse_layer_index] calls vLLM's [extract_layer_index] and is a parameter.
    Objects of vLLM that the code only reads (cache groups, tensors, the tensor
    class) are records of the attributes it reads. *)

From S2P Require Import Prelude PyString Tensors.
From stdpp Require Import sorting.
Local Open Scope Z_scope.

Module LayerSplit.

(** ** Layer ranges *)

Definition get_layer_shard_range (rank shard_size total_layers : Z) : result (Z * Z) :=
  if shard_size <=? 0 then Err (Exn ValueError "shard_size must be > 0")
  else if total_layers <? 0 then Err (Exn ValueError "total_layers must be >= 0")
  else if negb ((0 <=? rank) && (rank <? shard_size))
  then Err (Exn ValueError "rank must be in [0, shard_size)")
  else
    let base := total_layers / shard_size in
    let rem := total_layers mod shard_size in
    let start := rank * base + Z.min rank rem in
    Ok (start, start + base + (if rank <? rem then 1 else 0)).

(** The loop [for rank in range(shard_size)] of [get_layer_owner] *)
Fixpoint find_owner (ranks : list Z) (local_layer_idx shard_size total_layers : Z)
    : result (option Z) :=
  match ranks with
  | [] => Ok None
  | rank :: ranks' =>
      range ← get_layer_shard_range rank shard_size total_layers;
      if (range.1 <=? local_layer_idx) && (local_layer_idx <? range.2) then Ok (Some rank)
      else find_owner ranks' local_layer_idx shard_size total_layers
  end.

Definition get_layer_owner (local_layer_idx shard_size total_layers : Z) : result Z :=
  if negb ((0 <=? local_layer_idx) && (local_layer_idx <? total_layers))
  then Err (Exn ValueError "local_layer_idx out of range")
  else
    owner ← find_owner (zrange 0 shard_size) local_layer_idx shard_size total_layers;
    match owner with
    | Some rank => Ok rank
    | None => Err (Exn ValueError "Invalid local_layer_idx")
    end.

Definition effective_num_layers (num_layers shard_size : Z) : Z :=
  if shard_size <=? 1 then num_layers
  else Z.max 1 ((num_layers + shard_size - 1) / shard_size + 1).

(** ** Runtime ownership *)

Record LayerSplitState := SplitState {
  shard_rank : Z;
  shard_size : Z;
  total_layers : Z;
  start_layer : Z
}.

Definition local_index (st : LayerSplitState) (layer_idx : Z) : Z :=
  layer_idx - start_layer st.

Definition covers (st : LayerSplitState) (layer_idx : Z) : bool :=
  (0 <=? local_index st layer_idx) && (local_index st layer_idx <? total_layers st).

Definition is_owned (st : LayerSplitState) (layer_idx : Z) : result bool :=
  if negb (covers st layer_idx) then Ok true
  else
    range ← get_layer_shard_range (shard_rank st) (shard_size st) (total_layers st);
    mret ((range.1 <=? local_index st layer_idx) && (local_index st layer_idx <? range.2)).

Definition owner_of (st : LayerSplitState) (layer_idx : Z) : result Z :=
  if negb (covers st layer_idx) then Ok (shard_rank st)
  else get_layer_owner (local_index st layer_idx) (shard_size st) (total_layers st).

(** ** Packed slots *)

(** [{idx for idx in layer_indices if 0 <= idx < total_layers}] *)
Definition backbone_of (layer_indices : list Z) (total : Z) : gset Z :=
  filter (fun i => 0 <= i < total) (list_to_set layer_indices).

Definition extras_of (layer_indices : list Z) (total : Z) : gset Z :=
  filter (fun i => total <= i) (list_to_set layer_indices).

(** [sum(1 for idx in layer_indices if start <= idx < end)] *)
Definition count_in (layer_indices : gset Z) (range : Z * Z) : Z :=
  Z.of_nat (size (filter (fun i => range.1 <= i < range.2) layer_indices)).

Fixpoint max_owned_loop (ranks : list Z) (layer_indices : gset Z) (total shards max_owned : Z)
    : result Z :=
  match ranks with
  | [] => Ok max_owned
  | rank :: ranks' =>
      range ← get_layer_shard_range rank shards total;
      let owned := count_in layer_indices range in
      max_owned_loop ranks' layer_indices total shards
        (if max_owned <? owned then owned else max_owned)
  end.

Definition max_owned_count_for_layers (layer_indices : gset Z) (total shards : Z) : result Z :=
  if bool_decide (layer_indices = ∅) || (shards <=? 1)
  then Ok (Z.of_nat (size layer_indices))
  else max_owned_loop (zrange 0 shards) layer_indices total shards 0.

Definition phys_slots_for_layer_family (layer_indices : list Z) (total shards : Z) : result Z :=
  let backbone := backbone_of layer_indices total in
  let n_extra := zlen (filter (fun i => total <= i) layer_indices) in
  if bool_decide (backbone = ∅) || (shards <=? 1) then Ok (zlen layer_indices)
  else
    n ← max_owned_count_for_layers backbone total shards;
    mret (n + 1 + n_extra).

Definition local_packed_slot_for_layer (st : LayerSplitState) (layer_idx : Z) : result Z :=
  if negb (covers st layer_idx) then Err (Exn ValueError "layer_idx is outside backbone")
  else
    let scratch := effective_num_layers (total_layers st) (shard_size st) - 1 in
    owned ← is_owned st layer_idx;
    if negb owned then mret scratch
    else
      range ← get_layer_shard_range (shard_rank st) (shard_size st) (total_layers st);
      mret (local_index st layer_idx - range.1).

(** [sorted(s)] *)
Definition sorted_set (s : gset Z) : list Z := merge_sort Z.le (elements s).

(** [l.index(x)] *)
Fixpoint index_from (i : Z) (l : list Z) (x : Z) : option Z :=
  match l with
  | [] => None
  | y :: l' => if y =? x then Some i else index_from (i + 1) l' x
  end.
Definition list_index (l : list Z) (x : Z) (msg : string) : result Z :=
  match index_from 0 l x with
  | Some i => Ok i
  | None => Err (Exn ValueError msg)
  end.

Definition local_packed_slot_for_family_layer (st : LayerSplitState) (layer_idx : Z)
    (family_layer_indices : list Z) : result Z :=
  let backbone := backbone_of family_layer_indices (total_layers st) in
  let extras := sorted_set (extras_of family_layer_indices (total_layers st)) in
  if bool_decide (backbone = ∅) || (shard_size st <=? 1)
  then list_index family_layer_indices layer_idx "layer_idx not in family"
  else
    max_owned ← max_owned_count_for_layers backbone (total_layers st) (shard_size st);
    let scratch := max_owned in
    if total_layers st <=? layer_idx then
      i ← list_index extras layer_idx "extra layer_idx not in family extras";
      mret (scratch + 1 + i)
    else if bool_decide (layer_idx ∉ backbone)
    then Err (Exn ValueError "layer_idx not in family backbone")
    else
      owned ← is_owned st layer_idx;
      if negb owned then mret scratch
      else
        range ← get_layer_shard_range (shard_rank st) (shard_size st) (total_layers st);
        list_index (filter (fun i => range.1 <= i < range.2) (sorted_set backbone)) layer_idx
          "layer_idx is not in list".
End LayerSplit.
