(* ===== verification/LayerSplitCorrect.v ===== *)
(** * Correctness of the layer ownership and the packed slots *)

From S2P Require Import Prelude PyString Tensors LayerSplit.
From stdpp Require Import sorting.
Import LayerSplit.
Local Open Scope Z_scope.

(** ** Ranges *)

Section ranges.
Context (size total : Z).
Hypothesis Hsize : 0 < size.
Hypothesis Htotal : 0 <= total.

(** The first layer of rank [r]; that of rank [size] is the number of layers. *)
Definition lo (r : Z) : Z := r * (total / size) + Z.min r (total mod size).

Lemma range_lo r :
  0 <= r < size -> get_layer_shard_range r size total = Ok (lo r, lo (r + 1)).
Proof.
  intros Hr. unfold get_layer_shard_range, lo.
  destruct (Z.leb_spec size 0); [lia|]. destruct (Z.ltb_spec total 0); [lia|].
  destruct (Z.leb_spec 0 r); [|lia]. destruct (Z.ltb_spec r size); [|lia]. simpl.
  destruct (Z.ltb_spec r (total mod size)); do 2 f_equal; lia.
Qed.

Lemma lo_0 : lo 0 = 0.
Proof. unfold lo. pose proof (Z.mod_pos_bound total size). lia. Qed.

Lemma lo_size : lo size = total.
Proof.
  unfold lo. pose proof (Z.mod_pos_bound total size). pose proof (Z.div_mod total size). lia.
Qed.

(** Ranks own as many layers as each other, or one more. *)
Lemma lo_step r : 0 <= r -> total / size <= lo (r + 1) - lo r <= total / size + 1.
Proof. intros. unfold lo. lia. Qed.

Lemma base_nonneg : 0 <= total / size.
Proof. apply Z.div_pos; lia. Qed.

Lemma lo_mono r r' : 0 <= r <= r' -> lo r <= lo r'.
Proof.
  intros. pose proof base_nonneg as Hb. unfold lo.
  set (b := total / size) in *. set (m := total mod size). clearbody b m. nia.
Qed.

Lemma lo_covers idx (n : nat) :
  lo 0 <= idx < lo (Z.of_nat n) -> exists r, 0 <= r < Z.of_nat n /\ lo r <= idx < lo (r + 1).
Proof.
  induction n as [|n IH]; intros Hi; [exfalso; change (Z.of_nat 0) with 0 in Hi; lia|].
  destruct (Z.lt_ge_cases idx (lo (Z.of_nat n))) as [Hlt|Hge].
  - destruct IH as (r & ? & ?); [lia|]. exists r. lia.
  - exists (Z.of_nat n). replace (Z.of_nat n + 1) with (Z.of_nat (S n)) by lia. lia.
Qed.

Lemma lo_unique idx r r' :
  0 <= r -> 0 <= r' -> lo r <= idx < lo (r + 1) -> lo r' <= idx < lo (r' + 1) -> r = r'.
Proof.
  intros Hr Hr' H1 H2. destruct (Z.lt_trichotomy r r') as [Hlt|[?|Hlt]]; [|done|].
  - pose proof (lo_mono (r + 1) r'). lia.
  - pose proof (lo_mono (r' + 1) r). lia.
Qed.

Lemma rank_exists idx : 0 <= idx < total -> exists r, 0 <= r < size /\ lo r <= idx < lo (r + 1).
Proof.
  intros Hi. destruct (lo_covers idx (Z.to_nat size)) as (r & ? & ?).
  - rewrite Z2Nat.id, lo_0, lo_size by lia. done.
  - exists r. lia.
Qed.

Lemma find_owner_spec idx r ranks :
  0 <= r < size -> lo r <= idx < lo (r + 1) -> Forall (fun k => 0 <= k < size) ranks ->
  find_owner ranks idx size total = Ok (if bool_decide (r ∈ ranks) then Some r else None).
Proof.
  intros Hr Hi. induction 1 as [|k ranks Hk _ IH]; [done|]. simpl.
  rewrite range_lo by done. simpl. rewrite IH.
  destruct ((lo k <=? idx) && (idx <? lo (k + 1))) eqn:E; bool_prop.
  - assert (k = r) as -> by (apply (lo_unique idx); lia).
    rewrite bool_decide_eq_true_2; [done|by left].
  - assert (k <> r) as Hne.
    { intros ->. apply andb_false_iff in E as [E|E]; bool_prop; lia. }
    f_equal. destruct (decide (r ∈ ranks)).
    + rewrite !bool_decide_eq_true_2; [done|by right|done].
    + rewrite !bool_decide_eq_false_2; [done| |done]. set_solver.
Qed.

Lemma owner_spec idx r :
  0 <= idx < total -> 0 <= r < size ->
  get_layer_owner idx size total = Ok r <-> lo r <= idx < lo (r + 1).
Proof.
  intros Hi Hr. destruct (rank_exists idx Hi) as (r0 & Hr0 & Hlo).
  assert (get_layer_owner idx size total = Ok r0) as ->.
  { unfold get_layer_owner. destruct (Z.leb_spec 0 idx); [|lia].
    destruct (Z.ltb_spec idx total); [|lia]. simpl.
    rewrite (find_owner_spec idx r0) by (done || (apply Forall_forall; intros k Hk%elem_zrange; lia)).
    rewrite bool_decide_eq_true_2; [done|]. apply elem_zrange. lia. }
  split; [by intros [= <-]|]. intros H. f_equal. apply (lo_unique idx); lia.
Qed.

Lemma owner_exists idx : 0 <= idx < total ->
  exists r, get_layer_owner idx size total = Ok r /\ 0 <= r < size /\ lo r <= idx < lo (r + 1).
Proof.
  intros Hi. destruct (rank_exists idx Hi) as (r & Hr & Hlo).
  exists r. split; [by apply owner_spec|done].
Qed.
End ranges.

Lemma ceil_div b a :
  0 < b -> (a + b - 1) / b = a / b + (if a mod b =? 0 then 0 else 1).
Proof.
  intros Hb. pose proof (Z.div_mod a b ltac:(lia)) as E. pose proof (Z.mod_pos_bound a b Hb).
  set (q := a / b) in *. set (m := a mod b) in *. clearbody q m. subst a. symmetry.
  destruct (Z.eqb_spec m 0) as [->|].
  - apply Z.div_unique with (b - 1); lia.
  - apply Z.div_unique with (m - 1); lia.
Qed.

(** Every layer has exactly one owning rank.  [get_layer_owner] returns it,
    every rank's own ownership test agrees with it, and the ranges the ranks
    own differ by at most one layer and fit in the slots set aside for owned
    layers. *)
Theorem layers_partitioned size total idx :
  0 < size -> 0 <= idx < total ->
  exists owner,
    get_layer_owner idx size total = Ok owner /\ 0 <= owner < size /\
    (forall r, 0 <= r < size ->
       is_owned (SplitState r size total 0) idx = Ok (bool_decide (r = owner)) /\
       owner_of (SplitState r size total 0) idx = Ok owner) /\
    (forall r, 0 <= r < size -> exists a b, get_layer_shard_range r size total = Ok (a, b) /\
       total / size <= b - a <= total / size + 1 /\
       (1 < size -> b - a <= effective_num_layers total size - 1)).
Proof.
  intros Hs Hi. destruct (owner_exists size total Hs ltac:(lia) idx Hi) as (o & Ho & Hor & Hlo).
  exists o. split; [done|]. split; [done|].
  assert (covers (SplitState 0 size total 0) idx = true) as Hcov.
  { unfold covers, local_index. simpl. rewrite Z.sub_0_r. apply andb_true_iff.
    rewrite Z.leb_le, Z.ltb_lt. lia. }
  split; intros r Hr.
  - unfold is_owned, owner_of. change (covers (SplitState r size total 0) idx)
      with (covers (SplitState 0 size total 0) idx). rewrite Hcov. simpl.
    unfold local_index. simpl. rewrite Z.sub_0_r. split; [|done].
    rewrite range_lo by lia. simpl. f_equal.
    destruct (decide (r = o)) as [->|Hne].
    + rewrite bool_decide_eq_true_2 by done. apply andb_true_iff. rewrite Z.leb_le, Z.ltb_lt. lia.
    + rewrite bool_decide_eq_false_2 by done. apply andb_false_iff. rewrite Z.leb_gt, Z.ltb_ge.
      destruct (Z.le_gt_cases (lo size total r) idx), (Z.lt_ge_cases idx (lo size total (r + 1)));
        try lia. destruct Hne. apply (lo_unique size total Hs ltac:(lia) idx); lia.
  - exists (lo size total r), (lo size total (r + 1)). split; [apply range_lo; lia|].
    pose proof (lo_step size total r ltac:(lia)) as Hb. split; [done|]. intros H1.
    unfold effective_num_layers. destruct (Z.leb_spec size 1); [lia|].
    rewrite (ceil_div size total Hs). unfold lo.
    destruct (Z.eqb_spec (total mod size) 0) as [Hm|Hm]; [rewrite Hm|];
      set (b := total / size) in *; clearbody b; nia.
Qed.

(** ** Slots of a page-size family *)

Lemma index_from_Some i l x k : index_from i l x = Some k -> i <= k /\ zget l (k - i) = Some x.
Proof.
  revert i. induction l as [|y l IH]; intros i; simpl; [done|].
  destruct (Z.eqb_spec y x) as [->|Hne].
  - intros [= <-]. split; [lia|]. by rewrite Z.sub_diag.
  - intros [Hle Hg]%IH. split; [lia|]. unfold zget in *.
    destruct (Z.ltb_spec (k - (i + 1)) 0); [lia|]. destruct (Z.ltb_spec (k - i) 0); [lia|].
    replace (Z.to_nat (k - i)) with (S (Z.to_nat (k - (i + 1)))) by lia. done.
Qed.

Lemma index_from_elem i l x : x ∈ l -> exists k, index_from i l x = Some k.
Proof.
  revert i. induction l as [|y l IH]; intros i; simpl; [by intros ?%not_elem_of_nil|].
  intros [->|Hin]%elem_of_cons; [rewrite Z.eqb_refl; eauto|].
  destruct (y =? x); [eauto|]. by apply IH.
Qed.

Lemma list_index_ok l x msg : x ∈ l -> exists k, list_index l x msg = Ok k /\ 0 <= k < zlen l.
Proof.
  intros Hin. unfold list_index. destruct (index_from_elem 0 l x Hin) as [k E]. rewrite E.
  exists k. split; [done|]. apply index_from_Some in E as [_ E]. apply zget_Some in E. lia.
Qed.

Lemma list_index_inj l x y msg msg' k :
  list_index l x msg = Ok k -> list_index l y msg' = Ok k -> x = y.
Proof.
  unfold list_index. destruct (index_from 0 l x) eqn:Ex; [|done].
  destruct (index_from 0 l y) eqn:Ey; [|done]. intros [= ->] [= ->].
  apply index_from_Some in Ex as [_ Ex], Ey as [_ Ey]. congruence.
Qed.

Lemma sorted_set_perm s : sorted_set s ≡ₚ elements s.
Proof. apply merge_sort_Permutation. Qed.

Lemma elem_sorted_set s x : x ∈ sorted_set s <-> x ∈ s.
Proof. by rewrite sorted_set_perm, elem_of_elements. Qed.

Lemma sorted_set_filter_length (P : Z -> Prop) `{forall x, Decision (P x)} s :
  zlen (filter P (sorted_set s)) = Z.of_nat (size (filter P s)).
Proof.
  unfold zlen. f_equal. rewrite (sorted_set_perm s). unfold size, set_size. simpl.
  apply Permutation_length, NoDup_Permutation.
  - apply NoDup_filter, NoDup_elements.
  - apply NoDup_elements.
  - intros x. rewrite list_elem_of_filter, elem_of_elements, elem_of_elements, elem_of_filter. done.
Qed.

Lemma size_list_to_set_le (l : list Z) : (size (list_to_set l : gset Z) <= length l)%nat.
Proof.
  unfold size, set_size. simpl. apply submseteq_length, NoDup_submseteq; [apply NoDup_elements|].
  intros x. by rewrite elem_of_elements, elem_of_list_to_set.
Qed.

Lemma elem_backbone fam total idx : idx ∈ backbone_of fam total <-> idx ∈ fam /\ 0 <= idx < total.
Proof. unfold backbone_of. rewrite elem_of_filter, elem_of_list_to_set. tauto. Qed.
Lemma elem_extras fam total idx : idx ∈ extras_of fam total <-> idx ∈ fam /\ total <= idx.
Proof. unfold extras_of. rewrite elem_of_filter, elem_of_list_to_set. tauto. Qed.

Lemma max_owned_loop_ge ranks b total shards m n :
  max_owned_loop ranks b total shards m = Ok n -> m <= n.
Proof.
  revert m. induction ranks as [|r ranks IH]; intros m; simpl; [by intros [= ->]|].
  destruct (get_layer_shard_range r shards total) as [rg|]; [|done]. simpl.
  intros Hn%IH. case_match; bool_prop; lia.
Qed.

Lemma phys_slots_nonneg fam total shards n :
  phys_slots_for_layer_family fam total shards = Ok n -> 0 <= n.
Proof.
  unfold phys_slots_for_layer_family, max_owned_count_for_layers.
  destruct (_ || (shards <=? 1)); [intros [= <-]; apply zlen_nonneg|].
  destruct (max_owned_loop _ _ _ _ _) as [mo|] eqn:E; [|done]. simpl. intros [= <-].
  apply max_owned_loop_ge in E. pose proof (zlen_nonneg (filter (fun i => total <= i) fam)). lia.
Qed.

Section slots.
Context (st : LayerSplitState).
Hypothesis Hsize : 1 < shard_size st.
Hypothesis Hrank : 0 <= shard_rank st < shard_size st.
Hypothesis Htotal : 0 <= total_layers st.
Hypothesis Hstart : start_layer st = 0.

(** Kept by this rank: a layer it owns, or a replicated one. *)
Definition resident (idx : Z) : bool :=
  match is_owned st idx with Ok b => b | Err _ => false end.

Lemma is_owned_ok idx : is_owned st idx = Ok (resident idx).
Proof.
  unfold resident, is_owned. case_match; [done|]. by rewrite range_lo by lia.
Qed.

Lemma resident_extra idx : total_layers st <= idx -> resident idx = true.
Proof.
  intros Hi. unfold resident, is_owned, covers, local_index. rewrite Hstart, Z.sub_0_r.
  destruct (Z.ltb_spec idx (total_layers st)); [lia|]. by rewrite andb_false_r.
Qed.

Lemma resident_backbone idx : 0 <= idx < total_layers st ->
  resident idx = true <->
  lo (shard_size st) (total_layers st) (shard_rank st) <= idx <
    lo (shard_size st) (total_layers st) (shard_rank st + 1).
Proof.
  intros Hi. unfold resident, is_owned, covers, local_index. rewrite Hstart, Z.sub_0_r.
  destruct (Z.leb_spec 0 idx); [|lia]. destruct (Z.ltb_spec idx (total_layers st)); [|lia].
  simpl. rewrite range_lo by lia. simpl. rewrite andb_true_iff, Z.leb_le, Z.ltb_lt. done.
Qed.

Lemma max_owned_loop_ok ranks b m :
  Forall (fun r => 0 <= r < shard_size st) ranks ->
  exists n, max_owned_loop ranks b (total_layers st) (shard_size st) m = Ok n /\ m <= n /\
    forall r, r ∈ ranks ->
      count_in b (lo (shard_size st) (total_layers st) r, lo (shard_size st) (total_layers st) (r + 1)) <= n.
Proof.
  intros Hr. revert m. induction Hr as [|r ranks Hr _ IH]; intros m; simpl.
  { exists m. split; [done|]. split; [lia|]. by intros ? ?%not_elem_of_nil. }
  rewrite range_lo by lia. simpl.
  set (c := count_in b _). destruct (IH (if m <? c then c else m)) as (n & E & Hm & Hn).
  exists n. split; [done|]. split; [case_match; bool_prop; lia|].
  intros r' [->|Hin]%elem_of_cons; [|by apply Hn]. fold c. case_match; bool_prop; lia.
Qed.

Lemma max_owned_ok b :
  b <> ∅ ->
  exists n, max_owned_count_for_layers b (total_layers st) (shard_size st) = Ok n /\ 0 <= n /\
    count_in b (lo (shard_size st) (total_layers st) (shard_rank st),
                lo (shard_size st) (total_layers st) (shard_rank st + 1)) <= n.
Proof.
  intros Hb. unfold max_owned_count_for_layers. rewrite bool_decide_eq_false_2 by done.
  destruct (Z.leb_spec (shard_size st) 1); [lia|]. simpl.
  destruct (max_owned_loop_ok (zrange 0 (shard_size st)) b 0) as (n & E & H0 & Hn).
  { apply Forall_forall. intros r Hr%elem_zrange. lia. }
  exists n. split; [done|]. split; [done|]. apply Hn, elem_zrange. lia.
Qed.

Context (fam : list Z).
Hypothesis Hfam : Forall (Z.le 0) fam.

Abbreviation backbone := (backbone_of fam (total_layers st)).
Abbreviation extras := (extras_of fam (total_layers st)).
Abbreviation my_range := (lo (shard_size st) (total_layers st) (shard_rank st),
                      lo (shard_size st) (total_layers st) (shard_rank st + 1)).

(** Where a family with backbone layers keeps a layer: the owned ones first,
    then the scratch slot, then the replicated ones. *)
Inductive placed (mo idx : Z) : Z -> Prop :=
  | placed_owned s msg : 0 <= idx < total_layers st -> resident idx = true ->
      list_index (filter (fun i => my_range.1 <= i < my_range.2) (sorted_set backbone)) idx msg = Ok s ->
      0 <= s < mo -> placed mo idx s
  | placed_scratch : 0 <= idx < total_layers st -> resident idx = false -> placed mo idx mo
  | placed_extra i msg : total_layers st <= idx ->
      list_index (sorted_set extras) idx msg = Ok i -> 0 <= i < Z.of_nat (size extras) ->
      placed mo idx (mo + 1 + i).

Lemma slot_placed :
  backbone <> ∅ ->
  exists mo, max_owned_count_for_layers backbone (total_layers st) (shard_size st) = Ok mo /\
    0 <= mo /\ forall idx, idx ∈ fam -> exists s,
      local_packed_slot_for_family_layer st idx fam = Ok s /\ placed mo idx s.
Proof.
  intros Hb. destruct (max_owned_ok backbone Hb) as (mo & Hmo & H0 & Hc).
  exists mo. split; [done|]. split; [done|]. intros idx Hin.
  unfold local_packed_slot_for_family_layer. rewrite bool_decide_eq_false_2 by done.
  destruct (Z.leb_spec (shard_size st) 1); [lia|]. simpl. rewrite Hmo. simpl.
  assert (0 <= idx) as Hidx by (rewrite Forall_forall in Hfam; by apply Hfam).
  destruct (Z.leb_spec (total_layers st) idx) as [Hx|Hx].
  - destruct (list_index_ok (sorted_set extras) idx "extra layer_idx not in family extras")
      as (i & E & Hi); [by rewrite elem_sorted_set, elem_extras|].
    rewrite E. simpl. eexists. split; [done|]. eapply placed_extra; [done|exact E|].
    unfold zlen in Hi. rewrite (sorted_set_perm extras) in Hi. done.
  - assert (idx ∈ backbone) as Hbb by by rewrite elem_backbone.
    rewrite bool_decide_eq_false_2 by (by intros ?). rewrite is_owned_ok. simpl.
    destruct (resident idx) eqn:Hres; simpl; [|eexists; split; [done|by constructor]].
    rewrite range_lo by lia. simpl.
    destruct (list_index_ok (filter (fun i => my_range.1 <= i < my_range.2) (sorted_set backbone)) idx
      "layer_idx is not in list") as (s & E & Hs).
    { rewrite list_elem_of_filter, elem_sorted_set. split; [|done]. by apply resident_backbone. }
    exists s. split; [exact E|]. eapply placed_owned; [done..|exact E|].
    rewrite sorted_set_filter_length in Hs. unfold count_in in Hc. simpl in *. lia.
Qed.

Lemma placed_inj mo i j s :
  placed mo i s -> placed mo j s -> resident i = true -> i = j.
Proof.
  intros Hi Hj Hr. destruct Hi as [s msg Hi Hri Ei Hs|Hi Hri|k msg Hi Ei Hk];
    inversion Hj as [s' msg' Hj' Hrj Ej Hs'|Hj' Hrj|k' msg' Hj' Ej Hk']; subst; try congruence; try lia.
  - by eapply list_index_inj.
  - assert (k' = k) by lia. subst. by eapply list_index_inj.
Qed.

Lemma phys_slots_ok mo :
  backbone <> ∅ -> max_owned_count_for_layers backbone (total_layers st) (shard_size st) = Ok mo ->
  exists n, phys_slots_for_layer_family fam (total_layers st) (shard_size st) = Ok n /\
    mo + 1 + Z.of_nat (size extras) <= n.
Proof.
  intros Hb Hmo. unfold phys_slots_for_layer_family. rewrite bool_decide_eq_false_2 by done.
  destruct (Z.leb_spec (shard_size st) 1); [lia|]. simpl. rewrite Hmo. simpl.
  eexists. split; [done|]. unfold zlen.
  assert (extras = list_to_set (filter (fun i => total_layers st <= i) fam)) as ->.
  { apply set_eq. intros x. rewrite elem_extras, elem_of_list_to_set, list_elem_of_filter. tauto. }
  pose proof (size_list_to_set_le (filter (fun i => total_layers st <= i) fam)). lia.
Qed.
End slots.

(** The slots of a family on one rank. *)
Lemma family_slots_safe st fam :
  1 < shard_size st -> 0 <= shard_rank st < shard_size st -> 0 <= total_layers st ->
  start_layer st = 0 -> Forall (Z.le 0) fam ->
  exists n, phys_slots_for_layer_family fam (total_layers st) (shard_size st) = Ok n /\
    (forall idx, idx ∈ fam -> exists s,
       local_packed_slot_for_family_layer st idx fam = Ok s /\ 0 <= s < n) /\
    (forall i j si sj, i ∈ fam -> j ∈ fam -> i <> j ->
       local_packed_slot_for_family_layer st i fam = Ok si ->
       local_packed_slot_for_family_layer st j fam = Ok sj ->
       if resident st i || resident st j then si <> sj else si = sj).
Proof.
  intros Hsz Hrk Htot Hst Hfam.
  destruct (decide (backbone_of fam (total_layers st) = ∅)) as [Hb|Hb].
  - exists (zlen fam). unfold phys_slots_for_layer_family, local_packed_slot_for_family_layer.
    rewrite bool_decide_eq_true_2 by done. simpl. split; [done|]. split.
    + intros idx Hin. by apply list_index_ok.
    + intros i j si sj Hi Hj Hne Ei Ej.
      assert (total_layers st <= i) as Hx.
      { destruct (Z.le_gt_cases (total_layers st) i); [done|]. exfalso.
        assert (i ∈ backbone_of fam (total_layers st)); [|set_solver].
        rewrite elem_backbone. split; [done|]. rewrite Forall_forall in Hfam. specialize (Hfam i Hi). lia. }
      rewrite (resident_extra st Hst i Hx). simpl. intros ->. by destruct Hne; eapply list_index_inj.
  - destruct (slot_placed st Hsz Hrk Htot Hst fam Hfam Hb) as (mo & Hmo & H0 & Hpl).
    edestruct (phys_slots_ok st) as (n & Hn & Hle); [done..|].
    exists n. split; [done|]. split.
    + intros idx Hin. destruct (Hpl idx Hin) as (s & E & Hp). exists s. split; [done|].
      destruct Hp; lia.
    + intros i j si sj Hi Hj Hne Ei Ej.
      destruct (Hpl i Hi) as (s & E & Hp), (Hpl j Hj) as (s' & E' & Hp').
      rewrite Ei in E. rewrite Ej in E'. injection E as <-. injection E' as <-.
      destruct (resident st i) eqn:Ri; simpl.
      * intros ->. apply Hne. by eapply placed_inj.
      * destruct (resident st j) eqn:Rj; [intros ->; apply Hne; symmetry; eapply placed_inj; done|].
        destruct Hp; [congruence| |rewrite resident_extra in Ri by done; done].
        destruct Hp'; [congruence|done|rewrite resident_extra in Rj by done; done].
Qed.

(** The slots of a page-size family are safe on every rank.  All ranks agree
    on the number of slots, and on each of them every layer of the family has a
    slot inside that number; a layer the rank keeps, owned or replicated, shares
    its slot with no other layer; and all the layers it does not own share the
    one scratch slot. *)
Theorem packed_slots_safe size total fam :
  1 < size -> 0 <= total -> Forall (Z.le 0) fam ->
  exists n, phys_slots_for_layer_family fam total size = Ok n /\
    forall rank, 0 <= rank < size ->
      let st := SplitState rank size total 0 in
      (forall idx, idx ∈ fam -> exists s,
         local_packed_slot_for_family_layer st idx fam = Ok s /\ 0 <= s < n) /\
      (forall i j si sj, i ∈ fam -> j ∈ fam -> i <> j ->
         local_packed_slot_for_family_layer st i fam = Ok si ->
         local_packed_slot_for_family_layer st j fam = Ok sj ->
         if resident st i || resident st j then si <> sj else si = sj).
Proof.
  intros Hsz Htot Hfam.
  destruct (family_slots_safe (SplitState 0 size total 0) fam) as (n & Hn & _); simpl; [lia..|done|done|].
  exists n. split; [exact Hn|]. intros rank Hrank.
  destruct (family_slots_safe (SplitState rank size total 0) fam) as (n' & Hn' & H1 & H2);
    simpl; [lia..|done|done|].
  simpl in Hn, Hn'. rewrite Hn in Hn'. injection Hn' as <-. split; [exact H1|exact H2].
Qed.

(** ** Concrete plans *)

Lemma layers_partitioned_witness :
  get_layer_owner 2 3 7 = Ok 0 /\ owner_of (SplitState 2 3 7 0) 2 = Ok 0 /\
  is_owned (SplitState 2 3 7 0) 2 = Ok false.
Proof.
  destruct (layers_partitioned 3 7 2 ltac:(lia) ltac:(lia)) as (o & H1 & _ & H2 & _).
  destruct (H2 2 ltac:(lia)) as [H3 H4]. vm_compute in H1. injection H1 as <-.
  split; [reflexivity|]. split; [exact H4|exact H3].
Defined.

Lemma packed_slots_safe_witness :
  exists n s, phys_slots_for_layer_family [0; 1; 2; 3; 4; 7] 5 2 = Ok n /\
    local_packed_slot_for_family_layer (SplitState 1 2 5 0) 3 [0; 1; 2; 3; 4; 7] = Ok s /\
    0 <= s < n.
Proof.
  destruct (packed_slots_safe 2 5 [0; 1; 2; 3; 4; 7]) as (n & H1 & Hr);
    [lia..|repeat constructor; lia|]. destruct (Hr 1 ltac:(lia)) as [H2 _].
  destruct (H2 3) as (s & H3 & H4); [set_solver|].
  exists n, s. split; [exact H1|]. split; [exact H3|exact H4].
Defined.
