(* ===== verification/LayerSplitConfig.v ===== *)
(** * When the DSA layer split is allowed

    Models the configuration half of src/vllm_hcu/v1/dsa_cache_layer_split.py:
    the capability test, the start-up validation and the resolution of a
    process's layer-split state.  A configuration is the record of the
    attributes the code reads; an absent attribute is [None].  The value of
    [get_hcu_config(...).enable_dsa_cache_layer_split] is the field
    [requested]. *)

From S2P Require Import Prelude PyString Tensors LayerSplit LayerSplitCorrect.
Local Open Scope Z_scope.

Module SplitConfig.
Import LayerSplit.

Record hf_config := HfConfig {
  index_topk : option Z;
  num_hidden_layers : option Z
}.

Record model_config := ModelConfig {
  architectures : list string;
  use_mla : option bool;
  model_hf_config : option hf_config;
  hf_text_config : option hf_config
}.

Record parallel_config := ParallelConfig {
  prefill_context_parallel_size : option Z;
  pipeline_parallel_size : option Z
}.

Record vllm_config := VllmConfig {
  requested : bool;
  parallel : option parallel_config;
  kv_role : option string;
  model : option model_config;
  cache_block_size : option Z
}.

Definition is_dsa_cache_layer_split_requested (cfg : option vllm_config) : bool :=
  match cfg with Some c => requested c | None => false end.

Definition DSA_LAYER_SPLIT_ARCHITECTURES : list string :=
  ["DeepseekV3ForCausalLM"; "DeepseekV32ForCausalLM"; "GlmMoeDsaForCausalLM";
   "HYV4ForCausalLM"]%string.

Definition DSA_ENV_OPT_OUT_ARCHITECTURES : list string :=
  ["DeepseekV3ForCausalLM"; "DeepseekV32ForCausalLM"; "GlmMoeDsaForCausalLM"]%string.

(** [_dsa_hf_config] *)
Definition dsa_hf_config (m : model_config) : option hf_config :=
  match model_hf_config m with Some hf => Some hf | None => hf_text_config m end.

Section environment.
(** The value of [VLLM_HCU_DISABLE_DSA] *)
Context (disable_env : option string).

(** [_dsa_disabled_by_environment] *)
Definition dsa_disabled_by_environment (architecture : option string) : bool :=
  match architecture with
  | Some a =>
      if bool_decide (a ∈ DSA_ENV_OPT_OUT_ARCHITECTURES)
      then bool_decide (lower (default "False"%string disable_env) ∈ ["1"; "true"; "yes"; "on"]%string)
      else false
  | None => bool_decide (lower (default "False"%string disable_env) ∈ ["1"; "true"; "yes"; "on"]%string)
  end.

Definition has_index_topk (m : model_config) : bool :=
  match dsa_hf_config m ≫= index_topk with Some _ => true | None => false end.

Definition is_hcu_dsa_mla_model (m : option model_config) : bool :=
  match m with
  | None => false
  | Some m =>
      match architectures m with
      | [] => false
      | a :: _ =>
          if negb (bool_decide (a ∈ DSA_LAYER_SPLIT_ARCHITECTURES)) then false
          else if dsa_disabled_by_environment (Some a) then false
          else if negb (bool_decide (use_mla m = Some true)) then false
          else has_index_topk m
      end
  end.

(** [_dsa_capability_error] *)
Definition dsa_capability_error (m : option model_config) : string :=
  match m with
  | None => "model_config is missing"
  | Some m =>
      let architecture := head (architectures m) in
      if negb (match architecture with
               | Some a => bool_decide (a ∈ DSA_LAYER_SPLIT_ARCHITECTURES)
               | None => false
               end) then "architecture must be one of"
      else if dsa_disabled_by_environment architecture then "VLLM_HCU_DISABLE_DSA is enabled"
      else if negb (bool_decide (use_mla m = Some true)) then "use_mla must be True"
      else if negb (has_index_topk m) then "hf_config.index_topk is missing"
      else "the HCU DSA runtime capability is unavailable"
  end.

(** [_require_pd_prefill_worker] *)
Definition require_pd_prefill_worker (c : vllm_config) : result unit :=
  if decide (kv_role c = Some "kv_producer"%string) then Ok tt
  else Err (Exn ValueError "only supported on a PD-disaggregated prefill worker").

(** [_require_unsplittable_manager_block] *)
Definition require_unsplittable_manager_block (c : vllm_config) : result unit :=
  match cache_block_size c with
  | None => Ok tt
  | Some bs =>
      if (64 <? bs) && (bs mod 64 =? 0)
      then Err (Exn ValueError "a manager block cannot be split into kernel blocks")
      else Ok tt
  end.

(** [_total_layers_from_config] *)
Definition total_layers_from_config (c : vllm_config) : option Z :=
  m ← model c; hf ← dsa_hf_config m; num_hidden_layers hf.

(** [int(getattr(..., 1) or 1)] *)
Definition or_one (z : option Z) : Z :=
  match z with Some z => if z =? 0 then 1 else z | None => 1 end.

Definition validate_dsa_cache_layer_split (c : vllm_config) : result unit :=
  if negb (is_dsa_cache_layer_split_requested (Some c)) then Ok tt
  else
    match parallel c with
    | None => Err (Exn ValueError "requires a parallel_config")
    | Some p =>
        let pcp := or_one (prefill_context_parallel_size p) in
        let pp := or_one (pipeline_parallel_size p) in
        if pcp <=? 1 then Err (Exn ValueError "requires prefill_context_parallel_size > 1")
        else if 1 <? pp then Err (Exn ValueError "does not support pipeline_parallel_size > 1")
        else
          _ ← require_pd_prefill_worker c;
          match model c with
          | None => Err (Exn ValueError "requires a model_config")
          | Some m =>
              if negb (is_hcu_dsa_mla_model (Some m))
              then Err (Exn ValueError (dsa_capability_error (Some m)))
              else
                match total_layers_from_config c with
                | Some total =>
                    if total <? pcp
                    then Err (Exn ValueError "requires prefill_context_parallel_size <= num_hidden_layers")
                    else require_unsplittable_manager_block c
                | None => require_unsplittable_manager_block c
                end
          end
    end.
End environment.

(** ** The runtime state *)

(** The process-wide cache of the state *)
Record runtime_cache := RuntimeCache {
  runtime_state : option LayerSplitState;
  runtime_installed : bool
}.

(** The first set and non-empty of the rank variables, as [int(raw)] *)
Fixpoint env_rank (values : list (option (result Z))) : result Z :=
  match values with
  | [] => Ok 0
  | Some r :: _ => r
  | None :: rest => env_rank rest
  end.

Section resolution.
(** [get_current_vllm_config_or_none()], the rank in the PCP group when there
    is one, and the rank variables *)
Context (current_config : option vllm_config).
Context (group_rank : option Z).
Context (rank_variables : list (option (result Z))).

Definition get_runtime_layer_split_state (rt : runtime_cache) (config : option vllm_config)
    (rank_arg size_arg layers_arg : option Z) : result (option LayerSplitState) :=
  match config, rank_arg, size_arg, layers_arg, runtime_installed rt with
  | None, None, None, None, true => Ok (runtime_state rt)
  | _, _, _, _, _ =>
      let cfg := match config with Some c => Some c | None => current_config end in
      if negb (is_dsa_cache_layer_split_requested cfg) then Ok None
      else
        let size := match size_arg with
                    | Some s => Some s
                    | None => c ← cfg; Some (or_one (parallel c ≫= prefill_context_parallel_size))
                    end in
        match size with
        | None => Ok None
        | Some size =>
            if size <=? 1 then Ok None
            else
              match (match layers_arg with Some l => Some l | None => cfg ≫= total_layers_from_config end) with
              | None => Ok None
              | Some layers =>
                  rank ← match rank_arg with
                         | Some r => Ok r
                         | None => match group_rank with
                                   | Some r => Ok r
                                   | None => env_rank rank_variables
                                   end
                         end;
                  mret (Some (SplitState rank size layers 0))
              end
        end
  end.

(** [install_runtime_layer_split_state], as far as the cached state goes: the
    flag is down while the state is resolved *)
Definition install_runtime_layer_split_state (rt : runtime_cache) (config : option vllm_config)
    : result (option LayerSplitState) * runtime_cache :=
  let rt := RuntimeCache (runtime_state rt) false in
  match get_runtime_layer_split_state rt config None None None with
  | Ok st => (Ok st, RuntimeCache st true)
  | Err e => (Err e, rt)
  end.

(** [should_commit_durable_dsa_cache] for a layer name that parses to an index *)
Definition should_commit_durable_dsa_cache (parse_layer_index : string -> result Z)
    (rt : runtime_cache) (layer_name : string) (config : option vllm_config)
    (rank_arg size_arg layers_arg : option Z) : result bool :=
  state ← get_runtime_layer_split_state rt config rank_arg size_arg layers_arg;
  match state with
  | None => Ok true
  | Some st => idx ← parse_layer_index layer_name; is_owned st idx
  end.
End resolution.
End SplitConfig.

Import LayerSplit SplitConfig.

(** ** What a validated configuration guarantees *)

Lemma validate_inv env c :
  requested c = true -> validate_dsa_cache_layer_split env c = Ok tt ->
  exists p m, parallel c = Some p /\ model c = Some m /\
    1 < or_one (prefill_context_parallel_size p) /\ or_one (pipeline_parallel_size p) <= 1 /\
    kv_role c = Some "kv_producer"%string /\ is_hcu_dsa_mla_model env (Some m) = true /\
    (forall total, total_layers_from_config c = Some total ->
       or_one (prefill_context_parallel_size p) <= total) /\
    (forall bs, cache_block_size c = Some bs -> bs <= 64 \/ bs mod 64 <> 0).
Proof.
  intros Hreq. unfold validate_dsa_cache_layer_split, is_dsa_cache_layer_split_requested.
  rewrite Hreq. cbn [negb].
  destruct (parallel c) as [p|]; [|done].
  destruct (Z.leb_spec (or_one (prefill_context_parallel_size p)) 1); [done|].
  destruct (Z.ltb_spec 1 (or_one (pipeline_parallel_size p))); [done|].
  unfold require_pd_prefill_worker. case_decide as Hrole; [|done].
  cbn [mbind result_bind]. destruct (model c) as [m|] eqn:Hm; [|done].
  destruct (is_hcu_dsa_mla_model env (Some m)) eqn:Hcap; [|done]. cbn [negb]. intros Hv.
  assert (require_unsplittable_manager_block c = Ok tt /\
    forall total, total_layers_from_config c = Some total ->
      or_one (prefill_context_parallel_size p) <= total) as [Hblk Htot].
  { destruct (total_layers_from_config c) as [total|]; [|by split].
    destruct (Z.ltb_spec total (or_one (prefill_context_parallel_size p))); [done|].
    split; [done|]. intros total' [= <-]. done. }
  exists p, m. split_and!; [done..|lia|done|done|done|].
  intros bs Hbs. unfold require_unsplittable_manager_block in Hblk. rewrite Hbs in Hblk.
  destruct (Z.ltb_spec 64 bs); [|by left]. simpl in Hblk.
  destruct (Z.eqb_spec (bs mod 64) 0); [done|by right].
Qed.

(** A refused model is refused for a stated reason. *)
Lemma capability_error_specific env m :
  is_hcu_dsa_mla_model env m = false <->
  dsa_capability_error env m <> "the HCU DSA runtime capability is unavailable"%string.
Proof.
  unfold is_hcu_dsa_mla_model, dsa_capability_error. destruct m as [m|]; [|split; congruence].
  destruct (architectures m) as [|a rest]; cbn [head negb]; [split; congruence|].
  destruct (bool_decide (a ∈ DSA_LAYER_SPLIT_ARCHITECTURES)), (dsa_disabled_by_environment env (Some a)),
    (bool_decide (use_mla m = Some true)), (has_index_topk m); cbn [negb]; split; congruence.
Qed.

Lemma or_one_pos z : 1 < or_one z -> exists n, z = Some n /\ or_one z = n.
Proof. unfold or_one. destruct z as [n|]; [|lia]. case_match; [lia|eauto]. Qed.

(** A configuration that asks for the layer split and passes validation
    gives every worker a usable state: the rank and size of its group, and
    the layers of the model split so that every rank of the group owns at
    least one; the state installed at start-up is the one later lookups
    without arguments return. *)
Theorem validated_split_usable env c current group_rank vars rt total r :
  requested c = true -> validate_dsa_cache_layer_split env c = Ok tt ->
  total_layers_from_config c = Some total -> group_rank = Some r ->
  (forall p, parallel c = Some p -> 0 <= r < or_one (prefill_context_parallel_size p)) ->
  exists st rt',
    install_runtime_layer_split_state current group_rank vars rt (Some c) = (Ok (Some st), rt') /\
    get_runtime_layer_split_state current group_rank vars rt' None None None None = Ok (Some st) /\
    shard_rank st = r /\ 1 < shard_size st /\ 0 <= shard_rank st < shard_size st /\
    total_layers st = total /\ start_layer st = 0 /\
    forall k, 0 <= k < shard_size st ->
      exists a b, get_layer_shard_range k (shard_size st) (total_layers st) = Ok (a, b) /\ a < b.
Proof.
  intros Hreq Hv Htot -> Hr. destruct (validate_inv env c Hreq Hv)
    as (p & m & Hp & Hm & Hpcp & _ & _ & _ & Hle & _).
  specialize (Hr p Hp). specialize (Hle total Htot).
  set (n := or_one (prefill_context_parallel_size p)) in *.
  exists (SplitState r n total 0), (RuntimeCache (Some (SplitState r n total 0)) true).
  split.
  { unfold install_runtime_layer_split_state, get_runtime_layer_split_state,
      is_dsa_cache_layer_split_requested. rewrite Hreq. cbn [negb].
    cbn [mbind option_bind]. rewrite Hp. cbn [mbind option_bind]. fold n.
    destruct (Z.leb_spec n 1); [lia|]. rewrite Htot. done. }
  split; [done|]. cbn [shard_rank shard_size total_layers start_layer]. split_and!; try done; try lia.
  intros k Hk. exists (lo n total k), (lo n total (k + 1)). split; [apply range_lo; lia|].
  pose proof (lo_step n total k ltac:(lia)). assert (1 <= total / n) by (apply Z.div_le_lower_bound; lia).
  lia.
Qed.

Definition demo_config : vllm_config :=
  VllmConfig true (Some (ParallelConfig (Some 2) None)) (Some "kv_producer"%string)
    (Some (ModelConfig ["DeepseekV32ForCausalLM"%string] (Some true)
             (Some (HfConfig (Some 2048) (Some 5))) None)) (Some 64).

Lemma validated_split_usable_witness :
  exists st rt',
    install_runtime_layer_split_state None (Some 1) [] (RuntimeCache None false) (Some demo_config)
      = (Ok (Some st), rt') /\ shard_rank st = 1 /\ total_layers st = 5.
Proof.
  destruct (validated_split_usable None demo_config None (Some 1) [] (RuntimeCache None false) 5 1)
    as (st & rt' & H1 & _ & H2 & _ & _ & H3 & _);
    [reflexivity|reflexivity|reflexivity|reflexivity| |].
  - intros p [= <-]. vm_compute. split; congruence.
  - exists st, rt'. split; [exact H1|]. split; [exact H2|exact H3].
Defined.
