(* ===== verification/LayerBroadcast.v ===== *)
(** * Owner broadcast of split DSA caches

    Models the runtime half of src/vllm_hcu/v1/dsa_cache_layer_split.py: the
    bookkeeping of which rows of which layer a rank's scratch slot holds, the
    owner's broadcasts, the prefetch, the two kinds of cache writes, and their
    call sites in patch_mla_attention.py and sparse_attn_indexer.py.

    The ranks of the group run the same calls in the same order, so the model
    steps the whole group: one bookkeeping state, which does not depend on the
    rank, and one memory per rank.  A cache family is one packed pool; its
    memory on a rank is a table of slots and blocks, and [place] says which
    slot a rank keeps a layer in.  A pool is laid out per page size, so that two
    kinds of caches (MLA and indexer) have slots of their own when their pages
    differ in size, as those of the supported models do; families are told
    apart here by the key of the broadcast.  Copies on the side stream wait for the work
    queued before them and readers wait for the copies, so an asynchronous
    broadcast moves its rows when it is enqueued. *)

From S2P Require Import Prelude PyString Tensors LayerSplit.
From stdpp Require Import pretty.
Local Open Scope Z_scope.

Module Broadcast.
Import LayerSplit.

(** ** State *)

(** [_FamilyRemoteState] *)
Record FamilyRemoteState := FamState {
  remote_layer_id : option Z;
  remote_block_ids : option (list Z);
  remote_full : bool;
  pending_remote_layer_id : option Z;
  pending_remote_block_ids : option (list Z);
  pending_remote_full : bool;
  pending_remote_broadcast : bool
}.

Definition fam0 : FamilyRemoteState := FamState None None false None None false false.

(** A cache tensor: the family part of its key (device, dtype, shape), its
    number of blocks and its number of elements. *)
Record cache := Cache {
  c_family : string;
  c_blocks : Z;
  c_numel : Z
}.

Section group.
Context `{TensorOps} {Row : Type}.

(** The slot a rank keeps a layer of a family in. *)
Context (place : Z -> string -> Z -> Z).

(** Rank, family, slot, block. *)
Definition memory : Type := Z -> string -> Z -> Z -> Row.

Record group := Group {
  g_mem : memory;
  g_active_ids : option (list Z);
  g_active_range : option (Z * Z);
  g_families : dict string FamilyRemoteState;
  g_registry : dict Z (dict string cache);
  g_comm : bool    (** the dedicated communicator and stream exist *)
}.

Definition set_families (f : dict string FamilyRemoteState) (g : group) : group :=
  Group (g_mem g) (g_active_ids g) (g_active_range g) f (g_registry g) (g_comm g).
Definition set_mem (m : memory) (g : group) : group :=
  Group m (g_active_ids g) (g_active_range g) (g_families g) (g_registry g) (g_comm g).

(** ** Families *)

(** [_family_kind] *)
Definition family_kind (layer_name : string) : string :=
  if contains "indexer" (lower layer_name) || contains "index_k" (lower layer_name)
  then "indexer" else "mla".

(** [_family_key] *)
Definition family_key (c : cache) (layer_name : string) : string :=
  String.append (family_kind layer_name) (String.append "|" (c_family c)).

(** [_family_state]: the state of the key, created when missing *)
Definition family_state (g : group) (key : string) : FamilyRemoteState :=
  default fam0 (dget (g_families g) key).

Definition put_family (key : string) (f : FamilyRemoteState) (g : group) : group :=
  set_families (dset (g_families g) key f) g.

(** ** Bookkeeping *)

(** [_record_remote_selection] *)
Definition record_remote_selection (f : FamilyRemoteState) (layer_idx : Z)
    (block_ids : option (list Z)) (full : bool) : FamilyRemoteState :=
  let same := bool_decide (remote_layer_id f = Some layer_idx) in
  let known := if same then remote_block_ids f else None in
  let set ids full' := FamState (Some layer_idx) ids full' (pending_remote_layer_id f)
    (pending_remote_block_ids f) (pending_remote_full f) (pending_remote_broadcast f) in
  if full then set None true
  else
    match block_ids with
    | None | Some [] => set known false
    | Some ids =>
        match known with
        | None => set (Some ids) false
        | Some k => set (Some (unique (k ++ ids))) false
        end
    end.

(** [_finalize_pending_broadcast] *)
Definition finalize_pending_broadcast (f : FamilyRemoteState) (set_remote_layer_id : bool)
    : FamilyRemoteState :=
  if negb (pending_remote_broadcast f) then f
  else
    let f1 := FamState (remote_layer_id f) (remote_block_ids f) (remote_full f)
                (pending_remote_layer_id f) (pending_remote_block_ids f)
                (pending_remote_full f) false in
    let f2 := match set_remote_layer_id, pending_remote_layer_id f with
              | true, Some l =>
                  record_remote_selection f1 l (pending_remote_block_ids f) (pending_remote_full f)
              | _, _ => f1
              end in
    FamState (remote_layer_id f2) (remote_block_ids f2) (remote_full f2) None None false false.

(** One family of [_invalidate_remote_broadcast_state] *)
Definition invalidate_family (active_ids : option (list Z)) (f : FamilyRemoteState)
    : FamilyRemoteState :=
  let f := if pending_remote_broadcast f then finalize_pending_broadcast f true else f in
  let set ids := FamState (remote_layer_id f) ids (remote_full f) (pending_remote_layer_id f)
    (pending_remote_block_ids f) (pending_remote_full f) (pending_remote_broadcast f) in
  match active_ids with
  | None => if negb (remote_full f) then set None else f
  | Some active =>
      if remote_full f then f
      else match remote_block_ids f with
           | None => f
           | Some known => set (Some (filter (fun b => b ∈ active) known))
           end
  end.

Definition invalidate_remote_broadcast_state (active_ids : option (list Z)) (g : group) : group :=
  set_families (map (fun '(k, f) => (k, invalidate_family active_ids f)) (g_families g)) g.

(** [set_active_dsa_broadcast_block_ids]; the argument is the flat tensor *)
Definition set_active_dsa_broadcast_block_ids (block_ids : option (list Z)) (g : group) : group :=
  let ids := match block_ids with
             | None | Some [] => None
             | Some l => Some (unique l)
             end in
  let g := if decide (g_active_ids g = ids) then g
           else invalidate_remote_broadcast_state ids g in
  Group (g_mem g) ids
    (match ids with
     | Some (first :: rest) => Some (first, List.last rest first)
     | _ => None
     end) (g_families g) (g_registry g) (g_comm g).

(** [set_active_dsa_broadcast_block_ids_from_tables] *)
Definition set_active_from_tables (sparse_enabled : bool) (block_tables : list (list Z)) (g : group)
    : group :=
  if negb sparse_enabled then set_active_dsa_broadcast_block_ids None g
  else match block_tables with
       | [] => set_active_dsa_broadcast_block_ids None g
       | _ => set_active_dsa_broadcast_block_ids (Some (concat block_tables)) g
       end.

Context (sparse_enabled : bool).

(** [_active_block_ids_for] *)
Definition active_block_ids_for (g : group) (c : cache) : option (list Z) :=
  if negb sparse_enabled then None
  else
    match g_active_ids g, g_active_range g with
    | Some ids, Some (first, last) =>
        if (zlen ids =? 0) || (c_blocks c <=? 0) then None
        else if (first <? 0) || (c_blocks c <=? last) then None
        else if c_blocks c <=? zlen ids then None
        else Some ids
    | _, _ => None
    end.

(** [_prepare_remote_selection]: the ids, whether the whole pool, whether a
    collective is needed, and the updated state *)
Definition prepare_remote_selection (g : group) (c : cache) (layer_idx : Z) (f : FamilyRemoteState)
    : option (list Z) * bool * bool * FamilyRemoteState :=
  let f := if decide (remote_layer_id f = Some layer_idx) then f
           else FamState (remote_layer_id f) None false (pending_remote_layer_id f)
                  (pending_remote_block_ids f) (pending_remote_full f) (pending_remote_broadcast f) in
  match active_block_ids_for g c with
  | None => (None, true, negb (remote_full f), f)
  | Some block_ids =>
      if remote_full f then (Some block_ids, false, false, f)
      else
        let needed := match remote_block_ids f with
                      | None | Some [] => block_ids
                      | Some known => filter (fun b => b ∉ known) block_ids
                      end in
        (Some needed, false, negb (zlen needed =? 0), f)
  end.

(** ** Broadcasts *)

(** The owner's rows arrive in the slot every other rank keeps the layer in. *)
Definition copy_rows (m : memory) (key : string) (layer_idx owner : Z) (rows : Z -> bool) : memory :=
  fun r k s b =>
    if bool_decide (k = key /\ r <> owner /\ s = place r key layer_idx) && rows b
    then m owner key (place owner key layer_idx) b
    else m r k s b.

(** The data movement of [_broadcast_tensor_from_owner] and its asynchronous
    form: the selected rows, or the whole pool *)
Definition move_rows (c : cache) (key : string) (layer_idx owner : Z)
    (block_ids : option (list Z)) (m : memory) : memory :=
  copy_rows m key layer_idx owner
    (match block_ids with
     | Some ids => fun b => bool_decide (b ∈ ids)
     | None => fun b => (0 <=? b) && (b <? c_blocks c)
     end).

(** [_broadcast_tensor_from_owner] *)
Definition broadcast_tensor_from_owner (c : cache) (key : string) (layer_idx owner : Z) (g : group)
    : group :=
  let '(block_ids, full, needs_collective, f) :=
    prepare_remote_selection g c layer_idx (family_state g key) in
  let g' := put_family key (record_remote_selection f layer_idx block_ids full) g in
  if needs_collective then set_mem (move_rows c key layer_idx owner block_ids (g_mem g)) g'
  else g'.

(** [_broadcast_tensor_from_owner_async] *)
Definition broadcast_tensor_from_owner_async (c : cache) (key : string) (layer_idx owner : Z)
    (g : group) : bool * group :=
  if negb (g_comm g) then (false, g)
  else
    let '(block_ids, full, needs_collective, f) :=
      prepare_remote_selection g c layer_idx (family_state g key) in
    if negb needs_collective
    then (false, put_family key (record_remote_selection f layer_idx block_ids full) g)
    else
      let f' := FamState (remote_layer_id f) (remote_block_ids f) (remote_full f)
                  (Some layer_idx) block_ids full true in
      (true, set_mem (move_rows c key layer_idx owner block_ids (g_mem g)) (put_family key f' g)).

(** [_register_layer_cache], for a name that parses; another name is ignored *)
Definition register_layer_cache (c : cache) (layer_name : string) (layer_idx : Z) (g : group) : group :=
  let slot := default [] (dget (g_registry g) layer_idx) in
  Group (g_mem g) (g_active_ids g) (g_active_range g) (g_families g)
    (dset (g_registry g) layer_idx (dset slot (family_kind layer_name) c)) (g_comm g).

(** ** The methods

    [state] is the runtime state of the process, [mtp] whether a replicated
    draft batch is running. *)

Context (parse_layer_index : string -> result Z).
Context (state : option LayerSplitState).
Context (mtp : bool).

(** [register_dsa_cache_tensors]: the map of caches, once the runner bound them *)
Definition register_dsa_cache_tensors (caches : list (string * cache)) (g : group) : group :=
  match state with
  | None => g
  | Some _ =>
      foldl (fun g '(layer_name, c) =>
        match parse_layer_index layer_name with
        | Ok layer_idx => register_layer_cache c layer_name layer_idx g
        | Err _ => g
        end) g caches
  end.

(** The clearing of the broadcast state by [install_runtime_layer_split_state],
    whose call of [_init_layer_broadcast_comm] leaves a communicator or none *)
Definition clear_on_install (comm : bool) (g : group) : group :=
  let g := set_active_dsa_broadcast_block_ids None g in
  Group (g_mem g) (g_active_ids g) (g_active_range g) [] [] comm.

(** [broadcast_dsa_cache_from_owner] *)
Definition broadcast_dsa_cache_from_owner (c : cache) (layer_name : string) : M group unit :=
  if (c_numel c =? 0) || mtp then mret tt
  else
    match state with
    | None => mret tt
    | Some st =>
        layer_idx ← lift (parse_layer_index layer_name);
        if negb (covers st layer_idx) then mret tt
        else
          modify (register_layer_cache c layer_name layer_idx) ;;
          let key := family_key c layer_name in
          modify (fun g =>
            let f := family_state g key in
            put_family key
              (finalize_pending_broadcast f
                 (bool_decide (pending_remote_layer_id f = Some layer_idx))) g) ;;
          g ← get_state;
          let f := family_state g key in
          if bool_decide (remote_layer_id f = Some layer_idx) && remote_full f then mret tt
          else
            owner ← lift (owner_of st layer_idx);
            modify (broadcast_tensor_from_owner c key layer_idx owner)
    end.

(** [prefetch_dsa_cache_from_owner] *)
Definition prefetch_dsa_cache_from_owner (c : cache) (layer_name : string) : M group unit :=
  if (c_numel c =? 0) || mtp then mret tt
  else
    match state with
    | None => mret tt
    | Some st =>
        layer_idx ← lift (parse_layer_index layer_name);
        if negb (covers st layer_idx) then mret tt
        else
          modify (register_layer_cache c layer_name layer_idx) ;;
          let key := family_key c layer_name in
          modify (fun g => put_family key (family_state g key) g) ;;
          g ← get_state;
          let f := family_state g key in
          if bool_decide (remote_layer_id f = Some layer_idx) then mret tt
          else if pending_remote_broadcast f &&
                  bool_decide (pending_remote_layer_id f = Some layer_idx) then mret tt
          else
            (if pending_remote_broadcast f
             then modify (put_family key (finalize_pending_broadcast f false)) else mret tt) ;;
            owner ← lift (owner_of st layer_idx);
            g ← get_state;
            let (sent, g') := broadcast_tensor_from_owner_async c key layer_idx owner g in
            put_state g' ;;
            if (sent : bool) then mret tt else broadcast_dsa_cache_from_owner c layer_name
    end.

(** The layer name [_prefetch_registered_layer] builds *)
Definition registered_layer_name (layer_idx : Z) (kind : string) : string :=
  String.append "model.layers." (String.append (pretty layer_idx)
    (if String.eqb kind "indexer" then ".self_attn.indexer" else ".self_attn.attn")).

(** [_prefetch_registered_layer] *)
Definition prefetch_registered_layer (layer_idx : Z) (kind : string) : M group unit :=
  g ← get_state;
  match dget (g_registry g) layer_idx ≫= fun slot => dget slot kind with
  | None => mret tt
  | Some c => prefetch_dsa_cache_from_owner c (registered_layer_name layer_idx kind)
  end.

(** [maybe_prefetch_same_layer_mla_cache] *)
Definition maybe_prefetch_same_layer_mla_cache (layer_idx : Z) : M group unit :=
  match state with
  | None => mret tt
  | Some st => if covers st layer_idx then prefetch_registered_layer layer_idx "mla" else mret tt
  end.

(** [maybe_prefetch_next_dsa_cache] *)
Definition maybe_prefetch_next_dsa_cache (current_layer_idx : Z) (kind : string) : M group unit :=
  match state with
  | None => mret tt
  | Some st =>
      if covers st (current_layer_idx + 1)
      then prefetch_registered_layer (current_layer_idx + 1) kind else mret tt
  end.

(** [invalidate_dsa_cache_broadcast] *)
Definition invalidate_dsa_cache_broadcast (c : cache) (layer_name : string) : M group unit :=
  if c_numel c =? 0 then mret tt
  else
    match parse_layer_index layer_name with
    | Err _ => mret tt
    | Ok layer_idx =>
        let key := family_key c layer_name in
        modify (fun g =>
          let f := family_state g key in
          let f := if bool_decide (pending_remote_layer_id f = Some layer_idx)
                   then finalize_pending_broadcast f false else f in
          put_family key
            (if bool_decide (remote_layer_id f = Some layer_idx)
             then FamState None None false (pending_remote_layer_id f) (pending_remote_block_ids f)
                    (pending_remote_full f) (pending_remote_broadcast f)
             else f) g)
    end.

(** [begin_mla_dsa_cache_write] *)
Definition begin_mla_dsa_cache_write (c : cache) (layer_name : string) : M group bool :=
  if c_numel c =? 0 then mret false
  else
    match parse_layer_index layer_name with
    | Err _ => mret false
    | Ok layer_idx =>
        match state with
        | None => mret false
        | Some _ =>
            let key := family_key c layer_name in
            g ← get_state;
            let f := family_state g key in
            let f := if bool_decide (pending_remote_layer_id f = Some layer_idx)
                     then finalize_pending_broadcast f true else f in
            let '(_, _, needs_collective, f') := prepare_remote_selection g c layer_idx f in
            modify (put_family key f') ;;
            mret (bool_decide (remote_layer_id f' = Some layer_idx) && negb needs_collective)
        end
    end.

(** ** Call sites *)

(** The cache kernel of the ranks that commit writes the new rows. *)
Definition write_rows (m : memory) (key : string) (layer_idx : Z) (commits : Z -> bool)
    (new : Z -> option Row) : memory :=
  fun r k s b =>
    if bool_decide (k = key /\ s = place r key layer_idx) && commits r
    then default (m r k s b) (new b) else m r k s b.

(** The MLA attention forward: the owner writes the gathered rows, and with a
    scratch slot that can be patched every rank does; then the owner's rows
    are broadcast. *)
Definition mla_cache_update (c : cache) (layer_name : string) (layer_idx : Z)
    (is_owner : Z -> bool) (new : Z -> option Row) : M group unit :=
  remote_updatable ← begin_mla_dsa_cache_write c layer_name;
  modify (fun g => set_mem (write_rows (g_mem g) (family_key c layer_name) layer_idx
    (fun r => is_owner r || remote_updatable) new) g) ;;
  broadcast_dsa_cache_from_owner c layer_name.

(** The sparse indexer's forward: the layer's remote rows are dropped, the
    owner writes, and its rows are broadcast. *)
Definition indexer_cache_update (c : cache) (layer_name : string) (layer_idx : Z)
    (is_owner : Z -> bool) (new : Z -> option Row) : M group unit :=
  invalidate_dsa_cache_broadcast c layer_name ;;
  modify (fun g => set_mem (write_rows (g_mem g) (family_key c layer_name) layer_idx is_owner new) g) ;;
  broadcast_dsa_cache_from_owner c layer_name.
End group.
End Broadcast.
