(* ===== verification/LayerBroadcastCorrect.v ===== *)
(** * Correctness of the owner broadcast

    What the bookkeeping says a scratch slot holds is what the owner has, so
    after a layer's update every rank reads the owner's rows. *)

From S2P Require Import Prelude PyString Tensors LayerSplit LayerSplitCorrect LayerBroadcast.
From stdpp Require Import sorting.
Import LayerSplit Broadcast.
Local Open Scope Z_scope.

(** ** The interface to the packed layout

    What the broadcast needs of the slots: the slot in which an owner keeps a
    layer holds no other layer. *)

Class Placement (place : Z -> string -> Z -> Z) (owner : Z -> Z) (layer : string -> Z -> Prop) : Prop := {
  own_slot_private : forall key l l', layer key l -> layer key l' -> l <> l' ->
    place (owner l) key l <> place (owner l) key l'
}.

(** ** Coherence *)

Section coherence.
Context `{TensorOps} {Row : Type} (place : Z -> string -> Z -> Z) (owner : Z -> Z) (layer : string -> Z -> Prop).
Context `{!Placement place owner layer}.
(** The number of blocks of a family's caches. *)
Context (blocks : string -> Z).

Implicit Types (g : group (Row:=Row)) (m : memory (Row:=Row)) (f : FamilyRemoteState).

(** Row [b] of a layer as rank [r] sees it. *)
Definition row_at m (key : string) (r l b : Z) : Row := m r key (place r key l) b.

(** Every rank sees the owner's row. *)
Definition coherent m (key : string) (l b : Z) : Prop :=
  forall r, row_at m key r l b = row_at m key (owner l) l b.

Definition in_selection (key : string) (ids : option (list Z)) (full : bool) (b : Z) : Prop :=
  (full = true /\ 0 <= b < blocks key) \/ (exists l, ids = Some l /\ b ∈ l).

Definition known (key : string) f (b : Z) : Prop :=
  in_selection key (remote_block_ids f) (remote_full f) b.
Definition pending (key : string) f (b : Z) : Prop :=
  in_selection key (pending_remote_block_ids f) (pending_remote_full f) b.

(** What the scratch is said to hold is the owner's; rows on their way to the
    scratch are the owner's too, and then no other layer's are claimed. *)
Definition remote_ok m (key : string) f : Prop :=
  forall l, remote_layer_id f = Some l -> layer key l /\ forall b, known key f b -> coherent m key l b.

Definition pending_ok m (key : string) f : Prop :=
  pending_remote_broadcast f = true -> exists l, pending_remote_layer_id f = Some l /\ layer key l /\
    (forall b, pending key f b -> coherent m key l b) /\
    (remote_layer_id f = Some l \/ forall b, ~ known key f b).

Definition fam_ok m (key : string) f : Prop := remote_ok m key f /\ pending_ok m key f.

(** The active ids are what [torch.unique] made of a non-empty tensor. *)
Definition active_ok g : Prop :=
  match g_active_ids g with
  | None => True
  | Some ids => StronglySorted Z.lt ids /\
      match ids with
      | first :: rest => g_active_range g = Some (first, List.last rest first)
      | [] => False
      end
  end.

Definition group_ok g : Prop :=
  (forall key f, dget (g_families g) key = Some f -> fam_ok (g_mem g) key f) /\ active_ok g.

Lemma fam0_ok m key : fam_ok m key fam0.
Proof. split; done. Qed.

Lemma family_state_ok g key : group_ok g -> fam_ok (g_mem g) key (family_state g key).
Proof.
  intros [Hf _]. unfold family_state. destruct (dget _ key) as [f|] eqn:E; [by apply Hf|apply fam0_ok].
Qed.

Lemma family_state_put g key f : family_state (put_family key f g) key = f.
Proof. unfold family_state. simpl. by rewrite dget_dset_eq. Qed.

Lemma put_family_ok g key f :
  group_ok g -> fam_ok (g_mem g) key f -> group_ok (put_family key f g).
Proof.
  intros [Hf Ha] Hk. split; [|done]. intros k f' Hd. simpl in *. rewrite dget_dset in Hd.
  case_decide; [by simplify_eq|by apply Hf].
Qed.

(** *** Bookkeeping steps *)

Lemma record_known key f l ids full b :
  known key (record_remote_selection f l ids full) b ->
  in_selection key ids full b \/ (remote_layer_id f = Some l /\ known key f b).
Proof.
  unfold record_remote_selection, known, in_selection. case_bool_decide as Hs; simpl;
    repeat case_match; simplify_eq/=; try naive_solver.
  intros [?|(k & [= <-] & Hb)]; [naive_solver|]. apply unique_elem, elem_of_app in Hb. naive_solver.
Qed.

Lemma record_selected key f l ids full b :
  (full = true -> ids = None) ->
  in_selection key ids full b -> known key (record_remote_selection f l ids full) b.
Proof.
  unfold record_remote_selection, known, in_selection. intros Hfi [[-> Hb]|(k & -> & Hb)]; simpl; [by left|].
  destruct full; [by specialize (Hfi eq_refl)|].
  destruct k as [|i k]; [by apply not_elem_of_nil in Hb|]. right.
  destruct (if bool_decide _ then _ else _) as [k0|]; simpl; eexists; (split; [done|]); [|done].
  apply unique_elem, elem_of_app. by right.
Qed.

Lemma record_fields f l ids full :
  remote_layer_id (record_remote_selection f l ids full) = Some l /\
  pending_remote_broadcast (record_remote_selection f l ids full) = pending_remote_broadcast f.
Proof. unfold record_remote_selection. repeat case_match; done. Qed.

Lemma record_ok m key f l ids full :
  remote_ok m key f -> layer key l -> pending_remote_broadcast f = false ->
  (forall b, in_selection key ids full b -> coherent m key l b) ->
  fam_ok m key (record_remote_selection f l ids full).
Proof.
  intros Hr Hl Hp Hs. destruct (record_fields f l ids full) as [Hid Hpend]. split.
  - intros l' Hl'. rewrite Hid in Hl'. injection Hl' as <-. split; [done|].
    intros b [Hb|[Hsame Hb]]%record_known; [by apply Hs|]. by apply (Hr l Hsame).
  - intros Hp'. congruence.
Qed.

Lemma finalize_ok m key f set :
  fam_ok m key f -> fam_ok m key (finalize_pending_broadcast f set) /\
  pending_remote_broadcast (finalize_pending_broadcast f set) = false.
Proof.
  intros [Hr Hp]. unfold finalize_pending_broadcast.
  destruct (pending_remote_broadcast f) eqn:E; simpl; [|by split].
  destruct (Hp E) as (l & Hl & Hlay & Hc & _). rewrite Hl. split; [|by destruct set].
  destruct set.
  - destruct (record_ok m key (FamState (remote_layer_id f) (remote_block_ids f) (remote_full f)
      (Some l) (pending_remote_block_ids f) (pending_remote_full f) false) l
      (pending_remote_block_ids f) (pending_remote_full f)) as [Hr' _]; [done..|].
    split; [|done]. intros l' Hl' . apply Hr'. done.
  - split; [|done]. exact Hr.
Qed.

(** *** The selection *)

Context (sparse : bool).

Lemma sorted_bounds x rest b :
  StronglySorted Z.lt (x :: rest) -> b ∈ x :: rest -> x <= b <= List.last rest x.
Proof.
  revert x b. induction rest as [|y rest IH]; intros x b Hs Hb; simpl.
  { apply list_elem_of_singleton in Hb. lia. }
  inversion Hs as [|? ? Hs' Hx]; subst. inversion Hx as [|? ? Hxy _]; subst.
  assert (forall d, List.last (y :: rest) d = List.last rest y) as Hlast.
  { clear. revert y. induction rest as [|z rest IH]; intros y d; [done|].
    change (List.last (z :: rest) d = List.last (z :: rest) y). by rewrite !IH. }
  change (match rest with [] => y | _ :: _ => List.last rest x end) with (List.last (y :: rest) x).
  rewrite Hlast. apply elem_of_cons in Hb as [->|Hb].
  - destruct (IH y y Hs' ltac:(by left)). lia.
  - destruct (IH y b Hs' Hb). lia.
Qed.

Lemma active_ids_spec g c ids :
  active_ok g -> active_block_ids_for sparse g c = Some ids ->
  ids <> [] /\ forall b, b ∈ ids -> 0 <= b < c_blocks c.
Proof.
  unfold active_ok, active_block_ids_for. destruct sparse; simpl; [|done].
  destruct (g_active_ids g) as [ids0|]; [|done]. intros [Hs Hr].
  destruct ids0 as [|x rest]; [done|]. rewrite Hr.
  destruct (zlen (x :: rest) =? 0); [done|]. simpl.
  destruct (c_blocks c <=? 0); [done|].
  destruct (Z.ltb_spec x 0); [done|]. simpl.
  destruct (Z.leb_spec (c_blocks c) (List.last rest x)); [done|].
  destruct (c_blocks c <=? zlen (x :: rest)); [done|]. intros [= <-].
  split; [done|]. intros b Hb. pose proof (sorted_bounds _ _ _ Hs Hb). lia.
Qed.

(** The rows an attention over the cache may read. *)
Definition wanted g c (b : Z) : Prop :=
  match active_block_ids_for sparse g c with
  | Some ids => b ∈ ids
  | None => 0 <= b < c_blocks c
  end.

Record prepared (m : memory (Row:=Row)) (key : string) g c (l : Z) f ids (full needs : bool) f' : Prop := {
  pr_ok : fam_ok m key f';
  pr_full : full = true -> ids = None;
  pr_pending : pending_remote_broadcast f' = pending_remote_broadcast f;
  pr_pending_layer : pending_remote_layer_id f' = pending_remote_layer_id f;
  pr_layer : remote_layer_id f' = remote_layer_id f;
  pr_others : remote_layer_id f = Some l \/ forall b, ~ known key f' b;
  pr_done : needs = false -> remote_layer_id f = Some l /\
    (forall b, wanted g c b -> known key f' b) /\ forall b, in_selection key ids full b -> known key f' b;
  pr_needed : forall b, wanted g c b ->
    in_selection key ids full b \/ (remote_layer_id f = Some l /\ known key f' b)
}.

(** The state with another layer's rows forgotten. *)
Definition forget_other (l : Z) f : FamilyRemoteState :=
  if decide (remote_layer_id f = Some l) then f
  else FamState (remote_layer_id f) None false (pending_remote_layer_id f)
         (pending_remote_block_ids f) (pending_remote_full f) (pending_remote_broadcast f).

Lemma forget_other_ok m key l f :
  fam_ok m key f -> fam_ok m key (forget_other l f) /\
  (remote_layer_id f = Some l \/ forall b, ~ known key (forget_other l f) b).
Proof.
  intros [Hr Hp]. unfold forget_other. case_decide as Hl; [by split; [|left]|].
  assert (forall b, ~ known key (FamState (remote_layer_id f) None false (pending_remote_layer_id f)
    (pending_remote_block_ids f) (pending_remote_full f) (pending_remote_broadcast f)) b) as Hn.
  { intros b [[? _]|(? & ? & _)]; done. }
  split; [split|by right].
  - intros l' Hl'. split; [by apply (Hr l')|]. intros b Hb. by apply Hn in Hb.
  - intros Hpb. destruct (Hp Hpb) as (l' & H1 & H2 & H3 & _). exists l'. split_and!; [done..|by right].
Qed.

Lemma prepare_ok m key g c l f ids full needs f' :
  fam_ok m key f -> active_ok g -> c_blocks c = blocks key -> 0 < c_blocks c ->
  prepare_remote_selection sparse g c l f = (ids, full, needs, f') ->
  prepared m key g c l f ids full needs f'.
Proof.
  intros Hf Ha Hbl Hpos. destruct (forget_other_ok m key l f Hf) as [Hf1 Hother].
  unfold prepare_remote_selection. fold (forget_other l f). set (f1 := forget_other l f) in *.
  assert (remote_layer_id f1 = remote_layer_id f /\
    pending_remote_broadcast f1 = pending_remote_broadcast f /\
    pending_remote_layer_id f1 = pending_remote_layer_id f) as (Hl1 & Hp1 & Hpl1)
    by (unfold f1, forget_other; by case_decide).
  assert (forall b, known key f1 b -> remote_layer_id f = Some l) as Hkl.
  { intros b Hb. destruct Hother as [?|Hn]; [done|]. by apply Hn in Hb. }
  destruct (active_block_ids_for sparse g c) as [act|] eqn:Eact.
  - destruct (active_ids_spec g c act Ha Eact) as [Hne Hrange].
    destruct (remote_full f1) eqn:Efull.
    + intros [= <- <- <- <-]. assert (forall b, b ∈ act -> known key f1 b) as Hall.
      { intros b Hb. left. rewrite <- Hbl. by split; [|apply Hrange]. }
      destruct act as [|b0 act]; [done|].
      assert (remote_layer_id f = Some l) by (apply (Hkl b0), Hall; by left).
      split; try done; unfold wanted; rewrite ?Eact; try naive_solver.
      intros _. split; [done|]. split; [done|]. intros b [[? _]|(k & [= <-] & Hb)]; [done|by apply Hall].
    + intros [= <- <- <- <-]. 
      match goal with |- prepared _ _ _ _ _ _ (Some ?n) _ _ _ => set (needed := n) end.
      assert (forall b, b ∈ act -> b ∈ needed \/ known key f1 b) as Hsplit.
      { intros b Hb. unfold needed. destruct (remote_block_ids f1) as [[|x k]|] eqn:Ek; [by left| |by left].
        destruct (decide (b ∈ x :: k)) as [Hin|Hni].
        - right. right. eauto.
        - left. by apply list_elem_of_filter. }
      split; try done; unfold wanted; rewrite ?Eact.
      * intros Hz. apply negb_false_iff, Z.eqb_eq in Hz. destruct needed as [|x nd]; [|done].
        assert (forall b, b ∈ act -> known key f1 b) as Hall.
        { intros b Hb. destruct (Hsplit b Hb) as [?%not_elem_of_nil|]; done. }
        destruct act as [|b0 act]; [done|]. split; [apply (Hkl b0), Hall; by left|].
        split; [done|]. intros b [[? _]|(k & [= <-] & ?%not_elem_of_nil)]; done.
      * intros b Hb. destruct (Hsplit b Hb) as [Hin|Hk]; [left; right; eauto|right; eauto].
  - intros [= <- <- <- <-]. split; try done; unfold wanted; rewrite ?Eact.
    + intros Hz%negb_false_iff. assert (forall b, 0 <= b < c_blocks c -> known key f1 b) as Hall.
      { intros b Hb. left. by rewrite <- Hbl. }
      split; [apply (Hkl 0), Hall; lia|]. split; [done|].
      intros b [[_ Hb]|(? & ? & _)]; [|done]. apply Hall. by rewrite Hbl.
    + intros b Hb. left. left. by rewrite <- Hbl.
Qed.

(** *** Moving rows *)

Lemma fam_ok_ext m m' key f :
  (forall r s b, m' r key s b = m r key s b) -> fam_ok m key f -> fam_ok m' key f.
Proof.
  intros Hm [Hr Hp].
  assert (forall l b, coherent m key l b -> coherent m' key l b) as Hc.
  { intros l b Hc r. unfold row_at in *. rewrite !Hm. apply Hc. }
  split.
  - intros l Hl. destruct (Hr l Hl) as [? Hk]. split; [done|]. auto.
  - intros Hpb. destruct (Hp Hpb) as (l & H1 & H2 & H3 & H4). exists l. split_and!; auto.
Qed.

Lemma group_ok_update g key m' f :
  group_ok g -> (forall key' r s b, key' <> key -> m' r key' s b = g_mem g r key' s b) ->
  fam_ok m' key f -> group_ok (set_mem m' (put_family key f g)).
Proof.
  intros [Hf Ha] Hm Hk. split; [|done]. intros k f' Hd. simpl in *. rewrite dget_dset in Hd.
  case_decide; [by simplify_eq|]. eapply fam_ok_ext; [|by apply Hf]. auto.
Qed.

Lemma copy_other_key m key l rows key' r s b :
  key' <> key -> copy_rows place m key l (owner l) rows r key' s b = m r key' s b.
Proof. intros Hk. unfold copy_rows. rewrite bool_decide_eq_false_2; [done|tauto]. Qed.

Lemma copy_coherent m key l rows b :
  rows b = true -> coherent (copy_rows place m key l (owner l) rows) key l b.
Proof.
  intros Hb r. unfold row_at, copy_rows. rewrite Hb, !andb_true_r.
  rewrite (bool_decide_eq_false_2 (key = key /\ owner l <> owner l /\ _)) by tauto.
  case_bool_decide as Hr; [done|]. destruct (decide (r = owner l)) as [->|Hne]; [done|tauto].
Qed.

Lemma copy_unmoved m key l rows l' b :
  rows b = false -> coherent m key l' b -> coherent (copy_rows place m key l (owner l) rows) key l' b.
Proof.
  intros Hb Hc r. unfold row_at, copy_rows. rewrite Hb, !andb_false_r. apply Hc.
Qed.

Lemma move_selected c key l ids full m b :
  c_blocks c = blocks key -> (full = true -> ids = None) -> (full = false -> exists k, ids = Some k) ->
  in_selection key ids full b -> coherent (move_rows place c key l (owner l) ids m) key l b.
Proof.
  intros Hbl Hf1 Hf2 Hb. unfold move_rows. apply copy_coherent.
  destruct full.
  - rewrite Hf1 by done. destruct Hb as [[_ Hb]|(k & Hk & _)]; [|by rewrite Hf1 in Hk].
    rewrite Hbl. apply andb_true_iff. rewrite Z.leb_le, Z.ltb_lt. done.
  - destruct Hb as [[? _]|(k & -> & Hb)]; [done|]. by apply bool_decide_eq_true.
Qed.

Lemma move_keeps c key l ids m b :
  coherent m key l b -> coherent (move_rows place c key l (owner l) ids m) key l b.
Proof.
  intros Hc. unfold move_rows.
  match goal with |- coherent (copy_rows _ _ _ _ _ ?rows) _ _ _ => destruct (rows b) eqn:E end;
    [by apply copy_coherent|by apply copy_unmoved].
Qed.

Lemma move_other_key c key l ids m key' r s b :
  key' <> key -> move_rows place c key l (owner l) ids m r key' s b = m r key' s b.
Proof. apply copy_other_key. Qed.

Lemma prepare_shape g c l f ids full needs f' :
  prepare_remote_selection sparse g c l f = (ids, full, needs, f') ->
  full = false -> exists k, ids = Some k.
Proof.
  unfold prepare_remote_selection. destruct (active_block_ids_for sparse g c); simpl;
    [|by intros [= <- <- <- <-]]. case_match; intros [= <- <- <- <-]; eauto.
Qed.

(** All ranks read the owner's rows of a layer. *)
Definition synced g c key l : Prop := forall b, wanted g c b -> coherent (g_mem g) key l b.

Lemma wanted_mem g g' c b :
  g_active_ids g' = g_active_ids g -> g_active_range g' = g_active_range g ->
  wanted g' c b <-> wanted g c b.
Proof. unfold wanted, active_block_ids_for. by intros -> ->. Qed.

Lemma broadcast_tensor_ok g c key l :
  group_ok g -> layer key l -> c_blocks c = blocks key -> 0 < c_blocks c ->
  pending_remote_broadcast (family_state g key) = false ->
  let g' := broadcast_tensor_from_owner place sparse c key l (owner l) g in
  group_ok g' /\ synced g' c key l /\ pending_remote_broadcast (family_state g' key) = false /\
  g_active_ids g' = g_active_ids g /\ g_active_range g' = g_active_range g.
Proof.
  intros Hg Hl Hbl Hpos Hpend. unfold broadcast_tensor_from_owner.
  destruct (prepare_remote_selection sparse g c l (family_state g key)) as [[[ids full] needs] f'] eqn:E.
  pose proof (prepare_ok _ _ _ _ _ _ _ _ _ _ (family_state_ok g key Hg) (proj2 Hg) Hbl Hpos E) as Hp.
  pose proof (prepare_shape _ _ _ _ _ _ _ _ E) as Hshape.
  destruct Hp as [[Hrok _] Hpf Hpp _ Hpl Hpo Hpd Hpn]. rewrite Hpend in Hpp.
  destruct (record_fields f' l ids full) as [Hrid Hrp]. rewrite Hpp in Hrp.
  destruct needs; cbn zeta.
  - set (m' := move_rows place c key l (owner l) ids (g_mem g)).
    assert (forall b, in_selection key ids full b -> coherent m' key l b) as Hsel.
    { intros b Hb. by eapply move_selected. }
    assert (remote_ok m' key f') as Hrok'.
    { intros l' Hl'. destruct (Hrok l' Hl') as [? Hk]. split; [done|]. intros b Hb.
      rewrite Hpl in Hl'. destruct Hpo as [Ho|Ho]; [|by apply Ho in Hb].
      assert (l' = l) as -> by congruence. apply move_keeps. auto. }
    split_and!; try done.
    + apply group_ok_update; [done|intros; by apply move_other_key|]. by apply record_ok.
    + intros b Hb. simpl. rewrite (wanted_mem g) in Hb by done.
      destruct (Hpn b Hb) as [Hs|[Hsame Hk]]; [by apply Hsel|].
      apply (Hrok' l); [by rewrite Hpl|done].
    + unfold family_state. simpl. by rewrite dget_dset_eq.
  - destruct (Hpd eq_refl) as (Hsame & Hw & Hsk).
    assert (remote_layer_id f' = Some l) as Hfl by by rewrite Hpl.
    split_and!; try done.
    + apply put_family_ok; [done|]. apply record_ok; [done..|]. intros b Hb. apply (Hrok l Hfl). auto.
    + intros b Hb. simpl. rewrite (wanted_mem g) in Hb by done. apply (Hrok l Hfl). auto.
    + by rewrite family_state_put.
Qed.

(** *** Writing rows *)

Lemma write_other_key m key l commits new key' r s b :
  key' <> key -> write_rows place m key l commits new r key' s b = m r key' s b.
Proof. intros Hk. unfold write_rows. rewrite bool_decide_eq_false_2; [done|tauto]. Qed.

Lemma write_row m key l commits new r b :
  row_at (write_rows place m key l commits new) key r l b =
  if commits r then default (row_at m key r l b) (new b) else row_at m key r l b.
Proof. unfold row_at, write_rows. rewrite bool_decide_eq_true_2 by done. done. Qed.

(** An owner's write touches its own layer only. *)
Lemma write_other_layer m key l l' new r b :
  layer key l -> layer key l' -> l <> l' ->
  row_at (write_rows place m key l (fun r => bool_decide (r = owner l)) new) key r l' b =
  row_at m key r l' b.
Proof.
  intros Hl Hl' Hne. unfold row_at, write_rows. case_bool_decide as Hs; [|done]. simpl.
  case_bool_decide as Hr; [|done]. subst r. destruct Hs as [_ Hs]. symmetry in Hs.
  by apply (own_slot_private key l l') in Hs.
Qed.

Definition owner_writes (l r : Z) : bool := bool_decide (r = owner l).

Lemma owner_write_fam_ok m key l new f :
  layer key l -> fam_ok m key f ->
  remote_layer_id f <> Some l \/ (forall b, is_Some (new b) -> ~ known key f b) ->
  (pending_remote_broadcast f = true -> pending_remote_layer_id f <> Some l) ->
  fam_ok (write_rows place m key l (owner_writes l) new) key f.
Proof.
  intros Hl [Hr Hp] Hguard Hpend.
  assert (forall l' b, layer key l' -> coherent m key l' b -> l' <> l \/ new b = None ->
    coherent (write_rows place m key l (owner_writes l) new) key l' b) as Hc.
  { intros l' b Hl' Hc Hor r. destruct (decide (l' = l)) as [->|Hne].
    - rewrite !write_row. destruct Hor as [?| ->]; [done|]. simpl. destruct (owner_writes l r),
        (owner_writes l (owner l)); apply Hc.
    - unfold owner_writes. rewrite !write_other_layer by done. apply Hc. }
  split.
  - intros l' Hl'. destruct (Hr l' Hl') as [Hlay Hk]. split; [done|]. intros b Hb.
    apply Hc; [done|by apply Hk|]. destruct (decide (l' = l)) as [->|]; [|by left].
    right. destruct Hguard as [?|Hg]; [done|]. destruct (new b) eqn:E; [|done].
    exfalso. apply (Hg b); [by rewrite E|done].
  - intros Hpb. destruct (Hp Hpb) as (l' & H1 & H2 & H3 & H4). exists l'. split_and!; [done..| |done].
    intros b Hb. apply Hc; [done|by apply H3|]. left. intros ->. by apply Hpend.
Qed.

Lemma all_write_fam_ok m key l new f :
  fam_ok m key f -> remote_layer_id f = Some l -> pending_remote_broadcast f = false ->
  fam_ok (write_rows place m key l (fun _ => true) new) key f.
Proof.
  intros [Hr Hp] Hl Hpend. split; [|congruence].
  intros l' Hl'. assert (l' = l) as -> by congruence. destruct (Hr l Hl) as [Hlay Hk].
  split; [done|]. intros b Hb r. rewrite !write_row. specialize (Hk b Hb r).
  destruct (new b); simpl; [done|exact Hk].
Qed.

Lemma set_mem_ok g key m' :
  group_ok g -> (forall key' r s b, key' <> key -> m' r key' s b = g_mem g r key' s b) ->
  fam_ok m' key (family_state g key) -> group_ok (set_mem m' g).
Proof.
  intros [Hf Ha] Hm Hk. split; [|done]. intros k f Hd. simpl in *.
  destruct (decide (k = key)) as [->|Hne].
  - unfold family_state in Hk. by rewrite Hd in Hk.
  - eapply fam_ok_ext; [|by apply Hf]. auto.
Qed.

(** *** The active set *)

Lemma invalidate_family_ok m key ids f : fam_ok m key f -> fam_ok m key (invalidate_family ids f).
Proof.
  intros Hf. unfold invalidate_family.
  assert (fam_ok m key (if pending_remote_broadcast f then finalize_pending_broadcast f true else f)) as Hf1.
  { case_match; [|done]. by apply finalize_ok. }
  set (f1 := if pending_remote_broadcast f then _ else f) in *.
  assert (forall ids', (forall b k, ids' = Some k -> b ∈ k -> known key f1 b) ->
    fam_ok m key (FamState (remote_layer_id f1) ids' (remote_full f1) (pending_remote_layer_id f1)
      (pending_remote_block_ids f1) (pending_remote_full f1) (pending_remote_broadcast f1))) as Hset.
  { intros ids' Hsub. destruct Hf1 as [Hr Hp].
    assert (forall b, known key (FamState (remote_layer_id f1) ids' (remote_full f1) (pending_remote_layer_id f1)
      (pending_remote_block_ids f1) (pending_remote_full f1) (pending_remote_broadcast f1)) b -> known key f1 b) as Hk.
    { intros b [?|(k & Hk & Hb)]; [by left|]. by eapply Hsub. }
    split.
    - intros l Hl. destruct (Hr l Hl) as [? Hc]. split; [done|]. auto.
    - intros Hpb. destruct (Hp Hpb) as (l & H1 & H2 & H3 & H4). exists l. split_and!; [done..|].
      destruct H4 as [?|Hn]; [by left|right]. intros b Hb. by apply (Hn b), Hk. }
  destruct ids as [act|].
  - case_match; [done|]. case_match; [|done]. apply Hset. intros b k [= <-] [_ Hb]%list_elem_of_filter.
    right. eauto.
  - case_match; [|done]. apply Hset. done.
Qed.

Lemma set_active_ok ids g : group_ok g -> group_ok (set_active_dsa_broadcast_block_ids ids g).
Proof.
  intros [Hf Ha]. split.
  - intros key f. unfold set_active_dsa_broadcast_block_ids. simpl. case_decide; [apply Hf|]. simpl.
    intros Hd. assert (exists f0, dget (g_families g) key = Some f0 /\
      f = invalidate_family (match ids with None | Some [] => None | Some l => Some (unique l) end) f0)
      as (f0 & Hd0 & ->).
    { revert Hd. generalize (g_families g). intros d. induction d as [|[k f0] d IH]; simpl; [done|].
      case_decide; [intros [= <-]; eauto|done]. }
    by apply invalidate_family_ok, Hf.
  - unfold active_ok, set_active_dsa_broadcast_block_ids. simpl.
    destruct ids as [[|x l]|]; [done| |done]. split; [apply unique_sorted|].
    destruct (unique (x :: l)) as [|y u] eqn:E; [|done].
    assert (x ∈ unique (x :: l)) as Hx by (apply unique_elem; by left).
    rewrite E in Hx. by apply not_elem_of_nil in Hx.
Qed.

(** *** The methods *)

Context (parse : string -> result Z) (st : LayerSplitState).

(** A call for a layer of the shard plan, with a cache of the family's shape. *)
Record call (c : cache) (name : string) (l : Z) : Prop := {
  ca_parse : parse name = Ok l;
  ca_covers : covers st l = true;
  ca_owner : owner_of st l = Ok (owner l);
  ca_layer : layer (family_key c name) l;
  ca_numel : c_numel c <> 0;
  ca_blocks : c_blocks c = blocks (family_key c name);
  ca_pos : 0 < c_blocks c
}.

(** What stays the same when only the bookkeeping and the scratch change. *)
Definition same_active g g' : Prop :=
  g_active_ids g' = g_active_ids g /\ g_active_range g' = g_active_range g.

Lemma register_ok c name l g :
  group_ok g -> group_ok (register_layer_cache c name l g) /\
  family_state (register_layer_cache c name l g) = family_state g.
Proof. intros [Hf Ha]. by split. Qed.

Lemma finalize_family_ok g key set :
  group_ok g ->
  group_ok (put_family key (finalize_pending_broadcast (family_state g key) set) g) /\
  pending_remote_broadcast (family_state
    (put_family key (finalize_pending_broadcast (family_state g key) set) g) key) = false.
Proof.
  intros Hg. destruct (finalize_ok (g_mem g) key (family_state g key) set) as [H1 H2];
    [by apply family_state_ok|].
  split; [by apply put_family_ok|]. by rewrite family_state_put.
Qed.

(** The rows the owners keep are never overwritten by a broadcast. *)
Definition durable_kept m m' : Prop :=
  forall key l b, layer key l -> row_at m' key (owner l) l b = row_at m key (owner l) l b.

Lemma move_durable c key l ids m :
  layer key l -> durable_kept m (move_rows place c key l (owner l) ids m).
Proof.
  intros Hl key' l' b Hl'. unfold row_at, move_rows, copy_rows.
  rewrite bool_decide_eq_false_2; [done|]. intros (-> & Hr & Hs).
  destruct (decide (l' = l)) as [->|Hne]; [done|]. by apply (own_slot_private key l' l) in Hs.
Qed.

Lemma broadcast_tensor_durable g c key l :
  layer key l ->
  durable_kept (g_mem g) (g_mem (broadcast_tensor_from_owner place sparse c key l (owner l) g)).
Proof.
  intros Hl. unfold broadcast_tensor_from_owner.
  destruct (prepare_remote_selection sparse g c l (family_state g key)) as [[[ids full] needs] f'].
  destruct needs; [by apply move_durable|done].
Qed.

Lemma broadcast_ok c name l g :
  call c name l -> group_ok g ->
  exists g', broadcast_dsa_cache_from_owner place sparse parse (Some st) false c name g = (Ok tt, g') /\
    group_ok g' /\ synced g' c (family_key c name) l /\ same_active g g' /\
    durable_kept (g_mem g) (g_mem g').
Proof.
  intros [Hparse Hcov Hown Hlay Hnum Hbl Hpos] Hg.
  set (key := family_key c name).
  set (g1 := register_layer_cache c name l g).
  destruct (register_ok c name l g Hg) as [Hg1 _].
  set (set := bool_decide (pending_remote_layer_id (family_state g1 key) = Some l)).
  destruct (finalize_family_ok g1 key set Hg1) as [Hg2 Hp2].
  set (g2 := put_family key (finalize_pending_broadcast (family_state g1 key) set) g1) in *.
  unfold broadcast_dsa_cache_from_owner. rewrite (proj2 (Z.eqb_neq _ _) Hnum). cbn [orb].
  unfold lift. unfold mbind at 1, M_bind at 1. rewrite Hparse, Hcov. cbn [negb].
  unfold modify. unfold mbind at 1, M_bind at 1. fold g1. unfold mbind at 1, M_bind at 1.
  fold key set g2. unfold get_state. unfold mbind at 1, M_bind at 1.
  destruct (bool_decide (remote_layer_id (family_state g2 key) = Some l) && remote_full (family_state g2 key)) eqn:E.
  - apply andb_true_iff in E as [El%bool_decide_eq_true Ef]. exists g2. split_and!; try done.
    intros b Hb. pose proof (proj1 (family_state_ok g2 key Hg2) l El) as [_ Hk]. apply Hk. left.
    split; [done|]. unfold key. rewrite <- Hbl. unfold wanted in Hb.
    destruct (active_block_ids_for sparse g2 c) as [ids|] eqn:Ea; [|done].
    by apply (proj2 (active_ids_spec g2 c ids (proj2 Hg2) Ea)).
  - unfold mbind at 1, M_bind at 1. rewrite Hown.
    destruct (broadcast_tensor_ok g2 c key l Hg2 Hlay Hbl Hpos Hp2) as (Hok & Hs & _ & Ha1 & Ha2).
    eexists. split; [done|]. split_and!; try done.
    intros key' l' b Hl'. by rewrite (broadcast_tensor_durable g2 c key l Hlay key' l' b Hl').
Qed.

Lemma wanted_nonempty g c : active_ok g -> 0 < c_blocks c -> exists b, wanted g c b.
Proof.
  intros Ha Hpos. unfold wanted. destruct (active_block_ids_for sparse g c) as [ids|] eqn:E.
  - destruct (active_ids_spec g c ids Ha E) as [Hne _]. destruct ids as [|x ids]; [done|].
    exists x. by left.
  - exists 0. lia.
Qed.

(** The probe of an MLA write keeps the invariant, leaves no broadcast of the
    layer in flight, and answers yes only when the scratch holds the layer. *)
Lemma begin_ok c name l g :
  call c name l -> group_ok g ->
  exists flag g', begin_mla_dsa_cache_write sparse parse (Some st) c name g = (Ok flag, g') /\
    group_ok g' /\ same_active g g' /\ g_mem g' = g_mem g /\
    (pending_remote_broadcast (family_state g' (family_key c name)) = true ->
       pending_remote_layer_id (family_state g' (family_key c name)) <> Some l) /\
    (flag = true -> remote_layer_id (family_state g' (family_key c name)) = Some l /\
       pending_remote_broadcast (family_state g' (family_key c name)) = false).
Proof.
  intros [Hparse Hcov Hown Hlay Hnum Hbl Hpos] Hg. set (key := family_key c name).
  unfold begin_mla_dsa_cache_write. rewrite (proj2 (Z.eqb_neq _ _) Hnum), Hparse.
  unfold get_state. unfold mbind at 1, M_bind at 1. fold key.
  set (f1 := if bool_decide (pending_remote_layer_id (family_state g key) = Some l)
             then finalize_pending_broadcast (family_state g key) true else family_state g key).
  assert (fam_ok (g_mem g) key f1 /\
    (pending_remote_broadcast f1 = true -> pending_remote_layer_id f1 <> Some l)) as [Hf1 Hnp].
  { pose proof (family_state_ok g key Hg) as Hf. unfold f1. case_bool_decide as Hpl; [|done].
    destruct (finalize_ok (g_mem g) key _ true Hf) as [? Hp]. split; [done|]. congruence. }
  destruct (prepare_remote_selection sparse g c l f1) as [[[ids full] needs] f'] eqn:E.
  destruct (prepare_ok _ _ _ _ _ _ _ _ _ _ Hf1 (proj2 Hg) Hbl Hpos E)
    as [Hf' _ Hpp Hppl Hpl _ Hpd _].
  unfold modify. unfold mbind at 1, M_bind at 1. eexists _, _. split; [reflexivity|].
  rewrite family_state_put. split_and!; [by apply put_family_ok|done|done|by rewrite Hpp, Hppl|].
  intros [Hrl%bool_decide_eq_true Hneeds%negb_true_iff]%andb_true_iff. split; [done|].
  destruct (pending_remote_broadcast f') eqn:Hpb; [exfalso|done].
  destruct (Hpd Hneeds) as (_ & Hw & _). destruct (wanted_nonempty g c (proj2 Hg) Hpos) as [b Hb].
  destruct (proj2 Hf' Hpb) as (l' & Hl' & _ & _ & [Hr|Hn]); [|by apply (Hn b), Hw].
  apply Hnp; [by rewrite <- Hpp|]. rewrite <- Hppl. congruence.
Qed.

Lemma invalidate_broadcast_ok c name l g :
  call c name l -> group_ok g ->
  exists g', invalidate_dsa_cache_broadcast parse c name g = (Ok tt, g') /\
    group_ok g' /\ same_active g g' /\ g_mem g' = g_mem g /\
    remote_layer_id (family_state g' (family_key c name)) <> Some l /\
    (pending_remote_broadcast (family_state g' (family_key c name)) = true ->
       pending_remote_layer_id (family_state g' (family_key c name)) <> Some l).
Proof.
  intros [Hparse _ _ Hlay Hnum _ _] Hg. set (key := family_key c name).
  unfold invalidate_dsa_cache_broadcast. rewrite (proj2 (Z.eqb_neq _ _) Hnum), Hparse.
  fold key. unfold modify.
  set (f1 := if bool_decide (pending_remote_layer_id (family_state g key) = Some l)
             then finalize_pending_broadcast (family_state g key) false else family_state g key).
  assert (fam_ok (g_mem g) key f1 /\
    (pending_remote_broadcast f1 = true -> pending_remote_layer_id f1 <> Some l)) as [Hf1 Hnp].
  { pose proof (family_state_ok g key Hg) as Hf. unfold f1. case_bool_decide as Hpl; [|done].
    destruct (finalize_ok (g_mem g) key _ false Hf) as [? Hp]. split; [done|]. congruence. }
  eexists. split; [reflexivity|]. rewrite family_state_put.
  case_bool_decide as Hrl; [|split_and!; try done; by apply put_family_ok].
  split_and!; try done. apply put_family_ok; [done|]. split; [done|].
  intros Hpb. destruct (proj2 Hf1 Hpb) as (l' & H1 & H2 & H3 & _). exists l'.
  split_and!; [done..|right]. intros b [[? _]|(? & ? & _)]; done.
Qed.

Lemma async_ok c key l g :
  group_ok g -> layer key l -> c_blocks c = blocks key -> 0 < c_blocks c ->
  pending_remote_broadcast (family_state g key) = false ->
  let g' := (broadcast_tensor_from_owner_async place sparse c key l (owner l) g).2 in
  group_ok g' /\ same_active g g' /\ durable_kept (g_mem g) (g_mem g').
Proof.
  intros Hg Hl Hbl Hpos Hpend. unfold broadcast_tensor_from_owner_async.
  destruct (g_comm g); [|done]. cbn [negb].
  destruct (prepare_remote_selection sparse g c l (family_state g key)) as [[[ids full] needs] f'] eqn:E.
  pose proof (prepare_ok _ _ _ _ _ _ _ _ _ _ (family_state_ok g key Hg) (proj2 Hg) Hbl Hpos E) as Hp.
  pose proof (prepare_shape _ _ _ _ _ _ _ _ E) as Hshape.
  destruct Hp as [[Hrok _] Hpf Hpp _ Hpl Hpo Hpd _]. rewrite Hpend in Hpp.
  destruct needs; cbn.
  - split; [|split; [done|by apply move_durable]].
    apply group_ok_update; [done|intros; by apply move_other_key|]. split.
    + intros l' Hl'. destruct (Hrok l' Hl') as [? Hk]. split; [done|]. intros b Hb.
      simpl in Hl'. rewrite Hpl in Hl'. destruct Hpo as [Ho|Ho]; [|by apply Ho in Hb].
      assert (l' = l) as -> by congruence. apply move_keeps. auto.
    + intros _. exists l. split_and!; [done..| |].
      * intros b Hb. by eapply move_selected.
      * simpl. by rewrite Hpl.
  - destruct (Hpd eq_refl) as (Hsame & Hw & Hsk).
    assert (remote_layer_id f' = Some l) as Hfl by by rewrite Hpl.
    split; [|done]. apply put_family_ok; [done|]. apply record_ok; [done..|].
    intros b Hb. apply (Hrok l Hfl). auto.
Qed.

Lemma durable_trans m1 m2 m3 : durable_kept m1 m2 -> durable_kept m2 m3 -> durable_kept m1 m3.
Proof. intros H12 H23 key l b Hl. by rewrite H23, H12. Qed.

(** A broadcast in flight of another layer is waited for and forgotten. *)
Lemma drop_pending_ok g key :
  group_ok g ->
  exists g', (if pending_remote_broadcast (family_state g key)
      then modify (put_family key (finalize_pending_broadcast (family_state g key) false))
      else mret tt : M group unit) g = (Ok tt, g') /\
    group_ok g' /\ g_mem g' = g_mem g /\ same_active g g' /\
    pending_remote_broadcast (family_state g' key) = false.
Proof.
  intros Hg. destruct (pending_remote_broadcast (family_state g key)) eqn:Epf; [|by exists g].
  destruct (finalize_family_ok g key false Hg) as [? ?]. eexists. by split.
Qed.

Lemma same_active_trans g1 g2 g3 : same_active g1 g2 -> same_active g2 g3 -> same_active g1 g3.
Proof. intros [] []; split; congruence. Qed.

Lemma prefetch_ok c name l g :
  call c name l -> group_ok g ->
  exists g', prefetch_dsa_cache_from_owner place sparse parse (Some st) false c name g = (Ok tt, g') /\
    group_ok g' /\ same_active g g' /\ durable_kept (g_mem g) (g_mem g').
Proof.
  intros Hcall Hg. pose proof Hcall as [Hparse Hcov Hown Hlay Hnum Hbl Hpos].
  set (key := family_key c name).
  destruct (register_ok c name l g Hg) as [Hg1 _]. set (g1 := register_layer_cache c name l g) in *.
  assert (group_ok (put_family key (family_state g1 key) g1)) as Hg2
    by (apply put_family_ok; [done|by apply family_state_ok]).
  set (g2 := put_family key (family_state g1 key) g1) in *.
  unfold prefetch_dsa_cache_from_owner. rewrite (proj2 (Z.eqb_neq _ _) Hnum). cbn [orb].
  erewrite M_bind_ok by (unfold lift; by rewrite Hparse). rewrite Hcov. cbn [negb].
  erewrite M_bind_ok by done. fold g1. erewrite M_bind_ok by done. fold key g2.
  erewrite M_bind_ok by done. cbn zeta.
  case_bool_decide as Hrl; [by exists g2|].
  destruct (_ && _); [by exists g2|].
  destruct (drop_pending_ok g2 key Hg2) as (g3 & Er & Hg3 & Hm3 & Ha3 & Hp3).
  erewrite M_bind_ok by exact Er.
  erewrite M_bind_ok by (unfold lift; by rewrite Hown). erewrite M_bind_ok by done.
  destruct (async_ok c key l g3 Hg3 Hlay Hbl Hpos Hp3) as (Hg4 & Ha4 & Hd4). rewrite Hm3 in Hd4.
  destruct (broadcast_tensor_from_owner_async place sparse c key l (owner l) g3) as [sent g4].
  cbn [snd] in *. erewrite M_bind_ok by done.
  assert (same_active g g4) as Hag4 by exact (same_active_trans g g3 g4 Ha3 Ha4).
  destruct sent; [by exists g4|].
  destruct (broadcast_ok c name l g4 Hcall Hg4) as (g5 & Er5 & Hg5 & _ & Ha5 & Hd5).
  exists g5. split_and!; [done..|by eapply same_active_trans|by eapply durable_trans].
Qed.

(** *** Updates against one unsplit cache *)

(** The cache as its owners hold it: a family, a layer, a block. *)
Definition durable m (key : string) (l b : Z) : Row := row_at m key (owner l) l b.

(** What a write does to an unsplit cache. *)
Definition spec_write (a : string -> Z -> Z -> Row) (key : string) (l : Z) (new : Z -> option Row)
    : string -> Z -> Z -> Row :=
  fun key' l' b => if decide (key' = key /\ l' = l) then default (a key' l' b) (new b) else a key' l' b.

Definition same_cache (a a' : string -> Z -> Z -> Row) : Prop :=
  forall key l b, layer key l -> a' key l b = a key l b.

Lemma write_durable m key l commits new :
  layer key l -> commits (owner l) = true ->
  same_cache (spec_write (durable m) key l new) (durable (write_rows place m key l commits new)).
Proof.
  intros Hl Hc key' l' b Hl'. unfold durable, spec_write. case_decide as Hs.
  - destruct Hs as [-> ->]. by rewrite write_row, Hc.
  - unfold row_at, write_rows. case_bool_decide as Hp; [|done]. destruct Hp as [-> Hp].
    destruct (decide (l' = l)) as [->|Hne]; [by destruct Hs|].
    by apply (own_slot_private key l' l) in Hp.
Qed.

(** Every rank reads the unsplit cache's rows of a layer. *)
Definition served (a : string -> Z -> Z -> Row) g c key l : Prop :=
  forall r b, wanted g c b -> row_at (g_mem g) key r l b = a key l b.

Lemma write_then_broadcast c name l g commits new :
  call c name l -> group_ok g -> commits (owner l) = true ->
  group_ok (set_mem (write_rows place (g_mem g) (family_key c name) l commits new) g) ->
  exists g', broadcast_dsa_cache_from_owner place sparse parse (Some st) false c name
      (set_mem (write_rows place (g_mem g) (family_key c name) l commits new) g) = (Ok tt, g') /\
    group_ok g' /\ same_active g g' /\
    same_cache (spec_write (durable (g_mem g)) (family_key c name) l new) (durable (g_mem g')) /\
    served (spec_write (durable (g_mem g)) (family_key c name) l new) g' c (family_key c name) l.
Proof.
  intros Hcall Hg Hc Hg1. set (key := family_key c name) in *.
  destruct (broadcast_ok c name l _ Hcall Hg1) as (g' & Er & Hg' & Hs & Ha & Hd).
  assert (same_cache (spec_write (durable (g_mem g)) key l new) (durable (g_mem g'))) as Hcache.
  { intros k l' b Hl'. unfold durable at 1. rewrite (Hd k l' b Hl').
    apply write_durable; [|done..]. apply (ca_layer _ _ _ Hcall). }
  exists g'. split_and!; [done..|]. intros r b Hb. transitivity (durable (g_mem g') key l b); [apply (Hs b Hb r)|].
  apply Hcache, (ca_layer _ _ _ Hcall).
Qed.

(** The probe says yes, or the scratch holds another layer, or the rows written
    are not among those the scratch already has. *)
Definition mla_guard g c name l (new : Z -> option Row) : Prop :=
  match begin_mla_dsa_cache_write sparse parse (Some st) c name g with
  | (Ok true, _) => True
  | (_, g') => remote_layer_id (family_state g' (family_key c name)) <> Some l \/
      forall b, is_Some (new b) -> ~ known (family_key c name) (family_state g' (family_key c name)) b
  end.

Lemma owner_writes_owner l : owner_writes l (owner l) = true.
Proof. by apply bool_decide_eq_true. Qed.

Lemma write_rows_ext m key l commits commits' new :
  (forall r, commits r = commits' r) ->
  forall r k s b, write_rows place m key l commits new r k s b = write_rows place m key l commits' new r k s b.
Proof. intros Hc r k s b. unfold write_rows. by rewrite Hc. Qed.

Lemma mla_update_ok c name l new g :
  call c name l -> group_ok g -> mla_guard g c name l new ->
  exists g', mla_cache_update place sparse parse (Some st) false c name l (owner_writes l) new g = (Ok tt, g') /\
    group_ok g' /\ same_active g g' /\
    same_cache (spec_write (durable (g_mem g)) (family_key c name) l new) (durable (g_mem g')) /\
    served (spec_write (durable (g_mem g)) (family_key c name) l new) g' c (family_key c name) l.
Proof.
  intros Hcall Hg Hguard. pose proof (ca_layer _ _ _ Hcall) as Hl. set (key := family_key c name) in *.
  destruct (begin_ok c name l g Hcall Hg) as (flag & g1 & Er & Hg1 & Ha1 & Hm1 & Hp1 & Hyes).
  unfold mla_guard in Hguard. rewrite Er in Hguard. fold key in Hguard, Hp1, Hyes.
  unfold mla_cache_update. erewrite M_bind_ok by exact Er. erewrite M_bind_ok by done. fold key.
  destruct (write_then_broadcast c name l g1 (fun r => owner_writes l r || flag) new)
    as (g' & Eb & Hg' & Ha' & Hc' & Hs'); [done|done|by rewrite owner_writes_owner| |].
  - apply (set_mem_ok g1 key); [done|intros; by apply write_other_key|].
    pose proof (family_state_ok g1 key Hg1) as Hf. fold key. destruct flag.
    + destruct (Hyes eq_refl) as [Hr Hp].
      eapply fam_ok_ext; [|by apply (all_write_fam_ok (g_mem g1) key l new)].
      intros. apply write_rows_ext. intros. by rewrite orb_true_r.
    + eapply fam_ok_ext; [|by apply (owner_write_fam_ok (g_mem g1) key l new)].
      intros. apply write_rows_ext. intros. by rewrite orb_false_r.
  - exists g'. rewrite Hm1 in Hc', Hs'. split_and!; [done..|by eapply same_active_trans|done|done].
Qed.

Lemma indexer_update_ok c name l new g :
  call c name l -> group_ok g ->
  exists g', indexer_cache_update place sparse parse (Some st) false c name l (owner_writes l) new g = (Ok tt, g') /\
    group_ok g' /\ same_active g g' /\
    same_cache (spec_write (durable (g_mem g)) (family_key c name) l new) (durable (g_mem g')) /\
    served (spec_write (durable (g_mem g)) (family_key c name) l new) g' c (family_key c name) l.
Proof.
  intros Hcall Hg. pose proof (ca_layer _ _ _ Hcall) as Hl. set (key := family_key c name) in *.
  destruct (invalidate_broadcast_ok c name l g Hcall Hg) as (g1 & Er & Hg1 & Ha1 & Hm1 & Hr1 & Hp1).
  unfold indexer_cache_update. erewrite M_bind_ok by exact Er. erewrite M_bind_ok by done. fold key.
  destruct (write_then_broadcast c name l g1 (owner_writes l) new)
    as (g' & Eb & Hg' & Ha' & Hc' & Hs'); [done|done|by rewrite owner_writes_owner| |].
  - apply (set_mem_ok g1 key); [done|intros; by apply write_other_key|].
    apply owner_write_fam_ok; [done|by apply family_state_ok|by left|done].
  - exists g'. rewrite Hm1 in Hc', Hs'. split_and!; [done..|by eapply same_active_trans|done|done].
Qed.

(** *** What earlier calls left in a scratch

    The answer of the probe follows from the calls made before.  Of each layer
    a scratch holds nothing ([Absent]), or what was sent under the blocks that
    are active now ([Fresh]), or what was sent under other blocks ([Stale]). *)

Inductive holding := Absent | Fresh | Stale.

#[export] Instance holding_eq_dec : EqDecision holding.
Proof. solve_decision. Defined.

(** A selection that leaves the attention nothing to ask for. *)
Definition serves g c (ids : option (list Z)) (full : bool) : Prop :=
  full = true \/
  match active_block_ids_for sparse g c with
  | Some act => exists k, ids = Some k /\ forall b, b ∈ act -> b ∈ k
  | None => False
  end.

(** The rows sent and the rows on their way. *)
Definition serves_now g c f : Prop := serves g c (remote_block_ids f) (remote_full f).
Definition serves_soon g c f : Prop := serves g c (pending_remote_block_ids f) (pending_remote_full f).

Definition nothing_known (key : string) f : Prop := forall b, ~ known key f b.

Definition holding_ok g (key : string) (l : Z) (h : holding) : Prop :=
  let f := family_state g key in
  match h with
  | Absent =>
      (remote_layer_id f = Some l -> nothing_known key f) /\
      (pending_remote_broadcast f = true -> pending_remote_layer_id f <> Some l)
  | Fresh => forall c, c_blocks c = blocks key ->
      (remote_layer_id f = Some l -> nothing_known key f \/ serves_now g c f) /\
      (pending_remote_broadcast f = true -> pending_remote_layer_id f = Some l -> serves_soon g c f)
  | Stale => True
  end.

(** A layer that is absent counts as one that is there in full. *)
Lemma holding_weaken g key l h :
  holding_ok g key l Absent -> holding_ok g key l h.
Proof. destruct h; [done| |done]. intros [Hr Hp] c _. split; [by intros; left; apply Hr|]. intros ? ?. by destruct Hp. Qed.

Lemma serves_active g g' c ids full :
  same_active g g' -> serves g c ids full -> serves g' c ids full.
Proof. unfold serves, active_block_ids_for. by intros [-> ->]. Qed.

(** Only the state of the family and the active blocks matter. *)
Lemma holding_kept g g' key l h :
  same_active g g' -> family_state g' key = family_state g key ->
  holding_ok g key l h -> holding_ok g' key l h.
Proof.
  intros Ha Hf. unfold holding_ok. rewrite Hf. destruct h; [done| |done].
  intros Hk c Hc. destruct (Hk c Hc) as [Hr Hp]. split.
  - intros Hl. destruct (Hr Hl); [by left|right]. by eapply serves_active.
  - intros Hb Hl. eapply serves_active; [exact Ha|by apply Hp].
Qed.

Lemma forget_other_same l f : remote_layer_id f = Some l -> forget_other l f = f.
Proof. intros E. unfold forget_other. by rewrite decide_True. Qed.

Lemma filter_none (P : Z -> Prop) `{forall b, Decision (P b)} (act : list Z) :
  (forall b, b ∈ act -> ~ P b) -> filter P act = [].
Proof.
  intros Hn. destruct (filter P act) as [|x r] eqn:E; [done|].
  assert (x ∈ filter P act) as [Hx Hin]%list_elem_of_filter by (rewrite E; by left). by destruct (Hn x Hin).
Qed.

(** With nothing to ask for no collective is needed. *)
Lemma serves_enough g c l f :
  active_ok g -> remote_layer_id f = Some l -> serves_now g c f ->
  exists ids full, prepare_remote_selection sparse g c l f = (ids, full, false, f).
Proof.
  intros Ha Hl Hs. unfold prepare_remote_selection. rewrite decide_True by done.
  unfold serves_now, serves in Hs. destruct (active_block_ids_for sparse g c) as [act|] eqn:E.
  - destruct (active_ids_spec g c act Ha E) as [Hne _].
    destruct (remote_full f); [by eauto|]. destruct Hs as [?|(k & -> & Hk)]; [done|].
    destruct k as [|x k].
    { destruct act as [|b act]; [done|]. destruct (not_elem_of_nil b). apply Hk. by left. }
    rewrite filter_none; [by do 2 eexists|]. intros b Hb Hn. by apply Hn, Hk.
  - destruct Hs as [->|?]; [by eauto|done].
Qed.

(** What a completed broadcast records is enough. *)
Lemma record_serves g c l f ids full needs f' :
  active_ok g -> prepare_remote_selection sparse g c l f = (ids, full, needs, f') ->
  serves_now g c (record_remote_selection f' l ids full).
Proof.
  intros Ha. unfold prepare_remote_selection. fold (forget_other l f). set (f1 := forget_other l f).
  assert (remote_layer_id f1 <> Some l -> remote_block_ids f1 = None) as Hf1.
  { unfold f1, forget_other. by case_decide. }
  clearbody f1. unfold serves_now, serves.
  destruct (active_block_ids_for sparse g c) as [act|] eqn:E; [|by intros [= <- <- <- <-]; left].
  destruct (active_ids_spec g c act Ha E) as [Hne _].
  destruct (remote_full f1) eqn:Ef; intros [= <- <- <- <-]; right; unfold record_remote_selection; cbn [negb].
  - destruct act as [|a act]; [done|]. destruct (if bool_decide _ then _ else _) as [k0|]; simpl; [|by eauto].
    eexists. split; [done|]. intros b Hb. apply unique_elem, elem_of_app. by right.
  - destruct (remote_block_ids f1) as [k|] eqn:Ek.
    + destruct (decide (remote_layer_id f1 = Some l)) as [Hl|Hl]; [|by specialize (Hf1 Hl)].
      rewrite bool_decide_eq_true_2 by done.
      assert (forall b, b ∈ act -> b ∈ k \/ b ∈ filter (fun b => b ∉ k) act) as Hsplit.
      { intros b Hb. destruct (decide (b ∈ k)); [by left|right]. by apply list_elem_of_filter. }
      destruct k as [|x k].
      * destruct act as [|a act]; [done|]. simpl. eexists. split; [done|]. intros b Hb. by apply unique_elem.
      * destruct (filter (fun b => b ∉ x :: k) act) as [|y r]; simpl; eexists; (split; [done|]); intros b Hb.
        -- destruct (Hsplit b Hb) as [?|?%not_elem_of_nil]; done.
        -- apply unique_elem. change (x :: k ++ y :: r) with ((x :: k) ++ y :: r). by apply elem_of_app, Hsplit.
    + destruct act as [|a act]; [done|]. simpl. destruct (bool_decide _); simpl; by eauto.
Qed.

(** ** The probe of a write *)

(** A broadcast on its way that arrives is enough if it was enough. *)
Lemma arrived_serves g c l f :
  active_ok g -> 0 < c_blocks c -> pending_remote_broadcast f = true -> pending_remote_layer_id f = Some l ->
  serves_soon g c f -> serves_now g c (finalize_pending_broadcast f true).
Proof.
  intros Ha Hpos Hp Hl Hs. unfold finalize_pending_broadcast. rewrite Hp, Hl. cbn [negb].
  unfold serves_now, serves_soon, serves in *. cbn [remote_block_ids remote_full].
  unfold record_remote_selection. destruct (pending_remote_full f); [by left|]. destruct Hs as [?|Hs]; [done|].
  right. destruct (active_block_ids_for sparse g c) as [act|] eqn:E; [|done].
  destruct (active_ids_spec g c act Ha E) as [Hne _]. destruct Hs as (k & -> & Hk).
  destruct k as [|x k].
  { destruct act as [|b act]; [done|]. destruct (not_elem_of_nil b). apply Hk. by left. }
  destruct (if bool_decide _ then _ else _) as [k0|]; simpl; [|by eauto].
  eexists. split; [done|]. intros b Hb. apply unique_elem, elem_of_app. right. by apply Hk.
Qed.

Lemma probe_guard c name l new g h :
  call c name l -> group_ok g -> holding_ok g (family_key c name) l h -> h <> Stale ->
  mla_guard g c name l new.
Proof.
  intros Hcall Hg Hh Hns. destruct Hcall as [Hparse Hcov Hown Hlay Hnum Hbl Hpos].
  assert (holding_ok g (family_key c name) l Fresh) as Hf by (destruct h; [by apply holding_weaken|done|done]).
  destruct (Hf c Hbl) as [Hr Hp]. clear Hf Hh. unfold mla_guard, begin_mla_dsa_cache_write.
  rewrite (proj2 (Z.eqb_neq _ _) Hnum), Hparse. unfold get_state. unfold mbind at 1, M_bind at 1.
  set (key := family_key c name) in *. set (f := family_state g key) in *.
  set (f1 := if bool_decide (pending_remote_layer_id f = Some l) then finalize_pending_broadcast f true else f).
  assert (remote_layer_id f1 = Some l -> nothing_known key f1 \/ serves_now g c f1) as H1.
  { unfold f1. case_bool_decide as Hpl; [|done]. destruct (pending_remote_broadcast f) eqn:Hpb.
    - intros _. right. apply (arrived_serves g c l); [apply Hg|done..|by apply Hp].
    - unfold finalize_pending_broadcast. by rewrite Hpb. }
  clearbody f1. destruct (decide (remote_layer_id f1 = Some l)) as [Hl|Hl].
  - destruct (H1 Hl) as [Hn|Hs].
    + destruct (prepare_remote_selection sparse g c l f1) as [[[ids full] needs] f'] eqn:E.
      assert (f' = f1) as -> .
      { revert E. unfold prepare_remote_selection. rewrite decide_True by done. repeat case_match; by intros [= <- <- <- <-]. }
      cbn. rewrite (bool_decide_eq_true_2 _ Hl). destruct needs; cbn; [|done]. right. intros b _.
      rewrite family_state_put. apply Hn.
    + destruct (serves_enough g c l f1 (proj2 Hg) Hl Hs) as (ids & full & ->). cbn.
      by rewrite (bool_decide_eq_true_2 _ Hl).
  - destruct (prepare_remote_selection sparse g c l f1) as [[[ids full] needs] f'] eqn:E.
    assert (remote_layer_id f' = remote_layer_id f1) as Hl'.
    { revert E. unfold prepare_remote_selection. rewrite decide_False by done. repeat case_match; by intros [= <- <- <- <-]. }
    cbn. rewrite bool_decide_eq_false_2 by (by rewrite Hl'). cbn. left. by rewrite family_state_put, Hl'.
Qed.
(** *** What the calls leave *)

Lemma serves_cache g c c' ids full : c_blocks c' = c_blocks c -> serves g c ids full -> serves g c' ids full.
Proof. unfold serves, active_block_ids_for. by intros ->. Qed.

Lemma put_family_other key key' f g : key' <> key -> family_state (put_family key f g) key' = family_state g key'.
Proof. intros Hne. unfold family_state. simpl. by rewrite dget_dset, decide_False. Qed.

(** The layer is there in full and no other layer of the family is. *)
Definition holds_only g (key : string) (l : Z) : Prop :=
  forall l', holding_ok g key l' (if decide (l' = l) then Fresh else Absent).

(** The other families are as they were. *)
Definition only_family (key : string) g g' : Prop :=
  forall key', key' <> key -> family_state g' key' = family_state g key'.

Lemma only_family_trans key g1 g2 g3 : only_family key g1 g2 -> only_family key g2 g3 -> only_family key g1 g3.
Proof. intros H1 H2 key' Hk. by rewrite H2, H1. Qed.

Lemma holds_only_intro g c key l :
  remote_layer_id (family_state g key) = Some l -> pending_remote_broadcast (family_state g key) = false ->
  c_blocks c = blocks key -> serves_now g c (family_state g key) -> holds_only g key l.
Proof.
  intros Hl Hp Hbl Hs l'. case_decide as Hl'; [subst l'|].
  - intros c' Hc'. split; [|by rewrite Hp]. intros _. right.
    eapply serves_cache; [|exact Hs]. congruence.
  - split; [congruence|]. by rewrite Hp.
Qed.

Lemma finalize_pending_false f set : pending_remote_broadcast (finalize_pending_broadcast f set) = false.
Proof. unfold finalize_pending_broadcast. by destruct (pending_remote_broadcast f) eqn:E. Qed.

Lemma broadcast_holds c name l g g' :
  call c name l -> active_ok g ->
  broadcast_dsa_cache_from_owner place sparse parse (Some st) false c name g = (Ok tt, g') ->
  holds_only g' (family_key c name) l /\ only_family (family_key c name) g g'.
Proof.
  intros [Hparse Hcov Hown Hlay Hnum Hbl Hpos] Hg. set (key := family_key c name) in *.
  unfold broadcast_dsa_cache_from_owner. rewrite (proj2 (Z.eqb_neq _ _) Hnum). cbn [orb].
  erewrite M_bind_ok by (unfold lift; by rewrite Hparse). rewrite Hcov. cbn [negb].
  erewrite M_bind_ok by done. set (g1 := register_layer_cache c name l g). fold key.
  erewrite M_bind_ok by done. erewrite M_bind_ok by done.
  match goal with |- context [put_family key ?f g1] => set (f2 := f) end.
  assert (pending_remote_broadcast f2 = false) as Hp2 by apply finalize_pending_false.
  rewrite family_state_put. clearbody f2.
  assert (active_ok g1) as Ha1 by exact Hg. set (g2 := put_family key f2 g1).
  assert (only_family key g g2) as Ho.
  { intros key' Hk. unfold g2. by rewrite put_family_other. }
  destruct (bool_decide (remote_layer_id f2 = Some l) && remote_full f2) eqn:E.
  - apply andb_true_iff in E as [El%bool_decide_eq_true Ef]. intros [= <-]. split; [|done].
    apply (holds_only_intro g2 c); unfold g2; rewrite ?family_state_put; [done..|by left].
  - erewrite M_bind_ok by (unfold lift; by rewrite Hown). intros [= <-].
    unfold broadcast_tensor_from_owner, g2. rewrite family_state_put.
    destruct (prepare_remote_selection sparse (put_family key f2 g1) c l f2) as [[[ids full] needs] f'] eqn:Ep.
    pose proof (record_serves _ _ _ _ _ _ _ _ Ha1 Ep) as Hs.
    assert (pending_remote_broadcast f' = false) as Hp'.
    { rewrite <- Hp2. revert Ep. unfold prepare_remote_selection.
      repeat case_match; by intros [= <- <- <- <-]. }
    destruct (record_fields f' l ids full) as [Hrid Hrp]. rewrite Hp' in Hrp.
    set (f3 := record_remote_selection f' l ids full) in *.
    assert (forall m, holds_only (set_mem m (put_family key f3 (put_family key f2 g1))) key l /\
      only_family key g (set_mem m (put_family key f3 (put_family key f2 g1)))) as Hall.
    { intros m. assert (family_state (set_mem m (put_family key f3 (put_family key f2 g1))) key = f3) as Hf3
        by apply (family_state_put (put_family key f2 g1)).
      split; [apply (holds_only_intro _ c); rewrite ?Hf3; done|].
      intros key' Hk. change (family_state (put_family key f3 (put_family key f2 g1)) key' = family_state g key').
      by rewrite !put_family_other. }
    destruct needs; [apply Hall|]. destruct (Hall (g_mem g)) as [H1 H2]. split.
    + intros l'. eapply holding_kept; [| |apply H1]; done.
    + exact H2.
Qed.
(** A layer sent ahead: nothing is sent when some of it is there already. *)
Definition send_ahead (h : holding) : holding := match h with Absent => Fresh | _ => h end.

Lemma holding_ahead g key l h : holding_ok g key l h -> holding_ok g key l (send_ahead h).
Proof. destruct h; [apply holding_weaken|done..]. Qed.

(** Only the layer is there, in full, so whatever was said of any layer holds. *)
Lemma holds_only_any g key l l' h :
  holds_only g key l -> l' <> l \/ h <> Absent -> holding_ok g key l' h.
Proof.
  intros Ho Hor. specialize (Ho l'). case_decide as Hl; [|by apply holding_weaken].
  destruct h; [by destruct Hor|done|done].
Qed.

Lemma holds_only_ahead g key l l' h :
  holds_only g key l -> holding_ok g key l' (if decide (l' = l) then send_ahead h else h).
Proof. intros Ho. apply (holds_only_any g key l); [done|]. case_decide; [right; by destruct h|by left]. Qed.

(** An asynchronous broadcast of a layer the scratch has nothing of. *)
Lemma async_holds g c key l g' :
  active_ok g -> c_blocks c = blocks key -> remote_layer_id (family_state g key) <> Some l ->
  broadcast_tensor_from_owner_async place sparse c key l (owner l) g = (true, g') ->
  holds_only g' key l /\ only_family key g g'.
Proof.
  intros Ha Hbl Hl. unfold broadcast_tensor_from_owner_async. destruct (g_comm g); [|done]. cbn [negb].
  set (f := family_state g key) in *.
  destruct (prepare_remote_selection sparse g c l f) as [[[ids full] needs] f'] eqn:E.
  destruct needs; [|done]. intros [= <-].
  assert (remote_layer_id f' = remote_layer_id f /\ nothing_known key f' /\ serves g c ids full) as (Hr & Hn & Hs).
  { revert E. unfold prepare_remote_selection. rewrite decide_False by done. cbn [remote_full remote_block_ids].
    assert (forall a b c d e, nothing_known key (FamState a None false b c d e)) as Hno
      by (intros ????? b0 [[? _]|(? & ? & _)]; done).
    destruct (active_block_ids_for sparse g c) as [act|] eqn:Ea; intros E; injection E as;
      subst; (split_and!; [done|apply Hno|]); [|by left].
    right. rewrite Ea. by eauto. }
  set (f2 := FamState (remote_layer_id f') (remote_block_ids f') (remote_full f') (Some l) ids full true).
  set (g2 := set_mem _ _). assert (family_state g2 key = f2) as Hf2 by apply (family_state_put g key f2).
  split.
  - intros l'. unfold holding_ok. rewrite Hf2. case_decide as Hl'; [subst l'|].
    + intros c' Hc'. split; [intros _; by left|]. intros _ _. apply (serves_cache _ c); [congruence|].
      by apply (serves_active g).
    + split; [done|]. intros _. simpl. congruence.
  - intros key' Hk. change (family_state (put_family key f2 g) key' = family_state g key').
    by rewrite put_family_other.
Qed.

Lemma prefetch_holds c name l g g' :
  call c name l -> group_ok g ->
  prefetch_dsa_cache_from_owner place sparse parse (Some st) false c name g = (Ok tt, g') ->
  (forall l' h, holding_ok g (family_key c name) l' h ->
     holding_ok g' (family_key c name) l' (if decide (l' = l) then send_ahead h else h)) /\
  only_family (family_key c name) g g'.
Proof.
  intros Hcall Hg. pose proof Hcall as [Hparse Hcov Hown Hlay Hnum Hbl Hpos].
  set (key := family_key c name) in *. unfold prefetch_dsa_cache_from_owner.
  rewrite (proj2 (Z.eqb_neq _ _) Hnum). cbn [orb].
  erewrite M_bind_ok by (unfold lift; by rewrite Hparse). rewrite Hcov. cbn [negb].
  destruct (register_ok c name l g Hg) as [Hg1 _]. set (g1 := register_layer_cache c name l g) in *.
  erewrite M_bind_ok by done. fold g1 key. set (f := family_state g1 key) in *.
  assert (group_ok (put_family key f g1)) as Hg2 by (apply put_family_ok; [done|by apply family_state_ok]).
  erewrite M_bind_ok by done. fold f. set (g2 := put_family key f g1) in *.
  erewrite M_bind_ok by done. cbn zeta.
  assert (family_state g2 key = f) as Hf2 by apply family_state_put. rewrite Hf2.
  assert (only_family key g g2) as Ho2 by (intros key' Hk; unfold g2; by rewrite put_family_other).
  assert ((forall l' h, holding_ok g key l' h ->
    holding_ok g2 key l' (if decide (l' = l) then send_ahead h else h)) /\ only_family key g g2) as Hsame.
  { split; [|done]. intros l' h Hh. assert (holding_ok g2 key l' h) by (eapply (holding_kept g); done).
    case_decide; [by apply holding_ahead|done]. }
  case_bool_decide as Hrl; [by intros [= <-]|].
  destruct (pending_remote_broadcast f && bool_decide (pending_remote_layer_id f = Some l)) eqn:Epl; [by intros [= <-]|].
  clear Hsame. set (f3 := if pending_remote_broadcast f then finalize_pending_broadcast f false else f).
  assert (exists g3, (if pending_remote_broadcast f
      then modify (put_family key (finalize_pending_broadcast f false)) else mret tt : M group unit) g2 = (Ok tt, g3) /\
    group_ok g3 /\ only_family key g g3 /\ family_state g3 key = f3) as (g3 & Er & Hg3 & Ho3 & Hf3).
  { unfold f3. destruct (pending_remote_broadcast f) eqn:Epf; [|by exists g2].
    destruct (finalize_family_ok g2 key false Hg2) as [Hk _]. rewrite Hf2 in Hk. eexists. split; [done|].
    split; [done|]. split; [|apply family_state_put]. intros key' Hk'. rewrite put_family_other by done. by apply Ho2. }
  assert (remote_layer_id (family_state g3 key) <> Some l /\ pending_remote_broadcast f3 = false) as [Hr3 Hp3].
  { rewrite Hf3. unfold f3. destruct (pending_remote_broadcast f) eqn:Epf; [|done].
    split; [|apply finalize_pending_false]. unfold finalize_pending_broadcast. by rewrite Epf. }
  erewrite M_bind_ok by exact Er. erewrite M_bind_ok by (unfold lift; by rewrite Hown).
  erewrite M_bind_ok by done.
  destruct (async_ok c key l g3 Hg3 Hlay Hbl Hpos ltac:(by rewrite Hf3)) as (Hg4 & _ & _).
  pose proof (async_holds g3 c key l) as Hah.
  destruct (broadcast_tensor_from_owner_async place sparse c key l (owner l) g3) as [sent g4] eqn:Ea.
  cbn [snd] in Hg4. erewrite M_bind_ok by done. destruct sent.
  - intros [= <-]. destruct (Hah g4 (proj2 Hg3) Hbl Hr3 eq_refl) as [Hh Ho].
    split; [intros l' h _; by apply holds_only_ahead|by eapply only_family_trans].
  - intros Eb. destruct (broadcast_holds c name l g4 g' Hcall (proj2 Hg4) Eb) as [Hh Ho]. fold key in Hh, Ho.
    split; [intros l' h _; by apply holds_only_ahead|]. eapply only_family_trans; [exact Ho3|].
    eapply only_family_trans; [|exact Ho].
    revert Ea. unfold broadcast_tensor_from_owner_async. destruct (g_comm g3); [|by intros [= <-]].
    cbn [negb]. destruct (prepare_remote_selection sparse g3 c l (family_state g3 key)) as [[[ids full] needs] f'].
    destruct needs; [done|]. intros [= <-] key' Hk. by rewrite put_family_other.
Qed.

(** *** New active blocks *)

(** The blocks changed: what was sent before may be too little now. *)
Definition blocks_changed (h : holding) : holding := match h with Absent => Absent | _ => Stale end.

Lemma invalidate_absent key l ids f :
  (remote_layer_id f = Some l -> nothing_known key f) /\
    (pending_remote_broadcast f = true -> pending_remote_layer_id f <> Some l) ->
  pending_remote_broadcast (invalidate_family ids f) = false /\
  (remote_layer_id (invalidate_family ids f) = Some l -> nothing_known key (invalidate_family ids f)).
Proof.
  intros [Hr Hp]. set (f1 := if pending_remote_broadcast f then finalize_pending_broadcast f true else f).
  assert (pending_remote_broadcast f1 = false) as Hp1.
  { unfold f1. destruct (pending_remote_broadcast f) eqn:E; [apply finalize_pending_false|done]. }
  assert (remote_layer_id f1 = Some l -> nothing_known key f1) as Hr1.
  { unfold f1. destruct (pending_remote_broadcast f) eqn:E; [|done]. unfold finalize_pending_broadcast. rewrite E.
    specialize (Hp eq_refl). cbn [negb]. destruct (pending_remote_layer_id f) as [l'|]; [|exact Hr].
    cbn [remote_layer_id]. rewrite (proj1 (record_fields _ _ _ _)). congruence. }
  unfold invalidate_family. fold f1. clearbody f1. destruct ids as [act|].
  - destruct (remote_full f1) eqn:Ef; [done|]. destruct (remote_block_ids f1) as [k|] eqn:Ek; [|done].
    split; [done|]. intros Hl b [[? _]|(k' & [= <-] & [_ Hb]%list_elem_of_filter)].
    { cbn in *. congruence. }
    apply (Hr1 Hl b). right. eauto.
  - destruct (remote_full f1) eqn:Ef; [done|]. split; [done|]. intros Hl b [[? _]|(k' & ? & _)]; [cbn in *; congruence|done].
Qed.

Lemma set_active_family ids g key :
  family_state (set_active_dsa_broadcast_block_ids ids g) key = family_state g key \/
  exists act, family_state (set_active_dsa_broadcast_block_ids ids g) key = invalidate_family act (family_state g key).
Proof.
  unfold set_active_dsa_broadcast_block_ids. case_decide; [by left|]. right.
  match goal with |- context [invalidate_remote_broadcast_state ?a g] => exists a; set (act := a) end.
  unfold family_state. simpl. assert (invalidate_family act fam0 = fam0) as Hz by by destruct act.
  induction (g_families g) as [|[k f] d IH]; [by rewrite <- Hz at 1|]. simpl. by case_decide.
Qed.

(** The same blocks again. *)
Lemma set_active_same ids g c :
  active_ok g -> g_active_ids (set_active_dsa_broadcast_block_ids ids g) = g_active_ids g ->
  active_block_ids_for sparse (set_active_dsa_broadcast_block_ids ids g) c = active_block_ids_for sparse g c /\
  forall key, family_state (set_active_dsa_broadcast_block_ids ids g) key = family_state g key.
Proof.
  intros Ha. unfold active_block_ids_for, set_active_dsa_broadcast_block_ids, active_ok in *.
  match goal with |- context [decide (g_active_ids g = ?a)] => set (act := a) end. cbn. intros E.
  rewrite decide_True by done. split; [|done]. rewrite E. destruct (g_active_ids g) as [[|x r]|]; [by destruct Ha| |done].
  by rewrite (proj2 Ha).
Qed.

Lemma set_active_holds ids g key l h :
  active_ok g -> holding_ok g key l h ->
  holding_ok (set_active_dsa_broadcast_block_ids ids g) key l
    (if decide (g_active_ids (set_active_dsa_broadcast_block_ids ids g) = g_active_ids g)
     then h else blocks_changed h).
Proof.
  intros Ha Hh. case_decide as Hsame.
  - destruct h; [| |done]; unfold holding_ok in *.
    + by rewrite (proj2 (set_active_same ids g (Cache "" 0 0) Ha Hsame) key).
    + intros c Hc. destruct (set_active_same ids g c Ha Hsame) as [Hact Hf]. rewrite Hf.
      unfold serves_now, serves_soon, serves. rewrite Hact. by apply Hh.
  - destruct h; [|done|done]. cbn [blocks_changed]. unfold holding_ok in *. destruct (set_active_family ids g key) as [->|(act & ->)]; [done|].
    destruct (invalidate_absent key l act _ Hh) as [Hp Hr]. split; [done|]. by rewrite Hp.
Qed.

(** *** The steps before a broadcast *)

Lemma begin_only_family c name g :
  only_family (family_key c name) g (begin_mla_dsa_cache_write sparse parse (Some st) c name g).2.
Proof.
  unfold begin_mla_dsa_cache_write. case_match; [done|]. case_match; [|done].
  intros key' Hk. unfold get_state. unfold mbind at 1, M_bind at 1. cbn.
  destruct (prepare_remote_selection _ _ _ _ _) as [[[? ?] ?] ?]. by apply put_family_other.
Qed.

Lemma invalidate_only_family c name g :
  only_family (family_key c name) g (invalidate_dsa_cache_broadcast parse c name g).2.
Proof.
  unfold invalidate_dsa_cache_broadcast. case_match; [done|]. case_match; [|done].
  intros key' Hk. by apply put_family_other.
Qed.
Lemma active_ok_same g g' : same_active g g' -> active_ok g -> active_ok g'.
Proof. unfold active_ok. by intros [-> ->]. Qed.

Lemma mla_update_holds c name l commits new g g' :
  call c name l -> group_ok g ->
  mla_cache_update place sparse parse (Some st) false c name l commits new g = (Ok tt, g') ->
  holds_only g' (family_key c name) l /\ only_family (family_key c name) g g'.
Proof.
  intros Hcall Hg. destruct (begin_ok c name l g Hcall Hg) as (flag & g1 & Er & _ & Ha1 & _).
  pose proof (begin_only_family c name g) as Ho. rewrite Er in Ho.
  unfold mla_cache_update. erewrite M_bind_ok by exact Er. erewrite M_bind_ok by done. intros Eb.
  destruct (broadcast_holds c name l _ g' Hcall (active_ok_same g (set_mem _ g1) Ha1 (proj2 Hg)) Eb) as [Hh Ho'].
  split; [done|]. by apply (only_family_trans _ g g1).
Qed.

Lemma indexer_update_holds c name l commits new g g' :
  call c name l -> group_ok g ->
  indexer_cache_update place sparse parse (Some st) false c name l commits new g = (Ok tt, g') ->
  holds_only g' (family_key c name) l /\ only_family (family_key c name) g g'.
Proof.
  intros Hcall Hg. destruct (invalidate_broadcast_ok c name l g Hcall Hg) as (g1 & Er & _ & Ha1 & _).
  pose proof (invalidate_only_family c name g) as Ho. rewrite Er in Ho.
  unfold indexer_cache_update. erewrite M_bind_ok by exact Er. erewrite M_bind_ok by done. intros Eb.
  destruct (broadcast_holds c name l _ g' Hcall (active_ok_same g (set_mem _ g1) Ha1 (proj2 Hg)) Eb) as [Hh Ho'].
  split; [done|]. by apply (only_family_trans _ g g1).
Qed.
End coherence.
