(* ===== verification/SplitCache.v ===== *)
(** * The split cache against an unsplit one

    The packed layout of LayerSplit.v discharges the interface the broadcast
    needs, and the calls of a forward pass, in any order, keep the ranks of the
    group in step with a single cache that is not split. *)

From S2P Require Import Prelude PyString Tensors LayerSplit LayerSplitCorrect LayerBroadcast LayerBroadcastCorrect.
Import LayerSplit Broadcast.
Local Open Scope Z_scope.

Section plan.
Context `{TensorOps} {Row : Type}.
(** The plan: the ranks, the layers they share, and for each family the layers
    that have a cache in it and its number of blocks. *)
Context (size total : Z) (fam : string -> list Z) (blocks : string -> Z).
Context (sparse : bool) (parse : string -> result Z) (rank : Z).

Definition plan_state : LayerSplitState := SplitState rank size total 0.

(** Where rank [r] keeps layer [l] of a family. *)
Definition split_place (r : Z) (key : string) (l : Z) : Z :=
  match local_packed_slot_for_family_layer (SplitState r size total 0) l (fam key) with
  | Ok s => s
  | Err _ => -1
  end.

Definition plan_owner (l : Z) : Z :=
  match get_layer_owner l size total with Ok o => o | Err _ => -1 end.

Definition split_layer (key : string) (l : Z) : Prop := l ∈ fam key /\ 0 <= l < total.

Abbreviation memory := (memory (Row:=Row)).
Abbreviation group := (group (Row:=Row)).

(** ** Calls *)

Inductive event :=
  | Install (comm : bool)
  | BindCaches (caches : list (string * cache))
  | SetActive (tables : list (list Z))
  | PrefetchSame (l : Z)
  | PrefetchNext (l : Z) (kind : string)
  | Read (c : cache) (name : string) (l : Z)
  | IndexerWrite (c : cache) (name : string) (l : Z) (new : Z -> option Row)
  | MlaWrite (c : cache) (name : string) (l : Z) (new : Z -> option Row).

Definition run (e : event) : M group unit :=
  match e with
  | Install comm => modify (clear_on_install comm)
  | BindCaches caches => modify (register_dsa_cache_tensors parse (Some plan_state) caches)
  | SetActive tables => modify (set_active_from_tables sparse tables)
  | PrefetchSame l =>
      maybe_prefetch_same_layer_mla_cache split_place sparse parse (Some plan_state) false l
  | PrefetchNext l kind =>
      maybe_prefetch_next_dsa_cache split_place sparse parse (Some plan_state) false l kind
  | Read c name _ => broadcast_dsa_cache_from_owner split_place sparse parse (Some plan_state) false c name
  | IndexerWrite c name l new =>
      indexer_cache_update split_place sparse parse (Some plan_state) false c name l
        (fun r => bool_decide (r = plan_owner l)) new
  | MlaWrite c name l new =>
      mla_cache_update split_place sparse parse (Some plan_state) false c name l
        (fun r => bool_decide (r = plan_owner l)) new
  end.

(** A layer name and cache tensor the shard plan knows. *)
Record plan_call (c : cache) (name : string) (l : Z) : Prop := {
  pc_parse : parse name = Ok l;
  pc_layer : split_layer (family_key c name) l;
  pc_numel : c_numel c <> 0;
  pc_blocks : c_blocks c = blocks (family_key c name);
  pc_pos : 0 < c_blocks c
}.

Definition registered (g : group) (l : Z) (kind : string) : option cache :=
  dget (g_registry g) l ≫= fun slot => dget slot kind.

(** What the calls so far left of each layer of a family in the scratch slots:
    nothing, the rows sent under the blocks that are active now, or rows sent
    under other blocks. *)
Abbreviation history := (string -> Z -> holding).

(** A read or a write leaves its layer in the scratch, and no other layer. *)
Definition note_sent (h : history) (key : string) (l : Z) : history :=
  fun key' l' => if decide (key' = key) then (if decide (l' = l) then Fresh else Absent) else h key' l'.

(** A prefetch sends a layer that is not there and leaves one that is. *)
Definition note_ahead (g : group) (h : history) (l : Z) (kind : string) : history :=
  match registered g l kind with
  | Some c => fun key' l' =>
      if decide (key' = family_key c (registered_layer_name l kind) /\ l' = l)
      then send_ahead (h key' l') else h key' l'
  | None => h
  end.

Definition note (g : group) (h : history) (e : event) : history :=
  match e with
  | Install _ => fun _ _ => Absent
  | BindCaches _ => h
  | SetActive tables => fun key l =>
      if decide (g_active_ids (set_active_from_tables sparse tables g) = g_active_ids g)
      then h key l else blocks_changed (h key l)
  | PrefetchSame l => note_ahead g h l "mla"
  | PrefetchNext l kind => note_ahead g h (l + 1) kind
  | Read c name l | IndexerWrite c name l _ | MlaWrite c name l _ => note_sent h (family_key c name) l
  end.

(** The calls the runner may make.  A layer is not written by the MLA
    attention while the scratch slots hold rows of it that were sent under other
    active blocks: since those rows were sent, another layer of the family was
    read or written, or the layer itself was read again under the new blocks. *)
Definition event_ok (g : group) (h : history) (e : event) : Prop :=
  match e with
  | Install _ | BindCaches _ | SetActive _ => True
  | PrefetchSame l =>
      forall c, registered g l "mla" = Some c -> plan_call c (registered_layer_name l "mla") l
  | PrefetchNext l kind =>
      forall c, registered g (l + 1) kind = Some c -> plan_call c (registered_layer_name (l + 1) kind) (l + 1)
  | Read c name l | IndexerWrite c name l _ => plan_call c name l
  | MlaWrite c name l _ => plan_call c name l /\ h (family_key c name) l <> Stale
  end.

(** ** The unsplit cache *)

(** What a call does to a cache that is not split. *)
Definition spec (e : event) (a : string -> Z -> Z -> Row) : string -> Z -> Z -> Row :=
  match e with
  | IndexerWrite c name l new | MlaWrite c name l new => spec_write a (family_key c name) l new
  | _ => a
  end.

(** What the group holds of it: each layer as its owner has it. *)
Definition cache_of (g : group) : string -> Z -> Z -> Row :=
  durable split_place plan_owner (g_mem g).

(** The layer a call leaves ready to be read. *)
Definition target (e : event) : option (cache * string * Z) :=
  match e with
  | Read c name l | IndexerWrite c name l _ | MlaWrite c name l _ => Some (c, name, l)
  | _ => None
  end.

(** Nothing recorded yet. *)
Definition fresh (g : group) : Prop :=
  g_families g = [] /\ g_active_ids g = None /\ g_registry g = [].

Inductive reachable : group -> history -> Prop :=
  | reachable_fresh g : fresh g -> reachable g (fun _ _ => Absent)
  | reachable_step g h e g' :
      reachable g h -> event_ok g h e -> run e g = (Ok tt, g') -> reachable g' (note g h e).

Context (Hsize : 1 < size) (Htotal : 0 <= total).
Context (Hfam : forall key, Forall (Z.le 0) (fam key)).

Lemma plan_owner_ok l : 0 <= l < total ->
  get_layer_owner l size total = Ok (plan_owner l) /\ 0 <= plan_owner l < size /\
  resident (SplitState (plan_owner l) size total 0) l = true.
Proof.
  intros Hl. unfold plan_owner.
  destruct (owner_exists size total ltac:(lia) ltac:(lia) l Hl) as (o & E & Ho & Hlo). rewrite E.
  split; [done|]. split; [done|]. apply (resident_backbone (SplitState o size total 0)); simpl; try lia; done.
Qed.

#[export] Instance split_placement : Placement split_place plan_owner split_layer.
Proof.
  split. intros key l l' [Hl Hr] [Hl' Hr'] Hne. destruct (plan_owner_ok l Hr) as (_ & Ho & Hres).
  set (st := SplitState (plan_owner l) size total 0) in *.
  destruct (family_slots_safe st (fam key)) as (n & _ & Hs & Hd); simpl; try lia; [done|].
  destruct (Hs l Hl) as (s & E & _), (Hs l' Hl') as (s' & E' & _).
  unfold split_place. fold st. rewrite E, E'. specialize (Hd l l' s s' Hl Hl' Hne E E').
  by rewrite Hres in Hd.
Qed.

Abbreviation ok := (group_ok split_place plan_owner split_layer blocks).
Abbreviation unchanged := (same_cache split_layer).

Lemma plan_call_ok c name l :
  plan_call c name l -> call plan_owner split_layer blocks parse plan_state c name l.
Proof.
  intros [Hp [Hin Hl] Hn Hb Hpos]. destruct (plan_owner_ok l Hl) as (Ho & _).
  assert (covers plan_state l = true) as Hc.
  { unfold covers, local_index. simpl. rewrite Z.sub_0_r. apply andb_true_iff.
    rewrite Z.leb_le, Z.ltb_lt. done. }
  split; try done. unfold owner_of. rewrite Hc. simpl. unfold local_index. simpl. by rewrite Z.sub_0_r.
Qed.

Lemma registered_prefetch_ok g l kind :
  (forall c, registered g l kind = Some c -> plan_call c (registered_layer_name l kind) l) -> ok g ->
  exists g', prefetch_registered_layer split_place sparse parse (Some plan_state) false l kind g = (Ok tt, g') /\
    ok g' /\ unchanged (cache_of g) (cache_of g').
Proof.
  intros Hc Hg. unfold prefetch_registered_layer. erewrite M_bind_ok by done. fold (registered g l kind).
  destruct (registered g l kind) as [c|] eqn:E; [|by exists g].
  destruct (prefetch_ok split_place plan_owner split_layer blocks sparse parse plan_state
    c (registered_layer_name l kind) l g) as (g' & Er & Hg' & _ & Hd); [by apply plan_call_ok, Hc|done|].
  exists g'. split; [exact Er|]. split; [done|exact Hd].
Qed.

(** Every row the attention over a target may read, on every rank. *)
Definition readable (a : string -> Z -> Z -> Row) (g : group) (c : cache) (name : string) (l : Z) : Prop :=
  served split_place sparse a g c (family_key c name) l.

Lemma bind_caches_ok caches g :
  ok g -> ok (register_dsa_cache_tensors parse (Some plan_state) caches g) /\
  cache_of (register_dsa_cache_tensors parse (Some plan_state) caches g) = cache_of g.
Proof.
  simpl. revert g. induction caches as [|[name c] caches IH]; intros g Hg; [done|]. simpl.
  destruct (parse name) as [l|]; [|by apply IH].
  destruct (IH (register_layer_cache c name l g)) as [? ->]; [|done].
  by apply register_ok.
Qed.

(** The record of the calls is right about the scratch slots. *)
Definition remembers (g : group) (h : history) : Prop := forall key l, holding_ok blocks sparse g key l (h key l).

Lemma note_sent_ok g g' h key l :
  remembers g h -> same_active g g' -> holds_only blocks sparse g' key l -> only_family key g g' ->
  remembers g' (note_sent h key l).
Proof.
  intros Hh Ha Hs Ho key' l'. unfold note_sent. case_decide as Hk; [subst key'; apply Hs|].
  apply (holding_kept blocks sparse g); [done|by apply Ho|apply Hh].
Qed.

Lemma note_ahead_ok g g' h l kind :
  ok g -> remembers g h ->
  (forall c, registered g l kind = Some c -> plan_call c (registered_layer_name l kind) l) ->
  prefetch_registered_layer split_place sparse parse (Some plan_state) false l kind g = (Ok tt, g') ->
  remembers g' (note_ahead g h l kind).
Proof.
  intros Hg Hh Hc. unfold prefetch_registered_layer, note_ahead. erewrite M_bind_ok by done.
  fold (registered g l kind). destruct (registered g l kind) as [c|] eqn:E; [|by intros [= <-]].
  intros Er. pose proof (plan_call_ok _ _ _ (Hc c eq_refl)) as Hcall.
  destruct (prefetch_holds split_place plan_owner split_layer blocks sparse parse plan_state _ _ _ g g' Hcall Hg Er)
    as [Hk Ho].
  destruct (prefetch_ok split_place plan_owner split_layer blocks sparse parse plan_state _ _ _ g Hcall Hg)
    as (g'' & Er' & _ & Ha & _). rewrite Er in Er'. injection Er' as <-.
  intros key l'. destruct (decide (key = family_key c (registered_layer_name l kind))) as [->|Hne].
  - pose proof (Hk l' (h _ l') (Hh _ l')) as Hn. case_decide as Hl; case_decide as Hl2; naive_solver.
  - rewrite decide_False by naive_solver. apply (holding_kept blocks sparse g); [done|by apply Ho|apply Hh].
Qed.

Lemma note_ahead_weak g h l kind : remembers g h -> remembers g (note_ahead g h l kind).
Proof.
  intros Hh key l'. unfold note_ahead. destruct (registered g l kind); [|apply Hh].
  case_decide; [apply holding_ahead, Hh|apply Hh].
Qed.

Lemma bind_caches_keeps caches (g : group) :
  same_active g (register_dsa_cache_tensors parse (Some plan_state) caches g) /\
  forall key, family_state (register_dsa_cache_tensors parse (Some plan_state) caches g) key = family_state g key.
Proof.
  simpl. revert g. induction caches as [|[name c] caches IH]; intros g; [done|]. simpl.
  destruct (parse name) as [l|]; [|by apply IH]. apply (IH (register_layer_cache c name l g)).
Qed.

Lemma run_ok g h e :
  ok g -> remembers g h -> event_ok g h e ->
  exists g', run e g = (Ok tt, g') /\ ok g' /\ unchanged (spec e (cache_of g)) (cache_of g') /\
    match target e with
    | Some (c, name, l) => readable (spec e (cache_of g)) g' c name l
    | None => True
    end.
Proof.
  intros Hg Hh He. destruct e as [comm|caches|tables|l|l kind|c name l|c name l new|c name l new]; simpl in *.
  - eexists. split; [reflexivity|]. split; [|split; [|done]].
    + split; [done|]. apply (set_active_ok split_place plan_owner split_layer blocks None g Hg).
    + unfold clear_on_install, set_active_dsa_broadcast_block_ids. intros key l b Hl.
      unfold cache_of. simpl. by case_decide.
  - eexists. split; [reflexivity|]. by destruct (bind_caches_ok caches g Hg) as [? ->].
  - eexists. split; [reflexivity|]. split; [|split; [|done]].
    + unfold set_active_from_tables. repeat case_match; by apply set_active_ok.
    + unfold set_active_from_tables, set_active_dsa_broadcast_block_ids.
      intros key l b Hl. unfold cache_of. repeat case_match; done.
  - unfold maybe_prefetch_same_layer_mla_cache. case_match; [|by exists g].
    destruct (registered_prefetch_ok g l "mla" He Hg) as (g' & ? & ? & ?). by exists g'.
  - unfold maybe_prefetch_next_dsa_cache. case_match; [|by exists g].
    destruct (registered_prefetch_ok g (l + 1) kind He Hg) as (g' & ? & ? & ?). by exists g'.
  - destruct (broadcast_ok split_place plan_owner split_layer blocks sparse parse plan_state c name l g)
      as (g' & Er & Hg' & Hs & _ & Hd); [by apply plan_call_ok|done|].
    exists g'. split_and!; [done..|]. intros r b Hb. rewrite (Hs b Hb r).
    apply Hd, (pc_layer _ _ _ He).
  - destruct (indexer_update_ok split_place plan_owner split_layer blocks sparse parse plan_state c name l
      new g) as (g' & Er & Hg' & _ & Hd & Hs); [by apply plan_call_ok|done|].
    exists g'. by split_and!.
  - destruct He as [He Hns]. pose proof (probe_guard split_place plan_owner split_layer blocks sparse parse
      plan_state c name l new g _ (plan_call_ok c name l He) Hg (Hh _ _) Hns) as Hguard.
    destruct (mla_update_ok split_place plan_owner split_layer blocks sparse parse plan_state c name l
      new g) as (g' & Er & Hg' & _ & Hd & Hs); [by apply plan_call_ok|done|done|].
    exists g'. by split_and!.
Qed.

(** Each call keeps the record right. *)
Lemma note_ok g h e g' :
  ok g -> remembers g h -> event_ok g h e -> run e g = (Ok tt, g') -> remembers g' (note g h e).
Proof.
  intros Hg Hh He. destruct e as [comm|caches|tables|l|l kind|c name l|c name l new|c name l new]; simpl in *.
  - intros [= <-] key l. by split.
  - intros [= <-] key l. apply (holding_kept blocks sparse g); [| |apply Hh].
    + by destruct (bind_caches_keeps caches g).
    + by destruct (bind_caches_keeps caches g) as [_ ->].
  - intros [= <-] key l.
    assert (exists ids, set_active_from_tables sparse tables g = set_active_dsa_broadcast_block_ids ids g) as [ids ->]
      by (unfold set_active_from_tables; repeat case_match; eauto).
    apply set_active_holds; [apply Hg|apply Hh].
  - unfold maybe_prefetch_same_layer_mla_cache. case_match; [by apply note_ahead_ok|].
    intros [= <-]. by apply note_ahead_weak.
  - unfold maybe_prefetch_next_dsa_cache. case_match; [by apply note_ahead_ok|].
    intros [= <-]. by apply note_ahead_weak.
  - intros Er. pose proof (plan_call_ok _ _ _ He) as Hcall.
    destruct (broadcast_ok split_place plan_owner split_layer blocks sparse parse plan_state c name l g Hcall Hg)
      as (g'' & Er' & _ & _ & Ha & _). rewrite Er in Er'. injection Er' as <-.
    destruct (broadcast_holds split_place plan_owner split_layer blocks sparse parse plan_state c name l g g'
      Hcall (proj2 Hg) Er). by apply (note_sent_ok g).
  - intros Er. pose proof (plan_call_ok _ _ _ He) as Hcall.
    destruct (indexer_update_ok split_place plan_owner split_layer blocks sparse parse plan_state c name l new g Hcall Hg)
      as (g'' & Er' & _ & Ha & _). pose proof (eq_trans (eq_sym Er) Er') as [= <-].
    destruct (indexer_update_holds split_place plan_owner split_layer blocks sparse parse plan_state c name l _ new
      g g' Hcall Hg Er). by apply (note_sent_ok g).
  - intros Er. destruct He as [He Hns]. pose proof (plan_call_ok _ _ _ He) as Hcall.
    pose proof (probe_guard split_place plan_owner split_layer blocks sparse parse
      plan_state c name l new g _ Hcall Hg (Hh _ _) Hns) as Hguard.
    destruct (mla_update_ok split_place plan_owner split_layer blocks sparse parse plan_state c name l new g Hcall Hg Hguard)
      as (g'' & Er' & _ & Ha & _). pose proof (eq_trans (eq_sym Er) Er') as [= <-].
    destruct (mla_update_holds split_place plan_owner split_layer blocks sparse parse plan_state c name l _ new
      g g' Hcall Hg Er). by apply (note_sent_ok g).
Qed.

Lemma reachable_ok g h : reachable g h -> ok g /\ remembers g h.
Proof.
  induction 1 as [g (Hf & Ha & _)|g h e g' _ [IH IHh] He Er].
  - split; [split; [by rewrite Hf|]; unfold active_ok; by rewrite Ha|].
    intros key l. unfold holding_ok, family_state. rewrite Hf. by split.
  - split; [|by eapply note_ok].
    destruct (run_ok g h e IH IHh He) as (g'' & Er' & Hg'' & _). rewrite Er in Er'. by injection Er' as <-.
Qed.
End plan.

(** C1: the caches the ranks split refine one cache that is not split.  After
    any sequence of calls (start-up, binding of caches, new active blocks,
    prefetches, reads, indexer writes, MLA writes) of a stage whose layers start
    at 0, the next call does not fail, changes the owners' rows exactly as it
    changes the unsplit cache, and leaves every row that attention over its
    layer may read on every rank equal to the unsplit cache's.  Each call names
    a layer of the plan with a cache of its family's shape, and an MLA write is
    made only when the calls before did not leave rows of the layer in the
    scratch slots that were sent under other active blocks
    ([grown_active_set_leaves_stale_row] is such a call); the record [h] of
    what was left is computed from the calls alone. *)
Theorem split_cache_refines_unsplit `{TensorOps} {Row} size total fam blocks sparse parse rank
    (g : group (Row:=Row)) h e :
  1 < size -> 0 <= total -> (forall key, Forall (Z.le 0) (fam key)) ->
  reachable size total fam blocks sparse parse rank g h ->
  event_ok total fam blocks parse g h e ->
  exists g', run size total fam sparse parse rank e g = (Ok tt, g') /\
    reachable size total fam blocks sparse parse rank g' (note sparse g h e) /\
    (forall key l b, split_layer total fam key l ->
       cache_of size total fam g' key l b = spec e (cache_of size total fam g) key l b) /\
    forall c name l, target e = Some (c, name, l) ->
      forall r b, wanted sparse g' c b ->
        g_mem g' r (family_key c name) (split_place size total fam r (family_key c name) l) b =
        spec e (cache_of size total fam g) (family_key c name) l b.
Proof.
  intros Hsz Htot Hfam Hr He.
  destruct (reachable_ok size total fam blocks sparse parse rank Hsz Htot Hfam g h Hr) as [Hg Hh].
  destruct (run_ok size total fam blocks sparse parse rank Hsz Htot Hfam g h e Hg Hh He)
    as (g' & Er & _ & Hc & Ht).
  exists g'. split; [done|]. split; [by eapply reachable_step|]. split; [exact Hc|].
  intros c name l Et. rewrite Et in Ht. exact Ht.
Qed.

(** ** Concrete runs *)

(** Two ranks, two layers, caches of four blocks whose rows start as zeros. *)
Definition demo_fam (_ : string) : list Z := [0; 1].
Definition demo_blocks (_ : string) : Z := 4.
Definition demo_parse (name : string) : result Z :=
  Ok (if String.eqb name "model.layers.1.self_attn.attn" then 1 else 0).
Definition demo_cache : cache := Cache "cuda:0|uint8|(64,656)" 4 1000.
Definition demo_group : group := Group (fun _ _ _ _ => 0) None None [] [] true.

(** The group after the calls that succeed. *)
Definition after (fam : string -> list Z) (es : list (event (Row:=Z))) : group :=
  fold_left (fun g e => (run 2 2 fam true demo_parse 0 e g).2) es demo_group.

(** Rows [lo..lo+n) of a layer, as the write of a step sets them. *)
Definition rows_from (lo n value : Z) (b : Z) : option Z :=
  if (lo <=? b) && (b <? lo + n) then Some (value + b) else None.

Definition first_write : event := MlaWrite demo_cache "model.layers.0.self_attn.attn" 0 (rows_from 0 1 10).
Definition next_layer : event := MlaWrite demo_cache "model.layers.1.self_attn.attn" 1 (rows_from 0 1 50).
Definition second_write : event := MlaWrite demo_cache "model.layers.0.self_attn.attn" 0 (rows_from 0 2 20).

Abbreviation demo_reachable fam := (reachable (Row:=Z) 2 2 fam demo_blocks true demo_parse 0).

(** The record after the calls. *)
Definition history_after (fam : string -> list Z) (es : list (event (Row:=Z))) : string -> Z -> holding :=
  (fold_left (fun '(g, h) e => ((run 2 2 fam true demo_parse 0 e g).2, note true g h e)) es
    (demo_group, fun _ _ => Absent)).2.

Lemma run_pair fam g e :
  (run (Row:=Z) 2 2 fam true demo_parse 0 e g).1 = Ok tt ->
  run 2 2 fam true demo_parse 0 e g = (Ok tt, (run 2 2 fam true demo_parse 0 e g).2).
Proof. intros E. rewrite <- E. by destruct (run _ _ _ _ _ _ _ _). Qed.

Lemma demo_step fam g h e :
  demo_reachable fam g h -> event_ok 2 fam demo_blocks demo_parse g h e ->
  (run 2 2 fam true demo_parse 0 e g).1 = Ok tt ->
  demo_reachable fam (run 2 2 fam true demo_parse 0 e g).2 (note true g h e).
Proof.
  intros Hr He E. eapply reachable_step; [exact Hr|exact He|]. by apply run_pair.
Qed.

Lemma demo_call l name fam :
  demo_parse name = Ok l -> l ∈ fam (family_key demo_cache name) -> 0 <= l < 2 ->
  plan_call 2 fam demo_blocks demo_parse demo_cache name l.
Proof. intros Hp Hin Hl. by split. Qed.

Lemma split_cache_refines_unsplit_witness :
  exists g', run 2 2 demo_fam true demo_parse 0 second_write
      (after demo_fam [SetActive [[0]]; first_write; next_layer; SetActive [[0]; [1]]]) = (Ok tt, g') /\
    g_mem g' 1 "mla|cuda:0|uint8|(64,656)" (split_place 2 2 demo_fam 1 "mla|cuda:0|uint8|(64,656)" 0) 0 = 20.
Proof.
  assert (forall l name, demo_parse name = Ok l -> 0 <= l < 2 ->
    plan_call 2 demo_fam demo_blocks demo_parse demo_cache name l) as Hcall.
  { intros l name Hp Hl. apply demo_call; [done| |done]. unfold demo_fam.
    assert (l = 0 \/ l = 1) as [-> | ->] by lia; set_solver. }
  edestruct (split_cache_refines_unsplit (Row:=Z) 2 2 demo_fam demo_blocks true demo_parse 0
    (after demo_fam [SetActive [[0]]; first_write; next_layer; SetActive [[0]; [1]]])
    (history_after demo_fam [SetActive [[0]]; first_write; next_layer; SetActive [[0]; [1]]]) second_write)
    as (g' & Er & _ & _ & Ht).
  - lia.
  - lia.
  - intros key. repeat constructor; lia.
  - unfold after, history_after, fold_left, snd at 5. repeat (apply demo_step; [|try exact I|vm_compute; reflexivity]).
    + by apply reachable_fresh.
    + split; [by apply Hcall|by vm_compute].
    + split; [by apply Hcall|by vm_compute].
  - split; [by apply Hcall|by vm_compute].
  - exists g'. split; [exact Er|].
    etransitivity; [apply (Ht demo_cache "model.layers.0.self_attn.attn" 0 eq_refl 1 0)|vm_compute; reflexivity].
    replace g' with (run 2 2 demo_fam true demo_parse 0 second_write
      (after demo_fam [SetActive [[0]]; first_write; next_layer; SetActive [[0]; [1]]])).2 by by rewrite Er.
    vm_compute. by left.
Defined.

(** The condition on MLA writes is needed.  In a family with a single split
    layer, when the active blocks grow between two steps that both write the
    first block, the second write is not applied to the other ranks' scratch and
    the broadcast skips the block, so rank 1 is left with the row of the first
    step although the call succeeds and the block is active. *)
Theorem grown_active_set_leaves_stale_row :
  let fam := fun _ : string => [0] in
  let key := family_key demo_cache "model.layers.0.self_attn.attn" in
  let es := [SetActive [[0]]; first_write; SetActive [[0]; [1]]] in
  let g := after fam es in
  demo_reachable fam g (history_after fam es) /\ history_after fam es key 0 = Stale /\
  plan_call 2 fam demo_blocks demo_parse demo_cache "model.layers.0.self_attn.attn" 0 /\
  exists g', run 2 2 fam true demo_parse 0 second_write g = (Ok tt, g') /\ wanted true g' demo_cache 0 /\
    spec second_write (cache_of 2 2 fam g) key 0 0 = 20 /\
    g_mem g' 0 key (split_place 2 2 fam 0 key 0) 0 = 20 /\
    g_mem g' 1 key (split_place 2 2 fam 1 key 0) 0 = 10.
Proof.
  intros fam key es g. assert (plan_call 2 fam demo_blocks demo_parse demo_cache
    "model.layers.0.self_attn.attn" 0) as Hcall by (apply demo_call; [done|by left|lia]).
  split.
  { unfold g, es, after, history_after, fold_left, snd at 4. repeat (apply demo_step; [|try exact I|vm_compute; reflexivity]).
    - by apply reachable_fresh.
    - split; [exact Hcall|by vm_compute]. }
  split; [by vm_compute|]. split; [exact Hcall|].
  exists (run 2 2 fam true demo_parse 0 second_write g).2.
  split; [apply run_pair; vm_compute; reflexivity|]. split; [vm_compute; by left|]. by vm_compute.
Qed.
