(* ===== verification/LayerPacking.v ===== *)
(** * Packed layout of the split DSA caches

    Models the layout half of src/vllm_hcu/v1/dsa_cache_layer_split.py: the
    page sizes of the layers, the alignment of the block stride, the packed
    tensor descriptors, and the worker's rewrite of the layer offsets. *)

From S2P Require Import Prelude PyString Tensors LayerSplit.
From stdpp Require Import sorting.
Local Open Scope Z_scope.

Module Packing.
Import LayerSplit.

(** ** What the code reads of vLLM's objects *)

Inductive torch_dtype :=
  | float32 | bfloat16 | float16 | float8_e4m3fn | float8_e5m2 | uint8 | int8.

#[global] Instance torch_dtype_eq_dec : EqDecision torch_dtype.
Proof. solve_decision. Defined.

(** [torch.empty((), dtype=dtype).element_size()] *)
Definition element_size (d : torch_dtype) : Z :=
  match d with
  | float32 => 4
  | bfloat16 | float16 => 2
  | float8_e4m3fn | float8_e5m2 | uint8 | int8 => 1
  end.

Lemma element_size_pos d : 0 < element_size d.
Proof. by destruct d. Qed.

(** A layer's spec: [dtype], [storage_block_size] and [cache_dtype_str] are
    [None] when the spec lacks them; [kv_quant_none] is
    [kv_quant_mode == KVQuantMode.NONE] and [is_tq] the test for a
    [TQFullAttentionSpec]. *)
Record layer_spec := LayerSpec {
  page_size_bytes : Z;
  block_size : Z;
  storage_block_size : option Z;
  num_kv_heads : Z;
  head_size : Z;
  dtype : option torch_dtype;
  kv_quant_none : bool;
  is_tq : bool;
  cache_dtype_str : option string
}.

(** A cache group: its spec, the per-layer specs when the spec has them, and
    its layer names. *)
Record cache_group := CacheGroup {
  g_spec : layer_spec;
  g_layer_specs : option (dict string layer_spec);
  g_layer_names : list string
}.

(** What [backing_id] holds: the planner's tuple, or another identity. *)
Inductive allocation_id :=
  | DsaLayerSplitPool (page_sizes : list Z) (block_stride num_blocks : Z)
  | OtherPool (id : Z).

#[global] Instance allocation_id_eq_dec : EqDecision allocation_id.
Proof. solve_decision. Defined.

(** A cache tensor: [layers] or [shared_by], and the packing fields, 0 when
    the descriptor lacks them. *)
Record kv_tensor := KvTensor {
  t_size : Z;
  t_layers : list string;
  t_layer_stride : Z;
  t_block_stride : Z;
  t_offset : Z;
  t_backing_id : option allocation_id
}.

(** The descriptor class: its fields, whether its constructor takes the
    packing arguments anyway, and whether an instance keeps an attribute set
    on it. *)
Record tensor_class := TensorClass {
  cls_fields : list string;
  cls_permissive : bool;
  cls_keeps_attributes : bool
}.

Record KVCacheConfig := CacheConfig {
  num_blocks : Z;
  kv_cache_groups : list cache_group;
  kv_cache_tensors : list kv_tensor;
  remap_applied : bool
}.

(** ** Page sizes *)

(** One group of [_layer_page_sizes] *)
Definition group_page_sizes (layer_ps : dict string Z) (g : cache_group) : dict string Z :=
  let layer_ps :=
    match g_layer_specs g with
    | Some per_layer => foldl (fun d '(name, spec) => dset d name (page_size_bytes spec)) layer_ps per_layer
    | None => layer_ps
    end in
  foldl (fun d name => if dmem d name then d else dset d name (page_size_bytes (g_spec g)))
    layer_ps (g_layer_names g).

(** [_layer_page_sizes] *)
Definition layer_page_sizes (cfg : KVCacheConfig) : dict string Z :=
  foldl group_page_sizes [] (kv_cache_groups cfg).

(** [[b - a for a, b in zip(offsets, offsets[1:]) if b > a]] *)
Fixpoint gaps (offsets : list Z) : list Z :=
  match offsets with
  | a :: ((b :: _) as rest) => if a <? b then (b - a) :: gaps rest else gaps rest
  | _ => []
  end.

(** [_infer_page_size_from_packed] *)
Definition infer_page_size_from_packed (packed : list kv_tensor) (layer_name : string) : option Z :=
  match filter (fun t => layer_name ∈ t_layers t) packed with
  | [] => None
  | t0 :: _ =>
      let family := filter (fun t => t_block_stride t = t_block_stride t0) packed in
      let offsets := sorted_set (list_to_set (map t_offset family)) in
      if zlen offsets <? 2 then None
      else match gaps offsets with
           | [] => None
           | g :: gs => let d := foldl Z.gcd g gs in if 0 <? d then Some d else None
           end
  end.

(** ** Alignment *)

Definition spec_row (align : Z) (s : layer_spec) : Z :=
  if (0 <? page_size_bytes s) && (0 <? block_size s) && (page_size_bytes s mod block_size s =? 0)
  then Z.lcm align (page_size_bytes s / block_size s)
  else align.

Definition group_specs (g : cache_group) : list layer_spec :=
  match g_layer_specs g with
  | Some ((_ :: _) as per_layer) => dvalues per_layer
  | _ => [g_spec g]
  end.

Definition align_packed_block_stride (payload_bytes : Z) (groups : list cache_group) : Z :=
  let align := foldl spec_row 1 (concat (map group_specs groups)) in
  if (1 <? align) && negb (payload_bytes mod align =? 0)
  then (payload_bytes + align - 1) / align * align
  else payload_bytes.

(** ** Descriptors *)

(** [_set_packed_backing_id] *)
Definition set_packed_backing_id (cls : tensor_class) (t : kv_tensor) (backing_id : option allocation_id)
    : result kv_tensor :=
  match backing_id with
  | None => Ok t
  | Some _ =>
      if cls_keeps_attributes cls
      then Ok (KvTensor (t_size t) (t_layers t) (t_layer_stride t) (t_block_stride t)
                 (t_offset t) backing_id)
      else Err (Exn ValueError "Packed KV descriptor cannot preserve backing_id metadata")
  end.

Definition has_fields (cls : tensor_class) (names : list string) : bool :=
  forallb (fun n => bool_decide (n ∈ cls_fields cls)) names.

Definition make_packed_kv_tensor (cls : tensor_class) (size : Z) (layer_names : list string)
    (page_size offset block_stride : Z) (backing_id : option allocation_id) : result kv_tensor :=
  match layer_names with
  | [] => Err (Exn ValueError "packed KV tensor requires at least one layer name")
  | _ =>
      let upstream stride := KvTensor size layer_names stride block_stride offset None in
      let hcu := KvTensor size layer_names page_size block_stride offset backing_id in
      if has_fields cls ["layers"; "layer_stride"; "block_stride"; "offset"]%string
      then set_packed_backing_id cls (upstream page_size) backing_id
      else if has_fields cls ["shared_by"; "block_stride"; "offset"]%string
      then set_packed_backing_id cls
             (upstream (if has_fields cls ["layer_stride"]%string then page_size else 0)) backing_id
      else if has_fields cls ["shared_by"]%string then Ok hcu
      else if has_fields cls ["layers"]%string then Ok hcu
      else if cls_permissive cls then set_packed_backing_id cls (upstream page_size) backing_id
      else Ok hcu
  end.

(** ** The remap *)

Section remap.
Context (parse_layer_index : string -> result Z).

(** The page-size families, with the layers seen and those without a size *)
Record bucket_acc := BucketAcc {
  b_buckets : dict Z (list string);
  b_seen : list string;
  b_missing : list string
}.

Definition bucket_layer (packed : list kv_tensor) (layer_ps : dict string Z) (a : bucket_acc)
    (name : string) : bucket_acc :=
  if bool_decide (name ∈ b_seen a) then a
  else
    let seen := name :: b_seen a in
    match match dget layer_ps name with
          | Some ps => Some ps
          | None => infer_page_size_from_packed packed name
          end with
    | None => BucketAcc (b_buckets a) seen (b_missing a ++ [name])
    | Some ps =>
        BucketAcc (dset (b_buckets a) ps (default [] (dget (b_buckets a) ps) ++ [name]))
          seen (b_missing a)
    end.

Definition bucket_layers (packed : list kv_tensor) (layer_ps : dict string Z) : bucket_acc :=
  foldl (bucket_layer packed layer_ps) (BucketAcc [] [] []) (concat (map t_layers packed)).

(** A page-size family: its size, its layers with their indexes, its slots *)
Record family := Family {
  f_page_size : Z;
  f_layers : list (string * Z);
  f_slots : Z
}.

Fixpoint parse_layers (names : list string) : result (list (string * Z)) :=
  match names with
  | [] => Ok []
  | n :: names' =>
      idx ← parse_layer_index n;
      rest ← parse_layers names';
      mret ((n, idx) :: rest)
  end.

Fixpoint make_families (st : LayerSplitState) (buckets : dict Z (list string))
    (page_sizes : list Z) : result (list family) :=
  match page_sizes with
  | [] => Ok []
  | ps :: rest =>
      layers ← parse_layers (default [] (dget buckets ps));
      slots ← phys_slots_for_layer_family (map snd layers) (total_layers st) (shard_size st);
      fams ← make_families st buckets rest;
      mret (Family ps layers slots :: fams)
  end.

Definition owned_scratch_bytes (fams : list family) : Z :=
  zsum (map (fun f => f_page_size f * f_slots f) fams).
Definition full_bytes (fams : list family) : Z :=
  zsum (map (fun f => f_page_size f * zlen (f_layers f)) fams).

(** The offsets of one family's layers, whose slots start at [base] *)
Fixpoint place_layers (st : LayerSplitState) (f : family) (base : Z) (layers : list (string * Z))
    : result (dict string (Z * Z)) :=
  match layers with
  | [] => Ok []
  | (name, idx) :: layers' =>
      slot ← local_packed_slot_for_family_layer st idx (map snd (f_layers f));
      if negb ((0 <=? slot) && (slot <? f_slots f))
      then Err (Exn RuntimeError "DSA layer-split slot out of range")
      else
        rest ← place_layers st f base layers';
        mret ((name, (base + slot * f_page_size f, f_page_size f)) :: rest)
  end.

Fixpoint place_families (st : LayerSplitState) (base : Z) (fams : list family)
    : result (dict string (Z * Z)) :=
  match fams with
  | [] => Ok []
  | f :: fams' =>
      here ← place_layers st f base (f_layers f);
      rest ← place_families st (base + f_slots f * f_page_size f) fams';
      mret (here ++ rest)
  end.

(** The new descriptor of one tensor *)
Definition remap_tensor (cls : tensor_class) (layer_ps : dict string Z)
    (plan : dict string (Z * Z)) (new_stride : Z) (t : kv_tensor) : result kv_tensor :=
  if t_block_stride t <=? 0 then Ok t
  else
    match t_layers t with
    | [] => Err (Exn ValueError "packed KV tensor has empty layers/shared_by")
    | primary :: _ =>
        let page_size :=
          match dget plan primary with
          | Some (_, ps) => ps
          | None => if t_layer_stride t =? 0 then default 0 (dget layer_ps primary)
                    else t_layer_stride t
          end in
        if page_size <=? 0
        then Err (Exn RuntimeError "DSA layer-split remap missing page_size")
        else make_packed_kv_tensor cls (t_size t) (t_layers t) page_size
               (match dget plan primary with Some (o, _) => o | None => t_offset t end)
               new_stride (t_backing_id t)
    end.

Fixpoint remap_tensors (cls : tensor_class) (layer_ps : dict string Z)
    (plan : dict string (Z * Z)) (new_stride : Z) (ts : list kv_tensor) : result (list kv_tensor) :=
  match ts with
  | [] => Ok []
  | t :: ts' =>
      t' ← remap_tensor cls layer_ps plan new_stride t;
      rest ← remap_tensors cls layer_ps plan new_stride ts';
      mret (t' :: rest)
  end.

Definition remap_packed_kv_tensor_offsets (cls : tensor_class) (state : option LayerSplitState)
    (cfg : KVCacheConfig) : result (bool * KVCacheConfig) :=
  match state with
  | None => Ok (false, cfg)
  | Some st =>
      if remap_applied cfg then Ok (false, cfg)
      else
        let packed := filter (fun t => 0 < t_block_stride t) (kv_cache_tensors cfg) in
        match packed with
        | [] => Ok (false, cfg)
        | first :: _ =>
            let layer_ps := layer_page_sizes cfg in
            let b := bucket_layers packed layer_ps in
            match b_missing b with
            | _ :: _ => Err (Exn RuntimeError
                "DSA layer-split packed remap could not resolve page sizes")
            | [] =>
                fams ← make_families st (b_buckets b) (merge_sort Z.le (dkeys (b_buckets b)));
                if full_bytes fams <=? owned_scratch_bytes fams then mret (false, cfg)
                else
                  let new_stride :=
                    align_packed_block_stride (owned_scratch_bytes fams) (kv_cache_groups cfg) in
                  if negb (t_block_stride first =? new_stride)
                  then Err (Exn RuntimeError
                    "the shared KV planner and the worker remap disagree on the family layout")
                  else
                    plan ← place_families st 0 fams;
                    ts ← remap_tensors cls layer_ps plan new_stride (kv_cache_tensors cfg);
                    mret (true, CacheConfig (num_blocks cfg) (kv_cache_groups cfg) ts true)
            end
        end
  end.
End remap.
End Packing.
