(* ===== verification/LayerPackingCorrect.v ===== *)
(** * Correctness of the packed layout

    After the worker's rewrite of the offsets, the bytes of a layer the rank
    keeps overlap no other layer's, and everything lies inside the stride. *)

From S2P Require Import Prelude PyString Tensors LayerSplit LayerSplitCorrect LayerPacking.
From stdpp Require Import sorting.
Import LayerSplit Packing.
Local Open Scope Z_scope.

(** ** Alignment *)

Lemma spec_row_pos a s : 0 < a -> 0 < spec_row a s.
Proof.
  intros Ha. unfold spec_row. case_match eqn:E; [|done]. bool_prop.
  assert (0 < page_size_bytes s / block_size s).
  { pose proof (Z.div_mod (page_size_bytes s) (block_size s)). nia. }
  pose proof (Z.lcm_nonneg a (page_size_bytes s / block_size s)).
  destruct (Z.eq_dec (Z.lcm a (page_size_bytes s / block_size s)) 0) as [E0|]; [|lia].
  apply Z.lcm_eq_0 in E0. lia.
Qed.

Lemma align_pos specs a : 0 < a -> 0 < foldl spec_row a specs.
Proof. revert a. induction specs as [|s specs IH]; intros a Ha; simpl; [done|]. by apply IH, spec_row_pos. Qed.

(** The stride is padded to whole rows of every layer, by less than one row. *)
Lemma align_stride payload groups :
  let align := foldl spec_row 1 (concat (map group_specs groups)) in
  payload <= align_packed_block_stride payload groups < payload + align /\
  (align | align_packed_block_stride payload groups).
Proof.
  intros align. unfold align_packed_block_stride. fold align.
  assert (0 < align) as Ha by (apply align_pos; lia).
  pose proof (Z.div_mod (payload + align - 1) align). 
  pose proof (Z.mod_pos_bound (payload + align - 1) align Ha).
  destruct (Z.ltb_spec 1 align); simpl.
  - destruct (Z.eqb_spec (payload mod align) 0) as [E|E]; simpl.
    + split; [lia|]. by apply Z.mod_divide; [lia|].
    + split; [lia|]. apply Z.divide_factor_r.
  - split; [lia|]. assert (align = 1) as -> by lia. apply Z.divide_1_l.
Qed.

(** ** Placement *)

Definition valid_state (st : LayerSplitState) : Prop :=
  1 < shard_size st /\ 0 <= shard_rank st < shard_size st /\ 0 <= total_layers st /\
  start_layer st = 0.

(** A family as [make_families] builds it from layers with distinct indexes. *)
Definition family_ok (st : LayerSplitState) (f : family) : Prop :=
  0 < f_page_size f /\ Forall (Z.le 0) (map snd (f_layers f)) /\ NoDup (map snd (f_layers f)) /\
  phys_slots_for_layer_family (map snd (f_layers f)) (total_layers st) (shard_size st) = Ok (f_slots f).

Lemma family_bytes_nonneg st f : family_ok st f -> 0 <= f_page_size f * f_slots f.
Proof. intros (Hps & _ & _ & Hph%phys_slots_nonneg). nia. Qed.

Lemma families_bytes_nonneg st fams : Forall (family_ok st) fams -> 0 <= owned_scratch_bytes fams.
Proof.
  unfold owned_scratch_bytes. induction 1 as [|f fams Hf _ IH]; simpl; [done|].
  apply family_bytes_nonneg in Hf. lia.
Qed.

Inductive located (st : LayerSplitState) : list family -> Z -> string -> Z -> Z -> Z -> Prop :=
  | located_here f fams base name idx s :
      (name, idx) ∈ f_layers f ->
      local_packed_slot_for_family_layer st idx (map snd (f_layers f)) = Ok s ->
      0 <= s < f_slots f ->
      located st (f :: fams) base name idx (base + s * f_page_size f) (f_page_size f)
  | located_next f fams base name idx o p :
      located st fams (base + f_slots f * f_page_size f) name idx o p ->
      located st (f :: fams) base name idx o p.

Section placement.
Context (st : LayerSplitState).
Hypothesis Hst : valid_state st.

Lemma place_layers_ok f base fams layers :
  family_ok st f -> layers ⊆ f_layers f ->
  exists plan, place_layers st f base layers = Ok plan /\
    Forall2 (fun x e => e.1 = x.1 /\ located st (f :: fams) base x.1 x.2 e.2.1 e.2.2) layers plan.
Proof.
  intros (Hps & Hnn & Hnd & Hph). destruct Hst as (H1 & H2 & H3 & H4).
  destruct (family_slots_safe st (map snd (f_layers f)) H1 H2 H3 H4 Hnn) as (n & Hn & Hslot & _).
  rewrite Hph in Hn. injection Hn as <-.
  induction layers as [|[name idx] layers IH]; intros Hsub; simpl.
  { exists []. split; [done|constructor]. }
  assert ((name, idx) ∈ f_layers f) as Hin by (apply Hsub; by left).
  destruct (Hslot idx) as (s & Es & Hs); [by apply (list_elem_of_fmap_2 snd _ (name, idx))|].
  rewrite Es. simpl. destruct (Z.leb_spec 0 s); [|lia]. destruct (Z.ltb_spec s (f_slots f)); [|lia].
  simpl. destruct IH as (plan & E & HF); [intros x Hx; apply Hsub; by right|].
  rewrite E. simpl. eexists. split; [done|]. constructor; [|done]. simpl.
  split; [done|]. by eapply located_here.
Qed.

Definition all_layers (fams : list family) : list (string * Z) := concat (map f_layers fams).

Lemma place_families_ok fams base :
  Forall (family_ok st) fams ->
  exists plan, place_families st base fams = Ok plan /\
    Forall2 (fun x e => e.1 = x.1 /\ located st fams base x.1 x.2 e.2.1 e.2.2) (all_layers fams) plan.
Proof.
  intros Hf. revert base. induction Hf as [|f fams Hf _ IH]; intros base; simpl.
  { exists []. split; [done|constructor]. }
  destruct (place_layers_ok f base fams (f_layers f) Hf) as (p1 & E1 & F1); [done|].
  destruct (IH (base + f_slots f * f_page_size f)) as (p2 & E2 & F2).
  rewrite E1. simpl. rewrite E2. simpl. eexists. split; [done|].
  unfold all_layers. simpl. apply Forall2_app; [done|].
  eapply Forall2_impl; [exact F2|]. simpl. intros x e [? ?]. split; [done|]. by constructor.
Qed.

Lemma located_bounds fams base name idx o p :
  Forall (family_ok st) fams -> located st fams base name idx o p ->
  0 < p /\ base <= o /\ o + p <= base + owned_scratch_bytes fams.
Proof.
  intros Hf Hl. induction Hl as [f fams base name idx s Hin Es Hs|f fams base name idx o p Hl IH];
    apply Forall_cons in Hf as [Hf0 Hf]; pose proof (family_bytes_nonneg _ _ Hf0);
    destruct Hf0 as (Hps & _ & _ & Hph); unfold owned_scratch_bytes in *; simpl.
  - pose proof (families_bytes_nonneg _ _ Hf). unfold owned_scratch_bytes in *. nia.
  - specialize (IH Hf). lia.
Qed.

Lemma same_family_disjoint f n1 i1 s1 n2 i2 s2 :
  family_ok st f -> (n1, i1) ∈ f_layers f -> (n2, i2) ∈ f_layers f -> n1 <> n2 ->
  local_packed_slot_for_family_layer st i1 (map snd (f_layers f)) = Ok s1 ->
  local_packed_slot_for_family_layer st i2 (map snd (f_layers f)) = Ok s2 ->
  resident st i1 = true -> s1 <> s2.
Proof.
  intros (Hps & Hnn & Hnd & Hph) H1 H2 Hne E1 E2 Hr.
  destruct Hst as (V1 & V2 & V3 & V4).
  destruct (family_slots_safe st (map snd (f_layers f)) V1 V2 V3 V4 Hnn) as (n & _ & _ & Hd).
  assert (i1 <> i2) as Hi.
  { intros ->. apply list_elem_of_lookup in H1 as [k1 H1], H2 as [k2 H2].
    assert (k1 = k2) as -> by (eapply (NoDup_lookup _ _ _ i2 Hnd); by rewrite list_lookup_fmap, ?H1, ?H2).
    congruence. }
  specialize (Hd i1 i2 s1 s2 (list_elem_of_fmap_2 snd _ _ H1) (list_elem_of_fmap_2 snd _ _ H2) Hi E1 E2).
  by rewrite Hr in Hd.
Qed.

(** The bytes of a layer the rank keeps are its own. *)
Lemma located_disjoint fams base n1 i1 o1 p1 n2 i2 o2 p2 :
  Forall (family_ok st) fams -> n1 <> n2 -> resident st i1 = true ->
  located st fams base n1 i1 o1 p1 -> located st fams base n2 i2 o2 p2 ->
  o1 + p1 <= o2 \/ o2 + p2 <= o1.
Proof.
  intros Hf Hne Hr L1. revert n2 i2 o2 p2 Hne.
  induction L1 as [f fams base n1 i1 s1 Hin1 E1 Hs1|f fams base n1 i1 o1 p1 L1 IH];
    intros n2 i2 o2 p2 Hne L2; apply Forall_cons in Hf as [Hf0 Hf];
    inversion L2 as [f' fams' base' ? ? s2 Hin2 E2 Hs2|f' fams' base' ? ? ? ? L2']; subst.
  - pose proof (same_family_disjoint f _ _ _ _ _ _ Hf0 Hin1 Hin2 Hne E1 E2 Hr).
    destruct Hf0 as (Hps & _). nia.
  - pose proof (located_bounds _ _ _ _ _ _ Hf L2'). destruct Hf0 as (Hps & _). left. nia.
  - pose proof (located_bounds _ _ _ _ _ _ Hf L1). destruct Hf0 as (Hps & _). right. nia.
  - by eapply IH.
Qed.
End placement.

(** ** Families *)

Section buckets.
Context (packed : list kv_tensor) (layer_ps : dict string Z).

(** The page size a layer is filed under. *)
Definition resolve (name : string) : option Z :=
  match dget layer_ps name with
  | Some ps => Some ps
  | None => infer_page_size_from_packed packed name
  end.

Record buckets_ok (a : bucket_acc) : Prop := {
  bo_seen : forall n, n ∈ b_seen a -> n ∈ b_missing a \/
    exists ps ns, resolve n = Some ps /\ dget (b_buckets a) ps = Some ns /\ n ∈ ns;
  bo_bucket : forall ps ns, dget (b_buckets a) ps = Some ns ->
    (NoDup ns /\ ns <> []) /\ forall n, n ∈ ns -> n ∈ b_seen a /\ resolve n = Some ps
}.

Lemma bucket_layer_ok a n :
  buckets_ok a -> buckets_ok (bucket_layer packed layer_ps a n) /\
  (forall k, k ∈ b_seen (bucket_layer packed layer_ps a n) <-> k = n \/ k ∈ b_seen a).
Proof.
  intros [Hs Hb]. unfold bucket_layer. fold (resolve n). case_bool_decide as Hn.
  { split; [done|]. set_solver. }
  destruct (resolve n) as [ps|] eqn:Er; simpl; (split; [|set_solver]); split; simpl.
  - intros k [->|Hk]%elem_of_cons.
    + right. exists ps. rewrite dget_dset_eq. eexists. split_and!; [done..|set_solver].
    + destruct (Hs k Hk) as [?|(ps' & ns & Hr & Hd & Hin)]; [by left|right].
      exists ps'. rewrite dget_dset. case_decide; [|eauto]. subst.
      eexists. split_and!; [done..|]. rewrite Hd. simpl. set_solver.
  - intros ps' ns. rewrite dget_dset. case_decide as E.
    + subst. intros [= <-]. destruct (dget (b_buckets a) ps') as [ns0|] eqn:Hd; simpl.
      * destruct (Hb _ _ Hd) as [[Hnd _] Hns]. split.
        -- split; [|by destruct ns0]. apply NoDup_app. split_and!; [done| |apply NoDup_singleton].
           intros k Hk ->%list_elem_of_singleton. by apply Hn, Hns.
        -- intros k [Hk| ->%list_elem_of_singleton]%elem_of_app; [|by split; [left|]].
           destruct (Hns k Hk). split; [by right|done].
      * split; [split; [apply NoDup_singleton|done]|]. intros k ->%list_elem_of_singleton. split; [by left|done].
    + intros Hd. destruct (Hb _ _ Hd) as [Hnd Hns]. split; [done|].
      intros k Hk. destruct (Hns k Hk). split; [by right|done].
  - intros k [->|Hk]%elem_of_cons; [left; set_solver|].
    destruct (Hs k Hk) as [?|?]; [left; set_solver|by right].
  - intros ps ns Hd. destruct (Hb _ _ Hd) as [Hnd Hns]. split; [done|].
    intros k Hk. destruct (Hns k Hk). split; [by right|done].
Qed.

Lemma bucket_layers_ok :
  buckets_ok (bucket_layers packed layer_ps) /\
  forall n, n ∈ concat (map t_layers packed) -> n ∈ b_seen (bucket_layers packed layer_ps).
Proof.
  unfold bucket_layers. generalize (concat (map t_layers packed)). intros names.
  assert (forall a, buckets_ok a -> buckets_ok (foldl (bucket_layer packed layer_ps) a names) /\
    forall n, n ∈ names \/ n ∈ b_seen a -> n ∈ b_seen (foldl (bucket_layer packed layer_ps) a names)) as H.
  { induction names as [|x names IH]; intros a Ha; simpl; [split; [done|set_solver]|].
    destruct (bucket_layer_ok a x Ha) as [Ha' Hseen]. destruct (IH _ Ha') as [H1 H2].
    split; [done|]. intros n Hn. apply H2. rewrite Hseen. set_solver. }
  destruct (H (BucketAcc [] [] [])) as [H1 H2].
  - split; simpl; [by intros ? ?%not_elem_of_nil|done].
  - split; [done|]. intros n Hn. apply H2. by left.
Qed.
End buckets.

Section families.
Context (parse : string -> result Z).

Lemma parse_layers_ok names layers :
  parse_layers parse names = Ok layers ->
  map fst layers = names /\ Forall (fun x => parse x.1 = Ok x.2) layers.
Proof.
  revert layers. induction names as [|n names IH]; intros layers; simpl; [by intros [= <-]|].
  destruct (parse n) as [i|] eqn:E; [|done]. simpl.
  destruct (parse_layers parse names) as [rest|]; [|done]. simpl. intros [= <-].
  destruct (IH rest eq_refl) as [<- HF]. split; [done|]. by constructor.
Qed.

Lemma make_families_ok st buckets pss fams :
  make_families parse st buckets pss = Ok fams ->
  Forall2 (fun ps f => f_page_size f = ps /\
    parse_layers parse (default [] (dget buckets ps)) = Ok (f_layers f) /\
    phys_slots_for_layer_family (map snd (f_layers f)) (total_layers st) (shard_size st)
      = Ok (f_slots f)) pss fams.
Proof.
  revert fams. induction pss as [|ps pss IH]; intros fams; simpl; [intros [= <-]; constructor|].
  destruct (parse_layers parse _) as [layers|] eqn:E; [|done]. simpl.
  destruct (phys_slots_for_layer_family _ _ _) as [n|] eqn:Ep; [|done]. simpl.
  destruct (make_families parse st buckets pss) as [rest|]; [|done]. simpl. intros [= <-].
  constructor; [by rewrite E|]. by apply IH.
Qed.
End families.

Lemma make_packed_fields cls size names ps o stride b t :
  make_packed_kv_tensor cls size names ps o stride b = Ok t ->
  t_size t = size /\ t_layers t = names /\ t_block_stride t = stride /\ t_offset t = o /\
  t_backing_id t = b.
Proof.
  unfold make_packed_kv_tensor, set_packed_backing_id. intros H.
  repeat (case_match; simplify_eq/=); done.
Qed.

Lemma remap_tensors_Forall2 cls layer_ps plan stride ts ts' :
  remap_tensors cls layer_ps plan stride ts = Ok ts' ->
  Forall2 (fun t t' => remap_tensor cls layer_ps plan stride t = Ok t') ts ts'.
Proof.
  revert ts'. induction ts as [|t ts IH]; intros ts'; simpl; [intros [= <-]; constructor|].
  destruct (remap_tensor _ _ _ _ t) as [t0|] eqn:E; [|done]. simpl.
  destruct (remap_tensors _ _ _ _ ts) as [rest|]; [|done]. simpl. intros [= <-].
  constructor; [done|]. by apply IH.
Qed.

(** ** The rewritten configuration *)

Lemma NoDup_snd {A B} (l : list (A * B)) :
  NoDup (map fst l) -> (forall a a' b, (a, b) ∈ l -> (a', b) ∈ l -> a = a') -> NoDup (map snd l).
Proof.
  induction l as [|[a b] l IH]; simpl; [constructor|].
  intros [Hni Hnd]%NoDup_cons Hinj. apply NoDup_cons. split.
  - intros ([a' b'] & -> & Hin)%list_elem_of_fmap. simpl in *.
    assert (a = a') as -> by (eapply Hinj; [by left|by right]).
    apply Hni. by apply (list_elem_of_fmap_2 fst _ (a', b')).
  - apply IH; [done|]. intros x x' y H1 H2. apply (Hinj x x' y); by right.
Qed.

Section remap_safe.
Context (parse : string -> result Z) (st : LayerSplitState) (cfg : KVCacheConfig).

Definition packed_of : list kv_tensor := filter (fun t => 0 < t_block_stride t) (kv_cache_tensors cfg).
(** The page size of a layer. *)
Definition page_of (name : string) : option Z := resolve packed_of (layer_page_sizes cfg) name.

(** The configuration the plan is made for: positive page sizes, and layers of
    one page size that are told apart by their indexes. *)
Record layout_input : Prop := {
  li_parse : forall n i, parse n = Ok i -> 0 <= i;
  li_pages : forall n ps, dget (layer_page_sizes cfg) n = Some ps -> 0 < ps;
  li_index : forall n1 n2 i ps, page_of n1 = Some ps -> page_of n2 = Some ps ->
    parse n1 = Ok i -> parse n2 = Ok i -> n1 = n2
}.

Hypothesis Hst : valid_state st.
Hypothesis Hin : layout_input.

Abbreviation buckets := (bucket_layers packed_of (layer_page_sizes cfg)).

Lemma page_of_pos n ps : page_of n = Some ps -> 0 < ps.
Proof.
  unfold page_of, resolve. destruct (dget (layer_page_sizes cfg) n) as [p|] eqn:E.
  - intros [= <-]. by apply (li_pages Hin n).
  - unfold infer_page_size_from_packed. intros H. repeat (case_match; simplify_eq/=).
    bool_prop. done.
Qed.

Lemma family_layers_page fams f n i :
  make_families parse st (b_buckets buckets) (merge_sort Z.le (dkeys (b_buckets buckets))) = Ok fams ->
  f ∈ fams -> (n, i) ∈ f_layers f -> page_of n = Some (f_page_size f) /\ parse n = Ok i.
Proof.
  intros Hm%make_families_ok Hf Hn. apply Forall2_flip in Hm.
  apply list_elem_of_lookup in Hf as [k Hk].
  destruct (Forall2_lookup_l _ _ _ _ _ Hm Hk) as (ps & Hps & Hpage & Hpl & _). subst ps.
  apply parse_layers_ok in Hpl as [Hnames Hparse].
  destruct (bucket_layers_ok packed_of (layer_page_sizes cfg)) as [[_ Hb] _].
  assert (n ∈ default [] (dget (b_buckets buckets) (f_page_size f))) as Hin'.
  { rewrite <- Hnames. by apply (list_elem_of_fmap_2 fst _ (n, i)). }
  destruct (dget (b_buckets buckets) (f_page_size f)) as [ns|] eqn:Ed; simpl in Hin';
    [|by apply not_elem_of_nil in Hin'].
  split; [by apply (Hb _ _ Ed)|]. rewrite Forall_forall in Hparse. by apply (Hparse (n, i)).
Qed.

Lemma families_ok fams :
  make_families parse st (b_buckets buckets) (merge_sort Z.le (dkeys (b_buckets buckets))) = Ok fams ->
  Forall (family_ok st) fams.
Proof.
  intros Hm. pose proof Hm as Hm'. apply make_families_ok in Hm. apply Forall_forall. intros f Hf.
  pose proof Hf as Hf'. apply list_elem_of_lookup in Hf as [k Hk].
  destruct (Forall2_lookup_r _ _ _ _ _ Hm Hk) as (ps & Hps & Hpage & Hpl & Hph). subst ps.
  apply parse_layers_ok in Hpl as [Hnames Hparse].
  apply list_elem_of_lookup_2 in Hps. rewrite merge_sort_Permutation in Hps.
  apply key_dget_Some in Hps as [ns Hd].
  destruct (bucket_layers_ok packed_of (layer_page_sizes cfg)) as [[_ Hb] _].
  destruct (Hb _ _ Hd) as [[Hnd Hne] Hns]. rewrite Hd in Hnames. simpl in Hnames.
  split_and!; [| | |done].
  - destruct ns as [|n ns]; [done|]. apply (page_of_pos n). apply (Hns n). by left.
  - apply Forall_map. eapply Forall_impl; [exact Hparse|]. intros [n i] Hi. by apply (li_parse Hin n).
  - apply NoDup_snd; [by rewrite Hnames|]. intros a a' b H1 H2.
    destruct (family_layers_page _ _ _ _ Hm' Hf' H1), (family_layers_page _ _ _ _ Hm' Hf' H2).
    by apply (li_index Hin a a' b (f_page_size f)).
Qed.

Lemma family_page fams f :
  make_families parse st (b_buckets buckets) (merge_sort Z.le (dkeys (b_buckets buckets))) = Ok fams ->
  f ∈ fams -> exists n, page_of n = Some (f_page_size f).
Proof.
  intros Hm Hf. pose proof Hm as Hm'. apply make_families_ok in Hm. apply list_elem_of_lookup in Hf as [k Hk].
  destruct (Forall2_lookup_r _ _ _ _ _ Hm Hk) as (ps & Hps & Hpage & _). subst ps.
  apply list_elem_of_lookup_2 in Hps. rewrite merge_sort_Permutation in Hps.
  apply key_dget_Some in Hps as [ns Hd].
  destruct (bucket_layers_ok packed_of (layer_page_sizes cfg)) as [[_ Hb] _].
  destruct (Hb _ _ Hd) as [[_ Hne] Hns]. destruct ns as [|n ns]; [done|]. exists n. apply (Hns n). by left.
Qed.

Lemma located_family fams base n i o p :
  located st fams base n i o p -> exists f, f ∈ fams /\ (n, i) ∈ f_layers f /\ p = f_page_size f.
Proof.
  induction 1 as [f fams base n i s Hn _ _|f fams base n i o p _ (f' & Hf & Hn & Hp)].
  - exists f. split; [by left|done].
  - exists f'. split; [by right|done].
Qed.

(** The plan gives every packed layer a place. *)
Lemma plan_located fams plan n :
  make_families parse st (b_buckets buckets) (merge_sort Z.le (dkeys (b_buckets buckets))) = Ok fams ->
  b_missing buckets = [] -> place_families st 0 fams = Ok plan ->
  n ∈ concat (map t_layers packed_of) ->
  exists o p i, dget plan n = Some (o, p) /\ page_of n = Some p /\ parse n = Ok i /\
    located st fams 0 n i o p.
Proof.
  intros Hm Hmiss Hplan Hn. pose proof (families_ok fams Hm) as Hok.
  destruct (place_families_ok st Hst fams 0 Hok) as (plan' & Hplan' & HF).
  rewrite Hplan in Hplan'. injection Hplan' as <-.
  destruct (bucket_layers_ok packed_of (layer_page_sizes cfg)) as [[Hseen _] Hall].
  destruct (Hseen n (Hall n Hn)) as [Hx|(ps & ns & Hr & Hd & Hin')].
  { rewrite Hmiss in Hx. by apply not_elem_of_nil in Hx. }
  assert (exists i, (n, i) ∈ all_layers fams) as [i Hi].
  { apply make_families_ok in Hm. apply dget_Some_key in Hd as Hk.
    rewrite <- (merge_sort_Permutation Z.le) in Hk. apply list_elem_of_lookup in Hk as [k Hk].
    destruct (Forall2_lookup_l _ _ _ _ _ Hm Hk) as (f & Hf & Hpage & Hpl & _).
    apply parse_layers_ok in Hpl as [Hnames _]. rewrite Hd in Hnames. simpl in Hnames.
    rewrite <- Hnames in Hin'. apply list_elem_of_fmap in Hin' as ([n' i] & -> & Hl).
    exists i. unfold all_layers. apply list_elem_of_In, in_concat. exists (f_layers f).
    split; [|by apply list_elem_of_In]. apply in_map, list_elem_of_In. by eapply list_elem_of_lookup_2. }
  apply list_elem_of_lookup in Hi as [k Hk].
  destruct (Forall2_lookup_l _ _ _ _ _ HF Hk) as ([n' [o' p']] & He & Hn' & _). simpl in Hn'. subst n'.
  apply list_elem_of_lookup_2 in He. apply (list_elem_of_fmap_2 fst) in He as Hkey.
  apply key_dget_Some in Hkey as [[o p] Hdp]. simpl in Hdp. exists o, p.
  apply dget_elem in Hdp as Hel. apply list_elem_of_lookup in Hel as [k2 Hk2].
  destruct (Forall2_lookup_r _ _ _ _ _ HF Hk2) as ([n2 i2] & _ & Hn2 & Hloc). simpl in *. subst n2.
  exists i2. destruct (located_family _ _ _ _ _ _ Hloc) as (f & Hf & Hfl & ->).
  destruct (family_layers_page _ _ _ _ Hm Hf Hfl). done.
Qed.
End remap_safe.

(** What a successful rewrite computed. *)
Lemma remap_inv parse cls st cfg cfg' :
  remap_packed_kv_tensor_offsets parse cls (Some st) cfg = Ok (true, cfg') ->
  exists fams plan,
    kv_cache_groups cfg' = kv_cache_groups cfg /\ num_blocks cfg' = num_blocks cfg /\
    (exists t0, t0 ∈ packed_of cfg /\
       t_block_stride t0 = align_packed_block_stride (owned_scratch_bytes fams) (kv_cache_groups cfg)) /\
    make_families parse st (b_buckets (bucket_layers (packed_of cfg) (layer_page_sizes cfg)))
      (merge_sort Z.le (dkeys (b_buckets (bucket_layers (packed_of cfg) (layer_page_sizes cfg))))) = Ok fams /\
    b_missing (bucket_layers (packed_of cfg) (layer_page_sizes cfg)) = [] /\
    place_families st 0 fams = Ok plan /\
    Forall2 (fun t t' => remap_tensor cls (layer_page_sizes cfg) plan
        (align_packed_block_stride (owned_scratch_bytes fams) (kv_cache_groups cfg)) t = Ok t')
      (kv_cache_tensors cfg) (kv_cache_tensors cfg').
Proof.
  unfold remap_packed_kv_tensor_offsets. fold (packed_of cfg).
  destruct (remap_applied cfg); [done|]. destruct (packed_of cfg) as [|t0 ts0] eqn:Hp; [done|].
  assert (t0 ∈ packed_of cfg) as Ht0 by (rewrite Hp; by left).
  rewrite <- Hp in *. clear Hp ts0.
  destruct (b_missing _) eqn:Hmiss; [|done].
  destruct (make_families _ _ _ _) as [fams|] eqn:Hm; [|done]. simpl.
  destruct (full_bytes fams <=? owned_scratch_bytes fams); [done|].
  destruct (negb _) eqn:Hs; [done|]. apply negb_false_iff, Z.eqb_eq in Hs.
  destruct (place_families st 0 fams) as [plan|] eqn:Hplan; [|done]. simpl.
  destruct (remap_tensors _ _ _ _ _) as [ts|] eqn:Hts; [|done]. simpl.
  intros [= <-]. exists fams, plan. split_and!; [done|done|by exists t0|done..|]. simpl.
  by apply remap_tensors_Forall2.
Qed.

Lemma remap_tensor_fields cls layer_ps plan stride t t' :
  remap_tensor cls layer_ps plan stride t = Ok t' ->
  t_size t' = t_size t /\ t_layers t' = t_layers t /\ t_backing_id t' = t_backing_id t /\
  (0 < t_block_stride t' -> 0 < t_block_stride t) /\
  (0 < t_block_stride t -> t_block_stride t' = stride) /\
  forall n l o p, 0 < t_block_stride t -> t_layers t = n :: l -> dget plan n = Some (o, p) ->
    t_block_stride t' = stride /\ t_offset t' = o.
Proof.
  unfold remap_tensor. destruct (Z.leb_spec (t_block_stride t) 0) as [Hle|Hgt].
  { intros [= <-]. split_and!; [done..|lia|lia]. }
  destruct (t_layers t) as [|n l] eqn:Hl; [done|]. case_match; [done|].
  intros (Hs & Hly & Hst & Ho & Hb)%make_packed_fields. split_and!; [done..|].
  intros n' l' o p _ [= <- <-] Hd. rewrite Hd in Ho. done.
Qed.

(** Where a successful rewrite puts the layers. *)
Lemma remap_located parse cls st cfg cfg' :
  valid_state st -> layout_input parse cfg ->
  remap_packed_kv_tensor_offsets parse cls (Some st) cfg = Ok (true, cfg') ->
  exists fams stride,
    (kv_cache_groups cfg' = kv_cache_groups cfg /\ num_blocks cfg' = num_blocks cfg) /\
    Forall (family_ok st) fams /\ owned_scratch_bytes fams <= stride /\
    stride = align_packed_block_stride (owned_scratch_bytes fams) (kv_cache_groups cfg) /\
    (exists t0, t0 ∈ packed_of cfg /\ t_block_stride t0 = stride) /\
    (forall f, f ∈ fams -> exists n, page_of cfg n = Some (f_page_size f)) /\
    Forall2 (fun t t' => t_size t' = t_size t /\ t_layers t' = t_layers t /\
        t_backing_id t' = t_backing_id t /\ (0 < t_block_stride t -> t_block_stride t' = stride))
      (kv_cache_tensors cfg) (kv_cache_tensors cfg') /\
    forall t n l, t ∈ kv_cache_tensors cfg' -> 0 < t_block_stride t -> t_layers t = n :: l ->
      exists i p, page_of cfg n = Some p /\ parse n = Ok i /\ t_block_stride t = stride /\
        located st fams 0 n i (t_offset t) p.
Proof.
  intros Hst Hin Hr. apply remap_inv in Hr as (fams & plan & Hg & Hnb & Hfirst & Hm & Hmiss & Hplan & HF).
  set (stride := align_packed_block_stride _ _) in HF. exists fams, stride.
  destruct (align_stride (owned_scratch_bytes fams) (kv_cache_groups cfg)) as [[Hstride _] _].
  split_and!; [done..|by apply (families_ok parse st cfg Hin fams Hm)|done|done|done|intros f; by apply (family_page parse st cfg fams f Hm)| |].
  { eapply Forall2_impl; [exact HF|]. by intros t t' (? & ? & ? & _ & ? & _)%remap_tensor_fields. }
  intros t' n l Ht' Hpos Hl. apply list_elem_of_lookup in Ht' as [k Hk].
  destruct (Forall2_lookup_r _ _ _ _ _ HF Hk) as (t & Ht & Hrt).
  apply remap_tensor_fields in Hrt as (_ & Hly & _ & Hpk & _ & Hpl). rewrite Hl in Hly. symmetry in Hly.
  specialize (Hpk Hpos).
  destruct (plan_located parse st cfg Hst Hin fams plan n Hm Hmiss Hplan) as (o & p & i & Hd & Hp & Hpi & Hlc).
  { apply list_elem_of_In, in_concat. exists (t_layers t). split; [|rewrite Hly; by left].
    apply in_map, list_elem_of_In. unfold packed_of. rewrite list_elem_of_filter.
    split; [done|by eapply list_elem_of_lookup_2]. }
  destruct (Hpl n l o p Hpk Hly Hd) as [Hs Ho]. exists i, p. by rewrite Hs, Ho.
Qed.

(** After a successful rewrite of the packed offsets, every tensor keeps
    its size and its layers; a packed layer's page lies inside the block
    stride; and the page of a layer the rank keeps, one it owns or a
    replicated one, overlaps the page of no other layer. *)
Theorem remap_layout_safe parse cls st cfg cfg' :
  valid_state st -> layout_input parse cfg ->
  remap_packed_kv_tensor_offsets parse cls (Some st) cfg = Ok (true, cfg') ->
  Forall2 (fun t t' => t_size t' = t_size t /\ t_layers t' = t_layers t)
    (kv_cache_tensors cfg) (kv_cache_tensors cfg') /\
  forall t1 n1 l1, t1 ∈ kv_cache_tensors cfg' -> 0 < t_block_stride t1 -> t_layers t1 = n1 :: l1 ->
  exists p1 i1, page_of cfg n1 = Some p1 /\ parse n1 = Ok i1 /\
    0 <= t_offset t1 /\ t_offset t1 + p1 <= t_block_stride t1 /\
    forall t2 n2 l2 p2, t2 ∈ kv_cache_tensors cfg' -> 0 < t_block_stride t2 ->
      t_layers t2 = n2 :: l2 -> n1 <> n2 -> page_of cfg n2 = Some p2 -> resident st i1 = true ->
      t_offset t1 + p1 <= t_offset t2 \/ t_offset t2 + p2 <= t_offset t1.
Proof.
  intros Hst Hin Hr.
  destruct (remap_located _ _ _ _ _ Hst Hin Hr) as (fams & stride & _ & Hfams & Hstride & _ & _ & _ & HF & Hloc).
  split.
  { eapply Forall2_impl; [exact HF|]. naive_solver. }
  intros t1 n1 l1 Ht1 Hp1 Hl1. destruct (Hloc t1 n1 l1 Ht1 Hp1 Hl1) as (i1 & p1 & Hpg & Hpi & Hs & L1).
  exists p1, i1. pose proof (located_bounds st fams 0 n1 i1 _ _ Hfams L1) as (? & ? & ?).
  split_and!; [done..|lia|lia|].
  intros t2 n2 l2 p2 Ht2 Hp2 Hl2 Hne Hpg2 Hres.
  destruct (Hloc t2 n2 l2 Ht2 Hp2 Hl2) as (i2 & p2' & Hpg2' & _ & _ & L2). simplify_eq.
  by eapply (located_disjoint st Hst fams 0 n1 i1 _ _ n2 i2).
Qed.

(** ** A concrete configuration *)

Definition demo_parse (n : string) : result Z :=
  if decide (n = "l0")%string then Ok 0 else if decide (n = "l1")%string then Ok 1
  else if decide (n = "l2")%string then Ok 2 else if decide (n = "l3")%string then Ok 3
  else Err (Exn ValueError "").
Definition demo_tensor (n : string) (o : Z) : kv_tensor := KvTensor 300 [n] 10 30 o (Some (OtherPool 7)).
Definition demo_cfg : KVCacheConfig :=
  CacheConfig 10 [CacheGroup (LayerSpec 10 10 None 1 5 (Some uint8) true false None) None ["l0"; "l1"; "l2"; "l3"]%string]
    [demo_tensor "l0" 0; demo_tensor "l1" 10; demo_tensor "l2" 20; demo_tensor "l3" 20] false.
Definition demo_cls : tensor_class :=
  TensorClass ["layers"; "layer_stride"; "block_stride"; "offset"]%string false true.

Lemma demo_input : layout_input demo_parse demo_cfg.
Proof.
  split.
  - intros n i. unfold demo_parse. repeat case_decide; intros; simplify_eq; lia.
  - intros n ps H%dget_elem. vm_compute in H.
    repeat (apply elem_of_cons in H as [H|H]; [injection H as -> ->; lia|]).
    by apply not_elem_of_nil in H.
  - intros n1 n2 i ps _ _. unfold demo_parse. repeat case_decide; intros; simplify_eq; done.
Qed.

Lemma remap_layout_safe_witness :
  exists cfg' t2 t3,
    remap_packed_kv_tensor_offsets demo_parse demo_cls (Some (SplitState 1 2 4 0)) demo_cfg
      = Ok (true, cfg') /\
    map t_offset (kv_cache_tensors cfg') = [20; 20; 0; 10] /\
    kv_cache_tensors cfg' !! 2%nat = Some t2 /\ kv_cache_tensors cfg' !! 3%nat = Some t3 /\
    (t_offset t2 + 10 <= t_offset t3 \/ t_offset t3 + 10 <= t_offset t2).
Proof.
  destruct (remap_packed_kv_tensor_offsets demo_parse demo_cls (Some (SplitState 1 2 4 0)) demo_cfg)
    as [[b cfg']|] eqn:E; [|vm_compute in E; discriminate E].
  destruct b; [|vm_compute in E; discriminate E].
  destruct (remap_layout_safe demo_parse demo_cls (SplitState 1 2 4 0) demo_cfg cfg') as [_ H];
    [repeat split; simpl; lia|apply demo_input|exact E|].
  vm_compute in E. injection E as E.
  exists cfg', (KvTensor 300 ["l2"%string] 10 30 0 (Some (OtherPool 7))), (KvTensor 300 ["l3"%string] 10 30 10 (Some (OtherPool 7))).
  split; [reflexivity|]. rewrite <- E in *. split; [reflexivity|]. split; [reflexivity|].
  split; [reflexivity|].
  destruct (H (KvTensor 300 ["l2"%string] 10 30 0 (Some (OtherPool 7))) "l2"%string []) as (p & i & Hp & Hi & _ & _ & Hd).
  - simpl. right. right. left.
  - reflexivity.
  - reflexivity.
  - vm_compute in Hp, Hi. injection Hp as <-. injection Hi as <-.
    apply (Hd (KvTensor 300 ["l3"%string] 10 30 10 (Some (OtherPool 7))) "l3"%string [] 10).
    + simpl. right. right. right. left.
    + reflexivity.
    + reflexivity.
    + discriminate.
    + vm_compute. reflexivity.
    + vm_compute. reflexivity.
Defined.
