(* ===== verification/PcpLayout.v ===== *)
(** * Layout of a prefill context-parallel batch

    Models the batch layout of src/vllm_hcu/v1/pcp_manager.py: the two chunks
    a rank gets of a prefill request, the virtual rows that make every rank's
    share of a request equally wide, the gather and restore indexes, and their
    use on hidden states and slot mappings.

    The arrays of the batch that are indexed by requests are one record per
    request. *)

From S2P Require Import Prelude PyString Tensors LightlyCp.
Local Open Scope Z_scope.

Module Pcp.
Import LightlyCp.

(** ** Data *)

Record RankSegment := RankSeg { rs_start : Z; rs_stop : Z }.
Definition rs_num_tokens (s : RankSegment) : Z := rs_stop s - rs_start s.

(** [_BatchSegment], its two slices as their ends *)
Record BatchSegment := BatchSeg {
  global_req_idx : Z;
  global_start : Z;
  global_stop : Z;
  local_start : Z;
  local_stop : Z;
  padding_tokens : Z
}.
Definition num_actual_tokens (s : BatchSegment) : Z := global_stop s - global_start s.
Definition num_tokens (s : BatchSegment) : Z := num_actual_tokens s + padding_tokens s.

(** The entries of one request in the arrays of the global batch that the
    layout reads: scheduled tokens, query start, prefilling, computed tokens *)
Record request := Request {
  rq_len : Z;
  rq_start : Z;
  rq_prefilling : bool;
  rq_computed : Z
}.

Definition PatchCompatibilityError : exn_class := OtherError "PatchCompatibilityError".

(** ** Rank segments *)

Definition rank_segments (length pcp_rank pcp_size : Z) : result (RankSegment * RankSegment) :=
  if length <? 0 then Err (Exn ValueError "token length must be non-negative")
  else if (pcp_size <=? 0) || negb ((0 <=? pcp_rank) && (pcp_rank <? pcp_size))
  then Err (Exn ValueError "invalid PCP rank or size")
  else
    let chunk_count := 2 * pcp_size in
    let chunk_size := (length + chunk_count - 1) / chunk_count in
    let segment chunk_idx :=
      let start := Z.min (chunk_idx * chunk_size) length in
      RankSeg start (Z.min (start + chunk_size) length) in
    Ok (segment pcp_rank, segment (chunk_count - 1 - pcp_rank)).

(** [sum(segment.num_tokens for segment in self.rank_segments(...))] *)
Definition rank_width (length pcp_rank pcp_size : Z) : result Z :=
  s ← rank_segments length pcp_rank pcp_size;
  mret (rs_num_tokens s.1 + rs_num_tokens s.2).

(** One request in the sum of [get_num_tokens_for_dispatch], on one rank and
    on the widest *)
Definition request_width (pcp_size rank : Z) (r : request) : result Z :=
  if rq_prefilling r then rank_width (rq_len r) rank pcp_size else Ok (rq_len r).

Definition widest (pcp_size : Z) (r : request) : result Z :=
  if rq_prefilling r
  then widths ← mapM (fun rank => rank_width (rq_len r) rank pcp_size) (zrange 0 pcp_size);
       list_max widths
  else Ok (rq_len r).

Definition get_num_tokens_for_dispatch (use_mla : bool) (pcp_size : Z) (reqs : list request) : result Z :=
  if use_mla then
    widths ← mapM (widest pcp_size) reqs;
    mret (zsum widths)
  else
    totals ← mapM (fun rank => widths ← mapM (request_width pcp_size rank) reqs; mret (zsum widths))
               (zrange 0 pcp_size);
    mret (foldl Z.max 0 totals).

(** ** Segments of a rank *)

Definition is_pure_prefill (reqs : list request) (s : BatchSegment) : bool :=
  match zget reqs (global_req_idx s) with
  | Some r => rq_prefilling r && (rq_computed r + (global_start s - rq_start r) =? 0)
  | None => false
  end.

(** The loop that gives the rows their local slices one after the other *)
Fixpoint relocate (local_offset : Z) (segments : list BatchSegment) : list BatchSegment :=
  match segments with
  | [] => []
  | s :: rest =>
      BatchSeg (global_req_idx s) (global_start s) (global_stop s) local_offset
        (local_offset + num_tokens s) (padding_tokens s)
      :: relocate (local_offset + num_tokens s) rest
  end.

(** [_reorder_segments]: sorting by a Boolean key is stable *)
Definition reorder_segments (reqs : list request) (segments : list BatchSegment) : list BatchSegment :=
  relocate 0 (filter (fun s => is_pure_prefill reqs s = false) segments ++
              filter (fun s => is_pure_prefill reqs s = true) segments).

(** The inner loop of [_segments_for_rank], over the intervals of one request *)
Fixpoint place_rank_segments (req_idx req_start local_offset : Z) (segments : list RankSegment)
    : list BatchSegment :=
  match segments with
  | [] => []
  | s :: rest =>
      if rs_num_tokens s =? 0 then place_rank_segments req_idx req_start local_offset rest
      else
        BatchSeg req_idx (req_start + rs_start s) (req_start + rs_stop s) local_offset
          (local_offset + rs_num_tokens s) 0
        :: place_rank_segments req_idx req_start (local_offset + rs_num_tokens s) rest
  end.

(** The intervals of a request that a rank gets *)
Definition request_segments (pcp_size rank : Z) (r : request) : result (list RankSegment) :=
  if rq_prefilling r
  then s ← rank_segments (rq_len r) rank pcp_size; mret [s.1; s.2]
  else Ok [RankSeg 0 (rq_len r)].

Fixpoint segments_loop (pcp_size rank req_idx local_offset : Z) (reqs : list request)
    : result (list BatchSegment) :=
  match reqs with
  | [] => Ok []
  | r :: rest =>
      if rq_len r =? 0 then segments_loop pcp_size rank (req_idx + 1) local_offset rest
      else
        segs ← request_segments pcp_size rank r;
        let here := place_rank_segments req_idx (rq_start r) local_offset segs in
        more ← segments_loop pcp_size rank (req_idx + 1)
                 (local_offset + zsum (map num_tokens here)) rest;
        mret (here ++ more)
  end.

(** [_segments_for_rank] *)
Definition segments_for_rank (pcp_size rank : Z) (reqs : list request) : result (list BatchSegment) :=
  segs ← segments_loop pcp_size rank 0 0 reqs;
  mret (reorder_segments reqs segs).

(** ** Equal widths *)

Definition list_min (l : list Z) : result Z :=
  match l with
  | [] => Err (Exn ValueError "min() arg is an empty sequence")
  | x :: l' => Ok (foldl Z.min x l')
  end.

(** The rows of a request among a rank's *)
Definition rows_of (req_idx : Z) (segments : list BatchSegment) : list BatchSegment :=
  filter (fun s => global_req_idx s = req_idx) segments.

(** The virtual rows one rank is given for a request *)
Definition virtual_rows (req_idx start missing_tokens missing_rows : Z) : list BatchSegment :=
  map (fun row => BatchSeg req_idx start start 0 0 (if row =? 0 then missing_tokens else 0))
    (zrange 0 missing_rows).

(** The loop over the ranks that appends them *)
Fixpoint append_virtual (req_idx start target_tokens target_rows : Z)
    (segments_by_rank : list (list BatchSegment)) : result (list (list BatchSegment)) :=
  match segments_by_rank with
  | [] => Ok []
  | segments :: rest =>
      let mine := rows_of req_idx segments in
      let missing_tokens := target_tokens - zsum (map num_actual_tokens mine) in
      let missing_rows := target_rows - zlen mine in
      if missing_rows <? (if 0 <? missing_tokens then 1 else 0)
      then Err (Exn AssertionError "missing_rows >= int(missing_tokens > 0)")
      else
        more ← append_virtual req_idx start target_tokens target_rows rest;
        mret ((segments ++ virtual_rows req_idx start missing_tokens missing_rows) :: more)
  end.

(** One request of the padding loop of [_build_batch_layout] *)
Definition pad_request (use_mla : bool) (req_idx : Z) (r : request)
    (segments_by_rank : list (list BatchSegment)) : result (list (list BatchSegment)) :=
  if negb use_mla || (rq_len r =? 0) || negb (rq_prefilling r) then Ok segments_by_rank
  else
    let mine := map (rows_of req_idx) segments_by_rank in
    let actual_tokens := map (fun segs => zsum (map num_actual_tokens segs)) mine in
    target_tokens ← list_max actual_tokens;
    least_tokens ← list_min actual_tokens;
    if least_tokens =? target_tokens then mret segments_by_rank
    else
      let row_counts := map zlen mine in
      most_rows ← list_max row_counts;
      let target_rows :=
        if existsb (fun '(count, rows) => (count <? target_tokens) && (rows =? most_rows))
             (zip actual_tokens row_counts)
        then most_rows + 1 else most_rows in
      append_virtual req_idx (rq_start r) target_tokens target_rows segments_by_rank.

Fixpoint pad_requests (use_mla : bool) (req_idx : Z) (reqs : list request)
    (segments_by_rank : list (list BatchSegment)) : result (list (list BatchSegment)) :=
  match reqs with
  | [] => Ok segments_by_rank
  | r :: rest =>
      segs ← pad_request use_mla req_idx r segments_by_rank;
      pad_requests use_mla (req_idx + 1) rest segs
  end.

(** ** Gather and restore indexes *)

(** The arrays the layout fills *)
Record indexes := Indexes {
  ix_gather : list Z;
  ix_mask : list bool;
  ix_restore : list Z
}.

(** [buf[start:start+count] = v] *)
Definition slice_fill {A} (buf : list A) (start count : Z) (v : A) : list A :=
  let n := Z.min (zlen buf) (start + count) - Z.min (zlen buf) start in
  take (Z.to_nat start) buf ++ replicate (Z.to_nat n) v ++ drop (Z.to_nat start + Z.to_nat n) buf.

Definition is_decode (reqs : list request) (s : BatchSegment) : bool :=
  match zget reqs (global_req_idx s) with
  | Some r => negb (rq_prefilling r)
  | None => true
  end.

(** The body of the loop over a rank's segments *)
Definition fill_segment (reqs : list request) (padded rank : Z) (ix : indexes) (s : BatchSegment)
    : result indexes :=
  let n := num_actual_tokens s in
  if n =? 0 then Ok ix
  else
    let start := rank * padded + local_start s in
    gather ← slice_assign (ix_gather ix) start n (zrange (global_start s) n);
    if negb (is_decode reqs s) || (rank =? 0) then
      restore ← slice_assign (ix_restore ix) (global_start s) n (zrange start n);
      mret (Indexes gather (slice_fill (ix_mask ix) start n true) restore)
    else mret (Indexes gather (ix_mask ix) (ix_restore ix)).

Fixpoint fill_segments (reqs : list request) (padded rank : Z) (ix : indexes)
    (segments : list BatchSegment) : result indexes :=
  match segments with
  | [] => Ok ix
  | s :: rest => ix' ← fill_segment reqs padded rank ix s; fill_segments reqs padded rank ix' rest
  end.

Fixpoint fill_ranks (reqs : list request) (padded rank : Z) (ix : indexes)
    (segments_by_rank : list (list BatchSegment)) : result indexes :=
  match segments_by_rank with
  | [] => Ok ix
  | segments :: rest =>
      ix' ← fill_segments reqs padded rank ix segments;
      fill_ranks reqs padded (rank + 1) ix' rest
  end.

(** ** The layout *)

Record layout := Layout {
  segments_by_rank : list (list BatchSegment);
  per_rank_num_tokens : list Z;
  padded_num_tokens : Z;
  layout_indexes : indexes
}.

(** [_build_batch_layout].  [junk] is what [np.empty(num_tokens)] holds. *)
Definition build_batch_layout (use_mla : bool) (pcp_size : Z) (reqs : list request) (junk : list Z)
    (padded_arg : option Z) : result layout :=
  segments ← mapM (fun rank => segments_for_rank pcp_size rank reqs) (zrange 0 pcp_size);
  segments ← pad_requests use_mla 0 reqs segments;
  let segments := map (reorder_segments reqs) segments in
  let tokens := map (fun segs => zsum (map num_tokens segs)) segments in
  let required := match tokens with [] => 0 | x :: rest => foldl Z.max x rest end in
  padded ← match padded_arg with
           | None => Ok required
           | Some p =>
               if p <? required
               then Err (Exn PatchCompatibilityError "official PCP dispatch padding is smaller")
               else Ok p
           end;
  let expanded := Z.to_nat (padded * pcp_size) in
  ix ← fill_ranks reqs padded 0
         (Indexes (replicate expanded 0) (replicate expanded false) junk) segments;
  mret (Layout segments tokens padded ix).

(** ** Uses of the indexes *)

Section uses.
Context `{TensorOps}.

(** [restore_hidden_states], [all_gather] being the group's as the rank sees
    it; before a batch was laid out there is no restore index *)
Definition restore_hidden_states {A} (restore : option (list Z)) (all_gather : list A -> list A)
    (hidden_states : list A) : result (list A) :=
  match restore with
  | None => Ok hidden_states
  | Some index => index_select (all_gather hidden_states) index
  end.

(** [_convert_slot_mappings], for one cache group *)
Definition convert_slot_mappings (pad_slot_id : Z) (ix : indexes) (global_slots : list Z)
    : result (list Z) :=
  gathered ← index_select global_slots (ix_gather ix);
  mret (zip_with (fun (write : bool) slot => if write then slot else pad_slot_id)
          (ix_mask ix) gathered).
End uses.
End Pcp.
