(* ===== verification/PcpLayoutCorrect.v ===== *)
(** * Correctness of the context-parallel layout

    The ranks share the tokens of the batch, each token is restored from and
    written by exactly one of them, and every rank of an MLA batch has rows
    and tokens of the same shape. *)

From S2P Require Import Prelude PyString Tensors LightlyCp LightlyCpCorrect PcpLayout.
From stdpp Require Import sorting.
Import LightlyCp Pcp.
Local Open Scope Z_scope.

(** ** Chunks of a request *)

Section chunks.
Context (p : Z).
Hypothesis Hp : 0 < p.

Definition chunk_size (L : Z) : Z := (L + 2 * p - 1) / (2 * p).

(** The tokens of chunk [j] of a request of [L]. *)
Definition chunk_tokens (L j : Z) : Z := Z.min (Z.min (j * chunk_size L) L + chunk_size L) L - Z.min (j * chunk_size L) L.

Lemma chunk_size_bound L : 0 <= L -> 0 <= chunk_size L /\ L <= 2 * p * chunk_size L < L + 2 * p.
Proof.
  intros HL. unfold chunk_size.
  pose proof (Z.div_mod (L + 2 * p - 1) (2 * p) ltac:(lia)) as E.
  pose proof (Z.mod_pos_bound (L + 2 * p - 1) (2 * p) ltac:(lia)).
  split; [apply Z.div_pos; lia|]. set (q := (L + 2 * p - 1) / (2 * p)) in *. lia.
Qed.

Lemma chunk_tokens_bound L j : 0 <= L -> 0 <= j -> 0 <= chunk_tokens L j <= chunk_size L.
Proof. intros HL Hj. destruct (chunk_size_bound L HL) as [Hc _]. unfold chunk_tokens. lia. Qed.

Lemma chunks_prefix accu L (n : nat) :
  0 <= L ->
  concat (map (fun j => zrange (accu + Z.min (j * chunk_size L) L) (chunk_tokens L j)) (zrange 0 (Z.of_nat n))) =
  zrange accu (Z.min (Z.of_nat n * chunk_size L) L).
Proof.
  intros HL. destruct (chunk_size_bound L HL) as [Hc _]. induction n as [|n IH].
  - simpl. by rewrite Z.min_l by lia.
  - rewrite Nat2Z.inj_succ. replace (Z.succ (Z.of_nat n)) with (Z.of_nat n + 1) by lia.
    rewrite zrange_S, map_app, concat_app, IH by lia. simpl. rewrite app_nil_r, Z.add_0_l.
    unfold chunk_tokens. set (c := chunk_size L) in *. set (k := Z.of_nat n) in *.
    assert (0 <= k * c) by (apply Z.mul_nonneg_nonneg; lia).
    rewrite <- zrange_app by lia. f_equal. lia.
Qed.

(** The two chunks of the ranks make up the request. *)
Lemma ranks_share accu L :
  0 <= L ->
  concat (map (fun r => zrange (accu + Z.min (r * chunk_size L) L) (chunk_tokens L r) ++
                        zrange (accu + Z.min ((2 * p - 1 - r) * chunk_size L) L) (chunk_tokens L (2 * p - 1 - r)))
            (zrange 0 p)) ≡ₚ zrange accu L.
Proof.
  intros HL. rewrite (zigzag_perm (fun j => zrange (accu + Z.min (j * chunk_size L) L) (chunk_tokens L j))) by lia.
  rewrite <- (Z2Nat.id (2 * p)) by lia. rewrite chunks_prefix by done.
  destruct (chunk_size_bound L HL). rewrite Z2Nat.id, Z.min_r by lia. done.
Qed.

Lemma rank_segments_ok L r :
  0 <= L -> 0 <= r < p ->
  exists s1 s2, rank_segments L r p = Ok (s1, s2) /\
    rs_start s1 = Z.min (r * chunk_size L) L /\ rs_num_tokens s1 = chunk_tokens L r /\
    rs_start s2 = Z.min ((2 * p - 1 - r) * chunk_size L) L /\
    rs_num_tokens s2 = chunk_tokens L (2 * p - 1 - r).
Proof.
  intros HL Hr. unfold rank_segments.
  destruct (Z.ltb_spec L 0); [lia|]. destruct (Z.leb_spec p 0); [lia|].
  destruct (Z.leb_spec 0 r); [|lia]. destruct (Z.ltb_spec r p); [|lia]. simpl.
  eexists _, _. split; [done|]. done.
Qed.

(** The width of a rank's share, and the rows it takes. *)
Definition share_width (L r : Z) : Z := chunk_tokens L r + chunk_tokens L (2 * p - 1 - r).
Definition share_rows (L r : Z) : Z :=
  (if chunk_tokens L r =? 0 then 0 else 1) + (if chunk_tokens L (2 * p - 1 - r) =? 0 then 0 else 1).

Lemma rank_width_ok L r : 0 <= L -> 0 <= r < p -> rank_width L r p = Ok (share_width L r).
Proof.
  intros HL Hr. unfold rank_width.
  destruct (rank_segments_ok L r HL Hr) as (s1 & s2 & -> & _ & E1 & _ & E2). simpl.
  by rewrite E1, E2.
Qed.

Lemma chunk_tokens_eq L j : 0 <= L -> 0 <= j ->
  chunk_tokens L j = Z.max 0 (Z.min (chunk_size L) (L - j * chunk_size L)).
Proof. intros HL Hj. destruct (chunk_size_bound L HL) as [Hc _]. unfold chunk_tokens. lia. Qed.

(** A chunk that is not full is the last one. *)
Lemma chunk_after_partial L i j :
  0 <= L -> 0 <= i < j -> chunk_tokens L i < chunk_size L -> chunk_tokens L j = 0.
Proof.
  intros HL Hij. destruct (chunk_size_bound L HL) as [Hc _].
  rewrite !chunk_tokens_eq by lia. set (c := chunk_size L) in *. intros Hi.
  assert ((i + 1) * c <= j * c) by (apply Z.mul_le_mono_nonneg_r; lia). lia.
Qed.

Lemma chunk_tokens_mono L i j : 0 <= L -> 0 <= i <= j -> chunk_tokens L j <= chunk_tokens L i.
Proof.
  intros HL Hij. destruct (chunk_size_bound L HL) as [Hc _].
  rewrite !chunk_tokens_eq by lia. set (c := chunk_size L) in *.
  assert (i * c <= j * c) by (apply Z.mul_le_mono_nonneg_r; lia). lia.
Qed.

(** Shares of one width have one number of rows. *)
Lemma equal_width_rows_lt L r r' :
  0 <= L -> 0 <= r < r' -> r' < p -> share_width L r = share_width L r' -> share_rows L r = share_rows L r'.
Proof.
  intros HL Hr Hr' Hw. unfold share_width, share_rows in *.
  destruct (Z.eq_dec (chunk_tokens L r) (chunk_tokens L r')) as [E|Hne].
  - assert (chunk_tokens L (2 * p - 1 - r) = chunk_tokens L (2 * p - 1 - r')) as E2 by lia.
    by rewrite E, E2.
  - pose proof (chunk_tokens_mono L r r' HL ltac:(lia)). pose proof (chunk_tokens_bound L r HL ltac:(lia)).
    rewrite (chunk_after_partial L r' (2 * p - 1 - r)) in Hw by lia.
    rewrite (chunk_after_partial L r' (2 * p - 1 - r')) in Hw by lia. lia.
Qed.

Lemma equal_width_rows L r r' :
  0 <= L -> 0 <= r < p -> 0 <= r' < p -> share_width L r = share_width L r' ->
  share_rows L r = share_rows L r'.
Proof.
  intros HL Hr Hr' Hw. destruct (Z.lt_trichotomy r r') as [?|[->|?]]; [|done|].
  - apply equal_width_rows_lt; lia || done.
  - symmetry. apply equal_width_rows_lt; lia || done.
Qed.
End chunks.

(** ** Rows without their local slices *)

Definition strip (s : BatchSegment) : BatchSegment :=
  BatchSeg (global_req_idx s) (global_start s) (global_stop s) 0 0 (padding_tokens s).

Lemma relocate_strip off segs : map strip (relocate off segs) = map strip segs.
Proof. revert off. induction segs as [|s segs IH]; intros off; simpl; [done|]. by rewrite IH. Qed.

Lemma reorder_strip reqs segs : map strip (reorder_segments reqs segs) ≡ₚ map strip segs.
Proof.
  unfold reorder_segments. rewrite relocate_strip. apply Permutation_map.
  induction segs as [|s segs IH]; [done|]. rewrite !filter_cons.
  destruct (is_pure_prefill reqs s); simpl; repeat case_decide; try done; by rewrite <- ?Permutation_middle, IH.
Qed.

(** What does not look at the local slices. *)
Definition stripped {B} (f : BatchSegment -> B) : Prop := forall s, f (strip s) = f s.

Lemma map_stripped {B} (f : BatchSegment -> B) segs : stripped f -> map f segs = map f (map strip segs).
Proof. intros Hf. rewrite map_map. apply map_ext. intros s. by rewrite Hf. Qed.

Lemma num_tokens_stripped : stripped num_tokens.
Proof. done. Qed.

Lemma rows_of_strip k segs : map strip (rows_of k segs) = rows_of k (map strip segs).
Proof.
  unfold rows_of. induction segs as [|s segs IH]; simpl; [done|].
  rewrite !filter_cons. simpl. case_decide; simpl; by rewrite IH.
Qed.

Lemma rows_of_app k a b : rows_of k (a ++ b) = rows_of k a ++ rows_of k b.
Proof. apply filter_app. Qed.

#[global] Instance rows_of_perm k : Proper ((≡ₚ) ==> (≡ₚ)) (rows_of k).
Proof. intros a b E. unfold rows_of. by rewrite E. Qed.

(** ** The rows of a rank *)

(** The arrays of a batch agree: requests follow each other. *)
Fixpoint batch_from (off : Z) (reqs : list request) : Prop :=
  match reqs with
  | [] => True
  | q :: rest => rq_start q = off /\ 0 <= rq_len q /\ batch_from (off + rq_len q) rest
  end.
Definition batch_tokens (reqs : list request) : Z := zsum (map rq_len reqs).

Lemma batch_lens off reqs : batch_from off reqs -> Forall (fun q => 0 <= rq_len q) reqs.
Proof. revert off. induction reqs as [|q reqs IH]; intros off; simpl; [done|]. intros (_ & ? & ?). eauto. Qed.

Lemma batch_tokens_nonneg off reqs : batch_from off reqs -> 0 <= batch_tokens reqs.
Proof. intros H%batch_lens. unfold batch_tokens. induction H; simpl; lia. Qed.

Section rows.
Context (p : Z).
Hypothesis Hp : 0 < p.

Definition chunk_row (k : Z) (q : request) (j : Z) : BatchSegment :=
  let a := rq_start q + Z.min (j * chunk_size p (rq_len q)) (rq_len q) in
  BatchSeg k a (a + chunk_tokens p (rq_len q) j) 0 0 0.

(** The rows rank [r] has of request [k]. *)
Definition request_rows (r k : Z) (q : request) : list BatchSegment :=
  if rq_len q =? 0 then []
  else if rq_prefilling q
  then filter (fun s => num_actual_tokens s <> 0) [chunk_row k q r; chunk_row k q (2 * p - 1 - r)]
  else [BatchSeg k (rq_start q) (rq_start q + rq_len q) 0 0 0].

Fixpoint rank_rows (r k : Z) (reqs : list request) : list BatchSegment :=
  match reqs with
  | [] => []
  | q :: rest => request_rows r k q ++ rank_rows r (k + 1) rest
  end.

Lemma place_strip k start off segs :
  map strip (place_rank_segments k start off segs) =
  filter (fun s => num_actual_tokens s <> 0)
    (map (fun s => BatchSeg k (start + rs_start s) (start + rs_stop s) 0 0 0) segs).
Proof.
  revert off. induction segs as [|s segs IH]; intros off; simpl; [done|].
  rewrite filter_cons. unfold num_actual_tokens at 1. simpl. unfold rs_num_tokens.
  destruct (Z.eqb_spec (rs_stop s - rs_start s) 0); case_decide; try lia; [apply IH|].
  simpl. by rewrite IH.
Qed.

Lemma request_segments_rows r k q off :
  0 <= r < p -> 0 <= rq_len q -> rq_len q <> 0 ->
  exists segs, request_segments p r q = Ok segs /\
    map strip (place_rank_segments k (rq_start q) off segs) = request_rows r k q.
Proof.
  intros Hr HL Hne. unfold request_segments, request_rows.
  rewrite (proj2 (Z.eqb_neq _ _) Hne). destruct (rq_prefilling q).
  - destruct (rank_segments_ok p Hp (rq_len q) r HL Hr) as (s1 & s2 & -> & E1 & N1 & E2 & N2). simpl.
    eexists. split; [done|]. rewrite place_strip. simpl. unfold chunk_row, rs_num_tokens in *.
    by replace (rs_stop s1) with (rs_start s1 + chunk_tokens p (rq_len q) r) by lia;
      replace (rs_stop s2) with (rs_start s2 + chunk_tokens p (rq_len q) (2 * p - 1 - r)) by lia;
      rewrite E1, E2, !Z.add_assoc.
  - eexists. split; [done|]. rewrite place_strip. simpl. rewrite filter_cons. unfold num_actual_tokens. simpl.
    rewrite decide_True by lia. by rewrite Z.add_0_r.
Qed.

Lemma segments_loop_rows r k off reqs :
  0 <= r < p -> Forall (fun q => 0 <= rq_len q) reqs ->
  exists segs, segments_loop p r k off reqs = Ok segs /\ map strip segs = rank_rows r k reqs.
Proof.
  intros Hr Hl. revert k off. induction Hl as [|q reqs Hq _ IH]; intros k off; simpl; [by exists []|].
  destruct (Z.eqb_spec (rq_len q) 0) as [E|Hne].
  - unfold request_rows. rewrite E. simpl. apply IH.
  - destruct (request_segments_rows r k q off Hr Hq Hne) as (segs & -> & Hs). simpl.
    destruct (IH (k + 1) (off + zsum (map num_tokens (place_rank_segments k (rq_start q) off segs))))
      as (more & -> & Hm). simpl.
    eexists. split; [done|]. by rewrite map_app, Hs, Hm.
Qed.

Lemma segments_for_rank_rows r reqs :
  0 <= r < p -> Forall (fun q => 0 <= rq_len q) reqs ->
  exists segs, segments_for_rank p r reqs = Ok segs /\ map strip segs ≡ₚ rank_rows r 0 reqs.
Proof.
  intros Hr Hl. unfold segments_for_rank.
  destruct (segments_loop_rows r 0 0 reqs Hr Hl) as (segs & -> & Hs). simpl.
  eexists. split; [done|]. by rewrite reorder_strip, Hs.
Qed.

(** The rows of a request among the rank's are its own. *)
Lemma request_rows_idx r k q s : s ∈ request_rows r k q -> global_req_idx s = k /\ padding_tokens s = 0.
Proof.
  unfold request_rows. destruct (rq_len q =? 0); [by intros ?%not_elem_of_nil|].
  destruct (rq_prefilling q).
  - intros [_ [->|[->|[]%not_elem_of_nil]%elem_of_cons]%elem_of_cons]%list_elem_of_filter; done.
  - by intros ->%list_elem_of_singleton.
Qed.

Lemma rank_rows_idx r k reqs s :
  s ∈ rank_rows r k reqs -> k <= global_req_idx s < k + zlen reqs /\ padding_tokens s = 0.
Proof.
  revert k. induction reqs as [|q reqs IH]; intros k; simpl; [by intros ?%not_elem_of_nil|].
  rewrite zlen_cons. pose proof (zlen_nonneg reqs).
  intros [[-> ?]%request_rows_idx|[? ?]%IH]%elem_of_app; split; done || lia.
Qed.

Lemma rows_of_none k segs : (forall s, s ∈ segs -> global_req_idx s <> k) -> rows_of k segs = [].
Proof.
  intros Hn. unfold rows_of. induction segs as [|s segs IH]; [done|].
  rewrite filter_cons, decide_False by (apply Hn; by left). apply IH. intros. apply Hn. by right.
Qed.

Lemma rows_of_all k segs : (forall s, s ∈ segs -> global_req_idx s = k) -> rows_of k segs = segs.
Proof.
  intros Ha. unfold rows_of. induction segs as [|s segs IH]; [done|].
  rewrite filter_cons, decide_True by (apply Ha; by left). f_equal. apply IH. intros. apply Ha. by right.
Qed.

Lemma rows_of_rank r k0 reqs (i : nat) q :
  reqs !! i = Some q -> rows_of (k0 + Z.of_nat i) (rank_rows r k0 reqs) = request_rows r (k0 + Z.of_nat i) q.
Proof.
  revert k0 i. induction reqs as [|q0 reqs IH]; intros k0 i Hi; [done|]. simpl. rewrite rows_of_app.
  destruct i as [|i]; simpl in Hi.
  - injection Hi as ->. rewrite Z.add_0_r. rewrite rows_of_all by (by intros s [? _]%request_rows_idx).
    rewrite rows_of_none; [by rewrite app_nil_r|]. intros s [? _]%rank_rows_idx. lia.
  - rewrite rows_of_none; [|intros s [-> _]%request_rows_idx; lia]. simpl.
    replace (k0 + Z.of_nat (S i)) with ((k0 + 1) + Z.of_nat i) by lia. by apply IH.
Qed.
End rows.

(** ** Equal widths *)

Lemma foldl_max_spec x l : foldl Z.max x l ∈ x :: l /\ forall y, y ∈ x :: l -> y <= foldl Z.max x l.
Proof.
  revert x. induction l as [|z l IH]; intros x; simpl.
  - split; [by left|]. intros y ->%list_elem_of_singleton. lia.
  - destruct (IH (Z.max x z)) as [Hin Hle]. split.
    + apply elem_of_cons in Hin as [->|Hin]; [|by right; right].
      destruct (Z.max_spec x z) as [[_ ->]|[_ ->]]; [right; by left|by left].
    + intros y Hy. pose proof (Hle (Z.max x z) ltac:(by left)).
      apply elem_of_cons in Hy as [->|[->|Hy]%elem_of_cons]; [lia|lia|]. apply Hle. by right.
Qed.

Lemma foldl_min_spec x l : forall y, y ∈ x :: l -> foldl Z.min x l <= y.
Proof.
  revert x. induction l as [|z l IH]; intros x y; simpl.
  - intros ->%list_elem_of_singleton. lia.
  - intros Hy. pose proof (IH (Z.min x z) (Z.min x z) ltac:(by left)).
    apply elem_of_cons in Hy as [->|[->|Hy]%elem_of_cons]; [lia|lia|]. apply IH. by right.
Qed.

Lemma list_max_ok l : l <> [] -> exists m, list_max l = Ok m /\ m ∈ l /\ forall y, y ∈ l -> y <= m.
Proof. intros Hl. destruct l as [|x l]; [done|]. eexists. split; [done|]. apply foldl_max_spec. Qed.

Lemma list_min_ok l : l <> [] -> exists m, list_min l = Ok m /\ forall y, y ∈ l -> m <= y.
Proof. intros Hl. destruct l as [|x l]; [done|]. eexists. split; [done|]. apply foldl_min_spec. Qed.

Lemma zrange_cons s n : 0 < n -> zrange s n = s :: zrange (s + 1) (n - 1).
Proof. intros. replace n with (1 + (n - 1)) at 1 by lia. by rewrite zrange_app by lia. Qed.

Lemma mapM_ok {A B} (f : A -> result B) (g : A -> B) l :
  (forall x, x ∈ l -> f x = Ok (g x)) -> mapM f l = Ok (map g l).
Proof.
  induction l as [|x l IH]; intros Hf; [done|]. simpl. rewrite Hf by by left. simpl.
  rewrite IH by (intros; apply Hf; by right). done.
Qed.

Lemma lookup_map {A B} (f : A -> B) l i : map f l !! i = f <$> l !! i.
Proof. apply list_lookup_fmap. Qed.

(** What a rank has of a request: real tokens, tokens with padding, rows. *)
Definition actual_of (k : Z) (segs : list BatchSegment) : Z := zsum (map num_actual_tokens (rows_of k segs)).
Definition width_of (k : Z) (segs : list BatchSegment) : Z := zsum (map num_tokens (rows_of k segs)).
Definition count_of (k : Z) (segs : list BatchSegment) : Z := zlen (rows_of k segs).

(** A row that only pads request [k]. *)
Definition virtual (k : Z) (s : BatchSegment) : Prop :=
  global_req_idx s = k /\ num_actual_tokens s = 0 /\ 0 <= padding_tokens s.

Lemma virtual_rows_spec k start t m :
  0 <= t -> 0 <= m -> (0 < t -> 0 < m) ->
  zsum (map num_tokens (virtual_rows k start t m)) = t /\ zlen (virtual_rows k start t m) = m /\
  Forall (virtual k) (virtual_rows k start t m).
Proof.
  intros Ht Hm Htm. unfold virtual_rows. split_and!.
  - assert (forall a n, 0 < a -> zsum (map num_tokens (map (fun row =>
      BatchSeg k start start 0 0 (if row =? 0 then t else 0)) (zrange a n))) = 0) as Hz.
    { intros a n Ha. rewrite map_map. unfold num_tokens, num_actual_tokens. simpl.
      assert (Forall (fun x => 0 < x) (zrange a n)) as Hall.
      { apply Forall_forall. intros x Hx%elem_zrange. lia. }
      induction Hall as [|x l Hx _ IH]; simpl; [done|]. rewrite IH.
      destruct (Z.eqb_spec x 0); lia. }
    destruct (Z.eq_dec m 0) as [->|Hne]; [simpl; lia|].
    replace m with (1 + (m - 1)) by lia. rewrite zrange_app by lia. rewrite !map_app, zsum_app, (Hz (0 + 1)) by lia.
    change (zrange 0 1) with [0]. simpl. unfold num_tokens, num_actual_tokens. simpl. lia.
  - unfold zlen. rewrite length_map. apply zlen_zrange. lia.
  - apply Forall_forall. intros s (row & -> & _)%list_elem_of_fmap.
    unfold virtual, num_actual_tokens. simpl. split; [done|]. destruct (row =? 0); lia.
Qed.

Lemma append_virtual_ok k start T R L :
  (forall segs, segs ∈ L -> actual_of k segs <= T /\ count_of k segs <= R /\
     (actual_of k segs < T -> count_of k segs < R)) ->
  append_virtual k start T R L =
  Ok (map (fun a => a ++ virtual_rows k start (T - actual_of k a) (R - count_of k a)) L).
Proof.
  induction L as [|a L IH]; intros HL; [done|]. simpl. fold (actual_of k a) (count_of k a).
  destruct (HL a ltac:(by left)) as (H1 & H2 & H3).
  destruct (Z.ltb_spec (R - count_of k a) (if 0 <? T - actual_of k a then 1 else 0)) as [Hlt|_].
  { exfalso. destruct (Z.ltb_spec 0 (T - actual_of k a)); lia. }
  rewrite IH by (intros; apply HL; by right). done.
Qed.

(** Appended virtual rows bring a rank to the targets. *)
Lemma appended_targets k start T R a :
  Forall (fun s => padding_tokens s = 0) (rows_of k a) ->
  actual_of k a <= T -> count_of k a <= R -> (actual_of k a < T -> count_of k a < R) ->
  let b := a ++ virtual_rows k start (T - actual_of k a) (R - count_of k a) in
  width_of k b = T /\ count_of k b = R /\
  Forall (virtual k) (virtual_rows k start (T - actual_of k a) (R - count_of k a)).
Proof.
  intros Hpad H1 H2 H3. destruct (virtual_rows_spec k start (T - actual_of k a) (R - count_of k a))
    as (Hs & Hl & Hv); [lia..|]. cbn zeta. set (v := virtual_rows k start _ _) in *.
  assert (rows_of k v = v) as Ev.
  { apply rows_of_all. intros s Hs'. rewrite Forall_forall in Hv. by destruct (Hv s Hs'). }
  unfold width_of, count_of in *. rewrite rows_of_app, Ev, map_app, zsum_app, zlen_app, Hs, Hl.
  assert (zsum (map num_tokens (rows_of k a)) = actual_of k a) as ->.
  { unfold actual_of. clear -Hpad. induction Hpad as [|s l Hs _ IH]; simpl; [done|].
    rewrite IH. unfold num_tokens. lia. }
  split_and!; [lia|lia|done].
Qed.

Section padding.
Context (p : Z).
Hypothesis Hp : 0 < p.

(** The real tokens and rows rank [r] has of a request. *)
Definition rank_share (q : request) (r : Z) : Z :=
  if rq_prefilling q then share_width p (rq_len q) r else rq_len q.
Definition rank_count (q : request) (r : Z) : Z :=
  if rq_len q =? 0 then 0 else if rq_prefilling q then share_rows p (rq_len q) r else 1.

(** The ranks' rows of request [k] as [_segments_for_rank] made them. *)
Record unpadded (k : Z) (q : request) (L : list (list BatchSegment)) : Prop := {
  up_actual : map (actual_of k) L = map (rank_share q) (zrange 0 p);
  up_count : map (count_of k) L = map (rank_count q) (zrange 0 p);
  up_pad : Forall (fun a => Forall (fun s => padding_tokens s = 0) (rows_of k a)) L
}.

Lemma unpadded_width k a :
  Forall (fun s => padding_tokens s = 0) (rows_of k a) -> width_of k a = actual_of k a.
Proof.
  unfold width_of, actual_of. induction 1 as [|s l Hs _ IH]; simpl; [done|].
  rewrite IH. unfold num_tokens. lia.
Qed.

Lemma unpadded_elem k q L a : unpadded k q L -> a ∈ L ->
  exists r, 0 <= r < p /\ actual_of k a = rank_share q r /\ count_of k a = rank_count q r /\
    width_of k a = rank_share q r.
Proof.
  intros [Ha Hc Hpad] [i Hi]%list_elem_of_lookup. rewrite Forall_forall in Hpad.
  assert (map (actual_of k) L !! i = Some (actual_of k a)) as E1
    by (rewrite lookup_map, Hi; done).
  assert (map (count_of k) L !! i = Some (count_of k a)) as E2
    by (rewrite lookup_map, Hi; done).
  rewrite Ha, lookup_map in E1. rewrite Hc, lookup_map in E2.
  destruct (zrange 0 p !! i) as [r|] eqn:Er; [|done]. injection E1 as E1. injection E2 as E2.
  exists r. split; [by apply list_elem_of_lookup_2, elem_zrange in Er|]. split; [done|]. split; [done|].
  rewrite unpadded_width; [done|]. apply Hpad. by eapply list_elem_of_lookup_2.
Qed.

Lemma widest_ok q : 0 <= rq_len q ->
  exists W, widest p q = Ok W /\ (forall r, 0 <= r < p -> rank_share q r <= W) /\
    (exists r, 0 <= r < p /\ rank_share q r = W) /\
    (rq_prefilling q = true -> list_max (map (rank_share q) (zrange 0 p)) = Ok W).
Proof.
  intros HL. unfold widest, rank_share. destruct (rq_prefilling q).
  - rewrite (mapM_ok _ (share_width p (rq_len q))); [|intros r Hr%elem_zrange; apply rank_width_ok; lia].
    cbn [mbind result_bind].
    destruct (list_max_ok (map (share_width p (rq_len q)) (zrange 0 p))) as (W & E & Hin & Hle).
    { by rewrite zrange_cons by lia. }
    exists W. split; [done|]. split.
    + intros r Hr. apply Hle, list_elem_of_fmap. exists r. split; [done|]. apply elem_zrange. lia.
    + apply list_elem_of_fmap in Hin as (r & -> & Hr%elem_zrange). split; [exists r; split; [lia|done]|done].
  - exists (rq_len q). split_and!; [done|done|exists 0; split; [lia|done]|done].
Qed.

Lemma share_width_0 r : 0 <= r < p -> share_width p 0 r = 0.
Proof.
  intros Hr. unfold share_width. destruct (chunk_size_bound p Hp 0 ltac:(lia)) as [H1 H2].
  assert (chunk_size p 0 = 0) as E by nia. unfold chunk_tokens. rewrite E. lia.
Qed.

(** Ranks that are as wide as the widest have equally many rows. *)
Lemma uniform_rows q r r' :
  0 <= rq_len q -> 0 <= r < p -> 0 <= r' < p -> rank_share q r = rank_share q r' ->
  rank_count q r = rank_count q r'.
Proof.
  intros HL Hr Hr'. unfold rank_share, rank_count. destruct (rq_len q =? 0); [done|].
  destruct (rq_prefilling q); [|done]. by apply equal_width_rows.
Qed.

(** A batch whose ranks agree on the width of a request agrees on its rows. *)
Lemma equal_shares_uniform k q L W :
  0 <= rq_len q -> unpadded k q L -> (forall r, 0 <= r < p -> rank_share q r = W) ->
  exists R, Forall (fun b => width_of k b = W /\ count_of k b = R) L.
Proof.
  intros HL HU Hall. exists (rank_count q 0). apply Forall_forall. intros a Ha.
  destruct (unpadded_elem k q L a HU Ha) as (r & Hr & _ & Ec & Ew). split; [by rewrite Ew, Hall|].
  rewrite Ec. apply uniform_rows; [done..|lia|]. rewrite !Hall by lia. done.
Qed.

(** The targets of a request whose ranks differ. *)
Lemma pad_targets k q L W most :
  unpadded k q L -> list_max (map (count_of k) L) = Ok most -> (forall r, 0 <= r < p -> rank_share q r <= W) ->
  let R := if existsb (fun '(count, rows) => (count <? W) && (rows =? most))
                (zip (map (actual_of k) L) (map (count_of k) L)) then most + 1 else most in
  forall a, a ∈ L -> actual_of k a <= W /\ count_of k a <= R /\ (actual_of k a < W -> count_of k a < R).
Proof.
  intros HU Hm HW R a Ha. destruct (unpadded_elem k q L a HU Ha) as (r & Hr & Ea & _).
  assert (count_of k a <= most) as Hcm.
  { destruct (list_max_ok (map (count_of k) L)) as (m & E & _ & Hle).
    - intros Hn. by destruct L; [apply not_elem_of_nil in Ha|].
    - rewrite Hm in E. injection E as ->. apply Hle, list_elem_of_fmap. eauto. }
  split; [rewrite Ea; by apply HW|]. split; [unfold R; case_match; lia|].
  intros Hlt. destruct (Z.eq_dec (count_of k a) most) as [E|Hne]; [|unfold R; case_match; lia].
  assert (existsb (fun '(count, rows) => (count <? W) && (rows =? most))
    (zip (map (actual_of k) L) (map (count_of k) L)) = true) as Hex; [|unfold R; rewrite Hex; lia].
  apply existsb_exists. exists (actual_of k a, count_of k a). split.
  - apply list_elem_of_In. apply list_elem_of_lookup in Ha as [i Hi]. apply list_elem_of_lookup. exists i.
    rewrite lookup_zip_with, !lookup_map, Hi. done.
  - apply andb_true_iff. rewrite Z.ltb_lt, Z.eqb_eq. done.
Qed.

(** Every rank is as wide and has as many rows. *)
Definition uniform (k W R : Z) (L : list (list BatchSegment)) : Prop :=
  Forall (fun b => width_of k b = W /\ count_of k b = R) L.

(** Rows of requests [lo..hi) that only pad were appended. *)
Definition extends (lo hi : Z) (a b : list BatchSegment) : Prop :=
  exists v, b = a ++ v /\ Forall (fun s => lo <= global_req_idx s < hi /\ virtual (global_req_idx s) s) v.

Lemma extends_refl lo hi L : Forall2 (extends lo hi) L L.
Proof. induction L; constructor; [|done]. exists []. by rewrite app_nil_r. Qed.

Lemma extends_rows lo hi k a b : extends lo hi a b -> ~ (lo <= k < hi) -> rows_of k b = rows_of k a.
Proof.
  intros (v & -> & Hv) Hk. rewrite rows_of_app, (rows_of_none k v); [apply app_nil_r|].
  intros s Hs. rewrite Forall_forall in Hv. destruct (Hv s Hs) as [? _]. intros <-. done.
Qed.

(** Virtual rows that reach the targets make the ranks uniform. *)
Lemma append_uniform k q L W R :
  unpadded k q L ->
  (forall a, a ∈ L -> actual_of k a <= W /\ count_of k a <= R /\ (actual_of k a < W -> count_of k a < R)) ->
  exists L', append_virtual k (rq_start q) W R L = Ok L' /\
    Forall2 (extends k (k + 1)) L L' /\ uniform k W R L'.
Proof.
  intros HU HT. rewrite append_virtual_ok by exact HT. eexists. split; [done|].
  assert (forall a, a ∈ L ->
    let b := a ++ virtual_rows k (rq_start q) (W - actual_of k a) (R - count_of k a) in
    extends k (k + 1) a b /\ width_of k b = W /\ count_of k b = R) as Hb.
  { intros a Ha. destruct (HT a Ha) as (T1 & T2 & T3).
    destruct (appended_targets k (rq_start q) W R a) as (H1 & H2 & H3); [|done..|].
    { pose proof (up_pad _ _ _ HU) as Hpad. rewrite Forall_forall in Hpad. by apply Hpad. }
    split_and!; [|done|done]. eexists. split; [done|]. eapply Forall_impl; [exact H3|].
    intros s Hs. destruct (Hs) as (-> & _). split; [lia|done]. }
  split.
  - apply Forall2_fmap_r, Forall_Forall2_diag, Forall_forall. intros a Ha. by apply Hb.
  - apply Forall_fmap, Forall_forall. intros a Ha. by apply Hb.
Qed.

Lemma pad_request_ok mla k q L :
  0 <= rq_len q -> unpadded k q L ->
  exists L', pad_request mla k q L = Ok L' /\ Forall2 (extends k (k + 1)) L L' /\
    (mla = false -> L' = L) /\ (mla = true -> exists W R, widest p q = Ok W /\ uniform k W R L').
Proof.
  intros HL HU. destruct (widest_ok q HL) as (W & EW & HW & (r0 & Hr0 & Er0) & Hmax).
  unfold pad_request. destruct mla; simpl; [|exists L; split_and!; [done|apply extends_refl|done|done]].
  assert ((forall r, 0 <= r < p -> rank_share q r = W) -> exists L', @Ok (list (list BatchSegment)) L = Ok L' /\
    Forall2 (extends k (k + 1)) L L' /\ (true = false -> L' = L) /\
    (true = true -> exists W R, widest p q = Ok W /\ uniform k W R L')) as Hsame.
  { intros Hall. destruct (equal_shares_uniform k q L W HL HU Hall) as (R & HR).
    exists L. split_and!; [done|apply extends_refl|done|eauto]. }
  destruct (Z.eqb_spec (rq_len q) 0) as [E0|Hne]; simpl.
  { apply Hsame. intros r Hr. rewrite <- Er0. unfold rank_share. rewrite E0, !share_width_0 by done. done. }
  destruct (rq_prefilling q) eqn:Epre; simpl.
  2:{ apply Hsame. intros r Hr. rewrite <- Er0. unfold rank_share. by rewrite Epre. }
  cbv zeta.
  assert (map (fun segs => zsum (map num_actual_tokens segs)) (map (rows_of k) L) = map (actual_of k) L)
    as -> by by rewrite map_map.
  assert (map zlen (map (rows_of k) L) = map (count_of k) L) as -> by by rewrite map_map.
  assert (zrange 0 p <> []) as Hnz by (by rewrite zrange_cons by lia).
  assert (list_max (map (actual_of k) L) = Ok W) as -> by (rewrite (up_actual _ _ _ HU); by apply Hmax).
  cbn [mbind result_bind].
  destruct (list_min_ok (map (actual_of k) L)) as (m & -> & Hmin);
    [rewrite (up_actual _ _ _ HU); by destruct (zrange 0 p)|]. cbn [mbind result_bind].
  destruct (Z.eqb_spec m W) as [->|Hmw].
  { apply Hsame. intros r Hr. pose proof (HW r Hr).
    assert (W <= rank_share q r); [|lia]. apply Hmin. rewrite (up_actual _ _ _ HU).
    apply list_elem_of_fmap. exists r. split; [done|]. apply elem_zrange. lia. }
  destruct (list_max_ok (map (count_of k) L)) as (most & Emost & _).
  { rewrite (up_count _ _ _ HU). by destruct (zrange 0 p). }
  rewrite Emost. cbn [mbind result_bind].
  edestruct (append_uniform k q L W) as (L' & -> & Hext & Hu);
    [exact HU|exact (pad_targets k q L W most HU Emost HW)|].
  exists L'. split_and!; [done..|]. eauto.
Qed.

Lemma extends_stats lo hi k L L' :
  Forall2 (extends lo hi) L L' -> ~ (lo <= k < hi) -> map (rows_of k) L' = map (rows_of k) L.
Proof.
  intros Hx Hk. induction Hx as [|a b L L' Hab _ IH]; [done|]. simpl. by rewrite IH, (extends_rows lo hi k a b).
Qed.

Lemma rows_stats k L L' :
  map (rows_of k) L' = map (rows_of k) L ->
  map (actual_of k) L' = map (actual_of k) L /\ map (count_of k) L' = map (count_of k) L /\
  (forall P, Forall (fun a => P (rows_of k a)) L -> Forall (fun a => P (rows_of k a)) L').
Proof.
  intros E. split_and!.
  - unfold actual_of. rewrite <- (map_map (rows_of k) (fun l => zsum (map num_actual_tokens l))), E. by rewrite map_map.
  - unfold count_of. rewrite <- (map_map (rows_of k) zlen), E. by rewrite map_map.
  - intros P HP. apply (Forall_map (rows_of k) P). rewrite E. by apply (Forall_map (rows_of k) P).
Qed.

Lemma unpadded_extends lo hi k q L L' :
  Forall2 (extends lo hi) L L' -> ~ (lo <= k < hi) -> unpadded k q L -> unpadded k q L'.
Proof.
  intros Hx Hk [Ha Hc Hpad]. destruct (rows_stats k L L') as (E1 & E2 & E3); [by eapply extends_stats|].
  split; [by rewrite E1|by rewrite E2|]. by apply (E3 (Forall (fun s => padding_tokens s = 0))).
Qed.

Lemma uniform_extends lo hi k W R L L' :
  Forall2 (extends lo hi) L L' -> ~ (lo <= k < hi) -> uniform k W R L -> uniform k W R L'.
Proof.
  intros Hx Hk HU. destruct (rows_stats k L L') as (_ & _ & E3); [by eapply extends_stats|].
  by apply (E3 (fun l => zsum (map num_tokens l) = W /\ zlen l = R)).
Qed.

Lemma extends_trans lo mid hi L1 L2 L3 :
  lo <= mid <= hi -> Forall2 (extends lo mid) L1 L2 -> Forall2 (extends mid hi) L2 L3 ->
  Forall2 (extends lo hi) L1 L3.
Proof.
  intros Hm H12. revert L3. induction H12 as [|a b L1 L2 (v & -> & Hv) _ IH]; intros L3 H23;
    inversion H23 as [|b' c L2' L3' (w & -> & Hw) H23']; subst; constructor; [|by apply IH].
  exists (v ++ w). rewrite (assoc_L (++)). split; [done|]. apply Forall_app. split.
  - eapply Forall_impl; [exact Hv|]. intros s [? ?]. split; [lia|done].
  - eapply Forall_impl; [exact Hw|]. intros s [? ?]. split; [lia|done].
Qed.

Lemma pad_requests_ok mla k0 reqs L :
  Forall (fun q => 0 <= rq_len q) reqs ->
  (forall i q, reqs !! i = Some q -> unpadded (k0 + Z.of_nat i) q L) ->
  exists L', pad_requests mla k0 reqs L = Ok L' /\ Forall2 (extends k0 (k0 + zlen reqs)) L L' /\
    (mla = false -> L' = L) /\
    (mla = true -> forall i q, reqs !! i = Some q ->
       exists W R, widest p q = Ok W /\ uniform (k0 + Z.of_nat i) W R L').
Proof.
  intros Hl. revert k0 L. induction Hl as [|q reqs Hq _ IH]; intros k0 L HU; simpl.
  - exists L. split_and!; [done|apply extends_refl|done|done].
  - destruct (pad_request_ok mla k0 q L Hq) as (L1 & -> & Hx1 & Hf1 & Hu1).
    { specialize (HU 0%nat q eq_refl). by rewrite Z.add_0_r in HU. }
    cbn [mbind result_bind]. destruct (IH (k0 + 1) L1) as (L' & -> & Hx & Hf & Hu).
    { intros i q' Hi. apply (unpadded_extends k0 (k0 + 1) _ _ L); [done|lia|].
      specialize (HU (S i) q' Hi). by replace (k0 + 1 + Z.of_nat i) with (k0 + Z.of_nat (S i)) by lia. }
    exists L'. rewrite zlen_cons. pose proof (zlen_nonneg reqs). split_and!; [done| | |].
    + eapply extends_trans; [|exact Hx1|by replace (k0 + (zlen reqs + 1)) with (k0 + 1 + zlen reqs) by lia]. lia.
    + intros E. by rewrite Hf, Hf1.
    + intros E i q' Hi. destruct i as [|i]; simpl in Hi.
      * injection Hi as <-. destruct (Hu1 E) as (W & R & EW & HR). exists W, R. split; [done|].
        rewrite Z.add_0_r. eapply uniform_extends; [exact Hx|lia|done].
      * destruct (Hu E i q' Hi) as (W & R & EW & HR). exists W, R. split; [done|].
        by replace (k0 + Z.of_nat (S i)) with (k0 + 1 + Z.of_nat i) by lia.
Qed.
End padding.

(** ** The rows of every rank *)

Section layout.
Context (p : Z).
Hypothesis Hp : 0 < p.
Context (reqs : list request).
Hypothesis Hlens : Forall (fun q => 0 <= rq_len q) reqs.

Lemma mapM_Forall2 {A B} (f : A -> result B) (P : A -> B -> Prop) l :
  (forall x, x ∈ l -> exists y, f x = Ok y /\ P x y) -> exists ys, mapM f l = Ok ys /\ Forall2 P l ys.
Proof.
  induction l as [|x l IH]; intros Hf; [by exists []|]. simpl.
  destruct (Hf x ltac:(by left)) as (y & -> & Hy). simpl.
  destruct IH as (ys & -> & Hys); [intros; apply Hf; by right|]. simpl. exists (y :: ys). by split; [|constructor].
Qed.

(** The rows a rank has, up to their order and place in its batch. *)
Definition has_rows (r : Z) (a : list BatchSegment) : Prop := map strip a ≡ₚ rank_rows p r 0 reqs.

Lemma chunk_rows_stats k q j :
  zsum (map num_actual_tokens (filter (fun s => num_actual_tokens s <> 0) [chunk_row p k q j])) =
    chunk_tokens p (rq_len q) j /\
  zlen (filter (fun s => num_actual_tokens s <> 0) [chunk_row p k q j]) =
    (if chunk_tokens p (rq_len q) j =? 0 then 0 else 1).
Proof.
  rewrite filter_cons, filter_nil. unfold chunk_row, num_actual_tokens. simpl.
  match goal with |- context [?x + ?y - ?x] => replace (x + y - x) with y by lia end.
  destruct (Z.eqb_spec (chunk_tokens p (rq_len q) j) 0) as [E|Hne].
  - rewrite decide_False by tauto. cbn. by rewrite E.
  - rewrite decide_True by done. cbn. unfold num_actual_tokens. simpl. split; [lia|done].
Qed.

Lemma request_rows_stats r k q :
  0 <= rq_len q -> 0 <= r < p ->
  zsum (map num_actual_tokens (request_rows p r k q)) = rank_share p q r /\
  zlen (request_rows p r k q) = rank_count p q r.
Proof.
  intros HL Hr. unfold request_rows, rank_share, rank_count.
  destruct (Z.eqb_spec (rq_len q) 0) as [E|Hne].
  { rewrite E, share_width_0 by done. by destruct (rq_prefilling q). }
  destruct (rq_prefilling q); [|unfold num_actual_tokens; cbn; split; [lia|done]].
  change [chunk_row p k q r; chunk_row p k q (2 * p - 1 - r)]
    with ([chunk_row p k q r] ++ [chunk_row p k q (2 * p - 1 - r)]).
  rewrite filter_app, map_app, zsum_app, zlen_app.
  destruct (chunk_rows_stats k q r) as [-> ->], (chunk_rows_stats k q (2 * p - 1 - r)) as [-> ->]. done.
Qed.

Lemma has_rows_of r a i q :
  has_rows r a -> reqs !! i = Some q -> map strip (rows_of (Z.of_nat i) a) ≡ₚ request_rows p r (Z.of_nat i) q.
Proof.
  intros Ha Hi. rewrite rows_of_strip, Ha. pose proof (rows_of_rank p r 0 reqs i q Hi) as E.
  rewrite Z.add_0_l in E. by rewrite E.
Qed.

Lemma has_rows_stats r a i q :
  0 <= r < p -> has_rows r a -> reqs !! i = Some q ->
  actual_of (Z.of_nat i) a = rank_share p q r /\ count_of (Z.of_nat i) a = rank_count p q r /\
  Forall (fun s => padding_tokens s = 0) (rows_of (Z.of_nat i) a).
Proof.
  intros Hr Ha Hi. pose proof (has_rows_of r a i q Ha Hi) as E.
  destruct (request_rows_stats r (Z.of_nat i) q) as [E1 E2];
    [rewrite Forall_forall in Hlens; by eapply Hlens, list_elem_of_lookup_2|done|].
  unfold actual_of, count_of. split_and!.
  - rewrite (map_stripped num_actual_tokens) by done. by rewrite E.
  - rewrite <- E2. unfold zlen. by rewrite <- (Permutation_length E), length_map.
  - apply (Forall_map strip (fun s => padding_tokens s = 0)). rewrite E. apply Forall_forall.
    by intros s [_ ?]%request_rows_idx.
Qed.

Lemma Forall2_map_eq {A B C} (P : A -> B -> Prop) (f : B -> C) (g : A -> C) l k :
  Forall2 P l k -> (forall x y, x ∈ l -> P x y -> f y = g x) -> map f k = map g l.
Proof.
  intros HP Hfg. induction HP as [|x y l k Hxy _ IH]; [done|]. simpl. f_equal.
  - apply Hfg; [by left|done].
  - apply IH. intros. apply Hfg; [by right|done].
Qed.

Lemma Forall2_right {A B} (P : A -> B -> Prop) (Q : B -> Prop) l k :
  Forall2 P l k -> (forall x y, x ∈ l -> P x y -> Q y) -> Forall Q k.
Proof.
  intros HP HQ. induction HP as [|x y l k Hxy _ IH]; constructor.
  - apply (HQ x); [by left|done].
  - apply IH. intros x' y' Hx'. apply HQ. by right.
Qed.

Lemma has_rows_unpadded L i q :
  Forall2 has_rows (zrange 0 p) L -> reqs !! i = Some q -> unpadded p (0 + Z.of_nat i) q L.
Proof.
  intros HL Hi. rewrite Z.add_0_l.
  assert (forall r a, r ∈ zrange 0 p -> has_rows r a ->
    actual_of (Z.of_nat i) a = rank_share p q r /\ count_of (Z.of_nat i) a = rank_count p q r /\
    Forall (fun s => padding_tokens s = 0) (rows_of (Z.of_nat i) a)) as Hs.
  { intros r a Hr%elem_zrange Ha. apply has_rows_stats; [lia|done|done]. }
  split.
  - eapply Forall2_map_eq; [exact HL|]. intros r a Hr Ha. by apply Hs.
  - eapply Forall2_map_eq; [exact HL|]. intros r a Hr Ha. by apply Hs.
  - eapply Forall2_right; [exact HL|]. intros r a Hr Ha. by destruct (Hs r a Hr Ha) as (_ & _ & ?).
Qed.

Lemma ranks_have_rows :
  exists L, mapM (fun rank => segments_for_rank p rank reqs) (zrange 0 p) = Ok L /\
    Forall2 has_rows (zrange 0 p) L.
Proof.
  apply mapM_Forall2. intros r Hr%elem_zrange. apply segments_for_rank_rows; [done|lia|done].
Qed.

(** *** Widths of the ranks *)

Lemma zsum_indicator k a n x : a <= k < a + n ->
  zsum (map (fun j => if decide (k = j) then x else 0) (zrange a n)) = x.
Proof.
  intros Hk. replace n with ((k - a) + (1 + (a + n - k - 1))) by lia.
  rewrite !zrange_app, !map_app, !zsum_app by lia.
  assert (forall b m, (forall j, b <= j < b + m -> k <> j) ->
    zsum (map (fun j => if decide (k = j) then x else 0) (zrange b m)) = 0) as Hz.
  { intros b m Hn. assert (Forall (fun j => k <> j) (zrange b m)) as HF.
    { apply Forall_forall. intros j Hj%elem_zrange. by apply Hn. }
    induction HF as [|j l Hj _ IH]; simpl; [done|]. by rewrite IH, decide_False. }
  rewrite (Hz a (k - a)), (Hz (a + (k - a) + 1)) by lia.
  replace (a + (k - a)) with k by lia. rewrite (zrange_cons k 1), (zrange_nil (k + 1)) by lia.
  simpl. rewrite decide_True by done. lia.
Qed.

Lemma zsum_map_add {A} (f g : A -> Z) l :
  zsum (map (fun x => f x + g x) l) = zsum (map f l) + zsum (map g l).
Proof. induction l; simpl; lia. Qed.

(** A rank's tokens, request by request. *)
Lemma tokens_by_request segs n :
  (forall s, s ∈ segs -> 0 <= global_req_idx s < n) ->
  zsum (map num_tokens segs) = zsum (map (fun k => width_of k segs) (zrange 0 n)).
Proof.
  induction segs as [|s segs IH]; intros Hs.
  - assert (forall l : list Z, zsum (map (fun k => width_of k []) l) = 0) as E
      by (intros l; induction l; simpl; [done|]; by rewrite IHl). by rewrite E.
  - simpl. rewrite IH by (intros; apply Hs; by right).
    rewrite <- (zsum_indicator (global_req_idx s) 0 n (num_tokens s)) at 1
      by (pose proof (Hs s ltac:(by left)); lia).
    rewrite <- zsum_map_add. f_equal. apply map_ext. intros k. unfold width_of, rows_of.
    rewrite filter_cons. case_decide; simpl; lia.
Qed.

(** Reordering does not change what a rank has of a request. *)
Lemma reorder_stats k segs :
  width_of k (reorder_segments reqs segs) = width_of k segs /\
  count_of k (reorder_segments reqs segs) = count_of k segs.
Proof.
  assert (map strip (rows_of k (reorder_segments reqs segs)) ≡ₚ map strip (rows_of k segs)) as E
    by (rewrite !rows_of_strip; by rewrite reorder_strip).
  unfold width_of, count_of. split.
  - rewrite (map_stripped num_tokens), (map_stripped num_tokens (rows_of k segs)) by done. by rewrite E.
  - apply Permutation_length in E. rewrite !length_map in E. unfold zlen. by rewrite E.
Qed.

Lemma map_requests {A} (h : Z -> A) (g : request -> A) (l : list request) :
  (forall i q, l !! i = Some q -> h (Z.of_nat i) = g q) -> map h (zrange 0 (zlen l)) = map g l.
Proof.
  intros Hh. apply list_eq. intros i. rewrite !lookup_map. unfold zrange, zlen.
  destruct (l !! i) as [q|] eqn:E.
  - rewrite lookup_seqZ_lt by (apply lookup_lt_Some in E; lia). rewrite Z.add_0_l.
    cbn [fmap option_fmap option_map]. by rewrite (Hh i q E).
  - rewrite lookup_seqZ_ge; [done|]. apply lookup_ge_None in E. lia.
Qed.

(** A rank's finished rows: its own, and rows that only pad. *)
Record finished (r : Z) (b : list BatchSegment) : Prop := {
  fin_rows : exists v, map strip b ≡ₚ rank_rows p r 0 reqs ++ map strip v /\
    Forall (fun s => 0 <= global_req_idx s < zlen reqs /\ virtual (global_req_idx s) s) v;
  fin_placed : exists a, b = relocate 0 a
}.

Lemma finished_extends r a b :
  has_rows r a -> extends 0 (0 + zlen reqs) a b -> finished r (reorder_segments reqs b).
Proof.
  intros Ha (v & -> & Hv). split; [|by eexists].
  exists v. split; [|done]. by rewrite reorder_strip, map_app, Ha.
Qed.

Lemma finished_idx r b s : finished r b -> s ∈ b -> 0 <= global_req_idx s < zlen reqs.
Proof.
  intros [(v & E & Hv) _] Hs.
  assert (strip s ∈ rank_rows p r 0 reqs ++ map strip v) as Hin
    by (rewrite <- E; apply list_elem_of_fmap; eauto).
  apply elem_of_app in Hin as [[? _]%rank_rows_idx|(s' & Es & Hs')%list_elem_of_fmap]; [simpl in *; lia|].
  rewrite Forall_forall in Hv. destruct (Hv s' Hs') as [? _]. apply (f_equal global_req_idx) in Es.
  simpl in Es. lia.
Qed.

Definition tokens_of (b : list BatchSegment) : Z := zsum (map num_tokens b).

Lemma tokens_from_widths r b (g : request -> Z) :
  finished r b -> (forall i q, reqs !! i = Some q -> width_of (Z.of_nat i) b = g q) ->
  tokens_of b = zsum (map g reqs).
Proof.
  intros Hf Hg. unfold tokens_of. rewrite (tokens_by_request b (zlen reqs)).
  - f_equal. by apply (map_requests (fun k => width_of k b)).
  - intros s. by apply (finished_idx r).
Qed.

(** The value of [widest]. *)
Definition widest_width (q : request) : Z := match widest p q with Ok w => w | Err _ => 0 end.

Record segments_ok (mla : bool) (F : list (list BatchSegment)) : Prop := {
  so_finished : Forall2 finished (zrange 0 p) F;
  so_tokens : map tokens_of F =
    map (fun r => zsum (map (fun q => if mla then widest_width q else rank_share p q r) reqs)) (zrange 0 p);
  so_uniform : mla = true -> forall i q, reqs !! i = Some q -> exists R,
    uniform (Z.of_nat i) (widest_width q) R F
}.

Lemma layout_segments_ok mla :
  exists L L', mapM (fun rank => segments_for_rank p rank reqs) (zrange 0 p) = Ok L /\
    pad_requests mla 0 reqs L = Ok L' /\ segments_ok mla (map (reorder_segments reqs) L').
Proof.
  destruct ranks_have_rows as (L & EL & HL).
  destruct (pad_requests_ok p Hp mla 0 reqs L Hlens (fun i q => has_rows_unpadded L i q HL))
    as (L' & EL' & Hx & Hf & Hu).
  exists L, L'. split; [done|]. split; [done|].
  assert (Forall2 (fun r b => has_rows r b \/ mla = true) (zrange 0 p) L') as Hplain.
  { destruct mla; [|rewrite Hf by done; eapply Forall2_impl; [exact HL|by left]].
    apply Forall2_same_length_lookup_2; [|by right].
    rewrite (Forall2_length _ _ _ HL). by apply Forall2_length in Hx. }
  assert (Forall2 (fun r b => finished r (reorder_segments reqs b)) (zrange 0 p) L') as Hfin.
  { clear -HL Hx. revert L' Hx.
    induction HL as [|r a rs L Ha _ IH]; intros L' Hx; inversion Hx; subst; constructor;
      [by eapply finished_extends|by apply IH]. }
  split; [by apply Forall2_fmap_r| |].
  - rewrite map_map.
    eapply (Forall2_map_eq (fun r b => finished r (reorder_segments reqs b) /\ b ∈ L' /\ (has_rows r b \/ mla = true))).
    { apply Forall2_same_length_lookup_2; [by eapply Forall2_length|]. intros i r b Hr Hb.
      split_and!; [exact (Forall2_lookup_lr _ _ _ _ _ _ Hfin Hr Hb)|by eapply list_elem_of_lookup_2|].
      exact (Forall2_lookup_lr _ _ _ _ _ _ Hplain Hr Hb). }
    intros r b Hr%elem_zrange (Hfb & Hb & Hrow). apply (tokens_from_widths r); [done|].
    intros i q Hi. rewrite (proj1 (reorder_stats _ _)). destruct mla.
    + destruct (Hu eq_refl i q Hi) as (W & R & EW & HU). unfold uniform in HU. rewrite Forall_forall in HU.
      unfold widest_width. rewrite EW. by apply HU.
    + destruct Hrow as [Hrow|]; [|done]. destruct (has_rows_stats r b i q) as (<- & _ & Hpad); [lia|done..|].
      by apply unpadded_width.
  - intros -> i q Hi. destruct (Hu eq_refl i q Hi) as (W & R & EW & HU). exists R.
    unfold widest_width. rewrite EW. apply Forall_fmap. eapply Forall_impl; [exact HU|].
    intros b. simpl. by destruct (reorder_stats (Z.of_nat i) b) as [-> ->].
Qed.
End layout.
