(* ===== verification/PcpIndexesCorrect.v ===== *)
(** * Correctness of the gather and restore indexes

    Every token of the batch has exactly one place among the ranks' gathered
    rows that is restored and written, and the indexes say which. *)

From S2P Require Import Prelude PyString Tensors LightlyCp LightlyCpCorrect PcpLayout PcpLayoutCorrect.
Import LightlyCp Pcp.
Local Open Scope Z_scope.

(** ** Slices *)

Lemma zget_splice {A} (buf vals : list A) start i :
  0 <= start -> start + zlen vals <= zlen buf ->
  zget (take (Z.to_nat start) buf ++ vals ++ drop (Z.to_nat start + length vals) buf) i =
  if decide (start <= i < start + zlen vals) then zget vals (i - start) else zget buf i.
Proof.
  intros Hs Hl. unfold zget, zlen in *. destruct (Z.ltb_spec i 0).
  { rewrite decide_False by lia. done. }
  assert (length (take (Z.to_nat start) buf) = Z.to_nat start) as Et by (rewrite length_take; lia).
  case_decide as Hi.
  - destruct (Z.ltb_spec (i - start) 0); [lia|].
    rewrite lookup_app_r, lookup_app_l by lia. f_equal. lia.
  - destruct (Z.lt_ge_cases i start).
    + rewrite lookup_app_l by lia. apply lookup_take_lt. lia.
    + rewrite !lookup_app_r by lia. rewrite lookup_drop. f_equal. lia.
Qed.

Lemma slice_assign_get buf start vals :
  0 <= start -> start + zlen vals <= zlen buf ->
  exists buf', slice_assign buf start (zlen vals) vals = Ok buf' /\ zlen buf' = zlen buf /\
    forall i, zget buf' i = if decide (start <= i < start + zlen vals) then zget vals (i - start) else zget buf i.
Proof.
  intros Hs Hl. rewrite slice_assign_fits by done. eexists. split; [done|].
  replace (Z.to_nat (start + zlen vals)) with (Z.to_nat start + length vals)%nat by (unfold zlen; lia).
  split; [|intros i; by apply zget_splice].
  unfold zlen in *. rewrite !length_app, length_take, length_drop. lia.
Qed.

Lemma slice_fill_get {A} (buf : list A) start n v :
  0 <= start -> 0 <= n -> start + n <= zlen buf ->
  zlen (slice_fill buf start n v) = zlen buf /\
  forall i, zget (slice_fill buf start n v) i =
    if decide (start <= i < start + n) then Some v else zget buf i.
Proof.
  intros Hs Hn Hl. unfold slice_fill. rewrite !Z.min_r by lia.
  replace (start + n - start) with n by lia.
  pose proof (zget_splice buf (replicate (Z.to_nat n) v) start) as E.
  assert (zlen (replicate (Z.to_nat n) v) = n) as El by (unfold zlen; rewrite length_replicate; lia).
  rewrite El, length_replicate in E. split.
  - unfold zlen in *. rewrite !length_app, length_take, length_drop, length_replicate. lia.
  - intros i. rewrite E by done. case_decide; [|done].
    unfold zget. destruct (Z.ltb_spec (i - start) 0); [lia|]. apply lookup_replicate. split; [done|lia].
Qed.

Lemma zget_range (d : option Z) s n v i :
  0 <= n -> (if decide (s <= i < s + zlen (zrange v n)) then zget (zrange v n) (i - s) else d) =
  if decide (i ∈ zrange s n) then Some (v + (i - s)) else d.
Proof.
  intros Hn. rewrite zlen_zrange by done. destruct (decide (s <= i < s + n)) as [Hi|Hi].
  - rewrite decide_True by by apply elem_zrange. apply zget_zrange. lia.
  - by rewrite decide_False by by rewrite elem_zrange.
Qed.

(** ** Filling the indexes *)

Section filling.
Context (reqs : list request) (padded : Z).

(** A row of a rank. *)
Definition placed : Type := Z * BatchSegment.

Definition position (w : placed) : Z := w.1 * padded + local_start w.2.
Definition width (w : placed) : Z := num_actual_tokens w.2.
Definition positions (w : placed) : list Z := zrange (position w) (width w).
Definition tokens (w : placed) : list Z := zrange (global_start w.2) (width w).
(** The row whose values are kept: any rank's of a prefill, rank 0's of a decode. *)
Definition kept (w : placed) : bool := negb (is_decode reqs w.2) || (w.1 =? 0).
Definition kept_positions (w : placed) : list Z := if kept w then positions w else [].
Definition kept_tokens (w : placed) : list Z := if kept w then tokens w else [].

Fixpoint placed_rows (rank : Z) (F : list (list BatchSegment)) : list placed :=
  match F with
  | [] => []
  | b :: rest => map (pair rank) b ++ placed_rows (rank + 1) rest
  end.

Fixpoint fill_placed (ix : indexes) (ws : list placed) : result indexes :=
  match ws with
  | [] => Ok ix
  | w :: rest => ix' ← fill_segment reqs padded w.1 ix w.2; fill_placed ix' rest
  end.

Lemma fill_placed_app ix ws ws' :
  fill_placed ix (ws ++ ws') = ix' ← fill_placed ix ws; fill_placed ix' ws'.
Proof.
  revert ix. induction ws as [|w ws IH]; intros ix; simpl; [done|].
  destruct (fill_segment reqs padded w.1 ix w.2); simpl; [apply IH|done].
Qed.

Lemma fill_segments_placed rank ix b : fill_segments reqs padded rank ix b = fill_placed ix (map (pair rank) b).
Proof.
  revert ix. induction b as [|s b IH]; intros ix; simpl; [done|].
  destruct (fill_segment reqs padded rank ix s); simpl; [apply IH|done].
Qed.

Lemma fill_ranks_placed rank ix F : fill_ranks reqs padded rank ix F = fill_placed ix (placed_rows rank F).
Proof.
  revert rank ix. induction F as [|b F IH]; intros rank ix; simpl; [done|].
  rewrite fill_placed_app, fill_segments_placed. destruct (fill_placed ix (map (pair rank) b)); simpl; [apply IH|done].
Qed.

(** Rows inside the arrays. *)
Definition fits (ix : indexes) (w : placed) : Prop :=
  zlen (ix_mask ix) = zlen (ix_gather ix) /\
  (width w = 0 \/
   0 < width w /\ 0 <= position w /\ position w + width w <= zlen (ix_gather ix) /\
   0 <= global_start w.2 /\ global_start w.2 + width w <= zlen (ix_restore ix)).

Lemma fill_segment_ok ix w :
  fits ix w ->
  exists ix', fill_segment reqs padded w.1 ix w.2 = Ok ix' /\
    zlen (ix_gather ix') = zlen (ix_gather ix) /\ zlen (ix_restore ix') = zlen (ix_restore ix) /\
    zlen (ix_mask ix') = zlen (ix_mask ix) /\
    (forall x, zget (ix_gather ix') x =
       if decide (x ∈ positions w) then Some (global_start w.2 + (x - position w)) else zget (ix_gather ix) x) /\
    (forall x, zget (ix_mask ix') x =
       if decide (x ∈ kept_positions w) then Some true else zget (ix_mask ix) x) /\
    (forall t, zget (ix_restore ix') t =
       if decide (t ∈ kept_tokens w) then Some (position w + (t - global_start w.2)) else zget (ix_restore ix) t).
Proof.
  intros (Hm & Hor). unfold fill_segment. fold (width w) (position w) (kept w).
  destruct Hor as [E|(Hw & Hp & Hpe & Hg & Hge)].
  { rewrite E. cbn [Z.eqb]. exists ix. unfold kept_positions, kept_tokens, positions, tokens. rewrite E, !zrange_nil by lia.
    split_and!; try done; intros x; by destruct (kept w); rewrite decide_False by apply not_elem_of_nil. }
  rewrite (proj2 (Z.eqb_neq (width w) 0)) by lia. assert (0 <= width w) as Hw' by lia.
  destruct (slice_assign_get (ix_gather ix) (position w) (zrange (global_start w.2) (width w)))
    as (gather & Eg & Lg & Gg); [done|by rewrite zlen_zrange|].
  rewrite zlen_zrange in Eg by done. rewrite Eg. cbn [mbind result_bind].
  assert (forall x, zget gather x = if decide (x ∈ positions w)
    then Some (global_start w.2 + (x - position w)) else zget (ix_gather ix) x) as Gg'.
  { intros x. rewrite Gg. by apply zget_range. }
  unfold kept_positions, kept_tokens. destruct (kept w).
  - destruct (slice_assign_get (ix_restore ix) (global_start w.2) (zrange (position w) (width w)))
      as (restore & Er & Lr & Gr); [done|by rewrite zlen_zrange|].
    rewrite zlen_zrange in Er by done. rewrite Er. cbn [mbind result_bind].
    destruct (slice_fill_get (ix_mask ix) (position w) (width w) true) as [Lm Gm]; [done|done|lia|].
    eexists. split; [done|]. simpl. split_and!; try done.
    + intros x. rewrite Gm. unfold positions. repeat case_decide; rewrite ?elem_zrange in *; done || tauto.
    + intros t. rewrite Gr. by apply zget_range.
  - eexists. by split.
Qed.

Abbreviation all_of f ws := (concat (map f ws)).

Lemma elem_all_of (f : placed -> list Z) ws x : x ∈ all_of f ws <-> exists w, w ∈ ws /\ x ∈ f w.
Proof.
  rewrite list_elem_of_In, in_concat. setoid_rewrite in_map_iff. split.
  - intros (l & (w & <- & Hw) & Hx). exists w. split; by apply list_elem_of_In.
  - intros (w & Hw & Hx). exists (f w). split; [|by apply list_elem_of_In].
    exists w. split; [done|by apply list_elem_of_In].
Qed.

Record filled (ix ix' : indexes) (ws : list placed) : Prop := {
  fi_gather_len : zlen (ix_gather ix') = zlen (ix_gather ix);
  fi_restore_len : zlen (ix_restore ix') = zlen (ix_restore ix);
  fi_mask_len : zlen (ix_mask ix') = zlen (ix_mask ix);
  fi_gather : forall w x, w ∈ ws -> x ∈ positions w ->
    zget (ix_gather ix') x = Some (global_start w.2 + (x - position w));
  fi_mask : forall x, x ∈ all_of kept_positions ws -> zget (ix_mask ix') x = Some true;
  fi_restore : forall w t, w ∈ ws -> t ∈ kept_tokens w ->
    zget (ix_restore ix') t = Some (position w + (t - global_start w.2));
  fi_gather_else : forall x, x ∉ all_of positions ws -> zget (ix_gather ix') x = zget (ix_gather ix) x;
  fi_mask_else : forall x, x ∉ all_of kept_positions ws -> zget (ix_mask ix') x = zget (ix_mask ix) x;
  fi_restore_else : forall t, t ∉ all_of kept_tokens ws -> zget (ix_restore ix') t = zget (ix_restore ix) t
}.

Lemma fill_placed_ok ix ws :
  Forall (fits ix) ws -> NoDup (all_of positions ws) -> NoDup (all_of kept_tokens ws) ->
  exists ix', fill_placed ix ws = Ok ix' /\ filled ix ix' ws.
Proof.
  revert ix. induction ws as [|w ws IH]; intros ix Hfit Hnp Hnt.
  { exists ix. split; [done|]. split; try done; by intros ? ? ?%not_elem_of_nil || by intros ? ?%not_elem_of_nil. }
  inversion Hfit as [|? ? Hw Hws]; subst. simpl in Hnp, Hnt.
  apply NoDup_app in Hnp as (_ & Hdp & Hnp). apply NoDup_app in Hnt as (_ & Hdt & Hnt).
  destruct (fill_segment_ok ix w Hw) as (ix1 & E1 & Lg & Lr & Lm & Gg & Gm & Gr).
  destruct (IH ix1) as (ix' & E & HF); [|done|done|].
  { eapply Forall_impl; [exact Hws|]. unfold fits. intros w'. rewrite Lg, Lr, Lm. done. }
  simpl. rewrite E1. cbn [mbind result_bind]. exists ix'. split; [done|]. destruct HF as [Fgl Frl Fml Fg Fm Fr Fge Fme Fre].
  split; try congruence.
  - intros w' x [->|Hw']%elem_of_cons Hx; [|by apply Fg].
    rewrite Fge by by apply Hdp. rewrite Gg. by rewrite decide_True.
  - intros x Hx. destruct (decide (x ∈ all_of kept_positions ws)); [by apply Fm|].
    rewrite Fme, Gm by done. simpl in Hx. apply elem_of_app in Hx as [?|?]; [by rewrite decide_True|done].
  - intros w' t [->|Hw']%elem_of_cons Ht; [|by apply Fr].
    rewrite Fre by by apply Hdt. rewrite Gr. by rewrite decide_True.
  - intros x Hx. simpl in Hx. apply not_elem_of_app in Hx as [? ?]. rewrite Fge, Gg by done. by rewrite decide_False.
  - intros x Hx. simpl in Hx. apply not_elem_of_app in Hx as [? ?]. rewrite Fme, Gm by done. by rewrite decide_False.
  - intros x Hx. simpl in Hx. apply not_elem_of_app in Hx as [? ?]. rewrite Fre, Gr by done. by rewrite decide_False.
Qed.
End filling.

(** ** The rows of the ranks *)

Section ranks.
Context (p : Z) (Hp : 0 < p) (reqs : list request) (padded : Z).

(** What rank [r] keeps of a request. *)
Definition request_tokens (r : Z) (q : request) : list Z :=
  if rq_prefilling q
  then zrange (rq_start q + Z.min (r * chunk_size p (rq_len q)) (rq_len q)) (chunk_tokens p (rq_len q) r) ++
       zrange (rq_start q + Z.min ((2 * p - 1 - r) * chunk_size p (rq_len q)) (rq_len q))
         (chunk_tokens p (rq_len q) (2 * p - 1 - r))
  else if r =? 0 then zrange (rq_start q) (rq_len q) else [].

Lemma chunk_tokens_0 j : 0 <= j -> chunk_tokens p 0 j = 0.
Proof.
  intros Hj. destruct (chunk_size_bound p Hp 0 ltac:(lia)) as [H1 H2].
  assert (chunk_size p 0 = 0) as E by nia. unfold chunk_tokens. rewrite E. lia.
Qed.

Lemma request_rows_tokens r k q :
  0 <= r < p -> 0 <= rq_len q -> zget reqs k = Some q ->
  concat (map (fun s => kept_tokens reqs (r, s)) (request_rows p r k q)) = request_tokens r q.
Proof.
  intros Hr HL Hk. unfold request_rows, request_tokens.
  assert (forall s, global_req_idx s = k -> kept reqs (r, s) = rq_prefilling q || (r =? 0)) as Hkept.
  { intros s Es. unfold kept, is_decode. simpl. rewrite Es, Hk. by rewrite negb_involutive. }
  destruct (Z.eqb_spec (rq_len q) 0) as [E|Hne].
  { rewrite E. rewrite (chunk_tokens_0 r), (chunk_tokens_0 (2 * p - 1 - r)) by lia.
    by repeat case_match. }
  destruct (rq_prefilling q) eqn:Epre.
  - assert (forall j, concat (map (fun s => kept_tokens reqs (r, s))
      (filter (fun s => num_actual_tokens s <> 0) [chunk_row p k q j])) =
      zrange (rq_start q + Z.min (j * chunk_size p (rq_len q)) (rq_len q)) (chunk_tokens p (rq_len q) j)) as Hj.
    { intros j. rewrite filter_cons, filter_nil.
      assert (num_actual_tokens (chunk_row p k q j) = chunk_tokens p (rq_len q) j) as Ea
        by (unfold num_actual_tokens, chunk_row; simpl; lia).
      case_decide as Hn; simpl.
      - unfold kept_tokens. rewrite Hkept by done. simpl. rewrite app_nil_r. unfold tokens, width. simpl.
        by rewrite Ea.
      - rewrite zrange_nil; [done|]. rewrite Ea in Hn. apply Z.le_lteq. right. destruct (Z.eq_dec
          (chunk_tokens p (rq_len q) j) 0); [done|tauto]. }
    change [chunk_row p k q r; chunk_row p k q (2 * p - 1 - r)]
      with ([chunk_row p k q r] ++ [chunk_row p k q (2 * p - 1 - r)]).
    by rewrite filter_app, map_app, concat_app, !Hj.
  - simpl. rewrite app_nil_r. unfold kept_tokens. rewrite Hkept by done. simpl.
    unfold tokens, width, num_actual_tokens. simpl. by replace (rq_start q + rq_len q - rq_start q) with (rq_len q) by lia.
Qed.

Lemma rank_rows_tokens r k rest :
  0 <= r < p -> Forall (fun q => 0 <= rq_len q) rest ->
  (forall i q, rest !! i = Some q -> zget reqs (k + Z.of_nat i) = Some q) ->
  concat (map (fun s => kept_tokens reqs (r, s)) (rank_rows p r k rest)) = concat (map (request_tokens r) rest).
Proof.
  intros Hr Hl. revert k. induction Hl as [|q rest Hq _ IH]; intros k Hk; simpl; [done|].
  rewrite map_app, concat_app, IH, request_rows_tokens; [done|done|done| |].
  - specialize (Hk 0%nat q eq_refl). by rewrite Z.add_0_r in Hk.
  - intros i q' Hi. specialize (Hk (S i) q' Hi). by replace (k + 1 + Z.of_nat i) with (k + Z.of_nat (S i)) by lia.
Qed.

Lemma requests_shared off rest :
  batch_from off rest ->
  concat (map (fun r => concat (map (request_tokens r) rest)) (zrange 0 p)) ≡ₚ zrange off (batch_tokens rest).
Proof.
  revert off. induction rest as [|q rest IH]; intros off Hb; simpl.
  { rewrite (zrange_nil off) by (unfold batch_tokens; simpl; lia). induction (zrange 0 p); simpl; done. }
  destruct Hb as (Es & HL & Hb). rewrite concat_map_app_perm, (IH _ Hb).
  pose proof (batch_tokens_nonneg _ _ Hb). unfold batch_tokens in *. simpl. rewrite zrange_app by done. f_equiv.
  unfold request_tokens. rewrite Es. destruct (rq_prefilling q); [apply ranks_share; [done|done]|].
  assert (forall l, Forall (fun r => r <> 0) l ->
    concat (map (fun r => if r =? 0 then zrange off (rq_len q) else []) l) = []) as Hz.
  { induction 1 as [|r l Hr _ IHl]; simpl; [done|]. by rewrite (proj2 (Z.eqb_neq r 0) Hr). }
  rewrite (zrange_cons 0 p) by done. cbn [map concat]. rewrite Hz; [by rewrite app_nil_r|].
  apply Forall_forall. intros r Hr%elem_zrange. lia.
Qed.

Lemma placed_perm (f : placed -> list Z) (g : Z -> list Z) k n F :
  Forall2 (fun r b => concat (map (fun s => f (r, s)) b) ≡ₚ g r) (zrange k n) F ->
  concat (map f (placed_rows k F)) ≡ₚ concat (map g (zrange k n)).
Proof.
  revert k n. induction F as [|b F IH]; intros k n HF; inversion HF as [E0|r ? rs ? Hb HF' E]; subst.
  - done.
  - assert (0 < n) as Hn. { destruct (Z.lt_ge_cases 0 n); [done|]. rewrite (zrange_nil k n) in E by done. done. }
    rewrite (zrange_cons k n) in * by done. injection E as -> ->. cbn [map concat placed_rows].
    rewrite map_app, concat_app, map_map, Hb. f_equiv. by apply IH.
Qed.

Lemma finished_kept r b :
  0 <= r < p -> Forall (fun q => 0 <= rq_len q) reqs -> finished p reqs r b ->
  concat (map (fun s => kept_tokens reqs (r, s)) b) ≡ₚ concat (map (request_tokens r) reqs).
Proof.
  intros Hr Hl [(v & E & Hv) _].
  rewrite (map_stripped (fun s => kept_tokens reqs (r, s))) by done.
  rewrite (concat_perm _ _ (Permutation_map (fun s => kept_tokens reqs (r, s)) E)), map_app, concat_app.
  rewrite (rank_rows_tokens r 0 reqs Hr Hl).
  - assert (concat (map (fun s => kept_tokens reqs (r, s)) (map strip v)) = []) as ->; [|by rewrite app_nil_r].
    clear E. induction Hv as [|s v (_ & _ & Hs & _) _ IH]; simpl; [done|]. rewrite IH, app_nil_r.
    unfold kept_tokens, tokens, width. simpl. rewrite zrange_nil; [by case_match|].
    change (num_actual_tokens (strip s)) with (num_actual_tokens s). lia.
  - intros i q Hi. by rewrite Z.add_0_l, zget_nat.
Qed.

(** Every token is kept exactly once. *)
Lemma kept_once F :
  batch_from 0 reqs -> Forall2 (finished p reqs) (zrange 0 p) F ->
  concat (map (kept_tokens reqs) (placed_rows 0 F)) ≡ₚ zrange 0 (batch_tokens reqs).
Proof.
  intros Hb HF. rewrite <- (requests_shared 0 reqs Hb). apply placed_perm.
  apply Forall2_same_length_lookup_2; [by eapply Forall2_length|]. intros i r b Hr Hb'.
  pose proof (list_elem_of_lookup_2 _ _ _ Hr) as Hin%elem_zrange.
  apply finished_kept; [lia|by eapply batch_lens|]. by eapply Forall2_lookup_lr.
Qed.

(** *** Places *)

Lemma request_rows_bounds r k q s :
  0 <= r < p -> 0 <= rq_len q -> s ∈ request_rows p r k q ->
  0 <= num_actual_tokens s /\ rq_start q <= global_start s /\ global_stop s <= rq_start q + rq_len q.
Proof.
  intros Hr HL. unfold request_rows. destruct (rq_len q =? 0); [by intros ?%not_elem_of_nil|].
  destruct (rq_prefilling q).
  - destruct (chunk_size_bound p Hp (rq_len q) HL) as [Hc _].
    assert (forall j, 0 <= j -> 0 <= num_actual_tokens (chunk_row p k q j) /\
      rq_start q <= global_start (chunk_row p k q j) /\
      global_stop (chunk_row p k q j) <= rq_start q + rq_len q) as Hj.
    { intros j Hj. unfold num_actual_tokens, chunk_row, chunk_tokens. simpl.
      assert (0 <= j * chunk_size p (rq_len q)) by (apply Z.mul_nonneg_nonneg; lia). lia. }
    intros [_ [->|[->|[]%not_elem_of_nil]%elem_of_cons]%elem_of_cons]%list_elem_of_filter; apply Hj; lia.
  - intros ->%list_elem_of_singleton. unfold num_actual_tokens. simpl. lia.
Qed.

Lemma rank_rows_bounds r k off rest s :
  0 <= r < p -> batch_from off rest -> s ∈ rank_rows p r k rest ->
  0 <= num_actual_tokens s /\ off <= global_start s /\ global_stop s <= off + batch_tokens rest.
Proof.
  intros Hr. revert k off. induction rest as [|q rest IH]; intros k off; simpl; [by intros _ ?%not_elem_of_nil|].
  intros (Es & HL & Hb) Hs. pose proof (batch_tokens_nonneg _ _ Hb).
  assert (batch_tokens (q :: rest) = rq_len q + batch_tokens rest) as -> by done.
  apply elem_of_app in Hs as [Hs|Hs].
  - apply request_rows_bounds in Hs; [|done..]. lia.
  - apply (IH (k + 1) _ Hb) in Hs. lia.
Qed.

Lemma finished_bounds r b s :
  0 <= r < p -> batch_from 0 reqs -> finished p reqs r b -> s ∈ b ->
  0 <= num_actual_tokens s /\ 0 <= padding_tokens s /\
  (num_actual_tokens s = 0 \/ 0 <= global_start s /\ global_stop s <= batch_tokens reqs).
Proof.
  intros Hr Hb [(v & E & Hv) _] Hs.
  assert (strip s ∈ rank_rows p r 0 reqs ++ map strip v) as Hin
    by (rewrite <- E; apply list_elem_of_fmap; eauto).
  apply elem_of_app in Hin as [Hin|(s' & Es & Hs')%list_elem_of_fmap].
  - pose proof (rank_rows_idx p r 0 reqs _ Hin) as [_ Hpad].
    apply (rank_rows_bounds r 0 0) in Hin; [|done..]. simpl in Hpad. unfold num_actual_tokens in *. simpl in Hin. lia.
  - rewrite Forall_forall in Hv. destruct (Hv s' Hs') as (_ & _ & Ha & Hpad).
    apply (f_equal (fun s => (num_actual_tokens s, padding_tokens s))) in Es. injection Es as E1 E2.
    change (num_actual_tokens (strip s)) with (num_actual_tokens s) in E1.
    change (num_actual_tokens (strip s')) with (num_actual_tokens s') in E1. unfold num_actual_tokens in *. lia.
Qed.

Lemma relocate_places base off a :
  (forall s, s ∈ a -> 0 <= num_actual_tokens s /\ 0 <= padding_tokens s) ->
  let ps := concat (map (fun s => zrange (base + local_start s) (num_actual_tokens s)) (relocate off a)) in
  NoDup ps /\ forall x, x ∈ ps -> base + off <= x < base + off + zsum (map num_tokens a).
Proof.
  revert off. induction a as [|s a IH]; intros off Ha; simpl.
  { split; [constructor|]. by intros x ?%not_elem_of_nil. }
  destruct (Ha s ltac:(by left)) as [H1 H2].
  destruct (IH (off + num_tokens s)) as [Hn Hx]; [intros; apply Ha; by right|].
  assert (0 <= zsum (map num_tokens a)) as Hz.
  { clear -Ha. induction a as [|s' a IH]; simpl; [lia|]. destruct (Ha s' ltac:(right; by left)).
    assert (0 <= zsum (map num_tokens a)); [|unfold num_tokens in *; lia].
    apply IH. intros s0 [->|Hs0]%elem_of_cons; apply Ha; [by left|right; by right]. }
  change (num_actual_tokens (BatchSeg (global_req_idx s) (global_start s) (global_stop s) off
    (off + num_tokens s) (padding_tokens s))) with (num_actual_tokens s).
  unfold num_tokens in *. split.
  - apply NoDup_app. split_and!; [apply NoDup_seqZ| |done].
    intros x Hin%elem_zrange Hin'%Hx. lia.
  - intros x [Hin%elem_zrange|Hin%Hx]%elem_of_app; lia.
Qed.

Lemma finished_places r b :
  0 <= r < p -> batch_from 0 reqs -> finished p reqs r b ->
  let ps := concat (map (fun s => positions padded (r, s)) b) in
  NoDup ps /\ forall x, x ∈ ps -> r * padded <= x < r * padded + tokens_of b.
Proof.
  intros Hr Hb Hf. pose proof (finished_bounds r b) as Hbd. destruct (fin_placed _ _ _ _ Hf) as (a & Ea).
  destruct (relocate_places (r * padded) 0 a) as [Hn Hx].
  - intros s Hs. assert (strip s ∈ map strip b) as Hin.
    { rewrite Ea, relocate_strip. apply list_elem_of_fmap. eauto. }
    apply list_elem_of_fmap in Hin as (s' & Es & Hs'). destruct (Hbd s' Hr Hb Hf Hs') as (H1 & H2 & _).
    apply (f_equal (fun s => (num_actual_tokens s, padding_tokens s))) in Es. injection Es as E1 E2.
    change (num_actual_tokens (strip s)) with (num_actual_tokens s) in E1.
    change (num_actual_tokens (strip s')) with (num_actual_tokens s') in E1. unfold num_actual_tokens in *. lia.
  - rewrite Z.add_0_r in Hx. subst b. assert (tokens_of (relocate 0 a) = zsum (map num_tokens a)) as ->.
    { unfold tokens_of. by rewrite (map_stripped num_tokens), relocate_strip, <- map_stripped. }
    split; [exact Hn|exact Hx].
Qed.

Lemma places_nodup k n F :
  0 <= padded ->
  Forall2 (fun r b => NoDup (concat (map (fun s => positions padded (r, s)) b)) /\
    forall x, x ∈ concat (map (fun s => positions padded (r, s)) b) -> r * padded <= x < (r + 1) * padded)
    (zrange k n) F ->
  NoDup (concat (map (positions padded) (placed_rows k F))) /\
  forall x, x ∈ concat (map (positions padded) (placed_rows k F)) -> k * padded <= x < (k + n) * padded.
Proof.
  intros Hpad. revert k n. induction F as [|b F IH]; intros k n HF; inversion HF as [E0|r ? rs ? [Hn Hx] HF' E]; subst.
  - split; [constructor|]. by intros x ?%not_elem_of_nil.
  - assert (0 < n) as Hn0. { destruct (Z.lt_ge_cases 0 n); [done|]. rewrite (zrange_nil k n) in E by done. done. }
    rewrite (zrange_cons k n) in * by done. injection E as -> ->. cbn [placed_rows].
    destruct (IH (k + 1) (n - 1) HF') as [Hn' Hx']. replace (k + 1 + (n - 1)) with (k + n) in Hx' by lia.
    rewrite map_app, concat_app, map_map.
    assert ((k + 1) * padded <= (k + n) * padded) by (apply Z.mul_le_mono_nonneg_r; lia). split.
    + apply NoDup_app. split_and!; [done| |done]. intros x Hin%Hx Hin'%Hx'. lia.
    + intros x [Hin%Hx|Hin%Hx']%elem_of_app; lia.
Qed.
End ranks.
