(* ===== verification/PcpCorrect.v ===== *)
(** * The context-parallel batch as a whole

    What the layout promises the runner: the dispatch size is the one the
    layout needs, gathering the ranks' outputs restores the batch, every token
    is written to its cache slot once, and the ranks of an MLA batch agree on
    all shapes. *)

From S2P Require Import Prelude PyString Tensors LightlyCp LightlyCpCorrect PcpLayout PcpLayoutCorrect PcpIndexesCorrect.
Import LightlyCp Pcp.
Local Open Scope Z_scope.

Section batch.
Context (p : Z) (Hp : 0 < p) (reqs : list request) (Hbatch : batch_from 0 reqs).

(** The tokens of the widest rank. *)
Definition required (F : list (list BatchSegment)) : Z :=
  match map tokens_of F with [] => 0 | x :: rest => foldl Z.max x rest end.

Lemma tokens_nonneg mla F b : segments_ok p reqs mla F -> b ∈ F -> 0 <= tokens_of b.
Proof.
  intros HF [i Hi]%list_elem_of_lookup. pose proof (so_finished _ _ _ _ HF) as Hfin.
  destruct (Forall2_lookup_r _ _ _ _ _ Hfin Hi) as (r & Hr & Hb).
  pose proof (list_elem_of_lookup_2 _ _ _ Hr) as Hin%elem_zrange.
  pose proof (finished_bounds p Hp reqs r b) as Hbd. unfold tokens_of.
  assert (forall s, s ∈ b -> 0 <= num_tokens s) as Hs.
  { intros s Hs. destruct (Hbd s) as (? & ? & _); [lia|done..|]. unfold num_tokens. lia. }
  clear -Hs. induction b as [|s b IH]; simpl; [lia|]. pose proof (Hs s ltac:(by left)).
  assert (0 <= zsum (map num_tokens b)) by (apply IH; intros; apply Hs; by right). lia.
Qed.

Lemma ranks_nonempty mla F : segments_ok p reqs mla F -> exists b rest, F = b :: rest.
Proof.
  intros HF. pose proof (Forall2_length _ _ _ (so_finished _ _ _ _ HF)) as E.
  rewrite (zrange_cons 0 p) in E by done. destruct F as [|b rest]; [done|eauto].
Qed.

Lemma required_spec mla F :
  segments_ok p reqs mla F -> 0 <= required F /\ (forall b, b ∈ F -> tokens_of b <= required F) /\
  exists b, b ∈ F /\ tokens_of b = required F.
Proof.
  intros HF. destruct (ranks_nonempty mla F HF) as (b0 & rest & ->). unfold required. simpl.
  destruct (foldl_max_spec (tokens_of b0) (map tokens_of rest)) as [Hin Hle].
  assert (exists b, b ∈ b0 :: rest /\ tokens_of b = foldl Z.max (tokens_of b0) (map tokens_of rest)) as Hex.
  { change (tokens_of b0 :: map tokens_of rest) with (map tokens_of (b0 :: rest)) in Hin.
    apply list_elem_of_fmap in Hin as (b & -> & Hb). eauto. }
  split_and!; [|intros b Hb; apply Hle, (list_elem_of_fmap_2 tokens_of (b0 :: rest)); done|done].
  destruct Hex as (b & Hb & <-). by eapply tokens_nonneg.
Qed.

(** The dispatch size is the required one. *)
Lemma dispatch_required mla F :
  segments_ok p reqs mla F -> get_num_tokens_for_dispatch mla p reqs = Ok (required F).
Proof.
  intros HF. pose proof (batch_lens _ _ Hbatch) as Hl. rewrite Forall_forall in Hl.
  unfold get_num_tokens_for_dispatch, required. rewrite (so_tokens _ _ _ _ HF).
  rewrite (zrange_cons 0 p) by done. cbn [map]. destruct mla.
  - rewrite (mapM_ok _ (widest_width p)).
    2:{ intros q Hq. unfold widest_width. destruct (widest_ok p Hp q (Hl q Hq)) as (W & -> & _). done. }
    cbn [mbind result_bind mret result_ret]. f_equal.
    assert (forall l x, (forall y, y ∈ l -> y = x) -> foldl Z.max x l = x) as Hc.
    { induction l as [|y l IH]; intros x Hy; simpl; [done|]. rewrite (Hy y ltac:(by left)), Z.max_id.
      apply IH. intros. apply Hy. by right. }
    symmetry. apply Hc. by intros y (r & -> & _)%list_elem_of_fmap.
  - rewrite (mapM_ok _ (fun r => zsum (map (fun q => rank_share p q r) reqs))).
    2:{ intros r Hr. assert (0 <= r < p) as Hr' by (apply elem_of_cons in Hr as [->|Hr%elem_zrange]; lia).
        rewrite (mapM_ok _ (fun q => rank_share p q r)); [done|]. intros q Hq. unfold request_width, rank_share.
        destruct (rq_prefilling q); [|done]. apply rank_width_ok; [done|by apply Hl|done]. }
    cbn [mbind result_bind mret result_ret map foldl]. f_equal. f_equal. apply Z.max_r.
    destruct (ranks_nonempty false F HF) as (b & rest & ->). pose proof (so_tokens _ _ _ _ HF) as E.
    rewrite (zrange_cons 0 p) in E by done. cbn [map] in E. injection E as E _. rewrite <- E.
    eapply tokens_nonneg; [exact HF|by left].
Qed.

Lemma elem_placed k F w :
  w ∈ placed_rows k F <-> exists (i : nat) b, F !! i = Some b /\ w.1 = k + Z.of_nat i /\ w.2 ∈ b.
Proof.
  revert k. induction F as [|b0 F IH]; intros k; cbn [placed_rows].
  { split; [by intros ?%not_elem_of_nil|]. intros (i & b & ? & _). by destruct i. }
  rewrite elem_of_app, IH. split.
  - intros [(s & -> & Hs)%list_elem_of_fmap|(i & b & Hi & Er & Hs)].
    + exists 0%nat, b0. split; [done|]. simpl. split; [lia|done].
    + exists (S i), b. split; [done|]. split; [lia|done].
  - intros (i & b & Hi & Er & Hs). destruct i as [|i]; simpl in Hi.
    + injection Hi as ->. left. apply list_elem_of_fmap. exists w.2. split; [|done].
      destruct w as [r s]. simpl in *. f_equal. lia.
    + right. exists i, b. split; [done|]. split; [lia|done].
Qed.

Section placed.
Context (mla : bool) (F : list (list BatchSegment)) (padded : Z).
Context (HF : segments_ok p reqs mla F) (Hpad : forall b, b ∈ F -> tokens_of b <= padded).

Lemma placed_inv w : w ∈ placed_rows 0 F -> 0 <= w.1 < p /\ exists b, b ∈ F /\ w.2 ∈ b /\ finished p reqs w.1 b.
Proof.
  intros (i & b & Hi & Er & Hs)%elem_placed. pose proof (so_finished _ _ _ _ HF) as Hfin.
  destruct (Forall2_lookup_r _ _ _ _ _ Hfin Hi) as (r & Hr & Hb).
  pose proof (list_elem_of_lookup_2 _ _ _ Hr) as Hin%elem_zrange.
  unfold zrange in Hr. apply lookup_seqZ in Hr as [Er' _]. assert (w.1 = r) as -> by lia.
  split; [lia|]. exists b. split; [by eapply list_elem_of_lookup_2|done].
Qed.

Lemma padded_nonneg : 0 <= padded.
Proof.
  destruct (ranks_nonempty mla F HF) as (b & rest & E). assert (b ∈ F) as Hb by (rewrite E; by left).
  pose proof (Hpad b Hb). pose proof (tokens_nonneg mla F b HF Hb). lia.
Qed.

Lemma placed_places w x : w ∈ placed_rows 0 F -> x ∈ positions padded w -> 
  w.1 * padded <= x < (w.1 + 1) * padded.
Proof.
  intros Hw Hx. destruct (placed_inv w Hw) as (Hr & b & Hb & Hs & Hfin).
  destruct (finished_places p Hp reqs padded w.1 b Hr Hbatch Hfin) as [_ Hrange].
  assert (x ∈ concat (map (fun s => positions padded (w.1, s)) b)) as Hin%Hrange.
  { apply list_elem_of_In, in_concat. exists (positions padded w). split; [|by apply list_elem_of_In].
    apply in_map_iff. exists w.2. split; [by destruct w|by apply list_elem_of_In]. }
  pose proof (Hpad b Hb). lia.
Qed.

Lemma rows_fit ix w :
  zlen (ix_gather ix) = padded * p -> zlen (ix_mask ix) = padded * p ->
  zlen (ix_restore ix) = batch_tokens reqs -> w ∈ placed_rows 0 F -> fits padded ix w.
Proof.
  intros Eg Em Er Hw. split; [congruence|]. destruct (placed_inv w Hw) as (Hr & b & Hb & Hs & Hfin).
  destruct (finished_bounds p Hp reqs w.1 b w.2 Hr Hbatch Hfin Hs) as (H1 & _ & H2).
  unfold width. destruct (Z.eq_dec (num_actual_tokens w.2) 0) as [E|Hne]; [by left|right].
  destruct H2 as [?|[H2 H3]]; [done|]. rewrite Eg, Er.
  destruct (placed_places w (position padded w) Hw) as [Hlo _];
    [apply elem_zrange; unfold width; lia|].
  destruct (placed_places w (position padded w + num_actual_tokens w.2 - 1) Hw) as [_ Hhi];
    [apply elem_zrange; unfold width; lia|].
  pose proof padded_nonneg. assert (0 <= w.1 * padded) by (apply Z.mul_nonneg_nonneg; lia).
  assert ((w.1 + 1) * padded <= p * padded) by (apply Z.mul_le_mono_nonneg_r; lia).
  unfold num_actual_tokens in *. lia.
Qed.

Lemma places_distinct : NoDup (concat (map (positions padded) (placed_rows 0 F))).
Proof.
  apply (places_nodup padded 0 p F padded_nonneg).
  pose proof (so_finished _ _ _ _ HF) as Hfin.
  apply Forall2_same_length_lookup_2; [by eapply Forall2_length|]. intros i r b Hr Hb.
  pose proof (list_elem_of_lookup_2 _ _ _ Hr) as Hin%elem_zrange.
  destruct (finished_places p Hp reqs padded r b) as [Hn Hx]; [lia|done|by eapply Forall2_lookup_lr|].
  split; [done|]. intros x Hin'%Hx. pose proof (Hpad b ltac:(by eapply list_elem_of_lookup_2)). lia.
Qed.

Lemma fill_ok junk :
  zlen junk = batch_tokens reqs ->
  exists ix, fill_ranks reqs padded 0
      (Indexes (replicate (Z.to_nat (padded * p)) 0) (replicate (Z.to_nat (padded * p)) false) junk) F = Ok ix /\
    filled reqs padded
      (Indexes (replicate (Z.to_nat (padded * p)) 0) (replicate (Z.to_nat (padded * p)) false) junk) ix
      (placed_rows 0 F).
Proof.
  intros Ej. pose proof padded_nonneg. assert (0 <= padded * p) by (apply Z.mul_nonneg_nonneg; lia).
  rewrite fill_ranks_placed. apply fill_placed_ok.
  - apply Forall_forall. intros w Hw. apply rows_fit; simpl; try done; unfold zlen; rewrite length_replicate; lia.
  - apply places_distinct.
  - rewrite (kept_once p Hp reqs F Hbatch (so_finished _ _ _ _ HF)). apply NoDup_seqZ.
Qed.
End placed.

(** Everything known of a finished layout. *)
Record layout_ok (mla : bool) (arg : option Z) (junk : list Z) (lay : layout) : Prop := {
  lo_segments : segments_ok p reqs mla (segments_by_rank lay);
  lo_tokens : per_rank_num_tokens lay = map tokens_of (segments_by_rank lay);
  lo_padded : padded_num_tokens lay = default (required (segments_by_rank lay)) arg;
  lo_bound : forall b, b ∈ segments_by_rank lay -> tokens_of b <= padded_num_tokens lay;
  lo_filled : filled reqs (padded_num_tokens lay)
    (Indexes (replicate (Z.to_nat (padded_num_tokens lay * p)) 0)
       (replicate (Z.to_nat (padded_num_tokens lay * p)) false) junk) (layout_indexes lay)
    (placed_rows 0 (segments_by_rank lay))
}.

Lemma build_layout_ok mla arg junk :
  zlen junk = batch_tokens reqs ->
  exists F, segments_ok p reqs mla F /\
    (forall n, arg = Some n -> n < required F ->
       build_batch_layout mla p reqs junk arg =
       Err (Exn PatchCompatibilityError "official PCP dispatch padding is smaller")) /\
    ((forall n, arg = Some n -> required F <= n) -> exists lay,
       build_batch_layout mla p reqs junk arg = Ok lay /\ segments_by_rank lay = F /\
       layout_ok mla arg junk lay).
Proof.
  intros Ej. destruct (layout_segments_ok p Hp reqs (batch_lens _ _ Hbatch) mla) as (L & L' & E1 & E2 & HF).
  set (F := map (reorder_segments reqs) L') in *. exists F. split; [done|].
  destruct (required_spec mla F HF) as (_ & Hle & _).
  unfold build_batch_layout. rewrite E1. cbn [mbind result_bind]. rewrite E2. cbn [mbind result_bind]. fold F.
  change (map (fun segs => zsum (map num_tokens segs)) F) with (map tokens_of F).
  fold (required F). split.
  - intros n -> Hn. apply Z.ltb_lt in Hn. by rewrite Hn.
  - intros Harg.
    assert (match arg with None => Ok (required F) | Some n => if n <? required F
      then Err (Exn PatchCompatibilityError "official PCP dispatch padding is smaller") else Ok n end =
      Ok (default (required F) arg)) as ->.
    { destruct arg as [n|]; [|done]. destruct (Z.ltb_spec n (required F)); [|done].
      pose proof (Harg n eq_refl). lia. }
    cbn [mbind result_bind]. set (padded := default (required F) arg) in *.
    assert (forall b, b ∈ F -> tokens_of b <= padded) as Hpad.
    { intros b Hb. transitivity (required F); [by apply Hle|]. unfold padded. destruct arg; [by apply Harg|done]. }
    destruct (fill_ok mla F padded HF Hpad junk Ej) as (ix & -> & Hfill). cbn [mbind result_bind].
    eexists. split; [reflexivity|]. split; [done|]. by split.
Qed.
End batch.

(** ** The restored batch *)

Section uses.
Context (p : Z) (Hp : 0 < p) (reqs : list request) (Hbatch : batch_from 0 reqs).
Context (mla : bool) (arg : option Z) (junk : list Z) (Hjunk : zlen junk = batch_tokens reqs).
Context (lay : layout) (Hlay : layout_ok p reqs mla arg junk lay).

Abbreviation rows := (placed_rows 0 (segments_by_rank lay)).
Abbreviation padded := (padded_num_tokens lay).
Abbreviation ix := (layout_indexes lay).

(** The row that keeps a token. *)
Lemma token_kept t : 0 <= t < batch_tokens reqs ->
  exists w, w ∈ rows /\ t ∈ kept_tokens reqs w /\
    zget (ix_restore ix) t = Some (position padded w + (t - global_start w.2)).
Proof.
  intros Ht. pose proof (kept_once p Hp reqs _ Hbatch (so_finished _ _ _ _ (lo_segments _ _ _ _ _ _ Hlay))) as E.
  assert (t ∈ concat (map (kept_tokens reqs) rows)) as (w & Hw & Hk)%elem_all_of by (rewrite E; by apply elem_zrange).
  exists w. split; [done|]. split; [done|]. by apply (fi_restore _ _ _ _ _ (lo_filled _ _ _ _ _ _ Hlay)).
Qed.

Lemma kept_tokens_place w t : t ∈ kept_tokens reqs w ->
  position padded w + (t - global_start w.2) ∈ kept_positions reqs padded w /\
  0 <= t - global_start w.2 < num_actual_tokens w.2.
Proof.
  unfold kept_tokens, kept_positions. destruct (kept reqs w); [|by intros ?%not_elem_of_nil].
  unfold tokens, positions, width. rewrite !elem_zrange. lia.
Qed.

Lemma kept_positions_sub w x : x ∈ kept_positions reqs padded w -> x ∈ positions padded w.
Proof. unfold kept_positions. destruct (kept reqs w); [done|by intros ?%not_elem_of_nil]. Qed.

Lemma restore_length : zlen (ix_restore ix) = batch_tokens reqs.
Proof. by rewrite (fi_restore_len _ _ _ _ _ (lo_filled _ _ _ _ _ _ Hlay)). Qed.

Lemma padded_ok : 0 <= padded.
Proof. exact (padded_nonneg p Hp reqs Hbatch mla _ _ (lo_segments _ _ _ _ _ _ Hlay) (lo_bound _ _ _ _ _ _ Hlay)). Qed.

Lemma gather_length : zlen (ix_gather ix) = padded * p /\ zlen (ix_mask ix) = padded * p.
Proof.
  pose proof padded_ok. assert (0 <= padded * p) by (apply Z.mul_nonneg_nonneg; lia).
  rewrite (fi_gather_len _ _ _ _ _ (lo_filled _ _ _ _ _ _ Hlay)), (fi_mask_len _ _ _ _ _ (lo_filled _ _ _ _ _ _ Hlay)).
  simpl. unfold zlen. rewrite !length_replicate. lia.
Qed.

(** The rows of all ranks, one after the other. *)
Lemma zget_concat {A} (outs : Z -> list A) n k x :
  0 <= n -> (forall r, k <= r < k + n -> zlen (outs r) = padded) ->
  0 <= x < n * padded ->
  forall r, r = k + x / padded -> zget (concat (map outs (zrange k n))) x = zget (outs r) (x mod padded).
Proof.
  intros Hn. revert k x. apply Zlt_0_ind with (x := n); [|done]. clear n Hn.
  intros n IH Hn k x Hlen Hx r Hr. pose proof padded_ok as Hpad.
  assert (0 < n) by nia. assert (0 < padded) by nia.
  rewrite zrange_cons by done. cbn [map concat].
  assert (zlen (outs k) = padded) as Ek by (apply Hlen; lia).
  destruct (Z.lt_ge_cases x padded) as [Hlt|Hge].
  - rewrite Z.div_small in Hr by lia. rewrite Z.mod_small by lia. replace r with k by lia.
    unfold zget, zlen in *. destruct (x <? 0); [done|]. apply lookup_app_l. lia.
  - assert (zget (outs k ++ concat (map outs (zrange (k + 1) (n - 1)))) x =
      zget (concat (map outs (zrange (k + 1) (n - 1)))) (x - padded)) as ->.
    { unfold zget, zlen in *. destruct (Z.ltb_spec x 0); [lia|]. destruct (Z.ltb_spec (x - padded) 0); [lia|].
      rewrite lookup_app_r by lia. f_equal. lia. }
    rewrite (IH (n - 1) ltac:(lia) (k + 1) (x - padded)) with (r := r); [|intros; apply Hlen; lia|nia|].
    + f_equal. replace (x - padded) with (x + (-1) * padded) by lia. by rewrite Z.mod_add by lia.
    + replace (x - padded) with (x + (-1) * padded) by lia. rewrite Z.div_add by lia. lia.
Qed.

(** What the ranks computed for the rows they were given: [f t] for token [t]. *)
Definition computes {A} (f : Z -> A) (outs : Z -> list A) : Prop :=
  (forall r, 0 <= r < p -> zlen (outs r) = padded) /\
  forall w j, w ∈ rows -> 0 <= j < num_actual_tokens w.2 ->
    zget (outs w.1) (local_start w.2 + j) = Some (f (global_start w.2 + j)).

Lemma restored_row {A} (f : Z -> A) outs t :
  computes f outs -> 0 <= t < batch_tokens reqs ->
  exists x, zget (ix_restore ix) t = Some x /\ zget (concat (map outs (zrange 0 p))) x = Some (f t).
Proof.
  intros [Hlen Hout] Ht. destruct (token_kept t Ht) as (w & Hw & Hk & Hr). eexists. split; [exact Hr|].
  destruct (kept_tokens_place w t Hk) as [Hpos%kept_positions_sub Hj].
  destruct (placed_inv p reqs mla _ (lo_segments _ _ _ _ _ _ Hlay) w Hw) as [Hrank _].
  pose proof (placed_places p Hp reqs Hbatch mla _ padded (lo_segments _ _ _ _ _ _ Hlay)
    (lo_bound _ _ _ _ _ _ Hlay) w _ Hw Hpos) as Hx.
  set (x := position padded w + (t - global_start w.2)) in *. pose proof padded_ok.
  assert (0 <= w.1 * padded) by (apply Z.mul_nonneg_nonneg; lia).
  assert ((w.1 + 1) * padded <= p * padded) by (apply Z.mul_le_mono_nonneg_r; lia).
  assert (x = padded * w.1 + (x - w.1 * padded)) as Ex by lia.
  assert (x / padded = w.1) as Ed by (symmetry; eapply Z.div_unique; [|exact Ex]; lia).
  assert (x mod padded = x - w.1 * padded) as Em by (symmetry; eapply Z.mod_unique; [|exact Ex]; lia).
  rewrite (zget_concat outs p 0 x) with (r := w.1); [|lia|intros; apply Hlen; lia|lia|lia].
  rewrite Em. unfold x, position. replace (w.1 * padded + local_start w.2 + (t - global_start w.2) - w.1 * padded)
    with (local_start w.2 + (t - global_start w.2)) by lia.
  rewrite Hout by done. do 2 f_equal. lia.
Qed.

Lemma restore_rows {A} (f : Z -> A) outs :
  computes f outs ->
  Forall2 (fun i row => zget (concat (map outs (zrange 0 p))) i = Some row)
    (ix_restore ix) (map f (zrange 0 (batch_tokens reqs))).
Proof.
  intros Hc. pose proof (batch_tokens_nonneg _ _ Hbatch) as Hn. pose proof restore_length as El.
  apply Forall2_same_length_lookup_2.
  { rewrite length_map. apply Nat2Z.inj. fold (zlen (ix_restore ix)). rewrite El.
    fold (zlen (zrange 0 (batch_tokens reqs))). by rewrite zlen_zrange. }
  intros i x y Hx Hy. rewrite lookup_map in Hy.
  destruct (zrange 0 (batch_tokens reqs) !! i) as [t|] eqn:Et; [|done]. injection Hy as <-.
  unfold zrange in Et. apply lookup_seqZ in Et as [-> Hi].
  destruct (restored_row f outs (0 + Z.of_nat i) Hc ltac:(lia)) as (x' & Ex & Er).
  rewrite Z.add_0_l in *. rewrite zget_nat, Hx in Ex. by injection Ex as ->.
Qed.

(** *** Slots *)

Lemma mask_spec x : zget (ix_mask ix) x = Some true <-> x ∈ ix_restore ix.
Proof.
  pose proof (lo_filled _ _ _ _ _ _ Hlay) as HF. split.
  - intros Hx. destruct (decide (x ∈ concat (map (kept_positions reqs padded) rows))) as [Hin|Hni].
    + apply elem_all_of in Hin as (w & Hw & Hk).
      assert (exists t, t ∈ kept_tokens reqs w /\ x = position padded w + (t - global_start w.2)) as (t & Ht & ->).
      { unfold kept_positions, kept_tokens in *. destruct (kept reqs w); [|by apply not_elem_of_nil in Hk].
        apply elem_zrange in Hk. exists (global_start w.2 + (x - position padded w)).
        unfold tokens. rewrite elem_zrange. lia. }
      apply (zget_elem _ t). by apply (fi_restore _ _ _ _ _ HF).
    + rewrite (fi_mask_else _ _ _ _ _ HF) in Hx by done. simpl in Hx. unfold zget in Hx.
      case_match; [done|]. apply lookup_replicate in Hx as [? _]. done.
  - intros [t Ht]%elem_zget. pose proof (zget_Some _ _ _ Ht) as Hr. rewrite restore_length in Hr.
    destruct (token_kept t Hr) as (w & Hw & Hk & E). rewrite Ht in E. injection E as ->.
    apply (fi_mask _ _ _ _ _ HF), elem_all_of. exists w. split; [done|]. by apply kept_tokens_place.
Qed.

Lemma gather_restores t x : zget (ix_restore ix) t = Some x -> zget (ix_gather ix) x = Some t.
Proof.
  intros Ht. pose proof (zget_Some _ _ _ Ht) as Hr. rewrite restore_length in Hr.
  destruct (token_kept t Hr) as (w & Hw & Hk & E). rewrite Ht in E. injection E as ->.
  destruct (kept_tokens_place w t Hk) as [Hpos%kept_positions_sub _].
  rewrite (fi_gather _ _ _ _ _ (lo_filled _ _ _ _ _ _ Hlay) w _ Hw Hpos). f_equal. lia.
Qed.

Lemma gather_in_batch x t :
  0 < batch_tokens reqs -> zget (ix_gather ix) x = Some t -> 0 <= t < batch_tokens reqs.
Proof.
  intros Hn Hx. pose proof (lo_filled _ _ _ _ _ _ Hlay) as HF.
  destruct (decide (x ∈ concat (map (positions padded) rows))) as [Hin|Hni].
  - apply elem_all_of in Hin as (w & Hw & Hp'). rewrite (fi_gather _ _ _ _ _ HF w x Hw Hp') in Hx. injection Hx as <-.
    apply elem_zrange in Hp'. destruct (placed_inv p reqs mla _ (lo_segments _ _ _ _ _ _ Hlay) w Hw) as (Hr & b & _ & Hs & Hfin).
    destruct (finished_bounds p Hp reqs w.1 b w.2 Hr Hbatch Hfin Hs) as (_ & _ & Hb).
    unfold width, num_actual_tokens in *. lia.
  - rewrite (fi_gather_else _ _ _ _ _ HF) in Hx by done. simpl in Hx. unfold zget in Hx.
    case_match; [done|]. apply lookup_replicate in Hx as [-> _]. lia.
Qed.
End uses.

Lemma layout_inv p reqs mla arg junk lay :
  0 < p -> batch_from 0 reqs -> zlen junk = batch_tokens reqs ->
  build_batch_layout mla p reqs junk arg = Ok lay -> layout_ok p reqs mla arg junk lay.
Proof.
  intros Hp Hb Hj E. destruct (build_layout_ok p Hp reqs Hb mla arg junk Hj) as (F & HF & Hbad & Hgood).
  destruct Hgood as (lay' & E' & _ & Hok); [|congruence].
  intros n En. destruct (Z.lt_ge_cases n (required F)) as [Hlt|Hge]; [|done].
  rewrite (Hbad n En Hlt) in E. done.
Qed.

(** The dispatch size computed for a batch is the width its layout needs.
    With that size, or with none given, the layout succeeds and pads to it; a
    larger size is taken as it is, and a smaller one is refused. *)
Theorem pcp_dispatch_exact p reqs mla junk :
  0 < p -> batch_from 0 reqs -> zlen junk = batch_tokens reqs ->
  exists D, get_num_tokens_for_dispatch mla p reqs = Ok D /\
    (exists lay, build_batch_layout mla p reqs junk None = Ok lay /\ padded_num_tokens lay = D) /\
    forall n,
      if n <? D then raises PatchCompatibilityError (build_batch_layout mla p reqs junk (Some n))
      else exists lay, build_batch_layout mla p reqs junk (Some n) = Ok lay /\ padded_num_tokens lay = n /\
        Forall (fun tokens => tokens <= n) (per_rank_num_tokens lay).
Proof.
  intros Hp Hb Hj. destruct (build_layout_ok p Hp reqs Hb mla None junk Hj) as (F & HF & _ & Hgood).
  exists (required F). split; [by apply (dispatch_required p Hp reqs Hb)|]. split.
  { destruct Hgood as (lay & E & EF & Hok); [done|]. exists lay. split; [done|].
    rewrite (lo_padded _ _ _ _ _ _ Hok), EF. done. }
  intros n. destruct (build_layout_ok p Hp reqs Hb mla (Some n) junk Hj) as (F' & HF' & Hbad & Hgood').
  assert (required F' = required F) as ER.
  { pose proof (dispatch_required p Hp reqs Hb mla F HF). pose proof (dispatch_required p Hp reqs Hb mla F' HF'). congruence. }
  rewrite ER in *. destruct (Z.ltb_spec n (required F)) as [Hlt|Hge].
  - eexists. by apply (Hbad n).
  - destruct Hgood' as (lay & E & EF & Hok); [by intros ? [= <-]|]. exists lay. split; [done|].
    pose proof (lo_padded _ _ _ _ _ _ Hok) as Ep. simpl in Ep. split; [done|].
    rewrite (lo_tokens _ _ _ _ _ _ Hok). apply Forall_fmap, Forall_forall. intros b Hin. simpl.
    rewrite <- Ep. by apply (lo_bound _ _ _ _ _ _ Hok).
Qed.

(** C4: gathering undoes the partition of a batch.  Whatever each rank computes
    row by row for the tokens of its rows, and whatever its padding holds, the
    gathered outputs indexed by the restore index are the outputs of the whole
    batch, token by token in its order. *)
Theorem pcp_restore_roundtrip `{TensorOps} {A} (f : Z -> A) p reqs mla arg junk lay outs hidden :
  0 < p -> batch_from 0 reqs -> zlen junk = batch_tokens reqs ->
  build_batch_layout mla p reqs junk arg = Ok lay -> computes p lay f outs ->
  restore_hidden_states (Some (ix_restore (layout_indexes lay)))
    (fun _ => concat (map outs (zrange 0 p))) hidden = Ok (map f (zrange 0 (batch_tokens reqs))).
Proof.
  intros Hp Hb Hj E Hc. apply index_select_ok.
  exact (restore_rows p Hp reqs Hb mla arg junk Hj lay (layout_inv _ _ _ _ _ _ Hp Hb Hj E) f outs Hc).
Qed.

(** C25: each token is written to the cache once.  The expanded slot mapping has
    at the place a token is restored from the token's own slot, these places
    are distinct, and everywhere else it has the padding slot. *)
Theorem pcp_slots_once `{TensorOps} p reqs mla arg junk lay slots pad :
  0 < p -> batch_from 0 reqs -> zlen junk = batch_tokens reqs -> 0 < batch_tokens reqs ->
  build_batch_layout mla p reqs junk arg = Ok lay -> zlen slots = batch_tokens reqs ->
  exists out, convert_slot_mappings pad (layout_indexes lay) slots = Ok out /\
    zlen out = padded_num_tokens lay * p /\ NoDup (ix_restore (layout_indexes lay)) /\
    forall x, 0 <= x < zlen out ->
      (exists t, zget (ix_restore (layout_indexes lay)) t = Some x /\ zget out x = zget slots t) \/
      (~ x ∈ ix_restore (layout_indexes lay) /\ zget out x = Some pad).
Proof.
  intros Hp Hb Hj Hn E Es. pose proof (layout_inv _ _ _ _ _ _ Hp Hb Hj E) as Hok.
  set (ix := layout_indexes lay) in *.
  destruct (gather_length p Hp reqs Hb mla arg junk lay Hok) as [Lg Lm]. fold ix in Lg, Lm.
  pose proof (gather_restores p Hp reqs Hb mla arg junk Hj lay Hok) as Hgr. fold ix in Hgr.
  pose proof (mask_spec p Hp reqs Hb mla arg junk Hj lay Hok) as Hmask. fold ix in Hmask.
  set (out := zip_with (fun (write : bool) t => if write then default 0 (zget slots t) else pad) (ix_mask ix) (ix_gather ix)).
  assert (Forall2 (fun i row => zget slots i = Some row) (ix_gather ix)
    (map (fun t => default 0 (zget slots t)) (ix_gather ix))) as Hsel.
  { change (Forall2 (fun i row => zget slots i = Some row) (ix_gather ix)
      ((fun t => default 0 (zget slots t)) <$> ix_gather ix)).
    apply Forall2_fmap_r, Forall_Forall2_diag, Forall_forall.
    intros t [x Hx]%elem_zget.
    pose proof (gather_in_batch p Hp reqs Hb mla arg junk lay Hok x t Hn Hx).
    destruct (zget_is_Some slots t) as [y Ey]; [lia|]. simpl. by rewrite Ey. }
  exists out. unfold convert_slot_mappings. rewrite (index_select_ok _ _ _ Hsel). cbn [mbind result_bind].
  assert (zlen out = padded_num_tokens lay * p) as Lo.
  { unfold out, zlen. rewrite length_zip_with. unfold zlen in Lg, Lm. lia. }
  split_and!; [|done| |].
  - unfold out. change (map (fun t => default 0 (zget slots t)) (ix_gather ix))
      with ((fun t => default 0 (zget slots t)) <$> ix_gather ix). by rewrite zip_with_fmap_r.
  - apply NoDup_alt. intros i j x Hi Hj'. rewrite <- (zget_nat _ i) in Hi. rewrite <- (zget_nat _ j) in Hj'.
    apply Hgr in Hi, Hj'. rewrite Hi in Hj'. injection Hj' as ?. lia.
  - intros x Hx. rewrite Lo in Hx. destruct (zget_is_Some (ix_mask ix) x ltac:(lia)) as [m Em].
    destruct (zget_is_Some (ix_gather ix) x ltac:(lia)) as [t Et].
    assert (zget out x = Some (if m then default 0 (zget slots t) else pad)) as Eo.
    { unfold out. unfold zget in *. destruct (x <? 0); [done|]. rewrite lookup_zip_with, Em. simpl. by rewrite Et. }
    destruct m.
    + left. apply Hmask in Em as [t' Ht']%elem_zget. exists t'. split; [done|].
      pose proof (Hgr _ _ Ht') as Et'. rewrite Et in Et'. injection Et' as <-. rewrite Eo.
      pose proof (gather_in_batch p Hp reqs Hb mla arg junk lay Hok x t Hn Et).
      destruct (zget_is_Some slots t) as [y Ey]; [lia|]. by rewrite Ey.
    + right. split; [|done]. intros Hin%Hmask. congruence.
Qed.

(** The ranks of an MLA batch agree on shapes.  They have equally many
    tokens, and of every request equally many rows and tokens, padding
    included. *)
Theorem pcp_mla_uniform p reqs arg junk lay :
  0 < p -> batch_from 0 reqs -> zlen junk = batch_tokens reqs ->
  build_batch_layout true p reqs junk arg = Ok lay ->
  (exists T, get_num_tokens_for_dispatch true p reqs = Ok T /\
     Forall (fun tokens => tokens = T) (per_rank_num_tokens lay)) /\
  forall k, 0 <= k < zlen reqs -> exists W R,
    Forall (fun rows => width_of k rows = W /\ count_of k rows = R) (segments_by_rank lay).
Proof.
  intros Hp Hb Hj E. pose proof (layout_inv _ _ _ _ _ _ Hp Hb Hj E) as Hok.
  pose proof (lo_segments _ _ _ _ _ _ Hok) as HF. split.
  - exists (required (segments_by_rank lay)). split; [by apply (dispatch_required p Hp reqs Hb)|].
    rewrite (lo_tokens _ _ _ _ _ _ Hok). unfold required. rewrite (so_tokens _ _ _ _ HF).
    rewrite (zrange_cons 0 p) by done. cbn [map].
    set (c := zsum _). assert (forall l : list Z, foldl Z.max c (map (fun _ => c) l) = c) as Hc.
    { induction l as [|y l IH]; simpl; [done|]. by rewrite Z.max_id. }
    rewrite Hc. constructor; [done|]. apply Forall_fmap, Forall_forall. done.
  - intros k Hk. destruct (zget_is_Some reqs k Hk) as [q Hq]. unfold zget in Hq.
    destruct (Z.ltb_spec k 0); [lia|].
    destruct (so_uniform _ _ _ _ HF eq_refl _ _ Hq) as [R HR]. rewrite Z2Nat.id in HR by lia. eauto.
Qed.

(** ** A concrete batch *)

(** A fresh prefill of five tokens, a decode, and a continued prefill of three. *)
Definition demo_batch : list request := [Request 5 0 true 0; Request 1 5 false 7; Request 3 6 true 2].
Definition demo_layout : layout :=
  match build_batch_layout true 2 demo_batch (replicate 9 (-7)) (Some 8) with
  | Ok lay => lay
  | Err _ => Layout [] [] 0 (Indexes [] [] [])
  end.

(** Rank outputs: twice the token for a row, -1 for padding. *)
Definition demo_outs (r : Z) : list Z :=
  map (fun x => match zget (ix_gather (layout_indexes demo_layout)) (r * 8 + x),
                      zget (ix_mask (layout_indexes demo_layout)) (r * 8 + x) with
                | Some t, Some true => 2 * t
                | Some t, _ => if t =? 5 then 10 else -1
                | _, _ => -1 end) (zrange 0 8).

Lemma demo_batch_ok : batch_from 0 demo_batch.
Proof. vm_compute. repeat split; congruence. Qed.

Lemma pcp_dispatch_exact_witness :
  get_num_tokens_for_dispatch true 2 demo_batch = Ok 6 /\
  raises PatchCompatibilityError (build_batch_layout true 2 demo_batch (replicate 9 (-7)) (Some 5)).
Proof.
  destruct (pcp_dispatch_exact 2 demo_batch true (replicate 9 (-7))) as (D & H1 & _ & H2);
    [lia|exact demo_batch_ok|reflexivity|].
  vm_compute in H1. injection H1 as <-. split; [vm_compute; reflexivity|]. exact (H2 5).
Defined.

Lemma demo_computes : computes 2 demo_layout (fun t => 2 * t) demo_outs.
Proof.
  split.
  - intros r Hr. assert (r = 0 \/ r = 1) as [-> | ->] by lia; vm_compute; reflexivity.
  - intros w j Hw Hj. vm_compute in Hw.
    repeat (apply elem_of_cons in Hw as [->|Hw]; [cbn [fst snd local_start global_start] in *;
      unfold num_actual_tokens in Hj; cbn [global_start global_stop snd] in Hj;
      first [exfalso; lia
        |assert (j = 0) as -> by lia; vm_compute; reflexivity
        |assert (j = 0 \/ j = 1) as [-> | ->] by lia; vm_compute; reflexivity]|]).
    by apply not_elem_of_nil in Hw.
Qed.

Lemma pcp_restore_roundtrip_witness :
  restore_hidden_states (Some (ix_restore (layout_indexes demo_layout)))
    (fun _ => demo_outs 0 ++ demo_outs 1) [] = Ok [0; 2; 4; 6; 8; 10; 12; 14; 16].
Proof.
  pose proof (pcp_restore_roundtrip (fun t => 2 * t) 2 demo_batch true (Some 8) (replicate 9 (-7))
    demo_layout demo_outs []) as Hr.
  specialize (Hr ltac:(lia) demo_batch_ok eq_refl ltac:(vm_compute; reflexivity) demo_computes).
  etransitivity; [etransitivity; [|exact Hr]|]; vm_compute; reflexivity.
Defined.

Lemma pcp_slots_once_witness :
  exists out, convert_slot_mappings (-1) (layout_indexes demo_layout)
      [100; 101; 102; 103; 104; 200; 300; 301; 302] = Ok out /\ zlen out = 16.
Proof.
  destruct (pcp_slots_once 2 demo_batch true (Some 8) (replicate 9 (-7)) demo_layout
    [100; 101; 102; 103; 104; 200; 300; 301; 302] (-1)) as (out & H1 & H2 & _);
    [lia|exact demo_batch_ok|reflexivity|vm_compute; reflexivity|vm_compute; reflexivity|reflexivity|].
  exists out. split; [exact H1|]. rewrite H2. vm_compute. reflexivity.
Defined.

Lemma pcp_mla_uniform_witness :
  exists W R, Forall (fun rows => width_of 2 rows = W /\ count_of 2 rows = R) (segments_by_rank demo_layout).
Proof.
  destruct (pcp_mla_uniform 2 demo_batch (Some 8) (replicate 9 (-7)) demo_layout) as [_ H];
    [lia|exact demo_batch_ok|reflexivity|vm_compute; reflexivity|].
  apply (H 2). vm_compute. split; congruence.
Defined.
