(* ===== verification/PcpPartition.v ===== *)
(** * The rank-local batch

    Models [partition_batch] of src/vllm_hcu/v1/pcp_manager.py: from the
    global batch and its layout, the rows, tokens, sequence lengths, logits
    and draft tokens of one rank's batch.  The buffers the manager reuses from
    step to step are fresh values here. *)

From S2P Require Import Prelude PyString Tensors LightlyCp PcpLayout.
Local Open Scope Z_scope.

Module Partition.
Import LightlyCp Pcp.

(** ** Data *)

(** The entries of one request in the arrays of the global batch *)
Record global_row := GlobalRow {
  row_request : request;
  row_req_id : string;
  row_idx : Z;           (** [idx_mapping_np] *)
  row_prefill_len : Z;
  row_seq_len : Z;
  row_num_logits : Z;    (** [np.diff(cu_num_logits_np)] *)
  row_drafts : Z
}.

Record global_batch := GlobalBatch {
  g_rows : list global_row;
  g_input_ids : list Z;
  g_positions : list Z;
  g_num_draft_tokens : Z;
  g_has_drafts_per_req : bool    (** [num_draft_tokens_per_req is not None] *)
}.

(** The entries of one row in the arrays of the rank-local batch *)
Record local_row := LocalRow {
  lr_req_id : string;
  lr_idx : Z;
  lr_length : Z;
  lr_start_pos : Z;      (** [num_computed_tokens_np] *)
  lr_seq_len : Z;
  lr_prefill_len : Z;
  lr_computed_prefill : Z;
  lr_prefilling : bool;
  lr_num_logits : Z;
  lr_drafts : Z
}.

(** The token buffers of a rank *)
Record token_buffers := Buffers {
  tb_input_ids : list Z;
  tb_positions : list Z;
  tb_is_padding : list bool;
  tb_replicated_mask : list bool;
  tb_replicated_slots : list Z
}.

Record local_batch := LocalBatch {
  lb_rows : list local_row;
  lb_query_start : list Z;
  lb_buffers : token_buffers;
  lb_logits_indices : list Z;
  lb_cu_num_logits : list Z;
  lb_expanded_idx : list Z;
  lb_expanded_pos : list Z;
  lb_num_tokens : Z;
  lb_num_padded : Z;
  lb_num_drafts : Z;
  lb_has_prefill : bool
}.

(** [l[start:start+n]] *)
Definition zslice {A} (l : list A) (start n : Z) : list A :=
  take (Z.to_nat n) (drop (Z.to_nat start) l).

(** [buf[start:start+n].copy_(vals)] *)
Definition copy_slice (buf : list Z) (start n : Z) (vals : list Z) : result (list Z) :=
  match slice_assign buf start n vals with
  | Ok buf' => Ok buf'
  | Err _ => Err (Exn RuntimeError "The size of tensor a must match the size of tensor b")
  end.

(** ** Tokens *)

Section tokens.
Context (reqs : list request).

(** [rank0_decode_position]: where rank 0 has each decode token, -1 elsewhere *)
Fixpoint rank0_positions (buf : list Z) (rank0 : list BatchSegment) : result (list Z) :=
  match rank0 with
  | [] => Ok buf
  | s :: rest =>
      if (num_actual_tokens s =? 0) || negb (is_decode reqs s) then rank0_positions buf rest
      else
        buf' ← slice_assign buf (global_start s) (num_actual_tokens s)
                 (zrange (local_start s) (num_actual_tokens s));
        rank0_positions buf' rest
  end.

(** The body of the loop over the rows *)
Definition fill_row (g : global_batch) (rank0 : list Z) (b : token_buffers) (s : BatchSegment)
    : result token_buffers :=
  let n := num_actual_tokens s in
  if n =? 0 then Ok b
  else
    ids ← copy_slice (tb_input_ids b) (local_start s) n (zslice (g_input_ids g) (global_start s) n);
    pos ← copy_slice (tb_positions b) (local_start s) n (zslice (g_positions g) (global_start s) n);
    let padding := slice_fill (tb_is_padding b) (local_start s) n false in
    if is_decode reqs s then
      let owner_positions := zslice rank0 (global_start s) n in
      if existsb (fun x => x <? 0) owner_positions
      then Err (Exn RuntimeError "PCP rank-0 decode slot ownership is incomplete")
      else
        slots ← slice_assign (tb_replicated_slots b) (local_start s) n owner_positions;
        mret (Buffers ids pos padding
                (slice_fill (tb_replicated_mask b) (local_start s) n true) slots)
    else mret (Buffers ids pos padding (tb_replicated_mask b) (tb_replicated_slots b)).

Fixpoint fill_rows (g : global_batch) (rank0 : list Z) (b : token_buffers)
    (segments : list BatchSegment) : result token_buffers :=
  match segments with
  | [] => Ok b
  | s :: rest => b' ← fill_row g rank0 b s; fill_rows g rank0 b' rest
  end.

Definition empty_buffers (padded : Z) : token_buffers :=
  let n := Z.to_nat padded in
  Buffers (replicate n 0) (replicate n 0) (replicate n true) (replicate n false) (replicate n 0).

(** ** Sequence lengths *)

(** A row that holds all the scheduled tokens of its request *)
Definition is_full_row (s : BatchSegment) : bool :=
  match zget reqs (global_req_idx s) with
  | Some r => (0 <? num_actual_tokens s) && (global_start s =? rq_start r) &&
              (global_stop s =? rq_start r + rq_len r)
  | None => false
  end.

(** The sequence length of a row when not all rows are full *)
Definition split_seq_len (positions : list Z) (s : BatchSegment) : result Z :=
  if 0 <? num_actual_tokens s then
    match zget positions (local_start s + num_actual_tokens s - 1) with
    | Some x => Ok (x + 1)
    | None => Err (Exn IndexError "index out of range in self")
    end
  else Ok (padding_tokens s).

Definition row_of (rows : list global_row) (s : BatchSegment) : result global_row :=
  match zget rows (global_req_idx s) with
  | Some r => Ok r
  | None => Err (Exn IndexError "index is out of bounds")
  end.

Definition seq_lens (g : global_batch) (positions : list Z) (segments : list BatchSegment)
    : result (list Z) :=
  if forallb is_full_row segments
  then mapM (fun s => r ← row_of (g_rows g) s; mret (row_seq_len r)) segments
  else mapM (split_seq_len positions) segments.
End tokens.

(** ** Rows *)

Definition start_pos (r : global_row) (s : BatchSegment) : Z :=
  if 0 <? num_actual_tokens s
  then rq_computed (row_request r) + global_start s - rq_start (row_request r) else 0.

(** The row of a segment, its sequence length known *)
Definition make_row (g : global_batch) (s : BatchSegment) (seq_len : Z) : result local_row :=
  r ← row_of (g_rows g) s;
  let virtual := num_actual_tokens s =? 0 in
  let start := start_pos r s in
  let computed_prefill := Z.min start (row_prefill_len r) in
  mret (LocalRow (row_req_id r) (row_idx r) (num_tokens s) start seq_len (row_prefill_len r)
          computed_prefill
          ((computed_prefill <? row_prefill_len r) && rq_prefilling (row_request r))
          (if virtual then 0 else row_num_logits r)
          (if virtual then 0 else if g_has_drafts_per_req g then row_drafts r else 0)).

(** The last [count] tokens of each row that has logits, rows from [start] on *)
Fixpoint logits_of (start : Z) (rows : list local_row) : list Z :=
  match rows with
  | [] => []
  | r :: rest =>
      zrange (start + lr_length r - lr_num_logits r) (lr_num_logits r) ++
      logits_of (start + lr_length r) rest
  end.

Section partition.
Context (use_mla : bool) (pcp_size pcp_rank max_local_reqs max_local_tokens : Z).

Definition partition_batch (g : global_batch) (junk : list Z) (padded_arg : option Z)
    : result (layout * local_batch) :=
  if negb (g_num_draft_tokens g =? 0) && negb (g_has_drafts_per_req g)
  then Err (Exn PatchCompatibilityError "PCP spec decode requires per-request draft-token counts")
  else
    let reqs := map row_request (g_rows g) in
    lay ← build_batch_layout use_mla pcp_size reqs junk padded_arg;
    own ← match zget (segments_by_rank lay) pcp_rank with
          | Some segs => Ok segs
          | None => Err (Exn IndexError "list index out of range")
          end;
    let segments := match own with [] => [BatchSeg 0 0 0 0 0 0] | _ => own end in
    if max_local_reqs <? zlen segments
    then Err (Exn RuntimeError "PCP local request count exceeds its buffer")
    else if max_local_tokens <? padded_num_tokens lay
    then Err (Exn RuntimeError "PCP local token count exceeds its buffer")
    else
      rank0 ← rank0_positions reqs (replicate (Z.to_nat (zlen junk)) (-1))
                (default [] (head (segments_by_rank lay)));
      bufs ← fill_rows reqs g rank0 (empty_buffers (padded_num_tokens lay)) segments;
      lens ← seq_lens reqs g (tb_positions bufs) segments;
      rows ← mapM (fun '(s, l) => make_row g s l) (zip segments lens);
      if existsb (fun '(r, s) => num_actual_tokens s <? lr_num_logits r) (zip rows segments)
      then Err (Exn PatchCompatibilityError "PCP local logits exceed their rank-local query lengths")
      else if g_has_drafts_per_req g &&
              existsb (fun r => lr_prefilling r && negb (lr_drafts r =? 0)) rows
      then Err (Exn PatchCompatibilityError "PCP+MTP draft tokens are only valid for decode requests")
      else
        mret (lay,
          LocalBatch rows (0 :: cumsum (map lr_length rows)) bufs (logits_of 0 rows)
            (0 :: cumsum (map lr_num_logits rows))
            (concat (map (fun r => replicate (Z.to_nat (lr_num_logits r)) (lr_idx r)) rows))
            (concat (map (fun r => zrange 0 (lr_num_logits r)) rows))
            (default 0 (zget (per_rank_num_tokens lay) pcp_rank)) (padded_num_tokens lay)
            (zsum (map lr_drafts rows)) (existsb lr_prefilling rows)).
End partition.
End Partition.
