(* ===== verification/PcpPartitionCorrect.v ===== *)
(** * Correctness of the rank-local batch

    A rank's buffers hold exactly the tokens its rows say, decode tokens know
    where rank 0 has them, and the sequence length of a row is the same
    whichever of the two ways it is computed. *)

From S2P Require Import Prelude PyString Tensors LightlyCp LightlyCpCorrect PcpLayout PcpLayoutCorrect PcpIndexesCorrect PcpCorrect PcpPartition.
From stdpp Require Import sorting.
Import LightlyCp Pcp Partition.
Local Open Scope Z_scope.

(** ** Slices *)

Lemma zslice_range {A} (l : list A) start n :
  0 <= start -> 0 <= n -> start + n <= zlen l ->
  zlen (zslice l start n) = n /\ forall i, 0 <= i < n -> zget (zslice l start n) i = zget l (start + i).
Proof.
  intros Hs Hn Hl. unfold zslice, zlen in *. split.
  - rewrite length_take, length_drop. lia.
  - intros i Hi. unfold zget. destruct (Z.ltb_spec i 0), (Z.ltb_spec (start + i) 0); try lia.
    rewrite lookup_take_lt, lookup_drop by lia. f_equal. lia.
Qed.

(** Assigning a slice of another array. *)
Lemma assign_slice_get buf start (src : list Z) from n :
  0 <= start -> 0 <= n -> start + n <= zlen buf -> 0 <= from -> from + n <= zlen src ->
  exists buf', slice_assign buf start n (zslice src from n) = Ok buf' /\ zlen buf' = zlen buf /\
    forall i, zget buf' i = if decide (i ∈ zrange start n) then zget src (from + (i - start)) else zget buf i.
Proof.
  intros Hs Hn Hb Hf Hsrc. destruct (zslice_range src from n Hf Hn Hsrc) as [El Hg].
  destruct (slice_assign_get buf start (zslice src from n)) as (buf' & E & L & G); [done|by rewrite El|].
  rewrite El in E, G. exists buf'. split; [done|]. split; [done|]. intros i. rewrite G.
  destruct (decide (start <= i < start + n)) as [Hi|Hi].
  - rewrite decide_True by by apply elem_zrange. apply Hg. lia.
  - by rewrite decide_False by by rewrite elem_zrange.
Qed.

Lemma copy_slice_get buf start (src : list Z) from n :
  0 <= start -> 0 <= n -> start + n <= zlen buf -> 0 <= from -> from + n <= zlen src ->
  exists buf', copy_slice buf start n (zslice src from n) = Ok buf' /\ zlen buf' = zlen buf /\
    forall i, zget buf' i = if decide (i ∈ zrange start n) then zget src (from + (i - start)) else zget buf i.
Proof.
  intros. destruct (assign_slice_get buf start src from n) as (buf' & E & ?); [done..|].
  exists buf'. unfold copy_slice. by rewrite E.
Qed.

Section rows.
Context (reqs : list request).

Definition row_tokens (s : BatchSegment) : list Z := zrange (global_start s) (num_actual_tokens s).
Definition row_places (s : BatchSegment) : list Z := zrange (local_start s) (num_actual_tokens s).

(** ** Rank 0's decode tokens *)

Definition decode_tokens (s : BatchSegment) : list Z := if is_decode reqs s then row_tokens s else [].

(** A row inside a batch of [n] tokens. *)
Definition row_within (n : Z) (s : BatchSegment) : Prop :=
  0 <= num_actual_tokens s /\ (num_actual_tokens s = 0 \/ 0 <= global_start s /\ global_stop s <= n).

Lemma rank0_positions_ok buf b :
  Forall (row_within (zlen buf)) b -> NoDup (concat (map decode_tokens b)) ->
  exists buf', rank0_positions reqs buf b = Ok buf' /\ zlen buf' = zlen buf /\
    (forall s t, s ∈ b -> t ∈ decode_tokens s -> zget buf' t = Some (local_start s + (t - global_start s))) /\
    (forall t, ~ t ∈ concat (map decode_tokens b) -> zget buf' t = zget buf t).
Proof.
  revert buf. induction b as [|s b IH]; intros buf Hw Hn.
  { exists buf. split_and!; [done|done| |done]. by intros ? ? ?%not_elem_of_nil. }
  inversion Hw as [|? ? Hs Hb]; subst. simpl in Hn. apply NoDup_app in Hn as (_ & Hd & Hn). simpl.
  destruct ((num_actual_tokens s =? 0) || negb (is_decode reqs s)) eqn:Eskip.
  - assert (decode_tokens s = []) as Ed.
    { unfold decode_tokens, row_tokens. apply orb_true_iff in Eskip as [E%Z.eqb_eq|E%negb_true_iff].
      - rewrite E. by destruct (is_decode reqs s).
      - by rewrite E. }
    destruct (IH buf Hb Hn) as (buf' & E & L & G & K). exists buf'. rewrite Ed. split_and!; [done|done| |done].
    intros s' t [->|Hs']%elem_of_cons Ht; [rewrite Ed in Ht; by apply not_elem_of_nil in Ht|by apply G].
  - apply orb_false_iff in Eskip as [Ene%Z.eqb_neq Edec%negb_false_iff].
    destruct Hs as [Hpos [?|[H1 H2]]]; [done|].
    assert (decode_tokens s = row_tokens s) as Ed by (unfold decode_tokens; by rewrite Edec).
    destruct (slice_assign_get buf (global_start s) (zrange (local_start s) (num_actual_tokens s)))
      as (buf1 & E1 & L1 & G1); [done|rewrite zlen_zrange by done; unfold num_actual_tokens; lia|].
    rewrite zlen_zrange in E1 by done. rewrite E1. cbn [mbind result_bind].
    assert (forall t, zget buf1 t = if decide (t ∈ row_tokens s)
      then Some (local_start s + (t - global_start s)) else zget buf t) as G1'
      by (intros t; rewrite G1; by apply zget_range).
    destruct (IH buf1) as (buf' & E & L & G & K); [by rewrite L1|done|].
    exists buf'. split_and!; [done|congruence| |].
    + intros s' t [->|Hs']%elem_of_cons Ht; [|by apply G]. rewrite K by by apply Hd.
      rewrite G1'. rewrite Ed in Ht. by rewrite decide_True.
    + intros t Ht. rewrite not_elem_of_app in Ht. destruct Ht as [Ht1 Ht2]. rewrite K by done. rewrite G1'.
      rewrite Ed in Ht1. by rewrite decide_False.
Qed.

(** ** The token buffers *)

Context (g : global_batch) (rank0 : list Z).

(** A row inside the global arrays and buffers of [n] places, whose decode
    tokens rank 0 has. *)
Definition row_fits (n : Z) (s : BatchSegment) : Prop :=
  num_actual_tokens s = 0 \/
  0 < num_actual_tokens s /\ 0 <= local_start s /\ local_start s + num_actual_tokens s <= n /\
  0 <= global_start s /\ global_stop s <= zlen (g_input_ids g) /\ global_stop s <= zlen (g_positions g) /\
  (is_decode reqs s = true -> global_stop s <= zlen rank0 /\
     forall t x, t ∈ row_tokens s -> zget rank0 t = Some x -> 0 <= x).

(** Buffers of one length. *)
Definition buffers_of (n : Z) (b : token_buffers) : Prop :=
  zlen (tb_input_ids b) = n /\ zlen (tb_positions b) = n /\ zlen (tb_is_padding b) = n /\
  zlen (tb_replicated_mask b) = n /\ zlen (tb_replicated_slots b) = n.

(** What a place of the buffers holds: the five entries. *)
Definition entry (b : token_buffers) (x : Z) : option Z * option Z * option bool * option bool * option Z :=
  (zget (tb_input_ids b) x, zget (tb_positions b) x, zget (tb_is_padding b) x,
   zget (tb_replicated_mask b) x, zget (tb_replicated_slots b) x).

(** The entries of a row's place, the mask and slot unless it is a decode kept. *)
Definition row_entry (s : BatchSegment) (old : token_buffers) (x : Z)
    : option Z * option Z * option bool * option bool * option Z :=
  let t := global_start s + (x - local_start s) in
  (zget (g_input_ids g) t, zget (g_positions g) t, Some false,
   if is_decode reqs s then Some true else zget (tb_replicated_mask old) x,
   if is_decode reqs s then zget rank0 t else zget (tb_replicated_slots old) x).

Lemma no_negative (l : list Z) : (forall i x, zget l i = Some x -> 0 <= x) -> existsb (fun x => x <? 0) l = false.
Proof.
  intros Hl. apply not_true_is_false. rewrite existsb_exists. intros (x & Hx & Hneg%Z.ltb_lt).
  apply list_elem_of_In, elem_zget in Hx as [i Hi]. specialize (Hl i x Hi). lia.
Qed.

Lemma fill_row_ok n b s :
  buffers_of n b -> row_fits n s ->
  exists b', fill_row reqs g rank0 b s = Ok b' /\ buffers_of n b' /\
    forall x, entry b' x = if decide (x ∈ row_places s) then row_entry s b x else entry b x.
Proof.
  intros (L1 & L2 & L3 & L4 & L5) Hfit. unfold fill_row.
  destruct Hfit as [E|(Hw & Hl & Hle & Hg & Hgi & Hgp & Hdec)].
  { rewrite E. cbn [Z.eqb]. exists b. split; [done|]. split; [done|]. intros x.
    unfold row_places. rewrite E, zrange_nil by done. by rewrite decide_False by apply not_elem_of_nil. }
  rewrite (proj2 (Z.eqb_neq _ _)) by lia. set (m := num_actual_tokens s) in *.
  assert (global_start s + m = global_stop s) as Es by (unfold m, num_actual_tokens; lia).
  destruct (copy_slice_get (tb_input_ids b) (local_start s) (g_input_ids g) (global_start s) m)
    as (ids & -> & Li & Gi); [lia..|]. cbn [mbind result_bind].
  destruct (copy_slice_get (tb_positions b) (local_start s) (g_positions g) (global_start s) m)
    as (pos & -> & Lp & Gp); [lia..|]. cbn [mbind result_bind].
  destruct (slice_fill_get (tb_is_padding b) (local_start s) m false) as [Lpad Gpad]; [lia..|].
  assert (row_places s = zrange (local_start s) m) as Epl by done.
  unfold row_entry. destruct (is_decode reqs s) eqn:Edec.
  - destruct (Hdec eq_refl) as [Hr0 Hnn].
    destruct (zslice_range rank0 (global_start s) m) as [El Hsl]; [lia..|].
    rewrite no_negative.
    2:{ intros i x Hx. pose proof (zget_Some _ _ _ Hx) as Hi. rewrite El in Hi. rewrite Hsl in Hx by done.
        apply (Hnn (global_start s + i)); [|done]. apply elem_zrange. fold m. lia. }
    destruct (assign_slice_get (tb_replicated_slots b) (local_start s) rank0 (global_start s) m)
      as (slots & -> & Lsl & Gsl); [lia..|]. cbn [mbind result_bind].
    destruct (slice_fill_get (tb_replicated_mask b) (local_start s) m true) as [Lm Gm]; [lia..|].
    eexists. split; [done|]. split; [by split_and!; simpl; congruence|]. intros x. unfold entry. simpl.
    rewrite Gi, Gp, Gpad, Gm, Gsl, Epl. destruct (decide (x ∈ zrange (local_start s) m)) as [Hin|Hni];
      rewrite elem_zrange in *; by repeat case_decide.
  - eexists. split; [done|]. split; [by split_and!; simpl; congruence|]. intros x. unfold entry. simpl.
    rewrite Gi, Gp, Gpad, Epl. destruct (decide (x ∈ zrange (local_start s) m)) as [Hin|Hni];
      rewrite elem_zrange in *; by repeat case_decide.
Qed.

Lemma fill_rows_ok n b segs :
  buffers_of n b -> Forall (row_fits n) segs -> NoDup (concat (map row_places segs)) ->
  exists b', fill_rows reqs g rank0 b segs = Ok b' /\ buffers_of n b' /\
    (forall s x, s ∈ segs -> x ∈ row_places s -> entry b' x = row_entry s b x) /\
    (forall x, ~ x ∈ concat (map row_places segs) -> entry b' x = entry b x).
Proof.
  revert b. induction segs as [|s segs IH]; intros b Hb Hf Hn.
  { exists b. split_and!; [done|done| |done]. by intros ? ? ?%not_elem_of_nil. }
  inversion Hf as [|? ? Hs Hsegs]; subst. simpl in Hn. apply NoDup_app in Hn as (_ & Hd & Hn).
  destruct (fill_row_ok n b s Hb Hs) as (b1 & E1 & Hb1 & G1). simpl. rewrite E1. cbn [mbind result_bind].
  destruct (IH b1 Hb1 Hsegs Hn) as (b' & E & Hb' & G & K).
  exists b'. split_and!; [done|done| |].
  - intros s' x [->|Hs']%elem_of_cons Hx.
    + rewrite K by by apply Hd. rewrite G1. by rewrite decide_True.
    + rewrite (G s' x Hs' Hx). unfold row_entry. specialize (G1 x).
      rewrite decide_False in G1.
      * unfold entry in G1. by injection G1 as _ _ _ -> ->.
      * intros Hx'. apply (Hd x Hx'). apply list_elem_of_In, in_concat. exists (row_places s').
        split; [by apply in_map, list_elem_of_In|by apply list_elem_of_In].
  - intros x Hx. rewrite not_elem_of_app in Hx. destruct Hx as [Hx1 Hx2]. rewrite K by done. rewrite G1.
    by rewrite decide_False.
Qed.
End rows.

(** ** One rank of a laid-out batch *)

Section rank.
Context (p : Z) (Hp : 0 < p) (reqs : list request) (Hbatch : batch_from 0 reqs).
Context (mla : bool) (arg : option Z) (junk : list Z) (Hjunk : zlen junk = batch_tokens reqs).
Context (lay : layout) (Hlay : layout_ok p reqs mla arg junk lay).

Lemma own_rows r : 0 <= r < p ->
  exists b, zget (segments_by_rank lay) r = Some b /\ b ∈ segments_by_rank lay /\ finished p reqs r b.
Proof.
  intros Hr. pose proof (so_finished _ _ _ _ (lo_segments _ _ _ _ _ _ Hlay)) as HF.
  destruct (zget_is_Some (segments_by_rank lay) r) as [b Hb].
  { pose proof (Forall2_length _ _ _ HF) as E. unfold zlen. rewrite <- E.
    fold (zlen (zrange 0 p)). rewrite zlen_zrange; lia. }
  exists b. split; [done|]. split; [by eapply zget_elem|]. unfold zget in Hb.
  destruct (Z.ltb_spec r 0); [lia|].
  destruct (Forall2_lookup_r _ _ _ _ _ HF Hb) as (r' & Hr' & Hfin).
  unfold zrange in Hr'. apply lookup_seqZ in Hr' as [-> _]. by rewrite Z2Nat.id, Z.add_0_l in Hfin by lia.
Qed.

Lemma rank_rows_decode r r' k rest s :
  (forall i q, rest !! i = Some q -> zget reqs (k + Z.of_nat i) = Some q) ->
  s ∈ rank_rows p r k rest -> is_decode reqs s = true -> s ∈ rank_rows p r' k rest.
Proof.
  revert k. induction rest as [|q rest IH]; intros k Hk Hs Hd; cbn [rank_rows] in *;
    [by apply not_elem_of_nil in Hs|].
  apply elem_of_app. apply elem_of_app in Hs as [Hs|Hs].
  - left. pose proof (request_rows_idx p r k q s Hs) as [Ek _].
    specialize (Hk 0%nat q eq_refl). rewrite Z.add_0_r in Hk.
    unfold is_decode in Hd. rewrite Ek, Hk in Hd. apply negb_true_iff in Hd.
    unfold request_rows in *. by rewrite Hd in *.
  - right. apply IH; [|done|done]. intros i q' Hi. specialize (Hk (S i) q' Hi).
    by replace (k + 1 + Z.of_nat i) with (k + Z.of_nat (S i)) by lia.
Qed.

(** A decode row of a rank is a row of rank 0 too. *)
Lemma decode_row_shared r b b0 s :
  finished p reqs r b -> finished p reqs 0 b0 -> s ∈ b -> num_actual_tokens s <> 0 -> is_decode reqs s = true ->
  exists s0, s0 ∈ b0 /\ strip s0 = strip s.
Proof.
  intros [(v & E & Hv) _] [(v0 & E0 & _) _] Hs Hne Hd.
  assert (strip s ∈ rank_rows p r 0 reqs ++ map strip v) as Hin
    by (rewrite <- E; apply list_elem_of_fmap; eauto).
  apply elem_of_app in Hin as [Hin|(s' & Es & Hs')%list_elem_of_fmap].
  - assert (strip s ∈ map strip b0) as (s0 & -> & Hs0)%list_elem_of_fmap; [|eauto].
    rewrite E0. apply elem_of_app. left. eapply rank_rows_decode; [|exact Hin|done].
    intros i q Hi. by rewrite Z.add_0_l, zget_nat.
  - exfalso. apply Hne. rewrite Forall_forall in Hv. destruct (Hv s' Hs') as (_ & _ & Ha & _).
    change (num_actual_tokens (strip s) = 0). by rewrite Es.
Qed.

Lemma rank0_decode_nodup b0 :
  zget (segments_by_rank lay) 0 = Some b0 -> NoDup (concat (map (decode_tokens reqs) b0)).
Proof.
  intros H0. pose proof (kept_once p Hp reqs _ Hbatch (so_finished _ _ _ _ (lo_segments _ _ _ _ _ _ Hlay))) as E.
  assert (NoDup (concat (map (kept_tokens reqs) (placed_rows 0 (segments_by_rank lay))))) as Hn
    by (rewrite E; apply NoDup_seqZ).
  destruct (segments_by_rank lay) as [|b rest]; [done|]. injection H0 as ->. simpl in Hn.
  rewrite map_app, concat_app, map_map in Hn. apply NoDup_app in Hn as (Hn & _ & _).
  clear -Hn. induction b0 as [|s b0 IH]; simpl in *; [done|].
  apply NoDup_app in Hn as (Hs & Hd & Hn). specialize (IH Hn).
  assert (forall s, kept_tokens reqs (0, s) = row_tokens s) as Ek.
  { intros s'. unfold kept_tokens, kept. simpl. by rewrite orb_true_r. }
  assert (forall t b, t ∈ concat (map (decode_tokens reqs) b) ->
    t ∈ concat (map (fun s => kept_tokens reqs (0, s)) b)) as Hsub.
  { intros t b. induction b as [|s' b IHb]; simpl; [done|]. rewrite !elem_of_app, Ek. unfold decode_tokens.
    intros [Ht|Ht]; [left|right; by apply IHb]. by destruct (is_decode reqs s'); [|apply not_elem_of_nil in Ht]. }
  rewrite Ek in Hs. apply NoDup_app. unfold decode_tokens at 1 2. destruct (is_decode reqs s).
  - split_and!; [done| |done]. intros t Ht Ht'. apply (Hd t); [by rewrite Ek|by apply Hsub].
  - split_and!; [constructor| |done]. by intros t ?%not_elem_of_nil.
Qed.

(** Where rank 0 has the decode tokens. *)
Lemma rank0_known b0 :
  zget (segments_by_rank lay) 0 = Some b0 ->
  exists r0, rank0_positions reqs (replicate (Z.to_nat (zlen junk)) (-1)) b0 = Ok r0 /\ zlen r0 = batch_tokens reqs /\
    forall s t, s ∈ b0 -> t ∈ decode_tokens reqs s -> zget r0 t = Some (local_start s + (t - global_start s)).
Proof.
  intros H0. destruct (own_rows 0 ltac:(lia)) as (b & Hb & _ & Hfin). rewrite H0 in Hb. injection Hb as <-.
  assert (zlen (replicate (Z.to_nat (zlen junk)) (-1)) = batch_tokens reqs) as El.
  { unfold zlen at 1. rewrite length_replicate. pose proof (batch_tokens_nonneg _ _ Hbatch). lia. }
  destruct (rank0_positions_ok reqs (replicate (Z.to_nat (zlen junk)) (-1)) b0) as (r0 & E & L & G & _).
  - apply Forall_forall. intros s Hs. rewrite El.
    destruct (finished_bounds p Hp reqs 0 b0 s ltac:(lia) Hbatch Hfin Hs) as (H1 & _ & H2). by split.
  - by apply rank0_decode_nodup.
  - exists r0. split; [done|]. split; [congruence|done].
Qed.

(** The places of a rank's rows. *)
Lemma own_places r b :
  0 <= r < p -> finished p reqs r b ->
  NoDup (concat (map row_places b)) /\
  forall s, s ∈ b -> num_actual_tokens s <> 0 ->
    0 <= local_start s /\ local_start s + num_actual_tokens s <= tokens_of b.
Proof.
  intros Hr Hfin. destruct (finished_places p Hp reqs 0 r b Hr Hbatch Hfin) as [Hn Hx].
  assert (forall s, positions 0 (r, s) = row_places s) as Ep.
  { intros s. unfold positions, position, width, row_places. simpl. f_equal. lia. }
  rewrite (map_ext _ _ Ep) in Hn, Hx. split; [done|]. intros s Hs Hne.
  destruct (finished_bounds p Hp reqs r b s Hr Hbatch Hfin Hs) as (Hpos & _).
  assert (forall x, x ∈ row_places s -> 0 <= x < tokens_of b) as Hin.
  { intros x Hin. cut (r * 0 <= x < r * 0 + tokens_of b); [lia|]. apply (Hx x). apply list_elem_of_In, in_concat. exists (row_places s).
    split; [by apply in_map, list_elem_of_In|by apply list_elem_of_In]. }
  pose proof (Hin (local_start s)) as H1. pose proof (Hin (local_start s + num_actual_tokens s - 1)) as H2.
  unfold row_places in H1, H2. rewrite elem_zrange in H1, H2. lia.
Qed.
(** A row has tokens of its request or pads, never both. *)
Lemma finished_unmixed r b s : finished p reqs r b -> s ∈ b -> num_actual_tokens s = 0 \/ padding_tokens s = 0.
Proof.
  intros [(v & E & Hv) _] Hs.
  assert (strip s ∈ rank_rows p r 0 reqs ++ map strip v) as Hin
    by (rewrite <- E; apply list_elem_of_fmap; eauto).
  apply elem_of_app in Hin as [[_ Hpad]%rank_rows_idx|(s' & Es & Hs')%list_elem_of_fmap]; [by right|left].
  rewrite Forall_forall in Hv. destruct (Hv s' Hs') as (_ & _ & Ha & _).
  change (num_actual_tokens (strip s) = 0). by rewrite Es.
Qed.

(** Where rank 0 has a decode token of a rank's row. *)
Lemma decode_place r b b0 s t :
  zget (segments_by_rank lay) 0 = Some b0 -> finished p reqs r b -> s ∈ b ->
  t ∈ row_tokens s -> is_decode reqs s = true ->
  exists s0, s0 ∈ b0 /\ t ∈ decode_tokens reqs s0 /\
    0 <= local_start s0 + (t - global_start s0) < padded_num_tokens lay /\
    zget (ix_gather (layout_indexes lay)) (local_start s0 + (t - global_start s0)) = Some t.
Proof.
  intros H0 Hfin Hs Ht Hd. destruct (own_rows 0 ltac:(lia)) as (b' & Hb' & Hin & Hfin0).
  rewrite H0 in Hb'. injection Hb' as <-. apply elem_zrange in Ht as Ht'.
  destruct (decode_row_shared r b b0 s Hfin Hfin0 Hs ltac:(lia) Hd) as (s0 & Hs0 & Es).
  pose proof (f_equal global_start Es) as E1. pose proof (f_equal num_actual_tokens Es) as E2.
  pose proof (f_equal (is_decode reqs) Es) as E3. change (is_decode reqs s0 = is_decode reqs s) in E3.
  change (global_start s0 = global_start s) in E1. change (num_actual_tokens s0 = num_actual_tokens s) in E2.
  exists s0. split; [done|]. split.
  { unfold decode_tokens, row_tokens. rewrite E3, Hd, E1, E2. done. }
  destruct (own_places 0 b0 ltac:(lia) Hfin0) as [_ Hpl]. destruct (Hpl s0 Hs0 ltac:(lia)) as [H1 H2].
  pose proof (lo_bound _ _ _ _ _ _ Hlay b0 Hin). split; [lia|].
  pose proof (fi_gather _ _ _ _ _ (lo_filled _ _ _ _ _ _ Hlay) (0, s0)) as Hg.
  rewrite (Hg (local_start s0 + (t - global_start s0))); [unfold position; simpl; f_equal; lia| |].
  - apply elem_placed. exists 0%nat, b0. split; [by rewrite <- zget_nat|]. split; [done|done].
  - unfold positions, position, width. simpl. rewrite elem_zrange. lia.
Qed.

(** The place of a row's token among the gathered ones. *)
Lemma row_gathered r b s j :
  zget (segments_by_rank lay) r = Some b -> s ∈ b -> 0 <= j < num_actual_tokens s ->
  zget (ix_gather (layout_indexes lay)) (r * padded_num_tokens lay + (local_start s + j)) =
  Some (global_start s + j).
Proof.
  intros Hb Hs Hj. pose proof (zget_Some _ _ _ Hb) as Hr.
  rewrite (fi_gather _ _ _ _ _ (lo_filled _ _ _ _ _ _ Hlay) (r, s)); [unfold position; simpl; f_equal; lia| |].
  - apply elem_placed. exists (Z.to_nat r), b. split; [|split; [simpl; lia|done]].
    rewrite <- zget_nat, Z2Nat.id by lia. done.
  - unfold positions, position, width. simpl. rewrite elem_zrange. lia.
Qed.
End rank.

(** ** The batch of a rank *)

Abbreviation requests g := (map row_request (g_rows g)).

(** The arrays of a global batch of at least one request agree. *)
Record batch_ok (g : global_batch) : Prop := {
  bo_requests : batch_from 0 (requests g);
  bo_nonempty : 0 < zlen (g_rows g);
  bo_ids : batch_tokens (requests g) <= zlen (g_input_ids g);
  bo_positions : batch_tokens (requests g) <= zlen (g_positions g)
}.

(** The rows of a rank, one empty row when it has none. *)
Definition own_segments (b : list BatchSegment) : list BatchSegment :=
  match b with [] => [BatchSeg 0 0 0 0 0 0] | _ => b end.

Lemma own_segment b s : s ∈ own_segments b -> s ∈ b \/ s = BatchSeg 0 0 0 0 0 0.
Proof. destruct b; simpl; [intros ->%list_elem_of_singleton; by right|by left]. Qed.

Lemma own_segments_places b : concat (map row_places (own_segments b)) = concat (map row_places b).
Proof. by destruct b. Qed.

(** The reasons to refuse a batch. *)
Definition refusal (e : exn) : Prop :=
  e ∈ [Exn PatchCompatibilityError "PCP spec decode requires per-request draft-token counts";
       Exn PatchCompatibilityError "official PCP dispatch padding is smaller";
       Exn RuntimeError "PCP local request count exceeds its buffer";
       Exn RuntimeError "PCP local token count exceeds its buffer";
       Exn PatchCompatibilityError "PCP local logits exceed their rank-local query lengths";
       Exn PatchCompatibilityError "PCP+MTP draft tokens are only valid for decode requests"].

Section partitioned.
Context (p : Z) (Hp : 0 < p) (g : global_batch) (Hg : batch_ok g).
Context (mla : bool) (arg : option Z) (junk : list Z) (Hjunk : zlen junk = batch_tokens (requests g)).
Context (lay : layout) (Hlay : layout_ok p (requests g) mla arg junk lay).
Context (r : Z) (Hr : 0 <= r < p) (b b0 : list BatchSegment).
Context (Hb : zget (segments_by_rank lay) r = Some b) (Hb0 : zget (segments_by_rank lay) 0 = Some b0).

Abbreviation reqs := (requests g).

Lemma own_finished : finished p reqs r b.
Proof. destruct (own_rows p Hp reqs mla arg junk lay Hlay r Hr) as (b' & E & _ & ?). congruence. Qed.

Lemma own_idx s : s ∈ own_segments b -> 0 <= global_req_idx s < zlen (g_rows g).
Proof.
  assert (zlen (g_rows g) = zlen reqs) as El by (unfold zlen; by rewrite length_map).
  intros [Hs| ->]%own_segment; [|pose proof (bo_nonempty _ Hg); simpl; lia].
  rewrite El. by eapply (finished_idx p), Hs; apply own_finished.
Qed.

Lemma segments_fit r0 :
  zlen r0 = batch_tokens reqs ->
  (forall s t, s ∈ b0 -> t ∈ decode_tokens reqs s -> zget r0 t = Some (local_start s + (t - global_start s))) ->
  Forall (row_fits reqs g r0 (padded_num_tokens lay)) (own_segments b).
Proof.
  intros Hl Hr0. apply Forall_forall. intros s [Hs| ->]%own_segment; [|by left].
  destruct (Z.eq_dec (num_actual_tokens s) 0) as [E|Hne]; [by left|right].
  pose proof (bo_requests _ Hg) as Hbatch. pose proof (bo_ids _ Hg). pose proof (bo_positions _ Hg).
  destruct (finished_bounds p Hp reqs r b s Hr Hbatch own_finished Hs) as (H1 & H2 & H3).
  destruct (own_places p Hp reqs Hbatch r b Hr own_finished) as [_ Hpl]. destruct (Hpl s Hs Hne) as [H4 H5].
  pose proof (lo_bound _ _ _ _ _ _ Hlay b ltac:(by eapply zget_elem)).
  destruct H3 as [?|[H3 H3']]; [done|]. split_and!; try lia.
  intros Hd. split; [lia|]. intros t x Ht Hx.
  destruct (decode_place p Hp reqs Hbatch mla arg junk lay Hlay r b b0 s t Hb0 own_finished Hs Ht Hd)
    as (s0 & Hs0 & Ht0 & Hrange & _).
  rewrite (Hr0 s0 t Hs0 Ht0) in Hx. injection Hx as <-. lia.
Qed.

Lemma row_of_ok s : s ∈ own_segments b -> exists q, row_of (g_rows g) s = Ok q /\ zget (g_rows g) (global_req_idx s) = Some q.
Proof. intros Hs. unfold row_of. destruct (zget_is_Some (g_rows g) (global_req_idx s) (own_idx s Hs)) as [q ->]. eauto. Qed.

Lemma mapM_total {A B} (f : A -> result B) l :
  (forall x, x ∈ l -> exists y, f x = Ok y) -> exists ys, mapM f l = Ok ys.
Proof.
  induction l as [|x l IH]; intros Hf; [by exists []|]. destruct (Hf x ltac:(by left)) as [y Ey].
  destruct IH as [ys Eys]; [intros; apply Hf; by right|]. exists (y :: ys). simpl. rewrite Ey. cbn [mbind result_bind].
  by rewrite Eys.
Qed.

Lemma seq_lens_total positions :
  zlen positions = padded_num_tokens lay -> exists lens, seq_lens reqs g positions (own_segments b) = Ok lens.
Proof.
  intros Hl. unfold seq_lens. destruct (forallb (is_full_row reqs) (own_segments b)); apply mapM_total.
  - intros s (q & -> & _)%row_of_ok. by eexists.
  - intros s [Hs| ->]%own_segment; [|by eexists]. unfold split_seq_len.
    destruct (Z.ltb_spec 0 (num_actual_tokens s)); [|by eexists].
    destruct (own_places p Hp reqs (bo_requests _ Hg) r b Hr own_finished) as [_ Hpl].
    destruct (Hpl s Hs ltac:(lia)). pose proof (lo_bound _ _ _ _ _ _ Hlay b ltac:(by eapply zget_elem)).
    destruct (zget_is_Some positions (local_start s + num_actual_tokens s - 1)) as [x ->]; [lia|by eexists].
Qed.

Lemma rows_total lens : exists rows, mapM (fun '(s, l) => make_row g s l) (zip (own_segments b) lens) = Ok rows.
Proof.
  apply mapM_total. intros [s l] Hs. apply elem_of_zip_l in Hs. unfold make_row.
  destruct (row_of_ok s Hs) as (q & -> & _). by eexists.
Qed.
End partitioned.

Lemma empty_buffers_of n : 0 <= n -> buffers_of n (empty_buffers n) /\
  forall x, 0 <= x < n -> entry (empty_buffers n) x = (Some 0, Some 0, Some true, Some false, Some 0).
Proof.
  intros Hn. unfold buffers_of, empty_buffers, entry, zlen. simpl. rewrite !length_replicate. split; [lia|].
  intros x Hx. assert (forall {A} (v : A), zget (replicate (Z.to_nat n) v) x = Some v) as Hv.
  { intros A v. unfold zget. destruct (Z.ltb_spec x 0); [lia|]. apply lookup_replicate. split; [done|lia]. }
  by rewrite !Hv.
Qed.

(** How a batch that is not refused is made. *)
Record made (p r : Z) (g : global_batch) (mla : bool) (arg : option Z) (junk : list Z)
    (lay : layout) (lb : local_batch) : Prop := {
  made_layout : layout_ok p (requests g) mla arg junk lay;
  made_rows : exists b b0 r0 lens,
    zget (segments_by_rank lay) r = Some b /\ zget (segments_by_rank lay) 0 = Some b0 /\
    zlen r0 = batch_tokens (requests g) /\
    (forall s t, s ∈ b0 -> t ∈ decode_tokens (requests g) s ->
       zget r0 t = Some (local_start s + (t - global_start s))) /\
    fill_rows (requests g) g r0 (empty_buffers (padded_num_tokens lay)) (own_segments b) = Ok (lb_buffers lb) /\
    seq_lens (requests g) g (tb_positions (lb_buffers lb)) (own_segments b) = Ok lens /\
    mapM (fun '(s, l) => make_row g s l) (zip (own_segments b) lens) = Ok (lb_rows lb) /\
    existsb (fun '(row, s) => num_actual_tokens s <? lr_num_logits row) (zip (lb_rows lb) (own_segments b)) = false;
  made_logits : lb_logits_indices lb = logits_of 0 (lb_rows lb)
}.

Lemma partition_cases p r g mla arg junk max_reqs max_tokens :
  0 < p -> 0 <= r < p -> batch_ok g -> zlen junk = batch_tokens (requests g) ->
  (exists e, partition_batch mla p r max_reqs max_tokens g junk arg = Err e /\ refusal e) \/
  exists lay lb, partition_batch mla p r max_reqs max_tokens g junk arg = Ok (lay, lb) /\
    made p r g mla arg junk lay lb.
Proof.
  intros Hp Hr Hg Hj. pose proof (bo_requests _ Hg) as Hbatch. unfold partition_batch.
  destruct (negb (g_num_draft_tokens g =? 0) && _); [left; eexists; split; [done|by left]|].
  destruct (build_layout_ok p Hp _ Hbatch mla arg junk Hj) as (F & HF & Hbad & Hgood).
  assert ((forall n, arg = Some n -> required F <= n) \/ exists n, arg = Some n /\ n < required F) as [Harg|(n & En & Hn)].
  { destruct arg as [n|]; [|by left]. destruct (Z.lt_ge_cases n (required F)); [right; eauto|left]. by intros ? [= <-]. }
  2:{ left. eexists. split; [by rewrite (Hbad n En Hn)|by right; left]. }
  destruct (Hgood Harg) as (lay & -> & EF & Hlay). cbn [mbind result_bind].
  destruct (own_rows p Hp _ mla arg junk lay Hlay r Hr) as (b & Hb & _ & _). rewrite Hb. cbn [mbind result_bind].
  destruct (own_rows p Hp _ mla arg junk lay Hlay 0 ltac:(lia)) as (b0 & Hb0 & _ & _).
  fold (own_segments b).
  destruct (max_reqs <? _); [left; eexists; split; [done|by do 2 right; left]|].
  destruct (max_tokens <? _); [left; eexists; split; [done|by do 3 right; left]|].
  assert (default [] (head (segments_by_rank lay)) = b0) as ->.
  { destruct (segments_by_rank lay); [done|]. by injection Hb0 as ->. }
  destruct (rank0_known p Hp _ Hbatch mla arg junk Hj lay Hlay b0 Hb0) as (r0 & -> & L0 & G0). cbn [mbind result_bind].
  pose proof (padded_ok p Hp _ Hbatch mla arg junk lay Hlay) as Hpad.
  destruct (empty_buffers_of _ Hpad) as [Hempty _].
  destruct (fill_rows_ok (requests g) g r0 _ _ (own_segments b) Hempty) as (bufs & Ef & Hbufs & _).
  { exact (segments_fit p Hp g Hg mla arg junk lay Hlay r Hr b b0 Hb Hb0 r0 L0 G0). }
  { rewrite own_segments_places. by apply (own_places p Hp _ Hbatch r b Hr), (own_finished p Hp g mla arg junk lay Hlay r Hr b Hb). }
  rewrite Ef. cbn [mbind result_bind].
  destruct (seq_lens_total p Hp g Hg mla arg junk lay Hlay r Hr b Hb (tb_positions bufs)) as [lens El].
  { by destruct Hbufs as (_ & ? & _). }
  rewrite El. cbn [mbind result_bind].
  destruct (rows_total p Hp g Hg mla arg junk lay Hlay r Hr b Hb lens) as [rows Er]. rewrite Er. cbn [mbind result_bind].
  destruct (existsb _ (zip rows _)) eqn:Elog; [left; eexists; split; [done|by do 4 right; left]|].
  destruct (_ && existsb _ rows); [left; eexists; split; [done|by do 5 right; left]|].
  right. do 2 eexists. split; [done|]. split; [done| |done]. exists b, b0, r0, lens. by simpl.
Qed.

(** A row that has tokens lies within its request. *)
Lemma rank_rows_within p r k off rest s :
  0 < p -> 0 <= r < p -> batch_from off rest -> s ∈ rank_rows p r k rest ->
  exists (i : nat) q, rest !! i = Some q /\ global_req_idx s = k + Z.of_nat i /\
    rq_start q <= global_start s /\ global_stop s <= rq_start q + rq_len q.
Proof.
  intros Hp Hr. revert k off. induction rest as [|q rest IH]; intros k off; cbn [rank_rows];
    [by intros _ ?%not_elem_of_nil|].
  intros (Es & HL & Hrest) [Hs|Hs]%elem_of_app.
  - exists 0%nat, q. pose proof (request_rows_idx p r k q s Hs) as [-> _].
    pose proof (request_rows_bounds p Hp r k q s Hr HL Hs). split; [done|]. lia.
  - destruct (IH (k + 1) _ Hrest Hs) as (i & q' & Hi & Ei & Hq). exists (S i), q'. split; [done|]. lia.
Qed.

Lemma finished_within p r reqs b s :
  0 < p -> 0 <= r < p -> batch_from 0 reqs -> finished p reqs r b -> s ∈ b -> num_actual_tokens s <> 0 ->
  exists q, zget reqs (global_req_idx s) = Some q /\
    rq_start q <= global_start s /\ global_stop s <= rq_start q + rq_len q.
Proof.
  intros Hp Hr Hbatch [(v & E & Hv) _] Hs Hne.
  assert (strip s ∈ rank_rows p r 0 reqs ++ map strip v) as Hin
    by (rewrite <- E; apply list_elem_of_fmap; eauto).
  apply elem_of_app in Hin as [Hin|(s' & Es & Hs')%list_elem_of_fmap].
  - destruct (rank_rows_within p r 0 0 reqs _ Hp Hr Hbatch Hin) as (i & q & Hi & Ei & Hq).
    exists q. split; [|done]. change (global_req_idx s = 0 + Z.of_nat i) in Ei. by rewrite Ei, Z.add_0_l, zget_nat.
  - exfalso. apply Hne. rewrite Forall_forall in Hv. destruct (Hv s' Hs') as (_ & _ & Ha & _).
    change (num_actual_tokens (strip s) = 0). by rewrite Es.
Qed.

Section contents.
Context (p : Z) (Hp : 0 < p) (g : global_batch) (Hg : batch_ok g) (r : Z) (Hr : 0 <= r < p).
Context (mla : bool) (arg : option Z) (junk : list Z) (Hjunk : zlen junk = batch_tokens (requests g)).
Context (lay : layout) (lb : local_batch) (Hmade : made p r g mla arg junk lay lb).

Abbreviation reqs := (requests g).
Abbreviation padded := (padded_num_tokens lay).
Abbreviation gather := (ix_gather (layout_indexes lay)).

(** What a real token's place holds. *)
Definition token_entry (s : BatchSegment) (j : Z) : Prop :=
  let x := local_start s + j in
  let t := global_start s + j in
  0 <= x < padded /\ zget gather (r * padded + x) = Some t /\
  exists slot, entry (lb_buffers lb) x =
      (zget (g_input_ids g) t, zget (g_positions g) t, Some false, Some (is_decode reqs s), Some slot) /\
    if is_decode reqs s then 0 <= slot < padded /\ zget gather slot = Some t else slot = 0.

Lemma made_contents : exists b, zget (segments_by_rank lay) r = Some b /\
  (forall s j, s ∈ b -> 0 <= j < num_actual_tokens s -> token_entry s j) /\
  forall x, 0 <= x < padded -> ~ x ∈ concat (map row_places b) ->
    entry (lb_buffers lb) x = (Some 0, Some 0, Some true, Some false, Some 0).
Proof.
  pose proof (bo_requests _ Hg) as Hbatch.
  destruct Hmade as [Hlay (b & b0 & r0 & lens & Hb & Hb0 & L0 & G0 & Ef & _) _]. exists b. split; [done|].
  pose proof (own_finished p Hp g mla arg junk lay Hlay r Hr b Hb) as Hfin.
  destruct (own_places p Hp _ Hbatch r b Hr Hfin) as [Hnd Hpl].
  pose proof (lo_bound _ _ _ _ _ _ Hlay b ltac:(by eapply zget_elem)) as Hbound.
  destruct (empty_buffers_of padded) as [Hempty Hblank]; [by eapply padded_ok|].
  destruct (fill_rows_ok reqs g r0 _ _ (own_segments b) Hempty) as (bufs & Ef' & _ & Hrow & Helse).
  { exact (segments_fit p Hp g Hg mla arg junk lay Hlay r Hr b b0 Hb Hb0 r0 L0 G0). }
  { by rewrite own_segments_places. }
  rewrite Ef in Ef'. injection Ef' as <-. split.
  - intros s j Hs Hj. destruct (Hpl s Hs ltac:(lia)) as [H1 H2]. unfold token_entry.
    split; [lia|]. split; [by eapply row_gathered|].
    assert (s ∈ own_segments b) as Hs' by (by destruct b; [apply not_elem_of_nil in Hs|]).
    rewrite (Hrow s (local_start s + j) Hs') by (apply elem_zrange; lia). unfold row_entry.
    replace (global_start s + (local_start s + j - local_start s)) with (global_start s + j) by lia.
    destruct (is_decode reqs s) eqn:Ed.
    + destruct (decode_place p Hp _ Hbatch mla arg junk lay Hlay r b b0 s (global_start s + j) Hb0 Hfin Hs)
        as (s0 & Hs0 & Ht0 & Hrange & Hgt); [apply elem_zrange; lia|done|].
      eexists. rewrite (G0 s0 _ Hs0 Ht0). done.
    + exists 0. specialize (Hblank (local_start s + j) ltac:(lia)). injection Hblank as _ _ _ E1 E2.
      change (zget (tb_replicated_mask (empty_buffers padded)) (local_start s + j) = Some false) in E1.
      change (zget (tb_replicated_slots (empty_buffers padded)) (local_start s + j) = Some 0) in E2.
      by rewrite E1, E2.
  - intros x Hx Hni. rewrite Helse by by rewrite own_segments_places. by apply Hblank.
Qed.
End contents.

(** ** Rows *)

Lemma mapM_zip {A B C} (h : A -> result B) (f : A -> B -> result C) l ys zs :
  mapM h l = Ok ys -> mapM (fun '(x, y) => f x y) (zip l ys) = Ok zs ->
  Forall2 (fun x z => exists y, h x = Ok y /\ f x y = Ok z) l zs.
Proof.
  revert ys zs. induction l as [|x l IH]; intros ys zs Hy Hz; simpl in Hy.
  { injection Hy as <-. injection Hz as <-. constructor. }
  destruct (h x) as [y|e] eqn:Ex; [|done]. cbn [mbind result_bind] in Hy.
  destruct (mapM h l) as [ys'|e] eqn:El; [|done]. injection Hy as <-. simpl in Hz.
  destruct (f x y) as [z|e] eqn:Ez; [|done]. cbn [mbind result_bind] in Hz.
  destruct (mapM _ (zip l ys')) as [zs'|e] eqn:Ezs; [|done]. injection Hz as <-.
  constructor; [eauto|by eapply IH].
Qed.

Lemma make_row_inv g s l row : make_row g s l = Ok row ->
  exists q, zget (g_rows g) (global_req_idx s) = Some q /\ lr_length row = num_tokens s /\
    lr_start_pos row = start_pos q s /\ lr_seq_len row = l /\
    lr_num_logits row = if num_actual_tokens s =? 0 then 0 else row_num_logits q.
Proof.
  unfold make_row, row_of. destruct (zget (g_rows g) (global_req_idx s)) as [q|]; [|done].
  cbn [mbind result_bind]. intros [= <-]. by exists q.
Qed.

(** Device positions and sequence lengths that count from the computed tokens. *)
Definition positions_consistent (g : global_batch) : Prop :=
  forall q, q ∈ g_rows g ->
    row_seq_len q = rq_computed (row_request q) + rq_len (row_request q) /\
    forall j, 0 <= j < rq_len (row_request q) ->
      zget (g_positions g) (rq_start (row_request q) + j) = Some (rq_computed (row_request q) + j).

Lemma rows_of_segments g reqs positions segs lens rows :
  seq_lens reqs g positions segs = Ok lens -> mapM (fun '(s, l) => make_row g s l) (zip segs lens) = Ok rows ->
  Forall2 (fun s row => exists l, make_row g s l = Ok row) segs rows.
Proof.
  unfold seq_lens. intros El Er. destruct (forallb _ segs);
    (eapply Forall2_impl; [exact (mapM_zip _ (make_row g) _ _ _ El Er)|]); intros s row (l & _ & ?); eauto.
Qed.

(** A row with logits for some of its tokens. *)
Definition row_logits_ok (s : BatchSegment) (row : local_row) : Prop :=
  lr_length row = num_tokens s /\ 0 <= lr_num_logits row <= num_actual_tokens s /\ 0 <= padding_tokens s /\
  (num_actual_tokens s = 0 \/ padding_tokens s = 0).

Lemma sorted_zrange a n : StronglySorted Z.lt (zrange a n).
Proof.
  destruct (Z.le_gt_cases n 0); [rewrite zrange_nil by done; constructor|].
  revert a. apply Zlt_lower_bound_ind with (x := n) (z := 1); [|lia]. clear. intros n IH Hn a.
  rewrite zrange_cons by lia. constructor.
  - destruct (Z.eq_dec n 1) as [->|]; [constructor|]. apply IH. lia.
  - apply Forall_forall. intros x Hx%elem_zrange. lia.
Qed.

(** The logits of rows placed one after the other ascend, each at a real token. *)
Lemma logits_places off a rows :
  Forall2 row_logits_ok (relocate off a) rows ->
  (forall x, x ∈ logits_of off rows -> off <= x) /\ StronglySorted Z.lt (logits_of off rows) /\
  forall x, x ∈ logits_of off rows -> exists s, s ∈ relocate off a /\ x ∈ row_places s.
Proof.
  revert off rows. induction a as [|s a IH]; intros off rows HF; simpl in HF.
  { inversion HF; subst. simpl. split_and!; [by intros ? ?%not_elem_of_nil|constructor|by intros ? ?%not_elem_of_nil]. }
  inversion HF as [|? row ? rows' (Elen & Hnl & Hpad & Hmix) HF']; subst. simpl. rewrite Elen.
  destruct (IH _ _ HF') as (Hlo & Hsort & Hpl). unfold num_tokens in *.
  change (num_actual_tokens (BatchSeg (global_req_idx s) (global_start s) (global_stop s) off
    (off + (num_actual_tokens s + padding_tokens s)) (padding_tokens s))) with (num_actual_tokens s) in *.
  simpl in Hpad, Hmix, Hlo, Hsort, Hpl. cbn [padding_tokens]. split_and!.
  - intros x [Hx%elem_zrange|Hx%Hlo]%elem_of_app; lia.
  - apply StronglySorted_app_2; [|apply sorted_zrange|done]. intros x1 x2 Hx1%elem_zrange Hx2%Hlo. lia.
  - intros x [Hx%elem_zrange|(s' & Hs' & Hx)%Hpl]%elem_of_app.
    + eexists. split; [by left|]. apply elem_zrange. simpl. unfold num_actual_tokens in *. simpl. lia.
    + exists s'. split; [by right|done].
Qed.

Section made_rows.
Context (p : Z) (Hp : 0 < p) (g : global_batch) (Hg : batch_ok g) (r : Z) (Hr : 0 <= r < p).
Context (mla : bool) (arg : option Z) (junk : list Z) (Hjunk : zlen junk = batch_tokens (requests g)).
Context (lay : layout) (lb : local_batch) (Hmade : made p r g mla arg junk lay lb).

Abbreviation reqs := (requests g).

Lemma row_position b s j :
  zget (segments_by_rank lay) r = Some b -> s ∈ b -> 0 <= j < num_actual_tokens s ->
  zget (tb_positions (lb_buffers lb)) (local_start s + j) = zget (g_positions g) (global_start s + j).
Proof.
  intros Hb Hs Hj. destruct (made_contents p Hp g Hg r Hr mla arg junk lay lb Hmade) as (b' & Hb' & Hrow & _).
  rewrite Hb in Hb'. injection Hb' as <-. destruct (Hrow s j Hs Hj) as (_ & _ & slot & E & _).
  unfold entry in E. by injection E.
Qed.

(** Either way of computing it, the sequence length of a row ends at its last token. *)
Lemma row_seq_len_end b s l q :
  positions_consistent g -> zget (segments_by_rank lay) r = Some b ->
  s ∈ own_segments b -> zget (g_rows g) (global_req_idx s) = Some q ->
  (is_full_row reqs s = true /\ l = row_seq_len q \/ split_seq_len (tb_positions (lb_buffers lb)) s = Ok l) ->
  l = start_pos q s + num_tokens s.
Proof.
  intros Hc Hb Hs Hq Hl. destruct Hmade as [Hlay _ _].
  pose proof (own_finished p Hp g mla arg junk lay Hlay r Hr b Hb) as Hfin.
  destruct (Hc q ltac:(by eapply zget_elem)) as [Hseq Hpos].
  assert (zget reqs (global_req_idx s) = Some (row_request q)) as Hq'.
  { unfold zget in *. case_match; [done|]. by rewrite lookup_map, Hq. }
  apply own_segment in Hs as [Hs| ->].
  2:{ destruct Hl as [[Hf _]|Hl]; [|by injection Hl as <-]. unfold is_full_row in Hf. by rewrite Hq' in Hf. }
  destruct (finished_bounds p Hp reqs r b s Hr (bo_requests _ Hg) Hfin Hs) as (Hnn & _ & _).
  pose proof (finished_unmixed p reqs r b s Hfin Hs) as Hmix.
  unfold start_pos, num_tokens. destruct (Z.ltb_spec 0 (num_actual_tokens s)) as [Hlt|Hge].
  - destruct Hmix as [?|Hpad]; [lia|]. destruct (finished_within p r reqs b s Hp Hr (bo_requests _ Hg) Hfin Hs)
      as (q' & Eq & H1 & H2); [lia|]. rewrite Hq' in Eq. injection Eq as <-.
    destruct Hl as [[Hf ->]|Hl].
    + unfold is_full_row in Hf. rewrite Hq' in Hf. apply andb_true_iff in Hf as [[_ Hf1%Z.eqb_eq]%andb_true_iff Hf2%Z.eqb_eq].
      unfold num_actual_tokens. lia.
    + unfold split_seq_len in Hl. rewrite (proj2 (Z.ltb_lt _ _) Hlt) in Hl.
      rewrite <- Z.add_sub_assoc, (row_position b) in Hl by (done || lia).
      replace (global_start s + (num_actual_tokens s - 1)) with
        (rq_start (row_request q) + (global_stop s - 1 - rq_start (row_request q))) in Hl
        by (unfold num_actual_tokens; lia).
      unfold num_actual_tokens in *. rewrite Hpos in Hl by lia. injection Hl as <-. lia.
  - destruct Hl as [[Hf _]|Hl].
    + unfold is_full_row in Hf. rewrite Hq' in Hf. destruct (Z.ltb_spec 0 (num_actual_tokens s)); [lia|done].
    + unfold split_seq_len in Hl. destruct (Z.ltb_spec 0 (num_actual_tokens s)); [lia|]. injection Hl as <-. lia.
Qed.

Lemma row_seq_lens :
  positions_consistent g ->
  Forall (fun row => lr_seq_len row = lr_start_pos row + lr_length row) (lb_rows lb).
Proof.
  intros Hc. destruct Hmade as [Hlay (b & b0 & r0 & lens & Hb & _ & _ & _ & _ & El & Er & _) _].
  unfold seq_lens in El. destruct (forallb _ (own_segments b)) eqn:Efull;
    pose proof (mapM_zip _ (make_row g) _ _ _ El Er) as HF2; apply Forall_forall; intros row [i Hi]%list_elem_of_lookup;
    destruct (Forall2_lookup_r _ _ _ _ _ HF2 Hi) as (s & Hs & l & Hl & Hrow);
    apply make_row_inv in Hrow as (q & Hq & -> & -> & -> & _); apply (row_seq_len_end b s _ q Hc Hb);
    [by eapply list_elem_of_lookup_2|done| |by eapply list_elem_of_lookup_2|done|by right].
  left. split.
  - rewrite forallb_forall in Efull. apply Efull, list_elem_of_In. by eapply list_elem_of_lookup_2.
  - unfold row_of in Hl. rewrite Hq in Hl. by injection Hl.
Qed.

Lemma own_located b : zget (segments_by_rank lay) r = Some b -> exists a, own_segments b = relocate 0 a.
Proof.
  intros Hb. destruct Hmade as [Hlay _ _].
  destruct (fin_placed _ _ _ _ (own_finished p Hp g mla arg junk lay Hlay r Hr b Hb)) as (a & ->).
  destruct a as [|s a]; [by exists [BatchSeg 0 0 0 0 0 0]|by exists (s :: a)].
Qed.

Lemma row_logits : Forall (fun q => 0 <= row_num_logits q) (g_rows g) ->
  StronglySorted Z.lt (lb_logits_indices lb) /\
  Forall (fun x => zget (tb_is_padding (lb_buffers lb)) x = Some false) (lb_logits_indices lb).
Proof.
  intros Hnl. destruct (made_contents p Hp g Hg r Hr mla arg junk lay lb Hmade) as (b' & Hb' & Hrow & _).
  destruct Hmade as [Hlay (b & b0 & r0 & lens & Hb & _ & _ & _ & _ & El & Er & Elog) ->].
  rewrite Hb in Hb'. injection Hb' as <-.
  pose proof (own_finished p Hp g mla arg junk lay Hlay r Hr b Hb) as Hfin.
  assert (Forall2 row_logits_ok (own_segments b) (lb_rows lb)) as HF.
  { pose proof (rows_of_segments g _ _ _ _ _ El Er) as HF2.
    apply Forall2_same_length_lookup_2; [by eapply Forall2_length|]. intros i s row Hs Hrw.
    destruct (Forall2_lookup_lr _ _ _ _ _ _ HF2 Hs Hrw) as (l & Hmk).
    apply make_row_inv in Hmk as (q & Hq & Elen & _ & _ & Enl). split; [done|].
    assert (0 <= row_num_logits q) by (rewrite Forall_forall in Hnl; apply Hnl; by eapply zget_elem).
    assert (lr_num_logits row <= num_actual_tokens s) as Hle.
    { apply Z.nlt_ge. intros Hlt. apply not_true_iff_false in Elog. apply Elog, existsb_exists.
      exists (row, s). split; [|by apply Z.ltb_lt]. apply list_elem_of_In. apply (list_elem_of_lookup_2 _ i).
      apply lookup_zip_Some. done. }
    split; [destruct (num_actual_tokens s =? 0); lia|].
    pose proof (list_elem_of_lookup_2 _ _ _ Hs) as [Hin| ->]%own_segment; [|split; [done|by left]].
    destruct (finished_bounds p Hp reqs r b s Hr (bo_requests _ Hg) Hfin Hin) as (_ & ? & _).
    split; [done|by eapply finished_unmixed]. }
  destruct (own_located b Hb) as [a Ea]. rewrite Ea in HF. destruct (logits_places 0 a _ HF) as (_ & Hsort & Hpl).
  split; [done|]. apply Forall_forall. intros x (s & Hs & Hx)%Hpl. apply elem_zrange in Hx.
  rewrite <- Ea in Hs. apply own_segment in Hs as [Hs| ->]; [|unfold num_actual_tokens in Hx; simpl in Hx; lia].
  destruct (Hrow s (x - local_start s) Hs ltac:(lia)) as (_ & _ & slot & E & _).
  replace (local_start s + (x - local_start s)) with x in E by lia. unfold entry in E. by injection E.
Qed.
End made_rows.

(** C38: what a rank's batch holds.  A consistent batch is either refused for
    one of the reasons the code names, never for a missing decode owner or an
    index out of range, or every token of the rank's rows is at its place with
    its own id and position, the place the gather index gives it; a decode
    token also knows the place where rank 0 has the same token, and all other
    places are zero and marked as padding. *)
Theorem pcp_partition_tokens p r g mla arg junk max_reqs max_tokens :
  0 < p -> 0 <= r < p -> batch_ok g -> zlen junk = batch_tokens (requests g) ->
  match partition_batch mla p r max_reqs max_tokens g junk arg with
  | Err e => refusal e
  | Ok (lay, lb) => exists rows, zget (segments_by_rank lay) r = Some rows /\
      (forall s j, s ∈ rows -> 0 <= j < num_actual_tokens s -> token_entry g r lay lb s j) /\
      forall x, 0 <= x < padded_num_tokens lay -> ~ x ∈ concat (map row_places rows) ->
        entry (lb_buffers lb) x = (Some 0, Some 0, Some true, Some false, Some 0)
  end.
Proof.
  intros Hp Hr Hg Hj.
  destruct (partition_cases p r g mla arg junk max_reqs max_tokens Hp Hr Hg Hj) as [(e & -> & He)|(lay & lb & -> & Hm)];
    [done|].
  by eapply made_contents.
Qed.

(** A rank's sequence lengths.  When the device positions count from the
    computed tokens, the length of every row, whether gathered from the global
    lengths or read off its last position, is its first position plus its
    tokens, the upper bound kept on the CPU. *)
Theorem pcp_partition_seq_lens p r g mla arg junk max_reqs max_tokens lay lb :
  0 < p -> 0 <= r < p -> batch_ok g -> zlen junk = batch_tokens (requests g) -> positions_consistent g ->
  partition_batch mla p r max_reqs max_tokens g junk arg = Ok (lay, lb) ->
  Forall (fun row => lr_seq_len row = lr_start_pos row + lr_length row) (lb_rows lb).
Proof.
  intros Hp Hr Hg Hj Hc E.
  destruct (partition_cases p r g mla arg junk max_reqs max_tokens Hp Hr Hg Hj) as [(e & E' & _)|(lay' & lb' & E' & Hm)];
    rewrite E in E'; [done|]. injection E' as <- <-.
  exact (row_seq_lens p Hp g Hg r Hr mla arg junk lay lb Hm Hc).
Qed.

(** A rank samples from real tokens.  Its logits indices ascend, so no
    place is taken twice, and each is the place of a token, never of padding. *)
Theorem pcp_partition_logits p r g mla arg junk max_reqs max_tokens lay lb :
  0 < p -> 0 <= r < p -> batch_ok g -> zlen junk = batch_tokens (requests g) ->
  Forall (fun q => 0 <= row_num_logits q) (g_rows g) ->
  partition_batch mla p r max_reqs max_tokens g junk arg = Ok (lay, lb) ->
  StronglySorted Z.lt (lb_logits_indices lb) /\
  Forall (fun x => zget (tb_is_padding (lb_buffers lb)) x = Some false) (lb_logits_indices lb).
Proof.
  intros Hp Hr Hg Hj Hnl E.
  destruct (partition_cases p r g mla arg junk max_reqs max_tokens Hp Hr Hg Hj) as [(e & E' & _)|(lay' & lb' & E' & Hm)];
    rewrite E in E'; [done|]. injection E' as <- <-.
  exact (row_logits p Hp g Hg r Hr mla arg junk lay lb Hm Hnl).
Qed.

(** ** A concrete batch: two prefills around a decode *)

Definition demo_global : global_batch :=
  GlobalBatch
    [GlobalRow (Request 5 0 true 0) "a" 3 5 5 1 0; GlobalRow (Request 1 5 false 7) "b" 1 6 8 1 0;
     GlobalRow (Request 3 6 true 2) "c" 0 9 5 1 0]
    [11; 12; 13; 14; 15; 21; 31; 32; 33] [0; 1; 2; 3; 4; 7; 2; 3; 4] 0 true.

Lemma demo_global_ok : batch_ok demo_global.
Proof. split; vm_compute; repeat split; congruence. Qed.

Lemma demo_positions : positions_consistent demo_global.
Proof.
  intros q Hq. vm_compute in Hq.
  repeat (apply elem_of_cons in Hq as [->|Hq]; [split; [reflexivity|]; intros j Hj; simpl in Hj;
    assert (j = 0 \/ j = 1 \/ j = 2 \/ j = 3 \/ j = 4) as Ej by lia;
    repeat (destruct Ej as [->|Ej]; [first [reflexivity|exfalso; lia]|]); subst j; first [reflexivity|exfalso; lia]|]).
  by apply not_elem_of_nil in Hq.
Qed.

Lemma pcp_partition_tokens_witness :
  exists lay lb, partition_batch true 2 1 16 16 demo_global (replicate 9 (-7)) (Some 8) = Ok (lay, lb) /\
    tb_input_ids (lb_buffers lb) = [13; 14; 15; 21; 32; 33; 0; 0].
Proof.
  pose proof (pcp_partition_tokens 2 1 demo_global true (Some 8) (replicate 9 (-7)) 16 16 ltac:(lia) ltac:(lia)
    demo_global_ok eq_refl) as H.
  destruct (partition_batch true 2 1 16 16 demo_global (replicate 9 (-7)) (Some 8)) as [[lay lb]|e] eqn:E;
    vm_compute in E; [|discriminate E].
  exists lay, lb. split; [reflexivity|]. injection E as <- <-. reflexivity.
Defined.

Lemma pcp_partition_seq_lens_witness :
  match partition_batch true 2 0 16 16 demo_global (replicate 9 (-7)) (Some 8) with
  | Ok (_, lb) => Forall (fun row => lr_seq_len row = lr_start_pos row + lr_length row) (lb_rows lb)
  | Err _ => False
  end.
Proof.
  destruct (partition_batch true 2 0 16 16 demo_global (replicate 9 (-7)) (Some 8)) as [[lay lb]|e] eqn:E.
  - exact (pcp_partition_seq_lens 2 0 demo_global true (Some 8) (replicate 9 (-7)) 16 16 lay lb ltac:(lia) ltac:(lia)
      demo_global_ok eq_refl demo_positions E).
  - vm_compute in E. discriminate E.
Defined.

Lemma pcp_partition_logits_witness :
  match partition_batch true 2 0 16 16 demo_global (replicate 9 (-7)) (Some 8) with
  | Ok (_, lb) => StronglySorted Z.lt (lb_logits_indices lb)
  | Err _ => False
  end.
Proof.
  destruct (partition_batch true 2 0 16 16 demo_global (replicate 9 (-7)) (Some 8)) as [[lay lb]|e] eqn:E.
  - refine (proj1 (pcp_partition_logits 2 0 demo_global true (Some 8) (replicate 9 (-7)) 16 16 lay lb ltac:(lia) ltac:(lia)
      demo_global_ok eq_refl _ E)). vm_compute. repeat constructor; congruence.
  - vm_compute in E. discriminate E.
Defined.
