(* ===== verification/MemoryPool.v ===== *)
(** * The pinned-memory buddy allocator

    Models [TensorMemoryPool] of
    src/vllm_hcu/distributed/kv_transfer/kv_connector/v1/du/tensor_memory_pool.py. *)

From S2P Require Import Prelude.
Open Scope Z_scope.

Module Pool.

(** ** Data *)

Record MemoryBlock := Block { mb_size : Z; mb_addr : Z }.

#[global] Instance MemoryBlock_eq_dec : EqDecision MemoryBlock.
Proof. solve_decision. Defined.

(** The attributes of a [TensorMemoryPool].  [base_tensor] is the number of
    bytes of the pinned tensor, absent once [cleanup] deleted it. *)
Record TensorMemoryPool := MkPool {
  max_block_size : Z;
  min_block_size : Z;
  free_lists : dict Z (dict Z MemoryBlock);
  allocated_blocks : dict Z MemoryBlock;
  base_tensor : option Z;
  base_address : Z
}.

Definition set_free_lists (fl : dict Z (dict Z MemoryBlock)) (p : TensorMemoryPool) :=
  MkPool (max_block_size p) (min_block_size p) fl (allocated_blocks p)
    (base_tensor p) (base_address p).

Definition set_allocated (al : dict Z MemoryBlock) (p : TensorMemoryPool) :=
  MkPool (max_block_size p) (min_block_size p) (free_lists p) al
    (base_tensor p) (base_address p).

(** ** Operations *)

Definition round_to_power_of_two (size : Z) : Z := Z.shiftl 1 (bit_length (size - 1)).

(** The loop of [_initialize_free_lists]. *)
Fixpoint initialize_free_lists_loop (fuel : nat) (min_size size : Z)
    (fl : dict Z (dict Z MemoryBlock)) : result (dict Z (dict Z MemoryBlock)) :=
  match fuel with
  | O => Err (Exn OutOfFuel "")
  | S fuel' =>
      if min_size <=? size
      then initialize_free_lists_loop fuel' min_size (size / 2) (dset fl size [])
      else Ok fl
  end.

(** Halving or doubling between [1] and [2 ^ k] takes at most [k + 1] rounds
    and one more to leave the loop. *)
Definition size_fuel (size : Z) : nat := Z.to_nat (Z.log2 size) + 2.

Definition initialize_free_lists (max_size min_size : Z)
    : result (dict Z (dict Z MemoryBlock)) :=
  initialize_free_lists_loop (size_fuel max_size) min_size max_size [].

(** [_allocate_pinned_memory]; [data_ptr] is the address torch gives the
    pinned tensor. *)
Definition allocate_pinned_memory (data_ptr : Z) (p : TensorMemoryPool)
    : result TensorMemoryPool :=
  let bytes := 4 * (max_block_size p / 4) in
  let initial_block := Block (max_block_size p) data_ptr in
  match dget (free_lists p) (max_block_size p) with
  | None => Err (Exn KeyError "max_block_size")
  | Some d =>
      Ok (MkPool (max_block_size p) (min_block_size p)
            (dset (free_lists p) (max_block_size p)
               (dset d (mb_addr initial_block) initial_block))
            (allocated_blocks p) (Some bytes) data_ptr)
  end.

(** [__init__] *)
Definition init (max_size min_size data_ptr : Z) : result TensorMemoryPool :=
  if (max_size <=? 0) || (min_size <=? 0)
  then Err (Exn ValueError "Block sizes must be positive")
  else if max_size <? min_size
  then Err (Exn ValueError "Max block size must be greater than min block size")
  else
    let max_size' := round_to_power_of_two max_size in
    let min_size' := round_to_power_of_two min_size in
    fl ← initialize_free_lists max_size' min_size';
    allocate_pinned_memory data_ptr (MkPool max_size' min_size' fl [] None 0).

(** [self.free_lists[size]] *)
Definition free_list_at (size : Z) : M TensorMemoryPool (dict Z MemoryBlock) := fun p =>
  match dget (free_lists p) size with
  | Some d => (Ok d, p)
  | None => (Err (Exn KeyError "free_lists"), p)
  end.

(** [self.free_lists[size] = d], used to write back an updated inner dict *)
Definition set_free_list (size : Z) (d : dict Z MemoryBlock) : M TensorMemoryPool unit :=
  modify (fun p => set_free_lists (dset (free_lists p) size d) p).

(** [self.free_lists[size][block.addr] = block] *)
Definition push_free (size : Z) (block : MemoryBlock) : M TensorMemoryPool unit :=
  d ← free_list_at size;
  set_free_list size (dset d (mb_addr block) block).

(** [_split_block]: the block object is mutated in place, here returned. *)
Fixpoint split_block (fuel : nat) (block : MemoryBlock) (required_size : Z)
    : M TensorMemoryPool MemoryBlock :=
  match fuel with
  | O => raise OutOfFuel ""
  | S fuel' =>
      p ← get_state;
      if (required_size <? mb_size block) && (min_block_size p <=? mb_size block / 2)
      then
        let buddy_size := mb_size block / 2 in
        let buddy_addr := mb_addr block + buddy_size in
        push_free buddy_size (Block buddy_size buddy_addr) ;;
        split_block fuel' (Block buddy_size (mb_addr block)) required_size
      else mret block
  end.

(** The search loop of [allocate]. *)
Fixpoint allocate_loop (fuel : nat) (required_size current_size : Z)
    : M TensorMemoryPool Z :=
  match fuel with
  | O => raise OutOfFuel ""
  | S fuel' =>
      p ← get_state;
      if current_size <=? max_block_size p then
        d ← free_list_at current_size;
        match dpopitem d with
        | Some ((_, block), d') =>
            set_free_list current_size d' ;;
            block' ← split_block (size_fuel (mb_size block)) block required_size;
            modify (fun p => set_allocated (dset (allocated_blocks p) (mb_addr block') block') p) ;;
            mret (mb_addr block')
        | None => allocate_loop fuel' required_size (current_size * 2)
        end
      else raise ValueError "Insufficient memory"
  end.

Definition allocate (size : Z) : M TensorMemoryPool Z :=
  if size <=? 0 then raise ValueError "Allocation size must be positive" else
  p ← get_state;
  let required_size := round_to_power_of_two (Z.max size (min_block_size p)) in
  if max_block_size p <? required_size
  then raise ValueError "Requested size exceeds maximum block size"
  else allocate_loop (size_fuel (max_block_size p)) required_size required_size.

Definition MAX_MERGE_DEPTH : nat := 30.

Definition buddy_offset (base : Z) (block : MemoryBlock) : Z :=
  if (mb_addr block - base) mod (2 * mb_size block) =? 0
  then mb_size block else - mb_size block.

(** [del self.free_lists[size][addr]] *)
Definition delete_free (size addr : Z) : M TensorMemoryPool unit :=
  d ← free_list_at size;
  if dmem d addr then set_free_list size (ddel d addr)
  else raise KeyError "free_lists".

(** The loop of [_merge_buddies]; [rounds] is [MAX_MERGE_DEPTH - depth]. *)
Fixpoint merge_loop (rounds : nat) (block : MemoryBlock) : M TensorMemoryPool MemoryBlock :=
  match rounds with
  | O => mret block
  | S rounds' =>
      p ← get_state;
      let buddy_addr := mb_addr block + buddy_offset (base_address p) block in
      d ← free_list_at (mb_size block);
      match dget d buddy_addr with
      | Some buddy =>
          delete_free (mb_size buddy) (mb_addr buddy) ;;
          merge_loop rounds'
            (Block (mb_size block * 2) (Z.min (mb_addr block) (mb_addr buddy)))
      | None => mret block
      end
  end.

Definition merge_buddies (block : MemoryBlock) : M TensorMemoryPool unit :=
  block' ← merge_loop MAX_MERGE_DEPTH block;
  push_free (mb_size block') block'.

Definition free (addr : Z) : M TensorMemoryPool unit :=
  p ← get_state;
  match dget (allocated_blocks p) addr with
  | None => raise ValueError "Invalid address to free"
  | Some block =>
      modify (fun p => set_allocated (ddel (allocated_blocks p) addr) p) ;;
      merge_buddies block
  end.

Definition cleanup (p : TensorMemoryPool) : TensorMemoryPool :=
  MkPool (max_block_size p) (min_block_size p) [] [] None (base_address p).

(** ** Tensors in pinned memory

    The pool hands out addresses of one process address space [mem].  The
    torch calls are parameters: [itemsize] is [element_size()] of a dtype and
    [frombuffer dtype len count] is the exception [torch.frombuffer] (with the
    [reshape] that follows it) ends with on a buffer of [len] bytes, [None]
    when it returns a view of the buffer. *)

Section store.
Context (dtype : Type) (itemsize : dtype -> Z).
Context (frombuffer : dtype -> Z -> Z -> option exn).

Record tensor := Tensor {
  t_is_cuda : bool;
  t_dtype : dtype;
  t_shape : list Z;
  t_data : list Z
}.

Definition numel (shape : list Z) : Z := foldr Z.mul 1 shape.

Record world := World { w_pool : TensorMemoryPool; w_mem : Z -> Z }.

Definition on_pool {A} (m : M TensorMemoryPool A) : M world A := fun w =>
  let (r, p) := m (w_pool w) in (r, World p (w_mem w)).

Definition write_bytes (mem : Z -> Z) (addr : Z) (data : list Z) : Z -> Z := fun x =>
  if (addr <=? x) && (x <? addr + Z.of_nat (length data))
  then default 0 (data !! Z.to_nat (x - addr))
  else mem x.

Definition read_bytes (mem : Z -> Z) (addr : Z) (n : Z) : list Z :=
  map (fun k => mem (addr + Z.of_nat k)) (seq 0 (Z.to_nat n)).

(** [self.allocated_blocks[addr]] *)
Definition block_at (addr : Z) : M TensorMemoryPool MemoryBlock := fun p =>
  match dget (allocated_blocks p) addr with
  | Some b => (Ok b, p)
  | None => (Err (Exn KeyError "allocated_blocks"), p)
  end.

Definition store_tensor (t : tensor) : M world Z :=
  if negb (t_is_cuda t) then raise ValueError "Only CUDA tensors can be stored" else
  let size := itemsize (t_dtype t) * numel (t_shape t) in
  addr ← on_pool (allocate size);
  block ← on_pool (block_at addr);
  if mb_size block <? size then
    on_pool (free addr) ;;
    raise ValueError "Allocated block size is smaller than required size"
  else
    match frombuffer (t_dtype t) (mb_size block) (numel (t_shape t)) with
    | Some (Exn ValueError msg) =>
        on_pool (free addr) ;;
        raise ValueError ("Failed to create tensor view: " +:+ msg)
    | Some e => throw e
    | None =>
        modify (fun w => World (w_pool w) (write_bytes (w_mem w) (mb_addr block) (t_data t))) ;;
        mret addr
    end.

Definition load_tensor (addr : Z) (ty : dtype) (shape : list Z) : M world tensor :=
  w ← get_state;
  match dget (allocated_blocks (w_pool w)) addr with
  | None => raise ValueError "Invalid address to load"
  | Some block =>
      let num_elements := numel shape in
      let required_size := num_elements * itemsize ty in
      if mb_size block <? required_size
      then raise ValueError "Requested tensor size exceeds block size"
      else
        match frombuffer ty (mb_size block) num_elements with
        | Some e => throw e
        | None =>
            mret (Tensor true ty shape (read_bytes (w_mem w) (mb_addr block) required_size))
        end
  end.
End store.

End Pool.
