(* ===== verification/BuddyTiling.v ===== *)
(** * Tilings of a buddy arena

    The geometry behind the allocator: the blocks of an arena of [2 ^ j] bytes
    are naturally aligned powers of two of at least [2 ^ i] bytes, do not
    overlap and leave no byte uncovered. *)

From S2P Require Import Prelude MemoryPool.
Import Pool.
Open Scope Z_scope.

Section tiling.
Context (i j base : Z).

Definition covers (b : MemoryBlock) (x : Z) : Prop :=
  mb_addr b <= x < mb_addr b + mb_size b.

Definition disjoint_blocks (b c : MemoryBlock) : Prop :=
  mb_addr b + mb_size b <= mb_addr c \/ mb_addr c + mb_size c <= mb_addr b.

(** A naturally aligned power-of-two block inside the arena. *)
Definition block_ok (b : MemoryBlock) : Prop :=
  exists k q, i <= k <= j /\ 0 <= q /\ mb_size b = 2 ^ k /\
    mb_addr b = base + q * 2 ^ k /\ q * 2 ^ k + 2 ^ k <= 2 ^ j.

Fixpoint pairwise_disjoint (l : list MemoryBlock) : Prop :=
  match l with
  | [] => True
  | b :: l' => Forall (disjoint_blocks b) l' /\ pairwise_disjoint l'
  end.

Record tiling (l : list MemoryBlock) : Prop := {
  tiling_ok : Forall block_ok l;
  tiling_disjoint : pairwise_disjoint l;
  tiling_covers : forall x, base <= x < base + 2 ^ j ->
    exists b, b ∈ l /\ covers b x
}.

(** The buddy of a block, as [_merge_buddies] computes it. *)
Definition buddy_of (b : MemoryBlock) : MemoryBlock :=
  Block (mb_size b) (mb_addr b + buddy_offset base b).

Lemma disjoint_blocks_sym b c : disjoint_blocks b c -> disjoint_blocks c b.
Proof. unfold disjoint_blocks. lia. Qed.

#[global] Instance pairwise_disjoint_perm :
  Proper ((≡ₚ) ==> iff) pairwise_disjoint.
Proof.
  assert (forall l l', l ≡ₚ l' -> pairwise_disjoint l -> pairwise_disjoint l') as H.
  { induction 1 as [|x l l' Hp IH|x y l|l l' l'' Hp IH Hp' IH']; simpl; auto.
    - intros [Hf Hd]. split; [by rewrite <- Hp | auto].
    - rewrite !Forall_cons. intros [[Hyx Hy] [Hx Hd]].
      split_and!; auto using disjoint_blocks_sym. }
  intros l l' Hp. split; eauto. symmetry in Hp. eauto.
Qed.

#[global] Instance tiling_perm : Proper ((≡ₚ) ==> iff) tiling.
Proof.
  assert (forall l l', l ≡ₚ l' -> tiling l -> tiling l') as H.
  { intros l l' Hp [Hok Hd Hc]. split.
    - by rewrite <- Hp.
    - by rewrite <- Hp.
    - intros x Hx. destruct (Hc x Hx) as (b & Hb & ?). exists b.
      by rewrite <- Hp. }
  intros l l' Hp. split; eauto. symmetry in Hp. eauto.
Qed.

Lemma block_ok_pos b : 0 <= i -> block_ok b -> 0 < mb_size b.
Proof.
  intros Hi (k & q & Hk & Hq & -> & _). apply Z.pow_pos_nonneg; lia.
Qed.

Lemma block_ok_bounds b :
  0 <= i -> block_ok b ->
  base <= mb_addr b /\ mb_addr b + mb_size b <= base + 2 ^ j.
Proof.
  intros Hi (k & q & Hk & Hq & -> & -> & Hb).
  assert (0 < 2 ^ k) by (apply Z.pow_pos_nonneg; lia). nia.
Qed.

Lemma tiling_disjoint_2 b c l :
  tiling (b :: l) -> c ∈ l -> disjoint_blocks b c.
Proof.
  intros [_ [Hf _] _] Hc. by eapply Forall_forall in Hf.
Qed.

Lemma tiling_unique_addr b c l :
  0 <= i -> tiling (b :: l) -> c ∈ l -> mb_addr b <> mb_addr c.
Proof.
  intros Hi Ht Hc Heq. pose proof (tiling_disjoint_2 _ _ _ Ht Hc) as Hd.
  destruct Ht as [[Hb Hl]%Forall_cons _ _].
  eapply Forall_forall in Hl; [|exact Hc].
  apply block_ok_pos in Hb, Hl; [|done..].
  unfold disjoint_blocks in Hd. lia.
Qed.

Lemma block_ok_halve k q b :
  0 <= i -> i < k <= j -> 0 <= q -> mb_size b = 2 ^ k ->
  mb_addr b = base + q * 2 ^ k -> q * 2 ^ k + 2 ^ k <= 2 ^ j ->
  block_ok (Block (mb_size b / 2) (mb_addr b)) /\
  block_ok (Block (mb_size b / 2) (mb_addr b + mb_size b / 2)) /\
  mb_size b = 2 * (mb_size b / 2).
Proof.
  intros Hi Hk Hq Hs Ha Hb.
  assert (2 ^ k = 2 * 2 ^ (k - 1)) as E.
  { rewrite <- Z.pow_succ_r by lia. f_equal. lia. }
  assert (mb_size b / 2 = 2 ^ (k - 1)) as Eh.
  { rewrite Hs, E, Z.mul_comm. by rewrite Z.div_mul. }
  rewrite Eh, Ha. split_and!.
  - exists (k - 1), (2 * q). simpl. split_and!; lia.
  - exists (k - 1), (2 * q + 1). simpl. split_and!; lia.
  - lia.
Qed.

Lemma tiling_split b l :
  0 <= i -> tiling (b :: l) -> 2 ^ i <= mb_size b / 2 ->
  tiling (Block (mb_size b / 2) (mb_addr b) ::
          Block (mb_size b / 2) (mb_addr b + mb_size b / 2) :: l).
Proof.
  intros Hi [[Hb Hl]%Forall_cons [Hd Hp] Hc] Hmin.
  pose proof Hb as (k & q & Hk & Hq & Hs & Ha & Hj).
  assert (i < k).
  { destruct (decide (i = k)) as [->|]; [|lia].
    assert (0 < 2 ^ k) by (apply Z.pow_pos_nonneg; lia).
    rewrite Hs in Hmin. pose proof (Z.mul_div_le (2 ^ k) 2). lia. }
  destruct (block_ok_halve k q b) as (H1 & H2 & He); try done; [lia|].
  pose proof (block_ok_pos _ Hi H1) as Hpos. simpl in Hpos.
  split.
  - by repeat constructor.
  - simpl. rewrite Forall_cons. split_and!; [|..|done].
    + unfold disjoint_blocks; simpl; lia.
    + eapply Forall_impl; [exact Hd|]. unfold disjoint_blocks; simpl. lia.
    + eapply Forall_impl; [exact Hd|]. unfold disjoint_blocks; simpl. lia.
  - intros x Hx. destruct (Hc x Hx) as (c & [->|Hin]%elem_of_cons & Hcx).
    + unfold covers in Hcx. destruct (decide (x < mb_addr b + mb_size b / 2)).
      * eexists. split; [by left|]. unfold covers; simpl; lia.
      * eexists. split; [by right; left|]. unfold covers; simpl; lia.
    + exists c. set_solver.
Qed.

(** What [buddy_offset] computes on a well-formed block. *)
Lemma buddy_of_spec k q b :
  0 <= k -> 0 <= q -> mb_size b = 2 ^ k -> mb_addr b = base + q * 2 ^ k ->
  mb_addr (buddy_of b) = base + (if Z.even q then q + 1 else q - 1) * 2 ^ k.
Proof.
  intros Hk Hq Hs Ha. unfold buddy_of, buddy_offset. simpl.
  assert (0 < 2 ^ k) by (apply Z.pow_pos_nonneg; lia).
  rewrite Hs, Ha.
  replace (base + q * 2 ^ k - base) with (q * 2 ^ k) by lia.
  rewrite Z.mul_mod_distr_r by lia.
  rewrite Zmod_even. destruct (Z.even q); simpl; [lia|].
  destruct (Z.eqb_spec (1 * 2 ^ k) 0); lia.
Qed.

Lemma pow2_le_inv a b : 0 <= b -> 2 ^ a <= 2 ^ b -> a <= b.
Proof. intros Hb H. destruct (decide (a <= b)); [done|].
  assert (2 ^ b < 2 ^ a) by (apply Z.pow_lt_mono_r; lia). lia.
Qed.

Lemma even_or_odd q : (Z.even q = true /\ exists m, q = 2 * m) \/
                      (Z.even q = false /\ exists m, q = 2 * m + 1).
Proof.
  destruct (Z.even q) eqn:E; [left|right]; split; try done.
  - apply Z.even_spec in E. destruct E as [m ?]. by exists m.
  - rewrite <- Z.negb_odd in E. apply negb_false_iff, Z.odd_spec in E.
    destruct E as [m ?]. by exists m.
Qed.

(** Two buddies of the arena merge into one block of the arena. *)
Lemma block_ok_merge b c :
  0 <= i -> block_ok b -> block_ok c -> mb_size c = mb_size b ->
  mb_addr c = mb_addr (buddy_of b) ->
  block_ok (Block (mb_size b * 2) (Z.min (mb_addr b) (mb_addr c))).
Proof.
  intros Hi (k & q & Hk & Hq & Hs & Ha & Hj) (k' & q' & Hk' & Hq' & Hs' & Ha' & Hj') E1 E2.
  assert (k' = k) as ->.
  { apply (Z.pow_inj_r 2); lia. }
  rewrite (buddy_of_spec k q b) in E2 by lia.
  assert (0 < 2 ^ k) as Hpos by (apply Z.pow_pos_nonneg; lia).
  assert (2 ^ (k + 1) = 2 * 2 ^ k) as Epow by (rewrite <- Z.pow_succ_r by lia; f_equal; lia).
  rewrite Ha' in E2.
  destruct (even_or_odd q) as [[Ev [m ->]]|[Ev [m ->]]]; rewrite Ev in E2.
  - assert (q' = 2 * m + 1) as -> by nia.
    exists (k + 1), m. simpl. rewrite Epow, Hs, Ha, Ha'.
    assert (k + 1 <= j) by (apply pow2_le_inv; lia || nia).
    split_and!; nia.
  - assert (q' = 2 * m) as -> by nia.
    exists (k + 1), m. simpl. rewrite Epow, Hs, Ha, Ha'.
    assert (k + 1 <= j) by (apply pow2_le_inv; lia || nia).
    split_and!; nia.
Qed.

Lemma buddy_adjacent b :
  0 < mb_size b ->
  Z.abs (mb_addr (buddy_of b) - mb_addr b) = mb_size b.
Proof.
  intros Hp. unfold buddy_of, buddy_offset. simpl. case_if; lia.
Qed.

Lemma tiling_merge b c l :
  0 <= i -> tiling (b :: c :: l) -> mb_size c = mb_size b ->
  mb_addr c = mb_addr (buddy_of b) ->
  tiling (Block (mb_size b * 2) (Z.min (mb_addr b) (mb_addr c)) :: l).
Proof.
  intros Hi [[Hb [Hc Hl]%Forall_cons]%Forall_cons [Hdb [Hdc Hd]] Hcov] Hs Ha.
  pose proof (block_ok_pos _ Hi Hb) as Hpos.
  pose proof (buddy_adjacent b Hpos) as Hadj. rewrite <- Ha in Hadj.
  split.
  - constructor; [|done]. by apply block_ok_merge.
  - simpl. split; [|done]. apply Forall_forall. intros d Hin.
    apply Forall_cons in Hdb as [_ Hdb].
    eapply Forall_forall in Hdb, Hdc; [|exact Hin..].
    eapply Forall_forall in Hl; [|exact Hin]. apply block_ok_pos in Hl; [|done].
    unfold disjoint_blocks in *; simpl. lia.
  - intros x Hx. destruct (Hcov x Hx) as (d & Hin & Hdx).
    rewrite !elem_of_cons in Hin. destruct Hin as [->|[->|Hin]].
    + eexists. split; [by left|]. unfold covers in *; simpl; lia.
    + eexists. split; [by left|]. unfold covers in *; simpl; lia.
    + exists d. split; [by right|done].
Qed.

(** The whole arena has no buddy inside the arena. *)
Lemma buddy_of_top b c :
  0 <= i -> block_ok b -> mb_size b = 2 ^ j -> block_ok c ->
  mb_addr c = mb_addr (buddy_of b) -> False.
Proof.
  intros Hi (k & q & Hk & Hq & Hs & Ha & Hj) Hsj Hc Hac.
  rewrite (buddy_of_spec k q b) in Hac by lia.
  apply block_ok_bounds in Hc as Hcb; [|done].
  apply block_ok_pos in Hc as Hcp; [|done].
  assert (0 < 2 ^ k) by (apply Z.pow_pos_nonneg; lia).
  assert (q = 0) as -> by nia. simpl in Hac. nia.
Qed.

Lemma buddy_of_involutive b :
  0 <= i -> block_ok b -> buddy_of (buddy_of b) = b.
Proof.
  intros Hi (k & q & Hk & Hq & Hs & Ha & Hj).
  destruct b as [sz ad]. simpl in *. subst sz.
  assert (mb_addr (buddy_of (Block (2 ^ k) ad)) =
    base + (if Z.even q then q + 1 else q - 1) * 2 ^ k) as E
    by (apply buddy_of_spec; simpl; lia).
  destruct (buddy_of (Block (2 ^ k) ad)) as [s2 a2] eqn:Eb.
  assert (s2 = 2 ^ k) as -> by (unfold buddy_of in Eb; simpl in Eb; congruence).
  simpl in E. unfold buddy_of at 1. simpl. f_equal.
  assert (mb_addr (buddy_of (Block (2 ^ k) a2)) = ad) as <-; [|done].
  destruct (even_or_odd q) as [[Ev [m ->]]|[Ev [m ->]]]; rewrite Ev in E.
  - rewrite (buddy_of_spec k (2 * m + 1)) by (simpl; lia).
    replace (Z.even (2 * m + 1)) with false; [lia|].
    rewrite Z.add_comm, Z.even_add_mul_2. done.
  - rewrite (buddy_of_spec k (2 * m)) by (simpl; lia).
    replace (Z.even (2 * m)) with true; [lia|].
    by rewrite Z.even_mul.
Qed.

Lemma same_cell P x y : 0 < P -> x * P <= y * P < x * P + P -> x = y.
Proof.
  intros HP [H1 H2]. assert (x <= y) by (apply (Z.mul_le_mono_pos_r _ _ P); lia).
  assert (y < x + 1) by (apply (Z.mul_lt_mono_pos_r P); lia). lia.
Qed.

Lemma block_ok_exp b k :
  0 <= i -> block_ok b -> mb_size b = 2 ^ k ->
  i <= k <= j /\ exists q, 0 <= q /\ mb_addr b = base + q * 2 ^ k /\
    q * 2 ^ k + 2 ^ k <= 2 ^ j.
Proof.
  intros Hi (k0 & q & Hk & Hq & Hs & Ha & Hj) Hs'.
  assert (0 < 2 ^ k0) by (apply Z.pow_pos_nonneg; lia).
  assert (0 <= k).
  { destruct (decide (0 <= k)); [done|]. rewrite Z.pow_neg_r in Hs' by lia. lia. }
  assert (k0 = k) as -> by (apply (Z.pow_inj_r 2); lia). eauto.
Qed.

Lemma smallest_block (l : list MemoryBlock) :
  l <> [] -> exists b, b ∈ l /\ forall c, c ∈ l -> mb_size b <= mb_size c.
Proof.
  induction l as [|b l IH]; [done|]. intros _.
  destruct l as [|b' l'].
  - exists b. split; [by left|]. intros c Hc.
    apply list_elem_of_singleton in Hc as ->. lia.
  - destruct IH as (m & Hm & Hmin); [done|].
    destruct (decide (mb_size b <= mb_size m)).
    + exists b. split; [by left|]. intros c [->|Hc]%elem_of_cons; [lia|].
      specialize (Hmin c Hc). lia.
    + exists m. split; [by right|]. intros c [->|Hc]%elem_of_cons; [lia|auto].
Qed.

Lemma tiling_elem_disjoint l b c :
  tiling l -> b ∈ l -> c ∈ l -> b <> c -> disjoint_blocks b c.
Proof.
  intros Ht Hb Hc Hne. apply elem_of_Permutation in Hb as [l' Hp].
  rewrite Hp in Ht, Hc. apply elem_of_cons in Hc as [->|Hc]; [done|].
  by eapply tiling_disjoint_2.
Qed.

Lemma tiling_elem_ok l b : tiling l -> b ∈ l -> block_ok b.
Proof. intros [Hok _ _] Hb. by eapply Forall_forall in Hok. Qed.

(** A larger block over the buddy of [b] lies over [b] as well. *)
Lemma block_over_buddy b c k q k' q' :
  0 <= k < k' -> 0 <= q -> mb_size b = 2 ^ k -> mb_addr b = base + q * 2 ^ k ->
  mb_size c = 2 ^ k' -> mb_addr c = base + q' * 2 ^ k' ->
  covers c (mb_addr (buddy_of b)) -> covers c (mb_addr b).
Proof.
  intros Hk Hq Hs Ha Hs' Ha'. unfold covers.
  rewrite (buddy_of_spec k q b) by lia. rewrite Hs', Ha', Ha.
  assert (0 < 2 ^ k) by (apply Z.pow_pos_nonneg; lia).
  assert (2 ^ k' = 2 * 2 ^ (k' - k - 1) * 2 ^ k) as ->.
  { rewrite <- Z.pow_succ_r, <- Z.pow_add_r by lia. f_equal. lia. }
  set (w := 2 ^ (k' - k - 1)) in *. set (P := 2 ^ k) in *. intros Hc.
  replace (q' * (2 * w * P)) with ((2 * (q' * w)) * P) in * by ring.
  set (X := q' * w) in *.
  destruct (even_or_odd q) as [[Ev [m ->]]|[Ev [m ->]]]; rewrite Ev in Hc.
  - assert (2 * X <= 2 * m + 1) by (apply (Z.mul_le_mono_pos_r _ _ P); lia).
    assert (2 * m + 1 < 2 * X + 2 * w) by (apply (Z.mul_lt_mono_pos_r P); lia).
    nia.
  - assert (2 * X <= 2 * m + 1 - 1) by (apply (Z.mul_le_mono_pos_r _ _ P); lia).
    assert (2 * m + 1 - 1 < 2 * X + 2 * w) by (apply (Z.mul_lt_mono_pos_r P); lia).
    nia.
Qed.

(** With no pair of buddies left to merge, the arena is one block. *)
Lemma coalesced_tiling_single l :
  0 <= i -> 0 <= j -> tiling l ->
  (forall b, b ∈ l -> mb_size b < 2 ^ j -> buddy_of b ∉ l) ->
  l = [Block (2 ^ j) base].
Proof.
  intros Hi Hj0 Ht Hno.
  assert (0 < 2 ^ j) by (apply Z.pow_pos_nonneg; lia).
  destruct (tiling_covers _ Ht base) as (b0 & Hb0 & _); [lia|].
  destruct (smallest_block l) as (b & Hb & Hmin); [by intros ->; set_solver|].
  pose proof (tiling_elem_ok _ _ Ht Hb) as (k & q & Hk & Hq & Hs & Ha & Hj).
  assert (0 < 2 ^ k) by (apply Z.pow_pos_nonneg; lia).
  destruct (decide (k = j)) as [->|Hne].
  - assert (q = 0) as -> by nia.
    apply elem_of_Permutation in Hb as [l' Hp].
    destruct l' as [|c l'].
    + apply Permutation_singleton_r in Hp as ->. destruct b; simpl in *. f_equal. f_equal; lia.
    + exfalso. rewrite Hp in Ht. pose proof (tiling_disjoint_2 b c (c :: l') Ht) as Hd.
      assert (block_ok c) as Hc by (apply (tiling_elem_ok _ _ Ht); set_solver).
      pose proof (block_ok_bounds c Hi Hc). pose proof (block_ok_pos c Hi Hc).
      specialize (Hd ltac:(by left)). unfold disjoint_blocks in Hd. lia.
  - exfalso. assert (2 ^ k < 2 ^ j) by (apply Z.pow_lt_mono_r; lia).
    assert (2 ^ j = 2 * 2 ^ (j - k - 1) * 2 ^ k) as Ej.
    { rewrite <- Z.pow_succ_r, <- Z.pow_add_r by lia. f_equal. lia. }
    destruct (tiling_covers _ Ht (mb_addr (buddy_of b))) as (c & Hc & Hcov).
    { rewrite (buddy_of_spec k q b) by lia. set (w := 2 ^ (j - k - 1)) in *.
      set (P := 2 ^ k) in *. rewrite Ej in Hj |- *.
      assert (q + 1 <= 2 * w) by (apply (Z.mul_le_mono_pos_r _ _ P); lia).
      destruct (even_or_odd q) as [[Ev [m ->]]|[Ev [m ->]]]; rewrite Ev; nia. }
    pose proof (tiling_elem_ok _ _ Ht Hc) as (k' & q' & Hk' & Hq' & Hs' & Ha' & Hj').
    specialize (Hmin c Hc). rewrite Hs, Hs' in Hmin. apply pow2_le_inv in Hmin; [|lia].
    destruct (decide (k = k')) as [->|].
    + apply (Hno b); [done|lia|]. replace (buddy_of b) with c; [done|].
      pose proof (buddy_of_spec k' q b ltac:(lia) Hq Hs Ha) as E.
      unfold covers in Hcov. rewrite E, Ha', Hs' in Hcov.
      assert (q' = if Z.even q then q + 1 else q - 1) as Hq'e
        by (apply (same_cell (2 ^ k')); lia).
      destruct c as [cs ca], (buddy_of b) as [bs ba] eqn:Eb. simpl in *.
      assert (bs = mb_size b) by (unfold buddy_of in Eb; congruence).
      f_equal; [congruence|]. by rewrite E, Ha', Hq'e.
    + assert (covers c (mb_addr b)) as Hcb by (eapply (block_over_buddy b c k q k' q'); eauto; lia).
      assert (b <> c) as Hbc.
      { intros ->. rewrite Hs in Hs'. apply Z.pow_inj_r in Hs'; lia. }
      pose proof (tiling_elem_disjoint _ _ _ Ht Hb Hc Hbc) as Hd.
      unfold disjoint_blocks, covers in *. lia.
Qed.
End tiling.
