(* ===== verification/MemoryPoolCorrect.v ===== *)
(** * Correctness of the buddy allocator

    The invariant of [TensorMemoryPool], its preservation by every operation,
    and the functional behaviour of [allocate] and [free]. *)

From S2P Require Import Prelude MemoryPool BuddyTiling.
Import Pool.
Open Scope Z_scope.

(** ** The invariant *)

Definition flat (fl : dict Z (dict Z MemoryBlock)) : list MemoryBlock :=
  concat (map (fun kv => dvalues kv.2) fl).

Definition free_blocks (p : TensorMemoryPool) : list MemoryBlock := flat (free_lists p).
Definition live_blocks (p : TensorMemoryPool) : list MemoryBlock := dvalues (allocated_blocks p).
Definition all_blocks (p : TensorMemoryPool) : list MemoryBlock := free_blocks p ++ live_blocks p.

(** The dictionary filed under [size]: keyed by address, all of that size. *)
Definition list_ok (size : Z) (d : dict Z MemoryBlock) : Prop :=
  NoDup (dkeys d) /\ forall a b, (a, b) ∈ d -> mb_addr b = a /\ mb_size b = size.

Record shape (i j : Z) (p : TensorMemoryPool) : Prop := {
  shape_exp : 0 <= i <= j;
  shape_min : min_block_size p = 2 ^ i;
  shape_max : max_block_size p = 2 ^ j;
  shape_levels : forall k, i <= k <= j -> is_Some (dget (free_lists p) (2 ^ k));
  shape_lists : forall size d, dget (free_lists p) size = Some d -> list_ok size d;
  shape_nodup : NoDup (dkeys (free_lists p));
  shape_alloc_nodup : NoDup (dkeys (allocated_blocks p));
  shape_alloc : forall a b, (a, b) ∈ allocated_blocks p -> mb_addr b = a
}.

(** [inv i j p l]: the pool is well formed while the blocks [l] are in flight,
    that is, out of every dictionary and not yet filed again. *)
Definition inv (i j : Z) (p : TensorMemoryPool) (l : list MemoryBlock) : Prop :=
  shape i j p /\ tiling i j (base_address p) (l ++ all_blocks p).

Definition pool_ok (p : TensorMemoryPool) : Prop := exists i j, inv i j p [].

(** No free block below the top size has a free buddy. *)
Definition coalesced (j : Z) (p : TensorMemoryPool) : Prop :=
  forall b, b ∈ free_blocks p -> mb_size b < 2 ^ j ->
    buddy_of (base_address p) b ∉ free_blocks p.

(** The attributes the operations leave alone. *)
Definition same_frame (p p' : TensorMemoryPool) : Prop :=
  max_block_size p' = max_block_size p /\ min_block_size p' = min_block_size p /\
  base_tensor p' = base_tensor p /\ base_address p' = base_address p.

Lemma same_frame_refl p : same_frame p p.
Proof. done. Qed.

Lemma same_frame_trans p q r : same_frame p q -> same_frame q r -> same_frame p r.
Proof. unfold same_frame. intuition congruence. Qed.

#[export] Hint Resolve same_frame_refl : hcu.

(** ** Flattening the free lists *)

Lemma flat_dget fl size d :
  dget fl size = Some d -> flat fl ≡ₚ dvalues d ++ flat (ddel fl size).
Proof.
  induction fl as [|[s0 d0] fl IH]; simpl; [done|].
  case_decide; intros; simplify_eq; [done|].
  unfold flat in *. simpl. rewrite (IH ltac:(done)).
  rewrite !app_assoc. apply Permutation_app_tail, Permutation_app_comm.
Qed.

Lemma flat_dset fl size d d' :
  dget fl size = Some d -> flat (dset fl size d') ≡ₚ dvalues d' ++ flat (ddel fl size).
Proof.
  induction fl as [|[s0 d0] fl IH]; simpl; [done|].
  case_decide; intros; simplify_eq; [done|].
  unfold flat in *. simpl. rewrite (IH ltac:(done)).
  rewrite !app_assoc. apply Permutation_app_tail, Permutation_app_comm.
Qed.

Lemma flat_elem fl b :
  NoDup (dkeys fl) ->
  b ∈ flat fl <-> exists size d, dget fl size = Some d /\ b ∈ dvalues d.
Proof.
  intros Hnd. unfold flat. rewrite list_elem_of_In, in_concat. split.
  - intros (vs & Hvs & Hb). apply in_map_iff in Hvs as ([s d] & <- & Hin).
    exists s, d. simpl in Hb. apply list_elem_of_In in Hin, Hb. split; [|done].
    by apply elem_dget.
  - intros (s & d & Hd & Hb). exists (dvalues d). split; [|by apply list_elem_of_In].
    apply in_map_iff. exists (s, d). split; [done|].
    by apply list_elem_of_In, dget_elem.
Qed.

Lemma dvalues_elem {K} (d : dict K MemoryBlock) b :
  b ∈ dvalues d <-> exists a, (a, b) ∈ d.
Proof.
  unfold dvalues. rewrite list_elem_of_fmap. split.
  - intros ([a b'] & -> & ?). eauto.
  - intros [a ?]. by exists (a, b).
Qed.

Lemma list_ok_push size d b :
  list_ok size d -> mb_size b = size -> list_ok size (dset d (mb_addr b) b).
Proof.
  intros [Hnd Hd] Hs. split; [by apply NoDup_dset|].
  intros a c Hin. apply elem_dget in Hin; [|by apply NoDup_dset].
  rewrite dget_dset in Hin. case_decide; simplify_eq; [done|].
  apply Hd. by apply dget_elem.
Qed.

Lemma list_ok_del size d a : list_ok size d -> list_ok size (ddel d a).
Proof.
  intros [Hnd Hd]. split; [by apply NoDup_ddel|].
  intros a' b Hin. apply Hd. eapply elem_of_sublist; [exact Hin|].
  apply ddel_sublist.
Qed.

(** Replacing the dictionary of one size keeps the shape. *)
Lemma shape_set_free_list i j p size d d' :
  shape i j p -> dget (free_lists p) size = Some d -> list_ok size d' ->
  shape i j (set_free_lists (dset (free_lists p) size d') p).
Proof.
  intros [He Hmin Hmax Hlv Hls Hnd Hand Hal] Hd Hd'. split; simpl; try done.
  - intros k Hk. rewrite dget_dset. case_decide; [eauto|by apply Hlv].
  - intros s e. rewrite dget_dset. case_decide; intros; simplify_eq; eauto.
  - by apply NoDup_dset.
Qed.

(** ** Filing and removing free blocks *)

Lemma push_free_spec i j p b l :
  inv i j p (b :: l) ->
  exists p', push_free (mb_size b) b p = (Ok tt, p') /\ inv i j p' l /\
    same_frame p p' /\ allocated_blocks p' = allocated_blocks p /\
    free_blocks p' ≡ₚ b :: free_blocks p.
Proof.
  intros [Hsh Ht]. pose proof Hsh as [He _ _ Hlv Hls Hnd _ _].
  assert (block_ok i j (base_address p) b) as (k & q & Hk & _ & Hs & _)
    by (eapply tiling_elem_ok; [exact Ht|by left]).
  destruct (Hlv k Hk) as [d Hd]. rewrite <- Hs in Hd.
  assert (mb_addr b ∉ dkeys d) as Hfresh.
  { intros Hin. apply key_dget_Some in Hin as [c Hc].
    apply dget_elem in Hc as Hc'. apply (Hls _ _ Hd) in Hc' as [Hac _].
    eapply (tiling_unique_addr i j (base_address p) b c); [lia|exact Ht| |done].
    unfold all_blocks. rewrite !elem_of_app. right. left. apply flat_elem; [done|].
    exists (mb_size b), d. split; [done|]. apply dvalues_elem. eauto using dget_elem. }
  eexists. unfold push_free, free_list_at, set_free_list. munfold. rewrite Hd.
  split; [done|].
  assert (free_blocks (set_free_lists
      (dset (free_lists p) (mb_size b) (dset d (mb_addr b) b)) p) ≡ₚ b :: free_blocks p) as Hf.
  { unfold free_blocks. simpl. rewrite (flat_dset _ _ d) by done.
    rewrite (flat_dget _ _ _ Hd), dset_notin by done.
    unfold dvalues. rewrite map_app. simpl.
    rewrite <- app_assoc. simpl. by rewrite <- Permutation_middle. }
  split_and!; [split|..]; try done.
  - eapply shape_set_free_list; eauto using list_ok_push.
  - unfold all_blocks in *. rewrite Hf. simpl.
    by rewrite <- Permutation_middle.
Qed.

(** A free block found under its address is taken out. *)
Lemma delete_free_spec i j p size d a b l :
  inv i j p l -> dget (free_lists p) size = Some d -> dget d a = Some b ->
  mb_size b = size /\ mb_addr b = a /\
  exists p', delete_free size a p = (Ok tt, p') /\ inv i j p' (b :: l) /\
    same_frame p p' /\ allocated_blocks p' = allocated_blocks p /\
    free_blocks p ≡ₚ b :: free_blocks p'.
Proof.
  intros [Hsh Ht] Hd Hb. pose proof Hsh as [He _ _ Hlv Hls Hnd _ _].
  destruct (Hls _ _ Hd) as [Hdn Hdl].
  destruct (Hdl a b (dget_elem _ _ _ Hb)) as [Ha Hs].
  split_and!; [done..|]. eexists.
  unfold delete_free, free_list_at, set_free_list, dmem. munfold.
  rewrite Hd, Hb. split; [done|].
  assert (free_blocks p ≡ₚ b :: free_blocks
      (set_free_lists (dset (free_lists p) size (ddel d a)) p)) as Hf.
  { unfold free_blocks. simpl. rewrite (flat_dset _ _ d) by done.
    rewrite (flat_dget _ _ _ Hd).
    rewrite (dvalues_perm _ _ (ddel_perm _ _ _ Hb)). done. }
  split_and!; [split|..]; try done.
  - eapply shape_set_free_list; eauto using list_ok_del.
  - unfold all_blocks in *. rewrite Hf in Ht. simpl in *.
    by rewrite <- Permutation_middle in Ht.
Qed.

(** [popitem] takes a free block of the wanted size. *)
Lemma pop_free_spec i j p size d a b d' :
  inv i j p [] -> dget (free_lists p) size = Some d -> dpopitem d = Some ((a, b), d') ->
  mb_size b = size /\
  exists p', set_free_list size d' p = (Ok tt, p') /\ inv i j p' [b] /\
    same_frame p p' /\ allocated_blocks p' = allocated_blocks p /\
    free_blocks p ≡ₚ b :: free_blocks p'.
Proof.
  intros [Hsh Ht] Hd Hpop. apply dpopitem_app in Hpop as ->.
  pose proof Hsh as [He _ _ Hlv Hls Hnd _ _].
  destruct (Hls _ _ Hd) as [Hdn Hdl].
  destruct (Hdl a b) as [Ha Hs]; [set_solver|].
  split; [done|]. eexists. split; [done|].
  assert (free_blocks p ≡ₚ b :: free_blocks
      (set_free_lists (dset (free_lists p) size d') p)) as Hf.
  { unfold free_blocks. simpl. rewrite (flat_dset _ _ (d' ++ [(a, b)])) by done.
    rewrite (flat_dget _ _ _ Hd). unfold dvalues. rewrite map_app. simpl.
    rewrite <- app_assoc. simpl. by rewrite <- Permutation_middle. }
  split_and!; [split|..]; try done.
  - eapply shape_set_free_list; eauto. split.
    + unfold dkeys in *. rewrite map_app in Hdn. by apply NoDup_app in Hdn as [? _].
    + intros a' b' Hin. apply Hdl. set_solver.
  - unfold all_blocks in *. rewrite Hf in Ht. done.
Qed.

(** ** Splitting *)

Lemma inv_flight_not_free i j p b l c :
  inv i j p (b :: l) -> c ∈ free_blocks p -> mb_addr b <> mb_addr c.
Proof.
  intros [Hsh Ht] Hc. eapply (tiling_unique_addr i j); [destruct Hsh; lia|exact Ht|].
  unfold all_blocks. set_solver.
Qed.

Lemma inv_free_ok i j p l c :
  inv i j p l -> c ∈ free_blocks p -> block_ok i j (base_address p) c.
Proof.
  intros [Hsh Ht] Hc. eapply tiling_elem_ok; [exact Ht|]. unfold all_blocks. set_solver.
Qed.

(** Filing a block whose buddy is not free keeps the pool coalesced. *)
Lemma coalesced_push i j p p' b l :
  inv i j p' l -> base_address p' = base_address p ->
  free_blocks p' ≡ₚ b :: free_blocks p -> coalesced j p ->
  buddy_of (base_address p) b ∉ b :: free_blocks p -> coalesced j p'.
Proof.
  intros Hi Hb Hf Hco Hnb c Hc Hlt. pose proof (inv_free_ok _ _ _ _ _ Hi Hc) as Hok.
  assert (0 <= i) as Hi0 by (destruct Hi as [[]]; lia). rewrite Hb in *. rewrite Hf in *.
  apply elem_of_cons in Hc as [->|Hc]; [done|].
  intros [Heq|Hin]%elem_of_cons; [|exact (Hco c Hc Hlt Hin)].
  apply Hnb. rewrite <- Heq, (buddy_of_involutive i j) by done. by right.
Qed.

Lemma buddy_of_upper_half base s a k q :
  0 <= k -> 0 <= q -> s = 2 ^ k -> a = base + 2 * q * 2 ^ k ->
  buddy_of base (Block s (a + s)) = Block s a.
Proof.
  intros Hk Hq -> ->.
  pose proof (buddy_of_spec base k (2 * q + 1)
    (Block (2 ^ k) (base + 2 * q * 2 ^ k + 2 ^ k))) as E.
  replace (Z.even (2 * q + 1)) with false in E
    by (rewrite Z.add_comm, Z.even_add_mul_2; done).
  destruct (buddy_of _ _) as [s' a'] eqn:Eb.
  assert (s' = 2 ^ k) as -> by (unfold buddy_of in Eb; simpl in Eb; congruence).
  simpl in E. f_equal. rewrite E by lia. lia.
Qed.

Lemma pow2_half k : 0 < k -> 2 ^ k / 2 = 2 ^ (k - 1).
Proof.
  intros Hk. replace k with ((k - 1) + 1) at 1 by lia.
  rewrite Z.pow_add_r, Z.div_mul by lia. done.
Qed.

Lemma split_block_spec i j fuel r k p b l :
  inv i j p (b :: l) -> mb_size b = 2 ^ k -> i <= r <= k ->
  (Z.to_nat (k - r) < fuel)%nat ->
  exists p', split_block fuel b (2 ^ r) p = (Ok (Block (2 ^ r) (mb_addr b)), p') /\
    inv i j p' (Block (2 ^ r) (mb_addr b) :: l) /\ same_frame p p' /\
    allocated_blocks p' = allocated_blocks p /\ (coalesced j p -> coalesced j p').
Proof.
  revert k p b. induction fuel as [|fuel IH]; intros k p b Hinv Hs Hr Hf; [lia|].
  pose proof Hinv as [Hsh Ht]. pose proof Hsh as [He Hmin _ _ _ _ _ _].
  simpl. munfold. rewrite Hs, Hmin.
  destruct (decide (r = k)) as [->|Hne].
  { replace (2 ^ k <? 2 ^ k) with false by lia. simpl. exists p.
    destruct b as [bs ba]. simpl in *. subst bs. split_and!; auto with hcu. }
  assert (2 ^ r < 2 ^ k) by (apply Z.pow_lt_mono_r; lia).
  replace (2 ^ r <? 2 ^ k) with true by lia.
  rewrite pow2_half by lia.
  assert (2 ^ i <= 2 ^ (k - 1)) by (apply Z.pow_le_mono_r; lia).
  replace (2 ^ i <=? 2 ^ (k - 1)) with true by lia. simpl.
  apply tiling_split in Ht; [|lia|rewrite Hs, pow2_half; lia].
  rewrite Hs, pow2_half in Ht by lia.
  set (lo := Block (2 ^ (k - 1)) (mb_addr b)) in *.
  set (hi := Block (2 ^ (k - 1)) (mb_addr b + 2 ^ (k - 1))) in *.
  destruct (push_free_spec i j p hi (lo :: l)) as (p1 & E1 & Hi1 & Hf1 & Ha1 & Hfb).
  { split; [done|]. simpl. by rewrite (Permutation_swap lo hi). }
  change (2 ^ (k - 1)) with (mb_size hi) at 1. rewrite E1.
  destruct (IH (k - 1) p1 lo) as (p2 & E2 & Hi2 & Hf2 & Ha2 & Hc2); [done..|lia|lia|].
  exists p2. simpl in E2. rewrite E2.
  split_and!; [done|done|by eapply same_frame_trans|congruence|].
  intros Hco. apply Hc2. eapply coalesced_push; [exact Hi1|apply Hf1|done|done|].
  destruct Hinv as [_ Ht0].
  destruct (block_ok_exp i j (base_address p) b k) as (_ & q & Hq & Ha0 & _);
    [lia|by eapply tiling_elem_ok; [exact Ht0|by left]|done|].
  assert (buddy_of (base_address p) hi = lo) as ->.
  { apply (buddy_of_upper_half _ _ _ (k - 1) q); try lia.
    rewrite Ha0. replace (2 ^ k) with (2 * 2 ^ (k - 1)); [lia|].
    rewrite <- Z.pow_succ_r by lia. f_equal. lia. }
  rewrite <- Hfb. intros Hin. by apply (inv_flight_not_free _ _ _ _ _ _ Hi1) in Hin.
Qed.

(** ** Merging *)

Lemma free_block_filed i j p c :
  shape i j p -> c ∈ free_blocks p ->
  exists d, dget (free_lists p) (mb_size c) = Some d /\ dget d (mb_addr c) = Some c.
Proof.
  intros [_ _ _ _ Hls Hnd _ _] Hc. apply flat_elem in Hc as (s & d & Hd & Hc); [|done].
  apply dvalues_elem in Hc as [a Hc]. destruct (Hls _ _ Hd) as [Hdn Hdl].
  destruct (Hdl _ _ Hc) as [<- <-]. exists d. split; [done|]. by apply elem_dget.
Qed.

Lemma coalesced_remove j p p' b :
  base_address p' = base_address p -> free_blocks p ≡ₚ b :: free_blocks p' ->
  coalesced j p -> coalesced j p'.
Proof.
  intros Hb Hf Hco c Hc Hlt. rewrite Hb. intros Hin.
  eapply (Hco c); [|done|]; rewrite Hf; by right.
Qed.

(** A block on its way back has no free buddy: the state a merge ends in. *)
Definition lonely (p : TensorMemoryPool) (b : MemoryBlock) : Prop :=
  buddy_of (base_address p) b ∉ b :: free_blocks p.

Lemma lonely_top i j p b l :
  inv i j p (b :: l) -> mb_size b = 2 ^ j -> lonely p b.
Proof.
  intros Hinv Hs. pose proof Hinv as [Hsh Ht].
  assert (0 <= i) as Hi by (destruct Hsh; lia).
  assert (block_ok i j (base_address p) b) as Hb by (eapply tiling_elem_ok; [exact Ht|by left]).
  intros [Heq|Hin]%elem_of_cons.
  - by eapply (buddy_of_top i j _ b b); [..|rewrite Heq].
  - eapply (buddy_of_top i j _ b); [done..|by eapply inv_free_ok|done].
Qed.

Lemma lonely_not_filed i j p b l d :
  inv i j p (b :: l) -> dget (free_lists p) (mb_size b) = Some d ->
  dget d (mb_addr (buddy_of (base_address p) b)) = None -> lonely p b.
Proof.
  intros Hinv Hd Hn. pose proof Hinv as [Hsh Ht].
  assert (0 < mb_size b) as Hpos.
  { eapply (block_ok_pos i j (base_address p)); [destruct Hsh; lia|].
    eapply tiling_elem_ok; [exact Ht|by left]. }
  intros [Heq|Hin]%elem_of_cons.
  - pose proof (buddy_adjacent (base_address p) b Hpos) as Ha. rewrite Heq in Ha. lia.
  - destruct (free_block_filed _ _ _ _ Hsh Hin) as (d' & Hd' & Hc). simpl in Hd', Hc.
    simpl in Hn. congruence.
Qed.

Lemma merge_loop_spec i j rounds k p b l :
  inv i j p (b :: l) -> mb_size b = 2 ^ k ->
  exists p' b', merge_loop rounds b p = (Ok b', p') /\ inv i j p' (b' :: l) /\
    same_frame p p' /\ allocated_blocks p' = allocated_blocks p /\
    (coalesced j p -> coalesced j p') /\ (j - k <= Z.of_nat rounds -> lonely p' b').
Proof.
  revert k p b. induction rounds as [|rounds IH]; intros k p b Hinv Hs;
    pose proof Hinv as [Hsh Ht]; pose proof Hsh as [He _ _ Hlv _ _ _ _];
    (assert (block_ok i j (base_address p) b) as Hb
      by (eapply tiling_elem_ok; [exact Ht|by left]));
    (destruct (block_ok_exp i j (base_address p) b k) as [Hk _]; [lia|done|done|]).
  all: simpl; munfold.
  - exists p, b. split_and!; auto with hcu. intros Hle.
    eapply lonely_top; [exact Hinv|]. rewrite Hs. f_equal. lia.
  - destruct (Hlv k Hk) as [d Hd]. rewrite <- Hs in Hd.
    unfold free_list_at at 1. rewrite Hd.
    destruct (dget d _) as [buddy|] eqn:Ebud.
    + destruct (delete_free_spec i j p _ _ _ _ _ Hinv Hd Ebud)
        as (Hbs & Hba & p1 & E1 & Hi1 & Hf1 & Ha1 & Hfb).
      rewrite Hbs, Hba, E1. simpl.
      set (m := Block (mb_size b * 2) _).
      destruct (IH (k + 1) p1 m) as (p2 & b2 & E2 & Hi2 & Hf2 & Ha2 & Hc2 & Hl2).
      { destruct Hi1 as [Hsh1 Ht1]. split; [done|]. unfold m. rewrite <- Hba.
        apply (tiling_merge _ _ _ b buddy); [lia| |done|].
        - by rewrite (Permutation_swap buddy b).
        - rewrite Hba. destruct Hf1 as (_ & _ & _ & ->). done. }
      { unfold m. simpl. rewrite Hs, Z.pow_add_r by lia. done. }
      exists p2, b2. split_and!; [done|done|by eapply same_frame_trans|congruence| |].
      * intros Hco. apply Hc2. eapply coalesced_remove; [apply Hf1|done|done].
      * intros Hle. apply Hl2. lia.
    + exists p, b. split_and!; auto with hcu. intros _.
      eapply lonely_not_filed; [exact Hinv|exact Hd|exact Ebud].
Qed.

(** ** Freeing *)

Lemma inv_take_live i j p a b :
  inv i j p [] -> dget (allocated_blocks p) a = Some b ->
  inv i j (set_allocated (ddel (allocated_blocks p) a) p) [b].
Proof.
  intros [[He Hmin Hmax Hlv Hls Hnd Hand Hal] Ht] Hb. split; [split; simpl; try done|].
  - by apply NoDup_ddel.
  - intros a' b' Hin. apply Hal. eapply elem_of_sublist; [exact Hin|]. apply ddel_sublist.
  - unfold all_blocks, live_blocks in *. simpl in *.
    rewrite (dvalues_perm _ _ (ddel_perm _ _ _ Hb)) in Ht. simpl in Ht.
    by rewrite <- Permutation_middle in Ht.
Qed.

Lemma free_spec i j p a b :
  inv i j p [] -> dget (allocated_blocks p) a = Some b ->
  exists p', free a p = (Ok tt, p') /\ inv i j p' [] /\ same_frame p p' /\
    allocated_blocks p' = ddel (allocated_blocks p) a /\
    (coalesced j p -> j - i <= Z.of_nat MAX_MERGE_DEPTH -> coalesced j p').
Proof.
  intros Hinv Hb. pose proof (inv_take_live _ _ _ _ _ Hinv Hb) as Hinv1.
  unfold free, merge_buddies. munfold. rewrite Hb.
  set (p1 := set_allocated _ p) in *.
  assert (block_ok i j (base_address p1) b) as (k & q & Hk & _ & Hs & _).
  { destruct Hinv1 as [_ Ht]. eapply tiling_elem_ok; [exact Ht|by left]. }
  destruct (merge_loop_spec i j MAX_MERGE_DEPTH k p1 b [] Hinv1 Hs)
    as (p2 & b2 & -> & Hi2 & Hf2 & Ha2 & Hc2 & Hl2).
  destruct (push_free_spec _ _ _ _ _ Hi2) as (p3 & -> & Hi3 & Hf3 & Ha3 & Hfb3).
  exists p3. split_and!; [done|done| |by rewrite Ha3, Ha2|].
  - apply (same_frame_trans p p2); [exact Hf2|done].
  - intros Hco Hd. eapply coalesced_push; [exact Hi3|apply Hf3|done|by apply Hc2|].
    apply Hl2. lia.
Qed.

(** ** Allocating *)

Lemma log2_fuel k : 0 <= k -> size_fuel (2 ^ k) = (Z.to_nat k + 2)%nat.
Proof. intros Hk. unfold size_fuel. by rewrite Z.log2_pow2. Qed.

Lemma inv_file_live i j p b :
  inv i j p [b] ->
  dget (allocated_blocks p) (mb_addr b) = None /\
  inv i j (set_allocated (dset (allocated_blocks p) (mb_addr b) b) p) [].
Proof.
  intros [[He Hmin Hmax Hlv Hls Hnd Hand Hal] Ht].
  assert (mb_addr b ∉ dkeys (allocated_blocks p)) as Hfresh.
  { intros [c Hc]%key_dget_Some. apply dget_elem in Hc.
    eapply (tiling_unique_addr i j (base_address p) b c); [lia|exact Ht| |].
    - unfold all_blocks, live_blocks. apply elem_of_app. right.
      apply dvalues_elem. eauto.
    - symmetry. by apply Hal. }
  split; [by apply dget_None|]. split; [split; simpl; try done|].
  - by apply NoDup_dset.
  - intros a c. rewrite dset_notin by done.
    rewrite elem_of_app, list_elem_of_singleton. intros [?|?]; simplify_eq; auto.
  - unfold all_blocks, live_blocks in *. simpl in *. rewrite dset_notin by done.
    unfold dvalues in *. rewrite map_app. simpl. rewrite app_assoc.
    by rewrite <- Permutation_cons_append.
Qed.

Lemma free_smaller i j p c d :
  inv i j p [] -> 0 <= c -> dget (free_lists p) (2 ^ c) = Some d -> dpopitem d = None ->
  (forall b, b ∈ free_blocks p -> mb_size b < 2 ^ (c + 1)) ->
  forall b, b ∈ free_blocks p -> mb_size b < 2 ^ c.
Proof.
  intros Hinv Hc Hd Hpop Hall b Hb. specialize (Hall b Hb).
  pose proof (inv_free_ok _ _ _ _ _ Hinv Hb) as (k & q & Hk & _ & Hs & _).
  destruct Hinv as [Hsh _]. apply dpopitem_None in Hpop as ->.
  destruct (free_block_filed _ _ _ _ Hsh Hb) as (d & Hd' & Hbd).
  assert (0 <= i) by (destruct Hsh; lia).
  destruct (decide (k = c)) as [->|Hne].
  { rewrite Hs in Hd'. rewrite Hd in Hd'. by simplify_eq. }
  rewrite Hs in *. destruct (decide (k < c)); [by apply Z.pow_lt_mono_r; lia|].
  assert (2 ^ (c + 1) <= 2 ^ k) by (apply Z.pow_le_mono_r; lia). lia.
Qed.

(** What [allocate] does to the pool once it has found a block. *)
Definition allocated_at (p p' : TensorMemoryPool) (a size : Z) : Prop :=
  dget (allocated_blocks p) a = None /\
  allocated_blocks p' = dset (allocated_blocks p) a (Block size a).

Lemma allocate_loop_spec i j fuel r c p :
  inv i j p [] -> i <= r <= c -> c <= j + 1 -> (Z.to_nat (j + 1 - c) < fuel)%nat ->
  (exists a p', allocate_loop fuel (2 ^ r) (2 ^ c) p = (Ok a, p') /\ inv i j p' [] /\
     same_frame p p' /\ allocated_at p p' a (2 ^ r) /\ (coalesced j p -> coalesced j p')) \/
  (allocate_loop fuel (2 ^ r) (2 ^ c) p = (Err (Exn ValueError "Insufficient memory"), p) /\
     forall b, b ∈ free_blocks p -> mb_size b < 2 ^ c).
Proof.
  revert c. induction fuel as [|fuel IH]; intros c Hinv Hr Hc Hf; [lia|].
  pose proof Hinv as [Hsh Ht]. pose proof Hsh as [He Hmin Hmax Hlv _ _ _ _].
  simpl. munfold. rewrite Hmax.
  destruct (decide (c = j + 1)) as [->|Hne].
  { assert (2 ^ j < 2 ^ (j + 1)) by (apply Z.pow_lt_mono_r; lia).
    replace (2 ^ (j + 1) <=? 2 ^ j) with false by lia. right. split; [done|].
    intros b Hb. destruct (inv_free_ok _ _ _ _ _ Hinv Hb) as (k & q & Hk & _ & -> & _).
    apply Z.pow_lt_mono_r; lia. }
  assert (2 ^ c <= 2 ^ j) by (apply Z.pow_le_mono_r; lia).
  replace (2 ^ c <=? 2 ^ j) with true by lia.
  destruct (Hlv c) as [d Hd]; [lia|]. unfold free_list_at. rewrite Hd.
  destruct (dpopitem d) as [[[a b] d']|] eqn:Epop.
  - left. destruct (pop_free_spec _ _ _ _ _ _ _ _ Hinv Hd Epop)
      as (Hs & p1 & E1 & Hi1 & Hf1 & Ha1 & Hfb1). rewrite E1, Hs, log2_fuel by lia.
    destruct (split_block_spec i j (Z.to_nat c + 2) r c p1 b []) as
      (p2 & E2 & Hi2 & Hf2 & Ha2 & Hc2); [done|done|lia|lia|].
    rewrite E2. simpl. eexists _, _. split; [done|].
    apply inv_file_live in Hi2 as [Hn Hi2]. simpl in Hn, Hi2.
    split_and!; [done|by apply (same_frame_trans p p1)| |].
    + split; [by rewrite <- Ha1, <- Ha2|]. simpl. by rewrite Ha2, Ha1.
    + intros Hco. apply Hc2. eapply coalesced_remove; [apply Hf1|done|done].
  - assert (2 ^ c * 2 = 2 ^ (c + 1)) as -> by (rewrite Z.pow_add_r by lia; done).
    destruct (IH (c + 1)) as [?|[-> Hall]]; [done|lia|lia|lia|by left|].
    right. split; [done|]. by eapply free_smaller; eauto; lia.
Qed.

(** ** Rounding and construction *)

Lemma round_to_power_of_two_spec n :
  1 <= n ->
  exists k, 0 <= k /\ round_to_power_of_two n = 2 ^ k /\ n <= 2 ^ k < 2 * n.
Proof.
  intros Hn. unfold round_to_power_of_two, bit_length.
  destruct (Z.eqb_spec (n - 1) 0) as [E|E].
  - exists 0. change (Z.shiftl 1 0) with 1. change (2 ^ 0) with 1. lia.
  - rewrite Z.abs_eq by lia. pose proof (Z.log2_nonneg (n - 1)).
    pose proof (Z.log2_spec (n - 1) ltac:(lia)) as Hl.
    rewrite Z.pow_succ_r in Hl by lia.
    exists (Z.log2 (n - 1) + 1). rewrite Z.shiftl_1_l, Z.pow_add_r by lia. lia.
Qed.

Lemma init_loop_spec fuel i k fl :
  0 <= i <= k -> (Z.to_nat (k - i) + 2 <= fuel)%nat -> NoDup (dkeys fl) ->
  (forall s d, dget fl s = Some d -> d = []) ->
  exists fl', initialize_free_lists_loop fuel (2 ^ i) (2 ^ k) fl = Ok fl' /\
    NoDup (dkeys fl') /\ (forall s d, dget fl' s = Some d -> d = []) /\
    (forall m, i <= m <= k -> is_Some (dget fl' (2 ^ m))) /\
    (forall s, is_Some (dget fl s) -> is_Some (dget fl' s)).
Proof.
  revert k fl. induction fuel as [|fuel IH]; intros k fl Hik Hf Hnd He; [lia|].
  simpl. assert (2 ^ i <= 2 ^ k) by (apply Z.pow_le_mono_r; lia).
  replace (2 ^ i <=? 2 ^ k) with true by lia.
  assert (NoDup (dkeys (dset fl (2 ^ k) []))) as Hnd' by by apply NoDup_dset.
  assert (forall s d, dget (dset fl (2 ^ k) []) s = Some d -> d = []) as He'.
  { intros s d. rewrite dget_dset. case_decide; [congruence|apply He]. }
  assert (forall s, is_Some (dget fl s) -> is_Some (dget (dset fl (2 ^ k) []) s)) as Hk'.
  { intros s Hs. rewrite dget_dset. case_decide; [eauto|done]. }
  destruct (decide (i = k)) as [->|Hne].
  - destruct fuel as [|fuel]; [lia|]. exists (dset fl (2 ^ k) []). simpl.
    assert (0 < 2 ^ k) by (apply Z.pow_pos_nonneg; lia).
    assert (2 ^ k / 2 < 2 ^ k) by (apply Z.div_lt; lia).
    replace (2 ^ k <=? 2 ^ k / 2) with false by lia. split_and!; try done.
    intros m Hm. replace m with k by lia. rewrite dget_dset_eq. eauto.
  - rewrite pow2_half by lia.
    destruct (IH (k - 1) (dset fl (2 ^ k) [])) as (fl' & E & Hn & Hv & Hl & Hkeep);
      [lia|lia|done|done|].
    exists fl'. split_and!; [done|done|done| |by eauto].
    intros m Hm. destruct (decide (m = k)) as [->|]; [|apply Hl; lia].
    apply Hkeep. rewrite dget_dset_eq. eauto.
Qed.

Lemma tiling_whole i j base : 0 <= i <= j -> tiling i j base [Block (2 ^ j) base].
Proof.
  intros Hij. assert (0 < 2 ^ j) by (apply Z.pow_pos_nonneg; lia). split.
  - constructor; [|done]. exists j, 0. simpl. lia.
  - simpl. done.
  - intros x Hx. eexists. split; [by left|]. done.
Qed.

(** The pool right after construction. *)
Definition fresh_pool (p : TensorMemoryPool) : Prop :=
  free_blocks p = [Block (max_block_size p) (base_address p)] /\ allocated_blocks p = [].

Lemma init_spec mx mn ptr :
  0 < mn <= mx ->
  exists p i j, init mx mn ptr = Ok p /\ inv i j p [] /\ coalesced j p /\ fresh_pool p /\
    max_block_size p = round_to_power_of_two mx /\
    min_block_size p = round_to_power_of_two mn /\ base_address p = ptr /\
    base_tensor p = Some (4 * (max_block_size p / 4)).
Proof.
  intros Hm. unfold init.
  replace ((mx <=? 0) || (mn <=? 0)) with false by lia.
  replace (mx <? mn) with false by lia.
  destruct (round_to_power_of_two_spec mx ltac:(lia)) as (j & Hj & -> & Hjb).
  destruct (round_to_power_of_two_spec mn ltac:(lia)) as (i & Hi & -> & Hib).
  assert (i <= j) as Hij.
  { destruct (decide (i <= j)); [done|].
    assert (2 ^ (j + 1) <= 2 ^ i) by (apply Z.pow_le_mono_r; lia).
    rewrite Z.pow_add_r in * by lia. lia. }
  unfold initialize_free_lists. rewrite log2_fuel by lia.
  destruct (init_loop_spec (Z.to_nat j + 2) i j []) as (fl & E & Hn & Hv & Hl & _);
    [lia|lia|constructor|done|].
  unfold mbind, result_bind.
  replace (initialize_free_lists_loop _ _ _ _) with (Ok fl) by (symmetry; exact E). unfold allocate_pinned_memory. simpl.
  destruct (Hl j ltac:(lia)) as [d Hd]. rewrite Hd. pose proof (Hv _ _ Hd) as ->.
  set (b0 := Block (2 ^ j) ptr). simpl. eexists. exists i, j. split; [done|].
  assert (flat fl = []) as Hflat.
  { destruct (flat fl) as [|b l] eqn:Ef; [done|]. exfalso.
    assert (b ∈ flat fl) as Hb by (rewrite Ef; by left).
    apply flat_elem in Hb as (s & d & Hd' & Hb); [|done].
    rewrite (Hv _ _ Hd') in Hb. by apply not_elem_of_nil in Hb. }
  assert (flat (dset fl (2 ^ j) [(ptr, b0)]) = [b0]) as Hfl'.
  { apply Permutation_singleton_r. rewrite (flat_dset _ _ []) by done.
    pose proof (flat_dget _ _ _ Hd) as Hp. rewrite Hflat in Hp. simpl in Hp.
    by rewrite <- Hp. }
  split_and!; try done.
  - split; [split; simpl; try done|].
    + intros k Hk. rewrite dget_dset. case_decide; [eauto|by apply Hl].
    + intros s d. rewrite dget_dset. case_decide; intros; simplify_eq.
      * split; simpl; [apply NoDup_singleton|].
        intros a b Hin. apply list_elem_of_singleton in Hin. by simplify_eq.
      * rewrite (Hv s d) by done. split; [constructor|]. set_solver.
    + by apply NoDup_dset.
    + constructor.
    + set_solver.
    + unfold all_blocks, free_blocks, live_blocks. simpl. rewrite Hfl'.
      by apply tiling_whole.
  - intros b. unfold free_blocks. simpl. rewrite Hfl'.
    rewrite list_elem_of_singleton. intros ->. simpl. lia.
Qed.

(** ** The allocator as a transition system *)

Inductive reachable (mx mn ptr : Z) : TensorMemoryPool -> Prop :=
  | reach_init p : init mx mn ptr = Ok p -> reachable mx mn ptr p
  | reach_allocate p size r p' :
      reachable mx mn ptr p -> allocate size p = (r, p') -> reachable mx mn ptr p'
  | reach_free p addr r p' :
      reachable mx mn ptr p -> free addr p = (r, p') -> reachable mx mn ptr p'.

Lemma allocate_spec i j p size :
  inv i j p [] -> 0 < size ->
  let required := round_to_power_of_two (Z.max size (min_block_size p)) in
  (exists a p', allocate size p = (Ok a, p') /\ inv i j p' [] /\ same_frame p p' /\
     allocated_at p p' a required /\ (coalesced j p -> coalesced j p')) \/
  (raises ValueError (allocate size p).1 /\ (allocate size p).2 = p /\
     forall b, b ∈ free_blocks p -> mb_size b < required).
Proof.
  intros Hinv Hs required. unfold allocate.
  replace (size <=? 0) with false by lia. munfold. fold required.
  pose proof Hinv as [[He Hmin Hmax _ _ _ _ _] _].
  assert (1 <= 2 ^ i) by (pose proof (Z.pow_pos_nonneg 2 i); lia).
  destruct (round_to_power_of_two_spec (Z.max size (min_block_size p)))
    as (r & Hr0 & Er & Hrb); [lia|]. fold required in Er. rewrite Er.
  assert (i <= r) by (apply pow2_le_inv; lia).
  rewrite Hmax. destruct (2 ^ j <? 2 ^ r) eqn:Ec; bool_prop.
  - right. split_and!; [by eexists|done|]. intros b Hb.
    pose proof (inv_free_ok _ _ _ _ _ Hinv Hb) as (k & q & Hk & _ & -> & _).
    assert (2 ^ k <= 2 ^ j) by (apply Z.pow_le_mono_r; lia). lia.
  - assert (r <= j) by (apply pow2_le_inv; lia).
    rewrite log2_fuel by lia.
    destruct (allocate_loop_spec i j (Z.to_nat j + 2) r r p) as [?|[-> ?]];
      [done|lia|lia|lia|by left|]. right. split_and!; [by eexists|done|done].
Qed.

Lemma allocate_nonpositive size p :
  size <= 0 -> allocate size p =
    (Err (Exn ValueError "Allocation size must be positive"), p).
Proof. intros H. unfold allocate. replace (size <=? 0) with true by lia. done. Qed.

Lemma free_unknown a p :
  dget (allocated_blocks p) a = None ->
  free a p = (Err (Exn ValueError "Invalid address to free"), p).
Proof. intros H. unfold free. munfold. by rewrite H. Qed.

(** The invariant of every reachable pool. *)
Lemma reachable_inv mx mn ptr p :
  0 < mn <= mx -> reachable mx mn ptr p ->
  exists i j, inv i j p [] /\ max_block_size p = round_to_power_of_two mx /\
    min_block_size p = round_to_power_of_two mn /\ base_address p = ptr /\
    base_tensor p = Some (4 * (max_block_size p / 4)) /\
    (j - i <= Z.of_nat MAX_MERGE_DEPTH -> coalesced j p).
Proof.
  intros Hm Hr. induction Hr as [p Hp|p size r p' Hr IH Ha|p addr r p' Hr IH Hf].
  - destruct (init_spec mx mn ptr Hm) as (p0 & i & j & E & Hi & Hc & _ & H1 & H2 & H3 & H4).
    rewrite Hp in E. simplify_eq. exists i, j. auto 10.
  - destruct IH as (i & j & Hi & H1 & H2 & H3 & H4 & Hc). exists i, j.
    destruct (decide (0 < size)) as [Hs|Hs].
    2:{ rewrite allocate_nonpositive in Ha by lia. simplify_eq. auto 10. }
    destruct (allocate_spec _ _ _ _ Hi Hs)
      as [(a & p1 & E & Hi1 & (F1 & F2 & F3 & F4) & _ & Hc1)|(_ & E & _)].
    + rewrite E in Ha. simplify_eq. split_and!; [done|congruence..|by auto].
    + rewrite Ha in E. simpl in E. subst p'. auto 10.
  - destruct IH as (i & j & Hi & H1 & H2 & H3 & H4 & Hc). exists i, j.
    destruct (dget (allocated_blocks p) addr) as [b|] eqn:Eb.
    2:{ rewrite free_unknown in Hf by done. simplify_eq. auto 10. }
    destruct (free_spec _ _ _ _ _ Hi Eb) as (p1 & E & Hi1 & (F1 & F2 & F3 & F4) & _ & Hc1).
    rewrite E in Hf. simplify_eq. split_and!; [done|congruence..|by auto].
Qed.

(** C5: in every state the pool can reach from its constructor through any
    sequence of [allocate] and [free] calls, successful or not, two different
    live allocations never share a byte, every live block lies inside the
    arena of [max_block_size] bytes at [base_address], and no byte of the arena
    is lost: each one belongs to a live block or to a filed free block. *)
Theorem pool_safe mx mn ptr p :
  0 < mn <= mx -> reachable mx mn ptr p ->
  (forall a b a' b', dget (allocated_blocks p) a = Some b ->
     dget (allocated_blocks p) a' = Some b' -> a <> a' -> disjoint_blocks b b') /\
  (forall a b, dget (allocated_blocks p) a = Some b ->
     mb_addr b = a /\ ptr <= a /\ a + mb_size b <= ptr + max_block_size p) /\
  (forall x, ptr <= x < ptr + max_block_size p ->
     exists b, (b ∈ live_blocks p \/ b ∈ free_blocks p) /\ covers b x).
Proof.
  intros Hm Hr. destruct (reachable_inv _ _ _ _ Hm Hr) as (i & j & [Hsh Ht] & _ & _ & <- & _).
  pose proof Hsh as [He _ Hmax _ _ _ _ Hal]. simpl in Ht.
  assert (forall a b, dget (allocated_blocks p) a = Some b -> b ∈ all_blocks p) as Hlive.
  { intros a b Hb%dget_elem. apply elem_of_app. right. apply dvalues_elem. eauto. }
  split_and!.
  - intros a b a' b' Hb Hb' Hne. eapply (tiling_elem_disjoint i j); eauto.
    intros ->. apply dget_elem, Hal in Hb, Hb'. congruence.
  - intros a b Hb. pose proof (tiling_elem_ok _ _ _ _ _ Ht (Hlive _ _ Hb)) as Hok.
    apply block_ok_bounds in Hok; [|lia]. apply dget_elem, Hal in Hb. lia.
  - intros x Hx. rewrite Hmax in Hx. destruct (tiling_covers _ _ _ _ Ht x Hx) as (b & Hb & ?).
    exists b. split; [|done]. apply elem_of_app in Hb. tauto.
Qed.

(** C29: [allocate] is total on a well-formed pool.  For a positive size it
    either returns a fresh address whose block has the requested size rounded
    up to a power of two (never below the request nor the minimum block), or it
    raises [ValueError], leaves the pool as it was, and then no free block is
    large enough; a non-positive size is refused. *)
Theorem allocate_correct p size :
  pool_ok p ->
  let required := round_to_power_of_two (Z.max size (min_block_size p)) in
  (exists a p', allocate size p = (Ok a, p') /\ pool_ok p' /\ 0 < size <= required /\
     allocated_at p p' a required) \/
  (raises ValueError (allocate size p).1 /\ (allocate size p).2 = p /\
     (size <= 0 \/ forall b, b ∈ free_blocks p -> mb_size b < required)).
Proof.
  intros (i & j & Hi) required. destruct (decide (0 < size)) as [Hs|Hs].
  - destruct (allocate_spec _ _ _ _ Hi Hs)
      as [(a & p' & E & Hi' & _ & Ha & _)|(He & E & Hn)]; [left|right; by auto].
    exists a, p'. destruct (round_to_power_of_two_spec (Z.max size (min_block_size p)))
      as (k & _ & Ek & Hk); [lia|]. fold required in Ek.
    split_and!; [done|by exists i, j|done|lia|done].
  - right. rewrite allocate_nonpositive by lia. split_and!; [by eexists|done|left; lia].
Qed.

(** C22: [free] gives back exactly the block of the address: the call succeeds
    on a live address, removes it and no other allocation, and keeps the pool
    well formed; on any other address it raises [ValueError] and changes
    nothing. *)
Theorem free_correct p a :
  pool_ok p ->
  match dget (allocated_blocks p) a with
  | Some _ => exists p', free a p = (Ok tt, p') /\ pool_ok p' /\
      allocated_blocks p' = ddel (allocated_blocks p) a /\
      dget (allocated_blocks p') a = None
  | None => raises ValueError (free a p).1 /\ (free a p).2 = p
  end.
Proof.
  intros (i & j & Hi). destruct (dget _ a) as [b|] eqn:Eb.
  - destruct (free_spec _ _ _ _ _ Hi Eb) as (p' & E & Hi' & _ & Ha & _).
    exists p'. split_and!; [done|by exists i, j|done|].
    rewrite Ha. apply dget_ddel_eq. apply Hi.
  - rewrite free_unknown by done. split; [by eexists|done].
Qed.

(** Buddies always coalesce while the pool spans at most
    [MAX_MERGE_DEPTH] sizes: once every allocation of a pool with
    [max_block_size <= 2 ^ 30 * min_block_size] has been freed, in any order,
    the pool is back to the single free block it was built with. *)
Theorem free_all_restores mx mn ptr p :
  0 < mn <= mx -> reachable mx mn ptr p ->
  max_block_size p <= 2 ^ 30 * min_block_size p ->
  allocated_blocks p = [] -> free_blocks p = [Block (max_block_size p) (base_address p)].
Proof.
  intros Hm Hr Hle Hal. destruct (reachable_inv _ _ _ _ Hm Hr)
    as (i & j & [Hsh Ht] & _ & _ & _ & _ & Hc).
  pose proof Hsh as [He Hmin Hmax _ _ _ _ _]. rewrite Hmin, Hmax in *.
  rewrite <- Z.pow_add_r in Hle by lia. apply pow2_le_inv in Hle; [|lia].
  unfold all_blocks, live_blocks in Ht. rewrite Hal, app_nil_r in Ht. simpl in Ht.
  apply (coalesced_tiling_single i); [lia..|done|].
  apply Hc. unfold MAX_MERGE_DEPTH. lia.
Qed.

(** ** Witnesses *)

(** A pool of 64 bytes in blocks of at least 8, after a few calls. *)
Definition demo_pool : TensorMemoryPool :=
  match init 64 8 4096 with Ok p => p | Err _ => MkPool 0 0 [] [] None 0 end.
Definition demo_pool1 : TensorMemoryPool := (allocate 10 demo_pool).2.
Definition demo_pool2 : TensorMemoryPool := (allocate 8 demo_pool1).2.
Definition demo_pool3 : TensorMemoryPool := (free 4096 demo_pool2).2.
Definition demo_pool4 : TensorMemoryPool := (free 4112 demo_pool3).2.

Example demo_pool2_blocks :
  allocated_blocks demo_pool2 = [(4096, Block 16 4096); (4112, Block 8 4112)] /\
  free_blocks demo_pool2 = [Block 32 4128; Block 8 4120].
Proof. vm_compute. done. Qed.

Lemma demo_pool2_reachable : reachable 64 8 4096 demo_pool2.
Proof.
  eapply (reach_allocate _ _ _ demo_pool1 8); [|apply surjective_pairing].
  eapply (reach_allocate _ _ _ demo_pool 10); [|apply surjective_pairing].
  by apply reach_init.
Qed.

Lemma demo_pool4_reachable : reachable 64 8 4096 demo_pool4.
Proof.
  eapply (reach_free _ _ _ demo_pool3 4112); [|apply surjective_pairing].
  eapply (reach_free _ _ _ demo_pool2 4096); [|apply surjective_pairing].
  apply demo_pool2_reachable.
Qed.

Lemma demo_pool2_ok : pool_ok demo_pool2.
Proof.
  destruct (reachable_inv 64 8 4096 demo_pool2) as (i & j & Hi & _);
    [lia|apply demo_pool2_reachable|]. by exists i, j.
Qed.

Lemma pool_safe_witness : disjoint_blocks (Block 16 4096) (Block 8 4112).
Proof.
  destruct (pool_safe 64 8 4096 demo_pool2) as [H _]; [lia|apply demo_pool2_reachable|].
  by apply (H 4096 _ 4112); vm_compute.
Defined.

Lemma allocate_correct_witness :
  exists p', allocate 20 demo_pool2 = (Ok 4128, p') /\ pool_ok p' /\
    allocated_at demo_pool2 p' 4128 32.
Proof.
  destruct (allocate_correct demo_pool2 20 demo_pool2_ok)
    as [(a & p' & E & Hok & _ & Hat)|[[msg E] _]]; [|vm_compute in E; discriminate].
  assert (a = 4128) as ->.
  { apply (f_equal fst) in E. vm_compute in E. congruence. }
  exists p'. split; [exact E|]. split; [exact Hok|exact Hat].
Defined.

Lemma free_correct_witness : exists p', free 4096 demo_pool2 = (Ok tt, p') /\ pool_ok p'.
Proof.
  pose proof (free_correct demo_pool2 4096 demo_pool2_ok) as H.
  change (dget (allocated_blocks demo_pool2) 4096) with (Some (Block 16 4096)) in H.
  destruct H as (p' & Hf & Hok & _). exists p'. split; assumption.
Defined.

Lemma free_all_restores_witness : free_blocks demo_pool4 = [Block 64 4096].
Proof.
  apply (free_all_restores 64 8 4096 demo_pool4);
    [lia|apply demo_pool4_reachable|vm_compute; congruence|reflexivity].
Defined.

(** The merge loop stops after [MAX_MERGE_DEPTH] rounds, so a pool that
    spans more sizes does not coalesce: with a [2 ^ 31] byte arena and one-byte
    blocks, allocating and freeing one byte leaves two free halves and a
    request for the whole arena, which a fresh pool serves, is refused. *)
Theorem merge_depth_fragments :
  exists p1 p2 p3,
    init (2 ^ 31) 1 0 = Ok p1 /\ (allocate (2 ^ 31) p1).1 = Ok 0 /\
    allocate 1 p1 = (Ok 0, p2) /\ free 0 p2 = (Ok tt, p3) /\
    allocated_blocks p3 = [] /\
    free_blocks p3 = [Block (2 ^ 30) (2 ^ 30); Block (2 ^ 30) 0] /\
    raises ValueError (allocate (2 ^ 31) p3).1.
Proof.
  eexists _, _, _. split; [vm_compute; reflexivity|]. split; [vm_compute; reflexivity|].
  split; [vm_compute; reflexivity|]. split; [vm_compute; reflexivity|].
  split; [reflexivity|]. split; [vm_compute; reflexivity|].
  eexists. vm_compute. reflexivity.
Qed.

(** The pinned tensor is sized in whole float32 elements, so a pool of one
    or two bytes hands out memory the tensor does not own, while from four
    bytes on the tensor has exactly [max_block_size] bytes.  Either way the
    arena is filed as one free block. *)
Theorem pinned_tensor_backing mx mn ptr p :
  0 < mn <= mx -> init mx mn ptr = Ok p ->
  fresh_pool p /\ base_tensor p = Some (if max_block_size p <? 4 then 0 else max_block_size p).
Proof.
  intros Hm Hp. destruct (init_spec mx mn ptr Hm) as (p0 & i & j & E & _ & _ & Hf & H1 & _ & _ & H4).
  rewrite Hp in E. simplify_eq. split; [done|]. rewrite H4. f_equal.
  destruct (round_to_power_of_two_spec mx) as (k & Hk & Ek & _); [lia|].
  rewrite H1, Ek. destruct (2 ^ k <? 4) eqn:E4; bool_prop.
  - rewrite Z.div_small; [lia|]. pose proof (Z.pow_nonneg 2 k). lia.
  - assert (2 <= k) by (apply pow2_le_inv; [lia|]; done).
    replace k with ((k - 2) + 2) by lia. rewrite Z.pow_add_r by lia.
    change (2 ^ 2) with 4. rewrite Z.div_mul by lia. lia.
Qed.

Lemma pinned_tensor_backing_witness :
  exists p, init 2 1 100 = Ok p /\ base_tensor p = Some 0 /\ free_blocks p = [Block 2 100].
Proof.
  eexists. split; [vm_compute; reflexivity|]. split; [|reflexivity].
  eapply (pinned_tensor_backing 2 1 100); [lia|reflexivity].
Defined.
