(* ===== verification/TensorStore.v ===== *)
(** * The memory pool as a tensor store

    The contract the KV-transfer engine relies on: the pool with its pinned
    memory implements a finite map from addresses to tensors.  The abstract
    store is a [gmap]; the simulation relates every operation of the pool to a
    step of the abstract store. *)

From S2P Require Import Prelude MemoryPool BuddyTiling MemoryPoolCorrect.
Import Pool.
Open Scope Z_scope.

(** ** Reading and writing bytes *)

Lemma read_write_same mem a data :
  read_bytes (write_bytes mem a data) a (Z.of_nat (length data)) = data.
Proof.
  unfold read_bytes, write_bytes. rewrite Nat2Z.id.
  apply list_eq. intros k. rewrite list_lookup_fmap.
  destruct (decide (k < length data)%nat) as [Hk|Hk].
  - rewrite lookup_seq_lt by done. simpl.
    replace ((a <=? a + Z.of_nat k) && (a + Z.of_nat k <? a + Z.of_nat (length data)))
      with true by lia.
    replace (Z.to_nat (a + Z.of_nat k - a)) with k by lia.
    destruct (lookup_lt_is_Some_2 data k Hk) as [x ->]. done.
  - rewrite lookup_seq_ge by lia. simpl. symmetry. apply lookup_ge_None. lia.
Qed.

Lemma read_write_disjoint mem a data a' n :
  a + Z.of_nat (length data) <= a' \/ a' + n <= a ->
  read_bytes (write_bytes mem a data) a' n = read_bytes mem a' n.
Proof.
  intros Hd. unfold read_bytes. apply map_ext_in. intros k Hk%in_seq.
  unfold write_bytes. case_if; [lia|done].
Qed.

Lemma on_pool_run {A} (m : M TensorMemoryPool A) w r p :
  m (w_pool w) = (r, p) -> on_pool m w = (r, World p (w_mem w)).
Proof. unfold on_pool. by intros ->. Qed.

(** Two live blocks never overlap. *)
Lemma live_blocks_disjoint i j p a b a' b' :
  inv i j p [] -> dget (allocated_blocks p) a = Some b ->
  dget (allocated_blocks p) a' = Some b' -> a <> a' -> disjoint_blocks b b'.
Proof.
  intros [Hsh Ht] Hb Hb' Hne.
  apply dget_elem in Hb, Hb'. pose proof (shape_alloc _ _ _ Hsh) as Hal.
  eapply (tiling_elem_disjoint i j); [exact Ht| | |].
  - unfold all_blocks, live_blocks. simpl. apply elem_of_app. right.
    apply dvalues_elem. eauto.
  - unfold all_blocks, live_blocks. simpl. apply elem_of_app. right.
    apply dvalues_elem. eauto.
  - intros ->. apply Hal in Hb, Hb'. congruence.
Qed.

Section refinement.
Context {dtype : Type} `{EqDecision dtype} (itemsize : dtype -> Z).
Context (frombuffer : dtype -> Z -> Z -> option exn).

Abbreviation tensor := (tensor dtype).

Definition nbytes (t : tensor) : Z := itemsize (t_dtype _ t) * numel (t_shape _ t).

(** What torch guarantees of a tensor: its storage has [nbytes] bytes. *)
Definition tensor_ok (t : tensor) : Prop := Z.of_nat (length (t_data _ t)) = nbytes t.

(** ** Concrete operations *)

Inductive op :=
  | Store (t : tensor)
  | Load (addr : Z) (ty : dtype) (sh : list Z)
  | Release (addr : Z).

Inductive outcome :=
  | OAddr (addr : Z)
  | OTensor (t : tensor)
  | OUnit.

Definition exec (o : op) : M world outcome :=
  match o with
  | Store t => a ← store_tensor dtype itemsize frombuffer t; mret (OAddr a)
  | Load a ty sh => t ← load_tensor dtype itemsize frombuffer a ty sh; mret (OTensor t)
  | Release a => on_pool (free a) ;; mret OUnit
  end.

(** ** The abstract store *)

Inductive spec_step : op -> result outcome -> gmap Z tensor -> gmap Z tensor -> Prop :=
  | spec_store t a σ :
      σ !! a = None -> t_is_cuda _ t = true ->
      spec_step (Store t) (Ok (OAddr a)) σ (<[a := t]> σ)
  | spec_store_fail t e σ : spec_step (Store t) (Err e) σ σ
  | spec_load a t σ :
      σ !! a = Some t ->
      spec_step (Load a (t_dtype _ t) (t_shape _ t)) (Ok (OTensor t)) σ σ
  | spec_load_other a ty sh r σ :
      (forall t, σ !! a = Some t -> ~ (ty = t_dtype _ t /\ sh = t_shape _ t)) ->
      spec_step (Load a ty sh) r σ σ
  | spec_release a σ : spec_step (Release a) (Ok OUnit) σ (delete a σ)
  | spec_release_fail a e σ :
      σ !! a = None -> spec_step (Release a) (Err e) σ σ.

(** ** The simulation relation *)

Definition stored (w : world) (a : Z) (t : tensor) : Prop :=
  exists b, dget (allocated_blocks (w_pool w)) a = Some b /\ mb_addr b = a /\
    nbytes t <= mb_size b /\ t_is_cuda _ t = true /\
    frombuffer (t_dtype _ t) (mb_size b) (numel (t_shape _ t)) = None /\
    read_bytes (w_mem w) a (nbytes t) = t_data _ t.

Definition rep (w : world) (σ : gmap Z tensor) : Prop :=
  pool_ok (w_pool w) /\ forall a t, σ !! a = Some t -> stored w a t.

(** A pool change that keeps the blocks of the stored tensors. *)
Lemma rep_pool w p' σ σ' :
  rep w σ -> pool_ok p' -> σ' ⊆ σ ->
  (forall a, is_Some (σ' !! a) ->
     dget (allocated_blocks p') a = dget (allocated_blocks (w_pool w)) a) ->
  rep (World p' (w_mem w)) σ'.
Proof.
  intros [_ Hst] Hok Hsub Hsame. split; [done|]. intros a t Ht.
  destruct (Hst a t) as (b & Hb & Hrest); [by eapply lookup_weaken|].
  exists b. simpl. rewrite Hsame by eauto. done.
Qed.

Lemma rep_not_live w σ a :
  rep w σ -> dget (allocated_blocks (w_pool w)) a = None -> σ !! a = None.
Proof.
  intros [_ Hst] Hn. destruct (σ !! a) as [t|] eqn:E; [|done].
  destruct (Hst a t E) as (b & Hb & _). congruence.
Qed.

(** Writing a fresh block does not disturb the tensors already stored. *)
Lemma stored_write w i j p' a b data c t :
  stored w c t -> inv i j p' [] -> c <> a ->
  dget (allocated_blocks p') a = Some b -> mb_addr b = a ->
  dget (allocated_blocks p') c = dget (allocated_blocks (w_pool w)) c ->
  Z.of_nat (length data) <= mb_size b ->
  stored (World p' (write_bytes (w_mem w) a data)) c t.
Proof.
  intros (bc & Hbc & Hac & Hn & Hcu & Hfb & Hrd) Hinv Hne Hb Hab Hsame Hlen.
  exists bc. simpl. rewrite Hsame. split_and!; try done.
  rewrite read_write_disjoint; [done|].
  rewrite <- Hsame in Hbc.
  pose proof (live_blocks_disjoint _ _ _ _ _ _ _ Hinv Hb Hbc) as Hd.
  specialize (Hd ltac:(done)). unfold disjoint_blocks in Hd. lia.
Qed.

Lemma exec_release_sim w w' σ a r :
  rep w σ -> exec (Release a) w = (r, w') ->
  exists σ', spec_step (Release a) r σ σ' /\ rep w' σ'.
Proof.
  intros Hrep. pose proof Hrep as [[i [j Hinv]] Hst].
  simpl. unfold on_pool. munfold.
  destruct (dget (allocated_blocks (w_pool w)) a) as [b|] eqn:Hb.
  - destruct (free_spec _ _ _ _ _ Hinv Hb) as (p' & -> & Hinv' & _ & Hal & _).
    intros; simplify_eq. exists (delete a σ). split; [constructor|].
    eapply rep_pool; [done|by exists i, j|apply delete_subseteq|].
    intros c [t Hc]. apply lookup_delete_Some in Hc as [Hne _].
    rewrite Hal. by apply dget_ddel_ne.
  - unfold free. munfold. rewrite Hb. intros; simplify_eq. exists σ.
    split; [constructor; by eapply rep_not_live|]. by destruct w.
Qed.

Lemma exec_load_sim w w' σ a ty sh r :
  rep w σ -> exec (Load a ty sh) w = (r, w') ->
  exists σ', spec_step (Load a ty sh) r σ σ' /\ rep w' σ'.
Proof.
  intros Hrep Hex. exists σ.
  assert (w' = w) as ->.
  { simpl in Hex. unfold load_tensor in Hex. munfold.
    repeat case_match; by simplify_eq. }
  split; [|done]. destruct (σ !! a) as [t|] eqn:Et.
  2:{ constructor. congruence. }
  destruct (decide (ty = t_dtype _ t /\ sh = t_shape _ t)) as [[-> ->]|Hne].
  2:{ constructor. intros t' ?. by simplify_eq. }
  destruct Hrep as [_ Hst]. destruct (Hst a t Et) as (b & Hb & Hab & Hn & Hcu & Hfb & Hrd).
  simpl in Hex. unfold load_tensor in Hex. munfold. rewrite Hb in Hex.
  unfold nbytes in *. rewrite (Z.mul_comm (itemsize _)) in Hn, Hrd.
  replace (mb_size b <? _) with false in Hex by lia. rewrite Hfb in Hex.
  rewrite Hab, Hrd in Hex. simplify_eq.
  replace (Tensor dtype true _ _ _) with t; [by constructor|].
  destruct t; simpl in *. congruence.
Qed.

Lemma exec_store_sim w w' σ t r :
  tensor_ok t -> rep w σ -> exec (Store t) w = (r, w') ->
  exists σ', spec_step (Store t) r σ σ' /\ rep w' σ'.
Proof.
  intros Htok Hrep. pose proof Hrep as [[i [j Hinv]] Hst].
  assert (forall e w'', rep w'' σ -> (Err e, w'') = (r, w') ->
    exists σ', spec_step (Store t) r σ σ' /\ rep w' σ') as Hfail.
  { intros e w'' Hr ?. simplify_eq. exists σ. split; [constructor|done]. }
  simpl. unfold store_tensor. destruct (t_is_cuda _ t) eqn:Hcu; simpl.
  2:{ munfold. by apply Hfail. }
  fold (nbytes t). munfold.
  destruct (decide (0 < nbytes t)) as [Hpos|Hpos].
  2:{ erewrite on_pool_run.
      2:{ unfold allocate. replace (nbytes t <=? 0) with true by lia. done. }
      apply Hfail. by destruct w. }
  destruct (allocate_spec _ _ _ (nbytes t) Hinv Hpos)
    as [(a & p' & Ea & Hinv' & _ & [Hna Hal] & _)|([msg Ee] & Ep & _)].
  2:{ erewrite on_pool_run by apply surjective_pairing. rewrite Ee, Ep.
      apply Hfail. by destruct w. }
  rewrite (on_pool_run _ _ _ _ Ea).
  set (req := round_to_power_of_two _) in *.
  assert (nbytes t <= req) as Hreq.
  { destruct (round_to_power_of_two_spec (Z.max (nbytes t) (min_block_size (w_pool w))))
      as (k & _ & Ek & Hk); [lia|]. fold req in Ek. lia. }
  assert (dget (allocated_blocks p') a = Some (Block req a)) as Hb
    by (rewrite Hal; apply dget_dset_eq).
  assert (forall c, is_Some (σ !! c) -> c <> a) as Hne.
  { intros c [t' Ht'] ->. apply (rep_not_live _ _ _ Hrep) in Hna. congruence. }
  assert (forall c, is_Some (σ !! c) -> dget (allocated_blocks p') c =
    dget (allocated_blocks (w_pool w)) c) as Hkeep.
  { intros c Hc%Hne. rewrite Hal. by apply dget_dset_ne. }
  erewrite on_pool_run by (unfold block_at; simpl; by rewrite Hb). simpl.
  replace (req <? nbytes t) with false by lia.
  destruct (frombuffer _ _ _) as [[cls msg]|] eqn:Hfb.
  - destruct (decide (cls = ValueError)) as [->|Hc].
    + destruct (free_spec _ _ _ _ _ Hinv' Hb) as (p2 & Ef & Hinv2 & _ & Hal2 & _).
      rewrite (on_pool_run (free a) (World p' (w_mem w)) _ _ Ef).
      apply Hfail. eapply (rep_pool w); [done|by exists i, j|done|].
      intros c Hc. rewrite Hal2, dget_ddel_ne by (symmetry; by apply Hne). by apply Hkeep.
    + intros Hex. apply (Hfail (Exn cls msg) (World p' (w_mem w))).
      * eapply (rep_pool w); [done|by exists i, j|done|done].
      * by destruct cls.
  - intros; simplify_eq. exists (<[a := t]> σ). split.
    { constructor; [by eapply rep_not_live|done]. }
    split; [by exists i, j|]. intros c t' Hc.
    apply lookup_insert_Some in Hc as [[<- <-]|[Hca Hc]].
    + exists (Block req a). simpl. split_and!; try done.
      rewrite <- Htok. apply read_write_same.
    + apply (stored_write w i j p' a (Block req a)); eauto; simpl; by rewrite Htok.
Qed.

Definition op_ok (o : op) : Prop :=
  match o with Store t => tensor_ok t | _ => True end.

Lemma exec_sim w w' σ o r :
  op_ok o -> rep w σ -> exec o w = (r, w') ->
  exists σ', spec_step o r σ σ' /\ rep w' σ'.
Proof.
  intros Hok Hrep Hex. destruct o.
  - eapply exec_store_sim; eauto.
  - eapply exec_load_sim; eauto.
  - eapply exec_release_sim; eauto.
Qed.

(** ** Runs *)

Fixpoint exec_ops (ops : list op) (w : world) : list (result outcome) * world :=
  match ops with
  | [] => ([], w)
  | o :: ops' =>
      let (r, w1) := exec o w in
      let (rs, w2) := exec_ops ops' w1 in (r :: rs, w2)
  end.

Inductive spec_run :
    list op -> list (result outcome) -> gmap Z tensor -> gmap Z tensor -> Prop :=
  | spec_run_nil σ : spec_run [] [] σ σ
  | spec_run_cons o r ops rs σ1 σ2 σ3 :
      spec_step o r σ1 σ2 -> spec_run ops rs σ2 σ3 ->
      spec_run (o :: ops) (r :: rs) σ1 σ3.

Lemma exec_ops_sim ops w w' σ rs :
  Forall op_ok ops -> rep w σ -> exec_ops ops w = (rs, w') ->
  exists σ', spec_run ops rs σ σ' /\ rep w' σ'.
Proof.
  revert w σ rs. induction ops as [|o ops IH]; simpl; intros w σ rs Hok Hrep Hex.
  - simplify_eq. exists σ. split; [constructor|done].
  - apply Forall_cons in Hok as [Ho Hok].
    destruct (exec o w) as [r w1] eqn:E1, (exec_ops ops w1) as [rs2 w2] eqn:E2.
    simplify_eq. destruct (exec_sim _ _ _ _ _ Ho Hrep E1) as (σ1 & Hs1 & Hr1).
    destruct (IH _ _ _ Hok Hr1 E2) as (σ2 & Hs2 & Hr2).
    exists σ2. split; [by econstructor|done].
Qed.

Lemma rep_init mx mn ptr p mem :
  init mx mn ptr = Ok p -> rep (World p mem) ∅.
Proof.
  intros Hp. split.
  - simpl. unfold init in Hp. destruct ((mx <=? 0) || (mn <=? 0)) eqn:E1; [done|].
    destruct (mx <? mn) eqn:E2; [done|]. bool_prop.
    destruct (init_spec mx mn ptr ltac:(lia)) as (p0 & i & j & E & Hi & _).
    unfold init in E. replace ((mx <=? 0) || (mn <=? 0)) with false in E by lia.
    replace (mx <? mn) with false in E by lia.
    exists i, j. rewrite Hp in E. by simplify_eq.
  - intros a t Ht. by rewrite lookup_empty in Ht.
Qed.

(** The pool refines a finite map from addresses to tensors.  Every run
    of [store_tensor], [load_tensor] and [free] on a fresh pool, whatever the
    arguments and whichever calls fail, is a run of the abstract store: a
    successful store returns an address that was not in use, a tensor loaded
    with its own dtype and shape comes back with the bytes that were stored
    however many other tensors were stored and freed in between, and freeing
    forgets one address only. *)
Theorem store_refines_map mx mn ptr p mem ops rs w' :
  init mx mn ptr = Ok p -> Forall op_ok ops -> exec_ops ops (World p mem) = (rs, w') ->
  exists σ', spec_run ops rs ∅ σ' /\ forall a t, σ' !! a = Some t -> stored w' a t.
Proof.
  intros Hp Hok Hex. destruct (exec_ops_sim ops _ _ ∅ _ Hok (rep_init _ _ _ _ mem Hp) Hex)
    as (σ' & Hrun & _ & Hst). by exists σ'.
Qed.
End refinement.

(** ** Witness *)

Definition demo_frombuffer (_ : unit) (len count : Z) : option exn :=
  if (0 <? count) && (2 * count <=? len) then None
  else Some (Exn ValueError "invalid buffer").
Definition demo_tensor (x y : Z) : tensor unit := Tensor unit true tt [2] [x; x; y; y].
Definition demo_ops : list (@op unit) :=
  [Store (demo_tensor 1 2); Store (demo_tensor 3 4); Load 64 tt [2]; Release 64;
   Load 64 tt [2]; Load 68 tt [2]; Release 5].

Lemma store_refines_map_witness :
  exists p w' σ',
    exec_ops (fun _ => 2) demo_frombuffer demo_ops (World p (fun _ => 0)) =
      ([Ok (OAddr 64); Ok (OAddr 68); Ok (OTensor (demo_tensor 1 2)); Ok OUnit;
        Err (Exn ValueError "Invalid address to load"); Ok (OTensor (demo_tensor 3 4));
        Err (Exn ValueError "Invalid address to free")], w') /\
    spec_run demo_ops
      [Ok (OAddr 64); Ok (OAddr 68); Ok (OTensor (demo_tensor 1 2)); Ok OUnit;
        Err (Exn ValueError "Invalid address to load"); Ok (OTensor (demo_tensor 3 4));
        Err (Exn ValueError "Invalid address to free")] ∅ σ'.
Proof.
  destruct (init 32 4 64) as [p|] eqn:Hp; [|discriminate].
  destruct (exec_ops (fun _ => 2) demo_frombuffer demo_ops (World p (fun _ => 0)))
    as [rs w'] eqn:He.
  destruct (store_refines_map (fun _ => 2) demo_frombuffer 32 4 64 p (fun _ => 0)
    demo_ops rs w' Hp) as (σ' & Hrun & _); [|exact He|].
  - repeat constructor.
  - vm_compute in Hp. injection Hp as <-.
    assert (rs = [Ok (OAddr 64); Ok (OAddr 68); Ok (OTensor (demo_tensor 1 2)); Ok OUnit;
        Err (Exn ValueError "Invalid address to load"); Ok (OTensor (demo_tensor 3 4));
        Err (Exn ValueError "Invalid address to free")]) as ->.
    { apply (f_equal fst) in He. simpl fst in He at 2. rewrite <- He. vm_compute. reflexivity. }
    eexists _, w', σ'. split; [exact He|exact Hrun].
Defined.
