(* ===== verification/SwiftEngine.v ===== *)
(** * The KV-transfer engine

    Models [DuSwiftEngine] of
    src/vllm_hcu/distributed/kv_transfer/kv_connector/v1/du/du_swift_engine.py
    and the parts of [DuSwiftConnector] (du_swift_connector.py) that take
    tensors out of it: the stores of received and offered tensors, their byte
    accounting, the spill into the pinned-memory pool, and the send queue with
    its thread.  The messages of the peers and the outcome of CUDA allocations
    are arguments of the handlers. *)

From S2P Require Import Prelude PyString MemoryPool.
From Stdlib Require Import Ascii String.
Import Pool.
Local Open Scope Z_scope.

Module Swift.

(** ** Data *)

Section engine.
Context (dtype : Type) (itemsize : dtype -> Z).
Context (frombuffer : dtype -> Z -> Z -> option exn).

Abbreviation tensor := (Pool.tensor dtype).

Inductive send_type := PUT | PUT_ASYNC | GET.

(** A value of [recv_store]: a device tensor, a tensor in the pool, or [None]
    for a tensor that could not be received *)
Inductive recv_entry :=
  | Device (t : tensor)
  | Pooled (addr : Z) (ty : dtype) (shape : list Z)
  | Missing.

Record RemoteAddr := MkRemote { pd_pair_id : string; zmq_address : string; comm_rank : Z }.

(** [send_tensor] addresses a peer by name, [send_tensor_new] by a [RemoteAddr] *)
Inductive remote := Peer (address : string) | Paired (r : RemoteAddr).

Record SendQueueItem := QueueItem {
  qi_tensor_id : string;
  qi_remote : option remote;
  qi_tensor : tensor
}.

(** The attributes of the engine.  [replies] is the trace of what the router
    socket answered, the newest last. *)
Record engine := Engine {
  e_world : world;
  recv_store : dict string recv_entry;
  send_store : dict string tensor;
  send_queue : list SendQueueItem;
  recv_ids : dict string (list string);
  send_ids : dict string (list string);
  socks : list string;
  comms : dict string Z;
  buffer_size : Z;
  replies : list (string * string)
}.

Definition set_world w e := Engine w (recv_store e) (send_store e) (send_queue e) (recv_ids e) (send_ids e) (socks e) (comms e) (buffer_size e) (replies e).
Definition set_recv d e := Engine (e_world e) d (send_store e) (send_queue e) (recv_ids e) (send_ids e) (socks e) (comms e) (buffer_size e) (replies e).
Definition set_send d e := Engine (e_world e) (recv_store e) d (send_queue e) (recv_ids e) (send_ids e) (socks e) (comms e) (buffer_size e) (replies e).
Definition set_queue q e := Engine (e_world e) (recv_store e) (send_store e) q (recv_ids e) (send_ids e) (socks e) (comms e) (buffer_size e) (replies e).
Definition set_ids r s e := Engine (e_world e) (recv_store e) (send_store e) (send_queue e) r s (socks e) (comms e) (buffer_size e) (replies e).
Definition set_links ss cs e := Engine (e_world e) (recv_store e) (send_store e) (send_queue e) (recv_ids e) (send_ids e) ss cs (buffer_size e) (replies e).
Definition add_buffer n e := Engine (e_world e) (recv_store e) (send_store e) (send_queue e) (recv_ids e) (send_ids e) (socks e) (comms e) (buffer_size e + n) (replies e).
Definition add_reply a r e := Engine (e_world e) (recv_store e) (send_store e) (send_queue e) (recv_ids e) (send_ids e) (socks e) (comms e) (buffer_size e) (replies e ++ [(a, r)]).

Definition in_world {A} (m : M world A) : M engine A := fun e =>
  let (r, w) := m (e_world e) in (r, set_world w e).

(** [tensor.element_size() * tensor.numel()] *)
Definition tensor_size (t : tensor) : Z := itemsize (t_dtype _ t) * numel (t_shape _ t).

Definition OutOfMemoryError : exn_class := OtherError "OutOfMemoryError".

Context (mode : send_type) (threshold : Z).

(** ** Names *)

Definition get_tensor_id (request_id layer_name : string) : string := request_id ++ "#" ++ layer_name.

(** [tensor_id.split("#")[0]] *)
Definition request_of (tensor_id : string) : string :=
  default tensor_id (head (split_on "#"%char tensor_id)).

(** Adds an id to the set kept for its request *)
Definition note_id (d : dict string (list string)) (tensor_id : string) : dict string (list string) :=
  let ids := default [] (dget d (request_of tensor_id)) in
  dset d (request_of tensor_id) (if decide (tensor_id ∈ ids) then ids else ids ++ [tensor_id]).

Definition have_received_tensor_id (tensor_id : string) : M engine unit :=
  modify (fun e => set_ids (note_id (recv_ids e) tensor_id) (send_ids e) e).
Definition have_sent_tensor_id (tensor_id : string) : M engine unit :=
  modify (fun e => set_ids (recv_ids e) (note_id (send_ids e) tensor_id) e).

(** ** Receiving *)

(** [self.comms[key]] *)
Definition comm_of (key : string) : M engine Z := fun e =>
  match dget (comms e) key with
  | Some rank => (Ok rank, e)
  | None => (Err (Exn KeyError key), e)
  end.

(** The body of the [try]: [alloc] is the exception of [torch.empty], if any,
    and [t] the tensor the peer sends. *)
Definition receive_tensor (sender comm_key : string) (alloc : option exn) (t : tensor) : M engine recv_entry :=
  match alloc with
  | Some e => throw e
  | None =>
      modify (add_reply sender "0") ;;
      comm_of comm_key ;;
      e ← get_state;
      if threshold <? buffer_size e + tensor_size t then
        addr ← in_world (store_tensor dtype itemsize frombuffer t);
        mret (Pooled addr (t_dtype _ t) (t_shape _ t))
      else
        modify (add_buffer (tensor_size t)) ;;
        mret (Device t)
  end.

Definition store_received (tensor_id : string) (entry : recv_entry) : M engine unit :=
  modify (fun e => set_recv (dset (recv_store e) tensor_id entry) e) ;;
  have_received_tensor_id tensor_id.

(** Only an out-of-memory error of CUDA is caught. *)
Definition receive_guarded (sender comm_key : string) (alloc : option exn) (t : tensor) : M engine recv_entry :=
  try_ (receive_tensor sender comm_key alloc t) (fun e =>
    if decide (exn_type e = OutOfMemoryError)
    then modify (add_reply sender "1") ;; mret Missing
    else throw e).

(** The listener on a [PUT] message *)
Definition handle_put (sender tensor_id : string) (alloc : option exn) (t : tensor) : M engine unit :=
  entry ← receive_guarded sender sender alloc t;
  store_received tensor_id entry.

(** The listener on a [PUT_NEW] message *)
Definition handle_put_new (sender pair_id tensor_id : string) (alloc : option exn) (t : tensor) : M engine unit :=
  entry ← receive_guarded sender pair_id alloc t;
  store_received tensor_id entry.

(** The listener on [NEW] and [comm_init] messages: a communicator for a peer *)
Definition handle_new (sender : string) : M engine unit :=
  modify (fun e => set_links (socks e) (dset (comms e) sender 1) e).
Definition handle_comm_init (pair_id : string) (rank : Z) : M engine unit :=
  modify (fun e => set_links (socks e) (dset (comms e) pair_id rank) e).

(** [recv_tensor]; [fetched] is what a peer asked with [GET] sends.  The call
    waits until the tensor is in the store. *)
Definition recv_tensor (tensor_id : string) (remote_address : option string) (fetched : option tensor)
    : M engine (option tensor) :=
  match mode with
  | PUT | PUT_ASYNC =>
      e ← get_state;
      match dget (recv_store e) tensor_id with
      | None => raise Waits tensor_id
      | Some (Pooled addr ty shape) =>
          t ← in_world (load_tensor dtype itemsize frombuffer addr ty shape);
          mret (Some t)
      | Some (Device t) => modify (add_buffer (- tensor_size t)) ;; mret (Some t)
      | Some Missing => mret None
      end
  | GET => match remote_address with None => mret None | Some _ => mret fetched end
  end.

(** Forgets an entry and gives its pool memory back *)
Definition drop_entry (request_id tensor_id : string) : M engine unit :=
  e ← get_state;
  match dget (recv_store e) tensor_id with
  | None => mret tt
  | Some entry =>
      modify (fun e => set_recv (ddel (recv_store e) tensor_id) e) ;;
      modify (fun e => set_ids (ddel (recv_ids e) request_id) (ddel (send_ids e) request_id) e) ;;
      match entry with
      | Pooled addr _ _ => in_world (on_pool (free addr))
      | _ => mret tt
      end
  end.

(** One layer of one request in [start_load_kv] of the connector: the tensor
    that is injected into the layer, if any *)
Definition load_layer (request_id layer_name : string) : M engine (option tensor) :=
  let tensor_id := get_tensor_id request_id layer_name in
  kv ← recv_tensor tensor_id None None;
  match kv with
  | None => mret None
  | Some t => drop_entry request_id tensor_id ;; mret (Some t)
  end.

(** [get_finished] *)
Definition get_finished (finished_req_ids layers : list string) : M engine unit :=
  for_each finished_req_ids (fun request_id =>
    for_each layers (fun layer_name => drop_entry request_id (get_tensor_id request_id layer_name))).

(** ** Offering tensors to be fetched *)

(** The loop that makes room by dropping the oldest tensors: the store and the
    byte count it leaves, also when its assertion fails *)
Fixpoint evict (store : dict string tensor) (size buffer : Z) : result unit * (dict string tensor * Z) :=
  if threshold <? buffer + size then
    match store with
    | [] => (Err (Exn AssertionError ""), ([], buffer))
    | (_, oldest) :: rest => evict rest size (buffer - tensor_size oldest)
    end
  else (Ok tt, (store, buffer)).

(** The [GET] branch of [send_tensor] *)
Definition offer_tensor (tensor_id : string) (t : tensor) : M engine bool :=
  if threshold <? tensor_size t then mret false
  else
    e ← get_state;
    let '(r, (store, buffer)) := evict (send_store e) (tensor_size t) (buffer_size e) in
    modify (fun e => add_buffer (buffer - buffer_size e) (set_send store e)) ;;
    lift r ;;
    modify (fun e => set_send (dset (send_store e) tensor_id t) e) ;;
    modify (add_buffer (tensor_size t)) ;;
    mret true.

(** The listener on a [GET] message: the tensor sent back, if any *)
Definition handle_get (sender tensor_id : string) : M engine (option tensor) :=
  e ← get_state;
  match dget (send_store e) tensor_id with
  | None => mret None
  | Some t =>
      modify (fun e => set_send (ddel (send_store e) tensor_id ++ [(tensor_id, t)]) e) ;;
      have_sent_tensor_id tensor_id ;;
      comm_of sender ;;
      mret (Some t)
  end.

(** ** Sending *)

(** [create_connect]: a socket and a communicator of rank 0 *)
Definition create_connect (address : string) : M engine unit :=
  e ← get_state;
  if decide (address ∈ socks e) then mret tt
  else
    modify (fun e => set_links (socks e ++ [address]) (comms e) e) ;;
    if dmem (comms e) address then mret tt
    else modify (fun e => set_links (socks e) (dset (comms e) address 0) e).

(** [create_connect_new]: a socket *)
Definition create_connect_new (address : string) : M engine unit :=
  modify (fun e => set_links (if decide (address ∈ socks e) then socks e else socks e ++ [address]) (comms e) e).

(** [send_sync] and [send_sync_new]; [response] is the answer of the peer *)
Definition send_sync (item : SendQueueItem) (response : string) : M engine bool :=
  match qi_remote item with
  | None => mret false
  | Some r =>
      match r with
      | Peer address => create_connect address ;; comm_of address
      | Paired p => create_connect_new (zmq_address p) ;; comm_of (pd_pair_id p)
      end ;;
      if decide (response = "0") then
        match mode with PUT_ASYNC => have_sent_tensor_id (qi_tensor_id item) | _ => mret tt end ;;
        mret true
      else mret false
  end.

(** [send_tensor]; [response] is the answer of the peer to a synchronous send *)
Definition send_tensor (tensor_id : string) (t : tensor) (address : option string) (response : string)
    : M engine bool :=
  match address with
  | None => modify (fun e => set_recv (dset (recv_store e) tensor_id (Device t)) e) ;; mret true
  | Some a =>
      let item := QueueItem tensor_id (Some (Peer a)) t in
      match mode with
      | PUT => send_sync item response
      | PUT_ASYNC => modify (fun e => set_queue (send_queue e ++ [item]) e) ;; mret true
      | GET => offer_tensor tensor_id t
      end
  end.

(** The sender thread: taking the next item, then sending it *)
Definition take_item : M engine SendQueueItem :=
  e ← get_state;
  match send_queue e with
  | [] => raise Waits "send_queue"
  | item :: rest => modify (set_queue rest) ;; mret item
  end.

(** [wait_for_sent] *)
Definition wait_for_sent : M engine unit :=
  e ← get_state;
  match mode, send_queue e with
  | PUT_ASYNC, _ :: _ => raise Waits "send_queue"
  | _, _ => mret tt
  end.
End engine.
End Swift.
