(* ===== verification/SwiftEngineCorrect.v ===== *)
(** * Correctness of the KV-transfer engine

    The receiving side serves exactly the tensors the peers put, whether they
    stay on the device or spill into the pinned-memory pool; its byte count is
    what the store holds plus what was dropped without being counted down; the
    offering side keeps its bytes below the threshold; and the send queue is
    first in, first out. *)

From S2P Require Import Prelude PyString MemoryPool BuddyTiling MemoryPoolCorrect TensorStore SwiftEngine.
Import Pool Swift.
Local Open Scope Z_scope.

Section receive.
Context {dtype : Type} `{EqDecision dtype} (itemsize : dtype -> Z).
Context (frombuffer : dtype -> Z -> Z -> option exn).
Context (mode : send_type) (threshold : Z).

Abbreviation tensor := (Pool.tensor dtype).
Abbreviation engine := (Swift.engine dtype).
Abbreviation size := (tensor_size dtype itemsize).
Abbreviation recv_store := (Swift.recv_store dtype).
Abbreviation e_world := (Swift.e_world dtype).
Abbreviation handle_put := (Swift.handle_put dtype itemsize frombuffer threshold).
Abbreviation load_layer := (Swift.load_layer dtype itemsize frombuffer mode).
Abbreviation get_finished := (Swift.get_finished dtype).

(** ** The pool as seen by the engine *)

Lemma store_tensor_spec w π t r w' :
  tensor_ok itemsize t -> rep itemsize frombuffer w π -> store_tensor dtype itemsize frombuffer t w = (r, w') ->
  match r with
  | Ok a => π !! a = None /\ rep itemsize frombuffer w' (<[a := t]> π)
  | Err _ => rep itemsize frombuffer w' π
  end.
Proof.
  intros Ht Hrep E. destruct (exec itemsize frombuffer (Store t) w) as [r0 w0] eqn:E0.
  pose proof (exec_store_sim itemsize frombuffer w w0 π t r0 Ht Hrep E0) as (π' & Hstep & Hrep').
  simpl in E0. unfold mbind, M_bind in E0. rewrite E in E0.
  destruct r as [a|err]; unfold mret, M_ret in E0; injection E0 as <- <-; inversion Hstep; subst; done.
Qed.

Lemma load_tensor_spec w π a t :
  rep itemsize frombuffer w π -> π !! a = Some t ->
  load_tensor dtype itemsize frombuffer a (t_dtype _ t) (t_shape _ t) w = (Ok t, w).
Proof.
  intros Hrep Ha. destruct (exec itemsize frombuffer (Load a (t_dtype _ t) (t_shape _ t)) w) as [r0 w0] eqn:E0.
  pose proof (exec_load_sim itemsize frombuffer w w0 π a _ _ r0 Hrep E0) as (π' & Hstep & _).
  assert (r0 = Ok (OTensor t)) as ->.
  { inversion Hstep as [| |? t' ? Ht' E1 E2| ? ? ? ? ? Hno| |]; subst; [by simplify_eq|].
    exfalso. by apply (Hno t). }
  simpl in E0. unfold mbind, M_bind in E0.
  destruct (load_tensor dtype itemsize frombuffer a (t_dtype _ t) (t_shape _ t) w) as [[t1|err] w1] eqn:E1; [|done].
  unfold mret, M_ret in E0. injection E0 as -> ->. f_equal.
  unfold load_tensor in E1. munfold. repeat case_match; by simplify_eq.
Qed.

Lemma free_spec_pool w π a :
  rep itemsize frombuffer w π -> is_Some (π !! a) ->
  exists w', on_pool (free a) w = (Ok tt, w') /\ rep itemsize frombuffer w' (delete a π).
Proof.
  intros Hrep [t Ha]. destruct (exec itemsize frombuffer (Release a) w) as [r0 w0] eqn:E0.
  pose proof (exec_release_sim itemsize frombuffer w w0 π a r0 Hrep E0) as (π' & Hstep & Hrep').
  inversion Hstep; subst; [|congruence]. exists w0. split; [|done].
  simpl in E0. unfold mbind, M_bind in E0.
  destruct (on_pool (free a) w) as [[[]|err] w1]; [|done]. unfold mret, M_ret in E0. by injection E0 as ->.
Qed.

(** ** The abstract store *)

(** What an id stands for: a tensor, or [None] for one that was lost. *)
Abbreviation contents := (gmap string (option tensor)).

Inductive entry_rep (π : gmap Z tensor) : option (recv_entry dtype) -> option (option tensor) -> Prop :=
  | rep_none : entry_rep π None None
  | rep_lost : entry_rep π (Some (Missing dtype)) (Some None)
  | rep_device t : entry_rep π (Some (Device dtype t)) (Some (Some t))
  | rep_pooled a t : π !! a = Some t ->
      entry_rep π (Some (Pooled dtype a (t_dtype _ t) (t_shape _ t))) (Some (Some t)).

(** No two ids share pool memory. *)
Definition unshared (d : dict string (recv_entry dtype)) : Prop :=
  forall id id' a ty ty' sh sh', dget d id = Some (Pooled dtype a ty sh) ->
    dget d id' = Some (Pooled dtype a ty' sh') -> id = id'.

Record erep (e : engine) (σ : contents) : Prop := {
  er_pool : exists π, rep itemsize frombuffer (e_world e) π /\
    forall id, entry_rep π (dget (recv_store e) id) (σ !! id);
  er_keys : NoDup (dkeys (recv_store e));
  er_unshared : unshared (recv_store e)
}.

Lemma entry_rep_mono π π' en o :
  (forall a t, π !! a = Some t -> (exists ty sh, en = Some (Pooled dtype a ty sh)) -> π' !! a = Some t) ->
  entry_rep π en o -> entry_rep π' en o.
Proof. intros Hsub H. destruct H; constructor. eapply Hsub; eauto. Qed.

(** ** Operations on a received tensor *)

Inductive eop :=
  | EPut (sender id : string) (alloc : option exn) (t : tensor)
  | ELoad (request layer : string)
  | EFinish (requests layers : list string).

Definition eexec (o : eop) : M engine (option tensor) :=
  match o with
  | EPut sender id alloc t => handle_put sender id alloc t ;; mret None
  | ELoad request layer => load_layer request layer
  | EFinish requests layers => get_finished requests layers ;; mret None
  end.

(** The ids [get_finished] looks for. *)
Definition finished_ids (requests layers : list string) : list string :=
  concat (map (fun r => map (get_tensor_id r) layers) requests).

Definition forget (ids : list string) (σ : contents) : contents := foldl (fun σ id => delete id σ) σ ids.

(** A step of the abstract store.  A put may fail or lose its tensor only for
    the reasons given; loading and finishing never fail. *)
Inductive espec (e : engine) : eop -> result (option tensor) -> contents -> contents -> Prop :=
  | es_put s id t σ : espec e (EPut s id None t) (Ok None) σ (<[id := Some t]> σ)
  | es_put_lost s id alloc t σ :
      alloc <> None \/ (exists ty n c msg, frombuffer ty n c = Some (Exn OutOfMemoryError msg)) ->
      espec e (EPut s id alloc t) (Ok None) σ (<[id := None]> σ)
  | es_put_fail s id alloc t err σ :
      alloc <> None \/ dget (comms dtype e) s = None \/ threshold < buffer_size dtype e + size t ->
      espec e (EPut s id alloc t) (Err err) σ σ
  | es_load r l t σ : σ !! get_tensor_id r l = Some (Some t) ->
      espec e (ELoad r l) (Ok (Some t)) σ (delete (get_tensor_id r l) σ)
  | es_load_lost r l σ : σ !! get_tensor_id r l = Some None -> espec e (ELoad r l) (Ok None) σ σ
  | es_load_wait r l σ : σ !! get_tensor_id r l = None ->
      espec e (ELoad r l) (Err (Exn Waits (get_tensor_id r l))) σ σ
  | es_finish rs ls σ : espec e (EFinish rs ls) (Ok None) σ (forget (finished_ids rs ls) σ).

(** *** Putting *)

(** What receiving does: the entry it makes, or the error it ends with. *)
Inductive received (e : engine) (sender : string) (alloc : option exn) (t : tensor)
    : result (recv_entry dtype) -> engine -> Prop :=
  | rcv_device e' : alloc = None -> buffer_size dtype e + size t <= threshold ->
      e_world e' = e_world e -> recv_store e' = recv_store e ->
      buffer_size dtype e' = buffer_size dtype e + size t ->
      received e sender alloc t (Ok (Device dtype t)) e'
  | rcv_pooled e' a : alloc = None -> threshold < buffer_size dtype e + size t ->
      store_tensor dtype itemsize frombuffer t (e_world e) = (Ok a, e_world e') ->
      recv_store e' = recv_store e -> buffer_size dtype e' = buffer_size dtype e ->
      received e sender alloc t (Ok (Pooled dtype a (t_dtype _ t) (t_shape _ t))) e'
  | rcv_lost e' : alloc <> None -> e_world e' = e_world e -> recv_store e' = recv_store e ->
      buffer_size dtype e' = buffer_size dtype e -> received e sender alloc t (Ok (Missing dtype)) e'
  | rcv_spill_lost e' msg : alloc = None -> threshold < buffer_size dtype e + size t ->
      store_tensor dtype itemsize frombuffer t (e_world e) = (Err (Exn OutOfMemoryError msg), e_world e') ->
      recv_store e' = recv_store e -> buffer_size dtype e' = buffer_size dtype e ->
      received e sender alloc t (Ok (Missing dtype)) e'
  | rcv_error e' err : alloc = Some err \/ dget (comms dtype e) sender = None ->
      e_world e' = e_world e -> recv_store e' = recv_store e ->
      buffer_size dtype e' = buffer_size dtype e -> received e sender alloc t (Err err) e'
  | rcv_spill_error e' err : alloc = None -> threshold < buffer_size dtype e + size t ->
      store_tensor dtype itemsize frombuffer t (e_world e) = (Err err, e_world e') ->
      recv_store e' = recv_store e -> buffer_size dtype e' = buffer_size dtype e ->
      received e sender alloc t (Err err) e'.

Lemma receive_cases e sender alloc t r e' :
  receive_guarded dtype itemsize frombuffer threshold sender sender alloc t e = (r, e') ->
  received e sender alloc t r e'.
Proof.
  unfold receive_guarded, try_, receive_tensor. destruct alloc as [err|].
  { munfold. case_decide; intros [= <- <-]; [by apply rcv_lost|by apply rcv_error; [left|..]]. }
  munfold. unfold comm_of. destruct e as [w rs ss sq ri si sk cm bs rp]. cbn.
  destruct (dget cm sender) as [rank|] eqn:Ec; cbn.
  2:{ intros [= <- <-]. by apply rcv_error; [right|..]. }
  destruct (Z.ltb_spec threshold (bs + size t)) as [Hlt|Hge]; cbn.
  2:{ intros [= <- <-]. by apply rcv_device. }
  unfold in_world. cbn. destruct (store_tensor dtype itemsize frombuffer t w) as [[a|err] w'] eqn:Es; cbn.
  { intros [= <- <-]. by apply rcv_pooled. }
  case_decide as Ho; intros [= <- <-]; [|by apply rcv_spill_error].
  destruct err as [cls msg]. cbn in Ho. subst cls. by eapply rcv_spill_lost.
Qed.

Lemma handle_put_run e sender id alloc t r e' :
  handle_put sender id alloc t e = (r, e') ->
  exists r1 e1, received e sender alloc t r1 e1 /\
    match r1 with
    | Ok en => r = Ok tt /\ e_world e' = e_world e1 /\ buffer_size dtype e' = buffer_size dtype e1 /\
        recv_store e' = dset (recv_store e1) id en
    | Err err => r = Err err /\ e' = e1
    end.
Proof.
  unfold Swift.handle_put. unfold mbind, M_bind.
  destruct (receive_guarded dtype itemsize frombuffer threshold sender sender alloc t e) as [[en|err] e1] eqn:E.
  - intros H. exists (Ok en), e1. split; [by apply receive_cases|].
    unfold store_received, have_received_tensor_id in H. munfold. by injection H as <- <-.
  - intros [= <- <-]. exists (Err err), e1. split; [by apply receive_cases|done].
Qed.

Lemma erep_insert π' e e' σ id en o :
  rep itemsize frombuffer (e_world e') π' -> NoDup (dkeys (recv_store e)) -> unshared (recv_store e) ->
  recv_store e' = dset (recv_store e) id en ->
  (forall id', id' <> id -> entry_rep π' (dget (recv_store e) id') (σ !! id')) ->
  entry_rep π' (Some en) (Some o) ->
  (forall a ty sh, en = Pooled dtype a ty sh -> forall id' ty' sh', dget (recv_store e) id' <> Some (Pooled dtype a ty' sh')) ->
  erep e' (<[id := o]> σ).
Proof.
  intros Hrep Hk Hu Er Hothers Hen Hfresh. split.
  - exists π'. split; [done|]. intros id'. rewrite Er, dget_dset. destruct (decide (id = id')) as [<-|Hne].
    + by rewrite lookup_insert_eq.
    + rewrite lookup_insert_ne by done. apply Hothers. congruence.
  - rewrite Er. by apply NoDup_dset.
  - rewrite Er. intros id1 id2 a ty ty' sh sh'. rewrite !dget_dset.
    destruct (decide (id = id1)) as [<-|H1], (decide (id = id2)) as [<-|H2]; try done.
    + intros [= ->] Hp. by destruct (Hfresh a ty sh eq_refl id2 ty' sh').
    + intros Hp [= ->]. by destruct (Hfresh a ty' sh' eq_refl id1 ty sh).
    + by apply Hu.
Qed.

Lemma erep_same e e' σ π :
  rep itemsize frombuffer (e_world e') π -> (forall id, entry_rep π (dget (recv_store e) id) (σ !! id)) ->
  recv_store e' = recv_store e -> erep e σ -> erep e' σ.
Proof. intros Hr Hen Er [_ Hk Hu]. split; rewrite ?Er; eauto. Qed.

Lemma store_error_class t w msg w' :
  store_tensor dtype itemsize frombuffer t w = (Err (Exn OutOfMemoryError msg), w') ->
  tensor_ok itemsize t -> (exists π, rep itemsize frombuffer w π) ->
  exists ty n c msg', frombuffer ty n c = Some (Exn OutOfMemoryError msg').
Proof.
  intros E Ht (π & [i [j Hinv]] & _). unfold store_tensor in E. destruct (negb (t_is_cuda dtype t)); [done|].
  fold (nbytes itemsize t) in E. unfold mbind, M_bind in E.
  destruct (decide (0 < nbytes itemsize t)) as [Hpos|Hpos].
  2:{ erewrite on_pool_run in E.
      2:{ unfold allocate. replace (nbytes itemsize t <=? 0) with true by lia. done. } done. }
  destruct (allocate_spec _ _ _ (nbytes itemsize t) Hinv Hpos) as [(a & p' & Ea & Hinv' & _ & [_ Hal] & _)|([msg' Ee] & _ & _)].
  2:{ erewrite on_pool_run in E by apply surjective_pairing. rewrite Ee in E. done. }
  rewrite (on_pool_run _ _ _ _ Ea) in E.
  assert (dget (allocated_blocks p') a = Some (Block (round_to_power_of_two (Z.max (nbytes itemsize t) (min_block_size (w_pool w)))) a)) as Hb
    by (rewrite Hal; apply dget_dset_eq).
  erewrite on_pool_run in E by (unfold block_at; simpl; by rewrite Hb). simpl in E.
  destruct (_ <? nbytes itemsize t).
  { destruct (free_spec _ _ _ _ _ Hinv' Hb) as (p2 & Ef & _). rewrite (on_pool_run (free a) (World p' (w_mem w)) _ _ Ef) in E. done. }
  destruct (frombuffer _ _ _) as [[cls m]|] eqn:Hfb; [|done].
  destruct (decide (cls = ValueError)) as [->|Hc].
  { destruct (free_spec _ _ _ _ _ Hinv' Hb) as (p2 & Ef & _). rewrite (on_pool_run (free a) (World p' (w_mem w)) _ _ Ef) in E. done. }
  do 3 eexists. exists m. rewrite Hfb. do 2 f_equal.
  assert ((Err (Exn cls m), World p' (w_mem w)) = (Err (Exn OutOfMemoryError msg), w') :> result Z * world) as E' by (by destruct cls).
  by injection E'.
Qed.

Lemma put_sim e σ sender id alloc t r e' :
  tensor_ok itemsize t -> erep e σ -> eexec (EPut sender id alloc t) e = (r, e') ->
  exists σ', espec e (EPut sender id alloc t) r σ σ' /\ erep e' σ'.
Proof.
  intros Ht Hrep E. simpl in E. unfold mbind, M_bind in E.
  destruct (handle_put sender id alloc t e) as [r0 e0] eqn:E0.
  destruct (handle_put_run _ _ _ _ _ _ _ E0) as (r1 & e1 & Hr & Hrun).
  pose proof Hrep as [(π & Hpool & Hen) Hk Hu].
  assert (forall id', id' <> id -> entry_rep π (dget (recv_store e) id') (σ !! id')) as Hothers by (intros; apply Hen).
  destruct Hr as [e1 -> _ Ew Es _|e1 a -> _ Ew Es _|e1 Ha Ew Es _|e1 msg -> _ Ew Es _|e1 err Hc Ew Es _|e1 err -> Hlt Ew Es _].
  - destruct Hrun as (-> & Ew' & _ & Er). injection E as <- <-. eexists. split; [constructor|].
    apply (erep_insert π e) with (en := Device dtype t); rewrite ?Ew', ?Ew; try done; [by rewrite Er, Es|by constructor].
  - destruct Hrun as (-> & Ew' & _ & Er). injection E as <- <-.
    destruct (store_tensor_spec _ _ _ _ _ Ht Hpool Ew) as [Hfresh Hpool']. eexists. split; [constructor|].
    apply (erep_insert (<[a := t]> π) e) with (en := Pooled dtype a (t_dtype _ t) (t_shape _ t)); rewrite ?Ew'; try done.
    + by rewrite Er, Es.
    + intros id' _. eapply entry_rep_mono; [|apply Hen]. intros a' t' Ha' _. rewrite lookup_insert_ne; [done|congruence].
    + constructor. apply lookup_insert_eq.
    + intros a' ty sh [= <- <- <-] id' ty' sh' Hd. specialize (Hen id'). rewrite Hd in Hen.
      inversion Hen as [| | |? ? Ha' E1 E2]; subst. congruence.
  - destruct Hrun as (-> & Ew' & _ & Er). injection E as <- <-. eexists. split; [apply es_put_lost; by left|].
    apply (erep_insert π e) with (en := Missing dtype); rewrite ?Ew', ?Ew; try done; [by rewrite Er, Es|by constructor].
  - destruct Hrun as (-> & Ew' & _ & Er). injection E as <- <-.
    pose proof (store_tensor_spec _ _ _ _ _ Ht Hpool Ew) as Hpool'. cbn in Hpool'.
    eexists. split; [apply es_put_lost; right; eapply store_error_class; eauto|].
    apply (erep_insert π e) with (en := Missing dtype); rewrite ?Ew'; try done; [by rewrite Er, Es|by constructor].
  - destruct Hrun as (-> & ->). injection E as <- <-. exists σ. split.
    + constructor. destruct Hc as [->|Hc]; [by left|right; by left].
    + apply (erep_same e e1 σ π); rewrite ?Ew; done.
  - destruct Hrun as (-> & ->). injection E as <- <-. exists σ. split; [constructor; by right; right|].
    pose proof (store_tensor_spec _ _ _ _ _ Ht Hpool Ew) as Hpool'. cbn in Hpool'. by apply (erep_same e e1 σ π).
Qed.

(** *** Taking out *)

(** What dropping an entry leaves alone. *)
Definition dropped (id : string) (e e' : engine) : Prop :=
  recv_store e' = ddel (recv_store e) id /\ buffer_size dtype e' = buffer_size dtype e /\
  comms dtype e' = comms dtype e.

Lemma ddel_absent {V} (d : dict string V) k : dget d k = None -> ddel d k = d.
Proof.
  induction d as [|[k0 v0] d IH]; simpl; [done|]. case_decide; [done|]. intros Hn. by rewrite IH.
Qed.

Lemma drop_sim e σ request id :
  erep e σ -> exists e', drop_entry dtype request id e = (Ok tt, e') /\ dropped id e e' /\ erep e' (delete id σ).
Proof.
  intros [(π & Hpool & Hen) Hk Hu]. unfold drop_entry. munfold.
  assert (forall π' w', rep itemsize frombuffer w' π' ->
    (forall a t, π !! a = Some t -> (exists id' ty sh, id' <> id /\ dget (recv_store e) id' = Some (Pooled dtype a ty sh)) ->
       π' !! a = Some t) ->
    forall e', e_world e' = w' -> recv_store e' = ddel (recv_store e) id -> erep e' (delete id σ)) as Hdel.
  { intros π' w' Hp' Hkeep e' Ew Er. split; rewrite ?Er.
    - exists π'. rewrite Ew. split; [done|]. intros id'. destruct (decide (id = id')) as [<-|Hne].
      + rewrite lookup_delete_eq, dget_ddel_eq by done. constructor.
      + rewrite lookup_delete_ne, dget_ddel_ne by done. eapply entry_rep_mono; [|apply Hen].
        intros a t Ha (ty & sh & Hd). apply (Hkeep a t Ha). by exists id', ty, sh.
    - by apply NoDup_ddel.
    - intros id1 id2 a ty ty' sh sh' H1 H2.
      destruct (decide (id = id1)) as [<-|Hn1]; [by rewrite dget_ddel_eq in H1|].
      destruct (decide (id = id2)) as [<-|Hn2]; [by rewrite dget_ddel_eq in H2|].
      rewrite dget_ddel_ne in H1, H2 by done. by eapply Hu. }
  destruct (dget (recv_store e) id) as [[t|a ty sh|]|] eqn:Ed; cbn.
  - eexists. split; [done|]. split; [done|]. by eapply Hdel.
  - specialize (Hen id) as Hid. rewrite Ed in Hid. inversion Hid as [| | |? t Ha E1 E2]; subst.
    unfold in_world. cbn. destruct (free_spec_pool _ _ a Hpool) as (w' & -> & Hpool'); [eauto|].
    eexists. split; [done|]. split; [done|]. eapply (Hdel _ w' Hpool'); [|done..].
    intros a' t' Ha' (id' & ty & sh & Hne & Hd'). rewrite lookup_delete_ne; [done|].
    intros <-. apply Hne. by eapply Hu.
  - eexists. split; [done|]. split; [done|]. by eapply Hdel.
  - eexists. split; [done|]. unfold dropped. rewrite ddel_absent by done. split; [done|].
    specialize (Hen id) as Hid. rewrite Ed in Hid. inversion Hid. rewrite delete_id by done. split; eauto.
Qed.

Context (Hmode : mode <> GET).

Lemma load_sim e σ request layer r e' :
  erep e σ -> eexec (ELoad request layer) e = (r, e') ->
  exists σ', espec e (ELoad request layer) r σ σ' /\ erep e' σ'.
Proof.
  intros Hrep E. simpl in E. unfold Swift.load_layer in E. set (id := get_tensor_id request layer) in *.
  pose proof Hrep as [(π & Hpool & Hen) Hk Hu]. pose proof (Hen id) as Hid.
  assert (exists kv e1, recv_tensor dtype itemsize frombuffer mode id None None e = (kv, e1) /\
    match σ !! id with
    | None => kv = Err (Exn Waits id) /\ erep e1 σ
    | Some None => kv = Ok None /\ erep e1 σ
    | Some (Some t) => kv = Ok (Some t) /\ erep e1 σ
    end) as (kv & e1 & Ekv & Hkv).
  { unfold recv_tensor. destruct mode; [| |done]; munfold; inversion Hid as [E1 E2|E1 E2|t E1 E2|a t Ha E1 E2];
      try (eexists _, _; split; [reflexivity|]; split; [done|]; split; eauto).
    - unfold in_world. rewrite (load_tensor_spec _ _ _ _ Hpool Ha). eexists _, _. split; [reflexivity|]. split; [done|].
      apply (erep_same e _ σ π); done.
    - unfold in_world. rewrite (load_tensor_spec _ _ _ _ Hpool Ha). eexists _, _. split; [reflexivity|]. split; [done|].
      apply (erep_same e _ σ π); done. }
  unfold mbind, M_bind in E. rewrite Ekv in E. destruct (σ !! id) as [[t|]|] eqn:Eσ; destruct Hkv as [-> Hrep1].
  - destruct (drop_sim e1 σ request id Hrep1) as (e2 & Ed & _ & Hrep2). rewrite Ed in E. injection E as <- <-.
    exists (delete id σ). split; [by constructor|done].
  - injection E as <- <-. exists σ. split; [by constructor|done].
  - injection E as <- <-. exists σ. split; [by constructor|done].
Qed.

Lemma forget_app a b σ : forget (a ++ b) σ = forget b (forget a σ).
Proof. apply foldl_app. Qed.

(** What dropping many entries leaves. *)
Definition swept (ids : list string) (e e' : engine) : Prop :=
  recv_store e' = foldl ddel (recv_store e) ids /\ buffer_size dtype e' = buffer_size dtype e.

Lemma finish_layers e σ request layers :
  erep e σ -> exists e', for_each layers (fun l => drop_entry dtype request (get_tensor_id request l)) e = (Ok tt, e') /\
    swept (map (get_tensor_id request) layers) e e' /\ erep e' (forget (map (get_tensor_id request) layers) σ).
Proof.
  revert e σ. induction layers as [|l layers IH]; intros e σ Hrep; simpl; [by exists e|].
  destruct (drop_sim e σ request (get_tensor_id request l) Hrep) as (e1 & E1 & (Es & Eb & _) & Hrep1).
  unfold mbind, M_bind. rewrite E1. destruct (IH _ _ Hrep1) as (e2 & E2 & [Es2 Eb2] & Hrep2).
  exists e2. split; [done|]. split; [|done]. split; simpl; congruence.
Qed.

Lemma finish_sim e σ requests layers :
  erep e σ -> exists e', get_finished requests layers e = (Ok tt, e') /\
    swept (finished_ids requests layers) e e' /\ erep e' (forget (finished_ids requests layers) σ).
Proof.
  revert e σ. induction requests as [|request requests IH]; intros e σ Hrep; simpl; [by exists e|].
  destruct (finish_layers e σ request layers Hrep) as (e1 & E1 & [Es Eb] & Hrep1).
  unfold Swift.get_finished. simpl. unfold mbind, M_bind. rewrite E1.
  destruct (IH _ _ Hrep1) as (e2 & E2 & [Es2 Eb2] & Hrep2). unfold Swift.get_finished in E2. rewrite E2. exists e2.
  split; [done|]. unfold finished_ids in *. simpl. rewrite forget_app. split; [|done].
  split; [|congruence]. by rewrite Es2, Es, foldl_app.
Qed.

Definition eop_ok (o : eop) : Prop := match o with EPut _ _ _ t => tensor_ok itemsize t | _ => True end.

Lemma eexec_sim e σ o r e' :
  eop_ok o -> erep e σ -> eexec o e = (r, e') -> exists σ', espec e o r σ σ' /\ erep e' σ'.
Proof.
  intros Hok Hrep E. destruct o as [s id alloc t|request layer|requests layers].
  - by eapply put_sim.
  - by eapply load_sim.
  - simpl in E. destruct (finish_sim e σ requests layers Hrep) as (e1 & E1 & _ & Hrep1).
    unfold mbind, M_bind in E. rewrite E1 in E. injection E as <- <-. eexists. split; [constructor|done].
Qed.

(** ** Runs *)

(** Any operations, each on the engine the one before left.  In the program a
    put that raises ends the listener thread, so no put follows it: the runs
    of the program are among these. *)
Fixpoint eexec_all (ops : list eop) (e : engine) : list (result (option tensor)) * engine :=
  match ops with
  | [] => ([], e)
  | o :: ops' => let (r, e1) := eexec o e in let (rs, e2) := eexec_all ops' e1 in (r :: rs, e2)
  end.

(** A run of the abstract store along the states of the engine. *)
Inductive espec_run : engine -> list eop -> list (result (option tensor)) -> contents -> contents -> Prop :=
  | er_nil e σ : espec_run e [] [] σ σ
  | er_cons e o ops r rs σ1 σ2 σ3 :
      espec e o r σ1 σ2 -> espec_run (eexec o e).2 ops rs σ2 σ3 -> espec_run e (o :: ops) (r :: rs) σ1 σ3.

Lemma eexec_all_sim ops e σ rs e' :
  Forall eop_ok ops -> erep e σ -> eexec_all ops e = (rs, e') ->
  exists σ', espec_run e ops rs σ σ' /\ erep e' σ'.
Proof.
  revert e σ rs. induction ops as [|o ops IH]; simpl; intros e σ rs Hok Hrep E.
  { injection E as <- <-. exists σ. split; [constructor|done]. }
  apply Forall_cons in Hok as [Ho Hok].
  destruct (eexec o e) as [r e1] eqn:E1, (eexec_all ops e1) as [rs2 e2] eqn:E2. injection E as <- <-.
  destruct (eexec_sim _ _ _ _ _ Ho Hrep E1) as (σ1 & Hs1 & Hr1).
  destruct (IH _ _ _ Hok Hr1 E2) as (σ2 & Hs2 & Hr2). exists σ2. split; [|done].
  econstructor; [done|]. by rewrite E1.
Qed.

(** An engine that has received nothing, over a fresh pool. *)
Definition fresh_engine (e : engine) : Prop :=
  recv_store e = [] /\ buffer_size dtype e = 0 /\
  exists mx mn ptr p mem, init mx mn ptr = Ok p /\ e_world e = World p mem.

Lemma erep_fresh e : fresh_engine e -> erep e ∅.
Proof.
  intros (Er & _ & mx & mn & ptr & p & mem & Hp & Ew). split; rewrite ?Er; [|constructor|done].
  exists ∅. rewrite Ew. split; [by eapply rep_init|]. intros id. constructor.
Qed.

(** C24: in the modes in which peers put tensors (every mode but GET, in which
    a load of the connector returns nothing), the receiving engine is a map
    from tensor ids to tensors.  Over any sequence of puts by the peers, loads
    of layers and finished requests, a load returns the very tensor that was put
    under its id, whether it stayed on the device or was spilled into the pool,
    and removes it; it waits exactly when nothing was put under the id;
    finishing forgets the ids of the request and nothing else; and loading and
    finishing never fail.  A put that finds no memory for its tensor leaves the
    id without one, and its load returns nothing; a put that raises (no memory,
    an unknown peer, a tensor the pool refuses) leaves the map as it was. *)
Theorem engine_refines_map e ops rs e' :
  fresh_engine e -> Forall eop_ok ops -> eexec_all ops e = (rs, e') ->
  exists σ', espec_run e ops rs ∅ σ' /\ erep e' σ'.
Proof. intros Hf Hok. by apply eexec_all_sim, erep_fresh. Qed.

(** ** Bytes *)

Definition entry_bytes (en : recv_entry dtype) : Z := match en with Device _ t => size t | _ => 0 end.
Definition device_bytes (d : dict string (recv_entry dtype)) : Z :=
  foldr (fun kv acc => entry_bytes kv.2 + acc) 0 d.
Definition bytes_at (d : dict string (recv_entry dtype)) (id : string) : Z :=
  match dget d id with Some en => entry_bytes en | None => 0 end.

Lemma device_bytes_ddel d id : device_bytes (ddel d id) = device_bytes d - bytes_at d id.
Proof.
  unfold bytes_at. induction d as [|[k en] d IH]; simpl; [done|]. destruct (decide (k = id)); simpl; lia.
Qed.

Lemma device_bytes_dset d id en : device_bytes (dset d id en) = device_bytes d + entry_bytes en - bytes_at d id.
Proof.
  unfold bytes_at. induction d as [|[k en'] d IH]; simpl; [lia|]. destruct (decide (k = id)); simpl; lia.
Qed.

(** The device tensors of a store have sizes. *)
Definition sized (d : dict string (recv_entry dtype)) : Prop := forall id t, dget d id = Some (Device dtype t) -> 0 <= size t.

Lemma bytes_at_nonneg d id : sized d -> 0 <= bytes_at d id.
Proof. intros Hs. unfold bytes_at. destruct (dget d id) as [[t| |]|] eqn:E; simpl; [by eapply Hs|done..]. Qed.

Lemma sized_ddel d id : NoDup (dkeys d) -> sized d -> sized (ddel d id).
Proof.
  intros Hk Hs id' t. destruct (decide (id = id')) as [<-|Hne]; [by rewrite dget_ddel_eq|].
  rewrite dget_ddel_ne by done. apply Hs.
Qed.

Lemma sized_dset d id en : sized d -> 0 <= entry_bytes en -> sized (dset d id en).
Proof.
  intros Hs He id' t. rewrite dget_dset. case_decide; [|apply Hs]. by intros [= ->].
Qed.

(** The bytes the ids hold, each taken once. *)
Fixpoint swept_bytes (d : dict string (recv_entry dtype)) (ids : list string) : Z :=
  match ids with [] => 0 | id :: rest => bytes_at d id + swept_bytes (ddel d id) rest end.

Lemma swept_spec d ids :
  NoDup (dkeys d) -> sized d ->
  device_bytes (foldl ddel d ids) = device_bytes d - swept_bytes d ids /\ 0 <= swept_bytes d ids /\
  sized (foldl ddel d ids).
Proof.
  revert d. induction ids as [|id ids IH]; intros d Hk Hs; simpl; [split; [lia|done]|].
  destruct (IH (ddel d id)) as (E & Hn & Hs'); [by apply NoDup_ddel|by apply sized_ddel|].
  rewrite E, device_bytes_ddel. pose proof (bytes_at_nonneg d id Hs). split; [lia|]. split; [lia|done].
Qed.

(** Bytes that leave the store without being counted down: of a tensor that is
    put over another, and of finished requests. *)
Definition forfeit (o : eop) (e : engine) : Z :=
  match o with
  | EPut _ id _ _ => if is_ok (eexec o e).1 then bytes_at (recv_store e) id else 0
  | ELoad _ _ => 0
  | EFinish rs ls => swept_bytes (recv_store e) (finished_ids rs ls)
  end.

Fixpoint forfeits (ops : list eop) (e : engine) : Z :=
  match ops with [] => 0 | o :: ops' => forfeit o e + forfeits ops' (eexec o e).2 end.

Definition surplus (e : engine) : Z := buffer_size dtype e - device_bytes (recv_store e).

(** The facts kept along a run. *)
Record counted (e : engine) : Prop := {
  co_rep : exists σ, erep e σ;
  co_sized : sized (recv_store e);
  co_bound : 0 <= threshold -> buffer_size dtype e <= threshold
}.

Lemma put_counted e s id alloc t :
  tensor_ok itemsize t -> counted e ->
  let e' := (eexec (EPut s id alloc t) e).2 in
  surplus e' = surplus e + forfeit (EPut s id alloc t) e /\ 0 <= forfeit (EPut s id alloc t) e /\
  sized (recv_store e') /\ (0 <= threshold -> buffer_size dtype e' <= threshold).
Proof.
  intros Ht [_ Hs Hb]. assert (0 <= size t) as Hsz by (unfold tensor_ok, nbytes in Ht; unfold tensor_size; lia).
  pose proof (bytes_at_nonneg _ id Hs) as Hold. unfold forfeit, surplus. simpl. unfold mbind, M_bind.
  destruct (handle_put s id alloc t e) as [r0 e0] eqn:E0.
  destruct (handle_put_run _ _ _ _ _ _ _ E0) as (r1 & e1 & Hr & Hrun).
  assert (forall en, r1 = Ok en -> 0 <= entry_bytes en /\ buffer_size dtype e1 = buffer_size dtype e + entry_bytes en /\
    (0 <= threshold -> buffer_size dtype e1 <= threshold)) as Hen.
  { intros en ->. inversion Hr; subst; simpl; repeat match goal with H : buffer_size _ _ = _ |- _ => rewrite H; clear H end;
      (split; [lia|split; [lia|]]); intros Ht0; specialize (Hb Ht0); lia. }
  assert (recv_store e1 = recv_store e) as Es by by destruct Hr.
  destruct r1 as [en|err].
  - destruct Hrun as (-> & _ & Eb & Er). simpl. destruct (Hen en eq_refl) as (H1 & H2 & H3).
    rewrite Er, Eb, Es, device_bytes_dset. split; [lia|]. split; [done|]. split; [by apply sized_dset|done].
  - destruct Hrun as (-> & ->). simpl. rewrite Es. assert (buffer_size dtype e1 = buffer_size dtype e) as -> by by inversion Hr.
    split; [lia|done].
Qed.

(** A load takes out an entry and counts it down, or changes nothing. *)
Lemma load_effect e request layer :
  counted e -> let id := get_tensor_id request layer in let e' := (eexec (ELoad request layer) e).2 in
  recv_store e' = recv_store e /\ buffer_size dtype e' = buffer_size dtype e \/
  recv_store e' = ddel (recv_store e) id /\ buffer_size dtype e' = buffer_size dtype e - bytes_at (recv_store e) id.
Proof.
  intros [(σ & Hrep) _ _]. simpl. unfold Swift.load_layer. set (id := get_tensor_id request layer).
  pose proof Hrep as [(π & Hpool & Hen) Hk Hu]. pose proof (Hen id) as Hid. unfold bytes_at.
  assert (forall e1 t, recv_store e1 = recv_store e -> e_world e1 = e_world e ->
    recv_tensor dtype itemsize frombuffer mode id None None e = (Ok (Some t), e1) ->
    let e' := ((recv_tensor dtype itemsize frombuffer mode id None None ≫= fun kv =>
       match kv with None => mret None | Some t => drop_entry dtype request id ;; mret (Some t) end) e).2 in
    recv_store e' = ddel (recv_store e) id /\ buffer_size dtype e' = buffer_size dtype e1) as Hdrop.
  { intros e1 t Es Ew E1. unfold mbind, M_bind. rewrite E1.
    assert (erep e1 σ) as Hrep1 by (apply (erep_same e e1 σ π); by rewrite ?Ew).
    destruct (drop_sim e1 σ request id Hrep1) as (e2 & -> & (Es2 & Eb2 & _) & _). simpl. by rewrite Es2, Es. }
  inversion Hid as [E1 E2|E1 E2|t E1 E2|a t Ha E1 E2].
  - left. unfold mbind, M_bind, recv_tensor. destruct mode; [| |done]; munfold; by rewrite <- E1.
  - left. unfold mbind, M_bind, recv_tensor. destruct mode; [| |done]; munfold; by rewrite <- E1.
  - right. edestruct (Hdrop (add_buffer dtype (- size t) e) t) as [H1 H2]; [done|done| |].
    { unfold recv_tensor. destruct mode; [| |done]; munfold; by rewrite <- E1. }
    split; [exact H1|]. etransitivity; [exact H2|]. simpl. lia.
  - right. edestruct (Hdrop (set_world dtype (e_world e) e) t) as [H1 H2]; [done|done| |].
    { unfold recv_tensor. destruct mode; [| |done]; munfold; rewrite <- E1; unfold in_world;
        by rewrite (load_tensor_spec _ _ _ _ Hpool Ha). }
    split; [exact H1|]. etransitivity; [exact H2|]. simpl. lia.
Qed.

Lemma step_counted e o :
  eop_ok o -> counted e -> let e' := (eexec o e).2 in
  counted e' /\ surplus e' = surplus e + forfeit o e /\ 0 <= forfeit o e.
Proof.
  intros Hok Hc. pose proof Hc as [(σ & Hrep) Hs Hb].
  assert (exists σ', erep (eexec o e).2 σ') as Hrep'.
  { destruct (eexec o e) as [r e'] eqn:E. destruct (eexec_sim _ _ _ _ _ Hok Hrep E) as (σ' & _ & ?). eauto. }
  destruct o as [s id alloc t|request layer|requests layers].
  - destruct (put_counted e s id alloc t Hok Hc) as (H1 & H2 & H3 & H4). split; [by split|done].
  - pose proof (load_effect e request layer Hc) as Hl. set (e' := (eexec (ELoad request layer) e).2) in *.
    cbn zeta in *. unfold surplus. pose proof (bytes_at_nonneg _ (get_tensor_id request layer) Hs).
    destruct Hl as [[Es Eb]|[Es Eb]]; rewrite ?device_bytes_ddel, Es, Eb, ?device_bytes_ddel; simpl.
    + split; [split; [done| |]; rewrite ?Es, ?Eb; done|lia].
    + split; [split; [done| |]; rewrite ?Es, ?Eb|lia].
      * apply sized_ddel; [by destruct Hrep|done].
      * intros Ht. specialize (Hb Ht). lia.
  - destruct (finish_sim e σ requests layers Hrep) as (e1 & E1 & [Es Eb] & _).
    assert ((eexec (EFinish requests layers) e).2 = e1) as E' by (simpl; unfold mbind, M_bind; by rewrite E1).
    rewrite E' in *. destruct (swept_spec (recv_store e) (finished_ids requests layers)) as (H1 & H2 & H3);
      [by destruct Hrep|done|]. cbn zeta.
    split; [split; [done| |]; rewrite ?Es, ?Eb; done|]. unfold surplus. rewrite Es, Eb, H1. simpl. lia.
Qed.

Lemma run_counted ops e :
  Forall eop_ok ops -> counted e -> let e' := (eexec_all ops e).2 in
  counted e' /\ surplus e' = surplus e + forfeits ops e /\ 0 <= forfeits ops e.
Proof.
  revert e. induction ops as [|o ops IH]; intros e Hok Hc; cbn; [split; [done|]; lia|].
  apply Forall_cons in Hok as [Ho Hok]. destruct (step_counted e o Ho Hc) as (Hc1 & E1 & Hn1).
  destruct (IH _ Hok Hc1) as (Hc2 & E2 & Hn2). destruct (eexec o e) as [r e1] eqn:Ee. simpl in *.
  destruct (eexec_all ops e1) as [rs e2] eqn:Ee2. simpl in *. split; [done|]. lia.
Qed.

(** The byte count of the receiving engine.  Over any run it is the bytes
    of the device tensors in the store plus the bytes forfeited so far, those
    of finished requests that were never loaded and of tensors put over; it
    never exceeds the threshold. *)
Theorem buffer_accounting e ops :
  fresh_engine e -> Forall eop_ok ops ->
  let e' := (eexec_all ops e).2 in
  buffer_size dtype e' = device_bytes (recv_store e') + forfeits ops e /\ 0 <= forfeits ops e /\
  (0 <= threshold -> buffer_size dtype e' <= threshold).
Proof.
  intros Hf Hok. assert (counted e) as Hc.
  { pose proof (erep_fresh _ Hf) as Hrep. destruct Hf as (Es & Eb & _). split; [eauto| |lia]. intros id t. by rewrite Es. }
  destruct (run_counted ops e Hok Hc) as (Hc' & E & Hn). destruct Hf as (Es & Eb & _).
  unfold surplus in E. rewrite Es, Eb in E. cbn in E. cbn zeta. split; [lia|]. split; [done|by apply Hc'].
Qed.
End receive.

(** ** A full pool *)

Section spill.
Context {dtype : Type} (itemsize : dtype -> Z) (frombuffer : dtype -> Z -> Z -> option exn).
Context (mode : send_type) (threshold : Z).

(** A full pool ends the listener.  When a tensor neither fits below the
    threshold nor into the pool, the error of the pool leaves the handler after
    the peer was told to send: nothing is stored under the id, and a load of
    that layer waits. *)
Theorem full_pool_stops_listener (e : Swift.engine dtype) sender request layer t rank msg p' :
  let id := get_tensor_id request layer in
  mode <> GET -> dget (comms dtype e) sender = Some rank -> t_is_cuda _ t = true ->
  threshold < buffer_size dtype e + tensor_size dtype itemsize t ->
  allocate (tensor_size dtype itemsize t) (w_pool (Swift.e_world dtype e)) = (Err (Exn ValueError msg), p') ->
  dget (Swift.recv_store dtype e) id = None ->
  exists e', handle_put dtype itemsize frombuffer threshold sender id None t e = (Err (Exn ValueError msg), e') /\
    last (replies dtype e') = Some (sender, "0") /\
    load_layer dtype itemsize frombuffer mode request layer e' = (Err (Exn Waits id), e').
Proof.
  intros id Hm Hc Hcu Hlt Ha Hno. destruct e as [w rs ss sq ri si sk cm bs rp]. simpl in *.
  unfold handle_put, receive_guarded, try_, receive_tensor. munfold. unfold comm_of. cbn. rewrite Hc. cbn.
  rewrite (proj2 (Z.ltb_lt _ _) Hlt). unfold in_world, store_tensor. rewrite Hcu. cbn. munfold. unfold on_pool at 1.
  unfold tensor_size in Ha. rewrite Ha. cbn. eexists. split; [done|]. cbn. split; [apply last_snoc|].
  unfold load_layer, recv_tensor. fold id. destruct mode; [| |done]; munfold; cbn; by rewrite Hno.
Qed.
End spill.

(** ** Offered tensors *)

Section offer.
Context {dtype : Type} (itemsize : dtype -> Z) (threshold : Z).

Abbreviation tensor := (Pool.tensor dtype).
Abbreviation size := (tensor_size dtype itemsize).

Definition offered_bytes (d : dict string tensor) : Z := foldr (fun kv acc => size kv.2 + acc) 0 d.

Lemma evict_spec d n :
  n <= threshold -> exists k, evict dtype itemsize threshold d n (offered_bytes d) = (Ok tt, (drop k d, offered_bytes (drop k d))) /\
    offered_bytes (drop k d) + n <= threshold /\ forall m, (m < k)%nat -> threshold < offered_bytes (drop m d) + n.
Proof.
  intros Hn. induction d as [|[id t] d IH].
  - exists 0%nat. simpl. destruct (Z.ltb_spec threshold (0 + n)); [lia|]. split; [done|]. split; [lia|]. intros m Hm. lia.
  - simpl. destruct (Z.ltb_spec threshold (size t + offered_bytes d + n)) as [Hlt|Hge].
    + destruct IH as (k & E & H1 & H2). exists (S k). rewrite Z.add_simpl_l, E. split; [done|]. split; [done|].
      intros [|m] Hm; simpl; [lia|apply H2; lia].
    + exists 0%nat. split; [done|]. split; [simpl; lia|]. intros m Hm. lia.
Qed.

Lemma offered_app d id t : offered_bytes (d ++ [(id, t)]) = offered_bytes d + size t.
Proof. induction d as [|[k v] d IH]; simpl; lia. Qed.

(** Offering a tensor keeps the store within its threshold.  A tensor that
    can never fit is refused and nothing changes.  Any other is stored behind
    the rest, after dropping as few of the oldest tensors as needed; the count
    is the bytes of the store, at most the threshold, and the assertion of the
    loop never fails. *)
Theorem offer_bounded (e : Swift.engine dtype) id t :
  buffer_size dtype e = offered_bytes (send_store dtype e) -> dget (send_store dtype e) id = None ->
  if threshold <? size t then offer_tensor dtype itemsize threshold id t e = (Ok false, e)
  else exists e' k, offer_tensor dtype itemsize threshold id t e = (Ok true, e') /\
    send_store dtype e' = drop k (send_store dtype e) ++ [(id, t)] /\
    buffer_size dtype e' = offered_bytes (send_store dtype e') /\ buffer_size dtype e' <= threshold /\
    forall m, (m < k)%nat -> threshold < offered_bytes (drop m (send_store dtype e)) + size t.
Proof.
  intros Hb Hno. unfold offer_tensor. destruct (Z.ltb_spec threshold (size t)) as [Hlt|Hge]; [done|].
  destruct (evict_spec (send_store dtype e) (size t) Hge) as (k & E & Hle & Hmin).
  munfold. rewrite Hb, E. destruct e as [w rs ss sq ri si sk cm bs rp]. cbn in *.
  assert (dset (drop k ss) id t = drop k ss ++ [(id, t)]) as Ed.
  { apply dset_notin. apply dget_None in Hno. intros Hin. apply Hno. unfold dkeys in *.
    rewrite <- (take_drop k ss), map_app, elem_of_app. by right. }
  eexists _, k. split; [done|]. cbn. rewrite Ed, offered_app. split; [done|]. split; [lia|]. split; [lia|done].
Qed.
End offer.

(** ** The send queue *)

Section queue.
Context {dtype : Type} (itemsize : dtype -> Z) (threshold : Z).

Abbreviation tensor := (Pool.tensor dtype).
Abbreviation engine := (Swift.engine dtype).
Abbreviation item := (SendQueueItem dtype).
Abbreviation send_queue := (Swift.send_queue dtype).
Abbreviation send_sync := (Swift.send_sync dtype PUT_ASYNC).

(** The runner thread appends, the sender thread takes an item under the lock
    and sends it outside of it.  [q_added] and [q_done] record the items
    appended and the ones whose sending ended. *)
Record threads := Threads { q_engine : engine; q_flight : option item; q_added : list item; q_done : list item }.

Inductive qstep : threads -> threads -> Prop :=
  | q_append e e' fl a d id t peer resp :
      send_tensor dtype itemsize PUT_ASYNC threshold id t (Some peer) resp e = (Ok true, e') ->
      qstep (Threads e fl a d) (Threads e' fl (a ++ [QueueItem dtype id (Some (Peer peer)) t]) d)
  | q_take e e' it a d :
      take_item dtype e = (Ok it, e') -> qstep (Threads e None a d) (Threads e' (Some it) a d)
  | q_send e e' it a d resp b :
      send_sync it resp e = (Ok b, e') -> qstep (Threads e (Some it) a d) (Threads e' None a (d ++ [it])).

Lemma send_sync_queue it resp e r e' : send_sync it resp e = (r, e') -> send_queue e' = send_queue e.
Proof.
  intros E. destruct e as [w rs ss sq ri si sk cm bs rp]. unfold Swift.send_sync, create_connect, create_connect_new, comm_of, have_sent_tensor_id in E.
  munfold. repeat (case_match; simplify_eq; try done); cbn in *; simplify_eq; done.
Qed.

Lemma take_item_spec e it e' : take_item dtype e = (Ok it, e') <-> send_queue e = it :: send_queue e' /\ e' = set_queue dtype (send_queue e') e.
Proof.
  unfold take_item. munfold. split.
  - destruct (send_queue e) as [|it' rest] eqn:Eq; [done|]. by intros [= <- <-].
  - intros [Eq Ee]. rewrite Eq. f_equal. done.
Qed.

(** The queue is first in, first out.  In every interleaving of the two
    threads the items appended are, in order, those sent, the one being sent
    and those still queued; so when [wait_for_sent] returns, every item but
    the one being sent has been sent. *)
Theorem queue_fifo e0 st :
  send_queue e0 = [] -> rtc qstep (Threads e0 None [] []) st ->
  q_added st = q_done st ++ option_list (q_flight st) ++ send_queue (q_engine st) /\
  (forall e', wait_for_sent dtype PUT_ASYNC (q_engine st) = (Ok tt, e') ->
     q_added st = q_done st ++ option_list (q_flight st)).
Proof.
  intros H0 Hrun.
  assert (q_added st = q_done st ++ option_list (q_flight st) ++ send_queue (q_engine st)) as Hinv.
  { assert (forall a b, rtc qstep a b ->
      q_added a = q_done a ++ option_list (q_flight a) ++ send_queue (q_engine a) ->
      q_added b = q_done b ++ option_list (q_flight b) ++ send_queue (q_engine b)) as Hind.
    { intros a b Hab. induction Hab as [|a b c Hstep _ IH]; [done|]. intros Ha. apply IH. clear IH.
      destruct Hstep as [e e' fl a d id t peer resp E|e e' it a d E|e e' it a d resp b' E]; simpl in *.
      - unfold send_tensor in E. munfold. injection E as <-. cbn. rewrite Ha, <- !app_assoc. done.
      - apply take_item_spec in E as [E _]. by rewrite Ha, E.
      - apply send_sync_queue in E. rewrite Ha, E. by rewrite <- app_assoc. }
    apply (Hind _ _ Hrun). simpl. by rewrite H0. }
  split; [done|]. intros e' E. rewrite Hinv. unfold wait_for_sent in E. munfold.
  destruct (send_queue (q_engine st)); [by rewrite app_nil_r|done].
Qed.

(** A peer whose communicator exists, or is made with the socket. *)
Definition linked (e : engine) (it : item) : Prop :=
  match qi_remote dtype it with
  | None => True
  | Some (Peer a) => a ∈ socks dtype e -> is_Some (dget (comms dtype e) a)
  | Some (Paired p) => is_Some (dget (comms dtype e) (pd_pair_id p))
  end.

Lemma is_Some_dset {V} (d : dict string V) k v k' : is_Some (dget d k') -> is_Some (dget (dset d k v) k').
Proof. rewrite dget_dset. case_decide; [by eexists|done]. Qed.

Lemma send_peer e it a resp :
  qi_remote dtype it = Some (Peer a) -> linked e it -> exists e',
    send_sync it resp e = (Ok (bool_decide (resp = "0")), e') /\
    forall a', (a' ∈ socks dtype e -> is_Some (dget (comms dtype e) a')) ->
      a' ∈ socks dtype e' -> is_Some (dget (comms dtype e') a').
Proof.
  intros Er Hl. unfold linked in Hl. destruct e as [w rs ss sq ri si sk cm bs rp]. unfold Swift.send_sync.
  rewrite Er in *. cbn in Hl. unfold create_connect, comm_of, have_sent_tensor_id. munfold. cbn.
  destruct (decide (a ∈ sk)) as [Hin|Hni]; cbn.
  - destruct (Hl Hin) as [rk Ek]. rewrite Ek. destruct (decide (resp = "0")) as [Hz|Hz];
      rewrite ?bool_decide_true, ?bool_decide_false by done; eexists; by split.
  - unfold dmem. destruct (dget cm a) as [rk|] eqn:Ek; cbn; rewrite ?Ek, ?dget_dset_eq;
      (destruct (decide (resp = "0")) as [Hz|Hz]; rewrite ?bool_decide_true, ?bool_decide_false by done;
       (eexists; split; [reflexivity|])); cbn; intros a' Ha' [Hs| ->%list_elem_of_singleton]%elem_of_app;
      rewrite ?dget_dset_eq, ?Ek; try (by eexists); auto; apply is_Some_dset; auto.
Qed.

Lemma send_paired e it p resp :
  qi_remote dtype it = Some (Paired p) -> linked e it -> exists e',
    send_sync it resp e = (Ok (bool_decide (resp = "0")), e') /\ comms dtype e' = comms dtype e.
Proof.
  intros Er Hl. unfold linked in Hl. destruct e as [w rs ss sq ri si sk cm bs rp]. unfold Swift.send_sync.
  rewrite Er in *. cbn in Hl. unfold create_connect_new, comm_of, have_sent_tensor_id. munfold. cbn.
  destruct Hl as [rk Ek]. rewrite Ek. destruct (decide (resp = "0")) as [Hz|Hz];
    rewrite ?bool_decide_true, ?bool_decide_false by done; eexists; by split.
Qed.

(** Items of one addressing mode; a deployment uses one of the two. *)
Definition of_kind (paired : bool) (it : item) : Prop :=
  match qi_remote dtype it with Some (Peer _) => paired = false | Some (Paired _) => paired = true | None => False end.

Lemma send_linked k e it resp :
  of_kind k it -> linked e it -> exists e', send_sync it resp e = (Ok (bool_decide (resp = "0")), e') /\
    forall it', of_kind k it' -> linked e it' -> linked e' it'.
Proof.
  intros Hk Hl. unfold of_kind in Hk. destruct (qi_remote dtype it) as [[a|p]|] eqn:Er; [subst k|subst k|done].
  - destruct (send_peer e it a resp Er Hl) as (e' & E & Hkeep). exists e'. split; [done|].
    intros it' Hk'. unfold of_kind, linked in *. destruct (qi_remote dtype it') as [[a'|p']|]; [by apply Hkeep|done..].
  - destruct (send_paired e it p resp Er Hl) as (e' & E & Ec). exists e'. split; [done|].
    intros it' Hk'. unfold of_kind, linked in *. rewrite Ec. by destruct (qi_remote dtype it') as [[a'|p']|].
Qed.

(** The loop of the sender thread: an item is taken and sent per answer. *)
Fixpoint sender_rounds (responses : list string) : M engine (list bool) :=
  match responses with
  | [] => mret []
  | resp :: rest => it ← take_item dtype; ok ← send_sync it resp; oks ← sender_rounds rest; mret (ok :: oks)
  end.

(** The queue drains.  When the peers of the queued items are linked, the
    sender thread ends as many rounds as there are items whatever the peers
    answer, an item is reported sent when its peer accepted it, and
    [wait_for_sent] then returns. *)
Theorem queue_drains k e responses :
  Forall (of_kind k) (send_queue e) -> Forall (linked e) (send_queue e) ->
  length responses = length (send_queue e) ->
  exists e', sender_rounds responses e = (Ok (map (fun r => bool_decide (r = "0")) responses), e') /\
    send_queue e' = [] /\ wait_for_sent dtype PUT_ASYNC e' = (Ok tt, e').
Proof.
  revert e. induction responses as [|resp rest IH]; intros e Hk Hl Hlen; simpl in *.
  { symmetry in Hlen. apply nil_length_inv in Hlen. exists e. split; [done|]. split; [done|].
    unfold wait_for_sent. munfold. by rewrite Hlen. }
  destruct (send_queue e) as [|it q] eqn:Eq; [done|]. inversion Hk as [|? ? Hki Hkq]; inversion Hl as [|? ? Hli Hlq]; subst.
  set (e1 := set_queue dtype q e).
  assert (take_item dtype e = (Ok it, e1)) as E1 by (apply take_item_spec; by rewrite Eq).
  destruct (send_linked k e1 it resp Hki Hli) as (e2 & E2 & Hkeep).
  assert (send_queue e2 = q) as Eq2 by by rewrite (send_sync_queue _ _ _ _ _ E2).
  unfold mbind, M_bind. rewrite E1, E2. destruct (IH e2) as (e3 & E3 & Hq & Hw).
  - by rewrite Eq2.
  - rewrite Eq2. rewrite Forall_forall in Hlq, Hkq |- *. intros it' Hin. apply Hkeep; [by apply Hkq|]. by apply (Hlq it' Hin).
  - rewrite Eq2. by injection Hlen.
  - rewrite E3. exists e3. done.
Qed.
End queue.

(** ** Concrete runs: tensors of four bytes, a threshold of four bytes *)

Definition demo_pool_of (mx : Z) : TensorMemoryPool :=
  match init mx 4 64 with Ok p => p | Err _ => MkPool 0 0 [] [] None 0 end.
Definition demo_engine (mx : Z) : Swift.engine unit :=
  Engine unit (World (demo_pool_of mx) (fun _ => 0)) [] [] [] [] [] [] [("p", 1)] 0 [].
Definition demo_run : list (@eop unit) :=
  [EPut "p" "r#a" None (demo_tensor 1 2); EPut "p" "r#b" None (demo_tensor 3 4); ELoad "r" "b"; ELoad "r" "b"; ELoad "r" "a"].

Lemma demo_engine_fresh : fresh_engine (demo_engine 32).
Proof. split; [done|]. split; [done|]. exists 32, 4, 64, (demo_pool_of 32), (fun _ => 0). split; [vm_compute|]; reflexivity. Qed.

Lemma demo_run_ok : Forall (eop_ok (fun _ : unit => 2)) demo_run.
Proof. repeat constructor. Qed.

Lemma engine_refines_map_witness :
  exists e' σ', eexec_all (fun _ => 2) demo_frombuffer PUT 4 demo_run (demo_engine 32) =
      ([Ok None; Ok None; Ok (Some (demo_tensor 3 4)); Err (Exn Waits "r#b"); Ok (Some (demo_tensor 1 2))], e') /\
    espec_run (fun _ => 2) demo_frombuffer PUT 4 (demo_engine 32) demo_run
      [Ok None; Ok None; Ok (Some (demo_tensor 3 4)); Err (Exn Waits "r#b"); Ok (Some (demo_tensor 1 2))] ∅ σ'.
Proof.
  destruct (eexec_all (fun _ => 2) demo_frombuffer PUT 4 demo_run (demo_engine 32)) as [rs e'] eqn:E.
  destruct (engine_refines_map (fun _ => 2) demo_frombuffer PUT 4 ltac:(discriminate) (demo_engine 32) demo_run rs e'
    demo_engine_fresh demo_run_ok E) as (σ' & Hrun & _).
  assert (rs = [Ok None; Ok None; Ok (Some (demo_tensor 3 4)); Err (Exn Waits "r#b"); Ok (Some (demo_tensor 1 2))]) as ->.
  { apply (f_equal fst) in E. simpl fst in E at 2. rewrite <- E. vm_compute. reflexivity. }
  exists e', σ'. split; [reflexivity|exact Hrun].
Defined.

Lemma buffer_accounting_witness :
  buffer_size unit (eexec_all (fun _ => 2) demo_frombuffer PUT 4 demo_run (demo_engine 32)).2 = 0.
Proof.
  destruct (buffer_accounting (fun _ => 2) demo_frombuffer PUT 4 ltac:(discriminate) (demo_engine 32) demo_run
    demo_engine_fresh demo_run_ok) as (E & _).
  etransitivity; [exact E|]. vm_compute. reflexivity.
Defined.

Lemma full_pool_stops_listener_witness :
  exists e', handle_put unit (fun _ => 2) demo_frombuffer 0 "p" "r#a" None (demo_tensor 1 2)
    (set_world unit (World (allocate 32 (demo_pool_of 32)).2 (fun _ => 0)) (demo_engine 32)) =
    (Err (Exn ValueError "Insufficient memory"), e').
Proof.
  destruct (full_pool_stops_listener (fun _ => 2) demo_frombuffer PUT 0
    (set_world unit (World (allocate 32 (demo_pool_of 32)).2 (fun _ => 0)) (demo_engine 32)) "p" "r" "a" (demo_tensor 1 2) 1
    "Insufficient memory" (allocate 32 (demo_pool_of 32)).2) as (e' & H & _);
    [discriminate|reflexivity|reflexivity|vm_compute; reflexivity|vm_compute; reflexivity|reflexivity|].
  exists e'. exact H.
Defined.

Definition demo_offers : Swift.engine unit :=
  add_buffer unit 8 (set_send unit [("x", demo_tensor 1 2); ("y", demo_tensor 3 4)] (demo_engine 32)).

Lemma offer_bounded_witness :
  exists e' k, offer_tensor unit (fun _ => 2) 9 "z" (demo_tensor 5 6) demo_offers = (Ok true, e') /\
    send_store unit e' = drop k (send_store unit demo_offers) ++ [("z", demo_tensor 5 6)].
Proof.
  destruct (offer_bounded (fun _ => 2) 9 demo_offers "z" (demo_tensor 5 6)) as (e' & k & H1 & H2 & _);
    [vm_compute; reflexivity|reflexivity|]. exists e', k. split; [exact H1|exact H2].
Defined.

Definition demo_items : list (SendQueueItem unit) :=
  [QueueItem unit "r#a" (Some (Peer "d")) (demo_tensor 1 2); QueueItem unit "r#b" (Some (Peer "d")) (demo_tensor 3 4)].

Lemma queue_drains_witness :
  exists e', sender_rounds ["0"; "1"] (set_queue unit demo_items (demo_engine 32)) = (Ok [true; false], e').
Proof.
  destruct (queue_drains false (set_queue unit demo_items (demo_engine 32)) ["0"; "1"]) as (e' & H & _).
  - repeat constructor.
  - repeat constructor; intros Hin; by apply not_elem_of_nil in Hin.
  - reflexivity.
  - exists e'. exact H.
Defined.

Lemma queue_fifo_witness :
  exists st, rtc (qstep (fun _ : unit => 2) 4) (Threads (demo_engine 32) None [] []) st /\
    q_added st = [QueueItem unit "r#a" (Some (Peer "d")) (demo_tensor 1 2)] /\ q_done st = [] /\
    q_added st = q_done st ++ option_list (q_flight st).
Proof.
  assert (rtc (qstep (fun _ : unit => 2) 4) (Threads (demo_engine 32) None [] [])
    (Threads (demo_engine 32) (Some (QueueItem unit "r#a" (Some (Peer "d")) (demo_tensor 1 2)))
       [QueueItem unit "r#a" (Some (Peer "d")) (demo_tensor 1 2)] [])) as Hrun.
  { eapply rtc_l; [apply (q_append _ _ (demo_engine 32)) with (id := "r#a") (t := demo_tensor 1 2) (peer := "d") (resp := "0"); reflexivity|].
    eapply rtc_l; [apply q_take; reflexivity|]. apply rtc_refl. }
  eexists. split; [exact Hrun|]. split; [reflexivity|]. split; [reflexivity|].
  destruct (queue_fifo (fun _ => 2) 4 (demo_engine 32) _ eq_refl Hrun) as [_ H]. apply (H (demo_engine 32)). reflexivity.
Defined.

(** A request that finishes before it is loaded keeps its bytes counted: with
    the store empty, the next tensor spills into the pool. *)
Example finished_request_keeps_bytes :
  let e := (eexec_all (fun _ => 2) demo_frombuffer PUT 4
    [EPut "p" "r#a" None (demo_tensor 1 2); EFinish ["r"] ["a"]] (demo_engine 32)).2 in
  recv_store unit e = [] /\ buffer_size unit e = 4 /\
  recv_store unit (eexec (fun _ => 2) demo_frombuffer PUT 4 (EPut "p" "s#a" None (demo_tensor 3 4)) e).2 =
    [("s#a", Pooled unit 64 tt [2])].
Proof. vm_compute. done. Qed.

(** Offering an id again counts it twice, and the assertion can fail. *)
Example offered_twice_asserts :
  let e := (offer_tensor unit (fun _ => 2) 10 "x" (demo_tensor 1 2) (demo_engine 32)).2 in
  let e' := (offer_tensor unit (fun _ => 2) 10 "x" (demo_tensor 1 2) e).2 in
  buffer_size unit e' = 8 /\ offered_bytes (fun _ => 2) (send_store unit e') = 4 /\
  (offer_tensor unit (fun _ => 2) 10 "y" (Tensor unit true tt [4] [1; 1; 2; 2; 3; 3; 4; 4]) e').1 = Err (Exn AssertionError "").
Proof. vm_compute. done. Qed.

(** In [GET] mode a load asks no peer, so no layer is ever loaded. *)
Example get_mode_loads_nothing {dtype} itemsize frombuffer (e : Swift.engine dtype) request layer :
  load_layer dtype itemsize frombuffer GET request layer e = (Ok None, e).
Proof. done. Qed.
