(* ===== verification/SwiftRouting.v ===== *)
(** * Addresses of KV transfers

    Models the routing of
    src/vllm_hcu/distributed/kv_transfer/kv_connector/v1/du/du_swift_engine.py:
    the addresses a request id carries, the pipeline stage of the decode side
    that has a layer, and the peers a prefill rank sends a layer to. *)

From S2P Require Import Prelude PyString MemoryPool SwiftEngine.
From stdpp Require Import pretty.
From Stdlib Require Import Ascii String.
Import Pool Swift.
Local Open Scope string_scope.

Module Routing.

(** ** Request ids

    [regex.search] for a literal, a host taken greedily, a colon, the digits of
    a port and a literal after it. *)

Definition is_digit (c : ascii) : bool :=
  let n := nat_of_ascii c in ((48 <=? n) && (n <=? 57))%nat.
Definition digit_value (c : ascii) : Z := Z.of_nat (nat_of_ascii c) - 48.

(** [int] of a string of digits, with the value of what came before *)
Fixpoint digits_value (acc : Z) (s : string) : Z :=
  match s with
  | EmptyString => acc
  | String c s' => digits_value (10 * acc + digit_value c) s'
  end.

(** The longest prefix of digits and what follows *)
Fixpoint span_digits (s : string) : string * string :=
  match s with
  | EmptyString => (EmptyString, EmptyString)
  | String c s' =>
      if is_digit c then let (ds, rest) := span_digits s' in (String c ds, rest)
      else (EmptyString, s)
  end.

(** The port after a colon, when the literal [after] follows it *)
Definition port_at (after s : string) : option Z :=
  let (ds, rest) := span_digits s in
  if decide (ds = "") then None
  else if startswith after rest then Some (digits_value 0 ds) else None.

(** The longest host that a colon and a port follow; a host has no newline *)
Fixpoint greedy_host (after s : string) : option (string * Z) :=
  match s with
  | EmptyString => None
  | String c s' =>
      let later := if decide (c = "010"%char) then None else greedy_host after s' in
      match later with
      | Some (host, port) => Some (String c host, port)
      | None =>
          if decide (c = ":"%char) then
            match port_at after s' with Some port => Some (EmptyString, port) | None => None end
          else None
      end
  end.

(** The rest of [s] after the literal [p], if [s] starts with it *)
Fixpoint strip_prefix (p s : string) : option string :=
  match p, s with
  | EmptyString, _ => Some s
  | String a p', String b s' => if decide (a = b) then strip_prefix p' s' else None
  | String _ _, EmptyString => None
  end.

(** The match at the leftmost place *)
Fixpoint search (before after s : string) : option (string * Z) :=
  match strip_prefix before s ≫= greedy_host after with
  | Some r => Some r
  | None => match s with EmptyString => None | String _ s' => search before after s' end
  end.

Definition parse_request_id (request_id : string) (is_prefill : bool) : result (string * Z) :=
  let found := if is_prefill then search "___decode_addr_" "" request_id
               else search "___prefill_addr_" "___" request_id in
  match found with
  | Some r => Ok r
  | None => Err (Exn ValueError ("Request id " ++ request_id ++ " does not contain hostname and port"))
  end.

Local Open Scope Z_scope.
Local Open Scope list_scope.

(** ** Pipeline stages *)

(** [partitions[i]], a negative index counting from the end *)
Definition list_at (l : list Z) (i : Z) : result Z :=
  let j := if i <? 0 then Z.of_nat (Datatypes.length l) + i else i in
  if j <? 0 then Err (Exn IndexError "list index out of range") else
  match l !! Z.to_nat j with Some x => Ok x | None => Err (Exn IndexError "list index out of range") end.

(** [partitions[i] += 1] *)
Definition list_incr (l : list Z) (i : Z) : result (list Z) :=
  x ← list_at l i;
  mret (<[Z.to_nat (if i <? 0 then Z.of_nat (Datatypes.length l) + i else i) := x + 1]> l).

Fixpoint incr_all (l : list Z) (indices : list Z) : result (list Z) :=
  match indices with
  | [] => Ok l
  | i :: rest => l' ← list_incr l i; incr_all l' rest
  end.

Definition sum (l : list Z) : Z := foldr Z.add 0 l.

Section stages.
(** [getattr] reads an attribute of the module of environment variables, and
    [int_of] is Python's [int] of a string. *)
Context (getattr : string -> result (option string)) (int_of : string -> option Z).

Definition get_pp_indices_d (num_hidden_layers pp_rank pp_size : Z) : result (Z * Z) :=
  partition_list_str ← getattr "VLLM_PP_LAYER_PARTITION_D"%string;
  partitions ←
    match partition_list_str with
    | Some text =>
        match mapM int_of (split_on ","%char text) with
        | None => Err (Exn ValueError ("Invalid partition string: " +:+ text))
        | Some partitions =>
            if negb (Z.of_nat (Datatypes.length partitions) =? pp_size)
            then Err (Exn ValueError "len(partitions) does not match pp_size.")
            else if negb (sum partitions =? num_hidden_layers)
            then Err (Exn ValueError "sum(partitions) does not match num_hidden_layers.")
            else Ok partitions
        end
    | None =>
        if pp_size =? 0 then Err (Exn ZeroDivisionError "integer division or modulo by zero") else
        let layers_per_partition := num_hidden_layers / pp_size in
        let partitions := replicate (Z.to_nat pp_size) layers_per_partition in
        let remaining_layers := num_hidden_layers mod pp_size in
        incr_all partitions (map (fun i => - i) (seqZ 2 remaining_layers))
    end;
  let start_layer := sum (take (Z.to_nat pp_rank) partitions) in
  size ← list_at partitions pp_rank;
  mret (start_layer, start_layer + size).

Fixpoint remote_pp_loop (ranks : list Z) (total remote_pp_size layer : Z) : result Z :=
  match ranks with
  | [] => Ok (-1)
  | d_pp_rank :: rest =>
      indices ← get_pp_indices_d total d_pp_rank remote_pp_size;
      if layer =? total then Ok (remote_pp_size - 1)
      else if (indices.1 <=? layer) && (layer <? indices.2) then Ok d_pp_rank
      else remote_pp_loop rest total remote_pp_size layer
  end.

(** [compute_remote_pp_rank] of the layer with index [layer] *)
Definition compute_remote_pp_rank (total remote_pp_size layer : Z) : result Z :=
  remote_pp_loop (seqZ 0 remote_pp_size) total remote_pp_size layer.

(** ** Peers of a layer *)

(** The place of a prefill rank, and the sizes of both sides *)
Record placement := Placement {
  rank : Z;
  tp_rank : Z;
  tp_size : Z;
  pp_size : Z;
  remote_tp_size : Z;
  remote_pp_size : Z;
  enable_asymmetric_p2p : bool
}.

(** [int(remote_tp_size / tp_size)] *)
Definition multp (s : placement) : Z := remote_tp_size s / tp_size s.

(** The decode ranks the nested loops find *)
Definition d_tp_ranks (s : placement) : list Z :=
  List.concat (map (fun d => map (fun _ => d)
    (List.filter (fun m => tp_rank s + m * tp_size s =? d) (seqZ 0 (multp s)))) (seqZ 0 (remote_tp_size s))).

Definition address (ip : string) (port : Z) : string := (ip +:+ ":" +:+ pretty port)%string.

Definition get_send_queue_items {dtype} (s : placement) (total layer : Z)
    (request_id layer_name : string) (t : tensor dtype) : result (list (SendQueueItem dtype)) :=
  let tensor_id := get_tensor_id request_id layer_name in
  d ← parse_request_id request_id true;
  p ← parse_request_id request_id false;
  let pair := (address p.1 p.2 +:+ "_" +:+ address d.1 d.2)%string in
  let item offset := QueueItem dtype tensor_id
    (Some (Paired (MkRemote pair (address d.1 (d.2 + offset)) (offset + pp_size s * tp_size s)))) t in
  if negb (enable_asymmetric_p2p s) then mret [item (rank s)]
  else
    remote_pp_rank ← compute_remote_pp_rank total (remote_pp_size s) layer;
    mret (map (fun d_tp_rank => item (remote_pp_rank * remote_tp_size s + d_tp_rank)) (d_tp_ranks s)).
End stages.

(** [send_tensor_new] with the items of a layer; the answers are those of the
    peers to synchronous sends, which stop at the first refusal *)
Fixpoint send_each {dtype} (mode : send_type) (items : list (SendQueueItem dtype)) (responses : list string)
    : M (engine dtype) bool :=
  match items, responses with
  | [], _ => mret true
  | it :: items', resp :: responses' =>
      ok ← send_sync dtype mode it resp;
      if (ok : bool) then send_each mode items' responses' else mret false
  | _ :: _, [] => raise Waits "response"
  end.

Definition send_tensor_new {dtype} (mode : send_type) (items : result (list (SendQueueItem dtype)))
    (responses : list string) : M (engine dtype) (option bool) :=
  match mode with
  | PUT => its ← lift items; ok ← send_each mode its responses; mret (Some ok)
  | PUT_ASYNC =>
      its ← lift items;
      modify (fun e => set_queue dtype (send_queue dtype e ++ its) e) ;; mret (Some true)
  | GET => mret None
  end.
End Routing.
