(* ===== verification/SwiftRoutingCorrect.v ===== *)
(** * Correctness of the routing of KV transfers

    The addresses written into a request id are read back from it, every layer
    has one decode stage, and every decode rank gets each layer from exactly
    one prefill rank. *)

From S2P Require Import Prelude PyString MemoryPool SwiftEngine SwiftRouting.
From Stdlib Require Import Ascii String.
Import Pool Swift Routing.
Local Open Scope string_scope.

(** ** Request ids *)

Definition free_of (c : ascii) (s : string) : bool := forall_chars (fun d => negb (Ascii.eqb d c)) s.
Definition all_digits (s : string) : bool := forall_chars is_digit s.

(** Neither underscores nor newlines *)
Definition plain (s : string) : Prop := free_of "_" s = true /\ free_of "010" s = true.

Lemma free_of_cons c d s : free_of c (String d s) = true <-> d <> c /\ free_of c s = true.
Proof.
  unfold free_of. simpl. rewrite andb_true_iff, negb_true_iff, Ascii.eqb_neq. done.
Qed.

Lemma free_of_app c a b : free_of c (a ++ b) = free_of c a && free_of c b.
Proof. induction a as [|d a IH]; simpl; [done|]. unfold free_of in *. simpl. by rewrite IH, andb_assoc. Qed.

Lemma digit_not c s : is_digit c = false -> all_digits s = true -> free_of c s = true.
Proof.
  intros Hc. induction s as [|d s IH]; [done|]. unfold all_digits. cbn [forall_chars].
  intros [Hd Hs]%andb_true_iff. apply free_of_cons. split; [congruence|by apply IH].
Qed.

Lemma no_underscore s : free_of "_" s = true -> startswith "_" s = false.
Proof. destruct s as [|c s]; [done|]. intros [Hc _]%free_of_cons. cbn [startswith]. by rewrite (proj2 (Ascii.eqb_neq _ _)). Qed.

(** Digits up to a character that is none. *)
Lemma span_digits_app ds c rest :
  all_digits ds = true -> is_digit c = false -> span_digits (ds ++ String c rest) = (ds, String c rest).
Proof.
  intros Hd Hc. induction ds as [|d ds IH]; simpl; [by rewrite Hc|].
  apply andb_true_iff in Hd as [Hd1 Hd2]. rewrite Hd1, IH; done.
Qed.

Lemma greedy_no_colon after a s :
  free_of ":" a = true -> greedy_host after s = None -> greedy_host after (a ++ s) = None.
Proof.
  induction a as [|c a IH]; simpl; [done|]. intros [Hc Ha]%free_of_cons Hs. rewrite IH by done.
  rewrite (decide_False (P := c = ":"%char)) by done. by case_decide.
Qed.

Lemma greedy_none after s : free_of ":" s = true -> greedy_host after s = None.
Proof.
  induction s as [|c s IH]; [done|]. intros [Hc Hs]%free_of_cons. simpl.
  rewrite IH by done. rewrite (decide_False (P := c = ":"%char)) by done. by case_decide.
Qed.

(** The last colon that a port follows ends the host. *)
Lemma greedy_host_app after h s port :
  free_of "010" h = true -> port_at after s = Some port -> greedy_host after s = None ->
  greedy_host after (h ++ String ":" s) = Some (h, port).
Proof.
  intros Hh Hp Hs. induction h as [|c h IH]; simpl.
  - by rewrite Hs, Hp.
  - apply free_of_cons in Hh as [Hc Hh]. rewrite decide_False by done. rewrite IH by done. done.
Qed.

(** A host without underscores has no port that three underscores follow. *)
Lemma greedy_skips_host h d u :
  free_of "_" h = true -> all_digits d = true -> free_of "_" u = true -> free_of ":" u = true ->
  greedy_host "___" (h ++ String ":" (d ++ String "_" u)) = None.
Proof.
  intros Hh Hd Hu Huc. assert (greedy_host "___" (d ++ String "_" u) = None) as Hdu.
  { apply greedy_no_colon; [by apply digit_not|]. by apply greedy_none, free_of_cons. }
  assert (port_at "___" (d ++ String "_" u) = None) as Hp.
  { unfold port_at. rewrite span_digits_app by done. case_decide; [done|]. destruct u as [|c u]; [done|].
    apply free_of_cons in Hu as [Hc _]. cbn [startswith]. by rewrite Ascii.eqb_refl, (proj2 (Ascii.eqb_neq "_" c)). }
  induction h as [|c h IH]; simpl.
  - rewrite Hdu. simpl. by rewrite Hp.
  - apply free_of_cons in Hh as [Hc Hh]. rewrite IH by done.
    assert (port_at "___" (h ++ String ":" (d ++ String "_" u)) = None) as ->; [|by repeat case_decide].
    unfold port_at. destruct (span_digits (h ++ String ":" (d ++ String "_" u))) as [ds rest] eqn:E. case_decide; [done|].
    assert (startswith "___" rest = false) as ->; [|done]. clear -Hh E. revert ds rest E.
    induction h as [|c' h IHh]; intros ds rest E; simpl in E; [by injection E as <- <-|].
    apply free_of_cons in Hh as [Hc' Hh]. destruct (is_digit c').
    + destruct (span_digits (h ++ String ":" (d ++ String "_" u))) as [ds' rest'] eqn:E'. injection E as <- <-.
      exact (IHh Hh _ _ eq_refl).
    + injection E as <- <-. cbn [startswith]. by rewrite (proj2 (Ascii.eqb_neq "_" c')).
Qed.

(** Nothing before an underscore starts a literal. *)
Lemma search_skip before after a s :
  free_of "_" a = true -> search (String "_" before) after (a ++ s) = search (String "_" before) after s.
Proof.
  induction a as [|c a IH]; [done|]. intros [Hc Ha]%free_of_cons. simpl.
  rewrite decide_False by done. simpl. by apply IH.
Qed.

(** The id the proxy makes: both addresses and a unique suffix *)
Definition request_id_of (pre h1 d1 h2 d2 u : string) : string :=
  pre ++ "___prefill_addr_" ++ h1 ++ ":" ++ d1 ++ "___decode_addr_" ++ h2 ++ ":" ++ d2 ++ "_" ++ u.

Lemma search_here before after s r : greedy_host after s = Some r -> search before after (before ++ s) = Some r.
Proof.
  intros Hg. assert (strip_prefix before (before ++ s) = Some s) as E.
  { clear. induction before as [|c p IH]; [done|]. simpl. by rewrite decide_True. }
  destruct (before ++ s); simpl; simpl in E; rewrite E; simpl; by rewrite Hg.
Qed.

(** The literal before the prefill address is not the one looked for. *)
Lemma search_past_prefill after c s :
  c <> "_"%char -> search "___decode_addr_" after ("___prefill_addr_" ++ String c s) = search "___decode_addr_" after (String c s).
Proof.
  intros Hc. assert (forall x rest, strip_prefix "___decode_addr_" (String x rest) = None ->
    search "___decode_addr_" after (String x rest) = search "___decode_addr_" after rest) as Hstep
    by (intros x rest E; cbn [search]; by rewrite E).
  cbn [String.append]. do 15 (etransitivity; [apply Hstep; reflexivity|]). apply Hstep.
  cbn [strip_prefix]. rewrite decide_True by done. by rewrite decide_False.
Qed.

Lemma search_decode pre h1 d1 s r :
  free_of "_" pre = true -> free_of "_" h1 = true -> all_digits d1 = true -> greedy_host "" s = Some r ->
  search "___decode_addr_" "" (pre ++ "___prefill_addr_" ++ h1 ++ ":" ++ d1 ++ "___decode_addr_" ++ s) = Some r.
Proof.
  intros Hp Hh Hd Hg. rewrite search_skip by done.
  assert (search "___decode_addr_" "" (h1 ++ ":" ++ d1 ++ "___decode_addr_" ++ s) = Some r) as Ht.
  { rewrite search_skip by done.
    change (":" ++ d1 ++ "___decode_addr_" ++ s) with (String ":" d1 ++ ("___decode_addr_" ++ s)).
    rewrite search_skip; [|by apply free_of_cons; split; [|apply digit_not]]. by apply search_here. }
  rewrite <- Ht. destruct h1 as [|c h1]; [by apply search_past_prefill|]. apply free_of_cons in Hh as [Hc _].
  by apply (search_past_prefill "" c).
Qed.

(** Addresses survive the request id.  From the id the proxy makes out of
    the two addresses, the prefill side reads the decode host and port and the
    decode side the prefill ones, as long as prefix, hosts and suffix have no
    underscore or newline and the suffix no colon; hosts may have colons. *)
Theorem parse_request_id_roundtrip pre h1 d1 h2 d2 u :
  plain pre -> plain h1 -> plain h2 -> plain u -> free_of ":" u = true ->
  all_digits d1 = true -> d1 <> "" -> all_digits d2 = true -> d2 <> "" ->
  parse_request_id (request_id_of pre h1 d1 h2 d2 u) true = Ok (h2, digits_value 0 d2) /\
  parse_request_id (request_id_of pre h1 d1 h2 d2 u) false = Ok (h1, digits_value 0 d1).
Proof.
  intros [Hp _] [Hh1 Hn1] [Hh2 Hn2] [Hu _] Huc Hd1 Hne1 Hd2 Hne2. unfold parse_request_id, request_id_of. split.
  - rewrite (search_decode _ _ _ _ (h2, digits_value 0 d2)); try done.
    apply (greedy_host_app "" h2 (d2 ++ String "_" u)); [done| |].
    + unfold port_at. rewrite span_digits_app by done. by rewrite decide_False.
    + apply greedy_no_colon; [by apply digit_not|]. by apply greedy_none, free_of_cons.
  - rewrite search_skip by done.
    assert (greedy_host "___" (h1 ++ String ":" (d1 ++ "___decode_addr_" ++ h2 ++ String ":" (d2 ++ String "_" u))) =
      Some (h1, digits_value 0 d1)) as Hg.
    { apply greedy_host_app; [done| |].
      - unfold port_at. set (tail := h2 ++ _).
        assert (span_digits (d1 ++ "___decode_addr_" ++ tail) = (d1, "___decode_addr_" ++ tail)) as ->
          by exact (span_digits_app d1 "_" ("__decode_addr_" ++ tail) Hd1 eq_refl).
        by rewrite decide_False.
      - apply greedy_no_colon; [by apply digit_not|]. apply greedy_no_colon; [done|]. by apply greedy_skips_host. }
    change ("___prefill_addr_" ++ h1 ++ ":" ++ d1 ++ "___decode_addr_" ++ h2 ++ ":" ++ d2 ++ "_" ++ u)
      with ("___prefill_addr_" ++ (h1 ++ String ":" (d1 ++ "___decode_addr_" ++ h2 ++ String ":" (d2 ++ String "_" u)))).
    by rewrite (search_here "___prefill_addr_" "___" _ _ Hg).
Qed.

Local Open Scope Z_scope.
Local Open Scope list_scope.

(** ** Stages *)

Lemma sum_app a b : sum (a ++ b) = sum a + sum b.
Proof. unfold sum. induction a as [|x a IH]; simpl; [done|]. lia. Qed.

Lemma sum_insert l (i : nat) x : l !! i = Some x -> sum (<[i := x + 1]> l) = sum l + 1.
Proof.
  intros Hi. rewrite <- (take_drop_middle l i x Hi) at 2. rewrite insert_take_drop by by eapply lookup_lt_Some.
  rewrite !sum_app. simpl. lia.
Qed.

Lemma sum_replicate n x : sum (replicate n x) = Z.of_nat n * x.
Proof. induction n as [|n IH]; [done|]. cbn [replicate sum foldr]. unfold sum in IH. lia. Qed.

Lemma sum_nonneg l : Forall (Z.le 0) l -> 0 <= sum l.
Proof. unfold sum. induction 1; simpl; lia. Qed.

Lemma incr_all_ok l indices :
  Forall (fun i => - Z.of_nat (Datatypes.length l) <= i < 0) indices -> Forall (Z.le 0) l ->
  exists l', incr_all l indices = Ok l' /\ Datatypes.length l' = Datatypes.length l /\
    sum l' = sum l + Z.of_nat (Datatypes.length indices) /\ Forall (Z.le 0) l'.
Proof.
  revert l. induction indices as [|i rest IH]; intros l Hi Hl; simpl; [exists l; split_and!; [done|done|lia|done]|].
  inversion Hi as [|? ? Hi0 Hrest]; subst. unfold list_incr, list_at.
  destruct (Z.ltb_spec i 0); [|lia]. destruct (Z.ltb_spec (Z.of_nat (Datatypes.length l) + i) 0); [lia|].
  set (j := Z.to_nat (Z.of_nat (Datatypes.length l) + i)).
  destruct (lookup_lt_is_Some_2 l j) as [x Ex]; [unfold j; lia|]. rewrite Ex. cbn [mbind result_bind mret result_ret].
  pose proof (Forall_lookup_1 _ _ _ _ Hl Ex) as Hx.
  destruct (IH (<[j := x + 1]> l)) as (l' & E & El & Es & Hn).
  - by rewrite length_insert.
  - apply Forall_insert; [done|lia].
  - exists l'. rewrite length_insert in El. rewrite (sum_insert l j x Ex) in Es. split_and!; [done|done|lia|done].
Qed.

(** The stages in which consecutive ranks have consecutive layers. *)
Definition staged (indices : Z -> result (Z * Z)) (total size : Z) (parts : list Z) : Prop :=
  Z.of_nat (Datatypes.length parts) = size /\ Forall (Z.le 0) parts /\ sum parts = total /\
  forall d, 0 <= d < size -> indices d = Ok (sum (take (Z.to_nat d) parts), sum (take (S (Z.to_nat d)) parts)).

Lemma take_S_sum l (n : nat) x : l !! n = Some x -> sum (take (S n) l) = sum (take n l) + x.
Proof. intros Hn. rewrite (take_S_r _ _ _ Hn), sum_app. simpl. lia. Qed.

Lemma list_at_nonneg l d x : 0 <= d -> l !! Z.to_nat d = Some x -> list_at l d = Ok x.
Proof.
  intros Hd Hx. unfold list_at. destruct (Z.ltb_spec d 0); [lia|]. destruct (Z.ltb_spec d 0); [lia|]. by rewrite Hx.
Qed.

Section stages.
Context (getattr : string -> result (option string)) (int_of : string -> option Z).
Context (Hattr : getattr "VLLM_PP_LAYER_PARTITION_D"%string = Ok None).

Lemma default_staged total size :
  0 <= total -> 0 < size -> exists parts, staged (fun d => get_pp_indices_d getattr int_of total d size) total size parts.
Proof.
  intros Ht Hs. pose proof (Z.mod_pos_bound total size Hs) as Hm. pose proof (Z.div_pos total size Ht Hs) as Hq.
  set (base := replicate (Z.to_nat size) (total / size)).
  destruct (incr_all_ok base (map (fun i => - i) (seqZ 2 (total mod size)))) as (parts & E & El & Es & Hn).
  - apply Forall_fmap, Forall_forall. intros i [Hi1 Hi2]%elem_of_seqZ. unfold base. rewrite length_replicate. simpl. lia.
  - apply Forall_replicate. done.
  - unfold base in El, Es. rewrite length_replicate in El. rewrite sum_replicate, length_map, length_seqZ in Es.
    exists parts. split_and!; [lia|done| |].
    + rewrite Es, !Z2Nat.id by lia. symmetry. rewrite Z.mul_comm at 1. rewrite (Z.div_mod total size) at 1 by lia. lia.
    + intros d Hd. unfold get_pp_indices_d. rewrite Hattr. cbn [mbind result_bind].
      rewrite (proj2 (Z.eqb_neq size 0)) by lia. fold base. rewrite E. cbn [mbind result_bind].
      destruct (lookup_lt_is_Some_2 parts (Z.to_nat d)) as [x Ex]; [lia|].
      rewrite (list_at_nonneg parts d x ltac:(lia) Ex). cbn [mbind result_bind mret result_ret].
      by rewrite (take_S_sum _ _ _ Ex).
Qed.

(** The loop finds the stage of a layer. *)
Lemma loop_finds parts total size layer k :
  staged (fun d => get_pp_indices_d getattr int_of total d size) total size parts ->
  0 <= k <= size -> sum (take (Z.to_nat k) parts) <= layer < total ->
  exists d, remote_pp_loop getattr int_of (seqZ k (size - k)) total size layer = Ok d /\ k <= d < size /\
    sum (take (Z.to_nat d) parts) <= layer < sum (take (S (Z.to_nat d)) parts).
Proof.
  intros (Hlen & Hn & Hsum & Hidx). remember (Z.to_nat (size - k)) as m eqn:Em. revert k Em.
  induction m as [|m IH]; intros k Em Hk Hl.
  - assert (k = size) as -> by lia. rewrite take_ge in Hl by lia. lia.
  - rewrite seqZ_cons by lia. cbn [remote_pp_loop]. rewrite (Hidx k) by lia. cbn [mbind result_bind fst snd].
    rewrite (proj2 (Z.eqb_neq layer total)) by lia. rewrite (proj2 (Z.leb_le _ _)) by lia. cbn [andb].
    destruct (Z.ltb_spec layer (sum (take (S (Z.to_nat k)) parts))) as [Hlt|Hge].
    + exists k. split; [done|]. lia.
    + replace (Z.pred (size - k)) with (size - Z.succ k) by lia.
      destruct (IH (Z.succ k)) as (d & E & Hd & Hr); [lia|lia| |].
      * rewrite Z2Nat.inj_succ by lia. lia.
      * exists d. split; [done|]. split; [lia|done].
Qed.

(** Every layer has one decode stage.  Without a configured partition the
    stages of the decode side divide the layers among all its ranks in order,
    the rank computed for a layer is the one whose stage has it, and the extra
    layer of a draft model goes to the last rank. *)
Theorem remote_stage_found total size :
  0 <= total -> 0 < size -> exists parts,
    staged (fun d => get_pp_indices_d getattr int_of total d size) total size parts /\
    compute_remote_pp_rank getattr int_of total size total = Ok (size - 1) /\
    forall layer, 0 <= layer < total -> exists d a b, compute_remote_pp_rank getattr int_of total size layer = Ok d /\
      0 <= d < size /\ get_pp_indices_d getattr int_of total d size = Ok (a, b) /\ a <= layer < b.
Proof.
  intros Ht Hs. destruct (default_staged total size Ht Hs) as (parts & Hst). exists parts. split; [done|].
  pose proof Hst as (Hlen & Hn & Hsum & Hidx). unfold compute_remote_pp_rank. split.
  - rewrite seqZ_cons by lia. cbn [remote_pp_loop]. rewrite (Hidx 0) by lia. cbn [mbind result_bind]. by rewrite Z.eqb_refl.
  - intros layer Hl. destruct (loop_finds parts total size layer 0 Hst) as (d & E & Hd & Hr); [lia|simpl; lia|].
    rewrite Z.sub_0_r in E. eexists d, _, _. split; [done|]. split; [done|]. split; [by apply Hidx|done].
Qed.
End stages.

(** ** Peers *)

(** The placement of another rank of the same stage *)
Definition at_rank (s : placement) (r : Z) : placement :=
  Placement (rank s) r (tp_size s) (pp_size s) (remote_tp_size s) (remote_pp_size s) (enable_asymmetric_p2p s).

Section peers.
Context (s : placement) (Htp : 0 < tp_size s).
Context (Hdiv : remote_tp_size s mod tp_size s = 0).

Lemma remote_split : remote_tp_size s = multp s * tp_size s.
Proof. unfold multp. rewrite (Z.div_mod (remote_tp_size s) (tp_size s)) at 1 by lia. lia. Qed.

(** The inner loop finds a decode rank once, for the prefill rank it is congruent to. *)
Lemma inner_once r d : 0 <= r < tp_size s -> 0 <= d < remote_tp_size s ->
  List.filter (fun m => r + m * tp_size s =? d) (seqZ 0 (multp s)) =
  if d mod tp_size s =? r then [d / tp_size s] else [].
Proof.
  intros Hr Hd. pose proof remote_split as Hsp. pose proof (Z.div_mod d (tp_size s) ltac:(lia)) as Hdm.
  pose proof (Z.mod_pos_bound d (tp_size s) Htp) as Hb.
  assert (0 <= d / tp_size s < multp s) as Hq by nia.
  assert (forall m, r + m * tp_size s = d <-> d mod tp_size s = r /\ m = d / tp_size s) as Hiff.
  { intros m. split; [|intros [<- ->]; lia]. intros E. split.
    - rewrite <- E. rewrite Z.mod_add by lia. by apply Z.mod_small.
    - rewrite <- E. rewrite Z.div_add by lia. rewrite Z.div_small; lia. }
  destruct (Z.eqb_spec (d mod tp_size s) r) as [Er|Hne].
  - replace (multp s) with (d / tp_size s + (multp s - d / tp_size s)) by lia. rewrite seqZ_app by lia.
    rewrite List.filter_app. rewrite (seqZ_cons (0 + _)) by lia. cbn [List.filter]. rewrite Z.add_0_l.
    rewrite (proj2 (Z.eqb_eq _ _)) by by apply Hiff.
    assert (forall l, (forall m, m ∈ l -> m <> d / tp_size s) -> List.filter (fun m => r + m * tp_size s =? d) l = []) as Hnone.
    { induction l as [|m l IH]; intros Hm; [done|]. cbn [List.filter]. destruct (Z.eqb_spec (r + m * tp_size s) d) as [E|_].
      - apply Hiff in E as [_ E]. by destruct (Hm m ltac:(by left)).
      - apply IH. intros. apply Hm. by right. }
    rewrite !Hnone; [done|intros m [? ?]%elem_of_seqZ; lia|intros m [? ?]%elem_of_seqZ; lia].
  - induction (seqZ 0 (multp s)) as [|m l IH]; [done|]. cbn [List.filter].
    destruct (Z.eqb_spec (r + m * tp_size s) d) as [E|_]; [apply Hiff in E; tauto|done].
Qed.

Lemma d_tp_ranks_filter r : 0 <= r < tp_size s ->
  d_tp_ranks (at_rank s r) = List.filter (fun d => d mod tp_size s =? r) (seqZ 0 (remote_tp_size s)).
Proof.
  intros Hr. unfold d_tp_ranks. simpl.
  assert (forall l, (forall d, d ∈ l -> 0 <= d < remote_tp_size s) ->
    List.concat (map (fun d => map (fun _ => d) (List.filter (fun m => r + m * tp_size s =? d) (seqZ 0 (multp (at_rank s r))))) l) =
    List.filter (fun d => d mod tp_size s =? r) l) as Hl.
  { induction l as [|d l IH]; intros Hd; [done|]. cbn [map List.concat List.filter].
    change (multp (at_rank s r)) with (multp s) in *. rewrite inner_once by (done || apply Hd; by left).
    rewrite IH by (intros; apply Hd; by right). by destruct (d mod tp_size s =? r). }
  apply Hl. intros d [? ?]%elem_of_seqZ. lia.
Qed.

(** All ranks of the stage together reach each decode rank once. *)
Lemma ranks_reach_all :
  List.concat (map (fun r => d_tp_ranks (at_rank s r)) (seqZ 0 (tp_size s))) ≡ₚ seqZ 0 (remote_tp_size s).
Proof.
  assert (forall n, 0 <= n <= tp_size s ->
    List.concat (map (fun r => d_tp_ranks (at_rank s r)) (seqZ 0 n)) ≡ₚ
    List.filter (fun d => d mod tp_size s <? n) (seqZ 0 (remote_tp_size s))) as Hn.
  { intros n Hn. destruct Hn as [Hn Hle]. revert Hle. revert n Hn. refine (natlike_ind _ _ _).
    - intros _. simpl. induction (seqZ 0 (remote_tp_size s)) as [|d l IH]; [done|]. cbn [List.filter].
      pose proof (Z.mod_pos_bound d (tp_size s) Htp). destruct (Z.ltb_spec (d mod tp_size s) 0); [lia|done].
    - intros n Hn IH Hle. rewrite <- Z.add_1_r in *.
      assert (seqZ 0 (n + 1) = seqZ 0 n ++ [n]) as -> by (rewrite seqZ_app by lia; f_equal; simpl; f_equal; lia).
      rewrite map_app, List.concat_app, IH by lia. cbn [map List.concat].
      rewrite app_nil_r, d_tp_ranks_filter by lia. clear IH.
      induction (seqZ 0 (remote_tp_size s)) as [|d l IH]; [done|]. cbn [List.filter].
      destruct (Z.ltb_spec (d mod tp_size s) n), (Z.ltb_spec (d mod tp_size s) (n + 1)),
        (Z.eqb_spec (d mod tp_size s) n); try lia; cbn [app]; [by rewrite IH| |done].
      rewrite <- IH. by rewrite <- Permutation_middle. }
  rewrite (Hn (tp_size s)) by lia. clear Hn.
  induction (seqZ 0 (remote_tp_size s)) as [|d l IH]; [done|]. cbn [List.filter].
  pose proof (Z.mod_pos_bound d (tp_size s) Htp). destruct (Z.ltb_spec (d mod tp_size s) (tp_size s)); [|lia].
  by rewrite IH.
Qed.

End peers.

Definition peer_rank {dtype} (it : SendQueueItem dtype) : option Z :=
  match qi_remote dtype it with Some (Paired r) => Some (comm_rank r) | _ => None end.

(** Each decode rank gets a layer once.  When the decode side has a
    multiple of the tensor-parallel ranks of the prefill side, the ranks of a
    prefill stage together send a layer to every rank of the decode stage that
    has it, each from exactly one prefill rank. *)
Theorem layer_sent_once {dtype} getattr int_of (s : placement) total layer request_id layer_name (t : tensor dtype) d p q :
  0 < tp_size s -> remote_tp_size s mod tp_size s = 0 -> enable_asymmetric_p2p s = true ->
  parse_request_id request_id true = Ok d -> parse_request_id request_id false = Ok p ->
  compute_remote_pp_rank getattr int_of total (remote_pp_size s) layer = Ok q ->
  exists items, mapM (fun r => get_send_queue_items getattr int_of (at_rank s r) total layer request_id layer_name t)
      (seqZ 0 (tp_size s)) = Ok items /\
    map peer_rank (List.concat items) ≡ₚ
      map (fun e => Some (q * remote_tp_size s + e + pp_size s * tp_size s)) (seqZ 0 (remote_tp_size s)).
Proof.
  intros Htp Hdiv Hasym Hd Hp Hq.
  set (item := fun e : Z => QueueItem dtype (get_tensor_id request_id layer_name)
    (Some (Paired (MkRemote (address p.1 p.2 +:+ "_" +:+ address d.1 d.2)%string
       (address d.1 (d.2 + (q * remote_tp_size s + e))) (q * remote_tp_size s + e + pp_size s * tp_size s)))) t).
  assert (forall l, mapM (fun r => get_send_queue_items getattr int_of (at_rank s r) total layer request_id layer_name t) l =
    Ok (map (fun r => map item (d_tp_ranks (at_rank s r))) l)) as Hm.
  { assert (forall r, get_send_queue_items getattr int_of (at_rank s r) total layer request_id layer_name t =
      Ok (map item (d_tp_ranks (at_rank s r)))) as Hr.
    { intros r. unfold get_send_queue_items. rewrite Hd, Hp. cbn [mbind result_bind].
      cbn [enable_asymmetric_p2p remote_pp_size at_rank]. by rewrite Hasym, Hq. }
    induction l as [|r l IH]; simpl; [done|]. rewrite Hr. cbn [mbind result_bind]. by rewrite IH. }
  eexists. split; [apply Hm|]. rewrite <- (ranks_reach_all s Htp Hdiv).
  induction (seqZ 0 (tp_size s)) as [|r l IH]; [done|]. cbn [map List.concat]. rewrite !map_app, IH.
  apply Permutation_app; [|done]. by rewrite map_map.
Qed.

(** ** Witnesses *)

Definition demo_id : string := request_id_of "cmpl-" "10.0.0.1" "21001" "fe80::1" "22001" "8f3a-0".

Lemma parse_request_id_roundtrip_witness :
  parse_request_id demo_id true = Ok ("fe80::1"%string, 22001) /\ parse_request_id demo_id false = Ok ("10.0.0.1"%string, 21001).
Proof.
  apply (parse_request_id_roundtrip "cmpl-" "10.0.0.1" "21001" "fe80::1" "22001" "8f3a-0");
    try (split; vm_compute; reflexivity); try (vm_compute; reflexivity); discriminate.
Defined.

Lemma remote_stage_found_witness :
  exists parts, staged (fun d => get_pp_indices_d (fun _ => Ok None) (fun _ => None) 7 d 3) 7 3 parts.
Proof.
  destruct (remote_stage_found (fun _ => Ok None) (fun _ => None) eq_refl 7 3) as (parts & H & _); [lia|lia|].
  exists parts. exact H.
Defined.

Lemma layer_sent_once_witness :
  exists items, mapM (fun r => get_send_queue_items (fun _ => Ok None) (fun _ => None)
      (at_rank (Placement 0 0 2 1 4 2 true) r) 6 4 demo_id "l4" (Tensor unit true tt [1] [7; 7])) (seqZ 0 2) = Ok items /\
    map peer_rank (List.concat items) ≡ₚ [Some 6; Some 7; Some 8; Some 9].
Proof.
  destruct (layer_sent_once (fun _ => Ok None) (fun _ => None) (Placement 0 0 2 1 4 2 true) 6 4 demo_id "l4"
    (Tensor unit true tt [1] [7; 7]) ("fe80::1"%string, 22001) ("10.0.0.1"%string, 21001) 1) as (items & H & Hp);
    [vm_compute; reflexivity..|].
  exists items. split; [exact H|exact Hp].
Defined.
