(* ===== verification/SwiftConnector.v ===== *)
(** * The scheduler side of the KV connector

    Models the scheduler-side methods of [DuSwiftConnector] in
    src/vllm_hcu/distributed/kv_transfer/kv_connector/v1/du/du_swift_connector.py:
    which requests a step loads or saves, with the blocks they have; and the
    copies of blocks out of and into a layer.  The scheduler's own records are
    arguments. *)

From S2P Require Import Prelude Tensors.
Local Open Scope Z_scope.

Module Connector.

(** ** Data *)

Record ReqMeta := MkReqMeta { m_request_id : string; m_block_ids : list Z; m_num_tokens : Z }.

(** What the connector reads of a request of the scheduler *)
Record Request := MkRequest {
  request_id : string;
  prompt_token_ids : option (list Z);
  all_token_ids : list Z
}.

Record NewRequestData := MkNewRequest {
  req_id : string;
  n_prompt_token_ids : option (list Z);
  n_num_computed_tokens : Z;
  n_block_ids : list (list Z)
}.

(** One entry of the parallel arrays of [CachedRequestData] *)
Record CachedRequest := MkCached {
  c_req_id : string;
  c_num_computed_tokens : Z;
  c_new_block_ids : option (list (list Z))
}.

Record SchedulerOutput := MkOutput {
  scheduled_new_reqs : list NewRequestData;
  scheduled_cached_reqs : list CachedRequest;
  resumed_req_ids : list string;
  num_scheduled_tokens : dict string Z
}.

(** The state of the connector *)
Record connector := MkConnector {
  is_producer : bool;
  requests_need_load : dict string (Request * list Z);
  chunked_prefill : dict string (list Z * option (list Z))
}.

Definition set_need_load d c := MkConnector (is_producer c) d (chunked_prefill c).
Definition set_chunked d c := MkConnector (is_producer c) (requests_need_load c) d.

(** ** Operations *)

(** [ids or []] *)
Definition or_empty (l : option (list Z)) : list Z := default [] l.
Definition zlen_of (l : list Z) : Z := Z.of_nat (length l).

Definition make_meta (request_id : string) (token_ids block_ids : list Z) : ReqMeta :=
  MkReqMeta request_id block_ids (zlen_of token_ids).

Definition get_num_new_matched_tokens (request : Request) (num_computed_tokens : Z) (c : connector) : Z * bool :=
  if is_producer c then (0, false)
  else
    let num_external_tokens := zlen_of (or_empty (prompt_token_ids request)) - 1 - num_computed_tokens in
    (if num_external_tokens <? 0 then 0 else num_external_tokens, false).

Definition update_state_after_alloc (request : Request) (block_ids : list (list Z)) (num_external_tokens : Z)
    : M connector unit := fun c =>
  if negb (is_producer c) && (0 <? num_external_tokens) then
    match block_ids with
    | [] => (Err (Exn IndexError "tuple index out of range"), c)
    | group :: _ => (Ok tt, set_need_load (dset (requests_need_load c) (request_id request) (request, group)) c)
    end
  else (Ok tt, c).

(** A step builds its metadata beside the state of the connector. *)
Definition building : Type := connector * list ReqMeta.

Definition on_connector (f : connector -> connector) : M building unit := modify (fun b => (f b.1, b.2)).
Definition add_request (m : ReqMeta) : M building unit := modify (fun b => (b.1, b.2 ++ [m])).

(** [num_scheduled_tokens[id]] and [block_ids[0]] *)
Definition scheduled (so : SchedulerOutput) (id : string) : M building Z :=
  lift (match dget (num_scheduled_tokens so) id with Some n => Ok n | None => Err (Exn KeyError id) end).
Definition first_group (groups : list (list Z)) : M building (list Z) :=
  lift (match groups with g :: _ => Ok g | [] => Err (Exn IndexError "tuple index out of range") end).

(** The body of the loop over the new requests *)
Definition add_new (so : SchedulerOutput) (r : NewRequestData) : M building unit :=
  b ← get_state;
  let prompt := or_empty (n_prompt_token_ids r) in
  if is_producer b.1 then
    n ← scheduled so (req_id r);
    group ← first_group (n_block_ids r);
    if n + n_num_computed_tokens r <? zlen_of prompt
    then on_connector (fun c => set_chunked (dset (chunked_prefill c) (req_id r) (group, n_prompt_token_ids r)) c)
    else add_request (make_meta (req_id r) prompt group)
  else if dmem (requests_need_load b.1) (req_id r) then
    group ← first_group (n_block_ids r);
    add_request (make_meta (req_id r) prompt group) ;;
    on_connector (fun c => set_need_load (ddel (requests_need_load c) (req_id r)) c)
  else mret tt.

(** The body of the loop over the cached requests of a producer *)
Definition add_cached_producer (so : SchedulerOutput) (r : CachedRequest) : M building unit :=
  n ← scheduled so (c_req_id r);
  b ← get_state;
  match dget (chunked_prefill b.1) (c_req_id r), c_new_block_ids r with
  | None, _ | _, None => mret tt
  | Some (old, prompt), Some groups =>
      group ← first_group groups;
      let block_ids := if decide (c_req_id r ∈ resumed_req_ids so) then group else old ++ group in
      match prompt with
      | None => raise AssertionError ""
      | Some prompt =>
          if n + c_num_computed_tokens r <? zlen_of prompt
          then on_connector (fun c => set_chunked (dset (chunked_prefill c) (c_req_id r) (block_ids, Some prompt)) c)
          else
            add_request (make_meta (c_req_id r) prompt block_ids) ;;
            on_connector (fun c => set_chunked (ddel (chunked_prefill c) (c_req_id r)) c)
      end
  end.

(** The loop over the cached requests of a consumer, which ends at the first
    request that does not resume *)
Fixpoint add_cached_consumer (so : SchedulerOutput) (rs : list CachedRequest) : M building unit :=
  match rs with
  | [] => mret tt
  | r :: rest =>
      if decide (c_req_id r ∈ resumed_req_ids so) then
        b ← get_state;
        match dget (requests_need_load b.1) (c_req_id r) with
        | None => add_cached_consumer so rest
        | Some (request, _) =>
            on_connector (fun c => set_need_load (ddel (requests_need_load c) (c_req_id r)) c) ;;
            match c_new_block_ids r with
            | None => add_cached_consumer so rest
            | Some groups =>
                group ← first_group groups;
                let token_ids := take (Z.to_nat (c_num_computed_tokens r + 1)) (all_token_ids request) in
                add_request (make_meta (c_req_id r) token_ids group) ;;
                add_cached_consumer so rest
            end
        end
      else mret tt
  end.

Definition build_connector_meta (so : SchedulerOutput) : M connector (list ReqMeta) := fun c =>
  let '(r, (c', metas)) :=
    (for_each (scheduled_new_reqs so) (add_new so) ;;
     (if is_producer c then for_each (scheduled_cached_reqs so) (add_cached_producer so)
      else add_cached_consumer so (scheduled_cached_reqs so)) ;;
     on_connector (set_need_load [])) (c, []) in
  match r with Ok _ => (Ok metas, c') | Err e => (Err e, c') end.

Definition request_finished (request : Request) (c : connector) : connector :=
  set_chunked (ddel (chunked_prefill c) (request_id request)) c.

(** [check_tensors_except_dim] on the sizes of two tensors *)
Definition sizes_agree (dim : Z) (shape1 shape2 : list Z) : bool :=
  forallb (fun '(i, (s1, s2)) => (s1 =? s2) || (i =? dim)) (zip (seqZ 0 (Z.of_nat (length shape1))) (zip shape1 shape2)).
Definition check_tensors_except_dim (shape1 shape2 : list Z) (dim : Z) : result unit :=
  if negb (Nat.eqb (length shape1) (length shape2)) || negb (sizes_agree dim shape1 shape2)
  then Err (Exn (OtherError "NotImplementedError") "Currently, only symmetric TP is supported.")
  else Ok tt.

(** ** Blocks of a layer *)

(** The dimension of a layer's blocks, by its layout *)
Definition block_dim (is_mla : bool) (shape : list Z) : option Z :=
  if is_mla || Nat.eqb (length shape) 3 || bool_decide (shape !! 1%nat = Some 2) then Some 0
  else if bool_decide (shape !! 0%nat = Some 2) then Some 1
  else None.

(** [extract_kv_from_layer]: [layer[block_ids]] along the blocks *)
Definition extract_kv_from_layer {B} (layer : list B) (block_ids : list Z) : result (list B) :=
  mapM (fun i => match zget layer i with Some x => Ok x | None => Err (Exn IndexError "index is out of bounds") end) block_ids.

(** [layer[block_ids] = kv] for as many ids as blocks *)
Fixpoint write_blocks {B} (layer : list B) (block_ids : list Z) (kv : list B) : result (list B) :=
  match block_ids, kv with
  | i :: ids, x :: kv' =>
      match zget layer i with
      | Some _ => write_blocks (<[Z.to_nat i := x]> layer) ids kv'
      | None => Err (Exn IndexError "index is out of bounds")
      end
  | _, _ => Ok layer
  end.

(** [inject_kv_into_layer]: only the overlap is written; more blocks than ids do
    not broadcast, unless there is one block and no id *)
Definition inject_kv_into_layer {B} (layer : list B) (block_ids : list Z) (kv : list B) : result (list B) :=
  let num_block := length kv in
  let ids := if Nat.eqb (length block_ids) num_block then block_ids else take num_block block_ids in
  if Nat.eqb (length ids) num_block || Nat.eqb num_block 1 then write_blocks layer ids kv
  else Err (Exn RuntimeError "shape mismatch: value tensor cannot be broadcast to indexing result").
End Connector.
