(* ===== verification/SwiftConnectorCorrect.v ===== *)
(** * Correctness of the scheduler side of the KV connector

    A producer treats every request on its own: a prompt that is prefilled in
    chunks is sent once, with the blocks of all its chunks, in the step that
    completes it. *)

From S2P Require Import Prelude Tensors SwiftConnector.
Import Connector.
Local Open Scope Z_scope.

(** ** One request *)

(** What a step does for a request. *)
Inductive event :=
  | Absent
  | New (total : Z) (blocks : list Z) (prompt : option (list Z))
  | Again (total : Z) (new_blocks : option (list Z)) (resumed : bool).

(** The progress of its prompt, and what is sent. *)
Definition advance (st : option (list Z * option (list Z))) (ev : event)
    : option (list Z * option (list Z)) * option (list Z * Z) :=
  match ev with
  | Absent => (st, None)
  | New total blocks prompt =>
      if total <? zlen_of (or_empty prompt) then (Some (blocks, prompt), None)
      else (st, Some (blocks, zlen_of (or_empty prompt)))
  | Again total new_blocks resumed =>
      match st, new_blocks with
      | None, _ | _, None => (st, None)
      | Some (old, prompt), Some new =>
          let blocks := if resumed then new else old ++ new in
          if total <? zlen_of (or_empty prompt) then (Some (blocks, prompt), None)
          else (None, Some (blocks, zlen_of (or_empty prompt)))
      end
  end.

(** ** Outputs of the scheduler *)

Definition new_ids (so : SchedulerOutput) : list string := map req_id (scheduled_new_reqs so).
Definition cached_ids (so : SchedulerOutput) : list string := map c_req_id (scheduled_cached_reqs so).

(** Every request occurs once, with its tokens and, when it has blocks, a
    first group of them. *)
Record output_ok (so : SchedulerOutput) : Prop := {
  oo_once : NoDup (new_ids so ++ cached_ids so);
  oo_tokens : Forall (fun id => exists n, dget (num_scheduled_tokens so) id = Some n /\ 0 <= n) (new_ids so ++ cached_ids so);
  oo_new : Forall (fun r => n_block_ids r <> [] /\ 0 <= n_num_computed_tokens r) (scheduled_new_reqs so);
  oo_cached : Forall (fun r => c_new_block_ids r <> Some []) (scheduled_cached_reqs so)
}.

Definition tokens_of (so : SchedulerOutput) (id : string) : Z := default 0 (dget (num_scheduled_tokens so) id).
Definition group_of (groups : list (list Z)) : list Z := default [] (head groups).

(** The event of a request in a step. *)
Definition new_event (so : SchedulerOutput) (r : NewRequestData) : event :=
  New (tokens_of so (req_id r) + n_num_computed_tokens r) (group_of (n_block_ids r)) (n_prompt_token_ids r).
Definition cached_event (so : SchedulerOutput) (r : CachedRequest) : event :=
  Again (tokens_of so (c_req_id r) + c_num_computed_tokens r) (group_of <$> c_new_block_ids r)
    (bool_decide (c_req_id r ∈ resumed_req_ids so)).
Definition event_of (so : SchedulerOutput) (id : string) : event :=
  match find (fun r => bool_decide (req_id r = id)) (scheduled_new_reqs so) with
  | Some r => new_event so r
  | None =>
      match find (fun r => bool_decide (c_req_id r = id)) (scheduled_cached_reqs so) with
      | Some r => cached_event so r
      | None => Absent
      end
  end.

(** Chunked prompts are known. *)
Definition prompts_known (c : connector) : Prop :=
  NoDup (dkeys (chunked_prefill c)) /\ forall id blocks, dget (chunked_prefill c) id <> Some (blocks, None).

Definition metas_of (id : string) (ms : list ReqMeta) : list (list Z * Z) :=
  map (fun m => (m_block_ids m, m_num_tokens m)) (List.filter (fun m => bool_decide (m_request_id m = id)) ms).

Lemma metas_of_app id a b : metas_of id (a ++ b) = metas_of id a ++ metas_of id b.
Proof. unfold metas_of. by rewrite List.filter_app, map_app. Qed.

(** ** One iteration *)

(** The effect of an iteration on all requests. *)
Definition handled (id : string) (ev : event) (b b' : building) : Prop :=
  is_producer b'.1 = is_producer b.1 /\
  dget (chunked_prefill b'.1) id = (advance (dget (chunked_prefill b.1) id) ev).1 /\
  metas_of id b'.2 = metas_of id b.2 ++ option_list (advance (dget (chunked_prefill b.1) id) ev).2 /\
  forall id', id' <> id -> dget (chunked_prefill b'.1) id' = dget (chunked_prefill b.1) id' /\
    metas_of id' b'.2 = metas_of id' b.2.

Lemma metas_one id m : m_request_id m = id -> metas_of id [m] = [(m_block_ids m, m_num_tokens m)].
Proof. intros E. unfold metas_of. simpl. by rewrite bool_decide_true. Qed.
Lemma metas_other id m : m_request_id m <> id -> metas_of id [m] = [].
Proof. intros E. unfold metas_of. simpl. by rewrite bool_decide_false. Qed.

Lemma prompts_known_dset c id blocks prompt :
  prompts_known c -> prompts_known (set_chunked (dset (chunked_prefill c) id (blocks, Some prompt)) c).
Proof.
  intros [Hn Hp]. split; simpl; [by apply NoDup_dset|]. intros id' bl. rewrite dget_dset. case_decide; [done|apply Hp].
Qed.
Lemma prompts_known_ddel c id : prompts_known c -> prompts_known (set_chunked (ddel (chunked_prefill c) id) c).
Proof.
  intros [Hn Hp]. split; simpl; [by apply NoDup_ddel|]. intros id' bl. destruct (decide (id = id')) as [<-|Hne].
  - by rewrite dget_ddel_eq.
  - rewrite dget_ddel_ne by done. apply Hp.
Qed.

Lemma add_new_handled so r b n :
  is_producer b.1 = true -> prompts_known b.1 -> dget (num_scheduled_tokens so) (req_id r) = Some n -> 0 <= n ->
  n_block_ids r <> [] -> 0 <= n_num_computed_tokens r ->
  exists b', add_new so r b = (Ok tt, b') /\ prompts_known b'.1 /\ handled (req_id r) (new_event so r) b b'.
Proof.
  intros Hp Hk En Hn Hg Hc. unfold add_new, scheduled, first_group. munfold. rewrite Hp, En.
  unfold new_event, tokens_of. rewrite En. destruct (n_block_ids r) as [|g gs]; [done|]. unfold group_of. cbn [head from_option id].
  unfold handled. cbn [advance]. unfold on_connector, add_request. munfold.
  destruct (Z.ltb_spec (n + n_num_computed_tokens r) (zlen_of (or_empty (n_prompt_token_ids r)))) as [Hlt|Hge]; simpl.
  - eexists. split; [done|]. simpl. split.
    + destruct (n_prompt_token_ids r) as [prompt|]; [by apply prompts_known_dset|]. unfold zlen_of in Hlt. simpl in Hlt. lia.
    + rewrite dget_dset_eq, List.app_nil_r. split_and!; try done. intros id' Hne. by rewrite dget_dset_ne.
  - eexists. split; [done|]. simpl. split; [done|]. rewrite metas_of_app, metas_one by done. split_and!; try done.
    intros id' Hne. rewrite metas_of_app, metas_other by done. by rewrite List.app_nil_r.
Qed.

Lemma add_cached_handled so r b n :
  is_producer b.1 = true -> prompts_known b.1 -> dget (num_scheduled_tokens so) (c_req_id r) = Some n ->
  c_new_block_ids r <> Some [] ->
  exists b', add_cached_producer so r b = (Ok tt, b') /\ prompts_known b'.1 /\ handled (c_req_id r) (cached_event so r) b b'.
Proof.
  intros Hp Hk En Hg. unfold add_cached_producer, scheduled, first_group. munfold. rewrite En.
  unfold cached_event, tokens_of. rewrite En. cbn [from_option id]. unfold handled. cbn [advance].
  assert (forall b1 : building, b1 = b -> exists b', (Ok tt, b1) = (Ok tt, b') /\ prompts_known b'.1 /\
    is_producer b'.1 = is_producer b.1 /\ dget (chunked_prefill b'.1) (c_req_id r) = dget (chunked_prefill b.1) (c_req_id r) /\
    metas_of (c_req_id r) b'.2 = metas_of (c_req_id r) b.2 ++ [] /\
    forall id', id' <> c_req_id r -> dget (chunked_prefill b'.1) id' = dget (chunked_prefill b.1) id' /\
      metas_of id' b'.2 = metas_of id' b.2) as Hsame.
  { intros b1 ->. exists b. rewrite List.app_nil_r. split_and!; done. }
  destruct (dget (chunked_prefill b.1) (c_req_id r)) as [[old prompt]|] eqn:Ed; [|by apply Hsame].
  destruct (c_new_block_ids r) as [groups|]; [|by apply Hsame]. clear Hsame.
  destruct groups as [|g gs]; [done|]. cbn [fmap option_fmap option_map]. unfold group_of. cbn [head from_option id].
  destruct prompt as [prompt|]; [|by destruct (proj2 Hk (c_req_id r) old)].
  unfold or_empty. cbn [from_option id]. unfold on_connector, add_request. munfold.
  assert ((if bool_decide (c_req_id r ∈ resumed_req_ids so) then g else old ++ g) =
    (if decide (c_req_id r ∈ resumed_req_ids so) then g else old ++ g)) as -> by by destruct (decide _); [rewrite bool_decide_true|rewrite bool_decide_false].
  set (blocks := if decide _ then _ else _).
  destruct (Z.ltb_spec (n + c_num_computed_tokens r) (zlen_of prompt)) as [Hlt|Hge]; simpl.
  - eexists. split; [done|]. simpl. split; [by apply prompts_known_dset|]. rewrite dget_dset_eq, List.app_nil_r.
    split_and!; try done. intros id' Hne. by rewrite dget_dset_ne.
  - eexists. split; [done|]. simpl. split; [by apply prompts_known_ddel|]. rewrite dget_ddel_eq by apply Hk.
    rewrite metas_of_app, metas_one by done. split_and!; try done. intros id' Hne.
    rewrite dget_ddel_ne by done. rewrite metas_of_app, metas_other by done. by rewrite List.app_nil_r.
Qed.

(** ** The loops *)

Definition event_in {A} (key : A -> string) (ev : A -> event) (xs : list A) (id : string) : event :=
  match find (fun x => bool_decide (key x = id)) xs with Some x => ev x | None => Absent end.

Lemma event_absent {A} (key : A -> string) ev xs id : ~ id ∈ map key xs -> event_in key ev xs id = Absent.
Proof.
  unfold event_in. intros Hni. destruct (find _ xs) as [x|] eqn:E; [|done]. apply find_some in E as [Hx Hk].
  apply bool_decide_eq_true in Hk. destruct Hni. rewrite <- Hk. apply list_elem_of_In, in_map, Hx.
Qed.

(** What a loop did for every request. *)
Definition progressed (evs : string -> event) (b b' : building) : Prop :=
  is_producer b'.1 = true /\ prompts_known b'.1 /\
  forall id, dget (chunked_prefill b'.1) id = (advance (dget (chunked_prefill b.1) id) (evs id)).1 /\
    metas_of id b'.2 = metas_of id b.2 ++ option_list (advance (dget (chunked_prefill b.1) id) (evs id)).2.

Lemma loop_progressed {A} (body : A -> M building unit) key ev (xs : list A) b :
  (forall x b, x ∈ xs -> is_producer b.1 = true -> prompts_known b.1 ->
     exists b', body x b = (Ok tt, b') /\ prompts_known b'.1 /\ handled (key x) (ev x) b b') ->
  NoDup (map key xs) -> is_producer b.1 = true -> prompts_known b.1 ->
  exists b', for_each xs body b = (Ok tt, b') /\ progressed (event_in key ev xs) b b'.
Proof.
  revert b. induction xs as [|x xs IH]; intros b Hbody Hnd Hp Hk; simpl.
  { exists b. split; [done|]. split; [done|]. split; [done|]. intros id. simpl. by rewrite List.app_nil_r. }
  destruct (Hbody x b) as (b1 & E1 & Hk1 & Hp1 & Hst & Hms & Hother); [by left|done|done|].
  simpl in Hnd. apply NoDup_cons in Hnd as [Hni Hnd].
  destruct (IH b1) as (b2 & E2 & Hp2 & Hk2 & H2); [intros; apply Hbody; [by right|done..]|done|by rewrite Hp1|done|].
  unfold mbind, M_bind. rewrite E1. exists b2. split; [done|]. split; [done|]. split; [done|]. intros id.
  destruct (H2 id) as [Hc Hm]. unfold event_in. cbn [find].
  destruct (decide (key x = id)) as [<-|Hne].
  - rewrite bool_decide_true by done. rewrite (event_absent key ev xs) in Hc, Hm by done. simpl in Hc, Hm.
    rewrite List.app_nil_r in Hm. by rewrite Hc, Hm.
  - rewrite bool_decide_false by done. destruct (Hother id ltac:(congruence)) as [Eo Em].
    unfold event_in in Hc, Hm. by rewrite Hc, Hm, Eo, Em.
Qed.

Lemma advance_absent st : advance st Absent = (st, None).
Proof. done. Qed.

(** A producer treats each request on its own.  In a step where every
    request occurs at most once, the metadata is built without error, and what
    it has for a request, and what is remembered of its prompt, depend only on
    that request: its earlier blocks, its new blocks and its token counts. *)
Lemma producer_step_per_request so c :
  output_ok so -> is_producer c = true -> prompts_known c ->
  exists ms c', build_connector_meta so c = (Ok ms, c') /\ is_producer c' = true /\ prompts_known c' /\
    forall id, dget (chunked_prefill c') id = (advance (dget (chunked_prefill c) id) (event_of so id)).1 /\
      metas_of id ms = option_list (advance (dget (chunked_prefill c) id) (event_of so id)).2.
Proof.
  intros [Honce Htok Hnew Hcached] Hp Hk. unfold new_ids, cached_ids in *. apply NoDup_app in Honce as (Hn1 & Hdisj & Hn2).
  rewrite Forall_app, !Forall_forall in Htok. destruct Htok as [Ht1 Ht2]. rewrite Forall_forall in Hnew. rewrite Forall_forall in Hcached.
  assert (forall {A} (f : A -> string) l x, x ∈ l -> f x ∈ map f l) as Hin
    by (intros A f l x Hx; by apply list_elem_of_In, in_map, list_elem_of_In).
  destruct (loop_progressed (add_new so) req_id (new_event so) (scheduled_new_reqs so) (c, [])) as (b1 & E1 & Hp1 & Hk1 & H1);
    [|done|done|done|].
  { intros r b Hr Hpb Hkb. destruct (Hnew r Hr) as [Hg Hc]. destruct (Ht1 (req_id r)) as (n & En & Hn); [by apply Hin|].
    by eapply add_new_handled. }
  destruct (loop_progressed (add_cached_producer so) c_req_id (cached_event so) (scheduled_cached_reqs so) b1)
    as (b2 & E2 & Hp2 & Hk2 & H2); [|done|done|done|].
  { intros r b Hr Hpb Hkb. destruct (Ht2 (c_req_id r)) as (n & En & Hn); [by apply Hin|]. by eapply add_cached_handled; [..|apply Hcached]. }
  unfold build_connector_meta. rewrite Hp. unfold mbind, M_bind. rewrite E1, E2. unfold on_connector, modify.
  exists b2.2, (set_need_load [] b2.1). split; [done|]. split; [done|]. split; [exact Hk2|]. intros id.
  destruct (H1 id) as [Hc1 Hm1], (H2 id) as [Hc2 Hm2]. simpl in *.
  assert (event_of so id = event_in req_id (new_event so) (scheduled_new_reqs so) id /\
      event_in c_req_id (cached_event so) (scheduled_cached_reqs so) id = Absent \/
    event_in req_id (new_event so) (scheduled_new_reqs so) id = Absent /\
      event_of so id = event_in c_req_id (cached_event so) (scheduled_cached_reqs so) id) as [[Ee Ea]|[Ea Ee]].
  { unfold event_of. destruct (decide (id ∈ map req_id (scheduled_new_reqs so))) as [Hi|Hni].
    - left. split; [|apply event_absent; by apply Hdisj]. unfold event_in.
      destruct (find (fun r => bool_decide (req_id r = id)) (scheduled_new_reqs so)) eqn:Ef; [done|].
      exfalso. apply list_elem_of_fmap in Hi as (r & -> & Hr). apply list_elem_of_In in Hr.
      pose proof (find_none _ _ Ef r Hr) as Hb. by apply bool_decide_eq_false in Hb.
    - right. split; [by apply event_absent|]. pose proof (event_absent req_id (fun r => New 0 [] None) _ id Hni) as Hf.
      unfold event_in in Hf. destruct (find (fun r => bool_decide (req_id r = id)) (scheduled_new_reqs so)); [done|done]. }
  - rewrite Ea in Hc2, Hm2. simpl in Hc2, Hm2. rewrite List.app_nil_r in Hm2. by rewrite Ee, Hc2, Hm2.
  - rewrite Ea in Hc1, Hm1. simpl in Hc1, Hm1. rewrite Hc1, Hm1 in *. by rewrite Ee, Hc2, Hm2.
Qed.

(** ** Runs *)

Fixpoint connector_run (sos : list SchedulerOutput) (c : connector) : result (list (list ReqMeta)) * connector :=
  match sos with
  | [] => (Ok [], c)
  | so :: rest =>
      match build_connector_meta so c with
      | (Err e, c') => (Err e, c')
      | (Ok ms, c') => let (r, c'') := connector_run rest c' in (mss ← r; mret (ms :: mss), c'')
      end
  end.

(** What is sent of a request whose steps are [evs]. *)
Fixpoint sent (st : option (list Z * option (list Z))) (evs : list event) : list (list Z * Z) :=
  match evs with
  | [] => []
  | ev :: rest => option_list (advance st ev).2 ++ sent (advance st ev).1 rest
  end.

Lemma connector_run_sent sos c :
  Forall output_ok sos -> is_producer c = true -> prompts_known c ->
  exists mss c', connector_run sos c = (Ok mss, c') /\
    forall id, List.concat (map (metas_of id) mss) = sent (dget (chunked_prefill c) id) (map (fun so => event_of so id) sos).
Proof.
  revert c. induction sos as [|so sos IH]; intros c Hok Hp Hk; simpl; [by exists [], c|].
  inversion Hok as [|? ? Hso Hsos]; subst.
  destruct (producer_step_per_request so c Hso Hp Hk) as (ms & c1 & -> & Hp1 & Hk1 & H1).
  destruct (IH c1 Hsos Hp1 Hk1) as (mss & c2 & -> & H2). exists (ms :: mss), c2. split; [done|]. intros id.
  destruct (H1 id) as [E1 E2]. simpl. by rewrite E2, H2, E1.
Qed.

(** A chunk that leaves the prompt unfinished, or a step without the request. *)
Definition unfinished (n : Z) (ev : event) : Prop :=
  match ev with Absent => True | Again total (Some _) false => total < n | _ => False end.
Definition chunk_blocks (ev : event) : list Z := match ev with Again _ (Some b) _ => b | _ => [] end.
Definition later (ev : event) : Prop := match ev with New _ _ _ => False | _ => True end.

Lemma sent_later evs : Forall later evs -> sent None evs = [].
Proof. induction 1 as [|ev evs Hev _ IH]; [done|]. simpl. destruct ev as [| |? [?|] ?]; done. Qed.

Lemma sent_chunks blocks prompt pre rest :
  Forall (unfinished (zlen_of prompt)) pre ->
  sent (Some (blocks, Some prompt)) (pre ++ rest) =
  sent (Some (blocks ++ List.concat (map chunk_blocks pre), Some prompt)) rest.
Proof.
  revert blocks. induction pre as [|ev pre IH]; intros blocks Hpre; simpl; [by rewrite List.app_nil_r|].
  inversion Hpre as [|? ? Hev Hrest]; subst. destruct ev as [| |total [b|] [|]]; try done; simpl.
  - by apply IH.
  - simpl in Hev. apply Z.ltb_lt in Hev. unfold or_empty. simpl. rewrite Hev. simpl. rewrite IH by done. by rewrite <- List.app_assoc.
Qed.

(** C37: a chunked prompt whose chunks bring new blocks is sent once.  Whatever
    else the steps schedule, a request that is first scheduled for part of its
    prompt and then in chunks, each with new blocks and none resumed from a
    preemption, is sent in exactly one step, the first that completes the
    prompt, with the blocks of all its chunks in order and the length of the
    prompt; later steps do not send it again.  A chunk without new blocks is
    skipped, also when it completes the prompt
    ([chunk_without_blocks_not_sent]). *)
Theorem chunked_prompt_sent_once sos c id total blocks prompt pre last last_blocks post :
  Forall output_ok sos -> is_producer c = true -> prompts_known c -> dget (chunked_prefill c) id = None ->
  map (fun so => event_of so id) sos =
    New total blocks (Some prompt) :: pre ++ Again last (Some last_blocks) false :: post ->
  total < zlen_of prompt -> Forall (unfinished (zlen_of prompt)) pre -> zlen_of prompt <= last -> Forall later post ->
  exists mss c', connector_run sos c = (Ok mss, c') /\
    List.concat (map (metas_of id) mss) =
      [(blocks ++ List.concat (map chunk_blocks pre) ++ last_blocks, zlen_of prompt)].
Proof.
  intros Hok Hp Hk Hno Hev Ht Hpre Hlast Hpost.
  destruct (connector_run_sent sos c Hok Hp Hk) as (mss & c' & E & Hsent). exists mss, c'. split; [done|].
  rewrite Hsent, Hno, Hev. simpl. unfold or_empty. simpl. rewrite (proj2 (Z.ltb_lt _ _) Ht). simpl.
  rewrite sent_chunks by done. simpl. unfold or_empty. simpl. rewrite (proj2 (Z.ltb_ge _ _) Hlast). simpl.
  rewrite sent_later by done. by rewrite <- List.app_assoc.
Qed.

(** A prompt whose remaining chunks need no new block is never sent. *)
Lemma chunk_without_blocks_not_sent sos c id total blocks prompt rest :
  Forall output_ok sos -> is_producer c = true -> prompts_known c -> dget (chunked_prefill c) id = None ->
  map (fun so => event_of so id) sos = New total blocks (Some prompt) :: rest -> total < zlen_of prompt ->
  Forall (fun ev => match ev with Absent | Again _ None _ => True | _ => False end) rest ->
  exists mss c', connector_run sos c = (Ok mss, c') /\ List.concat (map (metas_of id) mss) = [].
Proof.
  intros Hok Hp Hk Hno Hev Ht Hrest.
  destruct (connector_run_sent sos c Hok Hp Hk) as (mss & c' & E & Hsent). exists mss, c'. split; [done|].
  rewrite Hsent, Hno, Hev. simpl. unfold or_empty. simpl. rewrite (proj2 (Z.ltb_lt _ _) Ht). simpl.
  clear -Hrest. induction Hrest as [|ev rest Hev _ IH]; [done|]. by destruct ev as [| |? [?|] ?].
Qed.

(** ** Blocks *)

Lemma write_blocks_ok {B} (layer : list B) ids kv :
  length ids = length kv -> NoDup ids -> Forall (fun i => 0 <= i < zlen layer) ids ->
  exists layer', write_blocks layer ids kv = Ok layer' /\ zlen layer' = zlen layer /\
    Forall2 (fun i x => zget layer' i = Some x) ids kv /\ forall i, ~ i ∈ ids -> zget layer' i = zget layer i.
Proof.
  revert layer kv. induction ids as [|i ids IH]; intros layer kv Hlen Hnd Hin.
  { destruct kv; [|done]. exists layer. split_and!; done. }
  destruct kv as [|x kv]; [done|]. simpl. apply NoDup_cons in Hnd as [Hni Hnd]. inversion Hin as [|? ? Hi Hrest]; subst.
  destruct (zget_is_Some layer i Hi) as [y ->].
  assert (zlen (<[Z.to_nat i := x]> layer) = zlen layer) as El by (unfold zlen; by rewrite length_insert).
  destruct (IH (<[Z.to_nat i := x]> layer) kv) as (layer' & E & El' & H2 & Hother);
    [by injection Hlen|done|by rewrite El|].
  exists layer'. split; [done|]. split; [congruence|]. split.
  - constructor; [|done]. rewrite Hother by done. rewrite zget_insert by done. by rewrite decide_True.
  - intros j Hj. rewrite not_elem_of_cons in Hj. destruct Hj as [Hji Hj]. rewrite Hother by done.
    rewrite zget_insert by done. by rewrite decide_False.
Qed.

(** Blocks arrive where they belong.  The blocks a producer extracts from a
    layer and a consumer injects into its own, both with as many distinct valid
    block ids, are found under the consumer's ids in the order of the
    producer's, and no other block of the consumer changes. *)
Theorem blocks_transferred {B} (source target : list B) from to :
  length from = length to -> Forall (fun i => 0 <= i < zlen source) from ->
  NoDup to -> Forall (fun i => 0 <= i < zlen target) to ->
  exists kv target', extract_kv_from_layer source from = Ok kv /\ inject_kv_into_layer target to kv = Ok target' /\
    Forall2 (fun i j => zget target' j = zget source i) from to /\
    zlen target' = zlen target /\ forall j, ~ j ∈ to -> zget target' j = zget target j.
Proof.
  intros Hlen Hfrom Hnd Hto.
  assert (exists kv, extract_kv_from_layer source from = Ok kv /\ Forall2 (fun i x => zget source i = Some x) from kv)
    as (kv & Ekv & Hkv).
  { clear -Hfrom. induction Hfrom as [|i from Hi _ (kv & E & H2)]; [exists []; split; [done|constructor]|].
    destruct (zget_is_Some source i Hi) as [x Ex]. exists (x :: kv). split; [|by constructor].
    unfold extract_kv_from_layer in *. simpl. rewrite Ex. cbn [mbind result_bind]. by rewrite E. }
  pose proof (Forall2_length _ _ _ Hkv) as El.
  destruct (write_blocks_ok target to kv) as (target' & E & Hz & H2 & Hother); [congruence|done|done|].
  exists kv, target'. split; [done|]. unfold inject_kv_into_layer.
  rewrite (proj2 (Nat.eqb_eq (length to) (length kv))) by congruence. rewrite (proj2 (Nat.eqb_eq (length to) (length kv))) by congruence.
  split; [exact E|]. split; [|done].
  apply Forall2_same_length_lookup_2; [done|]. intros k i j Hi Hj.
  destruct (Forall2_lookup_l _ _ _ _ _ Hkv Hi) as (x & Hx & ->). by destruct (Forall2_lookup_lr _ _ _ _ _ _ H2 Hj Hx).
Qed.

(** ** Witness: a prompt of five tokens in chunks of two, with another request *)

Definition demo_outputs : list SchedulerOutput :=
  [MkOutput [MkNewRequest "a" (Some [1; 2; 3; 4; 5]) 0 [[10]]; MkNewRequest "b" (Some [9]) 0 [[20]]] [] [] [("a", 2); ("b", 1)];
   MkOutput [] [MkCached "a" 2 (Some [[11]])] [] [("a", 2)];
   MkOutput [] [MkCached "b" 1 None; MkCached "a" 4 (Some [[12]])] [] [("a", 1); ("b", 1)];
   MkOutput [] [MkCached "a" 5 (Some [[13]])] [] [("a", 1)]].

Lemma demo_outputs_ok : Forall output_ok demo_outputs.
Proof.
  repeat constructor; simpl; try set_solver; try (eexists; split; [vm_compute; reflexivity|]); try done; try lia.
Qed.

Lemma chunked_prompt_sent_once_witness :
  exists mss c', connector_run demo_outputs (MkConnector true [] []) = (Ok mss, c') /\
    List.concat (map (metas_of "a") mss) = [([10; 11; 12], 5)].
Proof.
  apply (chunked_prompt_sent_once demo_outputs (MkConnector true [] []) "a" 2 [10] [1; 2; 3; 4; 5]
    [Again 4 (Some [11]) false] 5 [12] [Again 6 (Some [13]) false] demo_outputs_ok eq_refl).
  - split; [constructor|done].
  - reflexivity.
  - vm_compute. reflexivity.
  - vm_compute. reflexivity.
  - repeat constructor.
  - vm_compute. discriminate.
  - repeat constructor.
Defined.

Lemma blocks_transferred_witness :
  exists kv target', extract_kv_from_layer [10; 11; 12; 13] [3; 1] = Ok kv /\
    inject_kv_into_layer [0; 0; 0] [0; 2] kv = Ok target' /\ target' = [13; 0; 11].
Proof.
  destruct (blocks_transferred [10; 11; 12; 13] [0; 0; 0] [3; 1] [0; 2]) as (kv & target' & H1 & H2 & _).
  - reflexivity.
  - vm_compute. repeat constructor; discriminate.
  - repeat constructor; set_solver.
  - vm_compute. repeat constructor; discriminate.
  - exists kv, target'. split; [exact H1|]. split; [exact H2|]. vm_compute in H1. injection H1 as <-.
    vm_compute in H2. injection H2 as <-. reflexivity.
Defined.
