(* ===== verification/Envs.v ===== *)
(** * The environment variables of the plugin

    Models src/vllm_hcu/platforms/envs.py: the table of variables and how each
    is read, the switches that resolve under the custom-op master, and the
    choice of the flash-attention mode.  The process environment is an
    argument; strings are ASCII. *)

From S2P Require Import Prelude PyString.
From Stdlib Require Import Ascii String.
Local Open Scope string_scope.
Local Open Scope list_scope.

Module Envs.

(** ** Values and readers *)

Inductive value := VBool (b : bool) | VInt (z : Z) | VStr (s : string) | VNone.
Inductive value_type := TBool | TInt | TStr | TOptInt | TOptStr.

#[global] Instance value_eq_dec : EqDecision value.
Proof. solve_decision. Defined.
#[global] Instance value_type_eq_dec : EqDecision value_type.
Proof. solve_decision. Defined.

(** How a variable is read: the lambdas of the table, by their shape, and the
    functions it names *)
Inductive reader :=
  | Flag (default : string)
  | MaybeInt
  | IntOf (default : string)
  | LowerText (default : string)
  | Text (default : string)
  | MaybeText
  | CustomOps
  | Glm53RouterGemv
  | AiterMoeShuffle
  | AiterMoeConfig
  | PlePrefetch
  | DpInt8Allgather
  | Qwen4ExpHcSp
  | K3SpMoe
  | IndexerKcacheLayout.

Definition variables_1 : list (string * reader) :=
  [("VLLM_USE_NN", Flag "True");
   ("VLLM_HCU_USE_FUSED_RMS_ROPE", Flag "True");
   ("VLLM_HCU_USE_FLASH_ATTN", Flag "False");
   ("VLLM_HCU_USE_FLASH_ATTN_UNIFIED", Flag "False");
   ("VLLM_HCU_USE_FLASH_ATTN_VARLEN", Flag "True");
   ("VLLM_HCU_USE_FLASHMLA", Flag "False");
   ("VLLM_USE_OPT_CAT", Flag "True");
   ("VLLM_HCU_USE_CAT_MLA", Flag "True");
   ("VLLM_HCU_DISABLE_DSA", Flag "False");
   ("VLLM_HCU_GLM_MTP_QUANT_PREFIX_FIX", Flag "True");
   ("VLLM_HCU_USE_FP8_MIXED_BATCH", Flag "True");
   ("VLLM_HCU_USE_CUSTOM_QUANTIZATION_GEMM", Flag "True");
   ("VLLM_HCU_USE_CUSTOM_OPS", CustomOps);
   ("VLLM_HCU_GLM53_ROUTER_GEMV", Glm53RouterGemv);
   ("VLLM_HCU_QSA_BACKEND", LowerText "cutlass");
   ("VLLM_HCU_USE_CUSTOM_SILU_AND_MUL", Flag "True");
   ("VLLM_HCU_USE_CUSTOM_GEMMA_RMS_NORM", Flag "True");
   ("VLLM_HCU_USE_SKIP_WEIGHT_DEBUG", Flag "False");
   ("VLLM_HCU_USE_CUSTOM_TOPK_TOPP_SAMPLER", Flag "False");
   ("VLLM_HCU_USE_CUSTOM_RMS_NORM", Flag "True");
   ("VLLM_HCU_USE_CUSTOM_AITER_FLA", Flag "True");
   ("VLLM_HCU_GDN_DECODE_BACKEND", LowerText "hcu-aiter");
   ("VLLM_HCU_PP_LAYER_PARTITION_D", MaybeText);
   ("VLLM_HCU_USE_FUSE_MOE_GATE", Flag "True");
   ("VLLM_HCU_USE_LIGHTOP_SQRTSOFTPLUS_GATE", Flag "True");
   ("VLLM_HCU_USE_LIGHTOP_QWEN_RMSNORM_GATED", Flag "True");
   ("VLLM_HCU_USE_LIGHTOP_W16A16_MOE", Flag "False");
   ("VLLM_HCU_USE_LIGHTOP_MLA_DECODE_CAT", Flag "True");
   ("VLLM_HCU_USE_CUSTOM_CAUSAL_CONV1D", Flag "True");
   ("VLLM_HCU_USE_LIGHTOP_AWQ", Flag "False");
   ("VLLM_HCU_USE_DP_CONNECTOR", Flag "False");
   ("VLLM_HCU_LIGHTLY_CP_THRESHOLD", IntOf "2048")].

Definition variables_2 : list (string * reader) :=
  [("VLLM_HCU_USE_LIGHTOP_TOPK", Flag "True");
   ("VLLM_HCU_USE_LIGHTOP_SPARSE_MLA_TOPK", Flag "True");
   ("VLLM_HCU_USE_LIGHTOP_FAST_TOPK_TRANSFORM", Flag "True");
   ("VLLM_HCU_USE_AITER_MHC", Flag "True");
   ("VLLM_HCU_USE_TILELANG_MHC_PRENORM", Flag "True");
   ("VLLM_HCU_DEEPSEEK_V4_ROCM_FLASHMLA_DECODE", Flag "True");
   ("VLLM_HCU_DEEPSEEK_V4_ROCM_FLASHMLA_PREFILL", Flag "True");
   ("VLLM_HCU_DEEPSEEK_V4_ROCM_FLASHMLA_PREFILL_HEAD_PADDING", Flag "True");
   ("VLLM_HCU_DEEPSEEK_V4_ROCM_SPARSE_PREFILL_BACKEND", LowerText "flashmla");
   ("VLLM_HCU_DEEPSEEK_V4_ROCM_DECODE_FALLBACK", Flag "False");
   ("VLLM_HCU_DEEPSEEK_V4_ROCM_FAST_WOA", Flag "True");
   ("VLLM_HCU_ENABLE_DEEPSEEK_V4_MULTI_STREAM", Flag "True");
   ("VLLM_HCU_DEEPSEEK_V4_MULTI_STREAM_GEMM_TOKEN_THRESHOLD", IntOf "16384");
   ("VLLM_HCU_DEEPSEEK_V4_MULTI_STREAM_COMPRESSOR_TOKEN_THRESHOLD", IntOf "16384");
   ("VLLM_HCU_ENABLE_DEEPSEEK_V4_C128_COMPRESSOR", Flag "True");
   ("VLLM_HCU_ENABLE_DEEPSEEK_V4_CACHE_WINDOW", Flag "False");
   ("VLLM_HCU_USE_AITER_W8A8_FP8_MOE", Flag "False");
   ("VLLM_HCU_USE_LIGHTOP_MOE_ALIGN", Flag "False");
   ("VLLM_HCU_USE_LIGHTOP_EP_SCATTER", Flag "True");
   ("VLLM_HCU_USE_LIGHTOP_PER_TOKEN_QUANT_FP8", Flag "False");
   ("VLLM_HCU_FUSED_MOE_CHUNK_SIZE", MaybeInt);
   ("VLLM_HCU_USE_GLOBAL_MOE_CACHE", Flag "False");
   ("VLLM_HCU_USE_FUSED_RMS_QUANT", Flag "False");
   ("VLLM_HCU_USE_FUSE_SILU_AND_MUL", Flag "False");
   ("VLLM_HCU_USE_FUSED_SILU_MUL_QUANT", Flag "True");
   ("VLLM_HCU_USE_FUSED_QKV_SPLIT_RMS_ROPE_KVSTORE", Flag "True");
   ("VLLM_HCU_FLASH_ATTN_BLOCK_ALIGNMENT_SIZE", MaybeInt);
   ("VLLM_HCU_MAMBA_SSM_CACHE_DTYPE", Flag "False")].

Definition variables_3 : list (string * reader) :=
  [("VLLM_HCU_USE_AITER_W4A16_MOE", Flag "True");
   ("VLLM_HCU_USE_TORCH_EPLB_MAP_RECORD", Flag "False");
   ("VLLM_HCU_USE_AITER_MOE_SHUFFLE", AiterMoeShuffle);
   ("VLLM_HCU_USE_AITER_MOE_CONFIG", AiterMoeConfig);
   ("VLLM_HCU_MOONCAKE_TTFT_TRACE", Flag "False");
   ("VLLM_HCU_DEEPEP_NUM_SMS", MaybeInt);
   ("VLLM_HCU_DPSK_V4_DEEPEP_LL_USE_HCU_DISPATCH_API", Flag "False");
   ("VLLM_HCU_SHARED_EXPERTS_STREAM_FORCE", Flag "False");
   ("VLLM_HCU_DEEPSEEK_V4_PCP_LOCAL_QUERIES", Flag "True");
   ("VLLM_HCU_KV_ZERO_BY_GROUP", Flag "1");
   ("VLLM_HCU_DEEPSEEK_V4_PCP_LOCAL_SLICES", Flag "1");
   ("VLLM_HCU_COMPRESSOR_GEMM_BACKEND", Text "blaslt");
   ("VLLM_HCU_BF16_FP32_MMAC", Flag "1");
   ("VLLM_HCU_C128_HEAD_SPLITS", IntOf "4");
   ("VLLM_HCU_INVERSE_ROPE_SUFFIX", Flag "1");
   ("VLLM_HCU_SHARED_EXPERTS_EARLY_LAUNCH", Flag "False");
   ("VLLM_HCU_DEEPEP_AUTO_SHARED_WEIGHTS", Flag "1");
   ("VLLM_HCU_MOE_WORKSPACE_GROWTH_MB", IntOf "512");
   ("VLLM_HCU_DEEPEP_HT_EXACT_LAYOUT", Flag "1");
   ("VLLM_HCU_SHARED_EXPERTS_DEEPEP_EPLB_OVERLAP", Flag "1");
   ("VLLM_HCU_ENABLE_REQUEST_CUDAGRAPH_BUCKETS", Flag "False");
   ("VLLM_HCU_PLE_CPU_OFFLOAD", Flag "False");
   ("VLLM_HCU_PLE_PREFETCH_STREAM", PlePrefetch);
   ("VLLM_HCU_DP_INT8_ALLGATHER", DpInt8Allgather);
   ("VLLM_HCU_QWEN4_EXP_HC_SP", Qwen4ExpHcSp);
   ("VLLM_HCU_K3_SP_MOE", K3SpMoe)].

Definition variables_4 : list (string * reader) :=
  [("VLLM_HCU_INDEXER_KCACHE_LAYOUT", IndexerKcacheLayout);
   ("VLLM_HCU_MHC_FUSED_RMSNORM", Flag "True");
   ("VLLM_HCU_GLM5NEXT_KDA_STRIDED_INPUTS", Flag "True")].

Definition hcu_vllm_environment_variables : list (string * reader) :=
  variables_1 ++ variables_2 ++ variables_3 ++ variables_4.

(** The names the module declares for type checkers, with their defaults *)
Definition declared : list (string * (value_type * value)) :=
  [("VLLM_USE_NN", (TBool, VBool false));
   ("VLLM_HCU_USE_FLASH_ATTN", (TBool, VBool false));
   ("VLLM_HCU_USE_FLASH_ATTN_UNIFIED", (TBool, VBool false));
   ("VLLM_HCU_USE_FLASH_ATTN_VARLEN", (TBool, VBool true));
   ("VLLM_HCU_USE_FLASHMLA", (TBool, VBool false));
   ("VLLM_USE_OPT_CAT", (TBool, VBool false));
   ("VLLM_HCU_USE_CAT_MLA", (TBool, VBool true));
   ("VLLM_HCU_DISABLE_DSA", (TBool, VBool false));
   ("VLLM_HCU_GLM_MTP_QUANT_PREFIX_FIX", (TBool, VBool true));
   ("VLLM_HCU_USE_FP8_MIXED_BATCH", (TBool, VBool false));
   ("VLLM_HCU_USE_CUSTOM_QUANTIZATION_GEMM", (TBool, VBool false));
   ("VLLM_HCU_USE_CUSTOM_OPS", (TBool, VBool false));
   ("VLLM_HCU_GLM53_ROUTER_GEMV", (TBool, VBool true));
   ("VLLM_HCU_QSA_BACKEND", (TStr, VStr "cutlass"));
   ("VLLM_HCU_USE_CUSTOM_SILU_AND_MUL", (TBool, VBool false));
   ("VLLM_HCU_USE_CUSTOM_GEMMA_RMS_NORM", (TBool, VBool false));
   ("VLLM_HCU_USE_SKIP_WEIGHT_DEBUG", (TBool, VBool false));
   ("VLLM_HCU_USE_CUSTOM_TOPK_TOPP_SAMPLER", (TBool, VBool false));
   ("VLLM_HCU_USE_CUSTOM_RMS_NORM", (TBool, VBool false));
   ("VLLM_HCU_USE_CUSTOM_AITER_FLA", (TBool, VBool false));
   ("VLLM_HCU_GDN_DECODE_BACKEND", (TStr, VStr "hcu-aiter"));
   ("VLLM_HCU_PP_LAYER_PARTITION_D", (TOptStr, VNone));
   ("VLLM_HCU_USE_FUSE_MOE_GATE", (TBool, VBool true));
   ("VLLM_HCU_USE_LIGHTOP_SQRTSOFTPLUS_GATE", (TBool, VBool true));
   ("VLLM_HCU_USE_LIGHTOP_QWEN_RMSNORM_GATED", (TBool, VBool true));
   ("VLLM_HCU_USE_LIGHTOP_W16A16_MOE", (TBool, VBool false));
   ("VLLM_HCU_USE_LIGHTOP_AWQ", (TBool, VBool false));
   ("VLLM_HCU_INDEXER_KCACHE_LAYOUT", (TStr, VStr "preshuffle"));
   ("VLLM_HCU_USE_LIGHTOP_MLA_DECODE_CAT", (TBool, VBool true));
   ("VLLM_HCU_USE_CUSTOM_CAUSAL_CONV1D", (TBool, VBool false));
   ("VLLM_HCU_USE_DP_CONNECTOR", (TBool, VBool false));
   ("VLLM_HCU_LIGHTLY_CP_THRESHOLD", (TInt, VInt 2048));
   ("VLLM_HCU_USE_LIGHTOP_TOPK", (TBool, VBool false));
   ("VLLM_HCU_USE_LIGHTOP_SPARSE_MLA_TOPK", (TBool, VBool true));
   ("VLLM_HCU_USE_LIGHTOP_FAST_TOPK_TRANSFORM", (TBool, VBool true));
   ("VLLM_HCU_USE_AITER_MHC", (TBool, VBool true));
   ("VLLM_HCU_USE_TILELANG_MHC_PRENORM", (TBool, VBool true));
   ("VLLM_HCU_DEEPSEEK_V4_ROCM_DECODE_FALLBACK", (TBool, VBool false));
   ("VLLM_HCU_DEEPSEEK_V4_ROCM_FLASHMLA_DECODE", (TBool, VBool true));
   ("VLLM_HCU_DEEPSEEK_V4_ROCM_FLASHMLA_PREFILL", (TBool, VBool true));
   ("VLLM_HCU_DEEPSEEK_V4_ROCM_FLASHMLA_PREFILL_HEAD_PADDING", (TBool, VBool true));
   ("VLLM_HCU_DEEPSEEK_V4_ROCM_SPARSE_PREFILL_BACKEND", (TStr, VStr "flashmla"));
   ("VLLM_HCU_DEEPSEEK_V4_ROCM_FAST_WOA", (TBool, VBool true));
   ("VLLM_HCU_ENABLE_DEEPSEEK_V4_MULTI_STREAM", (TBool, VBool true));
   ("VLLM_HCU_DEEPSEEK_V4_MULTI_STREAM_GEMM_TOKEN_THRESHOLD", (TInt, VInt 16384));
   ("VLLM_HCU_DEEPSEEK_V4_MULTI_STREAM_COMPRESSOR_TOKEN_THRESHOLD", (TInt, VInt 16384));
   ("VLLM_HCU_ENABLE_DEEPSEEK_V4_C128_COMPRESSOR", (TBool, VBool true));
   ("VLLM_HCU_ENABLE_DEEPSEEK_V4_CACHE_WINDOW", (TBool, VBool false));
   ("VLLM_HCU_USE_AITER_W8A8_FP8_MOE", (TBool, VBool false));
   ("VLLM_HCU_USE_LIGHTOP_MOE_ALIGN", (TBool, VBool false));
   ("VLLM_HCU_USE_LIGHTOP_EP_SCATTER", (TBool, VBool true));
   ("VLLM_HCU_USE_LIGHTOP_PER_TOKEN_QUANT_FP8", (TBool, VBool false));
   ("VLLM_HCU_FUSED_MOE_CHUNK_SIZE", (TOptInt, VNone));
   ("VLLM_HCU_USE_GLOBAL_MOE_CACHE", (TBool, VBool false));
   ("VLLM_HCU_USE_FUSED_RMS_QUANT", (TBool, VBool false));
   ("VLLM_HCU_USE_FUSE_SILU_AND_MUL", (TBool, VBool false));
   ("VLLM_HCU_USE_FUSED_SILU_MUL_QUANT", (TBool, VBool false));
   ("VLLM_HCU_USE_FUSED_QKV_SPLIT_RMS_ROPE_KVSTORE", (TBool, VBool false));
   ("VLLM_HCU_USE_FUSED_RMS_ROPE", (TBool, VBool true));
   ("VLLM_HCU_FLASH_ATTN_BLOCK_ALIGNMENT_SIZE", (TOptInt, VNone));
   ("VLLM_HCU_MAMBA_SSM_CACHE_DTYPE", (TBool, VBool false));
   ("VLLM_HCU_USE_AITER_W4A16_MOE", (TBool, VBool false));
   ("VLLM_HCU_USE_TORCH_EPLB_MAP_RECORD", (TBool, VBool false));
   ("VLLM_HCU_USE_AITER_MOE_SHUFFLE", (TBool, VBool true));
   ("VLLM_HCU_USE_AITER_MOE_CONFIG", (TBool, VBool true));
   ("VLLM_HCU_MOONCAKE_TTFT_TRACE", (TBool, VBool false));
   ("VLLM_HCU_DEEPEP_NUM_SMS", (TOptInt, VNone));
   ("VLLM_HCU_DPSK_V4_DEEPEP_LL_USE_HCU_DISPATCH_API", (TBool, VBool false));
   ("VLLM_HCU_SHARED_EXPERTS_STREAM_FORCE", (TBool, VBool false));
   ("VLLM_HCU_DEEPSEEK_V4_PCP_LOCAL_QUERIES", (TBool, VBool true));
   ("VLLM_HCU_KV_ZERO_BY_GROUP", (TBool, VBool true));
   ("VLLM_HCU_DEEPSEEK_V4_PCP_LOCAL_SLICES", (TBool, VBool true));
   ("VLLM_HCU_COMPRESSOR_GEMM_BACKEND", (TStr, VStr "blaslt"));
   ("VLLM_HCU_BF16_FP32_MMAC", (TBool, VBool true));
   ("VLLM_HCU_C128_HEAD_SPLITS", (TInt, VInt 4));
   ("VLLM_HCU_INVERSE_ROPE_SUFFIX", (TBool, VBool true));
   ("VLLM_HCU_SHARED_EXPERTS_EARLY_LAUNCH", (TBool, VBool false));
   ("VLLM_HCU_DEEPEP_AUTO_SHARED_WEIGHTS", (TBool, VBool true));
   ("VLLM_HCU_MOE_WORKSPACE_GROWTH_MB", (TInt, VInt 512));
   ("VLLM_HCU_DEEPEP_HT_EXACT_LAYOUT", (TBool, VBool true));
   ("VLLM_HCU_SHARED_EXPERTS_DEEPEP_EPLB_OVERLAP", (TBool, VBool true));
   ("VLLM_HCU_ENABLE_REQUEST_CUDAGRAPH_BUCKETS", (TBool, VBool false));
   ("VLLM_HCU_PLE_CPU_OFFLOAD", (TBool, VBool false));
   ("VLLM_HCU_PLE_PREFETCH_STREAM", (TBool, VBool false));
   ("VLLM_HCU_QWEN4_EXP_HC_SP", (TBool, VBool true));
   ("VLLM_HCU_DP_INT8_ALLGATHER", (TBool, VBool false));
   ("VLLM_HCU_MHC_FUSED_RMSNORM", (TBool, VBool true));
   ("VLLM_HCU_GLM5NEXT_KDA_STRIDED_INPUTS", (TBool, VBool true))].

(** ** Reading *)

(** [os.environ] *)
Definition environ : Type := string -> option string.

(** The caches of the two functions under [lru_cache] *)
Record caches := Caches { c_shuffle : option bool; c_config : option bool }.

(** [int] of an ASCII string: spaces around, a sign, digits with single
    underscores between them *)
Definition digit_of (c : ascii) : option Z :=
  let n := nat_of_ascii c in
  if ((48 <=? n) && (n <=? 57))%nat then Some (Z.of_nat n - 48)%Z else None.

Fixpoint int_digits (after_digit : bool) (acc : Z) (s : string) : option Z :=
  match s with
  | EmptyString => if after_digit then Some acc else None
  | String c s' =>
      match digit_of c with
      | Some d => int_digits true (10 * acc + d)%Z s'
      | None => if after_digit && Ascii.eqb c "_" then int_digits false acc s' else None
      end
  end.

Definition int_of (text : string) : option Z :=
  match strip text with
  | String "-" s => Z.opp <$> int_digits false 0 s
  | String "+" s => int_digits false 0 s
  | s => int_digits false 0 s
  end.

Definition environment_flag (raw : string) : bool := bool_decide (lower raw ∈ ["true"; "1"]).

Section read.
Context (env : environ).

(** [os.environ.get(name, default)] *)
Definition env_get (name default : string) : string := from_option id default (env name).

Definition custom_ops_enabled : bool := environment_flag (env_get "VLLM_HCU_USE_CUSTOM_OPS" "True").

Definition optional_custom_op_enabled (feature_enabled : bool) : bool := custom_ops_enabled && feature_enabled.

Definition linear_gate_pcp_shard_enabled (tp_size pcp_size pp_size : Z) : bool :=
  let requested :=
    match env "VLLM_HCU_ENABLE_LINEAR_GATE_PCP_SHARD" with
    | None => bool_decide ((tp_size, pcp_size, pp_size) = (1, 8, 1)%Z)
    | Some raw => bool_decide (lower (strip raw) ∈ ["1"; "true"; "yes"; "on"])
    end in
  optional_custom_op_enabled requested.

Definition qwen4_exp_hc_sp_enabled : bool :=
  optional_custom_op_enabled (environment_flag (env_get "VLLM_HCU_QWEN4_EXP_HC_SP" "True")).
Definition dp_int8_allgather_enabled : bool :=
  optional_custom_op_enabled (environment_flag (env_get "VLLM_HCU_DP_INT8_ALLGATHER" "False")).
Definition k3_sp_moe_requested : bool :=
  bool_decide (lower (strip (env_get "VLLM_HCU_K3_SP_MOE" "0")) ∈ ["1"; "true"]).
Definition k3_sp_moe_enabled : bool := optional_custom_op_enabled k3_sp_moe_requested.
Definition glm53_router_gemv_enabled : bool :=
  optional_custom_op_enabled (environment_flag (env_get "VLLM_HCU_GLM53_ROUTER_GEMV" "True")).
Definition custom_quantization_gemm_enabled : bool :=
  optional_custom_op_enabled (environment_flag (env_get "VLLM_HCU_USE_CUSTOM_QUANTIZATION_GEMM" "True")).
Definition lightop_awq_enabled : bool :=
  optional_custom_op_enabled (environment_flag (env_get "VLLM_HCU_USE_LIGHTOP_AWQ" "False")).
Definition ple_prefetch_enabled : bool :=
  custom_ops_enabled && environment_flag (env_get "VLLM_HCU_PLE_PREFETCH_STREAM" "False").
Definition fused_qwen4_exp_ple_enabled : bool := custom_ops_enabled.
Definition fused_qwen3_rms_rope_enabled : bool :=
  optional_custom_op_enabled (environment_flag (env_get "VLLM_HCU_USE_FUSED_RMS_ROPE" "True")).

Definition INDEXER_KCACHE_LAYOUTS : list string := ["preshuffle"; "normal"].

Definition indexer_kcache_layout : result string :=
  let raw := lower (strip (env_get "VLLM_HCU_INDEXER_KCACHE_LAYOUT" "preshuffle")) in
  if negb (bool_decide (raw ∈ INDEXER_KCACHE_LAYOUTS))
  then Err (Exn ValueError ("VLLM_HCU_INDEXER_KCACHE_LAYOUT must be one of ('preshuffle', 'normal'), got " +:+ repr raw))
  else if negb custom_ops_enabled then Ok "preshuffle"
  else Ok raw.

(** [lru_cache]: the first result is kept *)
Definition resolve_aiter_moe_shuffle : M caches bool := fun c =>
  match c_shuffle c with
  | Some b => (Ok b, c)
  | None =>
      let b := match env "VLLM_HCU_USE_AITER_MOE_SHUFFLE" with None => true | Some raw => environment_flag raw end in
      (Ok b, Caches (Some b) (c_config c))
  end.
Definition resolve_aiter_moe_config_compat : M caches bool := fun c =>
  match c_config c with
  | Some b => (Ok b, c)
  | None => (Ok true, Caches (c_shuffle c) (Some true))
  end.

(** [maybe_convert_int] *)
Definition convert_int (text : string) : result Z :=
  match int_of text with
  | Some z => Ok z
  | None => Err (Exn ValueError ("invalid literal for int() with base 10: " +:+ repr text))
  end.
Definition maybe_convert_int (text : option string) : result value :=
  match text with
  | None => Ok VNone
  | Some s => z ← convert_int s; mret (VInt z)
  end.

(** Calling the reader of the variable [name] *)
Definition read (name : string) (r : reader) : M caches value :=
  match r with
  | Flag default => mret (VBool (environment_flag (env_get name default)))
  | MaybeInt => lift (maybe_convert_int (env name))
  | IntOf default => lift (z ← convert_int (env_get name default); mret (VInt z))
  | LowerText default => mret (VStr (lower (strip (env_get name default))))
  | Text default => mret (VStr (env_get name default))
  | MaybeText => mret (match env name with Some s => VStr s | None => VNone end)
  | CustomOps => mret (VBool custom_ops_enabled)
  | Glm53RouterGemv => mret (VBool glm53_router_gemv_enabled)
  | AiterMoeShuffle => b ← resolve_aiter_moe_shuffle; mret (VBool b)
  | AiterMoeConfig => b ← resolve_aiter_moe_config_compat; mret (VBool b)
  | PlePrefetch => mret (VBool ple_prefetch_enabled)
  | DpInt8Allgather => mret (VBool dp_int8_allgather_enabled)
  | Qwen4ExpHcSp => mret (VBool qwen4_exp_hc_sp_enabled)
  | K3SpMoe => mret (VBool k3_sp_moe_enabled)
  | IndexerKcacheLayout => lift (s ← indexer_kcache_layout; mret (VStr s))
  end.

(** [__getattr__] of the module *)
Definition getattr (name : string) : M caches value :=
  match dget hcu_vllm_environment_variables name with
  | Some r => read name r
  | None => raise AttributeError ("module 'vllm_hcu.platforms.envs' has no attribute " +:+ repr name)
  end.

(** [__dir__] and [is_set] *)
Definition dir : list string := dkeys hcu_vllm_environment_variables.
Definition is_set (name : string) : result bool :=
  if dmem hcu_vllm_environment_variables name then Ok (match env name with Some _ => true | None => false end)
  else Err (Exn AttributeError ("module 'vllm_hcu.platforms.envs' has no attribute " +:+ repr name)).

(** ** Flash attention *)

Definition flash_aliases : list (string * string) :=
  [("unified", "cutlass"); ("classic", "classic"); ("cutlass", "cutlass"); ("varlen", "varlen")].

Definition resolve_hcu_flash_attn_mode (explicit_mode : option string) : result string :=
  match explicit_mode with
  | Some mode =>
      match dget flash_aliases (lower mode) with
      | Some m => Ok m
      | None => Err (Exn ValueError ("Unsupported HCU flash attention mode: " +:+ repr mode +:+ "."))
      end
  | None =>
      if environment_flag (env_get "VLLM_HCU_USE_FLASH_ATTN_VARLEN" "False") then Ok "varlen"
      else if environment_flag (env_get "VLLM_HCU_USE_FLASH_ATTN_UNIFIED" "False") then Ok "cutlass"
      else if environment_flag (env_get "VLLM_HCU_USE_FLASH_ATTN" "False") then Ok "classic"
      else Ok "varlen"
  end.
End read.
End Envs.
