(* ===== verification/EnvsCorrect.v ===== *)
(** * Correctness of the environment variables

    Every declared variable reads as a value of its declared type, the master
    switch turns off every switch below it, and which defaults differ from the
    declared ones. *)

From S2P Require Import Prelude PyString SwiftEngine SwiftRouting Envs.
Import Envs.

(** ** Types *)

Definition has_type (v : value) (ty : value_type) : bool :=
  match v, ty with
  | VBool _, TBool | VInt _, TInt | VStr _, TStr | VInt _, TOptInt | VNone, TOptInt | VStr _, TOptStr | VNone, TOptStr => true
  | _, _ => false
  end.

Definition reader_type (r : reader) : value_type :=
  match r with
  | MaybeInt => TOptInt
  | IntOf _ => TInt
  | LowerText _ | Text _ | IndexerKcacheLayout => TStr
  | MaybeText => TOptStr
  | _ => TBool
  end.

(** The default of a number is one. *)
Definition default_ok (r : reader) : bool :=
  match r with IntOf d => match int_of d with Some _ => true | None => false end | _ => true end.

Lemma convert_int_spec text :
  match convert_int text with
  | Ok z => int_of text = Some z
  | Err e => exn_type e = ValueError /\ int_of text = None
  end.
Proof. unfold convert_int. by destruct (int_of text). Qed.

Lemma read_typed env name r c :
  default_ok r = true -> (r = IndexerKcacheLayout -> name = "VLLM_HCU_INDEXER_KCACHE_LAYOUT") ->
  match (read env name r c).1 with
  | Ok v => has_type v (reader_type r) = true
  | Err e => exn_type e = ValueError /\ is_Some (env name)
  end.
Proof.
  intros Hd Hk. destruct r as [d| |d|d|d| | | | | | | | | |]; try done; simpl.
  - unfold maybe_convert_int. destruct (env name) as [text|] eqn:En; [|done]. pose proof (convert_int_spec text) as Hc.
    destruct (convert_int text); [done|]. simpl. split; [by apply Hc|by eexists].
  - unfold env_get. destruct (env name) as [text|] eqn:En; simpl.
    + pose proof (convert_int_spec text) as Hc. destruct (convert_int text); [done|]. simpl. split; [by apply Hc|by eexists].
    + simpl in Hd. unfold convert_int. by destruct (int_of d).
  - by destruct (env name).
  - munfold. unfold resolve_aiter_moe_shuffle. by destruct (c_shuffle c).
  - munfold. unfold resolve_aiter_moe_config_compat. by destruct (c_config c).
  - rewrite (Hk eq_refl). unfold lift, indexer_kcache_layout, env_get.
    destruct (env "VLLM_HCU_INDEXER_KCACHE_LAYOUT") as [text|] eqn:En; simpl.
    + destruct (negb (bool_decide _)); simpl; [split; [done|by eexists]|]. by destruct (negb (custom_ops_enabled env)).
    + by destruct (negb (custom_ops_enabled env)).
Qed.

(** The table covers the declarations, with readers of the declared types. *)
Definition entry_ok (d : string * (value_type * value)) : bool :=
  match dget hcu_vllm_environment_variables d.1 with
  | Some r => bool_decide (reader_type r = d.2.1) && default_ok r &&
      match r with IndexerKcacheLayout => bool_decide (d.1 = "VLLM_HCU_INDEXER_KCACHE_LAYOUT") | _ => true end
  | None => false
  end.

Lemma declared_ok : forallb entry_ok declared = true.
Proof. vm_compute. reflexivity. Qed.

(** C40: every declared variable can be read.  In any environment and whatever
    was read before, a declared variable is in the table and reads as a value
    of its declared type; the only other outcome is a ValueError, and only when
    the variable is set. *)
Theorem declared_variable_typed env c name ty d :
  In (name, (ty, d)) declared ->
  match (getattr env name c).1 with
  | Ok v => has_type v ty = true
  | Err e => exn_type e = ValueError /\ is_Some (env name)
  end.
Proof.
  intros Hin. pose proof (proj1 (forallb_forall _ _) declared_ok _ Hin) as Hok. unfold entry_ok in Hok. cbn [fst snd] in Hok.
  unfold getattr. destruct (dget hcu_vllm_environment_variables name) as [r|]; [|done].
  apply andb_true_iff in Hok as [[Hty Hdef]%andb_true_iff Hk]. apply bool_decide_eq_true in Hty. rewrite <- Hty.
  apply read_typed; [done|]. intros ->. by apply bool_decide_eq_true in Hk.
Qed.

(** ** The master switch *)

Definition master_off (env : environ) : Prop := environment_flag (env_get env "VLLM_HCU_USE_CUSTOM_OPS" "True") = false.

(** The master switch.  With custom operators off every switch that
    resolves under the master is off, whatever its own variable says, and a
    valid cache layout is the official one. *)
Theorem master_switch_off env tp pcp pp :
  master_off env ->
  Forall (fun b => b = false)
    [custom_ops_enabled env; linear_gate_pcp_shard_enabled env tp pcp pp; qwen4_exp_hc_sp_enabled env;
     dp_int8_allgather_enabled env; k3_sp_moe_enabled env; glm53_router_gemv_enabled env;
     custom_quantization_gemm_enabled env; lightop_awq_enabled env; ple_prefetch_enabled env;
     fused_qwen4_exp_ple_enabled env; fused_qwen3_rms_rope_enabled env] /\
  forall layout, indexer_kcache_layout env = Ok layout -> layout = "preshuffle".
Proof.
  intros Hoff. assert (custom_ops_enabled env = false) as E by exact Hoff. split.
  - unfold linear_gate_pcp_shard_enabled, qwen4_exp_hc_sp_enabled, dp_int8_allgather_enabled, k3_sp_moe_enabled,
      glm53_router_gemv_enabled, custom_quantization_gemm_enabled, lightop_awq_enabled, ple_prefetch_enabled,
      fused_qwen4_exp_ple_enabled, fused_qwen3_rms_rope_enabled, optional_custom_op_enabled. rewrite E. by repeat constructor.
  - intros layout. unfold indexer_kcache_layout. rewrite E. simpl. by case_match; intros [= <-].
Qed.

(** ** Defaults *)

Definition unset : environ := fun _ => None.

(** The declared names whose value with nothing set is another than declared *)
Definition misdeclared : list string :=
  map fst (List.filter (fun d => match (getattr unset d.1 (Caches None None)).1 with
    | Ok v => negb (bool_decide (v = d.2.2)) | Err _ => true end) declared).

(** Fourteen variables are on when nothing is set although they are declared off. *)
Example misdeclared_defaults :
  misdeclared =
  ["VLLM_USE_NN"; "VLLM_USE_OPT_CAT"; "VLLM_HCU_USE_FP8_MIXED_BATCH"; "VLLM_HCU_USE_CUSTOM_QUANTIZATION_GEMM";
   "VLLM_HCU_USE_CUSTOM_OPS"; "VLLM_HCU_USE_CUSTOM_SILU_AND_MUL"; "VLLM_HCU_USE_CUSTOM_GEMMA_RMS_NORM";
   "VLLM_HCU_USE_CUSTOM_RMS_NORM"; "VLLM_HCU_USE_CUSTOM_AITER_FLA"; "VLLM_HCU_USE_CUSTOM_CAUSAL_CONV1D";
   "VLLM_HCU_USE_LIGHTOP_TOPK"; "VLLM_HCU_USE_FUSED_SILU_MUL_QUANT";
   "VLLM_HCU_USE_FUSED_QKV_SPLIT_RMS_ROPE_KVSTORE"; "VLLM_HCU_USE_AITER_W4A16_MOE"].
Proof. vm_compute. reflexivity. Qed.

(** ** The partition of the decode side *)

(** The module attribute as the engine reads it *)
Definition text_attr (env : environ) (c : caches) (name : string) : result (option string) :=
  match (getattr env name c).1 with
  | Ok (VStr s) => Ok (Some s)
  | Ok VNone => Ok None
  | Ok _ => Err (Exn AttributeError "split")
  | Err e => Err e
  end.

(** The engine asks for a variable the module does not have, so no layer of an
    asymmetric transfer gets a stage. *)
Lemma asymmetric_stage_unavailable env c total size layer :
  (0 < size)%Z -> raises AttributeError (Routing.compute_remote_pp_rank (text_attr env c) int_of total size layer).
Proof.
  intros Hs. unfold Routing.compute_remote_pp_rank. rewrite seqZ_cons by lia. cbn [Routing.remote_pp_loop].
  unfold Routing.get_pp_indices_d, text_attr, getattr.
  destruct (dget hcu_vllm_environment_variables "VLLM_PP_LAYER_PARTITION_D") as [r|] eqn:E; vm_compute in E; [done|].
  eexists. reflexivity.
Qed.

Lemma asymmetric_stage_unavailable_witness :
  raises AttributeError
    (Routing.compute_remote_pp_rank (text_attr (fun _ => None) (Caches None None)) int_of 6 2 4).
Proof. apply (asymmetric_stage_unavailable (fun _ => None) (Caches None None) 6 2 4). lia. Defined.

(** ** The flash-attention mode *)

(** The modes the attention backend knows *)
Definition flash_modes : list string := ["varlen"; "cutlass"; "classic"].

(** Without an explicit mode one of the modes is chosen, the first switch that
    is on in the order varlen, unified, classic; an explicit mode wins. *)
Lemma flash_mode_resolved env explicit :
  match resolve_hcu_flash_attn_mode env explicit with
  | Ok m => m ∈ flash_modes
  | Err e => exn_type e = ValueError /\ exists m, explicit = Some m /\ ~ lower m ∈ dkeys flash_aliases
  end.
Proof.
  unfold resolve_hcu_flash_attn_mode. destruct explicit as [m|].
  - destruct (dget flash_aliases (lower m)) as [a|] eqn:E.
    + apply dget_elem in E. unfold flash_aliases in E. set_solver.
    + split; [done|]. exists m. split; [done|]. by apply dget_None.
  - repeat case_match; simplify_eq; set_solver.
Qed.

(** ** Witnesses *)

Definition demo_env : environ := fun name =>
  if decide (name = "VLLM_HCU_USE_CUSTOM_OPS") then Some "0"
  else if decide (name = "VLLM_HCU_C128_HEAD_SPLITS") then Some "8" else None.

Lemma declared_variable_typed_witness :
  (getattr demo_env "VLLM_HCU_C128_HEAD_SPLITS" (Caches None None)).1 = Ok (VInt 8) /\ has_type (VInt 8) TInt = true.
Proof.
  assert (In ("VLLM_HCU_C128_HEAD_SPLITS", (TInt, VInt 4)) declared) as Hin.
  { apply list_elem_of_In. apply (list_elem_of_lookup_2 _ 74). vm_compute. reflexivity. }
  pose proof (declared_variable_typed demo_env (Caches None None) _ _ _ Hin) as H.
  assert ((getattr demo_env "VLLM_HCU_C128_HEAD_SPLITS" (Caches None None)).1 = Ok (VInt 8)) as E by (vm_compute; reflexivity).
  rewrite E in H. split; [exact E|exact H].
Defined.

Lemma master_switch_off_witness : k3_sp_moe_enabled demo_env = false /\ glm53_router_gemv_enabled demo_env = false.
Proof.
  destruct (master_switch_off demo_env 1 8 1) as [H _]; [vm_compute; reflexivity|].
  rewrite Forall_forall in H. split; apply H; repeat (first [left|right]).
Defined.
