(* ===== verification/KvPlanner.v ===== *)
(** * The planner of the split caches

    Models src/vllm_hcu/patch/platform/framework_opt/
    patch_dsa_layer_split_kv_config.py: how many blocks the packed caches and
    the broadcast scratch get, the packed descriptors every worker receives,
    and the wrappers that replace vLLM's sizing functions.

    vLLM's own functions ([get_kv_cache_config_from_groups],
    [may_override_num_blocks], [_bucket_layers_by_page_size], ...) are
    parameters, and so is the conversion of a decimal number of GiB. *)

From S2P Require Import Prelude PyString Tensors LayerSplit LayerSplitConfig LayerPacking Envs.
From stdpp Require Import sorting.
Local Open Scope Z_scope.

Module KvPlanner.
Import LayerSplit SplitConfig Packing Envs.

(** ** Buckets *)

(** [buckets[page_size].append(slot)] *)
Definition bucket_append (buckets : dict Z (list (list string))) (page_size : Z) (slot : list string)
    : dict Z (list (list string)) :=
  dset buckets page_size (default [] (dget buckets page_size) ++ [slot]).

Definition bucket_group (buckets : dict Z (list (list string))) (g : cache_group)
    : dict Z (list (list string)) :=
  match g_layer_specs g with
  | Some ((_ :: _) as per_layer) =>
      foldl (fun b '(name, spec) => bucket_append b (page_size_bytes spec) [name]) buckets per_layer
  | _ =>
      foldl (fun b name => bucket_append b (page_size_bytes (g_spec g)) [name]) buckets (g_layer_names g)
  end.

(** [_bucket_layers_by_page_size] *)
Definition bucket_layers_by_page_size (groups : list cache_group) : dict Z (list (list string)) :=
  foldl bucket_group [] groups.

(** ** The broadcast scratch *)

(** [page_dtypes.setdefault(page, set()).add(dtype)] *)
Definition add_page_dtype (page_dtypes : dict Z (list (option torch_dtype))) (spec : layer_spec)
    : dict Z (list (option torch_dtype)) :=
  let page := page_size_bytes spec in
  if page =? 0 then page_dtypes
  else
    let seen := default [] (dget page_dtypes page) in
    dset page_dtypes page (if bool_decide (dtype spec ∈ seen) then seen else seen ++ [dtype spec]).

(** The key of a scratch pool *)
Inductive pool_key :=
  | Standalone (page : Z)
  | DtypePool (d : torch_dtype).

#[global] Instance pool_key_eq_dec : EqDecision pool_key.
Proof. solve_decision. Defined.

Definition charge_page (page : Z) (max_by_pool : dict pool_key Z) (d : option torch_dtype)
    : dict pool_key Z :=
  let key := match d with None => Standalone page | Some d => DtypePool d end in
  dset max_by_pool key (Z.max (default 0 (dget max_by_pool key)) page).

(** [page_dtypes.get(page) or {None}] *)
Definition dtypes_of_page (page_dtypes : dict Z (list (option torch_dtype))) (page : Z)
    : list (option torch_dtype) :=
  match dget page_dtypes page with
  | Some ((_ :: _) as ds) => ds
  | _ => [None]
  end.

Definition bounce_bytes_per_block (groups : list cache_group) (page_sizes : list Z) : Z :=
  let page_dtypes := foldl add_page_dtype [] (concat (map group_specs groups)) in
  let max_by_pool :=
    foldl (fun pools page => foldl (charge_page page) pools (dtypes_of_page page_dtypes page))
      [] page_sizes in
  2 * zsum (dvalues max_by_pool).

(** ** The layout *)

Record shrunk_layout := ShrunkLayout {
  l_buckets : dict Z (list (list string));
  l_page_sizes : list Z;
  l_phys_slots : dict Z Z;
  l_block_bytes : Z;
  l_full_bytes : Z;
  l_bounce_bytes : Z;
  l_shrunk : bool
}.

Section planner.
Context (parse_layer_index : string -> result Z).
(** vLLM's [_bucket_layers_by_page_size], when it has one *)
Context (vllm_bucket_fn : option (list cache_group -> dict Z (list (list string)))).
Context (may_override_num_blocks : vllm_config -> Z -> Z).
Context (cls : tensor_class).

Definition bucket_fn : list cache_group -> dict Z (list (list string)) :=
  match vllm_bucket_fn with Some f => f | None => bucket_layers_by_page_size end.

(** The indexes of one bucket: of the first layer of each slot, -1 when it has
    none that parses *)
Definition slot_indices (slots : list (list string)) : list Z :=
  omap (fun slot =>
    match slot with
    | [] => None
    | name :: _ => Some (match parse_layer_index name with Ok i => i | Err _ => -1 end)
    end) slots.

Fixpoint family_slots (buckets : dict Z (list (list string))) (total pcp : Z) (page_sizes : list Z)
    : result (dict Z Z) :=
  match page_sizes with
  | [] => Ok []
  | ps :: rest =>
      n ← phys_slots_for_layer_family (slot_indices (default [] (dget buckets ps))) total pcp;
      others ← family_slots buckets total pcp rest;
      mret ((ps, n) :: others)
  end.

Definition pcp_size (c : vllm_config) : Z :=
  or_one (p ← parallel c; prefill_context_parallel_size p).

(** [_shrunk_layout] *)
Definition shrunk_layout_of (c : vllm_config) (groups : list cache_group) : result (option shrunk_layout) :=
  match total_layers_from_config c with
  | None => Ok None
  | Some total =>
      if total <=? 0 then Ok None
      else
        let buckets := bucket_fn groups in
        let page_sizes := merge_sort Z.le (dkeys buckets) in
        phys_slots ← family_slots buckets total (pcp_size c) page_sizes;
        let block_bytes := zsum (map (fun '(ps, n) => ps * n) phys_slots) in
        if block_bytes <=? 0 then mret None
        else
          let full_bytes := zsum (map (fun ps => ps * zlen (default [] (dget buckets ps))) page_sizes) in
          let shrunk := block_bytes <? full_bytes in
          mret (Some (ShrunkLayout buckets page_sizes phys_slots
            (if shrunk then align_packed_block_stride block_bytes groups else full_bytes)
            full_bytes (bounce_bytes_per_block groups page_sizes) shrunk))
  end.

Definition accounted_bytes (l : shrunk_layout) : Z := l_block_bytes l + l_bounce_bytes l.

(** [//] *)
Definition floor_div (a b : Z) : result Z :=
  if b =? 0 then Err (Exn ZeroDivisionError "integer division or modulo by zero") else Ok (a / b).

Definition budget_blocks (c : vllm_config) (l : shrunk_layout) (available_memory : Z) : result Z :=
  budget ← floor_div available_memory (accounted_bytes l);
  let n := may_override_num_blocks c budget in
  if budget <? n
  then Err (Exn ValueError "num_gpu_blocks_override exceeds the DSA cache layer-split budget")
  else mret n.

Definition bounce_reserved_memory (c : vllm_config) (groups : list cache_group) (available_memory : Z)
    : result Z :=
  layout ← shrunk_layout_of c groups;
  match layout with
  | None => mret available_memory
  | Some l =>
      _ ← budget_blocks c l available_memory;
      floor_div (available_memory * l_block_bytes l) (accounted_bytes l)
  end.

(** ** The packed plan *)

(** The descriptors of one bucket, whose bytes start at [base] *)
Fixpoint plan_slots (size block_stride : Z) (id : allocation_id) (page_size n_phys base slot_idx : Z)
    (slots : list (list string)) : result (list kv_tensor) :=
  match slots with
  | [] => Ok []
  | slot :: slots' =>
      t ← make_packed_kv_tensor cls size slot page_size
            (base + Z.min slot_idx (n_phys - 1) * page_size) block_stride (Some id);
      rest ← plan_slots size block_stride id page_size n_phys base (slot_idx + 1) slots';
      mret (t :: rest)
  end.

Fixpoint plan_families (size block_stride : Z) (id : allocation_id)
    (buckets : dict Z (list (list string))) (base : Z) (phys_slots : dict Z Z) : result (list kv_tensor) :=
  match phys_slots with
  | [] => Ok []
  | (ps, n_phys) :: rest =>
      here ← plan_slots size block_stride id ps n_phys base 0 (default [] (dget buckets ps));
      others ← plan_families size block_stride id buckets (base + n_phys * ps) rest;
      mret (here ++ others)
  end.

(** [_shrunk_packed_plan] *)
Definition shrunk_packed_plan (c : vllm_config) (groups : list cache_group) (available_memory : Z)
    : result (option (Z * list kv_tensor)) :=
  layout ← shrunk_layout_of c groups;
  match layout with
  | None => mret None
  | Some l =>
      if negb (l_shrunk l) then mret None
      else
        n ← budget_blocks c l available_memory;
        tensors ← plan_families (l_block_bytes l * n) (l_block_bytes l)
                    (DsaLayerSplitPool (l_page_sizes l) (l_block_bytes l) n)
                    (l_buckets l) 0 (l_phys_slots l);
        mret (Some (n, tensors))
  end.

(** [_config_from_plan] *)
Definition config_from_plan (plan : Z * list kv_tensor) (groups : list cache_group) : KVCacheConfig :=
  CacheConfig plan.1 groups plan.2 false.

(** ** The wrappers *)

(** [_layer_split_active] *)
Definition layer_split_active (c : vllm_config) : bool :=
  is_dsa_cache_layer_split_requested (Some c) && (1 <? pcp_size c).

Definition hcu_get_kv_cache_config_packed
    (original : vllm_config -> list cache_group -> Z -> result (Z * list kv_tensor))
    (c : vllm_config) (groups : list cache_group) (available_memory : Z) : result (Z * list kv_tensor) :=
  if negb (layer_split_active c) then original c groups available_memory
  else
    plan ← shrunk_packed_plan c groups available_memory;
    match plan with
    | None => original c groups available_memory
    | Some plan => mret plan
    end.

Definition hcu_get_kv_cache_config_from_groups
    (original : vllm_config -> list cache_group -> Z -> result KVCacheConfig)
    (c : vllm_config) (groups : list cache_group) (available_memory : Z) : result KVCacheConfig :=
  if negb (layer_split_active c) || bool_decide (groups = [])
  then original c groups available_memory
  else
    plan ← shrunk_packed_plan c groups available_memory;
    match plan with
    | None =>
        memory ← bounce_reserved_memory c groups available_memory;
        original c groups memory
    | Some plan => mret (config_from_plan plan groups)
    end.

(** [-(-a * b // c)] of [_shrink_bytes] *)
Definition shrink_bytes (c : vllm_config) (groups : list cache_group) (full_value : Z) : result Z :=
  if negb (layer_split_active c) || bool_decide (groups = []) then Ok full_value
  else
    layout ← shrunk_layout_of c groups;
    match layout with
    | None => mret full_value
    | Some l =>
        q ← floor_div (- full_value * accounted_bytes l) (l_full_bytes l);
        mret (- q)
    end.

(** [uses_pool]: the source of vLLM's function names [_pool_bytes_per_block] *)
Definition hcu_max_memory_usage_bytes_from_groups (uses_pool : bool)
    (original : vllm_config -> list cache_group -> result Z)
    (c : vllm_config) (groups : list cache_group) : result Z :=
  full_value ← original c groups;
  if uses_pool then mret full_value else shrink_bytes c groups full_value.

(** The 0.25 signature *)
Definition hcu_pool_bytes_per_block_025 (original : vllm_config -> list cache_group -> result Z)
    (c : vllm_config) (groups : list cache_group) : result Z :=
  full_value ← original c groups; shrink_bytes c groups full_value.

(** The 0.28 signature reads [_ACTIVE_VLLM_CONFIG]. *)
Definition hcu_pool_bytes_per_block (original : list cache_group -> result Z)
    (groups : list cache_group) : M (option vllm_config) Z :=
  active ← get_state;
  match active with
  | None => lift (original groups)
  | Some c => lift (full_value ← original groups; shrink_bytes c groups full_value)
  end.

(** ** The reserve *)

Section reserve.
Context (env : environ) (gib_text : string -> result Z).

(** [_layer_split_runtime_reserve_bytes] *)
Definition layer_split_runtime_reserve_bytes : result Z :=
  let gib :=
    match env "VLLM_HCU_DSA_LAYER_SPLIT_RESERVE_GIB"%string with
    | Some raw => if blank raw then Ok (Z.shiftl 2 30) else n ← gib_text raw; mret (Z.max 0 n)
    | None => Ok (Z.shiftl 2 30)
    end in
  match env "VLLM_HCU_DSA_LAYER_SPLIT_RESERVE_BYTES"%string with
  | Some raw =>
      if blank raw then gib
      else match int_of raw with
           | Some n => Ok (Z.max 0 n)
           | None => Err (Exn ValueError "invalid literal for int() with base 10")
           end
  | None => gib
  end.

(** [_available_after_layer_split_reserve] *)
Definition available_after_layer_split_reserve (available_memory : Z) : result Z :=
  reserve ← layer_split_runtime_reserve_bytes;
  if reserve <=? 0 then mret available_memory else mret (Z.max 0 (available_memory - reserve)).

(** The state is [_ACTIVE_VLLM_CONFIG]; vLLM's function may read it. *)
Definition hcu_get_kv_cache_configs {Specs A : Type}
    (original : vllm_config -> Specs -> list Z -> M (option vllm_config) A)
    (c : vllm_config) (specs : Specs) (available_memory : list Z) : M (option vllm_config) A :=
  fun previous =>
    let body : M (option vllm_config) A :=
      memory ← (if layer_split_active c
                then reserve ← lift layer_split_runtime_reserve_bytes;
                     mret (if 0 <? reserve then map (fun m => Z.max 0 (m - reserve)) available_memory
                           else available_memory)
                else mret available_memory);
      original c specs memory in
    ((body (Some c)).1, previous).
End reserve.
End planner.

(** ** The scratch buffers of the broadcasts *)

(** The number of elements of a shape *)
Definition numel (shape : list Z) : Z := foldr Z.mul 1 shape.

Record cache_view := CacheView { c_shape : list Z; c_dtype : torch_dtype }.

(** [_broadcast_scratch] on the rank's device: the elements of each buffer *)
Definition scratch_buffers : Type := dict (string * torch_dtype) Z.

(** The length of [scratch[:n]] *)
Definition prefix_length (len n : Z) : Z := if n <? 0 then Z.max 0 (len + n) else Z.min n len.

(** [_scratch_for]; the result is the shape of the returned view *)
Definition scratch_for (cache : cache_view) (pool : string) (n_arg : option Z) (shape : option (list Z))
    : M scratch_buffers (list Z) :=
  let n := default (numel (c_shape cache)) n_arg in
  let key := (pool, c_dtype cache) in
  buffers ← get_state;
  let too_small := match dget buffers key with None => true | Some len => len <? n end in
  _ ← (if too_small then put_state (dset buffers key (Z.max n (numel (c_shape cache)))) else mret tt);
  buffers ← get_state;
  let target := default (c_shape cache) shape in
  if numel target =? prefix_length (default 0 (dget buffers key)) n then mret target
  else raise RuntimeError "shape is invalid for input of size".
End KvPlanner.
