(* ===== verification/KvPlannerCorrect.v ===== *)
(** * Planner and workers agree

    The packed plan every worker receives is accepted by the rewrite of each
    worker, whatever its rank, and the blocks it promises fit the memory
    together with the broadcast scratch. *)

From S2P Require Import Prelude PyString Tensors LayerSplit LayerSplitCorrect LayerSplitConfig LayerPacking LayerPackingCorrect Envs KvPlanner.
From stdpp Require Import sorting.
Import LayerSplit SplitConfig Packing KvPlanner.
Local Open Scope Z_scope.

(** ** Buckets *)

(** The layers of a bucket *)
Definition names_of (buckets : dict Z (list (list string))) (ps : Z) : list string :=
  concat (default [] (dget buckets ps)).

(** The page sizes the groups give the layers *)
Definition group_pages (groups : list cache_group) : dict string Z :=
  foldl group_page_sizes [] groups.

(** What the planner needs of a bucketing: one layer per slot, filed under its
    page size, every layer once. *)
Record bucketing_ok (groups : list cache_group) (buckets : dict Z (list (list string))) : Prop := {
  bk_keys : NoDup (dkeys buckets);
  bk_single : forall ps slots, dget buckets ps = Some slots ->
    slots <> [] /\ slots = map (fun n => [n]) (concat slots);
  bk_page : forall ps n, n ∈ names_of buckets ps -> dget (group_pages groups) n = Some ps;
  bk_nodup : NoDup (concat (map (names_of buckets) (dkeys buckets)))
}.

(** The names a plan is made of, with their page sizes *)
Definition planned_of (g : cache_group) : list (Z * string) :=
  match g_layer_specs g with
  | Some ((_ :: _) as per_layer) => map (fun '(n, s) => (page_size_bytes s, n)) per_layer
  | _ => map (fun n => (page_size_bytes (g_spec g), n)) (g_layer_names g)
  end.
Definition planned (groups : list cache_group) : list (Z * string) := concat (map planned_of groups).

(** Every layer is in one group, and a group with per-layer specs has one for
    each of its layers. *)
Definition groups_ok (groups : list cache_group) : Prop :=
  NoDup (map snd (planned groups)) /\
  Forall (fun g => forall per_layer, g_layer_specs g = Some per_layer -> g_layer_names g ⊆ dkeys per_layer) groups.

Definition append_planned (b : dict Z (list (list string))) (x : Z * string) : dict Z (list (list string)) :=
  bucket_append b x.1 [x.2].

Lemma bucket_group_planned b g : bucket_group b g = foldl append_planned b (planned_of g).
Proof.
  unfold bucket_group, planned_of.
  assert (forall l b0, foldl (fun b name => bucket_append b (page_size_bytes (g_spec g)) [name]) b0 l =
    foldl append_planned b0 (map (fun n => (page_size_bytes (g_spec g), n)) l)) as Hn.
  { induction l as [|n l IH]; intros b0; simpl; [done|]. by rewrite IH. }
  destruct (g_layer_specs g) as [[|x per]|]; [apply Hn| |apply Hn].
  revert b. induction (x :: per) as [|[n s] l IH]; intros b; simpl; [done|]. by rewrite IH.
Qed.

Lemma buckets_planned groups : bucket_layers_by_page_size groups = foldl append_planned [] (planned groups).
Proof.
  unfold bucket_layers_by_page_size, planned. generalize (@nil (Z * list (list string))) as b.
  induction groups as [|g groups IH]; intros b; simpl; [done|].
  by rewrite foldl_app, <- bucket_group_planned, IH.
Qed.

Definition with_page (ps : Z) (l : list (Z * string)) : list string :=
  map snd (filter (fun x => x.1 = ps) l).

Lemma with_page_snoc ps l x :
  with_page ps (l ++ [x]) = with_page ps l ++ (if decide (x.1 = ps) then [x.2] else []).
Proof. unfold with_page. rewrite filter_app, map_app, filter_cons, filter_nil. by case_decide. Qed.

Lemma dget_planned l ps :
  dget (foldl append_planned [] l) ps =
  if decide (with_page ps l = []) then None else Some (map (fun n => [n]) (with_page ps l)).
Proof.
  induction l as [|x l IH] using rev_ind; [done|].
  rewrite foldl_app. simpl. unfold append_planned at 1, bucket_append.
  rewrite dget_dset, with_page_snoc. destruct (decide (x.1 = ps)) as [<-|E].
  - rewrite IH. rewrite (decide_False (P := with_page x.1 l ++ [x.2] = [])).
    + case_decide as E0; simpl; [by rewrite E0|by rewrite map_app].
    + by destruct (with_page x.1 l).
  - by rewrite IH, app_nil_r.
Qed.

Lemma keys_planned l : NoDup (dkeys (foldl append_planned [] l)).
Proof.
  induction l as [|x l IH] using rev_ind; [constructor|].
  rewrite foldl_app. simpl. by apply NoDup_dset.
Qed.

Lemma names_planned l ps : names_of (foldl append_planned [] l) ps = with_page ps l.
Proof.
  unfold names_of. rewrite dget_planned. case_decide as E; simpl; [by rewrite E|].
  clear E. induction (with_page ps l) as [|n ns IH]; simpl; [done|]. by rewrite IH.
Qed.

Lemma elem_with_page ps l n : n ∈ with_page ps l <-> (ps, n) ∈ l.
Proof.
  unfold with_page. rewrite list_elem_of_fmap. setoid_rewrite list_elem_of_filter. split.
  - by intros ([p m] & -> & <- & Hin).
  - intros Hin. by exists (ps, n).
Qed.

Lemma dget_fill (d : dict string Z) v l n :
  dget (foldl (fun d name => if dmem d name then d else dset d name v) d l) n =
  match dget d n with Some v' => Some v' | None => if decide (n ∈ l) then Some v else None end.
Proof.
  revert d. induction l as [|x l IH]; intros d; simpl; [by destruct (dget d n)|].
  rewrite IH. unfold dmem. destruct (dget d x) as [vx|] eqn:Ex.
  - destruct (dget d n) as [vn|] eqn:En; [done|].
    assert (n <> x) by congruence. destruct (decide (n ∈ l)), (decide (n ∈ x :: l)); set_solver.
  - rewrite dget_dset. destruct (decide (x = n)) as [->|Hne].
    + rewrite Ex. by rewrite decide_True by by left.
    + destruct (dget d n); [done|]. destruct (decide (n ∈ l)), (decide (n ∈ x :: l)); set_solver.
Qed.

Lemma dget_update {A} (f : A -> Z) (l : dict string A) (d : dict string Z) n :
  NoDup (dkeys l) ->
  dget (foldl (fun d '(name, s) => dset d name (f s)) d l) n =
  match dget l n with Some s => Some (f s) | None => dget d n end.
Proof.
  revert d. induction l as [|[k s] l IH]; intros d; simpl; [done|].
  intros [Hk Hnd]%NoDup_cons. rewrite IH by done. rewrite dget_dset. case_decide; [|done].
  subst. by rewrite (proj2 (dget_None l n) Hk).
Qed.

Lemma group_page_get d g n :
  NoDup (map snd (planned_of g)) ->
  (forall per_layer, g_layer_specs g = Some per_layer -> g_layer_names g ⊆ dkeys per_layer) ->
  (n ∉ map snd (planned_of g) -> dget (group_page_sizes d g) n = dget d n) /\
  (forall ps, (ps, n) ∈ planned_of g -> dget d n = None -> dget (group_page_sizes d g) n = Some ps).
Proof.
  intros Hnd Hsub. unfold group_page_sizes, planned_of in *.
  destruct (g_layer_specs g) as [[|x per]|] eqn:Eg.
  - assert (g_layer_names g = []) as ->; [|simpl; set_solver].
    specialize (Hsub [] eq_refl). destruct (g_layer_names g) as [|m ms]; [done|]. set_solver.
  - specialize (Hsub _ eq_refl). set (l := x :: per) in *. clearbody l.
    assert (map snd (map (fun '(n, s) => (page_size_bytes s, n)) l) = dkeys l) as Hk.
    { rewrite map_map. apply map_ext. by intros []. }
    rewrite Hk in Hnd |- *. rewrite dget_fill, dget_update by done. split.
    + intros Hn. rewrite (proj2 (dget_None l n) Hn). destruct (dget d n); [done|].
      by rewrite decide_False by set_solver.
    + intros ps ([m s] & [= -> ->] & Hin)%list_elem_of_fmap _.
      by rewrite (elem_dget l m s Hnd Hin).
  - rewrite dget_fill. split.
    + intros Hn. destruct (dget d n); [done|]. rewrite decide_False; [done|].
      intros Hin. apply Hn. rewrite map_map. by rewrite map_id.
    + intros ps (m & [= -> ->] & Hin)%list_elem_of_fmap ->. by rewrite decide_True.
Qed.

Lemma group_pages_snoc groups g : group_pages (groups ++ [g]) = group_page_sizes (group_pages groups) g.
Proof. unfold group_pages. by rewrite foldl_app. Qed.

Lemma planned_snoc groups g : planned (groups ++ [g]) = planned groups ++ planned_of g.
Proof. unfold planned. rewrite map_app, concat_app. simpl. by rewrite app_nil_r. Qed.

Lemma group_pages_planned groups n :
  groups_ok groups ->
  (n ∉ map snd (planned groups) -> dget (group_pages groups) n = None) /\
  (forall ps, (ps, n) ∈ planned groups -> dget (group_pages groups) n = Some ps).
Proof.
  induction groups as [|g groups IH] using rev_ind; [by split; [|intros ps ?%not_elem_of_nil]|].
  intros [Hnd Hsub]. rewrite planned_snoc in *. rewrite group_pages_snoc, map_app in *.
  apply NoDup_app in Hnd as (Hnd & Hdis & Hg). apply Forall_app in Hsub as [Hsub [Hs _]%Forall_cons].
  destruct IH as [IH1 IH2]; [done|].
  destruct (group_page_get (group_pages groups) g n Hg Hs) as [G1 G2]. split.
  - intros Hn. rewrite G1, IH1; [done|set_solver..].
  - intros ps [Hin|Hin]%elem_of_app.
    + rewrite G1; [by apply IH2|]. apply Hdis. by apply (list_elem_of_fmap_2 snd _ (ps, n)).
    + apply G2; [done|]. apply IH1. intros Hn. eapply Hdis; [done|].
      by apply (list_elem_of_fmap_2 snd _ (ps, n)).
Qed.

Lemma with_pages_nodup l pss :
  NoDup (map snd l) -> NoDup pss -> NoDup (concat (map (fun ps => with_page ps l) pss)).
Proof.
  intros Hl. induction 1 as [|ps pss Hps _ IH]; simpl; [constructor|].
  apply NoDup_app. split_and!; [| |done].
  - unfold with_page. eapply sublist_NoDup; [exact Hl|]. apply (fmap_sublist snd), sublist_filter.
  - intros n Hn (l' & Hl' & Hin)%list_elem_of_In%in_concat.
    apply in_map_iff in Hl' as (ps' & <- & Hps'). apply list_elem_of_In in Hps', Hin.
    apply elem_with_page in Hn, Hin. apply list_elem_of_lookup in Hn as [i Hi], Hin as [j Hj].
    assert (i = j) as -> by (eapply (NoDup_lookup _ _ _ n Hl); by rewrite list_lookup_fmap, ?Hi, ?Hj).
    congruence.
Qed.

(** The plugin's own bucketing has the properties the planner needs. *)
Lemma own_bucketing_ok groups : groups_ok groups -> bucketing_ok groups (bucket_layers_by_page_size groups).
Proof.
  intros Hg. rewrite buckets_planned. split.
  - apply keys_planned.
  - intros ps slots. rewrite dget_planned. case_decide as E; [done|]. intros [= <-].
    split; [by destruct (with_page ps (planned groups))|]. f_equal. clear E.
    induction (with_page ps (planned groups)) as [|n ns IH]; simpl; [done|]. by rewrite <- IH.
  - intros ps n. rewrite names_planned, elem_with_page. by apply group_pages_planned.
  - rewrite (map_ext (names_of _) (fun ps => with_page ps (planned groups))) by (intros; apply names_planned).
    apply with_pages_nodup; [by destruct Hg|apply keys_planned].
Qed.

(** ** The worker's buckets *)

Section worker_buckets.
Context (packed : list kv_tensor) (lps : dict string Z).

Lemma bucket_layer_new B seen miss n ps :
  n ∉ seen -> dget lps n = Some ps ->
  bucket_layer packed lps (BucketAcc B seen miss) n =
  BucketAcc (dset B ps (default [] (dget B ps) ++ [n])) (n :: seen) miss.
Proof. intros Hn Hp. unfold bucket_layer. simpl. by rewrite bool_decide_eq_false_2, Hp. Qed.

Lemma bucket_run ps names pre B seen miss :
  ps ∉ dkeys B -> Forall (fun n => dget lps n = Some ps) names -> NoDup names ->
  (forall n, n ∈ names -> n ∉ seen) ->
  foldl (bucket_layer packed lps) (BucketAcc (B ++ [(ps, pre)]) seen miss) names =
  BucketAcc (B ++ [(ps, pre ++ names)]) (rev names ++ seen) miss.
Proof.
  intros HB Hps Hnd. revert pre seen. induction Hps as [|n names Hn Hps IH]; intros pre seen Hs; simpl.
  { by rewrite app_nil_r. }
  apply NoDup_cons in Hnd as [Hnn Hnd]. rewrite (bucket_layer_new _ _ _ n ps) by (done || (apply Hs; by left)).
  assert (dget (B ++ [(ps, pre)]) ps = Some pre /\
    forall v, dset (B ++ [(ps, pre)]) ps v = B ++ [(ps, v)]) as [-> Hset].
  { clear - HB. induction B as [|[k w] B IHB]; simpl in *.
    { rewrite decide_True by done. split; [done|]. intros v. by rewrite decide_True. }
    assert (k <> ps) by set_solver. rewrite decide_False by done. destruct IHB as [-> Hv]; [set_solver|].
    split; [done|]. intros v. by rewrite decide_False, Hv. }
  rewrite Hset. simpl. rewrite IH; [|done|].
  - by rewrite <- !(assoc_L (++)).
  - intros m Hm [->|Hin]%elem_of_cons; [done|]. eapply Hs; [by right|done].
Qed.

Lemma bucket_families (names : Z -> list string) pss B seen miss :
  (forall ps, ps ∈ pss -> names ps <> [] /\ Forall (fun n => dget lps n = Some ps) (names ps)) ->
  NoDup pss -> (forall ps, ps ∈ pss -> ps ∉ dkeys B) ->
  NoDup (concat (map names pss)) -> (forall n, n ∈ concat (map names pss) -> n ∉ seen) ->
  exists seen', foldl (bucket_layer packed lps) (BucketAcc B seen miss) (concat (map names pss)) =
    BucketAcc (B ++ map (fun ps => (ps, names ps)) pss) seen' miss.
Proof.
  intros Hn Hnd. revert B seen. induction Hnd as [|ps pss Hps Hnd IH]; intros B seen HB Hc Hs; simpl.
  { exists seen. by rewrite app_nil_r. }
  simpl in Hc. apply NoDup_app in Hc as (Hc1 & Hdis & Hc2).
  destruct (Hn ps) as [Hne Hall]; [by left|].
  rewrite foldl_app. destruct (names ps) as [|n ns] eqn:En; [done|]. clear Hne. simpl.
  apply Forall_cons in Hall as [Hn0 Hall]. apply NoDup_cons in Hc1 as [Hnn Hc1].
  rewrite (bucket_layer_new _ _ _ n ps) by (done || (apply Hs; simpl; rewrite En; by left)).
  rewrite (proj2 (dget_None B ps)) by (apply HB; by left).
  rewrite dset_notin by (apply HB; by left). simpl.
  rewrite bucket_run; [|apply HB; by left|done|done|].
  2:{ intros m Hm [->|Hin]%elem_of_cons; [done|]. eapply Hs; [|done]. simpl. rewrite En. set_solver. }
  destruct (IH (fun ps' H => Hn ps' (list_elem_of_further _ _ _ H)) (B ++ [(ps, [n] ++ ns)])
              (rev ns ++ n :: seen)) as [seen' ->].
  - intros ps' Hps'. unfold dkeys. rewrite map_app. simpl. intros [Hk| ->%list_elem_of_singleton]%elem_of_app; [|done].
    eapply HB; [by right|done].
  - done.
  - intros m Hm Hin. assert (m ∈ n :: ns \/ m ∈ seen) as [Hx|Hx].
    { apply elem_of_app in Hin as [Hin|Hin]; [|set_solver].
      left. right. apply list_elem_of_In. apply list_elem_of_In in Hin. by apply in_rev in Hin. }
    + eapply Hdis; [exact Hx|done].
    + eapply Hs; [|exact Hx]. simpl. set_solver.
  - exists seen'. rewrite <- (assoc_L (++)). by simpl.
Qed.
End worker_buckets.

(** ** The descriptors of a plan *)

Section plan.
Context (parse : string -> result Z) (cls : tensor_class).

Definition plan_tensor (size stride : Z) (id : allocation_id) (slot : list string) (t : kv_tensor) : Prop :=
  t_size t = size /\ t_layers t = slot /\ t_block_stride t = stride /\ t_backing_id t = Some id.

Lemma plan_slots_inv size stride id ps n base k slots ts :
  plan_slots cls size stride id ps n base k slots = Ok ts -> Forall2 (plan_tensor size stride id) slots ts.
Proof.
  revert k ts. induction slots as [|slot slots IH]; intros k ts; simpl; [intros [= <-]; constructor|].
  destruct (make_packed_kv_tensor _ _ _ _ _ _ _) as [t|] eqn:E; [|done]. simpl.
  destruct (plan_slots _ _ _ _ _ _ _ _ slots) as [rest|] eqn:Er; [|done]. simpl. intros [= <-].
  apply make_packed_fields in E as (? & ? & ? & ? & ?). constructor; [done|]. by apply (IH (k + 1)).
Qed.

Lemma plan_families_inv size stride id buckets base phys ts :
  plan_families cls size stride id buckets base phys = Ok ts ->
  Forall2 (plan_tensor size stride id) (concat (map (fun ps => default [] (dget buckets ps)) (dkeys phys))) ts.
Proof.
  revert base ts. induction phys as [|[ps n] phys IH]; intros base ts; simpl; [intros [= <-]; constructor|].
  destruct (plan_slots _ _ _ _ _ _ _ _ _) as [here|] eqn:Eh; [|done]. simpl.
  destruct (plan_families _ _ _ _ _ _ phys) as [others|] eqn:Eo; [|done]. simpl. intros [= <-].
  apply Forall2_app; [by eapply plan_slots_inv|by eapply IH].
Qed.

Lemma family_slots_inv buckets total pcp pss phys :
  family_slots parse buckets total pcp pss = Ok phys ->
  dkeys phys = pss /\
  Forall (fun x => phys_slots_for_layer_family
    (slot_indices parse (default [] (dget buckets x.1))) total pcp = Ok x.2) phys.
Proof.
  revert phys. induction pss as [|ps pss IH]; intros phys; simpl; [by intros [= <-]|].
  destruct (phys_slots_for_layer_family _ _ _) as [n|] eqn:En; [|done]. simpl.
  destruct (family_slots _ _ _ _ pss) as [others|]; [|done]. simpl. intros [= <-].
  destruct (IH others eq_refl) as [<- HF]. split; [done|]. by constructor.
Qed.

Lemma slot_indices_parsed names layers :
  parse_layers parse names = Ok layers ->
  slot_indices parse (map (fun n => [n]) names) = map snd layers.
Proof.
  revert layers. induction names as [|n names IH]; intros layers; simpl; [by intros [= <-]|].
  destruct (parse n) as [i|] eqn:E; [|done]. simpl.
  destruct (parse_layers parse names) as [rest|]; [|done]. simpl. intros [= <-].
  simpl. f_equal. by apply IH.
Qed.

Lemma parse_layers_total names :
  (forall n, n ∈ names -> exists i, parse n = Ok i) -> exists layers, parse_layers parse names = Ok layers.
Proof.
  induction names as [|n names IH]; intros H; simpl; [by eexists|].
  destruct (H n) as [i ->]; [by left|]. destruct IH as [rest ->]; [intros m Hm; apply H; by right|].
  by eexists.
Qed.
End plan.

(** ** The layout *)

Lemma remap_tensors_total cls lps plan stride ts :
  Forall (fun t => exists t', remap_tensor cls lps plan stride t = Ok t') ts ->
  exists ts', remap_tensors cls lps plan stride ts = Ok ts'.
Proof.
  induction 1 as [|t ts [t' Ht] _ [ts' IH]]; simpl; [by eexists|]. rewrite Ht. simpl. rewrite IH. by eexists.
Qed.

Lemma make_packed_total cls size names ps o stride b :
  cls_keeps_attributes cls = true -> names <> [] ->
  exists t, make_packed_kv_tensor cls size names ps o stride b = Ok t.
Proof.
  intros Hc Hn. unfold make_packed_kv_tensor, set_packed_backing_id. rewrite Hc.
  destruct names; [done|]. repeat case_match; eauto.
Qed.

(** What the planner and the workers rely on: layers of one page size are told
    apart by their indexes, and page sizes are positive. *)
Record plan_input (parse : string -> result Z) (groups : list cache_group) : Prop := {
  pi_nonneg : forall n i, parse n = Ok i -> 0 <= i;
  pi_parsed : forall n ps, dget (group_pages groups) n = Some ps -> exists i, parse n = Ok i;
  pi_pages : forall n ps, dget (group_pages groups) n = Some ps -> 0 < ps;
  pi_index : forall n1 n2 i ps, dget (group_pages groups) n1 = Some ps ->
    dget (group_pages groups) n2 = Some ps -> parse n1 = Ok i -> parse n2 = Ok i -> n1 = n2
}.

Section agreement.
Context (parse : string -> result Z) (cls : tensor_class) (groups : list cache_group).
Context (buckets : dict Z (list (list string))).
Hypothesis Hin : plan_input parse groups.
Hypothesis Hbk : bucketing_ok groups buckets.

Abbreviation pss := (merge_sort Z.le (dkeys buckets)).
Abbreviation named := (map (fun ps => (ps, names_of buckets ps)) pss).

Lemma pss_perm : pss ≡ₚ dkeys buckets.
Proof. apply merge_sort_Permutation. Qed.

Lemma pss_nodup : NoDup pss.
Proof. rewrite pss_perm. apply (bk_keys _ _ Hbk). Qed.

Lemma bucket_slots ps : ps ∈ pss ->
  names_of buckets ps <> [] /\ default [] (dget buckets ps) = map (fun n => [n]) (names_of buckets ps).
Proof using Hbk.
  rewrite pss_perm. intros [slots Hs]%key_dget_Some.
  destruct (bk_single _ _ Hbk ps slots Hs) as [Hne Heq]. unfold names_of. rewrite Hs. simpl.
  split; [|done]. intros E. rewrite E in Heq. simpl in Heq. by subst.
Qed.

Lemma dget_named ps : ps ∈ pss -> dget named ps = Some (names_of buckets ps).
Proof using Hbk.
  intros Hps. apply elem_dget.
  - unfold dkeys. rewrite map_map. simpl. rewrite map_id. apply pss_nodup.
  - by apply (list_elem_of_fmap_2 (fun ps => (ps, names_of buckets ps))).
Qed.

Lemma named_keys : dkeys named = pss.
Proof. unfold dkeys. rewrite map_map. simpl. apply map_id. Qed.

Lemma pss_sorted : merge_sort Z.le pss = pss.
Proof.
  apply (StronglySorted_unique Z.le); [apply Sorted_StronglySorted; [apply _|]; apply (Sorted_merge_sort _)..|].
  apply merge_sort_Permutation.
Qed.

Lemma names_paged ps : Forall (fun n => dget (group_pages groups) n = Some ps) (names_of buckets ps).
Proof using Hbk. apply Forall_forall. intros n. apply (bk_page _ _ Hbk). Qed.

(** The worker's families are the planner's. *)
Lemma worker_families st pss' phys :
  pss' ⊆ pss -> family_slots parse buckets (total_layers st) (shard_size st) pss' = Ok phys ->
  exists fams, make_families parse st named pss' = Ok fams /\
    map (fun f => (f_page_size f, f_slots f)) fams = phys /\
    map (fun f => f_page_size f * zlen (f_layers f)) fams =
    map (fun ps => ps * zlen (default [] (dget buckets ps))) pss'.
Proof using Hbk Hin.
  revert phys. induction pss' as [|ps pss' IH]; intros phys Hsub; simpl.
  { intros [= <-]. by exists []. }
  assert (ps ∈ pss) as Hps by (apply Hsub; by left). destruct (bucket_slots ps Hps) as [_ Hslots].
  rewrite (dget_named ps Hps). simpl.
  destruct (parse_layers_total parse (names_of buckets ps)) as [layers Hl].
  { intros n Hn. eapply (pi_parsed _ _ Hin). by apply (bk_page _ _ Hbk ps). }
  rewrite Hl. simpl. rewrite Hslots, (slot_indices_parsed _ _ _ Hl).
  destruct (phys_slots_for_layer_family _ _ _) as [n|]; [|done]. simpl.
  destruct (family_slots _ _ _ _ pss') as [others|]; [|done]. simpl. intros [= <-].
  destruct (IH others) as (fams & -> & <- & Hlen); [intros x Hx; apply Hsub; by right|done|].
  simpl. eexists. split; [done|]. simpl. split; [done|]. rewrite Hlen. do 2 f_equal.
  destruct (parse_layers_ok _ _ _ Hl) as [Hnames _]. unfold zlen.
  by rewrite length_map, <- Hnames, length_map.
Qed.

Section worker.
Context (size stride : Z) (id : allocation_id) (nb : Z) (ts : list kv_tensor).
Hypothesis Hstride : 0 < stride.
Hypothesis Hts : Forall2 (plan_tensor size stride id)
  (concat (map (fun ps => default [] (dget buckets ps)) pss)) ts.

Definition planned_config : KVCacheConfig := CacheConfig nb groups ts false.

Lemma plan_packed : packed_of planned_config = ts.
Proof using Hts Hstride.
  unfold packed_of, planned_config. cbn [kv_cache_tensors].
  induction Hts as [|slot t slots ts' (_ & _ & Hs & _) HF IH]; [done|].
  rewrite filter_cons_True by lia. f_equal. exact (IH HF).
Qed.

Lemma plan_layers : concat (map t_layers ts) = concat (map (names_of buckets) pss).
Proof using Hts.
  assert (map t_layers ts = concat (map (fun ps => default [] (dget buckets ps)) pss)) as ->.
  { clear - Hts. induction Hts as [|slot t slots ts' H HF IH]; simpl; [done|]. f_equal; [apply H|by apply IH]. }
  unfold names_of. clear. induction pss as [|ps l IH]; simpl; [done|]. by rewrite concat_app, IH.
Qed.

Lemma plan_buckets : exists seen,
  bucket_layers (packed_of planned_config) (layer_page_sizes planned_config) = BucketAcc named seen [].
Proof using Hbk Hts Hstride.
  unfold bucket_layers. rewrite plan_packed, plan_layers.
  destruct (bucket_families ts (layer_page_sizes planned_config) (names_of buckets) pss [] [] []) as [seen ->].
  - intros ps Hps. split; [by apply bucket_slots|apply names_paged].
  - apply pss_nodup.
  - intros. apply not_elem_of_nil.
  - rewrite pss_perm. apply (bk_nodup _ _ Hbk).
  - intros. apply not_elem_of_nil.
  - by eexists.
Qed.

Lemma planned_page n ps : page_of planned_config n = Some ps -> dget (group_pages groups) n = Some ps.
Proof using Hbk Hts Hstride.
  unfold page_of, resolve. change (layer_page_sizes planned_config) with (group_pages groups).
  destruct (dget (group_pages groups) n) as [p|] eqn:E; [done|]. rewrite plan_packed.
  unfold infer_page_size_from_packed. destruct (filter _ ts) as [|t0 l] eqn:Ef; [done|].
  assert (t0 ∈ ts /\ n ∈ t_layers t0) as [Ht Hn].
  { assert (t0 ∈ filter (fun t => n ∈ t_layers t) ts) as H by (rewrite Ef; by left).
    apply list_elem_of_filter in H. by destruct H. }
  assert (n ∈ concat (map (names_of buckets) pss)) as Hc.
  { rewrite <- plan_layers. apply list_elem_of_In, in_concat. exists (t_layers t0).
    split; [|by apply list_elem_of_In]. by apply in_map, list_elem_of_In. }
  apply list_elem_of_In, in_concat in Hc as (l' & Hl' & Hn'). apply in_map_iff in Hl' as (ps' & <- & _).
  apply list_elem_of_In, (bk_page _ _ Hbk) in Hn'. congruence.
Qed.

Lemma planned_layout_input : layout_input parse planned_config.
Proof using Hbk Hin Hts Hstride.
  split; [apply (pi_nonneg _ _ Hin)|apply (pi_pages _ _ Hin)|].
  intros n1 n2 i ps H1%planned_page H2%planned_page. by apply (pi_index _ _ Hin n1 n2 i ps).
Qed.
(** Every descriptor is of one layer, filed under its page size. *)
Lemma plan_single t : t ∈ ts ->
  t_size t = size /\ t_block_stride t = stride /\ t_backing_id t = Some id /\
  exists m ps, t_layers t = [m] /\ dget (group_pages groups) m = Some ps.
Proof using Hbk Hts.
  intros [k Hk]%list_elem_of_lookup.
  destruct (Forall2_lookup_r _ _ _ _ _ Hts Hk) as (slot & Hslot & Hsz & Hl & Hs & Hb).
  split_and!; [done..|]. rewrite Hl.
  apply list_elem_of_lookup_2, list_elem_of_In, in_concat in Hslot as (l & Hl' & Hin').
  apply in_map_iff in Hl' as (ps & <- & Hps). apply list_elem_of_In in Hps, Hin'.
  destruct (bucket_slots ps Hps) as [_ E]. rewrite E in Hin'.
  apply list_elem_of_fmap in Hin' as (m & -> & Hm). exists m, ps. split; [done|]. by apply (bk_page _ _ Hbk).
Qed.

Lemma plan_names_nodup : NoDup (concat (map t_layers ts)).
Proof using Hbk Hts. rewrite plan_layers, pss_perm. apply (bk_nodup _ _ Hbk). Qed.

Lemma plan_nonempty :
  0 < zsum (map (fun ps => ps * zlen (default [] (dget buckets ps))) pss) -> exists t0 ts0, ts = t0 :: ts0.
Proof using Hts.
  destruct ts as [|t0 ts0]; [|by eexists _, _]. intros H. exfalso. inversion Hts as [Ec|].
  assert (zsum (map (fun ps => ps * zlen (default [] (dget buckets ps))) pss) = 0); [|lia].
  clear - Ec. induction pss as [|ps l IH]; simpl in *; [done|]. symmetry in Ec.
  apply app_eq_nil in Ec as [E1 E2]. rewrite E1, IH by done. unfold zlen. simpl. lia.
Qed.

(** Every descriptor can be rewritten with a placement of the families. *)
Lemma plan_rewritten st cls' fams plan :
  valid_state st -> cls_keeps_attributes cls' = true ->
  make_families parse st named pss = Ok fams -> place_families st 0 fams = Ok plan ->
  exists ts', remap_tensors cls' (layer_page_sizes planned_config) plan stride ts = Ok ts'.
Proof using Hbk Hin Hts Hstride.
  intros Hst Hcls Hm Hplan. apply remap_tensors_total, Forall_forall. intros t Ht.
  destruct (plan_single t Ht) as (_ & Hs & _ & m & ps & Hl & _).
  destruct plan_buckets as [seen Hb].
  destruct (plan_located parse st planned_config Hst planned_layout_input fams plan m)
    as (o & p & i & Hd & Hp & _); [rewrite Hb; cbn [b_buckets]; by rewrite named_keys, pss_sorted|by rewrite Hb|done| |].
  { rewrite plan_packed. apply list_elem_of_In, in_concat. exists (t_layers t). rewrite Hl.
    split; [|by left]. rewrite <- Hl. by apply in_map, list_elem_of_In. }
  unfold remap_tensor. destruct (Z.leb_spec (t_block_stride t) 0); [lia|]. rewrite Hl, Hd.
  apply (page_of_pos _ _ planned_layout_input) in Hp. destruct (Z.leb_spec p 0); [lia|]. by apply make_packed_total.
Qed.
End worker.
End agreement.

(** What a packed plan was computed from. *)
Lemma shrunk_plan_inv parse bucket override cls c groups memory n ts :
  shrunk_packed_plan parse bucket override cls c groups memory = Ok (Some (n, ts)) ->
  exists total phys bounce,
    let buckets := bucket_fn bucket groups in
    let pss := merge_sort Z.le (dkeys buckets) in
    let payload := zsum (map (fun '(ps, k) => ps * k) phys) in
    let stride := align_packed_block_stride payload groups in
    total_layers_from_config c = Some total /\ 0 < total /\
    family_slots parse buckets total (pcp_size c) pss = Ok phys /\
    0 < payload < zsum (map (fun ps => ps * zlen (default [] (dget buckets ps))) pss) /\
    bounce = bounce_bytes_per_block groups pss /\ stride + bounce <> 0 /\
    n = override c (memory / (stride + bounce)) /\ n <= memory / (stride + bounce) /\
    plan_families cls (stride * n) stride (DsaLayerSplitPool pss stride n) buckets 0 phys = Ok ts.
Proof.
  unfold shrunk_packed_plan, shrunk_layout_of.
  destruct (total_layers_from_config c) as [total|]; [|done].
  destruct (Z.leb_spec total 0) as [|Htotal]; [done|].
  destruct (family_slots _ _ _ _ _) as [phys|] eqn:Hfs; [|done]. cbn -[zsum].
  set (payload := zsum (map _ phys)). destruct (Z.leb_spec payload 0) as [|Hpay]; [done|]. cbn -[zsum].
  set (full := zsum (map _ _)). destruct (Z.ltb_spec payload full) as [Hlt|]; [|done]. cbn -[zsum].
  unfold budget_blocks, accounted_bytes, floor_div. cbn -[zsum].
  destruct (Z.eqb_spec (align_packed_block_stride payload groups + bounce_bytes_per_block groups
    (merge_sort Z.le (dkeys (bucket_fn bucket groups)))) 0) as [|Hacc]; [done|]. cbn -[zsum].
  destruct (_ <? override c _) eqn:Hn; [done|]. apply Z.ltb_ge in Hn. cbn -[zsum].
  destruct (plan_families _ _ _ _ _ _ _) as [ts'|] eqn:Ep; [|done]. cbn -[zsum]. intros [= <- <-].
  exists total, phys, (bounce_bytes_per_block groups (merge_sort Z.le (dkeys (bucket_fn bucket groups)))).
  cbn zeta. split_and!; done.
Qed.

Lemma families_bytes fams phys :
  map (fun f => (f_page_size f, f_slots f)) fams = phys ->
  owned_scratch_bytes fams = zsum (map (fun '(ps, k) => ps * k) phys).
Proof. intros <-. unfold owned_scratch_bytes. by rewrite map_map. Qed.

(** The descriptors of a packed plan. *)
Lemma plan_descriptors parse bucket override cls c groups memory n ts :
  shrunk_packed_plan parse bucket override cls c groups memory = Ok (Some (n, ts)) ->
  exists stride id, let buckets := bucket_fn bucket groups in 0 < stride /\
    id = DsaLayerSplitPool (merge_sort Z.le (dkeys buckets)) stride n /\
    Forall2 (plan_tensor (stride * n) stride id)
      (concat (map (fun ps => default [] (dget buckets ps)) (merge_sort Z.le (dkeys buckets)))) ts.
Proof.
  intros (total & phys & bounce & _ & _ & Hfs & Hpay & _ & _ & _ & _ & Hts)%shrunk_plan_inv.
  destruct (align_stride (zsum (map (fun '(ps, k) => ps * k) phys)) groups) as [[Hge _] _].
  do 2 eexists. split; [|split; [done|]].
  2:{ apply plan_families_inv in Hts. by rewrite (proj1 (family_slots_inv _ _ _ _ _ _ Hfs)) in Hts. }
  lia.
Qed.

(** The rewrite of a worker succeeds on the plan. *)
Lemma planned_remap parse bucket override cls cls' c groups memory n ts st :
  plan_input parse groups -> bucketing_ok groups (bucket_fn bucket groups) -> valid_state st ->
  pcp_size c = shard_size st -> total_layers_from_config c = Some (total_layers st) ->
  cls_keeps_attributes cls' = true ->
  shrunk_packed_plan parse bucket override cls c groups memory = Ok (Some (n, ts)) ->
  exists cfg', remap_packed_kv_tensor_offsets parse cls' (Some st) (config_from_plan (n, ts) groups)
    = Ok (true, cfg').
Proof.
  intros Hin Hbk Hst Hpcp Htot Hcls Hplan.
  apply shrunk_plan_inv in Hplan as (total & phys & bounce & Ht & Htp & Hfs & Hpay & _ & _ & _ & _ & Hts).
  set (buckets := bucket_fn bucket groups) in *. set (pss := merge_sort Z.le (dkeys buckets)) in *.
  set (payload := zsum _) in Hpay, Hts. rewrite Htot in Ht. injection Ht as <-. rewrite Hpcp in Hfs.
  set (stride := align_packed_block_stride payload groups) in Hts.
  destruct (align_stride payload groups) as [[Hge _] _]. fold stride in Hge.
  assert (0 < stride) as Hstride by lia. apply plan_families_inv in Hts.
  rewrite (proj1 (family_slots_inv _ _ _ _ _ _ Hfs)) in Hts.
  destruct (plan_buckets groups buckets Hbk _ _ _ n ts Hstride Hts) as [seen Hbuckets].
  destruct (worker_families parse groups buckets Hin Hbk st pss phys) as (fams & Hm & Hphys & Hfull); [done..|].
  destruct (plan_nonempty buckets _ _ _ ts Hts) as (t0 & ts0 & Ets); [fold pss; lia|].
  assert (t_block_stride t0 = stride) as Est.
  { destruct (plan_single groups buckets Hbk _ _ _ ts Hts t0) as (_ & -> & _); [rewrite Ets; by left|done]. }
  destruct (place_families_ok st Hst fams 0) as (plan & Hpl & _).
  { eapply (families_ok parse st (planned_config groups n ts)); [by eapply planned_layout_input|].
    rewrite Hbuckets. cbn [b_buckets]. by rewrite named_keys, pss_sorted. }
  destruct (plan_rewritten parse groups buckets Hin Hbk _ _ _ n ts Hstride Hts st cls' fams plan) as [ts' Hts']; [done..|].
  change (config_from_plan (n, ts) groups) with (planned_config groups n ts).
  pose proof (plan_packed groups buckets _ _ _ n ts Hstride Hts) as Hpk.
  unfold remap_packed_kv_tensor_offsets. fold (packed_of (planned_config groups n ts)). rewrite Hbuckets.
  cbn [remap_applied planned_config kv_cache_groups kv_cache_tensors num_blocks b_missing b_buckets]. cbv zeta.
  rewrite Hpk, Ets, <- Ets. rewrite named_keys, pss_sorted. fold pss in Hm |- *. rewrite Hm. cbn [mbind result_bind].
  rewrite (families_bytes _ _ Hphys). fold payload. unfold full_bytes. rewrite Hfull.
  destruct (Z.leb_spec (zsum (map (fun ps => ps * zlen (default [] (dget buckets ps))) pss)) payload); [lia|].
  fold stride. rewrite Est, Z.eqb_refl. cbn [negb]. rewrite Hpl. cbn [mbind result_bind].
  rewrite Hts'. by eexists.
Qed.
