(* ===== verification/KvMemoryCorrect.v ===== *)
(** * The memory the planner promises

    The packed caches and the broadcast scratch of a plan fit the memory it was
    given, the memory left to vLLM's planner buys exactly the budgeted blocks,
    and planning again from a block count gives that count back. *)

From S2P Require Import Prelude PyString Tensors LayerSplit LayerSplitCorrect LayerSplitConfig LayerPacking LayerPackingCorrect Envs KvPlanner KvPlannerCorrect.
From stdpp Require Import sorting.
Import LayerSplit SplitConfig Packing KvPlanner.
Local Open Scope Z_scope.

(** ** The reserve of the scratch *)

Section reserve.
Context (groups : list cache_group) (pss : list Z).

Definition specs_of : list layer_spec := concat (map group_specs groups).
Definition dtypes_by_page : dict Z (list (option torch_dtype)) := foldl add_page_dtype [] specs_of.
Definition pools_of : dict pool_key Z :=
  foldl (fun pools page => foldl (charge_page page) pools (dtypes_of_page dtypes_by_page page)) [] pss.

Lemma add_page_dtype_elem specs pd s :
  page_size_bytes s <> 0 ->
  s ∈ specs \/ dtype s ∈ default [] (dget pd (page_size_bytes s)) ->
  dtype s ∈ default [] (dget (foldl add_page_dtype pd specs) (page_size_bytes s)).
Proof.
  intros Hp. revert pd. induction specs as [|x specs IH]; intros pd H; simpl.
  { destruct H as [H%not_elem_of_nil|H]; [done|exact H]. }
  apply IH. rewrite elem_of_cons in H.
  assert (forall y, y ∈ default [] (dget pd (page_size_bytes s)) ->
    y ∈ default [] (dget (add_page_dtype pd x) (page_size_bytes s))) as Hmono.
  { intros y Hy. unfold add_page_dtype. destruct (page_size_bytes x =? 0); [done|].
    rewrite dget_dset. case_decide as E; [|done]. rewrite E. simpl. case_bool_decide; [done|set_solver]. }
  destruct H as [[<-|H]|H]; [right|by left|right; by apply Hmono].
  unfold add_page_dtype. destruct (Z.eqb_spec (page_size_bytes s) 0); [done|].
  rewrite dget_dset_eq. simpl. case_bool_decide; [done|set_solver].
Qed.

Definition charged (pools : dict pool_key Z) (k : pool_key) (ps : Z) : Prop :=
  exists v, dget pools k = Some v /\ ps <= v.

Lemma charge_page_mono page pools d k ps : charged pools k ps -> charged (charge_page page pools d) k ps.
Proof.
  intros (v & Hv & Hle). unfold charged, charge_page. rewrite dget_dset. case_decide as E; [|eauto].
  rewrite <- E in Hv. rewrite Hv. eexists. split; [done|]. simpl. lia.
Qed.

Lemma charge_pages_mono page ds pools k ps :
  charged pools k ps -> charged (foldl (charge_page page) pools ds) k ps.
Proof. revert pools. induction ds; intros; simpl; [done|]. by apply IHds, charge_page_mono. Qed.

Lemma charge_pages_hit page ds pools d :
  Some d ∈ ds -> charged (foldl (charge_page page) pools ds) (DtypePool d) page.
Proof.
  revert pools. induction ds as [|x ds IH]; intros pools; [by intros ?%not_elem_of_nil|].
  simpl. intros [<-|H]%elem_of_cons; [|by apply IH].
  apply charge_pages_mono. unfold charged, charge_page. rewrite dget_dset_eq. eexists. split; [done|]. lia.
Qed.

(** The pool of a dtype is charged at least the page of each of its families. *)
Lemma pools_cover s d :
  s ∈ specs_of -> page_size_bytes s ∈ pss -> page_size_bytes s <> 0 -> dtype s = Some d ->
  charged pools_of (DtypePool d) (page_size_bytes s).
Proof.
  intros Hs Hps Hnz Hd. unfold pools_of.
  assert (Some d ∈ dtypes_of_page dtypes_by_page (page_size_bytes s)) as Hin.
  { unfold dtypes_of_page. pose proof (add_page_dtype_elem specs_of [] s Hnz (or_introl Hs)) as H.
    unfold dtypes_by_page. rewrite Hd in H. destruct (dget _ _) as [[|y l]|]; simpl in H;
      [by apply not_elem_of_nil in H|done|by apply not_elem_of_nil in H]. }
  generalize (@nil (pool_key * Z)) as pools. induction pss as [|p l IH]; intros pools; [by apply not_elem_of_nil in Hps|].
  simpl. apply elem_of_cons in Hps as [E|Hps]; [|by apply IH]. clear IH. rewrite <- E.
  assert (charged (foldl (charge_page (page_size_bytes s)) pools
    (dtypes_of_page dtypes_by_page (page_size_bytes s))) (DtypePool d) (page_size_bytes s)) as Hc
    by (by apply charge_pages_hit).
  revert Hc. generalize (foldl (charge_page (page_size_bytes s)) pools
    (dtypes_of_page dtypes_by_page (page_size_bytes s))). clear E.
  induction l as [|q l IH]; intros pools' Hc; simpl; [done|]. by apply IH, charge_pages_mono.
Qed.

Lemma pools_ok : NoDup (dkeys pools_of) /\ Forall (Z.le 0) (dvalues pools_of).
Proof.
  unfold pools_of.
  assert (forall ds page pools, NoDup (dkeys pools) /\ Forall (Z.le 0) (dvalues pools) ->
    NoDup (dkeys (foldl (charge_page page) pools ds)) /\ Forall (Z.le 0) (dvalues (foldl (charge_page page) pools ds))) as Hd.
  { induction ds as [|x ds IH]; intros page pools [H1 H2]; simpl; [done|]. apply IH. split; [by apply NoDup_dset|].
    apply Forall_forall. intros v Hv. unfold charge_page, dvalues in Hv.
    apply list_elem_of_fmap in Hv as ([k w] & -> & Hin). simpl.
    apply elem_dget in Hin; [|by apply NoDup_dset]. rewrite dget_dset in Hin. case_decide as Ek.
    - rewrite Ek in Hin. injection Hin as <-.
      destruct (dget pools k) as [w'|] eqn:E; simpl; [|lia]. apply dget_elem in E.
      rewrite Forall_forall in H2. assert (0 <= w') by (apply H2, (list_elem_of_fmap_2 snd _ (k, w')), E). lia.
    - apply dget_elem in Hin. rewrite Forall_forall in H2. by apply H2, (list_elem_of_fmap_2 snd _ (k, w)). }
  assert (forall l pools, NoDup (dkeys pools) /\ Forall (Z.le 0) (dvalues pools) ->
    let p := foldl (fun pools page => foldl (charge_page page) pools (dtypes_of_page dtypes_by_page page)) pools l in
    NoDup (dkeys p) /\ Forall (Z.le 0) (dvalues p)) as Hl.
  { induction l as [|q l IH]; intros pools Hp; simpl; [done|]. by apply IH, Hd. }
  apply Hl. split; constructor.
Qed.
End reserve.

(** ** The buffers *)

(** The bytes the scratch buffers hold *)
Definition scratch_bytes (s : scratch_buffers) : Z :=
  zsum (map (fun '((_, d), len) => len * element_size d) s).

Record scratch_call := ScratchCall {
  k_cache : cache_view;
  k_pool : string;
  k_numel : option Z;
  k_shape : option (list Z)
}.

Definition run_scratch (s : scratch_buffers) (k : scratch_call) : scratch_buffers :=
  (scratch_for (k_cache k) (k_pool k) (k_numel k) (k_shape k) s).2.

(** A broadcast of a planned layer's cache: one of the two pools, a cache no
    larger than its family's pages, and no more rows than the cache has. *)
Definition call_ok (groups : list cache_group) (pss : list Z) (nb : Z) (k : scratch_call) : Prop :=
  k_pool k ∈ ["sync"; "prefetch"]%string /\ 0 <= numel (c_shape (k_cache k)) /\
  (forall n, k_numel k = Some n -> n <= numel (c_shape (k_cache k))) /\
  exists s, s ∈ specs_of groups /\ page_size_bytes s ∈ pss /\ 0 < page_size_bytes s /\
    dtype s = Some (c_dtype (k_cache k)) /\
    numel (c_shape (k_cache k)) * element_size (c_dtype (k_cache k)) <= page_size_bytes s * nb.

Lemma run_scratch_eq s k :
  run_scratch s k =
  let n := default (numel (c_shape (k_cache k))) (k_numel k) in
  let key := (k_pool k, c_dtype (k_cache k)) in
  if match dget s key with None => true | Some len => len <? n end
  then dset s key (Z.max n (numel (c_shape (k_cache k)))) else s.
Proof.
  unfold run_scratch, scratch_for, mbind, M_bind, get_state. cbn zeta.
  destruct (match dget s _ with Some _ => _ | None => _ end); unfold put_state, mret, M_ret, raise;
    by match goal with |- context [numel ?a =? ?b] => destruct (numel a =? b) end.
Qed.

(** Every buffer is within the charge of its dtype. *)
Definition buffers_ok (groups : list cache_group) (pss : list Z) (nb : Z) (s : scratch_buffers) : Prop :=
  NoDup (dkeys s) /\ forall p d len, dget s (p, d) = Some len ->
    p ∈ ["sync"; "prefetch"]%string /\
    exists v, dget (pools_of groups pss) (DtypePool d) = Some v /\ len * element_size d <= v * nb.

Lemma run_scratch_ok groups pss nb s k :
  0 <= nb -> call_ok groups pss nb k -> buffers_ok groups pss nb s -> buffers_ok groups pss nb (run_scratch s k).
Proof.
  intros Hnb (Hpool & Hn0 & Hn & sp & Hs & Hps & Hpos & Hd & Hfit) [Hnd Hb]. rewrite run_scratch_eq.
  cbn zeta. destruct (match dget s _ with Some _ => _ | None => _ end); [|done].
  split; [by apply NoDup_dset|]. intros p d len. rewrite dget_dset. case_decide as E; [|apply Hb].
  injection E as <- <-. intros [= <-]. split; [done|].
  destruct (pools_cover groups pss sp _ Hs Hps ltac:(lia) Hd) as (v & Hv & Hle). exists v. split; [done|].
  replace (Z.max _ _) with (numel (c_shape (k_cache k))); [nia|].
  destruct (k_numel k) as [n|]; simpl; [|lia]. specialize (Hn n eq_refl). lia.
Qed.

Lemma zsum_injected {A K} `{EqDecision K} (key : A -> K) (w : A -> Z) nb (l : list A) (d : dict K Z) :
  0 <= nb -> NoDup (map key l) -> NoDup (dkeys d) -> Forall (Z.le 0) (dvalues d) ->
  (forall x, x ∈ l -> exists v, dget d (key x) = Some v /\ w x <= v * nb) ->
  zsum (map w l) <= zsum (dvalues d) * nb.
Proof.
  intros Hnb. revert d. induction l as [|x l IH]; intros d Hl Hd Hv Hw; simpl.
  { assert (0 <= zsum (dvalues d)); [|nia]. clear - Hv. induction Hv; simpl; lia. }
  simpl in Hl. apply NoDup_cons in Hl as [Hx Hl]. destruct (Hw x) as (v & Hxv & Hle); [by left|].
  pose proof (ddel_perm _ _ _ Hxv) as Hp. rewrite (zsum_perm _ _ (dvalues_perm _ _ Hp)). simpl.
  assert (Forall (Z.le 0) (dvalues (ddel d (key x)))) as Hv'.
  { rewrite (dvalues_perm _ _ Hp) in Hv. simpl in Hv. by apply Forall_cons in Hv as [_ Hv]. }
  assert (zsum (map w l) <= zsum (dvalues (ddel d (key x))) * nb); [|lia].
  apply IH; [done|by apply NoDup_ddel|done|].
  intros y Hy. destruct (Hw y) as (v' & Hyv & Hle'); [by right|]. exists v'. split; [|done].
  rewrite dget_ddel_ne; [done|]. intros E. apply Hx. rewrite E. by apply list_elem_of_fmap_2.
Qed.

Lemma zsum_filter {A} (P : A -> Prop) `{forall x, Decision (P x)} (w : A -> Z) l :
  zsum (map w l) = zsum (map w (filter P l)) + zsum (map w (filter (fun x => ~ P x) l)).
Proof.
  induction l as [|x l IH]; [done|]. rewrite !filter_cons. simpl.
  destruct (decide (P x)), (decide (~ P x)); try done; simpl; lia.
Qed.

Lemma NoDup_pool p0 (l : scratch_buffers) :
  (forall x, x ∈ l -> x.1.1 = p0) -> NoDup (dkeys l) -> NoDup (map (fun x => DtypePool x.1.2) l).
Proof.
  induction l as [|[[p d] len] l IH]; intros Hall Hf; simpl; [constructor|].
  simpl in Hf. apply NoDup_cons in Hf as [Hx Hf].
  apply NoDup_cons. split; [|apply IH; [|done]; intros; apply Hall; by right].
  intros ([[p' d'] len'] & [= ->] & Hin)%list_elem_of_fmap. apply Hx. simpl.
  pose proof (Hall _ (list_elem_of_here _ _)) as E1. pose proof (Hall _ (list_elem_of_further _ _ _ Hin)) as E2.
  simpl in *. subst. by apply (list_elem_of_fmap_2 fst _ (p0, d', len')).
Qed.

(** The buffers of one pool are within the charges of the dtypes. *)
Lemma pool_bounded groups pss nb s (P : (string * torch_dtype) * Z -> Prop) `{forall x, Decision (P x)} p0 :
  0 <= nb -> buffers_ok groups pss nb s -> (forall x, x ∈ s -> P x -> x.1.1 = p0) ->
  scratch_bytes (filter P s) <= zsum (dvalues (pools_of groups pss)) * nb.
Proof.
  intros Hnb [Hnd Hb] Hp0. destruct (pools_ok groups pss) as [Hpk Hpv].
  apply (zsum_injected (fun x => DtypePool x.1.2)); [done| |done|done|].
  - apply (NoDup_pool p0); [intros x [? ?]%list_elem_of_filter; by apply Hp0|].
    eapply sublist_NoDup; [exact Hnd|]. apply (fmap_sublist fst), sublist_filter.
  - intros [[p d] len] [_ Hin]%list_elem_of_filter. apply elem_dget in Hin; [|done].
    by destruct (Hb p d len Hin) as (_ & v & Hv & Hle); exists v.
Qed.

(** The scratch buffers never hold more than the planner reserved for them. *)
Lemma scratch_bounded groups pss nb s :
  0 <= nb -> buffers_ok groups pss nb s -> scratch_bytes s <= bounce_bytes_per_block groups pss * nb.
Proof.
  intros Hnb Hs. change (bounce_bytes_per_block groups pss) with (2 * zsum (dvalues (pools_of groups pss))).
  unfold scratch_bytes. rewrite (zsum_filter (fun x => x.1.1 = "sync"%string)).
  pose proof (pool_bounded groups pss nb s (fun x => x.1.1 = "sync"%string) "sync" Hnb Hs (fun x _ H => H)) as H1.
  assert (forall x, x ∈ s -> x.1.1 <> "sync"%string -> x.1.1 = "prefetch"%string) as Hother.
  { destruct Hs as [Hnd Hb]. intros [[p d] len] Hin Hne. apply elem_dget in Hin; [|done].
    destruct (Hb p d len Hin) as [Hp _]. simpl in *. set_solver. }
  pose proof (pool_bounded groups pss nb s (fun x => ~ x.1.1 = "sync"%string) "prefetch" Hnb Hs Hother) as H2.
  etrans; [apply Z.add_le_mono; [exact H1|exact H2]|lia].
Qed.

Lemma calls_ok groups pss nb calls s :
  0 <= nb -> Forall (call_ok groups pss nb) calls -> buffers_ok groups pss nb s ->
  buffers_ok groups pss nb (foldl run_scratch s calls).
Proof. intros Hnb H. revert s. induction H; intros s Hs; simpl; [done|]. by apply IHForall, run_scratch_ok. Qed.

(** ** The budget *)

Lemma bounce_nonneg groups pss : 0 <= bounce_bytes_per_block groups pss.
Proof.
  change (bounce_bytes_per_block groups pss) with (2 * zsum (dvalues (pools_of groups pss))).
  destruct (pools_ok groups pss) as [_ H]. assert (0 <= zsum (dvalues (pools_of groups pss))); [|lia].
  induction H; simpl; lia.
Qed.

(** C3: the caches of a packed plan and the scratch buffers of any sequence of
    owner broadcasts of its layers, synchronous or prefetched, together fit the
    memory the plan was made for. *)
Theorem plan_fits_memory parse bucket override cls c groups memory n ts calls :
  shrunk_packed_plan parse bucket override cls c groups memory = Ok (Some (n, ts)) -> 0 <= n ->
  Forall (call_ok groups (merge_sort Z.le (dkeys (bucket_fn bucket groups))) n) calls ->
  exists size, Forall (fun t => t_size t = size) ts /\
    size + scratch_bytes (foldl run_scratch [] calls) <= memory.
Proof.
  intros Hp Hn Hcalls.
  apply shrunk_plan_inv in Hp as (total & phys & bounce & _ & _ & _ & Hpay & -> & _ & _ & Hle & Hts).
  set (pss := merge_sort Z.le _) in *. set (payload := zsum _) in Hpay, Hle, Hts.
  destruct (align_stride payload groups) as [[Hge _] _].
  set (stride := align_packed_block_stride payload groups) in *.
  pose proof (bounce_nonneg groups pss) as Hb. exists (stride * n). split.
  - apply plan_families_inv in Hts. apply Forall_forall. intros t [k Hk]%list_elem_of_lookup.
    by destruct (Forall2_lookup_r _ _ _ _ _ Hts Hk) as (slot & _ & -> & _).
  - assert (scratch_bytes (foldl run_scratch [] calls) <= bounce_bytes_per_block groups pss * n) as Hs.
    { apply scratch_bounded; [done|]. apply calls_ok; [done..|]. split; [constructor|done]. }
    pose proof (Z.mul_div_le memory (stride + bounce_bytes_per_block groups pss) ltac:(lia)). nia.
Qed.

Lemma layout_positive parse bucket c groups l :
  shrunk_layout_of parse bucket c groups = Ok (Some l) -> 0 < l_full_bytes l ->
  0 < l_block_bytes l /\ l_block_bytes l <= accounted_bytes l.
Proof.
  unfold shrunk_layout_of. destruct (total_layers_from_config c) as [total|]; [|done].
  destruct (total <=? 0); [done|]. destruct (family_slots _ _ _ _ _) as [phys|]; [|done]. cbn -[zsum].
  set (payload := zsum (map _ phys)). destruct (Z.leb_spec payload 0); [done|]. cbn -[zsum].
  intros [= <-]. unfold accounted_bytes. cbn -[zsum]. set (full := zsum _). intros Hfull.
  pose proof (bounce_nonneg groups (merge_sort Z.le (dkeys (bucket_fn bucket groups)))).
  destruct (align_stride payload groups) as [[? _] _].
  destruct (Z.ltb_spec payload full); lia.
Qed.

(** Sizing is consistent when blocks are planned twice: the bytes per block
    vLLM is told are the packed block with its share of the scratch, so that
    the memory of [k] such blocks is planned into [k] blocks again, and the
    memory left to vLLM's own planner when nothing shrinks also buys [k]. *)
Theorem replan_stable parse bucket override c groups l k :
  layer_split_active c = true -> groups <> [] ->
  shrunk_layout_of parse bucket c groups = Ok (Some l) -> 0 < l_full_bytes l -> override c k = k ->
  shrink_bytes parse bucket c groups (l_full_bytes l) = Ok (accounted_bytes l) /\
  budget_blocks override c l (k * accounted_bytes l) = Ok k /\
  exists memory, bounce_reserved_memory parse bucket override c groups (k * accounted_bytes l) = Ok memory /\
    memory / l_block_bytes l = k.
Proof.
  intros Ha Hg Hl H2 Hk. destruct (layout_positive _ _ _ _ _ Hl H2) as (H1 & H3).
  assert (budget_blocks override c l (k * accounted_bytes l) = Ok k) as Hb.
  { unfold budget_blocks, floor_div. destruct (Z.eqb_spec (accounted_bytes l) 0); [lia|]. simpl.
    rewrite Z.div_mul, Hk by lia. by rewrite Z.ltb_irrefl. }
  split_and!; [|done|].
  - unfold shrink_bytes, floor_div. rewrite Ha, bool_decide_eq_false_2, Hl by done. simpl.
    destruct (Z.eqb_spec (l_full_bytes l) 0); [lia|]. simpl. unfold mret, result_ret. f_equal.
    replace (- l_full_bytes l * accounted_bytes l) with (- accounted_bytes l * l_full_bytes l) by lia.
    rewrite Z.div_mul by lia. lia.
  - unfold bounce_reserved_memory. rewrite Hl. simpl. rewrite Hb. simpl. unfold floor_div.
    destruct (Z.eqb_spec (accounted_bytes l) 0); [lia|]. eexists. split; [done|].
    replace (k * accounted_bytes l * l_block_bytes l) with (k * l_block_bytes l * accounted_bytes l) by lia.
    by rewrite !Z.div_mul by lia.
Qed.

(** ** A concrete plan *)

Definition mla_spec : layer_spec := LayerSpec 32 4 None 1 4 (Some bfloat16) true false None.
Definition indexer_spec : layer_spec := LayerSpec 12 4 None 1 3 (Some uint8) true false None.

Definition demo_groups : list cache_group :=
  [CacheGroup mla_spec
     (Some [("l0.attn", mla_spec); ("l0.idx", indexer_spec); ("l1.attn", mla_spec); ("l1.idx", indexer_spec);
            ("l2.attn", mla_spec); ("l2.idx", indexer_spec); ("l3.attn", mla_spec); ("l3.idx", indexer_spec)])
     ["l0.attn"; "l0.idx"; "l1.attn"; "l1.idx"; "l2.attn"; "l2.idx"; "l3.attn"; "l3.idx"]]%string.

Definition demo_index (n : string) : result Z :=
  if startswith "l0" n then Ok 0 else if startswith "l1" n then Ok 1
  else if startswith "l2" n then Ok 2 else if startswith "l3" n then Ok 3
  else Err (Exn ValueError "").

Definition demo_split : vllm_config :=
  VllmConfig true (Some (ParallelConfig (Some 2) None)) (Some "kv_producer"%string)
    (Some (ModelConfig ["DeepseekV32ForCausalLM"]%string None (Some (HfConfig (Some 1) (Some 4))) None)) (Some 4).

Definition demo_class : tensor_class := TensorClass ["size"; "shared_by"]%string false true.
Definition keep_blocks (_ : vllm_config) (n : Z) : Z := n.

Definition demo_call (pool : string) (rows : Z) : scratch_call :=
  ScratchCall (CacheView [10; 4; 4] bfloat16) pool (Some (rows * 16)) (Some [rows; 4; 4]).

Lemma demo_call_ok pool rows :
  pool ∈ ["sync"; "prefetch"]%string -> rows <= 10 ->
  call_ok demo_groups (merge_sort Z.le (dkeys (bucket_fn None demo_groups))) 10 (demo_call pool rows).
Proof.
  intros Hp Hr. split_and!; [done|vm_compute; discriminate| |].
  - intros n [= <-]. change (numel _) with 160. lia.
  - exists mla_spec. split_and!; [by left| |done|done|vm_compute; discriminate].
    change (merge_sort _ _) with [12; 32]. right. left.
Qed.

Lemma plan_fits_memory_witness :
  exists n ts size,
    shrunk_packed_plan demo_index None keep_blocks demo_class demo_split demo_groups 2330 = Ok (Some (n, ts)) /\
    n = 10 /\ Forall (fun t => t_size t = size) ts /\
    size + scratch_bytes (foldl run_scratch [] [demo_call "sync" 3; demo_call "prefetch" 10]) <= 2330.
Proof.
  destruct (shrunk_packed_plan demo_index None keep_blocks demo_class demo_split demo_groups 2330)
    as [[[n ts]|]|] eqn:E; [|vm_compute in E; discriminate E..].
  assert (n = 10) as Hn by (vm_compute in E; injection E as <- _; reflexivity).
  destruct (plan_fits_memory _ _ _ _ _ _ _ _ _ [demo_call "sync" 3; demo_call "prefetch" 10] E) as (size & H1 & H2).
  - lia.
  - subst n. apply Forall_cons; split; [apply demo_call_ok; [left|lia]|].
    apply Forall_cons; split; [apply demo_call_ok; [right; left|lia]|]. constructor.
  - exists n, ts, size. split_and!; done.
Defined.

Lemma replan_stable_witness :
  exists l, shrunk_layout_of demo_index None demo_split demo_groups = Ok (Some l) /\
    accounted_bytes l = 232 /\ shrink_bytes demo_index None demo_split demo_groups 176 = Ok 232 /\
    budget_blocks keep_blocks demo_split l (7 * 232) = Ok 7.
Proof.
  destruct (shrunk_layout_of demo_index None demo_split demo_groups) as [[l|]|] eqn:E;
    [|vm_compute in E; discriminate E..].
  assert (l_full_bytes l = 176 /\ accounted_bytes l = 232) as [H1 H2]
    by (vm_compute in E; injection E as <-; split; reflexivity).
  destruct (replan_stable demo_index None keep_blocks demo_split demo_groups l 7) as (R1 & R2 & _);
    [reflexivity|discriminate|exact E|lia|reflexivity|].
  rewrite H1, H2 in R1. rewrite H2 in R2. exists l. split_and!; done.
Defined.
