(* ===== verification/KvCache.v ===== *)
(** * Cache tensors and their views

    Models src/vllm_hcu/v1/kv_cache.py, the allocation of the cache tensors and
    the views of them the attention backends read, and the allocator of the
    older runner in src/vllm_hcu/v1/hcu_model_runner.py.

    A byte tensor is its place in the list of the tensors made so far; a view
    is its sizes, strides and offset in elements over one of them.  The
    backends' shapes and stride orders, vLLM's reshape of plain tensors and the
    test whether an identity is hashable are parameters. *)

From S2P Require Import Prelude PyString Tensors LayerSplit LayerPacking KvPlanner.
From stdpp Require Import sorting.
Local Open Scope Z_scope.

Module KvCache.
Import LayerSplit Packing KvPlanner.

(** ** What the code reads of the attention groups *)

Record attn_backend := AttnBackend {
  be_module : string;
  get_kv_cache_shape : Z -> Z -> Z -> Z -> string -> result (list Z);
  get_kv_cache_stride_order : result (list Z)
}.

Record attn_group := AttnGroup {
  ag_backend : attn_backend;
  ag_layer_names : list string;
  ag_spec : layer_spec;
  ag_layer_specs : option (dict string layer_spec);
  ag_group_id : Z
}.

Definition HCU_FLASH_ATTN_MODULE : string := "vllm_hcu.v1.attention.backends.flash_attn".

Definition is_hcu_flash_attn_backend (b : attn_backend) : bool :=
  bool_decide (be_module b = HCU_FLASH_ATTN_MODULE).

Definition uses_hcu_flash_attn (attn_groups : list (list attn_group)) : bool :=
  existsb (fun g => is_hcu_flash_attn_backend (ag_backend g)) (concat attn_groups).

(** [_has_packed_kv_descriptors] of a bound configuration *)
Definition has_packed_kv_descriptors (cfg : option KVCacheConfig) : bool :=
  match cfg with
  | None => false
  | Some cfg => existsb (fun t => 0 <? t_block_stride t) (kv_cache_tensors cfg)
  end.

(** [_layer_spec] *)
Definition group_layer_spec (g : attn_group) (name : string) : result layer_spec :=
  match ag_layer_specs g with
  | Some per_layer =>
      match dget per_layer name with
      | Some spec => Ok spec
      | None => Err (Exn KeyError name)
      end
  | None => Ok (ag_spec g)
  end.

(** [_cache_tensor_layers] *)
Definition cache_tensor_layers (t : kv_tensor) : result (list string) :=
  match t_layers t with
  | [] => Err (Exn ValueError "KV cache tensor must name at least one layer")
  | names => Ok names
  end.

(** ** Allocation *)

Inductive backing_key :=
  | SinglePacked (size block_stride : Z)
  | PackedBacking (id : allocation_id) (size block_stride : Z).

#[global] Instance backing_key_eq_dec : EqDecision backing_key.
Proof. solve_decision. Defined.

(** [heap]: the sizes of the byte tensors made so far *)
Record alloc_state := AllocState {
  heap : list Z;
  backing_by_layout : dict backing_key nat;
  packed_layouts : dict allocation_id (Z * Z);
  raw_by_layer : dict string nat;
  descriptor_by_layer : dict string kv_tensor
}.

Definition empty_alloc : alloc_state := AllocState [] [] [] [] [].

(** [torch.zeros(size, dtype=torch.int8)] *)
Definition zeros (size : Z) : M alloc_state nat := fun s =>
  if size <? 0 then (Err (Exn RuntimeError "Trying to create tensor with negative dimension"), s)
  else (Ok (length (heap s)),
        AllocState (heap s ++ [size]) (backing_by_layout s) (packed_layouts s) (raw_by_layer s)
          (descriptor_by_layer s)).

Definition set_backing (key : backing_key) (b : nat) : M alloc_state unit :=
  modify (fun s => AllocState (heap s) (dset (backing_by_layout s) key b) (packed_layouts s)
                     (raw_by_layer s) (descriptor_by_layer s)).

Definition set_layout (id : allocation_id) (layout : Z * Z) : M alloc_state unit :=
  modify (fun s => AllocState (heap s) (backing_by_layout s) (dset (packed_layouts s) id layout)
                     (raw_by_layer s) (descriptor_by_layer s)).

Definition set_layer (t : kv_tensor) (b : nat) (name : string) : M alloc_state unit :=
  modify (fun s => AllocState (heap s) (backing_by_layout s) (packed_layouts s)
                     (dset (raw_by_layer s) name b) (dset (descriptor_by_layer s) name t)).

(** Packed descriptors without an identity are ambiguous when there are several. *)
Definition ids_ambiguous (cfg : KVCacheConfig) : bool :=
  let packed := filter (fun t => 0 < t_block_stride t) (kv_cache_tensors cfg) in
  let ids := map t_backing_id packed in
  existsb (fun id => bool_decide (id = None)) ids &&
  ((1 <? zlen packed) || existsb (fun id => negb (bool_decide (id = None))) ids).

Section allocation.
Context (hashable : allocation_id -> bool).

(** The key of a packed descriptor's backing, after the checks on its identity *)
Definition packed_key (t : kv_tensor) : M alloc_state backing_key :=
  match t_backing_id t with
  | None => mret (SinglePacked (t_size t) (t_block_stride t))
  | Some id =>
      if negb (hashable id) then raise ValueError "Packed KV backing_id must be hashable"
      else
        s ← get_state;
        let current := (t_size t, t_block_stride t) in
        match dget (packed_layouts s) id with
        | Some previous =>
            if bool_decide (previous = current)
            then _ ← set_layout id current; mret (PackedBacking id (t_size t) (t_block_stride t))
            else raise ValueError "Packed KV descriptors sharing backing_id disagree on size or block_stride"
        | None => _ ← set_layout id current; mret (PackedBacking id (t_size t) (t_block_stride t))
        end
  end.

(** The byte tensor of a descriptor *)
Definition backing_for (t : kv_tensor) : M alloc_state nat :=
  if 0 <? t_block_stride t
  then
    key ← packed_key t;
    s ← get_state;
    match dget (backing_by_layout s) key with
    | Some b => mret b
    | None => b ← zeros (t_size t); _ ← set_backing key b; mret b
    end
  else zeros (t_size t).

Definition allocate_descriptor (t : kv_tensor) : M alloc_state unit :=
  b ← backing_for t;
  names ← lift (cache_tensor_layers t);
  for_each names (set_layer t b).

(** [_allocate_modern_raw_kv_cache] *)
Definition allocate_modern_raw_kv_cache (cfg : KVCacheConfig) : M alloc_state unit :=
  if ids_ambiguous cfg
  then raise ValueError "Packed KV descriptors must carry explicit backing_id metadata"
  else for_each (kv_cache_tensors cfg) allocate_descriptor.
End allocation.

(** ** The allocator of the older runner *)

Record runner_alloc := RunnerAlloc {
  r_heap : list Z;
  packed_backings : dict backing_key nat;
  r_packed_layouts : dict allocation_id (Z * Z);
  kv_cache_raw_tensors : dict string nat
}.

Section runner.
Context (hashable : allocation_id -> bool).

(** The allocation of one tensor, with the tables it updates; a packed one
    looks for the backing of its identity first *)
Definition runner_tensor (s : runner_alloc) (t : kv_tensor) : result (nat * runner_alloc) :=
  let size := t_size t in
  let stride := t_block_stride t in
  let fresh layouts (remember : nat -> dict backing_key nat) :=
    if size <? 0 then Err (Exn RuntimeError "Trying to create tensor with negative dimension")
    else
      let b := length (r_heap s) in
      Ok (b, RunnerAlloc (r_heap s ++ [size]) (remember b) layouts (kv_cache_raw_tensors s)) in
  if 0 <? stride then
    let lookup key layouts :=
      match dget (packed_backings s) key with
      | Some b => Ok (b, RunnerAlloc (r_heap s) (packed_backings s) layouts (kv_cache_raw_tensors s))
      | None => fresh layouts (fun b => dset (packed_backings s) key b)
      end in
    match t_backing_id t with
    | None => lookup (SinglePacked size stride) (r_packed_layouts s)
    | Some id =>
        if negb (hashable id) then Err (Exn ValueError "Packed KV backing_id must be hashable")
        else if match dget (r_packed_layouts s) id with
                | Some previous => negb (bool_decide (previous = (size, stride)))
                | None => false
                end
        then Err (Exn ValueError "Packed KV descriptors sharing backing_id disagree on size or block_stride")
        else lookup (PackedBacking id size stride) (dset (r_packed_layouts s) id (size, stride))
    end
  else fresh (r_packed_layouts s) (fun _ => packed_backings s).

Fixpoint runner_tensors (s : runner_alloc) (ts : list kv_tensor) : result runner_alloc :=
  match ts with
  | [] => Ok s
  | t :: ts' =>
      r ← runner_tensor s t;
      let '(b, s') := r in
      runner_tensors
        (RunnerAlloc (r_heap s') (packed_backings s') (r_packed_layouts s')
           (foldl (fun d name => dset d name b) (kv_cache_raw_tensors s') (t_layers t))) ts'
  end.

(** [_allocate_kv_cache_tensors]; [runner_only] is [self.runner_only_attn_layers] *)
Definition allocate_kv_cache_tensors (runner_only : list string) (cfg : KVCacheConfig) : result runner_alloc :=
  if ids_ambiguous cfg
  then Err (Exn ValueError "Packed KV descriptors must carry explicit backing_id metadata")
  else
    s ← runner_tensors (RunnerAlloc [] [] [] []) (kv_cache_tensors cfg);
    let names : gset string :=
      list_to_set (filter (fun n => n ∉ runner_only) (concat (map g_layer_names (kv_cache_groups cfg)))) in
    if bool_decide (names = list_to_set (dkeys (kv_cache_raw_tensors s))) then mret s
    else Err (Exn AssertionError "Some layers are not correctly initialized").
End runner.

(** ** Views *)

(** A strided view in elements of [v_item] bytes over a byte tensor *)
Record tensor_view := TensorView {
  v_base : nat;
  v_item : Z;
  v_size : list Z;
  v_stride : list Z;
  v_offset : Z
}.

(** [t[i]] of a tuple or list *)
Definition py_get {A} (l : list A) (i : Z) : result A :=
  match (if i <? 0 then zget l (zlen l + i) else zget l i) with
  | Some x => Ok x
  | None => Err (Exn IndexError "tuple index out of range")
  end.

Fixpoint map_each {A B} (f : A -> result B) (l : list A) : result (list B) :=
  match l with
  | [] => Ok []
  | x :: l' => y ← f x; ys ← map_each f l'; mret (y :: ys)
  end.

(** [torch.empty(shape).stride()] *)
Fixpoint contiguous_stride (shape : list Z) : list Z :=
  match shape with
  | [] => []
  | _ :: rest => foldr (fun s p => Z.max s 1 * p) 1 rest :: contiguous_stride rest
  end.

Definition index_error : exn := Exn ValueError "tuple.index(x): x not in tuple".

(** The elements past the offset a strided view reaches, 0 when it has none *)
Definition extent (size stride : list Z) : Z :=
  if existsb (Z.eqb 0) size then 0
  else 1 + zsum (zip_with (fun s st => (s - 1) * st) size stride).

(** [torch.as_strided] over a storage of [bytes] bytes *)
Definition as_strided (bytes : Z) (base : nat) (item : Z) (size stride : list Z) (offset : Z)
    : result tensor_view :=
  if negb (zlen size =? zlen stride) || existsb (fun s => s <? 0) size || existsb (fun s => s <? 0) stride
     || (offset <? 0)
  then Err (Exn RuntimeError "as_strided: invalid size, stride or storage offset")
  else if (0 <? extent size stride) && (bytes <? (offset + extent size stride) * item)
  then Err (Exn RuntimeError "setStorage: out of bounds for storage")
  else Ok (TensorView base item size stride offset).

(** [raw.view(dtype)] of a byte tensor *)
Definition view_dtype (bytes item : Z) : result unit :=
  if bytes mod item =? 0 then Ok tt
  else Err (Exn RuntimeError "self.size(-1) must be divisible by the new element size").

(** [t.permute(dims)] *)
Definition permute (v : tensor_view) (dims : list Z) : result tensor_view :=
  size ← map_each (py_get (v_size v)) dims;
  stride ← map_each (py_get (v_stride v)) dims;
  mret (TensorView (v_base v) (v_item v) size stride (v_offset v)).

(** [order.index(i)] *)
Definition order_index (order : list Z) (i : Z) : result Z :=
  match index_from 0 order i with Some k => Ok k | None => Err index_error end.

(** The bytes of one block: every dimension but the block dimension *)
Fixpoint page_bytes_of (block_dim i acc : Z) (physical_shape : list Z) : Z :=
  match physical_shape with
  | [] => acc
  | dim :: rest => page_bytes_of block_dim (i + 1) (if i =? block_dim then acc else acc * dim) rest
  end.

(** The dtype name a backend is asked with *)
Definition layer_cache_dtype (spec : layer_spec) (cache_dtype : string) : string :=
  if kv_quant_none spec && negb (is_tq spec) then "auto"%string
  else match cache_dtype_str spec with
       | Some s => if decide (s = ""%string) then cache_dtype else s
       | None => cache_dtype
       end.

(** [_reshape_modern_packed_cache] of the byte tensor [raw] with [bytes] bytes *)
Definition reshape_modern_packed_cache (raw : nat) (bytes : Z) (t : kv_tensor) (spec : layer_spec)
    (backend : attn_backend) (num_blocks : Z) (cache_dtype : string) : result tensor_view :=
  let sbs := default (block_size spec) (storage_block_size spec) in
  let stride := t_block_stride t in
  if (block_size spec <=? 0) || (sbs <=? 0)
  then Err (Exn ValueError "KV storage block size must be positive")
  else if stride <=? 0
  then Err (Exn ValueError "Packed KV descriptor must provide a positive block stride")
  else if negb (bytes mod stride =? 0)
  then Err (Exn ValueError "Packed KV backing size must be divisible by its block stride")
  else
    let kernel_num_blocks := bytes / stride in
    if negb (kernel_num_blocks =? num_blocks)
    then Err (Exn ValueError "Packed KV descriptor and config disagree on block count")
    else
      shape ← get_kv_cache_shape backend kernel_num_blocks sbs (num_kv_heads spec) (head_size spec)
                (layer_cache_dtype spec cache_dtype);
      order ← get_kv_cache_stride_order backend;
      if negb (zlen order =? zlen shape)
      then Err (Exn ValueError "HCU KV-cache stride order does not match its shape")
      else
        physical_shape ← map_each (py_get shape) order;
        match dtype spec with
        | None => Err (Exn AttributeError "dtype")
        | Some d =>
            let item := element_size d in
            let offset := t_offset t in
            if negb (stride mod item =? 0) || negb (offset mod item =? 0)
            then Err (Exn ValueError "Packed KV offsets and strides must align to cache dtype")
            else
              block_dim ← order_index order 0;
              let page_bytes := page_bytes_of block_dim 0 item physical_shape in
              if stride <? page_bytes
              then Err (Exn ValueError "Packed KV backend view exceeds its per-block descriptor stride")
              else if (offset <? 0) || (bytes <? offset + (kernel_num_blocks - 1) * stride + page_bytes)
              then Err (Exn ValueError "Packed KV descriptor offset/view exceeds its backing allocation")
              else if existsb (fun s => s <? 0) physical_shape
              then Err (Exn RuntimeError "Trying to create tensor with negative dimension")
              else
                let physical_stride :=
                  <[Z.to_nat block_dim := stride / item]> (contiguous_stride physical_shape) in
                _ ← view_dtype bytes item;
                v ← as_strided bytes raw item physical_shape physical_stride (offset / item);
                dims ← map_each (order_index order) (zrange 0 (zlen order));
                permute v dims
        end.

(** ** Binding the caches of the modern runner *)

Section init.
Context (hashable : allocation_id -> bool).
(** vLLM's [_reshape_kv_cache] of a configuration without packed tensors, from
    the byte tensors of its layers *)
Context (vllm_reshape : KVCacheConfig -> dict string nat -> string -> result (dict string tensor_view)).

Definition update_views (d e : dict string tensor_view) : dict string tensor_view :=
  foldl (fun d '(n, v) => dset d n v) d e.

(** The descriptors that are not packed, with the groups less the packed layers *)
Definition plain_config (cfg : KVCacheConfig) (packed_layers : list string) : KVCacheConfig :=
  CacheConfig (num_blocks cfg)
    (filter (fun g => g_layer_names g <> [])
       (map (fun g => CacheGroup (g_spec g) (g_layer_specs g)
                        (filter (fun n => n ∉ packed_layers) (g_layer_names g)))
            (kv_cache_groups cfg)))
    (filter (fun t => t_block_stride t <= 0) (kv_cache_tensors cfg)) (remap_applied cfg).

(** One layer of the loop over the attention groups *)
Definition reshape_layer (s : alloc_state) (cfg : KVCacheConfig) (cache_dtype : string) (g : attn_group)
    (caches : dict string tensor_view) (name : string) : result (dict string tensor_view) :=
  match dget (descriptor_by_layer s) name, dget (raw_by_layer s) name with
  | Some t, Some raw =>
      if t_block_stride t <=? 0 then Ok caches
      else
        spec ← group_layer_spec g name;
        v ← reshape_modern_packed_cache raw (default 0 (heap s !! raw)) t spec (ag_backend g)
              (num_blocks cfg) cache_dtype;
        mret (dset caches name v)
  | _, _ => Ok caches
  end.

Fixpoint reshape_layers (s : alloc_state) (cfg : KVCacheConfig) (cache_dtype : string)
    (work : list (attn_group * string)) (caches : dict string tensor_view) : result (dict string tensor_view) :=
  match work with
  | [] => Ok caches
  | (g, name) :: work' =>
      caches' ← reshape_layer s cfg cache_dtype g caches name;
      reshape_layers s cfg cache_dtype work' caches'
  end.

(** The layers of the attention groups, in the order of the loops *)
Definition attn_layers (attn_groups : list (list attn_group)) : list (attn_group * string) :=
  concat (map (fun g => map (fun n => (g, n)) (ag_layer_names g)) (concat attn_groups)).

Fixpoint share_layers (shared : dict string string) (caches : dict string tensor_view)
    : result (dict string tensor_view) :=
  match shared with
  | [] => Ok caches
  | (name, target) :: rest =>
      match dget caches target with
      | Some v => share_layers rest (dset caches name v)
      | None => Err (Exn KeyError target)
      end
  end.

(** The caches [_init_modern_hcu_kv_cache] binds *)
Definition init_modern_hcu_kv_cache (attn_groups : list (list attn_group)) (shared : dict string string)
    (cfg : KVCacheConfig) (cache_dtype : string) : M alloc_state (dict string tensor_view) :=
  _ ← allocate_modern_raw_kv_cache hashable cfg;
  s ← get_state;
  let packed_layers :=
    map fst (filter (fun x => 0 < t_block_stride x.2) (descriptor_by_layer s)) in
  caches ← lift (
    match packed_layers with
    | [] => vllm_reshape cfg (raw_by_layer s) cache_dtype
    | _ =>
        plain ← (if existsb (fun t => t_block_stride t <=? 0) (kv_cache_tensors cfg)
                 then vllm_reshape (plain_config cfg packed_layers)
                        (filter (fun x => x.1 ∉ packed_layers) (raw_by_layer s)) cache_dtype
                 else Ok []);
        caches ← reshape_layers s cfg cache_dtype (attn_layers attn_groups) (update_views [] plain);
        let reshaped := filter (fun n => n ∈ packed_layers) (map snd (attn_layers attn_groups)) in
        if bool_decide (list_to_set reshaped = (list_to_set packed_layers : gset string))
        then mret caches
        else Err (Exn ValueError "Packed KV descriptors could not be reshaped by their attention backends")
    end);
  lift (share_layers shared caches).
End init.

(** ** The flash-attention view *)

(** [physical_stride] of the loop from the last dimension *)
Fixpoint running_strides (shape : list Z) : list Z * Z :=
  match shape with
  | [] => ([], 1)
  | dim :: rest => let '(strides, running) := running_strides rest in (running :: strides, running * dim)
  end.

(** [sorted(l)] *)
Definition sorted_list (l : list Z) : list Z := merge_sort Z.le l.

(** [_reshape_hcu_flash_cache] over a storage of [bytes] bytes *)
Definition reshape_hcu_flash_cache (bytes : Z) (cache : tensor_view)
    (block_size num_kv_heads head_size : Z) (stride_order : list Z) : result tensor_view :=
  match v_size cache, v_stride cache with
  | blocks :: rest, stride0 :: _ =>
      if negb (bool_decide (rest = [num_kv_heads; block_size; 2 * head_size]))
      then Err (Exn ValueError "Unexpected official FlashAttention KV-cache shape")
      else
        let logical_shape := [blocks; 2; block_size; num_kv_heads; head_size] in
        if negb (bool_decide (sorted_list stride_order = zrange 0 (zlen logical_shape)))
        then Err (Exn ValueError "Invalid HCU KV-cache stride order")
        else
          physical_shape ← map_each (py_get logical_shape) stride_order;
          let physical_stride := (running_strides physical_shape).1 in
          logical_stride ← map_each (fun i => k ← order_index stride_order i; py_get physical_stride k)
                             (zrange 0 (zlen stride_order));
          let page_elements := 2 * block_size * num_kv_heads * head_size in
          if stride0 <? page_elements
          then Err (Exn ValueError "Official KV-cache block stride is smaller than one HCU page")
          else as_strided bytes (v_base cache) (v_item cache) logical_shape
                 (stride0 :: drop 1 logical_stride) (v_offset cache)
  | _, _ => Err (Exn ValueError "Unexpected official FlashAttention KV-cache shape")
  end.

(** The loop of [_reshape_hcu_flash_caches] over the layers of one group *)
Fixpoint flash_layers (bytes_of : nat -> Z) (g : attn_group) (block_size : Z) (order : list Z)
    (shared : dict string string) (names : list string) (caches : dict string tensor_view)
    : result (dict string tensor_view) :=
  match names with
  | [] => Ok caches
  | name :: names' =>
      if dmem shared name then flash_layers bytes_of g block_size order shared names' caches
      else
        spec ← group_layer_spec g name;
        match dget caches name with
        | None => Err (Exn KeyError name)
        | Some c =>
            v ← reshape_hcu_flash_cache (bytes_of (v_base c)) c block_size (num_kv_heads spec)
                  (head_size spec) order;
            flash_layers bytes_of g block_size order shared names' (dset caches name v)
        end
  end.

Fixpoint flash_groups (bytes_of : nat -> Z) (kernel_block_sizes : list Z) (shared : dict string string)
    (groups : list attn_group) (caches : dict string tensor_view) : result (dict string tensor_view) :=
  match groups with
  | [] => Ok caches
  | g :: groups' =>
      if negb (is_hcu_flash_attn_backend (ag_backend g))
      then flash_groups bytes_of kernel_block_sizes shared groups' caches
      else
        block_size ← py_get kernel_block_sizes (ag_group_id g);
        order ← get_kv_cache_stride_order (ag_backend g);
        caches' ← flash_layers bytes_of g block_size order shared (ag_layer_names g) caches;
        flash_groups bytes_of kernel_block_sizes shared groups' caches'
  end.

(** [_reshape_hcu_flash_caches] *)
Definition reshape_hcu_flash_caches (bytes_of : nat -> Z) (attn_groups : list (list attn_group))
    (kernel_block_sizes : list Z) (shared : dict string string) (caches : dict string tensor_view)
    : result (dict string tensor_view) :=
  flash_groups bytes_of kernel_block_sizes shared (concat attn_groups) caches.

(** The caches [_init_legacy_hcu_kv_cache] binds, from the official ones *)
Definition init_legacy_hcu_kv_cache (bytes_of : nat -> Z) (attn_groups : list (list attn_group))
    (kernel_block_sizes : list Z) (shared : dict string string) (official : dict string tensor_view)
    : result (dict string tensor_view) :=
  caches ← reshape_hcu_flash_caches bytes_of attn_groups kernel_block_sizes shared official;
  share_layers shared caches.

(** ** Which initialiser runs *)

Inductive initialiser := OfficialInit | ModernInit | LegacyInit.

(** [use_hcu_flash_kv_cache_allocator] with [_init_hcu_kv_cache]: [modern] is
    whether the official signature has [attn_backends] *)
Definition choose_initialiser (attn_groups : option (list (list attn_group)))
    (cfg : option KVCacheConfig) (modern : bool) : initialiser :=
  if match attn_groups with
     | Some groups => negb (uses_hcu_flash_attn groups) && negb (has_packed_kv_descriptors cfg)
     | None => false
     end
  then OfficialInit
  else if modern then ModernInit else LegacyInit.
End KvCache.
