(* ===== verification/KvViewCorrect.v ===== *)
(** * Views of the cache tensors

    A view a backend reads addresses its elements injectively, each block
    inside its own page of the layer's bytes, and never past the tensor. *)

From S2P Require Import Prelude PyString Tensors LayerSplit LayerSplitCorrect LayerPacking KvPlanner KvCache.
From stdpp Require Import sorting.
Import LayerSplit Packing KvPlanner KvCache.
Local Open Scope Z_scope.

(** ** Indexes *)

Definition znth (l : list Z) (k : Z) : Z := nth (Z.to_nat k) l 0.
Definition dot (a b : list Z) : Z := zsum (zip_with Z.mul a b).
Definition in_shape (shape idx : list Z) : Prop := Forall2 (fun i s => 0 <= i < s) idx shape.

(** The byte at which an element of a view starts *)
Definition byte_address (v : tensor_view) (idx : list Z) : Z :=
  v_item v * (v_offset v + dot idx (v_stride v)).

Lemma znth_lookup l k x : zget l k = Some x -> znth l k = x.
Proof. unfold zget, znth. destruct (k <? 0); [done|]. intros H. by apply nth_lookup_Some. Qed.

Lemma zget_znth l k : 0 <= k < zlen l -> zget l k = Some (znth l k).
Proof. intros [x Hx]%zget_is_Some. by rewrite Hx, (znth_lookup _ _ _ Hx). Qed.

Lemma py_get_znth l k : 0 <= k < zlen l -> py_get l k = Ok (znth l k).
Proof. intros Hk. unfold py_get. destruct (Z.ltb_spec k 0); [lia|]. by rewrite zget_znth. Qed.

Lemma map_znth l ks : Forall (fun k => 0 <= k < zlen l) ks -> map_each (py_get l) ks = Ok (map (znth l) ks).
Proof. induction 1 as [|k ks Hk _ IH]; simpl; [done|]. rewrite py_get_znth by done. simpl. by rewrite IH. Qed.

Lemma map_each_inv {A B} (f : A -> result B) l ys :
  map_each f l = Ok ys -> Forall2 (fun x y => f x = Ok y) l ys.
Proof.
  revert ys. induction l as [|x l IH]; intros ys; simpl; [intros [= <-]; constructor|].
  destruct (f x) as [y|] eqn:E; [|done]. simpl. destruct (map_each f l) as [zs|]; [|done]. simpl.
  intros [= <-]. constructor; [done|]. by apply IH.
Qed.

Lemma map_each_total {A B} (f : A -> result B) (g : A -> B) l :
  (forall x, x ∈ l -> f x = Ok (g x)) -> map_each f l = Ok (map g l).
Proof.
  induction l as [|x l IH]; intros H; simpl; [done|]. rewrite H by by left. simpl.
  rewrite IH; [done|]. intros y Hy. apply H. by right.
Qed.

Lemma map_each_exists {A B} (f : A -> result B) l :
  (forall x, x ∈ l -> exists y, f x = Ok y) -> exists ys, map_each f l = Ok ys.
Proof.
  induction l as [|x l IH]; intros H; simpl; [by eexists|]. destruct (H x) as [y ->]; [by left|]. simpl.
  destruct IH as [ys ->]; [intros z Hz; apply H; by right|]. by eexists.
Qed.

Lemma zrange_step s n : 0 < n -> zrange s n = s :: zrange (s + 1) (n - 1).
Proof. intros. unfold zrange. rewrite seqZ_cons by lia. f_equal; f_equal; lia. Qed.

(** A list is the list of its entries. *)
Lemma map_znth_range l : map (znth l) (zrange 0 (zlen l)) = l.
Proof.
  apply list_eq. intros i. change (map ?f ?x) with (f <$> x). rewrite list_lookup_fmap. unfold zrange, zlen.
  destruct (l !! i) as [x|] eqn:E.
  - pose proof (lookup_lt_Some _ _ _ E). rewrite lookup_seqZ_lt by lia. simpl. f_equal.
    unfold znth. rewrite Z.add_0_l, Nat2Z.id. by apply nth_lookup_Some.
  - apply lookup_ge_None in E. by rewrite lookup_seqZ_ge by lia.
Qed.

(** ** Contiguous strides *)

Lemma max_numel shape : Forall (Z.lt 0) shape ->
  foldr (fun s p => Z.max s 1 * p) 1 shape = numel shape /\ 0 < numel shape.
Proof.
  unfold numel. induction 1 as [|s shape Hs _ [IH1 IH2]]; simpl; [done|]. rewrite IH1, Z.max_l by lia. nia.
Qed.

Lemma in_shape_max shape idx : in_shape shape idx ->
  foldr (fun s p => Z.max s 1 * p) 1 shape = numel shape /\ 0 < numel shape.
Proof.
  intros Hi. apply max_numel. apply Forall_forall. intros s [k Hk]%list_elem_of_lookup.
  destruct (Forall2_lookup_r _ _ _ _ _ Hi Hk) as (i & _ & Hs). lia.
Qed.

(** Contiguous strides number the elements of a shape without repetition. *)
Lemma contiguous_range shape idx : in_shape shape idx -> 0 <= dot idx (contiguous_stride shape) < numel shape.
Proof.
  induction 1 as [|i s idx shape Hi Hr IH]; [done|].
  destruct (in_shape_max _ _ Hr) as [E Hp]. unfold dot, numel in *. simpl. rewrite E. nia.
Qed.

Lemma contiguous_inj shape idx1 idx2 :
  in_shape shape idx1 -> in_shape shape idx2 ->
  dot idx1 (contiguous_stride shape) = dot idx2 (contiguous_stride shape) -> idx1 = idx2.
Proof.
  intros H1. revert idx2. induction H1 as [|i s idx1 shape Hi Hr IH]; intros idx2 H2 E.
  { by inversion H2. }
  inversion H2 as [|j ? idx2' ? Hj Hr2]; subst. destruct (in_shape_max _ _ Hr) as [Em Hp].
  pose proof (contiguous_range _ _ Hr) as B1. pose proof (contiguous_range _ _ Hr2) as B2.
  unfold dot in *. simpl in E. rewrite Em in E.
  assert (i = j) as -> by nia. f_equal. apply IH; [done|]. lia.
Qed.

Lemma contiguous_onto shape r :
  Forall (Z.lt 0) shape -> 0 <= r < numel shape ->
  exists idx, in_shape shape idx /\ dot idx (contiguous_stride shape) = r.
Proof.
  intros Hs. revert r. induction Hs as [|s shape Hs Hr IH]; intros r Hb.
  { exists []. split; [constructor|]. unfold numel, dot in *. simpl in *. lia. }
  destruct (max_numel _ Hr) as [E Hp].
  destruct (IH (r mod numel shape)) as (idx & Hi & Hd); [apply Z.mod_pos_bound; lia|].
  exists (r / numel shape :: idx). split.
  - constructor; [|done]. split; [apply Z.div_pos; lia|]. apply Z.div_lt_upper_bound; [lia|].
    unfold numel in *. simpl in Hb. lia.
  - unfold dot in *. simpl. rewrite E, Hd. pose proof (Z.div_mod r (numel shape)). lia.
Qed.

(** ** Stride orders *)

Lemma order_index_spec order i k : order_index order i = Ok k -> zget order k = Some i.
Proof.
  unfold order_index. destruct (index_from 0 order i) as [m|] eqn:E; [|done]. intros [= <-].
  apply index_from_Some in E as [_ E]. by rewrite Z.sub_0_r in E.
Qed.

Lemma order_index_total order i : i ∈ order -> exists k, order_index order i = Ok k.
Proof. intros H. unfold order_index. destruct (index_from_elem 0 order i H) as [k ->]. by eexists. Qed.

(** An order that has an index for every dimension is a permutation. *)
Lemma order_perm order dims :
  map_each (order_index order) (zrange 0 (zlen order)) = Ok dims -> order ≡ₚ zrange 0 (zlen order).
Proof.
  intros H%map_each_inv. symmetry. apply submseteq_length_Permutation.
  - apply NoDup_submseteq; [apply NoDup_seqZ|]. intros i [k Hk]%list_elem_of_lookup.
    destruct (Forall2_lookup_l _ _ _ _ _ H Hk) as (d & _ & Hd). by eapply zget_elem, order_index_spec.
  - unfold zrange, zlen. rewrite length_seqZ. lia.
Qed.

Lemma zlen_fmap {A B} (f : A -> B) l : zlen (map f l) = zlen l.
Proof. unfold zlen. by rewrite length_map. Qed.

Lemma znth_map (f : Z -> Z) l k : 0 <= k < zlen l -> znth (map f l) k = f (znth l k).
Proof.
  intros Hk. apply znth_lookup. pose proof (zget_znth l k Hk) as H. unfold zget in *.
  destruct (k <? 0); [done|]. change (map f l) with (f <$> l). by rewrite list_lookup_fmap, H.
Qed.

Lemma zip_map (f g : Z -> Z) l : zip_with Z.mul (map f l) (map g l) = map (fun k => f k * g k) l.
Proof. induction l as [|x l IH]; simpl; [done|]. by rewrite IH. Qed.

Lemma dot_sum a b n : zlen a = n -> zlen b = n ->
  dot a b = zsum (map (fun k => znth a k * znth b k) (zrange 0 n)).
Proof. intros Ha Hb. rewrite <- zip_map. unfold dot. rewrite <- Ha at 1. by rewrite <- Hb, !map_znth_range. Qed.

Section permuted.
Context (order dims : list Z).
Hypothesis Hdims : map_each (order_index order) (zrange 0 (zlen order)) = Ok dims.
Local Abbreviation n := (zlen order).

Lemma dims_spec i : 0 <= i < n -> 0 <= znth dims i < n /\ znth order (znth dims i) = i.
Proof using Hdims.
  intros Hi. apply map_each_inv in Hdims as HF.
  assert (zrange 0 n !! Z.to_nat i = Some i) as Hr.
  { pose proof (zget_zrange 0 n i Hi) as H. unfold zget in H. by destruct (Z.ltb_spec i 0); [lia|]. }
  destruct (Forall2_lookup_l _ _ _ _ _ HF Hr) as (d & Hd & Ho%order_index_spec).
  assert (znth dims i = d) as -> by (apply znth_lookup; unfold zget; by destruct (Z.ltb_spec i 0); [lia|]).
  split; [by apply zget_Some in Ho|by apply znth_lookup].
Qed.

Lemma dims_length : zlen dims = n.
Proof using Hdims.
  apply map_each_inv, Forall2_length in Hdims. unfold zlen, zrange in *. rewrite length_seqZ in Hdims. lia.
Qed.

Lemma dims_in_range : Forall (fun k => 0 <= k < n) dims.
Proof using Hdims.
  apply Forall_forall. intros k [j Hj]%elem_zget. pose proof (zget_Some _ _ _ Hj) as Hjr.
  rewrite dims_length in Hjr. destruct (dims_spec j Hjr) as [Hb _]. by rewrite (znth_lookup _ _ _ Hj) in Hb.
Qed.

Lemma dims_inverse k : 0 <= k < n -> 0 <= znth order k < n /\ znth dims (znth order k) = k.
Proof using Hdims.
  intros Hk. pose proof (order_perm _ _ Hdims) as Hp.
  assert (0 <= znth order k < n) as Ho.
  { pose proof (zget_elem _ _ _ (zget_znth _ _ Hk)) as H. apply (list_elem_of_In _ _), (Permutation_in _ Hp) in H.
    apply list_elem_of_In, elem_zrange in H. lia. }
  split; [done|]. destruct (dims_spec _ Ho) as [Hd E].
  assert (NoDup order) as Hnd by (rewrite Hp; apply NoDup_seqZ).
  pose proof (zget_znth order k Hk) as G1. pose proof (zget_znth order _ Hd) as G2. rewrite E in G2.
  unfold zget in *. destruct (Z.ltb_spec k 0), (Z.ltb_spec (znth dims (znth order k)) 0); try lia.
  pose proof (NoDup_lookup _ _ _ _ Hnd G1 G2). lia.
Qed.

(** Permuting strides is permuting indexes. *)
Lemma dot_permuted idx pstride : zlen idx = n -> zlen pstride = n ->
  dot idx (map (znth pstride) dims) = dot (map (znth idx) order) pstride.
Proof using Hdims.
  intros Hi Hs. rewrite (dot_sum _ _ n), (dot_sum (map _ order) _ n); rewrite ?zlen_fmap; try done; [|apply dims_length].
  rewrite (map_ext_in _ (fun i => znth idx i * znth pstride (znth dims i)) (zrange 0 n)).
  2:{ intros i Hr%list_elem_of_In%elem_zrange. rewrite znth_map; [done|]. rewrite dims_length. lia. }
  rewrite (map_ext_in (fun k => znth (map (znth idx) order) k * znth pstride k)
    (fun k => znth idx (znth order k) * znth pstride (znth dims (znth order k))) (zrange 0 n)).
  2:{ intros k Hr%list_elem_of_In%elem_zrange. rewrite znth_map by lia.
      by destruct (dims_inverse k) as [_ ->]; [lia|]. }
  rewrite <- (map_map (znth order) (fun i => znth idx i * znth pstride (znth dims i))), map_znth_range.
  apply zsum_perm. change (map ?f ?x) with (f <$> x). rewrite (order_perm _ _ Hdims) at 2. done.
Qed.

Lemma permuted_inj idx1 idx2 : zlen idx1 = n -> zlen idx2 = n ->
  map (znth idx1) order = map (znth idx2) order -> idx1 = idx2.
Proof using Hdims.
  intros H1 H2 E. rewrite <- (map_znth_range idx1), <- (map_znth_range idx2), H1, H2.
  apply map_ext_in. intros i Hr%list_elem_of_In%elem_zrange. destruct (dims_spec i) as [Hd Ho]; [lia|].
  rewrite <- Ho, <- !(znth_map _ order) by done. by rewrite E.
Qed.

Lemma permuted_in_shape shape idx : zlen shape = n -> in_shape shape idx ->
  in_shape (map (znth shape) order) (map (znth idx) order).
Proof using Hdims.
  intros Hs Hi. pose proof (Forall2_length _ _ _ Hi) as Hl. unfold in_shape.
  change (map ?f ?x) with (f <$> x). apply Forall2_fmap, Forall_Forall2_diag, Forall_forall.
  intros k Hk. rewrite (order_perm _ _ Hdims) in Hk. apply elem_zrange in Hk.
  assert (zget idx k = Some (znth idx k) /\ zget shape k = Some (znth shape k)) as [G1 G2].
  { split; apply zget_znth; unfold zlen in *; lia. }
  unfold zget in *. destruct (k <? 0); [done|]. by apply (Forall2_lookup_lr _ _ _ _ _ _ Hi G1 G2).
Qed.

Lemma permuted_shape shape : zlen shape = n ->
  map (znth shape) order ≡ₚ shape /\ map (znth (map (znth shape) order)) dims = shape.
Proof using Hdims.
  intros Hs. split.
  - rewrite <- (map_znth_range shape) at 2. change (map ?f ?x) with (f <$> x).
    rewrite Hs. by rewrite (order_perm _ _ Hdims) at 1.
  - rewrite <- (map_znth_range shape) at 2. rewrite Hs, <- (map_znth_range dims), map_map, dims_length.
    apply map_ext_in. intros i Hr%list_elem_of_In%elem_zrange. destruct (dims_spec i) as [Hd Ho]; [lia|].
    rewrite znth_map by done. by rewrite Ho.
Qed.
(** Every physical index comes from a logical one. *)
Lemma permuted_onto shape p : zlen shape = n -> in_shape (map (znth shape) order) p ->
  in_shape shape (map (znth p) dims) /\ map (znth (map (znth p) dims)) order = p.
Proof using Hdims.
  intros Hs Hp. pose proof (Forall2_length _ _ _ Hp) as Hl. rewrite length_map in Hl.
  assert (zlen p = n) as Hpn by (unfold zlen; lia). split.
  - rewrite <- (map_znth_range shape), Hs, <- (map_znth_range dims), map_map, dims_length. unfold in_shape.
    change (map ?f ?x) with (f <$> x). apply Forall2_fmap, Forall_Forall2_diag, Forall_forall.
    intros i Hi%elem_zrange. destruct (dims_spec i) as [Hd Ho]; [lia|].
    pose proof (zget_znth p (znth dims i) ltac:(lia)) as G1.
    pose proof (zget_znth (map (znth shape) order) (znth dims i)) as G2. rewrite zlen_fmap, znth_map, Ho in G2 by done.
    specialize (G2 Hd). unfold zget in *. destruct (_ <? 0); [done|]. by apply (Forall2_lookup_lr _ _ _ _ _ _ Hp G1 G2).
  - rewrite <- (map_znth_range p) at 2. rewrite Hpn, <- (map_znth_range order) at 1. rewrite map_map.
    apply map_ext_in. intros k Hk%list_elem_of_In%elem_zrange. destruct (dims_inverse k) as [Ho Hd]; [lia|].
    rewrite znth_map by (rewrite dims_length; lia). by rewrite Hd.
Qed.
End permuted.

Lemma numel_perm l l' : l ≡ₚ l' -> numel l = numel l'.
Proof. unfold numel. induction 1; simpl; lia. Qed.

Lemma permute_eq base item size stride off dims :
  Forall (fun k => 0 <= k < zlen size) dims -> Forall (fun k => 0 <= k < zlen stride) dims ->
  permute (TensorView base item size stride off) dims =
  Ok (TensorView base item (map (znth size) dims) (map (znth stride) dims) off).
Proof. intros H1 H2. unfold permute. cbn [v_size v_stride]. by rewrite !map_znth. Qed.

(** ** Strided views *)

Lemma as_strided_inv bytes base item size stride offset v :
  as_strided bytes base item size stride offset = Ok v ->
  v = TensorView base item size stride offset /\ zlen size = zlen stride /\ 0 <= offset /\
  Forall (Z.le 0) stride /\ (0 < extent size stride -> (offset + extent size stride) * item <= bytes).
Proof.
  unfold as_strided.
  destruct (Z.eqb_spec (zlen size) (zlen stride)); [|done].
  destruct (existsb _ size); [done|]. destruct (existsb (fun s => s <? 0) stride) eqn:Es; [done|].
  destruct (Z.ltb_spec offset 0); [done|]. cbn [negb orb].
  destruct ((0 <? extent size stride) && _) eqn:Ee; [done|]. intros [= <-]. split_and!; [done..| |].
  - apply Forall_forall. intros s Hs. destruct (Z.ltb_spec s 0); [|done]. exfalso.
    assert (existsb (fun s => s <? 0) stride = true); [|congruence].
    apply existsb_exists. exists s. split; [by apply list_elem_of_In|]. by apply Z.ltb_lt.
  - intros Hp. destruct (Z.ltb_spec 0 (extent size stride)); [|lia]. simpl in Ee.
    by apply Z.ltb_ge in Ee.
Qed.

Lemma dot_extent size stride idx :
  in_shape size idx -> Forall (Z.le 0) stride -> zlen size = zlen stride ->
  0 <= dot idx stride < extent size stride.
Proof.
  intros Hi Hs Hl. unfold extent.
  assert (existsb (Z.eqb 0) size = false) as ->.
  { clear - Hi. induction Hi as [|i s idx size H _ IH]; cbn [existsb]; [done|]. destruct (Z.eqb_spec 0 s); [lia|]. done. }
  assert (0 <= dot idx stride <= zsum (zip_with (fun s st => (s - 1) * st) size stride)); [|lia].
  revert stride Hs Hl. induction Hi as [|i s idx size H _ IH]; intros stride Hs Hl; unfold dot in *; simpl; [done|].
  destruct Hs as [|st stride Hst Hs]; simpl; [unfold zlen in Hl; simpl in Hl; lia|].
  rewrite !zlen_cons in Hl. specialize (IH stride Hs ltac:(lia)). nia.
Qed.

Lemma page_unique b1 b2 x1 x2 stride :
  0 <= x1 < stride -> 0 <= x2 < stride -> b1 * stride + x1 = b2 * stride + x2 -> b1 = b2 /\ x1 = x2.
Proof. intros. assert (b1 = b2) as -> by nia. lia. Qed.

Lemma existsb_neg l : Forall (Z.le 0) l -> existsb (fun s => s <? 0) l = false.
Proof. induction 1 as [|x l Hx _ IH]; cbn [existsb]; [done|]. by destruct (Z.ltb_spec x 0); [lia|]. Qed.

Lemma as_strided_total bytes base item size stride offset :
  zlen size = zlen stride -> Forall (Z.le 0) size -> Forall (Z.le 0) stride -> 0 <= offset ->
  (0 < extent size stride -> (offset + extent size stride) * item <= bytes) ->
  as_strided bytes base item size stride offset = Ok (TensorView base item size stride offset).
Proof.
  intros Hl H1 H2 Ho He. unfold as_strided. rewrite Hl, Z.eqb_refl, !existsb_neg by done.
  destruct (Z.ltb_spec offset 0); [lia|]. cbn [negb orb].
  destruct (Z.ltb_spec 0 (extent size stride)); [|done]. cbn [andb].
  by destruct (Z.ltb_spec bytes ((offset + extent size stride) * item)); [lia|].
Qed.

(** Disjoint slots of one stride give disjoint bytes in every pair of blocks. *)
Lemma pages_disjoint stride o1 p1 o2 p2 b1 b2 x1 x2 w1 w2 :
  0 <= stride -> 0 <= o1 -> 0 <= o2 -> o1 + p1 <= stride -> o2 + p2 <= stride -> o1 + p1 <= o2 \/ o2 + p2 <= o1 ->
  0 <= x1 -> x1 + w1 <= p1 -> 0 <= x2 -> x2 + w2 <= p2 ->
  o1 + b1 * stride + x1 + w1 <= o2 + b2 * stride + x2 \/ o2 + b2 * stride + x2 + w2 <= o1 + b1 * stride + x1.
Proof.
  intros. destruct (Z.lt_trichotomy b1 b2) as [Hb|[->|Hb]]; [left; nia|lia|right; nia].
Qed.

(** The pages of a layer: block [b] of the view starts at [off + b * stride]. *)
Record page_view (v : tensor_view) (raw : nat) (item nb : Z) (rest : list Z) (off stride bytes : Z) : Prop := {
  pv_base : v_base v = raw;
  pv_item : v_item v = item;
  pv_size : v_size v = nb :: rest;
  pv_address : forall b idx, in_shape (nb :: rest) (b :: idx) ->
    exists r, 0 <= r < numel rest /\ byte_address v (b :: idx) = off + b * stride + item * r;
  pv_inj : forall idx1 idx2, in_shape (nb :: rest) idx1 -> in_shape (nb :: rest) idx2 ->
    byte_address v idx1 = byte_address v idx2 -> idx1 = idx2;
  pv_bytes : forall idx, in_shape (nb :: rest) idx -> 0 <= byte_address v idx /\ byte_address v idx + item <= bytes
}.

Section packed_view.
Context (raw : nat) (bytes item nb stride off : Z) (rest o dims : list Z).
Hypothesis Hitem : 0 < item.
Hypothesis Hoff : (item | off).
Hypothesis Hst : (item | stride).
Hypothesis Hlen : zlen (0 :: o) = zlen (nb :: rest).
Hypothesis Hdims : map_each (order_index (0 :: o)) (zrange 0 (zlen (0 :: o))) = Ok dims.
Local Abbreviation pshape := (map (znth (nb :: rest)) (0 :: o)).
Local Abbreviation pstride := (<[0%nat := stride / item]> (contiguous_stride pshape)).

Lemma pshape_rest : map (znth (nb :: rest)) o ≡ₚ rest.
Proof using Hlen Hdims.
  destruct (permuted_shape (0 :: o) dims Hdims (nb :: rest)) as [Hp _]; [done|].
  simpl in Hp. change (znth (nb :: rest) 0) with nb in Hp. by apply Permutation_cons_inv in Hp.
Qed.

Lemma contiguous_length shape : zlen (contiguous_stride shape) = zlen shape.
Proof. unfold zlen. f_equal. induction shape as [|s shape IH]; simpl; [done|]. by f_equal. Qed.

Lemma pstride_cons : pstride = stride / item :: contiguous_stride (map (znth (nb :: rest)) o).
Proof. done. Qed.

Definition packed_view : tensor_view :=
  TensorView raw item (nb :: rest) (map (znth pstride) dims) (off / item).

Lemma packed_dot b idx : in_shape (nb :: rest) (b :: idx) ->
  dot (b :: idx) (map (znth pstride) dims) =
  b * (stride / item) + dot (map (znth (b :: idx)) o) (contiguous_stride (map (znth (nb :: rest)) o)).
Proof using Hlen Hdims.
  intros Hi. pose proof (Forall2_length _ _ _ Hi) as Hl.
  rewrite (dot_permuted (0 :: o) dims Hdims); [done| |].
  - unfold zlen in *. simpl in *. lia.
  - rewrite pstride_cons, zlen_cons, contiguous_length, zlen_fmap, zlen_cons. lia.
Qed.

Lemma permuted_rest b idx : in_shape (nb :: rest) (b :: idx) ->
  in_shape (map (znth (nb :: rest)) o) (map (znth (b :: idx)) o).
Proof using Hlen Hdims.
  intros Hi. pose proof (permuted_in_shape (0 :: o) dims Hdims (nb :: rest) (b :: idx) ltac:(done) Hi) as H.
  by inversion H.
Qed.

Lemma packed_address b idx : in_shape (nb :: rest) (b :: idx) ->
  exists r, r = dot (map (znth (b :: idx)) o) (contiguous_stride (map (znth (nb :: rest)) o)) /\
    0 <= r < numel rest /\ byte_address packed_view (b :: idx) = off + b * stride + item * r.
Proof using Hlen Hdims Hitem Hoff Hst.
  intros Hi. eexists. split; [done|].
  pose proof (contiguous_range _ _ (permuted_rest _ _ Hi)) as Hr. rewrite (numel_perm _ _ pshape_rest) in Hr.
  split; [done|]. unfold byte_address, packed_view. cbn [v_item v_offset v_stride]. rewrite packed_dot by done.
  destruct Hoff as [x ->], Hst as [y ->]. rewrite !Z.div_mul by lia. lia.
Qed.

(** The view reaches every element of a page. *)
Lemma packed_onto b r : Forall (Z.lt 0) rest -> 0 <= b < nb -> 0 <= r < numel rest ->
  exists idx, in_shape (nb :: rest) (b :: idx) /\ byte_address packed_view (b :: idx) = off + b * stride + item * r.
Proof using Hlen Hdims Hitem Hoff Hst.
  intros Hrest Hb Hr. rewrite <- (numel_perm _ _ pshape_rest) in Hr.
  destruct (contiguous_onto (map (znth (nb :: rest)) o) r) as (p & Hp & Hd); [by rewrite pshape_rest|done|].
  destruct (permuted_onto (0 :: o) dims Hdims (nb :: rest) (b :: p)) as [Hin Hback]; [done|by constructor|].
  destruct (map (znth (b :: p)) dims) as [|b' idx]; [by inversion Hin|].
  simpl in Hback. injection Hback as Hb' Hback. change (znth (b' :: idx) 0) with b' in Hb'. subst b'.
  exists idx. split; [done|]. destruct (packed_address b idx Hin) as (r' & Hr' & _ & ->).
  rewrite Hback, Hd in Hr'. by rewrite Hr'.
Qed.

Lemma packed_bytes idx :
  (0 < extent pshape pstride -> (off / item + extent pshape pstride) * item <= bytes) -> 0 <= off ->
  Forall (Z.le 0) pstride -> in_shape (nb :: rest) idx ->
  0 <= byte_address packed_view idx /\ byte_address packed_view idx + item <= bytes.
Proof using Hlen Hdims Hitem Hoff Hst.
  intros Hext Hoff0 Hps Hi.
  assert (in_shape pshape (map (znth idx) (0 :: o))) as Hi' by (by apply (permuted_in_shape (0 :: o) dims Hdims)).
  assert (zlen pshape = zlen pstride) as Hl by (rewrite pstride_cons, zlen_cons, contiguous_length; by rewrite zlen_fmap, zlen_cons, zlen_fmap).
  pose proof (dot_extent _ _ _ Hi' Hps Hl) as He. specialize (Hext ltac:(lia)).
  unfold byte_address, packed_view. cbn [v_item v_offset v_stride].
  rewrite (dot_permuted (0 :: o) dims Hdims); [|apply Forall2_length in Hi; unfold zlen in *; simpl in *; lia
    |rewrite <- Hl, zlen_fmap; done].
  assert (0 <= off / item) by (apply Z.div_pos; lia). nia.
Qed.

Lemma packed_page_view :
  item * numel rest <= stride ->
  (forall idx, in_shape (nb :: rest) idx ->
    0 <= byte_address packed_view idx /\ byte_address packed_view idx + item <= bytes) ->
  page_view packed_view raw item nb rest off stride bytes.
Proof using Hlen Hdims Hitem Hoff Hst.
  intros Hpage Hbytes. split; [done..| | |done].
  - intros b idx Hi. destruct (packed_address b idx Hi) as (r & _ & Hr & E). eauto.
  - intros [|b1 idx1] [|b2 idx2] H1 H2 E; [by inversion H1|by inversion H1|by inversion H2|].
    destruct (packed_address _ _ H1) as (r1 & E1 & B1 & A1), (packed_address _ _ H2) as (r2 & E2 & B2 & A2).
    rewrite A1, A2 in E.
    destruct (page_unique b1 b2 (item * r1) (item * r2) stride) as [<- Er]; [nia|nia|lia|].
    apply Z.mul_reg_l in Er; [|lia]. rewrite Er in E1. rewrite E1 in E2.
    apply contiguous_inj in E2; [|by apply permuted_rest..].
    apply (permuted_inj (0 :: o) dims Hdims); [apply Forall2_length in H1; unfold zlen in *; simpl in *; lia
      |apply Forall2_length in H2; unfold zlen in *; simpl in *; lia|].
    simpl. by f_equal.
Qed.
End packed_view.

(** ** The packed view of a layer *)

Lemma contiguous_nonneg shape : Forall (Z.le 0) (contiguous_stride shape).
Proof.
  induction shape as [|s shape IH]; simpl; constructor; [|done].
  clear. induction shape as [|s shape IH]; simpl; [lia|]. nia.
Qed.

Lemma page_bytes_rest bd i acc l : bd < i -> page_bytes_of bd i acc l = acc * numel l.
Proof.
  unfold numel. revert i acc. induction l as [|x l IH]; intros i acc Hi; simpl; [lia|].
  destruct (Z.eqb_spec i bd); [lia|]. rewrite IH by lia. lia.
Qed.

Lemma contiguous_span shape : Forall (Z.lt 0) shape ->
  zsum (zip_with (fun s st => (s - 1) * st) shape (contiguous_stride shape)) = numel shape - 1.
Proof.
  induction 1 as [|s shape Hs Hr IH]; [done|]. simpl. rewrite IH.
  destruct (max_numel _ Hr) as [-> _].
  unfold numel. simpl. lia.
Qed.

Lemma packed_extent nb prest stride item off :
  0 < item -> 0 <= nb -> Forall (Z.le 0) prest -> (item | stride) -> (item | off) ->
  off + item * numel prest <= stride ->
  let size := nb :: prest in let strides := stride / item :: contiguous_stride prest in
  0 < extent size strides -> (off / item + extent size strides) * item <= nb * stride.
Proof.
  intros Hi Hnb Hp Hs Ho Hpage size strides. unfold extent.
  destruct (existsb (Z.eqb 0) size) eqn:E; [lia|]. intros _.
  assert (Forall (Z.lt 0) size) as Hpos.
  { apply Forall_forall. intros s Hin. assert (0 <= s) by (revert s Hin; apply Forall_forall; by constructor).
    destruct (Z.eq_dec s 0) as [->|]; [|lia]. exfalso.
    assert (existsb (Z.eqb 0) size = true); [|congruence].
    apply existsb_exists. exists 0. split; [by apply list_elem_of_In|done]. }
  apply Forall_cons in Hpos as [Hn Hpos]. subst size strides. cbn [zip_with zsum foldr].
  fold (zsum (zip_with (fun s st => (s - 1) * st) prest (contiguous_stride prest))).
  rewrite contiguous_span by done. destruct Hs as [y ->], Ho as [x ->]. rewrite !Z.div_mul by lia. nia.
Qed.

Section reshape.
Context (raw : nat) (bytes : Z) (t : kv_tensor) (spec : layer_spec) (be : attn_backend) (nb : Z) (cdt : string).
Context (d : torch_dtype) (rest o : list Z).
(** The backend's shape starts with the blocks, and so does its stride order. *)
Hypothesis Hshape : get_kv_cache_shape be nb (default (block_size spec) (storage_block_size spec))
  (num_kv_heads spec) (head_size spec) (layer_cache_dtype spec cdt) = Ok (nb :: rest).
Hypothesis Horder : get_kv_cache_stride_order be = Ok (0 :: o).
Hypothesis Hdtype : dtype spec = Some d.
Local Abbreviation item := (element_size d).
Local Abbreviation stride := (t_block_stride t).
Local Abbreviation off := (t_offset t).

(** A view the code returns addresses pages of the layer. *)
Lemma reshape_page_view v :
  reshape_modern_packed_cache raw bytes t spec be nb cdt = Ok v ->
  page_view v raw item nb rest off stride bytes.
Proof using Hshape Horder Hdtype.
  pose proof (element_size_pos d) as Hitem. unfold reshape_modern_packed_cache.
  destruct ((block_size spec <=? 0) || _); [done|].
  destruct (Z.leb_spec stride 0) as [|Hst]; [done|].
  destruct (Z.eqb_spec (bytes mod stride) 0) as [Hb|]; [|done]. cbn [negb].
  destruct (Z.eqb_spec (bytes / stride) nb) as [Hnb|]; [|done]. cbn [negb]. rewrite Hnb, Hshape, Horder. cbn -[zlen].
  destruct (Z.eqb_spec (zlen (0 :: o)) (zlen (nb :: rest))) as [Hlen|]; [|done]. cbn -[zlen].
  change (py_get (nb :: rest) 0) with (Ok nb).
  destruct (map_each (py_get (nb :: rest)) o) as [pr|] eqn:Epr; [|done]. cbn -[zlen page_bytes_of].
  rewrite Hdtype.
  destruct (Z.eqb_spec (stride mod item) 0) as [Hsi|]; [|done].
  destruct (Z.eqb_spec (off mod item) 0) as [Hoi|]; [|done]. cbn -[zlen page_bytes_of].
  change (page_bytes_of 0 0 item (nb :: pr)) with (page_bytes_of 0 1 item pr). rewrite page_bytes_rest by lia.
  destruct (Z.ltb_spec stride (item * numel pr)) as [|Hpage]; [done|].
  destruct (Z.ltb_spec off 0) as [|Hoff]; [done|]. cbn -[zlen].
  destruct (bytes <? _); [done|]. destruct (_ || existsb _ pr); [done|].
  unfold view_dtype. destruct (bytes mod item =? 0); [|done]. cbn -[zlen].
  destruct (as_strided _ _ _ _ _ _) as [w|] eqn:Ew; [|done]. cbn -[zlen].
  destruct (map_each (order_index (0 :: o)) (zrange 0 (zlen (0 :: o)))) as [dims|] eqn:Ed; [|done]. cbn -[zlen].
  assert (Forall (fun k => 0 <= k < zlen (nb :: rest)) (0 :: o)) as Hrange.
  { apply Forall_forall. intros k Hk. rewrite (order_perm _ _ Ed), elem_zrange in Hk. lia. }
  rewrite map_znth in Epr by (by inversion Hrange). injection Epr as <-.
  apply as_strided_inv in Ew as (-> & Hl & _ & Hnn & Hext).
  destruct (permuted_shape (0 :: o) dims Ed (nb :: rest)) as [_ Hback]; [done|].
  pose proof (dims_in_range _ _ Ed) as Hdr.
  rewrite zlen_cons, zlen_fmap, <- (zlen_cons 0) in Hl.
  rewrite permute_eq; [|by rewrite zlen_cons, zlen_fmap, <- (zlen_cons 0)|by rewrite <- Hl]. intros [= <-].
  change (nb :: map (znth (nb :: rest)) o) with (map (znth (nb :: rest)) (0 :: o)) in *. rewrite Hback.
  rewrite (numel_perm _ _ (pshape_rest nb rest o dims Hlen Ed)) in Hpage.
  assert ((item | off) /\ (item | stride)) as [D1 D2] by (split; by apply Z.mod_divide; [lia|]).
  apply (packed_page_view raw bytes item nb stride off rest o dims); [done..|lia|].
  intros idx. by apply (packed_bytes raw bytes item nb stride off rest o dims).
Qed.
(** The code returns a view for a page that fits its stride. *)
Lemma reshape_total :
  0 < block_size spec -> 0 < default (block_size spec) (storage_block_size spec) ->
  0 < stride -> bytes = nb * stride -> 0 <= nb -> Forall (Z.le 0) rest ->
  0 :: o ≡ₚ zrange 0 (zlen (nb :: rest)) ->
  (item | stride) -> (item | off) -> 0 <= off -> off + item * numel rest <= stride ->
  exists v, reshape_modern_packed_cache raw bytes t spec be nb cdt = Ok v.
Proof using Hshape Horder Hdtype.
  pose proof (element_size_pos d) as Hitem. intros Hbs Hsbs Hst -> Hnb Hrest Hperm Hsi Hoi Hoff Hpage.
  assert (zlen (0 :: o) = zlen (nb :: rest)) as Hlen.
  { unfold zlen. rewrite (Permutation_length Hperm). unfold zrange. rewrite length_seqZ. unfold zlen. lia. }
  assert (Forall (fun k => 0 <= k < zlen (nb :: rest)) (0 :: o)) as Hrange.
  { apply Forall_forall. intros k Hk. rewrite Hperm, elem_zrange in Hk. lia. }
  assert (exists dims, map_each (order_index (0 :: o)) (zrange 0 (zlen (0 :: o))) = Ok dims) as [dims Ed].
  { apply map_each_exists. intros i Hi. apply order_index_total. rewrite Hperm. by rewrite Hlen in Hi. }
  pose proof (pshape_rest nb rest o dims Hlen Ed) as Hpr.
  unfold reshape_modern_packed_cache.
  destruct (Z.leb_spec (block_size spec) 0); [lia|]. destruct (Z.leb_spec (default (block_size spec) (storage_block_size spec)) 0); [lia|]. cbn [orb].
  destruct (Z.leb_spec stride 0); [lia|]. rewrite Z.mod_mul, Z.eqb_refl, Z.div_mul by lia. cbn [negb].
  rewrite Z.eqb_refl, Hshape, Horder. cbn -[zlen]. rewrite Hlen, Z.eqb_refl. cbn -[zlen].
  change (py_get (nb :: rest) 0) with (Ok nb). rewrite map_znth by (by inversion Hrange).
  cbn -[zlen page_bytes_of]. rewrite Hdtype. apply Z.mod_divide in Hsi as Hsi', Hoi as Hoi'; [|lia..].
  rewrite Hsi', Hoi'. cbn -[zlen page_bytes_of].
  change (page_bytes_of 0 0 item (nb :: ?x)) with (page_bytes_of 0 1 item x). rewrite page_bytes_rest by lia.
  rewrite (numel_perm _ _ Hpr). destruct (Z.ltb_spec stride (item * numel rest)); [lia|].
  destruct (Z.ltb_spec off 0); [lia|]. cbn -[zlen].
  destruct (Z.ltb_spec (nb * stride) (off + (nb - 1) * stride + item * numel rest)); [lia|].
  assert (Forall (Z.le 0) (map (znth (nb :: rest)) o)) as Hpos by (by rewrite Hpr).
  destruct (Z.ltb_spec nb 0); [lia|]. rewrite existsb_neg by done. cbn -[zlen].
  unfold view_dtype. rewrite (proj2 (Z.mod_divide (nb * stride) item ltac:(lia))) by (by apply Z.divide_mul_r).
  cbn -[zlen]. change (Z.to_nat 0) with 0%nat. cbn [insert list_insert].
  rewrite as_strided_total; [|by rewrite !zlen_cons, contiguous_length|by constructor
    |constructor; [apply Z.div_pos; lia|apply contiguous_nonneg]|apply Z.div_pos; lia
    |apply packed_extent; [done..|by rewrite (numel_perm _ _ Hpr)]].
  cbn -[zlen]. pose proof (dims_in_range _ _ Ed) as Hdr. rewrite Hlen in Ed, Hdr. rewrite Ed. cbn -[zlen].
  rewrite permute_eq; [by eexists|..]; rewrite zlen_cons, ?contiguous_length, zlen_fmap, <- (zlen_cons 0); by rewrite Hlen.
Qed.
End reshape.

(** ** The flash-attention view *)

Lemma running_contiguous shape :
  Forall (Z.lt 0) shape -> running_strides shape = (contiguous_stride shape, numel shape).
Proof.
  induction 1 as [|s shape Hs Hr IH]; [done|]. simpl. rewrite IH.
  destruct (max_numel _ Hr) as [-> _]. f_equal. unfold numel. simpl. lia.
Qed.

Lemma map_each_bind {A B C} (f : A -> result B) (g : B -> result C) l ks :
  map_each f l = Ok ks -> map_each (fun x => y ← f x; g y) l = map_each g ks.
Proof.
  revert ks. induction l as [|x l IH]; intros ks; simpl; [by intros [= <-]|].
  destruct (f x) as [y|]; [|done]. simpl. destruct (map_each f l) as [ys|]; [|done]. simpl.
  intros [= <-]. simpl. by rewrite (IH ys).
Qed.

Lemma znth_tail a b l k : 0 < k -> znth (a :: l) k = znth (b :: l) k.
Proof. intros Hk. unfold znth. by replace (Z.to_nat k) with (S (Z.to_nat (k - 1))) by lia. Qed.

(** An order that starts with the blocks sends the blocks to the front. *)
Lemma dims_front o dims :
  map_each (order_index (0 :: o)) (zrange 0 (zlen (0 :: o))) = Ok dims ->
  exists dims', dims = 0 :: dims' /\ Forall (Z.lt 0) dims'.
Proof.
  intros H. pose proof (dims_in_range _ _ H) as Hr. pose proof (zlen_nonneg o) as Hlo.
  apply map_each_inv in H. rewrite zlen_cons, zrange_step in H by lia.
  inversion H as [|? d ? dims' Hd0 HF]; subst. injection Hd0 as <-. exists dims'. split; [done|].
  apply Forall_cons in Hr as [_ Hr]. apply Forall_forall. intros k [j Hj]%list_elem_of_lookup.
  destruct (Forall2_lookup_r _ _ _ _ _ HF Hj) as (i & Hi & Ho%order_index_spec).
  apply list_elem_of_lookup_2, elem_zrange in Hi.
  destruct (Z.eq_dec k 0) as [->|]; [injection Ho as Ho; lia|].
  apply list_elem_of_lookup_2 in Hj. rewrite Forall_forall in Hr. specialize (Hr k Hj). lia.
Qed.

Section flash.
Context (bytes : Z) (cache : tensor_view) (bs h hd blocks stride0 : Z) (o srest : list Z).
Hypothesis Hsize : v_size cache = [blocks; h; bs; 2 * hd].
Hypothesis Hstride : v_stride cache = stride0 :: srest.
Hypothesis Hitem : 0 < v_item cache.
Hypothesis Hdim : 0 < bs /\ 0 < h /\ 0 < hd.
Local Abbreviation rest := [2; bs; h; hd].
Local Abbreviation item := (v_item cache).

(** The returned view, in the form of a packed one *)
Lemma flash_view_eq v :
  reshape_hcu_flash_cache bytes cache bs h hd (0 :: o) = Ok v ->
  exists dims, map_each (order_index (0 :: o)) (zrange 0 (zlen (0 :: o))) = Ok dims /\
    zlen (0 :: o) = zlen (blocks :: rest) /\ numel rest <= stride0 /\
    v = packed_view (v_base cache) item blocks (stride0 * item) (v_offset cache * item) rest o dims /\
    Forall (Z.le 0) (v_stride v) /\ zlen (v_size v) = zlen (v_stride v) /\ 0 <= v_offset v /\
    (0 < extent (v_size v) (v_stride v) -> (v_offset v + extent (v_size v) (v_stride v)) * item <= bytes).
Proof using Hsize Hstride Hitem Hdim.
  unfold reshape_hcu_flash_cache. rewrite Hsize, Hstride, bool_decide_eq_true_2 by done. cbn [negb].
  case_bool_decide as Hsort; [|done]. cbn [negb].
  assert (0 :: o ≡ₚ zrange 0 (zlen (blocks :: rest))) as Hperm.
  { rewrite <- Hsort. unfold sorted_list. by rewrite merge_sort_Permutation. }
  assert (zlen (0 :: o) = zlen (blocks :: rest)) as Hlen.
  { unfold zlen. by rewrite (Permutation_length Hperm). }
  assert (Forall (fun k => 0 <= k < zlen (blocks :: rest)) (0 :: o)) as Hrange.
  { apply Forall_forall. intros k Hk. rewrite Hperm, elem_zrange in Hk. lia. }
  destruct (map_each_exists (order_index (0 :: o)) (zrange 0 (zlen (0 :: o)))) as [dims Ed].
  { intros i Hi. apply order_index_total. rewrite Hperm. by rewrite Hlen in Hi. }
  destruct (dims_front _ _ Ed) as (dims' & Edims & Hpos).
  pose proof (pshape_rest blocks rest o dims Hlen Ed) as Hpr.
  assert (Forall (Z.lt 0) rest) as Hrest by (repeat constructor; lia).
  rewrite map_znth by done. cbn [mbind result_bind map]. change (znth (blocks :: rest) 0) with blocks.
  cbn [running_strides]. rewrite running_contiguous by (by rewrite Hpr). cbn [fst].
  rewrite (map_each_bind _ _ _ _ Ed), map_znth.
  2:{ rewrite zlen_cons, contiguous_length, zlen_fmap, <- (zlen_cons 0). apply (dims_in_range _ _ Ed). }
  cbn [mbind result_bind].
  destruct (Z.ltb_spec stride0 (2 * bs * h * hd)) as [|Hpage]; [done|]. intros Hv.
  apply as_strided_inv in Hv as (-> & Hl & Ho & Hnn & Hext). cbn [v_size v_stride v_offset].
  exists dims. split_and!; [done|done|unfold numel; simpl; lia| |done..].
  unfold packed_view. rewrite pstride_cons, !Z.div_mul by lia. f_equal.
  rewrite Edims. simpl. f_equal. apply map_ext_in. intros k Hk%list_elem_of_In.
  rewrite Forall_forall in Hpos. by apply znth_tail, Hpos.
Qed.

Lemma flash_page_view v :
  reshape_hcu_flash_cache bytes cache bs h hd (0 :: o) = Ok v ->
  page_view v (v_base cache) item blocks rest (v_offset cache * item) (stride0 * item) bytes /\
  forall b r, 0 <= b < blocks -> 0 <= r < numel rest ->
    exists idx, in_shape (blocks :: rest) (b :: idx) /\
      byte_address v (b :: idx) = v_offset cache * item + b * (stride0 * item) + item * r.
Proof using Hsize Hstride Hitem Hdim.
  intros (dims & Ed & Hlen & Hpage & Hv & Hnn & Hl & Ho & Hext)%flash_view_eq.
  assert ((item | v_offset cache * item) /\ (item | stride0 * item)) as [D1 D2] by (split; apply Z.divide_factor_r).
  assert (Forall (Z.lt 0) rest) as Hrest by (repeat constructor; lia). split.
  - rewrite Hv. apply packed_page_view; [done..|nia|]. rewrite <- Hv. intros idx Hi.
    assert (v_size v = blocks :: rest /\ v_item v = item) as [Hsz Hit] by (by subst v).
    rewrite <- Hsz in Hi. pose proof (dot_extent _ _ _ Hi Hnn Hl). specialize (Hext ltac:(lia)).
    unfold byte_address. rewrite Hit. nia.
  - intros b r Hb Hr. rewrite Hv. by apply packed_onto.
Qed.
End flash.

(** ** Claims *)

(** C7: a packed view the code returns for a backend whose shape and stride
    order start with the blocks has the backend's shape; block [b] lies in the
    page that starts at the layer's offset plus [b] strides, different
    elements have different addresses, and no element lies outside the byte
    tensor. *)
Theorem packed_view_pages raw bytes t spec be nb cdt d rest o v :
  get_kv_cache_shape be nb (default (block_size spec) (storage_block_size spec))
    (num_kv_heads spec) (head_size spec) (layer_cache_dtype spec cdt) = Ok (nb :: rest) ->
  get_kv_cache_stride_order be = Ok (0 :: o) -> dtype spec = Some d ->
  reshape_modern_packed_cache raw bytes t spec be nb cdt = Ok v ->
  v_base v = raw /\ v_size v = nb :: rest /\
  (forall b idx, in_shape (nb :: rest) (b :: idx) -> exists r, 0 <= r < numel rest /\
     byte_address v (b :: idx) = t_offset t + b * t_block_stride t + element_size d * r) /\
  (forall idx1 idx2, in_shape (nb :: rest) idx1 -> in_shape (nb :: rest) idx2 ->
     byte_address v idx1 = byte_address v idx2 -> idx1 = idx2) /\
  (forall idx, in_shape (nb :: rest) idx -> 0 <= byte_address v idx /\ byte_address v idx + element_size d <= bytes).
Proof.
  intros Hs Ho Hd Hv. destruct (reshape_page_view raw bytes t spec be nb cdt d rest o Hs Ho Hd v Hv). done.
Qed.

Definition mla_backend : attn_backend :=
  AttnBackend "vllm_hcu.v1.attention.backends.mla.flashmla"
    (fun blocks size _ head _ => Ok [blocks; size; head]) (Ok [0; 1; 2]).
Definition view_spec : layer_spec := LayerSpec 32 4 None 1 4 (Some bfloat16) true false None.
Definition view_tensor : kv_tensor := KvTensor 1440 ["l0.attn"]%string 32 144 36 (Some (OtherPool 0)).

Lemma packed_view_pages_witness :
  exists v, reshape_modern_packed_cache 0 1440 view_tensor view_spec mla_backend 10 "auto" = Ok v /\
    exists r, 0 <= r < 16 /\ byte_address v [9; 3; 3] = 36 + 9 * 144 + 2 * r.
Proof.
  destruct (reshape_modern_packed_cache 0 1440 view_tensor view_spec mla_backend 10 "auto") as [v|] eqn:E;
    [|vm_compute in E; discriminate E].
  destruct (packed_view_pages 0 1440 view_tensor view_spec mla_backend 10 "auto" bfloat16 [4; 4] [1; 2] v)
    as (_ & _ & Ha & _); [reflexivity..|exact E|].
  exists v. split; [reflexivity|]. apply (Ha 9 [3; 3]). repeat constructor; lia.
Defined.

(** C8: the flash-attention reinterpretation of an official cache keeps every
    block inside the page of the official view: the elements of block [b] are
    exactly the [2 * block_size * heads * head_size] elements from the start of
    the official block, each reached by exactly one index. *)
Theorem flash_view_bijective bytes cache bs h hd blocks stride0 srest o v :
  v_size cache = [blocks; h; bs; 2 * hd] -> v_stride cache = stride0 :: srest ->
  0 < v_item cache -> 0 < bs /\ 0 < h /\ 0 < hd ->
  reshape_hcu_flash_cache bytes cache bs h hd (0 :: o) = Ok v ->
  let shape := [blocks; 2; bs; h; hd] in
  v_size v = shape /\
  (forall idx1 idx2, in_shape shape idx1 -> in_shape shape idx2 ->
     byte_address v idx1 = byte_address v idx2 -> idx1 = idx2) /\
  (forall b idx, in_shape shape (b :: idx) -> exists r, 0 <= r < 2 * bs * h * hd /\
     byte_address v (b :: idx) = v_item cache * (v_offset cache + b * stride0 + r)) /\
  (forall b r, 0 <= b < blocks -> 0 <= r < 2 * bs * h * hd -> exists idx, in_shape shape (b :: idx) /\
     byte_address v (b :: idx) = v_item cache * (v_offset cache + b * stride0 + r)) /\
  (forall idx, in_shape shape idx -> 0 <= byte_address v idx /\ byte_address v idx + v_item cache <= bytes).
Proof.
  intros Hs Hst Hi Hd Hv shape.
  destruct (flash_page_view bytes cache bs h hd blocks stride0 o srest Hs Hst Hi Hd v Hv) as [[_ _ Hsz Ha Hinj Hb] Honto].
  assert (numel [2; bs; h; hd] = 2 * bs * h * hd) as Hn by (unfold numel; simpl; lia). rewrite Hn in *.
  split_and!; [done|done| | |done].
  - intros b idx Hin. destruct (Ha b idx Hin) as (r & Hr & ->). exists r. split; [done|lia].
  - intros b r Hb' Hr. destruct (Honto b r Hb' Hr) as (idx & Hin & E). exists idx. split; [done|]. rewrite E. lia.
Qed.

Definition official_cache : tensor_view := TensorView 0 2 [3; 2; 4; 6] [48; 24; 6; 1] 5.

Lemma flash_view_bijective_witness :
  exists v, reshape_hcu_flash_cache 300 official_cache 4 2 3 [0; 1; 3; 2; 4] = Ok v /\
    exists idx, in_shape [3; 2; 4; 2; 3] (2 :: idx) /\ byte_address v (2 :: idx) = 2 * (5 + 2 * 48 + 47).
Proof.
  destruct (reshape_hcu_flash_cache 300 official_cache 4 2 3 [0; 1; 3; 2; 4]) as [v|] eqn:E;
    [|vm_compute in E; discriminate E].
  destruct (flash_view_bijective 300 official_cache 4 2 3 3 48 [24; 6; 1] [1; 3; 2; 4] v) as (_ & _ & _ & H & _);
    [reflexivity|reflexivity|reflexivity|lia|exact E|].
  exists v. split; [reflexivity|]. apply (H 2 47); lia.
Defined.
