(* ===== verification/KvAllocCorrect.v ===== *)
(** * Allocation of the cache tensors

    Which descriptors share a byte tensor, and that the allocators of the two
    runners agree. *)

From S2P Require Import Prelude PyString Tensors LayerSplit LayerPacking KvPlanner KvCache.
Import LayerSplit Packing KvPlanner KvCache.
Local Open Scope Z_scope.

Definition is_packed (t : kv_tensor) : Prop := 0 < t_block_stride t.

Definition key_of (t : kv_tensor) : backing_key :=
  match t_backing_id t with
  | None => SinglePacked (t_size t) (t_block_stride t)
  | Some id => PackedBacking id (t_size t) (t_block_stride t)
  end.

(** A descriptor list the allocators accept. *)
Record descriptors_ok (hashable : allocation_id -> bool) (ts : list kv_tensor) : Prop := {
  do_size : forall t, t ∈ ts -> 0 <= t_size t;
  do_layers : forall t, t ∈ ts -> t_layers t <> [];
  do_hash : forall t id, t ∈ ts -> t_backing_id t = Some id -> hashable id = true;
  do_agree : forall t1 t2, t1 ∈ ts -> t2 ∈ ts -> is_packed t1 -> is_packed t2 ->
    t_backing_id t1 = t_backing_id t2 -> t_size t1 = t_size t2 /\ t_block_stride t1 = t_block_stride t2;
  do_single : forall i j t1 t2, ts !! i = Some t1 -> ts !! j = Some t2 -> is_packed t1 -> is_packed t2 ->
    t_backing_id t1 = None -> i = j
}.

(** The last descriptor that names a layer is the [i]-th. *)
Definition last_naming (ts : list kv_tensor) (l : string) (i : nat) (t : kv_tensor) : Prop :=
  ts !! i = Some t /\ l ∈ t_layers t /\ forall j u, (i < j)%nat -> ts !! j = Some u -> l ∉ t_layers u.

(** [bs]: the byte tensor of each descriptor handled so far *)
Record alloc_inv (ts : list kv_tensor) (bs : list nat) (s : alloc_state) : Prop := {
  ai_len : length bs = length ts;
  ai_heap : forall i t b, ts !! i = Some t -> bs !! i = Some b -> heap s !! b = Some (t_size t);
  ai_share : forall i j t u b c, ts !! i = Some t -> ts !! j = Some u -> bs !! i = Some b -> bs !! j = Some c ->
    b = c <-> i = j \/ is_packed t /\ is_packed u /\ t_backing_id t = t_backing_id u;
  ai_used : forall b, (b < length (heap s))%nat -> b ∈ bs;
  ai_layouts : forall i t id, ts !! i = Some t -> is_packed t -> t_backing_id t = Some id ->
    dget (packed_layouts s) id = Some (t_size t, t_block_stride t);
  ai_layouts_from : forall id p, dget (packed_layouts s) id = Some p ->
    exists t, t ∈ ts /\ is_packed t /\ t_backing_id t = Some id /\ p = (t_size t, t_block_stride t);
  ai_keys : forall key b, dget (backing_by_layout s) key = Some b <->
    exists i t, ts !! i = Some t /\ is_packed t /\ key_of t = key /\ bs !! i = Some b
}.

Record layers_inv (ts : list kv_tensor) (bs : list nat) (s : alloc_state) : Prop := {
  ai_layers : forall l i t, last_naming ts l i t ->
    dget (descriptor_by_layer s) l = Some t /\ dget (raw_by_layer s) l = bs !! i;
  ai_only : forall l, l ∈ dkeys (descriptor_by_layer s) -> exists t, t ∈ ts /\ l ∈ t_layers t
}.

Lemma key_of_id t u : key_of t = key_of u -> t_backing_id t = t_backing_id u.
Proof. unfold key_of. destruct (t_backing_id t), (t_backing_id u); intros; by simplify_eq. Qed.

(** Naming the layers of a descriptor leaves the other tables alone. *)
Lemma set_layers_ok t b names s :
  exists s', for_each names (set_layer t b) s = (Ok tt, s') /\
    heap s' = heap s /\ backing_by_layout s' = backing_by_layout s /\ packed_layouts s' = packed_layouts s /\
    raw_by_layer s' = foldl (fun d n => dset d n b) (raw_by_layer s) names /\
    descriptor_by_layer s' = foldl (fun d n => dset d n t) (descriptor_by_layer s) names.
Proof.
  revert s. induction names as [|n names IH]; intros s; [by exists s|].
  simpl. unfold mbind, M_bind, set_layer at 1, modify.
  destruct (IH (AllocState (heap s) (backing_by_layout s) (packed_layouts s) (dset (raw_by_layer s) n b)
    (dset (descriptor_by_layer s) n t))) as (s' & E & H). exists s'. by split.
Qed.

Lemma dget_fold_set {V} (v : V) (names : list string) (d : dict string V) l :
  dget (foldl (fun d n => dset d n v) d names) l = if decide (l ∈ names) then Some v else dget d l.
Proof.
  revert d. induction names as [|n names IH]; intros d; cbn [foldl]; [by rewrite decide_False by apply not_elem_of_nil|].
  rewrite IH, dget_dset.
  destruct (decide (l ∈ names)), (decide (l ∈ n :: names)), (decide (n = l)); try done; set_solver.
Qed.

Lemma dkeys_fold_set {V} (v : V) (names : list string) (d : dict string V) l :
  l ∈ dkeys (foldl (fun d n => dset d n v) d names) -> l ∈ names \/ l ∈ dkeys d.
Proof.
  revert d. induction names as [|n names IH]; intros d; simpl; [by right|].
  intros [H|H]%IH; [left; by right|]. apply dkeys_dset_elem in H as [->|H]; [left; by left|by right].
Qed.

Section step.
Context (hashable : allocation_id -> bool) (ts rest : list kv_tensor) (t : kv_tensor) (bs : list nat).
Hypothesis Hok : descriptors_ok hashable (ts ++ t :: rest).

Lemma snoc_lookup {A} (l : list A) x i y :
  (l ++ [x]) !! i = Some y -> l !! i = Some y /\ (i < length l)%nat \/ i = length l /\ y = x.
Proof.
  rewrite lookup_app_Some. intros [H|[Hi H]]; [left; split; [done|by eapply lookup_lt_Some]|right].
  destruct (i - length l)%nat eqn:E; simpl in H; [|done]. split; [lia|congruence].
Qed.

(** A fresh byte tensor for the next descriptor. *)
Lemma inv_fresh s s' :
  alloc_inv ts bs s -> heap s' = heap s ++ [t_size t] ->
  (is_packed t -> forall i u, ts !! i = Some u -> is_packed u -> t_backing_id u <> t_backing_id t) ->
  (forall id p, dget (packed_layouts s') id = Some p <->
     dget (packed_layouts s) id = Some p \/ is_packed t /\ t_backing_id t = Some id /\ p = (t_size t, t_block_stride t)) ->
  (forall key b, dget (backing_by_layout s') key = Some b <->
     dget (backing_by_layout s) key = Some b \/ is_packed t /\ key_of t = key /\ b = length (heap s)) ->
  alloc_inv (ts ++ [t]) (bs ++ [length (heap s)]) s'.
Proof.
  intros [Hlen Hheap Hshare Hused Hlay Hlayf Hkeys] Hh Hnew HL HK.
  assert (forall i b, bs !! i = Some b -> (b < length (heap s))%nat) as Hlt.
  { intros i b Hb. assert (is_Some (ts !! i)) as [u Hu].
    { apply lookup_lt_is_Some. apply lookup_lt_Some in Hb. lia. }
    by eapply lookup_lt_Some, Hheap. }
  split.
  - rewrite !length_app. simpl. lia.
  - intros i u b [[Hu Hi]|[-> ->]]%snoc_lookup [[Hb Hi']|[E ->]]%snoc_lookup; try lia; rewrite Hh.
    + rewrite lookup_app_l by (by eapply Hlt). by eapply Hheap.
    + by rewrite lookup_app_r, Nat.sub_diag.
  - intros i j u w b c [[Hu Hi]|[-> ->]]%snoc_lookup [[Hw Hj]|[-> ->]]%snoc_lookup
      [[Hb Hi']|[E ->]]%snoc_lookup [[Hc Hj']|[E' ->]]%snoc_lookup; try lia.
    + by eapply Hshare.
    + pose proof (Hlt _ _ Hb). split; [lia|]. intros [->|(P1 & P2 & P3)]; [lia|]. by destruct (Hnew P2 i u Hu P1).
    + pose proof (Hlt _ _ Hc). split; [lia|]. intros [<-|(P1 & P2 & P3)]; [lia|]. by destruct (Hnew P1 j w Hw P2).
  - intros b. rewrite Hh, length_app. simpl. intros Hb. apply elem_of_app.
    destruct (decide (b = length (heap s))) as [->|]; [right; by left|left; apply Hused; lia].
  - intros i u id [[Hu Hi]|[-> ->]]%snoc_lookup Hp Hid; apply HL; [left; by eapply Hlay|right; done].
  - intros id p [(u & ? & ? & ? & ?)%Hlayf|(? & ? & ?)]%HL; [exists u|exists t]; set_solver.
  - intros key b. rewrite HK, Hkeys. split.
    + intros [(i & u & Hu & Hp & Hk & Hb)|(Hp & Hk & ->)].
      * exists i, u. split_and!; [by apply lookup_app_l_Some|done|done|by apply lookup_app_l_Some].
      * exists (length ts), t. split_and!; [by rewrite lookup_app_r, Nat.sub_diag|done|done|].
        by rewrite lookup_app_r, Hlen, Nat.sub_diag by lia.
    + intros (i & u & [[Hu Hi]|[-> ->]]%snoc_lookup & Hp & Hk & [[Hb Hi']|[E ->]]%snoc_lookup); try lia;
        [left; eauto 10|by right].
Qed.

(** The byte tensor of an earlier descriptor for the next one. *)
Lemma inv_reuse s s' i0 u0 b0 :
  alloc_inv ts bs s -> heap s' = heap s -> backing_by_layout s' = backing_by_layout s ->
  (forall id p, dget (packed_layouts s') id = Some p <->
     dget (packed_layouts s) id = Some p \/ t_backing_id t = Some id /\ p = (t_size t, t_block_stride t)) ->
  is_packed t -> ts !! i0 = Some u0 -> is_packed u0 -> key_of u0 = key_of t -> bs !! i0 = Some b0 ->
  alloc_inv (ts ++ [t]) (bs ++ [b0]) s'.
Proof.
  intros [Hlen Hheap Hshare Hused Hlay Hlayf Hkeys] Hh HK HL Hpt Hu0 Hp0 Hkey Hb0.
  pose proof (key_of_id _ _ Hkey) as Hid.
  assert (t_size u0 = t_size t) as Hsz.
  { revert Hkey. unfold key_of. rewrite Hid. destruct (t_backing_id t); intros; by simplify_eq. }
  assert (forall j w c, ts !! j = Some w -> bs !! j = Some c ->
    b0 = c <-> is_packed w /\ t_backing_id t = t_backing_id w) as Hsame.
  { intros j w c Hw Hc. rewrite (Hshare i0 j u0 w b0 c Hu0 Hw Hb0 Hc), Hid. split.
    - intros [->|(? & ? & ?)]; [|done]. rewrite Hu0 in Hw. by injection Hw as <-.
    - intros [? ?]. by right. }
  split.
  - rewrite !length_app. simpl. lia.
  - intros i u b [[Hu Hi]|[-> ->]]%snoc_lookup [[Hb Hi']|[E ->]]%snoc_lookup; try lia; rewrite Hh; [by eapply Hheap|].
    rewrite <- Hsz. by eapply Hheap.
  - intros i j u w b c [[Hu Hi]|[-> ->]]%snoc_lookup [[Hw Hj]|[-> ->]]%snoc_lookup
      [[Hb Hi']|[E ->]]%snoc_lookup [[Hc Hj']|[E' ->]]%snoc_lookup; try lia.
    + by eapply Hshare.
    + pose proof (Hsame i u b Hu Hb) as H. split.
      * intros Eb. right. destruct (proj1 H (eq_sym Eb)). done.
      * intros [->|(P1 & P2 & P3)]; [lia|]. symmetry. by apply H.
    + pose proof (Hsame j w c Hw Hc) as H. split.
      * intros Eb. right. destruct (proj1 H Eb). done.
      * intros [<-|(P1 & P2 & P3)]; [lia|]. by apply H.
  - intros b. rewrite Hh. intros Hb. apply elem_of_app. left. by apply Hused.
  - intros i u id [[Hu Hi]|[-> ->]]%snoc_lookup Hp Hid'; apply HL; [left; by eapply Hlay|right; done].
  - intros id p [(u & ? & ? & ? & ?)%Hlayf|(? & ?)]%HL; [exists u|exists t]; set_solver.
  - intros key b. rewrite HK, Hkeys. split.
    + intros (i & u & Hu & Hp & Hk & Hb).
      exists i, u. split_and!; [by apply lookup_app_l_Some|done|done|by apply lookup_app_l_Some].
    + intros (i & u & [[Hu Hi]|[-> ->]]%snoc_lookup & Hp & Hk & [[Hb Hi']|[E ->]]%snoc_lookup); try lia; [eauto 10|].
      exists i0, u0. split_and!; [done|done|congruence|done].
Qed.
Lemma t_elem : t ∈ ts ++ t :: rest.
Proof. apply elem_of_app. right. by left. Qed.

(** Layouts already recorded agree with the next descriptor. *)
Lemma layout_agrees s id p :
  alloc_inv ts bs s -> is_packed t -> t_backing_id t = Some id -> dget (packed_layouts s) id = Some p ->
  p = (t_size t, t_block_stride t).
Proof using Hok.
  intros [_ _ _ _ _ Hlayf _] Hp Hid (u & Hu & Hpu & Hidu & ->)%Hlayf.
  destruct (do_agree _ _ Hok u t) as [-> ->]; [apply elem_of_app; by left|apply t_elem|done|done|congruence|done].
Qed.

Lemma packed_key_ok s :
  alloc_inv ts bs s -> is_packed t ->
  exists s', packed_key hashable t s = (Ok (key_of t), s') /\ heap s' = heap s /\
    backing_by_layout s' = backing_by_layout s /\ raw_by_layer s' = raw_by_layer s /\
    descriptor_by_layer s' = descriptor_by_layer s /\
    forall id p, dget (packed_layouts s') id = Some p <->
      dget (packed_layouts s) id = Some p \/ t_backing_id t = Some id /\ p = (t_size t, t_block_stride t).
Proof using Hok.
  intros Hinv Hp. unfold packed_key, key_of. destruct (t_backing_id t) as [id|] eqn:Hid.
  2:{ exists s. split_and!; [done..|]. intros. split; [by left|]. by intros [?|[? ?]]. }
  rewrite (do_hash _ _ Hok t id t_elem Hid). cbn [negb]. unfold mbind, M_bind, get_state.
  assert (match dget (packed_layouts s) id with Some p => p = (t_size t, t_block_stride t) | None => True end) as Hl.
  { destruct (dget (packed_layouts s) id) as [p|] eqn:E; [|done]. by eapply layout_agrees. }
  set (s' := AllocState (heap s) (backing_by_layout s)
    (dset (packed_layouts s) id (t_size t, t_block_stride t)) (raw_by_layer s) (descriptor_by_layer s)).
  exists s'. split.
  { destruct (dget (packed_layouts s) id) as [p|]; [|done]. by rewrite bool_decide_eq_true_2. }
  split_and!; [done..|]. intros id' p. subst s'. cbn [packed_layouts]. rewrite dget_dset. case_decide as E.
  - subst id'. split; [intros [= <-]; by right|]. intros [H|[_ ->]]; [|done]. rewrite H in Hl. by rewrite Hl.
  - split; [by left|]. intros [H|[H _]]; [done|congruence].
Qed.

Lemma backing_for_ok s :
  alloc_inv ts bs s ->
  exists b s', backing_for hashable t s = (Ok b, s') /\ alloc_inv (ts ++ [t]) (bs ++ [b]) s' /\
    raw_by_layer s' = raw_by_layer s /\ descriptor_by_layer s' = descriptor_by_layer s.
Proof using Hok.
  intros Hinv. assert (0 <= t_size t) as Hsz by (apply (do_size _ _ Hok), t_elem). unfold backing_for, is_packed.
  assert (forall s0, zeros (t_size t) s0 = (Ok (length (heap s0)), AllocState (heap s0 ++ [t_size t])
    (backing_by_layout s0) (packed_layouts s0) (raw_by_layer s0) (descriptor_by_layer s0))) as Hz.
  { intros s0. unfold zeros. by destruct (Z.ltb_spec (t_size t) 0); [lia|]. }
  destruct (Z.ltb_spec 0 (t_block_stride t)) as [Hp|Hp].
  2:{ rewrite Hz. do 2 eexists. split; [done|]. split_and!; [|done..].
      apply (inv_fresh s); [done|done|unfold is_packed; lia| |];
        intros; cbn; unfold is_packed; (split; [by left|]); intros [?|(? & _)]; [done|lia|done|lia]. }
  destruct (packed_key_ok s Hinv Hp) as (s1 & E1 & Hh & Hb & Hr & Hd & HL).
  unfold mbind, M_bind, get_state. rewrite E1, Hb.
  destruct (dget (backing_by_layout s) (key_of t)) as [b|] eqn:Ek.
  - apply (ai_keys _ _ _ Hinv) in Ek as (i & u & Hu & Hpu & Hk & Hbi).
    exists b, s1. split_and!; [done| |done|done]. by eapply inv_reuse.
  - rewrite Hz. unfold set_backing, modify, mret, M_ret. do 2 eexists. split; [done|]. cbn. split_and!; [|done|done].
    rewrite Hh. eapply inv_fresh; [done|done| | |].
    + intros _ i u Hu Hpu Hid. destruct (t_backing_id t) as [id|] eqn:Et.
      * destruct (do_agree _ _ Hok u t) as [Hs1 Hs2];
          [apply elem_of_app; left; by eapply list_elem_of_lookup_2|apply t_elem|done|done|congruence|].
        assert (is_Some (bs !! i)) as [c Hc].
        { apply lookup_lt_is_Some. rewrite (ai_len _ _ _ Hinv). by eapply lookup_lt_Some. }
        assert (dget (backing_by_layout s) (key_of t) = Some c); [|congruence].
        apply (ai_keys _ _ _ Hinv). exists i, u. split_and!; [done|done| |done].
        unfold key_of. by rewrite Hid, Et, Hs1, Hs2.
      * assert (i = length ts); [|apply lookup_lt_Some in Hu; lia].
        eapply (do_single _ _ Hok i (length ts) u t); [by apply lookup_app_l_Some| |done|done|done].
        by rewrite lookup_app_r, Nat.sub_diag.
    + intros id p. cbn. rewrite HL. unfold is_packed. naive_solver lia.
    + intros key b. cbn. rewrite dget_dset. rewrite Hb. case_decide as E.
      * subst key. rewrite Ek. unfold is_packed. naive_solver lia.
      * unfold is_packed. naive_solver.
Qed.
End step.

(** A descriptor that names layers binds them to its byte tensor. *)
Lemma allocate_descriptor_eq hashable t s :
  t_layers t <> [] ->
  (forall e s1, backing_for hashable t s = (Err e, s1) -> allocate_descriptor hashable t s = (Err e, s1)) /\
  (forall b s1, backing_for hashable t s = (Ok b, s1) ->
     exists s2, allocate_descriptor hashable t s = (Ok tt, s2) /\ heap s2 = heap s1 /\
       backing_by_layout s2 = backing_by_layout s1 /\ packed_layouts s2 = packed_layouts s1 /\
       raw_by_layer s2 = foldl (fun d n => dset d n b) (raw_by_layer s1) (t_layers t) /\
       descriptor_by_layer s2 = foldl (fun d n => dset d n t) (descriptor_by_layer s1) (t_layers t)).
Proof.
  intros Hne. unfold allocate_descriptor, mbind, M_bind, lift, cache_tensor_layers. split.
  - by intros e s1 ->.
  - intros b s1 ->. destruct (set_layers_ok t b (t_layers t) s1) as (s2 & E & H).
    exists s2. destruct (t_layers t); [done|]. by split.
Qed.

Lemma last_naming_snoc ts t l i u :
  last_naming (ts ++ [t]) l i u ->
  (l ∈ t_layers t /\ i = length ts /\ u = t) \/ ((l ∉ t_layers t) /\ (i < length ts)%nat /\ last_naming ts l i u).
Proof.
  intros (Hi & Hl & Hlast). apply snoc_lookup in Hi as [[Hi Hlt]|[-> ->]]; [right|by left].
  split_and!; [|done|].
  - apply (Hlast (length ts) t); [done|]. by rewrite lookup_app_r, Nat.sub_diag.
  - split_and!; [done..|]. intros j w Hj Hw. apply (Hlast j w Hj). by apply lookup_app_l_Some.
Qed.

Lemma allocate_descriptors_ok hashable ts rest bs s :
  descriptors_ok hashable (ts ++ rest) -> alloc_inv ts bs s -> layers_inv ts bs s ->
  exists bs' s', for_each rest (allocate_descriptor hashable) s = (Ok tt, s') /\
    alloc_inv (ts ++ rest) bs' s' /\ layers_inv (ts ++ rest) bs' s'.
Proof.
  revert ts bs s. induction rest as [|t rest IH]; intros ts bs s Hok Ha Hl.
  { exists bs, s. rewrite app_nil_r. done. }
  destruct (backing_for_ok hashable ts rest t bs Hok s Ha) as (b & s1 & E1 & Ha1 & Hr1 & Hd1).
  assert (t_layers t <> []) as Hne by (apply (do_layers _ _ Hok), t_elem).
  destruct (proj2 (allocate_descriptor_eq hashable t s Hne) b s1 E1) as (s2 & Hstep & Hh2 & Hb2 & Hp2 & Hr2 & Hd2).
  assert (alloc_inv (ts ++ [t]) (bs ++ [b]) s2) as Ha2.
  { destruct Ha1. split; rewrite ?Hh2, ?Hb2, ?Hp2; done. }
  assert (layers_inv (ts ++ [t]) (bs ++ [b]) s2) as Hl2.
  { split.
    - intros l i u Hn. rewrite Hd2, Hr2, !dget_fold_set, Hd1, Hr1.
      destruct (last_naming_snoc _ _ _ _ _ Hn) as [(Hin & -> & ->)|(Hni & Hi & Hn')].
      + rewrite !decide_True by done. rewrite <- (ai_len _ _ _ Ha). by rewrite lookup_app_r, Nat.sub_diag.
      + rewrite !decide_False by done. destruct (ai_layers _ _ _ Hl l i u Hn') as [-> ->].
        rewrite lookup_app_l by (rewrite (ai_len _ _ _ Ha); done). done.
    - intros l. rewrite Hd2, Hd1. intros [H|(u & Hu & Hlu)%(ai_only _ _ _ Hl)]%dkeys_fold_set.
      + exists t. split; [apply elem_of_app; right; by left|done].
      + exists u. split; [apply elem_of_app; by left|done]. }
  destruct (IH (ts ++ [t]) (bs ++ [b]) s2) as (bs' & s' & E & Hfin); [by rewrite <- (assoc_L (++))|done..|].
  exists bs', s'. rewrite <- (assoc_L (++)) in Hfin. split; [|exact Hfin].
  cbn [for_each]. unfold mbind, M_bind. by rewrite Hstep.
Qed.

Lemma empty_inv : alloc_inv [] [] empty_alloc /\ layers_inv [] [] empty_alloc.
Proof.
  split; split; cbn; intros; try done; try lia.
  - split; [done|]. by intros (i & t & ? & _).
  - by destruct H as (? & _).
  - by apply not_elem_of_nil in H.
Qed.

(** An accepted configuration is allocated. *)
Lemma allocate_total hashable cfg :
  descriptors_ok hashable (kv_cache_tensors cfg) -> ids_ambiguous cfg = false ->
  exists bs s, allocate_modern_raw_kv_cache hashable cfg empty_alloc = (Ok tt, s) /\
    alloc_inv (kv_cache_tensors cfg) bs s /\ layers_inv (kv_cache_tensors cfg) bs s.
Proof.
  intros Hok Hid. unfold allocate_modern_raw_kv_cache. rewrite Hid. destruct empty_inv as [H1 H2].
  by apply (allocate_descriptors_ok hashable [] (kv_cache_tensors cfg) [] empty_alloc).
Qed.

Lemma filter_two {A} (P : A -> Prop) `{forall x, Decision (P x)} (l : list A) i j a b :
  (i < j)%nat -> l !! i = Some a -> l !! j = Some b -> P a -> P b -> (2 <= length (filter P l))%nat.
Proof.
  intros Hij Ha Hb Pa Pb. rewrite <- (take_drop_middle l i a Ha), filter_app, filter_cons_True by done.
  assert (b ∈ filter P (drop (S i) l)) as Hin.
  { apply list_elem_of_filter. split; [done|]. apply list_elem_of_lookup. exists (j - S i)%nat.
    rewrite lookup_drop. by replace (S i + (j - S i))%nat with j by lia. }
  rewrite length_app. simpl. destruct (filter P (drop (S i) l)); [by apply not_elem_of_nil in Hin|simpl; lia].
Qed.

Lemma not_ambiguous_single cfg i j t1 t2 :
  ids_ambiguous cfg = false -> kv_cache_tensors cfg !! i = Some t1 -> kv_cache_tensors cfg !! j = Some t2 ->
  is_packed t1 -> is_packed t2 -> t_backing_id t1 = None -> i = j.
Proof.
  unfold ids_ambiguous, is_packed. intros Hid H1 H2 P1 P2 Hn.
  set (packed := filter (fun t => 0 < t_block_stride t) (kv_cache_tensors cfg)) in Hid.
  assert (existsb (fun id => bool_decide (id = None)) (map t_backing_id packed) = true) as He.
  { apply existsb_exists. exists None. split; [|done]. rewrite <- Hn. apply in_map, list_elem_of_In.
    apply list_elem_of_filter. split; [done|by eapply list_elem_of_lookup_2]. }
  rewrite He in Hid. cbn [andb] in Hid. apply orb_false_iff in Hid as [Hlen _]. apply Z.ltb_ge in Hlen.
  unfold zlen in Hlen. destruct (Nat.lt_trichotomy i j) as [Hlt|[->|Hlt]]; [|done|]; exfalso.
  - pose proof (filter_two (fun t => 0 < t_block_stride t) _ _ _ _ _ Hlt H1 H2 P1 P2). fold packed in H. lia.
  - pose proof (filter_two (fun t => 0 < t_block_stride t) _ _ _ _ _ Hlt H2 H1 P2 P1). fold packed in H. lia.
Qed.

(** C9: a configuration whose packed descriptors agree wherever they name the
    same allocation is allocated without an exception.  Every layer is bound to
    the last descriptor that names it and to a byte tensor of that
    descriptor's size; two descriptors use one byte tensor exactly when they
    are the same descriptor or packed ones with the same identity, and every
    byte tensor is used. *)
Theorem backings_shared hashable cfg :
  (forall t, t ∈ kv_cache_tensors cfg -> 0 <= t_size t /\ t_layers t <> [] /\
     forall id, t_backing_id t = Some id -> hashable id = true) ->
  (forall t1 t2, t1 ∈ kv_cache_tensors cfg -> t2 ∈ kv_cache_tensors cfg -> is_packed t1 -> is_packed t2 ->
     t_backing_id t1 = t_backing_id t2 -> t_size t1 = t_size t2 /\ t_block_stride t1 = t_block_stride t2) ->
  ids_ambiguous cfg = false ->
  exists s (bs : list nat), allocate_modern_raw_kv_cache hashable cfg empty_alloc = (Ok tt, s) /\
    length bs = length (kv_cache_tensors cfg) /\
    (forall l i t, last_naming (kv_cache_tensors cfg) l i t ->
       dget (descriptor_by_layer s) l = Some t /\
       exists b, bs !! i = Some b /\ dget (raw_by_layer s) l = Some b /\ heap s !! b = Some (t_size t)) /\
    (forall i j t u b c, kv_cache_tensors cfg !! i = Some t -> kv_cache_tensors cfg !! j = Some u ->
       bs !! i = Some b -> bs !! j = Some c ->
       b = c <-> i = j \/ is_packed t /\ is_packed u /\ t_backing_id t = t_backing_id u) /\
    (forall b, (b < length (heap s))%nat -> b ∈ bs).
Proof.
  intros H1 H2 Hid.
  assert (descriptors_ok hashable (kv_cache_tensors cfg)) as Hok.
  { split; [apply H1|apply H1|intros t id Ht; by apply H1|done|]. intros i j t1 t2. by apply not_ambiguous_single. }
  destruct (allocate_total hashable cfg Hok Hid) as (bs & s & E & Ha & Hl).
  exists s, bs. split_and!; [done|apply (ai_len _ _ _ Ha)| |apply (ai_share _ _ _ Ha)|apply (ai_used _ _ _ Ha)].
  intros l i t Hn. destruct (ai_layers _ _ _ Hl l i t Hn) as [Hd Hr]. split; [done|]. destruct Hn as (Hi & _).
  assert (is_Some (bs !! i)) as [b Hb].
  { apply lookup_lt_is_Some. rewrite (ai_len _ _ _ Ha). by eapply lookup_lt_Some. }
  exists b. rewrite Hr. split_and!; [done..|]. by eapply (ai_heap _ _ _ Ha).
Qed.

Definition alloc_demo : KVCacheConfig :=
  CacheConfig 2 []
    [KvTensor 60 ["a"] 10 30 0 (Some (OtherPool 1)); KvTensor 60 ["b"] 10 30 10 (Some (OtherPool 1));
     KvTensor 60 ["c"] 10 30 0 (Some (OtherPool 2)); KvTensor 60 ["d"] 0 0 0 None; KvTensor 60 ["e"] 0 0 0 None]%string
    false.

Lemma backings_shared_witness :
  exists s (bs : list nat), allocate_modern_raw_kv_cache (fun _ => true) alloc_demo empty_alloc = (Ok tt, s) /\
    length bs = 5%nat /\ heap s = [60; 60; 60; 60] /\
    (forall b c, bs !! 0%nat = Some b -> bs !! 1%nat = Some c -> b = c) /\
    (forall b c, bs !! 0%nat = Some b -> bs !! 2%nat = Some c -> b <> c).
Proof.
  destruct (backings_shared (fun _ => true) alloc_demo) as (s & bs & E & Hl & _ & Hs & _).
  - intros t Ht. cbn in Ht. repeat (apply elem_of_cons in Ht as [->|Ht]; [split; [cbn; lia|done]|]).
    by apply not_elem_of_nil in Ht.
  - intros t1 t2 H1 H2. cbn in H1, H2. unfold is_packed.
    repeat (apply elem_of_cons in H1 as [->|H1];
      [repeat (apply elem_of_cons in H2 as [->|H2]; [cbn; intros; first [lia|split; reflexivity|discriminate]|]);
       by apply not_elem_of_nil in H2|]).
    by apply not_elem_of_nil in H1.
  - reflexivity.
  - exists s, bs. split; [exact E|]. split; [exact Hl|]. split.
    + vm_compute in E. injection E as <-. reflexivity.
    + split; intros b c Hb Hc.
      * apply (Hs 0%nat 1%nat _ _ b c eq_refl eq_refl Hb Hc). right. split_and!; reflexivity.
      * intros Ebc. apply (Hs 0%nat 2%nat _ _ b c eq_refl eq_refl Hb Hc) in Ebc as [Ebc|(_ & _ & Ebc)]; discriminate Ebc.
Defined.

(** ** The older runner *)

(** The tables the two allocators share *)
Record same_tables (s : alloc_state) (r : runner_alloc) : Prop := {
  st_heap : heap s = r_heap r;
  st_backings : backing_by_layout s = packed_backings r;
  st_layouts : packed_layouts s = r_packed_layouts r;
  st_raw : raw_by_layer s = kv_cache_raw_tensors r
}.

(** One descriptor: the same byte tensor, or an exception of the same class *)
Lemma runner_tensor_same hashable s r t :
  same_tables s r ->
  match backing_for hashable t s, runner_tensor hashable r t with
  | (Ok b, s'), Ok (b', r') => b = b' /\ same_tables s' r'
  | (Err e, _), Err e' => exn_type e = exn_type e'
  | _, _ => False
  end.
Proof.
  intros [Hh Hb Hl Hr]. unfold backing_for, runner_tensor, packed_key, zeros.
  destruct (0 <? t_block_stride t).
  2:{ destruct (t_size t <? 0); [done|]. rewrite <- Hh. by split; [|split; cbn; congruence]. }
  unfold mbind, M_bind, get_state, set_layout, set_backing, modify, raise, mret, M_ret.
  destruct (t_backing_id t) as [id|].
  - destruct (hashable id); cbn [negb]; [|done]. rewrite <- Hl.
    destruct (dget (packed_layouts s) id) as [p|] eqn:Ep.
    + case_bool_decide; cbn [negb]; [|done]. cbn. rewrite <- Hb.
      destruct (dget (backing_by_layout s) _); [by split; [|split; cbn; congruence]|].
      cbn. destruct (t_size t <? 0); [done|]. cbn. rewrite <- Hh. by split; [|split; cbn; congruence].
    + cbn. rewrite <- Hb.
      destruct (dget (backing_by_layout s) _); [by split; [|split; cbn; congruence]|].
      cbn. destruct (t_size t <? 0); [done|]. cbn. rewrite <- Hh. by split; [|split; cbn; congruence].
  - cbn. rewrite <- Hb.
    destruct (dget (backing_by_layout s) _); [by split; [|split; cbn; congruence]|].
    destruct (t_size t <? 0); [done|]. cbn. rewrite <- Hh. by split; [|split; cbn; congruence].
Qed.

Lemma runner_tensors_same hashable ts s r :
  Forall (fun t => t_layers t <> []) ts -> same_tables s r ->
  match for_each ts (allocate_descriptor hashable) s, runner_tensors hashable r ts with
  | (Ok _, s'), Ok r' => same_tables s' r'
  | (Err e, _), Err e' => exn_type e = exn_type e'
  | _, _ => False
  end.
Proof.
  intros Hne. revert s r. induction Hne as [|t ts Ht _ IH]; intros s r Hs; [done|].
  cbn [for_each runner_tensors]. pose proof (runner_tensor_same hashable s r t Hs) as Hstep.
  destruct (allocate_descriptor_eq hashable t s Ht) as [Eerr Eok]. unfold mbind at 1, M_bind at 1.
  destruct (backing_for hashable t s) as [[b|e] s1], (runner_tensor hashable r t) as [[b' r1]|e']; try done.
  2:{ by rewrite (Eerr e s1). }
  destruct Hstep as [<- Hs1]. destruct (Eok b s1 eq_refl) as (s2 & -> & Hh & Hb & Hp & Hr & _). cbn [mbind result_bind].
  apply IH. destruct Hs1. split; cbn [r_heap packed_backings r_packed_layouts kv_cache_raw_tensors]; congruence.
Qed.

(** C28: the allocator of the older runner against the modern one, when every
    descriptor names a layer.  When the modern one allocates and the layers it
    binds are those of the cache groups, the older one allocates the same tensors
    and binds the layers to the same ones; when they are not, the older one
    raises AssertionError, a check the modern one does not make; when the modern
    one fails, the older one fails with an exception of the same class. *)
Theorem runner_allocates_alike hashable runner_only cfg :
  Forall (fun t => t_layers t <> []) (kv_cache_tensors cfg) ->
  let names : gset string :=
    list_to_set (filter (fun n => n ∉ runner_only) (concat (map g_layer_names (kv_cache_groups cfg)))) in
  match allocate_modern_raw_kv_cache hashable cfg empty_alloc with
  | (Ok _, s) =>
      if bool_decide (names = list_to_set (dkeys (raw_by_layer s)))
      then exists r, allocate_kv_cache_tensors hashable runner_only cfg = Ok r /\
             r_heap r = heap s /\ kv_cache_raw_tensors r = raw_by_layer s
      else raises AssertionError (allocate_kv_cache_tensors hashable runner_only cfg)
  | (Err e, _) => raises (exn_type e) (allocate_kv_cache_tensors hashable runner_only cfg)
  end.
Proof.
  intros Hne names. unfold allocate_modern_raw_kv_cache, allocate_kv_cache_tensors.
  destruct (ids_ambiguous cfg); [by eexists|].
  pose proof (runner_tensors_same hashable _ empty_alloc (RunnerAlloc [] [] [] []) Hne) as H.
  destruct (for_each _ _ empty_alloc) as [[u|e] s], (runner_tensors _ _ _) as [r|e']; try (by destruct H; split).
  - destruct H as [Hh _ _ Hr]; [by split|]. cbn [mbind result_bind]. fold names. rewrite Hr.
    case_bool_decide; [|by eexists]. exists r. done.
  - cbn [mbind result_bind]. rewrite H by (by split). destruct e'. by eexists.
Qed.

Definition runner_demo : KVCacheConfig :=
  CacheConfig 2 [CacheGroup (LayerSpec 10 1 None 1 1 None true false None) None ["a"; "b"; "c"; "d"; "e"; "z"]]%string
    (kv_cache_tensors alloc_demo) false.

Lemma runner_allocates_alike_witness :
  exists r, allocate_kv_cache_tensors (fun _ => true) ["z"]%string runner_demo = Ok r /\
    r_heap r = [60; 60; 60; 60].
Proof.
  pose proof (runner_allocates_alike (fun _ => true) ["z"]%string runner_demo) as H.
  assert (Forall (fun t => t_layers t <> []) (kv_cache_tensors runner_demo)) as Hne by (repeat constructor; discriminate).
  specialize (H Hne). cbv zeta in H.
  destruct (allocate_modern_raw_kv_cache (fun _ => true) runner_demo empty_alloc) as [o s] eqn:E.
  assert (o = Ok tt /\ heap s = [60; 60; 60; 60] /\ dkeys (raw_by_layer s) = ["a"; "b"; "c"; "d"; "e"]%string) as (Ho & Hh & Hk)
    by (vm_compute in E; injection E as <- <-; split_and!; reflexivity).
  rewrite Ho, Hk in H. rewrite bool_decide_eq_true_2 in H.
  - destruct H as (r & Er & Hr & _). exists r. split; [exact Er|by rewrite Hr].
  - vm_compute. reflexivity.
Defined.
