(* ===== verification/KvPipelineCorrect.v ===== *)
(** * From the plan to the views

    The whole path of the split caches: the planner's packed plan, the rewrite
    of a worker, the allocation and the views of the attention backends.  It
    ends without an exception, in one byte tensor, and the elements of a layer
    the rank keeps share no byte with another layer's. *)

From S2P Require Import Prelude PyString Tensors LayerSplit LayerSplitCorrect LayerSplitConfig LayerPacking LayerPackingCorrect Envs KvPlanner KvPlannerCorrect KvMemoryCorrect KvCache KvViewCorrect KvAllocCorrect.
From stdpp Require Import sorting.
Import LayerSplit SplitConfig Packing KvPlanner KvCache.
Local Open Scope Z_scope.

(** ** Alignment of the layers *)

Lemma spec_row_divides a s : (a | spec_row a s).
Proof. unfold spec_row. case_match; [apply Z.divide_lcm_l|apply Z.divide_refl]. Qed.

Lemma align_divides specs a s :
  s ∈ specs -> 0 < page_size_bytes s -> 0 < block_size s -> (block_size s | page_size_bytes s) ->
  (page_size_bytes s / block_size s | foldl spec_row a specs).
Proof.
  intros Hs Hp Hb Hd.
  assert (forall l b, (b | foldl spec_row b l)) as Hmono.
  { induction l as [|x l IH]; intros b; simpl; [apply Z.divide_refl|].
    etrans; [apply spec_row_divides|apply IH]. }
  revert a. induction specs as [|x specs IH]; intros a; [by apply not_elem_of_nil in Hs|]. simpl.
  apply elem_of_cons in Hs as [<-|Hs]; [|by apply IH]. etrans; [|apply Hmono].
  unfold spec_row. destruct (Z.ltb_spec 0 (page_size_bytes s)); [|lia]. destruct (Z.ltb_spec 0 (block_size s)); [|lia].
  apply Z.mod_divide in Hd; [|lia]. rewrite Hd. cbn. apply Z.divide_lcm_r.
Qed.

Lemma located_divides st fams base n i o p k :
  (k | base) -> (forall f, f ∈ fams -> (k | f_page_size f)) -> located st fams base n i o p -> (k | o).
Proof.
  intros Hb Hf Hl. induction Hl as [f fams base n i s _ _ _|f fams base n i o p _ IH].
  - apply Z.divide_add_r; [done|]. apply Z.divide_mul_r, Hf. by left.
  - apply IH; [|intros f' Hf'; apply Hf; by right].
    apply Z.divide_add_r; [done|]. apply Z.divide_mul_r, Hf. by left.
Qed.

(** ** What the attention groups bring *)

(** A backend of a layer: its shape and stride order start with the blocks,
    and its page fits the layer's page. *)
Record layer_backend (groups : list cache_group) (be : attn_backend) (spec : layer_spec) (nb : Z) (cdt : string)
    (d : torch_dtype) (rest o : list Z) : Prop := {
  lb_spec : spec ∈ specs_of groups;
  lb_block : 0 < block_size spec;
  lb_storage : 0 < default (block_size spec) (storage_block_size spec);
  lb_rows : (block_size spec | page_size_bytes spec);
  lb_dtype : dtype spec = Some d;
  lb_row_items : (element_size d | page_size_bytes spec / block_size spec);
  lb_pages : forall n ps, dget (group_pages groups) n = Some ps -> (element_size d | ps);
  lb_shape : get_kv_cache_shape be nb (default (block_size spec) (storage_block_size spec))
    (num_kv_heads spec) (head_size spec) (layer_cache_dtype spec cdt) = Ok (nb :: rest);
  lb_order : get_kv_cache_stride_order be = Ok (0 :: o);
  lb_perm : 0 :: o ≡ₚ zrange 0 (zlen (nb :: rest));
  lb_rest : Forall (Z.le 0) rest;
  lb_page : element_size d * numel rest <= page_size_bytes spec
}.

(** The attention groups hold the planned layers, with their specs. *)
Record attention_ok (groups : list cache_group) (names : list string) (attn_groups : list (list attn_group))
    (nb : Z) (cdt : string) : Prop := {
  ao_names : forall n, n ∈ names <-> n ∈ map snd (attn_layers attn_groups);
  ao_layer : forall g n, (g, n) ∈ attn_layers attn_groups -> exists spec d rest o,
    group_layer_spec g n = Ok spec /\ dget (group_pages groups) n = Some (page_size_bytes spec) /\
    layer_backend groups (ag_backend g) spec nb cdt d rest o
}.

(** ** Reshaping the layers *)

Lemma reshape_layers_ok (Q : string -> tensor_view -> Prop) s cfg cdt work caches :
  (forall g n, (g, n) ∈ work -> exists v, Q n v /\
     forall c, reshape_layer s cfg cdt g c n = Ok (dset c n v)) ->
  exists caches', reshape_layers s cfg cdt work caches = Ok caches' /\
    forall n, (n ∈ map snd work -> exists v, dget caches' n = Some v /\ Q n v) /\
              (n ∉ map snd work -> dget caches' n = dget caches n).
Proof.
  revert caches. induction work as [|[g n] work IH]; intros caches H; cbn [reshape_layers].
  { exists caches. split; [done|]. intros n. split; [by intros ?%not_elem_of_nil|done]. }
  destruct (H g n) as (v & Hv & E); [by left|]. rewrite E. cbn [mbind result_bind].
  destruct (IH (dset caches n v)) as (caches' & E' & Hc); [intros g' n' Hin; apply H; by right|].
  exists caches'. split; [done|]. intros m. destruct (Hc m) as [H1 H2]. split.
  - intros Hm. destruct (decide (m ∈ map snd work)) as [Hw|Hw]; [by apply H1|].
    apply elem_of_cons in Hm as [->|Hm]; [|done]. rewrite (H2 Hw). simpl. rewrite dget_dset_eq. by eexists.
  - intros Hm. simpl in Hm. rewrite not_elem_of_cons in Hm. destruct Hm as [Hne Hm]. rewrite (H2 Hm). simpl in Hne.
    by rewrite dget_dset_ne.
Qed.

(** Sharing leaves the layers with caches of their own alone. *)
Lemma share_layers_ok shared caches (names : list string) :
  (forall n, n ∈ names -> exists v, dget caches n = Some v) ->
  Forall (fun x => (x.1 ∉ names) /\ x.2 ∈ names) shared ->
  exists caches', share_layers shared caches = Ok caches' /\ forall n, n ∈ names -> dget caches' n = dget caches n.
Proof.
  intros Hn Hs. revert caches Hn. induction Hs as [|[n m] shared [Hni Hin] _ IH]; intros caches Hn; cbn [share_layers].
  { by exists caches. }
  destruct (Hn m Hin) as [v ->]. destruct (IH (dset caches n v)) as (caches' & -> & Hc).
  - intros k Hk. rewrite dget_dset. case_decide; eauto.
  - exists caches'. split; [done|]. intros k Hk. rewrite (Hc k Hk). apply dget_dset_ne. simpl in *. congruence.
Qed.

(** ** A worker *)

(** The descriptors of a worker after its rewrite: one allocation, one layer
    each, every layer at a place of its family. *)
Record worker_layout (parse : string -> result Z) (groups : list cache_group) (st : LayerSplitState)
    (fams : list family) (stride : Z) (id : allocation_id) (n : Z) (ts : list kv_tensor) : Prop := {
  wl_families : Forall (family_ok st) fams;
  wl_stride : 0 < stride;
  wl_fits : owned_scratch_bytes fams <= stride;
  wl_align : stride = align_packed_block_stride (owned_scratch_bytes fams) groups;
  wl_pages : forall f, f ∈ fams -> exists m, dget (group_pages groups) m = Some (f_page_size f);
  wl_nonempty : ts <> [];
  wl_nodup : NoDup (concat (map t_layers ts));
  wl_tensor : forall t, t ∈ ts -> t_size t = stride * n /\ t_block_stride t = stride /\ t_backing_id t = Some id /\
    exists m i p, t_layers t = [m] /\ parse m = Ok i /\ dget (group_pages groups) m = Some p /\
      located st fams 0 m i (t_offset t) p
}.

Lemma planned_worker parse bucket override cls cls' c groups memory n ts st :
  plan_input parse groups -> bucketing_ok groups (bucket_fn bucket groups) -> valid_state st ->
  pcp_size c = shard_size st -> total_layers_from_config c = Some (total_layers st) ->
  cls_keeps_attributes cls' = true ->
  shrunk_packed_plan parse bucket override cls c groups memory = Ok (Some (n, ts)) ->
  exists cfg' fams stride pss,
    remap_packed_kv_tensor_offsets parse cls' (Some st) (config_from_plan (n, ts) groups) = Ok (true, cfg') /\
    kv_cache_groups cfg' = groups /\ num_blocks cfg' = n /\
    map t_layers (kv_cache_tensors cfg') = map t_layers ts /\ Forall (fun t => t_size t = stride * n) ts /\
    worker_layout parse groups st fams stride (DsaLayerSplitPool pss stride n) n (kv_cache_tensors cfg').
Proof.
  intros Hin Hbk Hst Hpcp Htot Hcls Hplan.
  destruct (planned_remap _ _ _ _ cls' _ _ _ _ _ st Hin Hbk Hst Hpcp Htot Hcls Hplan) as [cfg' Hr].
  destruct (plan_descriptors _ _ _ _ _ _ _ _ _ Hplan) as (stride & id & Hstride & Hid & Hts).
  set (buckets := bucket_fn bucket groups) in *.
  assert (layout_input parse (config_from_plan (n, ts) groups)) as Hli
    by (by apply (planned_layout_input parse groups buckets Hin Hbk _ _ _ n ts Hstride Hts)).
  destruct (remap_located _ _ _ _ _ Hst Hli Hr)
    as (fams & stride' & [Hg Hnb] & Hf & Hfits & Halign & (t0 & Ht0 & Est0) & Hpages & HF & Hloc).
  pose proof (plan_packed groups buckets _ _ _ n ts Hstride Hts) as Hpk.
  change (planned_config groups n ts) with (config_from_plan (n, ts) groups) in Hpk. rewrite Hpk in Ht0.
  pose proof (plan_single groups buckets Hbk _ _ _ ts Hts) as Hsingle.
  assert (stride' = stride) as -> by (by destruct (Hsingle t0 Ht0) as (_ & <- & _)).
  assert (map t_layers (kv_cache_tensors cfg') = map t_layers ts) as Hnames.
  { clear - HF. cbn in HF. induction HF as [|t t' l l' (_ & H & _) _ IH]; simpl; [done|]. by rewrite H, IH. }
  exists cfg', fams, stride, (merge_sort Z.le (dkeys buckets)). split_and!; [done..| |].
  { apply Forall_forall. intros t Ht. by destruct (Hsingle t Ht). }
  split; [done..| | | |].
  - intros f [m Hm]%Hpages. exists m. by eapply planned_page.
  - intros E. rewrite E in Hnames. destruct ts; [by apply not_elem_of_nil in Ht0|done].
  - rewrite Hnames. by eapply plan_names_nodup.
  - intros t' Ht'. assert (Ht'' := Ht'). apply list_elem_of_lookup in Ht' as [k Hk].
    destruct (Forall2_lookup_r _ _ _ _ _ HF Hk) as (t & Ht & H1 & H2 & H3 & H4).
    apply list_elem_of_lookup_2 in Ht. cbn in Ht. destruct (Hsingle t Ht) as (S1 & S2 & S3 & m & ps & S4 & S5).
    specialize (H4 ltac:(lia)). rewrite <- Hid, H1, H3. split_and!; [done..|].
    destruct (Hloc t' m []) as (i & p & Hp & Hi & _ & L); [done|lia|congruence|].
    exists m, i, p. split_and!; [congruence|done| |done]. by eapply planned_page.
Qed.

Lemma NoDup_concat_index {A} (ls : list (list A)) i j l k x :
  NoDup (concat ls) -> ls !! i = Some l -> ls !! j = Some k -> x ∈ l -> x ∈ k -> i = j.
Proof.
  revert i j. induction ls as [|h ls IH]; intros i j Hnd Hi Hj Hl Hk; [done|].
  simpl in Hnd. apply NoDup_app in Hnd as (_ & Hdis & Hnd).
  assert (forall l' m, ls !! m = Some l' -> x ∈ l' -> x ∈ concat ls) as Hin.
  { intros l' m Hm Hx. apply list_elem_of_In, in_concat. exists l'.
    split; apply list_elem_of_In; [by eapply list_elem_of_lookup_2|done]. }
  destruct i, j; simpl in *; simplify_eq; [done| | |f_equal; by eapply IH].
  - by destruct (Hdis x Hl (Hin _ _ Hj Hk)).
  - by destruct (Hdis x Hk (Hin _ _ Hi Hl)).
Qed.

Section allocated.
Context (parse : string -> result Z) (groups : list cache_group) (st : LayerSplitState) (fams : list family).
Context (stride : Z) (id : allocation_id) (n : Z) (cfg : KVCacheConfig) (hashable : allocation_id -> bool).
Local Abbreviation ts := (kv_cache_tensors cfg).
Hypothesis Hw : worker_layout parse groups st fams stride id n ts.
Hypothesis Hn : 0 <= n.
Hypothesis Hh : hashable id = true.

Lemma worker_accepted : descriptors_ok hashable ts /\ ids_ambiguous cfg = false.
Proof using Hw Hn Hh.
  destruct Hw as [_ Hst _ _ _ Hne Hnd Ht]. split; [split|].
  - intros t Hin. destruct (Ht t Hin) as (-> & _). nia.
  - intros t Hin. by destruct (Ht t Hin) as (_ & _ & _ & m & i & p & -> & _).
  - intros t id' Hin Hid'. destruct (Ht t Hin) as (_ & _ & E & _). congruence.
  - intros t1 t2 H1 H2 _ _ _. destruct (Ht t1 H1) as (-> & -> & _), (Ht t2 H2) as (-> & -> & _). done.
  - intros i j t1 t2 H1 _ _ _ E. apply list_elem_of_lookup_2 in H1. destruct (Ht t1 H1) as (_ & _ & E' & _). congruence.
  - unfold ids_ambiguous. apply andb_false_iff. left.
    apply not_true_iff_false. intros (x & Hx & Ex)%existsb_exists. apply bool_decide_eq_true in Ex. subst x.
    apply in_map_iff in Hx as (t & E & Hin). apply list_elem_of_In, list_elem_of_filter in Hin as [_ Hin].
    destruct (Ht t Hin) as (_ & _ & E' & _). congruence.
Qed.

Lemma worker_zero bs s i b : alloc_inv ts bs s -> bs !! i = Some b -> b = 0%nat.
Proof using Hw.
  intros Ha Hb. pose proof (wl_tensor _ _ _ _ _ _ _ _ Hw) as Ht. pose proof (wl_stride _ _ _ _ _ _ _ _ Hw) as Hst.
  assert (forall j c, bs !! j = Some c -> exists t, ts !! j = Some t) as Hts.
  { intros j c Hc. apply lookup_lt_is_Some. rewrite <- (ai_len _ _ _ Ha). by eapply lookup_lt_Some. }
  destruct (Hts i b Hb) as [t Hti]. pose proof (ai_heap _ _ _ Ha i t b Hti Hb) as Hhp. apply lookup_lt_Some in Hhp.
  destruct (list_elem_of_lookup bs 0%nat) as [[k Hk] _]; [apply (ai_used _ _ _ Ha); lia|].
  destruct (Hts k _ Hk) as [u Huk]. apply (ai_share _ _ _ Ha i k t u b 0 Hti Huk Hb Hk). right. unfold is_packed.
  apply list_elem_of_lookup_2 in Hti, Huk. destruct (Ht t Hti) as (_ & -> & -> & _), (Ht u Huk) as (_ & -> & -> & _). done.
Qed.

(** All the layers of a worker are in one byte tensor. *)
Lemma worker_allocated :
  exists s, allocate_modern_raw_kv_cache hashable cfg empty_alloc = (Ok tt, s) /\ heap s = [stride * n] /\
    (forall t m, t ∈ ts -> t_layers t = [m] ->
       dget (descriptor_by_layer s) m = Some t /\ dget (raw_by_layer s) m = Some 0%nat) /\
    (forall m, m ∈ dkeys (descriptor_by_layer s) -> exists t, t ∈ ts /\ t_layers t = [m]).
Proof using Hw Hn Hh.
  destruct worker_accepted as [Hok Hid]. destruct (allocate_total hashable cfg Hok Hid) as (bs & s & E & Ha & Hl).
  pose proof (wl_tensor _ _ _ _ _ _ _ _ Hw) as Ht. exists s. split; [done|].
  assert (forall i t, ts !! i = Some t -> bs !! i = Some 0%nat) as Hbs.
  { intros i t Hi. assert (is_Some (bs !! i)) as [b Hb].
    { apply lookup_lt_is_Some. rewrite (ai_len _ _ _ Ha). by eapply lookup_lt_Some. }
    by rewrite <- (worker_zero bs s i b Ha Hb). }
  split_and!.
  - destruct (lookup_lt_is_Some_2 ts 0) as [t0 H0].
    { pose proof (wl_nonempty _ _ _ _ _ _ _ _ Hw) as H. destruct ts; [done|simpl; lia]. }
    pose proof (ai_heap _ _ _ Ha 0 t0 0 H0 (Hbs _ _ H0)) as Hhp.
    destruct (Ht t0) as (Hsz & _); [by eapply list_elem_of_lookup_2|]. rewrite Hsz in Hhp.
    destruct (heap s) as [|x [|y h]] eqn:Eh; [done|simpl in Hhp; congruence|].
    assert (1%nat ∈ bs) as [k Hk]%list_elem_of_lookup by (apply (ai_used _ _ _ Ha); rewrite Eh; simpl; lia).
    by apply (worker_zero bs s k 1 Ha) in Hk.
  - intros t m Hin Hm. apply list_elem_of_lookup in Hin as [k Hk].
    destruct (ai_layers _ _ _ Hl m k t) as [-> ->]; [|by rewrite (Hbs k t Hk)].
    split_and!; [done|rewrite Hm; by left|]. intros j u Hj Hu Hmu.
    assert (k = j); [|lia]. eapply (NoDup_concat_index (map t_layers ts) k j (t_layers t) (t_layers u) m);
      [apply (wl_nodup _ _ _ _ _ _ _ _ Hw)| | |rewrite Hm; by left|done]; change (map ?f ?x) with (f <$> x);
      rewrite list_lookup_fmap; [by rewrite Hk|by rewrite Hu].
  - intros m (t & Hin & Hm)%(ai_only _ _ _ Hl). exists t. split; [done|].
    destruct (Ht t Hin) as (_ & _ & _ & m' & i & p & E' & _). rewrite E' in Hm |- *.
    by apply list_elem_of_singleton in Hm as ->.
Qed.
End allocated.

Lemma worker_names parse groups st fams stride id n ts m :
  worker_layout parse groups st fams stride id n ts ->
  m ∈ concat (map t_layers ts) <-> exists t, t ∈ ts /\ t_layers t = [m].
Proof.
  intros Hw. rewrite list_elem_of_In, in_concat. split.
  - intros (l & Hl & Hm). apply in_map_iff in Hl as (t & <- & Ht%list_elem_of_In).
    exists t. split; [done|]. destruct (wl_tensor _ _ _ _ _ _ _ _ Hw t Ht) as (_ & _ & _ & m' & i & p & E & _).
    rewrite E in Hm |- *. apply list_elem_of_In, list_elem_of_singleton in Hm. by subst.
  - intros (t & Ht & Hm). exists [m]. split; [|by left]. rewrite <- Hm. by apply in_map, list_elem_of_In.
Qed.

Lemma worker_named parse groups st fams stride id n ts :
  worker_layout parse groups st fams stride id n ts -> exists m, m ∈ concat (map t_layers ts).
Proof.
  intros Hw. pose proof (wl_nonempty _ _ _ _ _ _ _ _ Hw) as Hne. destruct ts as [|t ts']; [done|].
  destruct (wl_tensor _ _ _ _ _ _ _ _ Hw t) as (_ & _ & _ & m & i & p & Hm & _); [by left|].
  exists m. simpl. rewrite Hm. by left.
Qed.

(** ** The views *)

Section views.
Context (parse : string -> result Z) (groups : list cache_group) (st : LayerSplitState) (fams : list family).
Context (stride : Z) (id : allocation_id) (n : Z) (ts : list kv_tensor) (cdt : string).
Hypothesis Hst : valid_state st.
Hypothesis Hw : worker_layout parse groups st fams stride id n ts.
Hypothesis Hn : 0 <= n.
Hypothesis Hpos : forall m p, dget (group_pages groups) m = Some p -> 0 < p.

(** The view of a layer: pages of at most the layer's size at its place. *)
Definition layer_view (m : string) (v : tensor_view) : Prop :=
  exists t i p d rest, t ∈ ts /\ t_layers t = [m] /\ parse m = Ok i /\ located st fams 0 m i (t_offset t) p /\
    page_view v 0 (element_size d) n rest (t_offset t) stride (stride * n) /\
    element_size d * numel rest <= p.

Lemma worker_view be spec d rest o t m :
  layer_backend groups be spec n cdt d rest o -> dget (group_pages groups) m = Some (page_size_bytes spec) ->
  t ∈ ts -> t_layers t = [m] ->
  exists v, reshape_modern_packed_cache 0 (stride * n) t spec be n cdt = Ok v /\ layer_view m v.
Proof using Hw Hn Hpos.
  intros Hlb Hpage Hin Hm. destruct Hw as [Hf Hs Hfits Halign Hfp _ _ Ht].
  destruct (Ht t Hin) as (_ & Hts & _ & m' & i & p & Hm' & Hi & Hp & Hloc).
  rewrite Hm in Hm'. injection Hm' as <-. rewrite Hpage in Hp. injection Hp as <-.
  pose proof (located_bounds st fams 0 m i _ _ Hf Hloc) as (_ & Ho & Hend).
  assert ((element_size d | t_block_stride t)) as Hd1.
  { rewrite Hts, Halign. etrans; [apply (lb_row_items _ _ _ _ _ _ _ _ Hlb)|].
    etrans; [|apply align_stride]. apply align_divides; [apply (lb_spec _ _ _ _ _ _ _ _ Hlb)|by eapply Hpos
      |apply (lb_block _ _ _ _ _ _ _ _ Hlb)|apply (lb_rows _ _ _ _ _ _ _ _ Hlb)]. }
  assert ((element_size d | t_offset t)) as Hd2.
  { eapply located_divides; [apply Z.divide_0_r| |exact Hloc]. intros f [k Hk]%Hfp. by eapply (lb_pages _ _ _ _ _ _ _ _ Hlb). }
  pose proof (lb_page _ _ _ _ _ _ _ _ Hlb) as Hpb.
  destruct (reshape_total 0 (stride * n) t spec be n cdt d rest o) as [v Hv]; try (apply Hlb); try done; try lia.
  exists v. split; [done|]. exists t, i, (page_size_bytes spec), d, rest. split_and!; [done..| |done].
  rewrite <- Hts. rewrite <- Hts in Hv. eapply reshape_page_view; [apply Hlb..|exact Hv].
Qed.

Lemma layer_view_bounds m v : layer_view m v ->
  v_base v = 0%nat /\
  (forall idx, in_shape (v_size v) idx -> 0 <= byte_address v idx /\ byte_address v idx + v_item v <= stride * n) /\
  (forall idx1 idx2, in_shape (v_size v) idx1 -> in_shape (v_size v) idx2 ->
     byte_address v idx1 = byte_address v idx2 -> idx1 = idx2).
Proof. intros (t & i & p & d & rest & _ & _ & _ & _ & [Hb Hit Hsz _ Hinj Hby] & _). by rewrite Hsz, Hit. Qed.

(** A layer the rank keeps has its bytes to itself. *)
Lemma layer_views_disjoint m1 v1 i1 m2 v2 idx1 idx2 :
  layer_view m1 v1 -> layer_view m2 v2 -> m1 <> m2 -> parse m1 = Ok i1 -> resident st i1 = true ->
  in_shape (v_size v1) idx1 -> in_shape (v_size v2) idx2 ->
  byte_address v1 idx1 + v_item v1 <= byte_address v2 idx2 \/ byte_address v2 idx2 + v_item v2 <= byte_address v1 idx1.
Proof using Hst Hw.
  intros (t1 & j1 & p1 & d1 & rest1 & _ & _ & Hj1 & L1 & [_ It1 Sz1 A1 _ _] & P1)
    (t2 & j2 & p2 & d2 & rest2 & _ & _ & _ & L2 & [_ It2 Sz2 A2 _ _] & P2) Hne Hi Hres H1 H2.
  rewrite Hi in Hj1. injection Hj1 as <-. rewrite Sz1 in H1. rewrite Sz2 in H2.
  destruct idx1 as [|b1 idx1]; [by inversion H1|]. destruct idx2 as [|b2 idx2]; [by inversion H2|].
  destruct (A1 _ _ H1) as (r1 & R1 & ->), (A2 _ _ H2) as (r2 & R2 & ->). rewrite It1, It2.
  destruct Hw as [Hf Hs Hfits _ _ _ _ _].
  pose proof (located_bounds st fams 0 _ _ _ _ Hf L1) as (_ & Ho1 & He1).
  pose proof (located_bounds st fams 0 _ _ _ _ Hf L2) as (_ & Ho2 & He2).
  pose proof (located_disjoint st Hst fams 0 _ _ _ _ _ _ _ _ Hf Hne Hres L1 L2) as Hdis.
  pose proof (element_size_pos d1). pose proof (element_size_pos d2).
  apply (pages_disjoint stride _ p1 _ p2); [lia..| | | |]; nia.
Qed.
End views.

(** ** Claim *)

(** The initialiser on a configuration of packed descriptors only. *)
Lemma init_packed hashable vllm_reshape attn_groups shared cfg cdt s caches caches' :
  allocate_modern_raw_kv_cache hashable cfg empty_alloc = (Ok tt, s) ->
  let packed := map fst (filter (fun x => 0 < t_block_stride x.2) (descriptor_by_layer s)) in
  packed <> [] -> Forall (fun t => 0 < t_block_stride t) (kv_cache_tensors cfg) ->
  (forall m, m ∈ packed <-> m ∈ map snd (attn_layers attn_groups)) ->
  reshape_layers s cfg cdt (attn_layers attn_groups) [] = Ok caches -> share_layers shared caches = Ok caches' ->
  init_modern_hcu_kv_cache hashable vllm_reshape attn_groups shared cfg cdt empty_alloc = (Ok caches', s).
Proof.
  intros Ea packed Hne Hall Hpk Er Es. unfold init_modern_hcu_kv_cache, mbind, M_bind. rewrite Ea.
  unfold get_state, lift. fold packed. destruct packed as [|m0 l] eqn:Epk; [done|]. rewrite <- Epk in *.
  assert (existsb (fun t => t_block_stride t <=? 0) (kv_cache_tensors cfg) = false) as ->.
  { apply not_true_iff_false. intros (t & Ht%list_elem_of_In & Hle%Z.leb_le)%existsb_exists.
    rewrite Forall_forall in Hall. specialize (Hall t Ht). lia. }
  cbn [mbind result_bind update_views foldl]. rewrite Er. cbn [mbind result_bind].
  rewrite bool_decide_eq_true_2; [exact (f_equal (fun r => (r, s)) Es)|].
  apply set_eq. intros m. rewrite !elem_of_list_to_set, list_elem_of_filter, Hpk. naive_solver.
Qed.

(** The layers of a worker are reshaped by their backends. *)
Lemma worker_caches parse groups st fams stride id n cfg hashable vllm_reshape attn_groups shared cdt :
  worker_layout parse groups st fams stride id n (kv_cache_tensors cfg) ->
  num_blocks cfg = n -> 0 <= n -> hashable id = true ->
  (forall m p, dget (group_pages groups) m = Some p -> 0 < p) ->
  let names := concat (map t_layers (kv_cache_tensors cfg)) in
  attention_ok groups names attn_groups n cdt ->
  Forall (fun x => (x.1 ∉ names) /\ x.2 ∈ names) shared ->
  exists caches s,
    init_modern_hcu_kv_cache hashable vllm_reshape attn_groups shared cfg cdt empty_alloc = (Ok caches, s) /\
    heap s = [stride * n] /\
    forall m, m ∈ names -> exists v, dget caches m = Some v /\
      layer_view parse st fams stride n (kv_cache_tensors cfg) m v.
Proof.
  intros Hw Hnb Hn Hh Hpos names Hao Hsh.
  destruct (worker_allocated parse groups st fams stride id n cfg hashable Hw Hn Hh) as (s & Ea & Hheap & Hdesc & Honly).
  set (ts := kv_cache_tensors cfg) in *. pose proof (wl_stride _ _ _ _ _ _ _ _ Hw) as Hs.
  assert (forall m, m ∈ names <-> exists t, t ∈ ts /\ t_layers t = [m]) as Hof by (intros m; by eapply worker_names).
  assert (forall t, t ∈ ts -> t_block_stride t = stride) as Hstr.
  { intros t Ht. by destruct (wl_tensor _ _ _ _ _ _ _ _ Hw t Ht) as (_ & -> & _). }
  destruct (reshape_layers_ok (layer_view parse st fams stride n ts) s cfg cdt (attn_layers attn_groups) [])
    as (caches & Er & Hc).
  { intros g m Hgm. destruct (ao_layer _ _ _ _ _ Hao g m Hgm) as (spec & d & rest & o & Hspec & Hpage & Hlb).
    assert (m ∈ names) as Hm by (apply (ao_names _ _ _ _ _ Hao); by apply (list_elem_of_fmap_2 snd _ (g, m))).
    apply Hof in Hm as (t & Ht & Hm).
    destruct (worker_view parse groups st fams stride id n ts cdt Hw Hn Hpos _ _ _ _ _ t m Hlb Hpage Ht Hm) as (v & Hv & Hq).
    exists v. split; [done|]. intros c. unfold reshape_layer. destruct (Hdesc t m Ht Hm) as [-> ->].
    rewrite (Hstr t Ht). destruct (Z.leb_spec stride 0); [lia|]. rewrite Hspec, Hheap, Hnb. cbn [mbind result_bind].
    change (default 0 ([stride * n] !! 0%nat)) with (stride * n). by rewrite Hv. }
  destruct (share_layers_ok shared caches names) as (caches' & Es & Hshare); [|done|].
  { intros m Hm. apply (ao_names _ _ _ _ _ Hao) in Hm. destruct (proj1 (Hc m) Hm) as (v & Hv & _). by exists v. }
  exists caches', s. split_and!; [|done|].
  - assert (forall m, m ∈ map fst (filter (fun x => 0 < t_block_stride x.2) (descriptor_by_layer s)) <-> m ∈ names) as Hpk.
    { intros m. rewrite Hof. split.
      - intros ([k t] & -> & [_ Hin]%list_elem_of_filter)%list_elem_of_fmap.
        apply Honly. by apply (list_elem_of_fmap_2 fst _ (k, t)).
      - intros (t & Ht & Hm). destruct (Hdesc t m Ht Hm) as [Hd%dget_elem _].
        apply list_elem_of_fmap. exists (m, t). split; [done|]. apply list_elem_of_filter.
        split; [|done]. simpl. rewrite (Hstr t Ht). lia. }
    eapply init_packed; [done| | |intros m; by rewrite Hpk, (ao_names _ _ _ _ _ Hao)|done|done].
    + destruct (worker_named _ _ _ _ _ _ _ _ Hw) as [m Hm]. intros E. apply Hpk in Hm. rewrite E in Hm.
      by apply not_elem_of_nil in Hm.
    + apply Forall_forall. intros t Ht. by rewrite (Hstr t Ht).
  - intros m Hm. rewrite (Hshare m Hm). apply (ao_names _ _ _ _ _ Hao) in Hm. by apply Hc.
Qed.

(** C2: the path of the split caches from the plan to the backends.  For every
    rank, the plan the workers receive is rewritten and bound without an
    exception, all in one byte tensor of the planned size; every planned layer
    gets a view whose elements lie inside the tensor at distinct addresses, and
    no byte of a layer the rank keeps belongs to another layer. *)
Theorem packed_caches_safe parse bucket override cls cls' hashable vllm_reshape c groups memory n ts st
    attn_groups shared cdt :
  plan_input parse groups -> bucketing_ok groups (bucket_fn bucket groups) -> valid_state st ->
  pcp_size c = shard_size st -> total_layers_from_config c = Some (total_layers st) ->
  cls_keeps_attributes cls' = true ->
  (forall pss stride k, hashable (DsaLayerSplitPool pss stride k) = true) ->
  shrunk_packed_plan parse bucket override cls c groups memory = Ok (Some (n, ts)) -> 0 <= n ->
  let names := concat (map t_layers ts) in
  attention_ok groups names attn_groups n cdt ->
  Forall (fun x => (x.1 ∉ names) /\ x.2 ∈ names) shared ->
  exists cfg' caches s size,
    remap_packed_kv_tensor_offsets parse cls' (Some st) (config_from_plan (n, ts) groups) = Ok (true, cfg') /\
    init_modern_hcu_kv_cache hashable vllm_reshape attn_groups shared cfg' cdt empty_alloc = (Ok caches, s) /\
    heap s = [size] /\ Forall (fun t => t_size t = size) ts /\
    forall m1, m1 ∈ names -> exists v1, dget caches m1 = Some v1 /\ v_base v1 = 0%nat /\
      (forall idx, in_shape (v_size v1) idx -> 0 <= byte_address v1 idx /\ byte_address v1 idx + v_item v1 <= size) /\
      (forall idx idx', in_shape (v_size v1) idx -> in_shape (v_size v1) idx' ->
         byte_address v1 idx = byte_address v1 idx' -> idx = idx') /\
      forall m2 v2 i1 idx1 idx2, m2 ∈ names -> m1 <> m2 -> dget caches m2 = Some v2 ->
        parse m1 = Ok i1 -> resident st i1 = true -> in_shape (v_size v1) idx1 -> in_shape (v_size v2) idx2 ->
        byte_address v1 idx1 + v_item v1 <= byte_address v2 idx2 \/ byte_address v2 idx2 + v_item v2 <= byte_address v1 idx1.
Proof.
  intros Hin Hbk Hst Hpcp Htot Hcls Hhash Hplan Hn names Hao Hsh.
  destruct (planned_worker _ _ _ _ cls' _ _ _ _ _ st Hin Hbk Hst Hpcp Htot Hcls Hplan)
    as (cfg' & fams & stride & pss & Hr & _ & Hnb & Hnames & Hsizes & Hw).
  unfold names in *. clear names. rewrite <- Hnames in Hao, Hsh |- *.
  destruct (worker_caches _ _ _ _ _ _ _ _ hashable vllm_reshape _ _ _ Hw Hnb Hn (Hhash _ _ _) (pi_pages _ _ Hin) Hao Hsh)
    as (caches & s & Ei & Hheap & Hv).
  exists cfg', caches, s, (stride * n). split_and!; [done..|].
  intros m1 Hm1. destruct (Hv m1 Hm1) as (v1 & Hd1 & L1). exists v1.
  destruct (layer_view_bounds _ _ _ _ _ _ _ _ L1) as (Hb & Hby & Hinj). split_and!; [done..|].
  intros m2 v2 i1 idx1 idx2 Hm2 Hne Hd2 Hi1 Hres H1 H2. destruct (Hv m2 Hm2) as (v2' & Hd2' & L2).
  rewrite Hd2 in Hd2'. injection Hd2' as <-. by eapply layer_views_disjoint.
Qed.

(** ** A concrete worker *)

Definition rows_backend : attn_backend :=
  AttnBackend "vllm_hcu.v1.attention.backends.mla.flashmla"
    (fun blocks size _ head _ => Ok [blocks; size; head]) (Ok [0; 1; 2]).

Definition demo_attention : list (list attn_group) :=
  [[AttnGroup rows_backend ["l0.attn"; "l1.attn"; "l2.attn"; "l3.attn"] mla_spec None 0;
    AttnGroup rows_backend ["l0.idx"; "l1.idx"; "l2.idx"; "l3.idx"] indexer_spec None 0]]%string.

Lemma demo_pages n ps :
  dget (group_pages demo_groups) n = Some ps ->
  (n, ps) ∈ [("l0.attn", 32); ("l0.idx", 12); ("l1.attn", 32); ("l1.idx", 12);
             ("l2.attn", 32); ("l2.idx", 12); ("l3.attn", 32); ("l3.idx", 12)]%string.
Proof. intros H%dget_elem. exact H. Qed.

Lemma demo_plan_input : plan_input demo_index demo_groups.
Proof.
  split.
  - intros n i. unfold demo_index. repeat case_match; intros; simplify_eq; lia.
  - intros n ps H%demo_pages. repeat (apply elem_of_cons in H as [H|H]; [injection H as -> ->; by eexists|]).
    by apply not_elem_of_nil in H.
  - intros n ps H%demo_pages. repeat (apply elem_of_cons in H as [H|H]; [injection H as -> ->; lia|]).
    by apply not_elem_of_nil in H.
  - intros n1 n2 i ps H1%demo_pages H2%demo_pages P1 P2.
    repeat (apply elem_of_cons in H1 as [H1|H1];
      [injection H1 as -> ->;
       repeat (apply elem_of_cons in H2 as [H2|H2]; [simplify_eq; first [done|vm_compute in P1, P2; congruence]|]);
       by apply not_elem_of_nil in H2|]).
    by apply not_elem_of_nil in H1.
Qed.

Lemma demo_bucketing : bucketing_ok demo_groups (bucket_fn None demo_groups).
Proof.
  apply own_bucketing_ok. split.
  - apply (bool_decide_unpack _). vm_compute. exact I.
  - apply Forall_cons. split; [|constructor]. intros per [= <-]. apply (bool_decide_unpack _). vm_compute. exact I.
Qed.

Lemma demo_backend spec d rest :
  spec ∈ specs_of demo_groups -> block_size spec = 4 -> storage_block_size spec = None ->
  dtype spec = Some d -> rest = [4; head_size spec] ->
  page_size_bytes spec = 4 * (element_size d * head_size spec) -> 0 < head_size spec ->
  (element_size d | 12) -> (element_size d | 32) ->
  layer_backend demo_groups rows_backend spec 10 "auto" d rest [1; 2].
Proof.
  intros Hs Hb Hsb Hd -> Hp Hh H12 H32. pose proof (element_size_pos d). split; rewrite ?Hb, ?Hsb; try done; simpl.
  - rewrite Hp. apply Z.divide_factor_l.
  - rewrite Hp, Z.mul_comm, Z.div_mul by lia. apply Z.divide_factor_l.
  - intros n ps Hn%demo_pages. repeat (apply elem_of_cons in Hn as [Hn|Hn]; [injection Hn as _ ->; done|]).
    by apply not_elem_of_nil in Hn.
  - repeat constructor; lia.
  - rewrite Hp. unfold numel. simpl. lia.
Qed.

Lemma demo_attention_ok ts :
  map t_layers ts = [["l0.idx"]; ["l1.idx"]; ["l2.idx"]; ["l3.idx"];
                     ["l0.attn"]; ["l1.attn"]; ["l2.attn"]; ["l3.attn"]]%string ->
  attention_ok demo_groups (concat (map t_layers ts)) demo_attention 10 "auto".
Proof.
  intros ->. split.
  - intros n. cbn. set_solver.
  - intros g n H. cbn in H.
    assert (layer_backend demo_groups rows_backend mla_spec 10 "auto" bfloat16 [4; 4] [1; 2]) as B1
      by (apply demo_backend; [by left|done..|by exists 6|by exists 16]).
    assert (layer_backend demo_groups rows_backend indexer_spec 10 "auto" uint8 [4; 3] [1; 2]) as B2
      by (apply demo_backend; [right; by left|done..|by exists 12|by exists 32]).
    repeat (apply elem_of_cons in H as [H|H]; [injection H as -> ->; eauto 10|]). by apply not_elem_of_nil in H.
Qed.

Lemma packed_caches_safe_witness :
  exists n ts cfg' caches s,
    shrunk_packed_plan demo_index None keep_blocks demo_class demo_split demo_groups 2330 = Ok (Some (n, ts)) /\
    remap_packed_kv_tensor_offsets demo_index demo_class (Some (SplitState 1 2 4 0)) (config_from_plan (n, ts) demo_groups)
      = Ok (true, cfg') /\
    init_modern_hcu_kv_cache (fun _ => true) (fun _ _ _ => Ok []) demo_attention [] cfg' "auto" empty_alloc
      = (Ok caches, s) /\ heap s = [1440].
Proof.
  destruct (shrunk_packed_plan demo_index None keep_blocks demo_class demo_split demo_groups 2330)
    as [[[n ts]|]|] eqn:E; [|vm_compute in E; discriminate E..].
  assert (n = 10 /\ map t_layers ts = [["l0.idx"]; ["l1.idx"]; ["l2.idx"]; ["l3.idx"];
    ["l0.attn"]; ["l1.attn"]; ["l2.attn"]; ["l3.attn"]]%string /\
    exists t0 l, ts = t0 :: l /\ t_size t0 = 1440) as (Hn & Hl & t0 & l & Hts & Hsz)
    by (vm_compute in E; injection E as <- <-; split; [reflexivity|split; [reflexivity|eexists _, _; split; reflexivity]]).
  destruct (packed_caches_safe demo_index None keep_blocks demo_class demo_class (fun _ => true) (fun _ _ _ => Ok [])
    demo_split demo_groups 2330 n ts (SplitState 1 2 4 0) demo_attention [] "auto")
    as (cfg' & caches & s & size & Hr & Hi & Hh & Hs & _);
    [apply demo_plan_input|apply demo_bucketing|repeat split; simpl; lia|reflexivity|reflexivity|reflexivity|reflexivity
    |exact E|lia|rewrite Hn; by apply demo_attention_ok|constructor|].
  exists n, ts, cfg', caches, s. split_and!; [reflexivity|exact Hr|exact Hi|].
  rewrite Hts in Hs. apply Forall_cons in Hs as [Hs _]. rewrite Hh. congruence.
Defined.
