(* ===== verification/KvOffload.v ===== *)
(** * The CPU copy of the packed caches

    Models src/vllm_hcu/patch/platform/framework_opt/patch_packed_kv_offload.py:
    how many blocks the CPU side of the offload gets, and the descriptors of
    the CPU caches.  The descriptor class is a dataclass with the fields of
    [cls]; vLLM's [_derive_cpu_config] is a parameter. *)

From S2P Require Import Prelude PyString Tensors LayerSplit LayerPacking KvPlanner.
Local Open Scope Z_scope.

Module KvOffload.
Import LayerSplit Packing KvPlanner.

(** [_layer_names] *)
Definition layer_names (t : kv_tensor) : result (list string) :=
  match t_layers t with
  | [] => Err (Exn ValueError "KV cache tensor must name at least one layer")
  | names => Ok names
  end.

(** [_is_packed] *)
Definition is_packed (t : kv_tensor) : bool :=
  match t_backing_id t with Some _ => true | None => false end.

Section offload.
Context (hashable : allocation_id -> bool) (cls : tensor_class).

(** [_hashable_backing_id] *)
Definition hashable_backing_id (id : allocation_id) : result allocation_id :=
  if hashable id then Ok id else Err (Exn ValueError "Packed KV backing_id must be hashable").

(** [_packed_pool_keys]: the keys of the packed descriptors, in their order *)
Fixpoint packed_pool_keys (ts : list kv_tensor) : result (list allocation_id) :=
  match ts with
  | [] => Ok []
  | t :: ts' =>
      match t_backing_id t with
      | None => packed_pool_keys ts'
      | Some id =>
          key ← hashable_backing_id id;
          keys ← packed_pool_keys ts';
          mret (key :: keys)
      end
  end.

(** [dataclasses.replace] with a new size: fields keep their values, other
    attributes are lost *)
Definition replace_size (t : kv_tensor) (size : Z) : kv_tensor :=
  let keep (name : string) (z : Z) := if bool_decide (name ∈ cls_fields cls) then z else 0 in
  KvTensor size (t_layers t) (keep "layer_stride"%string (t_layer_stride t))
    (keep "block_stride"%string (t_block_stride t)) (keep "offset"%string (t_offset t))
    (if bool_decide ("backing_id"%string ∈ cls_fields cls) then t_backing_id t else None).

(** [_scaled_tensor] *)
Definition scaled_tensor (num_gpu_blocks num_cpu_blocks : Z) (t : kv_tensor) : result kv_tensor :=
  let size := t_size t / num_gpu_blocks * num_cpu_blocks in
  names ← layer_names t;
  if is_packed t && (negb (has_fields cls ["block_stride"; "offset"]%string)
                     || negb (has_fields cls ["backing_id"]%string))
  then make_packed_kv_tensor cls size names (t_layer_stride t) (t_offset t) (t_block_stride t) (t_backing_id t)
  else mret (replace_size t size).

Fixpoint scaled_tensors (num_gpu_blocks num_cpu_blocks : Z) (ts : list kv_tensor) : result (list kv_tensor) :=
  match ts with
  | [] => Ok []
  | t :: ts' =>
      t' ← scaled_tensor num_gpu_blocks num_cpu_blocks t;
      rest ← scaled_tensors num_gpu_blocks num_cpu_blocks ts';
      mret (t' :: rest)
  end.

(** The sizes of the distinct pools and the bytes of the plain tensors *)
Fixpoint pool_sizes (ts : list kv_tensor) (sizes : dict allocation_id Z) (plain : Z)
    : result (dict allocation_id Z * Z) :=
  match ts with
  | [] => Ok (sizes, plain)
  | t :: ts' =>
      match t_backing_id t with
      | None => pool_sizes ts' sizes (plain + t_size t)
      | Some id =>
          match dget sizes id with
          | Some previous =>
              if previous =? t_size t then pool_sizes ts' (dset sizes id (t_size t)) plain
              else Err (Exn ValueError "Packed KV descriptors sharing backing_id disagree on size")
          | None => pool_sizes ts' (dset sizes id (t_size t)) plain
          end
      end
  end.

Definition hcu_derive_cpu_config (original : KVCacheConfig -> Z -> result KVCacheConfig)
    (cfg : KVCacheConfig) (cpu_capacity_bytes : Z) : result KVCacheConfig :=
  let ts := kv_cache_tensors cfg in
  if bool_decide (ts = []) || (num_blocks cfg <=? 0) then original cfg cpu_capacity_bytes
  else
    keys ← packed_pool_keys ts;
    match keys with
    | [] => original cfg cpu_capacity_bytes
    | _ =>
        sizes ← pool_sizes ts [] 0;
        let total := sizes.2 + zsum (dvalues sizes.1) in
        if total <=? 0 then original cfg cpu_capacity_bytes
        else
          let n := Z.max 1 (num_blocks cfg * cpu_capacity_bytes / total) in
          cpu_tensors ← scaled_tensors (num_blocks cfg) n ts;
          mret (CacheConfig n (kv_cache_groups cfg) cpu_tensors false)
    end.
End offload.
End KvOffload.
