(* ===== verification/KvOffloadCorrect.v ===== *)
(** * The CPU copy keeps the layout

    The CPU configuration derived from a worker's packed caches addresses the
    layers at the same places of the block, counts the shared allocation once,
    and fits the capacity. *)

From S2P Require Import Prelude PyString Tensors LayerSplit LayerSplitCorrect LayerSplitConfig LayerPacking LayerPackingCorrect Envs KvPlanner KvPlannerCorrect KvMemoryCorrect KvCache KvViewCorrect KvAllocCorrect KvPipelineCorrect KvOffload.
From stdpp Require Import sorting.
Import LayerSplit SplitConfig Packing KvPlanner KvCache KvOffload.
Local Open Scope Z_scope.

Section offload.
Context (hashable : allocation_id -> bool) (cls : tensor_class) (id : allocation_id).
Hypothesis Hhash : hashable id = true.

Lemma pool_keys_same ts : ts <> [] -> Forall (fun t => t_backing_id t = Some id) ts ->
  exists keys, packed_pool_keys hashable ts = Ok keys /\ keys <> [].
Proof using Hhash.
  intros Hne Hts. destruct Hts as [|t ts Ht Hts]; [done|]. clear Hne. simpl. rewrite Ht.
  unfold hashable_backing_id. rewrite Hhash. simpl.
  assert (exists keys, packed_pool_keys hashable ts = Ok keys) as [keys ->]; [|by eexists].
  induction Hts as [|u ts Hu _ [keys IH]]; [by eexists|]. simpl. rewrite Hu.
  unfold hashable_backing_id. rewrite Hhash. simpl. rewrite IH. by eexists.
Qed.

(** One pool, however many descriptors view it *)
Lemma pool_sizes_same size ts d : Forall (fun t => t_backing_id t = Some id /\ t_size t = size) ts ->
  d = [] \/ d = [(id, size)] -> pool_sizes ts d 0 = Ok (if bool_decide (ts = []) then d else [(id, size)], 0).
Proof.
  intros Hts. revert d. induction Hts as [|t ts [Hid Hsz] _ IH]; intros d Hd; simpl; [done|]. rewrite Hid, Hsz.
  assert (dget [(id, size)] id = Some size /\ dset [(id, size)] id size = [(id, size)]) as [G1 G2]
    by (simpl; by rewrite !decide_True).
  destruct Hd as [-> | ->].
  - simpl. rewrite IH by (by right). by destruct ts.
  - rewrite G1, Z.eqb_refl, G2, IH by (by right). by destruct ts.
Qed.

Lemma scaled_tensor_ok t nb m :
  t_layers t <> [] -> t_backing_id t = Some id -> cls_keeps_attributes cls = true ->
  exists t', scaled_tensor cls nb m t = Ok t' /\ t_size t' = t_size t / nb * m /\ t_layers t' = t_layers t /\
    t_block_stride t' = t_block_stride t /\ t_offset t' = t_offset t /\ t_backing_id t' = Some id.
Proof.
  intros Hne Hid Hk. unfold scaled_tensor, layer_names, is_packed. rewrite Hid. cbn [andb].
  destruct (t_layers t) as [|x l] eqn:El; [done|]. cbn [mbind result_bind].
  destruct (has_fields cls ["block_stride"; "offset"]%string) eqn:E1; cbn [negb orb].
  - destruct (has_fields cls ["backing_id"]%string) eqn:E2; cbn [negb].
    + exists (replace_size cls t (t_size t / nb * m)). split; [done|]. unfold replace_size. cbn.
      unfold has_fields in E1, E2. cbn in E1, E2. rewrite !andb_true_r in E1, E2. apply andb_true_iff in E1 as [E1 E3].
      by rewrite E1, E2, E3.
    + destruct (make_packed_total cls (t_size t / nb * m) (x :: l) (t_layer_stride t) (t_offset t) (t_block_stride t) (Some id) Hk)
        as [t' Ht']; [done|]. exists t'. split; [done|]. by apply make_packed_fields in Ht' as (-> & -> & -> & -> & ->).
  - destruct (make_packed_total cls (t_size t / nb * m) (x :: l) (t_layer_stride t) (t_offset t) (t_block_stride t) (Some id) Hk)
      as [t' Ht']; [done|]. exists t'. split; [done|]. by apply make_packed_fields in Ht' as (-> & -> & -> & -> & ->).
Qed.

Lemma scaled_tensors_ok ts nb m :
  Forall (fun t => t_layers t <> [] /\ t_backing_id t = Some id) ts -> cls_keeps_attributes cls = true ->
  exists ts', scaled_tensors cls nb m ts = Ok ts' /\
    Forall2 (fun t t' => t_size t' = t_size t / nb * m /\ t_layers t' = t_layers t /\
      t_block_stride t' = t_block_stride t /\ t_offset t' = t_offset t /\ t_backing_id t' = Some id) ts ts'.
Proof.
  intros Hts Hk. induction Hts as [|t ts [Hl Hid] _ (ts' & E & HF)]; simpl; [exists []; split; [done|constructor]|].
  destruct (scaled_tensor_ok t nb m Hl Hid Hk) as (t' & Et & Ht'). rewrite Et. simpl. rewrite E. simpl.
  eexists. split; [done|]. by constructor.
Qed.
End offload.

(** The derived configuration of a worker is a worker's again. *)
Lemma cpu_worker parse groups st fams stride id n cfg hashable cls original capacity :
  worker_layout parse groups st fams stride id n (kv_cache_tensors cfg) -> num_blocks cfg = n -> 0 < n ->
  hashable id = true -> cls_keeps_attributes cls = true ->
  exists cfg', hcu_derive_cpu_config hashable cls original cfg capacity = Ok cfg' /\
    num_blocks cfg' = Z.max 1 (capacity / stride) /\ kv_cache_groups cfg' = kv_cache_groups cfg /\
    Forall2 (fun t t' => t_layers t' = t_layers t /\ t_offset t' = t_offset t /\
        t_block_stride t' = t_block_stride t /\ t_backing_id t' = t_backing_id t)
      (kv_cache_tensors cfg) (kv_cache_tensors cfg') /\
    worker_layout parse groups st fams stride id (Z.max 1 (capacity / stride)) (kv_cache_tensors cfg').
Proof.
  intros [Hf Hs Hfits Hal Hfp Hne Hnd Ht] Hnb Hn Hh Hk. set (ts := kv_cache_tensors cfg) in *.
  assert (Forall (fun t => t_backing_id t = Some id /\ t_size t = stride * n) ts) as H1.
  { apply Forall_forall. intros t Hin. by destruct (Ht t Hin) as (-> & _ & -> & _). }
  assert (Forall (fun t => t_layers t <> [] /\ t_backing_id t = Some id) ts) as H2.
  { apply Forall_forall. intros t Hin. by destruct (Ht t Hin) as (_ & _ & -> & m & i & p & -> & _). }
  assert (Forall (fun t => t_backing_id t = Some id) ts) as H3 by (eapply Forall_impl; [exact H1|]; naive_solver).
  destruct (pool_keys_same hashable id Hh ts Hne H3) as (keys & Ek & Hkeys).
  destruct (scaled_tensors_ok cls id ts n (Z.max 1 (capacity / stride)) H2 Hk) as (ts' & Es & HF).
  exists (CacheConfig (Z.max 1 (capacity / stride)) (kv_cache_groups cfg) ts' false).
  assert (map t_layers ts' = map t_layers ts) as Hnames.
  { clear - HF. induction HF as [|t t' l l' (_ & H & _) _ IH]; simpl; [done|]. by rewrite H, IH. }
  split_and!; [|done|done| |].
  - unfold hcu_derive_cpu_config. fold ts. rewrite bool_decide_eq_false_2, Hnb by done.
    destruct (Z.leb_spec n 0); [lia|]. cbn [orb]. rewrite Ek. cbn [mbind result_bind]. destruct keys; [done|].
    rewrite (pool_sizes_same id (stride * n) ts []) by (done || by left). rewrite bool_decide_eq_false_2 by done.
    cbn [mbind result_bind fst snd dvalues map zsum foldr]. rewrite Z.add_0_l, Z.add_0_r.
    destruct (Z.leb_spec (stride * n) 0); [nia|].
    replace (n * capacity / (stride * n)) with (capacity / stride)
      by (rewrite (Z.mul_comm stride), Z.div_mul_cancel_l; lia). by rewrite Es.
  - cbn [kv_cache_tensors]. apply Forall2_same_length_lookup_2; [by eapply Forall2_length|].
    intros k t t' Htk Htk'. pose proof (Forall2_lookup_lr _ _ _ _ _ _ HF Htk Htk') as (_ & S2 & S3 & S4 & S5).
    apply list_elem_of_lookup_2 in Htk. destruct (Ht t Htk) as (_ & _ & T & _). by rewrite S2, S3, S4, S5, T.
  - cbn [kv_cache_tensors]. split; [done..| |by rewrite Hnames|].
    + intros E. rewrite E in Hnames. by destruct ts.
    + intros t' [k Hk']%list_elem_of_lookup.
      destruct (Forall2_lookup_r _ _ _ _ _ HF Hk') as (t & Htk & S1 & S2 & S3 & S4 & S5).
      apply list_elem_of_lookup_2 in Htk. destruct (Ht t Htk) as (T1 & T2 & _ & m & i & p & T3 & T4 & T5 & T6).
      rewrite S1, S3, S5, T1, T2, Z.div_mul by lia. split_and!; [done..|]. exists m, i, p. by rewrite S2, S4.
Qed.

(** C26: the CPU copy of a worker's packed caches, derived after the rewrite of
    its plan, has as many whole blocks as the capacity holds and at least one;
    its descriptors view one allocation of that many strides, at the offsets
    and with the stride and identity of the device's, so the copy of a layer
    the rank keeps shares no byte of a block with another layer's. *)
Theorem cpu_copy_layout parse bucket override cls cls' hashable original c groups memory n ts st capacity :
  plan_input parse groups -> bucketing_ok groups (bucket_fn bucket groups) -> valid_state st ->
  pcp_size c = shard_size st -> total_layers_from_config c = Some (total_layers st) ->
  cls_keeps_attributes cls' = true ->
  (forall pss stride k, hashable (DsaLayerSplitPool pss stride k) = true) ->
  shrunk_packed_plan parse bucket override cls c groups memory = Ok (Some (n, ts)) -> 0 < n ->
  exists cfg' cpu stride,
    remap_packed_kv_tensor_offsets parse cls' (Some st) (config_from_plan (n, ts) groups) = Ok (true, cfg') /\
    hcu_derive_cpu_config hashable cls' original cfg' capacity = Ok cpu /\ 0 < stride /\
    num_blocks cpu = Z.max 1 (capacity / stride) /\
    Forall2 (fun t t' => t_layers t' = t_layers t /\ t_offset t' = t_offset t /\
        t_block_stride t' = t_block_stride t /\ t_backing_id t' = t_backing_id t)
      (kv_cache_tensors cfg') (kv_cache_tensors cpu) /\
    Forall (fun t => t_block_stride t = stride /\ t_size t = stride * num_blocks cpu) (kv_cache_tensors cpu) /\
    stride * num_blocks cpu <= Z.max capacity stride /\
    forall t1 t2 m1 m2 i1 p1 p2, t1 ∈ kv_cache_tensors cpu -> t2 ∈ kv_cache_tensors cpu ->
      t_layers t1 = [m1] -> t_layers t2 = [m2] -> m1 <> m2 -> parse m1 = Ok i1 -> resident st i1 = true ->
      dget (group_pages groups) m1 = Some p1 -> dget (group_pages groups) m2 = Some p2 ->
      t_offset t1 + p1 <= t_offset t2 \/ t_offset t2 + p2 <= t_offset t1.
Proof.
  intros Hin Hbk Hst Hpcp Htot Hcls Hhash Hplan Hn.
  destruct (planned_worker _ _ _ _ cls' _ _ _ _ _ st Hin Hbk Hst Hpcp Htot Hcls Hplan)
    as (cfg' & fams & stride & pss & Hr & _ & Hnb & _ & _ & Hw).
  destruct (cpu_worker _ _ _ _ _ _ _ _ hashable cls' original capacity Hw Hnb Hn (Hhash _ _ _) Hcls)
    as (cpu & Hd & Hm & _ & HF & Hw').
  pose proof (wl_stride _ _ _ _ _ _ _ _ Hw') as Hs.
  exists cfg', cpu, stride. split_and!; [done..| | |].
  - apply Forall_forall. intros t Ht. rewrite Hm. by destruct (wl_tensor _ _ _ _ _ _ _ _ Hw' t Ht) as (-> & -> & _).
  - rewrite Hm. pose proof (Z.mul_div_le capacity stride Hs). lia.
  - intros t1 t2 m1 m2 i1 p1 p2 Ht1 Ht2 L1 L2 Hne Hi1 Hres P1 P2.
    destruct (wl_tensor _ _ _ _ _ _ _ _ Hw' t1 Ht1) as (_ & _ & _ & m1' & j1 & q1 & E1 & J1 & Q1 & Loc1).
    destruct (wl_tensor _ _ _ _ _ _ _ _ Hw' t2 Ht2) as (_ & _ & _ & m2' & j2 & q2 & E2 & J2 & Q2 & Loc2).
    rewrite L1 in E1. rewrite L2 in E2. injection E1 as <-. injection E2 as <-.
    rewrite Hi1 in J1. rewrite P1 in Q1. rewrite P2 in Q2. injection J1 as <-. injection Q1 as <-. injection Q2 as <-.
    exact (located_disjoint st Hst fams 0 _ _ _ _ _ _ _ _ (wl_families _ _ _ _ _ _ _ _ Hw') Hne Hres Loc1 Loc2).
Qed.

Lemma cpu_copy_layout_witness :
  exists n ts cfg' cpu,
    shrunk_packed_plan demo_index None keep_blocks demo_class demo_split demo_groups 2330 = Ok (Some (n, ts)) /\
    remap_packed_kv_tensor_offsets demo_index demo_class (Some (SplitState 1 2 4 0)) (config_from_plan (n, ts) demo_groups)
      = Ok (true, cfg') /\
    hcu_derive_cpu_config (fun _ => true) demo_class (fun c _ => Ok c) cfg' 500 = Ok cpu /\ num_blocks cpu = 3.
Proof.
  destruct (shrunk_packed_plan demo_index None keep_blocks demo_class demo_split demo_groups 2330)
    as [[[n ts]|]|] eqn:E; [|vm_compute in E; discriminate E..].
  assert (n = 10) as Hn by (vm_compute in E; injection E as <- _; reflexivity).
  destruct (cpu_copy_layout demo_index None keep_blocks demo_class demo_class (fun _ => true) (fun c _ => Ok c)
    demo_split demo_groups 2330 n ts (SplitState 1 2 4 0) 500)
    as (cfg' & cpu & stride & Hr & Hd & Hs & Hb & _ & Hf & _);
    [apply demo_plan_input|apply demo_bucketing|repeat split; simpl; lia|reflexivity|reflexivity|reflexivity|reflexivity
    |exact E|lia|].
  exists n, ts, cfg', cpu. split_and!; [reflexivity|exact Hr|exact Hd|].
  assert (map t_block_stride (kv_cache_tensors cpu) = repeat 144 8) as Hstr.
  { vm_compute in E. injection E as <- <-. vm_compute in Hr. injection Hr as <-. vm_compute in Hd. injection Hd as <-. reflexivity. }
  destruct (kv_cache_tensors cpu) as [|t0 l]; [discriminate Hstr|]. apply Forall_cons in Hf as [[Hf _] _].
  injection Hstr as Hstr _. rewrite Hf in Hstr. rewrite Hb, Hstr. reflexivity.
Defined.
