(* ===== verification/RunnerCache.v ===== *)
(** * Cache views of the older runner

    Models [_reshape_kv_cache_tensors] and
    [_update_hybrid_attention_mamba_layout] of
    src/vllm_hcu/v1/hcu_model_runner.py: the block counts and shapes of the
    attention layers and the state tensors of the Mamba layers over their byte
    tensors.  vLLM's [_reshape_attention_kv_cache] and
    [has_mixed_kv_cache_block_dims] and the backends are parameters. *)

From S2P Require Import Prelude PyString Tensors LayerSplit LayerPacking KvPlanner KvCache.
Local Open Scope Z_scope.

Module RunnerCache.
Import LayerSplit Packing KvPlanner KvCache.

(** ** Specs and groups *)

Inductive cache_spec :=
  | AttentionSpec (s : layer_spec)
  | MambaSpec (page_size : Z) (states : list (list Z * torch_dtype))
  | OtherSpec (page_size : Z).

Definition spec_page_size (s : cache_spec) : Z :=
  match s with
  | AttentionSpec s => page_size_bytes s
  | MambaSpec page _ => page
  | OtherSpec page => page
  end.

Record runner_group := RunnerGroup {
  rg_backend : attn_backend;
  rg_block_dim : Z -> layer_spec -> result Z;
  rg_group_id : Z;
  rg_spec : cache_spec;
  rg_layer_specs : option (dict string cache_spec);
  rg_layer_names : list string
}.

(** A layer's cache: the view of an attention layer, or the states of a Mamba
    layer *)
Inductive layer_cache :=
  | AttentionCache (v : tensor_view)
  | StateTensors (vs : list tensor_view).

Section reshape.
(** The attention layers without a cache of their own, the byte tensors with
    their sizes, and the packed descriptors' offsets and strides *)
Context (runner_only : list string) (raws : dict string (nat * Z)) (layer_packing : dict string (Z * Z)).
Context (cache_dtype : string).
(** [raw_tensor, spec, shape, stride_order, kernel_num_blocks, packing] *)
Context (reshape_attention :
  nat -> layer_spec -> list Z -> list Z -> Z -> option (Z * Z) -> result tensor_view).

(** The blocks of a layer's byte tensor *)
Definition layer_blocks (bytes : Z) (spec : cache_spec) (packing : option (Z * Z)) : result Z :=
  match packing with
  | Some (_, block_stride) =>
      if bytes mod block_stride =? 0 then Ok (bytes / block_stride)
      else Err (Exn AssertionError "")
  | None =>
      let page := spec_page_size spec in
      if page <=? 0 then Err (Exn ValueError "KV page size must be positive")
      else if bytes mod page =? 0 then Ok (bytes / page)
      else Err (Exn AssertionError "")
  end.

(** The stride order of a backend, the identity when it has none *)
Definition runner_stride_order (be : attn_backend) (shape : list Z) : result (list Z) :=
  match get_kv_cache_stride_order be with
  | Ok order => if zlen order =? zlen shape then Ok order else Err (Exn AssertionError "")
  | Err e =>
      if bool_decide (exn_type e ∈ [AttributeError; OtherError "NotImplementedError"])
      then Ok (zrange 0 (zlen shape)) else Err e
  end.

(** The kernel block size an attention layer uses, with the one later layers of
    the group start from *)
Definition layer_kernel_block (s : layer_spec) (kernel_block_size : Z) : result Z :=
  let storage := default (block_size s) (storage_block_size s) in
  if storage <=? 0 then Err (Exn ValueError "KV storage block size must be positive")
  else
    let kernel := if negb (storage =? block_size s) then storage else kernel_block_size in
    if kernel =? 0 then Err (Exn ZeroDivisionError "integer division or modulo by zero")
    else if negb (storage mod kernel =? 0)
    then Err (Exn ValueError "KV storage block size must be divisible by the kernel block size")
    else Ok kernel.

(** An attention layer with its block count *)
Definition attention_layer (be : attn_backend) (s : layer_spec) (raw : nat) (num_blocks kernel : Z)
    (packing : option (Z * Z)) : result tensor_view :=
  let storage := default (block_size s) (storage_block_size s) in
  let kernel_num_blocks := num_blocks * (storage / kernel) in
  shape ← get_kv_cache_shape be kernel_num_blocks kernel (num_kv_heads s) (head_size s)
            (layer_cache_dtype s cache_dtype);
  order ← runner_stride_order be shape;
  reshape_attention raw s shape order kernel_num_blocks packing.

(** The state tensors of a Mamba layer, the next one at byte [offset] *)
Fixpoint mamba_states (raw : nat) (bytes page num_blocks offset : Z) (states : list (list Z * torch_dtype))
    : result (list tensor_view) :=
  match states with
  | [] => Ok []
  | (shape, d) :: states' =>
      let item := element_size d in
      let target_shape := num_blocks :: shape in
      if existsb (fun s => s <? 0) target_shape
      then Err (Exn RuntimeError "Trying to create tensor with negative dimension")
      else
        let stride := contiguous_stride target_shape in
        let target_stride := page / item :: drop 1 stride in
        if negb (offset mod item =? 0) then Err (Exn AssertionError "")
        else
          _ ← view_dtype bytes item;
          v ← as_strided bytes raw item target_shape target_stride (offset / item);
          rest ← mamba_states raw bytes page num_blocks (offset + default 0 (head stride) * item) states';
          mret (v :: rest)
  end.

(** What the loops carry from layer to layer *)
Record loop_state := LoopState {
  ls_kernel : Z;
  ls_has_attn : bool;
  ls_has_mamba : bool;
  ls_caches : dict string layer_cache
}.

(** One layer of a group *)
Definition reshape_group_layer (g : runner_group) (ls : loop_state) (name : string) : result loop_state :=
  if bool_decide (name ∈ runner_only) then Ok ls
  else
    match dget raws name with
    | None => Err (Exn KeyError name)
    | Some (raw, bytes) =>
        spec ← (match rg_layer_specs g with
                | Some per_layer =>
                    match dget per_layer name with Some s => Ok s | None => Err (Exn KeyError name) end
                | None => Ok (rg_spec g)
                end);
        let packing := dget layer_packing name in
        num_blocks ← layer_blocks bytes spec packing;
        match spec with
        | AttentionSpec s =>
            kernel ← layer_kernel_block s (ls_kernel ls);
            v ← attention_layer (rg_backend g) s raw num_blocks kernel packing;
            mret (LoopState kernel true (ls_has_mamba ls) (dset (ls_caches ls) name (AttentionCache v)))
        | MambaSpec page states =>
            vs ← mamba_states raw bytes page num_blocks 0 states;
            mret (LoopState (ls_kernel ls) (ls_has_attn ls) true (dset (ls_caches ls) name (StateTensors vs)))
        | OtherSpec _ => Err (Exn (OtherError "NotImplementedError") "")
        end
    end.

Fixpoint reshape_group_layers (g : runner_group) (names : list string) (ls : loop_state) : result loop_state :=
  match names with
  | [] => Ok ls
  | name :: names' => ls' ← reshape_group_layer g ls name; reshape_group_layers g names' ls'
  end.

Fixpoint reshape_groups (kernel_block_sizes : list Z) (groups : list runner_group) (ls : loop_state)
    : result loop_state :=
  match groups with
  | [] => Ok ls
  | g :: groups' =>
      if rg_group_id g =? zlen kernel_block_sizes then reshape_groups kernel_block_sizes groups' ls
      else
        kernel ← py_get kernel_block_sizes (rg_group_id g);
        ls' ← reshape_group_layers g (rg_layer_names g)
                (LoopState kernel (ls_has_attn ls) (ls_has_mamba ls) (ls_caches ls));
        reshape_groups kernel_block_sizes groups' ls'
  end.

(** ** Hybrid layouts *)

(** [as_strided_] to blocks of interleaved keys and values *)
Definition block_first (bytes_of : nat -> Z) (c : layer_cache) : result layer_cache :=
  match c with
  | AttentionCache v =>
      let hidden := numel (drop 2 (v_size v)) in
      w ← as_strided (bytes_of (v_base v)) (v_base v) (v_item v) (v_size v)
            (hidden :: 2 * hidden :: drop 2 (v_stride v)) (v_offset v);
      mret (AttentionCache w)
  | StateTensors _ => Err (Exn AttributeError "shape")
  end.

Fixpoint block_first_layers (bytes_of : nat -> Z) (names : list string) (caches : dict string layer_cache)
    : result (dict string layer_cache) :=
  match names with
  | [] => Ok caches
  | name :: names' =>
      match dget caches name with
      | None => Err (Exn KeyError name)
      | Some c => c' ← block_first bytes_of c; block_first_layers bytes_of names' (dset caches name c')
      end
  end.

(** [_update_hybrid_attention_mamba_layout] *)
Fixpoint update_hybrid_layout (bytes_of : nat -> Z) (kernel_block_sizes : list Z) (groups : list runner_group)
    (caches : dict string layer_cache) : result (dict string layer_cache) :=
  match groups with
  | [] => Ok caches
  | g :: groups' =>
      match rg_spec g with
      | AttentionSpec s =>
          kernel ← py_get kernel_block_sizes (rg_group_id g);
          block_dim ← rg_block_dim g kernel s;
          if block_dim =? 0 then update_hybrid_layout bytes_of kernel_block_sizes groups' caches
          else if negb (block_dim =? 1) then Err (Exn AssertionError "")
          else
            caches' ← block_first_layers bytes_of (rg_layer_names g) caches;
            update_hybrid_layout bytes_of kernel_block_sizes groups' caches'
      | _ => update_hybrid_layout bytes_of kernel_block_sizes groups' caches
      end
  end.

(** [_reshape_kv_cache_tensors]; [mixed] is the answer of
    [_has_mixed_attention_kv_layout] *)
Definition reshape_kv_cache_tensors (bytes_of : nat -> Z) (mixed : bool) (kernel_block_sizes : list Z)
    (groups : list runner_group) : result (dict string layer_cache) :=
  ls ← reshape_groups kernel_block_sizes groups (LoopState 0 false false []);
  if ls_has_attn ls && (ls_has_mamba ls || mixed)
  then update_hybrid_layout bytes_of kernel_block_sizes groups (ls_caches ls)
  else mret (ls_caches ls).
End reshape.

(** The packed layers of a configuration, [layer_packing] *)
Definition packing_of (ts : list kv_tensor) : dict string (Z * Z) :=
  foldl (fun d t =>
    if 0 <? t_block_stride t
    then foldl (fun d n => dset d n (t_offset t, t_block_stride t)) d (t_layers t)
    else d) [] ts.
End RunnerCache.
