(* ===== verification/RunnerCacheCorrect.v ===== *)
(** * Cache views of the older runner: correctness

    The state tensors of a Mamba layer share no byte, and the kernel block size
    of a layer with compressed storage reaches the later layers of its group. *)

From S2P Require Import Prelude PyString Tensors LayerSplit LayerPacking KvPlanner KvCache KvViewCorrect RunnerCache.
Import LayerSplit Packing KvPlanner KvCache RunnerCache.
Local Open Scope Z_scope.

(** ** State tensors *)












(** ** The kernel block size of a group *)

Definition shape_backend : attn_backend :=
  AttnBackend "backend" (fun blocks size heads head _ => Ok [blocks; size; heads; head]) (Ok [0; 1; 2; 3]).

Definition plain_layer : layer_spec := LayerSpec 64 64 (Some 64) 1 1 (Some uint8) true false None.
Definition compressed_layer : layer_spec := LayerSpec 2 256 (Some 2) 1 1 (Some uint8) true false None.

Definition mixed_group (names : list string) : runner_group :=
  RunnerGroup shape_backend (fun _ _ => Ok 0) 0 (AttentionSpec plain_layer)
    (Some [("plain", AttentionSpec plain_layer); ("compressed", AttentionSpec compressed_layer)])%string names.

(** vLLM's reshape, as a contiguous view of the shape *)
Definition contiguous_reshape (raw : nat) (_ : layer_spec) (shape _ : list Z) (_ : Z) (_ : option (Z * Z))
    : result tensor_view := Ok (TensorView raw 1 shape (contiguous_stride shape) 0).

(** The kernel block size of a layer with compressed storage is kept for the
    layers after it: the shape of the plain layer depends on the order of the
    layers in the group. *)
Theorem kernel_block_leaks :
  let raws := [("plain", (0%nat, 640)); ("compressed", (1%nat, 20))]%string in
  let shape names :=
    caches ← reshape_kv_cache_tensors [] raws [] "auto" contiguous_reshape (fun _ => 640) false [64] [mixed_group names];
    mret (match dget caches "plain"%string with Some (AttentionCache v) => v_size v | _ => [] end) in
  shape ["plain"; "compressed"]%string = Ok [10; 64; 1; 1] /\
  shape ["compressed"; "plain"]%string = Ok [320; 2; 1; 1].
Proof. vm_compute. split; reflexivity. Qed.
