(* ===== verification/MooncakeRegions.v ===== *)
(** * Transfer regions of the Mooncake connector

    Models the pure half of
    src/vllm_hcu/distributed/kv_transfer/kv_connector/v1/mooncake/mooncake_connector.py:
    the memory regions a worker registers per layer, the validation and
    alignment of the regions of two peers, the part of a block one producer
    copies for one consumer when their tensor-parallel sizes differ, and the
    copy descriptors of a batch of requests.

    A descriptor is a source address, a destination address and a length in
    bytes.  vLLM's [TransferTopology] and the map from logical to kernel blocks
    are parameters.  Lists that the code passes in parallel stay parallel. *)

From Stdlib Require Import Ascii.
From S2P Require Import Prelude PyString Tensors Envs.
Local Open Scope Z_scope.

Module Mooncake.

Record TransferRegion := Region {
  layer_name : string;
  layer_index : Z;
  base_addr : Z;
  block_len : Z;
  kv_block_len : Z;
  group_index : Z;
  num_blocks : option Z
}.

#[global] Instance region_eq_dec : EqDecision TransferRegion.
Proof. solve_decision. Defined.

Definition assert_ (b : bool) (msg : string) : result unit :=
  if b then Ok tt else Err (Exn AssertionError msg).
Definition check (b : bool) (msg : string) : result unit :=
  if b then Ok tt else Err (Exn ValueError msg).

(** ** Partition of the layers over pipeline stages *)

(** [re.fullmatch(r"[0-9]+", part)] and [int(part)] *)
Fixpoint digits_value (acc : Z) (s : string) : option Z :=
  match s with
  | EmptyString => Some acc
  | String c s' => match Envs.digit_of c with Some d => digits_value (acc * 10 + d) s' | None => None end
  end.
Definition layer_count_of (part : string) : option Z :=
  let s := strip part in if bool_decide (s = "") then None else digits_value 0 s.

Definition normalize_pp_layer_partition (partition : string) (num_layers pp_size : Z) : result (list Z) :=
  match mapM layer_count_of (split_on ","%char partition) with
  | None => Err (Exn ValueError "requires comma-separated layer counts")
  | Some counts =>
      check (negb (negb (zlen counts =? pp_size) || existsb (fun count => count <=? 0) counts))
        "requires one positive count per stage" ;;
      check (zsum counts =? num_layers) "must sum to the model layer count" ;;
      Ok counts
  end.

(** [get_pp_indices] is vLLM's; [partition] is [envs.VLLM_PP_LAYER_PARTITION]. *)
Definition get_pp_stage_layer_range (get_pp_indices : Z -> Z -> Z -> Z * Z) (partition : option string)
    (num_layers pp_rank pp_size : Z) : result (Z * Z) :=
  check (negb ((pp_size <=? 0) || (num_layers <? pp_size) || negb ((0 <=? pp_rank) && (pp_rank <? pp_size))))
    "requires positive stage sizes and a valid rank" ;;
  match partition with
  | Some p => normalize_pp_layer_partition p num_layers pp_size ;; Ok (get_pp_indices num_layers pp_rank pp_size)
  | None => Ok (get_pp_indices num_layers pp_rank pp_size)
  end.

(** ** Regions *)

Definition valid_block_capacities (counts : list Z) (region_count : Z) : bool :=
  (zlen counts =? region_count) && forallb (fun count => 0 <? count) counts.

(** One registered tensor: one region, or two halves *)
Definition expand_one (name : string) (index base stride payload group : Z) (split : bool) (capacity : option Z)
    : result (list TransferRegion) :=
  check (negb (base <=? 0)) "base addresses must be positive" ;;
  check (negb ((stride <=? 0) || (payload <=? 0))) "strides and payload lengths must be positive" ;;
  check (negb (stride <? payload * (if split then 2 else 1))) "payload exceeds its physical block stride" ;;
  Ok (Region name index base stride payload group capacity ::
      (if split then [Region name index (base + payload) stride payload group capacity] else [])).

Fixpoint expand_each (l : list (Z * (Z * (Z * (string * (Z * (Z * (bool * option Z))))))))
    : result (list TransferRegion) :=
  match l with
  | [] => Ok []
  | (base, (stride, (payload, (name, (index, (group, (split, capacity))))))) :: rest =>
      regions ← expand_one name index base stride payload group split capacity;
      more ← expand_each rest;
      Ok (regions ++ more)
  end.

(** [num_blocks or [None] * n] *)
Definition capacities_of (counts : option (list Z)) (n : nat) : list (option Z) :=
  match counts with Some (c :: l) => Some c :: map Some l | _ => replicate n None end.

Definition expand_transfer_regions (base_addrs block_lens kv_block_lens : list Z) (layer_names : list string)
    (layer_indices : list Z) (is_kv_layout_blocks_first : bool) (group_indices : option (list Z))
    (split_kv_regions : option (list bool)) (num_blocks_per_layer : option (list Z)) : result (list TransferRegion) :=
  let n := length layer_names in
  assert_ ((length base_addrs =? length block_lens)%nat && (length block_lens =? length kv_block_lens)%nat &&
    (length kv_block_lens =? n)%nat && (n =? length layer_indices)%nat) "matching metadata lengths" ;;
  let group_indices := default (replicate n 0) group_indices in
  assert_ (length group_indices =? n)%nat "matching group metadata lengths" ;;
  let split_kv_regions := default (replicate n is_kv_layout_blocks_first) split_kv_regions in
  assert_ (length split_kv_regions =? n)%nat "matching split metadata" ;;
  match num_blocks_per_layer with
  | Some counts => check (valid_block_capacities counts (zlen layer_names)) "one positive block capacity per region"
  | None => Ok tt
  end ;;
  expand_each (zip base_addrs (zip block_lens (zip kv_block_lens (zip layer_names (zip layer_indices
    (zip group_indices (zip split_kv_regions (capacities_of num_blocks_per_layer n)))))))).

(** ** Heterogeneous tensor parallelism *)

(** vLLM's [TransferTopology] of a worker *)
Record topology := Topology {
  tp_rank : Z;
  tp_ratio : Z -> Z;
  handshake_target_ranks : Z -> list Z;
  local_replicates_kv_cache : bool
}.

(** Whether to transfer, the offsets in the source and destination payloads,
    and the length *)
Definition compute_sender_transfer_plan (topo : topology) (remote_tp_rank remote_tp_size local_kv_block_len
    remote_kv_block_len : Z) (producer_cache_replicated : bool) : bool * Z * Z * Z :=
  let ratio := tp_ratio topo remote_tp_size in
  if ratio =? 1 then (true, 0, 0, local_kv_block_len)
  else if 0 <? ratio then
    if producer_cache_replicated then (tp_rank topo mod ratio =? 0, 0, 0, local_kv_block_len)
    else (true, 0, (tp_rank topo mod ratio) * local_kv_block_len, local_kv_block_len)
  else if producer_cache_replicated then (true, 0, 0, local_kv_block_len)
  else (true, (remote_tp_rank mod (- ratio)) * remote_kv_block_len, 0, remote_kv_block_len).

Definition can_coalesce_block_transfers (local_region_block_len remote_region_block_len src_region_offset
    dst_region_offset transfer_len : Z) : bool :=
  (src_region_offset =? 0) && (dst_region_offset =? 0) && (transfer_len =? local_region_block_len) &&
  (transfer_len =? remote_region_block_len).

(** The lengths of one pair of regions fit together. *)
Definition lengths_match (ratio : Z) (replicated : bool) (local remote : TransferRegion) : bool :=
  if replicated then kv_block_len local =? kv_block_len remote
  else if ratio =? 1 then kv_block_len local =? kv_block_len remote
  else if 0 <? ratio then kv_block_len remote =? kv_block_len local * ratio
  else kv_block_len local =? kv_block_len remote * (- ratio).

(** [None] when nothing is wrong *)
Definition validate_asymmetric_region_lengths (local_regions remote_regions : list TransferRegion) (topo : topology)
    (remote_tp_size : Z) (producer_cache_replicated : bool) : option string :=
  if negb (length local_regions =? length remote_regions)%nat then Some "matching KV region counts"
  else if forallb (fun '(l, r) => lengths_match (tp_ratio topo remote_tp_size) producer_cache_replicated l r)
            (zip local_regions remote_regions) then None
  else Some "KV region length mismatch".

Definition validate_nonnegative_block_ids (local_block_ids remote_block_ids : list (list Z)) : option string :=
  if existsb (existsb (fun id => id <? 0)) local_block_ids then Some "producer block ID is negative"
  else if existsb (existsb (fun id => id <? 0)) remote_block_ids then Some "consumer block ID is negative"
  else None.

(** ** Alignment *)

(** The regions with their names and occurrences; [counts] is the
    [defaultdict]. *)
Fixpoint keyed_regions (counts : string -> Z) (regions : list TransferRegion)
    : list (string * Z * TransferRegion) :=
  match regions with
  | [] => []
  | r :: rest =>
      let name := layer_name r in
      (name, counts name, r) ::
      keyed_regions (fun n => if decide (n = name) then counts n + 1 else counts n) rest
  end.

(** [dict(keyed)]: the last entry of a key counts. *)
Definition remote_by_key (keyed : list (string * Z * TransferRegion)) : dict (string * Z) TransferRegion :=
  foldl (fun d '(name, occurrence, r) => dset d (name, occurrence) r) [] keyed.

Fixpoint align_loop (by_key : dict (string * Z) TransferRegion) (keyed : list (string * Z * TransferRegion))
    : (list TransferRegion * list TransferRegion) + string :=
  match keyed with
  | [] => inl ([], [])
  | (name, occurrence, local) :: rest =>
      match dget by_key (name, occurrence) with
      | None => inr "registered layer has no matching consumer occurrence"
      | Some remote =>
          if negb (layer_index local =? layer_index remote) then inr "registered layer index mismatch"
          else if negb (group_index local =? group_index remote) then inr "registered group index mismatch"
          else match align_loop by_key rest with
          | inl (ls, rs) => inl (local :: ls, remote :: rs)
          | inr msg => inr msg
          end
      end
  end.

(** The aligned regions, or an error message *)
Definition align_transfer_regions (local_regions remote_regions : list TransferRegion)
    : (list TransferRegion * list TransferRegion) + string :=
  align_loop (remote_by_key (keyed_regions (fun _ => 0) remote_regions)) (keyed_regions (fun _ => 0) local_regions).

(** ** The wire contract *)

Definition all_equal (l : list nat) : bool :=
  match l with [] => false | x :: l' => forallb (Nat.eqb x) l' end.

Fixpoint first_error {A} (check : A -> option string) (l : list A) : option string :=
  match l with
  | [] => None
  | x :: l' => match check x with Some msg => Some msg | None => first_error check l' end
  end.

Definition local_identity_error (x : string * (Z * Z)) : option string :=
  let '(name, (index, group)) := x in
  if bool_decide (name = "") then Some "local metadata requires a non-empty layer name"
  else if index <? 0 then Some "local metadata requires non-negative layer indices"
  else if group <? 0 then Some "local metadata requires non-negative group indices"
  else None.

Definition remote_entry_error (x : Z * (Z * (Z * (string * (Z * Z))))) : option string :=
  let '(base, (stride, (payload, (name, (index, group))))) := x in
  if base <=? 0 then Some "remote metadata requires positive base addresses"
  else if stride <=? 0 then Some "remote metadata requires positive physical block strides"
  else if payload <=? 0 then Some "remote metadata requires positive KV payload sizes"
  else if stride <? payload then Some "remote KV payload exceeds its physical block stride"
  else if bool_decide (name = "") then Some "remote metadata requires a non-empty layer name"
  else if index <? 0 then Some "remote metadata requires non-negative layer indices"
  else if group <? 0 then Some "remote metadata requires non-negative group indices"
  else None.

Definition validate_phase1_metadata (local_layer_names : list string) (local_layer_indices local_group_indices : list Z)
    (remote_base_addrs remote_block_lens remote_kv_block_lens : list Z) (remote_layer_names : list string)
    (remote_layer_indices remote_group_indices : list Z) (remote_num_blocks_per_layer : option (list Z))
    : option string :=
  if match remote_num_blocks_per_layer with
     | Some counts => negb (valid_block_capacities counts (zlen remote_layer_names))
     | None => false
     end then Some "remote metadata requires one positive block capacity per region"
  else if negb (all_equal [length local_layer_names; length local_layer_indices; length local_group_indices])
  then Some "local identity fields have inconsistent cache-entry counts"
  else if negb (all_equal [length remote_base_addrs; length remote_block_lens; length remote_kv_block_lens;
    length remote_layer_names; length remote_layer_indices; length remote_group_indices])
  then Some "metadata fields have inconsistent cache-entry counts"
  else match first_error local_identity_error (zip local_layer_names (zip local_layer_indices local_group_indices)) with
  | Some msg => Some msg
  | None =>
      first_error remote_entry_error (zip remote_base_addrs (zip remote_block_lens (zip remote_kv_block_lens
        (zip remote_layer_names (zip remote_layer_indices remote_group_indices)))))
  end.

Definition validate_phase1_kv_cache_config (has_mamba_layers : bool) (num_groups physical_blocks_per_logical_block : Z)
    : result unit :=
  check (negb (physical_blocks_per_logical_block <=? 0)) "a positive number of physical kernel blocks" ;;
  (if has_mamba_layers then Err (Exn (OtherError "NotImplementedError") "Mamba/GDN hybrid cache groups") else Ok tt) ;;
  check (negb (num_groups =? 0)) "at least one KV cache group".

(** ** Runs of blocks *)

(** [np.diff] *)
Definition diff (l : list Z) : list Z := zip_with (fun a b => a - b) (tail l) l.

(** [np.where(mask)[0]] from a position on *)
Fixpoint where_ (i : nat) (mask : list bool) : list nat :=
  match mask with
  | [] => []
  | b :: mask' => if b then i :: where_ (S i) mask' else where_ (S i) mask'
  end.

(** [np.split] at increasing positions, the first [pos] elements being gone *)
Fixpoint split_from {A} (pos : nat) (l : list A) (brk : list nat) : list (list A) :=
  match brk with
  | [] => [l]
  | b :: brk' => take (b - pos) l :: split_from b (drop (b - pos) l) brk'
  end.

(** The lists have the same length. *)
Definition group_concurrent_contiguous (src_indices dst_indices : list Z) : list (list Z) * list (list Z) :=
  if (length src_indices =? 0)%nat then ([], [])
  else
    let mask := zip_with (fun a b => negb (a =? 1) || negb (b =? 1)) (diff src_indices) (diff dst_indices) in
    let brk := map S (where_ 0 mask) in
    (split_from 0 src_indices brk, split_from 0 dst_indices brk).

(** ** Copy descriptors *)

Record descriptor := Copy { src_ptr : Z; dst_ptr : Z; copy_len : Z }.

(** One region of one request: the groups of blocks to copy *)
Definition group_copies (local remote : TransferRegion) (src_off dst_off len : Z) (coalesce : bool)
    (groups : list Z * list Z) : result (list descriptor) :=
  let one '(l, r) := Copy (base_addr local + l * block_len local + src_off)
                          (base_addr remote + r * block_len remote + dst_off) len in
  if coalesce then
    match groups with
    | (l :: _, r :: _) =>
        let d := one (l, r) in Ok [Copy (src_ptr d) (dst_ptr d) (len * zlen groups.1)]
    | _ => Err (Exn IndexError "list index out of range")
    end
  else Ok (map one (zip groups.1 groups.2)).

Fixpoint all_group_copies (local remote : TransferRegion) (src_off dst_off len : Z) (coalesce : bool)
    (groups : list (list Z * list Z)) : result (list descriptor) :=
  match groups with
  | [] => Ok []
  | g :: rest =>
      ds ← group_copies local remote src_off dst_off len coalesce g;
      more ← all_group_copies local remote src_off dst_off len coalesce rest;
      Ok (ds ++ more)
  end.

(** [l[i]] for a non-negative index *)
Definition item {A} (l : list A) (i : Z) : result A :=
  match zget l i with Some x => Ok x | None => Err (Exn IndexError "list index out of range") end.

Definition region_copies (topo : topology) (remote_tp_rank remote_tp_size : Z) (local_groups remote_groups : list (list Z))
    (local remote : TransferRegion) : result (list descriptor) :=
  assert_ (group_index local =? group_index remote) "must belong to the same KV group" ;;
  assert_ (group_index local <? zlen local_groups) "references a missing KV group" ;;
  local_ids ← item local_groups (group_index local);
  remote_ids ← item remote_groups (group_index local);
  if (length local_ids =? 0)%nat then Ok []
  else
    let '(src_groups, dst_groups) := group_concurrent_contiguous local_ids remote_ids in
    let '(should_transfer, src_off, dst_off, len) :=
      compute_sender_transfer_plan topo remote_tp_rank remote_tp_size (kv_block_len local) (kv_block_len remote)
        (local_replicates_kv_cache topo) in
    if negb should_transfer then Ok []
    else
      assert_ (src_off + len <=? kv_block_len local) "source transfer region exceeds local KV block size" ;;
      assert_ (dst_off + len <=? kv_block_len remote) "destination transfer region exceeds remote KV block size" ;;
      let coalesce := can_coalesce_block_transfers (block_len local) (block_len remote) src_off dst_off len in
      all_group_copies local remote src_off dst_off len coalesce (zip src_groups dst_groups).

Fixpoint regions_copies (topo : topology) (remote_tp_rank remote_tp_size : Z)
    (local_groups remote_groups : list (list Z)) (regions : list (TransferRegion * TransferRegion))
    : result (list descriptor) :=
  match regions with
  | [] => Ok []
  | (local, remote) :: rest =>
      ds ← region_copies topo remote_tp_rank remote_tp_size local_groups remote_groups local remote;
      more ← regions_copies topo remote_tp_rank remote_tp_size local_groups remote_groups rest;
      Ok (ds ++ more)
  end.

(** ** The blocks of a request *)

(** [max(group, default=-1)] *)
Definition max_id (group : list Z) : Z := match group with [] => -1 | x :: l => foldl Z.max x l end.

(** The block ids of one side stay inside the capacities of its regions. *)
Definition region_bounds_error (groups : list (list Z)) (r : TransferRegion) : option string :=
  match zget groups (group_index r) with
  | None => Some "region references a missing KV group"
  | Some ids =>
      match num_blocks r with
      | Some n => if n <=? max_id ids then Some "block ID exceeds region capacity" else None
      | None => None
      end
  end.

(** What can be wrong with a request, with the message that is reported *)
Inductive paired :=
  | Nothing
  | Rejected (msg : string)
  | Paired (local_groups remote_groups : list (list Z)).

Section blocks.
(** [mamba] tells which groups are Mamba groups; the null block *)
Context (mamba : list bool) (NULL_BLOCK_ID : Z).
(** Kernel blocks per logical block, and [BlockTable.map_to_kernel_blocks] *)
Context (physical_blocks : Z) (map_to_kernel_blocks : list Z -> Z -> list Z).

Fixpoint pair_groups (index : Z) (groups : list (list Z * list Z))
    : result (option (list (list Z) * list (list Z))) :=
  match groups with
  | [] => Ok (Some ([], []))
  | (local, remote) :: rest =>
      is_mamba ← item mamba index;
      let clean (l : list Z) := if is_mamba : bool then filter (fun id => id <> NULL_BLOCK_ID) l else l in
      let local := clean local in
      let remote := clean remote in
      if (length local <? length remote)%nat then Ok None
      else
        let local := drop (length local - length remote) local in
        more ← pair_groups (index + 1) rest;
        Ok (match more with Some (ls, rs) => Some (local :: ls, remote :: rs) | None => None end)
  end.

Fixpoint kernel_groups (index : Z) (groups : list (list Z)) : result (list (list Z)) :=
  match groups with
  | [] => Ok []
  | g :: rest =>
      is_mamba ← item mamba index;
      more ← kernel_groups (index + 1) rest;
      Ok ((if is_mamba : bool then g else map_to_kernel_blocks g physical_blocks) :: more)
  end.

Definition logical_to_kernel_block_ids (block_ids : list (list Z)) : result (list (list Z)) :=
  if physical_blocks =? 1 then Ok block_ids else kernel_groups 0 block_ids.

Definition is_empty {A} (l : list A) : bool := match l with [] => true | _ => false end.

(** The kernel blocks to copy for one request *)
Definition pair_blocks (local_regions remote_regions : list TransferRegion) (local_block_ids remote_block_ids : list (list Z))
    : result paired :=
  if forallb is_empty remote_block_ids then Ok Nothing
  else if negb (length local_block_ids =? length remote_block_ids)%nat then Ok (Rejected "KV group count mismatch")
  else
    groups ← pair_groups 0 (zip local_block_ids remote_block_ids);
    match groups with
    | None => Ok (Rejected "P num blocks less than D")
    | Some (local, remote) =>
        if forallb is_empty local then Ok Nothing
        else
          local ← logical_to_kernel_block_ids local;
          remote ← logical_to_kernel_block_ids remote;
          match validate_nonnegative_block_ids local remote with
          | Some msg => Ok (Rejected msg)
          | None =>
              match first_error (region_bounds_error local) local_regions with
              | Some msg => Ok (Rejected msg)
              | None =>
                  match first_error (region_bounds_error remote) remote_regions with
                  | Some msg => Ok (Rejected msg)
                  | None => Ok (Paired local remote)
                  end
              end
          end
    end.

(** [_build_transfer_params]: for every request its id, the blocks of the
    producer and those of the consumer.  The result: the descriptors, the
    requests with an error and the first message *)
Fixpoint build_transfer_params (topo : topology) (remote_tp_rank remote_tp_size : Z)
    (local_regions remote_regions : list TransferRegion) (ready : list (string * (list (list Z) * list (list Z))))
    : result (list descriptor * list string * option string) :=
  match ready with
  | [] => Ok ([], [], None)
  | (req, (local_block_ids, remote_block_ids)) :: rest =>
      p ← pair_blocks local_regions remote_regions local_block_ids remote_block_ids;
      match p with
      | Nothing => build_transfer_params topo remote_tp_rank remote_tp_size local_regions remote_regions rest
      | Rejected msg =>
          more ← build_transfer_params topo remote_tp_rank remote_tp_size local_regions remote_regions rest;
          let '(ds, errs, _) := more in Ok (ds, req :: errs, Some msg)
      | Paired local remote =>
          ds ← regions_copies topo remote_tp_rank remote_tp_size local remote (zip local_regions remote_regions);
          more ← build_transfer_params topo remote_tp_rank remote_tp_size local_regions remote_regions rest;
          let '(ds', errs, msg) := more in Ok (ds ++ ds', errs, msg)
      end
  end.
End blocks.
End Mooncake.
