(* ===== verification/MooncakeRegionsCorrect.v ===== *)
(** * Correctness of the Mooncake transfers

    The descriptors of a batch copy, byte for byte, the blocks of its requests
    and nothing else, inside the registered regions; and over the producers
    that serve one consumer every byte of its blocks is written exactly once,
    from the place it has in the whole cache. *)

From S2P Require Import Prelude PyString Tensors Envs MooncakeRegions.
Import Mooncake.
Local Open Scope Z_scope.

(** ** Runs of blocks *)

(** The groups by recursion on the positions *)
Fixpoint runs (x : Z) (l : list Z) (mask : list bool) : list (list Z) :=
  match l, mask with
  | y :: l', b :: mask' =>
      if b then [x] :: runs y l' mask'
      else match runs y l' mask' with g :: gs => (x :: g) :: gs | [] => [[x]] end
  | _, _ => [x :: l]
  end.

Lemma where_ge i mask : Forall (fun j => (i <= j)%nat) (where_ i mask).
Proof.
  revert i. induction mask as [|b mask IH]; intros i; [constructor|]. cbn.
  assert (Forall (fun j => (i <= j)%nat) (where_ (S i) mask)) as H.
  { eapply Forall_impl; [apply IH|]. intros j Hj. cbn in Hj. lia. }
  destruct b; [by constructor|done].
Qed.

Lemma split_from_runs i x l mask :
  length mask = length l -> split_from i (x :: l) (map S (where_ i mask)) = runs x l mask.
Proof.
  revert i x l. induction mask as [|b mask IH]; intros i x [|y l] Hl; try done. cbn [where_ runs].
  injection Hl as Hl. destruct b.
  - cbn [map split_from]. replace (S i - i)%nat with 1%nat by lia. cbn [take drop]. by rewrite IH.
  - rewrite <- (IH (S i)) by done. pose proof (where_ge (S i) mask) as Hg.
    destruct (where_ (S i) mask) as [|j js]; [done|]. apply Forall_cons in Hg as [Hj _]. cbn [map split_from].
    replace (S j - i)%nat with (S (S j - S i)) by lia. cbn [take drop]. done.
Qed.

Lemma length_diff x l : length (diff (x :: l)) = length l.
Proof. unfold diff. cbn [tail]. rewrite length_zip_with. simpl. lia. Qed.

Lemma group_runs x src y dst :
  length src = length dst ->
  let mask := zip_with (fun a b => negb (a =? 1) || negb (b =? 1)) (diff (x :: src)) (diff (y :: dst)) in
  group_concurrent_contiguous (x :: src) (y :: dst) = (runs x src mask, runs y dst mask).
Proof.
  intros Hl mask. unfold group_concurrent_contiguous. cbn [length Nat.eqb]. cbv zeta. fold mask.
  assert (length mask = length src) as Hm by (unfold mask; rewrite length_zip_with, !length_diff; lia).
  rewrite !split_from_runs; [done|lia|lia].
Qed.

(** A pair of groups of blocks that follow each other on both sides *)
Definition run_pair (g : list Z * list Z) : Prop :=
  exists s d n, 0 < n /\ g = (zrange s n, zrange d n).

Lemma zrange_succ s n : 0 <= n -> zrange s (n + 1) = s :: zrange (s + 1) n.
Proof. intros Hn. rewrite Z.add_comm, (zrange_app s 1 n) by lia. done. Qed.

Lemma runs_pairs x src y dst :
  length src = length dst ->
  let mask := zip_with (fun a b => negb (a =? 1) || negb (b =? 1)) (diff (x :: src)) (diff (y :: dst)) in
  exists n gs, 0 < n /\ zip (runs x src mask) (runs y dst mask) = (zrange x n, zrange y n) :: gs /\
    Forall run_pair gs /\
    concat (map (fun g => zip g.1 g.2) (zip (runs x src mask) (runs y dst mask))) = zip (x :: src) (y :: dst).
Proof.
  revert x y dst. induction src as [|x' src IH]; intros x y [|y' dst] Hl; try done.
  - exists 1, []. split_and!; [lia|done|constructor|done].
  - injection Hl as Hl. cbn zeta. change (diff (x :: x' :: src)) with (x' - x :: diff (x' :: src)).
    change (diff (y :: y' :: dst)) with (y' - y :: diff (y' :: dst)). cbn [zip_with runs].
    destruct (IH x' y' dst Hl) as (n & gs & Hn & Hz & Hgs & Hc). clear IH. cbn zeta in Hz, Hc.
    set (mask := zip_with _ (diff (x' :: src)) (diff (y' :: dst))) in *.
    destruct (negb (x' - x =? 1) || negb (y' - y =? 1)) eqn:E.
    + exists 1, (zip (runs x' src mask) (runs y' dst mask)). cbn [zip zip_with]. split_and!; [lia|done| |].
      * rewrite Hz. constructor; [|done]. by exists x', y', n.
      * cbn [map concat zip zip_with fst snd app]. cbn [zip] in Hc. by rewrite Hc.
    + bool_prop. destruct (runs x' src mask) as [|g1 r1], (runs y' dst mask) as [|g2 r2]; try done.
      cbn [zip zip_with] in *. injection Hz as -> -> Hz. exists (n + 1), gs.
      split_and!; [lia| |done|].
      * rewrite !zrange_succ by lia. by replace (x + 1) with x' by lia; replace (y + 1) with y' by lia; rewrite Hz.
      * cbn [map concat fst snd zip zip_with app] in *. by rewrite Hc.
Qed.

(** The groups are runs on both sides and hold the pairs of the lists in
    their order. *)
Lemma group_concurrent_spec src dst :
  length src = length dst ->
  let '(gs, gd) := group_concurrent_contiguous src dst in
  Forall run_pair (zip gs gd) /\ concat (map (fun g => zip g.1 g.2) (zip gs gd)) = zip src dst.
Proof.
  destruct src as [|x src], dst as [|y dst]; intros Hl; try done.
  injection Hl as Hl. rewrite group_runs by done.
  destruct (runs_pairs x src y dst Hl) as (n & gs & Hn & Hz & Hgs & Hc). split; [|exact Hc].
  rewrite Hz. constructor; [by exists x, y, n|done].
Qed.

(** ** The bytes of a descriptor *)

(** The source and destination address of every byte *)
Definition bytes_of (d : descriptor) : list (Z * Z) :=
  map (fun i => (src_ptr d + i, dst_ptr d + i)) (zrange 0 (copy_len d)).

(** The part of one block that is copied *)
Definition block_bytes (local remote : TransferRegion) (src_off dst_off len : Z) (b : Z * Z) : list (Z * Z) :=
  bytes_of (Copy (base_addr local + b.1 * block_len local + src_off)
    (base_addr remote + b.2 * block_len remote + dst_off) len).

Lemma map_zrange_shift {A} (f : Z -> A) s k n : map f (zrange (s + k) n) = map (fun i => f (k + i)) (zrange s n).
Proof.
  destruct (Z.le_gt_cases n 0) as [Hn|Hn]; [by rewrite !zrange_nil|]. apply Z.lt_le_incl in Hn.
  revert s. pattern n. apply natlike_ind; [done| |done]. clear n Hn. intros n Hn IH s. unfold Z.succ.
  rewrite !zrange_succ by done. cbn [map]. rewrite <- IH. f_equal; [f_equal; lia|]. do 2 f_equal. lia.
Qed.

Lemma bytes_of_app s d a b :
  0 <= a -> 0 <= b -> bytes_of (Copy s d (a + b)) = bytes_of (Copy s d a) ++ bytes_of (Copy (s + a) (d + a) b).
Proof.
  intros Ha Hb. unfold bytes_of. cbn [src_ptr dst_ptr copy_len]. rewrite zrange_app, map_app by done. f_equal.
  rewrite map_zrange_shift. apply map_ext. intros i. f_equal; lia.
Qed.

Lemma coalesced_bytes local remote len s d n :
  0 <= len -> 0 <= n -> block_len local = len -> block_len remote = len ->
  bytes_of (Copy (base_addr local + s * block_len local + 0) (base_addr remote + d * block_len remote + 0) (len * n)) =
  concat (map (block_bytes local remote 0 0 len) (zip (zrange s n) (zrange d n))).
Proof.
  intros Hlen Hn Hl Hr. revert s d. pattern n. apply natlike_ind; [| |done]; clear n Hn.
  - intros s d. rewrite Z.mul_0_r. done.
  - intros n Hn IH s d. unfold Z.succ. rewrite !zrange_succ by done.
    replace (len * (n + 1)) with (len + len * n) by lia. rewrite bytes_of_app by nia.
    cbn [zip zip_with map concat]. f_equal. change (zip_with pair (zrange (s + 1) n) (zrange (d + 1) n))
      with (zip (zrange (s + 1) n) (zrange (d + 1) n)). rewrite <- IH. do 2 f_equal; rewrite ?Hl, ?Hr; lia.
Qed.

(** Blocks are copied whole, in one piece with their neighbours. *)
Definition coalescible (local remote : TransferRegion) (src_off dst_off len : Z) (coalesce : bool) : Prop :=
  coalesce = true -> src_off = 0 /\ dst_off = 0 /\ block_len local = len /\ block_len remote = len.

Lemma can_coalesce_coalescible local remote src_off dst_off len :
  coalescible local remote src_off dst_off len
    (can_coalesce_block_transfers (block_len local) (block_len remote) src_off dst_off len).
Proof. unfold coalescible, can_coalesce_block_transfers. intros H. bool_prop. by split_and!. Qed.

Lemma group_copies_spec local remote src_off dst_off len coalesce g :
  0 <= len -> coalescible local remote src_off dst_off len coalesce -> run_pair g ->
  exists ds, group_copies local remote src_off dst_off len coalesce g = Ok ds /\
    concat (map bytes_of ds) = concat (map (block_bytes local remote src_off dst_off len) (zip g.1 g.2)).
Proof.
  intros Hlen Hco (s & d & n & Hn & ->). unfold group_copies. destruct coalesce.
  - destruct (Hco eq_refl) as (-> & -> & Hl & Hr). cbn [fst snd].
    rewrite <- coalesced_bytes by (done || lia). rewrite zlen_zrange by lia.
    replace n with ((n - 1) + 1) by lia. rewrite !zrange_succ by lia. eexists. split; [done|].
    cbn [map concat src_ptr dst_ptr]. by rewrite app_nil_r.
  - eexists. split; [done|]. cbn [fst snd]. rewrite map_map. f_equal. apply map_ext. by intros [l r].
Qed.

Lemma all_group_copies_spec local remote src_off dst_off len coalesce gs :
  0 <= len -> coalescible local remote src_off dst_off len coalesce -> Forall run_pair gs ->
  exists ds, all_group_copies local remote src_off dst_off len coalesce gs = Ok ds /\
    concat (map bytes_of ds) =
    concat (map (block_bytes local remote src_off dst_off len) (concat (map (fun g => zip g.1 g.2) gs))).
Proof.
  intros Hlen Hco Hgs. induction Hgs as [|g gs Hg Hgs (ds2 & H2 & Hb2)]; [by exists []|].
  destruct (group_copies_spec local remote src_off dst_off len coalesce g Hlen Hco Hg) as (ds1 & H1 & Hb1).
  exists (ds1 ++ ds2). cbn [all_group_copies]. unfold mbind, result_bind. rewrite H1, H2. split; [done|].
  rewrite map_app, concat_app, Hb1, Hb2. cbn [map concat]. by rewrite map_app, concat_app.
Qed.

(** ** One region *)

(** What the plan says of one block *)
Definition planned (topo : topology) (remote_rank remote_size : Z) (local remote : TransferRegion) (b : Z * Z)
    : list (Z * Z) :=
  let '(should, src_off, dst_off, len) :=
    compute_sender_transfer_plan topo remote_rank remote_size (kv_block_len local) (kv_block_len remote)
      (local_replicates_kv_cache topo) in
  if should then block_bytes local remote src_off dst_off len b else [].

(** The lengths passed [_validate_asymmetric_region_lengths]. *)
Record fits (topo : topology) (remote_size : Z) (local remote : TransferRegion) : Prop := Fits {
  ft_ratio : tp_ratio topo remote_size <> 0;
  ft_local : 0 < kv_block_len local;
  ft_remote : 0 < kv_block_len remote;
  ft_match : lengths_match (tp_ratio topo remote_size) (local_replicates_kv_cache topo) local remote = true;
  ft_group : group_index local = group_index remote
}.

(** The part that is copied lies inside both payloads. *)
Lemma plan_inside topo remote_rank remote_size local remote should src_off dst_off len :
  fits topo remote_size local remote ->
  compute_sender_transfer_plan topo remote_rank remote_size (kv_block_len local) (kv_block_len remote)
    (local_replicates_kv_cache topo) = (should, src_off, dst_off, len) ->
  0 <= src_off /\ 0 <= dst_off /\ 0 < len /\ src_off + len <= kv_block_len local /\ dst_off + len <= kv_block_len remote.
Proof.
  intros [Hr Hl Hrm Hm _]. unfold compute_sender_transfer_plan, lengths_match in *.
  set (k := tp_ratio topo remote_size) in *.
  destruct (Z.eqb_spec k 1); [intros [= <- <- <- <-]; destruct (local_replicates_kv_cache topo); bool_prop; lia|].
  destruct (Z.ltb_spec 0 k), (local_replicates_kv_cache topo); intros [= <- <- <- <-]; bool_prop; try lia.
  - pose proof (Z.mod_pos_bound (tp_rank topo) k ltac:(lia)). nia.
  - pose proof (Z.mod_pos_bound remote_rank (- k) ltac:(lia)). nia.
Qed.

Lemma region_copies_spec topo remote_rank remote_size local_groups remote_groups local remote local_ids remote_ids :
  fits topo remote_size local remote ->
  zget local_groups (group_index local) = Some local_ids -> zget remote_groups (group_index local) = Some remote_ids ->
  length local_ids = length remote_ids ->
  exists ds, region_copies topo remote_rank remote_size local_groups remote_groups local remote = Ok ds /\
    concat (map bytes_of ds) =
    concat (map (planned topo remote_rank remote_size local remote) (zip local_ids remote_ids)).
Proof.
  intros Hf Hl Hr Hlen. unfold region_copies. rewrite (ft_group _ _ _ _ Hf) in *. rewrite Z.eqb_refl. cbn [assert_ mbind result_bind].
  pose proof (zget_Some _ _ _ Hl) as Hb. destruct (Z.ltb_spec (group_index remote) (zlen local_groups)); [|lia].
  unfold item. rewrite Hl, Hr. cbn [assert_ mbind result_bind].
  destruct (Nat.eqb_spec (length local_ids) 0) as [H0|H0].
  { exists []. split; [done|]. by destruct local_ids. }
  pose proof (group_concurrent_spec _ _ Hlen) as Hg. destruct (group_concurrent_contiguous _ _) as [gs gd].
  destruct Hg as [Hruns Hcat]. unfold planned.
  destruct (compute_sender_transfer_plan _ _ _ _ _ _) as [[[should src_off] dst_off] len] eqn:Ep.
  destruct (plan_inside _ _ _ _ _ _ _ _ _ Hf Ep) as (H1 & H2 & H3 & H4 & H5).
  destruct should; cbn [negb].
  - destruct (Z.leb_spec (src_off + len) (kv_block_len local)); [|lia].
    destruct (Z.leb_spec (dst_off + len) (kv_block_len remote)); [|lia]. cbn [assert_ mbind result_bind].
    destruct (all_group_copies_spec local remote src_off dst_off len _ (zip gs gd) ltac:(lia)
      (can_coalesce_coalescible local remote src_off dst_off len) Hruns) as (ds & Hds & Hb2).
    exists ds. split; [exact Hds|]. by rewrite Hb2, Hcat.
  - exists []. split; [done|]. cbn. symmetry. clear. induction (zip local_ids remote_ids); [done|done].
Qed.

(** ** One request *)

Section request.
Context (mamba : list bool) (NULL_BLOCK_ID : Z).
Context (physical_blocks : Z) (map_to_kernel_blocks : list Z -> Z -> list Z).

(** A logical block [k] is the kernel blocks [n * k] to [n * k + n - 1]. *)
Definition expands_blocks : Prop := forall l,
  map_to_kernel_blocks l physical_blocks = concat (map (fun k => zrange (k * physical_blocks) physical_blocks) l).

(** A group of a request: whether it is a Mamba group, the blocks of the
    producer and those of the consumer *)
Abbreviation group := (bool * (list Z * list Z))%type.

Definition clean (is_mamba : bool) (l : list Z) : list Z :=
  if is_mamba then filter (fun id => id <> NULL_BLOCK_ID) l else l.
Definition remote_part (g : group) : list Z := clean g.1 g.2.2.
(** The last blocks of the producer, as many as the consumer wants *)
Definition local_part (g : group) : list Z :=
  let l := clean g.1 g.2.1 in drop (length l - length (remote_part g)) l.
Definition too_short (g : group) : bool := (length (clean g.1 g.2.1) <? length (remote_part g))%nat.

(** The kernel blocks of a logical block *)
Definition kernel_of (is_mamba : bool) (b : Z * Z) : list (Z * Z) :=
  if (physical_blocks =? 1) || is_mamba then [b]
  else zip (zrange (b.1 * physical_blocks) physical_blocks) (zrange (b.2 * physical_blocks) physical_blocks).

(** The pairs of kernel blocks to copy *)
Definition group_pairs (g : group) : list (Z * Z) := concat (map (kernel_of g.1) (zip (local_part g) (remote_part g))).

Definition kernel_blocks (is_mamba : bool) (l : list Z) : list Z :=
  if (physical_blocks =? 1) || is_mamba then l else map_to_kernel_blocks l physical_blocks.

Lemma item_drop {A} (l : list A) (i : nat) x rest : drop i l = x :: rest -> item l (Z.of_nat i) = Ok x.
Proof using Type.
  intros H. unfold item. rewrite zget_nat. replace i with (i + 0)%nat by lia. by rewrite <- lookup_drop, H.
Qed.

Lemma drop_S_tail {A} (l : list A) i x rest : drop i l = x :: rest -> drop (S i) l = rest.
Proof using Type. intros H. replace (S i) with (i + 1)%nat by lia. by rewrite <- drop_drop, H. Qed.

Lemma pair_groups_spec i groups :
  (length groups <= length (drop i mamba))%nat ->
  pair_groups mamba NULL_BLOCK_ID (Z.of_nat i) groups =
  if existsb too_short (zip (drop i mamba) groups) then Ok None
  else Ok (Some (map local_part (zip (drop i mamba) groups), map remote_part (zip (drop i mamba) groups))).
Proof using Type.
  revert i. induction groups as [|[l r] groups IH]; intros i Hl.
  - by destruct (drop i mamba).
  - destruct (drop i mamba) as [|m ms] eqn:Ed; [simpl in Hl; lia|]. cbn [pair_groups]. rewrite (item_drop _ _ _ _ Ed).
    cbn [zip zip_with existsb mbind result_bind]. change (too_short (m, (l, r)))
      with (length (clean m l) <? length (clean m r))%nat. unfold clean.
    destruct (_ <? _)%nat; cbn [orb]; [done|].
    pose proof (drop_S_tail _ _ _ _ Ed) as Hd. replace (Z.of_nat i + 1) with (Z.of_nat (S i)) by lia.
    rewrite IH by (rewrite Hd; simpl in Hl; lia). rewrite Hd.
    destruct (existsb _ _); [done|]. done.
Qed.

Lemma kernel_groups_spec i groups :
  (length groups <= length (drop i mamba))%nat ->
  kernel_groups mamba physical_blocks map_to_kernel_blocks (Z.of_nat i) groups =
  Ok (map (fun '(m, g) => if (m : bool) then g else map_to_kernel_blocks g physical_blocks) (zip (drop i mamba) groups)).
Proof using Type.
  revert i. induction groups as [|g groups IH]; intros i Hl; [by destruct (drop i mamba)|].
  destruct (drop i mamba) as [|m ms] eqn:Ed; [simpl in Hl; lia|]. cbn [kernel_groups]. rewrite (item_drop _ _ _ _ Ed).
  cbn [zip zip_with mbind result_bind map]. pose proof (drop_S_tail _ _ _ _ Ed) as Hd.
  replace (Z.of_nat i + 1) with (Z.of_nat (S i)) by lia. rewrite IH by (rewrite Hd; simpl in Hl; lia). by rewrite Hd.
Qed.

Lemma zip_map_same {A B} (f : A * B -> list Z) (ms : list A) (gs : list B) :
  zip ms (map f (zip ms gs)) = map (fun x => (x.1, f x)) (zip ms gs).
Proof using Type.
  revert gs. induction ms as [|m ms IH]; intros [|g gs]; try done. cbn. f_equal. apply IH.
Qed.

Lemma logical_to_kernel_spec (f : group -> list Z) (groups : list (list Z * list Z)) :
  (length groups <= length mamba)%nat ->
  logical_to_kernel_block_ids mamba physical_blocks map_to_kernel_blocks (map f (zip mamba groups)) =
  Ok (map (fun x => kernel_blocks x.1 (f x)) (zip mamba groups)).
Proof using Type.
  intros Hl. unfold logical_to_kernel_block_ids, kernel_blocks. destruct (physical_blocks =? 1); [done|].
  change 0 with (Z.of_nat 0). rewrite kernel_groups_spec.
  - rewrite drop_0, zip_map_same, map_map. do 2 f_equal. 
  - rewrite drop_0, length_map, length_zip. lia.
Qed.

Lemma length_local_part g : too_short g = false -> length (local_part g) = length (remote_part g).
Proof using Type. unfold too_short, local_part. rewrite Nat.ltb_ge, length_drop. lia. Qed.

(** Copying kernel block by kernel block *)
Lemma group_pairs_zip g :
  expands_blocks -> 0 < physical_blocks -> too_short g = false ->
  zip (kernel_blocks g.1 (local_part g)) (kernel_blocks g.1 (remote_part g)) = group_pairs g /\
  length (kernel_blocks g.1 (local_part g)) = length (kernel_blocks g.1 (remote_part g)).
Proof using Type.
  intros Hex Hp Hs. apply length_local_part in Hs. unfold group_pairs, kernel_blocks, kernel_of.
  revert Hs. generalize (local_part g) (remote_part g). intros ls rs Hs.
  destruct ((physical_blocks =? 1) || g.1).
  - split; [|done]. clear Hex. revert rs Hs. induction ls as [|l ls IH]; intros [|r rs] Hs; try done.
    injection Hs as Hs. cbn. f_equal. by apply IH.
  - rewrite !Hex. revert rs Hs. induction ls as [|l ls IH]; intros [|r rs] Hs; try done.
    injection Hs as Hs. cbn [map concat zip zip_with]. destruct (IH rs Hs) as [<- Hlen].
    assert (length (zrange (l * physical_blocks) physical_blocks) = length (zrange (r * physical_blocks) physical_blocks))
      as Hz by (unfold zrange; by rewrite !length_seqZ).
    split; [|by rewrite !length_app, Hz, Hlen].
    by rewrite zip_with_app by done.
Qed.

(** ** A batch *)

Context (topo : topology) (remote_rank remote_size : Z).
Context (local_regions remote_regions : list TransferRegion).
Hypothesis expands : expands_blocks.
Hypothesis physical_pos : 0 < physical_blocks.
Hypothesis regions_fit : Forall2 (fits topo remote_size) local_regions remote_regions.

Definition groups_of (local_ids remote_ids : list (list Z)) : list group := zip mamba (zip local_ids remote_ids).

(** Every block is known on both sides and inside the capacity of every
    region that uses its group. *)
Definition ids_ok (regions : list TransferRegion) (ids : list (list Z)) : bool :=
  forallb (forallb (fun id => 0 <=? id)) ids &&
  forallb (fun r => bool_decide (region_bounds_error ids r = None)) regions.

Definition sides_ok (gs : list group) : bool :=
  ids_ok local_regions (map (fun g => kernel_blocks g.1 (local_part g)) gs) &&
  ids_ok remote_regions (map (fun g => kernel_blocks g.1 (remote_part g)) gs).

(** The consumer wants nothing, or only what its cache already has. *)
Definition wants_nothing (local_ids remote_ids : list (list Z)) : bool :=
  forallb is_empty remote_ids ||
  ((length local_ids =? length remote_ids)%nat && negb (existsb too_short (groups_of local_ids remote_ids)) &&
   forallb is_empty (map local_part (groups_of local_ids remote_ids))).

Definition refused (local_ids remote_ids : list (list Z)) : bool :=
  negb (wants_nothing local_ids remote_ids) &&
  (negb (length local_ids =? length remote_ids)%nat || existsb too_short (groups_of local_ids remote_ids) ||
   negb (sides_ok (groups_of local_ids remote_ids))).

(** What one pair of regions copies for a request *)
Definition region_bytes (gs : list group) (lr : TransferRegion * TransferRegion) : list (Z * Z) :=
  match zget gs (group_index lr.1) with
  | Some g => concat (map (planned topo remote_rank remote_size lr.1 lr.2) (group_pairs g))
  | None => []
  end.

Definition request_bytes (x : string * (list (list Z) * list (list Z))) : list (Z * Z) :=
  let '(_, (local_ids, remote_ids)) := x in
  if wants_nothing local_ids remote_ids || refused local_ids remote_ids then []
  else concat (map (region_bytes (groups_of local_ids remote_ids)) (zip local_regions remote_regions)).

Lemma first_error_None {A} (f : A -> option string) l : first_error f l = None <-> Forall (fun x => f x = None) l.
Proof using Type.
  induction l as [|x l IH]; [by split; [constructor|]|]. cbn. rewrite Forall_cons. destruct (f x); [|tauto].
  split; [done|]. by intros [? _].
Qed.

Lemma ids_ok_spec regions ids :
  ids_ok regions ids = true <->
  existsb (existsb (fun id => id <? 0)) ids = false /\ first_error (region_bounds_error ids) regions = None.
Proof using Type.
  unfold ids_ok. rewrite andb_true_iff, first_error_None. f_equiv.
  - assert (forall l, forallb (fun id => 0 <=? id) l = negb (existsb (fun id => id <? 0) l)) as H1.
    { induction l as [|x l IH]; [done|]. cbn. rewrite IH, negb_orb. f_equal. rewrite Z.ltb_antisym. by rewrite negb_involutive. }
    induction ids as [|l ids IH]; [done|]. cbn. rewrite H1, andb_true_iff, orb_false_iff, negb_true_iff. tauto.
  - rewrite forallb_forall, Forall_forall. setoid_rewrite list_elem_of_In. by setoid_rewrite bool_decide_eq_true.
Qed.

(** The three ways a request goes *)
Lemma pair_blocks_spec local_ids remote_ids :
  (length local_ids <= length mamba)%nat ->
  exists p, pair_blocks mamba NULL_BLOCK_ID physical_blocks map_to_kernel_blocks local_regions remote_regions
      local_ids remote_ids = Ok p /\
  let gs := groups_of local_ids remote_ids in
  match p with
  | Nothing => wants_nothing local_ids remote_ids = true
  | Rejected _ => refused local_ids remote_ids = true
  | Paired local remote =>
      wants_nothing local_ids remote_ids = false /\ refused local_ids remote_ids = false /\
      existsb too_short gs = false /\ sides_ok gs = true /\
      local = map (fun g => kernel_blocks g.1 (local_part g)) gs /\
      remote = map (fun g => kernel_blocks g.1 (remote_part g)) gs
  end.
Proof using Type.
  intros Hl. unfold pair_blocks, refused, wants_nothing. destruct (forallb is_empty remote_ids); [by eexists|].
  destruct (Nat.eqb_spec (length local_ids) (length remote_ids)) as [He|He]; [|by eexists]. cbn [negb orb andb].
  assert (length (zip local_ids remote_ids) <= length mamba)%nat as Hz by (rewrite length_zip; lia).
  change 0 with (Z.of_nat 0) at 1. rewrite pair_groups_spec by (by rewrite drop_0). rewrite drop_0.
  fold (groups_of local_ids remote_ids). set (gs := groups_of local_ids remote_ids).
  destruct (existsb too_short gs) eqn:Es; cbn [mbind result_bind negb andb orb]; [by eexists|].
  destruct (forallb is_empty (map local_part gs)) eqn:Ee; [by eexists|]. cbn [negb andb].
  unfold gs, groups_of. rewrite !logical_to_kernel_spec by done. fold (groups_of local_ids remote_ids). fold gs.
  cbn [mbind result_bind]. unfold sides_ok.
  set (ls := map _ gs). set (rs := map (fun g => kernel_blocks g.1 (remote_part g)) gs).
  pose proof (ids_ok_spec local_regions ls) as H1. pose proof (ids_ok_spec remote_regions rs) as H2.
  unfold validate_nonnegative_block_ids.
  destruct (existsb _ ls), (existsb _ rs), (first_error _ local_regions), (first_error _ remote_regions);
    eexists; (split; [reflexivity|]); cbn beta iota;
    destruct (ids_ok local_regions ls), (ids_ok remote_regions rs); cbn [andb negb]; try done;
    try (by destruct (proj1 H1 eq_refl)); try (by destruct (proj1 H2 eq_refl));
    try (by discriminate (proj2 H1 (conj eq_refl eq_refl))); try (by discriminate (proj2 H2 (conj eq_refl eq_refl))).
Qed.

Lemma existsb_zget_false {A} (f : A -> bool) l i x : existsb f l = false -> zget l i = Some x -> f x = false.
Proof using Type.
  intros H Hz. destruct (f x) eqn:E; [|done]. rewrite <- H. symmetry. apply existsb_exists. exists x.
  split; [|done]. apply list_elem_of_In. by eapply zget_elem.
Qed.

Lemma regions_copies_spec gs ls rs :
  existsb too_short gs = false -> Forall2 (fits topo remote_size) ls rs ->
  Forall (fun r => region_bounds_error (map (fun g => kernel_blocks g.1 (local_part g)) gs) r = None) ls ->
  exists ds, regions_copies topo remote_rank remote_size (map (fun g => kernel_blocks g.1 (local_part g)) gs)
      (map (fun g => kernel_blocks g.1 (remote_part g)) gs) (zip ls rs) = Ok ds /\
    concat (map bytes_of ds) = concat (map (region_bytes gs) (zip ls rs)).
Proof using expands physical_pos.
  intros Hs Hf. induction Hf as [|l r ls rs Hf _ IH]; intros Hb; [by exists []|].
  apply Forall_cons in Hb as [Hb1 Hb]. destruct (IH Hb) as (ds2 & H2 & Hc2).
  unfold region_bounds_error in Hb1. rewrite zget_map in Hb1.
  destruct (zget gs (group_index l)) as [g|] eqn:Eg; [|done]. clear Hb1.
  destruct (group_pairs_zip g expands physical_pos (existsb_zget_false _ _ _ _ Hs Eg)) as [Hz Hlen].
  destruct (region_copies_spec topo remote_rank remote_size (map (fun g => kernel_blocks g.1 (local_part g)) gs)
    (map (fun g => kernel_blocks g.1 (remote_part g)) gs) l r (kernel_blocks g.1 (local_part g))
    (kernel_blocks g.1 (remote_part g)) Hf ltac:(by rewrite zget_map, Eg) ltac:(by rewrite zget_map, Eg) Hlen)
    as (ds1 & H1 & Hc1).
  exists (ds1 ++ ds2). cbn [zip zip_with regions_copies]. unfold mbind, result_bind. rewrite H1, H2. split; [done|].
  rewrite map_app, concat_app, Hc1, Hc2. cbn [map concat]. f_equal. unfold region_bytes. cbn [fst snd]. by rewrite Eg, Hz.
Qed.

(** An address inside the payload of a block of a region *)
Definition in_region (r : TransferRegion) (a : Z) : Prop :=
  exists id o, a = base_addr r + id * block_len r + o /\ 0 <= id /\ 0 <= o < kv_block_len r /\
    forall n, num_blocks r = Some n -> id < n.

Lemma max_id_le ids id : id ∈ ids -> id <= max_id ids.
Proof using Type.
  clear expands physical_pos regions_fit.
  destruct ids as [|x l]; [set_solver|]. cbn. intros Hin.
  assert (forall y, y <= foldl Z.max y l /\ forall z, z ∈ l -> z <= foldl Z.max y l) as H.
  { clear. induction l as [|w l IH]; intros y; cbn; [split; [lia|set_solver]|].
    destruct (IH (Z.max y w)) as [H1 H2]. split; [lia|]. intros z [->|Hz]%elem_of_cons; [lia|by apply H2]. }
  destruct (H x) as [H1 H2]. apply elem_of_cons in Hin as [->|Hin]; [done|by apply H2].
Qed.

Lemma block_in_region r groups ids id o :
  ids_ok [r] groups = true -> zget groups (group_index r) = Some ids -> id ∈ ids -> 0 <= o < kv_block_len r ->
  in_region r (base_addr r + id * block_len r + o).
Proof using Type.
  intros Hok Hg Hid Ho. exists id, o. split; [done|]. apply andb_true_iff in Hok as [Hn Hb].
  rewrite forallb_forall in Hn. specialize (Hn ids ltac:(apply list_elem_of_In; by eapply zget_elem)).
  rewrite forallb_forall in Hn. specialize (Hn id ltac:(by apply list_elem_of_In)). bool_prop.
  cbn [forallb] in Hb. rewrite andb_true_r, bool_decide_eq_true in Hb. unfold region_bounds_error in Hb.
  rewrite Hg in Hb. split_and!; [done|lia|lia|]. intros n Hnb. rewrite Hnb in Hb.
  destruct (Z.leb_spec n (max_id ids)); [done|]. pose proof (max_id_le _ _ Hid). lia.
Qed.

Lemma ids_ok_one regions groups r : ids_ok regions groups = true -> r ∈ regions -> ids_ok [r] groups = true.
Proof using Type.
  intros H Hr. apply andb_true_iff in H as [H1 H2]. unfold ids_ok. rewrite H1. cbn [forallb andb].
  rewrite forallb_forall in H2. rewrite (H2 r) by (by apply list_elem_of_In). done.
Qed.

(** Nothing outside of the registered blocks is read or written. *)
Lemma region_bytes_inside gs l r s d :
  existsb too_short gs = false -> sides_ok gs = true -> fits topo remote_size l r ->
  l ∈ local_regions -> r ∈ remote_regions -> (s, d) ∈ region_bytes gs (l, r) -> in_region l s /\ in_region r d.
Proof using expands physical_pos regions_fit.
  intros Hs Hok Hf Hl Hr Hin. apply andb_true_iff in Hok as [Hokl Hokr].
  apply (ids_ok_one _ _ l) in Hokl; [|done]. apply (ids_ok_one _ _ r) in Hokr; [|done].
  unfold region_bytes in Hin. cbn [fst snd] in Hin. destruct (zget gs (group_index l)) as [g|] eqn:Eg; [|set_solver].
  destruct (group_pairs_zip g expands physical_pos (existsb_zget_false _ _ _ _ Hs Eg)) as [Hz _].
  rewrite <- Hz in Hin. apply list_elem_of_In, in_concat in Hin as (bs & Hbs & Hin).
  apply in_map_iff in Hbs as ([b1 b2] & <- & Hb%list_elem_of_In). apply elem_of_zip_l in Hb as Hb1.
  apply elem_of_zip_r in Hb as Hb2. unfold planned in Hin.
  destruct (compute_sender_transfer_plan _ _ _ _ _ _) as [[[should so] do] len] eqn:Ep.
  destruct (plan_inside _ _ _ _ _ _ _ _ _ Hf Ep) as (H1 & H2 & H3 & H4 & H5).
  destruct should; [|done]. unfold block_bytes, bytes_of in Hin. apply in_map_iff in Hin as (i & [= <- <-] & Hi).
  apply list_elem_of_In, elem_zrange in Hi. cbn [fst snd src_ptr dst_ptr copy_len] in *.
  split; rewrite <- Z.add_assoc.
  - eapply block_in_region; [exact Hokl|by rewrite zget_map, Eg|exact Hb1|lia].
  - eapply block_in_region; [exact Hokr|rewrite zget_map, <- (ft_group _ _ _ _ Hf), Eg; done|exact Hb2|lia].
Qed.

(** The descriptors of a batch for regions that fit *)
Lemma batch_copies ready :
  Forall (fun x => (length x.2.1 <= length mamba)%nat) ready ->
  exists ds errs msg,
    build_transfer_params mamba NULL_BLOCK_ID physical_blocks map_to_kernel_blocks topo remote_rank remote_size
      local_regions remote_regions ready = Ok (ds, errs, msg) /\
    concat (map bytes_of ds) = concat (map request_bytes ready) /\
    errs = map fst (filter (fun x => refused x.2.1 x.2.2 = true) ready) /\
    (forall s d, (s, d) ∈ concat (map bytes_of ds) ->
      exists l r, l ∈ local_regions /\ r ∈ remote_regions /\ in_region l s /\ in_region r d).
Proof using expands physical_pos regions_fit.
  induction 1 as [|[req [local_ids remote_ids]] ready Hl _ IH].
  { exists [], [], None. split_and!; [done..|]. set_solver. }
  destruct IH as (ds & errs & msg & Hb & Hbytes & Herrs & Hin). cbn [build_transfer_params].
  destruct (pair_blocks_spec local_ids remote_ids Hl) as (p & -> & Hp). cbn [mbind result_bind].
  rewrite filter_cons. cbn [fst snd map concat request_bytes]. destruct p as [|m|local remote].
  - assert (refused local_ids remote_ids = false) as Hr by (unfold refused; by rewrite Hp).
    rewrite Hp, Hr. cbn [orb app]. rewrite decide_False by done. rewrite Hb. eauto 10.
  - rewrite Hp, orb_true_r. rewrite decide_True by done. cbn [app]. unfold mbind, result_bind. rewrite Hb.
    exists ds, (req :: errs), (Some m). cbn [map fst]. by rewrite Herrs.
  - destruct Hp as (-> & -> & Hs & Hok & -> & ->). cbn [orb]. rewrite decide_False by done.
    set (gs := groups_of local_ids remote_ids) in *.
    assert (Forall (fun r => region_bounds_error (map (fun g => kernel_blocks g.1 (local_part g)) gs) r = None)
      local_regions) as Hbounds.
    { apply andb_true_iff in Hok as [Hok _]. apply ids_ok_spec in Hok as [_ Hok]. by apply first_error_None. }
    destruct (regions_copies_spec gs local_regions remote_regions Hs regions_fit Hbounds) as (ds1 & H1 & Hc1).
    unfold mbind, result_bind. rewrite H1, Hb. exists (ds1 ++ ds), errs, msg. split_and!; [done| |done|].
    + by rewrite map_app, concat_app, Hc1, Hbytes.
    + intros s d Hsd. rewrite map_app, concat_app in Hsd. apply elem_of_app in Hsd as [Hsd|Hsd]; [|by apply Hin].
      rewrite Hc1 in Hsd. apply list_elem_of_In, in_concat in Hsd as (bs & Hbs & Hsd).
      apply in_map_iff in Hbs as ([l r] & <- & Hlr%list_elem_of_In). apply list_elem_of_In in Hsd.
      exists l, r. pose proof (elem_of_zip_l _ _ _ _ Hlr). pose proof (elem_of_zip_r _ _ _ _ Hlr).
      assert (fits topo remote_size l r) as Hfit.
      { apply list_elem_of_lookup in Hlr as [i Hi]. apply lookup_zip_Some in Hi as [Hi1 Hi2].
        by apply (Forall2_lookup_lr _ _ _ i _ _ regions_fit). }
      destruct (region_bytes_inside gs l r s d) as [? ?]; try done.
Qed.
End request.

(** ** Accepted metadata *)

(** How many regions before the [i]th have its name *)
Definition occurrence (regions : list TransferRegion) (i : nat) (name : string) : Z :=
  zlen (filter (fun r => layer_name r = name) (take i regions)).

Lemma keyed_lookup counts regions i name k r :
  keyed_regions counts regions !! i = Some (name, k, r) ->
  regions !! i = Some r /\ name = layer_name r /\ k = counts name + occurrence regions i name.
Proof.
  revert counts i. induction regions as [|r0 regions IH]; intros counts i; [done|]. cbn [keyed_regions].
  destruct i as [|i]; cbn.
  - intros [= <- <- <-]. split_and!; [done..|]. unfold occurrence, zlen. cbn. lia.
  - intros (H1 & H2 & H3)%IH. split_and!; [done..|]. rewrite H3. unfold occurrence. cbn [take].
    rewrite filter_cons. destruct (decide (layer_name r0 = name)) as [->|Hne].
    + rewrite decide_True by done. rewrite zlen_cons. lia.
    + rewrite decide_False by congruence. done.
Qed.

Lemma remote_by_key_lookup keyed key r :
  dget (remote_by_key keyed) key = Some r -> exists i, keyed !! i = Some (key.1, key.2, r).
Proof.
  unfold remote_by_key. revert r. induction keyed as [|[[n k] r0] keyed IH] using rev_ind; intros r; [done|].
  rewrite foldl_app. cbn [foldl]. rewrite dget_dset. case_decide as Hk.
  - intros [= <-]. subst key. exists (length keyed). by rewrite list_lookup_middle.
  - intros [i Hi]%IH. exists i. by apply lookup_app_l_Some.
Qed.

(** Two regions with the same name, occurrence, layer and group *)
Definition same_place (locals remotes : list TransferRegion) (i : nat) (l r : TransferRegion) : Prop :=
  layer_index l = layer_index r /\ group_index l = group_index r /\ layer_name l = layer_name r /\
  exists j, remotes !! j = Some r /\ occurrence remotes j (layer_name l) = occurrence locals i (layer_name l).

Lemma align_loop_spec by_key keyed ls rs :
  align_loop by_key keyed = inl (ls, rs) ->
  ls = map snd keyed /\
  Forall2 (fun x r => dget by_key x.1 = Some r /\ layer_index x.2 = layer_index r /\ group_index x.2 = group_index r)
    keyed rs.
Proof.
  revert ls rs. induction keyed as [|[[n k] l] keyed IH]; intros ls rs; cbn [align_loop].
  - intros [= <- <-]. by split; [|constructor].
  - destruct (dget by_key (n, k)) as [r|] eqn:Ed; [|done]. destruct (negb _) eqn:E1; [done|].
    destruct (negb (group_index l =? _)) eqn:E2; [done|]. bool_prop.
    destruct (align_loop by_key keyed) as [[ls' rs']|]; [|done]. intros [= <- <-].
    destruct (IH ls' rs' eq_refl) as [-> Hf]. split; [done|]. by constructor.
Qed.

Lemma map_snd_keyed counts regions : map snd (keyed_regions counts regions) = regions.
Proof. revert counts. induction regions as [|r regions IH]; intros counts; [done|]. cbn. by rewrite IH. Qed.

Lemma align_spec locals remotes ls rs :
  align_transfer_regions locals remotes = inl (ls, rs) ->
  ls = locals /\ length rs = length ls /\
  forall i l r, ls !! i = Some l -> rs !! i = Some r -> same_place locals remotes i l r.
Proof.
  intros [-> Hf]%align_loop_spec. rewrite map_snd_keyed. split_and!; [done| |].
  - rewrite <- (Forall2_length _ _ _ Hf). rewrite <- (length_map snd), map_snd_keyed. done.
  - intros i l r Hl Hr. eapply Forall2_lookup_r in Hf as (x & Hx & Hd & Hli & Hgi); [|exact Hr].
    destruct x as [[n k] l']. apply keyed_lookup in Hx as (Hx & -> & ->). rewrite Hl in Hx. injection Hx as <-.
    cbn [fst snd] in *. apply remote_by_key_lookup in Hd as [j Hj]. apply keyed_lookup in Hj as (Hj & Hn & Hk).
    split_and!; [done..|]. exists j. split; [done|]. cbn in Hk. lia.
Qed.

(** What the expansion checks of every region *)
Definition sound_region (r : TransferRegion) : Prop :=
  0 < base_addr r /\ 0 < kv_block_len r <= block_len r.

Lemma expand_sound base stride payload names indices first groups splits caps rs :
  expand_transfer_regions base stride payload names indices first groups splits caps = Ok rs -> Forall sound_region rs.
Proof.
  unfold expand_transfer_regions. cbv zeta. unfold mbind, result_bind.
  repeat (match goal with |- match assert_ ?b _ with _ => _ end = _ -> _ => destruct (assert_ b _); [|done] end).
  destruct (match caps with Some _ => _ | None => _ end); [|done].
  generalize (zip base (zip stride (zip payload (zip names (zip indices (zip (default (replicate (length names) 0) groups)
    (zip (default (replicate (length names) first) splits) (capacities_of caps (length names))))))))).
  intros l. revert rs. induction l as [|[b [st [p [n [ix [g [sp c]]]]]]] l IH]; intros rs.
  - intros [= <-]. constructor.
  - cbn [expand_each]. unfold mbind, result_bind. destruct (expand_one _ _ _ _ _ _ _ _) as [rs1|] eqn:E1; [|done].
    destruct (expand_each l) as [rs2|]; [|done]. intros [= <-]. apply Forall_app. split; [|by apply IH].
    unfold expand_one, check in E1. unfold mbind, result_bind in E1.
    destruct (negb (b <=? 0)) eqn:C1; [|done]. destruct (negb ((st <=? 0) || (p <=? 0))) eqn:C2; [|done].
    destruct (negb (st <? _)) eqn:C3; [|done]. bool_prop. injection E1 as <-. destruct sp;
      repeat constructor; unfold sound_region; cbn; lia.
Qed.

Lemma accepted_fit topo remote_size locals remotes ls rs :
  Forall sound_region locals -> Forall sound_region remotes -> tp_ratio topo remote_size <> 0 ->
  align_transfer_regions locals remotes = inl (ls, rs) ->
  validate_asymmetric_region_lengths ls rs topo remote_size (local_replicates_kv_cache topo) = None ->
  Forall2 (fits topo remote_size) ls rs.
Proof.
  intros Hl Hr Hk Ha Hv. apply align_spec in Ha as (-> & Hlen & Hat).
  apply Forall2_same_length_lookup. split; [done|]. intros i l r Hli Hri.
  destruct (Hat i l r Hli Hri) as (_ & Hg & _ & j & Hj & _).
  rewrite Forall_lookup in Hl, Hr. destruct (Hl _ _ Hli) as (_ & ? & _), (Hr _ _ Hj) as (_ & ? & _).
  unfold validate_asymmetric_region_lengths in Hv. rewrite Hlen, Nat.eqb_refl in Hv. cbn [negb] in Hv.
  destruct (forallb _ _) eqn:Ef; [|done]. rewrite forallb_forall in Ef.
  specialize (Ef (l, r)). constructor; [done|lia|lia| |done]. apply Ef. apply list_elem_of_In.
  apply list_elem_of_lookup. exists i. by apply lookup_zip_Some.
Qed.

(** C12: when the regions of a producer and a consumer pass the checks, every
    region of the producer is paired with the consumer's region of the same
    layer name and occurrence, layer and group, and the descriptors of every
    batch exist.  Their bytes are, in order, those the plan says of every pair
    of blocks of every request: the last blocks of the producer against the
    blocks the consumer wants, group by group, whether or not neighbours are
    copied in one piece.  Exactly the requests whose groups or blocks do not
    fit are reported, nothing of them is copied, and no byte outside of the
    payload of a registered block is read or written. *)
Theorem transfer_copies_exact mamba NULL_BLOCK_ID physical_blocks map_to_kernel_blocks topo remote_rank remote_size
    base stride payload names indices groups caps base' stride' payload' names' indices' groups' caps'
    locals remotes local_regions remote_regions ready :
  expands_blocks physical_blocks map_to_kernel_blocks -> 0 < physical_blocks -> tp_ratio topo remote_size <> 0 ->
  expand_transfer_regions base stride payload names indices false groups None caps = Ok locals ->
  expand_transfer_regions base' stride' payload' names' indices' false groups' None caps' = Ok remotes ->
  align_transfer_regions locals remotes = inl (local_regions, remote_regions) ->
  validate_asymmetric_region_lengths local_regions remote_regions topo remote_size (local_replicates_kv_cache topo)
    = None ->
  Forall (fun x => (length x.2.1 <= length mamba)%nat) ready ->
  (forall i l r, local_regions !! i = Some l -> remote_regions !! i = Some r -> same_place locals remotes i l r) /\
  exists ds errs msg,
    build_transfer_params mamba NULL_BLOCK_ID physical_blocks map_to_kernel_blocks topo remote_rank remote_size
      local_regions remote_regions ready = Ok (ds, errs, msg) /\
    concat (map bytes_of ds) = concat (map (request_bytes mamba NULL_BLOCK_ID physical_blocks map_to_kernel_blocks topo
      remote_rank remote_size local_regions remote_regions) ready) /\
    errs = map fst (filter (fun x => refused mamba NULL_BLOCK_ID physical_blocks map_to_kernel_blocks local_regions
      remote_regions x.2.1 x.2.2 = true) ready) /\
    (forall s d, (s, d) ∈ concat (map bytes_of ds) ->
      exists l r, l ∈ local_regions /\ r ∈ remote_regions /\ in_region l s /\ in_region r d).
Proof.
  intros Hex Hp Hk Hl Hr Ha Hv Hready. split; [by apply align_spec in Ha as (_ & _ & ?)|].
  apply batch_copies; [done|done| |done]. eapply accepted_fit; [..|exact Ha|exact Hv]; [| |done];
    by eapply expand_sound.
Qed.

(** ** The producers of one consumer *)

(** vLLM's topology of rank [r] in a group of [size] ranks: the ratio of the
    sizes, negative when the other side has more ranks, and the ranks of the
    other side it exchanges with *)
Record tp_topology (size : Z) (t : topology) : Prop := TpTopology {
  tt_rank : 0 <= tp_rank t < size;
  tt_more other : 0 < other -> (other | size) -> tp_ratio t other = size / other;
  tt_fewer other : size < other -> (size | other) -> tp_ratio t other = - (other / size);
  tt_targets_more other : 0 < other -> (other | size) ->
    handshake_target_ranks t other = [tp_rank t / (size / other)];
  tt_targets_fewer other : size < other -> (size | other) ->
    handshake_target_ranks t other = zrange (tp_rank t * (other / size)) (other / size)
}.

(** The offsets a producer writes in a block of the consumer *)
Definition written_offsets (t : topology) (remote_rank remote_size local_len remote_len : Z) : list Z :=
  let '(should, _, dst_off, len) := compute_sender_transfer_plan t remote_rank remote_size local_len remote_len
    (local_replicates_kv_cache t) in
  if should then zrange dst_off len else [].

(** The lengths of the payloads of one layer on both sides *)
Definition shard_lengths (replicated : bool) (size remote_size L R : Z) : Prop :=
  0 < L /\ 0 < R /\ if replicated then L = R else size * L = remote_size * R.

Lemma concat_tiles L n s : 0 <= L -> 0 <= n ->
  concat (map (fun i => zrange (i * L) L) (zrange s n)) = zrange (s * L) (n * L).
Proof.
  intros HL Hn. revert s. pattern n. apply natlike_ind; [done| |done]. clear n Hn. intros n Hn IH s.
  unfold Z.succ. rewrite zrange_succ by done. cbn [map concat]. rewrite IH.
  replace ((n + 1) * L) with (L + n * L) by lia. rewrite zrange_app by nia. do 2 f_equal; lia.
Qed.

Lemma offsets_more topo size remote_size L R p k :
  tp_topology size (topo p) -> tp_rank (topo p) = p -> 0 < remote_size -> size = k * remote_size -> 1 < k -> 
  local_replicates_kv_cache (topo p) = false ->
  forall r, written_offsets (topo p) r remote_size L R = zrange ((p mod k) * L) L.
Proof.
  intros Ht Hp Hrs -> Hk Hrep r. unfold written_offsets, compute_sender_transfer_plan.
  rewrite (tt_more _ _ Ht) by (done || by exists k). rewrite Z.div_mul by lia.
  destruct (Z.eqb_spec k 1); [lia|]. destruct (Z.ltb_spec 0 k); [|lia]. by rewrite Hrep, Hp.
Qed.

Lemma concat_map_ranks {A} (f g : Z -> list A) r k :
  0 < k -> (forall i, 0 <= i < k -> f (r * k + i) = g i) -> concat (map f (zrange (r * k) k)) = concat (map g (zrange 0 k)).
Proof.
  intros Hk H. change (r * k) with (0 + r * k). rewrite map_zrange_shift. f_equal. apply map_ext_in.
  intros i Hi%list_elem_of_In%elem_zrange. apply H. lia.
Qed.

(** The topologies of the producers and of one consumer *)
Record tp_pair (topo : Z -> topology) (tD : topology) (size remote_size : Z) (replicated : bool) : Prop := TpPair {
  tpp_size : 0 < size;
  tpp_remote : 0 < remote_size;
  tpp_divides : (remote_size | size) \/ (size | remote_size);
  tpp_producer p : 0 <= p < size ->
    tp_topology size (topo p) /\ tp_rank (topo p) = p /\ local_replicates_kv_cache (topo p) = replicated;
  tpp_consumer : tp_topology remote_size tD
}.

Section shards.
Context (topo : Z -> topology) (tD : topology) (replicated : bool) (L R : Z).
Abbreviation r := (tp_rank tD).
Abbreviation plan p M := (compute_sender_transfer_plan (topo p) r M L R (local_replicates_kv_cache (topo p))).

(** What the shards promise for sizes [N] and [M] *)
Definition shards_tile (N M : Z) : Prop :=
  (forall p, p ∈ handshake_target_ranks tD N -> 0 <= p < N /\ r ∈ handshake_target_ranks (topo p) M) /\
  concat (map (fun p => written_offsets (topo p) r M L R) (handshake_target_ranks tD N)) = zrange 0 R /\
  (replicated = false -> forall p so dof len, p ∈ handshake_target_ranks tD N ->
    plan p M = (true, so, dof, len) -> p * L + so = r * R + dof).

Lemma shards_same N : tp_pair topo tD N N replicated -> shard_lengths replicated N N L R -> shards_tile N N.
Proof.
  intros [HN _ _ Hp Hc] (HL & HR & Hlen). pose proof (tt_rank _ _ Hc) as Hr. destruct (Hp r Hr) as (Ht & Hrank & Hrep).
  assert (N / N = 1) as Hone by (apply Z.div_same; lia).
  assert (L = R) as HLR by (destruct replicated; nia).
  unfold shards_tile. rewrite (tt_targets_more _ _ Hc), Hone, Z.div_1_r by (done || exists 1; lia).
  unfold written_offsets, compute_sender_transfer_plan.
  split_and!.
  - intros p ->%list_elem_of_singleton. split; [done|].
    rewrite (tt_targets_more _ _ Ht), Hrank, Hone, Z.div_1_r by (done || exists 1; lia). by left.
  - cbn. rewrite (tt_more _ _ Ht), Hone by (done || exists 1; lia). cbn. by rewrite app_nil_r, HLR.
  - intros _ p so dof len ->%list_elem_of_singleton. rewrite (tt_more _ _ Ht), Hone by (done || exists 1; lia). cbn.
    intros [= <- <- <-]. rewrite HLR. lia.
Qed.

Lemma shards_more M k : 1 < k -> tp_pair topo tD (k * M) M replicated -> shard_lengths replicated (k * M) M L R ->
  shards_tile (k * M) M.
Proof.
  intros Hk [_ HM _ Hp Hc] (HL & HR & Hlen). pose proof (tt_rank _ _ Hc) as Hr.
  assert (k * M / M = k) as Hdiv by (apply Z.div_mul; lia).
  unfold shards_tile. rewrite (tt_targets_fewer _ _ Hc), Hdiv by (nia || by exists k).
  assert (forall p, p ∈ zrange (r * k) k -> 0 <= p < k * M /\ p / k = r) as Hin.
  { intros p Hin%elem_zrange. split; [nia|]. symmetry. apply (Z.div_unique p k r (p - r * k)); lia. }
  split_and!.
  - intros p Hi. destruct (Hin p Hi) as [Hb Hd]. split; [done|]. destruct (Hp p Hb) as (Ht & Hrank & _).
    rewrite (tt_targets_more _ _ Ht), Hrank, Hdiv, Hd by (done || by exists k). by left.
  - rewrite (concat_map_ranks _ (fun i => if replicated then (if i =? 0 then zrange 0 L else []) else zrange (i * L) L))
      by (lia || (intros i Hi; assert (0 <= r * k + i < k * M) as Hb by nia; destruct (Hp _ Hb) as (Ht & Hrank & Hrep);
          assert ((r * k + i) mod k = i) as Hmod by (rewrite Z.add_comm, Z.mod_add, Z.mod_small; lia);
          unfold written_offsets, compute_sender_transfer_plan; rewrite (tt_more _ _ Ht), Hdiv by (done || by exists k);
          destruct (Z.eqb_spec k 1); [lia|]; destruct (Z.ltb_spec 0 k); [|lia]; rewrite Hrep, Hrank, Hmod;
          by destruct replicated)).
    destruct replicated.
    + subst R. replace k with ((k - 1) + 1) by lia. rewrite zrange_succ by lia. cbn [map concat Z.eqb].
      rewrite <- (app_nil_r (zrange 0 L)) at 2. f_equal.
      assert (forall l, Forall (fun i => 0 < i) l -> concat (map (fun i => if i =? 0 then zrange 0 L else []) l) = []) as H0.
      { induction 1 as [|i l Hi _ IH]; [done|]. cbn. destruct (Z.eqb_spec i 0); [lia|done]. }
      apply H0, Forall_forall. intros i Hi%elem_zrange. lia.
    + rewrite concat_tiles by lia. f_equal. nia.
  - intros Hrep p so dof len Hi. destruct (Hin p Hi) as [Hb Hd]. destruct (Hp p Hb) as (Ht & Hrank & Hrep').
    unfold compute_sender_transfer_plan. rewrite (tt_more _ _ Ht), Hdiv, Hrep', Hrank by (done || by exists k).
    destruct (Z.eqb_spec k 1); [lia|]. destruct (Z.ltb_spec 0 k); [|lia]. rewrite Hrep in *. intros [= <- <- <-].
    pose proof (Z.div_mod p k ltac:(lia)). nia.
Qed.

Lemma shards_fewer N k : 1 < k -> tp_pair topo tD N (k * N) replicated -> shard_lengths replicated N (k * N) L R ->
  shards_tile N (k * N).
Proof.
  intros Hk [HN _ _ Hp Hc] (HL & HR & Hlen). pose proof (tt_rank _ _ Hc) as Hr.
  assert (k * N / N = k) as Hdiv by (apply Z.div_mul; lia).
  assert (0 <= r / k < N) as Hb by (split; [apply Z.div_pos; lia|apply Z.div_lt_upper_bound; lia]).
  destruct (Hp _ Hb) as (Ht & Hrank & Hrep).
  assert (tp_ratio (topo (r / k)) (k * N) = - k) as Hratio by (rewrite (tt_fewer _ _ Ht), Hdiv by (nia || by exists k); done).
  pose proof (Z.div_mod r k ltac:(lia)) as Hdm. pose proof (Z.mod_pos_bound r k ltac:(lia)) as Hmod.
  unfold shards_tile. rewrite (tt_targets_more _ _ Hc), Hdiv by (done || by exists k).
  unfold written_offsets, compute_sender_transfer_plan. split_and!.
  - intros p ->%list_elem_of_singleton. split; [done|].
    rewrite (tt_targets_fewer _ _ Ht), Hdiv, Hrank by (nia || by exists k). apply elem_zrange. lia.
  - cbn [map concat]. rewrite Hratio. destruct (Z.eqb_spec (- k) 1); [lia|]. destruct (Z.ltb_spec 0 (- k)); [lia|].
    rewrite Hrep. destruct replicated; by rewrite app_nil_r, ?Hlen.
  - intros Hrf p so dof len ->%list_elem_of_singleton. rewrite Hratio, Hrep, Hrf in *.
    destruct (Z.eqb_spec (- k) 1); [lia|]. destruct (Z.ltb_spec 0 (- k)); [lia|]. rewrite Z.opp_involutive.
    intros [= <- <- <-]. nia.
Qed.

(** C20: for every consumer rank, whatever the sizes of the two groups (one
    divides the other), the producers it asks are ranks of their group that
    accept it; the parts of a block they write, one after the other, are
    exactly the bytes of the block's payload, each once; and unless the cache
    is replicated every byte comes from the place it has in the whole cache,
    the ranks' payloads one after the other. *)
Theorem tp_shards_cover N M :
  tp_pair topo tD N M replicated -> shard_lengths replicated N M L R -> shards_tile N M.
Proof.
  intros Hpair Hlen. pose proof Hpair as [HN HM Hdiv _ _].
  destruct (Z.lt_trichotomy N M) as [Hlt|[->|Hgt]].
  - assert (exists k, 1 < k /\ M = k * N) as (k & Hk & ->).
    { destruct Hdiv as [[k ->]|[k ->]]; [exfalso; assert (0 < k) by nia; nia|]. exists k. split; [nia|done]. }
    by apply shards_fewer.
  - by apply shards_same.
  - assert (exists k, 1 < k /\ N = k * M) as (k & Hk & ->).
    { destruct Hdiv as [[k ->]|[k ->]]; [|exfalso; assert (0 < k) by nia; nia]. exists k. split; [nia|done]. }
    by apply shards_more.
Qed.
End shards.

(** ** Witnesses: four producers and two consumers *)

Definition example_topology (replicated : bool) (size rank : Z) : topology :=
  Topology rank (fun other => if size <? other then - (other / size) else size / other)
    (fun other => if size <? other then zrange (rank * (other / size)) (other / size) else [rank / (size / other)])
    replicated.

Lemma divide_le a b : 0 < a -> 0 < b -> (a | b) -> (b <? a) = false.
Proof. intros Ha Hb H%Z.divide_pos_le; [|done]. apply Z.ltb_ge. lia. Qed.

Lemma example_topology_ok replicated size rank :
  0 <= rank < size -> tp_topology size (example_topology replicated size rank).
Proof.
  intros Hr. constructor; [done|..]; intros other H1 H2; cbn.
  - rewrite (divide_le other size); [done|lia|lia|done].
  - apply Z.ltb_lt in H1. by rewrite H1.
  - rewrite (divide_le other size); [done|lia|lia|done].
  - apply Z.ltb_lt in H1. by rewrite H1.
Qed.

Lemma example_pair replicated : tp_pair (example_topology replicated 4) (example_topology false 2 1) 4 2 replicated.
Proof.
  constructor; [lia|lia|left; by exists 2| |apply example_topology_ok; lia].
  intros p Hp. split; [by apply example_topology_ok|]. done.
Qed.

Lemma tp_shards_cover_witness :
  handshake_target_ranks (example_topology false 2 1) 4 = [2; 3] /\
  map (fun p => written_offsets (example_topology false 4 p) 1 2 3 6) [2; 3] = [[0; 1; 2]; [3; 4; 5]] /\
  shards_tile (example_topology false 4) (example_topology false 2 1) false 3 6 4 2.
Proof.
  split; [reflexivity|]. split; [reflexivity|].
  apply (tp_shards_cover (example_topology false 4) (example_topology false 2 1) false 3 6 4 2 (example_pair false)).
  split; [lia|]. split; [lia|]. reflexivity.
Defined.

Definition example_kernel (l : list Z) (n : Z) : list Z := concat (map (fun k => zrange (k * n) n) l).

(** Blocks 4 and 5 go to 7 and 8 in one piece, the request with too few blocks
    is reported. *)
Lemma transfer_copies_exact_witness :
  exists ds,
    build_transfer_params [false] 0 1 example_kernel (example_topology false 1 0) 0 1
      [Region "layer.0" 0 1000 16 16 0 (Some 10)] [Region "layer.0" 0 5000 16 16 0 (Some 10)]
      [("a", ([[3; 4; 5]], [[7; 8]])); ("b", ([[1]], [[2; 3]]))] = Ok (ds, ["b"], Some "P num blocks less than D") /\
    ds = [Copy 1064 5112 32] /\
    concat (map bytes_of ds) = zip (zrange 1064 32) (zrange 5112 32).
Proof.
  destruct (transfer_copies_exact [false] 0 1 example_kernel (example_topology false 1 0) 0 1
    [1000] [16] [16] ["layer.0"] [0] (Some [0]) (Some [10]) [5000] [16] [16] ["layer.0"] [0] (Some [0]) (Some [10])
    _ _ _ _ [("a", ([[3; 4; 5]], [[7; 8]])); ("b", ([[1]], [[2; 3]]))] (fun l => eq_refl) ltac:(lia) ltac:(discriminate)
    ltac:(vm_compute; reflexivity) ltac:(vm_compute; reflexivity) ltac:(vm_compute; reflexivity)
    ltac:(vm_compute; reflexivity) ltac:(repeat constructor)) as (_ & ds & errs & msg & Hb & _ & _ & _).
  exists ds. vm_compute in Hb. injection Hb as <- <- <-. split; [vm_compute; reflexivity|].
  split; vm_compute; reflexivity.
Defined.
