(* ===== verification/MooncakeTopology.v ===== *)
(** * Which workers of a producer a consumer asks

    Models the bootstrap server of
    src/vllm_hcu/distributed/kv_transfer/kv_connector/v1/mooncake/mooncake_connector.py,
    with which the producers' workers register, the check of what it answers,
    the choice of the workers a consumer asks ([receive_kv]), and which of the
    ranks that share a context owns a layer.  A worker of tensor rank [t] and
    context rank [k] registers as virtual rank [t * pcp_size + k]. *)

From stdpp Require Import sorting.
From S2P Require Import Prelude PyString Tensors LayerSplit MooncakeRegions.
Import Mooncake.
Local Open Scope Z_scope.

Module MooncakeTopology.

(** ** The bootstrap server *)

Record HCURegisterWorkerPayload := Payload {
  pl_engine_id : string;
  pl_dp_rank : Z;
  pl_tp_rank : Z;
  pl_pp_rank : Z;
  pl_addr : string;
  pl_pcp_size : Z;
  pl_layer_split : bool
}.

(** [worker_addr] maps virtual ranks to pipeline ranks to addresses. *)
Record HCUEngineEntry := EngineEntry {
  engine_id : string;
  worker_addr : dict Z (dict Z string);
  pcp_size : Z;
  enable_dsa_cache_layer_split : bool
}.

Definition HTTPException := OtherError "HTTPException".

Definition with_workers (wa : dict Z (dict Z string)) (e : HCUEngineEntry) : HCUEngineEntry :=
  EngineEntry (engine_id e) wa (pcp_size e) (enable_dsa_cache_layer_split e).

(** The server's state is [self.workers], by data-parallel rank. *)
Definition server := dict Z HCUEngineEntry.

Definition register_worker (p : HCURegisterWorkerPayload) : M server unit :=
  if pl_pcp_size p <=? 0 then raise HTTPException "pcp_size must be positive"
  else if (pl_tp_rank p <? 0) || (pl_pp_rank p <? 0) then
    raise HTTPException "tp_rank and pp_rank must be non-negative"
  else
    modify (fun s => if dmem s (pl_dp_rank p) then s
      else dset s (pl_dp_rank p) (EngineEntry (pl_engine_id p) [] (pl_pcp_size p) (pl_layer_split p))) ;;
    s ← get_state;
    match dget s (pl_dp_rank p) with
    | None => raise KeyError ""
    | Some entry =>
        if negb (bool_decide (engine_id entry = pl_engine_id p)) then raise HTTPException "Engine ID mismatch"
        else if negb (pcp_size entry =? pl_pcp_size p) ||
            negb (eqb (enable_dsa_cache_layer_split entry) (pl_layer_split p)) then
          raise HTTPException "PCP topology mismatch"
        else
          let wa := worker_addr entry in
          let wa := if dmem wa (pl_tp_rank p) then wa else dset wa (pl_tp_rank p) [] in
          let tp_entry := default [] (dget wa (pl_tp_rank p)) in
          put_state (dset s (pl_dp_rank p) (with_workers wa entry)) ;;
          if dmem tp_entry (pl_pp_rank p) then raise HTTPException "is already registered"
          else put_state (dset s (pl_dp_rank p)
                 (with_workers (dset wa (pl_tp_rank p) (dset tp_entry (pl_pp_rank p) (pl_addr p))) entry))
    end.

(** ** What the consumer checks and keeps *)

(** [sorted(d)] *)
Definition sorted_keys {V} (d : dict Z V) : list Z := merge_sort Z.le (dkeys d).

Definition validate_bootstrap_worker_topology (wa : dict Z (dict Z string)) (pcp_size : Z) (layer_split : bool)
    : result unit :=
  if pcp_size <=? 0 then Err (Exn ValueError "pcp_size must be positive")
  else
    let virtual_ranks := sorted_keys wa in
    if is_empty virtual_ranks then Err (Exn ValueError "registered no virtual TP workers")
    else
      (if layer_split then
         if negb (bool_decide (virtual_ranks = zrange 0 (zlen virtual_ranks))) then
           Err (Exn ValueError "registered non-contiguous virtual TP ranks")
         else if negb (zlen virtual_ranks mod pcp_size =? 0) then
           Err (Exn ValueError "registered an incomplete PCP topology")
         else Ok tt
       else
         if existsb (fun rank => (rank <? 0) || negb (rank mod pcp_size =? 0)) virtual_ranks then
           Err (Exn ValueError "registered invalid replicated-PCP ranks")
         else if negb (bool_decide (virtual_ranks = map (fun i => i * pcp_size) (zrange 0 (zlen virtual_ranks)))) then
           Err (Exn ValueError "registered non-contiguous replicated-PCP ranks")
         else Ok tt) ;;
      match remove_dups (map (fun e => sorted_keys e.2) wa) with
      | [pp_ranks] =>
          if negb (bool_decide (pp_ranks = zrange 0 (zlen pp_ranks))) then
            Err (Exn ValueError "registered non-contiguous PP ranks")
          else Ok tt
      | _ => Err (Exn ValueError "registered inconsistent PP rank sets")
      end.

(** What a consumer knows of the producers' engines *)
Record agents := Agents {
  remote_agents : dict string (dict Z (dict Z string));
  remote_pcp_info : dict string (Z * bool);
  remote_tp_sizes : dict string Z
}.

Definition connect_entry (e : HCUEngineEntry) : M agents unit :=
  let remote_pcp_size := if pcp_size e =? 0 then 1 else pcp_size e in
  let split := enable_dsa_cache_layer_split e in
  let num_virtual := zlen (worker_addr e) in
  lift (validate_bootstrap_worker_topology (worker_addr e) remote_pcp_size split) ;;
  modify (fun a => Agents (dset (remote_agents a) (engine_id e) (worker_addr e))
    (dset (remote_pcp_info a) (engine_id e) (remote_pcp_size, split))
    (dset (remote_tp_sizes a) (engine_id e) (if split then num_virtual / remote_pcp_size else num_virtual))).

(** [_connect_to_prefiller_bootstrap] with the answer of the server, [None]
    when the query fails: an exception is only logged. *)
Definition connect_to_prefiller_bootstrap (answer : option server) : M agents unit :=
  match answer with
  | None => mret tt
  | Some s => try_ (for_each (dvalues s) connect_entry) (fun _ => mret tt)
  end.

(** ** The fan-out *)

Definition virtual_ranks_of (remote_tp_ranks : list Z) (remote_pcp_size : Z) (remote_layer_split : bool) : list Z :=
  if 1 <? remote_pcp_size then
    if negb remote_layer_split then map (fun t => t * remote_pcp_size) remote_tp_ranks
    else flat_map (fun t => map (fun k => t * remote_pcp_size + k) (zrange 0 remote_pcp_size)) remote_tp_ranks
  else remote_tp_ranks.

Definition lookup {K V} `{EqDecision K} (d : dict K V) (k : K) : result V :=
  match dget d k with Some v => Ok v | None => Err (Exn KeyError "") end.

Fixpoint lookup_all {V} (d : dict Z V) (ks : list Z) : result (list V) :=
  match ks with
  | [] => Ok []
  | k :: rest => v ← lookup d k; more ← lookup_all d rest; Ok (v :: more)
  end.

Fixpoint select_workers (pp_rank pp_size : Z) (wa : dict Z (dict Z string)) (ranks : list Z) : result (list string) :=
  match ranks with
  | [] => Ok []
  | rank :: rest =>
      pp_to_addr ← lookup wa rank;
      let pp_ranks := if (pp_size =? zlen pp_to_addr) && dmem pp_to_addr pp_rank then [pp_rank] else sorted_keys pp_to_addr in
      addrs ← lookup_all pp_to_addr pp_ranks;
      more ← select_workers pp_rank pp_size wa rest;
      Ok (addrs ++ more)
  end.

(** The addresses that [receive_kv] asks *)
Definition fan_out (topo : topology) (pp_rank pp_size : Z) (a : agents) (engine : string) : result (list string) :=
  size ← lookup (remote_tp_sizes a) engine;
  let remote_tp_ranks := handshake_target_ranks topo size in
  let '(remote_pcp_size, split) := default (1, false) (dget (remote_pcp_info a) engine) in
  wa ← lookup (remote_agents a) engine;
  select_workers pp_rank pp_size wa (virtual_ranks_of remote_tp_ranks remote_pcp_size split).

(** ** A producer's worker *)

(** What [__init__] derives from the ranks of a worker *)
Record worker_ranks := WorkerRanks {
  bootstrap_tp_rank : Z;
  dsa_layer_split_enabled : bool;
  dsa_owned_layer_range : Z * Z;
  pcp_dummy_sender : bool
}.

Definition init_ranks (tp_rank pcp_rank pcp_size total_layers : Z) (is_kv_producer layer_split_requested : bool)
    : result worker_ranks :=
  let split := (1 <? pcp_size) && is_kv_producer && layer_split_requested in
  range ← (if split then LayerSplit.get_layer_shard_range pcp_rank pcp_size total_layers else Ok (0, 0));
  Ok (WorkerRanks (tp_rank * pcp_size + pcp_rank) split range
    ((1 <? pcp_size) && is_kv_producer && negb split && negb (pcp_rank =? 0))).

(** [_dsa_owns_layer] *)
Definition dsa_owns_layer (pcp_rank pcp_size total_layers : Z) (owned : Z * Z) (layer_index : Z) : bool :=
  if total_layers <=? layer_index then pcp_rank =? pcp_size - 1
  else (owned.1 <=? layer_index) && (layer_index <? owned.2).

(** The request of [register_worker_with_bootstrap]; a dummy rank sends none. *)
Definition registration (engine : string) (dp_rank pp_rank pcp_size : Z) (addr : string) (w : worker_ranks)
    : option HCURegisterWorkerPayload :=
  if pcp_dummy_sender w then None
  else Some (Payload engine dp_rank (bootstrap_tp_rank w) pp_rank addr pcp_size (dsa_layer_split_enabled w)).

(** *** The place of the server *)

Record placement := Placement {
  kv_role : string;
  prefill_context_parallel_size : Z;
  local_engines_only : bool;
  data_parallel_rank_local : Z;
  data_parallel_index : Z;
  nnodes_within_dp : Z;
  master_addr : string;
  data_parallel_master_ip : string
}.

(** The ranks: of the context group (global rank, first in its group), tensor
    and pipeline ranks *)
Definition should_launch_bootstrap_server (c : placement) (pcp_global_rank : Z) (pcp_is_first : bool)
    (tp_rank pp_rank : Z) : bool :=
  if negb (bool_decide (kv_role c = "kv_producer" \/ kv_role c = "kv_both")) then false
  else if (1 <? prefill_context_parallel_size c) && (negb (bool_decide (kv_role c = "kv_producer")) ||
      negb (pcp_global_rank =? 0) || negb pcp_is_first) then false
  else if negb (tp_rank =? 0) then false
  else if negb (pp_rank =? 0) then false
  else if local_engines_only c then data_parallel_rank_local c =? 0
  else data_parallel_index c =? 0.

Definition get_mooncake_bootstrap_addr (c : placement) (port : Z) : string * Z :=
  (if local_engines_only c then "127.0.0.1"
   else if 1 <? nnodes_within_dp c then master_addr c else data_parallel_master_ip c, port).
End MooncakeTopology.
