(* ===== verification/MooncakeTopologyCorrect.v ===== *)
(** * A consumer asks every producer that has bytes for it

    About MooncakeTopology.v: from the registrations of all workers of an
    engine, in any order, to the addresses a consumer asks, and the layers that
    the ranks of a context group own. *)

From stdpp Require Import sorting.
From S2P Require Import Prelude PyString Tensors LayerSplit LayerSplitCorrect MooncakeRegions MooncakeRegionsCorrect MooncakeTopology.
Import Mooncake MooncakeTopology.
Local Open Scope Z_scope.

(** ** Sorted keys *)

Lemma sorted_keys_eq {V} (d : dict Z V) (l : list Z) :
  NoDup (dkeys d) -> StronglySorted Z.le l -> NoDup l -> (forall k, k ∈ dkeys d <-> k ∈ l) -> sorted_keys d = l.
Proof.
  intros Hnd Hl Hnl Hin. apply (Sorted_unique Z.le).
  - apply Sorted_merge_sort. intros x y. lia.
  - by apply StronglySorted_Sorted.
  - unfold sorted_keys. rewrite merge_sort_Permutation. by apply NoDup_Permutation.
Qed.

(** [range(n)] with a stride *)
Definition strided (stride n : Z) : list Z := map (fun i => i * stride) (zrange 0 n).

Lemma elem_strided stride n x : x ∈ strided stride n <-> exists i, x = i * stride /\ 0 <= i < n.
Proof.
  unfold strided. rewrite list_elem_of_fmap. split; intros (i & -> & H); exists i; (split; [done|]);
    [apply elem_zrange in H|apply elem_zrange]; lia.
Qed.

Lemma strided_sorted stride n : 0 < stride -> StronglySorted Z.le (strided stride n) /\ NoDup (strided stride n).
Proof.
  intros Hs. split; [|apply NoDup_fmap_2; [|apply NoDup_seqZ]; intros x y ?; nia].
  unfold strided. generalize 0 as s. destruct (Z.le_gt_cases 0 n) as [Hn|Hn]; [|intros s; rewrite zrange_nil by lia; constructor].
  pattern n. apply natlike_ind; [constructor| |done]. clear n Hn. intros n Hn IH s. unfold Z.succ.
  rewrite zrange_succ by done. cbn [map]. constructor; [apply IH|]. apply Forall_forall.
  intros x (i & -> & Hi%elem_zrange)%list_elem_of_fmap. nia.
Qed.

Lemma strided_one n : strided 1 n = zrange 0 n.
Proof. unfold strided. rewrite <- (map_id (zrange 0 n)) at 2. apply map_ext. intros x. lia. Qed.

Lemma zlen_strided stride n : 0 <= n -> zlen (strided stride n) = n.
Proof. intros Hn. unfold strided. rewrite <- (zlen_zrange 0 n Hn) at 2. unfold zlen. by rewrite length_map. Qed.

Lemma remove_dups_constant {A} `{EqDecision A} (x : A) l : l <> [] -> Forall (eq x) l -> remove_dups l = [x].
Proof.
  intros Hne H. induction H as [|y l <- H IH]; [done|]. cbn [remove_dups]. destruct l as [|z l].
  - case_decide; [by apply not_elem_of_nil in H0|done].
  - case_decide as Hin; [by apply IH|]. destruct Hin. inversion H; subst. by left.
Qed.

Lemma NoDup_map_omap {A B C} (g : A -> option B) (f : B -> C) l :
  NoDup l -> (forall x y a b, x ∈ l -> y ∈ l -> g x = Some a -> g y = Some b -> f a = f b -> x = y) ->
  NoDup (map f (omap g l)).
Proof.
  induction 1 as [|x l Hx _ IH]; intros Hinj; simpl; [constructor|].
  assert (NoDup (map f (omap g l))) as IH'.
  { apply IH. intros y z a b Hy Hz. apply Hinj; by right. }
  destruct (g x) as [a|] eqn:Ea; [|done]. constructor; [|done].
  intros (b & Hab & (y & Hy & Hb)%list_elem_of_omap)%list_elem_of_fmap. destruct Hx.
  by rewrite (Hinj x y a b) by (done || by left || by right).
Qed.

Lemma NoDup_flat_map {A B} (f : A -> list B) (key : B -> A) l :
  (forall a b, b ∈ f a -> key b = a) -> (forall a, NoDup (f a)) -> NoDup l -> NoDup (flat_map f l).
Proof.
  intros Hkey Hf. induction 1 as [|a l Ha _ IH]; simpl; [constructor|]. apply NoDup_app. split_and!; [done| |done].
  intros b Hb Hin. apply list_elem_of_In, in_flat_map in Hin as (a' & Ha' & Hb'). apply list_elem_of_In in Ha', Hb'.
  rewrite <- (Hkey a b Hb), (Hkey a' b Hb') in Ha. done.
Qed.

(** ** The registrations *)

Lemma dget_single {V} (k : Z) (v : V) : dget [(k, v)] k = Some v.
Proof. simpl. by rewrite decide_True. Qed.
Lemma dmem_single {V} (k : Z) (v : V) : dmem [(k, v)] k = true.
Proof. unfold dmem. by rewrite dget_single. Qed.
Lemma dset_single {V} (k : Z) (v v' : V) : dset [(k, v)] k v' = [(k, v')].
Proof. simpl. by rewrite decide_True. Qed.

(** [wa] holds exactly the workers [S]: virtual rank, pipeline rank, address. *)
Definition registered (wa : dict Z (dict Z string)) (ws : list (Z * Z * string)) : Prop :=
  NoDup (dkeys wa) /\ (forall r row, dget wa r = Some row -> NoDup (dkeys row) /\ row <> []) /\
  forall r q a, (exists row, dget wa r = Some row /\ dget row q = Some a) <-> (r, q, a) ∈ ws.

Lemma registered_add wa ws r q a :
  registered wa ws -> (forall a', (r, q, a') ∉ ws) ->
  let wa' := if dmem wa r then wa else dset wa r [] in
  let row := default [] (dget wa' r) in
  dmem row q = false /\ registered (dset wa' r (dset row q a)) (ws ++ [(r, q, a)]).
Proof.
  intros (Hnd & Hrows & Hws) Hnew wa' row.
  assert (row = default [] (dget wa r)) as Hrow.
  { unfold row, wa', dmem. destruct (dget wa r) eqn:E; [by rewrite E|]. by rewrite dget_dset_eq. }
  assert (NoDup (dkeys row)) as Hrnd.
  { rewrite Hrow. destruct (dget wa r) eqn:E; [by eapply Hrows|constructor]. }
  assert (forall r', r' <> r -> dget (dset wa' r (dset row q a)) r' = dget wa r') as Hother.
  { intros r' Hr'. rewrite dget_dset_ne by done. unfold wa'. destruct (dmem wa r); [done|]. by rewrite dget_dset_ne. }
  assert (dget row q = None) as Hfree.
  { destruct (dget row q) as [a'|] eqn:E; [|done]. destruct (Hnew a'). apply Hws. rewrite Hrow in E.
    destruct (dget wa r) as [row'|] eqn:Er; [by exists row'|done]. }
  split; [unfold dmem; by rewrite Hfree|]. split_and!.
  - apply NoDup_dset. unfold wa'. destruct (dmem wa r); [done|by apply NoDup_dset].
  - intros r' row'. destruct (decide (r' = r)) as [->|Hne]; [|rewrite Hother by done; apply Hrows].
    rewrite dget_dset_eq. intros [= <-]. split; [by apply NoDup_dset|]. intros H.
    pose proof (dget_dset_eq row q a) as H'. by rewrite H in H'.
  - intros r' q' a'. rewrite elem_of_app, list_elem_of_singleton. destruct (decide (r' = r)) as [->|Hne].
    2: { rewrite Hother by done. rewrite Hws. split; [by left|]. by intros [?|[= -> _ _]]. }
    rewrite <- Hws. rewrite dget_dset_eq. split.
    + intros (row' & [= <-] & H). rewrite dget_dset in H. case_decide; [subst; simplify_eq; by right|].
      left. rewrite Hrow in H. destruct (dget wa r) as [row0|]; [by exists row0|done].
    + intros [(row0 & Hr0 & Hq0)|[= -> ->]]; eexists; (split; [done|]).
      * rewrite Hr0 in Hrow. simpl in Hrow. subst row0. rewrite dget_dset_ne; [done|]. intros ->. congruence.
      * apply dget_dset_eq.
Qed.

Section engine.
(** The sizes of the producer's groups, the layers, whether layers are split,
    and the addresses of its workers by tensor, context and pipeline rank *)
Context (N P Q total : Z) (requested : bool) (engine : string) (dp_rank : Z) (addr : Z -> Z -> Z -> string).
Context (Npos : 0 < N) (Ppos : 0 < P) (Qpos : 0 < Q) (total_pos : 0 <= total).

Definition layers_split : bool := (1 <? P) && requested.

(** The context ranks that register *)
Definition contexts : list Z := if layers_split then zrange 0 P else [0].

(** The request of a worker *)
Definition payload_of (w : Z * Z * Z) : option HCURegisterWorkerPayload :=
  let '(t, k, q) := w in
  match init_ranks t k P total true requested with
  | Ok ranks => registration engine dp_rank q P (addr t k q) ranks
  | Err _ => None
  end.

Definition all_workers : list (Z * Z * Z) :=
  flat_map (fun t => flat_map (fun k => map (fun q => (t, k, q)) (zrange 0 Q)) (zrange 0 P)) (zrange 0 N).

Lemma elem_all_workers t k q : (t, k, q) ∈ all_workers <-> 0 <= t < N /\ 0 <= k < P /\ 0 <= q < Q.
Proof using Type.
  clear Npos Ppos Qpos total_pos. unfold all_workers. rewrite list_elem_of_In, in_flat_map. split.
  - intros (t' & Ht & Hin). apply in_flat_map in Hin as (k' & Hk & Hin). apply in_map_iff in Hin as (q' & [= <- <- <-] & Hq).
    apply list_elem_of_In, elem_zrange in Ht, Hk, Hq. lia.
  - intros (Ht & Hk & Hq). exists t. split; [apply list_elem_of_In, elem_zrange; lia|]. apply in_flat_map. exists k.
    split; [apply list_elem_of_In, elem_zrange; lia|]. apply in_map_iff. exists q. split; [done|].
    apply list_elem_of_In, elem_zrange. lia.
Qed.

Lemma NoDup_all_workers : NoDup all_workers.
Proof using Type.
  unfold all_workers. apply (NoDup_flat_map _ (fun w => w.1.1)); [| |apply NoDup_seqZ].
  - intros t w Hw. apply list_elem_of_In, in_flat_map in Hw as (k & _ & Hw). by apply in_map_iff in Hw as (q & <- & _).
  - intros t. apply (NoDup_flat_map _ (fun w => w.1.2)); [| |apply NoDup_seqZ].
    + intros k w Hw. apply list_elem_of_In in Hw. by apply in_map_iff in Hw as (q & <- & _).
    + intros k. apply NoDup_fmap_2; [|apply NoDup_seqZ]. by intros q q' [=].
Qed.

Lemma elem_contexts k : k ∈ contexts -> 0 <= k < P.
Proof using Ppos.
  unfold contexts. destruct layers_split; [intros ?%elem_zrange; lia|]. intros ->%list_elem_of_singleton. lia.
Qed.

(** A worker's registration, or none for a dummy rank *)
Lemma payload_of_eq t k q :
  0 <= k < P ->
  payload_of (t, k, q) = if decide (k ∈ contexts) then Some (Payload engine dp_rank (t * P + k) q (addr t k q) P layers_split)
    else None.
Proof using Ppos total_pos.
  intros Hk. unfold payload_of, init_ranks, registration, contexts. rewrite andb_true_r. fold layers_split.
  destruct layers_split eqn:Es.
  - rewrite range_lo by lia. simpl. rewrite andb_false_r. simpl.
    by rewrite decide_True by (apply elem_zrange; lia).
  - simpl. destruct (Z.eqb_spec k 0) as [->|Hne].
    + rewrite andb_false_r, decide_True by (by left). done.
    + destruct (Z.ltb_spec 1 P); [|lia]. simpl. rewrite decide_False; [done|]. by intros ?%list_elem_of_singleton.
Qed.

(** The worker that a registration stands for *)
Definition triple (p : HCURegisterWorkerPayload) : Z * Z * string := (pl_tp_rank p, pl_pp_rank p, pl_addr p).

Definition good (p : HCURegisterWorkerPayload) : Prop :=
  exists r q a, p = Payload engine dp_rank r q a P layers_split /\ 0 <= r /\ 0 <= q.

Abbreviation entry wa := (EngineEntry engine wa P layers_split).

Lemma register_one p wa ws :
  good p -> registered wa ws -> (forall a, (pl_tp_rank p, pl_pp_rank p, a) ∉ ws) ->
  exists wa', registered wa' (ws ++ [triple p]) /\
    register_worker p [(dp_rank, entry wa)] = (Ok tt, [(dp_rank, entry wa')]) /\
    (wa = [] -> register_worker p [] = (Ok tt, [(dp_rank, entry wa')])).
Proof using Ppos.
  intros (r & q & a & -> & Hr & Hq) H Hnew. simpl in Hnew.
  destruct (registered_add _ _ r q a H Hnew) as [Hfree H']. eexists. split; [exact H'|].
  assert (register_worker (Payload engine dp_rank r q a P layers_split) [(dp_rank, entry wa)] =
    (Ok tt, [(dp_rank, entry (dset (if dmem wa r then wa else dset wa r []) r
      (dset (default [] (dget (if dmem wa r then wa else dset wa r []) r)) q a)))])) as Hrun.
  { unfold register_worker. cbn [pl_pcp_size pl_tp_rank pl_pp_rank pl_dp_rank].
    destruct (Z.leb_spec P 0); [lia|]. destruct (Z.ltb_spec r 0); [lia|]. destruct (Z.ltb_spec q 0); [lia|].
    cbn [orb]. unfold mbind, M_bind, modify, get_state, put_state. cbn beta iota.
    rewrite (dmem_single dp_rank (entry wa)). cbn beta iota. rewrite (dget_single dp_rank (entry wa)).
    cbn [engine_id pcp_size enable_dsa_cache_layer_split worker_addr pl_engine_id pl_pcp_size pl_layer_split pl_addr].
    rewrite bool_decide_eq_true_2, Z.eqb_refl, eqb_reflx by done. cbn [negb orb]. cbv zeta.
    rewrite Hfree. by rewrite dset_single. }
  split; [exact Hrun|]. intros ->. rewrite <- Hrun. unfold register_worker.
  cbn [pl_pcp_size pl_tp_rank pl_pp_rank pl_dp_rank].
  destruct (Z.leb_spec P 0); [lia|]. destruct (Z.ltb_spec r 0); [lia|]. destruct (Z.ltb_spec q 0); [lia|].
  cbn [orb]. unfold mbind, M_bind, modify. cbn beta iota. by rewrite (dmem_single dp_rank (entry [])).
Qed.

Lemma register_rest ps wa ws :
  Forall good ps -> registered wa ws -> NoDup (map fst ws ++ map (fun p => (triple p).1) ps) ->
  exists wa', registered wa' (ws ++ map triple ps) /\
    for_each ps register_worker [(dp_rank, entry wa)] = (Ok tt, [(dp_rank, entry wa')]).
Proof using Ppos.
  intros Hg. revert wa ws. induction Hg as [|p ps Hp _ IH]; intros wa ws H Hnd; simpl.
  { exists wa. split; [by rewrite app_nil_r|done]. }
  assert (forall a, (pl_tp_rank p, pl_pp_rank p, a) ∉ ws) as Hnew.
  { intros a Hin. apply NoDup_app in Hnd as (_ & Hd & _). apply (Hd (pl_tp_rank p, pl_pp_rank p)); [|by left].
    apply list_elem_of_fmap. by exists (pl_tp_rank p, pl_pp_rank p, a). }
  destruct (register_one p wa ws Hp H Hnew) as (wa1 & H1 & E1 & _). rewrite (M_bind_ok _ _ _ _ _ E1).
  destruct (IH wa1 _ H1) as (wa2 & H2 & E2); [by rewrite map_app, <- app_assoc|].
  exists wa2. split; [|done]. by rewrite <- app_assoc in H2.
Qed.

Lemma registered_nil : registered [] [].
Proof using Type.
  split_and!; [constructor|done|]. intros r q a. split; [by intros (row & ? & _)|by intros ?%not_elem_of_nil].
Qed.

Lemma register_all ps :
  ps <> [] -> Forall good ps -> NoDup (map (fun p => (triple p).1) ps) ->
  exists wa, registered wa (map triple ps) /\ for_each ps register_worker [] = (Ok tt, [(dp_rank, entry wa)]).
Proof using Ppos.
  intros Hne Hg Hnd. destruct ps as [|p ps]; [done|]. apply Forall_cons in Hg as [Hp Hg]. simpl.
  destruct (register_one p [] [] Hp registered_nil) as (wa1 & H1 & _ & E1); [intros a; by apply not_elem_of_nil|].
  rewrite (M_bind_ok _ _ _ _ _ (E1 eq_refl)). by apply (register_rest ps wa1 [triple p]).
Qed.

(** *** All workers of the engine *)

Lemma payloads_spec ps :
  ps ≡ₚ omap payload_of all_workers ->
  Forall good ps /\ NoDup (map (fun p => (triple p).1) ps) /\ ps <> [] /\
  forall r q a, (r, q, a) ∈ map triple ps <->
    exists t k, r = t * P + k /\ 0 <= t < N /\ k ∈ contexts /\ 0 <= q < Q /\ a = addr t k q.
Proof using Npos Ppos Qpos total_pos.
  intros Hps.
  assert (forall p, p ∈ ps <-> exists t k q, 0 <= t < N /\ k ∈ contexts /\ 0 <= q < Q /\
    p = Payload engine dp_rank (t * P + k) q (addr t k q) P layers_split) as Hin.
  { intros p. rewrite Hps, list_elem_of_omap. split.
    - intros ([[t k] q] & (Ht & Hk & Hq)%elem_all_workers & Hp). rewrite payload_of_eq in Hp by done.
      case_decide; [|done]. injection Hp as <-. by exists t, k, q.
    - intros (t & k & q & Ht & Hk & Hq & ->). pose proof (elem_contexts k Hk). exists (t, k, q).
      split; [by apply elem_all_workers|]. rewrite payload_of_eq by done. by rewrite decide_True. }
  split_and!.
  - apply Forall_forall. intros p (t & k & q & Ht & Hk & Hq & ->)%Hin. pose proof (elem_contexts k Hk).
    eexists _, _, _. split_and!; [done|nia|lia].
  - rewrite (Permutation_map _ Hps).
    apply NoDup_map_omap; [apply NoDup_all_workers|].
    intros [[t k] q] [[t' k'] q'] p p' (Ht & Hk & Hq)%elem_all_workers (Ht' & Hk' & Hq')%elem_all_workers.
    rewrite !payload_of_eq by done. do 2 (case_decide; [|done]). intros [= <-] [= <-] [= Heq ->].
    assert (t = t') by nia. subst t'. f_equal. f_equal. lia.
  - intros ->. assert (Payload engine dp_rank (0 * P + 0) 0 (addr 0 0 0) P layers_split ∈ []) as H0; [|by apply not_elem_of_nil in H0].
    apply Hin. exists 0, 0, 0. split_and!; try lia; try done. unfold contexts. destruct layers_split; [apply elem_zrange; lia|by left].
  - intros r q a. rewrite list_elem_of_fmap. split.
    + intros (p & [= -> -> ->] & (t & k & q' & Ht & Hk & Hq & ->)%Hin). simpl. exists t, k. done.
    + intros (t & k & -> & Ht & Hk & Hq & ->). eexists. split; [|apply Hin; by exists t, k, q]. done.
Qed.

(** *** What the consumer finds *)

(** The pipeline stages a consumer asks *)
Definition stages (pp_rank pp_size : Z) : list Z :=
  if (pp_size =? Q) && bool_decide (0 <= pp_rank < Q) then [pp_rank] else zrange 0 Q.

Lemma virtual_ranks_eq ts :
  virtual_ranks_of ts P layers_split = flat_map (fun t => map (fun k => t * P + k) contexts) ts.
Proof using Ppos.
  unfold virtual_ranks_of, contexts, layers_split. destruct (Z.ltb_spec 1 P); cbn [andb].
  - destruct requested; [done|]. cbn [negb]. induction ts as [|t ts IH]; [done|]. cbn. rewrite IH. f_equal. lia.
  - assert (P = 1) as -> by lia. induction ts as [|t ts IH]; [done|]. cbn [flat_map map app]. f_equal; [lia|exact IH].
Qed.

Section found.
Context (wa : dict Z (dict Z string)) (ws : list (Z * Z * string)).
Context (Hreg : registered wa ws).
Context (Hws : forall r q a, (r, q, a) ∈ ws <->
  exists t k, r = t * P + k /\ 0 <= t < N /\ k ∈ contexts /\ 0 <= q < Q /\ a = addr t k q).

Lemma rank_unique t k t' k' : k ∈ contexts -> k' ∈ contexts -> t * P + k = t' * P + k' -> t = t' /\ k = k'.
Proof using Ppos. intros Hk%elem_contexts Hk'%elem_contexts Heq. assert (t = t') by nia. split; [done|nia]. Qed.

Lemma row_of r row :
  dget wa r = Some row -> exists t k, r = t * P + k /\ 0 <= t < N /\ k ∈ contexts /\
    sorted_keys row = zrange 0 Q /\ zlen row = Q /\ forall q, 0 <= q < Q -> dget row q = Some (addr t k q).
Proof using Hreg Hws Ppos Qpos.
  intros Hr. destruct Hreg as (_ & Hrows & Hin). destruct (Hrows r row Hr) as [Hnd Hne].
  assert (exists q a, dget row q = Some a) as (q0 & a0 & H0).
  { destruct row as [|[q a] row]; [done|]. exists q, a. simpl. by rewrite decide_True. }
  destruct (proj1 (Hws r q0 a0)) as (t & k & -> & Ht & Hk & _); [apply Hin; eauto|].
  assert (forall q, 0 <= q < Q -> dget row q = Some (addr t k q)) as Hget.
  { intros q Hq. destruct (proj2 (Hin (t * P + k) q (addr t k q))) as (row' & Hr' & Hq'); [|congruence].
    apply Hws. by exists t, k. }
  assert (sorted_keys row = zrange 0 Q) as E.
  { apply sorted_keys_eq; [done|rewrite <- strided_one; by apply strided_sorted|apply NoDup_seqZ|].
    intros q. rewrite elem_zrange. split.
    + intros (a & Ha)%key_dget_Some. destruct (proj1 (Hws (t * P + k) q a)) as (_ & _ & _ & _ & _ & Hq & _); [|lia].
      apply Hin. eauto.
    + intros Hq. eapply dget_Some_key, Hget. lia. }
  exists t, k. do 4 (split; [done|]). split; [|done].
  transitivity (zlen (sorted_keys row)); [|rewrite E; apply zlen_zrange; lia].
  unfold zlen, sorted_keys. rewrite merge_sort_Permutation. unfold dkeys. by rewrite length_map.
Qed.

Lemma rows_found t k : 0 <= t < N -> k ∈ contexts -> exists row, dget wa (t * P + k) = Some row.
Proof using Hreg Hws Qpos.
  intros Ht Hk. destruct Hreg as (_ & _ & Hin).
  destruct (proj2 (Hin (t * P + k) 0 (addr t k 0))) as (row & Hr & _); [|eauto].
  apply Hws. exists t, k. do 3 (split; [done|]). split; [lia|done].
Qed.

(** The virtual ranks, in order *)
Definition virtual_ranks : list Z := if layers_split then zrange 0 (N * P) else strided P N.

Lemma ranks_found : sorted_keys wa = virtual_ranks.
Proof using Hreg Hws Npos Ppos Qpos.
  assert (forall r, r ∈ dkeys wa <-> exists t k, r = t * P + k /\ 0 <= t < N /\ k ∈ contexts) as Hkeys.
  { intros r. split.
    - intros (row & Hr)%key_dget_Some. destruct (row_of r row Hr) as (t & k & ? & ? & ? & _). eauto.
    - intros (t & k & -> & Ht & Hk). destruct (rows_found t k Ht Hk). by eapply dget_Some_key. }
  unfold virtual_ranks. apply sorted_keys_eq; [apply Hreg| | |].
  - destruct layers_split; [rewrite <- strided_one; by apply strided_sorted|by apply strided_sorted].
  - destruct layers_split; [apply NoDup_seqZ|by apply strided_sorted].
  - intros r. rewrite Hkeys. clear Hkeys. unfold contexts. destruct layers_split.
    + rewrite elem_zrange. split.
      * intros (t & k & -> & Ht & Hk%elem_zrange). nia.
      * intros Hr. pose proof (Z.div_mod r P). pose proof (Z.mod_pos_bound r P).
        exists (r / P), (r mod P). split; [lia|]. rewrite elem_zrange. split; [|lia].
        split; [apply Z.div_pos; lia|apply Z.div_lt_upper_bound; lia].
    + rewrite elem_strided. split.
      * intros (t & k & -> & Ht & ->%list_elem_of_singleton). exists t. split; [lia|done].
      * intros (t & -> & Ht). exists t, 0. split; [lia|]. split; [done|by left].
Qed.

Lemma workers_valid : validate_bootstrap_worker_topology wa P layers_split = Ok tt.
Proof using Hreg Hws Npos Ppos Qpos.
  unfold validate_bootstrap_worker_topology. destruct (Z.leb_spec P 0); [lia|]. cbv zeta. rewrite ranks_found.
  assert (0 < zlen virtual_ranks) as Hlen.
  { unfold virtual_ranks. destruct layers_split; [rewrite zlen_zrange; nia|rewrite zlen_strided; lia]. }
  assert (is_empty virtual_ranks = false) as -> by (destruct virtual_ranks; [unfold zlen in Hlen; simpl in *; lia|done]).
  assert (remove_dups (map (fun e => sorted_keys e.2) wa) = [zrange 0 Q]) as ->.
  { apply remove_dups_constant.
    - intros Hnil. pose proof ranks_found as E. destruct wa; [|done]. rewrite <- E in Hlen. by vm_compute in Hlen.
    - apply Forall_forall. intros ks ([r row] & -> & Hin)%list_elem_of_fmap. symmetry.
      assert (dget wa r = Some row) as Hr by (apply elem_dget; [apply Hreg|done]).
      by destruct (row_of r row Hr) as (t & k & _ & _ & _ & ? & _). }
  rewrite zlen_zrange by lia. rewrite (bool_decide_eq_true_2 (zrange 0 Q = _)) by done.
  unfold virtual_ranks in *. destruct layers_split.
  - rewrite zlen_zrange in * by nia. rewrite bool_decide_eq_true_2 by done. cbn [negb].
    rewrite Z.mod_mul by lia. done.
  - rewrite zlen_strided in * by lia. rewrite (bool_decide_eq_true_2 (strided P N = _)) by done. cbn [negb].
    destruct (existsb _ _) eqn:E; [|done]. apply existsb_exists in E as (r & Hr & Hbad).
    apply list_elem_of_In, elem_strided in Hr as (i & -> & Hi). rewrite Z.mod_mul in Hbad by lia.
    apply orb_true_iff in Hbad as [Hbad|Hbad]; [apply Z.ltb_lt in Hbad; nia|done].
Qed.

Lemma connected a :
  exists a', connect_to_prefiller_bootstrap (Some [(dp_rank, entry wa)]) a = (Ok tt, a') /\
    dget (remote_agents a') engine = Some wa /\ dget (remote_pcp_info a') engine = Some (P, layers_split) /\
    dget (remote_tp_sizes a') engine = Some N.
Proof using Hreg Hws Npos Ppos Qpos.
  unfold connect_to_prefiller_bootstrap, try_. cbn [dvalues map for_each snd]. unfold connect_entry.
  cbn [pcp_size enable_dsa_cache_layer_split worker_addr engine_id]. destruct (Z.eqb_spec P 0); [lia|].
  unfold mbind, M_bind, lift. rewrite workers_valid. cbv iota beta. eexists. split; [reflexivity|].
  cbn [remote_agents remote_pcp_info remote_tp_sizes]. rewrite !dget_dset_eq. split_and!; [done..|].
  assert (zlen wa = zlen virtual_ranks) as Hlen.
  { rewrite <- ranks_found. unfold zlen, sorted_keys. rewrite merge_sort_Permutation. unfold dkeys. by rewrite length_map. }
  rewrite Hlen. unfold virtual_ranks. destruct layers_split; f_equal.
  - rewrite zlen_zrange by nia. apply Z.div_mul. lia.
  - apply zlen_strided. lia.
Qed.

Lemma lookup_all_map {V} (d : dict Z V) (f : Z -> V) ks :
  (forall k, k ∈ ks -> dget d k = Some (f k)) -> lookup_all d ks = Ok (map f ks).
Proof using Type.
  clear. induction ks as [|k ks IH]; intros H; [done|]. cbn [lookup_all map]. unfold lookup.
  rewrite H by (by left). unfold mbind, result_bind. rewrite IH; [done|]. intros k' Hk'. apply H. by right.
Qed.

Lemma select_found pp_rank pp_size ranks :
  (forall r, r ∈ ranks -> exists t k, r = t * P + k /\ 0 <= t < N /\ k ∈ contexts) ->
  select_workers pp_rank pp_size wa ranks =
    Ok (flat_map (fun r => map (addr (r / P) (r mod P)) (stages pp_rank pp_size)) ranks).
Proof using Hreg Hws Npos Ppos Qpos.
  induction ranks as [|r ranks IH]; intros Hr; [done|]. cbn [select_workers flat_map].
  destruct (Hr r) as (t & k & -> & Ht & Hk); [by left|]. destruct (rows_found t k Ht Hk) as (row & Hrow).
  unfold lookup at 1. rewrite Hrow. destruct (row_of _ _ Hrow) as (t' & k' & Heq & _ & Hk' & Hsort & Hlen & Hget).
  destruct (rank_unique _ _ _ _ Hk Hk' Heq) as [<- <-]. pose proof (elem_contexts k Hk) as Hkb.
  assert ((t * P + k) / P = t) as -> by (rewrite Z.div_add_l, Z.div_small by lia; lia).
  assert ((t * P + k) mod P = k) as -> by (rewrite Z.add_comm, Z.mod_add, Z.mod_small by lia; done).
  assert (dmem row pp_rank = bool_decide (0 <= pp_rank < Q)) as Hmem.
  { unfold dmem. case_bool_decide; [by rewrite Hget|]. destruct (dget row pp_rank) eqn:E; [|done].
    assert (pp_rank ∈ sorted_keys row) as Hin; [|rewrite Hsort, elem_zrange in Hin; lia].
    unfold sorted_keys. rewrite merge_sort_Permutation. by eapply dget_Some_key. }
  unfold mbind, result_bind. cbv zeta. rewrite Hlen, Hmem, Hsort. fold (stages pp_rank pp_size).
  rewrite (lookup_all_map row (addr t k)).
  - rewrite IH; [done|]. intros r' Hr'. apply Hr. by right.
  - intros q Hq. apply Hget. unfold stages in Hq. destruct (_ && _) eqn:E.
    + apply list_elem_of_singleton in Hq as ->. bool_prop. by apply bool_decide_eq_true in H0.
    + apply elem_zrange in Hq. lia.
Qed.
End found.

(** The context ranks that send a layer *)
Definition sends_layer (idx k : Z) : bool :=
  match init_ranks 0 k P total true requested with
  | Ok w => negb (dsa_layer_split_enabled w) || dsa_owns_layer k P total (dsa_owned_layer_range w) idx
  | Err _ => false
  end.

Lemma one_owner idx : 0 <= idx -> exists k, k ∈ contexts /\ forall k', k' ∈ contexts -> sends_layer idx k' = bool_decide (k' = k).
Proof using Ppos total_pos.
  intros Hi. unfold sends_layer, init_ranks. rewrite andb_true_r. fold layers_split. unfold contexts.
  destruct layers_split eqn:Es.
  2: { exists 0. split; [by left|]. intros k' ->%list_elem_of_singleton. by rewrite bool_decide_eq_true_2. }
  destruct (Z.le_gt_cases total idx) as [Hge|Hlt].
  - exists (P - 1). split; [apply elem_zrange; lia|]. intros k' Hk'%elem_zrange. rewrite range_lo by lia. simpl.
    unfold dsa_owns_layer. destruct (Z.leb_spec total idx); [|lia]. case_bool_decide; lia.
  - destruct (rank_exists P total Ppos idx) as (k & Hk & Hlo); [lia|]. exists k.
    split; [apply elem_zrange; lia|]. intros k' Hk'%elem_zrange. rewrite range_lo by lia. simpl.
    unfold dsa_owns_layer. destruct (Z.leb_spec total idx); [lia|]. simpl.
    case_bool_decide as Heq; [subst; lia|]. apply not_true_iff_false. intros Hin. bool_prop. destruct Heq.
    eapply (lo_unique P total) with (idx := idx); lia.
Qed.

(** C15: when all workers of a producer's engine have registered, in whatever
    order, every registration was accepted and a consumer accepts the answer
    of the bootstrap server; for every tensor rank it exchanges with, it asks
    the workers of every context rank that registers, in each its own pipeline
    stage when both sides have the same number of stages and every stage
    otherwise, each worker once; and every layer, draft layers after the last
    one included, is sent by exactly one of those context ranks. *)
Theorem fan_out_complete ps topo pp_rank pp_size :
  ps ≡ₚ omap payload_of all_workers ->
  (forall t, t ∈ handshake_target_ranks topo N -> 0 <= t < N) ->
  exists s a,
    for_each ps register_worker [] = (Ok tt, s) /\
    connect_to_prefiller_bootstrap (Some s) (Agents [] [] []) = (Ok tt, a) /\
    fan_out topo pp_rank pp_size a engine =
      Ok (flat_map (fun t => flat_map (fun k => map (addr t k) (stages pp_rank pp_size)) contexts)
        (handshake_target_ranks topo N)) /\
    forall idx, 0 <= idx ->
      exists k, k ∈ contexts /\ forall k', k' ∈ contexts -> sends_layer idx k' = bool_decide (k' = k).
Proof using Npos Ppos Qpos total_pos.
  intros Hps Htopo. destruct (payloads_spec ps Hps) as (Hg & Hnd & Hne & Hws).
  destruct (register_all ps Hne Hg Hnd) as (wa & Hreg & Hrun).
  destruct (connected wa _ Hreg Hws (Agents [] [] [])) as (a & Hc & Ha & Hi & Hs).
  eexists _, a. split; [exact Hrun|]. split; [exact Hc|]. split; [|intros idx; apply one_owner].
  unfold fan_out, lookup. rewrite Hs, Hi, Ha. cbn [default mbind result_bind from_option id].
  rewrite virtual_ranks_eq. rewrite (select_found wa _ Hreg Hws).
  - f_equal. clear Htopo. induction (handshake_target_ranks topo N) as [|t ts IH]; [done|]. cbn [flat_map].
    rewrite flat_map_app, IH. f_equal. rewrite !flat_map_concat_map, map_map. f_equal. apply map_ext_in.
    intros k Hk%list_elem_of_In%elem_contexts. rewrite Z.div_add_l, Z.div_small, Z.add_0_r by lia.
    by rewrite Z.add_comm, Z.mod_add, Z.mod_small by lia.
  - intros r Hr. apply list_elem_of_In, in_flat_map in Hr as (t & Ht & Hr). apply in_map_iff in Hr as (k & <- & Hk).
    exists t, k. split; [done|]. split; [apply Htopo; by apply list_elem_of_In|by apply list_elem_of_In].
Qed.
End engine.

(** Two tensor ranks, two context ranks that split five layers, one stage; the
    registrations arrive in reverse order. *)
Definition example_addr (t k q : Z) : string :=
  if t =? 0 then (if k =? 0 then "w00" else "w01") else (if k =? 0 then "w10" else "w11").

Definition example_requests : list HCURegisterWorkerPayload :=
  reverse (omap (payload_of 2 5 true "P" 0 example_addr) (all_workers 2 2 1)).

Lemma fan_out_complete_witness :
  exists s a,
    for_each example_requests register_worker [] = (Ok tt, s) /\
    connect_to_prefiller_bootstrap (Some s) (Agents [] [] []) = (Ok tt, a) /\
    fan_out (Topology 0 (fun _ => 2) (fun _ => [1]) false) 0 1 a "P" = Ok ["w10"; "w11"] /\
    map (sends_layer 2 5 true 3) [0; 1] = [false; true].
Proof.
  destruct (fan_out_complete 2 2 1 5 true "P" 0 example_addr ltac:(lia) ltac:(lia) ltac:(lia) ltac:(lia)
    example_requests (Topology 0 (fun _ => 2) (fun _ => [1]) false) 0 1 (reverse_Permutation _))
    as (s & a & Hs & Ha & Hf & _).
  - intros t ->%list_elem_of_singleton. lia.
  - exists s, a. split; [exact Hs|]. split; [exact Ha|]. split; [|vm_compute; reflexivity].
    rewrite Hf. vm_compute. reflexivity.
Defined.
