(* ===== verification/MooncakeSender.v ===== *)
(** * The sending side of the Mooncake connector

    Models the producer half of [MooncakeConnectorWorker] in
    src/vllm_hcu/distributed/kv_transfer/kv_connector/v1/mooncake/mooncake_connector.py:
    the requests whose blocks are kept for the consumers, the coroutines that
    answer the consumers ([send_kv_to_decode]), their transfers, and the
    release of blocks that were sent or have expired.

    The sender loop is one thread, so the code between two awaits is one step:
    the start of a coroutine, its wake-up when requests are ready, the end of
    a transfer, and its timeout; [record_send_reqs] and
    [fetch_finished_sending_reqs] do not await.  The records of requests are
    shared objects: the table and the coroutines hold references to them.
    What the transfer engine returns, and time, are arguments of the steps. *)

From stdpp Require Import pretty.
From S2P Require Import Prelude PyString Tensors Envs MooncakeRegions.
Import Mooncake.
Local Open Scope Z_scope.

Module MooncakeSender.

(** ** Data *)

(** [expire_time] is [None] for infinity; [ready] is the state of the event. *)
Record SendBlockMeta := SendMeta {
  p_req_id : string;
  transfer_id : string;
  local_block_ids : list (list Z);
  ready : bool;
  expire_time : option Z;
  need_send : Z;
  sent : Z;
  sending : Z
}.

Record MooncakeXferMetadata := XferMeta {
  remote_tp_size : Z;
  remote_tp_rank : Z;
  req_blocks : dict string (string * list (list Z));
  kv_caches_base_addr : list Z;
  block_lens : list Z;
  kv_block_lens : list Z;
  registered_layer_names : list string;
  registered_layer_indices : list Z;
  registered_group_indices : list Z;
  num_blocks_per_layer : list Z
}.

Inductive MooncakeXferResponseStatus := FINISH | CONTINUE | ERROR.

Record MooncakeXferResponse := Response {
  status : MooncakeXferResponseStatus;
  ok_reqs : list string;
  err_reqs : list string;
  err_msg : option string
}.

(** What a coroutine awaits: its requests, or the end of a transfer *)
Inductive phase :=
  | Waiting
  | InFlight (batch : list (string * nat)) (copies : list descriptor) (errs : list string) (msg : option string)
  | Closed.

(** A coroutine that answers one consumer: the objects of its requests, the
    requests it still waits for *)
Record conn := Conn {
  c_meta : MooncakeXferMetadata;
  c_local : list TransferRegion;
  c_remote : list TransferRegion;
  c_ranks : list Z;
  c_pending : dict string nat;
  c_waiting : list string;
  c_phase : phase
}.

(** What is seen outside: transfers that the engine completed, responses, and
    requests whose blocks are released; [Skipped] is the release by a rank that
    sends nothing *)
Inductive sender_event :=
  | Wrote (c : nat) (batch : list (string * nat)) (copies : list descriptor)
  | Responded (c : nat) (r : MooncakeXferResponse)
  | Released (o : nat) (req : string)
  | Skipped (req : string).

Record sender := Sender {
  heap : gmap nat SendBlockMeta;
  reqs_need_send : dict string nat;
  finished_sending_reqs : gset string;
  conns : gmap nat conn;
  log : list sender_event
}.

Definition set_heap h s := Sender h (reqs_need_send s) (finished_sending_reqs s) (conns s) (log s).
Definition set_table t s := Sender (heap s) t (finished_sending_reqs s) (conns s) (log s).
Definition set_finished f s := Sender (heap s) (reqs_need_send s) f (conns s) (log s).
Definition set_conn c x s := Sender (heap s) (reqs_need_send s) (finished_sending_reqs s) (<[c := x]> (conns s)) (log s).
Definition add_log e s := Sender (heap s) (reqs_need_send s) (finished_sending_reqs s) (conns s) (log s ++ [e]).

Definition with_phase (p : phase) (x : conn) : conn :=
  Conn (c_meta x) (c_local x) (c_remote x) (c_ranks x) (c_pending x) (c_waiting x) p.

(** ** Objects *)

Definition new_object (m : SendBlockMeta) : M sender nat := fun s =>
  let o := fresh (dom (heap s)) in (Ok o, set_heap (<[o := m]> (heap s)) s).

Definition object (o : nat) : M sender SendBlockMeta := fun s =>
  match heap s !! o with Some m => (Ok m, s) | None => (Err (Exn AttributeError ""), s) end.

Definition update (o : nat) (f : SendBlockMeta -> SendBlockMeta) : M sender unit :=
  modify (fun s => set_heap (alter f o (heap s)) s).

Definition empty_meta (req tid : string) : SendBlockMeta := SendMeta req tid [] false None 0 0 0.

Definition add_sending (n : Z) (m : SendBlockMeta) : SendBlockMeta :=
  SendMeta (p_req_id m) (transfer_id m) (local_block_ids m) (ready m) (expire_time m) (need_send m) (sent m)
    (sending m + n).
Definition add_sent (m : SendBlockMeta) : SendBlockMeta :=
  SendMeta (p_req_id m) (transfer_id m) (local_block_ids m) (ready m) (expire_time m) (need_send m) (sent m + 1)
    (sending m).
(** [resolve_need_send] *)
Definition resolve_need_send (remote_tp_ranks : list Z) (m : SendBlockMeta) : SendBlockMeta :=
  SendMeta (p_req_id m) (transfer_id m) (local_block_ids m) (ready m) (expire_time m) (zlen remote_tp_ranks) (sent m)
    (sending m).
(** The blocks are there: [ready.set()] *)
Definition make_ready (req : string) (blocks : list (list Z)) (expires : Z) (m : SendBlockMeta) : SendBlockMeta :=
  SendMeta req (transfer_id m) blocks true (Some expires) (need_send m) (sent m) (sending m).

(** ** The worker *)

Section worker.
(** The registered caches of the worker, and what MooncakeRegions.v takes as
    parameters *)
Context (own : MooncakeXferMetadata) (layer_group_indices : dict string Z) (topo : topology).
Context (mamba : list bool) (NULL_BLOCK_ID physical_blocks : Z) (map_to_kernel_blocks : list Z -> Z -> list Z).
Context (pcp_dummy_sender : bool) (ABORT_REQUEST_TIMEOUT : Z).

Definition get_transfer_regions (m : MooncakeXferMetadata) : result (list TransferRegion) :=
  let groups := match registered_group_indices m with
    | [] => map (fun name => default 0 (dget layer_group_indices name)) (registered_layer_names m)
    | l => l
    end in
  expand_transfer_regions (kv_caches_base_addr m) (block_lens m) (kv_block_lens m) (registered_layer_names m)
    (registered_layer_indices m) false (Some groups) None (Some (num_blocks_per_layer m)).

Definition respond (c : nat) (r : MooncakeXferResponse) : M sender unit := modify (add_log (Responded c r)).

(** [reject_metadata] *)
Definition reject_metadata (c : nat) (msg : string) : M sender unit := respond c (Response ERROR [] [] (Some msg)).

(** The entry of a transfer, created when the producer has none yet *)
Definition entry_for (tid : string) : M sender nat :=
  s ← get_state;
  match dget (reqs_need_send s) tid with
  | Some o => mret o
  | None =>
      o ← new_object (empty_meta "" tid);
      modify (fun s => set_table (dset (reqs_need_send s) tid o) s) ;;
      mret o
  end.

Fixpoint join_requests (reqs : list (string * (string * list (list Z)))) : M sender (dict string nat) :=
  match reqs with
  | [] => mret []
  | (req, (tid, _)) :: rest =>
      o ← entry_for tid;
      more ← join_requests rest;
      mret ((req, o) :: more)
  end.

(** [send_kv_to_decode] up to its loop *)
Definition send_kv_to_decode (c : nat) (meta : MooncakeXferMetadata) : M sender unit :=
  if (remote_tp_size meta <=? 0) || negb ((0 <=? remote_tp_rank meta) && (remote_tp_rank meta <? remote_tp_size meta))
  then reject_metadata c "remote TP size/rank is invalid"
  else
    let ranks := handshake_target_ranks topo (remote_tp_size meta) in
    if negb (bool_decide (remote_tp_rank meta ∈ ranks)) then reject_metadata c "is not paired"
    else
      let has_transfer_blocks := existsb (fun x => existsb (fun g => negb (is_empty g)) x.2.2) (req_blocks meta) in
      match (if has_transfer_blocks then
               validate_phase1_metadata (registered_layer_names own) (registered_layer_indices own)
                 (registered_group_indices own) (kv_caches_base_addr meta) (block_lens meta) (kv_block_lens meta)
                 (registered_layer_names meta) (registered_layer_indices meta) (registered_group_indices meta)
                 (Some (num_blocks_per_layer meta))
             else None) with
      | Some msg => reject_metadata c msg
      | None =>
          local_regions ← lift (get_transfer_regions own);
          remote_regions ← lift (get_transfer_regions meta);
          match align_transfer_regions local_regions remote_regions with
          | inr msg => reject_metadata c msg
          | inl (ls, rs) =>
              match validate_asymmetric_region_lengths ls rs topo (remote_tp_size meta)
                      (local_replicates_kv_cache topo) with
              | Some msg => reject_metadata c msg
              | None =>
                  pending ← join_requests (req_blocks meta);
                  modify (set_conn c (Conn meta ls rs ranks pending (dkeys pending)
                    (if is_empty pending then Closed else Waiting)))
              end
          end
      end.

(** The requests that woke up and are still kept; [batch] so far *)
Fixpoint take_ready (x : conn) (done : list string) : M sender (list (string * nat)) :=
  match done with
  | [] => mret []
  | req :: rest =>
      match dget (c_pending x) req with
      | None => raise KeyError req
      | Some o =>
          m ← object o;
          s ← get_state;
          if dmem (reqs_need_send s) (transfer_id m) then
            update o (add_sending 1) ;;
            (if need_send m =? 0 then update o (resolve_need_send (c_ranks x)) else mret tt) ;;
            more ← take_ready x rest;
            mret ((req, o) :: more)
          else take_ready x rest
      end
  end.

Fixpoint blocks_of (x : conn) (batch : list (string * nat))
    : M sender (list (string * (list (list Z) * list (list Z)))) :=
  match batch with
  | [] => mret []
  | (req, o) :: rest =>
      m ← object o;
      match dget (req_blocks (c_meta x)) req with
      | None => raise KeyError req
      | Some (_, remote) => more ← blocks_of x rest; mret ((req, (local_block_ids m, remote)) :: more)
      end
  end.

(** [self.reqs_need_send.pop(transfer_id, None)] and the release *)
Definition release (o : nat) (m : SendBlockMeta) : M sender unit :=
  s ← get_state;
  match dget (reqs_need_send s) (transfer_id m) with
  | None => mret tt
  | Some _ =>
      modify (fun s => set_table (ddel (reqs_need_send s) (transfer_id m)) s) ;;
      modify (fun s => set_finished (finished_sending_reqs s ∪ {[p_req_id m]}) s) ;;
      modify (add_log (Released o (p_req_id m)))
  end.

Fixpoint settle_batch (errs : list string) (batch : list (string * nat)) : M sender unit :=
  match batch with
  | [] => mret tt
  | (req, o) :: rest =>
      update o (add_sending (-1)) ;;
      (if bool_decide (req ∈ errs) then mret tt
       else
         update o add_sent ;;
         m ← object o;
         if sent m =? need_send m then release o m else mret tt) ;;
      settle_batch errs rest
  end.

(** The end of one round of the loop *)
Definition end_round (c : nat) (x : conn) (batch : list (string * nat)) (errs : list string) (msg : option string)
    : M sender unit :=
  settle_batch errs batch ;;
  let ok := filter (fun req => req ∉ errs) (map fst batch) in
  respond c (Response (if is_empty (c_waiting x) then FINISH else CONTINUE) ok errs msg) ;;
  modify (set_conn c (with_phase (if is_empty (c_waiting x) then Closed else Waiting) x)).

(** The rest of a round once requests are ready: [done] are those whose tasks
    have ended; the others are still waited for. *)
Definition wake_up (c : nat) (x : conn) (done : list string) : M sender unit :=
  batch ← take_ready x done;
  let x := Conn (c_meta x) (c_local x) (c_remote x) (c_ranks x)
    (foldl ddel (c_pending x) done) (filter (fun req => req ∉ done) (c_waiting x)) (c_phase x) in
  blocks ← blocks_of x batch;
  params ← lift (build_transfer_params mamba NULL_BLOCK_ID physical_blocks map_to_kernel_blocks topo
    (remote_tp_rank (c_meta x)) (remote_tp_size (c_meta x)) (c_local x) (c_remote x) blocks);
  let '(copies, errs, msg) := params in
  if is_empty copies then end_round c x batch errs msg
  else modify (set_conn c (with_phase (InFlight batch copies errs msg) x)).

(** The transfer engine returned [ret] *)
Definition transfer_done (c : nat) (x : conn) (batch : list (string * nat)) (copies : list descriptor)
    (errs : list string) (msg : option string) (ret : Z) : M sender unit :=
  if ret =? 0 then
    modify (add_log (Wrote c batch copies)) ;;
    end_round c x batch errs msg
  else
    let transfer_err_msg := "Mooncake transfer engine returned " +:+ pretty ret in
    let msg := match msg with None => transfer_err_msg | Some m => m +:+ "; " +:+ transfer_err_msg end in
    end_round c x batch (errs ++ filter (fun req => req ∉ errs) (map fst batch)) (Some msg).

(** No request became ready in time *)
Definition timeout (c : nat) (x : conn) : M sender unit :=
  respond c (Response FINISH [] (dkeys (c_pending x)) (Some "Timeout waiting for P side ready.")) ;;
  modify (set_conn c (with_phase Closed x)).

(** [_sender_worker] answers an exception of the coroutine. *)
Definition sender_worker (c : nat) (m : M sender unit) : M sender unit :=
  try_ m (fun e =>
    respond c (Response ERROR [] [] (Some (exn_msg e))) ;;
    modify (fun s => match conns s !! c with Some x => set_conn c (with_phase Closed x) s | None => s end)).

(** *** Requests of the scheduler *)

(** One entry of [reqs_to_send]: the blocks of a request that finished, or none
    for one that was only allocated *)
Definition record_send_req (now : Z) (entry : string * (string * list (list Z))) : M sender unit :=
  let '(req, (tid, block_ids)) := entry in
  if negb (is_empty block_ids) then
    if pcp_dummy_sender then
      modify (fun s => set_table (ddel (reqs_need_send s) tid) s) ;;
      modify (fun s => set_finished (finished_sending_reqs s ∪ {[req]}) s) ;;
      modify (add_log (Skipped req))
    else
      s ← get_state;
      match dget (reqs_need_send s) tid with
      | None => raise KeyError tid
      | Some o => update o (make_ready req block_ids (now + ABORT_REQUEST_TIMEOUT))
      end
  else
    s ← get_state;
    if dmem (reqs_need_send s) tid then mret tt
    else
      o ← new_object (empty_meta req tid);
      modify (fun s => set_table (dset (reqs_need_send s) tid o) s).

(** One entry of [reqs_not_processed] *)
Definition forget_req (tid : string) : M sender unit :=
  s ← get_state;
  match dget (reqs_need_send s) tid with
  | None => mret tt
  | Some o =>
      modify (fun s => set_table (ddel (reqs_need_send s) tid) s) ;;
      m ← object o;
      if ready m then raise AssertionError "" else mret tt
  end.

Definition record_send_reqs (now : Z) (reqs_to_send : list (string * (string * list (list Z))))
    (reqs_not_processed : list string) : M sender unit :=
  for_each reqs_to_send (record_send_req now) ;;
  for_each reqs_not_processed forget_req.

(** *** Finished requests *)

(** A request that was not sent in time and that no transfer reads *)
Definition expired (now : Z) (m : SendBlockMeta) : bool :=
  negb (bool_decide (p_req_id m = "")) && match expire_time m with Some t => t <? now | None => false end &&
  (sending m =? 0).

Definition expired_object (now : Z) (s : sender) (o : nat) : bool :=
  match heap s !! o with Some m => expired now m | None => false end.

Definition expired_entries (now : Z) (s : sender) : list (string * nat) :=
  filter (fun e => expired_object now s e.2 = true) (reqs_need_send s).

Definition expire_entry (e : string * nat) : M sender unit :=
  m ← object e.2;
  modify (fun s => set_table (ddel (reqs_need_send s) e.1) s) ;;
  modify (add_log (Released e.2 (p_req_id m))) ;;
  modify (fun s => set_finished (finished_sending_reqs s ∪ {[p_req_id m]}) s).

(** The requests that are finished, and those that expired *)
Definition fetch_finished_sending_reqs (now : Z) : M sender (gset string) :=
  s ← get_state;
  for_each (expired_entries now s) expire_entry ;;
  s ← get_state;
  modify (set_finished ∅) ;;
  mret (finished_sending_reqs s).

(** ** Steps

    What the event loop does next *)
Inductive action :=
  | Asked (c : nat) (meta : MooncakeXferMetadata)
  | Woke (c : nat) (done : list string)
  | TransferReturned (c : nat) (ret : Z)
  | TransferRaised (c : nat) (e : exn)
  | TimedOut (c : nat)
  | Recorded (now : Z) (reqs_to_send : list (string * (string * list (list Z)))) (reqs_not_processed : list string)
  | Fetched (now : Z).

(** The tasks that may have ended: of requests the coroutine waits for, with
    [ready] set *)
Definition may_wake (s : sender) (x : conn) (done : list string) : bool :=
  negb (is_empty done) && bool_decide (NoDup done) &&
  forallb (fun req => bool_decide (req ∈ c_waiting x) &&
    match dget (c_pending x) req ≫= fun o => heap s !! o with Some m => ready m | None => false end) done.

(** The code that runs for an action; [None] when the action is not possible *)
Definition handler (s : sender) (a : action) : option (M sender unit) :=
  match a with
  | Asked c meta =>
      match conns s !! c with None => Some (sender_worker c (send_kv_to_decode c meta)) | Some _ => None end
  | Woke c done =>
      x ← conns s !! c;
      match c_phase x with
      | Waiting => if may_wake s x done then Some (sender_worker c (wake_up c x done)) else None
      | _ => None
      end
  | TransferReturned c ret =>
      x ← conns s !! c;
      match c_phase x with
      | InFlight batch copies errs msg => Some (sender_worker c (transfer_done c x batch copies errs msg ret))
      | _ => None
      end
  | TransferRaised c e =>
      x ← conns s !! c;
      match c_phase x with InFlight _ _ _ _ => Some (sender_worker c (throw e)) | _ => None end
  | TimedOut c =>
      x ← conns s !! c;
      match c_phase x with Waiting => Some (sender_worker c (timeout c x)) | _ => None end
  | Recorded now send forget => Some (record_send_reqs now send forget)
  | Fetched now => Some (fetch_finished_sending_reqs now ;; mret tt)
  end.

(** The state after an action.  An exception of [record_send_reqs] stays in its
    future. *)
Definition step (s : sender) (a : action) : option sender := h ← handler s a; Some (h s).2.

Fixpoint run (s : sender) (actions : list action) : option sender :=
  match actions with
  | [] => Some s
  | a :: rest => s' ← step s a; run s' rest
  end.
End worker.

Definition new_sender : sender := Sender ∅ [] ∅ ∅ [].

(** What a consumer relies on: the responses to one of its queries acknowledge
    each request once. *)
Definition acked_once (responses : list MooncakeXferResponse) : Prop := NoDup (concat (map ok_reqs responses)).
End MooncakeSender.
