(* ===== verification/MooncakeSenderCorrect.v ===== *)
(** * The Mooncake sender keeps the blocks that a transfer reads

    About MooncakeSender.v.  A request is shared by the coroutines of several
    consumers.  The invariant is a predicate on the objects alone: how many
    coroutines still wait for an object ([pend]) or read its blocks
    ([flight]), with multiplicity, against its counters [sending], [sent] and
    [need_send], its entry in the table and the releases so far. *)

From stdpp Require Import pretty.
From S2P Require Import Prelude PyString Tensors Envs MooncakeRegions MooncakeSender.
Import Mooncake MooncakeSender.
Local Open Scope Z_scope.

(** ** Computations that establish a postcondition

    [ensures P m Q E]: from a state with [P], [m] ends normally with [Q] or
    raises in a state with [E]. *)
Section ensures.
Context {S : Type}.

Definition ensures {A} (P : S -> Prop) (m : M S A) (Q : A -> S -> Prop) (E : S -> Prop) : Prop :=
  forall s, P s -> match m s with (Ok a, s') => Q a s' | (Err _, s') => E s' end.

Lemma ensures_bind {A B} P (m : M S A) (k : A -> M S B) R Q E :
  ensures P m R E -> (forall a, ensures (R a) (k a) Q E) -> ensures P (m ≫= k) Q E.
Proof.
  intros Hm Hk s Hs. specialize (Hm s Hs). unfold mbind, M_bind.
  destruct (m s) as [[a|e] s']; [by apply Hk|done].
Qed.

Lemma ensures_ret {A} P (a : A) (Q : A -> S -> Prop) E : (forall s, P s -> Q a s) -> ensures P (mret a) Q E.
Proof. intros H s Hs. by apply H. Qed.

Lemma ensures_modify P f (Q : unit -> S -> Prop) E : (forall s, P s -> Q tt (f s)) -> ensures P (modify f) Q E.
Proof. intros H s Hs. by apply H. Qed.

Lemma ensures_get P (Q : S -> S -> Prop) E : (forall s, P s -> Q s s) -> ensures P get_state Q E.
Proof. intros H s Hs. by apply H. Qed.

Lemma ensures_raise {A} P c msg (Q : A -> S -> Prop) E : (forall s, P s -> E s) -> ensures P (raise c msg) Q E.
Proof. intros H s Hs. by apply H. Qed.

Lemma ensures_lift {A} P (r : result A) (Q : A -> S -> Prop) E :
  (forall s a, P s -> r = Ok a -> Q a s) -> (forall s, P s -> E s) -> ensures P (lift r) Q E.
Proof. intros HQ HE s Hs. unfold lift. destruct r; [by apply HQ|by apply HE]. Qed.

Lemma ensures_weaken {A} (P P' : S -> Prop) (m : M S A) (Q Q' : A -> S -> Prop) (E E' : S -> Prop) :
  ensures P m Q E -> (forall s, P' s -> P s) -> (forall a s, Q a s -> Q' a s) -> (forall s, E s -> E' s) ->
  ensures P' m Q' E'.
Proof.
  intros H HP HQ HE s Hs. specialize (H s (HP s Hs)).
  destruct (m s) as [[a|e] s']; [by apply HQ|by apply HE].
Qed.

(** The precondition is a fact about one state. *)
Lemma ensures_at {A} P (m : M S A) Q E : (forall s, P s -> ensures (eq s) m Q E) -> ensures P m Q E.
Proof. intros H s Hs. exact (H s Hs s eq_refl). Qed.

Lemma ensures_for_each {A} (P : S -> Prop) (xs : list A) (body : A -> M S unit) :
  (forall x, x ∈ xs -> ensures P (body x) (fun _ => P) P) -> ensures P (for_each xs body) (fun _ => P) P.
Proof.
  induction xs as [|x xs IH]; intros H; simpl.
  { apply ensures_ret. auto. }
  eapply ensures_bind; [apply H; by left|]. intros []. apply IH. intros y Hy. apply H. by right.
Qed.
End ensures.

(** A block of statements before the rest *)
Lemma M_bind_block {S A B C} (m : M S A) (f : A -> M S B) (g : B -> M S C) s b s' :
  (m ≫= f) s = (Ok b, s') -> (m ≫= fun a => f a ≫= g) s = g b s'.
Proof. unfold mbind, M_bind. destruct (m s) as [[a|e] s1]; [|done]. by intros ->. Qed.

(** ** Tables *)

Lemma elem_of_dset (d : dict string nat) k v e : e ∈ dset d k v -> e = (k, v) \/ e ∈ d.
Proof.
  induction d as [|[k' v'] d IH]; simpl; [set_solver|]. case_decide; [subst|]; set_solver.
Qed.

(** ** Counting *)

Definition occ (o : nat) (l : list nat) : Z := zlen (filter (eq o) l).

Lemma occ_app o l l' : occ o (l ++ l') = occ o l + occ o l'.
Proof. unfold occ, zlen. rewrite filter_app, length_app. lia. Qed.

Lemma occ_cons o o' l : occ o (o' :: l) = (if decide (o = o') then 1 else 0) + occ o l.
Proof. unfold occ, zlen. rewrite filter_cons. case_decide; simpl; lia. Qed.

Lemma occ_nonneg o l : 0 <= occ o l.
Proof. unfold occ, zlen. lia. Qed.

Lemma occ_pos o l : o ∈ l <-> 0 < occ o l.
Proof.
  induction l as [|o' l IH]; [split; [by intros ?%not_elem_of_nil|done]|].
  rewrite elem_of_cons, occ_cons, IH. pose proof (occ_nonneg o l). case_decide; subst; intuition lia.
Qed.

#[global] Instance occ_perm o : Proper ((≡ₚ) ==> eq) (occ o).
Proof. intros l l' H. unfold occ, zlen. by rewrite H. Qed.

(** The requests that were released, in order *)
Definition released (l : list sender_event) : list nat :=
  omap (fun e => match e with Released o _ => Some o | _ => None end) l.

Lemma released_app l l' : released (l ++ l') = released l ++ released l'.
Proof. apply omap_app. Qed.

(** The consumers that asked for a transfer *)
Definition askers (t : string) (asked : list (string * Z)) : Z := zlen (filter (fun p => p.1 = t) asked).

Lemma askers_cons t t' r asked : askers t ((t', r) :: asked) = (if decide (t' = t) then 1 else 0) + askers t asked.
Proof. unfold askers, zlen. rewrite filter_cons. simpl. case_decide; simpl; lia. Qed.

(** ** The invariant of the objects *)

Section sender.
Context (own : MooncakeXferMetadata) (layer_group_indices : dict string Z) (topo : topology).
Context (mamba : list bool) (NULL_BLOCK_ID physical_blocks : Z) (map_to_kernel_blocks : list Z -> Z -> list Z).
Context (pcp_dummy_sender : bool) (ABORT_REQUEST_TIMEOUT : Z).
(** The size of the engine that consumes a transfer *)
Context (size_of : string -> Z).

Definition consumers (t : string) : list Z := handshake_target_ranks topo (size_of t).

(** [n] consumers asked for the transfer, [p] coroutines wait for the object
    and [f] read its blocks; [entry] is what the table has for the transfer. *)
Record object_ok (n p f : Z) (entry : option nat) (rel : Prop) (o : nat) (m : SendBlockMeta) : Prop := {
  ok_entry : ready m = true -> entry = Some o \/ entry = None;
  ok_kept : entry = Some o -> ~ rel;
  ok_rel : rel -> ready m = true;
  ok_expire : is_Some (expire_time m) -> ready m = true;
  ok_need : need_send m = 0 \/ need_send m = zlen (consumers (transfer_id m));
  ok_sending : f <= sending m;
  ok_sent : 0 <= sent m /\ sent m + p + f <= n;
  ok_flight : 0 < f -> ready m = true /\ need_send m = zlen (consumers (transfer_id m)) /\ ~ rel;
  ok_owes : entry = Some o -> need_send m = 0 /\ sent m = 0 \/ sent m < need_send m;
  ok_dummy : pcp_dummy_sender = true -> ready m = false
}.

Record core (asked : list (string * Z)) (pend flight : list nat) (s : sender) : Prop := {
  core_object : forall o m, heap s !! o = Some m ->
    object_ok (askers (transfer_id m) asked) (occ o pend) (occ o flight) (dget (reqs_need_send s) (transfer_id m))
      (o ∈ released (log s)) o m;
  core_heap : forall o, o ∈ pend \/ o ∈ flight \/ o ∈ released (log s) -> is_Some (heap s !! o);
  core_table : forall t o, dget (reqs_need_send s) t = Some o -> exists m, heap s !! o = Some m /\ transfer_id m = t;
  core_keys : NoDup (dkeys (reqs_need_send s));
  core_asked : NoDup asked;
  core_ranks : forall t r, (t, r) ∈ asked -> r ∈ consumers t;
  core_once : NoDup (released (log s))
}.

Lemma object_ok_mono n n' p p' f f' entry rel o m :
  object_ok n p f entry rel o m -> n <= n' -> p' <= p -> f' <= f -> object_ok n' p' f' entry rel o m.
Proof.
  intros [] ???. constructor; try done; try lia. intros ?. apply ok_flight0. lia.
Qed.

(** The entry of the transfer may go. *)
Lemma object_ok_unlisted n p f entry rel o m : object_ok n p f entry rel o m -> object_ok n p f None rel o m.
Proof. intros []. by constructor; auto. Qed.

Lemma object_ok_iff n p f entry rel rel' o m :
  object_ok n p f entry rel o m -> (rel <-> rel') -> object_ok n p f entry rel' o m.
Proof. intros [] H. by constructor; rewrite <- ?H; auto. Qed.

(** No transfer is asked for more often than it has consumers. *)
Lemma askers_bound asked pend flight s t : core asked pend flight s -> askers t asked <= zlen (consumers t).
Proof.
  intros C. unfold askers, zlen.
  assert (length (filter (fun p : string * Z => p.1 = t) asked) <= length (map (pair t) (consumers t)))%nat as H.
  { apply submseteq_length, NoDup_submseteq; [apply NoDup_filter, (core_asked _ _ _ _ C)|].
    intros [t' r] [Ht Hr]%list_elem_of_filter. simpl in Ht. subst t'.
    apply list_elem_of_In, in_map, list_elem_of_In. by apply (core_ranks _ _ _ _ C). }
  rewrite length_map in H. lia.
Qed.

(** The multiplicities of the holders are all that matters, and a holder may
    go. *)
Lemma core_fewer asked pend flight pend' flight' s :
  core asked pend flight s -> (forall o, occ o pend' <= occ o pend /\ occ o flight' <= occ o flight) ->
  core asked pend' flight' s.
Proof.
  intros C H. constructor; try apply C.
  - intros o m Ho. destruct (H o). eapply object_ok_mono; [by apply C|lia..].
  - intros o Ho. apply (core_heap _ _ _ _ C). destruct (H o). rewrite !occ_pos in *. intuition lia.
Qed.

(** An object changes, and who holds it. *)
Lemma core_change asked pend flight pend' flight' s s' o m m' :
  core asked pend flight s -> heap s !! o = Some m -> transfer_id m' = transfer_id m ->
  heap s' = <[o := m']> (heap s) -> reqs_need_send s' = reqs_need_send s -> released (log s') = released (log s) ->
  (forall o', o' <> o -> occ o' pend' <= occ o' pend /\ occ o' flight' <= occ o' flight) ->
  object_ok (askers (transfer_id m) asked) (occ o pend') (occ o flight') (dget (reqs_need_send s) (transfer_id m))
    (o ∈ released (log s)) o m' ->
  core asked pend' flight' s'.
Proof.
  intros C Hm Ht Hheap Htab Hrel Hocc Hok. constructor; rewrite ?Htab, ?Hrel, ?Hheap; try apply C.
  - intros o' m0. destruct (decide (o' = o)) as [->|Hne].
    + rewrite lookup_insert_eq. intros [= <-]. by rewrite Ht.
    + rewrite lookup_insert_ne by done. intros Ho. destruct (Hocc o' Hne).
      eapply object_ok_mono; [by apply C|lia..].
  - intros o' Ho'. destruct (decide (o' = o)) as [->|Hne]; [by rewrite lookup_insert_eq|].
    rewrite lookup_insert_ne by done. apply (core_heap _ _ _ _ C).
    destruct (Hocc o' Hne). rewrite !occ_pos in *. intuition lia.
  - intros t o' Ho'. destruct (core_table _ _ _ _ C t o' Ho') as (m0 & Hm0 & <-).
    destruct (decide (o' = o)) as [->|Hne].
    + exists m'. rewrite lookup_insert_eq. by simplify_eq.
    + exists m0. by rewrite lookup_insert_ne.
Qed.

(** An entry goes. *)
Lemma core_unlist asked pend flight s s' t :
  core asked pend flight s -> heap s' = heap s -> reqs_need_send s' = ddel (reqs_need_send s) t ->
  released (log s') = released (log s) -> core asked pend flight s'.
Proof.
  intros C Hheap Htab Hrel. pose proof (core_keys _ _ _ _ C) as Hnd.
  constructor; rewrite ?Htab, ?Hrel, ?Hheap; try apply C.
  - intros o m Ho. pose proof (core_object _ _ _ _ C o m Ho) as Hok. destruct (decide (t = transfer_id m)) as [->|Hne].
    + rewrite dget_ddel_eq by done. by eapply object_ok_unlisted.
    + by rewrite dget_ddel_ne.
  - intros t' o Ho. apply (core_table _ _ _ _ C). destruct (decide (t = t')) as [->|Hne].
    + by rewrite dget_ddel_eq in Ho.
    + by rewrite dget_ddel_ne in Ho.
  - by apply NoDup_ddel.
Qed.

(** The entry of a transfer goes and its blocks are released: no transfer reads
    them. *)
Lemma core_release asked pend flight s s' o m :
  core asked pend flight s -> heap s !! o = Some m -> ready m = true -> occ o flight = 0 ->
  dget (reqs_need_send s) (transfer_id m) = Some o ->
  heap s' = heap s -> reqs_need_send s' = ddel (reqs_need_send s) (transfer_id m) ->
  released (log s') = released (log s) ++ [o] -> core asked pend flight s'.
Proof.
  intros C Hm Hready Hocc Hentry Hheap Htab Hrel. pose proof (core_keys _ _ _ _ C) as Hnd.
  pose proof (core_object _ _ _ _ C o m Hm) as Hok.
  constructor; rewrite ?Htab, ?Hrel, ?Hheap; try apply C.
  - intros o' m' Hm'. pose proof (core_object _ _ _ _ C o' m' Hm') as Hok'.
    assert (object_ok (askers (transfer_id m') asked) (occ o' pend) (occ o' flight)
      (dget (ddel (reqs_need_send s) (transfer_id m)) (transfer_id m')) (o' ∈ released (log s)) o' m') as H'.
    { destruct (decide (transfer_id m = transfer_id m')) as [Heq|Hne].
      - rewrite Heq, dget_ddel_eq by done. by eapply object_ok_unlisted.
      - by rewrite dget_ddel_ne. }
    destruct (decide (o' = o)) as [->|Hne].
    + simplify_eq. rewrite dget_ddel_eq in * by done. destruct H'. constructor; try done. lia.
    + eapply object_ok_iff; [exact H'|]. rewrite elem_of_app, list_elem_of_singleton. naive_solver.
  - intros o' Ho'. destruct (decide (o' = o)) as [->|Hne]; [by eexists|]. apply (core_heap _ _ _ _ C).
    rewrite elem_of_app, list_elem_of_singleton in Ho'. naive_solver.
  - intros t' o' Ho'. apply (core_table _ _ _ _ C). destruct (decide (transfer_id m = t')) as [<-|Hne].
    + by rewrite dget_ddel_eq in Ho'.
    + by rewrite dget_ddel_ne in Ho'.
  - by apply NoDup_ddel.
  - apply NoDup_app. split_and!; [apply C| |apply NoDup_singleton].
    intros o' Ho' ->%list_elem_of_singleton. by eapply ok_kept.
Qed.

(** No object of the transfer is ready but outside the table: the transfer was
    not released before. *)
Definition unused (s : sender) (t : string) : Prop :=
  map_Forall (fun o m => transfer_id m = t -> ready m = true -> dget (reqs_need_send s) t = Some o) (heap s).

(** A transfer gets its entry. *)
Lemma core_new asked pend flight s s' req t o :
  core asked pend flight s -> unused s t -> dget (reqs_need_send s) t = None -> heap s !! o = None ->
  heap s' = <[o := empty_meta req t]> (heap s) -> reqs_need_send s' = dset (reqs_need_send s) t o ->
  released (log s') = released (log s) -> core asked pend flight s'.
Proof.
  intros C Hun Hnone Ho Hheap Htab Hrel.
  assert ((o ∉ pend) /\ (o ∉ flight) /\ (o ∉ released (log s))) as (Hp & Hf & Hr).
  { split_and!; intros Hin; destruct (core_heap _ _ _ _ C o) as [m Hm]; auto; congruence. }
  assert (forall l, o ∉ l -> occ o l = 0) as Hocc.
  { intros l Hl. pose proof (occ_nonneg o l). rewrite occ_pos in Hl. lia. }
  constructor; rewrite ?Htab, ?Hrel, ?Hheap; try apply C.
  - intros o' m'. destruct (decide (o' = o)) as [->|Hne].
    + rewrite lookup_insert_eq. intros [= <-]. simpl. rewrite dget_dset_eq, !Hocc by done.
      constructor; simpl; auto; try lia; try done; unfold askers, zlen; lia.
    + rewrite lookup_insert_ne by done. intros Hm'. pose proof (core_object _ _ _ _ C o' m' Hm') as Hok.
      rewrite dget_dset. case_decide as Ht; [|done].
      assert (ready m' = false) as Hnr.
      { destruct (ready m') eqn:E; [|done]. rewrite (Hun o' m') in Hnone by done. done. }
      destruct Hok. constructor; try done; [congruence|by intros [=]|by intros [=]].
  - intros o' Ho'. destruct (decide (o' = o)) as [->|Hne]; [by rewrite lookup_insert_eq|].
    rewrite lookup_insert_ne by done. by apply (core_heap _ _ _ _ C).
  - intros t' o'. rewrite dget_dset. case_decide; subst.
    + intros [= <-]. eexists. by rewrite lookup_insert_eq.
    + intros Ho'. destruct (core_table _ _ _ _ C t' o' Ho') as (m & Hm & <-). exists m.
      rewrite lookup_insert_ne; [done|]. congruence.
  - apply NoDup_dset, C.
Qed.

(** A consumer asks for a transfer and waits for its object. *)
Lemma core_ask asked pend flight s t r o m :
  core asked pend flight s -> heap s !! o = Some m -> transfer_id m = t -> (t, r) ∉ asked -> r ∈ consumers t ->
  core ((t, r) :: asked) (o :: pend) flight s.
Proof.
  intros C Hm Ht Hr Hc. constructor; try apply C.
  - intros o' m' Hm'. pose proof (core_object _ _ _ _ C o' m' Hm') as Hok. rewrite occ_cons, askers_cons.
    destruct (decide (o' = o)) as [->|Hne].
    + simplify_eq. rewrite decide_True by done. destruct Hok. constructor; try done; lia.
    + eapply object_ok_mono; [done|case_decide; lia|lia..].
  - intros o' Ho'. destruct (decide (o' = o)) as [->|Hne]; [by eexists|].
    apply (core_heap _ _ _ _ C). set_solver.
  - apply NoDup_cons. split; [done|apply C].
  - intros t' r' [[= -> ->]|H]%elem_of_cons; [done|by apply (core_ranks _ _ _ _ C)].
Qed.

(** ** Operations on the objects *)

(** The invariant of the objects, the transfers of known objects, and the
    coroutines, which the operations leave alone *)
Definition known (I : nat -> option string) (s : sender) : Prop :=
  forall o t, I o = Some t -> exists m, heap s !! o = Some m /\ transfer_id m = t.

Definition holds asked pend flight (I : nat -> option string) (cs : gmap nat conn) (s : sender) : Prop :=
  core asked pend flight s /\ known I s /\ conns s = cs.

Lemma holds_fewer asked pend flight pend' flight' I cs s :
  holds asked pend flight I cs s -> (forall o, occ o pend' <= occ o pend /\ occ o flight' <= occ o flight) ->
  holds asked pend' flight' I cs s.
Proof. intros (C & K & E) H. split; [by eapply core_fewer|done]. Qed.

Lemma known_insert I s s' o m m' :
  known I s -> heap s !! o = Some m -> transfer_id m' = transfer_id m -> heap s' = <[o := m']> (heap s) -> known I s'.
Proof.
  intros K Hm Ht Hheap o' t Ho'. rewrite Hheap. destruct (K o' t Ho') as (m0 & Hm0 & <-).
  destruct (decide (o' = o)) as [->|Hne].
  - exists m'. rewrite lookup_insert_eq. by simplify_eq.
  - exists m0. by rewrite lookup_insert_ne.
Qed.

Lemma holds_change asked pend flight pend' flight' I cs s o m f :
  holds asked pend flight I cs s -> heap s !! o = Some m -> transfer_id (f m) = transfer_id m ->
  (forall o', o' <> o -> occ o' pend' <= occ o' pend /\ occ o' flight' <= occ o' flight) ->
  object_ok (askers (transfer_id m) asked) (occ o pend') (occ o flight') (dget (reqs_need_send s) (transfer_id m))
    (o ∈ released (log s)) o (f m) ->
  holds asked pend' flight' I cs (set_heap (alter f o (heap s)) s).
Proof.
  intros (C & K & E) Hm Ht Hocc Hok.
  assert (heap (set_heap (alter f o (heap s)) s) = <[o := f m]> (heap s)) as Hheap.
  { simpl. apply map_eq. intros o'. destruct (decide (o' = o)) as [->|Hne].
    - by rewrite lookup_alter_eq, lookup_insert_eq, Hm.
    - by rewrite lookup_alter_ne, lookup_insert_ne by done. }
  split_and!; [by eapply core_change|by eapply known_insert|done].
Qed.

Lemma update_twice o f g (h : gmap nat SendBlockMeta) : alter g o (alter f o h) = alter (fun m => g (f m)) o h.
Proof.
  apply map_eq. intros o'. destruct (decide (o' = o)) as [->|Hne].
  - rewrite !lookup_alter_eq. by destruct (h !! o).
  - by rewrite !lookup_alter_ne.
Qed.

(** A coroutine takes a ready request whose transfer has an entry. *)
Lemma holds_take asked pend flight I cs s o m :
  holds asked (o :: pend) flight I cs s -> heap s !! o = Some m -> ready m = true ->
  dmem (reqs_need_send s) (transfer_id m) = true ->
  holds asked pend (o :: flight) I cs (set_heap (alter (fun m0 =>
    if need_send m =? 0 then resolve_need_send (consumers (transfer_id m)) (add_sending 1 m0) else add_sending 1 m0)
    o (heap s)) s).
Proof.
  intros H Hm Hready Hmem. eapply holds_change; [exact H|exact Hm|by case_if|..].
  - intros o' Hne. rewrite !occ_cons, decide_False by done. lia.
  - destruct H as (C & _). pose proof (core_object _ _ _ _ C o m Hm) as Hok.
    pose proof (askers_bound _ _ _ _ (transfer_id m) C) as Hb.
    rewrite occ_cons, decide_True in * by done. pose proof (occ_nonneg o pend). pose proof (occ_nonneg o flight).
    unfold dmem in Hmem. destruct (dget _ _) as [o'|] eqn:Hentry; [|done].
    destruct Hok. destruct (ok_entry0 Hready) as [[= ->]|]; [|done].
    case_if; constructor; simpl; try done; try lia; auto.
    intros _. destruct ok_need0 as [|Hn]; [done|]. auto.
Qed.

(** A request is sent to one more consumer, but not to all. *)
Lemma holds_settle asked pend flight I cs s o m (ok : bool) :
  holds asked pend (o :: flight) I cs s -> heap s !! o = Some m ->
  (ok = true -> sent m + 1 <> need_send m \/ dget (reqs_need_send s) (transfer_id m) = None) ->
  holds asked pend flight I cs (set_heap (alter (fun m => if ok then add_sent (add_sending (-1) m) else add_sending (-1) m)
    o (heap s)) s).
Proof.
  intros H Hm Hsent. eapply holds_change; [exact H|exact Hm|by destruct ok|..].
  - intros o' Hne. rewrite !occ_cons, decide_False by done. lia.
  - destruct H as (C & _). pose proof (core_object _ _ _ _ C o m Hm) as Hok.
    pose proof (askers_bound _ _ _ _ (transfer_id m) C) as Hb. pose proof (occ_nonneg o pend).
    pose proof (occ_nonneg o flight). rewrite occ_cons, decide_True in Hok by done.
    destruct Hok. destruct ok_flight0 as (? & Hn & ?); [lia|].
    destruct ok; constructor; simpl; try done; try lia; auto.
    intros Hentry. destruct (Hsent eq_refl); [|congruence]. destruct (ok_owes0 Hentry); lia.
Qed.

Lemma holds_sent asked pend flight I cs s o m :
  holds asked pend (o :: flight) I cs s -> heap s !! o = Some m ->
  sent m + 1 <> need_send m \/ dget (reqs_need_send s) (transfer_id m) = None ->
  holds asked pend flight I cs (set_heap (alter add_sent o (alter (add_sending (-1)) o (heap s))) s).
Proof. intros H Hm Hs. rewrite update_twice. by apply (holds_settle _ _ _ _ _ _ o m true). Qed.

(** The state after the release of a request *)
Definition release_state (o : nat) (t req : string) (s : sender) : sender :=
  add_log (Released o req) (set_finished (finished_sending_reqs s ∪ {[req]}) (set_table (ddel (reqs_need_send s) t) s)).

Lemma holds_release asked pend flight I cs s o m :
  holds asked pend flight I cs s -> heap s !! o = Some m -> ready m = true -> occ o flight = 0 ->
  dget (reqs_need_send s) (transfer_id m) = Some o ->
  holds asked pend flight I cs (release_state o (transfer_id m) (p_req_id m) s).
Proof.
  intros (C & K & E) Hm Hready Hocc Hentry. split_and!; [|exact K|exact E].
  eapply (core_release _ _ _ s); try done. unfold release_state. simpl. by rewrite released_app.
Qed.

(** A request is sent to its last consumer. *)
Lemma holds_last asked pend flight I cs s o m :
  holds asked pend (o :: flight) I cs s -> heap s !! o = Some m -> sent m + 1 = need_send m ->
  dget (reqs_need_send s) (transfer_id m) = Some o ->
  holds asked pend flight I cs
    (set_heap (alter add_sent o (alter (add_sending (-1)) o (heap s))) (release_state o (transfer_id m) (p_req_id m) s)).
Proof.
  intros H Hm Hlast Hentry.
  pose proof (holds_settle _ _ _ _ _ _ o m false H Hm ltac:(done)) as H1.
  destruct H as (C & K & E). pose proof (core_object _ _ _ _ C o m Hm) as Hok.
  pose proof (askers_bound _ _ _ _ (transfer_id m) C) as Hb. pose proof (core_keys _ _ _ _ C) as Hnd.
  pose proof (occ_nonneg o pend). pose proof (occ_nonneg o flight).
  rewrite occ_cons, decide_True in Hok by done. destruct Hok.
  destruct ok_flight0 as (Hready & Hneed & Hrel); [lia|].
  set (s1 := set_heap (alter (add_sending (-1)) o (heap s)) s) in *.
  assert (heap s1 !! o = Some (add_sending (-1) m)) as Hm1 by (simpl; by rewrite lookup_alter_eq, Hm).
  assert (occ o flight = 0) as Hf by lia.
  pose proof (holds_release _ _ _ _ _ s1 o _ H1 Hm1 Hready Hf Hentry) as H2. simpl in H2.
  eapply (holds_change _ _ _ pend flight _ _ _ o _ add_sent H2); [exact Hm1|done|lia|].
  simpl. rewrite dget_ddel_eq, released_app by done.
  constructor; simpl; try done; auto; lia.
Qed.

Lemma update_at o f s : update o f s = (Ok tt, set_heap (alter f o (heap s)) s).
Proof. done. Qed.

Lemma object_at o m s : heap s !! o = Some m -> object o s = (Ok m, s).
Proof. intros H. unfold object. by rewrite H. Qed.

Lemma settle_one asked pend flight I cs (errs : list string) req o s :
  holds asked pend (o :: flight) I cs s ->
  exists s', holds asked pend flight I cs s' /\
    (update o (add_sending (-1)) ;;
     (if bool_decide (req ∈ errs) then mret tt
      else update o add_sent ;; m ← object o; if sent m =? need_send m then release o m else mret tt)) s = (Ok tt, s').
Proof.
  intros H. destruct H as (C & K & E) eqn:EH.
  destruct (core_heap _ _ _ _ C o) as [m Hm]; [right; left; by left|]. clear EH.
  rewrite (M_bind_ok _ _ _ _ _ (update_at o _ s)). case_bool_decide.
  { eexists. split; [|reflexivity]. by apply (holds_settle _ _ _ _ _ _ o m false). }
  rewrite (M_bind_ok _ _ _ _ _ (update_at o _ _)).
  erewrite M_bind_ok; [|apply object_at; simpl; by rewrite !lookup_alter_eq, Hm].
  destruct (Z.eqb_spec (sent (add_sent (add_sending (-1) m))) (need_send (add_sent (add_sending (-1) m))))
    as [Heq|Hne]; simpl in *.
  - unfold release. erewrite M_bind_ok by reflexivity. simpl.
    destruct (dget (reqs_need_send s) (transfer_id m)) as [o'|] eqn:Hentry.
    + assert (o' = o) as ->.
      { pose proof (core_object _ _ _ _ C o m Hm) as []. pose proof (occ_nonneg o flight).
        rewrite occ_cons, decide_True in ok_flight0 by done.
        destruct ok_flight0 as (Hr & _); [lia|]. destruct (ok_entry0 Hr); congruence. }
      eexists. split; [|reflexivity]. by apply (holds_last asked pend flight I cs s o m).
    + eexists. split; [|reflexivity]. exact (holds_sent _ _ _ _ _ _ _ _ H Hm (or_intror Hentry)).
  - eexists. split; [|reflexivity]. exact (holds_sent _ _ _ _ _ _ _ _ H Hm (or_introl Hne)).
Qed.

Lemma settle_batch_holds asked pend flight I cs errs batch s :
  holds asked pend (map snd batch ++ flight) I cs s ->
  exists s', holds asked pend flight I cs s' /\ settle_batch errs batch s = (Ok tt, s').
Proof.
  revert s. induction batch as [|[req o] batch IH]; intros s H; simpl in *; [by exists s|].
  destruct (settle_one _ _ _ _ _ errs req _ _ H) as (s1 & H1 & E1).
  destruct (IH s1 H1) as (s2 & H2 & E2). exists s2. split; [done|]. by rewrite (M_bind_block _ _ _ _ _ _ E1).
Qed.

(** ** The objects of the coroutines *)

Definition pend_of (x : conn) : list nat := match c_phase x with Closed => [] | _ => map snd (c_pending x) end.
Definition flight_of (x : conn) : list nat :=
  match c_phase x with InFlight batch _ _ _ => map snd batch | _ => [] end.
Definition all (f : conn -> list nat) (cs : gmap nat conn) : list nat := flat_map (fun p => f p.2) (map_to_list cs).

Lemma all_insert f cs c x : all f (<[c := x]> cs) ≡ₚ f x ++ all f (delete c cs).
Proof.
  unfold all. rewrite <- insert_delete_eq.
  etrans; [apply Permutation_flat_map, map_to_list_insert; by rewrite lookup_delete_eq|]. done.
Qed.

Lemma all_lookup f cs c x : cs !! c = Some x -> all f cs ≡ₚ f x ++ all f (delete c cs).
Proof. intros H. rewrite <- all_insert. by rewrite insert_id. Qed.

(** What a coroutine knows of the objects it waits for *)
Definition conn_ok (s : sender) (x : conn) : Prop :=
  NoDup (dkeys (c_pending x)) /\
  forall req o, (req, o) ∈ c_pending x -> exists m, heap s !! o = Some m /\ c_ranks x = consumers (transfer_id m).

Definition inv (asked : list (string * Z)) (s : sender) : Prop :=
  core asked (all pend_of (conns s)) (all flight_of (conns s)) s /\
  forall c x, conns s !! c = Some x -> conn_ok s x.

Definition tid_of (s : sender) (o : nat) : option string := transfer_id <$> heap s !! o.

Lemma core_same asked pend flight pend' flight' s s' :
  core asked pend flight s -> pend ≡ₚ pend' -> flight ≡ₚ flight' -> heap s' = heap s ->
  reqs_need_send s' = reqs_need_send s -> released (log s') = released (log s) -> core asked pend' flight' s'.
Proof.
  intros C Hp Hf Hheap Htab Hrel.
  assert (core asked pend' flight' s) as C'.
  { eapply core_fewer; [exact C|]. intros o. by rewrite Hp, Hf. }
  constructor; rewrite ?Htab, ?Hrel, ?Hheap; apply C'.
Qed.

Lemma conn_ok_known s s' x : conn_ok s x -> known (tid_of s) s' -> conn_ok s' x.
Proof.
  intros [Hnd H] K. split; [done|]. intros req o Ho. destruct (H req o Ho) as (m & Hm & ->).
  destruct (K o (transfer_id m)) as (m' & Hm' & <-); [unfold tid_of; by rewrite Hm|eauto].
Qed.

Lemma known_self s : known (tid_of s) s.
Proof. intros o t H. unfold tid_of in H. apply fmap_Some in H as (m & Hm & ->). eauto. Qed.

(** Apart from a coroutine [c], which holds [p] and [f] *)
Definition apart (asked : list (string * Z)) (c : nat) (s0 : sender) (p f : list nat) : sender -> Prop :=
  holds asked (p ++ all pend_of (delete c (conns s0))) (f ++ all flight_of (delete c (conns s0))) (tid_of s0) (conns s0).

Lemma apart_open asked c s x : inv asked s -> conns s !! c = Some x -> apart asked c s (pend_of x) (flight_of x) s.
Proof.
  intros [C _] Hx. split_and!; [|apply known_self|done].
  by eapply core_same; [exact C|by apply all_lookup..| | |].
Qed.

Lemma apart_new asked c s : inv asked s -> conns s !! c = None -> apart asked c s [] [] s.
Proof.
  intros [C _] Hx. split_and!; [|apply known_self|done].
  by eapply core_same; [exact C| | | | |]; simpl; rewrite ?delete_id.
Qed.

(** The coroutine goes on as [x]. *)
Lemma apart_close asked asked0 c s0 s x :
  inv asked0 s0 -> apart asked c s0 (pend_of x) (flight_of x) s -> conn_ok s x -> inv asked (set_conn c x s).
Proof.
  intros [_ Hc] (C & K & E) Hx. split.
  - by eapply core_same; [exact C|simpl; rewrite E; by rewrite all_insert..| | |].
  - intros c' x'. simpl. rewrite E. destruct (decide (c' = c)) as [->|Hne].
    + rewrite lookup_insert_eq. by intros [= <-].
    + rewrite lookup_insert_ne by done. intros Hx'.
      eapply conn_ok_known in K; [|by eapply Hc]. destruct K as [? K]. by split.
Qed.

Lemma apart_fewer asked c s0 p f p' f' s :
  apart asked c s0 p f s -> (forall o, occ o p' <= occ o p /\ occ o f' <= occ o f) -> apart asked c s0 p' f' s.
Proof. intros H Hle. eapply holds_fewer; [exact H|]. intros o. rewrite !occ_app. destruct (Hle o). lia. Qed.

Lemma apart_drop asked c s0 p f s : apart asked c s0 p f s -> apart asked c s0 [] [] s.
Proof. intros H. eapply apart_fewer; [exact H|]. intros o. split; apply occ_nonneg. Qed.

Lemma apart_log asked c s0 p f s e :
  apart asked c s0 p f s -> released [e] = [] -> apart asked c s0 p f (add_log e s).
Proof.
  intros (C & K & E) He. split_and!; [|exact K|exact E].
  eapply core_same; [exact C|done..|]. simpl. by rewrite released_app, He, app_nil_r.
Qed.

(** ** The rounds of a coroutine *)

(** The requests of [done] are ready. *)
Definition all_ready (x : conn) (done : list string) (s : sender) : Prop :=
  forall req, req ∈ done -> exists o m, dget (c_pending x) req = Some o /\ heap s !! o = Some m /\ ready m = true /\
    c_ranks x = consumers (transfer_id m).

Lemma all_ready_alter x done s o f :
  all_ready x done s -> (forall m, ready (f m) = ready m /\ transfer_id (f m) = transfer_id m) ->
  all_ready x done (set_heap (alter f o (heap s)) s).
Proof.
  intros H Hf req Hreq. destruct (H req Hreq) as (o' & m & Hp & Hm & Hr & Hc). exists o'. simpl.
  destruct (decide (o' = o)) as [->|Hne].
  - exists (f m). destruct (Hf m) as [-> ->]. by rewrite lookup_alter_eq, Hm.
  - exists m. by rewrite lookup_alter_ne.
Qed.

Lemma take_one asked c s0 x p f s o m :
  apart asked c s0 (o :: p) f s -> heap s !! o = Some m -> ready m = true -> c_ranks x = consumers (transfer_id m) ->
  dmem (reqs_need_send s) (transfer_id m) = true ->
  exists h, (update o (add_sending 1) ;; (if need_send m =? 0 then update o (resolve_need_send (c_ranks x)) else mret tt)) s
      = (Ok tt, set_heap (alter h o (heap s)) s) /\
    apart asked c s0 p (o :: f) (set_heap (alter h o (heap s)) s) /\
    (forall m, ready (h m) = ready m /\ transfer_id (h m) = transfer_id m).
Proof.
  intros H Hm Hr -> Hmem. eexists. split_and!; [|exact (holds_take _ _ _ _ _ _ _ _ H Hm Hr Hmem)|by case_if].
  rewrite (M_bind_ok _ _ _ _ _ (update_at o _ s)). case_if; [|done].
  rewrite update_at. simpl. by rewrite update_twice.
Qed.

Lemma take_ready_apart asked c s0 x done p f s :
  apart asked c s0 (omap (dget (c_pending x)) done ++ p) f s -> all_ready x done s ->
  exists batch s', take_ready x done s = (Ok batch, s') /\ apart asked c s0 p (map snd batch ++ f) s' /\
    log s' = log s.
Proof.
  revert f s. induction done as [|req done IH]; intros f s H Hr; simpl in *; [by exists [], s|].
  destruct (Hr req) as (o & m & Hp & Hm & Hready & Hc); [by left|]. rewrite Hp in *.
  change (apart asked c s0 (o :: omap (dget (c_pending x)) done ++ p) f s) in H.
  assert (all_ready x done s) as Hr' by (intros r Hin; apply Hr; by right).
  rewrite (M_bind_ok _ _ _ _ _ (object_at o m s Hm)). erewrite M_bind_ok by reflexivity.
  destruct (dmem (reqs_need_send s) (transfer_id m)) eqn:Hmem.
  - destruct (take_one _ _ _ x _ _ _ _ _ H Hm Hready Hc Hmem) as (h & E & H1 & Hh).
    destruct (IH (o :: f) _ H1) as (batch & s' & E' & H' & Hlog); [by apply all_ready_alter|].
    exists ((req, o) :: batch), s'. split_and!; [|eapply apart_fewer; [exact H'|]|done].
    + rewrite (M_bind_block _ _ _ _ _ _ E). by rewrite (M_bind_ok _ _ _ _ _ E').
    + intros o'. simpl. rewrite !occ_app, !occ_cons, !occ_app. lia.
  - apply IH; [|done]. eapply apart_fewer; [exact H|]. intros o'. rewrite occ_cons. case_decide; lia.
Qed.

Lemma blocks_of_same x batch s : (blocks_of x batch s).2 = s.
Proof.
  induction batch as [|[req o] batch IH]; simpl; [done|]. unfold mbind, M_bind, object.
  destruct (heap s !! o); [|done]. destruct (dget _ _) as [[]|]; [|done].
  destruct (blocks_of x batch s) as [[]]; simpl in *; by subst.
Qed.

(** Taking the entries of [done] away *)
Lemma ddel_all (d : dict string nat) done :
  NoDup (dkeys d) -> NoDup done -> (forall k, k ∈ done -> is_Some (dget d k)) ->
  NoDup (dkeys (foldl ddel d done)) /\ foldl ddel d done ⊆ d /\
  map snd d ≡ₚ omap (dget d) done ++ map snd (foldl ddel d done).
Proof.
  revert d. induction done as [|k done IH]; intros d Hd Hdone H; simpl; [done|].
  apply NoDup_cons in Hdone as [Hk Hdone]. destruct (H k) as [v Hv]; [by left|]. rewrite Hv.
  assert (forall k', k' ∈ done -> dget (ddel d k) k' = dget d k') as Hsame.
  { intros k' Hk'. apply dget_ddel_ne. by intros ->. }
  destruct (IH (ddel d k)) as (Hnd & Hsub & Hperm); [by apply NoDup_ddel|done| |].
  { intros k' Hk'. rewrite Hsame by done. apply H. by right. }
  split_and!; [done| |].
  - intros e He. eapply elem_of_sublist; [by apply Hsub|apply ddel_sublist].
  - rewrite (Permutation_map snd (ddel_perm d k v Hv)). simpl. constructor. rewrite Hperm. f_equiv.
    clear -Hsame. induction done as [|k' done IH]; simpl; [done|].
    rewrite Hsame by (by left). destruct (dget d k'); rewrite IH; auto; intros ??; apply Hsame; by right.
Qed.

(** What the coroutine of [c] did before it went on or raised *)
Definition went asked c s0 (r : result unit * sender) : Prop :=
  match r with (Ok _, s') => inv asked s' | (Err _, s') => apart asked c s0 [] [] s' end.

Lemma end_round_went asked c s0 x batch errs msg s :
  inv asked s0 -> conn_ok s0 x -> apart asked c s0 (map snd (c_pending x)) (map snd batch) s ->
  went asked c s0 (end_round c x batch errs msg s).
Proof.
  intros Hinv Hx H. destruct (settle_batch_holds _ _ _ _ _ errs batch s H) as (s1 & H1 & E1).
  change (apart asked c s0 (map snd (c_pending x)) [] s1) in H1.
  unfold end_round. rewrite (M_bind_ok _ _ _ _ _ E1).
  eapply (apart_close asked asked c s0); [done| |].
  - apply apart_log; [|done]. eapply apart_fewer; [exact H1|]. intros o.
    unfold pend_of, flight_of. case_if; simpl; [|lia]. pose proof (occ_nonneg o (map snd (c_pending x))).
    unfold occ at 1. simpl. unfold zlen in *. simpl. lia.
  - destruct H1 as (_ & K & _). eapply conn_ok_known in K as [HN K]; [|exact Hx]. by split.
Qed.

Lemma wake_up_went asked c s x done :
  inv asked s -> conns s !! c = Some x -> c_phase x = Waiting -> may_wake s x done = true ->
  went asked c s (wake_up topo mamba NULL_BLOCK_ID physical_blocks map_to_kernel_blocks c x done s).
Proof.
  intros Hinv Hx Hph Hw. pose proof (apart_open _ _ _ _ Hinv Hx) as H0.
  apply andb_true_iff in Hw as [[_ Hdone%bool_decide_eq_true]%andb_true_iff Hall]. rewrite forallb_forall in Hall.
  destruct (proj2 Hinv c x Hx) as [Hnd Hpend].
  assert (all_ready x done s) as Hr.
  { intros req Hreq%list_elem_of_In. specialize (Hall req Hreq). bool_prop.
    destruct (dget (c_pending x) req) as [o|] eqn:Ho; [simpl in *|done].
    destruct (Hpend req o) as (m & Hm & Hc); [by apply dget_elem|]. rewrite Hm in *. eauto 6. }
  destruct (ddel_all (c_pending x) done) as (Hnd' & Hsub & Hperm); [done..| |].
  { intros k Hk. destruct (Hr k Hk) as (o & m & -> & _). done. }
  assert (apart asked c s (omap (dget (c_pending x)) done ++ map snd (foldl ddel (c_pending x) done)) [] s) as H3.
  { eapply apart_fewer; [exact H0|]. intros o. unfold pend_of, flight_of. rewrite Hph, Hperm. done. }
  destruct (take_ready_apart _ _ _ _ _ _ _ _ H3 Hr) as (batch & s1 & E1 & H4 & _). rewrite app_nil_r in H4.
  unfold wake_up. rewrite (M_bind_ok _ _ _ _ _ E1).
  set (x' := Conn _ _ _ _ (foldl ddel _ done) _ _) in *.
  assert (conn_ok s x') as Hx'.
  { split; [done|]. intros req o Ho. apply (Hpend req o). by apply Hsub. }
  pose proof (blocks_of_same x' batch s1) as E2. destruct (blocks_of x' batch s1) as [[blocks|e] s2] eqn:E3;
    simpl in E2; subst s2; [rewrite (M_bind_ok _ _ _ _ _ E3)|rewrite (M_bind_err _ _ _ _ _ E3); by eapply apart_drop].
  destruct (build_transfer_params _ _ _ _ _ _ _ _ _ _) as [[[copies errs] msg]|e] eqn:E4;
    [|by eapply apart_drop].
  change (went asked c s ((if is_empty copies then end_round c x' batch errs msg
    else modify (set_conn c (with_phase (InFlight batch copies errs msg) x'))) s1)).
  case_if; [by apply end_round_went|].
  eapply (apart_close asked asked c s); [done|exact H4|].
  destruct H4 as (_ & K & _). eapply conn_ok_known in K as [HN K]; [|exact Hx']. by split.
Qed.

Lemma transfer_done_went asked c s x batch copies errs msg ret :
  inv asked s -> conns s !! c = Some x -> c_phase x = InFlight batch copies errs msg ->
  went asked c s (transfer_done c x batch copies errs msg ret s).
Proof.
  intros Hinv Hx Hph. pose proof (apart_open _ _ _ _ Hinv Hx) as H0. unfold pend_of, flight_of in H0. rewrite Hph in H0.
  unfold transfer_done. case_if; apply end_round_went; try done; try by eapply Hinv. by apply apart_log.
Qed.

Lemma timeout_went asked c s x : inv asked s -> conns s !! c = Some x -> went asked c s (timeout c x s).
Proof.
  intros Hinv Hx. pose proof (apart_open _ _ _ _ Hinv Hx) as H0.
  eapply (apart_close asked asked c s); [done| |].
  - apply apart_log; [|done]. by eapply apart_drop.
  - destruct (proj2 Hinv c x Hx) as [? K]. by split.
Qed.

(** An exception ends the coroutine. *)
Lemma worker_inv asked c s m :
  inv asked s -> went asked c s (m s) -> inv asked (sender_worker c m s).2.
Proof.
  intros Hinv H. unfold sender_worker, try_. destruct (m s) as [[[]|e] s1]; [exact H|]. simpl in H.
  pose proof (fun e => apart_log asked c s [] [] s1 (Responded c e) H eq_refl) as H'.
  assert (conns s1 = conns s) as Ec by apply H. unfold mbind, M_bind. simpl. rewrite Ec.
  destruct (conns s !! c) as [x|] eqn:Hx.
  - eapply (apart_close asked asked c s); [done|apply H'|].
    destruct H as (_ & K & _). eapply conn_ok_known in K as [HN K]; [|by eapply Hinv]. by split.
  - destruct (H' (Response ERROR [] [] (Some (exn_msg e)))) as (C & K & E). simpl in E.
    rewrite delete_id in C by done. split; simpl; rewrite Ec; [exact C|]. intros c' x' Hx'.
    eapply conn_ok_known; [by eapply Hinv|done].
Qed.

(** ** A consumer asks *)

Lemma core_asks asked asked' pend flight s :
  core asked pend flight s -> asked ⊆+ asked' -> NoDup asked' ->
  (forall t r, (t, r) ∈ asked' -> r ∈ consumers t) -> core asked' pend flight s.
Proof.
  intros C [k Hk]%submseteq_Permutation Hnd Hr. constructor; try apply C; try done.
  intros o m Hm. eapply object_ok_mono; [by apply C| |lia..].
  unfold askers, zlen. rewrite Hk, filter_app, length_app. lia.
Qed.

Lemma unused_new s s' o req t t' :
  unused s t' -> dget (reqs_need_send s) t = None -> heap s !! o = None ->
  heap s' = <[o := empty_meta req t]> (heap s) -> reqs_need_send s' = dset (reqs_need_send s) t o -> unused s' t'.
Proof.
  intros H Hnone Ho Hheap Htab o' m. rewrite Hheap, Htab. destruct (decide (o' = o)) as [->|Hne].
  - rewrite lookup_insert_eq. by intros [= <-].
  - rewrite lookup_insert_ne by done. intros Hm Ht Hr. rewrite dget_dset.
    specialize (H o' m Hm Ht Hr). case_decide; [congruence|done].
Qed.

(** The entry of a transfer, as [entry_for] and [record_send_reqs] make it *)
Lemma holds_new asked pend flight I cs s req t :
  holds asked pend flight I cs s -> unused s t -> dget (reqs_need_send s) t = None ->
  let o := fresh (dom (heap s)) in
  let s' := set_table (dset (reqs_need_send s) t o) (set_heap (<[o := empty_meta req t]> (heap s)) s) in
  holds asked pend flight I cs s' /\ (forall t', unused s t' -> unused s' t').
Proof.
  intros (C & K & E) Hun Hnone o s'.
  assert (heap s !! o = None) as Ho by (apply not_elem_of_dom, is_fresh).
  split; [split_and!; [by eapply core_new| |done]|intros t' Ht'; by eapply unused_new].
  intros o' t' Ho'. destruct (K o' t' Ho') as (m & Hm & <-). exists m. split; [|done]. simpl.
  rewrite lookup_insert_ne; [done|]. congruence.
Qed.

Lemma entry_for_holds asked pend flight I cs s t :
  holds asked pend flight I cs s -> unused s t ->
  exists o m s', entry_for t s = (Ok o, s') /\ holds asked pend flight I cs s' /\
    (forall t', unused s t' -> unused s' t') /\ heap s' !! o = Some m /\ transfer_id m = t /\ log s' = log s.
Proof.
  intros H Hun. unfold entry_for. erewrite M_bind_ok by reflexivity.
  destruct (dget (reqs_need_send s) t) as [o|] eqn:E.
  - destruct (core_table _ _ _ _ (proj1 H) t o E) as (m & Hm & Ht). by exists o, m, s.
  - destruct (holds_new _ _ _ _ _ _ "" t H Hun E) as [H' Hun']. eexists _, _, _.
    split_and!; [reflexivity|exact H'|exact Hun'|apply lookup_insert_eq|done|done].
Qed.

(** The transfers that a list of requests names, for the rank of a consumer *)
Definition pairs (r : Z) (reqs : list (string * (string * list (list Z)))) : list (string * Z) :=
  map (fun e => (e.2.1, r)) reqs.

Lemma join_requests_holds r reqs asked pend flight I cs s :
  holds asked pend flight I cs s -> NoDup (pairs r reqs ++ asked) ->
  (forall t, (t, r) ∈ pairs r reqs -> unused s t /\ r ∈ consumers t) ->
  exists pending s', join_requests reqs s = (Ok pending, s') /\
    holds (pairs r reqs ++ asked) (map snd pending ++ pend) flight I cs s' /\ map fst pending = map fst reqs /\
    (forall req o, (req, o) ∈ pending -> exists m, heap s' !! o = Some m /\ (transfer_id m, r) ∈ pairs r reqs).
Proof.
  revert asked pend I s. induction reqs as [|[req [t blocks]] reqs IH]; intros asked pend I s H Hnd Ht; simpl in *.
  { exists [], s. split_and!; try done. by intros ? ? ?%not_elem_of_nil. }
  destruct (Ht t) as [Hun Hc]; [by left|].
  destruct (entry_for_holds _ _ _ _ _ _ _ H Hun) as (o & m & s1 & E1 & H1 & Hun1 & Hm & Htm & _).
  rewrite (M_bind_ok _ _ _ _ _ E1). apply NoDup_cons in Hnd as [Hni Hnd].
  assert (holds ((t, r) :: asked) (o :: pend) flight (fun o' => if decide (o' = o) then Some t else I o') cs s1) as H2.
  { destruct H1 as (C & K & E). split_and!; [eapply core_ask; try done; set_solver| |done].
    intros o' t'. case_decide; subst; [intros [= <-]; eauto|apply K]. }
  destruct (IH _ _ _ s1 H2) as (pending & s2 & E2 & H3 & Hk & Hp).
  { rewrite <- Permutation_middle. apply NoDup_cons. done. }
  { intros t' Ht'. destruct (Ht t') as [? ?]; [by right|]. auto. }
  exists ((req, o) :: pending), s2. rewrite (M_bind_ok _ _ _ _ _ E2). split_and!; [done| |simpl; by rewrite Hk|].
  - destruct H3 as (C & K & E). split_and!; [| |done]; simpl.
    2: { intros o' t' Ho'. apply K. case_decide; [|done]. subst o'.
         destruct (proj1 (proj2 H1) o t' Ho') as (m' & Hm' & <-). by simplify_eq. }
    eapply core_asks; [eapply (core_fewer _ _ _ _ _ s2 C)| | |].
    + intros o'. rewrite occ_cons, !occ_app, occ_cons. lia.
    + by rewrite <- Permutation_middle.
    + by apply NoDup_cons.
    + intros t' r' Hin. apply (core_ranks _ _ _ _ C). rewrite <- Permutation_middle. done.
  - intros req' o' [[= -> ->]|Hin]%elem_of_cons.
    + destruct (proj1 (proj2 H3) o t) as (m' & Hm' & <-); [by rewrite decide_True|]. exists m'. split; [done|by left].
    + destruct (Hp _ _ Hin) as (m' & Hm' & Hin'). exists m'. split; [done|by right].
Qed.

(** What the consumers do right in an action: each asks once for a transfer,
    with the size of its engine, and no transfer starts anew after its blocks
    were released. *)
Definition asks_once (asked : list (string * Z)) (s : sender) (a : action) : Prop :=
  match a with
  | Asked c meta =>
      NoDup (dkeys (req_blocks meta)) /\ NoDup (pairs (remote_tp_rank meta) (req_blocks meta) ++ asked) /\
      Forall (fun e => size_of e.2.1 = remote_tp_size meta /\ unused s e.2.1) (req_blocks meta)
  | Recorded _ send _ => Forall (fun e => unused s e.2.1) send
  | _ => True
  end.

(** The consumers of the transfers asked for so far *)
Definition asked_after (asked : list (string * Z)) (a : action) : list (string * Z) :=
  match a with
  | Asked c meta =>
      if decide (remote_tp_rank meta ∈ handshake_target_ranks topo (remote_tp_size meta))
      then pairs (remote_tp_rank meta) (req_blocks meta) ++ asked else asked
  | _ => asked
  end.

Lemma elem_of_pairs t r r' reqs : (t, r') ∈ pairs r reqs <-> r' = r /\ exists req blocks, (req, (t, blocks)) ∈ reqs.
Proof.
  unfold pairs. split.
  - intros H. apply list_elem_of_fmap in H as ([req [t' blocks]] & [= -> ->] & Hin). eauto.
  - intros (-> & req & blocks & Hin). apply list_elem_of_fmap. by exists (req, (t, blocks)).
Qed.

Lemma inv_asks asked c meta s :
  inv asked s -> asks_once asked s (Asked c meta) -> inv (asked_after asked (Asked c meta)) s.
Proof.
  intros [C Hc] (_ & Hnd & Ht). simpl. case_decide as Hr; [|by split]. split; [|done].
  eapply core_asks; [exact C|apply submseteq_inserts_l; done|done|].
  intros t r [(-> & req & blocks & Hin)%elem_of_pairs|Hin]%elem_of_app; [|by apply (core_ranks _ _ _ _ C)].
  rewrite Forall_forall in Ht. destruct (Ht _ Hin) as [Hs _]. simpl in Hs. unfold consumers. by rewrite Hs.
Qed.

Lemma reject_went asked c s msg :
  inv asked s -> inv asked (reject_metadata c msg s).2.
Proof.
  intros [C Hc]. split; [|exact Hc]. eapply core_same; [exact C|done..|]. simpl. by rewrite released_app, app_nil_r.
Qed.

Lemma send_kv_went asked c meta s :
  inv asked s -> conns s !! c = None -> asks_once asked s (Asked c meta) ->
  went (asked_after asked (Asked c meta)) c s (send_kv_to_decode own layer_group_indices topo c meta s).
Proof.
  intros Hinv Hx Hok. pose proof (inv_asks _ _ _ _ Hinv Hok) as Hinv'.
  pose proof (fun msg => reject_went _ c _ msg Hinv') as Hrej.
  destruct Hok as (Hkeys & Hnd & Ht). rewrite Forall_forall in Ht. simpl asked_after in *.
  unfold send_kv_to_decode. case_if; [apply Hrej|]. case_bool_decide as Hr; simpl; [|apply Hrej].
  rewrite decide_True in * by done.
  destruct (if existsb _ _ then _ else None); [apply Hrej|].
  pose proof (apart_drop _ _ _ _ _ _ (apart_new _ _ _ Hinv' Hx)) as Hd.
  destruct (get_transfer_regions layer_group_indices own) as [ls|]; [|exact Hd].
  destruct (get_transfer_regions layer_group_indices meta) as [rs|]; [|exact Hd].
  erewrite !M_bind_ok by reflexivity.
  destruct (align_transfer_regions ls rs) as [[ls' rs']|]; [|apply Hrej].
  destruct (validate_asymmetric_region_lengths _ _ _ _ _); [apply Hrej|].
  destruct (join_requests_holds (remote_tp_rank meta) (req_blocks meta) _ _ _ _ _ _ (apart_new _ _ _ Hinv Hx) Hnd)
    as (pending & s' & E & H' & Hk & Hp).
  { intros t (_ & req & blocks & Hin)%elem_of_pairs. destruct (Ht _ Hin) as [Hs Hu]. simpl in *.
    split; [done|]. unfold consumers. by rewrite Hs. }
  rewrite (M_bind_ok _ _ _ _ _ E).
  eapply (apart_close _ asked c s); [done| |].
  - eapply apart_fewer; [exact H'|]. intros o. unfold pend_of, flight_of. destruct pending; simpl; [done|]. lia.
  - split; [simpl; unfold dkeys; by rewrite Hk|]. intros req o Ho. destruct (Hp req o Ho) as (m & Hm & Hin).
    exists m. split; [done|]. apply elem_of_pairs in Hin as (_ & req' & blocks & Hin).
    destruct (Ht _ Hin) as [Hs _]. simpl in *. unfold consumers. by rewrite Hs.
Qed.

(** ** The scheduler's side *)

Definition quiet asked s0 : sender -> Prop :=
  holds asked (all pend_of (conns s0)) (all flight_of (conns s0)) (tid_of s0) (conns s0).

Lemma quiet_inv asked s0 s : inv asked s0 -> quiet asked s0 s -> inv asked s.
Proof.
  intros [_ Hc] (C & K & E). split; rewrite E; [done|]. intros c x Hx. eapply conn_ok_known; [by eapply Hc|done].
Qed.

Lemma holds_unlist asked pend flight I cs s t :
  holds asked pend flight I cs s -> holds asked pend flight I cs (set_table (ddel (reqs_need_send s) t) s).
Proof. intros (C & K & E). split_and!; [by eapply core_unlist|exact K|exact E]. Qed.

Lemma holds_skip asked pend flight I cs s fin req :
  holds asked pend flight I cs s -> holds asked pend flight I cs (add_log (Skipped req) (set_finished fin s)).
Proof.
  intros (C & K & E). split_and!; [|exact K|exact E].
  eapply core_same; [exact C|done..|]. simpl. by rewrite released_app, app_nil_r.
Qed.

(** The blocks of a request become available. *)
Lemma holds_ready asked pend flight I cs s t o req blocks expires :
  holds asked pend flight I cs s -> dget (reqs_need_send s) t = Some o -> pcp_dummy_sender = false ->
  let s' := set_heap (alter (make_ready req blocks expires) o (heap s)) s in
  holds asked pend flight I cs s' /\ (forall t', unused s t' -> unused s' t').
Proof.
  intros H Ho Hd s'. destruct (core_table _ _ _ _ (proj1 H) t o Ho) as (m & Hm & Ht). split.
  - eapply holds_change; [exact H|exact Hm|done|lia|].
    pose proof (core_object _ _ _ _ (proj1 H) o m Hm) as []. rewrite Ht in *.
    constructor; simpl; rewrite ?Ht; try done; auto.
    + intros Hf. destruct (ok_flight0 Hf) as (_ & ? & ?). done.
    + intros ?. congruence.
  - intros t' Hu o' m'. simpl. destruct (decide (o' = o)) as [->|Hne].
    + rewrite lookup_alter_eq, Hm. intros [= <-] <- _. simpl. by rewrite Ht.
    + rewrite lookup_alter_ne by done. apply Hu.
Qed.

Lemma record_one asked s0 now send e :
  e ∈ send ->
  ensures (fun s => quiet asked s0 s /\ Forall (fun e => unused s e.2.1) send)
    (record_send_req pcp_dummy_sender ABORT_REQUEST_TIMEOUT now e)
    (fun _ s => quiet asked s0 s /\ Forall (fun e => unused s e.2.1) send)
    (fun s => quiet asked s0 s /\ Forall (fun e => unused s e.2.1) send).
Proof.
  intros He s [H Hu]. destruct e as [req [t blocks]]. unfold record_send_req.
  case_if.
  - case_if.
    + split; [by apply holds_skip, holds_unlist|]. eapply Forall_impl; [exact Hu|]. intros e _ o m Hm _ Hr.
      rewrite (ok_dummy _ _ _ _ _ _ _ (core_object _ _ _ _ (proj1 H) o m Hm)) in Hr; done.
    + erewrite M_bind_ok by reflexivity. destruct (dget (reqs_need_send s) t) as [o|] eqn:Ho; [|done].
      destruct (holds_ready _ _ _ _ _ _ _ _ req blocks (now + ABORT_REQUEST_TIMEOUT) H Ho) as [H' Hu']; [done|].
      split; [exact H'|]. eapply Forall_impl; [exact Hu|]. intros e. apply Hu'.
  - erewrite M_bind_ok by reflexivity. unfold dmem. destruct (dget (reqs_need_send s) t) as [o|] eqn:Ho; [done|].
    rewrite Forall_forall in Hu.
    destruct (holds_new _ _ _ _ _ _ req t H (Hu _ He) Ho) as [H' Hu'].
    split; [exact H'|]. rewrite Forall_forall. intros e' He'. apply Hu', Hu, He'.
Qed.

Lemma forget_one asked s0 t :
  ensures (quiet asked s0) (forget_req t) (fun _ => quiet asked s0) (quiet asked s0).
Proof.
  intros s H. unfold forget_req. erewrite M_bind_ok by reflexivity.
  destruct (dget (reqs_need_send s) t) as [o|] eqn:Ho; [|done].
  destruct (core_table _ _ _ _ (proj1 H) t o Ho) as (m & Hm & Ht).
  erewrite M_bind_ok by reflexivity. erewrite M_bind_ok by (apply object_at; exact Hm).
  pose proof (holds_unlist _ _ _ _ _ _ t H). by case_if.
Qed.

Lemma record_inv asked s now send forget :
  inv asked s -> Forall (fun e => unused s e.2.1) send ->
  inv asked (record_send_reqs pcp_dummy_sender ABORT_REQUEST_TIMEOUT now send forget s).2.
Proof.
  intros Hinv Hu.
  assert (ensures (fun s' => quiet asked s s' /\ Forall (fun e => unused s' e.2.1) send)
    (record_send_reqs pcp_dummy_sender ABORT_REQUEST_TIMEOUT now send forget) (fun _ => quiet asked s) (quiet asked s)) as H.
  { eapply ensures_bind.
    - eapply ensures_weaken.
      + apply ensures_for_each. intros e He. by apply (record_one asked s now send).
      + intros s' Hs'. exact Hs'.
      + intros a s' Hs'. exact (proj1 Hs').
      + intros s' Hs'. exact (proj1 Hs').
    - intros []. apply ensures_for_each. intros t _. apply forget_one. }
  specialize (H s). destruct (record_send_reqs _ _ _ _ _ s) as [[[]|] s'];
    (eapply quiet_inv; [exact Hinv|apply H]); (split; [split_and!; [apply Hinv|apply known_self|done]|done]).
Qed.

(** *** Requests that expired *)

Lemma expire_each asked s0 now l s :
  quiet asked s0 s -> NoDup (map fst l) ->
  Forall (fun e => dget (reqs_need_send s) e.1 = Some e.2 /\ expired_object now s e.2 = true) l ->
  exists s', for_each l expire_entry s = (Ok tt, s') /\ quiet asked s0 s'.
Proof.
  revert s. induction l as [|[t o] l IH]; intros s H Hnd Hl; simpl; [by exists s|].
  apply NoDup_cons in Hnd as [Hni Hnd]. apply Forall_cons in Hl as [[Ho Hexp] Hl]. simpl in *.
  unfold expired_object in Hexp. destruct (core_table _ _ _ _ (proj1 H) t o Ho) as (m & Hm & <-). rewrite Hm in Hexp.
  pose proof (core_object _ _ _ _ (proj1 H) o m Hm) as Hok. unfold expired in Hexp. bool_prop.
  assert (holds asked (all pend_of (conns s0)) (all flight_of (conns s0)) (tid_of s0) (conns s0)
    (release_state o (transfer_id m) (p_req_id m) s)) as H'.
  { apply holds_release; try done.
    - apply (ok_expire _ _ _ _ _ _ _ Hok). by destruct (expire_time m).
    - pose proof (ok_sending _ _ _ _ _ _ _ Hok). pose proof (occ_nonneg o (all flight_of (conns s0))). lia. }
  destruct (IH _ H' Hnd) as (s' & E & Hs').
  { rewrite Forall_forall in Hl |- *. intros [t' o'] Hin. destruct (Hl _ Hin) as [Ho' He']. simpl in *.
    rewrite dget_ddel_ne; [done|]. intros Heq. apply Hni. apply list_elem_of_fmap. by exists (t', o'). }
  exists s'. split; [|done]. rewrite <- E. erewrite M_bind_ok; [reflexivity|].
  unfold expire_entry. by rewrite (M_bind_ok _ _ _ _ _ (object_at o m s Hm)).
Qed.

Lemma fetch_inv asked s now : inv asked s -> inv asked ((fetch_finished_sending_reqs now ;; mret tt) s).2.
Proof.
  intros Hinv. destruct (expire_each asked s now (expired_entries now s) s) as (s' & E & H).
  - split_and!; [apply Hinv|apply known_self|done].
  - eapply sublist_NoDup; [apply (core_keys _ _ _ _ (proj1 Hinv))|]. apply fmap_sublist, sublist_filter.
  - rewrite Forall_forall. intros [t o] [He Hin]%list_elem_of_filter. split; [|done].
    apply elem_dget; [apply (core_keys _ _ _ _ (proj1 Hinv))|done].
  - unfold fetch_finished_sending_reqs. unfold mbind, M_bind. unfold get_state at 1. rewrite E. simpl.
    eapply quiet_inv; [exact Hinv|]. destruct H as (C & K & Ec). split_and!; [|exact K|exact Ec].
    by eapply core_same; [exact C|..].
Qed.

(** ** Runs *)

Abbreviation sender_step := (step own layer_group_indices topo mamba NULL_BLOCK_ID physical_blocks
  map_to_kernel_blocks pcp_dummy_sender ABORT_REQUEST_TIMEOUT).

(** The states the sender reaches while every consumer asks once *)
Inductive reachable : list (string * Z) -> sender -> Prop :=
  | reach_new : reachable [] new_sender
  | reach_step asked s a s' :
      reachable asked s -> asks_once asked s a -> sender_step s a = Some s' -> reachable (asked_after asked a) s'.

Lemma inv_new : inv [] new_sender.
Proof.
  split; [|done]. constructor; try done; try by constructor.
  - intros o. by intros [?%not_elem_of_nil|[?%not_elem_of_nil|?%not_elem_of_nil]].
  - by intros t r ?%not_elem_of_nil.
Qed.

Lemma step_inv asked s a s' :
  inv asked s -> asks_once asked s a -> sender_step s a = Some s' -> inv (asked_after asked a) s'.
Proof.
  intros Hinv Hok. unfold step. destruct a as [c meta|c done|c ret|c e|c|now send forget|now]; simpl handler.
  - destruct (conns s !! c) as [x|] eqn:Hx; [done|]. intros [= <-].
    apply worker_inv; [by apply inv_asks|]. pose proof (send_kv_went _ _ _ _ Hinv Hx Hok) as H. exact H.
  - destruct (conns s !! c) as [x|] eqn:Hx; [|done]. simpl. destruct (c_phase x) eqn:Hph; try done.
    destruct (may_wake s x done) eqn:Hw; [|done]. intros [= <-]. apply worker_inv; [done|]. by apply wake_up_went.
  - destruct (conns s !! c) as [x|] eqn:Hx; [|done]. simpl. destruct (c_phase x) eqn:Hph; try done.
    intros [= <-]. apply worker_inv; [done|]. by apply transfer_done_went.
  - destruct (conns s !! c) as [x|] eqn:Hx; [|done]. simpl. destruct (c_phase x) eqn:Hph; try done.
    intros [= <-]. refine (worker_inv asked c s (throw e) Hinv _). eapply apart_drop. by apply apart_open.
  - destruct (conns s !! c) as [x|] eqn:Hx; [|done]. simpl. destruct (c_phase x) eqn:Hph; try done.
    intros [= <-]. refine (worker_inv asked c s (timeout c x) Hinv _). by apply timeout_went.
  - intros [= <-]. by apply record_inv.
  - intros [= <-]. by apply fetch_inv.
Qed.

Lemma sender_reachable_inv asked s : reachable asked s -> inv asked s.
Proof. induction 1; [apply inv_new|by eapply step_inv]. Qed.

Lemma in_all f cs c x o : cs !! c = Some x -> o ∈ f x -> o ∈ all f cs.
Proof. intros Hx Ho. rewrite (all_lookup f cs c x Hx). apply elem_of_app. by left. Qed.

(** C11: as long as every consumer asks once for a transfer and no transfer
    starts anew after its blocks were released, whatever the order in which
    requests arrive, become ready, are transferred, fail, time out or expire:
    the blocks that a running transfer reads are not released; no request is
    released twice; a transfer with an entry was not released and, once its
    number of consumers is known, has been sent to fewer of them, so the entry
    goes with the last consumer; and the number of running transfers of a
    request is at most its counter [sending]. *)
Theorem blocks_kept asked s :
  reachable asked s ->
  (forall c x batch copies errs msg req o, conns s !! c = Some x -> c_phase x = InFlight batch copies errs msg ->
    (req, o) ∈ batch ->
    (o ∉ released (log s)) /\ exists m, heap s !! o = Some m /\ ready m = true /\ 0 < sending m) /\
  NoDup (released (log s)) /\
  (forall t o, dget (reqs_need_send s) t = Some o -> (o ∉ released (log s)) /\
    exists m, heap s !! o = Some m /\ transfer_id m = t /\ (need_send m = 0 /\ sent m = 0 \/ sent m < need_send m)) /\
  (forall o m, heap s !! o = Some m -> occ o (all flight_of (conns s)) <= sending m).
Proof.
  intros [C _]%sender_reachable_inv. split_and!; [| |intros t o Ho|intros o m Hm].
  - intros c x batch copies errs msg req o Hx Hph Hin.
    assert (o ∈ all flight_of (conns s)) as Ho.
    { eapply in_all; [exact Hx|]. unfold flight_of. rewrite Hph. apply list_elem_of_fmap. by exists (req, o). }
    destruct (core_heap _ _ _ _ C o) as [m Hm]; [auto|]. apply occ_pos in Ho.
    pose proof (core_object _ _ _ _ C o m Hm) as []. destruct (ok_flight0 Ho) as (? & _ & ?).
    split; [done|]. exists m. split_and!; [done..|lia].
  - apply C.
  - destruct (core_table _ _ _ _ C t o Ho) as (m & Hm & <-). pose proof (core_object _ _ _ _ C o m Hm) as [].
    split; [auto|]. exists m. auto.
  - apply (core_object _ _ _ _ C o m Hm).
Qed.

(** A run, with its states checked *)
Fixpoint run_ok (asked : list (string * Z)) (s : sender) (actions : list action) : Prop :=
  match actions with
  | [] => True
  | a :: rest => asks_once asked s a /\
      match sender_step s a with Some s' => run_ok (asked_after asked a) s' rest | None => False end
  end.

Lemma run_reachable asked s actions :
  reachable asked s -> run_ok asked s actions ->
  exists s', run own layer_group_indices topo mamba NULL_BLOCK_ID physical_blocks map_to_kernel_blocks pcp_dummy_sender
    ABORT_REQUEST_TIMEOUT s actions = Some s' /\ reachable (foldl asked_after asked actions) s'.
Proof.
  revert asked s. induction actions as [|a rest IH]; intros asked s Hs H; simpl; [by exists s|].
  destruct H as [Ha H]. destruct (sender_step s a) as [s1|] eqn:E; [|done]. simpl. apply IH; [|done].
  by eapply reach_step.
Qed.
End sender.

(** ** A small deployment

    One producer with one layer of 16-byte blocks, and an engine of two ranks
    that keep 8 bytes of each block. *)

Definition demo_topology : topology :=
  Topology 0 (fun size => if size =? 1 then 1 else - size) (fun size => zrange 0 size) false.

Definition demo_producer : MooncakeXferMetadata := XferMeta 1 0 [] [1000] [16] [16] ["l0"] [0] [0] [8].

Definition demo_consumer (rank : Z) (reqs : dict string (string * list (list Z))) : MooncakeXferMetadata :=
  XferMeta 2 rank reqs [5000] [8] [8] ["l0"] [0] [0] [8].

(** [BlockTable.map_to_kernel_blocks] *)
Definition demo_kernel (ids : list Z) (n : Z) : list Z := concat (map (fun k => zrange (k * n) n) ids).

Definition demo_run : sender -> list action -> option sender :=
  run demo_producer [] demo_topology [false] (-1) 1 demo_kernel false 480.

Definition both_ranks_ask : list action :=
  [Recorded 0 [("p1", ("t1", []))] [];
   Asked 0 (demo_consumer 0 [("d1", ("t1", [[2; 3]]))]);
   Asked 1 (demo_consumer 1 [("d1", ("t1", [[6; 7]]))]);
   Recorded 10 [("p1", ("t1", [[4; 5]]))] [];
   Woke 0 ["d1"]; Woke 1 ["d1"]; TransferReturned 0 0; Fetched 1000].

Lemma blocks_kept_witness :
  match demo_run new_sender both_ranks_ask with
  | Some s =>
      (exists x, conns s !! 1%nat = Some x /\ c_phase x <> Waiting /\ c_phase x <> Closed) /\ 
      released (log s) = [] /\ NoDup (released (log s))
  | None => False
  end.
Proof.
  destruct (run_reachable demo_producer [] demo_topology [false] (-1) 1 demo_kernel false 480 (fun _ => 2)
    [] new_sender both_ranks_ask) as (s & E & H); [constructor|..].
  - cbn [both_ranks_ask run_ok].
    repeat match goal with
    | |- _ /\ _ => split; [cbn [asks_once]; try exact I; repeat split;
        apply (bool_decide_unpack _); vm_compute; exact I|]
    | |- match ?m with Some _ => _ | None => False end =>
        let r := eval vm_compute in m in
        lazymatch r with Some ?s' => change m with (Some s'); cbv beta iota end
    | |- True => exact I
    end.
  - unfold demo_run. rewrite E. destruct (blocks_kept _ _ _ _ _ _ _ _ _ _ _ _ H) as (_ & Hnd & _).
    vm_compute in E. injection E as <-. split_and!; [|reflexivity|exact Hnd].
    eexists. split; [reflexivity|]. split; discriminate.
Defined.

Definition late_consumer : list action :=
  [Recorded 0 [("p1", ("t1", [])); ("p2", ("t2", []))] [];
   Asked 0 (demo_consumer 0 [("d1", ("t1", [[2]])); ("d2", ("t2", [[3]]))]);
   Recorded 1 [("p1", ("t1", [[4]]))] [];
   Woke 0 ["d1"];
   Recorded 2 [("p2", ("t2", [[5]]))] [];
   Fetched 1000;
   Asked 1 (demo_consumer 1 [("d2", ("t2", [[6]]))]);
   TransferReturned 0 0;
   Woke 0 ["d2"]].

(** A request that expired, while the coroutine that waits for it was busy
    with a transfer, is released; when a second consumer then asks for the
    same transfer, the coroutine takes the new entry for its own and starts a
    transfer from the released blocks.  Every consumer asks once in this run:
    that no transfer starts anew after its release cannot be left out of
    [blocks_kept]. *)
Theorem expired_id_reused :
  NoDup (flat_map (fun a => match a with
    | Asked _ meta => pairs (remote_tp_rank meta) (req_blocks meta) | _ => [] end) late_consumer) /\
  exists s x batch copies errs msg o,
    demo_run new_sender late_consumer = Some s /\ conns s !! 0%nat = Some x /\
    c_phase x = InFlight batch copies errs msg /\ ("d2", o) ∈ batch /\ o ∈ released (log s).
Proof.
  split; [apply (bool_decide_unpack _); vm_compute; exact I|].
  destruct (demo_run new_sender late_consumer) as [s|] eqn:E; vm_compute in E; [|discriminate].
  injection E as <-. eexists _, _, _, _, _, _, 1%nat.
  split_and!; [reflexivity|reflexivity|reflexivity| |]; apply (bool_decide_unpack _); vm_compute; exact I.
Qed.
