(* ===== verification/MooncakeAckCorrect.v ===== *)
(** * What an acknowledgement of the Mooncake sender means

    About MooncakeSender.v, with the bytes of MooncakeRegionsCorrect.v: a
    request is acknowledged only after a transfer that the engine completed
    has written every byte the consumer asked for, from the blocks that the
    scheduler gave for the transfer. *)

From stdpp Require Import pretty.
From S2P Require Import Prelude PyString Tensors Envs MooncakeRegions MooncakeRegionsCorrect MooncakeSender MooncakeSenderCorrect.
Import Mooncake MooncakeSender.
Local Open Scope Z_scope.

(** ** Operations that leave the blocks of the objects alone *)

(** What only the scheduler changes in an object *)
Definition static (m : SendBlockMeta) : string * string * list (list Z) * bool :=
  (p_req_id m, transfer_id m, local_block_ids m, ready m).

Definition is_release (e : sender_event) : Prop := match e with Released _ _ => True | _ => False end.

Record calm (s s' : sender) : Prop := {
  calm_conns : conns s' = conns s;
  calm_static : forall o, static <$> heap s' !! o = static <$> heap s !! o;
  calm_table : reqs_need_send s' ⊆ reqs_need_send s;
  calm_log : exists l, log s' = log s ++ l /\ Forall is_release l
}.

#[global] Instance calm_refl : Reflexive calm.
Proof. intros s. constructor; try done. exists []. by rewrite app_nil_r. Qed.

#[global] Instance calm_trans : Transitive calm.
Proof.
  intros s1 s2 s3 [A1 A2 A3 (l1 & A4 & A5)] [B1 B2 B3 (l2 & B4 & B5)]. constructor; [congruence| |set_solver|].
  - intros o. by rewrite B2, A2.
  - exists (l1 ++ l2). rewrite B4, A4, app_assoc. split; [done|]. by apply Forall_app.
Qed.

Lemma calm_bind {A B} (m : M sender A) (k : A -> M sender B) s :
  calm s (m s).2 -> (forall a s', m s = (Ok a, s') -> calm s' (k a s').2) -> calm s ((m ≫= k) s).2.
Proof.
  intros Hm Hk. unfold mbind, M_bind. destruct (m s) as [[a|e] s'] eqn:E; simpl in *; [|done].
  etrans; [exact Hm|by apply Hk].
Qed.

Lemma calm_update o f s : (forall m, static (f m) = static m) -> calm s (update o f s).2.
Proof.
  intros Hf. constructor; simpl; try done; [|exists []; by rewrite app_nil_r].
  intros o'. destruct (decide (o' = o)) as [->|Hne].
  - rewrite lookup_alter_eq. destruct (heap s !! o); simpl; [by rewrite Hf|done].
  - by rewrite lookup_alter_ne.
Qed.

Lemma calm_object o s : calm s (object o s).2.
Proof. unfold object. by destruct (heap s !! o). Qed.

Lemma object_inv o s m s' : object o s = (Ok m, s') -> heap s !! o = Some m /\ s' = s.
Proof. unfold object. destruct (heap s !! o); intros; by simplify_eq. Qed.

Lemma take_ready_calm x done s : calm s (take_ready x done s).2.
Proof.
  revert s. induction done as [|req done IH]; intros s; simpl; [done|].
  destruct (dget (c_pending x) req) as [o|]; [|done].
  apply calm_bind; [apply calm_object|]. intros m s1 _. apply calm_bind; [done|]. intros s2 s3 _.
  destruct (dmem _ _); [|apply IH].
  apply calm_bind; [by apply calm_update|]. intros _ s4 _.
  apply calm_bind; [case_if; [by apply calm_update|done]|]. intros _ s5 _.
  apply calm_bind; [apply IH|]. done.
Qed.

Lemma take_ready_batch x done s batch s' :
  take_ready x done s = (Ok batch, s') ->
  Forall (fun e => e.1 ∈ done /\ dget (c_pending x) e.1 = Some e.2) batch.
Proof.
  revert s batch s'. induction done as [|req done IH]; intros s batch s'; simpl; [by intros [= <- _]|].
  destruct (dget (c_pending x) req) as [o|] eqn:Ho; [|done].
  intros (m & s1 & _ & H)%M_bind_inv. apply M_bind_inv in H as (s2 & s3 & _ & H).
  assert (forall more s4 s5, take_ready x done s4 = (Ok more, s5) ->
    Forall (fun e : string * nat => e.1 ∈ req :: done /\ dget (c_pending x) e.1 = Some e.2) more) as Hmore.
  { intros more s4 s5 Hm. eapply Forall_impl; [by eapply IH|]. intros e [He1 He2]. split; [by right|done]. }
  destruct (dmem _ _); [|by eapply Hmore].
  apply M_bind_inv in H as (u & s4 & _ & H). apply M_bind_inv in H as (u' & s5 & _ & H).
  apply M_bind_inv in H as (more & s6 & Hm & [= <- _]). constructor; [split; [by left|done]|by eapply Hmore].
Qed.

Lemma blocks_of_ok x batch s blocks s' :
  blocks_of x batch s = (Ok blocks, s') ->
  map fst blocks = map fst batch /\
  Forall (fun b => exists o m t, (b.1, o) ∈ batch /\ heap s !! o = Some m /\ b.2.1 = local_block_ids m /\
    dget (req_blocks (c_meta x)) b.1 = Some (t, b.2.2)) blocks.
Proof.
  revert blocks s'. induction batch as [|[req o] batch IH]; intros blocks s'; simpl; [by intros [= <- _]|].
  intros (m & s1 & [Hm ->]%object_inv & H)%M_bind_inv.
  destruct (dget (req_blocks (c_meta x)) req) as [[t remote]|] eqn:Hd; [|done].
  apply M_bind_inv in H as (more & s2 & Hmore & [= <- _]). destruct (IH _ _ Hmore) as [Hfst Hall].
  split; [simpl; by rewrite Hfst|]. constructor.
  - exists o, m, t. split_and!; try done. by left.
  - eapply Forall_impl; [exact Hall|]. intros b (o' & m' & t' & Hin & H'). exists o', m', t'. split; [by right|done].
Qed.

Lemma release_calm o m s : calm s (release o m s).2.
Proof.
  unfold release. apply calm_bind; [done|]. intros s1 s2 _.
  destruct (dget (reqs_need_send s1) (transfer_id m)) as [o'|]; [|done]. simpl.
  constructor; simpl; try done.
  - intros e He. eapply elem_of_sublist; [exact He|apply ddel_sublist].
  - exists [Released o (p_req_id m)]. split; [done|]. by repeat constructor.
Qed.

Lemma settle_batch_calm errs batch s : calm s (settle_batch errs batch s).2.
Proof.
  revert s. induction batch as [|[req o] batch IH]; intros s; simpl; [done|].
  apply calm_bind; [by apply calm_update|]. intros _ s1 _. apply calm_bind; [|intros _ s2 _; apply IH].
  case_bool_decide; [done|]. apply calm_bind; [by apply calm_update|]. intros _ s2 _.
  apply calm_bind; [apply calm_object|]. intros m s3 _. case_if; [apply release_calm|done].
Qed.

Lemma calm_unlist s t : calm s (set_table (ddel (reqs_need_send s) t) s).
Proof.
  constructor; simpl; try done; [|exists []; by rewrite app_nil_r].
  intros e He. eapply elem_of_sublist; [exact He|apply ddel_sublist].
Qed.

Lemma forget_calm t s : calm s (forget_req t s).2.
Proof.
  unfold forget_req. apply calm_bind; [done|]. intros s1 s2 _.
  destruct (dget (reqs_need_send s1) t) as [o|]; [|done].
  apply calm_bind; [apply calm_unlist|]. intros _ s3 _. apply calm_bind; [apply calm_object|]. intros m s4 _. by case_if.
Qed.

Lemma expire_calm e s : calm s (expire_entry e s).2.
Proof.
  apply calm_bind; [apply calm_object|]. intros m s1 _. constructor; simpl; try done.
  - apply (calm_unlist s1 e.1).
  - exists [Released e.2 (p_req_id m)]. split; [done|]. by repeat constructor.
Qed.

Lemma fetch_calm s now : calm s ((fetch_finished_sending_reqs now ;; mret tt) s).2.
Proof.
  apply calm_bind; [|done]. apply calm_bind; [done|]. intros s1 s2 _.
  apply calm_bind; [|intros _ s3 _; constructor; simpl; try done; exists []; by rewrite app_nil_r].
  generalize (expired_entries now s1). intros l. revert s2. induction l as [|e l IH]; intros s2; simpl; [done|].
  apply calm_bind; [apply expire_calm|]. intros _ s3 _. apply IH.
Qed.

(** ** The invariant of a run *)

Section acks.
Context (own : MooncakeXferMetadata) (layer_group_indices : dict string Z) (topo : topology).
Context (mamba : list bool) (NULL_BLOCK_ID physical_blocks : Z) (map_to_kernel_blocks : list Z -> Z -> list Z).
Context (pcp_dummy_sender : bool) (ABORT_REQUEST_TIMEOUT : Z).
(** The actions of the run *)
Context (actions : list action).

Abbreviation build meta := (build_transfer_params mamba NULL_BLOCK_ID physical_blocks map_to_kernel_blocks topo
  (remote_tp_rank meta) (remote_tp_size meta)).

(** The scheduler gave the blocks [ids] for the transfer. *)
Definition given_blocks (req tid : string) (ids : list (list Z)) : Prop :=
  exists now send forget, Recorded now send forget ∈ actions /\ (req, (tid, ids)) ∈ send.

(** The regions of the two sides, aligned and checked *)
Definition accepted (meta : MooncakeXferMetadata) (ls rs : list TransferRegion) : Prop :=
  0 < remote_tp_size meta /\ exists locals remotes,
    get_transfer_regions layer_group_indices own = Ok locals /\
    get_transfer_regions layer_group_indices meta = Ok remotes /\
    align_transfer_regions locals remotes = inl (ls, rs) /\
    validate_asymmetric_region_lengths ls rs topo (remote_tp_size meta) (local_replicates_kv_cache topo) = None.

(** The descriptors of a batch are those of blocks given by the scheduler. *)
Definition prepared (meta : MooncakeXferMetadata) ls rs (reqs : list string) copies errs (msg : option string) : Prop :=
  exists blocks, map fst blocks = reqs /\ build meta ls rs blocks = Ok (copies, errs, msg) /\
    Forall (fun b => exists req tid, given_blocks req tid b.2.1 /\ dget (req_blocks meta) b.1 = Some (tid, b.2.2)) blocks.

(** The bytes that the consumer of [c] asked for were written before, from
    blocks of the transfer. *)
Definition delivered (l : list sender_event) (c : nat) (req : string) : Prop :=
  exists meta ls rs p_req tid local remote,
    Asked c meta ∈ actions /\ accepted meta ls rs /\
    dget (req_blocks meta) req = Some (tid, remote) /\ given_blocks p_req tid local /\
    refused mamba NULL_BLOCK_ID physical_blocks map_to_kernel_blocks ls rs local remote = false /\
    forall sd, sd ∈ request_bytes mamba NULL_BLOCK_ID physical_blocks map_to_kernel_blocks topo (remote_tp_rank meta)
        (remote_tp_size meta) ls rs (req, (local, remote)) ->
      exists batch copies, Wrote c batch copies ∈ l /\ req ∈ map fst batch /\ sd ∈ concat (map bytes_of copies).

Definition log_ok (l : list sender_event) : Prop :=
  forall l1 c r l2 req, l = l1 ++ Responded c r :: l2 -> req ∈ ok_reqs r -> delivered l1 c req.

Lemma log_ok_snoc l e :
  log_ok l -> (forall c r req, e = Responded c r -> req ∈ ok_reqs r -> delivered l c req) -> log_ok (l ++ [e]).
Proof.
  intros Hl He l1 c r l2 req Heq Hreq. destruct l2 as [|e' l2] using rev_ind.
  - apply app_inj_tail in Heq as [-> ->]. by eapply He.
  - rewrite app_comm_cons, app_assoc in Heq. apply app_inj_tail in Heq as [-> _]. by eapply Hl.
Qed.

Lemma log_ok_releases l l' : log_ok l -> Forall is_release l' -> log_ok (l ++ l').
Proof.
  intros Hl. induction l' as [|e l' IH] using rev_ind; [by rewrite app_nil_r|].
  intros [H1 [H2 _]%Forall_cons_1]%Forall_app. rewrite app_assoc. apply log_ok_snoc; [by apply IH|].
  intros c r req ->. by destruct H2.
Qed.

(** The objects, the table and the responses *)
Record base (s : sender) : Prop := {
  base_object : forall o m, heap s !! o = Some m -> ready m = true ->
    given_blocks (p_req_id m) (transfer_id m) (local_block_ids m);
  base_table : forall t o, (t, o) ∈ reqs_need_send s -> exists m, heap s !! o = Some m /\ transfer_id m = t;
  base_log : log_ok (log s)
}.

Lemma base_calm s s' : calm s s' -> base s -> base s'.
Proof.
  intros [_ Hst Htab (l & El & Hl)] [Ho Ht Hlog]. constructor.
  - intros o m Hm Hr. specialize (Hst o). rewrite Hm in Hst. destruct (heap s !! o) as [m0|] eqn:E; [|done].
    injection Hst as -> -> -> E2. apply (Ho o m0 E). congruence.
  - intros t o Hin. destruct (Ht t o) as (m0 & Hm0 & <-); [by apply Htab|]. specialize (Hst o). rewrite Hm0 in Hst.
    destruct (heap s' !! o) as [m|]; [|done]. exists m. split; [done|]. by injection Hst.
  - rewrite El. by apply log_ok_releases.
Qed.

Lemma base_respond c r s : base s -> (forall req, req ∈ ok_reqs r -> delivered (log s) c req) -> base (add_log (Responded c r) s).
Proof.
  intros [] H. constructor; try done. apply log_ok_snoc; [done|]. intros c' r' req [= -> ->]. apply H.
Qed.

(** What a coroutine knows *)
Definition pending_ok (s : sender) (x : conn) : Prop :=
  forall req o, (req, o) ∈ c_pending x ->
    exists m remote, heap s !! o = Some m /\ dget (req_blocks (c_meta x)) req = Some (transfer_id m, remote).

Record conn_good (c : nat) (s : sender) (x : conn) : Prop := {
  good_asked : Asked c (c_meta x) ∈ actions;
  good_accepted : accepted (c_meta x) (c_local x) (c_remote x);
  good_pending : pending_ok s x;
  good_flight : match c_phase x with
    | InFlight batch copies errs msg => prepared (c_meta x) (c_local x) (c_remote x) (map fst batch) copies errs msg
    | _ => True
    end
}.

Definition acks (s : sender) : Prop := base s /\ forall c x, conns s !! c = Some x -> conn_good c s x.

(** Objects keep their transfers. *)
Definition keeps_ids (s s' : sender) : Prop :=
  forall o m, heap s !! o = Some m -> exists m', heap s' !! o = Some m' /\ transfer_id m' = transfer_id m.

Lemma conn_good_keeps c s s' x : keeps_ids s s' -> conn_good c s x -> conn_good c s' x.
Proof.
  intros K []. constructor; try done. intros req o Ho. destruct (good_pending0 req o Ho) as (m & remote & Hm & Hd).
  destruct (K o m Hm) as (m' & Hm' & Ht). exists m', remote. by rewrite Ht.
Qed.

Lemma calm_keeps s s' : calm s s' -> keeps_ids s s'.
Proof.
  intros [_ Hst _ _] o m Hm. specialize (Hst o). rewrite Hm in Hst. destruct (heap s' !! o) as [m'|]; [|done].
  exists m'. split; [done|]. by injection Hst.
Qed.

(** A step of coroutine [c], from [s0]: the others are as before. *)
Lemma acks_set c s0 s x :
  acks s0 -> base s -> keeps_ids s0 s -> conns s = conns s0 -> conn_good c s x -> acks (set_conn c x s).
Proof.
  intros [_ Hc] [Ho Ht Hlog] K E Hx. split; [by constructor|]. intros c' x'. simpl. rewrite E.
  destruct (decide (c' = c)) as [->|Hne].
  - rewrite lookup_insert_eq. intros [= <-]. destruct Hx. by constructor.
  - rewrite lookup_insert_ne by done. intros Hx'. apply (conn_good_keeps _ s0); [exact K|by apply Hc].
Qed.

Lemma acks_same s0 s : acks s0 -> base s -> keeps_ids s0 s -> conns s = conns s0 -> acks s.
Proof.
  intros [_ Hc] Hb K E. split; [done|]. intros c x. rewrite E. intros Hx. apply (conn_good_keeps _ s0); [done|by apply Hc].
Qed.

(** A coroutine that stops or goes on without a transfer *)
Definition idle (p : phase) : Prop := match p with InFlight _ _ _ _ => False | _ => True end.

Lemma conn_good_phase c s x p : conn_good c s x -> idle p -> conn_good c s (with_phase p x).
Proof. intros [] Hp. constructor; try done. by destruct p. Qed.

(** ** Steps *)

(** The requests of a consumer are a dict, and the scheduler gives at most one
    list of blocks for every KV group. *)
Definition well_formed (a : action) : Prop :=
  match a with
  | Asked _ meta => NoDup (dkeys (req_blocks meta))
  | Recorded _ send _ => Forall (fun e => (length e.2.2 <= length mamba)%nat) send
  | _ => True
  end.

Context (expands : expands_blocks physical_blocks map_to_kernel_blocks) (physical_pos : 0 < physical_blocks).
Context (ratio_defined : forall size, 0 < size -> tp_ratio topo size <> 0).
Context (run_formed : Forall well_formed actions).

Lemma accepted_regions meta ls rs : accepted meta ls rs -> Forall2 (fits topo (remote_tp_size meta)) ls rs.
Proof using ratio_defined.
  intros (Hsize & locals & remotes & Hl & Hr & Ha & Hv).
  by eapply accepted_fit; [eapply expand_sound, Hl|eapply expand_sound, Hr|apply ratio_defined| |].
Qed.

(** A batch whose descriptors were written, or that has none *)
Lemma prepared_delivered c meta ls rs batch copies errs msg l req :
  Asked c meta ∈ actions -> accepted meta ls rs -> prepared meta ls rs (map fst batch) copies errs msg ->
  copies = [] \/ Wrote c batch copies ∈ l -> req ∈ map fst batch -> req ∉ errs -> delivered l c req.
Proof using expands physical_pos ratio_defined run_formed.
  intros Ha Hacc (blocks & Hfst & Hb & Hblocks) Hw Hreq Herr.
  rewrite <- Hfst in Hreq. apply list_elem_of_fmap in Hreq as ([req' [local remote]] & -> & Hin). simpl in *.
  rewrite Forall_forall in Hblocks. destruct (Hblocks _ Hin) as (p_req & tid & Hs & Hd). simpl in *.
  destruct (batch_copies mamba NULL_BLOCK_ID physical_blocks map_to_kernel_blocks topo (remote_tp_rank meta)
    (remote_tp_size meta) ls rs expands physical_pos (accepted_regions _ _ _ Hacc) blocks)
    as (ds & errs' & msg' & Hb' & Hbytes & Herrs & _).
  { rewrite Forall_forall. intros b Hbin. destruct (Hblocks _ Hbin) as (p & t & (now & send & forget & Hr & Hsend) & _).
    rewrite Forall_forall in run_formed. specialize (run_formed _ Hr). simpl in run_formed.
    rewrite Forall_forall in run_formed. exact (run_formed _ Hsend). }
  rewrite Hb in Hb'. injection Hb' as <- <- <-.
  exists meta, ls, rs, p_req, tid, local, remote. split_and!; try done.
  - destruct (refused _ _ _ _ _ _ local remote) eqn:E; [|done]. destruct Herr. rewrite Herrs.
    apply list_elem_of_fmap. exists (req', (local, remote)). split; [done|]. by apply list_elem_of_filter.
  - intros sd Hsd. assert (sd ∈ concat (map bytes_of copies)) as Hc.
    { rewrite Hbytes. apply list_elem_of_In, in_concat. eexists. split; [|by apply list_elem_of_In].
      apply in_map, list_elem_of_In, Hin. }
    destruct Hw as [->|Hw]; [by apply not_elem_of_nil in Hc|]. exists batch, copies. split_and!; try done.
    rewrite <- Hfst. apply list_elem_of_fmap. by exists (req', (local, remote)).
Qed.

(** What the coroutine of [c] did before it went on or raised *)
Definition goes s0 (r : result unit * sender) : Prop :=
  match r with
  | (Ok _, s') => acks s'
  | (Err _, s') => base s' /\ keeps_ids s0 s' /\ conns s' = conns s0
  end.

Lemma goes_calm s0 s : acks s0 -> calm s0 s -> base s /\ keeps_ids s0 s /\ conns s = conns s0.
Proof. intros [Hb _] H. split_and!; [by eapply base_calm|by apply calm_keeps|apply H]. Qed.

Lemma end_round_goes c s0 s x batch errs msg :
  acks s0 -> base s -> keeps_ids s0 s -> conns s = conns s0 -> (forall p, idle p -> conn_good c s0 (with_phase p x)) ->
  (forall l req, log s `prefix_of` l -> req ∈ map fst batch -> req ∉ errs -> delivered l c req) ->
  goes s0 (end_round c x batch errs msg s).
Proof using Type.
  intros Ha Hb K E Hx Hd. unfold end_round. pose proof (settle_batch_calm errs batch s) as Hcalm.
  destruct (settle_batch errs batch s) as [[[]|e] s1] eqn:Es; simpl in Hcalm.
  2: { rewrite (M_bind_err _ _ _ _ _ Es). split_and!; [by eapply base_calm| |by rewrite (calm_conns _ _ Hcalm)].
       intros o m Hm. destruct (K o m Hm) as (m1 & Hm1 & <-). by apply (calm_keeps _ _ Hcalm). }
  rewrite (M_bind_ok _ _ _ _ _ Es).
  assert (keeps_ids s0 s1) as K1.
  { intros o m Hm. destruct (K o m Hm) as (m1 & Hm1 & <-). by apply (calm_keeps _ _ Hcalm). }
  eapply (acks_set c s0); [done| |exact K1|simpl; by rewrite (calm_conns _ _ Hcalm)|].
  - apply base_respond; [by eapply base_calm|]. simpl. intros req [Hne Hin]%list_elem_of_filter.
    apply Hd; [|done..]. destruct (calm_log _ _ Hcalm) as (l & -> & _). by exists l.
  - eapply conn_good_keeps; [exact K1|]. apply Hx. by case_if.
Qed.

Lemma keeps_refl s : keeps_ids s s.
Proof. intros o m Hm. eauto. Qed.

Lemma wake_up_goes c s x done :
  acks s -> conns s !! c = Some x -> may_wake s x done = true ->
  goes s (wake_up topo mamba NULL_BLOCK_ID physical_blocks map_to_kernel_blocks c x done s).
Proof using expands physical_pos ratio_defined run_formed.
  intros Ha Hx Hw. apply andb_true_iff in Hw as [_ Hall]. rewrite forallb_forall in Hall.
  destruct (proj2 Ha c x Hx) as [Hasked Hacc Hpend _].
  unfold wake_up. pose proof (take_ready_calm x done s) as Hcalm. destruct (take_ready x done s) as [[batch|e] s1] eqn:Et;
    simpl in Hcalm; destruct (goes_calm _ _ Ha Hcalm) as (Hb & K & E); [|by rewrite (M_bind_err _ _ _ _ _ Et)].
  rewrite (M_bind_ok _ _ _ _ _ Et). set (x' := Conn _ _ _ _ (foldl ddel _ done) _ _).
  assert (forall p, idle p -> conn_good c s (with_phase p x')) as Hx'.
  { intros p Hp. constructor; try done; [|by destruct p]. intros req o Ho. apply (Hpend req o).
    clear -Ho. simpl in Ho. revert Ho. generalize (c_pending x). induction done as [|k done IH]; intros d Hin; simpl in *; [done|].
    eapply elem_of_sublist; [by apply IH|apply ddel_sublist]. }
  pose proof (blocks_of_same x' batch s1) as E2. destruct (blocks_of x' batch s1) as [[blocks|e] s2] eqn:Eb;
    simpl in E2; subst s2; [rewrite (M_bind_ok _ _ _ _ _ Eb)|by rewrite (M_bind_err _ _ _ _ _ Eb)].
  destruct (build_transfer_params _ _ _ _ _ _ _ _ _ blocks) as [[[copies errs] msg]|e] eqn:Ep; [|done].
  assert (prepared (c_meta x) (c_local x) (c_remote x) (map fst batch) copies errs msg) as Hprep.
  { apply blocks_of_ok in Eb as [Hfst Hblocks]. exists blocks. split_and!; [done..|].
    pose proof (take_ready_batch _ _ _ _ _ Et) as Hbatch. rewrite Forall_forall in Hbatch.
    eapply Forall_impl; [exact Hblocks|]. intros b (o & m & t & Hin & Hm & Hl & Hd).
    destruct (Hbatch _ Hin) as [Hdone Hp]. simpl in *. apply list_elem_of_In in Hdone. specialize (Hall _ Hdone).
    bool_prop. rewrite Hp in *. simpl in *. destruct (Hpend _ _ (dget_elem _ _ _ Hp)) as (m0 & remote & Hm0 & Hd0).
    rewrite Hm0 in *. pose proof (calm_static _ _ Hcalm o) as Hst. rewrite Hm, Hm0 in Hst. injection Hst as Hs1 Hs2 Hs3 Hs4.
    exists (p_req_id m), (transfer_id m). rewrite Hl. split; [apply (base_object _ Hb o m Hm); congruence|].
    rewrite Hd in Hd0. injection Hd0 as -> _. by rewrite Hs2. }
  change (goes s ((if is_empty copies then end_round c x' batch errs msg
    else modify (set_conn c (with_phase (InFlight batch copies errs msg) x'))) s1)).
  destruct (is_empty copies) eqn:Ec.
  - apply end_round_goes; try done. intros l req _ Hreq Hne. eapply prepared_delivered; try done.
    left. by destruct copies.
  - eapply (acks_set c s); try done. eapply conn_good_keeps; [exact K|]. destruct (Hx' Waiting I). by constructor.
Qed.

Lemma transfer_done_goes c s x batch copies errs msg ret :
  acks s -> conns s !! c = Some x -> c_phase x = InFlight batch copies errs msg ->
  goes s (transfer_done c x batch copies errs msg ret s).
Proof using expands physical_pos ratio_defined run_formed.
  intros Ha Hx Hph. pose proof (proj2 Ha c x Hx) as Hg. pose proof Hg as [Hasked Hacc _ Hprep]. rewrite Hph in Hprep.
  assert (forall p, idle p -> conn_good c s (with_phase p x)) as Hx' by (intros p; by apply conn_good_phase).
  unfold transfer_done. case_if.
  - rewrite (M_bind_ok _ _ s tt (add_log (Wrote c batch copies) s) eq_refl).
    apply end_round_goes; try done; [|exact (keeps_refl s)|].
    + destruct (proj1 Ha). constructor; try done. by apply log_ok_snoc.
    + intros l req Hpre Hreq Hne. eapply prepared_delivered; try done. right. destruct Hpre as [k ->].
      simpl. rewrite <- app_assoc. apply elem_of_app. right. by left.
  - apply end_round_goes; try done; [apply Ha|exact (keeps_refl s)|]. intros l req _ Hreq Hne. destruct Hne.
    destruct (decide (req ∈ errs)); [apply elem_of_app; by left|]. apply elem_of_app. right. by apply list_elem_of_filter.
Qed.

Lemma timeout_goes c s x : acks s -> conns s !! c = Some x -> goes s (timeout c x s).
Proof using Type.
  intros Ha Hx. eapply (acks_set c s); try done; [|exact (keeps_refl s)|].
  - apply base_respond; [apply Ha|]. simpl. by intros ? ?%not_elem_of_nil.
  - apply (conn_good_keeps c s); [exact (keeps_refl s)|]. apply conn_good_phase; [by apply Ha|done].
Qed.

Lemma worker_acks c s m : acks s -> goes s (m s) -> acks (sender_worker c m s).2.
Proof using Type.
  intros Ha H. unfold sender_worker, try_. destruct (m s) as [[[]|e] s1]; [exact H|]. destruct H as (Hb & K & E).
  unfold mbind, M_bind. simpl. rewrite E.
  assert (base (add_log (Responded c (Response ERROR [] [] (Some (exn_msg e)))) s1)) as Hb'.
  { apply base_respond; [done|]. simpl. by intros ? ?%not_elem_of_nil. }
  destruct (conns s !! c) as [x|] eqn:Hx.
  - eapply (acks_set c s); try done. eapply conn_good_keeps; [exact K|]. apply conn_good_phase; [by apply Ha|done].
  - by eapply (acks_same s).
Qed.

(** *** New requests *)

(** The state is as [s0] for the coroutines. *)
Definition stays (s0 s : sender) : Prop := base s /\ keeps_ids s0 s /\ conns s = conns s0.

Lemma stays_calm s0 s s' : stays s0 s -> calm s s' -> stays s0 s'.
Proof.
  intros (Hb & K & E) H. split_and!; [by eapply base_calm| |by rewrite (calm_conns _ _ H)].
  intros o m Hm. destruct (K o m Hm) as (m1 & Hm1 & <-). by apply (calm_keeps _ _ H).
Qed.

Lemma stays_new s0 s req t :
  stays s0 s ->
  let o := fresh (dom (heap s)) in
  stays s0 (set_table (dset (reqs_need_send s) t o) (set_heap (<[o := empty_meta req t]> (heap s)) s)).
Proof using Type.
  clear expands physical_pos ratio_defined run_formed. intros ([Ho Ht Hlog] & K & E) o.
  assert (heap s !! o = None) as Hnone by (apply not_elem_of_dom, is_fresh).
  assert (forall o' m, heap s !! o' = Some m -> <[o := empty_meta req t]> (heap s) !! o' = Some m) as Hold.
  { intros o' m Hm. rewrite lookup_insert_ne; [done|]. congruence. }
  split_and!; [constructor; simpl| |done].
  - intros o' m. destruct (decide (o' = o)) as [->|Hne]; [rewrite lookup_insert_eq; by intros [= <-]|].
    rewrite lookup_insert_ne by done. apply Ho.
  - intros t' o' [[= -> ->]|Hin]%elem_of_dset; [eexists; by rewrite lookup_insert_eq|].
    destruct (Ht _ _ Hin) as (m & Hm & <-). eauto.
  - done.
  - intros o' m Hm. destruct (K o' m Hm) as (m' & Hm' & <-). simpl. eauto.
Qed.

Lemma entry_for_stays s0 s t :
  stays s0 s -> exists o m s', entry_for t s = (Ok o, s') /\ stays s0 s' /\ keeps_ids s s' /\
    heap s' !! o = Some m /\ transfer_id m = t.
Proof using Type.
  intros H. unfold entry_for. erewrite M_bind_ok by reflexivity.
  destruct (dget (reqs_need_send s) t) as [o|] eqn:E.
  - destruct (base_table _ (proj1 H) t o (dget_elem _ _ _ E)) as (m & Hm & Ht).
    exists o, m, s. by split_and!; [| |apply keeps_refl| |].
  - assert (stays s s) as Hs by (split_and!; [apply H|apply keeps_refl|done]).
    pose proof (stays_new _ _ "" t H) as H'. pose proof (stays_new _ _ "" t Hs) as (_ & K & _).
    eexists _, _, _. split_and!; [reflexivity|exact H'|exact K|apply lookup_insert_eq|done].
Qed.

Lemma join_requests_stays s0 reqs s :
  stays s0 s -> exists pending s', join_requests reqs s = (Ok pending, s') /\ stays s0 s' /\ keeps_ids s s' /\
    map fst pending = map fst reqs /\
    forall req o, (req, o) ∈ pending -> exists m blocks, heap s' !! o = Some m /\ (req, (transfer_id m, blocks)) ∈ reqs.
Proof using Type.
  revert s. induction reqs as [|[req [t blocks]] reqs IH]; intros s H; simpl.
  { exists [], s. split_and!; try done; [apply keeps_refl|]. by intros ? ? ?%not_elem_of_nil. }
  destruct (entry_for_stays _ _ t H) as (o & m & s1 & E1 & H1 & K1 & Hm & Ht). rewrite (M_bind_ok _ _ _ _ _ E1).
  destruct (IH s1 H1) as (pending & s2 & E2 & H2 & K2 & Hk & Hp). rewrite (M_bind_ok _ _ _ _ _ E2).
  exists ((req, o) :: pending), s2. split_and!; try done; [| simpl; by rewrite Hk|].
  - intros o' m' Hm'. destruct (K1 _ _ Hm') as (m1 & Hm1 & <-). by apply K2.
  - intros req' o' [[= -> ->]|Hin]%elem_of_cons.
    + destruct (K2 _ _ Hm) as (m2 & Hm2 & Ht2). exists m2, blocks. split; [done|]. rewrite Ht2, Ht. by left.
    + destruct (Hp _ _ Hin) as (m' & b & Hm' & Hin'). exists m', b. split; [done|by right].
Qed.

Lemma send_kv_goes c meta s :
  acks s -> Asked c meta ∈ actions -> goes s (send_kv_to_decode own layer_group_indices topo c meta s).
Proof using run_formed.
  intros Ha Hin. assert (stays s s) as Hs by (split_and!; [apply Ha|apply keeps_refl|done]).
  assert (forall msg, acks (reject_metadata c msg s).2) as Hrej.
  { intros msg. eapply (acks_same s); try done; [|exact (keeps_refl s)].
    apply base_respond; [apply Ha|]. simpl. by intros ? ?%not_elem_of_nil. }
  unfold send_kv_to_decode. destruct (_ || _) eqn:Esize; [apply Hrej|]. bool_prop.
  destruct (negb _); [apply Hrej|]. destruct (if existsb _ _ then _ else None); [apply Hrej|].
  destruct (get_transfer_regions layer_group_indices own) as [l0|] eqn:El; [|exact Hs].
  destruct (get_transfer_regions layer_group_indices meta) as [r0|] eqn:Er; [|exact Hs].
  erewrite !M_bind_ok by reflexivity.
  destruct (align_transfer_regions l0 r0) as [[ls rs]|] eqn:Eal; [|apply Hrej].
  destruct (validate_asymmetric_region_lengths _ _ _ _ _) eqn:Ev; [apply Hrej|].
  destruct (join_requests_stays s (req_blocks meta) s Hs) as (pending & s' & E & (Hb & K & Ec) & _ & Hk & Hp).
  rewrite (M_bind_ok _ _ _ _ _ E). eapply (acks_set c s); try done. constructor; simpl.
  - done.
  - split; [done|]. eauto 10.
  - intros req o Ho. destruct (Hp req o Ho) as (m & blocks & Hm & Hreq). exists m, blocks. split; [done|].
    apply elem_dget; [|done]. rewrite Forall_forall in run_formed. by apply (run_formed _ Hin).
  - by case_if.
Qed.

(** *** The scheduler's side *)

Lemma record_stays s0 now send forget e :
  Recorded now send forget ∈ actions -> e ∈ send ->
  ensures (stays s0) (record_send_req pcp_dummy_sender ABORT_REQUEST_TIMEOUT now e) (fun _ => stays s0) (stays s0).
Proof using Type.
  intros Hrec He s H. destruct e as [req [t blocks]]. unfold record_send_req. case_if.
  - case_if.
    + destruct H as ([Ho Ht Hlog] & K & Ec). split_and!; [constructor; simpl| |done]; try done.
      * intros t' o Hin. apply Ht. eapply elem_of_sublist; [exact Hin|apply ddel_sublist].
      * by apply log_ok_snoc.
    + erewrite M_bind_ok by reflexivity. destruct (dget (reqs_need_send s) t) as [o|] eqn:Ed; [|done].
      destruct H as ([Ho Ht Hlog] & K & Ec). destruct (Ht t o (dget_elem _ _ _ Ed)) as (m & Hm & Htm).
      assert (forall o', transfer_id <$> alter (make_ready req blocks (now + ABORT_REQUEST_TIMEOUT)) o (heap s) !! o' =
        transfer_id <$> heap s !! o') as Hids.
      { intros o'. destruct (decide (o' = o)) as [->|Hne]; [by rewrite lookup_alter_eq, Hm|by rewrite lookup_alter_ne]. }
      assert (keeps_ids s (set_heap (alter (make_ready req blocks (now + ABORT_REQUEST_TIMEOUT)) o (heap s)) s)) as K'.
      { intros o' m' Hm'. specialize (Hids o'). rewrite Hm' in Hids. by apply fmap_Some in Hids as (m2 & ? & ?); exists m2. }
      split_and!; [constructor; simpl| |done]; try done.
      * intros o' m'. destruct (decide (o' = o)) as [->|Hne]; [|rewrite lookup_alter_ne by done; apply Ho].
        rewrite lookup_alter_eq, Hm. intros [= <-] _. simpl. rewrite Htm. by exists now, send, forget.
      * intros t' o' Hin. destruct (Ht t' o' Hin) as (m' & Hm' & <-). by apply K'.
      * intros o' m' Hm'. destruct (K _ _ Hm') as (m1 & Hm1 & <-). by apply K'.
  - erewrite M_bind_ok by reflexivity. destruct (dmem (reqs_need_send s) t); [done|]. by apply (stays_new s0 s req t).
Qed.

Lemma record_acks s now send forget :
  acks s -> Recorded now send forget ∈ actions ->
  acks (record_send_reqs pcp_dummy_sender ABORT_REQUEST_TIMEOUT now send forget s).2.
Proof using Type.
  intros Ha Hin.
  assert (ensures (stays s) (record_send_reqs pcp_dummy_sender ABORT_REQUEST_TIMEOUT now send forget)
    (fun _ => stays s) (stays s)) as H.
  { eapply ensures_bind; [apply ensures_for_each; intros e He; by eapply record_stays|]. intros [].
    apply ensures_for_each. intros t _ s' Hs'. pose proof (stays_calm _ _ _ Hs' (forget_calm t s')) as H.
    by destruct (forget_req t s') as [[[]|] s2]. }
  specialize (H s). destruct (record_send_reqs _ _ _ _ _ s) as [[[]|] s'];
    (destruct H as (? & ? & ?); [split_and!; [apply Ha|apply keeps_refl|done]|by eapply (acks_same s)]).
Qed.

Lemma fetch_acks s now : acks s -> acks ((fetch_finished_sending_reqs now ;; mret tt) s).2.
Proof using Type.
  intros Ha. destruct (goes_calm _ _ Ha (fetch_calm s now)) as (? & ? & ?). by eapply (acks_same s).
Qed.

Abbreviation sender_step := (step own layer_group_indices topo mamba NULL_BLOCK_ID physical_blocks
  map_to_kernel_blocks pcp_dummy_sender ABORT_REQUEST_TIMEOUT).

Lemma step_acks s a s' : acks s -> a ∈ actions -> sender_step s a = Some s' -> acks s'.
Proof using expands physical_pos ratio_defined run_formed.
  intros Ha Hin. unfold step. destruct a as [c meta|c done|c ret|c e|c|now send forget|now]; simpl handler.
  - destruct (conns s !! c) as [x|] eqn:Hx; [done|]. intros [= <-].
    apply worker_acks; [done|]. by apply send_kv_goes.
  - destruct (conns s !! c) as [x|] eqn:Hx; [|done]. simpl. destruct (c_phase x) eqn:Hph; try done.
    destruct (may_wake s x done) eqn:Hw; [|done]. intros [= <-]. apply worker_acks; [done|]. by apply wake_up_goes.
  - destruct (conns s !! c) as [x|] eqn:Hx; [|done]. simpl. destruct (c_phase x) eqn:Hph; try done.
    intros [= <-]. apply worker_acks; [done|]. by apply transfer_done_goes.
  - destruct (conns s !! c) as [x|] eqn:Hx; [|done]. simpl. destruct (c_phase x) eqn:Hph; try done.
    intros [= <-]. refine (worker_acks c s (throw e) Ha _). split_and!; [apply Ha|apply keeps_refl|done].
  - destruct (conns s !! c) as [x|] eqn:Hx; [|done]. simpl. destruct (c_phase x) eqn:Hph; try done.
    intros [= <-]. refine (worker_acks c s (timeout c x) Ha _). by apply timeout_goes.
  - intros [= <-]. by apply record_acks.
  - intros [= <-]. by apply fetch_acks.
Qed.

Lemma run_acks rest s s' :
  acks s -> rest ⊆ actions ->
  run own layer_group_indices topo mamba NULL_BLOCK_ID physical_blocks map_to_kernel_blocks pcp_dummy_sender
    ABORT_REQUEST_TIMEOUT s rest = Some s' -> acks s'.
Proof using expands physical_pos ratio_defined run_formed.
  revert s. induction rest as [|a rest IH]; intros s Ha Hsub; simpl; [by intros [= <-]|].
  destruct (sender_step s a) as [s1|] eqn:E; [|done]. simpl. apply IH.
  - eapply step_acks; [exact Ha| |exact E]. apply Hsub. by left.
  - intros b Hb. apply Hsub. by right.
Qed.

Lemma run_log_ok s :
  run own layer_group_indices topo mamba NULL_BLOCK_ID physical_blocks map_to_kernel_blocks pcp_dummy_sender
    ABORT_REQUEST_TIMEOUT new_sender actions = Some s -> log_ok (log s).
Proof using expands physical_pos ratio_defined run_formed.
  intros Hrun. refine (base_log _ (proj1 (run_acks actions new_sender s _ _ Hrun))); [|done].
  split; [|done]. constructor; try done.
  - by intros t o ?%not_elem_of_nil.
  - intros [|? ?]; done.
Qed.
End acks.

(** ** Each request is acknowledged once *)

(** The requests that the responses to [c] acknowledge *)
Definition answered (c : nat) (l : list sender_event) : list string :=
  flat_map (fun e => match e with Responded c' r => if decide (c' = c) then ok_reqs r else [] | _ => [] end) l.

(** The responses to [c] *)
Definition responses (c : nat) (l : list sender_event) : list MooncakeXferResponse :=
  omap (fun e => match e with Responded c' r => if decide (c' = c) then Some r else None | _ => None end) l.

Lemma answered_responses c l : answered c l = concat (map ok_reqs (responses c l)).
Proof.
  induction l as [|[c' b ds|c' r|o r|r] l IH]; [done|exact IH| |exact IH|exact IH].
  cbn [answered flat_map]. fold (answered c l). rewrite IH. cbn [responses omap list_omap]. by case_decide.
Qed.

Lemma answered_app c l l' : answered c (l ++ l') = answered c l ++ answered c l'.
Proof. apply flat_map_app. Qed.

Lemma answered_releases c l : Forall is_release l -> answered c l = [].
Proof. induction 1 as [|[] l He _ IH]; try done. Qed.

(** The requests that a coroutine may still acknowledge *)
Definition outstanding (x : conn) : list string :=
  match c_phase x with
  | Closed => []
  | Waiting => c_waiting x
  | InFlight batch _ _ _ => map fst batch ++ c_waiting x
  end.

Definition open_of (c : nat) (s : sender) : list string := match conns s !! c with Some x => outstanding x | None => [] end.

Definition turns (s : sender) : Prop :=
  forall c, NoDup (answered c (log s) ++ open_of c s) /\ (conns s !! c = None -> answered c (log s) = []).

(** Coroutine [c] moves from [s] to [s']. *)
Record moved (c : nat) (s s' : sender) : Prop := {
  moved_conns : forall c', c' <> c -> conns s' !! c' = conns s !! c';
  moved_log : exists l, log s' = log s ++ l /\ forall c', c' <> c -> answered c' l = []
}.

Lemma turns_moved c s s' :
  turns s -> moved c s s' -> is_Some (conns s' !! c) -> NoDup (answered c (log s') ++ open_of c s') -> turns s'.
Proof.
  intros Ht [Hc (l & Hl & Ha)] [x Hx] Hnew c'. destruct (decide (c' = c)) as [->|Hne]; [by rewrite Hx|].
  unfold open_of. rewrite Hl, answered_app, Ha, app_nil_r, Hc by done. apply Ht.
Qed.

Lemma NoDup_shrink {A} (a b b' : list A) : NoDup (a ++ b) -> b' `sublist_of` b -> NoDup (a ++ b').
Proof. intros H Hs. eapply sublist_NoDup; [exact H|]. by apply sublist_app. Qed.

Lemma turns_calm s s' : turns s -> calm s s' -> turns s'.
Proof.
  intros Ht [Hc _ _ (l & Hl & Hrel)] c. unfold open_of. rewrite Hl, answered_app, (answered_releases c l Hrel), app_nil_r, Hc.
  apply Ht.
Qed.

(** A response that acknowledges [ok], after steps that are calm *)
Lemma turns_respond c s s1 r x :
  turns s -> calm s s1 -> NoDup (answered c (log s) ++ ok_reqs r ++ outstanding x) ->
  turns (set_conn c x (add_log (Responded c r) s1)).
Proof.
  intros Ht Hcalm Hnd. pose proof (turns_calm _ _ Ht Hcalm) as Ht1. destruct Hcalm as [Hc _ _ (l & Hl & Hrel)].
  eapply (turns_moved c s1); [exact Ht1| |simpl; by rewrite lookup_insert_eq|].
  - constructor; simpl.
    + intros c' Hne. by rewrite lookup_insert_ne.
    + exists [Responded c r]. split; [done|]. intros c' Hne. cbn. by rewrite decide_False.
  - unfold open_of. simpl. rewrite lookup_insert_eq, answered_app. cbn. rewrite decide_True, app_nil_r by done.
    rewrite Hl, answered_app, (answered_releases c l Hrel), app_nil_r, <- app_assoc. exact Hnd.
Qed.

(** The end of the coroutine *)
Lemma turns_close c s s1 x r :
  turns s -> calm s s1 -> ok_reqs r = [] -> turns (set_conn c (with_phase Closed x) (add_log (Responded c r) s1)).
Proof.
  intros Ht Hcalm Hr. eapply turns_respond; [done..|]. rewrite Hr. cbn. eapply NoDup_shrink; [apply (proj1 (Ht c))|].
  apply sublist_nil_l.
Qed.

Lemma turns_refuse c s r : turns s -> ok_reqs r = [] -> turns (add_log (Responded c r) s).
Proof.
  intros Ht Hr c'. unfold open_of. simpl. rewrite answered_app. cbn. destruct (decide (c = c')); rewrite ?Hr, !app_nil_r; apply Ht.
Qed.

Lemma end_round_turns c s s1 x batch errs msg :
  turns s -> calm s s1 -> NoDup (answered c (log s) ++ map fst batch ++ c_waiting x) ->
  match end_round c x batch errs msg s1 with (Ok _, s') => turns s' | (Err _, s') => calm s s' end.
Proof.
  intros Ht Hcalm Hnd. unfold end_round. pose proof (settle_batch_calm errs batch s1) as Hs.
  destruct (settle_batch errs batch s1) as [[[]|e] s2] eqn:E; simpl in Hs.
  2: { rewrite (M_bind_err _ _ _ _ _ E). by etrans. }
  rewrite (M_bind_ok _ _ _ _ _ E).
  eapply turns_respond; [exact Ht|by etrans|]. eapply NoDup_shrink; [exact Hnd|]. simpl.
  apply sublist_app; [apply sublist_filter|]. unfold outstanding. case_if; simpl; [apply sublist_nil_l|done].
Qed.

Lemma take_ready_sublist x done s batch s' : take_ready x done s = (Ok batch, s') -> map fst batch `sublist_of` done.
Proof.
  revert s batch s'. induction done as [|req done IH]; intros s batch s'; simpl; [by intros [= <- _]|].
  destruct (dget (c_pending x) req) as [o|] eqn:Ho; [|done].
  intros (m & s1 & _ & H)%M_bind_inv. apply M_bind_inv in H as (s2 & s3 & _ & H).
  destruct (dmem _ _); [|apply sublist_cons; by eapply IH].
  apply M_bind_inv in H as (u & s4 & _ & H). apply M_bind_inv in H as (u' & s5 & _ & H).
  apply M_bind_inv in H as (more & s6 & Hm & [= <- _]). apply sublist_skip. by eapply IH.
Qed.

(** The requests of a batch leave the list of those waited for. *)
Lemma NoDup_taken (a b w done : list string) :
  NoDup (a ++ w) -> NoDup done -> done ⊆ w -> b `sublist_of` done -> NoDup (a ++ b ++ filter (fun r => r ∉ done) w).
Proof.
  intros Hnd Hdone Hsub Hb. apply NoDup_app in Hnd as (Ha & Hd & Hw).
  assert (b ⊆ done) as Hbd by (intros r Hr; by eapply elem_of_sublist).
  apply NoDup_app. split_and!; [done| |].
  - intros r Hr [Hin|[_ Hin]%list_elem_of_filter]%elem_of_app; [|by apply (Hd r)].
    apply (Hd r Hr). by apply Hsub, Hbd.
  - apply NoDup_app. split_and!; [by eapply sublist_NoDup| |by apply NoDup_filter].
    intros r Hr [Hn _]%list_elem_of_filter. by apply Hn, Hbd.
Qed.

Section turns.
Context (own : MooncakeXferMetadata) (layer_group_indices : dict string Z) (topo : topology).
Context (mamba : list bool) (NULL_BLOCK_ID physical_blocks : Z) (map_to_kernel_blocks : list Z -> Z -> list Z).
Context (pcp_dummy_sender : bool) (ABORT_REQUEST_TIMEOUT : Z).

(** What a handler of coroutine [c] did *)
Definition turned (s : sender) (r : result unit * sender) : Prop :=
  match r with (Ok _, s') => turns s' | (Err _, s') => calm s s' \/ (turns s' /\ conns s' = conns s) end.

Lemma open_at c s x : conns s !! c = Some x -> open_of c s = outstanding x.
Proof. intros H. unfold open_of. by rewrite H. Qed.

Lemma wake_up_turned c s x done :
  turns s -> conns s !! c = Some x -> c_phase x = Waiting -> may_wake s x done = true ->
  turned s (wake_up topo mamba NULL_BLOCK_ID physical_blocks map_to_kernel_blocks c x done s).
Proof using Type.
  intros Ht Hx Hph Hw. apply andb_true_iff in Hw as [[_ Hdone%bool_decide_eq_true]%andb_true_iff Hall].
  rewrite forallb_forall in Hall. pose proof (proj1 (Ht c)) as Hc. rewrite (open_at c s x Hx) in Hc. unfold outstanding in Hc.
  rewrite Hph in Hc.
  unfold wake_up. pose proof (take_ready_calm x done s) as Hcalm. destruct (take_ready x done s) as [[batch|e] s1] eqn:Et;
    simpl in Hcalm; [|rewrite (M_bind_err _ _ _ _ _ Et); by left].
  rewrite (M_bind_ok _ _ _ _ _ Et). set (x' := Conn _ _ _ _ (foldl ddel _ done) _ _).
  assert (NoDup (answered c (log s) ++ map fst batch ++ c_waiting x')) as Hnd.
  { apply NoDup_taken; [done..| |by eapply take_ready_sublist]. intros req Hreq%list_elem_of_In. specialize (Hall req Hreq).
    apply andb_true_iff in Hall as [Hall _]. by apply bool_decide_eq_true in Hall. }
  pose proof (blocks_of_same x' batch s1) as E2. destruct (blocks_of x' batch s1) as [[blocks|e] s2] eqn:Eb;
    simpl in E2; subst s2; [rewrite (M_bind_ok _ _ _ _ _ Eb)|rewrite (M_bind_err _ _ _ _ _ Eb); by left].
  destruct (build_transfer_params _ _ _ _ _ _ _ _ _ blocks) as [[[copies errs] msg]|e] eqn:Ep; [|by left].
  change (turned s ((if is_empty copies then end_round c x' batch errs msg
    else modify (set_conn c (with_phase (InFlight batch copies errs msg) x'))) s1)).
  destruct (is_empty copies).
  - pose proof (end_round_turns c s s1 x' batch errs msg Ht Hcalm Hnd) as H.
    destruct (end_round c x' batch errs msg s1) as [[]]; [exact H|by left].
  - simpl. pose proof (turns_calm _ _ Ht Hcalm) as Ht1. eapply (turns_moved c s1); [exact Ht1| |simpl; by rewrite lookup_insert_eq|].
    + constructor; simpl; [intros c' Hne; by rewrite lookup_insert_ne|]. exists []. by rewrite app_nil_r.
    + unfold open_of. simpl. rewrite lookup_insert_eq. destruct (calm_log _ _ Hcalm) as (l & -> & Hrel).
      by rewrite answered_app, (answered_releases c l Hrel), app_nil_r.
Qed.

Lemma transfer_done_turned c s x batch copies errs msg ret :
  turns s -> conns s !! c = Some x -> c_phase x = InFlight batch copies errs msg ->
  turned s (transfer_done c x batch copies errs msg ret s).
Proof using Type.
  intros Ht Hx Hph. pose proof (proj1 (Ht c)) as Hc. rewrite (open_at c s x Hx) in Hc. unfold outstanding in Hc. rewrite Hph in Hc.
  unfold transfer_done. case_if.
  - rewrite (M_bind_ok _ _ s tt (add_log (Wrote c batch copies) s) eq_refl).
    assert (forall c', answered c' (log s ++ [Wrote c batch copies]) = answered c' (log s)) as Ha.
    { intros c'. rewrite answered_app. apply app_nil_r. }
    assert (turns (add_log (Wrote c batch copies) s)) as Ht1 by (intros c'; simpl; rewrite Ha; apply Ht).
    pose proof (end_round_turns c _ _ x batch errs msg Ht1 (reflexivity _)) as H. simpl in H. rewrite Ha in H.
    specialize (H Hc). destruct (end_round c x batch errs msg _) as [[]]; [exact H|]. right.
    split; [by eapply turns_calm|]. by rewrite (calm_conns _ _ H).
  - match goal with |- turned s (end_round c x batch ?er ?ms s) =>
      pose proof (end_round_turns c s s x batch er ms Ht (reflexivity _) Hc) as H;
      destruct (end_round c x batch er ms s) as [[]]; [exact H|by left] end.
Qed.

Lemma worker_turns c s m : turns s -> turned s (m s) -> turns (sender_worker c m s).2.
Proof using Type.
  intros Ht H. unfold sender_worker, try_. destruct (m s) as [[[]|e] s1]; [exact H|]. simpl in H.
  assert (turns s1) as Ht1 by (destruct H as [H|[H _]]; [by eapply turns_calm|done]).
  unfold mbind, M_bind. simpl. destruct (conns s1 !! c) as [x|] eqn:Hx.
  - by apply (turns_close c s1 s1).
  - by apply turns_refuse.
Qed.

Lemma join_keeps reqs s : (join_requests reqs s).2 = s \/ exists h t, (join_requests reqs s).2 = set_heap h (set_table t s).
Proof using Type.
  assert (forall tid s, (entry_for tid s).2 = s \/ exists h t, (entry_for tid s).2 = set_heap h (set_table t s)) as He.
  { intros tid s0. unfold entry_for, mbind, M_bind, get_state. destruct (dget _ _); [by left|]. right. simpl. eauto. }
  revert s. induction reqs as [|[req [tid bs]] reqs IH]; intros s; simpl; [by left|]. unfold mbind, M_bind.
  specialize (He tid s). destruct (entry_for tid s) as [[o|e] s1]; simpl in He; [|exact He].
  specialize (IH s1). destruct (join_requests reqs s1) as [[p|e] s2]; simpl in *;
    destruct He as [->|(h & t & ->)], IH as [->|(h' & t' & ->)]; eauto.
Qed.
Lemma join_keys reqs s pending : (join_requests reqs s).1 = Ok pending -> dkeys pending = dkeys reqs.
Proof using Type.
  revert s pending. induction reqs as [|[req [tid bs]] reqs IH]; intros s pending; simpl; [by intros [= <-]|].
  unfold mbind, M_bind. destruct (entry_for tid s) as [[o|e] s1]; [|done]. specialize (IH s1).
  destruct (join_requests reqs s1) as [[p|e] s2]; [|done]. simpl. intros [= <-]. cbn. f_equal. by apply IH.
Qed.

Lemma send_kv_turned c meta s :
  turns s -> conns s !! c = None -> NoDup (dkeys (req_blocks meta)) ->
  turned s (send_kv_to_decode own layer_group_indices topo c meta s).
Proof using Type.
  intros Ht Hx Hkeys. assert (forall msg, turned s (reject_metadata c msg s)) as Hrej by (intros msg; by apply turns_refuse).
  unfold send_kv_to_decode. destruct (_ || _); [apply Hrej|].
  destruct (negb _); [apply Hrej|]. destruct (if existsb _ _ then _ else None); [apply Hrej|].
  destruct (get_transfer_regions layer_group_indices own) as [l0|] eqn:El; [|by left].
  destruct (get_transfer_regions layer_group_indices meta) as [r0|] eqn:Er; [|by left].
  erewrite !M_bind_ok by reflexivity.
  destruct (align_transfer_regions l0 r0) as [[ls rs]|]; [|apply Hrej].
  destruct (validate_asymmetric_region_lengths _ _ _ _ _); [apply Hrej|].
  pose proof (join_keeps (req_blocks meta) s) as Hj. pose proof (join_keys (req_blocks meta) s) as Hk.
  destruct (join_requests (req_blocks meta) s) as [[pending|e] s1] eqn:E; simpl in Hj.
  - rewrite (M_bind_ok _ _ _ _ _ E). assert (conns s1 = conns s /\ log s1 = log s) as [Ec Elog].
    { by destruct Hj as [->|(h & t & ->)]. }
    assert (turns s1) as Ht1 by (intros c'; unfold open_of; rewrite Ec, Elog; apply Ht).
    simpl. eapply (turns_moved c s1); [exact Ht1| |simpl; by rewrite lookup_insert_eq|].
    + constructor; simpl; [intros c' Hne; by rewrite lookup_insert_ne|]. exists []. by rewrite app_nil_r.
    + unfold open_of. simpl. rewrite lookup_insert_eq, Elog, (proj2 (Ht c) Hx). simpl. unfold outstanding. simpl.
      rewrite <- (Hk pending eq_refl) in Hkeys. case_if; simpl; [constructor|exact Hkeys].
  - rewrite (M_bind_err _ _ _ _ _ E). right. split; [|by destruct Hj as [->|(h & t & ->)]].
    intros c'. destruct Hj as [->|(h & t & ->)]; apply Ht.
Qed.

Lemma quiet_turns s s' : turns s -> conns s' = conns s -> (forall c, answered c (log s') = answered c (log s)) -> turns s'.
Proof using Type. intros Ht Hc Hl c. unfold open_of. rewrite Hc, Hl. apply Ht. Qed.

Lemma record_turns s now send forget :
  turns s -> turns (record_send_reqs pcp_dummy_sender ABORT_REQUEST_TIMEOUT now send forget s).2.
Proof using Type.
  intros Ht. assert (ensures turns (record_send_reqs pcp_dummy_sender ABORT_REQUEST_TIMEOUT now send forget)
    (fun _ => turns) turns) as H.
  { eapply ensures_bind; [apply ensures_for_each; intros [req [t bs]] _ s1 H1|].
    - unfold record_send_req. case_if; [case_if|]; unfold mbind, M_bind, get_state; simpl.
      + eapply quiet_turns; [exact H1|done|]. intros c. simpl. rewrite answered_app. apply app_nil_r.
      + destruct (dget _ _); simpl; [|exact H1]. by eapply quiet_turns.
      + destruct (dmem _ _); simpl; [exact H1|]. by eapply quiet_turns.
    - intros []. apply ensures_for_each. intros t _ s1 H1. pose proof (turns_calm _ _ H1 (forget_calm t s1)) as H2.
      by destruct (forget_req t s1) as [[]]. }
  specialize (H s Ht). by destruct (record_send_reqs _ _ _ _ _ s) as [[]].
Qed.

Abbreviation sender_step := (step own layer_group_indices topo mamba NULL_BLOCK_ID physical_blocks
  map_to_kernel_blocks pcp_dummy_sender ABORT_REQUEST_TIMEOUT).

Definition asks_dict (a : action) : Prop := match a with Asked _ meta => NoDup (dkeys (req_blocks meta)) | _ => True end.

Lemma step_turns s a s' : turns s -> asks_dict a -> sender_step s a = Some s' -> turns s'.
Proof using Type.
  intros Ht Ha. unfold step. destruct a as [c meta|c done|c ret|c e|c|now send forget|now]; simpl handler.
  - destruct (conns s !! c) as [x|] eqn:Hx; [done|]. intros [= <-].
    apply worker_turns; [done|]. by apply send_kv_turned.
  - destruct (conns s !! c) as [x|] eqn:Hx; [|done]. simpl. destruct (c_phase x) eqn:Hph; try done.
    destruct (may_wake s x done) eqn:Hw; [|done]. intros [= <-]. apply worker_turns; [done|]. by apply wake_up_turned.
  - destruct (conns s !! c) as [x|] eqn:Hx; [|done]. simpl. destruct (c_phase x) eqn:Hph; try done.
    intros [= <-]. apply worker_turns; [done|]. by apply transfer_done_turned.
  - destruct (conns s !! c) as [x|] eqn:Hx; [|done]. simpl. destruct (c_phase x) eqn:Hph; try done.
    intros [= <-]. refine (worker_turns c s (throw e) Ht _). by left.
  - destruct (conns s !! c) as [x|] eqn:Hx; [|done]. simpl. destruct (c_phase x) eqn:Hph; try done.
    intros [= <-]. refine (worker_turns c s (timeout c x) Ht _). by apply (turns_close c s s).
  - intros [= <-]. by apply record_turns.
  - intros [= <-]. eapply turns_calm; [exact Ht|apply fetch_calm].
Qed.

Lemma run_acked_once actions s c :
  Forall asks_dict actions ->
  run own layer_group_indices topo mamba NULL_BLOCK_ID physical_blocks map_to_kernel_blocks pcp_dummy_sender
    ABORT_REQUEST_TIMEOUT new_sender actions = Some s ->
  acked_once (responses c (log s)).
Proof using Type.
  intros Hall Hrun. assert (turns s) as Ht.
  { assert (turns new_sender) as H0 by (intros c'; split; [constructor|done]).
    revert Hrun H0. generalize new_sender. induction Hall as [|a rest Ha _ IH]; intros s0; simpl; [by intros [= <-]|].
    destruct (sender_step s0 a) as [s1|] eqn:E; [|done]. simpl. intros Hrun H0. apply (IH s1 Hrun). by eapply step_turns. }
  unfold acked_once. rewrite <- answered_responses. destruct (Ht c) as [H _]. by apply NoDup_app in H as (? & _ & _).
Qed.
End turns.

(** ** What an acknowledgement means *)

(** C13: in every run of the sender, whatever the order of its events: the
    responses to one query acknowledge each of its requests at most once; and
    when a response acknowledges a request, the consumer's regions were
    accepted, the request was paired with blocks that the scheduler gave for
    its transfer and was not refused, and every byte of the blocks the
    consumer wanted, with the place it comes from, is in a transfer for this
    consumer that the engine completed before the response. *)
Theorem acknowledged_delivered own layer_group_indices topo mamba NULL_BLOCK_ID physical_blocks map_to_kernel_blocks
    pcp_dummy_sender ABORT_REQUEST_TIMEOUT actions s :
  expands_blocks physical_blocks map_to_kernel_blocks -> 0 < physical_blocks ->
  (forall size, 0 < size -> tp_ratio topo size <> 0) -> Forall (well_formed mamba) actions ->
  run own layer_group_indices topo mamba NULL_BLOCK_ID physical_blocks map_to_kernel_blocks pcp_dummy_sender
    ABORT_REQUEST_TIMEOUT new_sender actions = Some s ->
  (forall c, acked_once (responses c (log s))) /\
  forall before c r after req, log s = before ++ Responded c r :: after -> req ∈ ok_reqs r ->
    delivered own layer_group_indices topo mamba NULL_BLOCK_ID physical_blocks map_to_kernel_blocks actions before c req.
Proof.
  intros Hex Hpos Hratio Hwf Hrun. split.
  - intros c. eapply run_acked_once; [|exact Hrun]. eapply Forall_impl; [exact Hwf|]. by intros [].
  - by eapply run_log_ok.
Qed.

Definition both_served : list action := both_ranks_ask ++ [TransferReturned 1 0].

Lemma acknowledged_delivered_witness :
  exists s before r after,
    demo_run new_sender both_served = Some s /\ log s = before ++ Responded 1 r :: after /\ ok_reqs r = ["d1"] /\
    released (log s) = [0%nat] /\ acked_once (responses 1 (log s)) /\
    delivered demo_producer [] demo_topology [false] (-1) 1 demo_kernel both_served before 1 "d1".
Proof.
  destruct (demo_run new_sender both_served) as [s|] eqn:E; [|vm_compute in E; discriminate].
  assert (forall size, 0 < size -> tp_ratio demo_topology size <> 0) as Hratio.
  { intros size Hs. simpl. destruct (Z.eqb_spec size 1); lia. }
  assert (Forall (well_formed [false]) both_served) as Hwf.
  { repeat constructor; simpl; try lia; apply not_elem_of_nil. }
  destruct (acknowledged_delivered demo_producer [] demo_topology [false] (-1) 1 demo_kernel false 480 both_served s
    (fun l => eq_refl) ltac:(lia) Hratio Hwf E) as [Honce H].
  exists s. vm_compute in E. injection E as <-.
  eexists [_; _; _; _], _, []. split_and!; [reflexivity|reflexivity|reflexivity|reflexivity|apply Honce|].
  eapply H; [reflexivity|]. by left.
Defined.
