(* ===== verification/MooncakeReceiver.v ===== *)
(** * The receiving side of the Mooncake connector

    Models the consumer half of [MooncakeConnectorWorker] in
    src/vllm_hcu/distributed/kv_transfer/kv_connector/v1/mooncake/mooncake_connector.py:
    the requests to pull, the queries for the workers of a new engine, the
    tasks that ask one worker each, and the requests reported as received.

    The receiver loop is one thread: the code between two awaits is one step.
    The records of requests are shared by the tasks of all workers, so they are
    objects; objects, tasks and lookups are named by their positions. *)

From S2P Require Import Prelude PyString Tensors MooncakeRegions MooncakeTopology MooncakeSender.
Import Mooncake MooncakeTopology MooncakeSender.
Local Open Scope Z_scope.

Module MooncakeReceiver.

(** ** Data *)

Record PullReqMeta := PullMeta {
  d_req_id : string;
  pull_transfer_id : string;
  pull_block_ids : list (list Z);
  remote_engine_id : string;
  remote_bootstrap_addr : string;
  pull_tasks_count : Z
}.

Definition with_count (n : Z) (m : PullReqMeta) : PullReqMeta :=
  PullMeta (d_req_id m) (pull_transfer_id m) (pull_block_ids m) (remote_engine_id m) (remote_bootstrap_addr m) n.

(** [pull_metas]: the objects of the requests *)
Definition metas := dict string nat.

(** [receive_kv_from_single_worker] *)
Record pull_task := PullTask { t_addr : string; t_metas : metas; t_open : bool }.

(** [handle_new_engine_id]: not started, asking the bootstrap server, waiting
    for another query to it, free to go on, ended *)
Inductive lookup_phase := Scheduled | Asking | Awaiting | Woken | Ended.

#[global] Instance lookup_phase_eq_dec : EqDecision lookup_phase.
Proof. solve_decision. Defined.

Record engine_lookup := EngineLookup {
  k_engine : string;
  k_metas : metas;
  k_addr : string;
  k_phase : lookup_phase
}.

(** What happened: a worker acknowledged a request, a request became ready,
    workers were asked for requests, requests were reported to the scheduler *)
Inductive receiver_event :=
  | Acked (t : nat) (req : string) (o : nat)
  | Ready (o : nat)
  | Pulling (engine : string) (ms : metas) (addrs : list string)
  | Reported (ids : gset string).

Record receiver := Receiver {
  pulls : list PullReqMeta;
  engines : agents;
  pending_bootstrap_queries : gset string;
  lookups : list engine_lookup;
  tasks : list pull_task;
  finished_recving_reqs : gset string;
  kv_load_error : option string;
  events : list receiver_event
}.

Definition set_pulls p s := Receiver p (engines s) (pending_bootstrap_queries s) (lookups s) (tasks s)
  (finished_recving_reqs s) (kv_load_error s) (events s).
Definition set_engines e s := Receiver (pulls s) e (pending_bootstrap_queries s) (lookups s) (tasks s)
  (finished_recving_reqs s) (kv_load_error s) (events s).
Definition set_pending q s := Receiver (pulls s) (engines s) q (lookups s) (tasks s)
  (finished_recving_reqs s) (kv_load_error s) (events s).
Definition set_lookups l s := Receiver (pulls s) (engines s) (pending_bootstrap_queries s) l (tasks s)
  (finished_recving_reqs s) (kv_load_error s) (events s).
Definition set_tasks t s := Receiver (pulls s) (engines s) (pending_bootstrap_queries s) (lookups s) t
  (finished_recving_reqs s) (kv_load_error s) (events s).
Definition set_received f s := Receiver (pulls s) (engines s) (pending_bootstrap_queries s) (lookups s) (tasks s)
  f (kv_load_error s) (events s).
Definition set_error e s := Receiver (pulls s) (engines s) (pending_bootstrap_queries s) (lookups s) (tasks s)
  (finished_recving_reqs s) e (events s).
Definition add_event e s := Receiver (pulls s) (engines s) (pending_bootstrap_queries s) (lookups s) (tasks s)
  (finished_recving_reqs s) (kv_load_error s) (events s ++ [e]).

(** The query that a task sends: the registered caches of the consumer [self]
    and the blocks of its requests *)
Definition query (self : MooncakeXferMetadata) (ps : list PullReqMeta) (ms : metas) : MooncakeXferMetadata :=
  XferMeta (remote_tp_size self) (remote_tp_rank self)
    (map (fun e => (e.1, match ps !! e.2 with
                         | Some m => (pull_transfer_id m, pull_block_ids m)
                         | None => ("", [])
                         end)) ms)
    (kv_caches_base_addr self) (block_lens self) (kv_block_lens self) (registered_layer_names self)
    (registered_layer_indices self) (registered_group_indices self) (num_blocks_per_layer self).

(** ** Responses *)

(** [list(dict.fromkeys(l))] *)
Definition fromkeys (l : list string) : list string :=
  foldl (fun acc x => if bool_decide (x ∈ acc) then acc else acc ++ [x]) [] l.

(** One acknowledged request *)
Definition acknowledge (t : nat) (ms : metas) (req : string) : M receiver unit :=
  o ← lift (lookup ms req);
  s ← get_state;
  match pulls s !! o with
  | None => raise AttributeError ""
  | Some m =>
      modify (set_pulls (<[o := with_count (pull_tasks_count m - 1) m]> (pulls s))) ;;
      modify (add_event (Acked t req o)) ;;
      if pull_tasks_count m - 1 =? 0 then
        modify (fun s => set_received (finished_recving_reqs s ∪ {[d_req_id m]}) s) ;;
        modify (add_event (Ready o))
      else mret tt
  end.

Definition process_pulling_result (t : nat) (r : MooncakeXferResponse) (ms : metas) : M receiver unit :=
  if negb (is_empty (err_reqs r)) then modify (set_error (Some ("Mooncake KV receive failed" +:+ default "" (err_msg r))))
  else for_each (fromkeys (ok_reqs r ++ err_reqs r)) (acknowledge t ms).

(** [_fail_pull_metas] *)
Definition fail_pull_metas (t : nat) (ms : metas) (msg : string) : M receiver unit :=
  process_pulling_result t (Response ERROR [] (dkeys ms) (Some msg)) ms.

Definition close_task (t : nat) : M receiver unit :=
  modify (fun s => set_tasks (alter (fun x => PullTask (t_addr x) (t_metas x) false) t (tasks s)) s).

(** A message of the worker that task [t] asked *)
Definition receive_answer (t : nat) (x : pull_task) (r : MooncakeXferResponse) : M receiver unit :=
  try_
    (match status r with
     | ERROR =>
         process_pulling_result t (if is_empty (err_reqs r) then Response ERROR [] (dkeys (t_metas x)) (err_msg r) else r)
           (t_metas x) ;;
         close_task t
     | FINISH => process_pulling_result t r (t_metas x) ;; close_task t
     | CONTINUE => process_pulling_result t r (t_metas x)
     end)
    (fun e => fail_pull_metas t (t_metas x) (exn_msg e) ;; close_task t).

(** ** Asking the workers *)

Section worker.
Context (topo : topology) (pp_rank pp_size : Z).

Definition set_counts (n : Z) (ms : metas) (l : list PullReqMeta) : list PullReqMeta :=
  foldl (fun l o => alter (with_count n) o l) l (dvalues ms).

Definition receive_kv (engine : string) (ms : metas) : M receiver unit :=
  s ← get_state;
  addrs ← lift (fan_out topo pp_rank pp_size (engines s) engine);
  modify (fun s => set_pulls (set_counts (zlen addrs) ms (pulls s)) s) ;;
  modify (fun s => set_tasks (tasks s ++ map (fun addr => PullTask addr ms true) addrs) s) ;;
  modify (add_event (Pulling engine ms addrs)).

Definition set_phase (k : nat) (p : lookup_phase) : M receiver unit :=
  modify (fun s => set_lookups (alter (fun x => EngineLookup (k_engine x) (k_metas x) (k_addr x) p) k (lookups s)) s).

(** [handle_new_engine_id] up to its await *)
Definition lookup_runs (k : nat) (x : engine_lookup) : M receiver unit :=
  match k_metas x with
  | [] => set_phase k Ended ;; raise (OtherError "StopIteration") ""
  | _ =>
      s ← get_state;
      if bool_decide (k_addr x ∈ pending_bootstrap_queries s) then set_phase k Awaiting
      else
        modify (set_pending (pending_bootstrap_queries s ∪ {[k_addr x]})) ;;
        set_phase k Asking
  end.

(** The rest of [handle_new_engine_id] *)
Definition lookup_ends (k : nat) (x : engine_lookup) : M receiver unit :=
  set_phase k Ended ;;
  s ← get_state;
  if negb (dmem (remote_agents (engines s)) (k_engine x)) then
    fail_pull_metas 0 (k_metas x) ("engine_id " +:+ k_engine x +:+ " not found at " +:+ k_addr x)
  else receive_kv (k_engine x) (k_metas x).

Definition wake (addr : string) (x : engine_lookup) : engine_lookup :=
  match k_phase x with
  | Awaiting => if bool_decide (k_addr x = addr) then EngineLookup (k_engine x) (k_metas x) (k_addr x) Woken else x
  | _ => x
  end.

(** The query of lookup [k] returned *)
Definition query_returned (k : nat) (x : engine_lookup) (answer : option server) : M receiver unit :=
  modify (fun s => set_engines (connect_to_prefiller_bootstrap answer (engines s)).2 s) ;;
  modify (fun s => set_lookups (map (wake (k_addr x)) (lookups s)) s) ;;
  modify (fun s => set_pending (pending_bootstrap_queries s ∖ {[k_addr x]}) s) ;;
  lookup_ends k x.

(** The requests of one engine: their records become objects. *)
Definition new_metas (reqs : list (string * PullReqMeta)) : M receiver metas :=
  s ← get_state;
  modify (set_pulls (pulls s ++ map snd reqs)) ;;
  mret (zip (map fst reqs) (seq (length (pulls s)) (length reqs))).

Definition start_load_engine (e : string * list (string * PullReqMeta)) : M receiver unit :=
  ms ← new_metas e.2;
  s ← get_state;
  if negb (dmem (remote_agents (engines s)) e.1) then
    modify (fun s => set_lookups (lookups s ++
      [EngineLookup e.1 ms (default "" (remote_bootstrap_addr <$> head (map snd e.2))) Scheduled]) s)
  else receive_kv e.1 ms.

(** [_start_load_kv] *)
Definition start_load_kv (reqs_to_recv : list (string * list (string * PullReqMeta))) : M receiver unit :=
  for_each reqs_to_recv start_load_engine.

Definition fetch_finished_recving_reqs : M receiver (gset string) :=
  s ← get_state;
  match kv_load_error s with
  | Some msg => raise RuntimeError msg
  | None =>
      modify (set_received ∅) ;;
      modify (add_event (Reported (finished_recving_reqs s))) ;;
      mret (finished_recving_reqs s)
  end.

(** ** Steps *)

Inductive receiver_action :=
  | Loaded (reqs_to_recv : list (string * list (string * PullReqMeta)))
  | LookupRuns (k : nat)
  | QueryReturned (k : nat) (answer : option server)
  | LookupResumes (k : nat)
  | Answered (t : nat) (r : MooncakeXferResponse)
  | PullRaised (t : nat) (e : exn)
  | PullTerminated (t : nat)
  | FetchedReceived.

Definition handle (s : receiver) (a : receiver_action) : option (M receiver unit) :=
  match a with
  | Loaded reqs => Some (start_load_kv reqs)
  | LookupRuns k => x ← lookups s !! k; match k_phase x with Scheduled => Some (lookup_runs k x) | _ => None end
  | QueryReturned k answer =>
      x ← lookups s !! k; match k_phase x with Asking => Some (query_returned k x answer) | _ => None end
  | LookupResumes k => x ← lookups s !! k; match k_phase x with Woken => Some (lookup_ends k x) | _ => None end
  | Answered t r => x ← tasks s !! t; if t_open x then Some (receive_answer t x r) else None
  | PullRaised t e =>
      x ← tasks s !! t;
      if t_open x then Some (fail_pull_metas t (t_metas x) (exn_msg e) ;; close_task t) else None
  | PullTerminated t => x ← tasks s !! t; if t_open x then Some (close_task t) else None
  | FetchedReceived => Some (fetch_finished_recving_reqs ;; mret tt)
  end.

Definition receiver_step (s : receiver) (a : receiver_action) : option receiver := h ← handle s a; Some (h s).2.

Fixpoint receiver_run (s : receiver) (actions : list receiver_action) : option receiver :=
  match actions with
  | [] => Some s
  | a :: rest => s' ← receiver_step s a; receiver_run s' rest
  end.

Definition new_receiver : receiver := Receiver [] (Agents [] [] []) ∅ [] [] ∅ None [].

(** The states the receiver reaches, with the actions so far *)
Inductive receives : list receiver_action -> receiver -> Prop :=
  | receives_new : receives [] new_receiver
  | receives_step past s a s' : receives past s -> receiver_step s a = Some s' -> receives (past ++ [a]) s'.
End worker.
End MooncakeReceiver.
