(* ===== verification/MooncakeReceiverCorrect.v ===== *)
(** * A request is received when every worker that was asked has said so

    About MooncakeReceiver.v: the counter of a request against the tasks that
    ask for it and the acknowledgements they got. *)

From S2P Require Import Prelude PyString Tensors MooncakeRegions MooncakeTopology MooncakeTopologyCorrect MooncakeSender MooncakeSenderCorrect MooncakeReceiver.
Import Mooncake MooncakeTopology MooncakeSender MooncakeReceiver.
Local Open Scope Z_scope.

(** ** The tasks of a request and its acknowledgements *)

Lemma map_lookup_eq {A B} (f : A -> B) l (i : nat) : map f l !! i = f <$> l !! i.
Proof. apply list_lookup_fmap. Qed.

Definition asks_for (o : nat) (x : pull_task) : bool := bool_decide (o ∈ dvalues (t_metas x)).

(** The tasks that ask for the request, by position *)
Definition tasks_of (o : nat) (l : list pull_task) : list nat :=
  filter (fun t => asks_for o <$> l !! t = Some true) (seq 0 (length l)).

(** The tasks that acknowledged it *)
Definition acks_of (o : nat) (l : list receiver_event) : list nat :=
  omap (fun e => match e with Acked t _ o' => if decide (o' = o) then Some t else None | _ => None end) l.

Lemma elem_tasks_of o l t : t ∈ tasks_of o l <-> exists x, l !! t = Some x /\ o ∈ dvalues (t_metas x).
Proof.
  unfold tasks_of. rewrite list_elem_of_filter. split.
  - intros [H _]. apply fmap_Some in H as (x & Hx & H). exists x. split; [done|]. symmetry in H.
    by apply bool_decide_eq_true in H.
  - intros (x & Hx & Ho). split.
    + rewrite Hx. simpl. unfold asks_for. by rewrite bool_decide_eq_true_2.
    + apply lookup_lt_Some in Hx. apply list_elem_of_In, in_seq. lia.
Qed.

Lemma NoDup_tasks_of o l : NoDup (tasks_of o l).
Proof. apply NoDup_filter, NoDup_seq. Qed.

(** What a task asks for does not change. *)
Lemma tasks_of_same o l l' : map t_metas l = map t_metas l' -> tasks_of o l = tasks_of o l'.
Proof.
  intros H. assert (length l = length l') as Hlen by (rewrite <- (length_map t_metas l), H; apply length_map).
  unfold tasks_of. rewrite Hlen. apply list_filter_iff. intros t.
  assert (forall l0 : list pull_task, asks_for o <$> l0 !! t = (fun ms => bool_decide (o ∈ dvalues ms)) <$> map t_metas l0 !! t) as E.
  { intros l0. rewrite map_lookup_eq. by destruct (l0 !! t). }
  by rewrite !E, H.
Qed.

Lemma filter_ext_in {A} (P Q : A -> Prop) `{forall x, Decision (P x), forall x, Decision (Q x)} (l : list A) :
  (forall x, x ∈ l -> P x <-> Q x) -> filter P l = filter Q l.
Proof.
  induction l as [|x l IH]; intros Hl; [done|]. rewrite !filter_cons.
  assert (filter P l = filter Q l) as E by (apply IH; intros y Hy; apply Hl; by right).
  destruct (decide (P x)) as [HP|HP], (decide (Q x)) as [HQ|HQ]; rewrite ?E; try done;
    rewrite Hl in HP by (by left); done.
Qed.

Lemma tasks_of_app o l ms addrs :
  tasks_of o (l ++ map (fun addr => PullTask addr ms true) addrs) =
    tasks_of o l ++ (if decide (o ∈ dvalues ms) then seq (length l) (length addrs) else []).
Proof.
  unfold tasks_of. rewrite length_app, length_map, seq_app, filter_app. simpl. f_equal.
  - apply filter_ext_in. intros t Ht%list_elem_of_In%in_seq. by rewrite lookup_app_l by lia.
  - assert (forall t, t ∈ seq (length l) (length addrs) ->
      asks_for o <$> (l ++ map (fun addr => PullTask addr ms true) addrs) !! t = Some (bool_decide (o ∈ dvalues ms))) as H.
    { intros t Ht%list_elem_of_In%in_seq. rewrite lookup_app_r by lia. rewrite map_lookup_eq.
      destruct (lookup_lt_is_Some_2 addrs (t - length l)) as [a ->]; [lia|]. done. }
    case_decide as Ho.
    + rewrite (bool_decide_eq_true_2 _ Ho) in H. revert H. generalize (seq (length l) (length addrs)). intros k H.
      induction k as [|t k IH]; [done|]. rewrite filter_cons, decide_True by (apply H; by left). f_equal.
      apply IH. intros t' Ht'. apply H. by right.
    + rewrite (bool_decide_eq_false_2 _ Ho) in H. revert H. generalize (seq (length l) (length addrs)). intros k H.
      induction k as [|t k IH]; [done|]. rewrite filter_cons, decide_False by (rewrite H; [done|by left]).
      apply IH. intros t' Ht'. apply H. by right.
Qed.

Lemma acks_of_app o l l' : acks_of o (l ++ l') = acks_of o l ++ acks_of o l'.
Proof. apply omap_app. Qed.

Lemma elem_acks_of o l t : t ∈ acks_of o l <-> exists req, Acked t req o ∈ l.
Proof.
  unfold acks_of. rewrite list_elem_of_omap. split.
  - intros ([t' req o'| | |] & Hin & H); try done. case_decide; [|done]. simplify_eq. eauto.
  - intros (req & Hin). exists (Acked t req o). split; [done|]. by rewrite decide_True.
Qed.

(** ** The invariant *)

(** The requests of the lookups that have not ended *)
Definition live_objects (l : list engine_lookup) : list nat :=
  flat_map (fun x => match k_phase x with Ended => [] | _ => dvalues (k_metas x) end) l.

(** The addresses that a request was asked from *)
Definition addrs_of (o : nat) (l : list pull_task) : list string := omap (fun t => t_addr <$> l !! t) (tasks_of o l).

(** A request with the id became ready. *)
Definition was_ready (s : receiver) (d : string) : Prop :=
  exists o m, Ready o ∈ events s /\ pulls s !! o = Some m /\ d_req_id m = d.

(** [said t] are the requests that the worker of task [t] acknowledged. *)
Record rinv (said : nat -> list string) (s : receiver) : Prop := {
  ri_count : forall o m, pulls s !! o = Some m -> tasks_of o (tasks s) <> [] ->
    pull_tasks_count m = zlen (tasks_of o (tasks s)) - zlen (acks_of o (events s));
  ri_acks : forall o, NoDup (acks_of o (events s));
  ri_acked : forall t req o, Acked t req o ∈ events s ->
    req ∈ said t /\ exists x, tasks s !! t = Some x /\ (req, o) ∈ t_metas x;
  ri_ready : forall o, Ready o ∈ events s ->
    tasks_of o (tasks s) <> [] /\ zlen (acks_of o (events s)) = zlen (tasks_of o (tasks s));
  ri_task : forall t x, tasks s !! t = Some x ->
    NoDup (dvalues (t_metas x)) /\ Forall (fun o => (o < length (pulls s))%nat) (dvalues (t_metas x));
  ri_live_once : NoDup (live_objects (lookups s));
  ri_live : forall o, o ∈ live_objects (lookups s) -> (o < length (pulls s))%nat /\ tasks_of o (tasks s) = [];
  ri_done : forall d, d ∈ finished_recving_reqs s \/ (exists ids, Reported ids ∈ events s /\ d ∈ ids) -> was_ready s d;
  ri_pulling : forall o, tasks_of o (tasks s) <> [] ->
    exists engine ms, Pulling engine ms (addrs_of o (tasks s)) ∈ events s /\ o ∈ dvalues ms
}.

(** The tasks that acknowledged a request are among those that ask for it. *)
Lemma acks_sub said s o : rinv said s -> acks_of o (events s) ⊆ tasks_of o (tasks s).
Proof.
  intros H t (req & Hin)%elem_acks_of. destruct (ri_acked _ _ H _ _ _ Hin) as (_ & x & Hx & Ho).
  apply elem_tasks_of. exists x. split; [done|]. apply list_elem_of_fmap. by exists (req, o).
Qed.

Lemma acks_le said s o : rinv said s -> (length (acks_of o (events s)) <= length (tasks_of o (tasks s)))%nat.
Proof.
  intros H. apply submseteq_length, NoDup_submseteq; [apply (ri_acks _ _ H)|by eapply acks_sub].
Qed.

Lemma addrs_of_same o l l' : map t_metas l = map t_metas l' -> map t_addr l = map t_addr l' -> addrs_of o l = addrs_of o l'.
Proof.
  intros Hm Ha. unfold addrs_of. rewrite (tasks_of_same o l l' Hm).
  assert (forall t, t_addr <$> l !! t = t_addr <$> l' !! t) as E by (intros t; by rewrite <- !map_lookup_eq, Ha).
  induction (tasks_of o l') as [|t k IH]; [done|]. cbn. rewrite E. by rewrite IH.
Qed.

(** Changes that the invariant does not see *)
Lemma rinv_frame said said' s s' :
  rinv said s -> (forall t, said t ⊆ said' t) -> pulls s' = pulls s -> events s' = events s ->
  map t_metas (tasks s') = map t_metas (tasks s) -> map t_addr (tasks s') = map t_addr (tasks s) ->
  (forall o, o ∈ live_objects (lookups s') -> o ∈ live_objects (lookups s)) -> NoDup (live_objects (lookups s')) ->
  finished_recving_reqs s' ⊆ finished_recving_reqs s -> rinv said' s'.
Proof.
  intros [] Hsaid Hp He Hm Ha Hl Hnd Hf.
  assert (forall t x', tasks s' !! t = Some x' -> exists x, tasks s !! t = Some x /\ t_metas x = t_metas x') as Hback.
  { intros t x' Hx'. assert (t_metas <$> tasks s !! t = Some (t_metas x')) as H.
    { by rewrite <- map_lookup_eq, <- Hm, map_lookup_eq, Hx'. }
    apply fmap_Some in H as (x & Hx & ->). eauto. }
  constructor; rewrite ?Hp, ?He; intros *; rewrite ?(tasks_of_same _ _ _ Hm), ?(addrs_of_same _ _ _ Hm Ha); auto.
  - intros Hin. destruct (ri_acked0 _ _ _ Hin) as (Hreq & x & Hx & Ho). split; [by apply Hsaid|].
    assert (t_metas <$> tasks s' !! t = Some (t_metas x)) as H.
    { by rewrite <- map_lookup_eq, Hm, map_lookup_eq, Hx. }
    apply fmap_Some in H as (x' & Hx' & E). exists x'. rewrite <- E. done.
  - intros Hx. destruct (Hback _ _ Hx) as (x0 & Hx0 & <-). by apply (ri_task0 t).
  - unfold was_ready. rewrite Hp, He. intros [Hin|Hin]; apply ri_done0; [left; by apply Hf|by right].
Qed.

(** ** Acknowledgements *)

Lemma NoDup_value (ms : metas) r r' o : NoDup (dvalues ms) -> (r, o) ∈ ms -> (r', o) ∈ ms -> r = r'.
Proof.
  induction ms as [|[r0 o0] ms IH]; cbn; [by intros _ ?%not_elem_of_nil|].
  intros [Hni Hnd]%NoDup_cons [Heq|Hin]%elem_of_cons [Heq'|Hin']%elem_of_cons; simplify_eq; auto;
    destruct Hni; apply list_elem_of_fmap; by eexists (_, _).
Qed.

(** The state after the acknowledgement of [o] *)
Definition acked_state (t : nat) (req : string) (o : nat) (m : PullReqMeta) (s : receiver) : receiver :=
  let s1 := add_event (Acked t req o) (set_pulls (<[o := with_count (pull_tasks_count m - 1) m]> (pulls s)) s) in
  if pull_tasks_count m - 1 =? 0
  then add_event (Ready o) (set_received (finished_recving_reqs s1 ∪ {[d_req_id m]}) s1) else s1.

Lemma acked_fields t req o m s :
  let s' := acked_state t req o m s in
  pulls s' = <[o := with_count (pull_tasks_count m - 1) m]> (pulls s) /\ tasks s' = tasks s /\ lookups s' = lookups s /\
  events s' = events s ++ Acked t req o :: (if pull_tasks_count m - 1 =? 0 then [Ready o] else []) /\
  finished_recving_reqs s' = finished_recving_reqs s ∪ (if pull_tasks_count m - 1 =? 0 then {[d_req_id m]} else ∅).
Proof.
  unfold acked_state. case_if; simpl; split_and!; try done.
  - by rewrite <- app_assoc.
  - by rewrite union_empty_r_L.
Qed.

Lemma acks_of_acked o' t req o (b : bool) l :
  acks_of o' (l ++ Acked t req o :: (if b then [Ready o] else [])) = acks_of o' l ++ (if decide (o = o') then [t] else []).
Proof. rewrite acks_of_app. f_equal. cbn. case_decide; by destruct b. Qed.

Section acked.
Context (said : nat -> list string) (s : receiver) (t : nat) (x : pull_task) (req : string) (o : nat) (m : PullReqMeta).
Context (H : rinv said s) (Hx : tasks s !! t = Some x) (Ho : (req, o) ∈ t_metas x) (Hm : pulls s !! o = Some m).
Context (Hnot : Acked t req o ∉ events s).
Abbreviation s' := (acked_state t req o m s).

Lemma acked_task : t ∈ tasks_of o (tasks s).
Proof using Hx Ho. apply elem_tasks_of. exists x. split; [done|]. apply list_elem_of_fmap. by exists (req, o). Qed.

(** The task had not acknowledged the request before, so the request was not
    ready. *)
Lemma acked_first : t ∉ acks_of o (events s).
Proof using H Hx Ho Hnot.
  intros (req' & Hin')%elem_acks_of. destruct (ri_acked _ _ H _ _ _ Hin') as (_ & x' & Hx' & Ho').
  rewrite Hx in Hx'. injection Hx' as <-. destruct (ri_task _ _ H t x Hx) as [Hnd _].
  rewrite (NoDup_value _ _ _ _ Hnd Ho' Ho) in Hin'. done.
Qed.

Lemma acked_not_ready : Ready o ∉ events s.
Proof using H Hx Ho Hnot.
  intros Hold. destruct (ri_ready _ _ H o Hold) as [_ Heq]. pose proof acked_task as Hin.
  assert (acks_of o (events s) ≡ₚ tasks_of o (tasks s)) as Hperm.
  { apply submseteq_length_Permutation; [apply NoDup_submseteq; [apply (ri_acks _ _ H)|by eapply acks_sub]|].
    unfold zlen in Heq. lia. }
  rewrite <- Hperm in Hin. by apply acked_first.
Qed.

Lemma acked_count : pull_tasks_count m = zlen (tasks_of o (tasks s)) - zlen (acks_of o (events s)).
Proof using H Hx Ho Hm.
  apply (ri_count _ _ H); [done|]. intros E. pose proof acked_task as Hin. rewrite E in Hin. by apply not_elem_of_nil in Hin.
Qed.

(** Nothing new in the events but the acknowledgement and [Ready]. *)
Lemma acked_events e :
  e ∈ events s' -> e ∈ events s \/ e = Acked t req o \/ e = Ready o /\ pull_tasks_count m - 1 = 0.
Proof using Type.
  clear. destruct (acked_fields t req o m s) as (_ & _ & _ & -> & _). rewrite elem_of_app, elem_of_cons.
  intros [?|[?|He]]; [by left|auto|]. revert He. case_if; [intros ->%list_elem_of_singleton; auto|].
  by intros ?%not_elem_of_nil.
Qed.

Lemma acked_kept e : e ∈ events s -> e ∈ events s'.
Proof using Type.
  clear. intros He. destruct (acked_fields t req o m s) as (_ & _ & _ & -> & _). apply elem_of_app. by left.
Qed.

Lemma acked_was_ready d : was_ready s d -> was_ready s' d.
Proof using Hm.
  clear -Hm. intros (o' & m' & Hr & Hm' & <-). destruct (acked_fields t req o m s) as (Hp & _).
  exists o'. destruct (decide (o = o')) as [<-|Hne].
  - eexists. rewrite Hp, list_lookup_insert_eq by (by eapply lookup_lt_Some). split_and!; [by apply acked_kept|done|].
    simpl. congruence.
  - exists m'. rewrite Hp, list_lookup_insert_ne by done. split; [by apply acked_kept|done].
Qed.

Lemma acked_done d :
  d ∈ finished_recving_reqs s' \/ (exists ids, Reported ids ∈ events s' /\ d ∈ ids) -> was_ready s' d.
Proof using H Hm.
  destruct (acked_fields t req o m s) as (Hp & _ & _ & He & Hf). intros [Hd|(ids & Hin & Hd)].
  - rewrite Hf in Hd. apply elem_of_union in Hd as [Hd|Hd].
    + apply acked_was_ready, (ri_done _ _ H). by left.
    + revert Hd. case_if; [|by intros ?%elem_of_empty]. intros ->%elem_of_singleton. exists o. eexists.
      rewrite Hp, list_lookup_insert_eq by (by eapply lookup_lt_Some). split_and!; [|done|done].
      rewrite He, ?E. simpl. apply elem_of_app. right. right. by left.
  - apply acked_events in Hin as [Hin|[?|[? _]]]; try done. apply acked_was_ready, (ri_done _ _ H). eauto.
Qed.

Lemma rinv_acked : req ∈ said t -> rinv said s'.
Proof using H Hx Ho Hm Hnot.
  intros Hreq. destruct (acked_fields t req o m s) as (Hp & Ht & Hl & He & Hf).
  assert (length (pulls s') = length (pulls s)) as Hlen by (rewrite Hp; apply length_insert).
  pose proof acked_count as Hcount.
  constructor; [| | | | |rewrite Hl; apply H|rewrite Hl, Ht, Hlen; apply H|exact acked_done|].
  - rewrite Hp, Ht, He. intros o' m' Hm' Hne'. rewrite acks_of_acked. destruct (decide (o = o')) as [<-|Hoo].
    + rewrite list_lookup_insert_eq in Hm' by (by eapply lookup_lt_Some). injection Hm' as <-. simpl.
      rewrite zlen_app. unfold zlen at 3. simpl. lia.
    + rewrite list_lookup_insert_ne in Hm' by done. rewrite app_nil_r. by apply (ri_count _ _ H).
  - rewrite He. intros o'. rewrite acks_of_acked. case_decide; [|rewrite app_nil_r; apply (ri_acks _ _ H)].
    subst o'. apply NoDup_app. split_and!; [apply (ri_acks _ _ H)| |apply NoDup_singleton].
    intros t' Ht' ->%list_elem_of_singleton. by apply acked_first.
  - rewrite Ht. intros t' req' o' [Hin|[[= -> -> ->]|[? _]]]%acked_events; [by apply (ri_acked _ _ H)| |done].
    split; [done|by exists x].
  - rewrite Ht. intros o' Ho'. rewrite He, acks_of_acked. apply acked_events in Ho' as [Hold|[?|[[= ->] Hz]]]; [|done|].
    + destruct (decide (o = o')) as [<-|Hoo]; [by destruct acked_not_ready|]. rewrite app_nil_r. by apply (ri_ready _ _ H).
    + rewrite decide_True, zlen_app by done. split; [|unfold zlen at 2; simpl; lia].
      intros E. pose proof acked_task as Hin. rewrite E in Hin. by apply not_elem_of_nil in Hin.
  - rewrite Ht. intros t' x' Hx'. rewrite Hlen. by apply (ri_task _ _ H t').
  - rewrite Ht. intros o' Ho'. destruct (ri_pulling _ _ H o' Ho') as (engine & ms & Hin & Hms).
    exists engine, ms. split; [by apply acked_kept|done].
Qed.
End acked.

(** ** Responses *)

Lemma fromkeys_spec l : NoDup (fromkeys l) /\ forall x, x ∈ fromkeys l <-> x ∈ l.
Proof.
  unfold fromkeys. assert (forall acc, NoDup acc ->
    let k := foldl (fun acc x => if bool_decide (x ∈ acc) then acc else acc ++ [x]) acc l in
    NoDup k /\ forall x, x ∈ k <-> x ∈ acc \/ x ∈ l) as H.
  { induction l as [|y l IH]; intros acc Hacc; simpl; [split; [done|]; intros x; split; [by left|by intros [?|?%not_elem_of_nil]]|].
    case_bool_decide as Hy.
    - destruct (IH acc Hacc) as [Hnd Hin]. split; [done|]. intros x. rewrite Hin, elem_of_cons. naive_solver.
    - destruct (IH (acc ++ [y])) as [Hnd Hin].
      + apply NoDup_app. split_and!; [done| |apply NoDup_singleton]. by intros z Hz ->%list_elem_of_singleton.
      + split; [done|]. intros x. rewrite Hin, elem_of_app, list_elem_of_singleton, elem_of_cons. tauto. }
  destruct (H [] (NoDup_nil_2)) as [Hnd Hin]. split; [done|]. intros x. rewrite Hin. 
  split; [intros [?%not_elem_of_nil|?]; done|by right].
Qed.

(** The state of the receiver while task [t] reads an answer *)
Definition reading said (ts : list pull_task) (l : list engine_lookup) (s : receiver) : Prop :=
  rinv said s /\ tasks s = ts /\ lookups s = l.

Lemma acknowledge_reading said ts l t x reqs s :
  reading said ts l s -> ts !! t = Some x -> NoDup reqs -> (forall req, req ∈ reqs -> req ∈ said t) ->
  (forall req o, req ∈ reqs -> Acked t req o ∉ events s) ->
  reading said ts l (for_each reqs (acknowledge t (t_metas x)) s).2.
Proof.
  intros Hs Hx. revert s Hs. induction reqs as [|req reqs IH]; intros s Hs Hnd Hsaid Hnot; [done|].
  apply NoDup_cons in Hnd as [Hni Hnd]. simpl. pose proof Hs as (H & Ht & Hl).
  destruct (dget (t_metas x) req) as [o|] eqn:Ho.
  2: { unfold mbind, M_bind, acknowledge, lift, lookup. by rewrite Ho. }
  assert (tasks s !! t = Some x) as Hx' by (by rewrite Ht).
  destruct (ri_task _ _ H t x Hx') as [_ Hlt]. rewrite Forall_forall in Hlt.
  destruct (lookup_lt_is_Some_2 (pulls s) o) as [m Hm].
  { apply Hlt, list_elem_of_fmap. exists (req, o). split; [done|]. by apply dget_elem. }
  assert (acknowledge t (t_metas x) req s = (Ok tt, acked_state t req o m s)) as E.
  { unfold acknowledge, acked_state, mbind, M_bind, lift, lookup, get_state. rewrite Ho. cbn beta iota. rewrite Hm.
    unfold modify, mret, M_ret. cbn beta iota. by case_if. }
  rewrite (M_bind_ok _ _ _ _ _ E). destruct (acked_fields t req o m s) as (_ & Ht' & Hl' & _ & _).
  assert (rinv said (acked_state t req o m s)) as H1.
  { eapply rinv_acked; [exact H|exact Hx'|by apply dget_elem|exact Hm| |].
    - apply Hnot. by left.
    - apply Hsaid. by left. }
  apply IH; [|done| |].
  - split_and!; [exact H1|by rewrite Ht'|by rewrite Hl'].
  - intros req' Hreq'. apply Hsaid. by right.
  - intros req' o' Hreq' Hin. apply acked_events in Hin as [Hin|[[= -> _]|[? _]]]; [|done|done].
    by apply (Hnot req' o'); [right|].
Qed.

Lemma process_reading said ts l t x r s :
  reading said ts l s -> ts !! t = Some x ->
  (err_reqs r = [] -> forall req, req ∈ ok_reqs r -> req ∈ said t /\ forall o, Acked t req o ∉ events s) ->
  reading said ts l (process_pulling_result t r (t_metas x) s).2.
Proof.
  intros Hs Hx Hok. unfold process_pulling_result. destruct (err_reqs r) as [|e errs]; simpl.
  - rewrite app_nil_r. destruct (fromkeys_spec (ok_reqs r)) as [Hnd Hin]. apply acknowledge_reading; try done.
    + intros req Hreq%Hin. by apply Hok.
    + intros req o Hreq%Hin. by apply Hok.
  - destruct Hs as (H & Ht & Hl). split_and!; [|exact Ht|exact Hl].
    eapply rinv_frame; [exact H|..]; try done. apply H.
Qed.

Lemma fail_reading said ts l t ms msg s :
  reading said ts l s -> reading said ts l (fail_pull_metas t ms msg s).2.
Proof.
  intros (H & Ht & Hl). unfold fail_pull_metas, process_pulling_result. simpl. destruct (dkeys ms); simpl; [done|].
  split_and!; [|exact Ht|exact Hl]. eapply rinv_frame; [exact H|..]; try done. apply H.
Qed.

Lemma map_alter_open {B} (f : pull_task -> B) t ts :
  (forall x b, f (PullTask (t_addr x) (t_metas x) b) = f x) ->
  map f (alter (fun x => PullTask (t_addr x) (t_metas x) false) t ts) = map f ts.
Proof.
  intros Hf. apply list_eq. intros i. rewrite !map_lookup_eq. destruct (decide (i = t)) as [->|Hne].
  - rewrite list_lookup_alter_eq. destruct (ts !! t); simpl; [by rewrite Hf|done].
  - by rewrite list_lookup_alter_ne.
Qed.

Lemma close_rinv said t s : rinv said s -> rinv said (close_task t s).2.
Proof.
  intros H. eapply rinv_frame; [exact H|..]; try done; [apply map_alter_open; by intros [] |apply map_alter_open; by intros [] |apply H].
Qed.

Lemma answer_rinv said t x r s :
  rinv said s -> tasks s !! t = Some x ->
  (forall req, req ∈ ok_reqs r -> req ∈ said t /\ forall o, Acked t req o ∉ events s) ->
  rinv said (receive_answer t x r s).2.
Proof.
  intros H Hx Hok. assert (reading said (tasks s) (lookups s) s) as Hs by done.
  pose proof (fun r' Hr' => process_reading said _ _ t x r' s Hs Hx Hr') as Hp.
  assert (forall (b : bool) r', (err_reqs r' = [] -> ok_reqs r' = [] \/ r' = r) ->
    rinv said (try_ (if b then process_pulling_result t r' (t_metas x) ;; close_task t
      else process_pulling_result t r' (t_metas x))
      (fun e => fail_pull_metas t (t_metas x) (exn_msg e) ;; close_task t) s).2) as Hcase.
  { intros b r' Hr'.
    assert (reading said (tasks s) (lookups s) (process_pulling_result t r' (t_metas x) s).2) as Hr.
    { apply Hp. intros He req Hreq. destruct (Hr' He) as [E| ->]; [|by apply Hok].
      rewrite E in Hreq. by apply not_elem_of_nil in Hreq. }
    unfold try_, mbind, M_bind. destruct b, (process_pulling_result t r' (t_metas x) s) as [[[]|e] s1];
      simpl in Hr; try apply close_rinv; try apply Hr;
      (pose proof (fail_reading _ _ _ t (t_metas x) (exn_msg e) _ Hr) as Hf;
       destruct (fail_pull_metas _ _ _ s1) as [[[]|] s2]; simpl in Hf; [apply close_rinv|]; apply Hf). }
  unfold receive_answer. destruct (status r).
  - apply (Hcase true). auto.
  - apply (Hcase false). auto.
  - apply (Hcase true). destruct (err_reqs r) eqn:E; simpl; auto.
Qed.

(** ** Asking the workers *)

Lemma set_counts_lookup n ms l o :
  set_counts n ms l !! o = (if decide (o ∈ dvalues ms) then with_count n else id) <$> l !! o.
Proof.
  unfold set_counts. generalize (dvalues ms). clear ms. intros os. revert l. induction os as [|o' os IH]; intros l; cbn [foldl].
  - rewrite decide_False by apply not_elem_of_nil. by destruct (l !! o).
  - rewrite IH. destruct (decide (o' = o)) as [->|Hne].
    + rewrite list_lookup_alter_eq, (decide_True (P := o ∈ o :: os)) by (by left).
      destruct (l !! o) as [m|]; [|done]. simpl. by destruct (decide (o ∈ os)).
    + rewrite list_lookup_alter_ne by done. destruct (decide (o ∈ os)) as [Hin|Hin].
      * by rewrite decide_True by (by right).
      * rewrite decide_False; [done|]. by intros [?|?]%elem_of_cons.
Qed.

Lemma length_set_counts n ms l : length (set_counts n ms l) = length l.
Proof.
  unfold set_counts. generalize (dvalues ms). intros os. revert l. induction os as [|o os IH]; intros l; simpl; [done|].
  by rewrite IH, length_alter.
Qed.

Lemma addrs_of_app o l ms addrs :
  addrs_of o (l ++ map (fun addr => PullTask addr ms true) addrs) =
    addrs_of o l ++ (if decide (o ∈ dvalues ms) then addrs else []).
Proof.
  unfold addrs_of. rewrite tasks_of_app, omap_app. f_equal.
  - assert (forall k : list nat, (forall t, t ∈ k -> is_Some (l !! t)) ->
      omap (fun t => t_addr <$> (l ++ map (fun addr => PullTask addr ms true) addrs) !! t) k =
      omap (fun t => t_addr <$> l !! t) k) as Hk.
    { induction k as [|t k IH]; intros Hsome; [done|]. destruct (Hsome t) as [x Hx]; [by left|]. cbn [omap list_omap].
      rewrite (lookup_app_l_Some _ _ _ _ Hx), Hx. cbn. f_equal. apply IH. intros t' Ht'. apply Hsome. by right. }
    apply Hk. intros t (x & Hx & _)%elem_tasks_of. by rewrite Hx.
  - case_decide; [|done]. clear. revert l. induction addrs as [|a addrs IH]; intros l; [done|].
    cbn [map length seq omap list_omap]. rewrite list_lookup_middle by done. cbn [fmap option_fmap option_map t_addr]. f_equal.
    specialize (IH (l ++ [PullTask a ms true])). rewrite length_app, <- app_assoc in IH. simpl in IH.
    rewrite Nat.add_1_r in IH. exact IH.
Qed.

(** Requests that no task asks for yet and no lookup will *)
Definition unasked (ms : metas) (s : receiver) : Prop :=
  NoDup (dvalues ms) /\
  forall o, o ∈ dvalues ms -> (o < length (pulls s))%nat /\ tasks_of o (tasks s) = [] /\ o ∉ live_objects (lookups s).

Section receiver.
Context (topo : topology) (pp_rank pp_size : Z).

Lemma receive_kv_rinv said engine ms s :
  rinv said s -> unasked ms s -> rinv said (receive_kv topo pp_rank pp_size engine ms s).2.
Proof using Type.
  intros H [Hnd Hms]. unfold receive_kv. erewrite M_bind_ok by reflexivity.
  destruct (fan_out topo pp_rank pp_size (engines s) engine) as [addrs|e]; [|exact H].
  unfold mbind, M_bind, lift, modify. cbn beta iota. simpl.
  assert (forall o, o ∈ dvalues ms -> acks_of o (events s) = []) as Hno.
  { intros o Ho. destruct (Hms o Ho) as (_ & Ht & _). pose proof (acks_le said s o H) as Hle. rewrite Ht in Hle.
    destruct (acks_of o (events s)); [done|simpl in Hle; lia]. }
  assert (forall o l, acks_of o (l ++ [Pulling engine ms addrs]) = acks_of o l) as Hacks.
  { intros o l. rewrite acks_of_app. cbn. apply app_nil_r. }
  assert (forall e l, e ∈ l ++ [Pulling engine ms addrs] -> (forall a b c, e <> Pulling a b c) -> e ∈ l) as Hev.
  { intros e l [?| ->%list_elem_of_singleton]%elem_of_app Hne; [done|by destruct (Hne engine ms addrs)]. }
  assert (forall o, o ∉ dvalues ms \/ tasks_of o (tasks s) = []) as Hsplit.
  { intros o. destruct (decide (o ∈ dvalues ms)) as [Ho|]; [right; by apply Hms|by left]. }
  constructor; simpl.
  - intros o m. rewrite set_counts_lookup, tasks_of_app, Hacks. destruct (decide (o ∈ dvalues ms)) as [Ho|Ho].
    + intros (m0 & Hm0 & ->)%fmap_Some _. destruct (Hms o Ho) as (_ & -> & _). rewrite (Hno o Ho). simpl.
      unfold zlen. rewrite length_seq. simpl. lia.
    + rewrite option_fmap_id, app_nil_r. apply (ri_count _ _ H).
  - intros o. rewrite Hacks. apply (ri_acks _ _ H).
  - intros t req o Hin. destruct (ri_acked _ _ H t req o) as (Hr & x & Hx & Ho); [by apply (Hev _ _ Hin)|].
    split; [done|]. exists x. split; [|done]. by apply lookup_app_l_Some.
  - intros o Hin. destruct (ri_ready _ _ H o) as [Hne Heq]; [by apply (Hev _ _ Hin)|].
    rewrite Hacks, tasks_of_app. destruct (Hsplit o) as [Ho|Ho]; [|by rewrite Ho in Hne].
    by rewrite decide_False, app_nil_r.
  - intros t x Hx. rewrite length_set_counts. apply lookup_app_Some in Hx as [Hx|[_ Hx]]; [by apply (ri_task _ _ H t)|].
    rewrite map_lookup_eq in Hx. apply fmap_Some in Hx as (a & _ & ->). simpl. split; [done|].
    apply Forall_forall. intros o Ho. by apply Hms.
  - apply H.
  - intros o Ho. rewrite length_set_counts, tasks_of_app. destruct (ri_live _ _ H o Ho) as [? ->]. split; [done|].
    rewrite decide_False; [done|]. intros Hin. by destruct (Hms o Hin) as (_ & _ & []).
  - intros d Hd. destruct (ri_done _ _ H d) as (o & m & Hr & Hm & <-).
    { destruct Hd as [?|(ids & Hin & ?)]; [by left|]. right. exists ids. split; [|done]. by apply (Hev _ _ Hin). }
    exists o. eexists. simpl. rewrite set_counts_lookup, Hm. split_and!; [apply elem_of_app; by left|done|].
    by case_decide.
  - intros o. rewrite tasks_of_app, addrs_of_app. destruct (decide (o ∈ dvalues ms)) as [Ho|Ho].
    + intros _. exists engine, ms. split; [|done]. destruct (Hms o Ho) as (_ & Ht & _).
      unfold addrs_of. rewrite Ht. simpl. apply elem_of_app. right. by left.
    + rewrite !app_nil_r. intros Hne. destruct (ri_pulling _ _ H o Hne) as (en & ms' & Hin & Ho').
      exists en, ms'. split; [apply elem_of_app; by left|done].
Qed.

(** *** Lookups *)

Lemma live_cons x l :
  live_objects (x :: l) = (match k_phase x with Ended => [] | _ => dvalues (k_metas x) end) ++ live_objects l.
Proof using Type. done. Qed.

Lemma live_alter k x p l :
  l !! k = Some x -> k_phase x <> Ended ->
  let l' := alter (fun x => EngineLookup (k_engine x) (k_metas x) (k_addr x) p) k l in
  if decide (p = Ended) then live_objects l ≡ₚ dvalues (k_metas x) ++ live_objects l'
  else live_objects l' = live_objects l.
Proof using Type.
  revert k. induction l as [|y l IH]; intros [|k] Hx Hph; try done; simpl in Hx.
  - injection Hx as ->. cbn. unfold live_objects. case_decide as Hp.
    + subst p. simpl. destruct (k_phase x); done.
    + simpl. by destruct p, (k_phase x).
  - specialize (IH k Hx Hph). cbv zeta in IH |- *.
    change (alter ?f (S k) (y :: l)) with (y :: alter f k l).
    rewrite !live_cons. case_decide as Hp; [|by rewrite IH].
    rewrite IH. rewrite !app_assoc. f_equiv. apply Permutation_app_comm.
Qed.

Lemma set_phase_rinv said k x p s :
  rinv said s -> lookups s !! k = Some x -> k_phase x <> Ended -> rinv said (set_phase k p s).2.
Proof using Type.
  intros H Hx Hph. pose proof (live_alter k x p (lookups s) Hx Hph) as Hl. cbv zeta in Hl.
  eapply rinv_frame; [exact H|..]; try done; simpl; case_decide.
  - intros o Ho. rewrite Hl. apply elem_of_app. by right.
  - by rewrite Hl.
  - pose proof (ri_live_once _ _ H) as Hnd. rewrite Hl in Hnd. by apply NoDup_app in Hnd as (_ & _ & ?).
  - rewrite Hl. apply H.
Qed.

Lemma lookup_ends_rinv said k x s :
  rinv said s -> lookups s !! k = Some x -> k_phase x <> Ended -> rinv said (lookup_ends topo pp_rank pp_size k x s).2.
Proof using Type.
  intros H Hx Hph. pose proof (set_phase_rinv said k x Ended s H Hx Hph) as H1.
  unfold lookup_ends. erewrite M_bind_ok by reflexivity. erewrite M_bind_ok by reflexivity.
  pose proof (live_alter k x Ended (lookups s) Hx Hph) as Hl. cbv zeta in Hl. rewrite decide_True in Hl by done.
  case_if; [by apply (fail_reading said _ _ 0 (k_metas x) _ _ (conj H1 (conj eq_refl eq_refl)))|].
  apply receive_kv_rinv; [exact H1|]. pose proof (ri_live_once _ _ H) as Hnd. rewrite Hl in Hnd.
  apply NoDup_app in Hnd as (Hnd & Hdis & _). split; [done|]. intros o Ho.
  destruct (ri_live _ _ H o) as [Hlt Ht]; [rewrite Hl; apply elem_of_app; by left|]. split_and!; [done|done|].
  by apply Hdis.
Qed.

Lemma lookup_runs_rinv said k x s :
  rinv said s -> lookups s !! k = Some x -> k_phase x <> Ended -> rinv said (lookup_runs k x s).2.
Proof using Type.
  intros H Hx Hph. unfold lookup_runs. destruct (k_metas x); [by eapply (set_phase_rinv said k x Ended)|].
  erewrite M_bind_ok by reflexivity. case_bool_decide; [by eapply (set_phase_rinv said k x)|].
  erewrite M_bind_ok by reflexivity. eapply (set_phase_rinv said k x); [|done|done].
  eapply rinv_frame; [exact H|..]; try done. apply H.
Qed.

Lemma live_wake addr l : live_objects (map (wake addr) l) = live_objects l.
Proof using Type.
  induction l as [|x l IH]; [done|]. rewrite map_cons, !live_cons, IH. f_equal. unfold wake.
  destruct (k_phase x) eqn:E; rewrite ?E; try done. case_bool_decide; simpl; [done|by rewrite E].
Qed.

Lemma query_returned_rinv said k x answer s :
  rinv said s -> lookups s !! k = Some x -> k_phase x = Asking ->
  rinv said (query_returned topo pp_rank pp_size k x answer s).2.
Proof using Type.
  intros H Hx Hph. unfold query_returned. do 3 erewrite M_bind_ok by reflexivity.
  apply lookup_ends_rinv; [| |by rewrite Hph].
  - eapply rinv_frame; [exact H|..]; try done; simpl; rewrite live_wake; [done|apply H].
  - simpl. rewrite map_lookup_eq, Hx. simpl. unfold wake. by rewrite Hph.
Qed.

(** *** New requests *)

Lemma no_tasks said s o : rinv said s -> (length (pulls s) <= o)%nat -> tasks_of o (tasks s) = [].
Proof using Type.
  intros H Ho. destruct (tasks_of o (tasks s)) as [|t k] eqn:E; [done|].
  assert (t ∈ tasks_of o (tasks s)) as Hin by (rewrite E; by left).
  apply elem_tasks_of in Hin as (x & Hx & Hin). destruct (ri_task _ _ H t x Hx) as [_ Hlt].
  rewrite Forall_forall in Hlt. specialize (Hlt o Hin). simpl in Hlt. lia.
Qed.

Lemma grow_rinv said s l : rinv said s -> rinv said (set_pulls (pulls s ++ l) s).
Proof using Type.
  intros H. constructor; simpl; try apply H.
  - intros o m Hm Hne. apply (ri_count _ _ H); [|done]. apply lookup_app_Some in Hm as [Hm|[Hge _]]; [done|].
    destruct Hne. eapply no_tasks; [exact H|lia].
  - intros t x Hx. destruct (ri_task _ _ H t x Hx) as [Hnd Hlt]. split; [done|]. eapply Forall_impl; [exact Hlt|].
    intros o Ho. simpl in *. rewrite length_app. lia.
  - intros o Ho. destruct (ri_live _ _ H o Ho). split; [rewrite length_app; lia|done].
  - intros d Hd. destruct (ri_done _ _ H d Hd) as (o & m & Hr & Hm & Hd'). exists o, m. split_and!; [done| |done].
    simpl. by apply lookup_app_l_Some.
Qed.

Lemma dvalues_new (ks : list string) n : dvalues (zip ks (seq n (length ks))) = seq n (length ks).
Proof using Type.
  unfold dvalues. revert n. induction ks as [|k ks IH]; intros n; [done|]. cbn. f_equal. apply IH.
Qed.

Lemma start_load_engine_rinv said e s :
  rinv said s -> rinv said (start_load_engine topo pp_rank pp_size e s).2.
Proof using Type.
  intros H. destruct e as [engine reqs]. unfold start_load_engine.
  set (ms := zip (map fst reqs) (seq (length (pulls s)) (length reqs))).
  assert (new_metas reqs s = (Ok ms, set_pulls (pulls s ++ map snd reqs) s)) as E by done.
  cbn [fst snd]. rewrite (M_bind_ok _ _ _ _ _ E).
  erewrite M_bind_ok by reflexivity. pose proof (grow_rinv said s (map snd reqs) H) as H1.
  assert (dvalues ms = seq (length (pulls s)) (length reqs)) as Hms.
  { unfold ms. rewrite <- (length_map fst reqs). apply dvalues_new. }
  assert (unasked ms (set_pulls (pulls s ++ map snd reqs) s)) as Hun.
  { split; [rewrite Hms; apply NoDup_seq|]. intros o Ho. rewrite Hms in Ho. apply list_elem_of_In, in_seq in Ho. simpl.
    split_and!; [rewrite length_app, length_map; lia|eapply no_tasks; [exact H|lia]|].
    intros Hl. destruct (ri_live _ _ H o Hl). lia. }
  case_if; [|by apply receive_kv_rinv]. destruct Hun as [Hnd Hun].
  assert (live_objects (lookups s ++ [EngineLookup engine ms (default "" (remote_bootstrap_addr <$> head (map snd reqs)))
    Scheduled]) = live_objects (lookups s) ++ dvalues ms) as Hlive.
  { unfold live_objects. rewrite flat_map_app. simpl. by rewrite app_nil_r. }
  constructor; try apply H1; simpl; rewrite Hlive.
  - apply NoDup_app. split_and!; [apply H| |done]. intros o Ho Hin. by destruct (Hun o Hin) as (_ & _ & []).
  - intros o [Ho|Ho]%elem_of_app; [by apply (ri_live _ _ H1)|]. by destruct (Hun o Ho) as (? & ? & _).
Qed.

(** ** Errors stay

    Once a transfer has failed nothing is reported any more. *)

Definition reports (l : list receiver_event) : list (gset string) :=
  omap (fun e => match e with Reported ids => Some ids | _ => None end) l.

Definition latched (rs : list (gset string)) (s : receiver) : Prop := kv_load_error s <> None /\ reports (events s) = rs.

Definition keeps_latch {A} (m : M receiver A) : Prop := forall rs, ensures (latched rs) m (fun _ => latched rs) (latched rs).

Lemma latch_ret {A} (a : A) : keeps_latch (mret a).
Proof using Type. intros rs. by apply ensures_ret. Qed.
Lemma latch_raise {A} c msg : keeps_latch (raise (A := A) c msg).
Proof using Type. intros rs. by apply ensures_raise. Qed.
Lemma latch_lift {A} (r : result A) : keeps_latch (lift r).
Proof using Type. intros rs. by apply ensures_lift. Qed.
Lemma latch_get : keeps_latch get_state.
Proof using Type. intros rs. by apply ensures_get. Qed.
Lemma latch_bind {A B} (m : M receiver A) (k : A -> M receiver B) :
  keeps_latch m -> (forall a, keeps_latch (k a)) -> keeps_latch (m ≫= k).
Proof using Type. intros Hm Hk rs. eapply ensures_bind; [apply Hm|]. intros a. apply Hk. Qed.
Lemma latch_try {A} (m : M receiver A) h : keeps_latch m -> (forall e, keeps_latch (h e)) -> keeps_latch (try_ m h).
Proof using Type.
  intros Hm Hh rs s Hs. unfold try_. specialize (Hm rs s Hs). destruct (m s) as [[a|e] s']; [done|]. by apply Hh.
Qed.
Lemma latch_each {A} (xs : list A) body : (forall x, keeps_latch (body x)) -> keeps_latch (for_each xs body).
Proof using Type. intros Hb rs. apply ensures_for_each. intros x _. apply Hb. Qed.
Lemma latch_modify f :
  (forall s, (kv_load_error s <> None -> kv_load_error (f s) <> None) /\ reports (events (f s)) = reports (events s)) ->
  keeps_latch (modify f).
Proof using Type.
  intros Hf rs. apply ensures_modify. intros s [He Hr]. destruct (Hf s) as [H1 H2]. split; [auto|]. by rewrite H2.
Qed.

Create HintDb latch.

Ltac latch :=
  repeat first
    [ solve [auto 1 with latch nocore]
    | apply latch_ret | apply latch_raise | apply latch_lift | apply latch_get
    | apply latch_bind; [|intros ?] | apply latch_try; [|intros ?] | apply latch_each; intros ?
    | apply latch_modify; intros ?; simpl; split; [done|]; unfold reports; rewrite ?omap_app; simpl; rewrite ?app_nil_r; done
    | match goal with |- keeps_latch (if ?b then _ else _) => destruct b end
    | match goal with |- keeps_latch (match ?x with _ => _ end) => destruct x end ].

Lemma latch_process t r ms : keeps_latch (process_pulling_result t r ms).
Proof using Type. unfold process_pulling_result, acknowledge. latch. Qed.

Lemma latch_receive_kv engine ms : keeps_latch (receive_kv topo pp_rank pp_size engine ms).
Proof using Type. unfold receive_kv. latch. Qed.
#[local] Hint Resolve latch_process latch_receive_kv : latch.

Lemma latch_fail t ms msg : keeps_latch (fail_pull_metas t ms msg).
Proof using Type. unfold fail_pull_metas. latch. Qed.
#[local] Hint Resolve latch_fail : latch.

Lemma latch_ends k x : keeps_latch (lookup_ends topo pp_rank pp_size k x).
Proof using Type. unfold lookup_ends, set_phase. latch. Qed.
#[local] Hint Resolve latch_ends : latch.

Lemma error_stays s a s' rs : latched rs s -> receiver_step topo pp_rank pp_size s a = Some s' -> latched rs s'.
Proof using Type.
  intros Hs. unfold receiver_step.
  assert (forall m : M receiver unit, keeps_latch m -> latched rs (m s).2) as Hm.
  { intros m H. specialize (H rs s Hs). by destruct (m s) as [[]]. }
  destruct a as [reqs|k|k answer|k|t r|t e|t|]; simpl handle.
  - intros [= <-]. apply Hm. unfold start_load_kv, start_load_engine, new_metas. latch.
  - destruct (lookups s !! k) as [x|]; [|done]. simpl. destruct (k_phase x); try done. intros [= <-]. apply Hm.
    unfold lookup_runs, set_phase. latch.
  - destruct (lookups s !! k) as [x|]; [|done]. simpl. destruct (k_phase x); try done. intros [= <-]. apply Hm.
    unfold query_returned. latch.
  - destruct (lookups s !! k) as [x|]; [|done]. simpl. destruct (k_phase x); try done. intros [= <-]. apply Hm, latch_ends.
  - destruct (tasks s !! t) as [x|]; [|done]. simpl. destruct (t_open x); try done. intros [= <-]. apply Hm.
    unfold receive_answer, close_task. latch.
  - destruct (tasks s !! t) as [x|]; [|done]. simpl. destruct (t_open x); try done. intros [= <-]. 
    refine (Hm (fail_pull_metas t (t_metas x) (exn_msg e) ;; close_task t) _). unfold close_task. latch.
  - destruct (tasks s !! t) as [x|]; [|done]. simpl. destruct (t_open x); try done. intros [= <-]. exact Hs.
  - intros [= <-]. unfold fetch_finished_recving_reqs, mbind, M_bind, get_state. destruct Hs as [He Hr].
    destruct (kv_load_error s) eqn:E; [|done]. simpl. by split; [rewrite E|].
Qed.

(** ** Runs *)

(** The answers that task [t] got, and the requests they acknowledge *)
Definition answers (t : nat) (past : list receiver_action) : list MooncakeXferResponse :=
  omap (fun a => match a with Answered t' r => if decide (t' = t) then Some r else None | _ => None end) past.

Definition said_of (past : list receiver_action) (t : nat) : list string := concat (map ok_reqs (answers t past)).

Lemma said_snoc past a t :
  said_of (past ++ [a]) t = said_of past t ++
    match a with Answered t' r => if decide (t' = t) then ok_reqs r else [] | _ => [] end.
Proof using Type.
  unfold said_of, answers. rewrite omap_app, map_app, concat_app. f_equal. destruct a; try done.
  cbn. case_decide; [|done]. cbn. by rewrite app_nil_r.
Qed.

Lemma said_grows past a t : said_of past t ⊆ said_of (past ++ [a]) t.
Proof using Type. rewrite said_snoc. intros req Hreq. apply elem_of_app. by left. Qed.

Lemma step_rinv past s a s' :
  rinv (said_of past) s -> (forall t, NoDup (said_of (past ++ [a]) t)) ->
  receiver_step topo pp_rank pp_size s a = Some s' -> rinv (said_of (past ++ [a])) s'.
Proof using Type.
  intros H0 Hnd. assert (rinv (said_of (past ++ [a])) s) as H.
  { eapply rinv_frame; [exact H0|..]; try done; [apply said_grows|apply H0]. }
  unfold receiver_step. destruct a as [reqs|k|k answer|k|t r|t e|t|]; simpl handle.
  - intros [= <-]. unfold start_load_kv.
    assert (ensures (rinv (said_of (past ++ [Loaded reqs]))) (for_each reqs (start_load_engine topo pp_rank pp_size))
      (fun _ => rinv (said_of (past ++ [Loaded reqs]))) (rinv (said_of (past ++ [Loaded reqs])))) as Hall.
    { apply ensures_for_each. intros e _ s1 Hs1. pose proof (start_load_engine_rinv _ e s1 Hs1) as Hs2.
      by destruct (start_load_engine topo pp_rank pp_size e s1) as [[]]. }
    specialize (Hall s H). by destruct (for_each reqs _ s) as [[]].
  - destruct (lookups s !! k) as [x|] eqn:Hx; [|done]. simpl. destruct (k_phase x) eqn:Hph; try done. intros [= <-].
    apply lookup_runs_rinv; [done..|by rewrite Hph].
  - destruct (lookups s !! k) as [x|] eqn:Hx; [|done]. simpl. destruct (k_phase x) eqn:Hph; try done. intros [= <-].
    by apply query_returned_rinv.
  - destruct (lookups s !! k) as [x|] eqn:Hx; [|done]. simpl. destruct (k_phase x) eqn:Hph; try done. intros [= <-].
    apply lookup_ends_rinv; [done..|by rewrite Hph].
  - destruct (tasks s !! t) as [x|] eqn:Hx; [|done]. simpl. destruct (t_open x); [|done]. intros [= <-].
    apply answer_rinv; [done..|]. intros req Hreq. specialize (Hnd t). rewrite said_snoc, decide_True in * by done.
    split; [apply elem_of_app; by right|]. intros o Hin. destruct (ri_acked _ _ H0 _ _ _ Hin) as [Hsaid _].
    apply NoDup_app in Hnd as (_ & Hd & _). by apply (Hd req).
  - destruct (tasks s !! t) as [x|] eqn:Hx; [|done]. simpl. destruct (t_open x); [|done]. intros [= <-].
    pose proof (fail_reading _ _ _ t (t_metas x) (exn_msg e) s (conj H (conj eq_refl eq_refl))) as Hf.
    unfold mbind, M_bind. destruct (fail_pull_metas t (t_metas x) (exn_msg e) s) as [[[]|] s1]; simpl in Hf;
      [apply close_rinv|]; apply Hf.
  - destruct (tasks s !! t) as [x|] eqn:Hx; [|done]. simpl. destruct (t_open x); [|done]. intros [= <-].
    apply (close_rinv _ t s H).
  - intros [= <-]. unfold fetch_finished_recving_reqs, mbind, M_bind, get_state.
    destruct (kv_load_error s) eqn:E; [exact H|]. simpl.
    assert (forall o, acks_of o (events s ++ [Reported (finished_recving_reqs s)]) = acks_of o (events s)) as Hacks.
    { intros o. rewrite acks_of_app. apply app_nil_r. }
    assert (forall e, e ∈ events s ++ [Reported (finished_recving_reqs s)] -> e ∈ events s \/
      e = Reported (finished_recving_reqs s)) as Hev.
    { by intros e [?| ->%list_elem_of_singleton]%elem_of_app; [left|right]. }
    constructor; cbn [pulls tasks events lookups finished_recving_reqs set_received add_event];
      [| | | |apply H|apply H|apply H| |].
    + intros o m. rewrite Hacks. apply H.
    + intros o. rewrite Hacks. apply H.
    + intros t req o [Hin|?]%Hev; [by apply (ri_acked _ _ H)|done].
    + intros o [Hin|?]%Hev; [rewrite Hacks; by apply (ri_ready _ _ H)|done].
    + intros d Hd. assert (was_ready s d) as (o & m & Hr & Hm).
      { apply (ri_done _ _ H). destruct Hd as [?%elem_of_empty|(ids & [Hin|[= ->]]%Hev & Hd)]; [done|right; eauto|by left]. }
      exists o, m. simpl. split; [apply elem_of_app; by left|done].
    + intros o Ho. destruct (ri_pulling _ _ H o Ho) as (en & ms & Hin & Hms). exists en, ms.
      split; [apply elem_of_app; by left|done].
Qed.

Lemma receives_rinv past s :
  receives topo pp_rank pp_size past s -> (forall t, acked_once (answers t past)) -> rinv (said_of past) s.
Proof using Type.
  induction 1 as [|past s a s' _ IH Hstep]; intros Hnd.
  - constructor; simpl; try done; try by constructor.
    + by intros ? ? ? ?%not_elem_of_nil.
    + by intros ? ?%not_elem_of_nil.
    + by intros ? ?%not_elem_of_nil.
    + intros d [?%elem_of_empty|(ids & ?%not_elem_of_nil & _)]; done.
  - eapply step_rinv; [apply IH|exact Hnd|exact Hstep]. intros t. specialize (Hnd t). unfold acked_once in *.
    change (NoDup (said_of (past ++ [a]) t)) in Hnd. rewrite said_snoc in Hnd. by apply NoDup_app in Hnd as (? & _ & _).
Qed.

Lemma ready_acked past s o t x :
  rinv (said_of past) s -> Ready o ∈ events s -> tasks s !! t = Some x -> o ∈ dvalues (t_metas x) ->
  exists req, (req, o) ∈ t_metas x /\ req ∈ said_of past t.
Proof using Type.
  intros H Ho Hx Hin. destruct (ri_ready _ _ H o Ho) as [Hne Heq].
  assert (acks_of o (events s) ≡ₚ tasks_of o (tasks s)) as Hperm.
  { apply submseteq_length_Permutation; [apply NoDup_submseteq; [apply (ri_acks _ _ H)|by eapply acks_sub]|].
    unfold zlen in Heq. lia. }
  assert (t ∈ acks_of o (events s)) as (req & Hack)%elem_acks_of.
  { rewrite Hperm. apply elem_tasks_of. eauto. }
  destruct (ri_acked _ _ H _ _ _ Hack) as (Hsaid & x' & Hx' & Ho'). rewrite Hx in Hx'. injection Hx' as <-. eauto.
Qed.

(** C14: when the producers acknowledge a request at most once each, whatever
    the order of loads, queries for new engines, answers and failures: a
    request that becomes ready was asked from the workers of the fan-out, at
    least one, and the worker of every task that asks for it has acknowledged
    it; only such requests are reported to the scheduler; and once a transfer
    or a query has failed the error stays and nothing more is reported. *)
Theorem received_complete past s :
  receives topo pp_rank pp_size past s -> (forall t, acked_once (answers t past)) ->
  (forall o, Ready o ∈ events s ->
    (exists engine ms, Pulling engine ms (addrs_of o (tasks s)) ∈ events s /\ o ∈ dvalues ms) /\
    tasks_of o (tasks s) <> [] /\
    forall t x, tasks s !! t = Some x -> o ∈ dvalues (t_metas x) ->
      exists req, (req, o) ∈ t_metas x /\ req ∈ said_of past t) /\
  (forall ids d, Reported ids ∈ events s -> d ∈ ids -> was_ready s d) /\
  (forall a s', kv_load_error s <> None -> receiver_step topo pp_rank pp_size s a = Some s' ->
    kv_load_error s' <> None /\ reports (events s') = reports (events s)).
Proof using Type.
  intros Hr Hnd. pose proof (receives_rinv past s Hr Hnd) as H. split_and!.
  - intros o Ho. destruct (ri_ready _ _ H o Ho) as [Hne Heq]. split; [by apply (ri_pulling _ _ H)|]. split; [done|].
    intros t x. by apply ready_acked.
  - intros ids d Hin Hd. apply (ri_done _ _ H). eauto.
  - intros a s' He Hstep. by apply (error_stays s a s' (reports (events s))).
Qed.

Lemma run_receives past actions s s' :
  receives topo pp_rank pp_size past s -> receiver_run topo pp_rank pp_size s actions = Some s' ->
  receives topo pp_rank pp_size (past ++ actions) s'.
Proof using Type.
  revert past s. induction actions as [|a rest IH]; intros past s Hs; simpl; [by intros [= <-]; rewrite app_nil_r|].
  destruct (receiver_step topo pp_rank pp_size s a) as [s1|] eqn:E; [|done]. simpl. intros H.
  change (a :: rest) with ([a] ++ rest). rewrite app_assoc. eapply IH; [|exact H]. by eapply receives_step.
Qed.
End receiver.

(** Two workers of a new engine are asked and acknowledge a request. *)
Definition example_pull : list receiver_action :=
  [Loaded [("P", [("d1", PullMeta "d1" "t1" [[2; 3]] "P" "http://p" 0)])];
   LookupRuns 0; QueryReturned 0 (Some (for_each example_requests register_worker []).2);
   Answered 1 (Response FINISH ["d1"] [] None); FetchedReceived;
   Answered 0 (Response FINISH ["d1"] [] None); FetchedReceived].

Definition example_targets : topology := Topology 0 (fun _ => 2) (fun _ => [1]) false.

Lemma received_complete_witness :
  exists s, receiver_run example_targets 0 1 new_receiver example_pull = Some s /\
    map t_addr (tasks s) = ["w10"; "w11"] /\ reports (events s) = [∅; {["d1"]}] /\ was_ready s "d1".
Proof.
  destruct (receiver_run example_targets 0 1 new_receiver example_pull) as [s|] eqn:E; [|vm_compute in E; discriminate].
  pose proof (run_receives _ _ _ [] _ _ _ (receives_new example_targets 0 1) E) as H.
  destruct (received_complete example_targets 0 1 example_pull s H) as (_ & Hrep & _).
  { intros [|[|t]]; vm_compute; [apply NoDup_singleton|apply NoDup_singleton|apply NoDup_nil_2]. }
  exists s. split; [reflexivity|]. vm_compute in E. injection E as <-. split; [reflexivity|]. split; [reflexivity|].
  apply (Hrep {["d1"]}); [do 5 apply list_elem_of_further; apply list_elem_of_here|].
  apply (bool_decide_unpack _); vm_compute; exact I.
Defined.
