(* ===== verification/MooncakeEndToEnd.v ===== *)
(** * From the producers' blocks to a request that is ready

    Composes MooncakeAckCorrect.v and MooncakeReceiverCorrect.v: the answers
    that the tasks of a consumer get are responses of producers, each a run of
    its own; a request that becomes ready has all its bytes. *)

From S2P Require Import Prelude PyString Tensors Envs MooncakeRegions MooncakeRegionsCorrect MooncakeTopology MooncakeTopologyCorrect MooncakeSender MooncakeSenderCorrect MooncakeAckCorrect MooncakeReceiver MooncakeReceiverCorrect.
Import Mooncake MooncakeTopology MooncakeSender MooncakeReceiver.
Local Open Scope Z_scope.

(** A run of a producer's worker, with what it is configured with *)
Record producer_run := ProducerRun {
  pr_own : MooncakeXferMetadata;
  pr_groups : dict string Z;
  pr_topo : topology;
  pr_mamba : list bool;
  pr_null : Z;
  pr_physical : Z;
  pr_kernel : list Z -> Z -> list Z;
  pr_timeout : Z;
  pr_actions : list action;
  pr_final : sender
}.

Record valid_run (p : producer_run) : Prop := {
  vr_expands : expands_blocks (pr_physical p) (pr_kernel p);
  vr_physical : 0 < pr_physical p;
  vr_ratio : forall size, 0 < size -> tp_ratio (pr_topo p) size <> 0;
  vr_formed : Forall (well_formed (pr_mamba p)) (pr_actions p);
  vr_run : run (pr_own p) (pr_groups p) (pr_topo p) (pr_mamba p) (pr_null p) (pr_physical p) (pr_kernel p) false
    (pr_timeout p) new_sender (pr_actions p) = Some (pr_final p)
}.

(** Every byte of the blocks [remote] that the consumer wants for a transfer
    was written by coroutine [c] of the producer, from blocks that the
    producer's scheduler gave for the transfer. *)
Definition written_for (p : producer_run) (c : nat) (meta : MooncakeXferMetadata) (req tid : string)
    (remote : list (list Z)) : Prop :=
  exists ls rs p_req local,
    accepted (pr_own p) (pr_groups p) (pr_topo p) meta ls rs /\
    given_blocks (pr_actions p) p_req tid local /\
    refused (pr_mamba p) (pr_null p) (pr_physical p) (pr_kernel p) ls rs local remote = false /\
    forall sd, sd ∈ request_bytes (pr_mamba p) (pr_null p) (pr_physical p) (pr_kernel p) (pr_topo p)
        (remote_tp_rank meta) (remote_tp_size meta) ls rs (req, (local, remote)) ->
      exists batch copies, Wrote c batch copies ∈ log (pr_final p) /\ sd ∈ concat (map bytes_of copies).

Section pull.
Context (topo : topology) (pp_rank pp_size : Z) (self : MooncakeXferMetadata).
Context (past : list receiver_action) (s : receiver).
(** The producer that answers task [t], and its coroutine *)
Context (producer : nat -> producer_run) (coroutine : nat -> nat).
Context (pulled : receives topo pp_rank pp_size past s).
Context (producers_valid : forall t, valid_run (producer t)).
(** Messages arrive in order, and may be lost at the end. *)
Context (answers_arrive : forall t, answers t past `prefix_of` responses (coroutine t) (log (pr_final (producer t)))).
(** The coroutine serves the query of its task. *)
Context (queries_arrive : forall t x meta, tasks s !! t = Some x -> Asked (coroutine t) meta ∈ pr_actions (producer t) ->
  meta = query self (pulls s) (t_metas x)).

Lemma answers_once t : acked_once (answers t past).
Proof using producers_valid answers_arrive.
  destruct (producers_valid t) as [_ _ _ Hf Hr]. destruct (answers_arrive t) as [rest E].
  assert (acked_once (responses (coroutine t) (log (pr_final (producer t))))) as H.
  { eapply run_acked_once; [|exact Hr]. eapply Forall_impl; [exact Hf|]. by intros []. }
  unfold acked_once in *. rewrite E, map_app, concat_app in H. by apply NoDup_app in H as (? & _ & _).
Qed.

Lemma said_in_log t req :
  req ∈ said_of past t ->
  exists before r after, log (pr_final (producer t)) = before ++ Responded (coroutine t) r :: after /\ req ∈ ok_reqs r.
Proof using answers_arrive.
  intros Hin. apply list_elem_of_In, in_concat in Hin as (oks & Hoks & Hreq).
  apply in_map_iff in Hoks as (r & <- & Hr%list_elem_of_In). apply list_elem_of_In in Hreq.
  destruct (answers_arrive t) as [rest E].
  assert (r ∈ responses (coroutine t) (log (pr_final (producer t)))) as Hin by (rewrite E; apply elem_of_app; by left).
  apply list_elem_of_omap in Hin as (e & He & Heq). destruct e as [|c' r'| |]; try done. case_decide; [|done].
  simplify_eq. apply list_elem_of_split in He as (before & after & ->). eauto.
Qed.

(** A query names the blocks of its requests. *)
Lemma query_blocks x req o meta blocks :
  meta = query self (pulls s) (t_metas x) -> NoDup (dkeys (req_blocks meta)) -> (req, o) ∈ t_metas x ->
  dget (req_blocks meta) req = Some blocks ->
  blocks = match pulls s !! o with Some m => (pull_transfer_id m, pull_block_ids m) | None => ("", []) end.
Proof using Type.
  intros -> Hnd Hin Hd.
  assert (dget (req_blocks (query self (pulls s) (t_metas x))) req =
    Some match pulls s !! o with Some m => (pull_transfer_id m, pull_block_ids m) | None => ("", []) end) as E.
  { apply elem_dget; [done|]. simpl. apply list_elem_of_fmap. by exists (req, o). }
  congruence.
Qed.

(** C10: when a request becomes ready for decoding, every worker that the
    consumer asked for it, at least one, has written all bytes it owes: those
    of the consumer's blocks for the request, from blocks that the producer's
    scheduler gave for the same transfer. *)
Theorem pulled_bytes_written o :
  Ready o ∈ events s ->
  tasks_of o (tasks s) <> [] /\
  exists m, pulls s !! o = Some m /\
    forall t x, tasks s !! t = Some x -> o ∈ dvalues (t_metas x) ->
      exists req, (req, o) ∈ t_metas x /\
        written_for (producer t) (coroutine t) (query self (pulls s) (t_metas x)) req (pull_transfer_id m)
          (pull_block_ids m).
Proof using pulled producers_valid answers_arrive queries_arrive.
  intros Ho. pose proof (receives_rinv _ _ _ past s pulled answers_once) as H.
  destruct (ri_ready _ _ H o Ho) as [Hne _]. split; [done|].
  destruct (lookup_lt_is_Some_2 (pulls s) o) as [m Hm].
  { destruct (tasks_of o (tasks s)) as [|t k] eqn:E; [done|].
    assert (t ∈ tasks_of o (tasks s)) as (x & Hx & Hin)%elem_tasks_of by (rewrite E; by left).
    destruct (ri_task _ _ H t x Hx) as [_ Hlt]. rewrite Forall_forall in Hlt. by apply Hlt. }
  exists m. split; [done|]. intros t x Hx Hin.
  destruct (ready_acked past s o t x H Ho Hx Hin) as (req & Hreq & Hsaid). exists req. split; [done|].
  destruct (said_in_log t req Hsaid) as (before & r & after & Hlog & Hok).
  destruct (producers_valid t) as [Hex Hpos Hratio Hf Hr].
  destruct (run_log_ok _ _ _ _ _ _ _ _ _ _ Hex Hpos Hratio Hf _ Hr before _ r after req Hlog Hok)
    as (meta & ls & rs & p_req & tid & local & remote & Ha & Hacc & Hd & Hs & Href & Hw).
  pose proof (queries_arrive t x meta Hx Ha) as Hq.
  assert (NoDup (dkeys (req_blocks meta))) as Hnd.
  { rewrite Forall_forall in Hf. by apply (Hf _ Ha). }
  pose proof (query_blocks x req o meta (tid, remote) Hq Hnd Hreq Hd) as Heq. rewrite Hm in Heq. injection Heq as -> ->.
  rewrite <- Hq. exists ls, rs, p_req, local. split_and!; [done..|]. intros sd Hsd.
  destruct (Hw sd Hsd) as (batch & copies & Hin' & _ & Hsd'). exists batch, copies. split; [|done].
  rewrite Hlog. apply elem_of_app. by left.
Qed.
End pull.

(** ** A consumer of the small deployment *)

Definition demo_producer_run (s : sender) : producer_run :=
  ProducerRun demo_producer [] demo_topology [false] (-1) 1 demo_kernel 480 both_served s.

Definition demo_pull : list receiver_action :=
  [Loaded [("P", [("d1", PullMeta "d1" "t1" [[2; 3]] "P" "http://p" 0)])];
   LookupRuns 0; QueryReturned 0 (Some (register_worker (Payload "P" 0 0 0 "w0" 1 false) []).2);
   Answered 0 (Response FINISH ["d1"] [] None); FetchedReceived].

Definition demo_target : topology := Topology 0 (fun _ => 1) (fun _ => [0]) false.

Lemma pulled_bytes_written_witness :
  exists p s m, demo_run new_sender both_served = Some p /\
    receiver_run demo_target 0 1 new_receiver demo_pull = Some s /\ reports (events s) = [{["d1"]}] /\
    pulls s !! 0%nat = Some m /\ pull_transfer_id m = "t1" /\
    written_for (demo_producer_run p) 0 (query (demo_consumer 0 []) (pulls s) [("d1", 0%nat)]) "d1" "t1" [[2; 3]].
Proof.
  destruct (demo_run new_sender both_served) as [p|] eqn:Ep; [|vm_compute in Ep; discriminate].
  destruct (receiver_run demo_target 0 1 new_receiver demo_pull) as [s|] eqn:Es; [|vm_compute in Es; discriminate].
  assert (valid_run (demo_producer_run p)) as Hv.
  { constructor; [intros l; reflexivity|simpl; lia| | |exact Ep].
    - intros size Hs. simpl. destruct (Z.eqb_spec size 1); lia.
    - repeat constructor; simpl; try lia; apply not_elem_of_nil. }
  pose proof (run_receives _ _ _ [] _ _ _ (receives_new demo_target 0 1) Es) as Hr.
  pose proof (pulled_bytes_written demo_target 0 1 (demo_consumer 0 []) demo_pull s (fun _ => demo_producer_run p)
    (fun t => t) Hr (fun _ => Hv)) as H.
  vm_compute in Ep. injection Ep as <-. vm_compute in Es. injection Es as <-.
  destruct (fun A B C => H A B 0%nat C) as (_ & m & Hm & Hw).
  - intros [|t]; [exists []; reflexivity|]. exact (prefix_nil _).
  - intros [|t] x meta Hx; [|discriminate Hx]. injection Hx as <-.
    intros Hin. vm_compute in Hin. repeat (apply elem_of_cons in Hin as [Hin|Hin]; [try discriminate Hin; injection Hin as ->; reflexivity|]).
    by apply not_elem_of_nil in Hin.
  - do 2 apply list_elem_of_further. apply list_elem_of_here.
  - destruct (Hw 0%nat _ eq_refl) as (req & Hreq & Hwrite); [apply list_elem_of_here|].
    injection Hm as <-. apply list_elem_of_singleton in Hreq. injection Hreq as ->.
    eexists _, _, _. split_and!; [reflexivity|reflexivity|reflexivity|reflexivity|reflexivity|exact Hwrite].
Defined.
