(* ===== verification/MooncakeLedger.v ===== *)
(** * The ledger of a Mooncake transfer

    About MooncakeSender.v.  Every transfer has a ledger: the scheduler opens
    it, and fills it with blocks or forgets it.  The worker's table refines the
    ledger, whatever consumers ask and whatever becomes of the transfers to
    them; a metadata that the ledgers allow is recorded without an exception. *)

From S2P Require Import Prelude PyString Tensors MooncakeRegions MooncakeTopology MooncakeSender MooncakeSenderCorrect.
Import Mooncake MooncakeTopology MooncakeSender.
Local Open Scope Z_scope.

(** ** The ledger of a transfer *)

Inductive ledger := Unopened | Open | Filled (req : string) (block_ids : list (list Z)) | Forgotten.

(** What a metadata does to the ledger of one transfer *)
Inductive event := Opens | Fills (req : string) (block_ids : list (list Z)) | Forgets.

Definition next (l : ledger) (e : event) : option ledger :=
  match e, l with
  | Opens, (Unopened | Open) => Some Open
  | Fills req blocks, Open => Some (Filled req blocks)
  | Forgets, (Unopened | Open) => Some Forgotten
  | _, _ => None
  end.

Fixpoint run_events (l : ledger) (es : list event) : option ledger :=
  match es with [] => Some l | e :: rest => l' ← next l e; run_events l' rest end.

Definition send_event (req : string) (block_ids : list (list Z)) : event :=
  if is_empty block_ids then Opens else Fills req block_ids.

Definition sends_of (t : string) (send : list (string * (string * list (list Z)))) : list event :=
  map (fun e => send_event e.1 e.2.2) (filter (fun e => e.2.1 = t) send).

Definition forgets_of (t : string) (forget : list string) : list event :=
  replicate (length (filter (eq t) forget)) Forgets.

Definition set_ledger (L : string -> ledger) (t : string) (l : ledger) : string -> ledger :=
  fun t' => if decide (t' = t) then l else L t'.

Lemma run_events_app l es es' : run_events l (es ++ es') = (run_events l es ≫= fun l' => run_events l' es').
Proof. revert l. induction es as [|e es IH]; intros l; simpl; [done|]. destruct (next l e); simpl; [apply IH|done]. Qed.

(** ** The worker refines the ledger *)

(** What consumers do not change in the record of a transfer *)
Definition same_but_counters (m m' : SendBlockMeta) : Prop :=
  p_req_id m' = p_req_id m /\ transfer_id m' = transfer_id m /\ local_block_ids m' = local_block_ids m /\
  ready m' = ready m /\ expire_time m' = expire_time m.

(** The objects of a batch have their blocks. *)
Definition all_filled (batch : list (string * nat)) (s : sender) : Prop :=
  forall req o, (req, o) ∈ batch -> exists m, heap s !! o = Some m /\ ready m = true.

Record keeps (L : string -> ledger) (rep : gset string) (s : sender) : Prop := {
  k_table t o : dget (reqs_need_send s) t = Some o -> exists m, heap s !! o = Some m /\ transfer_id m = t;
  k_keys : NoDup (dkeys (reqs_need_send s));
  k_filled o m : heap s !! o = Some m -> ready m = true -> L (transfer_id m) = Filled (p_req_id m) (local_block_ids m);
  k_one o o' m m' : heap s !! o = Some m -> heap s !! o' = Some m' -> ready m = true -> ready m' = true ->
    transfer_id m = transfer_id m' -> o = o';
  k_open t : L t = Open -> is_Some (dget (reqs_need_send s) t);
  k_flight c x batch copies errs msg : conns s !! c = Some x -> c_phase x = InFlight batch copies errs msg ->
    all_filled batch s;
  k_expire o m : heap s !! o = Some m -> is_Some (expire_time m) -> ready m = true;
  k_served t req blocks : L t = Filled req blocks -> req ∈ finished_sending_reqs s ∪ rep \/
    exists o m, dget (reqs_need_send s) t = Some o /\ heap s !! o = Some m /\ ready m = true /\ is_Some (expire_time m);
  k_reported req : req ∈ finished_sending_reqs s ∪ rep -> exists t blocks, L t = Filled req blocks
}.

Section worker.
Context (L : string -> ledger) (rep : gset string).

Abbreviation K := (keeps L rep).
Abbreviation stays m := (ensures K m (fun _ => K) K).

Lemma keeps_heap s s' :
  K s -> reqs_need_send s' = reqs_need_send s -> finished_sending_reqs s' = finished_sending_reqs s ->
  conns s' = conns s ->
  (forall o, option_Forall2 same_but_counters (heap s !! o) (heap s' !! o)) -> K s'.
Proof.
  intros [] Ht Hf Hc Hh.
  assert (forall o m', heap s' !! o = Some m' -> exists m, heap s !! o = Some m /\ same_but_counters m m') as Hback.
  { intros o m' Hm'. specialize (Hh o). rewrite Hm' in Hh. inversion Hh; subst. by eexists. }
  assert (forall o m, heap s !! o = Some m -> exists m', heap s' !! o = Some m' /\ same_but_counters m m') as Hforth.
  { intros o m Hm. specialize (Hh o). rewrite Hm in Hh. inversion Hh; subst. by eexists. }
  constructor; rewrite ?Ht, ?Hf, ?Hc; try done.
  - intros t o Ho. destruct (k_table0 t o Ho) as (m & Hm & <-). destruct (Hforth _ _ Hm) as (m' & Hm' & ? & ? & _). eauto.
  - intros o m' Hm' Hr. destruct (Hback _ _ Hm') as (m & Hm & -> & -> & -> & E & _). apply (k_filled0 o); congruence.
  - intros o o' m m' Hm Hm' Hr Hr' Heq. destruct (Hback _ _ Hm) as (n & Hn & _ & E1 & _ & E2 & _).
    destruct (Hback _ _ Hm') as (n' & Hn' & _ & E1' & _ & E2' & _). eapply k_one0; [exact Hn|exact Hn'|congruence..].
  - intros c x batch copies errs msg Hx Hp req o Hin. destruct (k_flight0 _ _ _ _ _ _ Hx Hp req o Hin) as (m & Hm & Hr).
    destruct (Hforth _ _ Hm) as (m' & Hm' & _ & _ & _ & E & _). exists m'. split; [done|congruence].
  - intros o m' Hm' He. destruct (Hback _ _ Hm') as (m & Hm & _ & _ & _ & E1 & E2). rewrite E1. rewrite E2 in He. eauto.
  - intros t req blocks Hl. destruct (k_served0 _ _ _ Hl) as [?|(o & m & Ho & Hm & Hr & He)]; [by left|right].
    destruct (Hforth _ _ Hm) as (m' & Hm' & _ & _ & _ & E & E'). exists o, m'. rewrite E, E'. done.
Qed.

Lemma keeps_frame s s' :
  K s -> heap s' = heap s -> reqs_need_send s' = reqs_need_send s -> finished_sending_reqs s' = finished_sending_reqs s ->
  conns s' = conns s -> K s'.
Proof.
  intros H Hh Ht Hf Hc. eapply keeps_heap; [exact H|done..|]. intros o. rewrite Hh.
  destruct (heap s !! o); constructor. by split_and!.
Qed.

(** A change of counters *)
Lemma update_stays o f : (forall m, same_but_counters m (f m)) -> stays (update o f).
Proof.
  intros Hf s H. unfold update, modify. eapply keeps_heap; [exact H|done..|]. intros o'. simpl.
  destruct (decide (o = o')) as [<-|Hne].
  - rewrite lookup_alter_eq. destruct (heap s !! o); constructor. apply Hf.
  - rewrite lookup_alter_ne by done. destruct (heap s !! o'); constructor. by split_and!.
Qed.

Lemma log_stays e : stays (modify (add_log e)).
Proof. intros s H. by eapply keeps_frame; [exact H|..]. Qed.

Lemma conn_keeps c x s :
  K s -> (forall batch copies errs msg, c_phase x = InFlight batch copies errs msg -> all_filled batch s) ->
  K (set_conn c x s).
Proof.
  intros [] Hx. constructor; simpl; try done. intros c' x' batch copies errs msg Hx' Hp.
  destruct (decide (c = c')) as [<-|Hne].
  - rewrite lookup_insert_eq in Hx'. simplify_eq. by eapply Hx.
  - rewrite lookup_insert_ne in Hx' by done. by eapply k_flight0.
Qed.

Lemma conn_stays c x : (forall b cp e m, c_phase x <> InFlight b cp e m) -> stays (modify (set_conn c x)).
Proof. intros Hx s H. apply conn_keeps; [done|]. intros b cp e m Hp. by destruct (Hx b cp e m). Qed.

Lemma object_stays o : stays (object o).
Proof. intros s H. unfold object. by destruct (heap s !! o). Qed.

(** An entry that is created for a consumer *)
Lemma new_entry_keeps s req t :
  K s -> dget (reqs_need_send s) t = None ->
  let o := fresh (dom (heap s)) in
  K (set_table (dset (reqs_need_send s) t o) (set_heap (<[o := empty_meta req t]> (heap s)) s)).
Proof.
  intros [] Ht o. assert (heap s !! o = None) as Ho by (apply not_elem_of_dom, is_fresh).
  assert (forall o' m, heap s !! o' = Some m -> o' <> o) as Hne by (intros o' m Hm ->; congruence).
  assert (forall o' m, <[o := empty_meta req t]> (heap s) !! o' = Some m -> ready m = true \/ is_Some (expire_time m) -> heap s !! o' = Some m) as Hold.
  { intros o' m Hm Hr. destruct (decide (o' = o)) as [->|Hn]; [|by rewrite lookup_insert_ne in Hm].
    rewrite lookup_insert_eq in Hm. simplify_eq. by destruct Hr as [?|[? ?]]. }
  assert (forall o' m, heap s !! o' = Some m -> <[o := empty_meta req t]> (heap s) !! o' = Some m) as Hnew.
  { intros o' m Hm. rewrite lookup_insert_ne; [done|]. by intros <-; eapply Hne. }
  constructor; simpl.
  - intros t' o'. rewrite dget_dset. case_decide as Heq; [intros [= <-]|].
    + subst t'. exists (empty_meta req t). by rewrite lookup_insert_eq.
    + intros Ho'. destruct (k_table0 _ _ Ho') as (m & Hm & ?). exists m. split; [by apply Hnew|done].
  - by apply NoDup_dset.
  - intros o' m Hm Hr. apply (k_filled0 o' m); [|done]. apply Hold; [done|by left].
  - intros o1 o2 m1 m2 H1 H2 R1 R2. apply (k_one0 o1 o2 m1 m2); [apply Hold; [done|by left]..|done|done].
  - intros t' Hl. rewrite dget_dset. case_decide; [by eexists|by apply k_open0].
  - intros c x b cp e m Hx Hp r o' Hin. destruct (k_flight0 _ _ _ _ _ _ Hx Hp r o' Hin) as (m' & Hm & Hr).
    exists m'. split; [by apply Hnew|done].
  - intros o' m Hm He. apply (k_expire0 o' m); [|done]. apply Hold; [done|by right].
  - intros t' r bl Hl. destruct (k_served0 _ _ _ Hl) as [?|(o' & m & Ho' & Hm & Hr)]; [by left|right].
    exists o', m. rewrite dget_dset_ne by (intros ->; congruence). split_and!; [done|by apply Hnew|apply Hr..].
  - done.
Qed.

(** A transfer whose blocks are given back *)
Lemma release_keeps s s' o m :
  K s -> heap s !! o = Some m -> ready m = true -> heap s' = heap s -> conns s' = conns s ->
  reqs_need_send s' = ddel (reqs_need_send s) (transfer_id m) ->
  finished_sending_reqs s' = finished_sending_reqs s ∪ {[p_req_id m]} -> K s'.
Proof.
  intros [] Hm Hr Hh Hc Ht Hf. pose proof (k_filled0 o m Hm Hr) as HL.
  constructor; rewrite ?Hh, ?Hc, ?Ht, ?Hf; try done.
  - intros t o' Ho'. destruct (decide (transfer_id m = t)) as [<-|Hne].
    + by rewrite dget_ddel_eq in Ho'.
    + rewrite dget_ddel_ne in Ho' by done. by apply k_table0.
  - by apply NoDup_ddel.
  - intros t Hl. rewrite dget_ddel_ne by (intros <-; congruence). by apply k_open0.
  - intros c x b cp e ms Hx Hp. intros r o' Hin. rewrite Hh. by eapply k_flight0.
  - intros t req blocks Hl. destruct (decide (transfer_id m = t)) as [<-|Hne].
    + left. rewrite HL in Hl. simplify_eq. set_solver.
    + rewrite dget_ddel_ne by done. destruct (k_served0 _ _ _ Hl) as [?|?]; [left; set_solver|by right].
  - intros req Hin. destruct (decide (req = p_req_id m)) as [->|Hne]; [by eexists _, _|].
    apply k_reported0. set_solver.
Qed.

Lemma all_filled_later batch s s' :
  all_filled batch s ->
  (forall o, option_Forall2 same_but_counters (heap s !! o) (heap s' !! o)) -> all_filled batch s'.
Proof.
  intros H Hh req o Hin. destruct (H req o Hin) as (m & Hm & Hr). specialize (Hh o). rewrite Hm in Hh.
  inversion Hh as [? m' (_ & _ & _ & E & _)|]; subst. exists m'. split; [done|congruence].
Qed.

Lemma counters_refl (s : sender) o : option_Forall2 same_but_counters (heap s !! o) (heap s !! o).
Proof. destruct (heap s !! o); constructor. by split_and!. Qed.

Lemma counters_update o f s :
  (forall m, same_but_counters m (f m)) ->
  forall o', option_Forall2 same_but_counters (heap s !! o') (heap (set_heap (alter f o (heap s)) s) !! o').
Proof.
  intros Hf o'. simpl. destruct (decide (o = o')) as [<-|Hne].
  - rewrite lookup_alter_eq. destruct (heap s !! o); constructor. apply Hf.
  - rewrite lookup_alter_ne by done. apply counters_refl.
Qed.

Lemma add_sending_same n m : same_but_counters m (add_sending n m).
Proof. by split_and!. Qed.
Lemma add_sent_same m : same_but_counters m (add_sent m).
Proof. by split_and!. Qed.
Lemma resolve_same ranks m : same_but_counters m (resolve_need_send ranks m).
Proof. by split_and!. Qed.

Lemma keeps_update o f s : (forall m, same_but_counters m (f m)) -> K s -> K (set_heap (alter f o (heap s)) s).
Proof. intros Hf H. eapply keeps_heap; [exact H|done..|]. by apply counters_update. Qed.


(** The same, with the blocks of [l] there *)
Abbreviation KF l := (fun s => K s /\ all_filled l s).

Lemma update_KF l o f : (forall m, same_but_counters m (f m)) -> ensures (KF l) (update o f) (fun _ => KF l) K.
Proof.
  intros Hf s [H Hl]. unfold update, modify. split; [by apply keeps_update|].
  eapply all_filled_later; [exact Hl|by apply counters_update].
Qed.

Lemma object_KF l o : ensures (KF l) (object o) (fun m s => KF l s /\ heap s !! o = Some m) K.
Proof. intros s H. unfold object. by destruct (heap s !! o) eqn:E; [|apply H]. Qed.

Lemma release_KF l o m :
  ensures (fun s => KF l s /\ heap s !! o = Some m /\ ready m = true) (release o m) (fun _ => KF l) K.
Proof.
  intros s ([H Hl] & Hm & Hr). unfold release. erewrite M_bind_ok by reflexivity.
  destruct (dget (reqs_need_send s) (transfer_id m)); [|done]. split; [|done]. by apply (release_keeps s _ o m).
Qed.

Lemma settle_batch_KF errs batch l :
  ensures (KF (batch ++ l)) (settle_batch errs batch) (fun _ => KF l) K.
Proof.
  induction batch as [|[req o] batch IH]; simpl; [by intros s Hs|].
  eapply ensures_bind; [apply update_KF; apply add_sending_same|]. intros [].
  apply (ensures_bind _ _ _ (fun _ => KF (batch ++ l))); [|by intros []].
  assert (forall s, KF ((req, o) :: batch ++ l) s -> KF (batch ++ l) s) as Hw.
  { intros s [H Hb]. split; [done|]. intros r' o' Hin. apply (Hb r'). by right. }
  case_bool_decide; [apply ensures_ret, Hw|].
  eapply ensures_bind; [apply update_KF; apply add_sent_same|]. intros [].
  eapply ensures_bind; [apply object_KF|]. intros m. case_if.
  - eapply ensures_weaken; [apply (release_KF (batch ++ l) o m)| |done..].
    intros s [Hs Hm]. split_and!; [by apply Hw..|done|].
    destruct Hs as [_ Hb]. destruct (Hb req o) as (m' & Hm' & Hr); [by left|]. congruence.
  - apply ensures_ret. intros s [Hs _]. by apply Hw.
Qed.

Lemma end_round_stays c x batch errs msg : ensures (KF batch) (end_round c x batch errs msg) (fun _ => K) K.
Proof.
  unfold end_round. apply (ensures_bind _ _ _ (fun _ => K)).
  { eapply ensures_weaken; [apply (settle_batch_KF errs batch [])|by rewrite app_nil_r|intros [] s Hs; exact (proj1 Hs)|done]. }
  intros []. eapply ensures_bind; [apply log_stays|]. intros []. apply conn_stays. simpl. by case_if.
Qed.

(** The objects of the requests [done] *)
Definition todo (x : conn) (done : list string) : list (string * nat) :=
  omap (fun req => pair req <$> dget (c_pending x) req) done.

Lemma todo_cons x req o rest : dget (c_pending x) req = Some o -> todo x (req :: rest) = (req, o) :: todo x rest.
Proof. unfold todo. simpl. by intros ->. Qed.

Lemma all_filled_sub l l' s : l' ⊆ l -> all_filled l s -> all_filled l' s.
Proof. intros Hs H req o Hin. apply (H req), Hs, Hin. Qed.

Lemma take_ready_KF x done l :
  ensures (KF (todo x done ++ l)) (take_ready x done) (fun batch => KF (batch ++ l)) K.
Proof.
  revert l. induction done as [|req rest IH]; intros l; cbn [take_ready]; [by intros s Hs|].
  destruct (dget (c_pending x) req) as [o|] eqn:Ho.
  2: { apply ensures_raise. by intros s [Hs _]. }
  rewrite (todo_cons _ _ _ _ Ho). cbn [app].
  eapply ensures_bind; [apply object_KF|]. intros m. apply (ensures_bind _ _ _ (fun _ => KF ((req, o) :: todo x rest ++ l))).
  { apply ensures_get. intros s Hs. apply Hs. }
  intros s1. case_if.
  - eapply ensures_bind.
    { eapply ensures_weaken; [apply (update_KF ((req, o) :: todo x rest ++ l) o (add_sending 1)), add_sending_same|done..]. }
    intros []. apply (ensures_bind _ _ _ (fun _ => KF (todo x rest ++ (req, o) :: l))).
    { eapply (ensures_weaken (KF ((req, o) :: todo x rest ++ l)) _ _ (fun _ => KF ((req, o) :: todo x rest ++ l))); [|done| |done].
      - case_if; [apply update_KF, resolve_same|by intros s Hs].
      - intros [] s [Hs Hf]. split; [done|]. eapply all_filled_sub; [|exact Hf]. set_solver. }
    intros []. eapply ensures_bind; [apply IH|]. intros batch. apply ensures_ret. intros s [Hs Hf]. split; [exact Hs|].
    eapply all_filled_sub; [|exact Hf]. set_solver.
  - eapply ensures_weaken; [exact (IH l)| |done..]. intros s [Hs Hf]. split; [exact Hs|].
    eapply all_filled_sub; [|exact Hf]. set_solver.
Qed.

Lemma blocks_of_stays x batch l : ensures (KF l) (blocks_of x batch) (fun _ => KF l) K.
Proof.
  intros s Hs. pose proof (blocks_of_same x batch s) as E.
  destruct (blocks_of x batch s) as [[]]; simpl in *; subst; [done|apply Hs].
Qed.

Context (own : MooncakeXferMetadata) (layer_group_indices : dict string Z) (topo : topology).
Context (mamba : list bool) (NULL_BLOCK_ID physical_blocks : Z) (map_to_kernel_blocks : list Z -> Z -> list Z).
Context (pcp_dummy_sender : bool) (ABORT_REQUEST_TIMEOUT : Z).

Abbreviation wake := (wake_up topo mamba NULL_BLOCK_ID physical_blocks map_to_kernel_blocks).

Lemma wake_up_stays c x done : ensures (KF (todo x done)) (wake c x done) (fun _ => K) K.
Proof.
  unfold wake_up. apply (ensures_bind _ _ _ (fun batch => KF batch)).
  { eapply ensures_weaken; [apply (take_ready_KF x done [])|intros s Hs; by rewrite app_nil_r|intros batch s Hs; cbv beta in *; by rewrite app_nil_r in Hs|done]. }
  intros batch. cbv zeta. eapply ensures_bind; [apply blocks_of_stays|]. intros blocks.
  eapply ensures_bind.
  { apply (ensures_lift _ _ (fun _ => KF batch)); [by intros s a Hs _|by intros s [Hs _]]. }
  intros [[copies errs] msg]. case_if; [apply end_round_stays|].
  intros s [Hs Hf]. apply conn_keeps; [done|]. intros b cp e m [= <- _ _ _]. done.
Qed.

Lemma may_wake_filled s x done : may_wake s x done = true -> all_filled (todo x done) s.
Proof.
  intros Hw. apply andb_true_iff in Hw as [_ Hall]. rewrite forallb_forall in Hall.
  intros req o (r & Hr & Ho)%list_elem_of_omap. destruct (dget (c_pending x) r) as [o'|] eqn:E; [|done].
  injection Ho as -> ->. apply list_elem_of_In in Hr. specialize (Hall _ Hr). rewrite E in Hall. bool_prop.
  simpl in *. destruct (heap s !! o) as [m|]; [by eexists|done].
Qed.

Lemma transfer_done_stays c x batch copies errs msg ret :
  ensures (KF batch) (transfer_done c x batch copies errs msg ret) (fun _ => K) K.
Proof.
  unfold transfer_done. case_if; [|apply end_round_stays].
  apply (ensures_bind _ _ _ (fun _ => KF batch)); [|intros []; apply end_round_stays].
  intros s [Hs Hf]. split; [by apply log_stays|done].
Qed.

Lemma timeout_stays c x : ensures K (timeout c x) (fun _ => K) K.
Proof. eapply ensures_bind; [apply log_stays|]. intros []. by apply conn_stays. Qed.

Lemma sender_worker_stays c m (P : sender -> Prop) :
  ensures P m (fun _ => K) K -> ensures P (sender_worker c m) (fun _ => K) K.
Proof.
  intros H s Hs. specialize (H s Hs). unfold sender_worker, try_. destruct (m s) as [[[]|e] s']; [done|].
  apply (ensures_bind K _ _ (fun _ => K)); [apply log_stays| |done]. intros [] s2 H2.
  unfold modify. destruct (conns s2 !! c); [by apply conn_keeps|done].
Qed.

Lemma entry_for_keep t : stays (entry_for t).
Proof.
  intros s Hs. unfold entry_for. erewrite M_bind_ok by reflexivity.
  destruct (dget (reqs_need_send s) t) eqn:E; [done|]. exact (new_entry_keeps s "" t Hs E).
Qed.

Lemma join_requests_keep reqs : stays (join_requests reqs).
Proof.
  induction reqs as [|[req [t bl]] reqs IH]; simpl; [by intros s Hs|].
  eapply ensures_bind; [apply entry_for_keep|]. intros o. eapply ensures_bind; [apply IH|]. intros more.
  by intros s Hs.
Qed.

Lemma send_kv_stays c meta : stays (send_kv_to_decode own layer_group_indices topo c meta).
Proof.
  assert (forall msg, stays (reject_metadata c msg)) as Hrej.
  { intros msg. apply log_stays. }
  assert (forall (A : Type) (r : result A), ensures K (lift r) (fun _ : A => K) K) as Hlift.
  { intros A r. apply ensures_lift; by intros. }
  unfold send_kv_to_decode. repeat (case_if; [by apply Hrej|]). cbv zeta.
  lazymatch goal with |- context [match ?o with Some _ => _ | None => _ end] => destruct o; [by apply Hrej|] end.
  eapply ensures_bind; [apply Hlift|]. intros ls. eapply ensures_bind; [apply Hlift|]. intros rs.
  destruct (align_transfer_regions ls rs) as [[l r]|]; [|by apply Hrej].
  destruct (validate_asymmetric_region_lengths _ _ _ _ _); [by apply Hrej|].
  eapply ensures_bind; [apply join_requests_keep|]. intros pending. apply conn_stays. simpl. by case_if.
Qed.

Abbreviation worker_step := (step own layer_group_indices topo mamba NULL_BLOCK_ID physical_blocks
  map_to_kernel_blocks pcp_dummy_sender ABORT_REQUEST_TIMEOUT).

(** Whatever consumers and the transfer engine do *)
Lemma works_keeps s a s' :
  K s -> (forall now send forget, a <> Recorded now send forget) -> (forall now, a <> Fetched now) ->
  worker_step s a = Some s' -> K s'.
Proof.
  intros Hs Hr Hf.
  assert (forall (P : sender -> Prop) m, ensures P m (fun _ : unit => K) K -> P s -> K (m s).2) as Hrun.
  { intros P m Hm HP. specialize (Hm s HP). by destruct (m s) as [[]]. }
  assert (forall c x batch copies errs msg, conns s !! c = Some x -> c_phase x = InFlight batch copies errs msg ->
    KF batch s) as Hflight.
  { intros. split; [done|]. by eapply (k_flight _ _ _ Hs). }
  unfold step. destruct a as [c meta|c done|c ret|c e|c|now send forget|now]; simpl handler.
  - destruct (conns s !! c); [done|]. intros [= <-]. eapply Hrun; [|exact Hs]. apply sender_worker_stays, send_kv_stays.
  - destruct (conns s !! c) as [x|] eqn:Hx; [|done]. simpl. destruct (c_phase x) eqn:Hph; try done.
    destruct (may_wake s x done) eqn:Hw; [|done]. intros [= <-].
    eapply (Hrun (KF (todo x done))); [apply sender_worker_stays, wake_up_stays|].
    split; [done|]. by apply may_wake_filled.
  - destruct (conns s !! c) as [x|] eqn:Hx; [|done]. simpl. destruct (c_phase x) eqn:Hph; try done.
    intros [= <-]. eapply Hrun; [apply sender_worker_stays, transfer_done_stays|]. by eapply Hflight.
  - destruct (conns s !! c) as [x|] eqn:Hx; [|done]. simpl. destruct (c_phase x) eqn:Hph; try done.
    intros [= <-]. apply (Hrun K (sender_worker c (throw e))); [|done]. apply sender_worker_stays. by intros s1 Hs1.
  - destruct (conns s !! c) as [x|] eqn:Hx; [|done]. simpl. destruct (c_phase x) eqn:Hph; try done.
    intros [= <-]. apply (Hrun K (sender_worker c (timeout c x))); [|done]. apply sender_worker_stays, timeout_stays.
  - by destruct (Hr now send forget).
  - by destruct (Hf now).
Qed.
End worker.

(** *** Requests that are reported *)

Lemma expire_each_keeps L rep l s :
  keeps L rep s ->
  Forall (fun e => exists m, heap s !! e.2 = Some m /\ transfer_id m = e.1 /\ ready m = true) l ->
  exists s', for_each l expire_entry s = (Ok tt, s') /\ keeps L rep s' /\ heap s' = heap s /\
    reqs_need_send s' = foldl ddel (reqs_need_send s) (map fst l).
Proof.
  revert s. induction l as [|[t o] l IH]; intros s Hs Hl; simpl; [by exists s|].
  apply Forall_cons in Hl as [(m & Hm & Ht & Hr) Hl]. simpl in *. subst t.
  set (s1 := release_state o (transfer_id m) (p_req_id m) s).
  destruct (IH s1) as (s' & E & Hs' & Hh & Ht); [by apply (release_keeps L rep s _ o m)|done|].
  exists s'. split_and!; [|done..]. rewrite <- E. erewrite M_bind_ok; [reflexivity|].
  unfold expire_entry. by rewrite (M_bind_ok _ _ _ _ _ (object_at o m s Hm)).
Qed.

Lemma foldl_ddel_gone (d : dict string nat) ks k : NoDup (dkeys d) -> k ∈ ks -> dget (foldl ddel d ks) k = None.
Proof.
  assert (forall ks (d : dict string nat), NoDup (dkeys d) -> dget d k = None -> dget (foldl ddel d ks) k = None) as Hkeep.
  { clear. induction ks as [|k' ks IH]; intros d Hnd Hk; simpl; [done|]. apply IH; [by apply NoDup_ddel|].
    destruct (decide (k' = k)) as [->|Hne]; [by apply dget_ddel_eq|]. by rewrite dget_ddel_ne. }
  revert d. induction ks as [|k' ks IH]; intros d Hnd Hin; [by apply elem_of_nil in Hin|]. simpl.
  apply elem_of_cons in Hin as [<-|Hin]; [apply Hkeep; [by apply NoDup_ddel|by apply dget_ddel_eq]|].
  apply IH; [by apply NoDup_ddel|done].
Qed.

(** What is finished is reported. *)
Lemma expire_more l s a s' : for_each l expire_entry s = (Ok a, s') -> finished_sending_reqs s ⊆ finished_sending_reqs s'.
Proof.
  revert s. induction l as [|[t o] l IH]; intros s; simpl; [by intros [= _ <-]|].
  intros H. apply M_bind_inv in H as (u & s1 & E & H). unfold expire_entry in E.
  apply M_bind_inv in E as (m & s2 & E1 & E2). unfold object in E1. simpl in E1.
  destruct (heap s !! o); [|done]. injection E1 as <- <-. injection E2 as _ <-. apply IH in H. simpl in H. set_solver.
Qed.

Lemma fetch_reports now s ids s' : fetch_finished_sending_reqs now s = (Ok ids, s') -> finished_sending_reqs s ⊆ ids.
Proof.
  unfold fetch_finished_sending_reqs. intros H. apply M_bind_inv in H as (s0 & s1 & E & H). injection E as <- <-.
  apply M_bind_inv in H as (u & s1 & E & H). apply expire_more in E. unfold mbind, M_bind in H. by injection H as <- _.
Qed.

(** A report: what is reported was filled, and what has expired is reported. *)
Lemma fetch_keeps L rep now s :
  keeps L rep s ->
  exists ids s', fetch_finished_sending_reqs now s = (Ok ids, s') /\ keeps L (rep ∪ ids) s' /\
    forall t o m, dget (reqs_need_send s) t = Some o -> heap s !! o = Some m -> expired now m = true ->
      p_req_id m ∈ rep ∪ ids.
Proof.
  intros Hs. destruct (expire_each_keeps L rep (expired_entries now s) s) as (s' & E & Hs' & Hh & Ht); [done| |].
  { rewrite Forall_forall. intros [t o] [He Hin]%list_elem_of_filter. simpl in *.
    destruct (k_table _ _ _ Hs t o) as (m & Hm & ?); [apply elem_dget; [apply Hs|done]|].
    unfold expired_object in He. rewrite Hm in He. exists m. split_and!; [done..|].
    apply (k_expire _ _ _ Hs o); [done|]. unfold expired in He. bool_prop. by destruct (expire_time m). }
  exists (finished_sending_reqs s'), (set_finished ∅ s').
  assert (keeps L (rep ∪ finished_sending_reqs s') (set_finished ∅ s')) as Hk.
  { destruct Hs'. constructor; simpl; try done.
    - intros t req blocks HL. destruct (k_served0 _ _ _ HL) as [?|?]; [left; set_solver|by right].
    - intros req Hin. apply k_reported0. set_solver. }
  split_and!; [|exact Hk|].
  - unfold fetch_finished_sending_reqs. erewrite M_bind_ok by reflexivity. by rewrite (M_bind_ok _ _ _ _ _ E).
  - intros t o m Ho Hm Hexp. assert (ready m = true) as Hr.
    { apply (k_expire _ _ _ Hs o); [done|]. unfold expired in Hexp. bool_prop. by destruct (expire_time m). }
    destruct (k_table _ _ _ Hs t o Ho) as (m' & Hm' & Htid). simplify_eq.
    pose proof (k_filled _ _ _ Hs o m Hm Hr) as HL.
    destruct (k_served _ _ _ Hk _ _ _ HL) as [Hin|(o' & m' & Ho' & _)]; [set_solver|]. simpl in Ho'.
    rewrite Ht, foldl_ddel_gone in Ho'; [done|apply Hs|]. apply list_elem_of_fmap. exists (transfer_id m, o).
    split; [done|]. apply list_elem_of_filter. split; [|by apply dget_elem]. unfold expired_object. simpl. by rewrite Hm.
Qed.

(** *** Requests that are recorded *)

Lemma keeps_ext L L' rep s : (forall t, L' t = L t) -> keeps L rep s -> keeps L' rep s.
Proof.
  intros E []. constructor; try done.
  - intros. rewrite E. eauto.
  - intros t. rewrite E. apply k_open0.
  - intros t req blocks. rewrite E. apply k_served0.
  - intros req Hin. destruct (k_reported0 req Hin) as (t & blocks & H). exists t, blocks. by rewrite E.
Qed.

(** A ledger moves on while the worker stays as it is. *)
Lemma keeps_set L rep s t l :
  keeps L rep s -> (forall req blocks, L t <> Filled req blocks) -> (forall req blocks, l <> Filled req blocks) ->
  (l = Open -> is_Some (dget (reqs_need_send s) t)) -> keeps (set_ledger L t l) rep s.
Proof.
  intros [] HL Hl Ho. unfold set_ledger. constructor; try done.
  - intros o m Hm Hr. pose proof (k_filled0 o m Hm Hr). case_decide; subst; [by edestruct HL|done].
  - intros t'. case_decide; subst; [done|apply k_open0].
  - intros t' req blocks. case_decide; subst; [by intros ?%Hl|apply k_served0].
  - intros req Hin. destruct (k_reported0 req Hin) as (t' & blocks & H). exists t', blocks.
    case_decide; subst; [by edestruct HL|done].
Qed.

(** The entry of a transfer without blocks is dropped. *)
Lemma keeps_unlist L rep s t l :
  keeps L rep s -> (forall req blocks, L t <> Filled req blocks) -> (forall req blocks, l <> Filled req blocks) ->
  l <> Open -> keeps (set_ledger L t l) rep (set_table (ddel (reqs_need_send s) t) s).
Proof.
  intros Hs HL Hl Ho. pose proof (keeps_set L rep s t l Hs HL Hl ltac:(done)) as [].
  constructor; simpl; try done.
  - intros t' o Ho'. destruct (decide (t = t')) as [<-|Hne]; [by rewrite dget_ddel_eq in Ho' by apply Hs|].
    rewrite dget_ddel_ne in Ho' by done. by apply k_table0.
  - by apply NoDup_ddel.
  - intros t' H. rewrite dget_ddel_ne; [by apply k_open0|]. intros <-. unfold set_ledger in H. by rewrite decide_True in H.
  - intros t' req blocks H. rewrite dget_ddel_ne; [by apply (k_served0 _ _ _ H)|].
    intros <-. unfold set_ledger in H. rewrite decide_True in H by done. by eapply Hl.
Qed.

(** The blocks of a transfer become available. *)
Lemma keeps_fill L rep s t o req blocks expires :
  keeps L rep s -> L t = Open -> dget (reqs_need_send s) t = Some o ->
  keeps (set_ledger L t (Filled req blocks)) rep (set_heap (alter (make_ready req blocks expires) o (heap s)) s).
Proof.
  intros [] HL Ho. destruct (k_table0 t o Ho) as (m & Hm & Ht). unfold set_ledger.
  assert (forall o' m', heap s !! o' = Some m' -> ready m' = true -> transfer_id m' <> t) as Hother.
  { intros o' m' Hm' Hr Heq. pose proof (k_filled0 o' m' Hm' Hr). congruence. }
  assert (forall o' m', alter (make_ready req blocks expires) o (heap s) !! o' = Some m' ->
    o' = o /\ m' = make_ready req blocks expires m \/ o' <> o /\ heap s !! o' = Some m') as Hcases.
  { intros o' m' Hm'. destruct (decide (o' = o)) as [->|Hne]; [left|right].
    - rewrite lookup_alter_eq, Hm in Hm'. by simplify_eq/=.
    - by rewrite lookup_alter_ne in Hm'. }
  assert (alter (make_ready req blocks expires) o (heap s) !! o = Some (make_ready req blocks expires m)) as Hself.
  { by rewrite lookup_alter_eq, Hm. }
  constructor; simpl; try done.
  - intros t' o' Ho'. destruct (decide (o' = o)) as [->|Hne].
    + destruct (k_table0 t' o Ho') as (m' & Hm' & <-). simplify_eq. by eexists.
    + rewrite lookup_alter_ne by done. by apply k_table0.
  - intros o' m' [[-> ->]|[Hne Hm']]%Hcases Hr; simpl.
    + by rewrite Ht, decide_True.
    + rewrite decide_False by (by eapply Hother). eauto.
  - intros o1 o2 m1 m2 [[-> ->]|[Hn1 H1]]%Hcases [[-> ->]|[Hn2 H2]]%Hcases R1 R2 E; simpl in *; [done| | |eauto].
    + destruct (Hother _ _ H2 R2). congruence.
    + destruct (Hother _ _ H1 R1). congruence.
  - intros t' H. case_decide; [done|auto].
  - intros c x b cp e msg Hx Hp r o' Hin. destruct (k_flight0 _ _ _ _ _ _ Hx Hp r o' Hin) as (m' & Hm' & Hr).
    destruct (decide (o' = o)) as [->|Hne]; [by eexists|]. exists m'. simpl. by rewrite lookup_alter_ne.
  - intros o' m' [[-> ->]|[Hne Hm']]%Hcases He; [done|eauto].
  - intros t' req' blocks' H. case_decide as Heq.
    + subst t'. simplify_eq. right. exists o, (make_ready req' blocks' expires m). done.
    + destruct (k_served0 _ _ _ H) as [?|(o' & m' & Ho' & Hm' & Hr & He)]; [by left|right]. exists o', m'.
      rewrite lookup_alter_ne; [done|]. intros <-. destruct (k_table0 _ _ Ho') as (m2 & Hm2 & ?). congruence.
  - intros r Hin. destruct (k_reported0 r Hin) as (t' & bl & H). exists t', bl. by rewrite decide_False by congruence.
Qed.

(** A worker that sends nothing reports the request at once. *)
Lemma keeps_skip L rep s t req blocks :
  keeps L rep s -> L t = Open ->
  keeps (set_ledger L t (Filled req blocks)) rep
    (add_log (Skipped req) (set_finished (finished_sending_reqs s ∪ {[req]}) (set_table (ddel (reqs_need_send s) t) s))).
Proof.
  intros Hs HL. pose proof (keeps_unlist L rep s t Unopened Hs ltac:(congruence) ltac:(done) ltac:(done)) as [].
  simpl in *. unfold set_ledger in *. constructor; simpl; try done.
  - intros o m Hm Hr. pose proof (k_filled0 o m Hm Hr) as H. by case_decide.
  - intros t' H. apply k_open0. by case_decide.
  - intros t' r bl H. case_decide; [simplify_eq; left; set_solver|].
    destruct (k_served0 t' r bl) as [?|?]; [by rewrite decide_False|left; set_solver|by right].
  - intros r Hin. destruct (decide (r = req)) as [->|Hne]; [exists t, blocks; by rewrite decide_True|].
    destruct (k_reported0 r) as (t' & bl & H); [set_solver|]. exists t', bl. by case_decide.
Qed.

Section record.
Context (rep : gset string) (pcp_dummy_sender : bool) (ABORT_REQUEST_TIMEOUT : Z).

Abbreviation record_req := (record_send_req pcp_dummy_sender ABORT_REQUEST_TIMEOUT).

Lemma next_opens l l' : next l Opens = Some l' -> l' = Open /\ (forall req blocks, l <> Filled req blocks).
Proof. by destruct l; intros [= <-]. Qed.

Lemma next_forgets l l' : next l Forgets = Some l' -> l' = Forgotten /\ (forall req blocks, l <> Filled req blocks).
Proof. by destruct l; intros [= <-]. Qed.

Lemma record_one_keeps L now e s l' :
  keeps L rep s -> next (L e.2.1) (send_event e.1 e.2.2) = Some l' ->
  exists s', record_req now e s = (Ok tt, s') /\ keeps (set_ledger L e.2.1 l') rep s'.
Proof.
  destruct e as [req [t blocks]]. unfold send_event, record_send_req. simpl. intros Hs Hn.
  destruct (is_empty blocks) eqn:He; simpl.
  - apply next_opens in Hn as [-> HL]. erewrite M_bind_ok by reflexivity. unfold dmem.
    destruct (dget (reqs_need_send s) t) as [o|] eqn:Ho.
    + exists s. split; [done|]. by apply keeps_set; [..|rewrite Ho].
    + eexists. split; [reflexivity|]. apply keeps_set; [exact (new_entry_keeps L rep s req t Hs Ho)|done..|]. simpl.
      rewrite dget_dset_eq. by eexists.
  - assert (L t = Open /\ l' = Filled req blocks) as [HL ->] by (destruct (L t); by simplify_eq/=).
    destruct pcp_dummy_sender.
    + eexists. split; [reflexivity|]. exact (keeps_skip L rep s t req blocks Hs HL).
    + destruct (k_open _ _ _ Hs t HL) as [o Ho]. erewrite M_bind_ok by reflexivity. rewrite Ho.
      eexists. split; [reflexivity|]. by apply keeps_fill.
Qed.

Lemma forget_one_keeps L t s l' :
  keeps L rep s -> next (L t) Forgets = Some l' ->
  exists s', forget_req t s = (Ok tt, s') /\ keeps (set_ledger L t l') rep s'.
Proof.
  intros Hs [-> HL]%next_forgets. unfold forget_req. erewrite M_bind_ok by reflexivity.
  destruct (dget (reqs_need_send s) t) as [o|] eqn:Ho.
  - destruct (k_table _ _ _ Hs t o Ho) as (m & Hm & Ht). eexists. split.
    + erewrite M_bind_ok by reflexivity. erewrite M_bind_ok by (apply object_at; exact Hm).
      destruct (ready m) eqn:Hr; [|reflexivity]. pose proof (k_filled _ _ _ Hs o m Hm Hr) as H. rewrite Ht in H.
      by destruct (HL _ _ H).
    + exact (keeps_unlist L rep s t Forgotten Hs HL ltac:(done) ltac:(done)).
  - exists s. split; [done|]. by apply keeps_set.
Qed.

(** The ledgers after some events *)
Definition played (L : string -> ledger) (events : string -> list event) : string -> ledger :=
  fun t => default (L t) (run_events (L t) (events t)).

Lemma played_step L (events rest : string -> list event) t0 e l' :
  (forall t, is_Some (run_events (L t) (events t))) ->
  (forall t, events t = if decide (t = t0) then e :: rest t else rest t) -> next (L t0) e = Some l' ->
  (forall t, is_Some (run_events (set_ledger L t0 l' t) (rest t))) /\
  (forall t, played L events t = played (set_ledger L t0 l') rest t).
Proof.
  intros Hsome He Hn.
  assert (forall t, run_events (L t) (events t) = run_events (set_ledger L t0 l' t) (rest t)) as Heq.
  { intros t. rewrite He. unfold set_ledger. case_decide; subst; [simpl; by rewrite Hn|done]. }
  split; intros t; [rewrite <- Heq; apply Hsome|]. unfold played. rewrite Heq. specialize (Hsome t).
  rewrite Heq in Hsome. by destruct Hsome as [? ->].
Qed.

Lemma sends_of_cons t e send :
  sends_of t (e :: send) = if decide (t = e.2.1) then send_event e.1 e.2.2 :: sends_of t send else sends_of t send.
Proof. unfold sends_of. rewrite filter_cons. repeat case_decide; by try congruence. Qed.

Lemma forgets_of_cons t t0 forget :
  forgets_of t (t0 :: forget) = if decide (t = t0) then Forgets :: forgets_of t forget else forgets_of t forget.
Proof. unfold forgets_of. rewrite filter_cons. repeat case_decide; by try congruence. Qed.

(** The head of the events of a transfer can happen. *)
Lemma head_possible L (events rest : string -> list event) t0 e :
  (forall t, is_Some (run_events (L t) (events t))) ->
  (forall t, events t = if decide (t = t0) then e :: rest t else rest t) -> exists l', next (L t0) e = Some l'.
Proof.
  intros Hsome He. specialize (Hsome t0). rewrite He, decide_True in Hsome by done. simpl in Hsome.
  destruct (next (L t0) e) as [l'|]; [by eexists|by destruct Hsome].
Qed.

Lemma forgets_keep L forget s :
  keeps L rep s -> (forall t, is_Some (run_events (L t) (forgets_of t forget))) ->
  exists s', for_each forget forget_req s = (Ok tt, s') /\ keeps (played L (fun t => forgets_of t forget)) rep s'.
Proof.
  revert L s. induction forget as [|t0 forget IH]; intros L s Hs Hsome; [by exists s|].
  pose proof (fun t => forgets_of_cons t t0 forget) as Hc. destruct (head_possible _ _ _ _ _ Hsome Hc) as [l' Hn].
  destruct (played_step _ _ _ _ _ _ Hsome Hc Hn) as [Hsome' Heq].
  destruct (forget_one_keeps L t0 s l' Hs Hn) as (s1 & E1 & H1). destruct (IH _ s1 H1 Hsome') as (s' & E & H').
  exists s'. split; [simpl; by rewrite (M_bind_ok _ _ _ _ _ E1)|]. by eapply keeps_ext.
Qed.

(** The worker records a metadata that the ledgers allow, without an exception. *)
Lemma records_keep L now send forget s :
  keeps L rep s -> (forall t, is_Some (run_events (L t) (sends_of t send ++ forgets_of t forget))) ->
  exists s', record_send_reqs pcp_dummy_sender ABORT_REQUEST_TIMEOUT now send forget s = (Ok tt, s') /\
    keeps (played L (fun t => sends_of t send ++ forgets_of t forget)) rep s'.
Proof.
  unfold record_send_reqs. revert L s. induction send as [|e send IH]; intros L s Hs Hsome.
  - destruct (forgets_keep L forget s Hs Hsome) as (s' & E & H). by exists s'.
  - assert (forall t, sends_of t (e :: send) ++ forgets_of t forget =
      if decide (t = e.2.1) then send_event e.1 e.2.2 :: (sends_of t send ++ forgets_of t forget)
      else sends_of t send ++ forgets_of t forget) as Hc.
    { intros t. rewrite sends_of_cons. by case_decide. }
    destruct (head_possible _ _ _ _ _ Hsome Hc) as [l' Hn].
    destruct (played_step _ _ _ _ _ _ Hsome Hc Hn) as [Hsome' Heq].
    destruct (record_one_keeps L now e s l' Hs Hn) as (s1 & E1 & H1). destruct (IH _ s1 H1 Hsome') as (s' & E & H').
    exists s'. split; [|by eapply keeps_ext]. rewrite <- E. simpl. unfold mbind, M_bind. by rewrite E1.
Qed.
End record.

(** ** The counter of running transfers

    [sending] is the number of transfers that read the blocks of a request,
    unless a coroutine that was asked for the request ended with an exception:
    it then leaves the counter as it was. *)

Definition asks_for (x : conn) (t : string) : Prop := exists req bl, (req, (t, bl)) ∈ req_blocks (c_meta x).

(** A coroutine that was asked for the transfer answered with an error. *)
Definition failed (s : sender) (t : string) : Prop :=
  exists c x r, Responded c r ∈ log s /\ status r = ERROR /\ conns s !! c = Some x /\ asks_for x t.

(** A coroutine reads the blocks of the transfer. *)
Definition transferring (s : sender) (o : nat) : Prop :=
  exists c x, conns s !! c = Some x /\ o ∈ flight_of x.

Definition holds_asked (s : sender) (x : conn) : Prop :=
  forall o, o ∈ map snd (c_pending x) ++ flight_of x -> exists m, heap s !! o = Some m /\ asks_for x (transfer_id m).

(** The entry of a transfer is of that transfer. *)
Definition table_ok (s : sender) : Prop :=
  forall t o, (t, o) ∈ reqs_need_send s -> exists m, heap s !! o = Some m /\ transfer_id m = t.

Record counted (s : sender) : Prop := {
  cn_table : table_ok s;
  cn_asked c x : conns s !! c = Some x -> holds_asked s x;
  cn_sending o m : heap s !! o = Some m ->
    failed s (transfer_id m) \/ sending m = occ o (all flight_of (conns s))
}.

(** A coroutine [c] has begun a step in [s0] and holds [fl]. *)
Record inhand (s0 : sender) (c : nat) (fl : list nat) (s : sender) : Prop := {
  ih_table : table_ok s;
  ih_conns : conns s = conns s0;
  ih_log e : e ∈ log s0 -> e ∈ log s;
  ih_tids o m : heap s0 !! o = Some m -> exists m', heap s !! o = Some m' /\ transfer_id m' = transfer_id m;
  ih_count o m : heap s !! o = Some m ->
    failed s0 (transfer_id m) \/ sending m = occ o (all flight_of (delete c (conns s0))) + occ o fl
}.

Lemma occ_none o l : o ∉ l -> occ o l = 0.
Proof. rewrite occ_pos. pose proof (occ_nonneg o l). lia. Qed.

Lemma inhand_open s c x : counted s -> conns s !! c = Some x -> inhand s c (flight_of x) s.
Proof.
  intros Hc Hx. split; [apply Hc|done|done|by eauto|]. intros o m Hm. destruct (cn_sending _ Hc o m Hm) as [?| ->]; [by left|right].
  rewrite (all_lookup _ _ _ _ Hx), occ_app. lia.
Qed.

Lemma inhand_new s c : counted s -> conns s !! c = None -> inhand s c [] s.
Proof.
  intros Hc Hx. split; [apply Hc|done|done|by eauto|]. intros o m Hm. destruct (cn_sending _ Hc o m Hm) as [?| ->]; [by left|right].
  rewrite delete_id by done. unfold occ. simpl. unfold zlen. simpl. lia.
Qed.

Lemma inhand_frame s0 c fl s s' :
  inhand s0 c fl s -> heap s' = heap s -> conns s' = conns s -> (forall e, e ∈ log s -> e ∈ log s') ->
  reqs_need_send s' ⊆ reqs_need_send s -> inhand s0 c fl s'.
Proof. intros [] Hh Hc Hl Ht. split; unfold table_ok; rewrite ?Hh, ?Hc; auto. Qed.

Lemma inhand_update s0 c fl fl' s o f d :
  inhand s0 c fl s -> (forall m, transfer_id (f m) = transfer_id m /\ sending (f m) = sending m + d) ->
  (forall o', occ o' fl' = occ o' fl + if decide (o' = o) then d else 0) ->
  inhand s0 c fl' (set_heap (alter f o (heap s)) s).
Proof.
  intros [] Hf Hocc. split; simpl; [|done|done| |].
  - intros t o' Ho'. simpl in *. destruct (ih_table0 t o' Ho') as (m & Hm & <-). destruct (decide (o = o')) as [<-|Hne].
    + exists (f m). rewrite lookup_alter_eq, Hm. split; [done|]. by rewrite (proj1 (Hf m)).
    + exists m. by rewrite lookup_alter_ne.
  - intros o' m Hm. destruct (ih_tids0 o' m Hm) as (m' & Hm' & E). destruct (decide (o = o')) as [<-|Hne].
    + exists (f m'). rewrite lookup_alter_eq, Hm'. split; [done|]. by rewrite (proj1 (Hf m')).
    + exists m'. by rewrite lookup_alter_ne.
  - intros o' m'. rewrite Hocc. destruct (decide (o = o')) as [<-|Hne].
    + rewrite lookup_alter_eq, decide_True by done. intros (m & Hm & ->)%fmap_Some. destruct (Hf m) as [-> ->].
      destruct (ih_count0 o m Hm); [by left|right; lia].
    + rewrite lookup_alter_ne, decide_False by congruence. intros Hm. rewrite Z.add_0_r. by apply ih_count0.
Qed.

(** A new object is held by nobody. *)
Lemma inhand_object s0 c s req t :
  counted s0 -> inhand s0 c [] s ->
  inhand s0 c [] (set_heap (<[fresh (dom (heap s)) := empty_meta req t]> (heap s)) s).
Proof.
  intros Hc []. set (o := fresh (dom (heap s))).
  assert (heap s !! o = None) as Ho by (apply not_elem_of_dom, is_fresh).
  assert (heap s0 !! o = None) as Ho0.
  { destruct (heap s0 !! o) as [m|] eqn:E; [|done]. destruct (ih_tids0 o m E) as (m' & Hm' & _). congruence. }
  split; simpl; [|done|done| |].
  - intros t' o' Ho'. simpl in *. destruct (ih_table0 t' o' Ho') as (m & Hm & <-). exists m.
    rewrite lookup_insert_ne; [done|]. intros <-. congruence.
  - intros o' m Hm. destruct (ih_tids0 o' m Hm) as (m' & Hm' & E). exists m'.
    rewrite lookup_insert_ne; [done|]. intros <-. congruence.
  - intros o' m. destruct (decide (o = o')) as [<-|Hne].
    + rewrite lookup_insert_eq. intros [= <-]. right. simpl. rewrite !occ_none; [done|apply not_elem_of_nil|].
      intros Hin. unfold all in Hin. apply list_elem_of_In, in_flat_map in Hin as ([c' x] & Hx & Hin).
      apply list_elem_of_In, elem_of_map_to_list, lookup_delete_Some in Hx as [_ Hx].
      destruct (cn_asked _ Hc c' x Hx o) as (m & Hm & _); [|congruence].
      apply elem_of_app. right. by apply list_elem_of_In.
    + rewrite lookup_insert_ne by done. apply ih_count0.
Qed.

(** The coroutine goes on as [x]. *)
Lemma inhand_close s0 c s x :
  counted s0 -> inhand s0 c (flight_of x) s -> holds_asked s x ->
  (forall x0, conns s0 !! c = Some x0 -> c_meta x = c_meta x0) -> counted (set_conn c x s).
Proof.
  intros Hc [] Hx Hmeta. rewrite <- ih_conns0 in *.
  assert (forall t, failed s0 t -> failed (set_conn c x s) t) as Hfail.
  { intros t (c' & x' & r & Hr & Hs & Hx' & Ha). exists c'. rewrite <- ih_conns0 in Hx'. destruct (decide (c = c')) as [<-|Hne].
    - exists x, r. simpl. rewrite lookup_insert_eq. split_and!; [auto..|]. unfold asks_for. by rewrite (Hmeta x' Hx').
    - exists x', r. simpl. rewrite lookup_insert_ne by done. by split_and!; auto. }
  split; simpl; [exact ih_table0| |].
  - intros c' x'. destruct (decide (c = c')) as [<-|Hne].
    + rewrite lookup_insert_eq. by intros [= <-].
    + rewrite lookup_insert_ne by done. rewrite ih_conns0. intros Hx' o Ho. destruct (cn_asked _ Hc c' x' Hx' o Ho) as (m & Hm & Ha).
      destruct (ih_tids0 o m Hm) as (m' & Hm' & E). exists m'. by rewrite E.
  - intros o m Hm. destruct (ih_count0 o m Hm) as [?|E]; [by left; apply Hfail|right].
    rewrite E, all_insert, occ_app. lia.
Qed.

(** The step of the coroutine [x] ends with an exception. *)
Lemma inhand_fails s0 c s x fl r :
  counted s0 -> conns s0 !! c = Some x -> inhand s0 c fl s -> status r = ERROR ->
  (forall o, o ∈ fl -> o ∈ map snd (c_pending x) ++ flight_of x) ->
  counted (set_conn c (with_phase Closed x) (add_log (Responded c r) s)).
Proof.
  intros Hc Hx Hi Hr Hfl. pose proof Hi as []. split; simpl; [exact ih_table0| |].
  - intros c' x'. rewrite ih_conns0. assert (forall x1, conns s0 !! c' = Some x1 -> holds_asked s x1) as Hold.
    { intros x1 Hx' o Ho. destruct (cn_asked _ Hc c' x1 Hx' o Ho) as (m & Hm & Ha).
      destruct (ih_tids0 o m Hm) as (m' & Hm' & E). exists m'. by rewrite E. }
    destruct (decide (c = c')) as [<-|Hne].
    + rewrite lookup_insert_eq. intros [= <-] o Ho. apply (Hold x Hx). revert Ho. unfold flight_of at 1. simpl.
      rewrite app_nil_r. intros Ho. apply elem_of_app. by left.
    + rewrite lookup_insert_ne by done. intros Hx'. by apply Hold.
  - intros o m Hm. destruct (decide (o ∈ fl)) as [Hin|Hni].
    + left. destruct (cn_asked _ Hc c x Hx o (Hfl o Hin)) as (m0 & Hm0 & Ha).
      destruct (ih_tids0 o m0 Hm0) as (m' & Hm' & E). simplify_eq. exists c, (with_phase Closed x), r. simpl.
      rewrite lookup_insert_eq. split_and!; [apply elem_of_app; right; by left|done|done|]. by rewrite E.
    + destruct (ih_count0 o m Hm) as [(c' & x' & r' & Hr' & Hs & Hx' & Ha)|E].
      * left. destruct (decide (c = c')) as [<-|Hne].
        -- simplify_eq. exists c, (with_phase Closed x), r'. simpl. rewrite lookup_insert_eq.
           split_and!; [apply elem_of_app; left; auto|done|done|done].
        -- exists c', x', r'. simpl. rewrite lookup_insert_ne, ih_conns0 by done.
           split_and!; [apply elem_of_app; left; auto|done|done|done].
      * right. rewrite E, ih_conns0, all_insert, occ_app, (occ_none o fl) by done. unfold flight_of at 2. simpl.
        unfold occ at 2. unfold zlen. simpl. lia.
Qed.

(** *** The steps of a coroutine *)

Lemma ddel_sub (d : dict string nat) k : ddel d k ⊆ d.
Proof. intros e He. eapply elem_of_sublist; [exact He|apply ddel_sublist]. Qed.

Lemma settle_batch_inhand s0 c errs batch fl s :
  inhand s0 c (map snd batch ++ fl) s -> (forall o, o ∈ map snd batch -> is_Some (heap s0 !! o)) ->
  exists s', settle_batch errs batch s = (Ok tt, s') /\ inhand s0 c fl s'.
Proof.
  revert s. induction batch as [|[req o] batch IH]; intros s H Hin; cbn [settle_batch map] in *; [by exists s|].
  assert (inhand s0 c (map snd batch ++ fl) (set_heap (alter (add_sending (-1)) o (heap s)) s)) as H1.
  { apply (inhand_update _ _ _ _ _ _ _ (-1) H); [done|]. intros o'. cbn [app]. rewrite occ_cons. simpl. case_decide; lia. }
  rewrite (M_bind_ok _ _ _ _ _ (update_at o _ s)).
  assert (exists s', (if bool_decide (req ∈ errs) then mret tt
    else update o add_sent ;; m ← object o; if sent m =? need_send m then release o m else mret tt)
      (set_heap (alter (add_sending (-1)) o (heap s)) s) = (Ok tt, s') /\ inhand s0 c (map snd batch ++ fl) s') as (s1 & E1 & H2).
  { case_bool_decide; [by eexists|]. set (s1 := set_heap _ s) in *.
    assert (inhand s0 c (map snd batch ++ fl) (set_heap (alter add_sent o (heap s1)) s1)) as H2.
    { apply (inhand_update _ _ _ _ _ _ _ 0 H1); [intros m; split; [done|simpl; lia]|]. intros o'. case_decide; lia. }
    rewrite (M_bind_ok _ _ _ _ _ (update_at o _ s1)). set (s2 := set_heap _ s1) in *.
    destruct (Hin o) as [m0 Hm0]; [by left|]. destruct (ih_tids _ _ _ _ H2 o m0 Hm0) as (m & Hm & _).
    rewrite (M_bind_ok _ _ _ _ _ (object_at o m s2 Hm)). case_if; [|by eexists].
    unfold release. erewrite M_bind_ok by reflexivity. destruct (dget (reqs_need_send s2) (transfer_id m)); [|by eexists].
    eexists. split; [reflexivity|]. eapply inhand_frame; [exact H2|done..| |]; simpl.
    - intros e He. apply elem_of_app. by left.
    - apply ddel_sub. }
  rewrite (M_bind_ok _ _ _ _ _ E1). apply IH; [done|]. intros o' Ho'. apply Hin. by right.
Qed.

Lemma holds_asked_later s0 c fl s x : inhand s0 c fl s -> holds_asked s0 x -> holds_asked s x.
Proof.
  intros Hi H o Ho. destruct (H o Ho) as (m & Hm & Ha). destruct (ih_tids _ _ _ _ Hi o m Hm) as (m' & Hm' & E).
  exists m'. by rewrite E.
Qed.

Lemma inhand_log s0 c fl s e : inhand s0 c fl s -> inhand s0 c fl (add_log e s).
Proof. intros H. eapply inhand_frame; [exact H|done..| |done]. simpl. intros e' He. apply elem_of_app. by left. Qed.

Lemma holds_asked_sub s x0 x :
  holds_asked s x0 -> c_meta x = c_meta x0 ->
  (forall o, o ∈ map snd (c_pending x) ++ flight_of x -> o ∈ map snd (c_pending x0) ++ flight_of x0) -> holds_asked s x.
Proof. intros H Hm Hsub o Ho. unfold asks_for. rewrite Hm. by apply H, Hsub. Qed.

Lemma pending_sub (d d' : dict string nat) o : d ⊆ d' -> o ∈ map snd d -> o ∈ map snd d'.
Proof.
  intros Hsub (e & -> & He)%list_elem_of_fmap. apply list_elem_of_fmap. exists e. split; [done|by apply Hsub].
Qed.

Lemma end_round_counted s0 c s x x0 batch errs msg :
  counted s0 -> conns s0 !! c = Some x0 -> c_meta x = c_meta x0 -> c_pending x ⊆ c_pending x0 ->
  inhand s0 c (map snd batch) s -> (forall o, o ∈ map snd batch -> o ∈ map snd (c_pending x0) ++ flight_of x0) ->
  exists s', end_round c x batch errs msg s = (Ok tt, s') /\ counted s'.
Proof.
  intros Hc Hx0 Hmeta Hsub Hi Hb.
  destruct (settle_batch_inhand s0 c errs batch [] s) as (s1 & E1 & H1).
  { by rewrite app_nil_r. }
  { intros o Ho. destruct (cn_asked _ Hc c x0 Hx0 o (Hb o Ho)) as (m & Hm & _). by eexists. }
  unfold end_round. rewrite (M_bind_ok _ _ _ _ _ E1). eexists. split; [reflexivity|].
  apply (inhand_close s0).
  - done.
  - apply inhand_log. unfold flight_of. simpl. by case_if.
  - eapply holds_asked_sub; [|exact Hmeta|].
    + eapply holds_asked_later; [apply inhand_log, H1|by eapply (cn_asked _ Hc)].
    + intros o [Ho|Ho]%elem_of_app; apply elem_of_app; [left; by eapply pending_sub|].
      exfalso. revert Ho. unfold flight_of. simpl. case_if; apply not_elem_of_nil.
  - intros x1 Hx1. simpl. congruence.
Qed.

Lemma inhand_perm s0 c fl fl' s : fl ≡ₚ fl' -> inhand s0 c fl s -> inhand s0 c fl' s.
Proof. intros Hp []. split; [done..|]. intros o m Hm. rewrite <- Hp. by apply ih_count0. Qed.

(** The requests that woke up are held, whether or not the step goes on. *)
Lemma take_ready_inhand s0 c x done fl s :
  inhand s0 c fl s ->
  exists fl', inhand s0 c (fl' ++ fl) (take_ready x done s).2 /\ fl' ⊆ map snd (c_pending x) /\
    forall batch, (take_ready x done s).1 = Ok batch -> fl' = map snd batch.
Proof.
  revert fl s. induction done as [|req rest IH]; intros fl s H; cbn [take_ready].
  { exists []. split_and!; [done|set_solver|by intros batch [= <-]]. }
  assert (forall (r : result (list (string * nat))), (forall b, r <> Ok b) -> exists fl',
    inhand s0 c (fl' ++ fl) (r, s).2 /\ fl' ⊆ map snd (c_pending x) /\
    forall batch, (r, s).1 = Ok batch -> fl' = map snd batch) as Herr.
  { intros r Hr. exists []. split_and!; [done|set_solver|]. intros b E. by destruct (Hr b). }
  destruct (dget (c_pending x) req) as [o|] eqn:Ho; [|by apply Herr].
  destruct (heap s !! o) as [m|] eqn:Hm.
  2: { erewrite (M_bind_err (object o)) by (unfold object; by rewrite Hm). by apply Herr. }
  rewrite (M_bind_ok _ _ _ _ _ (object_at o m s Hm)). erewrite M_bind_ok by reflexivity.
  destruct (dmem (reqs_need_send s) (transfer_id m)); [|by apply IH].
  assert (exists h, (update o (add_sending 1) ;; (if need_send m =? 0 then update o (resolve_need_send (c_ranks x)) else mret tt)) s
      = (Ok tt, set_heap (alter h o (heap s)) s) /\ inhand s0 c (o :: fl) (set_heap (alter h o (heap s)) s)) as (h & E & H1).
  { exists (fun m0 => (if need_send m =? 0 then resolve_need_send (c_ranks x) else id) (add_sending 1 m0)). split.
    - rewrite (M_bind_ok _ _ _ _ _ (update_at o _ s)). case_if; [rewrite update_at; simpl; by rewrite update_twice|done].
    - apply (inhand_update _ _ _ _ _ _ _ 1 H); [intros m0; by case_if|].
      intros o'. rewrite occ_cons. case_decide; lia. }
  rewrite (M_bind_block _ _ _ _ _ _ E). destruct (IH (o :: fl) _ H1) as (fl' & H2 & Hsub & Hok).
  assert (inhand s0 c ((o :: fl') ++ fl) (take_ready x rest (set_heap (alter h o (heap s)) s)).2) as H3.
  { eapply inhand_perm; [|exact H2]. simpl. symmetry. apply Permutation_middle. }
  assert (o :: fl' ⊆ map snd (c_pending x)) as Hsub'.
  { intros o' [->|Hin]%elem_of_cons; [|by apply Hsub]. apply list_elem_of_fmap. exists (req, o). split; [done|by apply dget_elem]. }
  exists (o :: fl'). unfold mbind, M_bind.
  destruct (take_ready x rest (set_heap (alter h o (heap s)) s)) as [[batch|e] s2]; [|done].
  split_and!; [done..|]. intros b [= <-]. simpl. by rewrite (Hok batch eq_refl).
Qed.

(** What a step of the coroutine [x] comes to *)
Definition settled (s0 : sender) (c : nat) (x : conn) (r : result unit * sender) : Prop :=
  match r with
  | (Ok _, s') => counted s'
  | (Err _, s') => exists fl, inhand s0 c fl s' /\ fl ⊆ map snd (c_pending x) ++ flight_of x
  end.

Lemma worker_counted s0 c x m :
  counted s0 -> conns s0 !! c = Some x -> settled s0 c x (m s0) -> counted (sender_worker c m s0).2.
Proof.
  intros Hc Hx H. unfold sender_worker, try_. destruct (m s0) as [[[]|e] s1]; [done|].
  destruct H as (fl & Hi & Hfl). unfold mbind, M_bind. simpl. rewrite (ih_conns _ _ _ _ Hi), Hx.
  by apply (inhand_fails s0 c s1 x fl).
Qed.

Lemma foldl_ddel_sub (d : dict string nat) ks : foldl ddel d ks ⊆ d.
Proof.
  revert d. induction ks as [|k ks IH]; intros d; simpl; [done|]. intros e He%IH.
  by eapply ddel_sub.
Qed.

Section steps.
Context (own : MooncakeXferMetadata) (layer_group_indices : dict string Z) (topo : topology).
Context (mamba : list bool) (NULL_BLOCK_ID physical_blocks : Z) (map_to_kernel_blocks : list Z -> Z -> list Z).
Context (pcp_dummy_sender : bool) (ABORT_REQUEST_TIMEOUT : Z).

Lemma wake_up_settled s c x done :
  counted s -> conns s !! c = Some x -> c_phase x = Waiting ->
  settled s c x (wake_up topo mamba NULL_BLOCK_ID physical_blocks map_to_kernel_blocks c x done s).
Proof.
  intros Hc Hx Hph. pose proof (inhand_open s c x Hc Hx) as H0. unfold flight_of in H0. rewrite Hph in H0.
  destruct (take_ready_inhand s c x done [] s H0) as (fl & H1 & Hfl & Hok). rewrite app_nil_r in H1.
  assert (fl ⊆ map snd (c_pending x) ++ flight_of x) as Hfl' by (intros o Ho; apply elem_of_app; left; by apply Hfl).
  unfold wake_up. destruct (take_ready x done s) as [[batch|e] s1] eqn:E1; simpl in H1.
  2: { rewrite (M_bind_err _ _ _ _ _ E1). by exists fl. }
  rewrite (M_bind_ok _ _ _ _ _ E1). specialize (Hok batch eq_refl). subst fl.
  set (x' := Conn _ _ _ _ (foldl ddel _ done) _ _).
  pose proof (blocks_of_same x' batch s1) as E2. destruct (blocks_of x' batch s1) as [[blocks|e] s2] eqn:E3;
    simpl in E2; subst s2; [rewrite (M_bind_ok _ _ _ _ _ E3)|rewrite (M_bind_err _ _ _ _ _ E3); by eexists].
  destruct (build_transfer_params _ _ _ _ _ _ _ _ _ _) as [[[copies errs] msg]|e] eqn:E4; [|by eexists].
  change (settled s c x ((if is_empty copies then end_round c x' batch errs msg
    else modify (set_conn c (with_phase (InFlight batch copies errs msg) x'))) s1)).
  case_if.
  - destruct (end_round_counted s c s1 x' x batch errs msg) as (s2 & -> & H2); [done|done|done|apply foldl_ddel_sub|done|done|done].
  - apply (inhand_close s); [done|exact H1| |].
    + eapply holds_asked_sub; [eapply holds_asked_later; [exact H1|by eapply (cn_asked _ Hc)]|done|].
      intros o [Ho|Ho]%elem_of_app; [|by apply Hfl']. apply elem_of_app. left. eapply pending_sub; [|exact Ho].
      apply foldl_ddel_sub.
    + intros x0 Hx0. simpl. congruence.
Qed.

Lemma transfer_done_settled s c x batch copies errs msg ret :
  counted s -> conns s !! c = Some x -> c_phase x = InFlight batch copies errs msg ->
  settled s c x (transfer_done c x batch copies errs msg ret s).
Proof.
  intros Hc Hx Hph. pose proof (inhand_open s c x Hc Hx) as H0.
  assert (flight_of x = map snd batch) as Hfl by (unfold flight_of; by rewrite Hph). rewrite Hfl in H0.
  assert (forall o, o ∈ map snd batch -> o ∈ map snd (c_pending x) ++ flight_of x) as Hb
    by (intros o Ho; apply elem_of_app; right; by rewrite Hfl).
  assert (forall s' errs' msg', inhand s c (map snd batch) s' -> settled s c x (end_round c x batch errs' msg' s')) as Hend.
  { intros s' errs' msg' Hi. by destruct (end_round_counted s c s' x x batch errs' msg') as (s2 & -> & H2). }
  unfold transfer_done. case_if; apply Hend; [by apply inhand_log|done].
Qed.

Lemma timeout_settled s c x : counted s -> conns s !! c = Some x -> c_phase x = Waiting -> settled s c x (timeout c x s).
Proof.
  intros Hc Hx Hph. pose proof (inhand_open s c x Hc Hx) as H0. unfold flight_of in H0. rewrite Hph in H0.
  apply (inhand_close s); [done|by apply inhand_log| |].
  - eapply holds_asked_sub; [eapply holds_asked_later; [apply inhand_log, H0|by eapply (cn_asked _ Hc)]|done|].
    intros o [Ho|Ho]%elem_of_app; [apply elem_of_app; by left|]. by apply not_elem_of_nil in Ho.
  - intros x0 Hx0. simpl. congruence.
Qed.

(** *** New coroutines *)

(** The objects of the requests, each of the transfer that is asked for *)
Definition joined (reqs : list (string * (string * list (list Z)))) (pending : dict string nat) (s : sender) : Prop :=
  forall o, o ∈ map snd pending -> exists m req bl, heap s !! o = Some m /\ (req, (transfer_id m, bl)) ∈ reqs.

Lemma entry_for_inhand s0 c t s :
  counted s0 -> inhand s0 c [] s ->
  exists o s', entry_for t s = (Ok o, s') /\ inhand s0 c [] s' /\ (exists m, heap s' !! o = Some m /\ transfer_id m = t) /\
    forall o' m, heap s !! o' = Some m -> heap s' !! o' = Some m.
Proof.
  intros Hc Hi. unfold entry_for. erewrite M_bind_ok by reflexivity.
  destruct (dget (reqs_need_send s) t) as [o|] eqn:Ho.
  { exists o, s. split_and!; [done|done|by apply (ih_table _ _ _ _ Hi), dget_elem|done]. }
  eexists _, _. split; [reflexivity|]. pose proof (inhand_object s0 c s "" t Hc Hi) as Hi'.
  set (o := fresh (dom (heap s))) in *. assert (heap s !! o = None) as Hno by (apply not_elem_of_dom, is_fresh).
  split_and!.
  - destruct Hi' as [Ht Hcn Hl Htid Hcnt]. split; [|exact Hcn|exact Hl|exact Htid|exact Hcnt].
    intros t' o' Hin. simpl in Hin. apply elem_of_dset in Hin as [[= -> ->]|Hin]; [|by apply (Ht t' o')].
    exists (empty_meta "" t). simpl. by rewrite lookup_insert_eq.
  - exists (empty_meta "" t). simpl. by rewrite lookup_insert_eq.
  - intros o' m Hm. simpl. rewrite lookup_insert_ne; [done|]. intros <-. congruence.
Qed.

Lemma join_requests_inhand s0 c reqs s :
  counted s0 -> inhand s0 c [] s ->
  exists pending s', join_requests reqs s = (Ok pending, s') /\ inhand s0 c [] s' /\ joined reqs pending s' /\
    forall o m, heap s !! o = Some m -> heap s' !! o = Some m.
Proof.
  intros Hc. revert s. induction reqs as [|[req [t bl]] reqs IH]; intros s Hi; cbn [join_requests].
  { eexists _, _. split; [reflexivity|]. split_and!; [done| |done]. by intros o ?%not_elem_of_nil. }
  destruct (entry_for_inhand s0 c t s Hc Hi) as (o & s1 & E1 & Hi1 & (m & Hm & Ht) & Hk1).
  destruct (IH s1 Hi1) as (pending & s2 & E2 & Hi2 & Hj & Hk2).
  rewrite (M_bind_ok _ _ _ _ _ E1), (M_bind_ok _ _ _ _ _ E2). eexists _, _. split; [reflexivity|].
  split_and!; [done| |by auto]. intros o' [->|Ho']%elem_of_cons.
  - exists m, req, bl. split; [by apply Hk2|]. rewrite Ht. by left.
  - destruct (Hj o' Ho') as (m' & req' & bl' & Hm' & Hin). exists m', req', bl'. split; [done|by right].
Qed.

Lemma inhand_log_only s0 s c fl e :
  counted s0 -> inhand s0 c fl s -> conns s0 !! c = None -> (forall o, o ∉ fl) -> counted (add_log e s).
Proof.
  intros Hc [] Hx Hfl. split; simpl; [exact ih_table0| |].
  - intros c' x' Hx' o Ho. rewrite ih_conns0 in Hx'. destruct (cn_asked _ Hc c' x' Hx' o Ho) as (m & Hm & Ha).
    destruct (ih_tids0 o m Hm) as (m' & Hm' & E). exists m'. by rewrite E.
  - intros o m Hm. destruct (ih_count0 o m Hm) as [(c' & x' & r & Hr & Hs & Hx' & Ha)|E].
    + left. exists c', x', r. simpl. rewrite ih_conns0. split_and!; [apply elem_of_app; left; auto|done..].
    + right. rewrite ih_conns0, E, delete_id, (occ_none o fl) by done. lia.
Qed.

Lemma send_kv_counted s c meta :
  counted s -> conns s !! c = None -> counted (sender_worker c (send_kv_to_decode own layer_group_indices topo c meta) s).2.
Proof.
  intros Hc Hx. pose proof (inhand_new s c Hc Hx) as Hi.
  assert (forall e, counted (add_log e s)) as Hlog.
  { intros e. apply (inhand_log_only s s c [] e); [done..|]. intros o. apply not_elem_of_nil. }
  set (P := fun r : result unit * sender => match r with (Ok _, s') => counted s' | (Err _, s') => s' = s end).
  assert (forall m, P (m s) -> counted (sender_worker c m s).2) as Hw.
  { intros m H. unfold sender_worker, try_. destruct (m s) as [[[]|e] s1]; [done|]. simpl in H. subst s1.
    unfold mbind, M_bind. simpl. rewrite Hx. apply Hlog. }
  assert (forall msg, P (reject_metadata c msg s)) as Hrej by (intros msg; apply Hlog).
  apply Hw. unfold send_kv_to_decode. repeat (case_if; [by apply Hrej|]). cbv zeta.
  lazymatch goal with |- context [match ?o with Some _ => _ | None => _ end] => destruct o; [by apply Hrej|] end.
  destruct (get_transfer_regions layer_group_indices own) as [ls|e]; [|done]. erewrite M_bind_ok by reflexivity.
  destruct (get_transfer_regions layer_group_indices meta) as [rs|e]; [|done]. erewrite M_bind_ok by reflexivity.
  destruct (align_transfer_regions ls rs) as [[l r]|]; [|by apply Hrej].
  destruct (validate_asymmetric_region_lengths _ _ _ _ _); [by apply Hrej|].
  destruct (join_requests_inhand s c (req_blocks meta) s Hc Hi) as (pending & s1 & E1 & Hi1 & Hj & _).
  rewrite (M_bind_ok _ _ _ _ _ E1). apply (inhand_close s); [done| | |].
  - unfold flight_of. simpl. by case_if.
  - intros o Ho. assert (o ∈ map snd pending) as Ho'.
    { apply elem_of_app in Ho as [Ho|Ho]; [done|]. exfalso. revert Ho. unfold flight_of. simpl. case_if; apply not_elem_of_nil. }
    destruct (Hj o Ho') as (m & req & bl & Hm & Hin). exists m. split; [done|]. by exists req, bl.
  - intros x0 Hx0. congruence.
Qed.

(** *** The scheduler's side *)

(** Nothing that counts is changed. *)
Record uncounted (s s' : sender) : Prop := {
  un_conns : conns s' = conns s;
  un_log e : e ∈ log s -> e ∈ log s';
  un_heap o m' : heap s' !! o = Some m' ->
    (exists m, heap s !! o = Some m /\ transfer_id m' = transfer_id m /\ sending m' = sending m) \/
    heap s !! o = None /\ sending m' = 0;
  un_kept o m : heap s !! o = Some m -> exists m', heap s' !! o = Some m' /\ transfer_id m' = transfer_id m
}.

Lemma uncounted_counted s s' : counted s -> uncounted s s' -> table_ok s' -> counted s'.
Proof.
  intros Hc [] Ht. split; [done| |].
  - intros c x Hx o Ho. rewrite un_conns0 in Hx. destruct (cn_asked _ Hc c x Hx o Ho) as (m & Hm & Ha).
    destruct (un_kept0 o m Hm) as (m' & Hm' & E). exists m'. by rewrite E.
  - intros o m' Hm'. destruct (un_heap0 o m' Hm') as [(m & Hm & Et & Es)|[Hno Es]].
    + rewrite Et, Es, un_conns0. destruct (cn_sending _ Hc o m Hm) as [(c & x & r & Hr & Hs & Hx & Ha)|]; [left|by right].
      exists c, x, r. rewrite un_conns0. by split_and!; auto.
    + right. rewrite Es, occ_none; [done|]. rewrite un_conns0. unfold all.
      intros ([c x] & Hx & Hin)%list_elem_of_In%in_flat_map. apply list_elem_of_In, elem_of_map_to_list in Hx.
      destruct (cn_asked _ Hc c x Hx o) as (m & Hm & _); [|congruence]. apply elem_of_app. right. by apply list_elem_of_In.
Qed.

Abbreviation stays_counted m := (ensures counted m (fun _ => counted) counted).

Lemma counted_frame s s' :
  counted s -> heap s' = heap s -> conns s' = conns s -> (forall e, e ∈ log s -> e ∈ log s') ->
  reqs_need_send s' ⊆ reqs_need_send s -> counted s'.
Proof.
  intros Hc Hh Hcn Hl Ht. eapply uncounted_counted; [exact Hc| |].
  - split; [done|done| |]; rewrite Hh; [by intros o m Hm; left; eauto|by eauto].
  - intros t o Hin%Ht. rewrite Hh. by apply Hc.
Qed.

Lemma new_entry_counted s req t :
  counted s ->
  counted (set_table (dset (reqs_need_send s) t (fresh (dom (heap s))))
    (set_heap (<[fresh (dom (heap s)) := empty_meta req t]> (heap s)) s)).
Proof.
  intros Hc. set (o := fresh (dom (heap s))). assert (heap s !! o = None) as Ho by (apply not_elem_of_dom, is_fresh).
  assert (forall o' m, heap s !! o' = Some m -> <[o := empty_meta req t]> (heap s) !! o' = Some m) as Hk.
  { intros o' m Hm. rewrite lookup_insert_ne; [done|]. intros <-. congruence. }
  eapply uncounted_counted; [exact Hc| |].
  - split; simpl; [done|done| |by eauto]. intros o' m'. destruct (decide (o = o')) as [<-|Hne].
    + rewrite lookup_insert_eq. intros [= <-]. by right.
    + rewrite lookup_insert_ne by done. intros Hm. left. by eauto.
  - intros t' o' Hin. simpl in *. apply elem_of_dset in Hin as [[= -> ->]|Hin].
    + exists (empty_meta req t). by rewrite lookup_insert_eq.
    + destruct (cn_table _ Hc t' o' Hin) as (m & Hm & ?). exists m. by split; [apply Hk|].
Qed.

Lemma record_one_counted now e : stays_counted (record_send_req pcp_dummy_sender ABORT_REQUEST_TIMEOUT now e).
Proof.
  destruct e as [req [tid block_ids]]. intros s Hc. unfold record_send_req. case_if; [case_if|].
  - simpl. eapply counted_frame; [exact Hc|done..| |apply ddel_sub]. intros e He. apply elem_of_app. by left.
  - erewrite M_bind_ok by reflexivity. destruct (dget (reqs_need_send s) tid) as [o|] eqn:Eo; [|done].
    rewrite update_at. set (f := make_ready req block_ids (now + ABORT_REQUEST_TIMEOUT)).
    eapply uncounted_counted; [exact Hc| |].
    + split; simpl; [done|done| |].
      * intros o' m'. destruct (decide (o = o')) as [<-|Hne].
        -- rewrite lookup_alter_eq. intros (m & Hm & ->)%fmap_Some. left. by exists m.
        -- rewrite lookup_alter_ne by done. intros Hm. left. by exists m'.
      * intros o' m Hm. destruct (decide (o = o')) as [<-|Hne].
        -- exists (f m). by rewrite lookup_alter_eq, Hm.
        -- exists m. by rewrite lookup_alter_ne.
    + intros t o' Hin. simpl in *. destruct (cn_table _ Hc t o' Hin) as (m & Hm & Ht). destruct (decide (o = o')) as [<-|Hne].
      * exists (f m). by rewrite lookup_alter_eq, Hm.
      * exists m. by rewrite lookup_alter_ne.
  - erewrite M_bind_ok by reflexivity. destruct (dmem (reqs_need_send s) tid); [done|]. exact (new_entry_counted s req tid Hc).
Qed.

Lemma forget_one_counted t : stays_counted (forget_req t).
Proof.
  intros s Hc. unfold forget_req. erewrite M_bind_ok by reflexivity. destruct (dget (reqs_need_send s) t) as [o|]; [|done].
  erewrite M_bind_ok by reflexivity.
  assert (counted (set_table (ddel (reqs_need_send s) t) s)) as H1 by (eapply counted_frame; [exact Hc|done..|apply ddel_sub]).
  unfold mbind, M_bind, object. destruct (heap _ !! o) as [m|]; [|done]. by destruct (ready m).
Qed.

Lemma records_counted now send forget s :
  counted s -> counted (record_send_reqs pcp_dummy_sender ABORT_REQUEST_TIMEOUT now send forget s).2.
Proof.
  intros Hc. assert (stays_counted (record_send_reqs pcp_dummy_sender ABORT_REQUEST_TIMEOUT now send forget)) as H.
  { eapply ensures_bind; [apply ensures_for_each; intros e _; apply record_one_counted|].
    intros []. apply ensures_for_each. intros t _. apply forget_one_counted. }
  specialize (H s Hc). by destruct (record_send_reqs _ _ _ _ _ _) as [[]].
Qed.

Lemma fetch_counted now s : counted s -> counted (fetch_finished_sending_reqs now s).2.
Proof.
  assert (stays_counted (fetch_finished_sending_reqs now)) as H.
  { apply (ensures_bind _ _ _ (fun _ => counted)); [by intros s' Hs|]. intros s1.
    eapply ensures_bind.
    { apply ensures_for_each. clear s; intros e _ s Hs. unfold expire_entry. unfold mbind at 1, M_bind at 1, object.
      destruct (heap s !! e.2) as [m|]; [|done]. simpl. eapply counted_frame; [exact Hs|done..| |apply ddel_sub].
      intros e' He'. apply elem_of_app. by left. }
    intros []. apply (ensures_bind _ _ _ (fun _ => counted)); [by intros s' Hs|]. intros s2.
    apply (ensures_bind _ _ _ (fun _ => counted)); [|intros []; by intros s' Hs].
    intros s' Hs. by eapply counted_frame. }
  intros Hs. specialize (H s Hs). by destruct (fetch_finished_sending_reqs now s) as [[]].
Qed.

(** Every step of the worker keeps the counters. *)
Lemma works_counted s a s' :
  counted s -> (forall now send forget, a <> Recorded now send forget) -> (forall now, a <> Fetched now) ->
  step own layer_group_indices topo mamba NULL_BLOCK_ID physical_blocks map_to_kernel_blocks pcp_dummy_sender
    ABORT_REQUEST_TIMEOUT s a = Some s' -> counted s'.
Proof.
  intros Hc Hr Hf. unfold step. destruct a as [c meta|c done|c ret|c e|c|now send forget|now]; simpl handler.
  - destruct (conns s !! c) eqn:Hx; [done|]. intros [= <-]. by apply send_kv_counted.
  - destruct (conns s !! c) as [x|] eqn:Hx; [|done]. simpl. destruct (c_phase x) eqn:Hph; try done.
    destruct (may_wake s x done); [|done]. intros [= <-]. apply (worker_counted s c x); [done|done|by apply wake_up_settled].
  - destruct (conns s !! c) as [x|] eqn:Hx; [|done]. simpl. destruct (c_phase x) eqn:Hph; try done.
    intros [= <-]. apply (worker_counted s c x); [done|done|by apply transfer_done_settled].
  - destruct (conns s !! c) as [x|] eqn:Hx; [|done]. simpl. destruct (c_phase x) eqn:Hph; try done.
    intros [= <-]. apply (worker_counted s c x (throw e)); [done|done|]. exists (flight_of x).
    split; [by apply inhand_open|]. intros o Ho. apply elem_of_app. by right.
  - destruct (conns s !! c) as [x|] eqn:Hx; [|done]. simpl. destruct (c_phase x) eqn:Hph; try done.
    intros [= <-]. apply (worker_counted s c x (timeout c x)); [done|done|by apply timeout_settled].
  - by destruct (Hr now send forget).
  - by destruct (Hf now).
Qed.
End steps.

(** With no transfer of its blocks running and none failed, the counter of a
    request is zero. *)
Lemma idle_counter s o m :
  counted s -> heap s !! o = Some m -> ~ failed s (transfer_id m) -> ~ transferring s o -> sending m = 0.
Proof.
  intros Hc Hm Hnf Hnt. destruct (cn_sending _ Hc o m Hm) as [?| ->]; [done|]. apply occ_none. unfold all.
  intros ([c x] & Hx & Hin)%list_elem_of_In%in_flat_map. apply list_elem_of_In, elem_of_map_to_list in Hx.
  apply Hnt. exists c, x. split; [done|by apply list_elem_of_In].
Qed.
