(* ===== verification/MooncakeScheduler.v ===== *)
(** * The scheduler side of the Mooncake connector

    Models [MooncakeConnectorScheduler] and [MooncakeConnectorMetadata] of
    src/vllm_hcu/distributed/kv_transfer/kv_connector/v1/mooncake/mooncake_connector.py:
    which tokens and blocks of a request are transferred, and the requests
    handed to the workers with each step.

    The scheduler of vLLM keeps one [Request] object per request and passes it
    to every call; the connector changes it and keeps references to it, so
    requests are objects, named by their positions. *)

From S2P Require Import Prelude PyString Tensors MooncakeRegions.
Import Mooncake.
Local Open Scope Z_scope.

Module MooncakeScheduler.

(** ** Data *)

(** A value of [kv_transfer_params] *)
Inductive param := PNone | PBool (b : bool) | PStr (s : string).

#[global] Instance param_eq_dec : EqDecision param.
Proof. solve_decision. Defined.

Definition param_truth (p : param) : bool :=
  match p with PNone => false | PBool b => b | PStr s => negb (bool_decide (s = "")) end.

Definition params := dict string param.

(** [bool(params.get(key))] *)
Definition flag (ps : params) (key : string) : bool := default false (param_truth <$> dget ps key).

Definition param_at (ps : params) (key : string) : result param :=
  match dget ps key with Some p => Ok p | None => Err (Exn KeyError key) end.

Inductive request_status := FINISHED_LENGTH_CAPPED | OTHER_STATUS.

#[global] Instance request_status_eq_dec : EqDecision request_status.
Proof. solve_decision. Defined.

(** The fields of [Request] that the connector reads and writes; the rows of
    [prompt_embeds] by their number *)
Record Request := Req {
  request_id : string;
  kv_transfer_params : option params;
  prompt_token_ids : option (list Z);
  prompt_embeds : option Z;
  all_token_ids : list Z;
  num_prompt_tokens : Z;
  max_tokens : Z;
  r_status : request_status
}.

Definition set_params ps r := Req (request_id r) (Some ps) (prompt_token_ids r) (prompt_embeds r) (all_token_ids r)
  (num_prompt_tokens r) (max_tokens r) (r_status r).
Definition set_prompt ids r := Req (request_id r) (kv_transfer_params r) (Some ids) (prompt_embeds r)
  (all_token_ids r) (num_prompt_tokens r) (max_tokens r) (r_status r).
Definition set_embeds n r := Req (request_id r) (kv_transfer_params r) (prompt_token_ids r) (Some n)
  (all_token_ids r) (num_prompt_tokens r) (max_tokens r) (r_status r).
Definition set_all ids r := Req (request_id r) (kv_transfer_params r) (prompt_token_ids r) (prompt_embeds r) ids
  (num_prompt_tokens r) (max_tokens r) (r_status r).
Definition set_lengths n k r := Req (request_id r) (kv_transfer_params r) (prompt_token_ids r) (prompt_embeds r)
  (all_token_ids r) n k (r_status r).

(** A request of [reqs_to_recv] *)
Record pull_req := PullReq {
  pr_req_id : string;
  pr_transfer_id : param;
  pr_block_ids : list (list Z);
  pr_engine_id : param;
  pr_bootstrap_addr : param
}.

Record MooncakeConnectorMetadata := ConnectorMeta {
  reqs_to_recv : dict param (dict string pull_req);
  reqs_to_send : dict string (param * list (list Z));
  reqs_not_processed : list param
}.

(** [need_recv] and [need_send] hold a request and the blocks to transfer;
    [not_processed] is a set. *)
Record scheduler := Scheduler {
  requests : list Request;
  need_recv : dict string (nat * list (list Z));
  need_send_reqs : dict string (nat * list (list Z));
  not_processed : list param
}.

Definition set_requests l s := Scheduler l (need_recv s) (need_send_reqs s) (not_processed s).
Definition set_recv d s := Scheduler (requests s) d (need_send_reqs s) (not_processed s).
Definition set_send d s := Scheduler (requests s) (need_recv s) d (not_processed s).
Definition set_unprocessed l s := Scheduler (requests s) (need_recv s) (need_send_reqs s) l.

Definition set_add (l : list param) (p : param) : list param := if bool_decide (p ∈ l) then l else l ++ [p].

(** ** The configuration *)

(** A group of caches: its specification is of the class [FullAttentionSpec],
    [SlidingWindowSpec] or another one. *)
Inductive kv_cache_spec := FullAttention | SlidingWindow (sliding_window block_size : Z) | OtherSpec.

Record scheduler_config := SchedulerConfig {
  is_kv_producer : bool;
  is_kv_consumer : bool;
  is_hma_required : bool;
  has_mamba : bool;
  blocks_per_sw : list Z
}.

Definition cdiv (a b : Z) : Z := - ((- a) / b).

Definition is_full (g : kv_cache_spec) : bool := match g with FullAttention => true | _ => false end.

Definition sw_sizes_tokens (block_size : Z) (groups : list kv_cache_spec) : list (Z * Z) :=
  map (fun g => match g with SlidingWindow w b => (w, b) | _ => (0, block_size) end) groups.

(** [__init__] *)
Definition init_scheduler (kv_role : string) (disable_hybrid_kv_cache_manager has_mamba_layers : bool) (block_size : Z)
    (groups : list kv_cache_spec) : scheduler_config :=
  SchedulerConfig (bool_decide (kv_role = "kv_producer")) (bool_decide (kv_role = "kv_consumer"))
    (negb disable_hybrid_kv_cache_manager && existsb (fun g => negb (is_full g)) groups)
    has_mamba_layers
    (map (fun '(n_tokens, b) => if negb (n_tokens =? 0) then cdiv n_tokens b + 1 else 0)
      (sw_sizes_tokens block_size groups)).

Definition new_scheduler : scheduler := Scheduler [] [] [] [].

Section scheduler.
Context (cfg : scheduler_config).

(** ** Operations *)

Definition clip_group (n : Z) (blocks : list Z) : list Z :=
  if 0 <? n then drop (length blocks - Z.to_nat n) blocks else blocks.

Fixpoint clip_groups (i : Z) (groups : list (list Z)) : result (list (list Z)) :=
  match groups with
  | [] => Ok []
  | blocks :: rest =>
      n ← item (blocks_per_sw cfg) i;
      more ← clip_groups (i + 1) rest;
      Ok (clip_group n blocks :: more)
  end.

Definition get_sw_clipped_blocks (block_ids : list (list Z)) : result (list (list Z)) :=
  if is_empty block_ids || negb (is_hma_required cfg) then Ok block_ids else clip_groups 0 block_ids.

Definition get_remote_prefill_token_count (num_prompt_tokens : Z) : Z :=
  if has_mamba cfg && (1 <? num_prompt_tokens) then num_prompt_tokens - 1 else num_prompt_tokens.

(** The request object [r] *)
Definition the_request (r : nat) : M scheduler Request := fun s =>
  match requests s !! r with Some q => (Ok q, s) | None => (Err (Exn AttributeError ""), s) end.

Definition change (r : nat) (f : Request -> Request) : M scheduler unit :=
  modify (fun s => set_requests (alter f r (requests s)) s).

(** [l.pop()]: the list that is left *)
Definition popped (l : list Z) : result (list Z) :=
  match l with [] => Err (Exn IndexError "pop from empty list") | _ => Ok (take (length l - 1) l) end.

(** [prompt_embeds[:-1]] *)
Definition fewer_rows (n : Z) : Z := Z.max 0 (n - 1).

Definition drop_last_token (r : nat) (ps : params) : M scheduler unit :=
  q ← the_request r;
  ids ← lift (popped (all_token_ids q));
  change r (set_all ids) ;;
  change r (set_lengths (num_prompt_tokens q - 1) 1) ;;
  change r (set_params (dset ps "_p_side_truncated" (PBool true))).

Definition truncate_mamba_request_for_prefill (r : nat) : M scheduler unit :=
  q ← the_request r;
  match kv_transfer_params q with
  | Some ps =>
      if negb (flag ps "_p_side_truncated") && (1 <? num_prompt_tokens q) then
        match prompt_token_ids q, prompt_embeds q with
        | Some ids, _ =>
            ids ← lift (popped ids);
            change r (set_prompt ids) ;;
            drop_last_token r ps
        | None, Some n => change r (set_embeds (fewer_rows n)) ;; drop_last_token r ps
        | None, None => mret tt
        end
      else mret tt
  | None => mret tt
  end.

Definition require_role (b : bool) : M scheduler unit := if b then mret tt else raise AssertionError "".

Definition get_num_new_matched_tokens (r : nat) (num_computed_tokens : Z) : M scheduler (Z * bool) :=
  q ← the_request r;
  match kv_transfer_params q with
  | None | Some [] => mret (0, false)
  | Some ps =>
      let count := get_remote_prefill_token_count (zlen (default [] (prompt_token_ids q))) - num_computed_tokens in
      (if flag ps "do_remote_prefill" then require_role (negb (is_kv_producer cfg)) else mret tt) ;;
      if flag ps "do_remote_prefill" && (0 <? count) then mret (count, true)
      else
        (if flag ps "do_remote_decode" && has_mamba cfg then truncate_mamba_request_for_prefill r else mret tt) ;;
        mret (0, false)
  end.

(** [unhashed_block_ids]: [blocks.get_unhashed_block_ids_all_groups()] *)
Definition update_state_after_alloc (r : nat) (unhashed_block_ids : list (list Z)) (num_external_tokens : Z)
    : M scheduler unit :=
  q ← the_request r;
  match kv_transfer_params q with
  | None | Some [] => mret tt
  | Some ps =>
      if flag ps "do_remote_prefill" then
        require_role (negb (is_kv_producer cfg)) ;;
        (if forallb (dmem ps) ["remote_engine_id"; "remote_bootstrap_addr"; "transfer_id"] then
           local_block_ids ← lift (get_sw_clipped_blocks (if 0 <? num_external_tokens then unhashed_block_ids else []));
           modify (fun s => set_recv (dset (need_recv s) (request_id q) (r, local_block_ids)) s)
         else mret tt) ;;
        change r (set_params (dset ps "do_remote_prefill" (PBool false)))
      else if flag ps "do_remote_decode" then
        require_role (negb (is_kv_consumer cfg)) ;;
        if flag ps "transfer_id" then modify (fun s => set_send (dset (need_send_reqs s) (request_id q) (r, [])) s)
        else mret tt
      else mret tt
  end.

(** [MooncakeConnectorMetadata.add_new_req] *)
Definition add_new_req (request_id : string) (block_ids : list (list Z)) (ps : params) (load_remote_cache : bool)
    (meta : MooncakeConnectorMetadata) : result MooncakeConnectorMetadata :=
  transfer_id ← param_at ps "transfer_id";
  if load_remote_cache then
    engine ← param_at ps "remote_engine_id";
    addr ← param_at ps "remote_bootstrap_addr";
    let reqs := default [] (dget (reqs_to_recv meta) engine) in
    Ok (ConnectorMeta
      (dset (reqs_to_recv meta) engine (dset reqs request_id (PullReq request_id transfer_id block_ids engine addr)))
      (reqs_to_send meta) (reqs_not_processed meta))
  else
    Ok (ConnectorMeta (reqs_to_recv meta) (dset (reqs_to_send meta) request_id (transfer_id, block_ids))
      (reqs_not_processed meta)).

(** The requests of one table *)
Fixpoint add_reqs (load_remote_cache : bool) (entries : list (string * (nat * list (list Z))))
    (meta : MooncakeConnectorMetadata) : M scheduler MooncakeConnectorMetadata :=
  match entries with
  | [] => mret meta
  | (req_id, (r, block_ids)) :: rest =>
      q ← the_request r;
      match kv_transfer_params q with
      | None => raise AssertionError ""
      | Some ps =>
          meta ← lift (add_new_req req_id block_ids ps load_remote_cache meta);
          add_reqs load_remote_cache rest meta
      end
  end.

Definition build_connector_meta : M scheduler MooncakeConnectorMetadata :=
  s ← get_state;
  meta ← (if negb (is_kv_producer cfg) then
            meta ← add_reqs true (need_recv s) (ConnectorMeta [] [] []);
            modify (set_recv []) ;;
            mret meta
          else mret (ConnectorMeta [] [] []));
  if negb (is_kv_consumer cfg) then
    meta ← add_reqs false (need_send_reqs s) meta;
    modify (set_send []) ;;
    modify (set_unprocessed []) ;;
    mret (ConnectorMeta (reqs_to_recv meta) (reqs_to_send meta) (not_processed s))
  else mret meta.

(** [request_finished]: whether the blocks are freed later *)
Definition request_finished (r : nat) (block_ids : list (list Z)) : M scheduler bool :=
  q ← the_request r;
  match kv_transfer_params q with
  | None | Some [] => mret false
  | Some ps =>
      match dget ps "transfer_id" with
      | Some tid =>
          if negb (param_truth tid) then mret false
          else if flag ps "do_remote_prefill" then
            require_role (negb (is_kv_producer cfg)) ;;
            modify (fun s => set_recv (dset (need_recv s) (request_id q) (r, [])) s) ;;
            change r (set_params (dset ps "do_remote_prefill" (PBool false))) ;;
            mret false
          else if negb (flag ps "do_remote_decode") then mret false
          else
            require_role (negb (is_kv_consumer cfg)) ;;
            if negb (bool_decide (r_status q = FINISHED_LENGTH_CAPPED)) then
              modify (fun s => set_unprocessed (set_add (not_processed s) tid) s) ;;
              mret false
            else
              let delay_free_blocks := existsb (fun group => negb (is_empty group)) block_ids in
              (if delay_free_blocks then
                 clipped ← lift (get_sw_clipped_blocks block_ids);
                 modify (fun s => set_send (dset (need_send_reqs s) (request_id q) (r, clipped)) s)
               else mret tt) ;;
              mret delay_free_blocks
      | None => mret false
      end
  end.
End scheduler.
End MooncakeScheduler.
