(* ===== verification/MooncakeSchedulerCorrect.v ===== *)
(** * What the Mooncake scheduler transfers

    About MooncakeScheduler.v: the producer computes as many tokens of a prompt
    as the consumer asks for, and a consumer pulls every request once. *)

From S2P Require Import Prelude PyString Tensors MooncakeRegions MooncakeScheduler.
Import Mooncake MooncakeScheduler.
Local Open Scope Z_scope.

(** ** Calls *)

Lemma the_request_at r s q : requests s !! r = Some q -> the_request r s = (Ok q, s).
Proof. unfold the_request. by intros ->. Qed.

Lemma the_request_inv r s a s' : the_request r s = (Ok a, s') -> requests s !! r = Some a /\ s' = s.
Proof. unfold the_request. destruct (requests s !! r); [|done]. by intros [= <- <-]. Qed.

Lemma require_role_inv b s a s' : require_role b s = (Ok a, s') -> b = true /\ s' = s.
Proof. unfold require_role. destruct b; [|done]. by intros [= <- <-]. Qed.

Lemma require_role_ok b s : b = true -> require_role b s = (Ok tt, s).
Proof. by intros ->. Qed.

Definition param_of (q : Request) (key : string) : option param :=
  match kv_transfer_params q with Some ps => dget ps key | None => None end.

(** The request is still to be prefilled remotely. *)
Definition wants (q : Request) : bool := default false (param_truth <$> param_of q "do_remote_prefill").

Definition id_keys : list string := ["remote_engine_id"; "remote_bootstrap_addr"; "transfer_id"].

(** What no call changes: the name of a request and the ids in its parameters;
    and a request is never wanted again. *)
Record settled (q q' : Request) : Prop := {
  settled_id : request_id q' = request_id q;
  settled_wants : wants q = false -> wants q' = false;
  settled_keys key : key ∈ id_keys -> param_of q' key = param_of q key;
  settled_some : is_Some (kv_transfer_params q) -> is_Some (kv_transfer_params q')
}.

Definition all_settled (s s' : scheduler) : Prop := Forall2 settled (requests s) (requests s').

#[global] Instance settled_preorder : PreOrder settled.
Proof.
  split.
  - intros q. by constructor.
  - intros q q' q'' [] []. constructor; [congruence|auto| |auto].
    intros key Hk. rewrite settled_keys1 by done. by apply settled_keys0.
Qed.

#[global] Instance all_settled_preorder : PreOrder all_settled.
Proof. split; [intros s; unfold all_settled; reflexivity|intros s s' s''; unfold all_settled; by etrans]. Qed.

Lemma settled_requests s s' : requests s' = requests s -> all_settled s s'.
Proof. unfold all_settled. intros ->. reflexivity. Qed.

Lemma settled_set ps q key p :
  kv_transfer_params q = Some ps -> key ∉ id_keys -> (key = "do_remote_prefill" -> param_truth p = false) -> settled q (set_params (dset ps key p) q).
Proof.
  intros Hps Hk Hp. constructor; simpl; [done| | |done].
  - intros H. unfold wants, param_of in *. simpl. rewrite Hps in *. rewrite dget_dset.
    case_decide as Hc; [|done]. simpl. by apply Hp.
  - intros k' Hk'. unfold param_of. simpl. rewrite Hps, dget_dset. rewrite decide_False; [done|].
    intros E. subst. done.
Qed.

(** ** Truncated prompts *)

(** What [drop_last_token] leaves of a request *)
Definition shortened (ps : params) (q : Request) (all : list Z) : Request :=
  Req (request_id q) (Some (dset ps "_p_side_truncated" (PBool true))) (prompt_token_ids q) (prompt_embeds q) all
    (num_prompt_tokens q - 1) 1 (r_status q).

Definition truncate_request (q : Request) : result Request :=
  match kv_transfer_params q with
  | Some ps =>
      if negb (flag ps "_p_side_truncated") && (1 <? num_prompt_tokens q) then
        match prompt_token_ids q, prompt_embeds q with
        | Some ids, _ => ids ← popped ids; all ← popped (all_token_ids q); Ok (shortened ps (set_prompt ids q) all)
        | None, Some n => all ← popped (all_token_ids q); Ok (shortened ps (set_embeds (fewer_rows n) q) all)
        | None, None => Ok q
        end
      else Ok q
  | None => Ok q
  end.

Lemma requests_same s : set_requests (requests s) s = s.
Proof. by destruct s. Qed.

Lemma change_at r f s q :
  requests s !! r = Some q -> change r f s = (Ok tt, set_requests (<[r := f q]> (requests s)) s).
Proof.
  intros Hq. unfold change, modify. do 2 f_equal. apply list_eq. intros i.
  destruct (decide (i = r)) as [->|Hne].
  - rewrite list_lookup_alter_eq, Hq, list_lookup_insert_eq; [done|by eapply lookup_lt_Some].
  - by rewrite list_lookup_alter_ne, list_lookup_insert_ne.
Qed.

Lemma drop_last_token_at r ps q s all :
  requests s !! r = Some q -> popped (all_token_ids q) = Ok all ->
  drop_last_token r ps s = (Ok tt, set_requests (<[r := shortened ps q all]> (requests s)) s).
Proof.
  intros Hq Hp. pose proof (lookup_lt_Some _ _ _ Hq) as Hlt. unfold drop_last_token.
  rewrite (M_bind_ok _ _ _ _ _ (the_request_at r s q Hq)). rewrite Hp.
  erewrite M_bind_ok by reflexivity. erewrite M_bind_ok by (apply change_at; exact Hq).
  erewrite M_bind_ok by (apply change_at; simpl; by rewrite list_lookup_insert_eq).
  erewrite change_at by (simpl; by rewrite list_lookup_insert_eq; [|rewrite length_insert]).
  simpl. by rewrite !list_insert_insert_eq.
Qed.

Lemma truncate_at r s q :
  requests s !! r = Some q ->
  match truncate_request q with
  | Ok q' => truncate_mamba_request_for_prefill r s = (Ok tt, set_requests (<[r := q']> (requests s)) s)
  | Err e => exists s', truncate_mamba_request_for_prefill r s = (Err e, s')
  end.
Proof.
  intros Hq. unfold truncate_mamba_request_for_prefill, truncate_request.
  rewrite (M_bind_ok _ _ _ _ _ (the_request_at r s q Hq)).
  pose proof (lookup_lt_Some _ _ _ Hq) as Hlt.
  assert (forall u : unit, (mret u : M scheduler unit) s = (Ok tt, set_requests (<[r := q]> (requests s)) s)) as Hsame.
  { intros []. rewrite list_insert_id by done. by rewrite requests_same. }
  destruct (kv_transfer_params q) as [ps|]; [|by apply Hsame]. case_if; [|by apply Hsame].
  destruct (prompt_token_ids q) as [ids|]; [|destruct (prompt_embeds q) as [n|]; [|by apply Hsame]].
  - destruct (popped ids) as [ids'|e] eqn:Hids; [|by exists s].
    erewrite M_bind_ok by reflexivity. erewrite M_bind_ok by (apply change_at; exact Hq).
    cbn [mbind result_bind]. destruct (popped (all_token_ids q)) as [all|e] eqn:Hall; cbn.
    + erewrite drop_last_token_at; [by simpl; rewrite list_insert_insert_eq|simpl; by rewrite list_lookup_insert_eq|done].
    + eexists. unfold drop_last_token. erewrite M_bind_ok by (apply the_request_at; simpl; by rewrite list_lookup_insert_eq).
      simpl. rewrite Hall. reflexivity.
  - erewrite M_bind_ok by (apply change_at; exact Hq).
    cbn [mbind result_bind]. destruct (popped (all_token_ids q)) as [all|e] eqn:Hall; cbn.
    + erewrite drop_last_token_at; [by simpl; rewrite list_insert_insert_eq|simpl; by rewrite list_lookup_insert_eq|done].
    + eexists. unfold drop_last_token. erewrite M_bind_ok by (apply the_request_at; simpl; by rewrite list_lookup_insert_eq).
      simpl. rewrite Hall. reflexivity.
Qed.

Lemma settled_shortened ps q q0 all :
  kv_transfer_params q0 = Some ps -> request_id q = request_id q0 -> settled q0 (shortened ps q all).
Proof.
  intros Hps Hid. pose proof (settled_set ps q0 "_p_side_truncated" (PBool true) Hps) as [].
  - unfold id_keys. rewrite !not_elem_of_cons. split_and!; try done. apply not_elem_of_nil.
  - done.
  - by constructor.
Qed.

Lemma truncate_settled q q' : truncate_request q = Ok q' -> settled q q'.
Proof.
  unfold truncate_request. intros H. destruct (kv_transfer_params q) as [ps|] eqn:Hps; [|by simplify_eq].
  destruct (_ && _); [|by simplify_eq].
  destruct (prompt_token_ids q), (prompt_embeds q); cbn in H;
    repeat match type of H with context [popped ?l] => destruct (popped l); cbn in H end;
    simplify_eq; try reflexivity; by apply settled_shortened.
Qed.

(** *** The producer's and the consumer's count *)

(** [k] calls for request [r], as the scheduler makes when it is rescheduled *)
Fixpoint matched_again (cfg : scheduler_config) (r : nat) (computed : list Z) : M scheduler unit :=
  match computed with
  | [] => mret tt
  | n :: rest => get_num_new_matched_tokens cfg r n ;; matched_again cfg r rest
  end.

(** A request that a router sends to the producer *)
Definition prefill_request (q : Request) (ps : params) (ids : list Z) : Prop :=
  kv_transfer_params q = Some ps /\ flag ps "do_remote_prefill" = false /\ flag ps "do_remote_decode" = true /\
  flag ps "_p_side_truncated" = false /\
  prompt_token_ids q = Some ids /\ all_token_ids q = ids /\ num_prompt_tokens q = zlen ids.

Lemma flag_dset ps key key' p : key <> key' -> flag (dset ps key p) key' = flag ps key'.
Proof. intros Hne. unfold flag. by rewrite dget_dset_ne. Qed.

Lemma matched_prefill cfg r n s q ps :
  requests s !! r = Some q -> kv_transfer_params q = Some ps -> flag ps "do_remote_prefill" = false ->
  flag ps "do_remote_decode" = true ->
  get_num_new_matched_tokens cfg r n s =
    ((if has_mamba cfg then truncate_mamba_request_for_prefill r else mret tt) ;; mret (0, false)) s.
Proof.
  intros Hq Hps Hp Hd. unfold get_num_new_matched_tokens.
  rewrite (M_bind_ok _ _ _ _ _ (the_request_at r s q Hq)), Hps.
  destruct ps as [|x ps]; [done|]. by rewrite Hp, Hd.
Qed.

Lemma popped_take l : l <> [] -> popped l = Ok (take (length l - 1) l).
Proof. by destruct l. Qed.

(** A request that needs no truncation (any more) stays as it is. *)
Lemma matched_again_same cfg r computed s q ps :
  requests s !! r = Some q -> kv_transfer_params q = Some ps -> flag ps "do_remote_prefill" = false ->
  flag ps "do_remote_decode" = true ->
  (has_mamba cfg = false \/ truncate_request q = Ok q) ->
  matched_again cfg r computed s = (Ok tt, s).
Proof.
  intros Hq Hps Hp Hd Hs. induction computed as [|n rest IH]; [done|]. simpl.
  erewrite M_bind_ok; [exact IH|]. rewrite (matched_prefill cfg r n s q ps) by done.
  destruct (has_mamba cfg); [|done]. destruct Hs as [Hs|Hs]; [done|].
  pose proof (truncate_at r s q Hq) as E. rewrite Hs in E. erewrite M_bind_ok by exact E.
  rewrite list_insert_id by done. by rewrite requests_same.
Qed.

Lemma consumer_matched cfg ids r s q ps n :
  requests s !! r = Some q -> kv_transfer_params q = Some ps -> prompt_token_ids q = Some ids ->
  flag ps "do_remote_prefill" = true -> is_kv_producer cfg = false ->
  n < get_remote_prefill_token_count cfg (zlen ids) ->
  get_num_new_matched_tokens cfg r n s = (Ok (get_remote_prefill_token_count cfg (zlen ids) - n, true), s).
Proof.
  intros Hq Hps Hids Hp Hrole Hlt. unfold get_num_new_matched_tokens.
  rewrite (M_bind_ok _ _ _ _ _ (the_request_at r s q Hq)), Hps.
  destruct ps as [|x ps]; [done|]. rewrite Hp, Hids, Hrole. simpl.
  replace (0 <? _) with true; [done|]. symmetry. apply Z.ltb_lt. lia.
Qed.

(** C19: the producer prefills as many tokens as the consumer pulls.  For a
    prompt of [ids], however often the producer's scheduler asks (a preempted
    request is scheduled again) the request then has the prompt that is [ids]
    up to the count of the consumer, and with a state-space model it stops
    after one token; the consumer pulls that count less what it has. *)
Theorem prefill_lengths_agree cfgP cfgD r s q ps ids computed n0 :
  has_mamba cfgP = has_mamba cfgD -> requests s !! r = Some q -> prefill_request q ps ids ->
  let count := get_remote_prefill_token_count cfgD (zlen ids) in
  exists q',
    matched_again cfgP r (n0 :: computed) s = (Ok tt, set_requests (<[r := q']> (requests s)) s) /\
    request_id q' = request_id q /\ prompt_token_ids q' = Some (take (Z.to_nat count) ids) /\
    all_token_ids q' = take (Z.to_nat count) ids /\ num_prompt_tokens q' = count /\
    (has_mamba cfgP = true -> 1 < zlen ids -> max_tokens q' = 1) /\
    (forall rD sD qD psD n, requests sD !! rD = Some qD -> kv_transfer_params qD = Some psD ->
      prompt_token_ids qD = Some ids -> flag psD "do_remote_prefill" = true -> is_kv_producer cfgD = false ->
      n < count -> get_num_new_matched_tokens cfgD rD n sD = (Ok (count - n, true), sD)).
Proof.
  intros Hm Hq (Hps & Hp & Hd & Hnt & Hids & Hall & Hn) count.
  pose proof (consumer_matched cfgD ids) as HD. fold count in HD.
  destruct (has_mamba cfgP && (1 <? zlen ids)) eqn:Hb.
  - assert (has_mamba cfgP = true /\ 1 < zlen ids) as [Hm1 Hlen] by (by bool_prop).
    assert (ids <> []) as Hne by (intros ->; by cbn in Hlen).
    assert (count = zlen ids - 1) as ->.
    { unfold count, get_remote_prefill_token_count. by rewrite <- Hm, Hb. }
    replace (Z.to_nat (zlen ids - 1)) with (length ids - 1)%nat by (unfold zlen; lia).
    set (q' := shortened ps (set_prompt (take (length ids - 1) ids) q) (take (length ids - 1) ids)).
    assert (truncate_request q = Ok q') as Ht.
    { unfold truncate_request. rewrite Hps, Hnt, Hids, Hall, Hn. replace (1 <? zlen ids) with true by (symmetry; by apply Z.ltb_lt).
      cbn [negb andb]. rewrite !popped_take by done. done. }
    exists q'. split_and!; [|done|done|done|by simpl; rewrite Hn|done|done].
    simpl. erewrite M_bind_ok.
    2: { rewrite (matched_prefill cfgP r n0 s q ps) by done. rewrite Hm1.
      pose proof (truncate_at r s q Hq) as E. rewrite Ht in E. erewrite M_bind_ok by exact E. reflexivity. }
    apply (matched_again_same _ _ _ _ q' (dset ps "_p_side_truncated" (PBool true))).
    + simpl. rewrite list_lookup_insert_eq; [done|by eapply lookup_lt_Some].
    + done.
    + by rewrite flag_dset.
    + by rewrite flag_dset.
    + right. unfold truncate_request. simpl. unfold flag at 1. by rewrite dget_dset_eq.
  - assert (count = zlen ids) as ->.
    { unfold count, get_remote_prefill_token_count. by rewrite <- Hm, Hb. }
    exists q. replace (Z.to_nat (zlen ids)) with (length ids) by (unfold zlen; lia). rewrite firstn_all.
    split_and!; try done; [|by intros H1 H2; rewrite H1 in Hb; simpl in Hb; bool_prop; lia].
    rewrite list_insert_id by done. rewrite requests_same. apply (matched_again_same _ _ _ _ q ps); try done.
    destruct (has_mamba cfgP); [right|by left]. simpl in Hb. unfold truncate_request. by rewrite Hps, Hn, Hb, andb_false_r.
Qed.

(** ** Requests that are pulled *)

(** The calls of the scheduler of vLLM *)
Inductive call :=
  | Matched (r : nat) (num_computed_tokens : Z)
  | Allocated (r : nat) (unhashed_block_ids : list (list Z)) (num_external_tokens : Z)
  | Finished (r : nat) (block_ids : list (list Z))
  | Built.

(** A call, with the metadata it hands to the workers *)
Definition perform (cfg : scheduler_config) (c : call) : M scheduler (option MooncakeConnectorMetadata) :=
  match c with
  | Matched r n => get_num_new_matched_tokens cfg r n ;; mret None
  | Allocated r blocks n => update_state_after_alloc cfg r blocks n ;; mret None
  | Finished r blocks => request_finished cfg r blocks ;; mret None
  | Built => meta ← build_connector_meta cfg; mret (Some meta)
  end.

(** The metadata of a sequence of calls *)
Fixpoint perform_all (cfg : scheduler_config) (cs : list call) : M scheduler (list MooncakeConnectorMetadata) :=
  match cs with
  | [] => mret []
  | c :: rest =>
      meta ← perform cfg c;
      more ← perform_all cfg rest;
      mret (option_list meta ++ more)
  end.

(** The requests that the workers are asked to pull *)
Definition pulls (meta : MooncakeConnectorMetadata) : list (string * pull_req) := concat (dvalues (reqs_to_recv meta)).

(** The parameters name the engine to pull from. *)
Definition complete (q : Request) : bool := forallb (fun key => bool_decide (is_Some (param_of q key))) id_keys.

Lemma complete_settled q q' : settled q q' -> complete q' = complete q.
Proof. intros H. unfold complete. simpl. by rewrite !(settled_keys _ _ H) by (unfold id_keys; set_solver). Qed.

(** The blocks that a call asks to pull for request [r] *)
Definition call_blocks (cfg : scheduler_config) (c : call) (r : nat) (blocks : list (list Z)) : Prop :=
  match c with
  | Allocated r' unhashed n => r' = r /\ get_sw_clipped_blocks cfg (if 0 <? n then unhashed else []) = Ok blocks
  | Finished r' _ => r' = r /\ blocks = []
  | _ => False
  end.

(** The effect of a call on the requests to pull: nothing, or request [r] is
    added and not wanted any more. *)
Inductive recv_effect (cfg : scheduler_config) (c : call) (s s' : scheduler) : Prop :=
  | recv_same :
      need_recv s' = need_recv s ->
      (forall r q q', requests s !! r = Some q -> requests s' !! r = Some q' -> complete q = true -> wants q' = wants q) ->
      recv_effect cfg c s s'
  | recv_added r q q' blocks :
      requests s !! r = Some q -> wants q = true -> requests s' = <[r := q']> (requests s) -> wants q' = false ->
      need_recv s' = dset (need_recv s) (request_id q) (r, blocks) -> call_blocks cfg c r blocks ->
      recv_effect cfg c s s'.

Lemma recv_same_requests cfg c s s' :
  need_recv s' = need_recv s -> requests s' = requests s -> recv_effect cfg c s s'.
Proof. intros H Hr. apply recv_same; [done|]. rewrite Hr. intros. by simplify_eq. Qed.

Lemma recv_same_insert cfg c s s' r q q' :
  need_recv s' = need_recv s -> requests s !! r = Some q -> requests s' = <[r := q']> (requests s) ->
  (complete q = true -> wants q' = wants q) -> recv_effect cfg c s s'.
Proof.
  intros H Hq Hr Hw. apply recv_same; [done|]. intros i x y Hx Hy. rewrite Hr in Hy.
  apply list_lookup_insert_Some in Hy as [(-> & -> & _)|[_ Hy]]; simplify_eq; [exact Hw|done].
Qed.

Lemma wants_flag q ps : kv_transfer_params q = Some ps -> wants q = flag ps "do_remote_prefill".
Proof. intros H. unfold wants, param_of, flag. by rewrite H. Qed.

Lemma wants_done ps q : wants (set_params (dset ps "do_remote_prefill" (PBool false)) q) = false.
Proof. unfold wants, param_of. simpl. by rewrite dget_dset_eq. Qed.

Lemma settled_done ps q :
  kv_transfer_params q = Some ps -> settled q (set_params (dset ps "do_remote_prefill" (PBool false)) q).
Proof.
  intros H. apply settled_set; [done| |done].
  unfold id_keys. rewrite !not_elem_of_cons. split_and!; try done. apply not_elem_of_nil.
Qed.

(** Inverts a run of the monad that ended normally. *)
Ltac minv H :=
  repeat match type of H with
  | (mbind _ _) _ = (Ok _, _) =>
      let a := fresh "a" in let s := fresh "s" in let E := fresh "E" in
      apply M_bind_inv in H as (a & s & E & H)
  end.

Lemma insert_settled r q q' s :
  requests s !! r = Some q -> settled q q' -> all_settled s (set_requests (<[r := q']> (requests s)) s).
Proof.
  intros Hq Hs. unfold all_settled. simpl. apply Forall2_same_length_lookup_2; [by rewrite length_insert|].
  intros i x y Hx Hy. destruct (decide (i = r)) as [->|Hne].
  - rewrite list_lookup_insert_eq in Hy by (by eapply lookup_lt_Some). by simplify_eq.
  - rewrite list_lookup_insert_ne in Hy by done. simplify_eq. reflexivity.
Qed.

Lemma truncate_wants q q' : truncate_request q = Ok q' -> wants q' = wants q.
Proof.
  unfold truncate_request. intros H. destruct (kv_transfer_params q) as [ps|] eqn:Hps; [|by simplify_eq].
  rewrite (wants_flag q ps Hps).
  destruct (_ && _); [|by simplify_eq; apply wants_flag].
  destruct (prompt_token_ids q), (prompt_embeds q); cbn in H;
    repeat match type of H with context [popped ?l] => destruct (popped l); cbn in H end;
    simplify_eq; try by apply wants_flag.
  all: unfold wants, param_of; simpl; by rewrite dget_dset_ne.
Qed.

(** A call changes at most the request, by a truncation. *)
Lemma matched_cases cfg r n s a s' :
  get_num_new_matched_tokens cfg r n s = (Ok a, s') ->
  exists q q', requests s !! r = Some q /\ (q' = q \/ truncate_request q = Ok q') /\
    s' = set_requests (<[r := q']> (requests s)) s.
Proof.
  unfold get_num_new_matched_tokens. intros H. apply M_bind_inv in H as (q & s1 & E & H).
  apply the_request_inv in E as [Hq ->]. exists q.
  assert (forall a', (mret a' : M scheduler (Z * bool)) s = (Ok a, s') -> exists q', requests s !! r = Some q /\
    (q' = q \/ truncate_request q = Ok q') /\ s' = set_requests (<[r := q']> (requests s)) s) as Hid.
  { intros a' [= _ <-]. exists q. split_and!; [done|by left|]. rewrite list_insert_id by done. by rewrite requests_same. }
  destruct (kv_transfer_params q) as [[|x ps]|]; [by eapply Hid| |by eapply Hid].
  apply M_bind_inv in H as ([] & s1 & E & H).
  assert (s1 = s) as ->.
  { destruct (flag _ _); [by apply require_role_inv in E as [_ ->]|by injection E]. }
  destruct (_ && _); [by eapply Hid|]. apply M_bind_inv in H as ([] & s1 & E' & H).
  destruct (_ && _); [injection H as _ <-|injection E' as <-; by eapply Hid].
  pose proof (truncate_at r s q Hq) as Ht. destruct (truncate_request q) as [q'|e] eqn:Htr.
  - rewrite Ht in E'. injection E' as <-. exists q'. auto.
  - destruct Ht as [s2 Ht]. congruence.
Qed.

Lemma matched_effect cfg r n s a s' :
  get_num_new_matched_tokens cfg r n s = (Ok a, s') -> all_settled s s' /\ recv_effect cfg (Matched r n) s s'.
Proof.
  intros (q & q' & Hq & Ht & ->)%matched_cases. split.
  - apply (insert_settled r q); [done|]. destruct Ht as [->|Ht]; [reflexivity|by apply truncate_settled].
  - eapply recv_same_insert; [done|exact Hq|done|]. intros _. destruct Ht as [->|Ht]; [done|by apply truncate_wants].
Qed.

Lemma complete_keys q ps : kv_transfer_params q = Some ps -> complete q = forallb (dmem ps) id_keys.
Proof.
  intros H. unfold complete. induction id_keys as [|key keys IH]; simpl; [done|]. rewrite IH. f_equal.
  unfold dmem, param_of. rewrite H. by destruct (dget ps key).
Qed.

Lemma allocated_effect cfg r blocks n s a s' :
  update_state_after_alloc cfg r blocks n s = (Ok a, s') ->
  all_settled s s' /\ recv_effect cfg (Allocated r blocks n) s s' /\
  (forall q', requests s' !! r = Some q' -> wants q' = false).
Proof.
  unfold update_state_after_alloc. intros H. apply M_bind_inv in H as (q & s1 & E & H).
  apply the_request_inv in E as [Hq ->].
  assert (wants q = false -> requests s' = requests s -> need_recv s' = need_recv s ->
    all_settled s s' /\ recv_effect cfg (Allocated r blocks n) s s' /\
    (forall q', requests s' !! r = Some q' -> wants q' = false)) as Hid.
  { intros Hw Hr Hn. split_and!; [by apply settled_requests|by apply recv_same_requests|]. rewrite Hr. intros. by simplify_eq. }
  destruct (kv_transfer_params q) as [[|x ps]|] eqn:Hps.
  1: { injection H as _ <-. apply Hid; [by rewrite (wants_flag _ _ Hps)|done..]. }
  2: { injection H as _ <-. apply Hid; [unfold wants, param_of; by rewrite Hps|done..]. }
  set (ps0 := x :: ps) in *. clearbody ps0. pose proof (wants_flag _ _ Hps) as Hw.
  destruct (flag ps0 "do_remote_prefill") eqn:Hf.
  - minv H. apply require_role_inv in E as [_ ->]. fold id_keys in E0.
    rewrite <- (complete_keys q ps0 Hps) in E0.
    assert (complete q = false /\ s1 = s \/ exists bl, call_blocks cfg (Allocated r blocks n) r bl /\
      s1 = set_recv (dset (need_recv s) (request_id q) (r, bl)) s) as Hs1.
    { destruct (complete q); [|left; by injection E0]. minv E0. right.
      unfold lift in E. injection E as Hc <-. injection E0 as _ <-. by eexists. }
    assert (requests s1 = requests s) as Hr by (destruct Hs1 as [[_ ->]|(? & _ & ->)]; done).
    rewrite (change_at _ _ _ q) in H by (by rewrite Hr). injection H as _ <-. simpl. rewrite Hr. split_and!.
    + unfold all_settled. simpl. exact (insert_settled r q _ s Hq (settled_done _ q Hps)).
    + destruct Hs1 as [[Hc ->]|(bl & Hbl & ->)].
      * eapply recv_same_insert; [done|exact Hq|done|]. congruence.
      * eapply recv_added; [exact Hq|done|done|apply wants_done|done|done].
    + intros q'. rewrite list_lookup_insert_eq by (by eapply lookup_lt_Some). intros [= <-]. apply wants_done.
  - destruct (flag _ "do_remote_decode"); [|injection H as _ <-; by apply Hid]. minv H.
    apply require_role_inv in E as [_ ->].
    destruct (flag _ "transfer_id"); injection H as _ <-; by apply Hid.
Qed.

Lemma finished_effect cfg r blocks s a s' :
  request_finished cfg r blocks s = (Ok a, s') -> all_settled s s' /\ recv_effect cfg (Finished r blocks) s s'.
Proof.
  unfold request_finished. intros H. apply M_bind_inv in H as (q & s1 & E & H).
  apply the_request_inv in E as [Hq ->].
  assert (forall a' s'', (mret a' : M scheduler bool) s'' = (Ok a, s') -> requests s'' = requests s -> need_recv s'' = need_recv s ->
    all_settled s s' /\ recv_effect cfg (Finished r blocks) s s') as Hid.
  { intros a' s'' [= _ <-] Hr Hn. split; [by apply settled_requests|by apply recv_same_requests]. }
  destruct (kv_transfer_params q) as [[|x ps]|] eqn:Hps; [by eapply Hid| |by eapply Hid].
  set (ps0 := x :: ps) in *. clearbody ps0. destruct (dget _ "transfer_id") as [tid|]; [|by eapply Hid].
  destruct (negb (param_truth tid)); [by eapply Hid|]. destruct (flag _ "do_remote_prefill") eqn:Hf.
  - minv H. apply require_role_inv in E as [_ ->]. injection E0 as _ <-.
    rewrite (change_at _ _ _ q) in E1 by done. injection E1 as _ <-. injection H as _ <-. split.
    + exact (insert_settled r q _ s Hq (settled_done _ q Hps)).
    + eapply recv_added; [exact Hq|by rewrite (wants_flag _ _ Hps)|done|apply wants_done|done|done].
  - destruct (negb (flag _ _)); [by eapply Hid|]. minv H. apply require_role_inv in E as [_ ->].
    destruct (negb (bool_decide _)); minv H.
    + injection E as _ <-. by eapply Hid.
    + destruct (existsb _ _); [minv E; injection E0 as _ <-|]; injection E as _ <-; by eapply Hid.
Qed.

(** *** Building the metadata *)

Lemma dset_concat {K V} `{EqDecision K} (d : dict K (dict string V)) (k : K) (id : string) (v : V) :
  id ∉ map fst (concat (dvalues d)) ->
  concat (dvalues (dset d k (dset (default [] (dget d k)) id v))) ≡ₚ (id, v) :: concat (dvalues d).
Proof.
  induction d as [|[k' d'] d IH]; simpl; [done|]. rewrite fmap_app, not_elem_of_app. intros [H1 H2].
  destruct (decide (k' = k)) as [->|Hne]; simpl.
  - rewrite dset_notin by done. by rewrite <- Permutation_middle, app_nil_r.
  - rewrite IH by done. by rewrite Permutation_middle.
Qed.

(** The entry of a table and what the workers get for it *)
Definition pulled_as (s : scheduler) (e : string * (nat * list (list Z))) (p : string * pull_req) : Prop :=
  p.1 = e.1 /\ pr_req_id p.2 = e.1 /\ pr_block_ids p.2 = e.2.2 /\ exists q, requests s !! e.2.1 = Some q /\
    param_of q "transfer_id" = Some (pr_transfer_id p.2) /\ param_of q "remote_engine_id" = Some (pr_engine_id p.2) /\
    param_of q "remote_bootstrap_addr" = Some (pr_bootstrap_addr p.2).

Definition sent_as (s : scheduler) (e : string * (nat * list (list Z))) (x : string * (param * list (list Z))) : Prop :=
  x.1 = e.1 /\ x.2.2 = e.2.2 /\ exists q, requests s !! e.2.1 = Some q /\ param_of q "transfer_id" = Some x.2.1.

Lemma param_at_inv ps key p : param_at ps key = Ok p -> dget ps key = Some p.
Proof. unfold param_at. destruct (dget ps key); [by intros [= ->]|done]. Qed.

(** Inverts a run of the [result] monad that ended normally. *)
Ltac rinv H :=
  repeat match type of H with
  | (mbind _ ?m) = Ok _ => let E := fresh "E" in destruct m eqn:E; cbn in H; [|discriminate H]
  end.

Lemma add_reqs_recv entries meta s meta' s' :
  add_reqs true entries meta s = (Ok meta', s') -> NoDup (map fst (pulls meta) ++ dkeys entries) ->
  s' = s /\ reqs_to_send meta' = reqs_to_send meta /\
  exists l, pulls meta' ≡ₚ pulls meta ++ l /\ Forall2 (pulled_as s) entries l.
Proof.
  revert meta. induction entries as [|[id [r blocks]] entries IH]; intros meta H Hnd; simpl in H.
  - injection H as <- <-. split_and!; [done..|]. exists []. by rewrite app_nil_r.
  - apply M_bind_inv in H as (q & s1 & E & H). apply the_request_inv in E as [Hq ->].
    destruct (kv_transfer_params q) as [ps|] eqn:Hps; [|done].
    apply M_bind_inv in H as (m1 & s1 & E & H). unfold lift in E. injection E as E <-.
    unfold add_new_req in E. rinv E. simplify_eq.
    simpl in Hnd. apply NoDup_app in Hnd as (Hnd1 & Hdis & [Hni Hnd2]%NoDup_cons).
    assert (id ∉ map fst (pulls meta)) as Hid by (intros Hin; eapply Hdis; [exact Hin|by left]).
    set (x := PullReq id _ blocks _ _) in *.
    destruct (IH _ H) as (-> & Hs & l & Hl & Hf).
    { unfold pulls. simpl. rewrite (dset_concat (reqs_to_recv meta)) by done. simpl.
      rewrite Permutation_middle. apply NoDup_app. split_and!; [done| |by apply NoDup_cons].
      intros y Hy [->|Hin]%elem_of_cons; [by apply Hid|]. eapply Hdis; [exact Hy|by right]. }
    split_and!; [done|done|]. exists ((id, x) :: l). split.
    + rewrite Hl. unfold pulls. simpl. rewrite (dset_concat (reqs_to_recv meta)) by done. simpl.
      by rewrite Permutation_middle.
    + constructor; [|done]. split_and!; try done. exists q. unfold param_of. rewrite Hps. simpl.
      split_and!; [done|by apply param_at_inv..].
Qed.

Lemma add_reqs_send entries meta s meta' s' :
  add_reqs false entries meta s = (Ok meta', s') -> NoDup (dkeys (reqs_to_send meta) ++ dkeys entries) ->
  s' = s /\ reqs_to_recv meta' = reqs_to_recv meta /\
  exists l, reqs_to_send meta' = reqs_to_send meta ++ l /\ Forall2 (sent_as s) entries l.
Proof.
  revert meta. induction entries as [|[id [r blocks]] entries IH]; intros meta H Hnd; simpl in H.
  - injection H as <- <-. split_and!; [done..|]. exists []. by rewrite app_nil_r.
  - apply M_bind_inv in H as (q & s1 & E & H). apply the_request_inv in E as [Hq ->].
    destruct (kv_transfer_params q) as [ps|] eqn:Hps; [|done].
    apply M_bind_inv in H as (m1 & s1 & E & H). unfold lift in E. injection E as E <-.
    unfold add_new_req in E. rinv E. simplify_eq.
    simpl in Hnd. pose proof Hnd as (_ & Hdis & _)%NoDup_app.
    assert (id ∉ dkeys (reqs_to_send meta)) as Hid by (intros Hin; eapply Hdis; [exact Hin|by left]).
    destruct (IH _ H) as (-> & Hs & l & Hl & Hf).
    { simpl. rewrite dkeys_dset_notin by done. by rewrite <- app_assoc. }
    split_and!; [done|done|]. eexists ((id, (_, blocks)) :: l). split.
    + rewrite Hl. simpl. rewrite dset_notin by done. by rewrite <- app_assoc.
    + constructor; [|done]. split_and!; try done. exists q. unfold param_of. rewrite Hps. simpl.
      split; [done|by apply param_at_inv].
Qed.

Lemma add_reqs_send_only entries meta s meta' s' :
  add_reqs false entries meta s = (Ok meta', s') -> s' = s /\ reqs_to_recv meta' = reqs_to_recv meta.
Proof.
  revert meta. induction entries as [|[id [r blocks]] entries IH]; intros meta H; simpl in H; [by injection H as <- <-|].
  apply M_bind_inv in H as (q & s1 & E & H). apply the_request_inv in E as [Hq ->].
  destruct (kv_transfer_params q) as [ps|]; [|done].
  apply M_bind_inv in H as (m1 & s1 & E & H). unfold lift in E. injection E as E <-.
  unfold add_new_req in E. rinv E. simplify_eq. by destruct (IH _ H) as [-> ->].
Qed.

Lemma build_recv cfg s meta s' :
  build_connector_meta cfg s = (Ok meta, s') -> is_kv_producer cfg = false -> NoDup (dkeys (need_recv s)) ->
  requests s' = requests s /\ need_recv s' = [] /\
  exists l, pulls meta ≡ₚ l /\ Forall2 (pulled_as s) (need_recv s) l.
Proof.
  unfold build_connector_meta. intros H Hp Hn. apply M_bind_inv in H as (s0 & s1 & E & H).
  injection E as <- <-. rewrite Hp in H. simpl negb in H.
  apply M_bind_inv in H as (m1 & s1 & E & H). minv E. injection E as <- <-. injection E1 as _ <-.
  destruct (add_reqs_recv _ _ _ _ _ E0) as (-> & Hs & l & Hl & Hf); [done|].
  destruct (negb (is_kv_consumer cfg)).
  - minv H. injection H as <- <-. injection E1 as _ <-. injection E2 as _ <-.
    destruct (add_reqs_send_only _ _ _ _ _ E) as [-> Hr].
    split_and!; [done|done|]. exists l. split; [|done]. unfold pulls in *. simpl. by rewrite Hr.
  - injection H as <- <-. split_and!; [done|done|]. by exists l.
Qed.

(** *** A sequence of calls *)

Section pulled.
Context (cfg : scheduler_config) (s0 : scheduler).
Hypothesis not_producer : is_kv_producer cfg = false.
Hypothesis distinct_ids : NoDup (map request_id (requests s0)).

(** Request [r] was wanted at first and a call of [cs] asked to pull [blocks]
    for it. *)
Definition asked_for (cs : list call) (s : scheduler) (id : string) (r : nat) (blocks : list (list Z)) : Prop :=
  exists q0 q c, requests s0 !! r = Some q0 /\ requests s !! r = Some q /\ request_id q0 = id /\
    wants q0 = true /\ wants q = false /\ c ∈ cs /\ call_blocks cfg c r blocks.

Definition from_params (q : Request) (p : pull_req) : Prop :=
  pr_req_id p = request_id q /\ param_of q "transfer_id" = Some (pr_transfer_id p) /\
  param_of q "remote_engine_id" = Some (pr_engine_id p) /\
  param_of q "remote_bootstrap_addr" = Some (pr_bootstrap_addr p).

Record pull_inv (cs : list call) (s : scheduler) (pulled : list (string * pull_req)) : Prop := {
  pi_settled : all_settled s0 s;
  pi_once : NoDup (map fst pulled ++ dkeys (need_recv s));
  pi_entry id r blocks : (id, (r, blocks)) ∈ need_recv s -> asked_for cs s id r blocks;
  pi_pulled id p : (id, p) ∈ pulled ->
    exists r, asked_for cs s id r (pr_block_ids p) /\ forall q0, requests s0 !! r = Some q0 -> from_params q0 p;
  pi_complete r q0 q : requests s0 !! r = Some q0 -> requests s !! r = Some q -> complete q0 = true -> wants q0 = true ->
    wants q = true \/ request_id q0 ∈ map fst pulled ++ dkeys (need_recv s);
  pi_allocated r blocks n q : Allocated r blocks n ∈ cs -> requests s !! r = Some q -> wants q = false
}.

Lemma settled_at s s' r q :
  all_settled s s' -> requests s !! r = Some q -> exists q', requests s' !! r = Some q' /\ settled q q'.
Proof. intros H Hq. by apply (Forall2_lookup_l _ _ _ _ _ H Hq). Qed.

Lemma settled_back s s' r q' :
  all_settled s s' -> requests s' !! r = Some q' -> exists q, requests s !! r = Some q /\ settled q q'.
Proof. intros H Hq. by apply (Forall2_lookup_r _ _ _ _ _ H Hq). Qed.

Lemma asked_for_later cs c s s' id r blocks :
  all_settled s s' -> asked_for cs s id r blocks -> asked_for (cs ++ [c]) s' id r blocks.
Proof.
  intros Hs (q0 & q & c' & H0 & Hq & Hid & Hw0 & Hw & Hc & Hb). destruct (settled_at _ _ _ _ Hs Hq) as (q' & Hq' & []).
  exists q0, q', c'. split_and!; auto. apply elem_of_app. by left.
Qed.

Lemma same_object r r' q q' :
  requests s0 !! r = Some q -> requests s0 !! r' = Some q' -> request_id q = request_id q' -> r = r'.
Proof.
  intros H H' E. eapply (NoDup_lookup _ _ _ (request_id q)); [exact distinct_ids| |].
  - by rewrite list_lookup_fmap, H.
  - rewrite list_lookup_fmap, H'. simpl. by rewrite E.
Qed.

(** A request that is still wanted was not pulled. *)
Lemma wanted_is_new cs s pulled r q :
  pull_inv cs s pulled -> requests s !! r = Some q -> wants q = true ->
  request_id q ∉ map fst pulled ++ dkeys (need_recv s).
Proof.
  intros I Hq Hw. destruct (settled_back _ _ _ _ (pi_settled _ _ _ I) Hq) as (q0 & H0 & Hst).
  rewrite (settled_id _ _ Hst).
  assert (forall blocks r', asked_for cs s (request_id q0) r' blocks -> False) as Hno.
  { intros blocks r' (q1 & q2 & _ & H1 & H2 & Hid & _ & Hw2 & _). assert (r' = r) as -> by (by eapply same_object).
    congruence. }
  rewrite elem_of_app. intros [Hin|Hin]; apply list_elem_of_fmap in Hin as ([id x] & Hid & Hin); simpl in Hid; subst id.
  - destruct (pi_pulled _ _ _ I _ _ Hin) as (r' & Ha & _). by eapply Hno.
  - destruct x as [r' blocks]. eapply Hno. by eapply (pi_entry _ _ _ I).
Qed.

Lemma effect_inv cs c s s' pulled :
  pull_inv cs s pulled -> all_settled s s' -> recv_effect cfg c s s' ->
  (forall r blocks n q, c = Allocated r blocks n -> requests s' !! r = Some q -> wants q = false) ->
  pull_inv (cs ++ [c]) s' pulled.
Proof.
  intros I Hst He Hc.
  assert (forall r blocks n q', Allocated r blocks n ∈ cs ++ [c] -> requests s' !! r = Some q' -> wants q' = false) as Ha.
  { intros r blocks n q' [Hin|Heq%list_elem_of_singleton]%elem_of_app Hq'; [|by eapply Hc].
    destruct (settled_back _ _ _ _ Hst Hq') as (q & Hq & []). by eapply settled_wants0, (pi_allocated _ _ _ I). }
  assert (forall id p, (id, p) ∈ pulled -> exists r, asked_for (cs ++ [c]) s' id r (pr_block_ids p) /\
    forall q0, requests s0 !! r = Some q0 -> from_params q0 p) as Hp.
  { intros id p Hin. destruct (pi_pulled _ _ _ I _ _ Hin) as (r & H & H').
    exists r. split; [by eapply asked_for_later|done]. }
  pose proof (pi_settled _ _ _ I) as Hst0.
  destruct He as [Hn Hw|r q q' blocks Hq Hw Hr Hw' Hn Hb].
  - constructor; rewrite ?Hn; [by etrans|by apply (pi_once _ _ _ I)| |done| |done].
    + intros id r blocks Hin. eapply asked_for_later; [done|]. by apply (pi_entry _ _ _ I).
    + intros r q0 q' H0 Hq' Hcmp Hw0. destruct (settled_back _ _ _ _ Hst Hq') as (q & Hq & _).
      rewrite (Hw _ _ _ Hq Hq'); [by eapply (pi_complete _ _ _ I)|].
      destruct (settled_at _ _ _ _ Hst0 H0) as (q1 & Hq1 & Hs1). simplify_eq.
      by rewrite (complete_settled _ _ Hs1).
  - pose proof (wanted_is_new _ _ _ _ _ I Hq Hw) as Hnew. pose proof (proj2 (proj1 (not_elem_of_app _ _ _) Hnew)) as Hnk.
    assert (requests s' !! r = Some q') as Hq' by (rewrite Hr; apply list_lookup_insert_eq; by eapply lookup_lt_Some).
    constructor; rewrite ?Hn, ?(dkeys_dset_notin _ _ _ Hnk), ?app_assoc; [by etrans| | |done| |done].
    + apply NoDup_app. split_and!; [by apply (pi_once _ _ _ I)| |apply NoDup_singleton].
      intros id Hid ->%list_elem_of_singleton. done.
    + intros id r' bl Hin. rewrite dset_notin in Hin by done.
      apply elem_of_app in Hin as [Hin|[= -> -> ->]%list_elem_of_singleton].
      { eapply asked_for_later; [done|]. by apply (pi_entry _ _ _ I). }
      destruct (settled_back _ _ _ _ Hst0 Hq) as (q0 & H0 & Hs0).
      exists q0, q', c. split_and!; try done.
      * by rewrite (settled_id _ _ Hs0).
      * destruct (wants q0) eqn:Hw0; [done|]. by rewrite (settled_wants _ _ Hs0) in Hw.
      * apply elem_of_app. right. by apply list_elem_of_singleton.
    + intros r' q0 q2 H0 Hq2 Hcmp Hw0. destruct (decide (r' = r)) as [->|Hne].
      * right. destruct (settled_at _ _ _ _ Hst0 H0) as (q1 & Hq1 & Hs1). simplify_eq.
        rewrite <- (settled_id _ _ Hs1). apply elem_of_app. right. by apply list_elem_of_singleton.
      * rewrite Hr, list_lookup_insert_ne in Hq2 by done.
        destruct (pi_complete _ _ _ I _ _ _ H0 Hq2 Hcmp Hw0) as [?|?]; [by left|right]. apply elem_of_app. by left.
Qed.

Lemma built_inv cs s s' pulled meta :
  pull_inv cs s pulled -> build_connector_meta cfg s = (Ok meta, s') ->
  pull_inv (cs ++ [Built]) s' (pulled ++ pulls meta).
Proof.
  intros I H. pose proof (pi_once _ _ _ I) as Honce.
  destruct (build_recv cfg s meta s' H not_producer) as (Hr & Hn & l & Hl & Hf).
  { by apply NoDup_app in Honce as (_ & _ & ?). }
  pose proof (settled_requests s s' Hr) as Hst. pose proof (pi_settled _ _ _ I) as Hst0.
  assert (map fst l = dkeys (need_recv s)) as Hk.
  { clear -Hf. unfold dkeys. induction Hf as [|e p es ps [He _] _ IH]; simpl; [done|]. by rewrite He, IH. }
  assert (map fst (pulled ++ pulls meta) ≡ₚ map fst pulled ++ dkeys (need_recv s)) as Hperm.
  { rewrite <- Hk, map_app. by apply Permutation_app_head, Permutation_map. }
  constructor; rewrite ?Hn; cbn [dkeys map]; rewrite ?app_nil_r; [by etrans|by rewrite Hperm| | | |].
  - by intros id r blocks ?%not_elem_of_nil.
  - intros id p [Hin|Hin]%elem_of_app.
    { destruct (pi_pulled _ _ _ I _ _ Hin) as (r & Ha & Hp). exists r. split; [by eapply asked_for_later|done]. }
    rewrite Hl in Hin. apply list_elem_of_lookup in Hin as [i Hi].
    destruct (Forall2_lookup_r _ _ _ _ _ Hf Hi) as ([id' [r blocks]] & He & (Hid & Hpid & Hb & q & Hq & Hp)).
    simpl in *. subst id' blocks. exists r. apply list_elem_of_lookup_2 in He.
    split; [eapply asked_for_later; [done|]; by apply (pi_entry _ _ _ I)|].
    intros q0 H0. destruct (settled_at _ _ _ _ Hst0 H0) as (q1 & Hq1 & Hs1). simplify_eq.
    destruct (pi_entry _ _ _ I _ _ _ He) as (q2 & _ & _ & H2 & _ & Hid2 & _). simplify_eq. unfold from_params.
    rewrite <- !(settled_keys _ _ Hs1) by (unfold id_keys; set_solver). by rewrite Hid2.
  - intros r q0 q H0 Hq Hcmp Hw. rewrite Hr in Hq. rewrite Hperm. by eapply (pi_complete _ _ _ I).
  - intros r blocks n q [Hin|?%list_elem_of_singleton]%elem_of_app Hq; [|done]. rewrite Hr in Hq.
    by eapply (pi_allocated _ _ _ I).
Qed.

Lemma perform_all_inv cs0 cs s s' pulled metas :
  pull_inv cs0 s pulled -> perform_all cfg cs s = (Ok metas, s') ->
  pull_inv (cs0 ++ cs) s' (pulled ++ concat (map pulls metas)).
Proof.
  revert cs0 s pulled metas. induction cs as [|c cs IH]; intros cs0 s pulled metas I H; simpl in H.
  - injection H as <- <-. simpl. by rewrite !app_nil_r.
  - apply M_bind_inv in H as (om & s1 & E & H). apply M_bind_inv in H as (more & s2 & E2 & H). injection H as <- <-.
    replace (cs0 ++ c :: cs) with ((cs0 ++ [c]) ++ cs) by (by rewrite <- app_assoc).
    rewrite map_app, concat_app, app_assoc. apply (IH _ s1); [|done]. clear E2 IH.
    destruct c as [r n|r blocks n|r blocks|]; simpl in E; apply M_bind_inv in E as (a & s3 & E & E'); injection E' as <- <-.
    all: simpl; rewrite ?app_nil_r.
    + destruct (matched_effect _ _ _ _ _ _ E) as (Hs & He). by eapply effect_inv.
    + destruct (allocated_effect _ _ _ _ _ _ _ E) as (Hs & He & Hw). eapply effect_inv; [done..|].
      intros r' bl' n' q [= -> -> ->]. apply Hw.
    + destruct (finished_effect _ _ _ _ _ _ E) as (Hs & He). by eapply effect_inv.
    + by eapply built_inv.
Qed.
End pulled.

(** C18: over any sequence of calls of a scheduler that is not a producer, the
    workers are asked to pull every request at most once, also when it is
    preempted and allocated again; what they get is the request as its
    parameters name it, with the blocks of the call that allocated it (clipped
    to the sliding windows) or none when it was aborted first; and every
    request with complete parameters that was allocated has been pulled or waits
    for the next metadata. *)
Theorem pulled_once cfg cs s metas s' :
  is_kv_producer cfg = false -> NoDup (map request_id (requests s)) -> need_recv s = [] ->
  perform_all cfg cs s = (Ok metas, s') ->
  let pulled := concat (map pulls metas) in
  NoDup (map fst pulled ++ dkeys (need_recv s')) /\
  (forall id p, (id, p) ∈ pulled -> exists r q c, requests s !! r = Some q /\ request_id q = id /\ wants q = true /\
    from_params q p /\ c ∈ cs /\ call_blocks cfg c r (pr_block_ids p)) /\
  (forall r q blocks n, requests s !! r = Some q -> wants q = true -> complete q = true ->
    Allocated r blocks n ∈ cs -> request_id q ∈ map fst pulled ++ dkeys (need_recv s')).
Proof.
  intros Hp Hids Hn H pulled.
  assert (pull_inv cfg s [] s []) as I0.
  { constructor; rewrite ?Hn; [reflexivity|constructor| | | |];
      try by intros * ?%not_elem_of_nil.
    intros r q0 q H0 Hq _ Hw. simplify_eq. by left. }
  pose proof (perform_all_inv cfg s Hp Hids [] cs s s' [] metas I0 H) as I. simpl in I. fold pulled in I.
  split_and!; [apply I| |].
  - intros id p Hin. destruct (pi_pulled _ _ _ _ _ I _ _ Hin) as (r & (q0 & q & c & H0 & _ & Hid & Hw & _ & Hc & Hb) & Hf).
    exists r, q0, c. split_and!; auto.
  - intros r q blocks n Hq Hw Hcmp Hin. destruct (settled_at _ _ _ _ (pi_settled _ _ _ _ _ I) Hq) as (q' & Hq' & _).
    destruct (pi_complete _ _ _ _ _ I _ _ _ Hq Hq' Hcmp Hw) as [Hw'|?]; [|done].
    by rewrite (pi_allocated _ _ _ _ _ I _ _ _ _ Hin Hq') in Hw'.
Qed.

(** A request without the id of its engine is skipped when it is allocated;
    but when it is aborted before that, it is put among the requests to pull,
    and then every building of the metadata raises a [KeyError] and leaves the
    request where it is. *)
Theorem aborted_request_stops_scheduler cfg r s q ps blocks :
  is_kv_producer cfg = false -> requests s !! r = Some q -> kv_transfer_params q = Some ps -> need_recv s = [] ->
  flag ps "do_remote_prefill" = true -> flag ps "transfer_id" = true -> dget ps "remote_engine_id" = None ->
  (exists s1, request_finished cfg r blocks s = (Ok false, s1) /\
    build_connector_meta cfg s1 = (Err (Exn KeyError "remote_engine_id"), s1)) /\
  (forall unhashed n, exists s1, update_state_after_alloc cfg r unhashed n s = (Ok tt, s1) /\ need_recv s1 = []).
Proof.
  intros Hp Hq Hps Hn Hf Ht He. pose proof (lookup_lt_Some _ _ _ Hq) as Hlt.
  assert (exists tid, dget ps "transfer_id" = Some tid /\ param_truth tid = true) as (tid & Htid & Htrue).
  { unfold flag in Ht. destruct (dget ps "transfer_id"); [by eexists|done]. }
  destruct ps as [|x ps]; [done|]. set (ps0 := x :: ps) in *. split.
  - eexists. split.
    + unfold request_finished. rewrite (M_bind_ok _ _ _ _ _ (the_request_at r s q Hq)), Hps. unfold ps0 at 1.
      fold ps0. rewrite Htid, Htrue, Hf, Hp. cbn [negb]. erewrite M_bind_ok by reflexivity.
      erewrite M_bind_ok by reflexivity. erewrite M_bind_ok by (apply change_at; exact Hq). reflexivity.
    + unfold build_connector_meta. rewrite Hp. erewrite M_bind_ok by reflexivity. apply M_bind_err, M_bind_err.
      cbn [need_recv set_recv set_requests requests]. rewrite Hn, dset_notin by apply not_elem_of_nil.
      cbn [add_reqs app]. erewrite M_bind_ok by (apply the_request_at; by apply list_lookup_insert_eq).
      cbn [kv_transfer_params set_params]. apply M_bind_err. unfold lift. f_equal. unfold add_new_req, param_at.
      rewrite !dget_dset_ne by done. by rewrite Htid, He.
  - intros unhashed n. eexists. split.
    + unfold update_state_after_alloc. rewrite (M_bind_ok _ _ _ _ _ (the_request_at r s q Hq)), Hps. unfold ps0 at 1.
      fold ps0. rewrite Hf, Hp. erewrite M_bind_ok by reflexivity.
      replace (forallb (dmem ps0) _) with false by (simpl; unfold dmem at 1; by rewrite He).
      erewrite M_bind_ok by reflexivity. apply change_at. exact Hq.
    + done.
Qed.

(** ** Examples *)

Definition prefill_params : params := [("do_remote_decode", PBool true); ("transfer_id", PStr "x1")].
Definition decode_params : params :=
  [("do_remote_prefill", PBool true); ("transfer_id", PStr "x1"); ("remote_engine_id", PStr "e");
   ("remote_bootstrap_addr", PStr "a")].
Definition engineless_params : params := [("do_remote_prefill", PBool true); ("transfer_id", PStr "x1")].
Definition demo_request (id : string) (ps : params) : Request :=
  Req id (Some ps) (Some [5; 6; 7]) None [5; 6; 7] 3 16 FINISHED_LENGTH_CAPPED.
Definition mamba_groups : list kv_cache_spec := [FullAttention; SlidingWindow 20 16].

Lemma prefill_lengths_agree_witness :
  exists q', matched_again (init_scheduler "kv_producer" false true 16 mamba_groups) 0 [0; 0]
      (Scheduler [demo_request "p" prefill_params] [] [] []) = (Ok tt, Scheduler [q'] [] [] []) /\
    prompt_token_ids q' = Some [5; 6] /\ max_tokens q' = 1.
Proof.
  destruct (prefill_lengths_agree (init_scheduler "kv_producer" false true 16 mamba_groups)
    (init_scheduler "kv_consumer" false true 16 mamba_groups) 0 (Scheduler [demo_request "p" prefill_params] [] [] [])
    (demo_request "p" prefill_params) prefill_params [5; 6; 7] [0] 0 eq_refl eq_refl
    ltac:(by split_and!)) as (q' & E & _ & Hids & _ & _ & Hmax & _).
  exists q'. split_and!; [exact E|exact Hids|by apply Hmax].
Defined.

(** Allocated, pulled, preempted, allocated again *)
Definition preempted_calls : list call :=
  [Allocated 0 [[1; 2; 3]; [4; 5; 6]] 3; Built; Allocated 0 [[7; 8; 9]; [1; 2; 3]] 3; Built].

Lemma pulled_once_witness :
  exists metas s', perform_all (init_scheduler "kv_consumer" false false 16 mamba_groups) preempted_calls
      (Scheduler [demo_request "d" decode_params] [] [] []) = (Ok metas, s') /\
    NoDup (map fst (concat (map pulls metas))) /\
    concat (map pulls metas) = [("d", PullReq "d" (PStr "x1") [[1; 2; 3]; [4; 5; 6]] (PStr "e") (PStr "a"))].
Proof.
  eexists _, _. split; [vm_compute; reflexivity|]. split; [|vm_compute; reflexivity].
  edestruct (pulled_once (init_scheduler "kv_consumer" false false 16 mamba_groups) preempted_calls
    (Scheduler [demo_request "d" decode_params] [] [] [])) as [H _];
    [done|apply NoDup_singleton|done|vm_compute; reflexivity|].
  by apply NoDup_app in H as [H _].
Defined.

Lemma aborted_request_stops_scheduler_witness :
  exists s1, request_finished (init_scheduler "kv_consumer" false false 16 [FullAttention]) 0 []
      (Scheduler [demo_request "d" engineless_params] [] [] []) = (Ok false, s1) /\
    build_connector_meta (init_scheduler "kv_consumer" false false 16 [FullAttention]) s1 =
      (Err (Exn KeyError "remote_engine_id"), s1).
Proof.
  apply (aborted_request_stops_scheduler (init_scheduler "kv_consumer" false false 16 [FullAttention]) 0
    (Scheduler [demo_request "d" engineless_params] [] [] [])
    (demo_request "d" engineless_params) engineless_params []
    eq_refl eq_refl eq_refl eq_refl eq_refl eq_refl eq_refl).
Defined.
