(* ===== verification/MooncakeProducer.v ===== *)
(** * A Mooncake producer: scheduler and worker

    Composes MooncakeScheduler.v with MooncakeSender.v, for a producer.  Each
    step of vLLM hands the metadata that the scheduler builds to the worker,
    which files it on its event loop ([start_load_kv]) and goes on; the loop
    records it later, in the order of the steps, between the work it does for
    consumers.  The worker reports the requests whose blocks may be freed. *)

From S2P Require Import Prelude PyString Tensors MooncakeRegions MooncakeTopology MooncakeSender MooncakeScheduler.
Import Mooncake MooncakeTopology MooncakeSender MooncakeScheduler.
Local Open Scope Z_scope.

Module MooncakeProducer.

(** Where a request is between its arrival and its end: scheduled since the
    last metadata, running since, finished with blocks to send, finished
    without *)
Inductive stage := Arrived | Placed | Running | Delivering (block_ids : list (list Z)) | Left.

#[global] Instance stage_eq_dec : EqDecision stage.
Proof. solve_decision. Defined.

Record producer := Producer {
  sched : scheduler;
  stages : list stage;
  queue : list MooncakeConnectorMetadata;
  worker : sender;
  reported : gset string
}.

Definition new_producer : producer := Producer new_scheduler [] [] new_sender ∅.

(** The id of a transfer, a string *)
Definition text (p : param) : string := match p with PStr s => s | _ => "" end.

(** The transfer of a request that is sent to a consumer *)
Definition transfer_of (q : Request) : option string :=
  match kv_transfer_params q with
  | Some ps =>
      if negb (flag ps "do_remote_prefill") && flag ps "do_remote_decode" && flag ps "transfer_id" then
        text <$> dget ps "transfer_id"
      else None
  | None => None
  end.

(** The arguments of [record_send_reqs] *)
Definition send_list (meta : MooncakeConnectorMetadata) : list (string * (string * list (list Z))) :=
  map (fun e => (e.1, (text e.2.1, e.2.2))) (reqs_to_send meta).

(** [start_load_kv] of the worker of a producer *)
Definition file_metadata (meta : MooncakeConnectorMetadata) (q : list MooncakeConnectorMetadata)
    : list MooncakeConnectorMetadata :=
  if is_empty (reqs_to_send meta) && is_empty (reqs_not_processed meta) then q else q ++ [meta].

Definition set_status (st : request_status) (q : Request) : Request :=
  Req (request_id q) (kv_transfer_params q) (prompt_token_ids q) (prompt_embeds q) (all_token_ids q)
    (num_prompt_tokens q) (max_tokens q) st.

Definition built (st : stage) : stage := match st with Placed => Running | _ => st end.
Definition placed_stage (st : stage) : stage := match st with Arrived => Placed | _ => st end.

Definition ended (st : stage) : bool := match st with Delivering _ | Left => true | _ => false end.

Section producer.
Context (cfg : scheduler_config).
Context (own : MooncakeXferMetadata) (layer_group_indices : dict string Z) (topo : topology).
Context (mamba : list bool) (NULL_BLOCK_ID physical_blocks : Z) (map_to_kernel_blocks : list Z -> Z -> list Z).
Context (pcp_dummy_sender : bool) (ABORT_REQUEST_TIMEOUT : Z).

Abbreviation worker_step := (step own layer_group_indices topo mamba NULL_BLOCK_ID physical_blocks
  map_to_kernel_blocks pcp_dummy_sender ABORT_REQUEST_TIMEOUT).
Abbreviation record := (record_send_reqs pcp_dummy_sender ABORT_REQUEST_TIMEOUT).

(** The steps.  vLLM calls the connector for a request in this order: it may
    ask for matched tokens and allocate several times, it builds the metadata
    at the end of each step, and it finishes a request once; a request that
    ends because its length is reached has run in an earlier step.  The router
    gives every request an id and a transfer id of its own. *)
Inductive producer_step (p : producer) : producer -> Prop :=
  | step_arrives q :
      request_id q <> "" -> request_id q ∉ map request_id (requests (sched p)) ->
      (forall t q', transfer_of q = Some t -> q' ∈ requests (sched p) -> transfer_of q' <> Some t) ->
      (forall ps v, kv_transfer_params q = Some ps -> dget ps "transfer_id" = Some v -> param_truth v = true ->
        exists t, v = PStr t) ->
      producer_step p (Producer (set_requests (requests (sched p) ++ [q]) (sched p)) (stages p ++ [Arrived])
        (queue p) (worker p) (reported p))
  | step_matches r st n a s' :
      stages p !! r = Some st -> ended st = false ->
      get_num_new_matched_tokens cfg r n (sched p) = (Ok a, s') ->
      producer_step p (Producer s' (stages p) (queue p) (worker p) (reported p))
  | step_allocates r st unhashed n s' :
      stages p !! r = Some st -> ended st = false ->
      update_state_after_alloc cfg r unhashed n (sched p) = (Ok tt, s') ->
      producer_step p (Producer s' (<[r := placed_stage st]> (stages p)) (queue p) (worker p) (reported p))
  | step_builds meta s' :
      build_connector_meta cfg (sched p) = (Ok meta, s') ->
      producer_step p (Producer s' (map built (stages p)) (file_metadata meta (queue p)) (worker p) (reported p))
  | step_finishes r st status block_ids delayed s' :
      stages p !! r = Some st -> ended st = false -> (status = FINISHED_LENGTH_CAPPED -> st = Running) ->
      request_finished cfg r block_ids
        (set_requests (alter (set_status status) r (requests (sched p))) (sched p)) = (Ok delayed, s') ->
      producer_step p (Producer s' (<[r := if delayed then Delivering block_ids else Left]> (stages p))
        (queue p) (worker p) (reported p))
  | step_records meta rest forget now u w' :
      queue p = meta :: rest -> forget ≡ₚ map text (reqs_not_processed meta) ->
      record now (send_list meta) forget (worker p) = (u, w') ->
      producer_step p (Producer (sched p) (stages p) rest w' (reported p))
  | step_fetches now ids w' :
      fetch_finished_sending_reqs now (worker p) = (Ok ids, w') ->
      producer_step p (Producer (sched p) (stages p) (queue p) w' (reported p ∪ ids))
  | step_works a w' :
      (forall now send forget, a <> Recorded now send forget) -> (forall now, a <> Fetched now) ->
      worker_step (worker p) a = Some w' ->
      producer_step p (Producer (sched p) (stages p) (queue p) w' (reported p)).

Inductive produces : producer -> Prop :=
  | produces_new : produces new_producer
  | produces_step p p' : produces p -> producer_step p p' -> produces p'.
End producer.
End MooncakeProducer.
