(* ===== verification/MooncakeProducerCorrect.v ===== *)
(** * A Mooncake producer sends and frees the blocks of finished requests

    About MooncakeProducer.v.  The metadata on their way to the worker are
    events of the ledgers to come (MooncakeLedger.v); the invariant says, for
    every stage of a request, what its ledger is after them and what the
    scheduler still holds. *)

From S2P Require Import Prelude PyString Tensors MooncakeRegions MooncakeTopology MooncakeSender MooncakeSenderCorrect MooncakeLedger MooncakeScheduler MooncakeSchedulerCorrect MooncakeProducer.
Import Mooncake MooncakeTopology MooncakeSender MooncakeScheduler MooncakeProducer.
Local Open Scope Z_scope.

(** ** The calls of a producer's scheduler *)

(** The name and the transfer of a request *)
Definition same_transfer (q q' : Request) : Prop :=
  request_id q' = request_id q /\ transfer_of q' = transfer_of q /\ param_of q' "transfer_id" = param_of q "transfer_id".

Lemma transfer_of_some q t :
  transfer_of q = Some t -> exists ps v, kv_transfer_params q = Some ps /\ flag ps "do_remote_prefill" = false /\
    flag ps "do_remote_decode" = true /\ flag ps "transfer_id" = true /\ dget ps "transfer_id" = Some v /\
    param_truth v = true /\ text v = t.
Proof.
  unfold transfer_of. destruct (kv_transfer_params q) as [ps|]; [|done].
  destruct (flag ps "do_remote_prefill") eqn:Hp, (flag ps "do_remote_decode") eqn:Hd, (flag ps "transfer_id") eqn:Ht;
    try done. simpl.
  pose proof Ht as Ht'. unfold flag in Ht'. destruct (dget ps "transfer_id") as [v|] eqn:Hv; [|done].
  intros [= <-]. by exists ps, v.
Qed.

Lemma transfer_of_none q ps :
  transfer_of q = None -> kv_transfer_params q = Some ps -> flag ps "do_remote_prefill" = false ->
  flag ps "do_remote_decode" = true -> flag ps "transfer_id" = false.
Proof.
  unfold transfer_of. intros H Hps Hp Hd. rewrite Hps, Hp, Hd in H. simpl in H.
  destruct (flag ps "transfer_id") eqn:Ht; [|done]. unfold flag in Ht. by destruct (dget ps "transfer_id").
Qed.

Lemma truncate_same_transfer q q' : truncate_request q = Ok q' -> same_transfer q q'.
Proof.
  intros H. pose proof (truncate_settled _ _ H) as [].
  split_and!; [done| |apply settled_keys; unfold id_keys; set_solver].
  unfold truncate_request in H. destruct (kv_transfer_params q) as [ps|] eqn:Hps; [|by simplify_eq].
  destruct (_ && _); [|by simplify_eq].
  assert (forall qn, kv_transfer_params qn = Some (dset ps "_p_side_truncated" (PBool true)) ->
    transfer_of qn = transfer_of q) as Hd.
  { intros qn Hqn. unfold transfer_of. rewrite Hqn, Hps, !flag_dset by done. by rewrite dget_dset_ne. }
  destruct (prompt_token_ids q), (prompt_embeds q); cbn in H;
    repeat match type of H with context [popped ?l] => destruct (popped l); cbn in H end;
    simplify_eq; try done; by apply Hd.
Qed.

Section calls.
Context (cfg : scheduler_config).
Hypothesis producer_role : is_kv_producer cfg = true.
Hypothesis not_consumer : is_kv_consumer cfg = false.

Lemma alloc_producer r unhashed n s q a s' :
  requests s !! r = Some q -> update_state_after_alloc cfg r unhashed n s = (Ok a, s') ->
  s' = match transfer_of q with
       | Some _ => set_send (dset (need_send_reqs s) (request_id q) (r, [])) s
       | None => s
       end.
Proof using producer_role not_consumer.
  intros Hq. unfold update_state_after_alloc. rewrite (M_bind_ok _ _ _ _ _ (the_request_at r s q Hq)).
  rewrite producer_role, not_consumer.
  destruct (transfer_of q) as [t|] eqn:Ht.
  - destruct (transfer_of_some q t Ht) as (ps & v & Hps & Hp & Hd & Htid & _). rewrite Hps.
    destruct ps as [|x ps]; [done|]. rewrite Hp, Hd, Htid. by intros [= _ <-].
  - destruct (kv_transfer_params q) as [[|x ps]|] eqn:Hps; [by intros [= _ <-]| |by intros [= _ <-]].
    destruct (flag _ "do_remote_prefill") eqn:Hp; [by intros ?|].
    destruct (flag _ "do_remote_decode") eqn:Hd; [|by intros [= _ <-]].
    rewrite (transfer_of_none q _ Ht Hps Hp Hd). by intros [= _ <-].
Qed.

Lemma clip_groups_length i groups cl : clip_groups cfg i groups = Ok cl -> length cl = length groups.
Proof using Type.
  revert i cl. induction groups as [|g groups IH]; intros i cl H; simpl in H; [by simplify_eq|].
  rinv H. simplify_eq. simpl. f_equal. by eapply IH.
Qed.

Lemma clipped_not_empty groups cl :
  get_sw_clipped_blocks cfg groups = Ok cl -> existsb (fun g => negb (is_empty g)) groups = true -> cl <> [].
Proof using Type.
  intros H He ->. unfold get_sw_clipped_blocks in H. destruct (_ || _); [by simplify_eq|].
  apply clip_groups_length in H. by destruct groups.
Qed.

(** How a request ends *)
Lemma finish_producer r blocks s q d s' :
  requests s !! r = Some q -> request_finished cfg r blocks s = (Ok d, s') ->
  match transfer_of q with
  | None => d = false /\ s' = s
  | Some t =>
      (exists v, param_of q "transfer_id" = Some v /\ param_truth v = true /\ text v = t /\ d = false /\
        r_status q <> FINISHED_LENGTH_CAPPED /\ s' = set_unprocessed (set_add (not_processed s) v) s) \/
      r_status q = FINISHED_LENGTH_CAPPED /\ (d = false /\ s' = s \/ d = true /\
        exists cl, get_sw_clipped_blocks cfg blocks = Ok cl /\ cl <> [] /\
          s' = set_send (dset (need_send_reqs s) (request_id q) (r, cl)) s)
  end.
Proof using producer_role not_consumer.
  intros Hq. unfold request_finished. rewrite (M_bind_ok _ _ _ _ _ (the_request_at r s q Hq)).
  rewrite producer_role, not_consumer.
  destruct (transfer_of q) as [t|] eqn:Ht.
  - destruct (transfer_of_some q t Ht) as (ps & v & Hps & Hp & Hd & Htid & Hv & Htrue & Htext).
    unfold param_of. rewrite Hps. destruct ps as [|x ps]; [done|]. rewrite Hp, Hd, Hv, Htrue. cbn [negb].
    erewrite M_bind_ok by reflexivity. case_bool_decide as Hst; cbn [negb].
    + destruct (existsb _ _) eqn:He; [|by intros [= <- <-]; right; auto]. intros H.
      apply M_bind_inv in H as (a & s1 & E & H). apply M_bind_inv in E as (cl & s2 & E1 & E2).
      unfold lift in E1. injection E1 as Hcl <-. injection E2 as _ <-. injection H as <- <-. right.
      split; [done|]. right. split; [done|]. exists cl. split_and!; [done|by eapply clipped_not_empty|done].
    + intros H. apply M_bind_inv in H as (a & s1 & E & H). injection E as _ <-. injection H as <- <-. left.
      exists v. by split_and!.
  - destruct (kv_transfer_params q) as [[|x ps]|] eqn:Hps; [by intros [= <- <-]| |by intros [= <- <-]].
    destruct (dget _ "transfer_id") as [v|] eqn:Hv; [|by intros [= <- <-]].
    destruct (negb (param_truth v)) eqn:Hb; [by intros [= <- <-]|].
    destruct (flag _ "do_remote_prefill") eqn:Hp; [by intros ?|].
    destruct (flag _ "do_remote_decode") eqn:Hd; [|by intros [= <- <-]].
    pose proof (transfer_of_none q _ Ht Hps Hp Hd) as Hf. unfold flag in Hf. rewrite Hv in Hf. simpl in Hf.
    by rewrite Hf in Hb.
Qed.

(** The metadata of a step, and that it is built *)
Lemma build_producer s meta s' :
  build_connector_meta cfg s = (Ok meta, s') -> NoDup (dkeys (need_send_reqs s)) ->
  s' = set_unprocessed [] (set_send [] s) /\ Forall2 (sent_as s) (need_send_reqs s) (reqs_to_send meta) /\
  reqs_not_processed meta = not_processed s.
Proof using producer_role not_consumer.
  unfold build_connector_meta. intros H Hnd. apply M_bind_inv in H as (s0 & s1 & E & H). injection E as <- <-.
  rewrite producer_role, not_consumer in H. cbn [negb] in H.
  apply M_bind_inv in H as (m0 & s1 & E & H). injection E as <- <-. minv H.
  destruct (add_reqs_send _ _ _ _ _ E) as (-> & _ & l & Hl & Hf); [done|].
  injection E0 as _ <-. injection E1 as _ <-. injection H as <- <-. simpl in *. subst. done.
Qed.

Lemma add_reqs_total entries meta s :
  Forall (fun e => exists q t, requests s !! e.2.1 = Some q /\ transfer_of q = Some t) entries ->
  exists meta', add_reqs false entries meta s = (Ok meta', s).
Proof using Type.
  revert meta. induction entries as [|[id [r blocks]] entries IH]; intros meta H; simpl; [by eexists|].
  apply Forall_cons in H as [(q & t & Hq & Ht) H]. simpl in Hq.
  destruct (transfer_of_some q t Ht) as (ps & v & Hps & _ & _ & _ & Hv & _).
  destruct (IH (ConnectorMeta (reqs_to_recv meta) (dset (reqs_to_send meta) id (v, blocks)) (reqs_not_processed meta)) H)
    as [meta' E]. exists meta'. rewrite (M_bind_ok _ _ _ _ _ (the_request_at r s q Hq)), Hps.
  rewrite <- E. erewrite M_bind_ok; [reflexivity|]. unfold lift, add_new_req, param_at. by rewrite Hv.
Qed.

Lemma build_total s :
  Forall (fun e => exists q t, requests s !! e.2.1 = Some q /\ transfer_of q = Some t) (need_send_reqs s) ->
  exists meta s', build_connector_meta cfg s = (Ok meta, s').
Proof using producer_role not_consumer.
  intros H. destruct (add_reqs_total (need_send_reqs s) (ConnectorMeta [] [] []) s H) as [meta E].
  eexists _, _. unfold build_connector_meta. erewrite M_bind_ok by reflexivity. rewrite producer_role, not_consumer.
  cbn [negb]. erewrite M_bind_ok by reflexivity. rewrite (M_bind_ok _ _ _ _ _ E). reflexivity.
Qed.
End calls.

(** ** The events of a metadata *)

Definition meta_events (t : string) (meta : MooncakeConnectorMetadata) : list event :=
  sends_of t (send_list meta) ++ forgets_of t (map text (reqs_not_processed meta)).

Definition queue_events (t : string) (q : list MooncakeConnectorMetadata) : list event := concat (map (meta_events t) q).

Lemma queue_events_load t meta q : queue_events t (file_metadata meta q) = queue_events t q ++ meta_events t meta.
Proof.
  unfold file_metadata, queue_events. case_if; [|by rewrite map_app, concat_app; simpl; rewrite app_nil_r].
  destruct (reqs_to_send meta) eqn:Hs, (reqs_not_processed meta) eqn:Hn; try done.
  unfold meta_events, send_list. rewrite Hs, Hn. by rewrite app_nil_r.
Qed.

(** The requests of a scheduler, as the router sends them *)
Record routed (l : list Request) : Prop := {
  routed_ids : NoDup (map request_id l);
  routed_transfers r r' q q' t : l !! r = Some q -> l !! r' = Some q' -> transfer_of q = Some t ->
    transfer_of q' = Some t -> r = r';
  routed_typed q v : q ∈ l -> param_of q "transfer_id" = Some v -> param_truth v = true -> exists t, v = PStr t;
  routed_named q : q ∈ l -> request_id q <> ""
}.

(** The entries to send, and the transfers to forget, are of requests with a
    transfer. *)
Record waiting (s : scheduler) : Prop := {
  waiting_keys : NoDup (dkeys (need_send_reqs s));
  waiting_entry id r blocks : dget (need_send_reqs s) id = Some (r, blocks) ->
    exists q t, requests s !! r = Some q /\ request_id q = id /\ transfer_of q = Some t;
  waiting_once : NoDup (not_processed s);
  waiting_forget v : v ∈ not_processed s -> exists q t, q ∈ requests s /\ transfer_of q = Some t /\ v = PStr t
}.

Lemma same_request l r r' q q' :
  routed l -> l !! r = Some q -> l !! r' = Some q' -> request_id q = request_id q' -> r = r'.
Proof.
  intros H Hq Hq' E. eapply (NoDup_lookup _ _ _ (request_id q)); [apply (routed_ids _ H)| |].
  - by rewrite list_lookup_fmap, Hq.
  - rewrite list_lookup_fmap, Hq'. simpl. by rewrite E.
Qed.

Lemma typed_transfer l q t v :
  routed l -> q ∈ l -> transfer_of q = Some t -> param_of q "transfer_id" = Some v -> v = PStr t.
Proof.
  intros H Hq Ht Hv. destruct (transfer_of_some q t Ht) as (ps & v' & Hps & _ & _ & _ & Hv' & Htrue & Htext).
  assert (v' = v) as -> by (unfold param_of in Hv; rewrite Hps in Hv; congruence).
  destruct (routed_typed _ H q v Hq Hv Htrue) as [t' ->]. simpl in Htext. by subst.
Qed.

(** One entry gives one event, of its own transfer. *)
Lemma sends_of_entries s entries send r q t :
  routed (requests s) -> requests s !! r = Some q -> transfer_of q = Some t -> NoDup (dkeys entries) ->
  (forall id r' blocks, (id, (r', blocks)) ∈ entries ->
    exists q' t', requests s !! r' = Some q' /\ request_id q' = id /\ transfer_of q' = Some t') ->
  Forall2 (sent_as s) entries send ->
  sends_of t (map (fun e => (e.1, (text e.2.1, e.2.2))) send) =
    match dget entries (request_id q) with Some (_, blocks) => [send_event (request_id q) blocks] | None => [] end.
Proof.
  intros Hr Hq Ht Hnd Hent Hf.
  induction Hf as [|[id [r' blocks]] [id' [v blocks']] entries send (Hid & Hbl & q2 & Hq2 & Hv) _ IH]; [done|].
  simpl in *. subst id' blocks'. apply NoDup_cons in Hnd as [Hni Hnd].
  specialize (IH Hnd (fun id1 r1 b1 H1 => Hent id1 r1 b1 (proj2 (elem_of_cons _ _ _) (or_intror H1)))).
  destruct (Hent id r' blocks) as (q3 & t' & Hq3 & <- & Ht'); [by left|]. simplify_eq.
  assert (v = PStr t') as -> by (eapply typed_transfer; [done|by eapply list_elem_of_lookup_2|done..]).
  rewrite sends_of_cons. simpl. destruct (decide (t = t')) as [<-|Hne].
  - assert (r' = r) as -> by (by eapply (routed_transfers _ Hr)). simplify_eq. rewrite decide_True by done.
    rewrite IH. by rewrite (proj2 (dget_None _ _) Hni).
  - rewrite decide_False; [done|]. intros E. assert (r' = r) as -> by (by eapply same_request). by simplify_eq.
Qed.

(** No event for a transfer without a request *)
Lemma sends_of_others s entries send t :
  routed (requests s) -> (forall q, q ∈ requests s -> transfer_of q <> Some t) ->
  (forall id r' blocks, (id, (r', blocks)) ∈ entries ->
    exists q' t', requests s !! r' = Some q' /\ request_id q' = id /\ transfer_of q' = Some t') ->
  Forall2 (sent_as s) entries send -> sends_of t (map (fun e => (e.1, (text e.2.1, e.2.2))) send) = [].
Proof.
  intros Hr Hno Hent Hf.
  induction Hf as [|[id [r' blocks]] [id' [v blocks']] entries send (Hid & Hbl & q2 & Hq2 & Hv) _ IH]; [done|].
  simpl in *. specialize (IH (fun id1 r1 b1 H1 => Hent id1 r1 b1 (proj2 (elem_of_cons _ _ _) (or_intror H1)))).
  destruct (Hent id r' blocks) as (q3 & t' & Hq3 & _ & Ht'); [by left|]. simplify_eq.
  apply list_elem_of_lookup_2 in Hq2.
  assert (v = PStr t') as -> by (by eapply typed_transfer).
  rewrite sends_of_cons. simpl. rewrite decide_False; [done|]. intros ->. by eapply Hno.
Qed.

Lemma forgets_of_params t l :
  NoDup l -> (forall v, v ∈ l -> exists t', v = PStr t') ->
  forgets_of t (map text l) = if decide (PStr t ∈ l) then [Forgets] else [].
Proof.
  induction l as [|v l IH]; intros Hnd Ht; [done|]. apply NoDup_cons in Hnd as [Hni Hnd].
  destruct (Ht v) as [t' ->]; [by left|]. simpl. rewrite forgets_of_cons, IH; [|done|intros v Hv; apply Ht; by right].
  destruct (decide (t = t')) as [<-|Hne].
  - rewrite decide_False by done. by rewrite decide_True by (by left).
  - destruct (decide (PStr t ∈ l)) as [Hin|Hnin]; [by rewrite decide_True by (by right)|].
    rewrite decide_False; [done|]. intros [[=]|?]%elem_of_cons; done.
Qed.

(** ** The stages of a request *)

Section runs.
Context (cfg : scheduler_config).
Context (own : MooncakeXferMetadata) (layer_group_indices : dict string Z) (topo : topology).
Context (mamba : list bool) (NULL_BLOCK_ID physical_blocks : Z) (map_to_kernel_blocks : list Z -> Z -> list Z).
Context (pcp_dummy_sender : bool) (ABORT_REQUEST_TIMEOUT : Z).
Hypothesis producer_role : is_kv_producer cfg = true.
Hypothesis not_consumer : is_kv_consumer cfg = false.

(** What the scheduler holds of a request, and its ledger after the metadata
    that are on their way *)
Definition stage_ok (s : scheduler) (r : nat) (q : Request) (t : string) (st : stage) (l : ledger) : Prop :=
  let entry := dget (need_send_reqs s) (request_id q) in
  let idle := entry = None \/ entry = Some (r, []) in
  let forgets := PStr t ∈ not_processed s in
  match st with
  | Arrived => l = Unopened /\ entry = None /\ ~ forgets
  | Placed => l = Unopened /\ entry = Some (r, []) /\ ~ forgets
  | Running => l = Open /\ idle /\ ~ forgets
  | Delivering blocks => ~ forgets /\ exists cl, get_sw_clipped_blocks cfg blocks = Ok cl /\ cl <> [] /\
      (l = Open /\ entry = Some (r, cl) \/ l = Filled (request_id q) cl /\ entry = None)
  | Left => forgets /\ (l = Unopened \/ l = Open) /\ idle \/ ~ forgets /\ l = Forgotten /\ entry = None \/
      ~ forgets /\ l = Open /\ idle
  end.

Record coherent (L : string -> ledger) (s : scheduler) (sts : list stage) (events : string -> list event) : Prop := {
  co_routed : routed (requests s);
  co_waiting : waiting s;
  co_stages : length sts = length (requests s);
  co_events t : is_Some (run_events (L t) (events t));
  co_others t l : run_events (L t) (events t) = Some l ->
    (forall q, q ∈ requests s -> transfer_of q <> Some t) -> l = Unopened;
  co_stage t l r q st : run_events (L t) (events t) = Some l -> requests s !! r = Some q -> sts !! r = Some st ->
    transfer_of q = Some t -> stage_ok s r q t st l
}.

Definition producer_inv (L : string -> ledger) (p : producer) : Prop :=
  keeps L (reported p) (worker p) /\
  coherent L (sched p) (stages p) (fun t => queue_events t (queue p)).

(** *** Changes of the scheduler *)

(** The requests change in what does not concern transfers. *)
Lemma routed_same l l' : routed l -> Forall2 same_transfer l l' -> routed l'.
Proof.
  intros [] Hf. constructor.
  - replace (map request_id l') with (map request_id l); [done|].
    clear -Hf. induction Hf as [|q q' l l' [H _] _ IH]; simpl; [done|]. by rewrite H, IH.
  - intros r r' q q' t Hq Hq' Ht Ht'.
    destruct (Forall2_lookup_r _ _ _ _ _ Hf Hq) as (q0 & H0 & _ & E0 & _).
    destruct (Forall2_lookup_r _ _ _ _ _ Hf Hq') as (q1 & H1 & _ & E1 & _).
    eapply (routed_transfers0 _ _ _ _ t); [exact H0|exact H1|congruence..].
  - intros q v Hin Hv. apply list_elem_of_lookup in Hin as [i Hi].
    destruct (Forall2_lookup_r _ _ _ _ _ Hf Hi) as (q0 & H0 & _ & _ & E). apply list_elem_of_lookup_2 in H0.
    apply (routed_typed0 q0); [done|congruence].
  - intros q Hin. apply list_elem_of_lookup in Hin as [i Hi].
    destruct (Forall2_lookup_r _ _ _ _ _ Hf Hi) as (q0 & H0 & E & _). rewrite E. apply routed_named0.
    by eapply list_elem_of_lookup_2.
Qed.

Lemma same_transfer_insert l r q q' : l !! r = Some q -> same_transfer q q' -> Forall2 same_transfer l (<[r := q']> l).
Proof.
  intros Hq H. apply Forall2_same_length_lookup_2; [by rewrite length_insert|].
  intros i x y Hx Hy. apply list_lookup_insert_Some in Hy as [(-> & -> & _)|[_ Hy]]; simplify_eq; [done|by split_and!].
Qed.

Lemma coherent_requests L s sts events l' :
  coherent L s sts events -> Forall2 same_transfer (requests s) l' -> coherent L (set_requests l' s) sts events.
Proof.
  intros [] Hf.
  assert (forall r q', l' !! r = Some q' -> exists q, requests s !! r = Some q /\ same_transfer q q') as Hback.
  { intros r q' Hq'. by apply (Forall2_lookup_r _ _ _ _ _ Hf Hq'). }
  assert (forall r q, requests s !! r = Some q -> exists q', l' !! r = Some q' /\ same_transfer q q') as Hforth.
  { intros r q Hq. by apply (Forall2_lookup_l _ _ _ _ _ Hf Hq). }
  constructor; simpl; try done.
  - by eapply routed_same.
  - destruct co_waiting0. constructor; simpl; try done.
    + intros id r blocks H. destruct (waiting_entry0 _ _ _ H) as (q & t & Hq & Hid & Ht).
      destruct (Hforth _ _ Hq) as (q' & Hq' & E1 & E2 & _). exists q', t. split_and!; congruence.
    + intros v Hv. destruct (waiting_forget0 v Hv) as (q & t & Hq & Ht & ->). apply list_elem_of_lookup in Hq as [i Hi].
      destruct (Hforth _ _ Hi) as (q' & Hq' & _ & E2 & _). exists q', t. split_and!; [by eapply list_elem_of_lookup_2|congruence|done].
  - rewrite co_stages0. by apply Forall2_length in Hf.
  - intros t l H Hno. apply (co_others0 t l H). intros q Hq Ht. apply list_elem_of_lookup in Hq as [i Hi].
    destruct (Hforth _ _ Hi) as (q' & Hq' & _ & E2 & _). apply (Hno q'); [by eapply list_elem_of_lookup_2|congruence].
  - intros t l r q' st H Hq' Hst Ht. destruct (Hback _ _ Hq') as (q & Hq & E1 & E2 & _).
    pose proof (co_stage0 t l r q st H Hq Hst ltac:(congruence)) as Hok.
    unfold stage_ok in *. simpl. by rewrite E1.
Qed.

(** A new request *)
Lemma coherent_arrival L s sts events q :
  coherent L s sts events -> request_id q <> "" -> request_id q ∉ map request_id (requests s) ->
  (forall t q', transfer_of q = Some t -> q' ∈ requests s -> transfer_of q' <> Some t) ->
  (forall ps v, kv_transfer_params q = Some ps -> dget ps "transfer_id" = Some v -> param_truth v = true ->
    exists t, v = PStr t) ->
  coherent L (set_requests (requests s ++ [q]) s) (sts ++ [Arrived]) events.
Proof.
  intros [] Hname Hid Hnew Htyped.
  assert (forall r q' st, (requests s ++ [q]) !! r = Some q' -> (sts ++ [Arrived]) !! r = Some st ->
    requests s !! r = Some q' /\ sts !! r = Some st \/ q' = q /\ st = Arrived /\ r = length (requests s)) as Hcases.
  { intros r q' st Hq Hst. destruct (decide (r < length (requests s))%nat).
    - rewrite lookup_app_l in Hq by lia. rewrite lookup_app_l in Hst by lia. by left.
    - rewrite lookup_app_r in Hq by lia. rewrite lookup_app_r in Hst by lia. apply list_lookup_singleton_Some in Hq as [? <-].
      apply list_lookup_singleton_Some in Hst as [? <-]. right. split_and!; [done..|lia]. }
  constructor; simpl.
  - destruct co_routed0. constructor.
    + rewrite map_app. apply NoDup_app. split_and!; [done| |apply NoDup_singleton].
      intros x Hx ->%list_elem_of_singleton. done.
    + assert (forall r q' t, (requests s ++ [q]) !! r = Some q' -> transfer_of q' = Some t ->
        requests s !! r = Some q' \/ q' = q /\ r = length (requests s)) as Hc.
      { intros r q' t [H|[Hlen H]]%lookup_app_Some _; [by left|].
        apply list_lookup_singleton_Some in H as [? <-]. right. split; [done|lia]. }
      intros r r' q1 q2 t H1 H2 T1 T2.
      destruct (Hc _ _ _ H1 T1) as [H1'|[-> ->]], (Hc _ _ _ H2 T2) as [H2'|[-> ->]]; [by eauto| | |done].
      * apply list_elem_of_lookup_2 in H1'. by destruct (Hnew t q1).
      * apply list_elem_of_lookup_2 in H2'. by destruct (Hnew t q2).
    + intros q' v [Hin| ->%list_elem_of_singleton]%elem_of_app; [by apply routed_typed0|].
      unfold param_of. destruct (kv_transfer_params q) as [ps|] eqn:Hps; [|done]. by apply Htyped.
    + intros q' [Hin| ->%list_elem_of_singleton]%elem_of_app; [by apply routed_named0|done].
  - destruct co_waiting0. constructor; simpl; try done.
    + intros id r blocks H. destruct (waiting_entry0 _ _ _ H) as (q' & t & Hq & ?). exists q', t.
      split; [by apply lookup_app_l_Some|done].
    + intros v Hv. destruct (waiting_forget0 v Hv) as (q' & t & Hq & ?). exists q', t.
      split; [apply elem_of_app; by left|done].
  - rewrite !length_app. simpl. lia.
  - done.
  - intros t l H Hno. apply (co_others0 t l H). intros q' Hq. apply Hno, elem_of_app. by left.
  - intros t l r q' st H Hq Hst Ht. destruct (Hcases _ _ _ Hq Hst) as [[Hq' Hst']|(-> & -> & ->)]; [by eapply co_stage0|].
    simpl. split_and!.
    + apply (co_others0 t l H). intros q' Hq'. by apply Hnew.
    + apply dget_None. intros Hk. apply key_dget_Some in Hk as [[r blocks] He].
      destruct (waiting_entry _ co_waiting0 _ _ _ He) as (q' & _ & Hq' & Heq & _). apply Hid. rewrite <- Heq.
      apply list_elem_of_fmap. exists q'. split; [done|by eapply list_elem_of_lookup_2].
    + intros Hf. destruct (waiting_forget _ co_waiting0 _ Hf) as (q' & t' & Hq' & Ht' & [= <-]). by eapply Hnew.
Qed.

(** A change of one request *)
Lemma coherent_change L s s' sts events r q t st st' :
  coherent L s sts events -> requests s !! r = Some q -> transfer_of q = Some t -> sts !! r = Some st ->
  requests s' = requests s -> waiting s' ->
  (forall id, id <> request_id q -> dget (need_send_reqs s') id = dget (need_send_reqs s) id) ->
  (forall t', t' <> t -> PStr t' ∈ not_processed s' <-> PStr t' ∈ not_processed s) ->
  (forall l, stage_ok s r q t st l -> stage_ok s' r q t st' l) ->
  coherent L s' (<[r := st']> sts) events.
Proof using Type.
  intros [] Hq Ht Hst Hr Hw Hd Hf Hok. constructor; rewrite ?Hr; try done.
  - by rewrite length_insert.
  - intros t' l r' q' st2 H Hq' Hst2 Ht'. apply list_lookup_insert_Some in Hst2 as [(-> & <- & _)|[Hne Hst2]].
    + simplify_eq. apply Hok. by eapply co_stage0.
    + pose proof (co_stage0 _ _ _ _ _ H Hq' Hst2 Ht') as Hold. unfold stage_ok in *.
      rewrite Hd by (intros E; apply Hne; symmetry; by eapply same_request).
      assert (PStr t' ∈ not_processed s' <-> PStr t' ∈ not_processed s) as Hiff.
      { apply Hf. intros ->. apply Hne. symmetry. by eapply (routed_transfers _ co_routed0). }
      destruct st2; tauto.
Qed.

Lemma coherent_no_transfer L s sts events r q st' :
  coherent L s sts events -> requests s !! r = Some q -> transfer_of q = None -> coherent L s (<[r := st']> sts) events.
Proof using Type.
  intros [] Hq Ht. constructor; try done; [by rewrite length_insert|].
  intros t l r' q' st H Hq' Hst Ht'. apply list_lookup_insert_Some in Hst as [(-> & <- & _)|[Hne Hst]]; [congruence|].
  by eapply co_stage0.
Qed.

Lemma waiting_dset s r q t blocks :
  waiting s -> requests s !! r = Some q -> transfer_of q = Some t ->
  waiting (set_send (dset (need_send_reqs s) (request_id q) (r, blocks)) s).
Proof using Type.
  intros [] Hq Ht. constructor; simpl; try done; [by apply NoDup_dset|].
  intros id r' bl. rewrite dget_dset. case_decide; [intros [= <- <-]; subst; by exists q, t|apply waiting_entry0].
Qed.

Lemma waiting_forgets s r q t :
  waiting s -> requests s !! r = Some q -> transfer_of q = Some t ->
  waiting (set_unprocessed (set_add (not_processed s) (PStr t)) s).
Proof using Type.
  intros [] Hq Ht. unfold set_add. constructor; simpl; try done.
  - case_bool_decide; [done|]. apply NoDup_app. split_and!; [done| |apply NoDup_singleton].
    intros v Hv ->%list_elem_of_singleton. done.
  - intros v. case_bool_decide; [apply waiting_forget0|].
    intros [Hv| ->%list_elem_of_singleton]%elem_of_app; [by apply waiting_forget0|]. exists q, t.
    split; [by eapply list_elem_of_lookup_2|done].
Qed.

Lemma elem_set_add l p p' : p' ∈ set_add l p <-> p' = p \/ p' ∈ l.
Proof using Type. unfold set_add. case_bool_decide; rewrite ?elem_of_app, ?list_elem_of_singleton; intuition congruence. Qed.

Lemma alloc_coherent L s sts events r st unhashed n s' :
  coherent L s sts events -> sts !! r = Some st -> ended st = false ->
  update_state_after_alloc cfg r unhashed n s = (Ok tt, s') -> coherent L s' (<[r := placed_stage st]> sts) events.
Proof using producer_role not_consumer.
  intros Hco Hst He H. destruct (lookup_lt_is_Some_2 (requests s) r) as [q Hq].
  { rewrite <- (co_stages _ _ _ _ Hco). by eapply lookup_lt_Some. }
  pose proof (alloc_producer cfg producer_role not_consumer _ _ _ _ _ _ _ Hq H) as ->.
  destruct (transfer_of q) as [t|] eqn:Ht; [|by eapply coherent_no_transfer].
  eapply coherent_change; [exact Hco|exact Hq|exact Ht|exact Hst|done| |..].
  - by eapply waiting_dset; [apply Hco|..].
  - intros id Hid. simpl. by rewrite dget_dset_ne.
  - done.
  - intros l Hok. unfold stage_ok in *. simpl. rewrite dget_dset_eq. destruct st; simpl in *; try done.
    + by destruct Hok as (? & _ & ?).
    + by destruct Hok as (? & _ & ?).
    + destruct Hok as (? & _ & ?). split_and!; [done|by right|done].
Qed.

Lemma finish_coherent L s sts events r st blocks d s' q :
  coherent L s sts events -> sts !! r = Some st -> ended st = false -> requests s !! r = Some q ->
  (r_status q = FINISHED_LENGTH_CAPPED -> st = Running) ->
  request_finished cfg r blocks s = (Ok d, s') ->
  coherent L s' (<[r := if d then Delivering blocks else Left]> sts) events.
Proof using producer_role not_consumer.
  intros Hco Hst He Hq Hcap H.
  pose proof (finish_producer cfg producer_role not_consumer _ _ _ _ _ _ Hq H) as Hfin.
  destruct (transfer_of q) as [t|] eqn:Ht; [|destruct Hfin as [-> ->]; by eapply coherent_no_transfer].
  destruct Hfin as [(v & Hv & Htrue & Htext & -> & _ & ->)|[Hst' [[-> ->]|(-> & cl & Hcl & Hne & ->)]]].
  - assert (v = PStr t) as -> by (eapply typed_transfer; [apply Hco|by eapply list_elem_of_lookup_2|done..]).
    eapply coherent_change; [exact Hco|exact Hq|exact Ht|exact Hst|done| |..].
    + by eapply waiting_forgets; [apply Hco|..].
    + done.
    + intros t' Hne. simpl. rewrite elem_set_add. naive_solver.
    + intros l Hok. unfold stage_ok in *. simpl. left. split; [apply elem_set_add; by left|].
      destruct st; try done; naive_solver.
  - rewrite (Hcap Hst') in *. eapply coherent_change; [exact Hco|exact Hq|exact Ht|exact Hst|done|apply Hco|done|done|].
    intros l (? & ? & ?). right. right. done.
  - rewrite (Hcap Hst') in *. eapply coherent_change; [exact Hco|exact Hq|exact Ht|exact Hst|done| |..].
    + by eapply waiting_dset; [apply Hco|..].
    + intros id Hid. simpl. by rewrite dget_dset_ne.
    + done.
    + intros l (-> & _ & Hf). split; [done|]. exists cl. simpl. rewrite dget_dset_eq. auto.
Qed.

(** The ledger of a request after the metadata that is built now *)
Lemma built_stage s r q t st l :
  stage_ok s r q t st l ->
  exists l', run_events l
      (match dget (need_send_reqs s) (request_id q) with Some (_, bl) => [send_event (request_id q) bl] | None => [] end ++
       (if decide (PStr t ∈ not_processed s) then [Forgets] else [])) = Some l' /\
    stage_ok (set_unprocessed [] (set_send [] s)) r q t (built st) l'.
Proof using Type.
  intros Hok. pose proof (not_elem_of_nil (PStr t)) as Hnil. unfold stage_ok in *. simpl.
  assert (forall cl, cl <> [] -> send_event (request_id q) cl = Fills (request_id q) cl) as Hfill by (by intros []).
  destruct st as [| | |blocks|]; simpl in *.
  - destruct Hok as (-> & -> & Hnf). rewrite decide_False by done. by eexists.
  - destruct Hok as (-> & -> & Hnf). rewrite decide_False by done. eexists. split; [reflexivity|]. auto.
  - destruct Hok as (-> & [-> | ->] & Hnf); rewrite decide_False by done; (eexists; split; [reflexivity|]; auto).
  - destruct Hok as (Hnf & cl & Hcl & Hne & [[-> ->]|[-> ->]]); rewrite decide_False by done.
    + rewrite Hfill by done. eexists. split; [reflexivity|]. split; [done|]. exists cl. auto.
    + eexists. split; [reflexivity|]. split; [done|]. exists cl. auto.
  - destruct Hok as [(Hf' & Hl' & Hi)|[(Hnf & -> & ->)|(Hnf & -> & Hi)]].
    + rewrite decide_True by done. destruct Hl' as [-> | ->], Hi as [-> | ->];
        (eexists; split; [reflexivity|]; right; left; auto).
    + rewrite decide_False by done. eexists. split; [reflexivity|]. right; left; auto.
    + rewrite decide_False by done. destruct Hi as [-> | ->]; (eexists; split; [reflexivity|]; right; right; auto).
Qed.

(** The metadata of a step *)
Lemma build_coherent L s sts events meta s' :
  coherent L s sts events -> build_connector_meta cfg s = (Ok meta, s') ->
  coherent L s' (map built sts) (fun t => events t ++ meta_events t meta).
Proof using producer_role not_consumer.
  intros [] H. destruct co_waiting0.
  destruct (build_producer cfg producer_role not_consumer s meta s' H) as (-> & Hf & Hn); [done|].
  assert (forall id r' blocks, (id, (r', blocks)) ∈ need_send_reqs s ->
    exists q' t', requests s !! r' = Some q' /\ request_id q' = id /\ transfer_of q' = Some t') as Hent.
  { intros id r' blocks Hin. apply (waiting_entry0 id r' blocks). by apply elem_dget. }
  assert (forall t r q, requests s !! r = Some q -> transfer_of q = Some t -> meta_events t meta =
    match dget (need_send_reqs s) (request_id q) with Some (_, bl) => [send_event (request_id q) bl] | None => [] end ++
    (if decide (PStr t ∈ not_processed s) then [Forgets] else [])) as Hev.
  { intros t r q Hq Ht. unfold meta_events, send_list. rewrite Hn, (sends_of_entries s _ _ r q t) by done. f_equal.
    apply forgets_of_params; [done|]. intros v Hv. destruct (waiting_forget0 v Hv) as (_ & t' & _ & _ & ->). by eexists. }
  assert (forall t, (forall q, q ∈ requests s -> transfer_of q <> Some t) -> meta_events t meta = []) as Hnone.
  { intros t Hno. unfold meta_events, send_list. rewrite Hn, (sends_of_others s _ _ t co_routed0 Hno Hent Hf).
    rewrite forgets_of_params; [|done|intros v Hv; destruct (waiting_forget0 v Hv) as (_ & t' & _ & _ & ->); by eexists].
    rewrite decide_False; [done|]. intros Hin. destruct (waiting_forget0 _ Hin) as (q & t' & Hq & Ht & [= <-]). by eapply Hno. }
  assert (forall t l r q st, run_events (L t) (events t) = Some l -> requests s !! r = Some q -> sts !! r = Some st ->
    transfer_of q = Some t -> exists l', run_events l (meta_events t meta) = Some l' /\
      stage_ok (set_unprocessed [] (set_send [] s)) r q t (built st) l') as Hstep.
  { intros t l r q st Hl Hq Hst Ht. rewrite (Hev t r q Hq Ht). apply built_stage. by eapply co_stage0. }
  constructor; simpl.
  - done.
  - constructor; simpl; try done; try by constructor. intros v ?%not_elem_of_nil. done.
  - by rewrite length_map.
  - intros t. rewrite run_events_app. destruct (co_events0 t) as [l Hl]. rewrite Hl. simpl.
    destruct (decide (Exists (fun q => transfer_of q = Some t) (requests s))) as [Hex|Hno].
    + apply Exists_exists in Hex as (q & Hin & Ht). apply list_elem_of_lookup in Hin as [r Hr].
      destruct (lookup_lt_is_Some_2 sts r) as [st Hst]; [rewrite co_stages0; by eapply lookup_lt_Some|].
      destruct (Hstep t l r q st Hl Hr Hst Ht) as (l' & -> & _). by eexists.
    + rewrite Hnone; [by eexists|]. intros q Hq Ht. apply Hno, Exists_exists. eauto.
  - intros t l Hl Hno. rewrite Hnone, app_nil_r in Hl by done. by eapply co_others0.
  - intros t l' r q st' Hl' Hq Hst Ht. rewrite run_events_app in Hl'. destruct (co_events0 t) as [l Hl].
    rewrite Hl in Hl'. simpl in Hl'. apply list_lookup_fmap_Some in Hst as (st & -> & Hst).
    destruct (Hstep t l r q st Hl Hq Hst Ht) as (l2 & Hl2 & Hok). by simplify_eq.
Qed.

(** *** Runs *)

Abbreviation producer_steps := (producer_step cfg own layer_group_indices topo mamba NULL_BLOCK_ID physical_blocks
  map_to_kernel_blocks pcp_dummy_sender ABORT_REQUEST_TIMEOUT).
Abbreviation reachable_producer := (produces cfg own layer_group_indices topo mamba NULL_BLOCK_ID physical_blocks
  map_to_kernel_blocks pcp_dummy_sender ABORT_REQUEST_TIMEOUT).
Abbreviation record := (record_send_reqs pcp_dummy_sender ABORT_REQUEST_TIMEOUT).

Lemma coherent_ext L L' s sts events events' :
  (forall t, run_events (L' t) (events' t) = run_events (L t) (events t)) ->
  coherent L s sts events -> coherent L' s sts events'.
Proof using Type.
  intros E []. constructor; try done.
  - intros t. rewrite E. apply co_events0.
  - intros t l. rewrite E. apply co_others0.
  - intros t l r q st. rewrite E. apply co_stage0.
Qed.

Lemma forgets_of_perm t l l' : l ≡ₚ l' -> forgets_of t l = forgets_of t l'.
Proof using Type. intros H. unfold forgets_of. by rewrite H. Qed.

(** The worker records the oldest metadata. *)
Lemma records_ok L p meta rest forget now :
  producer_inv L p -> queue p = meta :: rest -> forget ≡ₚ map text (reqs_not_processed meta) ->
  exists w', record now (send_list meta) forget (worker p) = (Ok tt, w') /\
    exists L', producer_inv L' (Producer (sched p) (stages p) rest w' (reported p)).
Proof using Type.
  intros [Hk Hco] Hqueue Hperm.
  assert (forall t, sends_of t (send_list meta) ++ forgets_of t forget = meta_events t meta) as Hev.
  { intros t. unfold meta_events. by rewrite (forgets_of_perm t _ _ Hperm). }
  assert (forall t, is_Some (run_events (L t) (meta_events t meta))) as Hsome.
  { intros t. destruct (co_events _ _ _ _ Hco t) as [l Hl]. rewrite Hqueue in Hl. unfold queue_events in Hl. simpl in Hl.
    rewrite run_events_app in Hl. destruct (run_events (L t) (meta_events t meta)); [by eexists|done]. }
  destruct (records_keep (reported p) pcp_dummy_sender ABORT_REQUEST_TIMEOUT L now (send_list meta) forget (worker p))
    as (w' & E & Hk'); [done|by intros t; rewrite Hev|].
  exists w'. split; [done|]. eexists. split; [exact Hk'|]. simpl. eapply coherent_ext; [|exact Hco].
  intros t. simpl. rewrite Hqueue. unfold queue_events. simpl. rewrite run_events_app.
  unfold played. rewrite Hev. destruct (Hsome t) as [l ->]. done.
Qed.

Lemma producer_step_inv L p p' : producer_inv L p -> producer_steps p p' -> exists L', producer_inv L' p'.
Proof using producer_role not_consumer.
  intros [Hk Hco] Hstep. destruct Hstep as [q Hne Hid Hnew Htyped|r st n a s' Hst He H|r st unhashed n s' Hst He H
    |meta s' H|r st status blocks d s' Hst He Hcap H|meta rest forget now u w' Hq Hperm H|now ids w' H|a w' Hnr Hnf H].
  - exists L. split; [done|]. by apply coherent_arrival.
  - exists L. split; [done|]. apply matched_cases in H as (q & q' & Hq & Ht & ->). simpl.
    apply coherent_requests; [done|]. apply (same_transfer_insert _ _ q); [done|].
    destruct Ht as [->|Ht]; [by split_and!|by apply truncate_same_transfer].
  - exists L. split; [done|]. by eapply alloc_coherent.
  - exists L. split; [done|]. eapply coherent_ext; [|by eapply build_coherent]. intros t. simpl.
    by rewrite queue_events_load.
  - exists L. split; [done|]. destruct (lookup_lt_is_Some_2 (requests (sched p)) r) as [q Hq].
    { rewrite <- (co_stages _ _ _ _ Hco). by eapply lookup_lt_Some. }
    eapply (finish_coherent _ _ _ _ _ _ _ _ _ (set_status status q)); [|exact Hst|done| |exact Hcap|exact H].
    + apply coherent_requests; [done|]. apply Forall2_same_length_lookup_2; [by rewrite length_alter|].
      intros i x y Hx Hy. destruct (decide (i = r)) as [->|Hir].
      * rewrite list_lookup_alter_eq, Hx in Hy. by simplify_eq/=.
      * rewrite list_lookup_alter_ne, Hx in Hy by done. by simplify_eq.
    + simpl. by rewrite list_lookup_alter_eq, Hq.
  - destruct (records_ok L p meta rest forget now (conj Hk Hco) Hq Hperm) as (w2 & E & L' & Hinv).
    exists L'. rewrite E in H. by simplify_eq.
  - exists L. destruct (fetch_keeps L (reported p) now (worker p) Hk) as (ids' & w2 & E & Hk' & _).
    rewrite E in H. simplify_eq. by split.
  - exists L. split; [|done]. simpl. by eapply works_keeps.
Qed.

Lemma producer_reachable_inv p : reachable_producer p -> exists L, producer_inv L p.
Proof using producer_role not_consumer.
  induction 1 as [|p p' _ [L IH] Hstep]; [|by eapply producer_step_inv].
  exists (fun _ => Unopened). split.
  - constructor; simpl; try done; try (by intros * []). constructor.
  - constructor; simpl; try done; try by constructor.
    + constructor; simpl; [constructor|done| |]; by intros q * ?%not_elem_of_nil.
    + constructor; simpl; try done; try constructor. by intros v ?%not_elem_of_nil.
    + intros t l [= <-]. done.
Qed.

(** *** What the invariant says of a request *)

Lemma run_filled l es req blocks :
  run_events l es = Some (Filled req blocks) -> l = Filled req blocks \/ Fills req blocks ∈ es.
Proof using Type.
  revert l. induction es as [|e es IH]; intros l; simpl; [by intros [= ->]; left|].
  destruct (next l e) as [l'|] eqn:Hn; [|done]. simpl. intros [->|Hin]%IH; [|right; by right].
  right. destruct e, l; simplify_eq/=; by left.
Qed.

Lemma run_from_filled req blocks es l : run_events (Filled req blocks) es = Some l -> l = Filled req blocks.
Proof using Type. destruct es as [|e es]; simpl; [by intros [= <-]|by destruct e]. Qed.

Lemma fills_queued t req blocks q :
  Fills req blocks ∈ queue_events t q -> exists meta, meta ∈ q /\ (req, (t, blocks)) ∈ send_list meta.
Proof using Type.
  unfold queue_events. intros Hin. apply list_elem_of_In, in_concat in Hin as (es & Hes & Hin).
  apply in_map_iff in Hes as (meta & <- & Hm%list_elem_of_In). apply list_elem_of_In, elem_of_app in Hin.
  exists meta. split; [done|]. destruct Hin as [Hin|Hin].
  - unfold sends_of in Hin. apply list_elem_of_fmap in Hin as ([req' [t' bl]] & He & [Ht Hin]%list_elem_of_filter).
    simpl in *. subst t'. unfold send_event in He. destruct (is_empty bl); by simplify_eq.
  - unfold forgets_of in Hin. apply elem_of_replicate in Hin as [? _]. done.
Qed.

(** Where the blocks of a request that finished are *)
Definition delivering (p : producer) (r : nat) (q : Request) (t : string) (cl : list (list Z)) : Prop :=
  dget (need_send_reqs (sched p)) (request_id q) = Some (r, cl) \/
  (exists meta, meta ∈ queue p /\ (request_id q, (t, cl)) ∈ send_list meta) \/
  (exists o m, dget (reqs_need_send (worker p)) t = Some o /\ heap (worker p) !! o = Some m /\ ready m = true /\
    is_Some (expire_time m) /\ p_req_id m = request_id q /\ local_block_ids m = cl) \/
  request_id q ∈ finished_sending_reqs (worker p) ∪ reported p.

Lemma delivering_inv L p r q t blocks :
  producer_inv L p -> requests (sched p) !! r = Some q -> stages p !! r = Some (Delivering blocks) ->
  transfer_of q = Some t ->
  exists cl, get_sw_clipped_blocks cfg blocks = Ok cl /\ delivering p r q t cl.
Proof using Type.
  intros [Hk Hco] Hq Hst Ht. destruct (co_events _ _ _ _ Hco t) as [l Hl].
  destruct (co_stage _ _ _ _ Hco t l r q _ Hl Hq Hst Ht) as (_ & cl & Hcl & _ & [[_ He]|[-> _]]);
    exists cl; (split; [done|]); [by left|right].
  apply run_filled in Hl as [HL|Hin]; [right|left; by apply fills_queued].
  destruct (k_served _ _ _ Hk _ _ _ HL) as [?|(o & m & Ho & Hm & Hr & He)]; [by right|left].
  destruct (k_table _ _ _ Hk t o Ho) as (m' & Hm' & Htid). simplify_eq.
  pose proof (k_filled _ _ _ Hk o m Hm Hr) as HF. rewrite HL in HF. simplify_eq. by exists o, m.
Qed.

Lemma reported_inv L p req :
  producer_inv L p -> req ∈ finished_sending_reqs (worker p) ∪ reported p ->
  exists r q blocks, requests (sched p) !! r = Some q /\ request_id q = req /\ stages p !! r = Some (Delivering blocks).
Proof using Type.
  intros [Hk Hco] Hin. destruct (k_reported _ _ _ Hk req Hin) as (t & blocks & HL).
  destruct (co_events _ _ _ _ Hco t) as [l Hl]. pose proof Hl as Hl'. rewrite HL in Hl'. apply run_from_filled in Hl' as ->.
  destruct (decide (Exists (fun q => transfer_of q = Some t) (requests (sched p)))) as [Hex|Hno].
  - apply Exists_exists in Hex as (q & Hq & Ht). apply list_elem_of_lookup in Hq as [r Hr].
    destruct (lookup_lt_is_Some_2 (stages p) r) as [st Hst]; [rewrite (co_stages _ _ _ _ Hco); by eapply lookup_lt_Some|].
    pose proof (co_stage _ _ _ _ Hco t _ r q st Hl Hr Hst Ht) as Hok. unfold stage_ok in Hok.
    destruct st as [| | |bl|]; [naive_solver..| |naive_solver].
    exists r, q, bl. split_and!; [done| |done]. naive_solver.
  - exfalso. pose proof (co_others _ _ _ _ Hco t _ Hl) as Hu. discriminate Hu. intros q Hq Ht. apply Hno, Exists_exists. eauto.
Qed.

(** C16: a producer's scheduler and worker fit together, for any interleaving of
    the calls of vLLM, the delayed recording of their metadata, and what
    consumers and the transfer engine do.  The scheduler builds its metadata
    and the worker records each without an exception.  The blocks of a request
    that finished, clipped to the sliding windows, wait in the scheduler, in a
    metadata or in the worker until the request is reported; and only requests
    that finished with blocks to send are ever reported, so no blocks of a
    running request are freed. *)
Theorem producer_serves p :
  reachable_producer p ->
  (exists meta s', build_connector_meta cfg (sched p) = (Ok meta, s')) /\
  (forall meta rest forget now, queue p = meta :: rest -> forget ≡ₚ map text (reqs_not_processed meta) ->
    (record now (send_list meta) forget (worker p)).1 = Ok tt) /\
  (forall r q t blocks, requests (sched p) !! r = Some q -> stages p !! r = Some (Delivering blocks) ->
    transfer_of q = Some t -> exists cl, get_sw_clipped_blocks cfg blocks = Ok cl /\ delivering p r q t cl) /\
  (forall req, req ∈ finished_sending_reqs (worker p) ∪ reported p -> exists r q blocks,
    requests (sched p) !! r = Some q /\ request_id q = req /\ stages p !! r = Some (Delivering blocks)).
Proof using producer_role not_consumer.
  intros [L Hinv]%producer_reachable_inv. split_and!.
  - apply (build_total cfg producer_role not_consumer). destruct Hinv as [_ Hco]. rewrite Forall_forall.
    intros [id [r blocks]] Hin. destruct (co_waiting _ _ _ _ Hco).
    destruct (waiting_entry0 id r blocks) as (q & t & ? & _ & ?); [by apply elem_dget|]. by exists q, t.
  - intros meta rest forget now Hq Hperm. by destruct (records_ok L p meta rest forget now Hinv Hq Hperm) as (w' & -> & _).
  - intros r q t blocks. by apply (delivering_inv L).
  - intros req. by apply (reported_inv L).
Qed.

(** The worker's counters are right whatever the scheduler and the consumers do. *)
Lemma produces_counted p : reachable_producer p -> counted (worker p).
Proof using Type.
  induction 1 as [|p p' _ IH Hs].
  - split; [by intros t o ?%not_elem_of_nil|done|done].
  - destruct Hs; simpl; try done.
    + match goal with E : record_send_reqs _ _ _ _ _ _ = _ |- _ => pose proof (f_equal snd E) as Hw end.
      simpl in Hw. subst w'. by apply records_counted.
    + match goal with E : fetch_finished_sending_reqs _ _ = _ |- _ => pose proof (f_equal snd E) as Hw end.
      simpl in Hw. subst w'. by apply fetch_counted.
    + by eapply works_counted.
Qed.

(** C17: the blocks of a request that finished are freed in the end.  Once its
    metadata is recorded, a report at a time after the deadline of its transfer,
    with no coroutine transferring its blocks, names the request unless it was
    reported before; provided that no coroutine that was asked for the transfer
    ended with an error, which leaves the counter of running transfers positive
    and keeps the request unreported. *)
Theorem delivered_blocks_freed p r q t blocks now :
  reachable_producer p -> requests (sched p) !! r = Some q -> stages p !! r = Some (Delivering blocks) ->
  transfer_of q = Some t ->
  dget (need_send_reqs (sched p)) (request_id q) = None -> queue p = [] ->
  (forall o m deadline, dget (reqs_need_send (worker p)) t = Some o -> heap (worker p) !! o = Some m ->
    expire_time m = Some deadline -> deadline < now /\ ~ transferring (worker p) o) ->
  ~ failed (worker p) t ->
  exists ids w', fetch_finished_sending_reqs now (worker p) = (Ok ids, w') /\ request_id q ∈ reported p ∪ ids.
Proof using producer_role not_consumer.
  intros Hreach Hq Hst Ht Hsched Hqueue Hlate Hnf. pose proof (produces_counted p Hreach) as Hcnt.
  apply producer_reachable_inv in Hreach as [L Hinv].
  destruct (delivering_inv L p r q t blocks Hinv Hq Hst Ht) as (cl & _ & Hd). destruct Hinv as [Hk Hco].
  assert (request_id q <> "") as Hne by (apply (routed_named _ (co_routed _ _ _ _ Hco)); by eapply list_elem_of_lookup_2).
  destruct (fetch_keeps L (reported p) now (worker p) Hk) as (ids & w' & E & Hk' & Hexp). exists ids, w'. split; [done|].
  destruct Hd as [He|[(meta & Hin & _)|[(o & m & Ho & Hm & Hr & [dl Hdl] & Hid & _)|Hin]]].
  - congruence.
  - rewrite Hqueue in Hin. by apply not_elem_of_nil in Hin.
  - rewrite <- Hid. apply (Hexp t o m Ho Hm). destruct (Hlate o m dl Ho Hm Hdl) as [Hlt Hnt].
    destruct (k_table _ _ _ Hk t o Ho) as (m1 & Hm1 & Htid). rewrite Hm in Hm1. injection Hm1 as <-.
    assert (sending m = 0) as Hs by (apply (idle_counter (worker p) o m); [done|done|by rewrite Htid|done]). unfold expired.
    rewrite Hdl, Hs, bool_decide_eq_false_2 by congruence. simpl. rewrite andb_true_r. by apply Z.ltb_lt.
  - destruct (k_reported _ _ _ Hk _ Hin) as (t' & bl & HL).
    pose proof (fetch_reports _ _ _ _ E) as Hsub. set_solver.
Qed.
End runs.

(** ** Example: a request that runs, finishes and is not pulled in time *)

Definition producer_config : scheduler_config := init_scheduler "kv_producer" false false 16 [FullAttention].
Abbreviation demo_step := (producer_step producer_config demo_producer [] demo_topology [] 0 1 demo_kernel false 10).
Abbreviation demo_produces := (produces producer_config demo_producer [] demo_topology [] 0 1 demo_kernel false 10).

Lemma demo_arrives : demo_step new_producer
  (Producer (Scheduler [demo_request "p" prefill_params] [] [] []) [Arrived] [] new_sender ∅).
Proof.
  apply (step_arrives _ _ _ _ _ _ _ _ _ _ new_producer (demo_request "p" prefill_params)); [done| | |].
  - apply not_elem_of_nil.
  - by intros t q' _ ?%not_elem_of_nil.
  - intros ps v [= <-] [= <-] _. by eexists.
Qed.

(** It has run and its blocks 1 and 2 are with the worker until time 17. *)
Lemma demo_delivering :
  exists p, demo_produces p /\ conns (worker p) = ∅ /\ requests (sched p) !! 0%nat = Some (demo_request "p" prefill_params) /\
    stages p !! 0%nat = Some (Delivering [[1; 2]]) /\ need_send_reqs (sched p) = [] /\ queue p = [] /\ reported p = ∅ /\
    forall o m deadline, dget (reqs_need_send (worker p)) "x1" = Some o -> heap (worker p) !! o = Some m ->
      expire_time m = Some deadline -> deadline < 20.
Proof.
  pose proof (produces_step _ _ _ _ _ _ _ _ _ _ _ _ (produces_new _ _ _ _ _ _ _ _ _ _) demo_arrives) as H1.
  eassert (demo_produces _) as H2.
  { eapply produces_step; [exact H1|].
    eapply (step_allocates _ _ _ _ _ _ _ _ _ _ _ 0 _ [[1; 2]] 0); [reflexivity|done|vm_compute; reflexivity]. }
  eassert (demo_produces _) as H3.
  { eapply produces_step; [exact H2|]. eapply step_builds. vm_compute. reflexivity. }
  eassert (demo_produces _) as H4.
  { eapply produces_step; [exact H3|]. eapply (step_records _ _ _ _ _ _ _ _ _ _ _ _ _ _ 5); [reflexivity..|vm_compute; reflexivity]. }
  eassert (demo_produces _) as H5.
  { eapply produces_step; [exact H4|]. eapply (step_finishes _ _ _ _ _ _ _ _ _ _ _ 0 _ FINISHED_LENGTH_CAPPED [[1; 2]]);
      [reflexivity|done|done|vm_compute; reflexivity]. }
  eassert (demo_produces _) as H6.
  { eapply produces_step; [exact H5|]. eapply step_builds. vm_compute. reflexivity. }
  eassert (demo_produces _) as H7.
  { eapply produces_step; [exact H6|]. eapply (step_records _ _ _ _ _ _ _ _ _ _ _ _ _ _ 7); [reflexivity..|vm_compute; reflexivity]. }
  eexists. split; [exact H7|].
  split_and!; [vm_compute; reflexivity..|]. intros o m dl Ho Hm Hd. vm_compute in Ho. injection Ho as <-.
  vm_compute in Hm. injection Hm as <-. injection Hd as <-. done.
Qed.

Lemma producer_serves_witness :
  exists p, demo_produces p /\ exists cl, get_sw_clipped_blocks producer_config [[1; 2]] = Ok cl /\
    delivering p 0 (demo_request "p" prefill_params) "x1" cl.
Proof.
  destruct demo_delivering as (p & Hp & _ & Hq & Hst & _). exists p. split; [done|].
  destruct (producer_serves producer_config demo_producer [] demo_topology [] 0 1 demo_kernel false 10 eq_refl eq_refl
    p Hp) as (_ & _ & H & _).
  exact (H 0%nat _ "x1" [[1; 2]] Hq Hst eq_refl).
Defined.

Lemma delivered_blocks_freed_witness :
  exists p ids w', demo_produces p /\ fetch_finished_sending_reqs 20 (worker p) = (Ok ids, w') /\ "p" ∈ ids.
Proof.
  destruct demo_delivering as (p & Hp & Hcs & Hq & Hst & Hs & Hqu & Hrep & Hlate). exists p.
  assert (forall c, conns (worker p) !! c = None) as Hno by (intros c; by rewrite Hcs).
  destruct (delivered_blocks_freed producer_config demo_producer [] demo_topology [] 0 1 demo_kernel false 10
    eq_refl eq_refl p 0 (demo_request "p" prefill_params) "x1" [[1; 2]] 20 Hp Hq Hst eq_refl) as (ids & w' & E & Hin).
  - by rewrite Hs.
  - exact Hqu.
  - intros o m dl Ho Hm Hd. split; [by eapply Hlate|]. intros (c & x & Hx & _). by rewrite Hno in Hx.
  - intros (c & x & rr & _ & _ & Hx & _). by rewrite Hno in Hx.
  - exists ids, w'. split; [done|]. split; [done|]. rewrite Hrep in Hin.
    by apply elem_of_union in Hin as [?%not_elem_of_empty|?].
Defined.
