(* ===== verification/EplbDispatch.v ===== *)
(** * Replica order of expert-parallel dispatch

    Models src/vllm_hcu/model_executor/layers/fused_moe/eplb_dispatch.py: for
    one source rank, the order in which the physical replicas of every logical
    expert are tried, by locality or with one primary replica chosen fairly.

    Parameters annotated [torch.Tensor] or [int] are taken at these types, so
    the [isinstance] and [type] tests on them hold; comparisons of a tensor
    with an integer compare the integers.  [random.Random] and its [shuffle]
    are parameters; what the code relies on is that a shuffled list is a
    permutation.  List indexes are never negative here. *)

From S2P Require Import Prelude Tensors.
Local Open Scope Z_scope.

Module Dispatch.

(** ** Maps of replicas *)

Inductive dtype := int8 | int16 | int32 | int64 | uint8 | other_dtype (name : string).

#[global] Instance dtype_eq_dec : EqDecision dtype.
Proof. solve_decision. Defined.

(** [_INTEGER_DTYPES] *)
Definition INTEGER_DTYPES : list dtype := [int8; int16; int32; int64; uint8].

(** The rows of a three-dimensional tensor: by layer, then by logical expert *)
Definition replica_map : Type := list (list (list Z)).

Record int_tensor := Tensor { ndim : Z; dtype_of : dtype; rows : replica_map }.

(** [t.fill_(-1)]: unsigned tensors wrap around. *)
Definition fill_value (t : dtype) : Z := if decide (t = uint8) then 255 else -1.

(** [row.fill_(-1); row[: len(ordered)] = ordered] *)
Definition write_row (t : dtype) (row ordered : list Z) : list Z :=
  ordered ++ replicate (length row - length ordered) (fill_value t).

(** [[int(value) for value in row.tolist() if int(value) >= 0]] *)
Definition candidates (row : list Z) : list Z := filter (fun value => 0 <= value) row.

(** ** Validation *)

Definition strict_integer (value : Z) (name : string) (minimum : Z) : result Z :=
  if value <? minimum then Err (Exn ValueError name) else Ok value.

Definition check_replicas (row : list Z) : result unit :=
  let cs := candidates row in
  if zlen cs =? 0 then Err (Exn ValueError "no physical replicas")
  else if negb (zlen cs =? zlen (remove_dups cs)) then Err (Exn ValueError "duplicate physical replicas")
  else Ok tt.

Fixpoint check_all {A} (check : A -> result unit) (l : list A) : result unit :=
  match l with
  | [] => Ok tt
  | x :: l' => check x ≫= fun _ => check_all check l'
  end.

Definition invalid_id (num_physical_experts value : Z) : bool :=
  (value <? -1) || (num_physical_experts <=? value).

Definition validated_replica_map (t : int_tensor) (ep_rank ep_size num_nodes num_physical_experts : Z)
    : result replica_map :=
  if negb (ndim t =? 3) then Err (Exn ValueError "ndim")
  else if negb (bool_decide (dtype_of t ∈ INTEGER_DTYPES)) then Err (Exn TypeError "dtype")
  else
  strict_integer ep_size "ep_size" 1 ;;
  strict_integer ep_rank "ep_rank" 0 ;;
  if ep_size <=? ep_rank then Err (Exn ValueError "ep_rank")
  else
  strict_integer num_nodes "num_nodes" 1 ;;
  if negb (ep_size mod num_nodes =? 0) then Err (Exn ValueError "num_nodes")
  else
  strict_integer num_physical_experts "num_physical_experts" 1 ;;
  if negb (num_physical_experts mod ep_size =? 0) then Err (Exn ValueError "num_physical_experts")
  else if existsb (existsb (existsb (invalid_id num_physical_experts))) (rows t)
  then Err (Exn ValueError "invalid physical expert ID")
  else check_all (check_all check_replicas) (rows t) ;; Ok (rows t).

(** ** Order by locality *)

(** Python's comparison of pairs *)
Definition pair_le (a b : Z * Z) : bool := (a.1 <? b.1) || ((a.1 =? b.1) && (a.2 <=? b.2)).

(** [sorted(l, key=key)] *)
Fixpoint insert_by (key : Z -> Z * Z) (x : Z) (l : list Z) : list Z :=
  match l with
  | [] => [x]
  | y :: l' => if pair_le (key x) (key y) then x :: l else y :: insert_by key x l'
  end.
Definition sorted_by (key : Z -> Z * Z) (l : list Z) : list Z := foldr (insert_by key) [] l.

Definition locality (ep_rank num_local_experts ranks_per_node physical_id : Z) : Z * Z :=
  let rank := physical_id / num_local_experts in
  let distance :=
    if rank =? ep_rank then 0
    else if rank / ranks_per_node =? ep_rank / ranks_per_node then 1
    else 2 in
  (distance, physical_id).

Definition build_nearest_replica_order (t : int_tensor) (ep_rank ep_size num_nodes num_physical_experts : Z)
    : result replica_map :=
  m ← validated_replica_map t ep_rank ep_size num_nodes num_physical_experts;
  let key := locality ep_rank (num_physical_experts / ep_size) (ep_size / num_nodes) in
  Ok (map (map (fun row => write_row (dtype_of t) row (sorted_by key (candidates row)))) m).

(** ** Fair choice of a primary replica *)

(** [l[i]] and [l[i] = v] *)
Definition getitem (l : list Z) (i : Z) : result Z :=
  match zget l i with Some v => Ok v | None => Err (Exn IndexError "list index out of range") end.
Definition setitem {A} (l : list A) (i : Z) (v : A) : result (list A) :=
  match zget l i with
  | Some _ => Ok (<[Z.to_nat i := v]> l)
  | None => Err (Exn IndexError "list assignment index out of range")
  end.

(** [groups[index(c)].append(c)] for every candidate *)
Fixpoint group_by (index : Z -> Z) (cs : list Z) (groups : list (list Z)) : result (list (list Z)) :=
  match cs with
  | [] => Ok groups
  | c :: cs' =>
      match zget groups (index c) with
      | None => Err (Exn IndexError "list index out of range")
      | Some g => groups' ← setitem groups (index c) (g ++ [c]); group_by index cs' groups'
      end
  end.

(** [enumerate(l)] *)
Definition enumerate {A} (l : list A) : list (Z * A) := zip (zrange 0 (zlen l)) l.

Section fair.
Context {rng : Type} (Random : Z -> rng) (shuffle : rng -> list Z -> list Z * rng).

(** The locals of the loop over the rows *)
Record row_state := RowState {
  generator : rng;
  assignments : list Z;
  assignment_counts : dict Z Z
}.

(** [rng.shuffle(l)] *)
Definition shuffled (l : list Z) : M row_state (list Z) := fun s =>
  let '(l', g) := shuffle (generator s) l in
  (Ok l', RowState g (assignments s) (assignment_counts s)).

(** [d[k]] *)
Definition count_of (counts : dict Z Z) (k : Z) : result Z :=
  match dget counts k with Some n => Ok n | None => Err (Exn KeyError "") end.

(** [min(l, key=counts.__getitem__)] after its first element *)
Fixpoint min_from (counts : dict Z Z) (best least : Z) (l : list Z) : result Z :=
  match l with
  | [] => Ok best
  | x :: l' =>
      n ← count_of counts x;
      if n <? least then min_from counts x n l' else min_from counts best least l'
  end.

Definition min_by_count (counts : dict Z Z) (l : list Z) : result Z :=
  match l with
  | [] => Err (Exn ValueError "min() arg is an empty sequence")
  | x :: l' => n ← count_of counts x; min_from counts x n l'
  end.

Definition choose_least_assigned (cs : list Z) : M row_state Z :=
  l ← shuffled cs;
  s ← get_state;
  lift (min_by_count (assignment_counts s) l).

(** The choice of one rank: [assignments[rank] = choice; assignment_counts[choice] += 1] *)
Definition assign (cs : list Z) (rank : Z) : M row_state unit :=
  choice ← choose_least_assigned cs;
  s ← get_state;
  a ← lift (setitem (assignments s) rank choice);
  n ← lift (count_of (assignment_counts s) choice);
  put_state (RowState (generator s) a (dset (assignment_counts s) choice (n + 1))).

(** The ranks of a range without a replica yet *)
Definition unassigned (ranks : list Z) : M row_state (list Z) := fun s =>
  (Ok (filter (fun rank => zget (assignments s) rank = Some (-1)) ranks), s).

Definition same_gpu (by_gpu : list (list Z)) : M row_state unit :=
  for_each (enumerate by_gpu) (fun '(rank, local) =>
    match local with [] => mret tt | _ => assign local rank end).

Definition same_node (num_gpus_per_node : Z) (by_node : list (list Z)) : M row_state unit :=
  for_each (enumerate by_node) (fun '(node_id, local) =>
    match local with
    | [] => mret tt
    | _ =>
        remaining ← unassigned (zrange (node_id * num_gpus_per_node) num_gpus_per_node);
        order ← shuffled remaining;
        for_each order (assign local)
    end).

Definition remote (ep_size : Z) (cs : list Z) : M row_state unit :=
  remaining ← unassigned (zrange 0 ep_size);
  order ← shuffled remaining;
  for_each order (assign cs).

(** The replica every rank gets of one logical expert *)
Definition assign_row (ep_size num_nodes num_physical_experts seed : Z) (cs : list Z) : result (list Z) :=
  let num_local_experts := num_physical_experts / ep_size in
  let num_gpus_per_node := ep_size / num_nodes in
  let num_node_experts := num_local_experts * num_gpus_per_node in
  by_gpu ← group_by (fun c => c / num_local_experts) cs (replicate (Z.to_nat ep_size) []);
  by_node ← group_by (fun c => c / num_node_experts) cs (replicate (Z.to_nat num_nodes) []);
  let s := RowState (Random seed) (replicate (Z.to_nat ep_size) (-1)) (map (fun c => (c, 0)) cs) in
  match (same_gpu by_gpu ;; same_node num_gpus_per_node by_node ;; remote ep_size cs) s with
  | (Ok _, s') => Ok (assignments s')
  | (Err e, _) => Err e
  end.

(** [l.index(x)] *)
Fixpoint index_of (l : list Z) (x : Z) : result nat :=
  match l with
  | [] => Err (Exn ValueError "is not in list")
  | y :: l' => if y =? x then Ok 0%nat else n ← index_of l' x; Ok (S n)
  end.

(** One row: a row with a single replica is not touched. *)
Definition order_row (t : dtype) (ep_rank ep_size num_nodes num_physical_experts seed : Z) (row : list Z)
    : result (list Z) :=
  let cs := candidates row in
  if zlen cs <=? 1 then Ok row
  else
    a ← assign_row ep_size num_nodes num_physical_experts seed cs;
    primary ← getitem a ep_rank;
    i ← index_of cs primary;
    Ok (write_row t row (drop i cs ++ take i cs)).

Fixpoint map_result {A B} (f : A -> result B) (l : list A) : result (list B) :=
  match l with
  | [] => Ok []
  | x :: l' => y ← f x; ys ← map_result f l'; Ok (y :: ys)
  end.

Definition row_seed (seed layer_offset layer_id logical_expert_id : Z) : Z :=
  seed + (layer_offset + layer_id) * 1000003 + logical_expert_id * 9176.

Definition build_locality_fair_replica_order (t : int_tensor)
    (ep_rank ep_size num_nodes num_physical_experts seed layer_offset : Z) : result replica_map :=
  strict_integer layer_offset "layer_offset" 0 ;;
  m ← validated_replica_map t ep_rank ep_size num_nodes num_physical_experts;
  map_result (fun '(layer_id, layer) =>
    map_result (fun '(logical_expert_id, row) =>
      order_row (dtype_of t) ep_rank ep_size num_nodes num_physical_experts
        (row_seed seed layer_offset layer_id logical_expert_id) row) (enumerate layer)) (enumerate m).
End fair.

Arguments RowState {rng}.
Arguments generator {rng}.
Arguments assignments {rng}.
Arguments assignment_counts {rng}.
End Dispatch.
