(* ===== verification/EplbDispatchCorrect.v ===== *)
(** * Correctness of the replica order

    Both orders keep the replicas of every logical expert and put a nearest
    one first; the fair order spreads the choices of the ranks of a node, and
    those of the ranks without a replica near them, evenly over the replicas. *)

From S2P Require Import Prelude Tensors EplbDispatch.
From stdpp Require Import sorting.
Import Dispatch.
Local Open Scope Z_scope.

(** ** Validation *)

Definition valid_row (num_physical_experts : Z) (row : list Z) : Prop :=
  candidates row <> [] /\ NoDup (candidates row) /\ Forall (fun v => -1 <= v < num_physical_experts) row.

Record valid (t : int_tensor) (ep_rank ep_size num_nodes num_physical_experts : Z) : Prop := Valid {
  v_ndim : ndim t = 3;
  v_dtype : dtype_of t ∈ INTEGER_DTYPES;
  v_rank : 0 <= ep_rank < ep_size;
  v_nodes : 1 <= num_nodes;
  v_nodes_div : (num_nodes | ep_size);
  v_physical : 1 <= num_physical_experts;
  v_physical_div : (ep_size | num_physical_experts);
  v_rows : Forall (Forall (valid_row num_physical_experts)) (rows t)
}.

(** The elements of an unsigned tensor are not negative. *)
Definition well_typed (t : int_tensor) : Prop :=
  dtype_of t = uint8 -> Forall (Forall (Forall (fun v => 0 <= v))) (rows t).

Lemma remove_dups_length (l : list Z) : zlen l = zlen (remove_dups l) <-> NoDup l.
Proof.
  unfold zlen. induction l as [|x l IH]; simpl; [split; [constructor|done]|].
  assert (length (remove_dups l) <= length l)%nat.
  { clear. induction l as [|y l IH]; simpl; [done|]. case_decide; simpl; lia. }
  case_decide as Hx; simpl; rewrite NoDup_cons.
  - split; [lia|]. intros [? _]. done.
  - rewrite <- IH. split; [intros; split; [done|lia]|lia].
Qed.

Lemma check_replicas_spec row :
  match check_replicas row with
  | Ok _ => candidates row <> [] /\ NoDup (candidates row)
  | Err e => exn_type e = ValueError /\ ~ (candidates row <> [] /\ NoDup (candidates row))
  end.
Proof.
  unfold check_replicas. destruct (zlen (candidates row) =? 0) eqn:E1; bool_prop.
  - split; [done|]. intros [Hn _]. apply Hn. unfold zlen in E1. by apply length_zero_iff_nil; lia.
  - rewrite if_negb. destruct (_ =? _) eqn:E2; bool_prop.
    + split; [|by apply remove_dups_length]. intros Hn. by rewrite Hn in E1.
    + split; [done|]. intros [_ Hd%remove_dups_length]. lia.
Qed.

Lemma check_all_spec {A} (check : A -> result unit) (P : A -> Prop) l :
  (forall x, match check x with Ok _ => P x | Err e => exn_type e = ValueError /\ ~ P x end) ->
  match check_all check l with Ok _ => Forall P l | Err e => exn_type e = ValueError /\ ~ Forall P l end.
Proof.
  intros HP. induction l as [|x l IH]; simpl; [constructor|].
  specialize (HP x). unfold mbind, result_bind. destruct (check x) as [u|e].
  - destruct (check_all check l); [by constructor|]. rewrite Forall_cons. naive_solver.
  - rewrite Forall_cons. naive_solver.
Qed.

Lemma existsb_Forall {A} (f : A -> bool) (P : A -> Prop) l :
  (forall x, f x = false <-> P x) -> existsb f l = false <-> Forall P l.
Proof.
  intros HP. induction l as [|x l IH]; simpl; [split; [constructor|done]|].
  by rewrite orb_false_iff, Forall_cons, HP, IH.
Qed.

Lemma ids_in_range n (m : replica_map) :
  existsb (existsb (existsb (invalid_id n))) m = false <->
  Forall (Forall (Forall (fun v => -1 <= v < n))) m.
Proof.
  apply existsb_Forall. intros layer. apply existsb_Forall. intros row. apply existsb_Forall. intros v.
  unfold invalid_id. rewrite orb_false_iff, Z.ltb_ge, Z.leb_gt. tauto.
Qed.

Lemma valid_rows_split n (m : replica_map) :
  Forall (Forall (valid_row n)) m <->
  Forall (Forall (Forall (fun v => -1 <= v < n))) m /\
  Forall (Forall (fun row => candidates row <> [] /\ NoDup (candidates row))) m.
Proof.
  rewrite <- Forall_and. apply Forall_iff. intros layer. rewrite <- Forall_and. apply Forall_iff.
  intros row. unfold valid_row. tauto.
Qed.

(** The validation accepts exactly the valid maps and returns them unchanged. *)
Lemma validated_replica_map_spec t r s k n :
  match validated_replica_map t r s k n with
  | Ok m => valid t r s k n /\ m = rows t
  | Err e => (exn_type e = ValueError \/ exn_type e = TypeError) /\ ~ valid t r s k n
  end.
Proof.
  unfold validated_replica_map, strict_integer. rewrite !if_negb.
  destruct (ndim t =? 3) eqn:E1; bool_prop; [|split; [by left|by intros []]].
  case_bool_decide as E2; [|split; [by right|by intros []]].
  destruct (s <? 1) eqn:E3; bool_prop; [split; [by left|intros []; lia]|]. cbn.
  destruct (r <? 0) eqn:E4; bool_prop; [split; [by left|intros []; lia]|]. cbn.
  destruct (s <=? r) eqn:E5; bool_prop; [split; [by left|intros []; lia]|]. cbn.
  destruct (k <? 1) eqn:E6; bool_prop; [split; [by left|intros []; lia]|]. cbn.
  destruct (s mod k =? 0) eqn:E7; bool_prop.
  2:{ split; [by left|]. intros []. apply E7, Z.mod_divide; [lia|done]. }
  destruct (n <? 1) eqn:E8; bool_prop; [split; [by left|intros []; lia]|]. cbn.
  destruct (n mod s =? 0) eqn:E9; bool_prop.
  2:{ split; [by left|]. intros []. apply E9, Z.mod_divide; [lia|done]. }
  destruct (existsb _ _) eqn:E10.
  { split; [by left|]. intros [? ? ? ? ? ? ? [Hr _]%valid_rows_split]. apply ids_in_range in Hr. congruence. }
  apply ids_in_range in E10.
  pose proof (check_all_spec _ _ (rows t) (fun l => check_all_spec _ _ l check_replicas_spec)) as Hc.
  destruct (check_all _ _) as [u|e]; cbn.
  - split; [|done]. constructor; try done; try lia; try (apply Z.mod_divide; [lia|done]).
    by apply valid_rows_split.
  - destruct Hc as [He Hc]. split; [by left|]. intros []. apply Hc. by apply valid_rows_split with n.
Qed.

(** ** Rows *)

Lemma candidates_nonneg row : Forall (fun v => 0 <= v) (candidates row).
Proof. apply Forall_forall. intros v Hv. by apply list_elem_of_filter in Hv as [? _]. Qed.

Lemma candidates_length row : (length (candidates row) <= length row)%nat.
Proof. apply length_filter. Qed.

Lemma candidates_all l : Forall (fun v => 0 <= v) l -> candidates l = l.
Proof.
  unfold candidates. induction 1; [done|]. rewrite filter_cons_True by done. by f_equal.
Qed.

Lemma candidates_app l k : candidates (l ++ k) = candidates l ++ candidates k.
Proof. apply filter_app. Qed.

Lemma candidates_fill n : candidates (replicate n (-1)) = [].
Proof. induction n as [|n IH]; [done|]. simpl. unfold candidates in *. by rewrite filter_cons_False by lia. Qed.

Lemma candidates_range n row c :
  Forall (fun v => -1 <= v < n) row -> c ∈ candidates row -> 0 <= c < n.
Proof.
  intros Hr [H0 Hc]%list_elem_of_filter. rewrite Forall_forall in Hr. specialize (Hr _ Hc). simpl in Hr. lia.
Qed.

(** Writing a permutation of the replicas back keeps the width and leaves
    exactly the replicas in the new order. *)
Lemma write_row_candidates t row l :
  l ≡ₚ candidates row -> (t = uint8 -> Forall (fun v => 0 <= v) row) ->
  candidates (write_row t row l) = l /\ length (write_row t row l) = length row.
Proof.
  intros Hp Ht. pose proof (candidates_length row) as Hl. pose proof (Permutation_length Hp) as Hlen.
  assert (Forall (fun v => 0 <= v) l) as Hnn by (rewrite Hp; apply candidates_nonneg).
  unfold write_row, fill_value. split; [|rewrite length_app, length_replicate; lia].
  rewrite candidates_app, (candidates_all l) by done. case_decide as Hd.
  - rewrite Hlen, (candidates_all row) by auto. by rewrite Nat.sub_diag, app_nil_r.
  - by rewrite candidates_fill, app_nil_r.
Qed.

(** ** Order by locality *)

Lemma pair_le_trans a b c : pair_le a b = true -> pair_le b c = true -> pair_le a c = true.
Proof. unfold pair_le. rewrite !orb_true_iff, !andb_true_iff, !Z.ltb_lt, !Z.leb_le, !Z.eqb_eq. lia. Qed.

Lemma pair_le_total a b : pair_le a b = false -> pair_le b a = true.
Proof.
  unfold pair_le. rewrite orb_false_iff, andb_false_iff, orb_true_iff, andb_true_iff, !Z.ltb_lt, !Z.ltb_ge,
    !Z.leb_le, !Z.leb_gt, Z.eqb_eq, Z.eqb_neq. lia.
Qed.

Lemma insert_by_perm key x l : insert_by key x l ≡ₚ x :: l.
Proof. induction l as [|y l IH]; simpl; [done|]. case_match; [done|]. rewrite IH. constructor. Qed.

Lemma sorted_by_perm key l : sorted_by key l ≡ₚ l.
Proof. unfold sorted_by. induction l as [|x l IH]; simpl; [done|]. by rewrite insert_by_perm, IH. Qed.

Lemma insert_by_sorted key x l :
  StronglySorted (fun a b => pair_le (key a) (key b) = true) l ->
  StronglySorted (fun a b => pair_le (key a) (key b) = true) (insert_by key x l).
Proof.
  induction 1 as [|y l Hs IH Hy]; simpl; [repeat constructor|].
  destruct (pair_le (key x) (key y)) eqn:E.
  - repeat constructor; [done|done|done|]. eapply Forall_impl; [exact Hy|].
    simpl. intros z. by apply pair_le_trans.
  - constructor; [done|]. rewrite insert_by_perm. constructor; [by apply pair_le_total|done].
Qed.

Lemma sorted_by_sorted key l : StronglySorted (fun a b => pair_le (key a) (key b) = true) (sorted_by key l).
Proof. unfold sorted_by. induction l; simpl; [constructor|by apply insert_by_sorted]. Qed.

(** The distance of a replica from a rank: the same device, the same node, or
    another node *)
Definition distance (ep_rank ep_size num_nodes num_physical_experts c : Z) : Z :=
  (locality ep_rank (num_physical_experts / ep_size) (ep_size / num_nodes) c).1.

(** What an order of replicas promises a rank about one row: the replicas are
    those of the map, in a row of the same width, and the first is a nearest *)
Definition serves (dist : Z -> Z) (row row' : list Z) : Prop :=
  length row' = length row /\ candidates row' ≡ₚ candidates row /\
  exists primary rest, candidates row' = primary :: rest /\
    forall c, c ∈ candidates row -> dist primary <= dist c.

Lemma serves_same_head (dist : Z -> Z) row l t :
  candidates row <> [] -> l ≡ₚ candidates row -> (t = uint8 -> Forall (fun v => 0 <= v) row) ->
  (forall p c, head l = Some p -> c ∈ candidates row -> dist p <= dist c) ->
  serves dist row (write_row t row l).
Proof.
  intros Hne Hp Ht Hd. destruct (write_row_candidates t row l Hp Ht) as [Hc Hl].
  split_and!; [done|by rewrite Hc|]. rewrite Hc. destruct l as [|p l].
  - by apply Permutation_nil_l in Hp.
  - exists p, l. split; [done|]. intros c. by apply Hd.
Qed.

Lemma forall_rows (t : int_tensor) layer row (lid eid : nat) n :
  Forall (Forall (valid_row n)) (rows t) -> well_typed t ->
  rows t !! lid = Some layer -> layer !! eid = Some row ->
  valid_row n row /\ (dtype_of t = uint8 -> Forall (fun v => 0 <= v) row).
Proof.
  intros Hv Ht Hl Hr. split.
  - rewrite Forall_lookup in Hv. specialize (Hv _ _ Hl). rewrite Forall_lookup in Hv. eauto.
  - intros Hu. specialize (Ht Hu). rewrite Forall_lookup in Ht. specialize (Ht _ _ Hl).
    rewrite Forall_lookup in Ht. eauto.
Qed.

Lemma locality_strict r nl rpn l :
  NoDup l -> StronglySorted (fun a b => pair_le (locality r nl rpn a) (locality r nl rpn b) = true) l ->
  StronglySorted (fun a b => (locality r nl rpn a).1 < (locality r nl rpn b).1 \/
    (locality r nl rpn a).1 = (locality r nl rpn b).1 /\ a < b) l.
Proof.
  induction 2 as [|x l Hs IH Hx]; [constructor|]. apply NoDup_cons in H as [Hn Hd].
  constructor; [auto|]. rewrite Forall_forall in Hx |- *. intros y Hy. specialize (Hx y Hy).
  assert (x <> y) by set_solver.
  unfold pair_le in Hx. rewrite orb_true_iff, andb_true_iff, Z.ltb_lt, Z.leb_le, Z.eqb_eq in Hx.
  unfold locality in *; simpl in *. lia.
Qed.

(** A row in the order of distance *)
Definition nearest_first (dist : Z -> Z) (row row' : list Z) : Prop :=
  serves dist row row' /\
  StronglySorted (fun a b => dist a < dist b \/ dist a = dist b /\ a < b) (candidates row').

Lemma nearest_order_ok t ep_rank ep_size num_nodes num_physical_experts m :
  well_typed t -> build_nearest_replica_order t ep_rank ep_size num_nodes num_physical_experts = Ok m ->
  valid t ep_rank ep_size num_nodes num_physical_experts /\
  Forall2 (Forall2 (nearest_first (distance ep_rank ep_size num_nodes num_physical_experts))) (rows t) m.
Proof.
  intros Ht. unfold build_nearest_replica_order.
  pose proof (validated_replica_map_spec t ep_rank ep_size num_nodes num_physical_experts) as Hv.
  destruct (validated_replica_map _ _ _ _ _) as [m0|e]; cbn; [|done].
  destruct Hv as [Hv ->]. intros [= <-]. split; [done|]. apply Forall2_fmap_r, Forall_Forall2_diag, Forall_lookup.
  intros lid layer Hl. apply Forall2_fmap_r, Forall_Forall2_diag, Forall_lookup. intros eid row Hr.
  destruct (forall_rows t layer row lid eid _ (v_rows _ _ _ _ _ Hv) Ht Hl Hr) as [(Hne & Hnd & _) Hty].
  set (key := locality _ _ _). pose proof (sorted_by_perm key (candidates row)) as Hp.
  pose proof (sorted_by_sorted key (candidates row)) as Hs.
  split.
  - apply serves_same_head; [done|done|done|]. intros p c Hh Hc. rewrite <- Hp in Hc.
    destruct (sorted_by key (candidates row)) as [|p' l]; simplify_eq/=.
    apply elem_of_cons in Hc as [->|Hc]; [done|]. apply StronglySorted_inv in Hs as [_ Hs].
    rewrite Forall_forall in Hs. specialize (Hs c Hc). unfold pair_le in Hs.
    rewrite orb_true_iff, andb_true_iff, Z.ltb_lt, Z.eqb_eq in Hs. unfold distance. fold key. lia.
  - rewrite (proj1 (write_row_candidates _ _ _ Hp Hty)). apply locality_strict; [by rewrite Hp|done].
Qed.

(** For every map the nearest order either refuses it with a ValueError or
    TypeError, when it is not valid, or gives a map of the same shape in which
    every row keeps its replicas and lists them by distance, then by id, so
    that the first is a nearest one. *)
Theorem nearest_order_correct t ep_rank ep_size num_nodes num_physical_experts :
  well_typed t ->
  match build_nearest_replica_order t ep_rank ep_size num_nodes num_physical_experts with
  | Err e => (exn_type e = ValueError \/ exn_type e = TypeError) /\
      ~ valid t ep_rank ep_size num_nodes num_physical_experts
  | Ok m =>
      valid t ep_rank ep_size num_nodes num_physical_experts /\
      Forall2 (Forall2 (nearest_first (distance ep_rank ep_size num_nodes num_physical_experts))) (rows t) m
  end.
Proof.
  intros Ht. destruct (build_nearest_replica_order _ _ _ _ _) as [m|e] eqn:E; [by apply nearest_order_ok|].
  pose proof (validated_replica_map_spec t ep_rank ep_size num_nodes num_physical_experts) as Hv.
  unfold build_nearest_replica_order in E. destruct (validated_replica_map _ _ _ _ _) as [m|e']; [done|].
  by injection E as ->.
Qed.

(** ** Counting choices *)

(** How many of the ranks chose [c] *)
Definition chosen (f : Z -> option Z) (ranks : list Z) (c : Z) : Z :=
  zlen (filter (fun r => f r = Some c) ranks).

Lemma chosen_cons f r ranks c :
  chosen f (r :: ranks) c = (if decide (f r = Some c) then 1 else 0) + chosen f ranks c.
Proof. unfold chosen. rewrite filter_cons. case_decide; [rewrite zlen_cons|]; lia. Qed.

Lemma chosen_ext f f' ranks c :
  (forall r, r ∈ ranks -> f r = Some c <-> f' r = Some c) -> chosen f ranks c = chosen f' ranks c.
Proof.
  induction ranks as [|r ranks IH]; [done|]. intros H. rewrite !chosen_cons, IH by set_solver.
  f_equal. specialize (H r). repeat case_decide; set_solver.
Qed.

Lemma chosen_none f ranks c : (forall r, r ∈ ranks -> f r <> Some c) -> chosen f ranks c = 0.
Proof.
  induction ranks as [|r ranks IH]; [done|]. intros H. rewrite chosen_cons, IH by set_solver.
  rewrite decide_False by set_solver. done.
Qed.

Lemma chosen_le_one f ranks c r0 :
  NoDup ranks -> (forall r, r ∈ ranks -> f r = Some c -> r = r0) -> chosen f ranks c <= 1.
Proof.
  induction 1 as [|r ranks Hn Hd IH]; [done|]. intros H. rewrite chosen_cons.
  case_decide as Hr; [|specialize (IH ltac:(set_solver)); lia].
  rewrite chosen_none; [lia|]. intros r' Hr' Hf. apply H in Hr as ->; [|set_solver].
  apply H in Hf; [|set_solver]. set_solver.
Qed.

Lemma chosen_split f (P : Z -> Prop) `{forall r, Decision (P r)} ranks c :
  (forall r, r ∈ ranks -> f r = Some c -> P r) -> chosen f ranks c = chosen f (filter P ranks) c.
Proof.
  induction ranks as [|r ranks IH]; [done|]. intros Hp. rewrite filter_cons, chosen_cons, IH by set_solver.
  case_decide as Hr; destruct (decide (P r)) as [HP|HP]; rewrite ?chosen_cons, ?decide_True by done;
    try done; [|by rewrite decide_False].
  destruct HP. apply Hp; [set_solver|done].
Qed.

Lemma chosen_perm f ranks ranks' c : ranks ≡ₚ ranks' -> chosen f ranks c = chosen f ranks' c.
Proof. intros Hp. unfold chosen, zlen. by rewrite Hp. Qed.

(** One more rank chooses [c]. *)
Lemma chosen_update f f' ranks r0 c y :
  NoDup ranks -> r0 ∈ ranks -> f r0 <> Some y -> f' r0 = Some c ->
  (forall r, r <> r0 -> f' r = f r) ->
  chosen f' ranks y = chosen f ranks y + (if decide (c = y) then 1 else 0).
Proof.
  induction 1 as [|r ranks Hn Hd IH]; [set_solver|]. intros Hin Hf Hf' Ho. rewrite !chosen_cons.
  destruct (decide (r = r0)) as [->|Hne].
  - rewrite (chosen_ext f' f ranks) by (intros r Hr; rewrite Ho by set_solver; done).
    rewrite (decide_False (P := f r0 = Some y)) by done. rewrite Hf'.
    repeat case_decide; simplify_eq; lia.
  - rewrite IH, (Ho r) by set_solver. lia.
Qed.

(** ** Loops *)

Lemma setitem_ok {A} (l : list A) i v x : zget l i = Some x -> setitem l i v = Ok (<[Z.to_nat i := v]> l).
Proof. unfold setitem. by intros ->. Qed.

Lemma group_by_spec index cs groups :
  (forall c, c ∈ cs -> 0 <= index c < zlen groups) ->
  exists groups', group_by index cs groups = Ok groups' /\ zlen groups' = zlen groups /\
    forall i g, zget groups i = Some g -> zget groups' i = Some (g ++ filter (fun c => index c = i) cs).
Proof.
  revert groups. induction cs as [|c cs IH]; intros groups Hr; cbn [group_by].
  - exists groups. split_and!; [done..|]. intros i g ->. by rewrite app_nil_r.
  - destruct (zget_is_Some groups (index c)) as [g Hg]; [apply Hr; set_solver|].
    rewrite Hg, (setitem_ok _ _ _ _ Hg). unfold mbind, result_bind.
    destruct (IH (<[Z.to_nat (index c) := g ++ [c]]> groups)) as (gs & -> & Hl & Hget).
    { intros x Hx. rewrite zlen_insert. apply Hr. set_solver. }
    exists gs. rewrite zlen_insert in Hl. split_and!; [done..|]. intros i g' Hg'.
    specialize (Hget i). rewrite zget_insert in Hget by (apply Hr; set_solver).
    rewrite filter_cons. destruct (decide (i = index c)) as [Hd|Hd].
    + subst i. rewrite decide_True by done. simplify_eq. rewrite (Hget _ eq_refl), <- app_assoc. done.
    + rewrite decide_False by done. by apply Hget.
Qed.

Lemma group_by_empty index cs n :
  (forall c, c ∈ cs -> 0 <= index c < n) ->
  exists groups, group_by index cs (replicate (Z.to_nat n) []) = Ok groups /\ zlen groups = Z.max 0 n /\
    forall i, 0 <= i < n -> zget groups i = Some (filter (fun c => index c = i) cs).
Proof.
  intros Hr. assert (zlen (replicate (Z.to_nat n) (@nil Z)) = Z.max 0 n) as Hl.
  { unfold zlen. rewrite length_replicate. lia. }
  destruct (group_by_spec index cs (replicate (Z.to_nat n) [])) as (gs & Hg & Hlen & Hget).
  { intros c Hc. specialize (Hr c Hc). lia. }
  exists gs. split_and!; [done|lia|]. intros i Hi. rewrite (Hget i []); [done|].
  unfold zget. destruct (Z.ltb_spec i 0); [lia|]. apply lookup_replicate. split; [done|lia].
Qed.

(** The loop over [enumerate(l)] keeps an invariant of the index. *)
Lemma for_enumerate {S A} (body : Z * A -> M S unit) (I : Z -> S -> Prop) (l : list A) k s :
  I k s ->
  (forall i x s, zget l i = Some x -> I (k + i) s -> exists s', body (k + i, x) s = (Ok tt, s') /\ I (k + i + 1) s') ->
  exists s', for_each (zip (zrange k (zlen l)) l) body s = (Ok tt, s') /\ I (k + zlen l) s'.
Proof.
  revert k s. induction l as [|x l IH]; intros k s HI Hb.
  - exists s. rewrite Z.add_0_r. done.
  - rewrite zlen_cons. replace (zrange k (zlen l + 1)) with (k :: zrange (k + 1) (zlen l)).
    2:{ unfold zrange. rewrite (seqZ_cons k) by (pose proof (zlen_nonneg l); lia).
        f_equal. f_equal; lia. }
    destruct (Hb 0 x s eq_refl) as (s1 & H1 & HI1); [by rewrite Z.add_0_r|]. rewrite Z.add_0_r in H1, HI1.
    destruct (IH (k + 1) s1 HI1) as (s2 & H2 & HI2).
    { intros i y s' Hy HI'. pose proof (zget_Some _ _ _ Hy) as Hi.
      replace (k + 1 + i) with (k + (i + 1)) in * by lia. apply Hb; [|done].
      unfold zget in *. destruct (Z.ltb_spec i 0); [done|]. destruct (Z.ltb_spec (i + 1) 0); [lia|].
      replace (Z.to_nat (i + 1)) with (Datatypes.S (Z.to_nat i)) by lia. done. }
    exists s2. cbn [zip for_each zip_with]. rewrite (M_bind_ok _ _ _ _ _ H1). split; [done|].
    by replace (k + (zlen l + 1)) with (k + 1 + zlen l) by lia.
Qed.

Lemma map_result_from {A B} (f : Z * A -> result B) (l : list A) k :
  (forall i x, zget l i = Some x -> exists y, f (k + i, x) = Ok y) ->
  exists ys, map_result f (zip (zrange k (zlen l)) l) = Ok ys /\ zlen ys = zlen l /\
    forall i x y, zget l i = Some x -> f (k + i, x) = Ok y -> zget ys i = Some y.
Proof.
  revert k. induction l as [|x l IH]; intros k Hf.
  { exists []. split_and!; [done..|]. intros i x y Hx%zget_elem. set_solver. }
  rewrite zlen_cons. replace (zrange k (zlen l + 1)) with (k :: zrange (k + 1) (zlen l)).
  2:{ unfold zrange. rewrite (seqZ_cons k) by (pose proof (zlen_nonneg l); lia). f_equal. f_equal; lia. }
  destruct (Hf 0 x eq_refl) as [y Hy]. rewrite Z.add_0_r in Hy.
  destruct (IH (k + 1)) as (ys & Hys & Hl & Hget).
  { intros i z Hz. pose proof (zget_Some _ _ _ Hz). replace (k + 1 + i) with (k + (i + 1)) by lia.
    apply Hf. by rewrite zget_cons_S by lia. }
  exists (y :: ys). cbn [zip zip_with map_result]. rewrite Hy, Hys. split_and!; [done|rewrite zlen_cons; lia|].
  intros i z w Hz Hw. pose proof (zget_Some _ _ _ Hz). destruct (decide (i = 0)) as [->|Hi].
  - rewrite Z.add_0_r in Hw. change (Some x = Some z) in Hz. change (Some y = Some w). congruence.
  - assert (exists j, i = j + 1 /\ 0 <= j) as (j & -> & Hj) by (exists (i - 1); lia).
    rewrite zget_cons_S in Hz by lia. rewrite zget_cons_S by lia. apply (Hget _ z); [done|].
    by replace (k + 1 + j) with (k + (j + 1)) by lia.
Qed.

Lemma map_result_enumerate {A B} (f : Z * A -> result B) (l : list A) :
  (forall i x, zget l i = Some x -> exists y, f (i, x) = Ok y) ->
  exists ys, map_result f (enumerate l) = Ok ys /\ zlen ys = zlen l /\
    forall i x y, zget l i = Some x -> f (i, x) = Ok y -> zget ys i = Some y.
Proof. intros Hf. exact (map_result_from f l 0 Hf). Qed.

Lemma index_of_spec l x :
  x ∈ l -> exists i, index_of l x = Ok i /\ head (drop i l ++ take i l) = Some x /\ drop i l ++ take i l ≡ₚ l.
Proof.
  intros Hx. assert (exists i, index_of l x = Ok i /\ l !! i = Some x) as (i & Hi & Hl).
  { induction l as [|y l IH]; [set_solver|]. simpl. destruct (Z.eqb_spec y x) as [->|Hne]; [by exists 0%nat|].
    destruct IH as (i & -> & Hl); [set_solver|]. by exists (S i). }
  exists i. split; [done|]. split.
  - by rewrite (drop_S l x i Hl).
  - rewrite Permutation_app_comm. by rewrite take_drop.
Qed.

(** ** The choice of one rank *)

Section fair.
Context {rng : Type} (Random : Z -> rng) (shuffle : rng -> list Z -> list Z * rng).
Hypothesis shuffle_perm : forall g l, (shuffle g l).1 ≡ₚ l.

Local Abbreviation shuffled := (shuffled shuffle).
Local Abbreviation assign := (assign shuffle).

Lemma shuffled_spec l (s : row_state) :
  exists l' g, shuffled l s = (Ok l', RowState g (assignments s) (assignment_counts s)) /\ l' ≡ₚ l.
Proof.
  unfold Dispatch.shuffled. pose proof (shuffle_perm (generator s) l) as Hp.
  destruct (shuffle (generator s) l) as [l' g]. by exists l', g.
Qed.

(** The counts of the candidates [cs] are those of the choices made so far by
    [size] ranks. *)
Record counted (size : Z) (cs : list Z) (s : row_state (rng := rng)) : Prop := Counted {
  cd_len : zlen (assignments s) = size;
  cd_nonneg : Forall (fun c => 0 <= c) cs;
  cd_counts : forall c, c ∈ cs ->
    dget (assignment_counts s) c = Some (chosen (zget (assignments s)) (zrange 0 size) c)
}.

Lemma min_from_spec counts best least l :
  dget counts best = Some least -> (forall x, x ∈ l -> exists n, dget counts x = Some n) ->
  exists x n, min_from counts best least l = Ok x /\ x ∈ best :: l /\ dget counts x = Some n /\
    n <= least /\ forall y m, y ∈ l -> dget counts y = Some m -> n <= m.
Proof.
  revert best least. induction l as [|z l IH]; intros best least Hb Hl; simpl.
  - exists best, least. split_and!; [done|set_solver|done|lia|set_solver].
  - destruct (Hl z) as [k Hk]; [set_solver|]. unfold count_of. rewrite Hk. cbn.
    destruct (Z.ltb_spec k least) as [Hlt|Hge].
    + destruct (IH z k Hk) as (x & n & -> & Hx & Hn & Hle & Hall); [set_solver|].
      exists x, n. split_and!; [done|set_solver|done|lia|]. intros y m [->|Hy]%elem_of_cons Hm; [|eauto].
      simplify_eq. lia.
    + destruct (IH best least Hb) as (x & n & -> & Hx & Hn & Hle & Hall); [set_solver|].
      exists x, n. split_and!; [done|set_solver|done|lia|]. intros y m [->|Hy]%elem_of_cons Hm; [|eauto].
      simplify_eq. lia.
Qed.

Lemma min_by_count_spec counts l :
  l <> [] -> (forall x, x ∈ l -> exists n, dget counts x = Some n) ->
  exists x n, min_by_count counts l = Ok x /\ x ∈ l /\ dget counts x = Some n /\
    forall y m, y ∈ l -> dget counts y = Some m -> n <= m.
Proof.
  destruct l as [|z l]; [done|]. intros _ Hl. destruct (Hl z) as [k Hk]; [set_solver|].
  unfold min_by_count, count_of. rewrite Hk. cbn.
  destruct (min_from_spec counts z k l Hk) as (x & n & -> & Hx & Hn & Hle & Hall); [set_solver|].
  exists x, n. split_and!; [done..|]. intros y m [->|Hy]%elem_of_cons Hm; [|eauto]. by simplify_eq.
Qed.

Lemma assign_spec size cs local rank s :
  counted size cs s -> local <> [] -> local ⊆ cs -> zget (assignments s) rank = Some (-1) ->
  exists s' c, assign local rank s = (Ok tt, s') /\ c ∈ local /\ counted size cs s' /\
    (forall r, zget (assignments s') r = if decide (r = rank) then Some c else zget (assignments s) r) /\
    (forall y, 0 <= y -> chosen (zget (assignments s')) (zrange 0 size) y =
       chosen (zget (assignments s)) (zrange 0 size) y + (if decide (c = y) then 1 else 0)) /\
    forall y, y ∈ local -> chosen (zget (assignments s)) (zrange 0 size) c <=
      chosen (zget (assignments s)) (zrange 0 size) y.
Proof.
  intros [Hlen Hnn Hc] Hne Hsub Hr. unfold Dispatch.assign, choose_least_assigned.
  destruct (shuffled_spec local s) as (l & g & Hs & Hp).
  destruct (min_by_count_spec (assignment_counts s) l) as (c & n & Hmin & Hcl & Hn & Hall).
  { intros ->. by apply Permutation_nil_l in Hp. }
  { intros x Hx. rewrite Hp in Hx. eauto. }
  assert (c ∈ local) as Hcloc by (by rewrite <- Hp). assert (c ∈ cs) as Hccs by auto.
  pose proof (zget_Some _ _ _ Hr) as Hrange.
  munfold. rewrite Hs. cbn. rewrite Hmin. unfold setitem, count_of. rewrite Hr, Hn. cbn.
  eexists _, c. split; [reflexivity|]. cbn.
  assert (forall r, zget (<[Z.to_nat rank := c]> (assignments s)) r =
    if decide (r = rank) then Some c else zget (assignments s) r) as Hz by (intros; by apply zget_insert).
  assert (forall y, 0 <= y -> chosen (zget (<[Z.to_nat rank := c]> (assignments s))) (zrange 0 size) y =
    chosen (zget (assignments s)) (zrange 0 size) y + (if decide (c = y) then 1 else 0)) as Hch.
  { intros y Hy. apply (chosen_update _ _ _ rank).
    - apply NoDup_seqZ.
    - apply elem_zrange. lia.
    - rewrite Hr. intros [=]. lia.
    - rewrite Hz. by rewrite decide_True.
    - intros r Hne'. rewrite Hz. by rewrite decide_False. }
  split_and!; [done| |done|done|].
  - constructor; simpl; [by rewrite zlen_insert|done|]. intros y Hy.
    rewrite Forall_forall in Hnn. rewrite Hch by auto. rewrite dget_dset. rewrite Hc in Hn by done.
    case_decide; simplify_eq; [done|]. rewrite Hc by done. f_equal. lia.
  - intros y Hy. rewrite Hc in Hn by done. simplify_eq. apply (Hall y); [by rewrite Hp|]. auto.
Qed.

(** What the ranks of a loop got: replicas of [local], each the least chosen
    at its time. *)
Record levelled (size : Z) (local ranks : list Z) (a a' : list Z) : Prop := Levelled {
  lv_other : forall r, r ∉ ranks -> zget a' r = zget a r;
  lv_ranks : forall r, r ∈ ranks -> exists c, c ∈ local /\ zget a' r = Some c;
  lv_grow : forall c, 0 <= c -> chosen (zget a) (zrange 0 size) c <= chosen (zget a') (zrange 0 size) c;
  lv_rest : forall c, 0 <= c -> c ∉ local ->
    chosen (zget a') (zrange 0 size) c = chosen (zget a) (zrange 0 size) c;
  lv_level : forall c c', c ∈ local -> c' ∈ local ->
    chosen (zget a') (zrange 0 size) c <= chosen (zget a') (zrange 0 size) c' + 1 \/
    chosen (zget a') (zrange 0 size) c = chosen (zget a) (zrange 0 size) c /\
    (forall r, r ∈ ranks -> zget a' r <> Some c)
}.

Lemma assign_each_spec size cs local ranks s :
  counted size cs s -> local <> [] -> local ⊆ cs -> NoDup ranks ->
  (forall r, r ∈ ranks -> zget (assignments s) r = Some (-1)) ->
  exists s', for_each ranks (assign local) s = (Ok tt, s') /\ counted size cs s' /\
    levelled size local ranks (assignments s) (assignments s').
Proof.
  intros Hc Hne Hsub Hnd. revert s Hc. induction Hnd as [|r ranks Hr Hnd IH]; intros s Hc Hfree.
  - exists s. split_and!; [done|done|]. constructor; try done; try set_solver.
  - destruct (assign_spec size cs local r s) as (s1 & c & Ha & Hcl & Hc1 & Hz & Hch & Hmin);
      [done|done|done|apply Hfree; set_solver|].
    destruct (IH s1 Hc1) as (s2 & Hf & Hc2 & [Ho Hrs Hg Hre Hlv]).
    { intros r' Hr'. rewrite Hz, decide_False by set_solver. apply Hfree. set_solver. }
    assert (forall y, y ∈ local -> 0 <= y) as Hnn.
    { intros y Hy. pose proof (cd_nonneg _ _ _ Hc) as H. rewrite Forall_forall in H. auto. }
    exists s2. split_and!; [|done|].
    + cbn [for_each]. by rewrite (M_bind_ok _ _ _ _ _ Ha).
    + constructor.
      * intros r' Hr'. rewrite Ho, Hz, decide_False by set_solver. done.
      * intros r' [->|Hr']%elem_of_cons; [|auto]. exists c. rewrite Ho by done. by rewrite Hz, decide_True.
      * intros y Hy. specialize (Hg y Hy). rewrite Hch in Hg by done. case_decide; lia.
      * intros y Hy Hyl. rewrite Hre, Hch by done. rewrite decide_False by set_solver. lia.
      * intros y y' Hy Hy'. destruct (Hlv y y' Hy Hy') as [|[He Hno]]; [by left|].
        rewrite Hch in He by auto. specialize (Hmin y' Hy'). pose proof (Hg y' (Hnn _ Hy')) as Hgy.
        rewrite Hch in Hgy by auto. destruct (decide (c = y)) as [->|Hcy].
        -- left. repeat case_decide; lia.
        -- right. split; [lia|]. intros r' [->|Hr']%elem_of_cons; [|auto].
           rewrite Ho by done. rewrite Hz, decide_True by done. congruence.
Qed.

(** ** The tiers of one row *)

Section tiers.
Context (nl gpn nodes : Z) (cs : list Z).
Hypothesis nl_pos : 1 <= nl.
Hypothesis gpn_pos : 1 <= gpn.
Hypothesis cs_range : forall c, c ∈ cs -> 0 <= c < nodes * gpn * nl.

Local Abbreviation size := (nodes * gpn).

(** The replicas on the device of a rank and on a node *)
Definition on_gpu (r : Z) : list Z := filter (fun c => c / nl = r) cs.
Definition on_node (j : Z) : list Z := filter (fun c => c / (nl * gpn) = j) cs.

Lemma elem_on_gpu r c : c ∈ on_gpu r <-> c / nl = r /\ c ∈ cs.
Proof. unfold on_gpu. by rewrite list_elem_of_filter. Qed.

Lemma elem_on_node j c : c ∈ on_node j <-> c / (nl * gpn) = j /\ c ∈ cs.
Proof. unfold on_node. by rewrite list_elem_of_filter. Qed.

Lemma gpu_of_range c : c ∈ cs -> 0 <= c / nl < size.
Proof.
  intros Hc. specialize (cs_range c Hc). split; [apply Z.div_pos; lia|]. apply Z.div_lt_upper_bound; lia.
Qed.

Lemma node_of_gpu c : c / (nl * gpn) = c / nl / gpn.
Proof. symmetry. apply Z.div_div; lia. Qed.

Lemma node_range r : 0 <= r < size -> 0 <= r / gpn < nodes.
Proof. intros Hr. split; [apply Z.div_pos; lia|]. apply Z.div_lt_upper_bound; lia. Qed.

Lemma node_of_range c : c ∈ cs -> 0 <= c / (nl * gpn) < nodes.
Proof. intros Hc. rewrite node_of_gpu. by apply node_range, gpu_of_range. Qed.

Lemma on_gpu_on_node r c : c ∈ on_gpu r -> c ∈ on_node (r / gpn).
Proof. rewrite elem_on_gpu, elem_on_node, node_of_gpu. by intros [-> ?]. Qed.

(** Ranks below [k] have a replica of their own device, if there is one. *)
Definition tier1 (k : Z) (s : row_state (rng := rng)) : Prop :=
  counted size cs s /\
  forall r, 0 <= r < size ->
    (r < k -> on_gpu r <> [] -> exists c, c ∈ on_gpu r /\ zget (assignments s) r = Some c) /\
    (~ (r < k /\ on_gpu r <> []) -> zget (assignments s) r = Some (-1)).

Lemma same_gpu_spec by_gpu s :
  zlen by_gpu = size -> (forall i, 0 <= i < size -> zget by_gpu i = Some (on_gpu i)) -> tier1 0 s ->
  exists s', same_gpu shuffle by_gpu s = (Ok tt, s') /\ tier1 size s'.
Proof.
  intros Hl Hg H0. unfold same_gpu, enumerate.
  destruct (for_enumerate (fun '(rank, local) => match local with [] => mret tt | _ => assign local rank end)
    tier1 by_gpu 0 s H0) as (s' & Hf & HI); [|exists s'; split; [exact Hf|by rewrite Hl in HI]].
  intros i x s1 Hx [Hc HI]. rewrite !Z.add_0_l in *. pose proof (zget_Some _ _ _ Hx) as Hi.
  rewrite Hl in Hi. rewrite Hg in Hx by done. injection Hx as <-.
  destruct (on_gpu i) as [|c0 l0] eqn:E.
  - exists s1. split; [done|]. split; [done|]. intros r Hr. destruct (HI r Hr) as [HI1 HI2]. split.
    + intros Hri Hne. destruct (decide (r = i)) as [->|]; [done|]. apply HI1; [lia|done].
    + intros Hn. apply HI2. intros [??]. apply Hn. split; [lia|done].
  - destruct (assign_spec size cs (c0 :: l0) i s1) as (s2 & c & Ha & Hcl & Hc2 & Hz & _); [done|done| | |].
    + rewrite <- E. intros c [_ ?]%elem_on_gpu. done.
    + apply (HI i Hi). lia.
    + exists s2. split; [done|]. split; [done|]. intros r Hr. destruct (HI r Hr) as [HI1 HI2]. rewrite Hz.
      split.
      * intros Hri Hne. case_decide as Hd; [subst; exists c; rewrite E; done|]. apply HI1; [lia|done].
      * intros Hn. rewrite decide_False; [apply HI2; naive_solver lia|]. intros <-. apply Hn.
        split; [lia|by rewrite E].
Qed.

Lemma nonneg_not_free c : c ∈ cs -> Some c <> Some (-1).
Proof. intros Hc [=]. specialize (cs_range c Hc). lia. Qed.

(** Ranks of nodes below [k] have a replica of their own node, if there is
    one, and the choices of such a node are level. *)
Record tier2 (k : Z) (s : row_state (rng := rng)) : Prop := Tier2 {
  t2_counted : counted size cs s;
  t2_gpu : forall r, 0 <= r < size -> on_gpu r <> [] ->
    exists c, c ∈ on_gpu r /\ zget (assignments s) r = Some c;
  t2_node : forall r, 0 <= r < size -> on_gpu r = [] -> r / gpn < k -> on_node (r / gpn) <> [] ->
    exists c, c ∈ on_node (r / gpn) /\ zget (assignments s) r = Some c;
  t2_free : forall r, 0 <= r < size -> on_gpu r = [] -> ~ (r / gpn < k /\ on_node (r / gpn) <> []) ->
    zget (assignments s) r = Some (-1);
  t2_level : forall j c c', j < k -> c ∈ on_node j -> c' ∈ on_node j ->
    chosen (zget (assignments s)) (zrange 0 size) c <= chosen (zget (assignments s)) (zrange 0 size) c' + 1;
  t2_once : forall j c, k <= j -> c ∈ on_node j -> chosen (zget (assignments s)) (zrange 0 size) c <= 1
}.

Lemma tier1_tier2 s : tier1 size s -> tier2 0 s.
Proof.
  intros [Hc H]. constructor; [done| | | | |].
  - intros r Hr Hne. apply (H r Hr); [lia|done].
  - intros r Hr _ Hlt. pose proof (node_range r Hr). lia.
  - intros r Hr He _. apply (H r Hr). by intros [_ ?].
  - intros j c c' Hj [<- Hcs]%elem_on_node. pose proof (node_of_range c Hcs). lia.
  - intros j c _ [_ Hcs]%elem_on_node. apply (chosen_le_one _ _ _ (c / nl)); [apply NoDup_seqZ|].
    intros r Hr%elem_zrange Hz. destruct (H r ltac:(lia)) as [H1 H2].
    destruct (decide (on_gpu r = [])) as [He|Hne].
    + rewrite H2 in Hz by tauto. by destruct (nonneg_not_free c Hcs).
    + destruct H1 as (c' & [<- _]%elem_on_gpu & Hz'); [lia|done|]. by simplify_eq.
Qed.

Lemma node_ranks j r : r ∈ zrange (j * gpn) gpn <-> r / gpn = j.
Proof.
  rewrite elem_zrange. split; [intros Hr|intros <-].
  - symmetry. apply Z.div_unique with (r - j * gpn); lia.
  - pose proof (Z.div_mod r gpn). pose proof (Z.mod_pos_bound r gpn). lia.
Qed.

(** One node with replicas *)
Lemma tier2_step k s order s' :
  tier2 k s -> on_node k <> [] -> 0 <= k < nodes ->
  (forall r, r ∈ order <-> r / gpn = k /\ zget (assignments s) r = Some (-1)) ->
  counted size cs s' -> levelled size (on_node k) order (assignments s) (assignments s') ->
  tier2 (k + 1) s'.
Proof.
  intros [Hc Hgpu Hnode Hfree Hlv Hon] Hne Hk Hord Hc' [Ho Hrs Hg Hre Hl].
  assert (forall c, c ∈ cs -> 0 <= c) as Hnn by (intros c Hcs; apply (cs_range c Hcs)).
  assert (forall j c, j <> k -> c ∈ on_node j -> chosen (zget (assignments s')) (zrange 0 size) c =
    chosen (zget (assignments s)) (zrange 0 size) c) as Hsame.
  { intros j c Hj [Hcj Hcs]%elem_on_node. apply Hre; [auto|]. rewrite elem_on_node. naive_solver. }
  constructor; [done| | | | |].
  - intros r Hr Hgr. destruct (Hgpu r Hr Hgr) as (c & Hcg & Hz). exists c. split; [done|]. rewrite Ho; [done|].
    rewrite Hord, Hz. intros [_ Hb]. apply elem_on_gpu in Hcg as [_ Hcs]. by destruct (nonneg_not_free c Hcs).
  - intros r Hr Hgr Hlt Hn. destruct (decide (r / gpn = k)) as [Hrk|Hrk].
    + rewrite Hrk. apply Hrs. rewrite Hord. split; [done|]. apply Hfree; [done..|lia].
    + rewrite Ho by (rewrite Hord; tauto). apply Hnode; [done..|lia|done].
  - intros r Hr Hgr Hn. rewrite Ho; [apply Hfree; [done..|]|].
    + intros [??]. apply Hn. split; [lia|done].
    + rewrite Hord. intros [<- _]. apply Hn. split; [lia|done].
  - intros j c c' Hj Hcj Hcj'. destruct (decide (j = k)) as [->|Hjk].
    + destruct (Hl c c' Hcj Hcj') as [|[-> _]]; [done|]. apply Hon in Hcj; [|lia].
      pose proof (zlen_nonneg (filter (fun r => zget (assignments s') r = Some c') (zrange 0 size))).
      unfold chosen at 2. lia.
    + rewrite !(Hsame j) by done. apply (Hlv j); [lia|done..].
  - intros j c Hj Hcj. rewrite (Hsame j) by (done || lia). apply (Hon j); [lia|done].
Qed.

Lemma same_node_spec by_node s :
  zlen by_node = nodes -> (forall i, 0 <= i < nodes -> zget by_node i = Some (on_node i)) -> tier2 0 s ->
  exists s', same_node shuffle gpn by_node s = (Ok tt, s') /\ tier2 nodes s'.
Proof.
  intros Hlen Hg H0. unfold same_node, enumerate.
  match goal with |- context [for_each _ ?b] =>
    destruct (for_enumerate b tier2 by_node 0 s H0) as (s' & Hf & HI) end;
    [|exists s'; split; [exact Hf|by rewrite Hlen in HI]].
  intros i x s1 Hx HI. rewrite !Z.add_0_l in *. pose proof (zget_Some _ _ _ Hx) as Hi.
  rewrite Hlen in Hi. rewrite Hg in Hx by done. injection Hx as <-.
  destruct (on_node i) as [|c0 l0] eqn:E.
  - exists s1. split; [done|]. destruct HI as [Hc Hgpu Hnode Hfree Hlv Hon]. constructor; [done|done| | | |].
    + intros r Hr Hgr Hlt Hn. apply Hnode; [done..| |done]. destruct (decide (r / gpn = i)); [congruence|lia].
    + intros r Hr Hgr Hn. apply Hfree; [done..|]. intros [??]. apply Hn. split; [lia|done].
    + intros j c c' Hj Hcj. destruct (decide (j = i)) as [->|]; [rewrite E in Hcj; set_solver|]. apply Hlv; [lia|done].
    + intros j c Hj. apply Hon. lia.
  - set (remaining := filter (fun rank => zget (assignments s1) rank = Some (-1)) (zrange (i * gpn) gpn)).
    destruct (shuffled_spec remaining s1) as (order & g & Hs & Hp).
    assert (forall r, r ∈ order <-> r / gpn = i /\ zget (assignments s1) r = Some (-1)) as Hord.
    { intros r. rewrite Hp. unfold remaining. rewrite list_elem_of_filter, node_ranks. tauto. }
    destruct (assign_each_spec size cs (c0 :: l0) order (RowState g (assignments s1) (assignment_counts s1)))
      as (s2 & Hf & Hc2 & Hlv); simpl.
    + destruct (t2_counted _ _ HI). by constructor.
    + done.
    + rewrite <- E. intros c [_ ?]%elem_on_node. done.
    + rewrite Hp. apply NoDup_filter, NoDup_seqZ.
    + intros r Hr. by apply Hord.
    + exists s2. split; [|rewrite <- E in Hlv; eapply tier2_step; [exact HI|by rewrite E|done|exact Hord|done|done]].
      unfold unassigned. munfold. fold remaining. by rewrite Hs.
Qed.

(** After the two tiers a rank has a replica of its node, or its node has none. *)
Lemma tier2_cases s r :
  tier2 nodes s -> 0 <= r < size ->
  (exists c, c ∈ on_node (r / gpn) /\ zget (assignments s) r = Some c /\ (on_gpu r <> [] -> c ∈ on_gpu r)) \/
  on_node (r / gpn) = [] /\ on_gpu r = [] /\ zget (assignments s) r = Some (-1).
Proof.
  intros [_ Hgpu Hnode Hfree _ _] Hr. destruct (decide (on_gpu r = [])) as [He|Hne].
  - destruct (decide (on_node (r / gpn) = [])) as [Hn|Hn].
    + right. split_and!; [done..|]. apply Hfree; [done..|]. tauto.
    + left. destruct (Hnode r) as (c & Hc & Hz); [done..|by apply node_range|done|]. exists c. done.
  - left. destruct (Hgpu r Hr Hne) as (c & Hc & Hz). exists c. split_and!; [by apply on_gpu_on_node|done..].
Qed.

(** What the choices of all ranks for one row promise *)
Record fair_row (a : list Z) : Prop := FairRow {
  fr_len : zlen a = size;
  fr_near : forall r, 0 <= r < size -> exists c, c ∈ cs /\ zget a r = Some c /\
    (on_gpu r <> [] -> c ∈ on_gpu r) /\ (on_node (r / gpn) <> [] -> c ∈ on_node (r / gpn));
  fr_node : forall j c c', c ∈ on_node j -> c' ∈ on_node j ->
    chosen (zget a) (zrange (j * gpn) gpn) c <= chosen (zget a) (zrange (j * gpn) gpn) c' + 1;
  fr_remote : forall r c c', 0 <= r < size -> on_node (r / gpn) = [] -> zget a r = Some c -> c' ∈ cs ->
    chosen (zget a) (zrange 0 size) c <= chosen (zget a) (zrange 0 size) c' + 1
}.

Lemma node_choices s j c :
  tier2 nodes s -> c ∈ on_node j ->
  chosen (zget (assignments s)) (zrange 0 size) c = chosen (zget (assignments s)) (zrange (j * gpn) gpn) c.
Proof.
  intros H2 Hc. pose proof Hc as [Hj Hcs]%elem_on_node. pose proof (node_of_range c Hcs) as Hjr. rewrite Hj in Hjr.
  rewrite (chosen_split _ (fun r => r / gpn = j)).
  - apply chosen_perm, NoDup_Permutation; [apply NoDup_filter, NoDup_seqZ|apply NoDup_seqZ|].
    intros r. rewrite list_elem_of_filter, node_ranks, elem_zrange. split; [tauto|]. intros <-. split; [done|].
    pose proof (Z.div_mod r gpn). pose proof (Z.mod_pos_bound r gpn). nia.
  - intros r Hr%elem_zrange Hz. destruct (tier2_cases s r H2) as [(c' & Hc' & Hz' & _)|(_ & _ & Hz')]; [lia| |].
    + simplify_eq. apply elem_on_node in Hc'. naive_solver.
    + rewrite Hz' in Hz. by destruct (nonneg_not_free c Hcs).
Qed.

Lemma remote_fair s order s' :
  tier2 nodes s ->
  (forall r, r ∈ order <-> 0 <= r < size /\ zget (assignments s) r = Some (-1)) ->
  counted size cs s' -> levelled size cs order (assignments s) (assignments s') ->
  fair_row (assignments s').
Proof.
  intros H2 Hord [Hlen _ _] [Ho Hrs Hg Hre Hlv]. constructor; [done| | |].
  - intros r Hr. destruct (tier2_cases s r H2 Hr) as [(c & Hc & Hz & Hgpu)|(Hn & Hgp & Hz)].
    + pose proof Hc as [_ Hcs]%elem_on_node. exists c. split_and!; [done| |done|done].
      rewrite Ho; [done|]. rewrite Hord, Hz. intros [_ Hb]. by destruct (nonneg_not_free c Hcs).
    + destruct (Hrs r) as (c & Hc & Hz'); [by apply Hord|]. exists c. split_and!; congruence.
  - assert (forall j c, c ∈ on_node j -> chosen (zget (assignments s')) (zrange (j * gpn) gpn) c =
      chosen (zget (assignments s)) (zrange 0 size) c) as Heq.
    { intros j c Hc. rewrite (node_choices s j c H2 Hc). apply chosen_ext. intros r Hr%node_ranks.
      rewrite Ho; [done|]. rewrite Hord. intros [Hr' Hz].
      destruct (tier2_cases s r H2 Hr') as [(c' & [_ Hc']%elem_on_node & Hz' & _)|(Hn & _)].
      - rewrite Hz in Hz'. by destruct (nonneg_not_free c' Hc').
      - rewrite Hr in Hn. rewrite Hn in Hc. set_solver. }
    intros j c c' Hc Hc'. rewrite !Heq by done. apply (t2_level _ _ H2 j); [|done..].
    apply elem_on_node in Hc as [<- Hcs]. apply (node_of_range c Hcs).
  - intros r c c' Hr Hn Hz Hc'.
    destruct (tier2_cases s r H2 Hr) as [(c0 & Hc0 & _)|(_ & _ & Hz0)]; [rewrite Hn in Hc0; set_solver|].
    assert (r ∈ order) as Hor by (by apply Hord). destruct (Hrs r Hor) as (c1 & Hc1 & Hz1). simplify_eq.
    destruct (Hlv c c' Hc1 Hc') as [|[_ Hno]]; [done|]. by destruct (Hno r Hor).
Qed.

Lemma remote_spec s :
  tier2 nodes s -> cs <> [] -> exists s', remote shuffle size cs s = (Ok tt, s') /\ fair_row (assignments s').
Proof.
  intros H2 Hne. set (remaining := filter (fun rank => zget (assignments s) rank = Some (-1)) (zrange 0 size)).
  destruct (shuffled_spec remaining s) as (order & g & Hs & Hp).
  assert (forall r, r ∈ order <-> 0 <= r < size /\ zget (assignments s) r = Some (-1)) as Hord.
  { intros r. rewrite Hp. unfold remaining. rewrite list_elem_of_filter, elem_zrange. split; intros []; split; done || lia. }
  destruct (assign_each_spec size cs cs order (RowState g (assignments s) (assignment_counts s)))
    as (s2 & Hf & Hc2 & Hlv); simpl.
  - destruct (t2_counted _ _ H2). by constructor.
  - done.
  - done.
  - rewrite Hp. apply NoDup_filter, NoDup_seqZ.
  - intros r Hr. by apply Hord.
  - exists s2. split; [|by eapply remote_fair].
    unfold remote, unassigned. munfold. fold remaining. by rewrite Hs.
Qed.
End tiers.

Lemma dget_zeros (cs : list Z) c : c ∈ cs -> dget (map (fun c => (c, 0)) cs) c = Some 0.
Proof. induction cs as [|x cs IH]; [set_solver|]. intros Hc. simpl. case_decide; [done|]. apply IH. set_solver. Qed.

Lemma tier1_initial nl gpn nodes cs g :
  0 <= nodes * gpn -> (forall c, c ∈ cs -> 0 <= c) ->
  tier1 nl gpn nodes cs 0 (RowState g (replicate (Z.to_nat (nodes * gpn)) (-1)) (map (fun c => (c, 0)) cs)).
Proof.
  intros Hs Hnn. assert (forall r, 0 <= r < nodes * gpn ->
    zget (replicate (Z.to_nat (nodes * gpn)) (-1)) r = Some (-1)) as Hz.
  { intros r Hr. unfold zget. destruct (Z.ltb_spec r 0); [lia|]. apply lookup_replicate. split; [done|lia]. }
  split; [|intros r Hr; split; [lia|]; intros _; by apply Hz].
  constructor; simpl.
  - unfold zlen. rewrite length_replicate. lia.
  - by apply Forall_forall.
  - intros c Hc. rewrite dget_zeros by done. f_equal. symmetry. apply chosen_none.
    intros r Hr%elem_zrange. rewrite Hz by lia. specialize (Hnn c Hc). intros [=]. lia.
Qed.

(** The choices for a valid row exist and are fair. *)
Lemma assign_row_fair ep_size num_nodes num_physical_experts seed cs :
  1 <= num_nodes -> 0 < ep_size -> (num_nodes | ep_size) -> 1 <= num_physical_experts ->
  (ep_size | num_physical_experts) -> cs <> [] -> (forall c, c ∈ cs -> 0 <= c < num_physical_experts) ->
  exists a, assign_row Random shuffle ep_size num_nodes num_physical_experts seed cs = Ok a /\
    fair_row (num_physical_experts / ep_size) (ep_size / num_nodes) num_nodes cs a.
Proof.
  intros Hk Hs [gpn ->] Hn [nl ->] Hne Hr. assert (1 <= gpn) by nia. assert (1 <= nl) by nia.
  unfold assign_row. rewrite Z.div_mul, Z.div_mul by lia.
  assert (forall c, c ∈ cs -> 0 <= c < num_nodes * gpn * nl) as Hr' by (intros c Hc; specialize (Hr c Hc); lia).
  rewrite (Z.mul_comm gpn num_nodes) in *.
  destruct (group_by_empty (fun c => c / nl) cs (num_nodes * gpn)) as (by_gpu & -> & Hgl & Hgg).
  { intros c Hc. by eapply gpu_of_range. }
  destruct (group_by_empty (fun c => c / (nl * gpn)) cs num_nodes) as (by_node & -> & Hnl & Hng).
  { intros c Hc. by eapply node_of_range. }
  cbn [mbind result_bind]. set (s0 := RowState _ _ _).
  destruct (same_gpu_spec nl gpn num_nodes cs ltac:(done) by_gpu s0) as (s1 & H1 & Ht1); [lia|done| |].
  { apply tier1_initial; [lia|]. intros c Hc. apply (Hr c Hc). }
  destruct (same_node_spec nl gpn num_nodes cs ltac:(done) ltac:(done) ltac:(done) by_node s1) as (s2 & H2 & Ht2); [lia|done| |].
  { by apply tier1_tier2. }
  destruct (remote_spec nl gpn num_nodes cs ltac:(done) ltac:(done) ltac:(done) s2) as (s3 & H3 & Ht3); [done|done|].
  munfold. rewrite H1, H2, H3. by exists (assignments s3).
Qed.

Section shape.
Context (t : int_tensor) (ep_size num_nodes num_physical_experts seed layer_offset : Z).
Hypothesis typed : well_typed t.
Hypothesis offset : 0 <= layer_offset.

Local Abbreviation gpn := (ep_size / num_nodes).
Local Abbreviation nl := (num_physical_experts / ep_size).
Local Abbreviation fair_order r :=
  (build_locality_fair_replica_order Random shuffle t r ep_size num_nodes num_physical_experts seed layer_offset).

Lemma valid_rank r r' :
  valid t r ep_size num_nodes num_physical_experts -> 0 <= r' < ep_size ->
  valid t r' ep_size num_nodes num_physical_experts.
Proof. intros []. by constructor. Qed.

(** The rows the ranks compute for one expert: one set of fair choices, and
    each rank puts its own choice first. *)
Lemma order_row_spec r0 row sd :
  valid t r0 ep_size num_nodes num_physical_experts -> valid_row num_physical_experts row ->
  (dtype_of t = uint8 -> Forall (fun v => 0 <= v) row) ->
  exists a, fair_row nl gpn num_nodes (candidates row) a /\
    forall r, 0 <= r < ep_size -> exists row',
      order_row Random shuffle (dtype_of t) r ep_size num_nodes num_physical_experts sd row = Ok row' /\
      length row' = length row /\ candidates row' ≡ₚ candidates row /\ head (candidates row') = zget a r.
Proof.
  intros Hv (Hne & Hnd & Hrg) Hty. destruct Hv as [_ _ Hr0 Hk Hkd Hn Hnd' _].
  destruct (assign_row_fair ep_size num_nodes num_physical_experts sd (candidates row)) as (a & Ha & Hfair);
    [done|lia|done..| |].
  { intros c. by apply candidates_range. }
  exists a. split; [done|]. intros r Hr. destruct Hfair as [Hlen Hnear _ _].
  destruct (Hnear r) as (c & Hc & Hz & _).
  { destruct Hkd as [g ->]. rewrite Z.div_mul in * by lia. lia. }
  unfold order_row. destruct (Z.leb_spec (zlen (candidates row)) 1) as [H1|H1].
  - exists row. split_and!; [done..|]. rewrite Hz. unfold zlen in H1.
    destruct (candidates row) as [|c0 [|? ?]]; simpl in *; [done| |lia]. set_solver.
  - rewrite Ha. unfold getitem. cbn. rewrite Hz. destruct (index_of_spec _ _ Hc) as (i & Hi & Hh & Hp).
    unfold mbind, result_bind. rewrite Hi. eexists. split; [done|].
    destruct (write_row_candidates (dtype_of t) row _ Hp Hty) as [Hcw Hlw]. rewrite Hcw.
    split_and!; [done|done|]. by rewrite Hh.
Qed.

Lemma rows_zget r l e layer row :
  valid t r ep_size num_nodes num_physical_experts -> zget (rows t) l = Some layer -> zget layer e = Some row ->
  valid_row num_physical_experts row /\ (dtype_of t = uint8 -> Forall (fun v => 0 <= v) row).
Proof.
  unfold zget. intros Hv. do 2 case_match; try done. intros Hl Hr. eapply forall_rows; [apply Hv|done..].
Qed.

Lemma fair_order_rows r :
  valid t r ep_size num_nodes num_physical_experts ->
  exists m, fair_order r = Ok m /\ zlen m = zlen (rows t) /\
    forall l layer, zget (rows t) l = Some layer -> exists layer', zget m l = Some layer' /\
      zlen layer' = zlen layer /\
      forall e row, zget layer e = Some row -> exists row', zget layer' e = Some row' /\
        order_row Random shuffle (dtype_of t) r ep_size num_nodes num_physical_experts
          (row_seed seed layer_offset l e) row = Ok row'.
Proof.
  intros Hv. unfold build_locality_fair_replica_order, strict_integer.
  destruct (Z.ltb_spec layer_offset 0); [lia|]. cbn [mbind result_bind].
  pose proof (validated_replica_map_spec t r ep_size num_nodes num_physical_experts) as Hm.
  destruct (validated_replica_map _ _ _ _ _) as [m|e]; [|by destruct Hm]. destruct Hm as [_ ->]. cbn [mbind result_bind].
  assert (forall l layer, zget (rows t) l = Some layer -> exists layer',
    map_result (fun '(e, row) => order_row Random shuffle (dtype_of t) r ep_size num_nodes num_physical_experts
      (row_seed seed layer_offset l e) row) (enumerate layer) = Ok layer' /\ zlen layer' = zlen layer /\
    forall e row, zget layer e = Some row -> exists row', zget layer' e = Some row' /\
      order_row Random shuffle (dtype_of t) r ep_size num_nodes num_physical_experts
        (row_seed seed layer_offset l e) row = Ok row') as Hlayer.
  { intros l layer Hl.
    assert (forall e row, zget layer e = Some row -> exists row', order_row Random shuffle (dtype_of t) r ep_size
      num_nodes num_physical_experts (row_seed seed layer_offset l e) row = Ok row') as Hrow.
    { intros e row Hr. destruct (rows_zget r l e layer row Hv Hl Hr) as [Hvr Hty].
      destruct (order_row_spec r row (row_seed seed layer_offset l e) Hv Hvr Hty) as (a & _ & Ho).
      destruct (Ho r (v_rank _ _ _ _ _ Hv)) as (row' & ? & _). by exists row'. }
    destruct (map_result_enumerate (fun '(e, row) => order_row Random shuffle (dtype_of t) r ep_size num_nodes
      num_physical_experts (row_seed seed layer_offset l e) row) layer Hrow) as (ys & Hys & Hlen & Hget).
    exists ys. split_and!; [done..|]. intros e row Hr. destruct (Hrow e row Hr) as [row' Hr'].
    exists row'. split; [|done]. by apply (Hget e row). }
  match goal with |- context [map_result ?f _] =>
    destruct (map_result_enumerate f (rows t)) as (m & Hm & Hlen & Hget) end.
  { intros l layer Hl. destruct (Hlayer l layer Hl) as (ys & ? & _). by exists ys. }
  exists m. split_and!; [exact Hm|done|]. intros l layer Hl. destruct (Hlayer l layer Hl) as (ys & Hys & Hlen' & Hr).
  exists ys. split_and!; [|done|done]. by apply (Hget l layer).
Qed.

(** The first replica a rank tries for an expert *)
Definition primary (l e r : Z) : option Z :=
  match fair_order r with
  | Ok m => layer ← zget m l; row ← zget layer e; head (candidates row)
  | Err _ => None
  end.

Lemma primaries_fair r0 l e layer row :
  valid t r0 ep_size num_nodes num_physical_experts -> zget (rows t) l = Some layer -> zget layer e = Some row ->
  exists a, fair_row nl gpn num_nodes (candidates row) a /\
    forall r, 0 <= r < ep_size -> primary l e r = zget a r.
Proof.
  intros Hv Hl Hr. destruct (rows_zget r0 l e layer row Hv Hl Hr) as [Hvr Hty].
  destruct (order_row_spec r0 row (row_seed seed layer_offset l e) Hv Hvr Hty) as (a & Hfair & Ho).
  exists a. split; [done|]. intros r Hrg.
  destruct (fair_order_rows r (valid_rank r0 r Hv Hrg)) as (m & Hm & _ & Hget).
  destruct (Hget l layer Hl) as (layer' & Hl' & _ & Hrow). destruct (Hrow e row Hr) as (row' & Hr' & Hor).
  destruct (Ho r Hrg) as (row'' & Hor' & _ & _ & Hh).
  rewrite Hor in Hor'. injection Hor' as <-.
  unfold primary. rewrite Hm, Hl'. cbn. rewrite Hr'. exact Hh.
Qed.
End shape.
End fair.

(** ** Claims about the fair order *)

Definition permutes {rng} (shuffle : rng -> list Z -> list Z * rng) : Prop :=
  forall g l, (shuffle g l).1 ≡ₚ l.

Lemma distance_tiers r ep_size num_nodes num_physical_experts c :
  let gpn := ep_size / num_nodes in let nl := num_physical_experts / ep_size in
  distance r ep_size num_nodes num_physical_experts c =
    if c / nl =? r then 0 else if c / nl / gpn =? r / gpn then 1 else 2.
Proof. done. Qed.

Lemma fair_row_nearest r ep_size num_nodes num_physical_experts row a c c' :
  1 <= ep_size / num_nodes -> 1 <= num_physical_experts / ep_size ->
  0 <= r < num_nodes * (ep_size / num_nodes) ->
  fair_row (num_physical_experts / ep_size) (ep_size / num_nodes) num_nodes (candidates row) a ->
  zget a r = Some c -> c' ∈ candidates row ->
  distance r ep_size num_nodes num_physical_experts c <= distance r ep_size num_nodes num_physical_experts c'.
Proof.
  intros Hg Hn Hr [_ Hnear _ _] Hz Hc'. destruct (Hnear r Hr) as (c0 & Hc0 & Hz0 & H1 & H2). simplify_eq.
  rewrite !distance_tiers. destruct (Z.eqb_spec (c' / (num_physical_experts / ep_size)) r) as [He|Hne].
  - assert (c ∈ on_gpu (num_physical_experts / ep_size) (candidates row) r) as [-> _]%elem_on_gpu.
    { apply H1. intros E. assert (c' ∈ @nil Z) as Hb by (rewrite <- E; by apply elem_on_gpu). set_solver. }
    by rewrite Z.eqb_refl.
  - destruct (Z.eqb_spec (c' / (num_physical_experts / ep_size) / (ep_size / num_nodes)) (r / (ep_size / num_nodes)))
      as [He|_].
    + assert (c ∈ on_node (num_physical_experts / ep_size) (ep_size / num_nodes) (candidates row)
        (r / (ep_size / num_nodes))) as [Hj _]%elem_on_node.
      { apply H2. intros E. assert (c' ∈ @nil Z) as Hb; [|set_solver]. rewrite <- E. apply elem_on_node.
        by rewrite node_of_gpu by lia. }
      rewrite node_of_gpu in Hj by lia. rewrite Hj, Z.eqb_refl. by destruct (_ =? _).
    + by repeat destruct (_ =? _).
Qed.

Lemma valid_sizes t r ep_size num_nodes num_physical_experts :
  valid t r ep_size num_nodes num_physical_experts ->
  1 <= ep_size / num_nodes /\ 1 <= num_physical_experts / ep_size /\ num_nodes * (ep_size / num_nodes) = ep_size.
Proof.
  intros [_ _ Hr Hk [g ->] Hn [q ->] _]. rewrite !Z.div_mul by nia. nia.
Qed.

Lemma fair_order_ok {rng} (Random : Z -> rng) shuffle t ep_rank ep_size num_nodes num_physical_experts
    seed layer_offset :
  permutes shuffle -> well_typed t -> 0 <= layer_offset ->
  valid t ep_rank ep_size num_nodes num_physical_experts ->
  exists m, build_locality_fair_replica_order Random shuffle t ep_rank ep_size num_nodes num_physical_experts
      seed layer_offset = Ok m /\
    Forall2 (Forall2 (serves (distance ep_rank ep_size num_nodes num_physical_experts))) (rows t) m.
Proof.
  intros Hp Ht Ho Hv. destruct (valid_sizes _ _ _ _ _ Hv) as (Hg1 & Hn1 & Hsz).
  destruct (fair_order_rows Random shuffle Hp t ep_size num_nodes num_physical_experts seed layer_offset Ht Ho
    ep_rank Hv) as (m & -> & Hlen & Hget).
  exists m. split; [done|]. apply Forall2_same_length_lookup_2; [unfold zlen in Hlen; lia|].
  intros i layer layer' Hl Hl'. rewrite <- zget_nat in Hl, Hl'.
  destruct (Hget _ _ Hl) as (layer'' & Hl'' & Hlen' & Hrow). simplify_eq.
  apply Forall2_same_length_lookup_2; [unfold zlen in Hlen'; lia|].
  intros j row row' Hr Hr'. rewrite <- zget_nat in Hr, Hr'.
  destruct (Hrow _ _ Hr) as (row'' & Hr'' & Hor). simplify_eq.
  destruct (rows_zget t ep_size num_nodes num_physical_experts Ht ep_rank _ _ _ _ Hv Hl Hr) as [Hvr Hty].
  destruct (order_row_spec Random shuffle Hp t ep_size num_nodes num_physical_experts layer_offset Ht Ho ep_rank row
    (row_seed seed layer_offset (Z.of_nat i) (Z.of_nat j)) Hv Hvr Hty) as (a & Hfair & Hr0).
  destruct (Hr0 ep_rank (v_rank _ _ _ _ _ Hv)) as (row'' & Hor' & Hlr & Hpr & Hh).
  rewrite Hor in Hor'. injection Hor' as <-. split_and!; [done|done|].
  destruct (candidates row') as [|c rest]; [by apply Permutation_nil_l in Hpr; destruct Hvr|].
  exists c, rest. split; [done|]. intros c' Hc'. eapply fair_row_nearest; [done|done| |done|done|done].
  rewrite Hsz. apply Hv.
Qed.

(** For every map, seed and generator whose shuffles are permutations, the
    fair order either refuses the map with a ValueError or TypeError, exactly
    when it is not valid or the layer offset is negative, or gives a map of the
    same shape in which every row keeps its replicas and starts with a nearest
    one: on the rank's own device if there is one, else on its node if there is
    one. *)
Theorem fair_order_correct {rng} (Random : Z -> rng) shuffle t ep_rank ep_size num_nodes num_physical_experts
    seed layer_offset :
  permutes shuffle -> well_typed t ->
  match build_locality_fair_replica_order Random shuffle t ep_rank ep_size num_nodes num_physical_experts
      seed layer_offset with
  | Err e => (exn_type e = ValueError \/ exn_type e = TypeError) /\
      ~ (0 <= layer_offset /\ valid t ep_rank ep_size num_nodes num_physical_experts)
  | Ok m =>
      valid t ep_rank ep_size num_nodes num_physical_experts /\
      Forall2 (Forall2 (serves (distance ep_rank ep_size num_nodes num_physical_experts))) (rows t) m
  end.
Proof.
  intros Hp Ht. destruct (decide (0 <= layer_offset)) as [Ho|Ho].
  2:{ unfold build_locality_fair_replica_order, strict_integer. destruct (Z.ltb_spec layer_offset 0); [|lia].
      cbn. split; [by left|]. lia. }
  pose proof (validated_replica_map_spec t ep_rank ep_size num_nodes num_physical_experts) as Hv.
  destruct (validated_replica_map t ep_rank ep_size num_nodes num_physical_experts) as [m0|e] eqn:E.
  2:{ unfold build_locality_fair_replica_order, strict_integer. destruct (Z.ltb_spec layer_offset 0); [lia|].
      cbn. rewrite E. cbn. destruct Hv as [He Hv]. split; [done|]. tauto. }
  destruct Hv as [Hv _].
  destruct (fair_order_ok Random shuffle t ep_rank ep_size num_nodes num_physical_experts seed layer_offset Hp Ht Ho Hv)
    as (m & -> & Hm). done.
Qed.

(** C33: the choices the ranks make for one expert, each in its own call with
    the same seed, are spread evenly: every rank has a first replica; of two
    replicas on one node, the ranks of the node choose one at most once more
    often than the other; and a replica chosen by a rank whose node has none is
    chosen by at most one rank more than any other replica. *)
Theorem fair_order_spread {rng} (Random : Z -> rng) shuffle t ep_size num_nodes num_physical_experts
    seed layer_offset l e layer row :
  permutes shuffle -> well_typed t -> 0 <= layer_offset ->
  valid t 0 ep_size num_nodes num_physical_experts ->
  zget (rows t) l = Some layer -> zget layer e = Some row ->
  let first := primary Random shuffle t ep_size num_nodes num_physical_experts seed layer_offset l e in
  let gpn := ep_size / num_nodes in
  let node c := c / (num_physical_experts / ep_size * gpn) in
  (forall r, 0 <= r < ep_size -> exists c, first r = Some c /\ c ∈ candidates row) /\
  (forall c c', c ∈ candidates row -> c' ∈ candidates row -> node c = node c' ->
     chosen first (zrange (node c * gpn) gpn) c <= chosen first (zrange (node c * gpn) gpn) c' + 1) /\
  (forall r c c', 0 <= r < ep_size -> (forall d, d ∈ candidates row -> node d <> r / gpn) ->
     first r = Some c -> c' ∈ candidates row ->
     chosen first (zrange 0 ep_size) c <= chosen first (zrange 0 ep_size) c' + 1).
Proof.
  intros Hp Ht Ho Hv Hl Hr first gpn node. destruct (valid_sizes _ _ _ _ _ Hv) as (Hg1 & Hn1 & Hsz).
  destruct (primaries_fair Random shuffle Hp t ep_size num_nodes num_physical_experts seed layer_offset Ht Ho
    0 l e layer row Hv Hl Hr) as (a & [Hlen Hnear Hnode Hrem] & Ha).
  rewrite Hsz in *. assert (forall s n c, 0 <= s -> s + n <= ep_size ->
    chosen first (zrange s n) c = chosen (zget a) (zrange s n) c) as Hch.
  { intros s n c Hs Hsn. apply chosen_ext. intros r Hrg%elem_zrange. unfold first. rewrite Ha by lia. done. }
  split_and!.
  - intros r Hrg. destruct (Hnear r Hrg) as (c & Hc & Hz & _). exists c. unfold first. by rewrite Ha.
  - intros c c' Hc Hc' Heq.
    assert (0 <= node c < num_nodes) as Hnc.
    { pose proof (rows_zget t ep_size num_nodes num_physical_experts Ht 0 _ _ _ _ Hv Hl Hr) as [(_ & _ & Hrg) _].
      pose proof (candidates_range _ _ _ Hrg Hc) as Hcr. unfold node. split; [apply Z.div_pos; nia|].
      apply Z.div_lt_upper_bound; [nia|]. destruct Hv as [_ _ _ _ _ _ [q ->] _].
      rewrite Z.div_mul in * by lia. fold gpn in Hsz. nia. }
    rewrite !Hch by nia. apply (Hnode (node c)); apply elem_on_node; [done|by rewrite Heq].
  - intros r c c' Hrg Hno Hf Hc'. rewrite !Hch by lia. unfold first in Hf. rewrite Ha in Hf by done.
    apply (Hrem r); [done| |done|done]. fold gpn.
    destruct (on_node _ _ _ _) as [|d ds] eqn:E; [done|].
    assert (d ∈ d :: ds) as Hd by set_solver. rewrite <- E in Hd. apply elem_on_node in Hd as [Hd1 Hd2].
    by destruct (Hno d Hd2).
Qed.

(** ** Witnesses: two nodes of two devices with two experts each *)

Definition example_map : int_tensor := Tensor 3 int64 [[[0; 3; 6]; [5; -1; -1]; [1; 2; -1]]].
Definition example_shuffle (g : Z) (l : list Z) : list Z * Z := (reverse l, g + 1).

Lemma example_shuffle_permutes : permutes example_shuffle.
Proof. intros g l. apply reverse_Permutation. Qed.

Lemma validated_valid t r s k n m : validated_replica_map t r s k n = Ok m -> valid t r s k n.
Proof. intros E. pose proof (validated_replica_map_spec t r s k n) as H. rewrite E in H. apply H. Qed.

Lemma nearest_order_correct_witness :
  build_nearest_replica_order example_map 1 4 2 8 = Ok [[[3; 0; 6]; [5; -1; -1]; [2; 1; -1]]] /\
  Forall2 (Forall2 (nearest_first (distance 1 4 2 8))) (rows example_map) [[[3; 0; 6]; [5; -1; -1]; [2; 1; -1]]].
Proof.
  split; [reflexivity|].
  apply (nearest_order_correct example_map 1 4 2 8). discriminate.
Defined.

Lemma fair_order_correct_witness :
  exists m, build_locality_fair_replica_order (fun z => z) example_shuffle example_map 2 4 2 8 42 0 = Ok m /\
    Forall2 (Forall2 (serves (distance 2 4 2 8))) (rows example_map) m.
Proof.
  pose proof (fair_order_correct (fun z : Z => z) example_shuffle example_map 2 4 2 8 42 0
    example_shuffle_permutes ltac:(discriminate)) as H.
  destruct (build_locality_fair_replica_order _ _ _ _ _ _ _ _ _) as [m|e] eqn:E.
  - exists m. split; [reflexivity|apply H].
  - vm_compute in E. discriminate.
Defined.

Lemma fair_order_spread_witness :
  let first := primary (fun z : Z => z) example_shuffle example_map 4 2 8 42 0 0 2 in
  map first [0; 1; 2; 3] = [Some 1; Some 2; Some 1; Some 2] /\
  chosen first (zrange 0 4) 1 <= chosen first (zrange 0 4) 2 + 1.
Proof.
  split; [vm_compute; reflexivity|].
  refine (proj2 (proj2 (fair_order_spread (fun z : Z => z) example_shuffle example_map 4 2 8 42 0 0 2 _ _
    _ _ _ _ _ _)) 2 1 2 _ _ _ _).
  - apply example_shuffle_permutes.
  - discriminate.
  - lia.
  - eapply validated_valid. vm_compute. reflexivity.
  - reflexivity.
  - reflexivity.
  - lia.
  - intros d Hd. repeat (apply elem_of_cons in Hd as [->|Hd]; [vm_compute; discriminate|]). by apply elem_of_nil in Hd.
  - vm_compute. reflexivity.
  - vm_compute. right. left.
Defined.
