(* ===== verification/FeatureConfig.v ===== *)
(** * The feature configuration of the plugin

    Models src/vllm_hcu/patch/config.py: the switches of the plugin, kept
    under [additional_config['hcu']] of vLLM's configuration so that they
    survive its serialization, and copied to the parallel configuration for
    the expert-placement code.

    A Python value is one of the shapes the code tells apart.  Mappings have
    string keys; [mutable] tells [dict] from a read-only mapping.  Objects are
    their attributes.  A container that is changed in place is returned as a
    new value.  The deprecation warning of the legacy backend name is not
    modelled. *)

From S2P Require Import Prelude PyString.
Local Open Scope Z_scope.

Module FeatureConfig.

#[warnings="-register-all"]
Inductive value :=
  | VNone
  | VBool (b : bool)
  | VInt (z : Z)
  | VStr (s : string)
  | VMap (mutable : bool) (items : dict string value)
  | VConfig (fields : dict string value)
  | VObj (attributes : dict string value)
  | VList (elements : list value)
  | VOther (type_name : string).

(** [HcuFeatureConfig]: its fields by name *)
Definition HcuFeatureConfig : Type := dict string value.

(** ** Tables *)

Definition FEATURE_FIELDS : list string :=
  ["enable_lightly_cp"; "enable_lightly_cplb"; "enable_custom_sp"; "enable_multi_layers_mtp";
   "enable_dsa_cache_layer_split"; "deepep_auto"; "fused_qwen3_rms_rope"; "qwen4_exp_hc_sp"; "k3_sp_moe";
   "glm53_kda_cp_head_shard"; "glm53_pcp_mtp_sync"; "dp_int8_allgather"; "moe_backend";
   "hcu_flash_attn_mode"; "hcu_gdn_prefill_backend"; "expert_map_path"; "expert_map_record_path";
   "eplb_disable_rearrange"; "eplb_static_dispatch_policy"].

Definition BOOLEAN_FIELDS : list string :=
  ["enable_lightly_cp"; "enable_lightly_cplb"; "enable_custom_sp"; "enable_multi_layers_mtp";
   "enable_dsa_cache_layer_split"; "deepep_auto"; "fused_qwen3_rms_rope"; "qwen4_exp_hc_sp"; "k3_sp_moe";
   "dp_int8_allgather"].

Definition SUPPORTED_MOE_BACKENDS : list string := ["auto"; "deep_gemm"].
Definition LEGACY_DEEP_GEMM_BACKEND : string := "dpsk_deep_gemm".
Definition DEEP_GEMM_BACKEND : string := "deep_gemm".
Definition SUPPORTED_FLASH_ATTN_MODES : list string := ["classic"; "cutlass"; "varlen"].
Definition HCU_GDN_PREFILL_BACKENDS : list string := ["hcu-boltops"; "hcu-aiter"].
Definition SUPPORTED_EPLB_STATIC_DISPATCH_POLICIES : list string := ["nearest"; "locality_fair"; "token_hash"].
Definition EPLB_SIDECAR_FIELDS : list string :=
  ["expert_map_path"; "expert_map_record_path"; "eplb_disable_rearrange"; "eplb_static_dispatch_policy"].

(** The defaults of the dataclass, in the order of its fields *)
Definition defaults : HcuFeatureConfig :=
  [("enable_lightly_cp", VBool false); ("enable_lightly_cplb", VBool false); ("enable_custom_sp", VBool false);
   ("enable_multi_layers_mtp", VBool false); ("enable_dsa_cache_layer_split", VBool false);
   ("deepep_auto", VBool false); ("fused_qwen3_rms_rope", VBool true); ("qwen4_exp_hc_sp", VBool true);
   ("k3_sp_moe", VBool false); ("glm53_kda_cp_head_shard", VNone); ("glm53_pcp_mtp_sync", VNone);
   ("dp_int8_allgather", VBool false); ("moe_backend", VStr "auto"); ("hcu_flash_attn_mode", VNone);
   ("hcu_gdn_prefill_backend", VNone); ("expert_map_path", VNone); ("expert_map_record_path", VNone);
   ("eplb_disable_rearrange", VBool false); ("eplb_static_dispatch_policy", VStr "nearest")].

(** [getattr(self, name)] *)
Definition field (c : HcuFeatureConfig) (name : string) : value := default VNone (dget c name).

(** ** Construction *)

Definition type_error {A} (name : string) : result A := Err (Exn TypeError name).
Definition value_error {A} (name : string) : result A := Err (Exn ValueError name).

Definition is_bool (v : value) : bool := match v with VBool _ => true | _ => false end.
Definition is_none (v : value) : bool := match v with VNone => true | _ => false end.
Definition truth (v : value) : bool := match v with VBool b => b | _ => false end.

(** [value in strings] *)
Definition one_of (strings : list string) (v : value) : bool :=
  match v with VStr s => bool_decide (s ∈ strings) | _ => false end.

Definition normalize_hcu_moe_backend (v : value) : value :=
  match v with
  | VStr s => if decide (s = LEGACY_DEEP_GEMM_BACKEND) then VStr DEEP_GEMM_BACKEND else v
  | _ => v
  end.

(** Checks of single fields *)
Definition check_optional_bool (c : HcuFeatureConfig) (name : string) : result unit :=
  if is_none (field c name) || is_bool (field c name) then Ok tt else type_error name.

Definition check_bool (c : HcuFeatureConfig) (name : string) : result unit :=
  if is_bool (field c name) then Ok tt else type_error name.

Definition check_choice (c : HcuFeatureConfig) (name : string) (choices : list string) : result unit :=
  match field c name with
  | VStr s => if bool_decide (s ∈ choices) then Ok tt else value_error name
  | _ => type_error name
  end.

Definition check_path (c : HcuFeatureConfig) (name : string) : result unit :=
  match field c name with
  | VNone => Ok tt
  | VStr s => if decide (strip s = "") then value_error name else Ok tt
  | _ => type_error name
  end.

Fixpoint check_each (check : string -> result unit) (names : list string) : result unit :=
  match names with
  | [] => Ok tt
  | name :: names' => check name ≫= fun _ => check_each check names'
  end.

(** [__post_init__]; [moe_backend] is the only field it changes. *)
Definition post_init (c : HcuFeatureConfig) : result HcuFeatureConfig :=
  check_each (check_optional_bool c) ["glm53_kda_cp_head_shard"; "glm53_pcp_mtp_sync"] ;;
  check_each (check_bool c) BOOLEAN_FIELDS ;;
  let c' := dset c "moe_backend" (normalize_hcu_moe_backend (field c "moe_backend")) in
  check_choice c' "moe_backend" SUPPORTED_MOE_BACKENDS ;;
  (if is_none (field c' "hcu_flash_attn_mode") then Ok tt
   else check_choice c' "hcu_flash_attn_mode" SUPPORTED_FLASH_ATTN_MODES) ;;
  (if is_none (field c' "hcu_gdn_prefill_backend") ||
      one_of HCU_GDN_PREFILL_BACKENDS (field c' "hcu_gdn_prefill_backend") then Ok tt
   else value_error "hcu_gdn_prefill_backend") ;;
  (if truth (field c' "enable_lightly_cplb") && negb (truth (field c' "enable_lightly_cp"))
   then value_error "enable_lightly_cplb" else Ok tt) ;;
  check_each (check_path c') ["expert_map_path"; "expert_map_record_path"] ;;
  (if negb (is_none (field c' "expert_map_path")) && negb (is_none (field c' "expert_map_record_path"))
   then value_error "expert_map_path" else Ok tt) ;;
  check_bool c' "eplb_disable_rearrange" ;;
  check_choice c' "eplb_static_dispatch_policy" SUPPORTED_EPLB_STATIC_DISPATCH_POLICIES ;;
  Ok c'.

(** Keyword arguments over the values of [base] *)
Definition override (base kwargs : dict string value) : dict string value :=
  foldl (fun c '(name, v) => dset c name v) base kwargs.

Definition unknown_fields (names : list string) : bool := existsb (fun n => negb (bool_decide (n ∈ FEATURE_FIELDS))) names.

(** [cls.from_mapping(values)] *)
Definition from_mapping (values : value) : result HcuFeatureConfig :=
  match values with
  | VNone => post_init defaults
  | VMap _ items =>
      if unknown_fields (dkeys items) then value_error "unknown HCU config field(s)"
      else post_init (override defaults items)
  | _ => type_error "additional_config['hcu']"
  end.

Definition with_updates (c : HcuFeatureConfig) (updates : dict string value) : result HcuFeatureConfig :=
  if unknown_fields (dkeys updates) then value_error "unknown HCU config field(s)"
  else post_init (override c updates).

Definition to_dict (c : HcuFeatureConfig) : value := VMap true c.

(** ** The sidecar *)

Definition config_from_payload (payload : value) : result HcuFeatureConfig :=
  match payload with
  | VNone => post_init defaults
  | VConfig c => Ok c
  | VMap _ _ => from_mapping payload
  | VObj attributes =>
      let present := omap (fun n => (fun v => (n, v)) <$> dget attributes n) FEATURE_FIELDS in
      match present with
      | [] => type_error "HCU config payload"
      | _ => from_mapping (VMap true present)
      end
  | _ => type_error "HCU config payload"
  end.

(** [additional.get("hcu")] after the checks on [additional] *)
Definition hcu_of (additional : value) : result value :=
  match additional with
  | VNone => Ok VNone
  | VMap _ items => Ok (default VNone (dget items "hcu"))
  | _ => type_error "vllm_config.additional_config"
  end.

Definition read_additional_config (container : value) : result value :=
  match container with
  | VNone | VConfig _ => Ok container
  | VMap _ items =>
      if negb (unknown_fields (dkeys items)) && negb (dmem items "hcu") then Ok container
      else if dmem items "hcu" && negb (dmem items "additional_config")
      then Ok (default VNone (dget items "hcu"))
      else hcu_of (default VNone (dget items "additional_config"))
  | VObj attributes =>
      match dget attributes "additional_config" with
      | Some additional => hcu_of additional
      | None => Ok container
      end
  | _ => Ok container
  end.

Definition get_hcu_config (vllm_config : value) : result HcuFeatureConfig :=
  read_additional_config vllm_config ≫= config_from_payload.

(** A [config] argument: an [HcuFeatureConfig] or a mapping *)
Definition normalized (config : value) : result HcuFeatureConfig :=
  match config with VConfig c => Ok c | _ => from_mapping config end.

(** [write_hcu_config]: the configuration and the changed mapping *)
Definition write_hcu_config (additional_config config : value) : result (HcuFeatureConfig * value) :=
  match additional_config with
  | VMap true items =>
      c ← normalized config;
      Ok (c, VMap true (dset items "hcu" (to_dict c)))
  | _ => type_error "additional_config must be a mutable mapping"
  end.

(** The additional-config mapping of a configuration, made writable *)
Definition writable (additional : option value) : result value :=
  match default VNone additional with
  | VNone => Ok (VMap true [])
  | VMap _ items => Ok (VMap true items)
  | _ => type_error "additional_config must be a mapping or None"
  end.

Definition set_hcu_config (vllm_config config : value) (updates : dict string value)
    : result (HcuFeatureConfig * value) :=
  base ← match config with VNone => get_hcu_config vllm_config | _ => normalized config end;
  c ← match updates with [] => Ok base | _ => with_updates base updates end;
  match vllm_config with
  | VMap true items =>
      if dmem items "hcu" && negb (dmem items "additional_config")
      then '(_, items') ← write_hcu_config vllm_config (VConfig c); Ok (c, items')
      else
        additional ← writable (dget items "additional_config");
        '(_, additional') ← write_hcu_config additional (VConfig c);
        Ok (c, VMap true (dset items "additional_config" additional'))
  | VObj attributes =>
      match dget attributes "additional_config" with
      | None => type_error "vllm_config must be a mutable mapping or expose additional_config"
      | Some a =>
          additional ← writable (Some a);
          '(_, additional') ← write_hcu_config additional (VConfig c);
          Ok (c, VObj (dset attributes "additional_config" additional'))
      end
  | _ => type_error "vllm_config must be a mutable mapping or expose additional_config"
  end.

(** ** The copy on the parallel configuration *)

Definition set_all (target : dict string value) (c : HcuFeatureConfig) (names : list string) : dict string value :=
  foldl (fun t name => dset t ("_vllm_hcu_" +:+ name) (field c name)) target names.

Definition bind_parallel (parallel_config : value) (c : HcuFeatureConfig) : result value :=
  match parallel_config with
  | VMap true items => Ok (VMap true (set_all items c EPLB_SIDECAR_FIELDS))
  | VObj attributes => Ok (VObj (set_all attributes c EPLB_SIDECAR_FIELDS))
  | _ => Err (Exn AttributeError "_vllm_hcu_expert_map_path")
  end.

(** [bind_hcu_eplb_config]: the configuration with its changed
    [parallel_config] *)
Definition bind_hcu_eplb_config (vllm_config : value) : result value :=
  let parallel :=
    match vllm_config with
    | VMap _ items | VObj items => default VNone (dget items "parallel_config")
    | _ => VNone
    end in
  match parallel with
  | VNone => Ok vllm_config
  | _ =>
      c ← get_hcu_config vllm_config;
      parallel' ← bind_parallel parallel c;
      match vllm_config with
      | VMap m items => Ok (VMap m (dset items "parallel_config" parallel'))
      | VObj attributes => Ok (VObj (dset attributes "parallel_config" parallel'))
      | _ => Ok vllm_config
      end
  end.

(** [pop_hcu_feature_kwargs]: the arguments are popped before the merge can
    fail. *)
Definition pop_hcu_feature_kwargs (base : value) : M (dict string value) HcuFeatureConfig :=
  c ← lift (match base with VNone => post_init defaults | _ => normalized base end);
  kwargs ← get_state;
  put_state (foldl ddel kwargs FEATURE_FIELDS) ;;
  match omap (fun n => (fun v => (n, v)) <$> dget kwargs n) FEATURE_FIELDS with
  | [] => mret c
  | updates => lift (with_updates c updates)
  end.

End FeatureConfig.
