(* ===== verification/FeatureConfigCorrect.v ===== *)
(** * Correctness of the feature configuration

    Every configuration that can be built is well formed, what is stored in a
    configuration of vLLM is what is read back from it, in its object and its
    dictionary form, and the expert-placement fields reach the parallel
    configuration. *)

From S2P Require Import Prelude PyString FeatureConfig.
Import FeatureConfig.

(** ** Well-formed configurations *)

Definition bool_field (c : HcuFeatureConfig) (n : string) : Prop := exists b, field c n = VBool b.
Definition string_in (c : HcuFeatureConfig) (n : string) (choices : list string) : Prop :=
  exists s, field c n = VStr s /\ s ∈ choices.
Definition path_field (c : HcuFeatureConfig) (n : string) : Prop :=
  field c n = VNone \/ exists s, field c n = VStr s /\ strip s <> "".

(** What the consumers of a configuration rely on *)
Record well_formed (c : HcuFeatureConfig) : Prop := WellFormed {
  wf_keys : dkeys c = FEATURE_FIELDS;
  wf_optional : Forall (fun n => field c n = VNone \/ bool_field c n) ["glm53_kda_cp_head_shard"; "glm53_pcp_mtp_sync"];
  wf_bool : Forall (bool_field c) BOOLEAN_FIELDS;
  wf_moe : string_in c "moe_backend" SUPPORTED_MOE_BACKENDS;
  wf_flash : field c "hcu_flash_attn_mode" = VNone \/ string_in c "hcu_flash_attn_mode" SUPPORTED_FLASH_ATTN_MODES;
  wf_gdn : field c "hcu_gdn_prefill_backend" = VNone \/ string_in c "hcu_gdn_prefill_backend" HCU_GDN_PREFILL_BACKENDS;
  wf_cplb : field c "enable_lightly_cplb" = VBool true -> field c "enable_lightly_cp" = VBool true;
  wf_paths : Forall (path_field c) ["expert_map_path"; "expert_map_record_path"];
  wf_exclusive : field c "expert_map_path" = VNone \/ field c "expert_map_record_path" = VNone;
  wf_rearrange : bool_field c "eplb_disable_rearrange";
  wf_policy : string_in c "eplb_static_dispatch_policy" SUPPORTED_EPLB_STATIC_DISPATCH_POLICIES
}.

(** The fields after the legacy backend name is replaced *)
Definition canonical (c : HcuFeatureConfig) : HcuFeatureConfig :=
  dset c "moe_backend" (normalize_hcu_moe_backend (field c "moe_backend")).

Lemma field_dset c n v n' : field (dset c n v) n' = if decide (n = n') then v else field c n'.
Proof. unfold field. rewrite dget_dset. by case_decide. Qed.

(** [decides r P]: the check ends without an exception exactly when [P]. *)
Definition decides (r : result unit) (P : Prop) : Prop :=
  match r with
  | Ok _ => P
  | Err e => (exn_type e = TypeError \/ exn_type e = ValueError) /\ ~ P
  end.

Lemma decides_bind {A} (r : result unit) (P : Prop) (k : result A) (Q : result A -> Prop) :
  decides r P -> (P -> Q k) -> (forall e, exn_type e = TypeError \/ exn_type e = ValueError -> ~ P -> Q (Err e)) ->
  Q (r ≫= fun _ => k).
Proof. unfold decides. destruct r as [u|e]; cbn; [auto|]. intros [??]; auto. Qed.

Lemma check_each_decides check (P : string -> Prop) names :
  (forall n, decides (check n) (P n)) -> decides (check_each check names) (Forall P names).
Proof.
  intros H. induction names as [|n names IH]; cbn [check_each]; [constructor|].
  apply (decides_bind _ (P n)); [done| |].
  - intros Hn. unfold decides in *. destruct (check_each _ _); [by constructor|]. rewrite Forall_cons. tauto.
  - intros e He Hn. split; [done|]. rewrite Forall_cons. tauto.
Qed.

Lemma check_bool_decides c n : decides (check_bool c n) (bool_field c n).
Proof. unfold check_bool, bool_field, decides. destruct (field c n); cbn; eauto; split; auto; by intros [? [=]]. Qed.

Lemma check_optional_decides c n : decides (check_optional_bool c n) (field c n = VNone \/ bool_field c n).
Proof.
  unfold check_optional_bool, bool_field, decides. destruct (field c n); cbn; eauto; split; auto; by intros [|[? [=]]].
Qed.

Lemma check_choice_decides c n choices : decides (check_choice c n choices) (string_in c n choices).
Proof.
  unfold check_choice, string_in, decides. destruct (field c n); cbn;
    try (split; [by auto|by intros (?&[=]&_)]).
  case_bool_decide; [eauto|]. split; [by auto|]. by intros (? & [= <-] & ?).
Qed.

Lemma check_path_decides c n : decides (check_path c n) (path_field c n).
Proof.
  unfold check_path, path_field, decides. destruct (field c n); cbn; auto;
    try (split; [by auto|intros [[=]|(?&[=]&_)]]).
  case_decide; [split; [by auto|]; intros [[=]|(? & [= <-] & ?)]; done|]. right. eauto.
Qed.

Lemma check_if_decides (b : bool) (P : Prop) n :
  (b = true <-> P) -> decides (if b then Ok tt else value_error n) P.
Proof. intros H. destruct b; cbn; [by apply H|]. split; [by auto|]. rewrite <- H. done. Qed.

Lemma flash_decides c n choices :
  decides (if is_none (field c n) then Ok tt else check_choice c n choices)
    (field c n = VNone \/ string_in c n choices).
Proof.
  pose proof (check_choice_decides c n choices) as H. unfold decides in *.
  destruct (field c n) eqn:E; cbn; [by left|..];
    (destruct (check_choice c n choices); [by right|]; split; [tauto|]; intros [[=]|]; tauto).
Qed.

Lemma one_of_spec c n choices :
  is_none (field c n) || one_of choices (field c n) = true <-> field c n = VNone \/ string_in c n choices.
Proof.
  unfold string_in. destruct (field c n); cbn; rewrite ?bool_decide_eq_true; naive_solver.
Qed.

Lemma dkeys_canonical c : dkeys c = FEATURE_FIELDS -> dkeys (canonical c) = FEATURE_FIELDS.
Proof.
  intros Hk. unfold canonical. rewrite dkeys_dset_in; [done|]. rewrite Hk. vm_compute. do 12 right. left.
Qed.

Lemma field_canonical c n : n <> "moe_backend" -> field (canonical c) n = field c n.
Proof. intros Hn. unfold canonical. by rewrite field_dset, decide_False by done. Qed.

Lemma Forall_canonical c (P : value -> Prop) names :
  "moe_backend" ∉ names -> Forall (fun n => P (field c n)) names <-> Forall (fun n => P (field (canonical c) n)) names.
Proof.
  intros Hn. rewrite !Forall_forall. split; intros H n Hi; specialize (H n Hi); rewrite field_canonical in *; set_solver.
Qed.

(** The constructor accepts exactly the fields that are well formed once the
    legacy backend name is replaced. *)
Lemma post_init_spec c :
  dkeys c = FEATURE_FIELDS ->
  match post_init c with
  | Ok c' => c' = canonical c /\ well_formed c'
  | Err e => (exn_type e = TypeError \/ exn_type e = ValueError) /\ ~ well_formed (canonical c)
  end.
Proof.
  intros Hk. unfold post_init. fold (canonical c). pose proof (dkeys_canonical c Hk) as Hk'.
  set (Q := fun r : result HcuFeatureConfig => match r with
    | Ok c' => c' = canonical c /\ well_formed c'
    | Err e => (exn_type e = TypeError \/ exn_type e = ValueError) /\ ~ well_formed (canonical c) end).
  match goal with |- match ?r with _ => _ end => change (Q r) end.
  eapply decides_bind; [apply check_each_decides, check_optional_decides| |].
  2:{ intros e He Hn. split; [done|]. intros H%wf_optional. apply Hn.
      by apply (Forall_canonical c (fun v => v = VNone \/ exists b, v = VBool b)); [vm_compute; set_solver|]. }
  intros H1. apply (Forall_canonical c (fun v => v = VNone \/ exists b, v = VBool b)) in H1; [|vm_compute; set_solver].
  eapply decides_bind; [apply check_each_decides, check_bool_decides| |].
  2:{ intros e He Hn. split; [done|]. intros H%wf_bool. apply Hn.
      by apply (Forall_canonical c (fun v => exists b, v = VBool b)); [vm_compute; set_solver|]. }
  intros H2. apply (Forall_canonical c (fun v => exists b, v = VBool b)) in H2; [|vm_compute; set_solver].
  cbv zeta. eapply decides_bind; [apply check_choice_decides| |by intros e He Hn; split; [done|]; intros []].
  intros H3. eapply decides_bind; [apply flash_decides| |by intros e He Hn; split; [done|]; intros []].
  intros H4. eapply decides_bind; [apply check_if_decides, one_of_spec| |by intros e He Hn; split; [done|]; intros []].
  intros H5.
  eapply (decides_bind _ (field (canonical c) "enable_lightly_cplb" = VBool true ->
    field (canonical c) "enable_lightly_cp" = VBool true)); [| |by intros e He Hn; split; [done|]; intros []].
  { rewrite Forall_forall in H2.
    destruct (H2 "enable_lightly_cplb") as [b1 E1]; [vm_compute; set_solver|].
    destruct (H2 "enable_lightly_cp") as [b2 E2]; [vm_compute; set_solver|]. cbv beta in E1, E2.
    rewrite E1, E2. destruct b1, b2; cbn; try done. split; [by auto|]. intros Hb. by specialize (Hb eq_refl). }
  intros H6. eapply decides_bind; [apply check_each_decides, check_path_decides| |
    by intros e He Hn; split; [done|]; intros []].
  intros H7. eapply (decides_bind _ (field (canonical c) "expert_map_path" = VNone \/
    field (canonical c) "expert_map_record_path" = VNone)); [| |by intros e He Hn; split; [done|]; intros []].
  { destruct (field (canonical c) "expert_map_path"); cbn; [by left|..];
      (destruct (field (canonical c) "expert_map_record_path"); cbn; [by right|..]);
      (split; [by auto|by intros []]). }
  intros H8. eapply decides_bind; [apply check_bool_decides| |by intros e He Hn; split; [done|]; intros []].
  intros H9. eapply decides_bind; [apply check_choice_decides| |by intros e He Hn; split; [done|]; intros []].
  intros H10. split; [done|]. by constructor.
Qed.

(** ** Updates *)

Lemma override_cons k v base kwargs :
  k ∉ dkeys kwargs -> override ((k, v) :: base) kwargs = (k, v) :: override base kwargs.
Proof.
  unfold override. revert base. induction kwargs as [|[k' v'] kwargs IH]; intros base Hk; [done|]. simpl.
  rewrite decide_False by set_solver. apply IH. set_solver.
Qed.

(** Passing every field overrides everything. *)
Lemma override_all base kwargs :
  NoDup (dkeys kwargs) -> dkeys base = dkeys kwargs -> override base kwargs = kwargs.
Proof.
  revert base. induction kwargs as [|[k v] kwargs IH]; intros base Hnd Hk.
  - by destruct base.
  - destruct base as [|[k' v'] base]; [done|]. simpl in Hk. injection Hk as -> Hk. apply NoDup_cons in Hnd as [Hn Hnd].
    unfold override. simpl. rewrite decide_True by done. fold (override ((k, v) :: base) kwargs).
    rewrite override_cons by done. f_equal. by apply IH.
Qed.

Lemma unknown_fields_spec names : unknown_fields names = false <-> names ⊆ FEATURE_FIELDS.
Proof.
  unfold unknown_fields. induction names as [|n names IH]; cbn [existsb]; [split; [set_solver|done]|].
  rewrite orb_false_iff, negb_false_iff, bool_decide_eq_true, IH. set_solver.
Qed.

Lemma dkeys_override base kwargs :
  dkeys kwargs ⊆ dkeys base -> dkeys (override base kwargs) = dkeys base.
Proof.
  unfold override. revert base. induction kwargs as [|[k v] kwargs IH]; intros base Hs; [done|]. cbn [foldl].
  assert (k ∈ dkeys base) as Hk by (apply Hs; left).
  rewrite IH; [by apply dkeys_dset_in|]. rewrite dkeys_dset_in by done. intros x Hx. apply Hs. by right.
Qed.

Lemma FEATURE_FIELDS_NoDup : NoDup FEATURE_FIELDS.
Proof. apply (bool_decide_unpack _). vm_compute. exact I. Qed.

Lemma field_override base kwargs n :
  NoDup (dkeys kwargs) -> field (override base kwargs) n = default (field base n) (dget kwargs n).
Proof.
  unfold override. revert base. induction kwargs as [|[k v] kwargs IH]; intros base Hnd; [done|].
  apply NoDup_cons in Hnd as [Hn Hnd]. cbn [foldl dget]. rewrite IH, field_dset by done.
  case_decide; [|done]. subst. apply dget_None in Hn. simpl in Hn. by rewrite Hn.
Qed.

(** A well-formed configuration survives its dictionary form. *)
Lemma well_formed_canonical c : well_formed c -> canonical c = c.
Proof.
  intros Hw. destruct (wf_moe _ Hw) as (s & Hs & Hin). unfold canonical. rewrite Hs.
  unfold normalize_hcu_moe_backend. rewrite decide_False by (intros ->; vm_compute in Hin; set_solver).
  unfold field in Hs. destruct (dget c "moe_backend") as [v|] eqn:E; [|done]. simpl in Hs. subst v.
  clear -E. induction c as [|[k v] c IH]; [done|]. cbn [dget dset] in *. case_decide; simplify_eq; [done|].
  f_equal. auto.
Qed.

Lemma post_init_well_formed c : well_formed c -> post_init c = Ok c.
Proof.
  intros Hw. pose proof (post_init_spec c (wf_keys _ Hw)) as H. pose proof (well_formed_canonical c Hw) as Hc.
  destruct (post_init c) as [c'|e]; [|rewrite Hc in H; tauto]. destruct H as [-> _]. by rewrite Hc.
Qed.

Lemma from_mapping_to_dict c m : well_formed c -> from_mapping (VMap m c) = Ok c.
Proof.
  intros Hw. cbn [from_mapping]. rewrite (wf_keys _ Hw).
  replace (unknown_fields FEATURE_FIELDS) with false by (vm_compute; reflexivity).
  rewrite override_all; [by apply post_init_well_formed| |].
  - rewrite (wf_keys _ Hw). apply FEATURE_FIELDS_NoDup.
  - by rewrite (wf_keys _ Hw).
Qed.

Lemma defaults_well_formed : well_formed defaults.
Proof.
  assert (post_init defaults = Ok defaults) as E by (vm_compute; reflexivity).
  pose proof (post_init_spec defaults eq_refl) as H. rewrite E in H. apply H.
Qed.

Lemma override_spec c kwargs :
  well_formed c -> dkeys kwargs ⊆ FEATURE_FIELDS ->
  match post_init (override c kwargs) with
  | Ok c' => c' = canonical (override c kwargs) /\ well_formed c'
  | Err e => (exn_type e = TypeError \/ exn_type e = ValueError) /\ ~ well_formed (canonical (override c kwargs))
  end.
Proof.
  intros Hw Hs. apply post_init_spec. rewrite <- (wf_keys _ Hw). apply dkeys_override. by rewrite (wf_keys _ Hw).
Qed.

Lemma with_updates_spec c updates :
  well_formed c ->
  match with_updates c updates with
  | Ok c' => dkeys updates ⊆ FEATURE_FIELDS /\ c' = canonical (override c updates) /\ well_formed c'
  | Err e => (exn_type e = TypeError \/ exn_type e = ValueError) /\
      ~ (dkeys updates ⊆ FEATURE_FIELDS /\ well_formed (canonical (override c updates)))
  end.
Proof.
  intros Hw. unfold with_updates. destruct (unknown_fields (dkeys updates)) eqn:E.
  - split; [by right|]. intros [Hs _]. apply unknown_fields_spec in Hs. congruence.
  - apply unknown_fields_spec in E. pose proof (override_spec c updates Hw E) as H.
    destruct (post_init _); tauto.
Qed.

Lemma from_mapping_spec m items :
  match from_mapping (VMap m items) with
  | Ok c => dkeys items ⊆ FEATURE_FIELDS /\ c = canonical (override defaults items) /\ well_formed c
  | Err e => (exn_type e = TypeError \/ exn_type e = ValueError) /\
      ~ (dkeys items ⊆ FEATURE_FIELDS /\ well_formed (canonical (override defaults items)))
  end.
Proof. exact (with_updates_spec defaults items defaults_well_formed). Qed.

(** The value of a field that was passed, with the legacy backend name
    replaced *)
Definition as_stored (n : string) (v : value) : value :=
  if decide (n = "moe_backend") then normalize_hcu_moe_backend v else v.

Lemma field_canonical_override c kwargs n :
  NoDup (dkeys kwargs) ->
  field (canonical (override c kwargs)) n = as_stored n (default (field c n) (dget kwargs n)).
Proof.
  intros Hnd. unfold canonical, as_stored. rewrite field_dset. case_decide as H1; case_decide as H2; subst; try done;
    by rewrite field_override.
Qed.

(** A mapping of switches either gives a well-formed configuration, in
    which every switch has the given value (the legacy backend name replaced)
    or its default, or is refused with a TypeError or ValueError, exactly when
    it names an unknown switch or the switches together are not well formed. *)
Theorem config_validated m items :
  NoDup (dkeys items) ->
  match from_mapping (VMap m items) with
  | Ok c => well_formed c /\
      forall n, field c n = as_stored n (default (field defaults n) (dget items n))
  | Err e => (exn_type e = TypeError \/ exn_type e = ValueError) /\
      ~ (dkeys items ⊆ FEATURE_FIELDS /\ well_formed (canonical (override defaults items)))
  end.
Proof.
  intros Hnd. pose proof (from_mapping_spec m items) as H. destruct (from_mapping _) as [c|e]; [|done].
  destruct H as (Hs & -> & Hw). split; [done|]. intros n. by apply field_canonical_override.
Qed.

(** ** The sidecar *)

(** Configuration objects are only made by the constructor. *)
Definition trusted (v : value) : Prop := forall c, read_additional_config v = Ok (VConfig c) -> well_formed c.
Definition trusted_argument (v : value) : Prop := forall c, v = VConfig c -> well_formed c.

Lemma normalized_well_formed v c : trusted_argument v -> normalized v = Ok c -> well_formed c.
Proof.
  intros Ht. destruct v as [| | | |m items|fields|attrs| |]; cbn [normalized]; try done.
  - cbn [from_mapping]. rewrite (post_init_well_formed _ defaults_well_formed). intros [= <-]. apply defaults_well_formed.
  - intros E. pose proof (from_mapping_spec m items) as H. rewrite E in H. apply H.
  - intros [= ->]. by apply Ht.
Qed.

Lemma payload_well_formed v c : trusted_argument v -> config_from_payload v = Ok c -> well_formed c.
Proof.
  intros Ht. destruct v as [| | | |m items|fields|attrs| |]; cbn [config_from_payload]; try done.
  - rewrite (post_init_well_formed _ defaults_well_formed). intros [= <-]. apply defaults_well_formed.
  - intros E. pose proof (from_mapping_spec m items) as H. rewrite E in H. apply H.
  - intros [= ->]. by apply Ht.
  - cbv zeta. destruct (omap _ _) as [|kv present]; [done|]. intros E.
    pose proof (from_mapping_spec true (kv :: present)) as H. rewrite E in H. apply H.
Qed.

Lemma get_well_formed v c : trusted v -> get_hcu_config v = Ok c -> well_formed c.
Proof.
  intros Ht. unfold get_hcu_config, mbind, result_bind. destruct (read_additional_config v) as [p|e] eqn:E; [|done].
  apply payload_well_formed. intros c' ->. by apply Ht.
Qed.

(** The mapping under which the sidecar of a configuration is kept *)
Definition additional_items (v : value) : dict string value :=
  match v with
  | VMap _ items =>
      if dmem items "hcu" && negb (dmem items "additional_config") then items
      else match dget items "additional_config" with Some (VMap _ a) => a | _ => [] end
  | VObj attrs => match dget attrs "additional_config" with Some (VMap _ a) => a | _ => [] end
  | _ => []
  end.

(** The other items of the configuration *)
Definition items_of (v : value) : dict string value :=
  match v with VMap _ items | VObj items => items | _ => [] end.

Lemma dmem_dset (d : dict string value) k v k' : dmem (dset d k v) k' = bool_decide (k = k') || dmem d k'.
Proof. unfold dmem. rewrite dget_dset. case_decide; case_bool_decide; simplify_eq; done. Qed.

Lemma unknown_with_additional (items : dict string value) :
  dmem items "additional_config" = true -> unknown_fields (dkeys items) = true.
Proof.
  intros Hm. destruct (unknown_fields (dkeys items)) eqn:E; [done|]. apply unknown_fields_spec in E.
  unfold dmem in Hm. destruct (dget items "additional_config") eqn:Ed; [|done]. apply dget_Some_key, E in Ed.
  exfalso. revert Ed. apply (bool_decide_unpack (_ ∉ _)). vm_compute. exact I.
Qed.

Lemma get_stored_map items c :
  well_formed c -> dmem items "additional_config" = false -> dmem items "hcu" = true ->
  get_hcu_config (VMap true (dset items "hcu" (to_dict c))) = Ok c.
Proof.
  intros Hw Ha Hh. unfold get_hcu_config, read_additional_config.
  rewrite !dmem_dset, dget_dset_eq, Ha, andb_comm. cbn. exact (from_mapping_to_dict c true Hw).
Qed.

Lemma get_stored_additional (mk : dict string value -> value) items a c :
  mk = VMap true \/ mk = VObj -> well_formed c ->
  get_hcu_config (mk (dset items "additional_config" (VMap true (dset a "hcu" (to_dict c))))) = Ok c.
Proof.
  intros Hmk Hw. unfold get_hcu_config. destruct Hmk as [-> | ->]; cbn [read_additional_config].
  - rewrite (unknown_with_additional (dset _ _ _)) by (rewrite dmem_dset; done).
    rewrite !dmem_dset, !dget_dset_eq, (bool_decide_true ("additional_config" = "additional_config")) by done.
    cbn [negb orb andb hcu_of default]. rewrite andb_false_r. cbn. rewrite ?dget_dset_eq. exact (from_mapping_to_dict c true Hw).
  - rewrite dget_dset_eq. cbn. rewrite dget_dset_eq. cbn. exact (from_mapping_to_dict c true Hw).
Qed.

(** The configuration [set_hcu_config] stores *)
Definition to_store (vllm_config config : value) (updates : dict string value) : result HcuFeatureConfig :=
  base ← match config with VNone => get_hcu_config vllm_config | _ => normalized config end;
  match updates with [] => Ok base | _ => with_updates base updates end.

Lemma to_store_well_formed v config updates c :
  trusted v -> trusted_argument config -> to_store v config updates = Ok c -> well_formed c.
Proof.
  intros Ht Hc. unfold to_store, mbind, result_bind.
  destruct (match config with VNone => _ | _ => _ end) as [base|e] eqn:E; [|done].
  assert (well_formed base) as Hb.
  { destruct config; try (by eapply normalized_well_formed). by eapply get_well_formed. }
  destruct updates as [|kv updates]; [by intros [= <-]|]. intros Eu.
  pose proof (with_updates_spec base (kv :: updates) Hb) as H. rewrite Eu in H. apply H.
Qed.

Lemma writable_items a v : writable a = Ok v -> exists items, v = VMap true items /\
  items = match a with Some (VMap _ l) => l | _ => [] end.
Proof. unfold writable. destruct a as [[]|]; cbn; intros [= <-]; eauto. Qed.

(** Where the configuration is written *)
Lemma set_stored v config updates c v' :
  set_hcu_config v config updates = Ok (c, v') ->
  to_store v config updates = Ok c /\
  ((exists items, v = VMap true items /\ dmem items "hcu" = true /\ dmem items "additional_config" = false /\
      v' = VMap true (dset items "hcu" (to_dict c))) \/
   (exists mk items, (mk = VMap true \/ mk = VObj) /\ v = mk items /\
      v' = mk (dset items "additional_config" (VMap true (dset (additional_items v) "hcu" (to_dict c)))))).
Proof.
  unfold set_hcu_config, to_store, mbind, result_bind.
  destruct (match config with VNone => _ | _ => _ end) as [base|e]; [|done].
  destruct (match updates with [] => _ | _ => _ end) as [c0|e]; [|done].
  destruct v as [| | | |[] items| |attrs| |]; try done.
  - destruct (dmem items "hcu" && negb (dmem items "additional_config")) eqn:E; cbn.
    + intros [= <- <-]. bool_prop. split; [done|]. left. by exists items.
    + destruct (writable _) as [a|e] eqn:Ew; [|done]. apply writable_items in Ew as (l & -> & Hl). cbn.
      intros [= <- <-]. split; [done|]. right. exists (VMap true), items. split_and!; [by left|done|].
      cbn [additional_items]. by rewrite E, Hl.
  - destruct (dget attrs "additional_config") as [a|] eqn:Ea; [|done].
    destruct (writable _) as [a'|e] eqn:Ew; [|done]. apply writable_items in Ew as (l & -> & Hl). cbn.
    intros [= <- <-]. split; [done|]. right. exists VObj, attrs. split_and!; [by right|done|].
    cbn [additional_items]. by rewrite Ea, Hl.
Qed.

(** When [set_hcu_config] succeeds on a configuration of vLLM, in its
    object or its dictionary form, reading the configuration gives back exactly
    what was stored, which is well formed; no other item of the configuration
    and no other key next to the sidecar changes. *)
Theorem sidecar_roundtrip v config updates c v' :
  trusted v -> trusted_argument config ->
  set_hcu_config v config updates = Ok (c, v') ->
  get_hcu_config v' = Ok c /\ well_formed c /\
  (forall k, k <> "hcu" -> k <> "additional_config" -> dget (items_of v') k = dget (items_of v) k) /\
  (forall k, k <> "hcu" -> dget (additional_items v') k = dget (additional_items v) k).
Proof.
  intros Ht Hc Hs. destruct (set_stored _ _ _ _ _ Hs) as (Hst & Hcases).
  pose proof (to_store_well_formed _ _ _ _ Ht Hc Hst) as Hw.
  destruct Hcases as [(items & -> & Hh & Ha & ->)|(mk & items & Hmk & -> & ->)].
  - split_and!; [by apply get_stored_map|done| |].
    + intros k Hk _. cbn. by apply dget_dset_ne.
    + intros k Hk. cbn. rewrite !dmem_dset, Hh, Ha. cbn. by apply dget_dset_ne.
  - split_and!; [by apply get_stored_additional|done| |].
    + intros k _ Hk. destruct Hmk as [-> | ->]; cbn; by apply dget_dset_ne.
    + intros k Hk. destruct Hmk as [-> | ->]; cbn [additional_items].
      * rewrite !dmem_dset, dget_dset_eq, (bool_decide_true ("additional_config" = "additional_config")) by done.
        cbn [orb negb]. rewrite andb_false_r. by apply dget_dset_ne.
      * rewrite dget_dset_eq. by apply dget_dset_ne.
Qed.

(** ** The copy for the expert-placement code *)

(** The attribute a field is copied to *)
Definition sidecar_attribute (n : string) : string := "_vllm_hcu_" +:+ n.

Lemma sidecar_attribute_inj n n' : sidecar_attribute n = sidecar_attribute n' -> n = n'.
Proof. apply (inj (String.append "_vllm_hcu_")). Qed.

Lemma set_all_other target c names k :
  (forall n, n ∈ names -> k <> sidecar_attribute n) -> dget (set_all target c names) k = dget target k.
Proof.
  unfold set_all. revert target. induction names as [|n names IH]; intros target Hk; [done|].
  cbn [foldl]. rewrite IH by set_solver. apply dget_dset_ne. intros E. apply (Hk n); [set_solver|done].
Qed.

Lemma set_all_field target c names n :
  n ∈ names -> dget (set_all target c names) (sidecar_attribute n) = Some (field c n).
Proof.
  revert target. induction names as [|n' names IH]; intros target Hn; [set_solver|].
  destruct (decide (n ∈ names)) as [|Hnn]; [by apply IH|].
  apply elem_of_cons in Hn as [->|]; [|done]. unfold set_all. cbn [foldl].
  fold (set_all (dset target ("_vllm_hcu_" +:+ n') (field c n')) c names). rewrite set_all_other.
  - apply dget_dset_eq.
  - intros n Hin E%sidecar_attribute_inj. congruence.
Qed.

(** The parallel configuration of a configuration *)
Definition parallel_of (v : value) : value := default VNone (dget (items_of v) "parallel_config").

Lemma present_after_parallel (attrs : dict string value) p (names : list string) :
  "parallel_config" ∉ names ->
  omap (fun n => (fun v => (n, v)) <$> dget (dset attrs "parallel_config" p) n) names =
  omap (fun n => (fun v : value => (n, v)) <$> dget attrs n) names.
Proof.
  induction names as [|n names IH]; intros Hn; [done|]. cbn [omap list_omap].
  rewrite dget_dset_ne by set_solver. rewrite IH by set_solver. done.
Qed.

(** The configuration with another parallel configuration *)
Definition with_parallel (v p : value) : value :=
  match v with
  | VMap m items => VMap m (dset items "parallel_config" p)
  | VObj attrs => VObj (dset attrs "parallel_config" p)
  | _ => v
  end.

Lemma bind_inv v v' :
  bind_hcu_eplb_config v = Ok v' -> parallel_of v <> VNone ->
  exists c p', get_hcu_config v = Ok c /\ bind_parallel (parallel_of v) c = Ok p' /\ v' = with_parallel v p'.
Proof.
  unfold bind_hcu_eplb_config, parallel_of, mbind, result_bind.
  destruct v as [| | | |m items| |attrs| |]; try done; cbn [items_of];
    (intros Hb Hp; destruct (default VNone _) eqn:Ep; [done|..]);
    (destruct (get_hcu_config _) as [c|e]; [|done]);
    (destruct (bind_parallel _ c) as [p'|e] eqn:Eb; [|done]); injection Hb as <-; by exists c, p'.
Qed.

Lemma bind_parallel_items p c p' :
  bind_parallel p c = Ok p' -> items_of p' = set_all (items_of p) c EPLB_SIDECAR_FIELDS.
Proof. destruct p as [| | | |[] ?| |?| |]; cbn [bind_parallel]; intros [= <-]; done. Qed.

Lemma get_after_parallel v p :
  parallel_of v <> VNone -> get_hcu_config (with_parallel v p) = get_hcu_config v.
Proof.
  intros Hp. destruct v as [| | | |m items| |attrs| |]; try done; unfold get_hcu_config;
    cbn [with_parallel read_additional_config]; unfold parallel_of in Hp; cbn [items_of] in Hp.
  - rewrite !dmem_dset, !dget_dset_ne by done.
    rewrite (bool_decide_false ("parallel_config" = "hcu")),
      (bool_decide_false ("parallel_config" = "additional_config")) by done. cbn [orb].
    assert (unknown_fields (dkeys items) = true) as Hu.
    { destruct (unknown_fields (dkeys items)) eqn:E; [done|]. apply unknown_fields_spec in E.
      destruct (dget items "parallel_config") eqn:Ed; [|done]. apply dget_Some_key, E in Ed.
      exfalso. revert Ed. apply (bool_decide_unpack (_ ∉ _)). vm_compute. exact I. }
    rewrite dkeys_dset_in, Hu; [done|]. destruct (dget items "parallel_config") eqn:E; [|done].
    by eapply dget_Some_key.
  - rewrite dget_dset_ne by done. destruct (dget attrs "additional_config"); [done|].
    cbn [mbind result_bind config_from_payload]. rewrite present_after_parallel; [done|].
    apply (bool_decide_unpack (_ ∉ _)). vm_compute. exact I.
Qed.

(** Binding the configuration puts every expert-placement switch of the
    sidecar under its attribute on the parallel configuration and changes no
    other attribute there, no other item of the configuration and not the
    sidecar itself. *)
Theorem eplb_fields_bound v v' :
  bind_hcu_eplb_config v = Ok v' -> parallel_of v <> VNone ->
  exists c, get_hcu_config v = Ok c /\ get_hcu_config v' = Ok c /\
    (forall n, n ∈ EPLB_SIDECAR_FIELDS ->
       dget (items_of (parallel_of v')) (sidecar_attribute n) = Some (field c n)) /\
    (forall k, (forall n, n ∈ EPLB_SIDECAR_FIELDS -> k <> sidecar_attribute n) ->
       dget (items_of (parallel_of v')) k = dget (items_of (parallel_of v)) k) /\
    (forall k, k <> "parallel_config" -> dget (items_of v') k = dget (items_of v) k).
Proof.
  intros Hb Hp. destruct (bind_inv v v' Hb Hp) as (c & p' & Hc & Hbp & ->).
  apply bind_parallel_items in Hbp.
  exists c. rewrite get_after_parallel by done.
  assert (parallel_of (with_parallel v p') = p') as Hp'.
  { unfold parallel_of in *. destruct v; try done; cbn; by rewrite dget_dset_eq. }
  rewrite Hp', Hbp. split_and!; [done|done| | |].
  - intros n. apply set_all_field.
  - intros k. apply set_all_other.
  - intros k Hk. destruct v; try done; cbn; by apply dget_dset_ne.
Qed.

Lemma eplb_fields_bound_witness :
  exists v' c, bind_hcu_eplb_config (VObj [("parallel_config", VObj []);
      ("additional_config", VMap true [("hcu", VMap true [("expert_map_path", VStr "/maps/eplb.json")])])]) = Ok v' /\
    get_hcu_config v' = Ok c /\
    dget (items_of (parallel_of v')) "_vllm_hcu_expert_map_path" = Some (field c "expert_map_path").
Proof.
  destruct (bind_hcu_eplb_config (VObj [("parallel_config", VObj []);
    ("additional_config", VMap true [("hcu", VMap true [("expert_map_path", VStr "/maps/eplb.json")])])])) as [v'|e] eqn:E.
  - destruct (eplb_fields_bound _ v' E) as (c & _ & Hc & Hn & _); [vm_compute; discriminate|].
    exists v', c. split_and!; [reflexivity|exact Hc|]. apply (Hn "expert_map_path"). left.
  - vm_compute in E. discriminate.
Defined.

Lemma config_validated_witness :
  exists c, from_mapping (VMap true [("moe_backend", VStr "dpsk_deep_gemm")]) = Ok c /\ well_formed c /\
    field c "moe_backend" = VStr "deep_gemm".
Proof.
  assert (NoDup (dkeys [("moe_backend", VStr "dpsk_deep_gemm")])) as Hnd by apply NoDup_singleton.
  pose proof (config_validated true _ Hnd) as H.
  destruct (from_mapping _) as [c|e] eqn:E; [|vm_compute in E; discriminate].
  exists c. split; [reflexivity|]. split; [apply H|]. rewrite (proj2 H). reflexivity.
Defined.

Lemma sidecar_roundtrip_witness :
  exists c v', set_hcu_config (VMap true [("additional_config", VMap false [("other", VInt 1)])]) VNone
      [("k3_sp_moe", VBool true)] = Ok (c, v') /\
    get_hcu_config v' = Ok c /\ dget (additional_items v') "other" = Some (VInt 1).
Proof.
  destruct (set_hcu_config (VMap true [("additional_config", VMap false [("other", VInt 1)])]) VNone
    [("k3_sp_moe", VBool true)]) as [[c v']|e] eqn:E; [|vm_compute in E; discriminate].
  assert (trusted (VMap true [("additional_config", VMap false [("other", VInt 1)])])) as Ht.
  { intros c0 H. vm_compute in H. discriminate H. }
  assert (trusted_argument VNone) as Ha by (intros c0 H; discriminate H).
  destruct (sidecar_roundtrip _ _ _ c v' Ht Ha E) as (Hg & _ & _ & Ho).
  exists c, v'. split_and!; [reflexivity|exact Hg|]. rewrite Ho by discriminate. reflexivity.
Defined.
