(* ===== verification/StaticEplb.v ===== *)
(** * Static placement of experts

    Models src/vllm_hcu/model_executor/layers/fused_moe/static_eplb.py: a
    placement plan read from a file says which logical expert every physical
    slot of a layer holds; it is validated, compared across ranks, and bound to
    a model, whose weight loaders then fill every slot.

    Parameters: the type of file contents, [loads] ([json.loads], [None] when it
    raises), [sha256], the resolution of a path, the gather of the ranks' fingerprints, and vLLM's
    weight loader.  The contents of the file may change between reads: the
    outcomes of the coming reads are part of the state.  Modules are the
    attributes the code reads and writes. *)

From S2P Require Import Prelude PyString Tensors FeatureConfig.
From Stdlib Require Import Ascii.
Import FeatureConfig.
Local Open Scope Z_scope.

Module StaticEplb.

Definition OFFLINE_EPLB_FORMAT : string := "vllm_offline_eplb_physical_to_logical_by_model".
Definition RECORD_KINDS : list string := ["initial"; "proposal"].

Definition refuse {A} (msg : string) : result A := Err (Exn ValueError msg).
Definition require (b : bool) (msg : string) : result unit := if b then Ok tt else refuse msg.

(** [_integer] on a value known to be an [int] *)
Definition integer (value : Z) (name : string) (minimum : Z) : result Z :=
  if value <? minimum then refuse name else Ok value.

(** ** The plan *)

Record StaticEplbPlan := Plan {
  model_key : string;
  model_name : string;
  source_path : string;
  source_sha256 : string;
  record_kind : string;
  map_values : list (list Z);
  num_logical_experts : Z;
  num_physical_experts : Z;
  num_redundant_experts : Z
}.

#[global] Instance plan_eq_dec : EqDecision StaticEplbPlan.
Proof. solve_decision. Defined.

Definition nonempty (s : string) : bool := negb (bool_decide (s = "")).

(** [Path(p).is_absolute()] *)
Definition is_absolute (p : string) : bool :=
  match p with String c _ => Ascii.eqb c "/"%char | EmptyString => false end.

Definition hex_digit (c : ascii) : bool :=
  let n := nat_of_ascii c in ((48 <=? n) && (n <=? 57) || (97 <=? n) && (n <=? 102))%nat.
Fixpoint all_chars (f : ascii -> bool) (s : string) : bool :=
  match s with EmptyString => true | String c s' => f c && all_chars f s' end.

(** An element of a row: [None] when it is not a valid logical id *)
Definition expert_id (logical : Z) (v : value) : option Z :=
  match v with VInt z => if (0 <=? z) && (z <? logical) then Some z else None | _ => None end.

Definition check_row (logical physical : Z) (row : list value) : result (list Z) :=
  if negb (zlen row =? physical) then refuse "row shape or immutability mismatch"
  else match mapM (expert_id logical) row with
  | None => refuse "invalid logical expert ID"
  | Some ids =>
      if forallb (fun e => bool_decide (e ∈ ids)) (seqZ 0 logical) then Ok ids
      else refuse "row misses logical experts"
  end.

Fixpoint check_rows (logical physical : Z) (rows : list (list value)) : result (list (list Z)) :=
  match rows with
  | [] => Ok []
  | row :: rows' => ids ← check_row logical physical row; rest ← check_rows logical physical rows'; Ok (ids :: rest)
  end.

(** The construction of a plan, with [__post_init__] *)
Definition new_plan (key name path sha kind : string) (rows : list (list value)) (logical physical redundant : Z)
    : result StaticEplbPlan :=
  require (nonempty key) "model_key" ;;
  require (nonempty name) "model_name" ;;
  require (is_absolute path) "source_path" ;;
  require ((String.length sha =? 64)%nat && all_chars hex_digit sha) "source_sha256" ;;
  require (bool_decide (kind ∈ RECORD_KINDS)) "record_kind" ;;
  integer logical "num_logical_experts" 1 ;;
  integer physical "num_physical_experts" 1 ;;
  integer redundant "num_redundant_experts" 0 ;;
  require (logical + redundant =? physical) "physical/logical/redundant counts disagree" ;;
  require (negb (zlen rows =? 0)) "rows must be a nonempty immutable tuple" ;;
  m ← check_rows logical physical rows;
  Ok (Plan key name path sha kind m logical physical redundant).

Definition layer_map (p : StaticEplbPlan) (layer_idx : nat) : result (list Z) :=
  match map_values p !! layer_idx with
  | Some row => Ok row
  | None => Err (Exn IndexError "tuple index out of range")
  end.

Definition fingerprint (p : StaticEplbPlan) : string * string * string * (Z * Z) * Z * Z * Z :=
  (model_key p, model_name p, source_sha256 p, (zlen (map_values p), num_physical_experts p),
   num_logical_experts p, num_physical_experts p, num_redundant_experts p).

(** ** Reading a plan *)

Definition required_field (payload : dict string value) (name : string) : result value :=
  match dget payload name with Some v => Ok v | None => refuse name end.

(** [type(value) is type(expected) and value == expected] *)
Definition same_value (v expected : value) : bool :=
  match v, expected with
  | VStr a, VStr b => bool_decide (a = b)
  | VInt a, VInt b => a =? b
  | _, _ => false
  end.

Fixpoint check_metadata (selected : dict string value) (expected : list (string * value)) : result unit :=
  match expected with
  | [] => Ok tt
  | (name, e) :: rest =>
      v ← required_field selected name;
      require (same_value v e) name ;;
      check_metadata selected rest
  end.

Definition list_of (v : value) : option (list value) := match v with VList l => Some l | _ => None end.

(** [_parse_plan] after [json.loads] *)
Definition plan_of_payload (payload : value) (sha canonical_path key expected_name : string) (shape : Z * Z)
    (logical redundant : Z) (require_proposal : bool) : result StaticEplbPlan :=
  match payload with
  | VMap _ items =>
      require (match dget items "version" with Some (VInt z) => z =? 2 | _ => false end) "version" ;;
      require (match dget items "format" with Some (VStr f) => bool_decide (f = OFFLINE_EPLB_FORMAT) | _ => false end)
        "format" ;;
      match dget items "model_maps" with
      | Some (VMap _ maps) =>
          match dget maps key with
          | None => refuse "missing model key"
          | Some (VMap _ selected) =>
              kind ← required_field selected "record_kind";
              match kind with
              | VStr kind =>
                  require (bool_decide (kind ∈ RECORD_KINDS)) "record_kind" ;;
                  require (negb (require_proposal && negb (bool_decide (kind = "proposal")))) "no proposal" ;;
                  name ← required_field selected "model_name";
                  match name with
                  | VStr name =>
                      require (nonempty name) "model_name" ;;
                      require (bool_decide (name = expected_name)) "model_name mismatch" ;;
                      check_metadata selected
                        [("model_class", VStr key); ("num_moe_layers", VInt shape.1);
                         ("num_logical_experts", VInt logical); ("num_physical_experts", VInt shape.2);
                         ("num_redundant_experts", VInt redundant)] ;;
                      rows ← required_field selected "physical_to_logical_map";
                      match rows with
                      | VList l =>
                          match mapM list_of l with
                          | Some rows =>
                              require (zlen l =? shape.1) "map shape mismatch" ;;
                              new_plan key name canonical_path sha kind rows logical shape.2 redundant
                          | None => refuse "map shape mismatch"
                          end
                      | _ => refuse "map shape mismatch"
                      end
                  | _ => refuse "model_name"
                  end
              | _ => refuse "record_kind"
              end
          | Some _ => refuse "model map must be an object"
          end
      | _ => refuse "model_maps must be an object"
      end
  | _ => refuse "top-level payload must be an object"
  end.

Section files.
(** The contents of a file *)
Context {bytes : Type} `{EqDecision bytes}.
Context (loads : bytes -> option value) (sha256 : bytes -> string) (resolve : string -> result string).

Definition parse_plan (raw : bytes) (canonical_path key expected_name : string) (shape : Z * Z) (logical redundant : Z)
    (require_proposal : bool) : result StaticEplbPlan :=
  match loads raw with
  | None => refuse "valid JSON"
  | Some payload =>
      plan_of_payload payload (sha256 raw) canonical_path key expected_name shape logical redundant require_proposal
  end.

(** The outcomes of the coming reads of the file *)
Definition reads : Type := list (result bytes).

(** [canonical.read_bytes()] *)
Definition read_bytes : M reads bytes := fun s =>
  match s with
  | [] => (Err (Exn (OtherError "OSError") ""), [])
  | r :: s' => (r, s')
  end.

(** [isinstance(name, str) and name] *)
Definition model_name_of (v : value) : result string :=
  match v with VStr s => if nonempty s then Ok s else refuse "expected_model_name" | _ => refuse "expected_model_name" end.

Definition load_static_eplb_plan (path key : string) (expected_name : value) (shape : Z * Z)
    (logical redundant : Z) (require_proposal : bool) : M reads StaticEplbPlan :=
  lift (require (nonempty key) "model_key") ;;
  name ← lift (model_name_of expected_name);
  lift (integer shape.1 "shape" 1) ;;
  lift (integer shape.2 "shape" 1) ;;
  lift (integer logical "num_logical_experts" 1) ;;
  lift (integer redundant "num_redundant_experts" 0) ;;
  lift (require (logical + redundant =? shape.2) "physical/logical/redundant counts disagree") ;;
  canonical ← lift (resolve path);
  raw ← read_bytes;
  lift (parse_plan raw canonical key name shape logical redundant require_proposal).

Fixpoint check_models (raw : bytes) (canonical name : string) (logical redundant : Z) (required : list (string * Z))
    : result unit :=
  match required with
  | [] => Ok tt
  | (key, expected_layers) :: rest =>
      require (nonempty key) "required model key" ;;
      layers ← integer expected_layers "num_moe_layers" 1;
      parse_plan raw canonical key name (layers, logical + redundant) logical redundant true ;;
      check_models raw canonical name logical redundant rest
  end.

Definition validate_static_eplb_artifact (path : string) (required : list (string * Z)) (expected_name : value)
    (logical redundant : Z) : M reads string :=
  lift (require (negb (zlen required =? 0)) "required_models") ;;
  name ← lift (model_name_of expected_name);
  lift (integer logical "num_logical_experts" 1) ;;
  lift (integer redundant "num_redundant_experts" 0) ;;
  canonical ← lift (resolve path);
  raw ← read_bytes;
  lift (check_models raw canonical name logical redundant required) ;;
  again ← read_bytes;
  lift (require (bool_decide (again = raw)) "file changed during validation") ;;
  mret (sha256 raw).

End files.
Arguments reads : clear implicits.

(** [getattr(v, name, None)] *)
Definition attribute (v : value) (name : string) : value :=
  match v with VObj attrs => default VNone (dget attrs name) | _ => VNone end.

(** [value != "dense"] *)
Definition not_dense (v : value) : bool := match v with VStr s => negb (bool_decide (s = "dense")) | _ => true end.

Definition hyv4_required_models (vllm_config : value) (key : string) (current_layers : Z)
    : result (option (list (string * Z))) :=
  if negb (bool_decide (key = "HYV4ForCausalLM") || bool_decide (key = "HYV4MTP")) then Ok None
  else
    let layer_types := attribute (attribute (attribute vllm_config "model_config") "hf_config") "mlp_layer_types" in
    target_layers ←
      match layer_types with
      | VList (_ :: _ as l) => Ok (zlen (filter not_dense l))
      | _ => if bool_decide (key = "HYV4ForCausalLM") then Ok current_layers
             else refuse "cannot determine HYV4ForCausalLM layer count"
      end;
    Ok (Some [("HYV4ForCausalLM", target_layers); ("HYV4MTP", 1)]).

(** [type(model).__name__] for a parallel configuration without pipeline
    stages *)
Definition resolve_offline_eplb_model_key (class_name : string) (parallel_config : value) : result string :=
  let size := match parallel_config with
    | VObj attrs => default (VInt 1) (dget attrs "pipeline_parallel_size")
    | _ => VInt 1 end in
  match size with
  | VInt n =>
      integer n "pipeline_parallel_size" 1 ;;
      require (n =? 1) "does not support pipeline parallelism" ;;
      require (nonempty class_name) "runtime model class name" ;;
      Ok class_name
  | _ => refuse "pipeline_parallel_size"
  end.

(** [gather] is [None] without a process group; otherwise the fingerprints of
    all ranks. *)
Definition verify_static_plan_across_ep_ranks
    (gather : option (string * string * string * (Z * Z) * Z * Z * Z ->
                      list (string * string * string * (Z * Z) * Z * Z * Z))) (p : StaticEplbPlan) : result unit :=
  match gather with
  | None => Ok tt
  | Some f =>
      if forallb (fun v => bool_decide (v = fingerprint p)) (f (fingerprint p)) then Ok tt
      else Err (Exn RuntimeError "plan fingerprint mismatch across EP ranks")
  end.

(** ** Loading weights *)

Section loading.
(** [original state weight expert_id return_success]: vLLM's weight loader
    of one parameter *)
Context {S W : Type} (original : W -> Z -> bool -> M S (option bool)).

Fixpoint load_slots (weight : W) (logical_expert_id : Z) (slots : list (nat * Z)) (loaded_any : bool)
    : M S bool :=
  match slots with
  | [] => mret loaded_any
  | (physical, mapped) :: rest =>
      if mapped =? logical_expert_id then
        loaded ← original weight (Z.of_nat physical) true;
        load_slots weight logical_expert_id rest (default false loaded || loaded_any)
      else load_slots weight logical_expert_id rest loaded_any
  end.

(** [use_global_sf] is the quantization method's flag together with the test
    that the name contains ["input_scale"]. *)
Definition load_static_logical_expert (row : list Z) (weight_ndim : Z) (use_global_sf : bool) (weight : W)
    (logical_expert_id : Z) (return_success : bool) : M S (option bool) :=
  if negb (bool_decide (logical_expert_id ∈ row)) then raise ValueError "invalid logical expert ID"
  else if 3 <=? weight_ndim then raise ValueError "fused expert tensors"
  else if use_global_sf then original weight logical_expert_id return_success
  else
    loaded_any ← load_slots weight logical_expert_id (imap pair row) false;
    mret (if return_success then Some loaded_any else None).

Definition static_loader (row : list Z) (logical_experts fused_shared_experts weight_ndim : Z)
    (use_global_sf : bool) (weight : W) (expert_id : Z) (return_success : bool) : M S (option bool) :=
  if (logical_experts <=? expert_id) && (expert_id <? logical_experts + fused_shared_experts) then
    original weight (zlen row + expert_id - logical_experts) return_success
  else load_static_logical_expert row weight_ndim use_global_sf weight expert_id return_success.
End loading.

(** [_logical_model_mapping]: entries of parameter mappings, the expert id
    third *)
Definition logical_model_mapping {A B C} (entries : list (A * B * Z * C)) (logical_experts : Z)
    : list (A * B * Z * C) :=
  filter (fun e => e.1.2 < logical_experts) entries.

(** ** Binding a plan to a model *)

(** The function of a parameter's loader: vLLM's own, or one wrapped by
    [_static_loader] *)
Inductive loader_func := Original (id : Z) | Static (f : loader_func).

(** A parameter: its name, the key of its storage, whether its loader is bound
    to the experts that own it, and the loader's function *)
Record param := Param { p_name : string; p_key : Z; p_owned : bool; p_func : loader_func }.

(** [RoutedExperts] of one layer *)
Record experts := Experts {
  ex_supports_eplb : bool;
  ex_num_logical : Z;
  ex_num_experts : Z;
  ex_fused_shared : Z;
  ex_weights : list Z;
  ex_params : list param;
  ex_row : option (list Z);
  ex_static_mapping : bool
}.

(** An object with a [get_expert_mapping]: the limits its entries are filtered
    by, or [None] without one *)
Record inner := Inner { in_same_experts : bool; in_plan : option StaticEplbPlan; in_limits : option (list Z) }.

(** The mixture-of-experts model.  A layer is [None] when its
    [routed_experts] is not a [RoutedExperts]. *)
Record owner := Owner {
  ow_class : string;
  ow_layers : list (option experts);
  ow_num_moe_layers : Z;
  ow_num_logical : Z;
  ow_num_physical : Z;
  ow_num_redundant : Z;
  ow_plan : option StaticEplbPlan;
  ow_limits : option (list Z);
  ow_inners : list inner
}.

(** What [_resolve_static_eplb_owner] tells apart: a mixture of experts, a
    [Step5MTP] with its counts ([None] when not an [int]), a
    [Step5ForConditionalGeneration] and whether its text model is a
    [Step5ForCausalLM] that is a mixture, and anything else *)
Inductive loaded_model :=
  | Mixture
  | Step5MTP (is_dense_mtp has_layers : bool) (counts : list (option Z))
  | Step5ForConditionalGeneration (text_is_mixture : bool)
  | OtherModel.

(** Whether the model has an owner; the owner itself is part of the state. *)
Definition resolve_static_eplb_owner (m : loaded_model) : result bool :=
  match m with
  | Mixture => Ok true
  | Step5MTP dense has_layers counts =>
      if dense && negb has_layers && forallb (fun c => bool_decide (c = Some 0)) counts then Ok false
      else refuse "requires a current MixtureOfExperts model"
  | Step5ForConditionalGeneration text =>
      if text then Ok true else refuse "requires a current MixtureOfExperts model"
  | OtherModel => refuse "requires a current MixtureOfExperts model"
  end.

Record world (bytes : Type) := World { w_reads : reads bytes; w_config : value; w_owner : owner }.
Arguments World {bytes}.
Arguments w_reads {bytes}.
Arguments w_config {bytes}.
Arguments w_owner {bytes}.

Definition on_reads {bytes A} (m : M (reads bytes) A) : M (world bytes) A := fun w =>
  let '(r, s) := m (w_reads w) in (r, World s (w_config w) (w_owner w)).

(** [bool(v)] *)
Definition truthy (v : value) : bool :=
  match v with
  | VNone => false
  | VBool b => b
  | VInt z => negb (z =? 0)
  | VStr s => nonempty s
  | VMap _ l => negb (bool_decide (length l = 0%nat))
  | VList l => negb (bool_decide (length l = 0%nat))
  | _ => true
  end.

(** The checks of one layer *)
Fixpoint check_params (keys : list Z) (ps : list param) : result unit :=
  match ps with
  | [] => Ok tt
  | p :: rest =>
      (if bool_decide (p_key p ∈ keys) && negb (p_owned p) then refuse (p_name p) else Ok tt) ;;
      check_params keys rest
  end.

Definition check_layer (p : StaticEplbPlan) (l : option experts) : result experts :=
  match l with
  | None => refuse "requires current RoutedExperts owners"
  | Some e =>
      require (ex_supports_eplb e) "EPLB unsupported" ;;
      require ((ex_num_logical e =? num_logical_experts p) && (ex_num_experts e =? num_physical_experts p))
        "RoutedExperts count mismatch" ;;
      check_params (ex_weights e) (ex_params e) ;;
      Ok e
  end.

Fixpoint check_layers (p : StaticEplbPlan) (ls : list (option experts)) : result (list experts) :=
  match ls with
  | [] => Ok []
  | l :: rest => e ← check_layer p l; es ← check_layers p rest; Ok (e :: es)
  end.

(** What binding does to the experts of one layer *)
Definition bind_experts (row : list Z) (e : experts) : experts :=
  Experts (ex_supports_eplb e) (ex_num_logical e) (ex_num_experts e) (ex_fused_shared e) (ex_weights e)
    (map (fun p => if bool_decide (p_key p ∈ ex_weights e)
                   then Param (p_name p) (p_key p) (p_owned p) (Static (p_func p)) else p) (ex_params e))
    (Some row) true.

Fixpoint bind_layers (p : StaticEplbPlan) (index : nat) (es : list experts) : result (list (option experts)) :=
  match es with
  | [] => Ok []
  | e :: rest => row ← layer_map p index; ls ← bind_layers p (S index) rest; Ok (Some (bind_experts row e) :: ls)
  end.

Definition add_limit (limit : Z) (limits : option (list Z)) : option (list Z) := (fun l => limit :: l) <$> limits.

Definition bind_inner (p : StaticEplbPlan) (limit : Z) (i : inner) : inner :=
  if in_same_experts i then Inner true (Some p) (add_limit limit (in_limits i)) else i.

Definition publish (p : StaticEplbPlan) (es : list experts) (o : owner) : result owner :=
  ls ← bind_layers p 0 es;
  let limit := num_logical_experts p + match es with e :: _ => ex_fused_shared e | [] => 0 end in
  Ok (Owner (ow_class o) ls (ow_num_moe_layers o) (ow_num_logical o) (ow_num_physical o) (ow_num_redundant o)
        (Some p) (add_limit limit (ow_limits o)) (map (bind_inner p limit) (ow_inners o))).

Fixpoint check_bound (p : StaticEplbPlan) (index : nat) (ls : list (option experts)) : result unit :=
  match ls with
  | [] => Ok tt
  | l :: rest =>
      row ← layer_map p index;
      require (bool_decide ((l ≫= ex_row) = Some row)) "consumer row changed after binding" ;;
      check_bound p (S index) rest
  end.

Section binding.
Context {bytes : Type} `{EqDecision bytes}.
Context (loads : bytes -> option value) (sha256 : bytes -> string) (resolve : string -> result string).
Context (gather : option (string * string * string * (Z * Z) * Z * Z * Z ->
                          list (string * string * string * (Z * Z) * Z * Z * Z))).

(** The plan of the configured file, validated for the model *)
Definition load_plan (o : owner) (config : value) (path : string) : M (reads bytes) StaticEplbPlan :=
  let parallel := attribute config "parallel_config" in
  lift (require (truthy (attribute parallel "enable_eplb") && truthy (attribute parallel "enable_expert_parallel"))
    "requires EPLB and expert parallel") ;;
  lift (require (negb (truthy (attribute parallel "enable_ep_weight_filter"))) "upstream EP weight filter") ;;
  lift (require (negb (zlen (ow_layers o) =? 0)) "found no local MoE layers") ;;
  lift (require (zlen (ow_layers o) =? ow_num_moe_layers o) "local MoE layer count mismatch") ;;
  key ← lift (resolve_offline_eplb_model_key (ow_class o) parallel);
  let expected_name := attribute (attribute config "model_config") "model" in
  required ← lift (hyv4_required_models config key (zlen (ow_layers o)));
  completeness ←
    match required with
    | None => mret None
    | Some required =>
        sha ← validate_static_eplb_artifact loads sha256 resolve path required expected_name (ow_num_logical o)
          (ow_num_redundant o);
        mret (Some sha)
    end;
  p ← load_static_eplb_plan loads sha256 resolve path key expected_name
    (zlen (ow_layers o), ow_num_physical o) (ow_num_logical o) (ow_num_redundant o) true;
  lift (require (match completeness with Some sha => bool_decide (source_sha256 p = sha) | None => true end)
    "file changed after completeness validation") ;;
  mret p.

(** The path is a string or nothing: [bind_hcu_eplb_config] has just written
    it, from a configuration whose paths it checked.  The owners change in one
    step, since everything that can fail comes before. *)
Definition bind_static_eplb_plan (m : loaded_model) : M (world bytes) (option StaticEplbPlan) :=
  w ← get_state;
  config ← lift (bind_hcu_eplb_config (w_config w));
  modify (fun w => World (w_reads w) config (w_owner w)) ;;
  match attribute (attribute config "parallel_config") "_vllm_hcu_expert_map_path" with
  | VStr path =>
      if negb (nonempty path) then mret None
      else
        has_owner ← lift (resolve_static_eplb_owner m);
        if negb (has_owner : bool) then mret None
        else
          let o := w_owner w in
          p ← on_reads (load_plan o config path);
          match ow_plan o with
          | Some bound =>
              lift (require (bool_decide (bound = p)) "plan changed; cannot rebind loaded weights") ;;
              lift (check_bound p 0 (ow_layers o)) ;;
              mret (Some bound)
          | None =>
              es ← lift (check_layers p (ow_layers o));
              lift (verify_static_plan_across_ep_ranks gather p) ;;
              o' ← lift (publish p es o);
              modify (fun w => World (w_reads w) (w_config w) o') ;;
              mret (Some p)
          end
  | _ => mret None
  end.
End binding.

End StaticEplb.
