(* ===== verification/StaticEplbCorrect.v ===== *)
(** * Correctness of the static expert placement

    A plan that is accepted places every logical expert, binding it changes
    either nothing or every layer, all ranks bind the same placement, and
    loading the checkpoint through the bound loaders fills every physical
    slot. *)

From S2P Require Import Prelude PyString Tensors FeatureConfig StaticEplb.
Import FeatureConfig StaticEplb.
Local Open Scope Z_scope.

(** ** Plans *)

(** A row places every logical expert and nothing else. *)
Definition covers_experts (logical physical : Z) (row : list Z) : Prop :=
  zlen row = physical /\ forall e, e ∈ row <-> 0 <= e < logical.

Record valid_plan (layers logical redundant : Z) (p : StaticEplbPlan) : Prop := ValidPlan {
  vp_layers : zlen (map_values p) = layers;
  vp_counts : num_logical_experts p = logical /\ num_redundant_experts p = redundant /\
    num_physical_experts p = logical + redundant;
  vp_rows : Forall (covers_experts logical (logical + redundant)) (map_values p)
}.

Lemma require_ok b msg u : require b msg = Ok u -> b = true.
Proof. unfold require. by destruct b. Qed.

(** Steps through the checks of a computation that succeeded. *)
Ltac step H :=
  unfold mbind, result_bind in H;
  repeat match type of H with
  | match require ?b ?m with _ => _ end = Ok _ =>
      let E := fresh "E" in destruct (require b m) eqn:E; [apply require_ok in E|discriminate H]
  | match integer ?z ?n ?k with _ => _ end = Ok _ =>
      let E := fresh "E" in destruct (integer z n k) eqn:E; [|discriminate H]
  end.

Lemma expert_id_spec logical v z : expert_id logical v = Some z -> v = VInt z /\ 0 <= z < logical.
Proof.
  unfold expert_id. destruct v; try done. case_if; [|done]. intros [= ->]. split; [done|]. lia.
Qed.

Lemma check_row_spec logical physical row ids :
  check_row logical physical row = Ok ids -> covers_experts logical physical ids.
Proof.
  unfold check_row. case_if; [done|]. destruct (mapM _ _) as [l|] eqn:Em; [|done].
  destruct (forallb _ _) eqn:Ef; [|done]. intros [= <-].
  apply mapM_Some in Em. split.
  - apply Forall2_length in Em. unfold zlen in *. lia.
  - intros e. split.
    + intros [i Hi]%list_elem_of_lookup. eapply Forall2_lookup_r in Em as (v & _ & Hv); [|done].
      by apply expert_id_spec in Hv as [_ ?].
    + intros He. rewrite forallb_forall in Ef. specialize (Ef e). rewrite bool_decide_eq_true in Ef. apply Ef.
      apply list_elem_of_In. apply elem_of_seqZ. lia.
Qed.

Lemma check_rows_spec logical physical rows m :
  check_rows logical physical rows = Ok m -> zlen m = zlen rows /\ Forall (covers_experts logical physical) m.
Proof.
  revert m. induction rows as [|row rows IH]; intros m H; cbn in H.
  - injection H as <-. by split.
  - unfold mbind, result_bind in H. destruct (check_row _ _ _) as [ids|] eqn:E1; [|done].
    destruct (check_rows _ _ _) as [rest|] eqn:E2; [|done]. injection H as <-.
    destruct (IH rest eq_refl) as [Hl Hf]. rewrite !zlen_cons. split; [lia|].
    constructor; [by eapply check_row_spec|done].
Qed.

Lemma new_plan_valid key name path sha kind rows logical physical redundant p :
  new_plan key name path sha kind rows logical physical redundant = Ok p ->
  valid_plan (zlen rows) logical redundant p /\ source_sha256 p = sha /\ model_key p = key /\ model_name p = name /\
  check_rows logical physical rows = Ok (map_values p).
Proof.
  unfold new_plan. intros H. step H. destruct (check_rows _ _ _) as [m|] eqn:Em; [|done].
  injection H as <-. pose proof Em as [Hl Hf]%check_rows_spec. bool_prop. subst physical.
  split; [|done]. by constructor.
Qed.

(** The rows a file has for a model *)
Definition payload_rows (payload : value) (key : string) : option (list (list value)) :=
  match payload with
  | VMap _ items =>
      match dget items "model_maps" with
      | Some (VMap _ maps) =>
          match dget maps key with
          | Some (VMap _ selected) =>
              match dget selected "physical_to_logical_map" with Some (VList l) => mapM list_of l | _ => None end
          | _ => None
          end
      | _ => None
      end
  | _ => None
  end.

Record parsed (payload : value) (sha key name : string) (shape : Z * Z) (logical redundant : Z)
    (p : StaticEplbPlan) : Prop := Parsed {
  ps_valid : valid_plan shape.1 logical redundant p;
  ps_sha : source_sha256 p = sha;
  ps_key : model_key p = key;
  ps_name : model_name p = name;
  ps_rows : exists rows, payload_rows payload key = Some rows /\ check_rows logical shape.2 rows = Ok (map_values p)
}.

Lemma plan_of_payload_inv payload sha path key name shape logical redundant prop p :
  plan_of_payload payload sha path key name shape logical redundant prop = Ok p ->
  parsed payload sha key name shape logical redundant p.
Proof.
  unfold plan_of_payload. intros H.
  repeat (step H; match type of H with
    | match ?x with _ => _ end = Ok _ => destruct x eqn:?; try discriminate H
    end).
  step H. bool_prop. apply new_plan_valid in H as (Hv & Hsha & Hk & Hn & Hr).
  rename select (mapM list_of _ = Some _) into Hm. pose proof Hm as Hl%mapM_Some%Forall2_length.
  rename select (bool_decide (_ = name) = true) into Hname. apply bool_decide_eq_true in Hname.
  rename select (required_field _ "physical_to_logical_map" = _) into Hf. unfold required_field in Hf.
  match type of Hf with match ?x with _ => _ end = _ => destruct x eqn:Hd; [|done] end. injection Hf as ->.
  constructor; [|done|done|congruence|].
  - replace shape.1 with (zlen l); [done|]. unfold zlen in *. lia.
  - exists l. split; [|done]. unfold payload_rows. repeat (case_match; simplify_eq; try done).
Qed.

Section claims.
Context {bytes : Type} `{EqDecision bytes}.
Context (loads : bytes -> option value) (sha256 : bytes -> string) (resolve : string -> result string).

Lemma parse_plan_inv raw path key name shape logical redundant prop p :
  parse_plan loads sha256 raw path key name shape logical redundant prop = Ok p ->
  exists payload, loads raw = Some payload /\ parsed payload (sha256 raw) key name shape logical redundant p.
Proof.
  unfold parse_plan. destruct (loads raw) as [payload|]; [|done]. intros H%plan_of_payload_inv. eauto.
Qed.

Lemma lift_inv {S A} (r : result A) (s s' : S) a : lift r s = (Ok a, s') -> r = Ok a /\ s' = s.
Proof. unfold lift. by intros [= -> ->]. Qed.

Ltac minv H :=
  match type of H with
  | mbind _ _ _ = (Ok _, _) =>
      let a := fresh "x" in let s := fresh "s" in let Hm := fresh "Hm" in
      apply M_bind_inv in H as (a & s & Hm & H);
      try (apply lift_inv in Hm as [Hm ->])
  end.

(** A plan that is loaded comes from the bytes of one read. *)
Lemma load_static_inv path key name shape logical redundant prop rs p rs' :
  load_static_eplb_plan loads sha256 resolve path key name shape logical redundant prop rs = (Ok p, rs') ->
  exists raw canonical n, rs = Ok raw :: rs' /\ model_name_of name = Ok n /\
    parse_plan loads sha256 raw canonical key n shape logical redundant prop = Ok p /\
    logical + redundant = shape.2.
Proof.
  unfold load_static_eplb_plan. intros H. repeat minv H. apply lift_inv in H as [Hp ->].
  rename select (read_bytes _ = _) into Hr. unfold read_bytes in Hr. destruct rs as [|[raw|e] rs]; try done.
  injection Hr as <- <-. rename select (require (_ =? _) _ = Ok _) into Hc. apply require_ok in Hc. bool_prop. eauto 10.
Qed.

Lemma check_models_inv raw canonical name logical redundant required u :
  check_models loads sha256 raw canonical name logical redundant required = Ok u ->
  Forall (fun '(key, layers) => exists p, parse_plan loads sha256 raw canonical key name
    (layers, logical + redundant) logical redundant true = Ok p) required.
Proof.
  induction required as [|[key layers] rest IH]; intros H; [constructor|]. cbn [check_models] in H.
  step H. destruct (parse_plan _ _ _ _ _ _ _ _ _ _) as [p|] eqn:Ep; [|done].
  unfold integer in E0. destruct (layers <? 1); [done|]. injection E0 as <-.
  constructor; [by exists p|auto].
Qed.

Lemma artifact_inv path required name logical redundant rs sha rs' :
  validate_static_eplb_artifact loads sha256 resolve path required name logical redundant rs = (Ok sha, rs') ->
  exists raw canonical n, rs = Ok raw :: Ok raw :: rs' /\ sha = sha256 raw /\ model_name_of name = Ok n /\
    Forall (fun '(key, layers) => exists p, parse_plan loads sha256 raw canonical key n
      (layers, logical + redundant) logical redundant true = Ok p) required.
Proof.
  unfold validate_static_eplb_artifact. intros H. repeat minv H. injection H as <- <-.
  apply require_ok in Hm7. rewrite bool_decide_eq_true in Hm7. subst x6.
  unfold read_bytes in Hm4, Hm6. destruct rs as [|r rs]; [done|]. injection Hm4 as -> ->.
  destruct s as [|r s]; [done|]. injection Hm6 as -> ->.
  exists x4, x3, x0. split_and!; [done..|]. by eapply check_models_inv.
Qed.

(** The other models a HYV4 model is deployed with *)
Definition is_hyv4 (key : string) : Prop := key = "HYV4ForCausalLM" \/ key = "HYV4MTP".

Lemma hyv4_required_inv config key layers required :
  hyv4_required_models config key layers = Ok required ->
  if decide (is_hyv4 key) then exists n, required = Some [("HYV4ForCausalLM", n); ("HYV4MTP", 1)] else required = None.
Proof.
  unfold hyv4_required_models, is_hyv4, mbind, result_bind. intros H.
  destruct (negb _) eqn:E in H.
  - injection H as <-. apply negb_true_iff, orb_false_iff in E as [E1 E2].
    rewrite bool_decide_eq_false in E1. rewrite bool_decide_eq_false in E2. rewrite decide_False by tauto. done.
  - apply negb_false_iff, orb_true_iff in E. rewrite !bool_decide_eq_true in E. rewrite decide_True by done.
    match type of H with match ?x with _ => _ end = _ => destruct x as [n|]; [|done] end.
    injection H as <-. eauto.
Qed.

Lemma resolve_key_inv cls parallel key : resolve_offline_eplb_model_key cls parallel = Ok key -> key = cls.
Proof.
  unfold resolve_offline_eplb_model_key. intros H. destruct (match parallel with VObj _ => _ | _ => _ end); try done.
  step H. by injection H as <-.
Qed.

(** What a loaded plan comes with *)
Record loaded_for (rs : reads bytes) (o : owner) (p : StaticEplbPlan) : Prop := LoadedFor {
  lf_valid : valid_plan (zlen (ow_layers o)) (ow_num_logical o) (ow_num_redundant o) p;
  lf_key : model_key p = ow_class o;
  lf_physical : ow_num_physical o = ow_num_logical o + ow_num_redundant o;
  lf_source : exists payload raw name, Ok raw ∈ rs /\ loads raw = Some payload /\ sha256 raw = source_sha256 p /\
    parsed payload (sha256 raw) (ow_class o) name (zlen (ow_layers o), ow_num_physical o) (ow_num_logical o)
      (ow_num_redundant o) p;
  lf_complete : is_hyv4 (ow_class o) -> exists raw canonical name n, sha256 raw = source_sha256 p /\
    Forall (fun '(key, layers) => exists q, parse_plan loads sha256 raw canonical key name
      (layers, ow_num_logical o + ow_num_redundant o) (ow_num_logical o) (ow_num_redundant o) true = Ok q)
      [("HYV4ForCausalLM", n); ("HYV4MTP", 1)]
}.

Lemma load_plan_inv o config path rs p rs' :
  load_plan loads sha256 resolve o config path rs = (Ok p, rs') -> loaded_for rs o p.
Proof.
  unfold load_plan. intros H. cbv zeta in H. do 6 minv H. apply resolve_key_inv in Hm3 as ->.
  apply hyv4_required_inv in Hm4. apply M_bind_inv in H as (completeness & s1 & Hc & H).
  apply M_bind_inv in H as (q & s2 & Hl & H). apply M_bind_inv in H as (u & s3 & Hq & H).
  injection H as <- <-. apply lift_inv in Hq as [Hq ->]. apply require_ok in Hq.
  apply load_static_inv in Hl as (raw & canonical & name & -> & _ & Hp & Hs).
  apply parse_plan_inv in Hp as (payload & Hload & [Hv Hsha Hk Hn Hr]).
  assert (Ok raw ∈ rs) as Hin.
  { rename select (option (list _)) into required. destruct required as [required|].
    - apply M_bind_inv in Hc as (sha & s4 & Hval & Hc). injection Hc as _ ->.
      apply artifact_inv in Hval as (raw1 & canonical1 & name1 & -> & _). set_solver.
    - injection Hc as _ ->. set_solver. }
  constructor; [done|done|by rewrite Hs|exists payload, raw, name; by split_and!|].
  intros Hh. rewrite decide_True in Hm4 by done. destruct Hm4 as [n ->].
  apply M_bind_inv in Hc as (sha & s4 & Hval & Hc). injection Hc as <- _.
  apply artifact_inv in Hval as (raw1 & canonical1 & name1 & -> & -> & _ & Hf).
  exists raw1, canonical1, name1, n. split; [|done]. by apply bool_decide_eq_true in Hq.
Qed.

(** ** Binding *)

Lemma check_layers_inv p ls es : check_layers p ls = Ok es -> ls = map Some es.
Proof.
  revert es. induction ls as [|l ls IH]; intros es H; cbn in H; [by injection H as <-|].
  unfold mbind, result_bind in H. destruct (check_layer p l) as [e|] eqn:E; [|done].
  destruct (check_layers p ls) as [es'|]; [|done]. injection H as <-. cbn. f_equal; [|by apply IH].
  unfold check_layer in E. destruct l as [e'|]; [|done]. step E. destruct (check_params _ _); [|done].
  by injection E as <-.
Qed.

Lemma bind_layers_spec p k es :
  (k + length es <= length (map_values p))%nat ->
  exists ls, bind_layers p k es = Ok ls /\ length ls = length es /\
    forall i e, es !! i = Some e -> exists row, map_values p !! (k + i)%nat = Some row /\
      ls !! i = Some (Some (bind_experts row e)).
Proof.
  revert k. induction es as [|e es IH]; intros k Hl; [by exists []|]. simpl in Hl. cbn [bind_layers].
  destruct (lookup_lt_is_Some_2 (map_values p) k) as [row Hrow]; [lia|].
  destruct (IH (S k)) as (ls & Hls & Hlen & Hget); [lia|].
  unfold layer_map. rewrite Hrow. unfold mbind, result_bind. rewrite Hls. eexists. split_and!; [done|simpl; lia|].
  intros [|i] e' He; simplify_eq/=.
  - exists row. by rewrite Nat.add_0_r.
  - destruct (Hget i e' He) as (row' & Hr & Hi). exists row'. by rewrite Nat.add_succ_r.
Qed.

Lemma check_bound_inv p k ls u :
  check_bound p k ls = Ok u -> forall i l, ls !! i = Some l ->
  exists row, map_values p !! (k + i)%nat = Some row /\ (l ≫= ex_row) = Some row.
Proof.
  revert k. induction ls as [|l0 ls IH]; intros k H i l Hi; [done|]. cbn [check_bound] in H.
  unfold mbind at 1, result_bind, layer_map in H. destruct (map_values p !! k) as [row|] eqn:Hr; [|done].
  step H. rewrite bool_decide_eq_true in E. destruct i as [|i]; simplify_eq/=.
  - exists row. by rewrite Nat.add_0_r.
  - rewrite Nat.add_succ_r. by apply (IH (S k)).
Qed.

(** The rows of the plan are those of the layers. *)
Definition consumes (o : owner) (p : StaticEplbPlan) : Prop :=
  ow_plan o = Some p /\
  forall i l, ow_layers o !! i = Some l -> exists e row, l = Some e /\ map_values p !! i = Some row /\ ex_row e = Some row.

Context (gather : option (string * string * string * (Z * Z) * Z * Z * Z ->
                          list (string * string * string * (Z * Z) * Z * Z * Z))).

(** A layer before and after it is bound *)
Definition bound_layers (o o' : owner) : Prop :=
  length (ow_layers o') = length (ow_layers o) /\
  forall i l, ow_layers o !! i = Some l ->
    exists e row, l = Some e /\ ow_layers o' !! i = Some (Some (bind_experts row e)).

Lemma publish_spec rs o p es :
  loaded_for rs o p -> ow_layers o = map Some es ->
  exists o', publish p es o = Ok o' /\ consumes o' p /\ bound_layers o o'.
Proof.
  intros Hl Hes. unfold publish. pose proof (vp_layers _ _ _ _ (lf_valid _ _ _ Hl)) as Hlen.
  destruct (bind_layers_spec p 0 es) as (ls & Hb & Hll & Hget).
  { rewrite Hes in Hlen. unfold zlen in Hlen. rewrite length_map in Hlen. lia. }
  rewrite Hb. eexists. split; [done|]. split; [split; [done|]|split]; simpl.
  - intros i l Hi. assert (i < length es)%nat as Hlt by (apply lookup_lt_Some in Hi; lia).
    destruct (lookup_lt_is_Some_2 es i Hlt) as [e He]. destruct (Hget i e He) as (row & Hrow & Hi').
    rewrite Hi in Hi'. injection Hi' as ->. by exists (bind_experts row e), row.
  - by rewrite Hes, length_map.
  - intros i l Hi. rewrite Hes in Hi. apply list_lookup_fmap_Some in Hi as (e & -> & He).
    destruct (Hget i e He) as (row & _ & Hi'). by exists e, row.
Qed.

(** C35: binding a placement either changes nothing of the model, when it
    raises an exception or nothing is configured, or ends with a plan that is
    valid for the model and that every layer has its row of.  Then either the
    model already had exactly this plan and is not changed, or it had none,
    every layer is wrapped and the ranks' fingerprints agree. *)
Theorem placement_bound m w r w' :
  bind_static_eplb_plan loads sha256 resolve gather m w = (r, w') ->
  match r with
  | Ok (Some p) =>
      loaded_for (w_reads w) (w_owner w) p /\ consumes (w_owner w') p /\
      (ow_plan (w_owner w) = Some p /\ w_owner w' = w_owner w \/
       ow_plan (w_owner w) = None /\ bound_layers (w_owner w) (w_owner w') /\
       verify_static_plan_across_ep_ranks gather p = Ok tt)
  | _ => w_owner w' = w_owner w
  end.
Proof.
  destruct w as [rs config o]. unfold bind_static_eplb_plan. munfold. cbn [w_config w_reads w_owner].
  destruct (bind_hcu_eplb_config config) as [config'|e]; [|by intros [= <- <-]].
  destruct (attribute _ _) as [| | |path| | | | |]; try (by intros [= <- <-]).
  destruct (negb (nonempty path)); [by intros [= <- <-]|].
  destruct (resolve_static_eplb_owner m) as [[]|e]; try (by intros [= <- <-]).
  unfold on_reads. cbn. destruct (load_plan _ _ _ _ _ _ _) as [[p|e] rs'] eqn:El; [|by intros [= <- <-]].
  apply load_plan_inv in El. destruct (ow_plan o) as [bound|] eqn:Eo.
  - unfold require. case_bool_decide as Hb; [|by intros [= <- <-]]. subst bound.
    destruct (check_bound p 0 (ow_layers o)) as [u|e] eqn:Ec; [|by intros [= <- <-]].
    intros [= <- <-]. cbn. split_and!; [done| |by left]. split; [done|]. intros i l Hi.
    destruct (check_bound_inv _ _ _ _ Ec i l Hi) as (row & Hr & Hl). destruct l as [e|]; [|done]. eauto.
  - destruct (check_layers p (ow_layers o)) as [es|e] eqn:Ec; [|by intros [= <- <-]].
    destruct (verify_static_plan_across_ep_ranks gather p) as [[]|e] eqn:Ev; [|by intros [= <- <-]].
    destruct (publish_spec rs o p es El (check_layers_inv _ _ _ Ec)) as (o' & -> & Hc & Hbl).
    intros [= <- <-]. cbn. split_and!; [done|done|]. by right.
Qed.
End claims.

(** ** Agreement of the ranks *)

Lemma parsed_rows_agree payload sha key name shape logical redundant p sha' name' p' :
  parsed payload sha key name shape logical redundant p ->
  parsed payload sha' key name' shape logical redundant p' -> map_values p = map_values p'.
Proof. intros [_ _ _ _ (rows & Hr & Hc)] [_ _ _ _ (rows' & Hr' & Hc')]. congruence. Qed.

(** Two ranks whose plans passed the comparison of fingerprints have the
    same placement of every layer, whichever copies of the file they read,
    provided the digest tells the copies apart. *)
Theorem ranks_agree {bytes} `{EqDecision bytes} (loads : bytes -> option value) sha256 resolve o o' config config' path path' rs rs' s s' p q gather :
  load_plan loads sha256 resolve o config path rs = (Ok p, s) ->
  load_plan loads sha256 resolve o' config' path' rs' = (Ok q, s') ->
  verify_static_plan_across_ep_ranks (Some gather) p = Ok tt ->
  fingerprint q ∈ gather (fingerprint p) ->
  (forall a b, Ok a ∈ rs -> Ok b ∈ rs' -> sha256 a = sha256 b -> a = b) ->
  map_values p = map_values q /\ num_logical_experts p = num_logical_experts q.
Proof.
  intros Hp Hq Hv Hin Hinj. apply load_plan_inv in Hp, Hq. cbn [verify_static_plan_across_ep_ranks] in Hv.
  destruct (forallb _ _) eqn:Ef; [|done]. rewrite forallb_forall in Ef.
  specialize (Ef (fingerprint q) (proj1 (list_elem_of_In _ _) Hin)). rewrite bool_decide_eq_true in Ef.
  unfold fingerprint in Ef. injection Ef as Hk Hn Hsha Hlen Hphys Hlog _ Hred.
  destruct Hp as [Hvp Hkp Hpp (payload & raw & n & Hr1 & Hl1 & Hs1 & Hps) _].
  destruct Hq as [Hvq Hkq Hpq (payload' & raw' & n' & Hr2 & Hl2 & Hs2 & Hqs) _].
  assert (raw = raw') as <- by (apply Hinj; [done|done|congruence]). simplify_eq.
  split; [|done]. destruct Hvp as [Hlp (Ha & Hb & _) _], Hvq as [Hlq (Ha' & Hb' & _) _].
  rewrite Hk in Hkq. rewrite <- Hkp in *. rewrite <- Hkq in Hqs.
  replace (zlen (ow_layers o'), ow_num_physical o') with (zlen (ow_layers o), ow_num_physical o) in Hqs
    by (rewrite Hpp, Hpq; f_equal; congruence).
  replace (ow_num_logical o') with (ow_num_logical o) in Hqs by congruence.
  replace (ow_num_redundant o') with (ow_num_redundant o) in Hqs by congruence.
  by eapply parsed_rows_agree.
Qed.

(** ** Loading the checkpoint *)

Section checkpoint.
Context {S W : Type} (original : W -> Z -> bool -> M S (option bool)).
(** The weights in the physical slots, and the slots of this rank *)
Context (slot : S -> Z -> option W) (local : Z -> bool).

(** vLLM's loader writes the slot it is given if the rank has it, and says
    whether it did. *)
Definition loads_slot : Prop := forall w p rs s, exists s',
  original w p rs s = (Ok (if rs then Some (local p) else None), s') /\
  forall q, slot s' q = if local q && (q =? p) then Some w else slot s q.

Hypothesis original_loads : loads_slot.

Lemma load_slots_spec w e k l any s :
  exists any' s', load_slots original w e (imap (fun i x => ((k + i)%nat, x)) l) any s = (Ok any', s') /\
    forall q, slot s' q =
      if local q && bool_decide (Z.of_nat k <= q /\ zget l (q - Z.of_nat k) = Some e) then Some w else slot s q.
Proof.
  revert k any s. induction l as [|x l IH]; intros k any s.
  - exists any, s. split; [done|]. intros q. rewrite bool_decide_false, andb_false_r; [done|].
    intros [_ Hz%zget_elem]. set_solver.
  - cbn [imap load_slots]. rewrite Nat.add_0_r.
    replace (imap _ l) with (imap (fun i y => ((Datatypes.S k + i)%nat, y)) l)
      by (apply imap_ext; intros i y _; simpl; f_equal; lia).
    assert (forall q, Z.of_nat k <= q /\ zget (x :: l) (q - Z.of_nat k) = Some e <->
      (q = Z.of_nat k /\ x = e) \/ (Z.of_nat (Datatypes.S k) <= q /\ zget l (q - Z.of_nat (Datatypes.S k)) = Some e)) as Hq.
    { intros q. destruct (decide (q = Z.of_nat k)) as [->|Hne].
      - rewrite Z.sub_diag. change (zget (x :: l) 0) with (Some x). split; [intros [_ [= ->]]; by left|].
        intros [[_ ->]|[? _]]; [done|lia].
      - split.
        + intros [Hk Hz]. right. split; [lia|]. rewrite <- (zget_cons_S x) by lia. rewrite <- Hz. f_equal. lia.
        + intros [[? _]|[Hk Hz]]; [done|]. split; [lia|]. rewrite <- (zget_cons_S x) in Hz by lia.
          rewrite <- Hz. f_equal. lia. }
    destruct (Z.eqb_spec x e) as [->|Hne].
    + destruct (original_loads w (Z.of_nat k) true s) as (s1 & H1 & Hs1). munfold. rewrite H1.
      destruct (IH (Datatypes.S k) (default false (Some (local (Z.of_nat k))) || any) s1) as (any' & s2 & H2 & Hs2).
      exists any', s2. split; [done|]. intros q. rewrite Hs2, Hs1. specialize (Hq q).
      destruct (local q); cbn [andb]; [|done]. destruct (Z.eqb_spec q (Z.of_nat k)); repeat case_bool_decide; tauto.
    + destruct (IH (Datatypes.S k) any s) as (any' & s2 & H2 & Hs2).
      exists any', s2. split; [done|]. intros q. rewrite Hs2. specialize (Hq q).
      destruct (local q); cbn [andb]; [|done]. repeat case_bool_decide; naive_solver.
Qed.

(** One logical expert, or one fused shared expert, through the bound loader *)
Lemma static_loader_spec row logical physical shared w e rs s :
  covers_experts logical physical row -> 0 <= e < logical + shared ->
  exists r s', static_loader original row logical shared 2 false w e rs s = (Ok r, s') /\
    forall q, slot s' q =
      if local q && (if e <? logical then bool_decide (0 <= q /\ zget row q = Some e)
                     else q =? physical + (e - logical))
      then Some w else slot s q.
Proof.
  intros [Hlen Hcov] He. unfold static_loader. destruct (Z.ltb_spec e logical) as [Hlt|Hge].
  - replace ((logical <=? e) && (e <? logical + shared)) with false
      by (symmetry; apply andb_false_iff; left; apply Z.leb_gt; lia).
    unfold load_static_logical_expert. rewrite bool_decide_true by (apply Hcov; lia). cbn [negb Z.leb Z.compare Pos.compare Pos.compare_cont].
    destruct (load_slots_spec w e 0 row false s) as (any & s' & Hl & Hs).
    exists (if rs then Some any else None), s'. split.
    + change (load_slots original w e (imap pair row) false s = (Ok any, s')) in Hl. munfold. by rewrite Hl.
    + intros q. rewrite Hs. change (Z.of_nat 0) with 0. by rewrite Z.sub_0_r.
  - replace ((logical <=? e) && (e <? logical + shared)) with true
      by (symmetry; apply andb_true_iff; split; [apply Z.leb_le|apply Z.ltb_lt]; lia).
    destruct (original_loads w (zlen row + e - logical) rs s) as (s' & Ho & Hs). eexists _, s'. split; [exact Ho|].
    intros q. rewrite Hs, Hlen. by replace (physical + (e - logical)) with (physical + e - logical) by lia.
Qed.

(** Loading the experts of a checkpoint one after the other *)
Definition load_checkpoint (row : list Z) (logical shared : Z) (weights : Z -> W) (ids : list Z) : M S unit :=
  for_each ids (fun e => static_loader original row logical shared 2 false (weights e) e false ;; mret tt).

(** The expert a slot belongs to *)
Definition slot_expert (row : list Z) (logical physical q : Z) : option Z :=
  if q <? physical then zget row q else Some (logical + (q - physical)).

Lemma load_checkpoint_spec row logical physical shared weights ids s :
  covers_experts logical physical row -> (forall e, e ∈ ids -> 0 <= e < logical + shared) ->
  exists s', load_checkpoint row logical shared weights ids s = (Ok tt, s') /\
    forall q e, slot_expert row logical physical q = Some e ->
      slot s' q = if local q && bool_decide (e ∈ ids) then Some (weights e) else slot s q.
Proof.
  intros Hcov. revert s. induction ids as [|e0 ids IH]; intros s Hids.
  - exists s. split; [done|]. intros q e _. rewrite bool_decide_false by set_solver. by rewrite andb_false_r.
  - destruct (static_loader_spec row logical physical shared (weights e0) e0 false s) as (r & s1 & H1 & Hs1);
      [done|apply Hids; set_solver|].
    destruct (IH s1) as (s2 & H2 & Hs2); [set_solver|].
    exists s2. split; [unfold load_checkpoint in *; cbn [for_each]; munfold; by rewrite H1|].
    intros q e Hq. rewrite (Hs2 q e Hq), Hs1. destruct (local q); cbn [andb]; [|done].
    assert ((if e0 <? logical then bool_decide (0 <= q /\ zget row q = Some e0) else q =? physical + (e0 - logical))
      = bool_decide (e = e0)) as ->; [|repeat case_bool_decide; set_solver].
    destruct Hcov as [Hlen Hcov]. unfold slot_expert in Hq. specialize (Hids e0 ltac:(set_solver)).
    destruct (Z.ltb_spec q physical).
    + pose proof (zget_Some _ _ _ Hq) as Hr. apply zget_elem in Hq as He. apply Hcov in He.
      destruct (Z.ltb_spec e0 logical); [apply bool_decide_ext; naive_solver lia|].
      rewrite bool_decide_false by lia. apply Z.eqb_neq. lia.
    + injection Hq as <-. destruct (Z.ltb_spec e0 logical).
      * rewrite !bool_decide_false; [done|lia|]. intros [_ Hz%zget_Some]. lia.
      * case_bool_decide; [apply Z.eqb_eq|apply Z.eqb_neq]; lia.
Qed.
End checkpoint.

(** C34: with a row of a valid plan bound to a layer, loading every logical and
    every fused shared expert of a checkpoint, in any order, ends without an
    exception and puts into every physical slot of the rank the weights of the
    logical expert the plan places there, into every slot after them those of
    its shared expert, and touches no slot of another rank. *)
Theorem checkpoint_fills_slots {S W} (original : W -> Z -> bool -> M S (option bool)) slot local
    row logical physical shared weights ids s :
  loads_slot original slot local -> covers_experts logical physical row -> 0 <= logical -> 0 <= shared ->
  (forall e, e ∈ ids <-> 0 <= e < logical + shared) ->
  exists s', load_checkpoint original row logical shared weights ids s = (Ok tt, s') /\
    (forall q, 0 <= q < physical -> local q = true ->
       exists e, zget row q = Some e /\ slot s' q = Some (weights e)) /\
    (forall i, 0 <= i < shared -> local (physical + i) = true ->
       slot s' (physical + i) = Some (weights (logical + i))) /\
    (forall q e, slot_expert row logical physical q = Some e -> local q = false -> slot s' q = slot s q).
Proof.
  intros Ho Hcov H0 H1 Hids. destruct (load_checkpoint_spec original slot local Ho row logical physical shared weights ids s)
    as (s' & Hl & Hs); [done|by apply Hids|]. exists s'. split; [done|]. destruct Hcov as [Hlen Hcov]. split_and!.
  - intros q Hq Hloc. destruct (zget_is_Some row q) as [e He]; [lia|]. exists e. split; [done|].
    rewrite (Hs q e) by (unfold slot_expert; destruct (Z.ltb_spec q physical); [done|lia]).
    rewrite Hloc, bool_decide_true; [done|]. apply Hids. apply zget_elem, Hcov in He. lia.
  - intros i Hi Hloc. rewrite (Hs _ (logical + i)).
    + rewrite Hloc, bool_decide_true; [done|]. apply Hids. lia.
    + unfold slot_expert. destruct (Z.ltb_spec (physical + i) physical); [lia|]. f_equal. lia.
  - intros q e Hq Hloc. by rewrite (Hs q e Hq), Hloc.
Qed.

(** ** Witnesses: one layer with two logical experts in three slots *)

(** Two slots live on this rank; the state is the list of what was written. *)
Definition example_loader (w : string) (p : Z) (rs : bool) : M (list (Z * string)) (option bool) := fun s =>
  (Ok (if rs then Some (p <? 2) else None), if p <? 2 then (p, w) :: s else s).
Definition example_slot (s : list (Z * string)) (q : Z) : option string := dget s q.
Definition example_weights (e : Z) : string := if e =? 0 then "w0" else if e =? 1 then "w1" else "shared".

Lemma example_loader_loads : loads_slot example_loader example_slot (fun q => q <? 2).
Proof.
  intros w p rs s. eexists. split; [reflexivity|]. intros q. unfold example_slot. destruct (Z.eqb_spec q p) as [->|Hne].
  - rewrite andb_true_r. destruct (p <? 2); [|done]. cbn. by rewrite decide_True.
  - rewrite andb_false_r. destruct (p <? 2); [|done]. cbn. by rewrite decide_False.
Qed.

Lemma checkpoint_fills_slots_witness :
  exists s', load_checkpoint example_loader [1; 0; 1] 2 1 example_weights [2; 0; 1] [] = (Ok tt, s') /\
    example_slot s' 0 = Some "w1" /\ example_slot s' 1 = Some "w0" /\ example_slot s' 2 = None.
Proof.
  destruct (checkpoint_fills_slots example_loader example_slot (fun q => q <? 2) [1; 0; 1] 2 3 1 example_weights
    [2; 0; 1] []) as (s' & Hl & Hslots & _ & Hother).
  - apply example_loader_loads.
  - split; [reflexivity|]. intros e. rewrite !elem_of_cons, elem_of_nil. lia.
  - lia.
  - lia.
  - intros e. rewrite !elem_of_cons, elem_of_nil. lia.
  - exists s'. split; [exact Hl|].
    destruct (Hslots 0) as (e0 & He0 & Hs0); [lia|reflexivity|]. destruct (Hslots 1) as (e1 & He1 & Hs1); [lia|reflexivity|].
    injection He0 as <-. injection He1 as <-. split_and!; [exact Hs0|exact Hs1|].
    rewrite (Hother 2 1); [reflexivity|reflexivity|reflexivity].
Defined.

Definition example_digest : string := "0123456789abcdef0123456789abcdef0123456789abcdef0123456789abcdef".

Definition example_payload : value :=
  VMap true [("version", VInt 2); ("format", VStr OFFLINE_EPLB_FORMAT);
    ("model_maps", VMap true [("Step5ForCausalLM", VMap true
      [("record_kind", VStr "proposal"); ("model_name", VStr "step5"); ("model_class", VStr "Step5ForCausalLM");
       ("num_moe_layers", VInt 1); ("num_logical_experts", VInt 2); ("num_physical_experts", VInt 3);
       ("num_redundant_experts", VInt 1);
       ("physical_to_logical_map", VList [VList [VInt 1; VInt 0; VInt 1]])])])].

Definition example_loads (raw : string) : option value := if decide (raw = "map") then Some example_payload else None.

Definition example_config : value :=
  VObj [("parallel_config", VObj [("enable_eplb", VBool true); ("enable_expert_parallel", VBool true)]);
    ("model_config", VObj [("model", VStr "step5")]);
    ("additional_config", VMap true [("hcu", VMap true [("expert_map_path", VStr "/eplb.json")])])].

Definition example_experts : experts :=
  Experts true 2 3 0 [7] [Param "w13_weight" 7 true (Original 1); Param "bias" 8 false (Original 2)] None false.

Definition example_owner : owner := Owner "Step5ForCausalLM" [Some example_experts] 1 2 3 1 None (Some []) [].

Lemma placement_bound_witness :
  exists p w', bind_static_eplb_plan example_loads (fun _ => example_digest) Ok None Mixture
      (World [Ok "map"] example_config example_owner) = (Ok (Some p), w') /\
    map_values p = [[1; 0; 1]] /\ consumes (w_owner w') p.
Proof.
  destruct (bind_static_eplb_plan example_loads (fun _ => example_digest) Ok None Mixture
    (World [Ok "map"] example_config example_owner)) as [r w'] eqn:E.
  pose proof (placement_bound _ _ _ _ _ _ _ _ E) as H.
  vm_compute in E. injection E as <- <-. eexists _, _. split; [reflexivity|]. split; [reflexivity|]. apply H.
Defined.

Definition example_bound : value := match bind_hcu_eplb_config example_config with Ok c => c | Err _ => VNone end.

(** Two ranks that read copies of the file at different places *)
Lemma ranks_agree_witness :
  exists p q, load_plan example_loads (fun _ => example_digest) Ok example_owner example_bound "/eplb.json" [Ok "map"]
      = (Ok p, []) /\
    load_plan example_loads (fun _ => example_digest) Ok example_owner example_bound "/copy/eplb.json" [Ok "map"]
      = (Ok q, []) /\
    source_path p <> source_path q /\ map_values p = map_values q.
Proof.
  eexists _, _. split; [vm_compute; reflexivity|]. split; [vm_compute; reflexivity|]. split; [discriminate|].
  eapply (ranks_agree example_loads (fun _ => example_digest) Ok example_owner example_owner example_bound example_bound
    "/eplb.json" "/copy/eplb.json" [Ok "map"] [Ok "map"] [] [] _ _ (fun f => [f; f])).
  - vm_compute. reflexivity.
  - vm_compute. reflexivity.
  - vm_compute. reflexivity.
  - vm_compute. left.
  - intros a b Ha%list_elem_of_singleton Hb%list_elem_of_singleton _. congruence.
Defined.
