(* ===== verification/OfflineRecord.v ===== *)
(** * Recording of expert placements

    Models the record file of
    src/vllm_hcu/patch/worker/framework_opt/patch_offline_eplb.py: a
    calibration run keeps the initial placement and the proposed placements of
    its models in one JSON file, which a static run reads with StaticEplb.v.

    The disk is what one path refers to, in memory and on the medium, and the
    temporary files beside it.  Every operation on it takes its outcome from a
    list: done, failed with an OSError, or the process was killed there; a
    failed write leaves any contents.  A call holds an exclusive lock on the
    lock file, so it is one step.  [dumps] and [loads] are [json.dump] with
    sorted keys and [json.loads], as parameters. *)

From stdpp Require Import sorting.
From S2P Require Import Prelude PyString Tensors FeatureConfig StaticEplb.
Import FeatureConfig StaticEplb.
Local Open Scope Z_scope.

Module OfflineRecord.

(** ** JSON values *)

(** What [json.loads] can return: keys are unique. *)
Fixpoint is_json (v : value) : bool :=
  match v with
  | VNone | VBool _ | VInt _ | VStr _ => true
  | VOther t => bool_decide (t = "float")
  | VList l => forallb is_json l
  | VMap mutable items =>
      mutable && bool_decide (NoDup (map fst items)) && forallb (fun kv => is_json kv.2) items
  | VConfig _ | VObj _ => false
  end.

Definition key_le (a b : string * value) : Prop := String.leb a.1 b.1 = true.
#[global] Instance key_le_dec a b : Decision (key_le a b).
Proof. unfold key_le. apply _. Defined.

(** What is read back of a value written with [sort_keys=True] *)
Fixpoint sort_keys (v : value) : value :=
  match v with
  | VMap mutable items => VMap mutable (merge_sort key_le (map (fun kv => (kv.1, sort_keys kv.2)) items))
  | VList l => VList (map sort_keys l)
  | _ => v
  end.

(** ** Validation *)

Definition strict_count (v : value) (name : string) (minimum : Z) : result Z :=
  match v with
  | VInt z => if z <? minimum then refuse name else Ok z
  | _ => refuse name
  end.

Definition REQUIRED : list string :=
  ["record_kind"; "model_name"; "model_class"; "num_moe_layers"; "num_logical_experts"; "num_physical_experts";
   "num_redundant_experts"; "physical_to_logical_map"].

Definition VALIDATION_PATH : string := "/offline-eplb-record-validation".
(** ["0" * 64] *)
Definition VALIDATION_SHA : string := "0000000000000000000000000000000000000000000000000000000000000000".

(** [tuple(row) if isinstance(row, list) else row]: a row that is no list is
    refused like one of a wrong length. *)
Definition entry_row (row : value) : list value := default [] (list_of row).

(** [_validate_model_entry], with the plan it constructs and drops *)
Definition entry_plan (key : string) (entry : value) : result StaticEplbPlan :=
  require (nonempty key) "model key must be nonempty" ;;
  match entry with
  | VMap true items =>
      require (forallb (dmem items) REQUIRED) "is missing" ;;
      match field items "record_kind" with
      | VStr kind =>
          require (bool_decide (kind ∈ RECORD_KINDS)) "record_kind must be initial or proposal" ;;
          match field items "model_name" with
          | VStr name =>
              require (nonempty name) "model_name must be nonempty" ;;
              require (match field items "model_class" with VStr c => bool_decide (c = key) | _ => false end)
                "model_class does not match its key" ;;
              layers ← strict_count (field items "num_moe_layers") "num_moe_layers" 1;
              logical ← strict_count (field items "num_logical_experts") "num_logical_experts" 1;
              physical ← strict_count (field items "num_physical_experts") "num_physical_experts" 1;
              redundant ← strict_count (field items "num_redundant_experts") "num_redundant_experts" 0;
              match field items "physical_to_logical_map" with
              | VList rows =>
                  require (zlen rows =? layers) "physical map layer count mismatch" ;;
                  new_plan key name VALIDATION_PATH VALIDATION_SHA kind (map entry_row rows) logical physical redundant
              | _ => refuse "physical map layer count mismatch"
              end
          | _ => refuse "model_name must be nonempty"
          end
      | _ => refuse "record_kind must be initial or proposal"
      end
  | _ => refuse "model entry is malformed"
  end.

Definition validate_model_entry (key : string) (entry : value) : result unit := entry_plan key entry ;; Ok tt.

Fixpoint validate_model_maps (maps : dict string value) : result unit :=
  match maps with
  | [] => Ok tt
  | (key, entry) :: rest => validate_model_entry key entry ;; validate_model_maps rest
  end.

(** The members of a payload, and of its ["model_maps"] *)
Definition validate_record_payload (payload : value) : result (dict string value * dict string value) :=
  match payload with
  | VMap true items =>
      require (match dget items "version" with Some (VInt z) => z =? 2 | _ => false end) "must declare version 2" ;;
      require (match dget items "format" with Some (VStr f) => bool_decide (f = OFFLINE_EPLB_FORMAT) | _ => false end)
        "format is malformed" ;;
      match dget items "model_maps" with
      | Some (VMap true maps) => validate_model_maps maps ;; Ok (items, maps)
      | _ => refuse "model_maps is malformed"
      end
  | _ => refuse "record is malformed"
  end.

Definition empty_record_items : dict string value :=
  [("version", VInt 2); ("format", VStr OFFLINE_EPLB_FORMAT); ("model_maps", VMap true [])].
Definition empty_record_payload : value := VMap true empty_record_items.

(** ** The disk *)

Section disk.
Context {bytes : Type}.

Record file := File { content : bytes; synced : bool }.

(** What becomes of an operation, with what a write leaves *)
Inductive io_outcome :=
  | Done
  | Fails (written : bytes)
  | Killed (written : bytes).

Record disk := Disk {
  entry : option file;
  durable : option file;
  temporaries : gmap nat file;
  coming : list io_outcome
}.

Definition OSError : exn := Exn (OtherError "OSError") "".
(** The process ends here: no handler runs. *)
Definition killed : exn := Exn (OtherError "killed") "".

Definition set_coming (l : list io_outcome) (d : disk) : disk := Disk (entry d) (durable d) (temporaries d) l.
Definition set_temporary (t : nat) (f : file) (d : disk) : disk :=
  Disk (entry d) (durable d) (<[t := f]> (temporaries d)) (coming d).

(** An operation that may fail; [partial] is what it has done then. *)
Definition io (done : M disk unit) (partial : bytes -> disk -> disk) : M disk unit := fun d =>
  match coming d with
  | [] => done d
  | Done :: rest => done (set_coming rest d)
  | Fails written :: rest => (Err OSError, partial written (set_coming rest d))
  | Killed written :: rest => (Err killed, partial written (set_coming rest d))
  end.

Definition no_partial (written : bytes) (d : disk) : disk := d.

(** [try: m finally: f] *)
Definition finally_ {A} (m : M disk A) (f : M disk unit) : M disk A := fun d =>
  let '(r, d1) := m d in
  if match r with Err e => bool_decide (e = killed) | Ok _ => false end then (r, d1)
  else match f d1 with (Ok _, d2) => (r, d2) | (Err e, d2) => (Err e, d2) end.

Definition next_name (d : disk) : nat := fresh (dom (temporaries d)).

(** [tempfile.mkstemp] for the empty file [empty] *)
Definition mkstemp (empty : bytes) : M disk nat := fun d =>
  let t := next_name d in
  match io (modify (set_temporary t (File empty false))) no_partial d with
  | (Ok _, d') => (Ok t, d')
  | (Err e, d') => (Err e, d')
  end.

(** [json.dump] and [flush] *)
Definition write_temporary (t : nat) (b : bytes) : M disk unit :=
  io (modify (set_temporary t (File b false))) (fun written => set_temporary t (File written false)).

(** [os.fsync] of the file *)
Definition fsync_temporary (t : nat) : M disk unit :=
  io (fun d => match temporaries d !! t with
      | Some f => (Ok tt, set_temporary t (File (content f) true) d)
      | None => (Err OSError, d)
      end) no_partial.

(** [os.replace] *)
Definition replace_output (t : nat) : M disk unit :=
  io (fun d => match temporaries d !! t with
      | Some f => (Ok tt, Disk (Some f) (durable d) (delete t (temporaries d)) (coming d))
      | None => (Err OSError, d)
      end) no_partial.

(** [os.open] and [os.fsync] of the directory *)
Definition fsync_directory : M disk unit :=
  io (modify (fun d => Disk (entry d) (entry d) (temporaries d) (coming d))) no_partial.

(** [temporary.unlink(missing_ok=True)] *)
Definition unlink_temporary (t : nat) : M disk unit :=
  io (modify (fun d => Disk (entry d) (durable d) (delete t (temporaries d)) (coming d))) no_partial.

(** The expansion of the path, [mkdir], and opening and locking the lock file *)
Definition prepare : M disk unit := io (mret tt) no_partial.

(** A power failure: the name refers to what it did or to what is on the
    medium; the contents of a file that was not synchronized are lost.
    Temporary files may survive. *)
Inductive power_failure (d : disk) : disk -> Prop :=
  | power_lost e e' temps rest :
      e = entry d \/ e = durable d ->
      match e with
      | None => e' = None
      | Some f => if synced f then e' = Some f else exists b, e' = Some (File b true)
      end ->
      power_failure d (Disk e' e' temps rest).
End disk.
Arguments file : clear implicits.
Arguments disk : clear implicits.
Arguments io_outcome : clear implicits.

(** ** The record *)

(** A two-dimensional tensor: [None] for another number of dimensions.  The
    elements are what [tolist] gives. *)
Record map_tensor := MapTensor { columns : Z; values : list (list value) }.

Definition entry_of (name class kind : string) (t : map_tensor) (logical redundant : Z) : value :=
  VMap true
    [("record_kind", VStr kind); ("model_name", VStr name); ("model_class", VStr class);
     ("num_moe_layers", VInt (zlen (values t))); ("num_logical_experts", VInt logical);
     ("num_physical_experts", VInt (columns t)); ("num_redundant_experts", VInt redundant);
     ("physical_to_logical_map", VList (map VList (values t)))].

Section record.
Context {bytes : Type} (dumps : value -> bytes) (loads : bytes -> option value) (empty : bytes).

Definition write_record_payload (payload : value) : M (disk bytes) unit :=
  t ← mkstemp empty;
  finally_
    (write_temporary t (dumps payload) ;;
     fsync_temporary t ;;
     replace_output t ;;
     fsync_directory)
    (unlink_temporary t).

(** The existing record, if there is one *)
Definition read_existing : M (disk bytes) (option (dict string value * dict string value)) :=
  d ← get_state;
  match entry d with
  | None => mret None
  | Some f =>
      io (mret tt) no_partial ;;
      match loads (content f) with
      | None => raise ValueError "record contains malformed JSON"
      | Some payload => r ← lift (validate_record_payload payload); mret (Some r)
      end
  end.

Definition start_offline_record_session (ep_rank : Z) : M (disk bytes) unit :=
  if negb (ep_rank =? 0) then mret tt
  else
    prepare ;;
    read_existing ;;
    write_record_payload empty_record_payload.

(** [isinstance(existing, dict) and existing.get("record_kind") == "proposal"] *)
Definition is_proposal (existing : option value) : bool :=
  match existing with
  | Some (VMap true items) =>
      match dget items "record_kind" with Some (VStr k) => bool_decide (k = "proposal") | _ => false end
  | _ => false
  end.

Definition record_offline_expert_map (ep_rank : Z) (key name class : string) (t : option map_tensor)
    (logical redundant : Z) (kind : string) : M (disk bytes) unit :=
  if negb (ep_rank =? 0) then mret tt
  else
    match t with
    | None => raise ValueError "physical_to_logical_map must be two-dimensional"
    | Some t =>
        let new := entry_of name class kind t logical redundant in
        lift (validate_model_entry key new) ;;
        prepare ;;
        existing ← read_existing;
        let '(items, maps) := default (empty_record_items, []) existing in
        if is_proposal (dget maps key) && bool_decide (kind = "initial") then mret tt
        else
          let merged := VMap true (dset items "model_maps" (VMap true (dset maps key new))) in
          lift (validate_record_payload merged) ;;
          write_record_payload merged
    end.

Definition validate_offline_eplb_record_complete `{EqDecision bytes} (sha256 : bytes -> string)
    (resolve : string -> result string) (path : string) (required : list (string * Z)) (expected_name : value)
    (logical redundant : Z) : M (reads bytes) string :=
  validate_static_eplb_artifact loads sha256 resolve path required expected_name logical redundant.
End record.

(** [_paths]: the two paths when set, with [None] for an unset or empty one *)
Definition path_of (v : value) : option string :=
  match v with VStr s => if nonempty s then Some s else None | _ => None end.

Definition paths (parallel_config : value) : result (option string * option string) :=
  let load_path := attribute parallel_config "_vllm_hcu_expert_map_path" in
  let record_path := attribute parallel_config "_vllm_hcu_expert_map_record_path" in
  if truthy load_path && truthy record_path
  then refuse "Static load and offline map recording are mutually exclusive"
  else Ok (path_of load_path, path_of record_path).

End OfflineRecord.
