(* ===== verification/OfflineRecordCorrect.v ===== *)
(** * Correctness of the record of expert placements

    A call replaces the record as a whole or leaves it, also when it fails or
    the process or the machine dies under it; the record is a map from models
    to placements in which a proposal is never replaced by an initial
    placement; and what was recorded is what a static run loads. *)

From stdpp Require Import sorting.
From S2P Require Import Prelude PyString Tensors FeatureConfig StaticEplb StaticEplbCorrect OfflineRecord.
Import FeatureConfig StaticEplb OfflineRecord.
Local Open Scope Z_scope.

(** ** Sorting the keys *)

(** Induction over the elements of lists and the members of mappings *)
Lemma value_nested_ind (P : value -> Prop) :
  (forall l, Forall P l -> P (VList l)) ->
  (forall m items, Forall (fun kv => P kv.2) items -> P (VMap m items)) ->
  (forall v, match v with VList _ | VMap _ _ => False | _ => True end -> P v) ->
  forall v, P v.
Proof.
  intros Hl Hm Ho. fix IH 1. intros [| | | |m items| | |l|]; try by apply Ho.
  - apply Hm. induction items as [|[k x] items IHi]; constructor; [apply IH|apply IHi].
  - apply Hl. induction l as [|x l IHl]; constructor; [apply IH|apply IHl].
Qed.

Definition sort_items (items : dict string value) : dict string value :=
  merge_sort key_le (map (fun kv => (kv.1, sort_keys kv.2)) items).

Lemma sort_items_keys items : map fst (sort_items items) ≡ₚ map fst items.
Proof.
  unfold sort_items. rewrite merge_sort_Permutation, map_map. by apply reflexive_eq, map_ext.
Qed.

Lemma is_json_map m items :
  is_json (VMap m items) = true <->
  m = true /\ NoDup (dkeys items) /\ forall k v, (k, v) ∈ items -> is_json v = true.
Proof.
  cbn [is_json]. rewrite !andb_true_iff, bool_decide_eq_true, forallb_forall. split.
  - intros [[-> Hn] Hf]. split_and!; [done|done|]. intros k v Hin. by apply (Hf (k, v)), list_elem_of_In.
  - intros (-> & Hn & Hf). split_and!; [done|done|]. intros [k v] Hin%list_elem_of_In. by eapply Hf.
Qed.

Lemma is_json_list l : is_json (VList l) = true <-> Forall (fun v => is_json v = true) l.
Proof. cbn [is_json]. by rewrite forallb_forall, Forall_forall; setoid_rewrite list_elem_of_In. Qed.

Lemma is_json_member m items k v : is_json (VMap m items) = true -> dget items k = Some v -> is_json v = true.
Proof. rewrite is_json_map. intros (_ & _ & H) Hg%dget_elem. by eapply H. Qed.

Lemma is_json_dset items k v :
  is_json (VMap true items) = true -> is_json v = true -> is_json (VMap true (dset items k v)) = true.
Proof.
  rewrite !is_json_map. intros (_ & Hn & Hf) Hv. split_and!; [done|by apply NoDup_dset|].
  intros k' v' Hin. apply elem_dget in Hin; [|by apply NoDup_dset]. rewrite dget_dset in Hin.
  case_decide; simplify_eq; [done|]. by eapply Hf, dget_elem.
Qed.

Lemma is_json_sort_keys v : is_json v = true -> is_json (sort_keys v) = true.
Proof.
  induction v as [l IH|m items IH|v Hv] using value_nested_ind.
  - cbn [sort_keys]. rewrite !is_json_list, Forall_fmap, !Forall_forall in *. intros H x Hx. by apply IH, H.
  - cbn [sort_keys]. fold (sort_items items). rewrite !is_json_map. intros (-> & Hn & Hf).
    split_and!; [done| |].
    + unfold dkeys. by rewrite sort_items_keys.
    + intros k v Hin. unfold sort_items in Hin. rewrite merge_sort_Permutation in Hin.
      apply list_elem_of_fmap in Hin as ([k' v'] & Heq & Hin). injection Heq as -> ->.
      rewrite Forall_forall in IH. by apply (IH _ Hin), (Hf k').
  - by destruct v.
Qed.

Lemma dget_perm (d d' : dict string value) k : NoDup (dkeys d) -> d ≡ₚ d' -> dget d k = dget d' k.
Proof.
  intros Hn Hp. assert (NoDup (dkeys d')) as Hn' by (unfold dkeys; by rewrite <- Hp).
  destruct (dget d k) as [v|] eqn:E; symmetry.
  - apply elem_dget; [done|]. rewrite <- Hp. by apply dget_elem.
  - apply dget_None. apply dget_None in E. unfold dkeys in *. by rewrite <- Hp.
Qed.

Lemma dget_map_values (f : value -> value) (d : dict string value) k :
  dget (map (fun kv => (kv.1, f kv.2)) d) k = f <$> dget d k.
Proof. induction d as [|[k' v] d IH]; [done|]. cbn. by case_decide. Qed.

Lemma dget_sort_items items k : NoDup (dkeys items) -> dget (sort_items items) k = sort_keys <$> dget items k.
Proof.
  intros Hn. rewrite <- dget_map_values. apply dget_perm; [|unfold sort_items; apply merge_sort_Permutation].
  unfold dkeys. by rewrite sort_items_keys.
Qed.

(** ** Validation does not see the order of keys *)

Lemma zlen_map {A B} (f : A -> B) l : zlen (map f l) = zlen l.
Proof. unfold zlen. by rewrite length_map. Qed.

Lemma expert_id_sort logical v : expert_id logical (sort_keys v) = expert_id logical v.
Proof. by destruct v. Qed.

Lemma check_row_sort logical physical row :
  check_row logical physical (map sort_keys row) = check_row logical physical row.
Proof.
  unfold check_row. rewrite zlen_map. case_if; [done|].
  assert (mapM (expert_id logical) (map sort_keys row) = mapM (expert_id logical) row) as ->; [|done].
  clear E. induction row as [|v row IH]; [done|]. cbn. by rewrite expert_id_sort, IH.
Qed.

Lemma entry_row_sort row : entry_row (sort_keys row) = map sort_keys (entry_row row).
Proof. by destruct row. Qed.

Lemma check_rows_sort logical physical rows :
  check_rows logical physical (map entry_row (map sort_keys rows)) = check_rows logical physical (map entry_row rows).
Proof.
  induction rows as [|row rows IH]; [done|]. cbn [map check_rows]. by rewrite entry_row_sort, check_row_sort, IH.
Qed.

Lemma field_sort items n : NoDup (dkeys items) -> field (sort_items items) n = sort_keys (field items n).
Proof. intros Hn. unfold field. rewrite dget_sort_items by done. by destruct (dget items n). Qed.

Lemma forallb_dmem_sort items names :
  NoDup (dkeys items) -> forallb (dmem (sort_items items)) names = forallb (dmem items) names.
Proof.
  intros Hn. induction names as [|n names IH]; [done|]. cbn [forallb]. rewrite IH. f_equal. unfold dmem.
  rewrite dget_sort_items by done. by destruct (dget items n).
Qed.

Lemma strict_count_sort v name minimum : strict_count (sort_keys v) name minimum = strict_count v name minimum.
Proof. by destruct v. Qed.

Lemma entry_plan_sort key e : is_json e = true -> entry_plan key (sort_keys e) = entry_plan key e.
Proof.
  intros Hj. destruct e as [| | | |m items| | | |]; try done. apply is_json_map in Hj as (-> & Hn & _).
  unfold entry_plan. cbn [sort_keys]. fold (sort_items items).
  rewrite forallb_dmem_sort, !field_sort, !strict_count_sort by done.
  destruct (field items "record_kind"), (field items "model_name"); try done. cbn [sort_keys].
  unfold mbind, result_bind. destruct (require (nonempty key) _); [|done].
  destruct (require (forallb _ _) _); [|done]. destruct (require (bool_decide _) _); [|done].
  destruct (require (nonempty _) _); [|done].
  replace (match sort_keys (field items "model_class") with VStr c => bool_decide (c = key) | _ => false end)
    with (match field items "model_class" with VStr c => bool_decide (c = key) | _ => false end)
    by (by destruct (field items "model_class")).
  destruct (require _ _); [|done]. destruct (strict_count _ "num_moe_layers" _) as [layers|]; [|done].
  destruct (strict_count _ "num_logical_experts" _) as [logical|]; [|done].
  destruct (strict_count _ "num_physical_experts" _) as [physical|]; [|done].
  destruct (strict_count _ "num_redundant_experts" _) as [redundant|]; [|done].
  destruct (field items "physical_to_logical_map"); try done.
  cbn [sort_keys]. unfold new_plan. by rewrite check_rows_sort, !zlen_map.
Qed.

(** The plan an entry stands for *)
Definition plan_of (key : string) (e : value) : option StaticEplbPlan :=
  match entry_plan key e with Ok p => Some p | Err _ => None end.

Definition entry_ok (key : string) (e : value) : Prop := is_Some (plan_of key e).

Lemma validate_model_entry_ok key e u : validate_model_entry key e = Ok u <-> entry_ok key e.
Proof.
  unfold validate_model_entry, entry_ok, plan_of, mbind, result_bind.
  destruct (entry_plan key e), u; split; try done; by intros [? ?].
Qed.

Lemma validate_model_maps_ok maps u :
  validate_model_maps maps = Ok u <-> forall k e, (k, e) ∈ maps -> entry_ok k e.
Proof.
  destruct u. induction maps as [|[k e] maps IH]; cbn [validate_model_maps].
  - split; [|done]. set_solver.
  - unfold mbind, result_bind. destruct (validate_model_entry k e) as [[]|] eqn:E.
    + rewrite validate_model_entry_ok in E. rewrite IH. split.
      * intros H k' e' [[= -> ->]|Hin]%elem_of_cons; [done|by apply H].
      * intros H k' e' Hin. apply H. by right.
    + split; [done|]. intros H. assert (entry_ok k e) as He by (apply H; by left).
      apply (validate_model_entry_ok k e tt) in He. congruence.
Qed.

(** A well-formed record *)
Record record_of (payload : value) (items maps : dict string value) : Prop := RecordOf {
  ro_payload : payload = VMap true items;
  ro_json : is_json payload = true;
  ro_version : dget items "version" = Some (VInt 2);
  ro_format : dget items "format" = Some (VStr OFFLINE_EPLB_FORMAT);
  ro_maps : dget items "model_maps" = Some (VMap true maps);
  ro_entries : forall k e, (k, e) ∈ maps -> entry_ok k e
}.

Lemma validate_record_iff payload items maps :
  is_json payload = true -> validate_record_payload payload = Ok (items, maps) <-> record_of payload items maps.
Proof.
  intros Hj. split.
  - unfold validate_record_payload. intros H. destruct payload as [| | | |[] its| | | |]; try done.
    step H. destruct (dget its "model_maps") as [v|] eqn:Em; [|done].
    destruct v as [| | | |[] ms| | | |]; try done.
    unfold mbind, result_bind in H. destruct (validate_model_maps ms) as [[]|] eqn:Ev; [|done]. injection H as -> ->.
    destruct (dget items "version") as [[]|] eqn:Ever; try done. bool_prop. subst.
    destruct (dget items "format") as [[]|] eqn:Ef; try done. rewrite bool_decide_eq_true in E0. subst.
    constructor; try done. by apply (validate_model_maps_ok _ tt).
  - intros [-> _ Hv Hf Hm He]. unfold validate_record_payload. rewrite Hv, Hf, Hm.
    apply (validate_model_maps_ok _ tt) in He. unfold require. rewrite bool_decide_true by done. cbn.
    by rewrite He.
Qed.

Lemma record_of_sort payload items maps :
  record_of payload items maps -> record_of (sort_keys payload) (sort_items items) (sort_items maps).
Proof.
  intros [-> Hj Hv Hf Hm He]. pose proof Hj as (_ & Hn & _)%is_json_map.
  pose proof (is_json_member _ _ _ _ Hj Hm) as Hjm. pose proof Hjm as (_ & Hnm & Hem)%is_json_map.
  constructor; [done|by apply is_json_sort_keys|by rewrite dget_sort_items, ?Hv, ?Hf, ?Hm..|].
  intros k e Hin. unfold sort_items in Hin. rewrite merge_sort_Permutation in Hin.
  apply list_elem_of_fmap in Hin as ([k' e'] & [= -> ->] & Hin).
  unfold entry_ok, plan_of. rewrite entry_plan_sort by (by eapply Hem). by apply He.
Qed.

Lemma record_of_insert payload items maps key e :
  record_of payload items maps -> is_json e = true -> entry_ok key e ->
  record_of (VMap true (dset items "model_maps" (VMap true (dset maps key e))))
    (dset items "model_maps" (VMap true (dset maps key e))) (dset maps key e).
Proof.
  intros [-> Hj Hv Hf Hm He] Hje Hok. pose proof (is_json_member _ _ _ _ Hj Hm) as Hjm.
  constructor; [done| |by rewrite dget_dset_ne..|by rewrite dget_dset_eq|].
  - by apply is_json_dset, is_json_dset.
  - apply is_json_map in Hjm as (_ & Hnm & _). intros k e' Hin%elem_dget; [|by apply NoDup_dset].
    rewrite dget_dset in Hin. case_decide; simplify_eq; [done|]. by apply He, dget_elem.
Qed.

Lemma empty_record : record_of empty_record_payload empty_record_items [].
Proof. constructor; try done. set_solver. Qed.

(** ** The record as a map *)

Definition models (maps : dict string value) : gmap string StaticEplbPlan := map_imap plan_of (list_to_map maps).

Lemma list_to_map_dget (maps : dict string value) k : (list_to_map maps : gmap string value) !! k = dget maps k.
Proof.
  induction maps as [|[k' v] maps IH]; [done|]. cbn [list_to_map foldr dget].
  rewrite lookup_insert. by repeat case_decide.
Qed.

Lemma models_lookup maps k : models maps !! k = dget maps k ≫= plan_of k.
Proof. unfold models. by rewrite map_lookup_imap, list_to_map_dget. Qed.

Lemma models_sort payload items maps : record_of payload items maps -> models (sort_items maps) = models maps.
Proof.
  intros H. apply map_eq. intros k. rewrite !models_lookup.
  pose proof (is_json_member _ _ _ _ ltac:(rewrite <- (ro_payload _ _ _ H); apply H) (ro_maps _ _ _ H)) as Hj.
  rewrite dget_sort_items by (by apply is_json_map in Hj as (_ & ? & _)).
  destruct (dget maps k) as [e|] eqn:E; [|done]. cbn. unfold plan_of.
  by rewrite entry_plan_sort by (by eapply is_json_member).
Qed.

(** What a call does to the map: an initial placement does not replace a
    proposal. *)
Definition merge_plan (key : string) (p : StaticEplbPlan) (m : gmap string StaticEplbPlan)
    : gmap string StaticEplbPlan :=
  if bool_decide (record_kind p = "initial" /\ (record_kind <$> m !! key) = Some "proposal")
  then m else <[key := p]> m.

(** ** Entries *)

Lemma strict_count_inv v name minimum z : strict_count v name minimum = Ok z -> v = VInt z /\ minimum <= z.
Proof. unfold strict_count. destruct v; try done. case_if; [done|]. by intros [= ->]. Qed.

Lemma field_dget items n v : field items n = v -> v <> VNone -> dget items n = Some v.
Proof. unfold field. destruct (dget items n); cbn; congruence. Qed.

(** What the entry of a plan holds *)
Record entry_holds (key : string) (items : dict string value) (l : list value) (p : StaticEplbPlan) : Prop := Holds {
  eh_kind : dget items "record_kind" = Some (VStr (record_kind p));
  eh_name : dget items "model_name" = Some (VStr (model_name p));
  eh_class : dget items "model_class" = Some (VStr key);
  eh_layers : dget items "num_moe_layers" = Some (VInt (zlen l));
  eh_logical : dget items "num_logical_experts" = Some (VInt (num_logical_experts p));
  eh_physical : dget items "num_physical_experts" = Some (VInt (num_physical_experts p));
  eh_redundant : dget items "num_redundant_experts" = Some (VInt (num_redundant_experts p));
  eh_map : dget items "physical_to_logical_map" = Some (VList l);
  eh_plan : new_plan key (model_name p) VALIDATION_PATH VALIDATION_SHA (record_kind p) (map entry_row l)
    (num_logical_experts p) (num_physical_experts p) (num_redundant_experts p) = Ok p
}.

Lemma new_plan_fields key name path sha kind rows logical physical redundant p :
  new_plan key name path sha kind rows logical physical redundant = Ok p ->
  exists m, p = Plan key name path sha kind m logical physical redundant /\ check_rows logical physical rows = Ok m.
Proof.
  unfold new_plan. intros H. step H. destruct (check_rows _ _ _) as [m|]; [|done]. injection H as <-. eauto.
Qed.

Lemma entry_plan_inv key e p :
  entry_plan key e = Ok p -> exists items l, e = VMap true items /\ entry_holds key items l p.
Proof.
  unfold entry_plan. intros H. step H. destruct e as [| | | |[] items| | | |]; try done. step H.
  destruct (field items "record_kind") as [| | |kind| | | | |] eqn:Ek; try done. step H.
  destruct (field items "model_name") as [| | |name| | | | |] eqn:En; try done. step H.
  destruct (field items "model_class") as [| | |c| | | | |] eqn:Ec; try done.
  rename select (bool_decide (c = key) = true) into Hc. rewrite bool_decide_eq_true in Hc. subst c.
  destruct (strict_count _ _ _) as [layers|] eqn:E4 in H; [|done].
  destruct (strict_count _ _ _) as [logical|] eqn:E5 in H; [|done].
  destruct (strict_count _ _ _) as [physical|] eqn:E6 in H; [|done].
  destruct (strict_count _ _ _) as [redundant|] eqn:E7 in H; [|done].
  apply strict_count_inv in E4 as [E4 _], E5 as [E5 _], E6 as [E6 _], E7 as [E7 _].
  destruct (field items "physical_to_logical_map") as [| | | | | | |l|] eqn:El; try done. step H. bool_prop. subst layers.
  exists items, l. split; [done|]. destruct (new_plan_fields _ _ _ _ _ _ _ _ _ _ H) as (m & -> & Hm).
  constructor; cbn; try (by apply field_dget). done.
Qed.

Lemma check_row_values logical physical row ids : check_row logical physical row = Ok ids -> row = map VInt ids.
Proof.
  unfold check_row. case_if; [done|]. destruct (mapM _ row) as [l|] eqn:Em; [|done].
  destruct (forallb _ _); [|done]. intros [= <-]. apply mapM_Some in Em. clear -Em.
  induction Em as [|v z row l Hv _ IH]; [done|]. apply expert_id_spec in Hv as [-> _]. cbn. by f_equal.
Qed.

Lemma check_rows_values logical physical rows m : check_rows logical physical rows = Ok m -> rows = map (map VInt) m.
Proof.
  revert m. induction rows as [|row rows IH]; intros m H; cbn in H; [by injection H as <-|].
  unfold mbind, result_bind in H. destruct (check_row _ _ _) as [ids|] eqn:Er; [|done].
  destruct (check_rows _ _ _) as [m'|] eqn:Em; [|done]. injection H as <-. cbn.
  by rewrite <- (check_row_values _ _ _ _ Er), <- (IH _ eq_refl).
Qed.

(** The plan of a recorded tensor *)
Lemma entry_of_plan key name class kind t logical redundant p :
  entry_plan key (entry_of name class kind t logical redundant) = Ok p ->
  exists m, p = Plan key name VALIDATION_PATH VALIDATION_SHA kind m logical (columns t) redundant /\
    values t = map (map VInt) m.
Proof.
  intros H. pose proof H as (items & l & [= <-] & Hh)%entry_plan_inv. destruct Hh as [[= Hk] [= Hn] _ _ [= Hl] [= Hp] [= Hr] [= Hm] H'].
  apply new_plan_fields in H' as (m & Heq & Hc). apply check_rows_values in Hc.
  exists m. split; [by rewrite Heq, <- Hk, <- Hn, <- Hl, <- Hp, <- Hr at 1|].
  rewrite <- Hc, <- Hm, map_map. symmetry. by rewrite <- (map_id (values t)) at 2.
Qed.

Lemma is_json_entry_of key name class kind t logical redundant :
  entry_ok key (entry_of name class kind t logical redundant) ->
  is_json (entry_of name class kind t logical redundant) = true.
Proof.
  intros [p Hp]. unfold plan_of in Hp. destruct (entry_plan _ _) as [q|] eqn:E; [|done].
  apply entry_of_plan in E as (m & _ & Hv). unfold entry_of. rewrite is_json_map. split_and!; [done| |].
  - vm_compute dkeys. apply (bool_decide_unpack _). by vm_compute.
  - intros k v Hin. assert (is_json (VList (map VList (values t))) = true) as Hj.
    { rewrite Hv. apply is_json_list. rewrite !Forall_fmap. apply Forall_true. intros row.
      cbn. induction row as [|z row IH]; [done|]. done. }
    rewrite !elem_of_cons in Hin.
    repeat (destruct Hin as [Hin|Hin]; [by injection Hin as _ ->|]). by apply elem_of_nil in Hin.
Qed.

Lemma is_proposal_plan key e p :
  entry_plan key e = Ok p -> is_proposal (Some e) = bool_decide (record_kind p = "proposal").
Proof. intros (items & l & -> & Hh)%entry_plan_inv. cbn. by rewrite (eh_kind _ _ _ _ Hh). Qed.

(** ** Reading a record as a plan *)

(** What [hexdigest] of a SHA-256 returns *)
Definition hex_digest (sha : string) : Prop := (String.length sha =? 64)%nat && all_chars hex_digit sha = true.

(** The plan as it is loaded from a file *)
Definition loaded_from (path sha : string) (p : StaticEplbPlan) : StaticEplbPlan :=
  Plan (model_key p) (model_name p) path sha (record_kind p) (map_values p) (num_logical_experts p)
    (num_physical_experts p) (num_redundant_experts p).

Lemma check_rows_lists logical physical l m :
  0 < physical -> check_rows logical physical (map entry_row l) = Ok m -> mapM list_of l = Some (map entry_row l).
Proof.
  intros Hp. revert m. induction l as [|v l IH]; intros m H; [done|]. cbn [map check_rows] in H.
  unfold mbind, result_bind in H. destruct (check_row _ _ _) as [ids|] eqn:Er; [|done].
  destruct (check_rows _ _ _) as [m'|]; [|done]. cbn [mapM map]. rewrite (IH m' eq_refl).
  assert (entry_row v <> []) as Hne.
  { intros H0. rewrite H0 in Er. unfold check_row in Er. replace (zlen [] =? physical) with false in Er; [done|].
    symmetry. apply Z.eqb_neq. change (zlen (@nil value)) with 0. lia. }
  by destruct v.
Qed.

Lemma new_plan_checks key name path sha kind rows logical physical redundant p :
  new_plan key name path sha kind rows logical physical redundant = Ok p ->
  nonempty key = true /\ nonempty name = true /\ kind ∈ RECORD_KINDS /\ 1 <= logical /\ 1 <= physical /\ 0 <= redundant /\
  logical + redundant = physical /\ rows <> [].
Proof.
  unfold new_plan. intros H. step H. bool_prop. unfold integer in *.
  repeat match goal with E : (if ?b then _ else _) = Ok _ |- _ => destruct b eqn:?; [discriminate E|] end. bool_prop.
  rename select (bool_decide (kind ∈ _) = true) into Hk. rewrite bool_decide_eq_true in Hk.
  split_and!; [done|done|done|lia|lia|lia|done|]. by intros ->.
Qed.

Lemma new_plan_relocate key name path sha path' sha' kind rows logical physical redundant p :
  new_plan key name path sha kind rows logical physical redundant = Ok p ->
  is_absolute path' = true -> hex_digest sha' ->
  new_plan key name path' sha' kind rows logical physical redundant = Ok (loaded_from path' sha' p).
Proof.
  unfold new_plan, hex_digest. intros H Hpath Hsha. rewrite Hpath, Hsha. step H.
  destruct (check_rows _ _ _) as [m|]; [|done]. injection H as <-.
  repeat match goal with E : ?b = true |- _ => rewrite E; clear E end.
  repeat match goal with E : integer _ _ _ = Ok _ |- _ => rewrite E; clear E end. done.
Qed.

Lemma same_value_refl v : match v with VStr _ | VInt _ => True | _ => False end -> same_value v v = true.
Proof. destruct v; cbn; try done; intros _; [apply Z.eqb_refl|by apply bool_decide_true]. Qed.

Lemma plan_of_payload_recorded payload items maps key p path sha :
  record_of payload items maps -> models maps !! key = Some p -> record_kind p = "proposal" ->
  is_absolute path = true -> hex_digest sha ->
  plan_of_payload payload sha path key (model_name p) (zlen (map_values p), num_physical_experts p)
    (num_logical_experts p) (num_redundant_experts p) true = Ok (loaded_from path sha p).
Proof.
  intros [-> _ Hv Hf Hm _] Hp Hk Hpath Hsha. rewrite models_lookup in Hp.
  destruct (dget maps key) as [e|] eqn:Ee; [|done]. cbn in Hp. unfold plan_of in Hp.
  destruct (entry_plan key e) as [q|] eqn:Eq; [|done]. injection Hp as ->.
  apply entry_plan_inv in Eq as (sel & l & -> & [H1 H2 H3 H4 H5 H6 H7 H8 Hn]).
  pose proof (new_plan_checks _ _ _ _ _ _ _ _ _ _ Hn) as (_ & Hname & Hkind & _ & Hphys & _ & _ & _).
  pose proof (new_plan_fields _ _ _ _ _ _ _ _ _ _ Hn) as (m & Hpl & Hc).
  assert (zlen l = zlen (map_values p)) as Hlen.
  { apply check_rows_spec in Hc as [Hc _]. rewrite Hpl. cbn. by rewrite Hc, zlen_map. }
  assert (0 < num_physical_experts p) as Hpos by lia.
  pose proof (check_rows_lists _ _ _ _ Hpos Hc) as Hlist.
  assert (forall (A : Type) (b : bool) msg (k : unit -> result A), b = true -> (require b msg ≫= k) = k tt) as Hreq
    by (by intros A b msg k ->).
  unfold plan_of_payload. rewrite Hv, Hf, Hm, Ee, !Hreq by (done || by apply bool_decide_true).
  assert (forall n v, dget sel n = Some v -> required_field sel n = Ok v) as Hfield
    by (intros n v Hd; unfold required_field; by rewrite Hd).
  rewrite (Hfield _ _ H1). cbn [mbind result_bind].
  rewrite Hreq by (by apply bool_decide_true). rewrite Hreq by (by rewrite Hk).
  rewrite (Hfield _ _ H2). cbn [mbind result_bind].
  rewrite !Hreq by (done || by apply bool_decide_true).
  cbn [check_metadata].
  rewrite (Hfield _ _ H3), (Hfield _ _ H4), (Hfield _ _ H5), (Hfield _ _ H6), (Hfield _ _ H7), (Hfield _ _ H8), Hlen.
  cbn [fst snd]. unfold mbind, result_bind. rewrite !same_value_refl by done. cbn [require].
  rewrite Hlist, Hlen, Z.eqb_refl.
  cbn [require]. by apply new_plan_relocate with (1 := Hn).
Qed.

(** ** Refusals *)

(** The computation raises nothing but a ValueError. *)
Definition refuses {A} (r : result A) : Prop := match r with Ok _ => True | Err e => exn_type e = ValueError end.

Lemma refuses_bind {A B} (m : result A) (f : A -> result B) :
  refuses m -> (forall a, refuses (f a)) -> refuses (m ≫= f).
Proof. destruct m; cbn; auto. Qed.

Create HintDb refuse.

Lemma refuses_require b msg : refuses (require b msg).
Proof. by destruct b. Qed.
Lemma refuses_integer z name minimum : refuses (integer z name minimum).
Proof. unfold integer. by case_if. Qed.
Lemma refuses_strict_count v name minimum : refuses (strict_count v name minimum).
Proof. unfold strict_count. destruct v; try done. by case_if. Qed.
Lemma refuses_check_row logical physical row : refuses (check_row logical physical row).
Proof. unfold check_row. case_if; [done|]. destruct (mapM _ _); [|done]. by case_if. Qed.
#[local] Hint Resolve refuses_bind refuses_require refuses_integer refuses_strict_count refuses_check_row : refuse.
#[local] Hint Extern 0 (refuses (Ok _)) => exact I : refuse.
#[local] Hint Extern 0 (refuses (refuse _)) => reflexivity : refuse.

Lemma refuses_check_rows logical physical rows : refuses (check_rows logical physical rows).
Proof. induction rows as [|row rows IH]; cbn [check_rows]; auto 10 with refuse. Qed.
#[local] Hint Resolve refuses_check_rows : refuse.

Lemma refuses_entry_plan key e : refuses (entry_plan key e).
Proof.
  unfold entry_plan, new_plan.
  repeat (apply refuses_bind; [by auto with refuse|intros ?]).
  destruct e as [| | | |[] items| | | |]; try done.
  apply refuses_bind; [by auto with refuse|intros _]. destruct (field items "record_kind"); try done.
  apply refuses_bind; [by auto with refuse|intros _]. destruct (field items "model_name"); try done.
  repeat (apply refuses_bind; [by auto with refuse|intros ?]).
  destruct (field items "physical_to_logical_map"); try done.
  repeat (apply refuses_bind; [by auto with refuse|intros ?]). done.
Qed.

(** ** One write *)

Section disk.
Context {bytes : Type} (dumps : value -> bytes) (loads : bytes -> option value) (empty : bytes).
Implicit Types (d : disk bytes).

(** An operation is done, or fails with what it left. *)
Lemma io_cases (done : M (disk bytes) unit) partial d :
  exists l, (coming d = [] -> l = []) /\
    (io done partial d = done (set_coming l d) \/
     coming d <> [] /\ exists w e, io done partial d = (Err e, partial w (set_coming l d))).
Proof.
  unfold io. destruct (coming d) as [|o l] eqn:E.
  - exists []. split; [done|]. left. f_equal. destruct d. cbn in E. by subst.
  - exists l. split; [done|]. destruct o as [|w|w]; [by left|right..]; (split; [done|]); eauto.
Qed.

Ltac io_step d l Hl :=
  match goal with
  | |- context [io ?f ?p d] =>
      let H := fresh "H" in
      destruct (io_cases f p d) as (l & Hl & [H|[? (? & ? & H)]]); rewrite H; clear H
  end.

(** What a write may leave of the name of the record *)
Record written (b : bytes) (d : disk bytes) (r : result unit) (d' : disk bytes) : Prop := Written {
  wr_entry : entry d' = entry d \/ entry d' = Some (File b true);
  wr_durable : durable d' = durable d \/ durable d' = Some (File b true);
  wr_ok : r = Ok tt ->
    entry d' = Some (File b true) /\ durable d' = Some (File b true) /\ temporaries d' = temporaries d;
  wr_succeeds : coming d = [] -> r = Ok tt /\ coming d' = []
}.

(** The body of the [try], with the temporary file [t] *)
Definition write_body (t : nat) (b : bytes) : M (disk bytes) unit :=
  write_temporary t b ;; fsync_temporary t ;; replace_output t ;; fsync_directory.

Lemma write_body_spec t b d r d1 :
  write_body t b d = (r, d1) ->
  (entry d1 = entry d \/ entry d1 = Some (File b true)) /\
  (durable d1 = durable d \/ durable d1 = Some (File b true)) /\
  (r = Ok tt -> entry d1 = Some (File b true) /\ durable d1 = Some (File b true)) /\
  delete t (temporaries d1) = delete t (temporaries d) /\
  (coming d = [] -> r = Ok tt /\ coming d1 = []).
Proof.
  unfold write_body, write_temporary, fsync_temporary, replace_output, fsync_directory.
  unfold mbind, M_bind, modify, no_partial. intros H. revert H.
  io_step d l1 Hl1; cbn beta iota.
  2:{ intros [= <- <-]. cbn. split_and!; [by left|by left|done|by rewrite delete_insert_eq|done]. }
  set (d2 := set_temporary t _ _). io_step d2 l2 Hl2; cbn beta iota.
  2:{ intros [= <- <-]. cbn. split_and!; [by left|by left|done|by rewrite delete_insert_eq|naive_solver]. }
  unfold d2. cbn. rewrite lookup_insert_eq. cbn. set (d3 := set_temporary t _ _). io_step d3 l3 Hl3; cbn beta iota.
  2:{ intros [= <- <-]. cbn. split_and!; [by left|by left|done|by rewrite !delete_insert_eq|naive_solver]. }
  unfold d3. cbn. rewrite lookup_insert_eq. cbn. set (d4 := Disk _ _ _ _). io_step d4 l4 Hl4; cbn beta iota.
  2:{ intros [= <- <-]. cbn. split_and!; [by right|by left|done|by rewrite !delete_insert_eq, delete_delete_eq|naive_solver]. }
  intros [= <- <-]. cbn. split_and!; [by right|by right|done|by rewrite !delete_insert_eq, delete_delete_eq|naive_solver].
Qed.

Lemma write_record_spec payload d r d' :
  write_record_payload dumps empty payload d = (r, d') -> written (dumps payload) d r d'.
Proof.
  unfold write_record_payload. unfold mbind at 1, M_bind at 1, mkstemp at 1. cbv zeta.
  assert (temporaries d !! next_name d = None) as Hfresh by (apply not_elem_of_dom, is_fresh).
  set (t := next_name d) in *.
  io_step d l1 Hl1; cbn beta iota.
  2:{ intros [= <- <-]. constructor; cbn; [by left|by left|done|done]. }
  unfold modify at 1. cbn beta iota. set (d1 := set_temporary t _ _). unfold finally_.
  fold (write_body t (dumps payload)). destruct (write_body t (dumps payload) d1) as [r2 d2] eqn:Eb.
  apply write_body_spec in Eb as (He & Hd & Hok & Ht & Hc). cbn [d1 entry durable set_temporary set_coming] in He, Hd.
  replace (delete t (temporaries d1)) with (temporaries d) in Ht
    by (cbn; by rewrite delete_insert_id).
  cbn beta iota. destruct (match r2 with Ok _ => false | Err e => bool_decide (e = killed) end) eqn:Ek.
  - intros [= <- <-]. constructor; [done|done|by destruct r2|].
    intros Hz. destruct Hc as [-> _]; [|done]. cbn. auto.
  - unfold unlink_temporary, modify, no_partial. io_step d2 l2 Hl2; cbn beta iota.
    + intros [= <- <-]. constructor; cbn; [done|done| |].
      * intros Hz. destruct (Hok Hz). by rewrite Ht.
      * intros Hz. destruct Hc as [-> Hc]; [cbn; auto|]. auto.
    + intros [= <- <-]. constructor; cbn; [done|done|done|].
      intros Hz. destruct Hc as [-> Hc]; [cbn; auto|]. done.
Qed.

(** ** Calls *)

(** What [json.dump] with sorted keys and [json.loads] do *)
Record json_laws : Prop := JsonLaws {
  loads_dumps v : is_json v = true -> loads (dumps v) = Some (sort_keys v);
  loads_json raw v : loads raw = Some v -> is_json v = true
}.
Hypothesis laws : json_laws.

Definition good_file (f : file bytes) : Prop :=
  synced f = true /\ exists payload items maps, loads (content f) = Some payload /\ record_of payload items maps.

(** The record and what is on the medium are whole and well formed. *)
Definition good (d : disk bytes) : Prop :=
  (forall f, entry d = Some f -> good_file f) /\ (forall f, durable d = Some f -> good_file f).

(** The placements of the models *)
Definition models_of (o : option (file bytes)) : gmap string StaticEplbPlan :=
  match o with
  | None => ∅
  | Some f =>
      match loads (content f) with
      | None => ∅
      | Some v => match validate_record_payload v with Ok (_, maps) => models maps | Err _ => ∅ end
      end
  end.

Lemma models_of_record b v items maps s :
  loads b = Some v -> record_of v items maps -> models_of (Some (File b s)) = models maps.
Proof.
  intros Hl Hr. cbn. rewrite Hl. pose proof Hr as Hv%validate_record_iff; [|apply Hr]. by rewrite Hv.
Qed.

Lemma good_written v items maps :
  record_of v items maps ->
  good_file (File (dumps v) true) /\ models_of (Some (File (dumps v) true)) = models maps.
Proof using laws.
  intros Hr. pose proof (loads_dumps laws v (ro_json _ _ _ Hr)) as Hl. pose proof (record_of_sort _ _ _ Hr) as Hs.
  split; [split; [done|]; eauto|]. rewrite (models_of_record _ _ _ _ _ Hl Hs). by eapply models_sort.
Qed.

Lemma io_read_spec d r d' :
  io (mret tt) no_partial d = (r, d') ->
  exists l, d' = set_coming l d /\ (coming d = [] -> r = Ok tt /\ l = []).
Proof.
  destruct (io_cases (mret tt) no_partial d) as (l & Hl & [H|[Hn (w & e & H)]]); rewrite H; intros [= <- <-];
    exists l; (split; [done|]); naive_solver.
Qed.

Lemma read_existing_spec d r d' :
  good d -> read_existing loads d = (r, d') ->
  exists l, d' = set_coming l d /\ (coming d = [] -> is_ok r = true /\ l = []) /\
  forall x, r = Ok x ->
    let '(items, maps) := default (empty_record_items, []) x in
    record_of (VMap true items) items maps /\ models maps = models_of (entry d).
Proof using laws.
  intros [Hg _]. unfold read_existing. munfold. destruct (entry d) as [f|] eqn:Ee.
  - specialize (Hg f eq_refl) as [_ (payload & items & maps & Hl & Hr)].
    destruct (io (λ s, (Ok tt, s)) no_partial d) as [r1 d1] eqn:Ei.
    apply (io_read_spec d r1 d1) in Ei as (l & -> & Hc). rewrite Hl.
    pose proof Hr as Hv%validate_record_iff; [|apply Hr]. rewrite Hv.
    destruct r1 as [[]|e]; intros [= <- <-]; exists l; (split; [done|]); (split; [naive_solver|]); [|done].
    intros x [= <-]. cbn. pose proof (ro_payload _ _ _ Hr) as ->. rewrite Hl, Hv. done.
  - intros [= <- <-]. exists (coming d). split; [by destruct d|]. split; [done|]. intros x [= <-]. cbn.
    split; [apply empty_record|done].
Qed.

Inductive call :=
  | Start (ep_rank : Z)
  | Save (ep_rank : Z) (key name class : string) (t : option map_tensor) (logical redundant : Z) (kind : string).

Definition run_call (c : call) : M (disk bytes) unit :=
  match c with
  | Start ep_rank => start_offline_record_session dumps loads empty ep_rank
  | Save ep_rank key name class t logical redundant kind =>
      record_offline_expert_map dumps loads empty ep_rank key name class t logical redundant kind
  end.

(** What a call that returns does to the placements *)
Definition apply_call (c : call) (m : gmap string StaticEplbPlan) : gmap string StaticEplbPlan :=
  match c with
  | Start ep_rank => if ep_rank =? 0 then ∅ else m
  | Save ep_rank key name class t logical redundant kind =>
      if ep_rank =? 0 then
        match t ≫= fun t => plan_of key (entry_of name class kind t logical redundant) with
        | Some p => merge_plan key p m
        | None => m
        end
      else m
  end.

(** The arguments of the call are accepted. *)
Definition accepted (c : call) : Prop :=
  match c with
  | Start _ => True
  | Save ep_rank key name class t logical redundant kind =>
      ep_rank = 0 -> is_Some (t ≫= fun t => plan_of key (entry_of name class kind t logical redundant))
  end.

Lemma merge_decision payload items maps key name class kind t logical redundant p :
  record_of payload items maps ->
  entry_plan key (entry_of name class kind t logical redundant) = Ok p ->
  is_proposal (dget maps key) && bool_decide (kind = "initial") =
  bool_decide (record_kind p = "initial" /\ (record_kind <$> models maps !! key) = Some "proposal").
Proof.
  intros Hr Hp. apply entry_of_plan in Hp as (m & -> & _). cbn [record_kind]. rewrite models_lookup.
  destruct (dget maps key) as [e|] eqn:Ed.
  - pose proof (ro_entries _ _ _ Hr key e (dget_elem _ _ _ Ed)) as [q Hq].
    pose proof Hq as Hq'. unfold plan_of in Hq'. destruct (entry_plan key e) as [q'|] eqn:Eq; [|done].
    injection Hq' as ->. rewrite (is_proposal_plan _ _ _ Eq). cbn. rewrite Hq. cbn.
    apply eq_true_iff_eq. rewrite andb_true_iff, !bool_decide_eq_true. split; [by intros [-> ->]|].
    by intros [-> [= ->]].
  - cbn. rewrite bool_decide_false; [done|]. by intros [_ ?].
Qed.

Lemma models_insert maps key e p :
  plan_of key e = Some p -> models (dset maps key e) = <[key := p]> (models maps).
Proof.
  intros Hp. apply map_eq. intros k. rewrite lookup_insert, !models_lookup, dget_dset.
  case_decide; [|done]. by subst.
Qed.

(** How a call ends: without writing, or with a write of the new placements *)
Inductive call_ends (c : call) (d : disk bytes) (r : result unit) (d' : disk bytes) : Prop :=
  | ends_unwritten l :
      d' = set_coming l d ->
      (r = Ok tt -> c <> Start 0 /\ apply_call c (models_of (entry d)) = models_of (entry d)) ->
      (coming d = [] -> l = [] /\ if is_ok r then accepted c else ~ accepted c /\ raises ValueError r) ->
      call_ends c d r d'
  | ends_written l b :
      written b (set_coming l d) r d' ->
      (coming d = [] -> l = []) ->
      good_file (File b true) ->
      models_of (Some (File b true)) = apply_call c (models_of (entry d)) ->
      accepted c ->
      call_ends c d r d'.

Lemma prepare_spec d r d' :
  prepare d = (r, d') -> exists l, d' = set_coming l d /\ (coming d = [] -> r = Ok tt /\ l = []).
Proof. apply io_read_spec. Qed.

Lemma start_ends ep_rank d r d' :
  good d -> start_offline_record_session dumps loads empty ep_rank d = (r, d') -> call_ends (Start ep_rank) d r d'.
Proof using laws.
  intros Hg. unfold start_offline_record_session. destruct (ep_rank =? 0) eqn:Er; cbn [negb].
  2:{ intros [= <- <-]. apply (ends_unwritten _ _ _ _ (coming d)); [by destruct d| |done]. cbn. rewrite Er.
      split; [|done]. by intros [= ->]. }
  munfold. destruct (prepare d) as [r1 d1] eqn:Ep. apply prepare_spec in Ep as (l1 & -> & Hc1).
  destruct r1 as [[]|e].
  2:{ intros [= <- <-]. apply (ends_unwritten _ _ _ _ l1); [done|done|naive_solver]. }
  destruct (read_existing loads (set_coming l1 d)) as [r2 d2] eqn:E2.
  apply read_existing_spec in E2 as (l2 & -> & Hc2 & _); [|done]. cbn in Hc2.
  destruct r2 as [x|e].
  2:{ intros [= <- <-]. apply (ends_unwritten _ _ _ _ l2); [done|done|].
      intros H0. destruct (Hc1 H0) as [_ ->], (Hc2 eq_refl). done. }
  intros Hw%write_record_spec. destruct (good_written _ _ _ empty_record) as [Hf Hm].
  apply (ends_written _ _ _ _ l2 (dumps empty_record_payload)); [done| |done| |done].
  - intros H0. destruct (Hc1 H0) as [_ ->]. by apply Hc2.
  - rewrite Hm. cbn. rewrite Er. done.
Qed.

Lemma plan_of_refused key e : plan_of key e = None -> raises ValueError (validate_model_entry key e).
Proof.
  unfold plan_of, validate_model_entry. pose proof (refuses_entry_plan key e) as H.
  destruct (entry_plan key e) as [|[c msg]]; [done|]. cbn in H. subst c. intros _. by exists msg.
Qed.

Lemma save_ends ep_rank key name class t logical redundant kind d r d' :
  good d -> record_offline_expert_map dumps loads empty ep_rank key name class t logical redundant kind d = (r, d') ->
  call_ends (Save ep_rank key name class t logical redundant kind) d r d'.
Proof using laws.
  intros Hg. unfold record_offline_expert_map. destruct (ep_rank =? 0) eqn:Er; cbn [negb]; bool_prop.
  2:{ intros [= <- <-]. apply (ends_unwritten _ _ _ _ (coming d)); [by destruct d| |].
      - cbn. apply Z.eqb_neq in Er. by rewrite Er.
      - intros H0. split; [done|]. cbn. by intros ?. }
  subst ep_rank. destruct t as [t|].
  2:{ intros [= <- <-]. apply (ends_unwritten _ _ _ _ (coming d)); [by destruct d|done|].
      intros H0. split; [done|]. cbn. split; [|by eexists]. intros H. by destruct (H eq_refl). }
  set (new := entry_of _ _ _ _ _ _). munfold.
  destruct (plan_of key new) as [p|] eqn:Ep.
  2:{ destruct (plan_of_refused _ _ Ep) as [msg ->]. intros [= <- <-].
      apply (ends_unwritten _ _ _ _ (coming d)); [by destruct d|done|].
      intros H0. split; [done|]. cbn. split; [|by eexists]. fold new. rewrite Ep.
      intros H. by destruct (H eq_refl). }
  assert (entry_ok key new) as Hok by (by eexists). assert (is_json new = true) as Hj by (by eapply is_json_entry_of).
  assert (accepted (Save 0 key name class (Some t) logical redundant kind)) as Hacc by (intros _; exact Hok).
  assert (forall m, apply_call (Save 0 key name class (Some t) logical redundant kind) m = merge_plan key p m) as Happ.
  { intros m. cbn. fold new. by rewrite Ep. }
  pose proof Hok as Hv. apply (validate_model_entry_ok _ _ tt) in Hv. rewrite Hv.
  destruct (prepare d) as [r1 d1] eqn:Epr. apply prepare_spec in Epr as (l1 & -> & Hc1).
  destruct r1 as [[]|e].
  2:{ intros [= <- <-]. apply (ends_unwritten _ _ _ _ l1); [done|done|naive_solver]. }
  destruct (read_existing loads (set_coming l1 d)) as [r2 d2] eqn:E2.
  apply read_existing_spec in E2 as (l2 & -> & Hc2 & Hr); [|done]. cbn in Hc2.
  destruct r2 as [x|e].
  2:{ intros [= <- <-]. apply (ends_unwritten _ _ _ _ l2); [done|done|].
      intros H0. destruct (Hc1 H0) as [_ ->], (Hc2 eq_refl). done. }
  specialize (Hr x eq_refl). destruct (default (empty_record_items, []) x) as [items maps].
  destruct Hr as [Hr Hm]. cbn in Hm.
  assert (coming d = [] -> l2 = []) as Hl2 by (intros H0; destruct (Hc1 H0) as [_ ->]; by apply Hc2).
  unfold plan_of in Ep. destruct (entry_plan key new) as [p'|] eqn:Eplan; [|done]. injection Ep as ->.
  rewrite (merge_decision _ _ _ _ _ _ _ _ _ _ _ Hr Eplan). unfold merge_plan in Happ.
  destruct (bool_decide _) eqn:Edec.
  - intros [= <- <-]. apply (ends_unwritten _ _ _ _ l2); [done| |]; rewrite <- ?Hm.
    + intros _. split; [done|]. by rewrite Happ, Edec.
    + intros H0. split; [by apply Hl2|done].
  - pose proof (record_of_insert _ _ _ _ _ Hr Hj Hok) as Hins.
    pose proof Hins as Hvm%validate_record_iff; [|apply Hins]. rewrite Hvm.
    intros Hw%write_record_spec. destruct (good_written _ _ _ Hins) as [Hf Hmod].
    eapply (ends_written _ _ _ _ l2); [exact Hw|done|done| |done].
    rewrite Hmod, <- Hm, Happ, Edec. apply models_insert. unfold plan_of. by rewrite Eplan.
Qed.

Lemma run_call_ends c d r d' : good d -> run_call c d = (r, d') -> call_ends c d r d'.
Proof using laws. destruct c; [apply start_ends|apply save_ends]. Qed.

Lemma power_failure_good d d' :
  good d -> power_failure d d' -> good d' /\ (entry d' = entry d \/ entry d' = durable d).
Proof.
  intros [He Hd] [e e' temps rest Hor Hcase]. destruct e as [f|]; subst; cbn.
  - assert (good_file f) as Hf by (destruct Hor; auto). rewrite (proj1 Hf) in Hcase. subst e'.
    split; [|destruct Hor; auto]. split; cbn; by intros ? [= <-].
  - split; [by split|destruct Hor; auto].
Qed.

(** The name refers to the old or to the new file, and so does the medium. *)
Lemma call_ends_files c d r d' :
  good d -> call_ends c d r d' -> good d' /\
  (entry d' = entry d \/ models_of (entry d') = apply_call c (models_of (entry d))) /\
  (durable d' = durable d \/ models_of (durable d') = apply_call c (models_of (entry d))).
Proof.
  intros [He Hd] [l -> _ _|l b [Hwe Hwd _ _] _ Hf Hm _].
  - split_and!; [done|by left|by left].
  - cbn in Hwe, Hwd. split_and!.
    + split; intros f Hf'; [destruct Hwe as [Hx|Hx]|destruct Hwd as [Hx|Hx]]; rewrite Hx in Hf'; simplify_eq; auto.
    + destruct Hwe as [Hx|Hx]; [by left|right]. by rewrite Hx.
    + destruct Hwd as [Hx|Hx]; [by left|right]. by rewrite Hx.
Qed.

(** C29: a call that starts a session or saves a placement, with any outcomes
    of the operations on the disk, leaves a well-formed record.  If it
    returns, the record holds the placements the call makes of the old ones:
    none at the start of a session, the saved one otherwise, unless it is an
    initial placement of a model with a proposal; and it leaves no temporary
    file.  After a power failure at any time during or after it, the record
    holds the old placements or the new ones.  Without faults of the disk a
    call returns exactly when its arguments are accepted; otherwise it raises
    a ValueError and changes nothing. *)
Theorem record_call_refines c d r d' :
  good d -> run_call c d = (r, d') ->
  good d' /\
  (r = Ok tt ->
    models_of (entry d') = apply_call c (models_of (entry d)) /\ temporaries d' = temporaries d /\
    (durable d = entry d -> durable d' = entry d')) /\
  (forall d'', power_failure d' d'' -> good d'' /\
    models_of (entry d'') ∈ [models_of (entry d); models_of (durable d); apply_call c (models_of (entry d))]) /\
  (coming d = [] -> if is_ok r then accepted c else ~ accepted c /\ raises ValueError r /\ d' = d).
Proof using laws.
  intros Hg Hrun%run_call_ends; [|done]. pose proof (call_ends_files _ _ _ _ Hg Hrun) as (Hg' & He & Hd).
  split; [done|]. split; [|split].
  - intros ->. destruct Hrun as [l -> Hok _|l b [_ _ Hok _] _ _ Hm _].
    + split_and!; [|done|done]. by rewrite (proj2 (Hok eq_refl)).
    + destruct (Hok eq_refl) as (Hwe & Hwd & Ht). rewrite Hwe, Hwd. by rewrite Hm, Ht.
  - intros d'' [Hg'' He'']%power_failure_good; [|done]. split; [done|].
    destruct He'' as [-> | ->]; [destruct He as [-> | ->]|destruct Hd as [-> | ->]]; set_solver.
  - intros H0. destruct Hrun as [l -> _ Hc|l b [_ _ _ Hs] Hl _ _ Hacc].
    + destruct (Hc H0) as [-> Hok]. destruct (is_ok r); [done|]. destruct Hok. split_and!; [done|done|].
      destruct d. cbn in H0. by subst.
    + destruct Hs as [-> _]; [by apply Hl|]. done.
Qed.

(** What happens to a disk: calls with any outcomes, and power failures *)
Inductive disk_step (d : disk bytes) : disk bytes -> Prop :=
  | step_call c l r d' : run_call c (set_coming l d) = (r, d') -> disk_step d d'
  | step_power d' : power_failure d d' -> disk_step d d'.

Lemma disk_step_good d d' : rtc disk_step d d' -> good d -> good d'.
Proof using laws.
  induction 1 as [|d d1 d' Hstep _ IH]; [done|]. intros Hg. apply IH.
  destruct Hstep as [c l r d1 Hrun|d1 Hp].
  - apply run_call_ends in Hrun; [|done]. by eapply (call_ends_files c (set_coming l d)) in Hrun as [? _].
  - by eapply power_failure_good in Hp as [? _].
Qed.

Lemma session_models cs d d' :
  good d -> for_each cs run_call d = (Ok tt, d') ->
  good d' /\ models_of (entry d') = foldl (fun m c => apply_call c m) (models_of (entry d)) cs.
Proof using laws.
  revert d. induction cs as [|c cs IH]; intros d Hg H; [by injection H as <-|].
  cbn [for_each] in H. apply M_bind_inv in H as (u & d1 & Hc & H). destruct u.
  apply run_call_ends in Hc; [|done]. pose proof (call_ends_files _ _ _ _ Hg Hc) as (Hg1 & _).
  apply IH in H as [Hg' ->]; [|done]. split; [done|]. cbn [foldl]. f_equal.
  destruct Hc as [l -> Hok _|l b [_ _ Hok _] _ _ Hm _]; [by rewrite (proj2 (Hok eq_refl))|].
  destruct (Hok eq_refl) as (-> & _). done.
Qed.

(** A session leaves a record. *)
Lemma session_entry cs d d' :
  good d -> is_Some (entry d) -> for_each cs run_call d = (Ok tt, d') -> is_Some (entry d').
Proof using laws.
  revert d. induction cs as [|c cs IH]; intros d Hg He H; [by injection H as <-|].
  cbn [for_each] in H. apply M_bind_inv in H as (u & d1 & Hc & H). apply run_call_ends in Hc; [|done].
  pose proof (call_ends_files _ _ _ _ Hg Hc) as (Hg1 & _). apply (IH d1); [done| |done].
  destruct Hc as [l -> _ _|l b [Hw _ _ _] _ _ _ _]; [done|]. destruct Hw as [-> | ->]; [done|by eexists].
Qed.

Lemma started_entry d d' : good d -> run_call (Start 0) d = (Ok tt, d') -> is_Some (entry d').
Proof using laws.
  intros Hg Hc%run_call_ends; [|done]. destruct Hc as [l -> Hok _|l b [_ _ Hok _] _ _ _ _].
  - by destruct (Hok eq_refl).
  - destruct (Hok eq_refl) as (-> & _). by eexists.
Qed.

(** A disk without a record *)
Definition blank : disk bytes := Disk None None ∅ [].

Lemma session_record d cs d' :
  rtc disk_step blank d -> for_each (Start 0 :: cs) run_call d = (Ok tt, d') ->
  exists raw payload items maps, entry d' = Some (File raw true) /\ loads raw = Some payload /\
    record_of payload items maps /\ models maps = foldl (fun m c => apply_call c m) ∅ cs.
Proof using laws.
  intros Hr H. assert (good d) as Hg by (by eapply disk_step_good; [done|split; intros f Hf]).
  pose proof (session_models _ _ _ Hg H) as [Hg' Hm]. cbn [foldl] in Hm.
  cbn [for_each] in H. apply M_bind_inv in H as (u & d1 & Hc & H). destruct u.
  pose proof (started_entry _ _ Hg Hc) as He1. apply run_call_ends in Hc; [|done].
  pose proof (call_ends_files _ _ _ _ Hg Hc) as (Hg1 & _).
  destruct (session_entry _ _ _ Hg1 He1 H) as [[raw s] Hf].
  destruct Hg' as [Hgf _]. destruct (Hgf _ Hf) as [Hs (payload & items & maps & Hl & Hrec)].
  cbn in Hs, Hl. subst s. exists raw, payload, items, maps. split_and!; [done..|].
  rewrite Hf, (models_of_record _ _ _ _ _ Hl Hrec) in Hm. rewrite Hm. done.
Qed.

Section loading.
Context `{EqDecision bytes} (sha256 : bytes -> string) (resolve : string -> result string).
Context (path canonical : string).
Hypothesis path_resolves : resolve path = Ok canonical.
Hypothesis canonical_absolute : is_absolute canonical = true.
Hypothesis sha256_hex : forall b, hex_digest (sha256 b).

Lemma integer_ok z name minimum : minimum <= z -> integer z name minimum = Ok z.
Proof using Type. intros H. unfold integer. case_if; [lia|done]. Qed.

Lemma parse_recorded raw payload items maps key p :
  loads raw = Some payload -> record_of payload items maps ->
  models maps !! key = Some p -> record_kind p = "proposal" ->
  parse_plan loads sha256 raw canonical key (model_name p) (zlen (map_values p), num_physical_experts p)
    (num_logical_experts p) (num_redundant_experts p) true = Ok (loaded_from canonical (sha256 raw) p).
Proof using canonical_absolute sha256_hex.
  intros Hl Hr Hp Hk. unfold parse_plan. rewrite Hl. by eapply plan_of_payload_recorded.
Qed.

(** The counts of a recorded plan *)
Lemma recorded_counts maps key p :
  models maps !! key = Some p ->
  nonempty key = true /\ nonempty (model_name p) = true /\ 1 <= zlen (map_values p) /\ 1 <= num_logical_experts p /\
  0 <= num_redundant_experts p /\ num_logical_experts p + num_redundant_experts p = num_physical_experts p.
Proof using Type.
  rewrite models_lookup. destruct (dget maps key) as [e|]; [|done]. cbn. unfold plan_of.
  destruct (entry_plan key e) as [q|] eqn:Eq; [|done]. intros [= ->].
  apply entry_plan_inv in Eq as (sel & l & -> & Hh). pose proof (eh_plan _ _ _ _ Hh) as Hn.
  pose proof (new_plan_checks _ _ _ _ _ _ _ _ _ _ Hn) as (? & ? & _ & ? & ? & ? & ? & Hne).
  pose proof (new_plan_fields _ _ _ _ _ _ _ _ _ _ Hn) as (m & Hpl & [Hc _]%check_rows_spec).
  split_and!; [done|done| |lia|lia|lia]. rewrite Hpl. cbn. rewrite Hc.
  destruct (map entry_row l) as [|x xs]; [done|]. rewrite zlen_cons. pose proof (zlen_nonneg xs). lia.
Qed.

Lemma load_recorded raw payload items maps key p :
  loads raw = Some payload -> record_of payload items maps ->
  models maps !! key = Some p -> record_kind p = "proposal" ->
  load_static_eplb_plan loads sha256 resolve path key (VStr (model_name p))
    (zlen (map_values p), num_physical_experts p) (num_logical_experts p) (num_redundant_experts p) true [Ok raw]
  = (Ok (loaded_from canonical (sha256 raw) p), []).
Proof using canonical_absolute path_resolves sha256_hex.
  intros Hl Hr Hp Hk. pose proof (recorded_counts _ _ _ Hp) as (H1 & H2 & H3 & H4 & H5 & H6).
  unfold load_static_eplb_plan. munfold. cbn [fst snd]. rewrite H1. cbn [require model_name_of]. rewrite H2.
  rewrite !integer_ok by lia. rewrite H6, Z.eqb_refl, path_resolves. cbn [require].
  cbn [read_bytes]. by rewrite (parse_recorded _ _ _ _ _ _ Hl Hr Hp Hk).
Qed.

(** A model of the required ones *)
Definition calibrated (m : gmap string StaticEplbPlan) (name : string) (logical redundant : Z) (key : string)
    (layers : Z) : Prop :=
  exists p, m !! key = Some p /\ record_kind p = "proposal" /\ model_name p = name /\
    zlen (map_values p) = layers /\ num_logical_experts p = logical /\ num_redundant_experts p = redundant.

Lemma check_models_recorded raw payload items maps name logical redundant required :
  loads raw = Some payload -> record_of payload items maps ->
  (forall key layers, (key, layers) ∈ required -> calibrated (models maps) name logical redundant key layers) ->
  check_models loads sha256 raw canonical name logical redundant required = Ok tt.
Proof using canonical_absolute sha256_hex.
  intros Hl Hr. induction required as [|[key layers] required IH]; intros Hreq; [done|]. cbn [check_models].
  destruct (Hreq key layers) as (p & Hp & Hk & <- & <- & <- & <-); [by left|].
  pose proof (recorded_counts _ _ _ Hp) as (H1 & _ & H3 & _ & _ & H6).
  rewrite H1, integer_ok by done. unfold mbind, result_bind. cbn [require]. rewrite H6.
  rewrite (parse_recorded _ _ _ _ _ _ Hl Hr Hp Hk). apply IH. intros k ls Hin. apply Hreq. by right.
Qed.

(** C30: after any history of calls, faults and power failures, a session that
    is started and runs without an exception leaves a file from which every
    model that was saved with a proposal loads its last proposed placement;
    and if these models are the required ones, the file passes the
    completeness check with its digest. *)
Theorem recorded_plans_load d cs d' :
  rtc disk_step blank d -> for_each (Start 0 :: cs) run_call d = (Ok tt, d') ->
  let m := foldl (fun m c => apply_call c m) ∅ cs in
  exists raw, entry d' = Some (File raw true) /\
    (forall key p, m !! key = Some p -> record_kind p = "proposal" ->
      load_static_eplb_plan loads sha256 resolve path key (VStr (model_name p))
        (zlen (map_values p), num_physical_experts p) (num_logical_experts p) (num_redundant_experts p) true [Ok raw]
      = (Ok (loaded_from canonical (sha256 raw) p), [])) /\
    (forall required name logical redundant, required <> [] ->
      (forall key layers, (key, layers) ∈ required -> calibrated m name logical redundant key layers) ->
      validate_offline_eplb_record_complete loads sha256 resolve path required (VStr name) logical redundant
        [Ok raw; Ok raw] = (Ok (sha256 raw), [])).
Proof using canonical_absolute path_resolves sha256_hex laws.
  intros Hd H m. destruct (session_record _ _ _ Hd H) as (raw & payload & items & maps & He & Hl & Hr & Hm).
  fold m in Hm. rewrite <- Hm. exists raw. split; [done|]. split.
  - intros key p. by eapply load_recorded.
  - intros required name logical redundant Hne Hreq.
    assert (nonempty name = true /\ 1 <= logical /\ 0 <= redundant) as (H1 & H2 & H3).
    { destruct required as [|[key layers] rest]; [done|].
      destruct (Hreq key layers) as (p & Hp & _ & <- & _ & <- & <-); [by left|].
      apply recorded_counts in Hp as (_ & ? & _ & ? & ? & _). by split_and!. }
    unfold validate_offline_eplb_record_complete, validate_static_eplb_artifact. munfold.
    replace (zlen required =? 0) with false
      by (destruct required as [|x rest]; [done|]; symmetry; apply Z.eqb_neq; rewrite zlen_cons; pose proof (zlen_nonneg rest); lia).
    cbn [negb require model_name_of]. rewrite H1, !integer_ok, path_resolves by done. cbn [read_bytes].
    rewrite (check_models_recorded _ _ _ _ _ _ _ _ Hl Hr Hreq). by rewrite bool_decide_true.
Qed.
End loading.
End disk.

(** ** Witnesses: files that hold values *)

Definition member_eq_dec (go : forall x y : value, Decision (x = y)) (a b : string * value) : Decision (a = b) :=
  @prod_eq_dec _ _ _ go a b.

#[global] Instance value_eq_dec : EqDecision value.
Proof.
  unfold RelDecision. fix go 1. intros x y. destruct x as [|b|z|s|m l|l|l|l|s], y as [|b'|z'|s'|m' l'|l'|l'|l'|s'];
    try (right; clear go; discriminate).
  - by left.
  - destruct (decide (b = b')) as [E|E]; [left|right]; clear go; congruence.
  - destruct (decide (z = z')) as [E|E]; [left|right]; clear go; congruence.
  - destruct (decide (s = s')) as [E|E]; [left|right]; clear go; congruence.
  - destruct (decide (m = m')) as [Em|Em]; [|right; clear go; congruence].
    destruct (@list_eq_dec _ (member_eq_dec go) l l') as [E|E]; [left|right]; clear go; congruence.
  - destruct (@list_eq_dec _ (member_eq_dec go) l l') as [E|E]; [left|right]; clear go; congruence.
  - destruct (@list_eq_dec _ (member_eq_dec go) l l') as [E|E]; [left|right]; clear go; congruence.
  - destruct (@list_eq_dec _ go l l') as [E|E]; [left|right]; clear go; congruence.
  - destruct (decide (s = s')) as [E|E]; [left|right]; clear go; congruence.
Defined.

Definition loads_value (v : value) : option value := if is_json v then Some (sort_keys v) else None.

Lemma value_json_laws : json_laws id loads_value.
Proof.
  split; unfold loads_value.
  - intros v Hv. unfold id. by rewrite Hv.
  - intros raw v. destruct (is_json raw) eqn:E; [|done]. intros [= <-]. by apply is_json_sort_keys.
Qed.

Definition example_save (kind : string) (row : list Z) : call :=
  Save 0 "M" "m" "M" (Some (MapTensor 3 [map VInt row])) 2 1 kind.

(** The directory cannot be synchronized after the first proposal. *)
Lemma record_call_refines_witness :
  exists d', run_call id loads_value VNone (example_save "proposal" [1; 0; 1])
      (Disk None None ∅ [Done; Done; Done; Done; Done; Fails VNone]) = (Err OSError, d') /\
    forall d'', power_failure d' d'' ->
      models_of loads_value (entry d'') = ∅ \/
      exists p, models_of loads_value (entry d'') !! "M" = Some p /\ map_values p = [[1; 0; 1]].
Proof.
  eexists. split; [vm_compute; reflexivity|]. intros d'' Hp.
  destruct (record_call_refines id loads_value VNone value_json_laws (example_save "proposal" [1; 0; 1])
    (Disk None None ∅ [Done; Done; Done; Done; Done; Fails VNone]) _ _ ltac:(split; intros f Hf; discriminate)
    ltac:(vm_compute; reflexivity)) as (_ & _ & H & _).
  destruct (H d'' Hp) as [_ Hin]. apply elem_of_cons in Hin as [-> |Hin]; [left; reflexivity|].
  apply elem_of_cons in Hin as [-> |Hin]; [left; reflexivity|]. apply list_elem_of_singleton in Hin as ->.
  right. eexists. split; vm_compute; reflexivity.
Defined.

Lemma recorded_plans_load_witness :
  exists d' raw,
    for_each [Start 0; example_save "initial" [0; 1; 0]; example_save "proposal" [1; 0; 1];
              example_save "initial" [0; 1; 1]] (run_call id loads_value VNone) blank = (Ok tt, d') /\
    entry d' = Some (File raw true) /\
    load_static_eplb_plan loads_value (fun _ => VALIDATION_SHA) (fun p => Ok ("/r/" +:+ p)%string) "map.json" "M" (VStr "m")
      (1, 3) 2 1 true [Ok raw]
    = (Ok (Plan "M" "m" "/r/map.json" VALIDATION_SHA "proposal" [[1; 0; 1]] 2 3 1), []).
Proof.
  eexists. destruct (recorded_plans_load id loads_value VNone value_json_laws (fun _ => VALIDATION_SHA)
    (fun p => Ok ("/r/" +:+ p)%string) "map.json" "/r/map.json" eq_refl eq_refl (fun _ => eq_refl) blank
    [example_save "initial" [0; 1; 0]; example_save "proposal" [1; 0; 1]; example_save "initial" [0; 1; 1]] _
    ltac:(constructor) ltac:(vm_compute; reflexivity)) as (raw & He & Hload & _).
  exists raw. split; [vm_compute; reflexivity|]. split; [exact He|].
  exact (Hload "M" (Plan "M" "m" VALIDATION_PATH VALIDATION_SHA "proposal" [[1; 0; 1]] 2 3 1)
    ltac:(vm_compute; reflexivity) eq_refl).
Defined.
