(* ===== verification/OfflineHooks.v ===== *)
(** * The hooks of static and offline placement

    Models the wrappers that [apply_to_module] of
    src/vllm_hcu/patch/worker/framework_opt/patch_offline_eplb.py puts around
    vLLM's [EplbState]: [add_model], [step], [rearrange],
    [_commit_eplb_maps] and [rearrange_expert_weights_inplace].  With a load
    path a model keeps the placement it was bound to; with a record path the
    placements the policy proposes are recorded and never applied.

    vLLM's own functions are parameters.  [rearrange] is any program over the
    functions that are wrapped: it asks the policy, commits maps and moves
    weights; [add_model] returns the state it registers, or raises. *)

From S2P Require Import Prelude PyString Tensors FeatureConfig EplbDispatch StaticEplb OfflineRecord.
Import FeatureConfig Dispatch StaticEplb OfflineRecord.
Local Open Scope Z_scope.

Module OfflineHooks.

(** ** State *)

(** A layer: its bound row, its logical replica counts, [None] when these are
    no tensor, and its primary replica counts *)
Record moe_layer := Layer {
  ly_row : option (list Z);
  ly_replica_count : option (list Z);
  ly_primary : option (list Z)
}.

Record model := Model {
  md_class : string;
  md_plan : option StaticEplbPlan;
  md_layers : list moe_layer;
  md_num_moe_layers : Z;
  md_num_logical : Z;
  md_num_physical : Z;
  md_num_redundant : Z
}.

(** What vLLM keeps of a model, and what the hooks add to it *)
Record model_state := ModelState {
  ms_name : string;
  ms_model : model;
  ms_physical_to_logical : option map_tensor;
  ms_logical_to_physical : int_tensor;
  ms_static_mode : bool;
  ms_record_path : option string;
  ms_model_key : string
}.

(** [EplbState], with the file that static plans are read from and the record *)
Record eplb_state (bytes : Type) := EplbState {
  parallel_config : value;
  communicator : string;
  session_path : option string;
  static_source_sha256 : option string;
  proposal_events : Z;
  transfer_events : Z;
  rearrangement_events : Z;
  is_async : bool;
  should_record : option bool;
  model_states : dict string model_state;
  the_model : model;
  plan_reads : reads bytes;
  record_disk : disk bytes
}.
Arguments EplbState {bytes}.
Arguments parallel_config {bytes}.
Arguments communicator {bytes}.
Arguments session_path {bytes}.
Arguments static_source_sha256 {bytes}.
Arguments proposal_events {bytes}.
Arguments transfer_events {bytes}.
Arguments rearrangement_events {bytes}.
Arguments is_async {bytes}.
Arguments should_record {bytes}.
Arguments model_states {bytes}.
Arguments the_model {bytes}.
Arguments plan_reads {bytes}.
Arguments record_disk {bytes}.

Section setters.
Context {bytes : Type}.
Implicit Types (s : eplb_state bytes).

Definition with_communicator c s := EplbState (parallel_config s) c (session_path s) (static_source_sha256 s)
  (proposal_events s) (transfer_events s) (rearrangement_events s) (is_async s) (should_record s) (model_states s)
  (the_model s) (plan_reads s) (record_disk s).
Definition with_session p s := EplbState (parallel_config s) (communicator s) p (static_source_sha256 s)
  (proposal_events s) (transfer_events s) (rearrangement_events s) (is_async s) (should_record s) (model_states s)
  (the_model s) (plan_reads s) (record_disk s).
Definition with_sha h s := EplbState (parallel_config s) (communicator s) (session_path s) h
  (proposal_events s) (transfer_events s) (rearrangement_events s) (is_async s) (should_record s) (model_states s)
  (the_model s) (plan_reads s) (record_disk s).
Definition with_proposals n s := EplbState (parallel_config s) (communicator s) (session_path s)
  (static_source_sha256 s) n (transfer_events s) (rearrangement_events s) (is_async s) (should_record s)
  (model_states s) (the_model s) (plan_reads s) (record_disk s).
Definition with_counters s := EplbState (parallel_config s) (communicator s) (session_path s)
  (static_source_sha256 s) 0 0 0 (is_async s) (should_record s) (model_states s) (the_model s) (plan_reads s)
  (record_disk s).
(** [self.is_async = False] and [should_record_tensor.fill_(False)] *)
Definition with_sync s := EplbState (parallel_config s) (communicator s) (session_path s) (static_source_sha256 s)
  (proposal_events s) (transfer_events s) (rearrangement_events s) false ((fun _ => false) <$> should_record s)
  (model_states s) (the_model s) (plan_reads s) (record_disk s).
Definition with_model_state hash ms s := EplbState (parallel_config s) (communicator s) (session_path s)
  (static_source_sha256 s) (proposal_events s) (transfer_events s) (rearrangement_events s) (is_async s)
  (should_record s) (dset (model_states s) hash ms) (the_model s) (plan_reads s) (record_disk s).
Definition with_model m s := EplbState (parallel_config s) (communicator s) (session_path s) (static_source_sha256 s)
  (proposal_events s) (transfer_events s) (rearrangement_events s) (is_async s) (should_record s) (model_states s) m
  (plan_reads s) (record_disk s).
Definition with_reads l s := EplbState (parallel_config s) (communicator s) (session_path s) (static_source_sha256 s)
  (proposal_events s) (transfer_events s) (rearrangement_events s) (is_async s) (should_record s) (model_states s)
  (the_model s) l (record_disk s).
Definition with_disk d s := EplbState (parallel_config s) (communicator s) (session_path s) (static_source_sha256 s)
  (proposal_events s) (transfer_events s) (rearrangement_events s) (is_async s) (should_record s) (model_states s)
  (the_model s) (plan_reads s) d.

(** Operations on the two files *)
Definition reading {A} (m : M (reads bytes) A) : M (eplb_state bytes) A := fun s =>
  let '(r, l) := m (plan_reads s) in (r, with_reads l s).
Definition recording {A} (m : M (disk bytes) A) : M (eplb_state bytes) A := fun s =>
  let '(r, d) := m (record_disk s) in (r, with_disk d s).
End setters.

(** The updates of a model state *)
Definition hooked (static : bool) (path : option string) (key : string) (ms : model_state) : model_state :=
  ModelState (ms_name ms) (ms_model ms) (ms_physical_to_logical ms) (ms_logical_to_physical ms) static path key.
Definition with_order (m : replica_map) (ms : model_state) : model_state :=
  let t := ms_logical_to_physical ms in
  ModelState (ms_name ms) (ms_model ms) (ms_physical_to_logical ms) (Tensor (ndim t) (dtype_of t) m)
    (ms_static_mode ms) (ms_record_path ms) (ms_model_key ms).

Definition with_layers (ls : list moe_layer) (m : model) : model :=
  Model (md_class m) (md_plan m) ls (md_num_moe_layers m) (md_num_logical m) (md_num_physical m) (md_num_redundant m).
(** [model.num_moe_layers = len(tuple(model.moe_layers))] *)
Definition count_layers (m : model) : model :=
  Model (md_class m) (md_plan m) (md_layers m) (zlen (md_layers m)) (md_num_logical m) (md_num_physical m)
    (md_num_redundant m).

Definition COMMUNICATORS : list string := ["torch_nccl"; "torch_gloo"; "nixl"; "pynccl"].

(** The rows of the layers are those of the plan. *)
Fixpoint check_layer_rows (p : StaticEplbPlan) (index : nat) (ls : list moe_layer) : result unit :=
  match ls with
  | [] => Ok tt
  | l :: rest =>
      row ← layer_map p index;
      require (bool_decide (ly_row l = Some row)) "bound layer row mismatch" ;;
      check_layer_rows p (S index) rest
  end.

(** The primary replica counts of the layers *)
Fixpoint set_primaries (token_hash : bool) (ls : list moe_layer) : result (list moe_layer) :=
  match ls with
  | [] => Ok []
  | l :: rest =>
      match ly_replica_count l with
      | None => refuse "layer has no logical replica counts"
      | Some counts =>
          let primary := if token_hash then None else Some (map (fun _ => 1) counts) in
          rest' ← set_primaries token_hash rest;
          Ok (Layer (ly_row l) (ly_replica_count l) primary :: rest')
      end
  end.

(** [getattr(parallel_config, "_vllm_hcu_eplb_static_dispatch_policy", "nearest")] *)
Definition dispatch_policy (config : value) : value :=
  match config with
  | VObj attrs => default (VStr "nearest") (dget attrs "_vllm_hcu_eplb_static_dispatch_policy")
  | _ => VStr "nearest"
  end.

(** The expert-parallel group *)
Record ep_group := EpGroup { group_rank : Z; group_size : Z; node_count : Z }.

(** What vLLM's [rearrange] does with the functions that are wrapped, and its
    result *)
Inductive upstream (A : Type) :=
  | Return (a : A)
  | Raise (e : exn)
  | Rebalance (expert_load : list Z) (k : option map_tensor -> upstream A)
  | Commit (hash : string) (m : option map_tensor) (k : upstream A)
  | Transfer (k : upstream A).
Arguments Return {A}.
Arguments Raise {A}.
Arguments Rebalance {A}.
Arguments Commit {A}.
Arguments Transfer {A}.

(** ** Adding a model *)

Section hooks.
Context {bytes : Type} `{EqDecision bytes}.
Context (dumps : value -> bytes) (loads : bytes -> option value) (empty : bytes) (sha256 : bytes -> string).
Context (resolve : string -> result string) (resolve_record : string -> string).
Context (gather : option (string * string * string * (Z * Z) * Z * Z * Z ->
                          list (string * string * string * (Z * Z) * Z * Z * Z))).
Context {rng : Type} (Random : Z -> rng) (shuffle : rng -> list Z -> list Z * rng).
Context (ep_rank : Z) (group : ep_group).
(** vLLM's functions: [original_add communicator model] and
    [original_commit state map] *)
Context (original_add : string -> model -> result model_state).
Context (original_commit : model_state -> list (list Z) -> result model_state).

Abbreviation S := (eplb_state bytes).

(** The plan the model was bound to, if the file and the layers still have it *)
Definition bound_plan (path : string) (expected_name : value) : M S StaticEplbPlan :=
  s ← get_state;
  let m := the_model s in
  match md_plan m with
  | None => raise ValueError "requires a bound direct-load plan"
  | Some plan =>
      key ← lift (resolve_offline_eplb_model_key (md_class m) (parallel_config s));
      current ← reading (load_static_eplb_plan loads sha256 resolve path key expected_name
        (zlen (md_layers m), md_num_physical m) (md_num_logical m) (md_num_redundant m) true);
      lift (require (bool_decide (current = plan)) "bound plan changed before runtime commit") ;;
      lift (check_layer_rows plan 0 (md_layers m)) ;;
      lift (require (bool_decide (default (source_sha256 plan) (static_source_sha256 s) = source_sha256 plan))
        "mixed source SHA-256 fingerprints") ;;
      lift (verify_static_plan_across_ep_ranks gather plan) ;;
      mret plan
  end.

(** [original_add], for a static model with a communicator that moves nothing *)
Definition register_model (plan : option StaticEplbPlan) (hash : string) : M S unit :=
  s ← get_state;
  match plan with
  | Some _ =>
      if negb (bool_decide (communicator s ∈ COMMUNICATORS))
      then raise (OtherError "PatchCompatibilityError") "communicator is unresolved or unsupported"
      else
        let c := communicator s in
        modify (with_communicator "torch_gloo") ;;
        s ← get_state;
        try_ (ms ← lift (original_add (communicator s) (the_model s)); modify (with_model_state hash ms))
             (fun e => modify (with_communicator c) ;; throw e) ;;
        modify (with_communicator c)
  | None => ms ← lift (original_add (communicator s) (the_model s)); modify (with_model_state hash ms)
  end.

Definition the_state (hash : string) : M S model_state :=
  s ← get_state;
  match dget (model_states s) hash with Some ms => mret ms | None => raise KeyError hash end.

Definition replica_order (policy : value) (t : int_tensor) (physical : Z) : result replica_map :=
  match policy with
  | VStr name =>
      if bool_decide (name = "nearest") then
        build_nearest_replica_order t (group_rank group) (group_size group) (node_count group) physical
      else if bool_decide (name = "locality_fair") then
        build_locality_fair_replica_order Random shuffle t (group_rank group) (group_size group) (node_count group)
          physical 42 0
      else Err (Exn KeyError name)
  | _ => Err (Exn KeyError "")
  end.

(** [policy == "token_hash"] *)
Definition is_token_hash (policy : value) : bool :=
  match policy with VStr name => bool_decide (name = "token_hash") | _ => false end.

(** The placement of a static model *)
Definition commit_static (plan : StaticEplbPlan) (hash : string) : M S unit :=
  ms ← the_state hash;
  ms ← lift (original_commit ms (map_values plan));
  modify (with_model_state hash ms) ;;
  s ← get_state;
  let policy := dispatch_policy (parallel_config s) in
  (if is_token_hash policy then mret tt
   else
     ordered ← lift (replica_order policy (ms_logical_to_physical ms) (num_physical_experts plan));
     modify (with_model_state hash (with_order ordered ms))) ;;
  ls ← lift (set_primaries (is_token_hash policy) (md_layers (the_model s)));
  modify (fun s => with_model (with_layers ls (the_model s)) s) ;;
  modify (with_sha (Some (source_sha256 plan))).

Definition save_initial (ms : model_state) : M S unit :=
  s ← get_state;
  let m := the_model s in
  recording (record_offline_expert_map dumps loads empty ep_rank (ms_model_key ms) (ms_name ms) (md_class m)
    (ms_physical_to_logical ms) (md_num_logical m) (md_num_redundant m) "initial").

(** A new session of the record, once per path *)
Definition open_session (path : string) : M S unit :=
  s ← get_state;
  if bool_decide (session_path s = Some (resolve_record path)) then mret tt
  else
    recording (start_offline_record_session dumps loads empty ep_rank) ;;
    modify (with_session (Some (resolve_record path))).

Definition add_model (hash : string) (expected_name : value) : M S unit :=
  s ← get_state;
  ps ← lift (paths (parallel_config s));
  match ps with
  | (None, None) => register_model None hash
  | (load_path, record_path) =>
      modify with_counters ;;
      match record_path with Some path => open_session path | None => mret tt end ;;
      plan ← match load_path with
        | Some path => p ← bound_plan path expected_name; mret (Some p)
        | None => mret None
        end;
      modify (fun s => with_model (count_layers (the_model s)) s) ;;
      register_model plan hash ;;
      ms ← the_state hash;
      let static := match plan with Some _ => true | None => false end in
      modify (with_model_state hash (hooked static record_path (ms_model_key ms) ms)) ;;
      s ← get_state;
      key ← lift (resolve_offline_eplb_model_key (md_class (the_model s)) (parallel_config s));
      let ms := hooked static record_path key ms in
      modify (with_model_state hash ms) ;;
      modify with_sync ;;
      match plan with
      | Some plan => commit_static plan hash
      | None => save_initial ms
      end
  end.

(** ** Rearranging *)

Record runtime := Runtime {
  rt_state : S;
  record_only : bool;
  proxied : bool;
  captured : list (option map_tensor * bool);
  committed : list (string * option map_tensor);
  transferred : nat
}.

Definition set_modes (only proxy : bool) (rt : runtime) : runtime :=
  Runtime (rt_state rt) only proxy (captured rt) (committed rt) (transferred rt).
Definition set_captured (l : list (option map_tensor * bool)) (rt : runtime) : runtime :=
  Runtime (rt_state rt) (record_only rt) (proxied rt) l (committed rt) (transferred rt).
Definition set_state (s : S) (rt : runtime) : runtime :=
  Runtime s (record_only rt) (proxied rt) (captured rt) (committed rt) (transferred rt).

(** vLLM's policy *)
Context (policy : list Z -> result (option map_tensor)).

(** [_RecordOnlyPolicyProxy.rebalance_experts], or the policy itself *)
Definition rebalance_experts (expert_load : list Z) : M runtime (option map_tensor) :=
  candidate ← lift (policy expert_load);
  rt ← get_state;
  (if proxied rt then modify (set_captured (captured rt ++ [(candidate, existsb (fun n => negb (n =? 0)) expert_load)]))
   else mret tt) ;;
  mret candidate.

Definition commit_eplb_maps (hash : string) (m : option map_tensor) : M runtime unit :=
  rt ← get_state;
  if negb (record_only rt) then
    put_state (Runtime (rt_state rt) (record_only rt) (proxied rt) (captured rt) (committed rt ++ [(hash, m)])
      (transferred rt))
  else mret tt.

Definition rearrange_expert_weights_inplace : M runtime unit :=
  rt ← get_state;
  if record_only rt then mret tt
  else put_state (Runtime (rt_state rt) (record_only rt) (proxied rt) (captured rt) (committed rt)
    (Datatypes.S (transferred rt))).

(** vLLM's function under the wrappers *)
Fixpoint run_upstream {A} (u : upstream A) : M runtime A :=
  match u with
  | Return a => mret a
  | Raise e => throw e
  | Rebalance expert_load k => candidate ← rebalance_experts expert_load; run_upstream (k candidate)
  | Commit hash m k => commit_eplb_maps hash m ;; run_upstream k
  | Transfer k => rearrange_expert_weights_inplace ;; run_upstream k
  end.

(** [original_rearrange is_profile rank_mapping], [rank_mapping] telling
    whether one is given *)
Context {A : Type} (original_rearrange : bool -> bool -> upstream A).

Definition save_proposal (entry : model_state * (option map_tensor * bool)) : M runtime unit :=
  let '(ms, (candidate, has_global_load)) := entry in
  if negb has_global_load then mret tt
  else
    rt ← get_state;
    let m := ms_model ms in
    match record_offline_expert_map dumps loads empty ep_rank (ms_model_key ms) (ms_name ms) (md_class m) candidate
            (md_num_logical m) (md_num_redundant m) "proposal" (record_disk (rt_state rt)) with
    | (Ok _, d) =>
        let s := with_disk d (rt_state rt) in
        put_state (set_state (with_proposals (proposal_events s + 1) s) rt)
    | (Err e, d) => put_state (set_state (with_disk d (rt_state rt)) rt) ;; throw e
    end.

(** [None] when nothing is done *)
Definition rearrange (is_profile rank_mapping : bool) : M runtime (option A) :=
  rt ← get_state;
  let config := parallel_config (rt_state rt) in
  ps ← lift (paths config);
  match ps with
  | (Some _, _) => mret None
  | (None, None) =>
      if negb is_profile && truthy (attribute config "_vllm_hcu_eplb_disable_rearrange") then mret None
      else a ← run_upstream (original_rearrange is_profile rank_mapping); mret (Some a)
  | (None, Some _) =>
      if is_profile then a ← run_upstream (original_rearrange is_profile rank_mapping); mret (Some a)
      else if rank_mapping then raise ValueError "does not support elastic rank mappings"
      else
        modify (fun rt => set_captured [] (set_modes true true rt)) ;;
        let restore := modify (set_modes (record_only rt) (proxied rt)) in
        a ← try_ (run_upstream (original_rearrange false false)) (fun e => restore ;; throw e);
        restore ;;
        rt ← get_state;
        let states := dvalues (model_states (rt_state rt)) in
        if negb (zlen (captured rt) =? zlen states)
        then raise RuntimeError "policy result count does not match model states"
        else
          (if ep_rank =? 0 then for_each (zip states (captured rt)) save_proposal else mret tt) ;;
          mret (Some a)
  end.

(** [step]: [original_step] is vLLM's *)
Definition step_hook {B} (original_step : M runtime B) : M runtime (option B) :=
  rt ← get_state;
  ps ← lift (paths (parallel_config (rt_state rt)));
  match ps with
  | (Some _, _) => mret None
  | _ => b ← original_step; mret (Some b)
  end.
End hooks.
Arguments runtime : clear implicits.
End OfflineHooks.
