(* ===== verification/OfflineHooksCorrect.v ===== *)
(** * Correctness of the hooks of static and offline placement

    While placements are recorded, whatever vLLM's rearrangement does, no map
    is committed and no weight is moved, and every proposal reaches the
    record; a static model gets exactly the placement it was bound to, with
    the replicas of every expert in the order of the chosen policy. *)

From S2P Require Import Prelude PyString Tensors FeatureConfig EplbDispatch EplbDispatchCorrect StaticEplb StaticEplbCorrect OfflineRecord OfflineRecordCorrect OfflineHooks.
Import FeatureConfig Dispatch StaticEplb OfflineRecord OfflineHooks.
Local Open Scope Z_scope.

Section rearranging.
Context {bytes : Type} `{EqDecision bytes}.
Context (dumps : value -> bytes) (loads : bytes -> option value) (empty : bytes) (ep_rank : Z).
Context (policy : list Z -> result (option map_tensor)).
Context {A : Type} (original_rearrange : bool -> bool -> upstream A).
Implicit Types (rt : runtime bytes).
Hypothesis laws : json_laws dumps loads.

(** What the program asks of the policy, with the answers *)
Fixpoint asked (u : upstream A) : list (option map_tensor * bool) :=
  match u with
  | Return _ | Raise _ => []
  | Rebalance load k =>
      match policy load with
      | Ok c => (c, existsb (fun n => negb (n =? 0)) load) :: asked (k c)
      | Err _ => []
      end
  | Commit _ _ k => asked k
  | Transfer k => asked k
  end.

(** How the program ends *)
Fixpoint outcome_of (u : upstream A) : result A :=
  match u with
  | Return a => Ok a
  | Raise e => Err e
  | Rebalance load k => match policy load with Ok c => outcome_of (k c) | Err e => Err e end
  | Commit _ _ k => outcome_of k
  | Transfer k => outcome_of k
  end.

(** Under the wrappers the program only fills the captured list. *)
Lemma run_upstream_recorded u rt :
  record_only rt = true -> proxied rt = true ->
  run_upstream policy u rt = (outcome_of u, set_captured (captured rt ++ asked u) rt).
Proof.
  revert rt. induction u as [a|e|load k IH|hash m k IH|k IH]; intros rt Ho Hp;
    cbn [run_upstream asked outcome_of]; munfold.
  - rewrite app_nil_r. by destruct rt.
  - rewrite app_nil_r. by destruct rt.
  - unfold rebalance_experts. munfold. destruct (policy load) as [c|e].
    + rewrite Hp. cbn beta iota. rewrite IH by done. cbn [captured set_captured]. rewrite <- app_assoc. by destruct rt.
    + rewrite app_nil_r. by destruct rt.
  - unfold commit_eplb_maps. munfold. rewrite Ho. cbn [negb]. by rewrite IH.
  - unfold rearrange_expert_weights_inplace. munfold. rewrite Ho. by rewrite IH.
Qed.

(** The call that saves a proposal *)
Definition proposal_call (x : model_state * (option map_tensor * bool)) : call :=
  let m := ms_model x.1 in
  Save ep_rank (ms_model_key x.1) (ms_name x.1) (md_class m) x.2.1 (md_num_logical m) (md_num_redundant m) "proposal".

Definition proposal_calls (l : list (model_state * (option map_tensor * bool))) : list call :=
  map proposal_call (filter (fun x => x.2.2 = true) l).

(** Only the record and the counter of proposals change. *)
Definition after_saves (d : disk bytes) (n : Z) (rt : runtime bytes) : runtime bytes :=
  set_state (with_proposals n (with_disk d (rt_state rt))) rt.

Lemma save_proposals l rt r rt' :
  good loads (record_disk (rt_state rt)) ->
  for_each l (save_proposal dumps loads empty ep_rank) rt = (r, rt') ->
  exists d n, rt' = after_saves d n rt /\ good loads d /\
    (r = Ok tt ->
      for_each (proposal_calls l) (run_call dumps loads empty) (record_disk (rt_state rt)) = (Ok tt, d) /\
      n = proposal_events (rt_state rt) + zlen (proposal_calls l)).
Proof using laws.
  revert rt. induction l as [|[ms [c has]] l IH]; intros rt Hg; cbn [for_each].
  - intros [= <- <-]. exists (record_disk (rt_state rt)), (proposal_events (rt_state rt)). split_and!; [|done|].
    + unfold after_saves. by destruct rt as [[] ? ? ? ? ?].
    + intros _. split; [done|]. change (zlen (proposal_calls [])) with 0. lia.
  - unfold mbind, M_bind. cbn [save_proposal]. unfold proposal_calls. rewrite filter_cons. cbn [snd].
    destruct has; cbn [negb].
    + rewrite decide_True by done. fold (proposal_calls l). munfold.
      destruct (record_offline_expert_map _ _ _ _ _ _ _ _ _ _ _ _) as [r1 d] eqn:Es.
      assert (good loads d) as Hgd.
      { pose proof (run_call_ends _ _ _ laws (proposal_call (ms, (c, true))) _ _ _ Hg Es) as Hc.
        by apply call_ends_files in Hc as [? _]. }
      destruct r1 as [[]|e].
      2:{ intros [= <- <-]. exists d, (proposal_events (rt_state rt)). split_and!; [|done|done].
          unfold after_saves. by destruct rt as [[] ? ? ? ? ?]. }
      intros (d' & n & -> & Hg' & Hn)%IH; [|done]. exists d', n. split_and!; [by destruct rt as [[] ? ? ? ? ?]|done|].
      intros Hr. destruct (Hn Hr) as [Hrun ->]. cbn [map for_each]. split.
      * unfold mbind, M_bind. cbn [proposal_call fst snd run_call]. by rewrite Es.
      * cbn. rewrite zlen_cons. fold (proposal_calls l). lia.
    + rewrite decide_False by done. fold (proposal_calls l). munfold. by apply IH.
Qed.

(** C31: while a record path is set and outside of profiling, vLLM's
    rearrangement, whatever it does and however it ends, commits no map and
    moves no weight, the policy and the recording mode are as before, and the
    record stays well formed.  If it returns, the policy was asked once per
    model, and on rank 0 the record is that of saving, in order, the answer
    for every model that had any load. *)
Theorem rearrange_records path rt r rt' :
  paths (parallel_config (rt_state rt)) = Ok (None, Some path) ->
  good loads (record_disk (rt_state rt)) ->
  rearrange dumps loads empty ep_rank policy original_rearrange false false rt = (r, rt') ->
  let states := dvalues (model_states (rt_state rt)) in
  let answers := asked (original_rearrange false false) in
  (committed rt' = committed rt /\ transferred rt' = transferred rt /\
   record_only rt' = record_only rt /\ proxied rt' = proxied rt /\
   model_states (rt_state rt') = model_states (rt_state rt) /\ good loads (record_disk (rt_state rt'))) /\
  forall x, r = Ok x ->
    (exists a, x = Some a /\ outcome_of (original_rearrange false false) = Ok a) /\
    zlen answers = zlen states /\
    (ep_rank = 0 ->
      let calls := proposal_calls (zip states answers) in
      models_of loads (entry (record_disk (rt_state rt'))) =
        foldl (fun m c => apply_call c m) (models_of loads (entry (record_disk (rt_state rt)))) calls /\
      proposal_events (rt_state rt') = proposal_events (rt_state rt) + zlen calls).
Proof using laws.
  intros Hpaths Hg. unfold rearrange. munfold. rewrite Hpaths. unfold try_. cbn beta iota.
  rewrite run_upstream_recorded by done. destruct (outcome_of _) as [a|e] eqn:Eo; cbn beta iota.
  2:{ intros [= <- <-]. cbn. by split_and!. }
  cbn [captured set_captured set_modes app rt_state]. set (answers := asked _) in *.
  set (rt1 := set_modes _ _ _). destruct (negb _) eqn:El; bool_prop.
  { intros [= <- <-]. cbn. by split_and!. }
  assert (good loads (record_disk (rt_state rt1))) as Hg1 by done.
  destruct (ep_rank =? 0) eqn:Er; bool_prop.
  - destruct (for_each _ _ rt1) as [r1 rt2] eqn:Ef. apply save_proposals in Ef as (d & n & -> & Hgd & Hn); [|done].
    destruct r1 as [[]|e]; intros [= <- <-]; cbn; (split; [by split_and!|]); [|done].
    intros x [= <-]. destruct (Hn eq_refl) as [Hrun ->]. split_and!; [by eauto|done|]. intros _.
    split; [|done]. eapply (session_models _ _ _ laws) in Hrun as [_ ->]; [|exact Hg]. done.
  - intros [= <- <-]. cbn. split; [by split_and!|]. intros x [= <-]. split_and!; [by eauto|done|done].
Qed.
End rearranging.

(** ** Static models *)

Section static.
Context {bytes : Type} `{EqDecision bytes}.
Context (dumps : value -> bytes) (loads : bytes -> option value) (empty : bytes) (sha256 : bytes -> string).
Context (resolve : string -> result string) (resolve_record : string -> string).
Context (gather : option (string * string * string * (Z * Z) * Z * Z * Z ->
                          list (string * string * string * (Z * Z) * Z * Z * Z))).
Context {rng : Type} (Random : Z -> rng) (shuffle : rng -> list Z -> list Z * rng).
Context (ep_rank : Z) (group : ep_group).
Context (original_add : string -> model -> result model_state).
Context (original_commit : model_state -> list (list Z) -> result model_state).
Implicit Types (s : eplb_state bytes).
















End static.

(** ** Witnesses *)

Definition example_plan : StaticEplbPlan :=
  Plan "M" "m" "/r/map.json" VALIDATION_SHA "proposal" [[1; 0; 1; 0]] 2 4 2.

Definition example_model : model :=
  Model "M" (Some example_plan) [Layer (Some [1; 0; 1; 0]) (Some [2; 2]) None] 1 2 4 2.



Definition example_state (config : value) (ms : dict string model_state) : eplb_state value :=
  EplbState config "pynccl" None None 0 0 0 true (Some true) ms example_model
    [Ok (VMap true [("version", VInt 2); ("format", VStr OFFLINE_EPLB_FORMAT); ("model_maps", VMap true
      [("M", entry_of "m" "M" "proposal" (MapTensor 4 [map VInt [1; 0; 1; 0]]) 2 2)])])]
    (Disk None None ∅ []).

Definition example_model_state : model_state :=
  ModelState "m" example_model (Some (MapTensor 4 [map VInt [0; 1; 0; 1]])) (Tensor 3 int64 []) false (Some "rec.json") "M".



Definition record_config : value := VObj [("_vllm_hcu_expert_map_record_path", VStr "rec.json")].

(** vLLM asks the policy, moves the weights and commits the answer. *)
Definition example_upstream (is_profile rank_mapping : bool) : upstream unit :=
  Rebalance [0; 3] (fun c => Transfer (Commit "h" c (Return tt))).

Lemma rearrange_records_witness :
  exists rt', rearrange id loads_value VNone 0 (fun _ => Ok (Some (MapTensor 4 [map VInt [1; 1; 0; 0]])))
      example_upstream false false
      (Runtime (example_state record_config [("h", example_model_state)]) false false [] [] 0) = (Ok (Some tt), rt') /\
    committed rt' = [] /\ transferred rt' = 0%nat /\
    map_values <$> models_of loads_value (entry (record_disk (rt_state rt'))) !! "M" = Some [[1; 1; 0; 0]].
Proof.
  eexists. split; [vm_compute; reflexivity|].
  pose proof (rearrange_records id loads_value VNone 0 (fun _ => Ok (Some (MapTensor 4 [map VInt [1; 1; 0; 0]])))
    example_upstream value_json_laws "rec.json"
    (Runtime (example_state record_config [("h", example_model_state)]) false false [] [] 0) _ _ eq_refl
    ltac:(split; intros f Hf; discriminate) ltac:(vm_compute; reflexivity)) as [(Hc & Ht & _) H].
  split; [exact Hc|]. split; [exact Ht|].
  destruct (H _ eq_refl) as (_ & _ & Hm). destruct (Hm eq_refl) as [-> _]. vm_compute. reflexivity.
Defined.

