(* ===== verification/ModuleExchange.v ===== *)
(** * Whole-module exchanges

    Models src/vllm_hcu/patch/module_exchange.py: the table of vLLM modules
    the plugin replaces by its own, and its registration with the import
    coordinator.  Whether a source file exists is a parameter.
    [registration_batch] holds the coordinator's lock, which one thread does
    not see; the log message of the chosen mode is not modelled. *)

From S2P Require Import Prelude PyString PatchRegistry ImportCoordinator Envs.
From Stdlib Require Import Ascii.
Import Registry Coordinator.
Local Open Scope string_scope.

Module Exchange.

(** (patch id, canonical vLLM module, HCU implementation module) *)
Definition entry : Type := string * string * string.

Definition MODULAR_KERNEL : list entry :=
  [("module_exchange.modular_kernel", "vllm.model_executor.layers.fused_moe.modular_kernel",
    "vllm_hcu.model_executor.layers.fused_moe.modular_kernel")].

Definition BASE_LINEAR : list entry :=
  [("module_exchange.base_linear.linear", "vllm.model_executor.layers.linear",
    "vllm_hcu.model_executor.layers.linear")].

Definition DEEPSEEK_V4 : list entry :=
  [("module_exchange.deepseek_v4.sparse_swa", "vllm.v1.attention.backends.mla.sparse_swa",
    "vllm_hcu.v1.attention.backends.mla.sparse_swa")].

Definition DEEP_GEMM : list entry :=
  [("module_exchange.deep_gemm.utils", "vllm.model_executor.layers.fused_moe.deep_gemm_utils",
    "vllm_hcu.model_executor.layers.fused_moe.deep_gemm_utils");
   ("module_exchange.deep_gemm.experts", "vllm.model_executor.layers.fused_moe.experts.deep_gemm_moe",
    "vllm_hcu.model_executor.layers.fused_moe.experts.deep_gemm_moe");
   ("module_exchange.deep_gemm.batched_experts", "vllm.model_executor.layers.fused_moe.experts.batched_deep_gemm_moe",
    "vllm_hcu.model_executor.layers.fused_moe.experts.batched_deep_gemm_moe")].

Definition ATTENTION : list entry :=
  [("module_exchange.attention.sparse_indexer", "vllm.model_executor.layers.sparse_attn_indexer",
    "vllm_hcu.model_executor.layers.sparse_attn_indexer")].

Definition QWEN4_EXP_PLE : list entry :=
  [("module_exchange.qwen4_exp.fused_ple", "vllm.models.qwen4_exp.amd.ple_layer",
    "vllm_hcu.models.qwen4_exp.amd.ple_layer")].

Definition STEP5 : list entry :=
  [("module_exchange.step5.text_model", "vllm.model_executor.models.step5_text", "vllm_hcu.models.step5_text");
   ("module_exchange.step5.multimodal_model", "vllm.model_executor.models.step5_vl", "vllm_hcu.models.step5_vl");
   ("module_exchange.step5.mtp_model", "vllm.model_executor.models.step5_mtp", "vllm_hcu.models.step5_mtp");
   ("module_exchange.step5.swa_fused", "vllm.model_executor.models.step5_swa_fused", "vllm_hcu.models.step5_swa_fused");
   ("module_exchange.step5.config", "vllm.transformers_utils.configs.step5", "vllm_hcu.models.step5_config");
   ("module_exchange.step5.dsa_backend", "vllm.model_executor.layers.step4_dsa",
    "vllm_hcu.model_executor.layers.step4_dsa");
   ("module_exchange.step5.dsa_kernels", "vllm.model_executor.layers.step4_dsa_kernels",
    "vllm_hcu.model_executor.layers.step4_dsa_kernels");
   ("module_exchange.step5.skinny_lm_head", "vllm.model_executor.layers.skinny_lm_head",
    "vllm_hcu.model_executor.layers.skinny_lm_head")].

Definition ALL_GROUPS : list (list entry) := [MODULAR_KERNEL; BASE_LINEAR; ATTENTION; DEEPSEEK_V4; DEEP_GEMM; STEP5].

Definition enabled_groups (env : Envs.environ) : list (list entry) :=
  if Envs.fused_qwen4_exp_ple_enabled env then (ALL_GROUPS ++ [QWEN4_EXP_PLE])%list else ALL_GROUPS.

Section register.
(** Whether a file under the package root exists, the thread and the clock *)
Context (is_file : string -> bool) (tid now : Z).
(** The parts of the process the coordinator calls *)
Context (run_callback : Z -> Z -> M world unit) (import_module : string -> M world pyobj) (factory : Z -> M world pyobj).

(** The two places of a module's source: a file or a package *)
Definition source_exists (module_name : string) : bool :=
  let relative := join "/" (tail (split_on "."%char module_name)) in
  is_file (relative ++ ".py") || is_file (relative ++ "/__init__.py").

Definition validate_hcu_replacement_path (module_name : string) : result unit :=
  let parts := split_on "."%char module_name in
  if (Datatypes.length parts <? 2)%nat || negb (bool_decide (head parts = Some "vllm_hcu")) ||
     existsb (fun part => negb (isidentifier part)) parts
  then Err (Exn ValueError ("replacement must be an absolute vllm_hcu module name: " ++ repr module_name))
  else if negb (source_exists module_name)
  then Err (Exn ModuleNotFoundError ("HCU replacement module " ++ repr module_name ++ " has no source"))
  else Ok tt.

Fixpoint validate_loop (patch_ids canonical_names : list string) (es : list entry) : result unit :=
  match es with
  | [] => Ok tt
  | (patch_id, canonical, replacement) :: rest =>
      if bool_decide (patch_id = "") || bool_decide (patch_id ∈ patch_ids)
      then Err (Exn ValueError ("duplicate or empty module-exchange patch id: " ++ repr patch_id))
      else if negb (startswith "vllm." canonical) || bool_decide (canonical = replacement)
      then Err (Exn ValueError ("invalid canonical module exchange target: " ++ repr canonical))
      else if bool_decide (canonical ∈ canonical_names)
      then Err (Exn ValueError ("duplicate canonical module exchange target: " ++ repr canonical))
      else
        validate_hcu_replacement_path replacement ;;
        validate_loop (patch_id :: patch_ids) (canonical :: canonical_names) rest
  end.

Definition validate_entries (es : list entry) : result (list entry) :=
  validate_loop [] [] es ;; Ok es.

Fixpoint register_each (es : list entry) : M world (list ImportRegistration) :=
  match es with
  | [] => mret []
  | (patch_id, canonical, replacement) :: rest =>
      r ← register_replacement tid now run_callback import_module factory patch_id canonical (PModuleName replacement)
            (Some (Targets [canonical; replacement])) true LateFail;
      rs ← register_each rest;
      mret (r :: rs)
  end.

Definition register_entries (es : list entry) : M world (list ImportRegistration) :=
  checked ← lift (validate_entries es);
  register_each checked.

Definition register_modular_kernel_exchange : M world (list ImportRegistration) := register_entries MODULAR_KERNEL.
Definition register_base_linear_exchanges : M world (list ImportRegistration) := register_entries BASE_LINEAR.
Definition register_deepseek_v4_exchanges : M world (list ImportRegistration) := register_entries DEEPSEEK_V4.
Definition register_deep_gemm_exchanges : M world (list ImportRegistration) := register_entries DEEP_GEMM.
Definition register_attention_exchanges : M world (list ImportRegistration) := register_entries ATTENTION.

Definition register_qwen4_exp_ple_exchange (env : Envs.environ) : M world (list ImportRegistration) :=
  if Envs.fused_qwen4_exp_ple_enabled env then register_entries QWEN4_EXP_PLE else mret [].

Fixpoint register_groups (groups : list (list entry)) : M world (list ImportRegistration) :=
  match groups with
  | [] => mret []
  | group :: rest =>
      rs ← register_entries group;
      rs' ← register_groups rest;
      mret (rs ++ rs')%list
  end.

Definition register_all_module_exchanges (env : Envs.environ) : M world (list ImportRegistration) :=
  let groups := enabled_groups env in
  lift (validate_entries (List.concat groups)) ;;
  register_groups groups.
End register.

Definition module_exchange_names (env : Envs.environ) : list (string * string) :=
  map (fun '(_, canonical, replacement) => (canonical, replacement)) (List.concat (enabled_groups env)).

End Exchange.
