(* ===== verification/ModuleExchangeCorrect.v ===== *)
(** * Correctness of the module exchanges

    The whole table is armed in its order or nothing is, registering it again
    changes nothing, and an import of an exchanged module gets the plugin's
    implementation. *)

From S2P Require Import Prelude PyString PatchRegistry ImportCoordinator Envs ModuleExchange.
From Stdlib Require Import Ascii.
Import Registry Coordinator Exchange.
Local Open Scope string_scope.

Definition patch_of (e : entry) : string := e.1.1.
Definition canonical_of (e : entry) : string := e.1.2.
Definition replacement_of (e : entry) : string := e.2.

(** The table of a process *)
Definition table (env : Envs.environ) : list entry := List.concat (enabled_groups env).

(** ** The table *)

(** What the registration needs of an entry apart from its source *)
Record good_entry (e : entry) : Prop := GoodEntry {
  ge_canonical : validate_module_name (canonical_of e) = Ok (canonical_of e);
  ge_replacement : validate_module_name (replacement_of e) = Ok (replacement_of e);
  ge_patch : validate_patch_id (patch_of e) = Ok (patch_of e);
  ge_targets : normalise_targets (Targets [canonical_of e; replacement_of e]) = Ok [canonical_of e; replacement_of e];
  ge_differ : canonical_of e <> replacement_of e;
  ge_nonempty : patch_of e <> "";
  ge_vllm : startswith "vllm." (canonical_of e) = true;
  ge_path : (Datatypes.length (split_on "."%char (replacement_of e)) <? 2)%nat ||
    negb (bool_decide (head (split_on "."%char (replacement_of e)) = Some "vllm_hcu")) ||
    existsb (fun part => negb (isidentifier part)) (split_on "."%char (replacement_of e)) = false
}.

Lemma full_table_good : Forall good_entry (List.concat (ALL_GROUPS ++ [QWEN4_EXP_PLE])%list).
Proof. repeat constructor; vm_compute; reflexivity || discriminate. Qed.

Lemma table_sub env e : e ∈ table env -> e ∈ List.concat (ALL_GROUPS ++ [QWEN4_EXP_PLE])%list.
Proof.
  unfold table, enabled_groups. destruct (Envs.fused_qwen4_exp_ple_enabled env); [done|].
  rewrite concat_app. intros He. apply elem_of_app. by left.
Qed.

Lemma table_good env : Forall good_entry (table env).
Proof.
  apply Forall_forall. intros e He%table_sub. pose proof full_table_good as H. rewrite Forall_forall in H. auto.
Qed.

Lemma full_table_distinct :
  NoDup (map patch_of (List.concat (ALL_GROUPS ++ [QWEN4_EXP_PLE])%list)) /\
  NoDup (map canonical_of (List.concat (ALL_GROUPS ++ [QWEN4_EXP_PLE])%list)).
Proof. split; apply (bool_decide_unpack _); vm_compute; exact I. Qed.

Lemma table_distinct env : NoDup (map patch_of (table env)) /\ NoDup (map canonical_of (table env)).
Proof.
  destruct full_table_distinct as [H1 H2]. unfold table, enabled_groups.
  destruct (Envs.fused_qwen4_exp_ple_enabled env); [done|].
  rewrite concat_app, map_app in H1, H2. apply NoDup_app in H1 as (H1 & _), H2 as (H2 & _). done.
Qed.

(** ** Validation *)

Section register.
Context (is_file : string -> bool) (tid now : Z).
Context (run_callback : Z -> Z -> M world unit) (import_module : string -> M world pyobj) (factory : Z -> M world pyobj).

Lemma validate_loop_ok ps cs es :
  Forall good_entry es -> NoDup (map patch_of es) -> NoDup (map canonical_of es) ->
  (forall e, e ∈ es -> (patch_of e ∉ ps) /\ (canonical_of e ∉ cs)) ->
  match validate_loop is_file ps cs es with
  | Ok _ => Forall (fun e => source_exists is_file (replacement_of e) = true) es
  | Err x => exn_type x = ModuleNotFoundError /\
      ~ (Forall (fun e => source_exists is_file (replacement_of e) = true) es)
  end.
Proof using Type.
  revert ps cs. induction es as [|[[p c] r] es IH]; intros ps cs Hg Hp Hc Hn; [constructor|].
  apply Forall_cons in Hg as [[_ _ _ _ Hd Hne Hv Hpath] Hg]. unfold patch_of, canonical_of, replacement_of in *.
  cbn [fst snd map validate_loop] in *.
  apply NoDup_cons in Hp as [Hp Hps], Hc as [Hc Hcs]. destruct (Hn (p, c, r) ltac:(left)) as [Hnp Hnc]. cbn [fst snd] in Hnp, Hnc.
  rewrite !bool_decide_false by done. rewrite Hv. cbn [orb negb]. unfold validate_hcu_replacement_path. cbv zeta.
  rewrite Hpath. destruct (source_exists is_file r) eqn:Es; cbn.
  - specialize (IH (p :: ps) (c :: cs) Hg Hps Hcs).
    destruct (validate_loop _ _ _ es); rewrite Forall_cons; [split; [done|]; apply IH|destruct IH as [? IH]; [|split; [done|]; intros [_ HF]; by apply IH]];
      (intros x Hx; destruct (Hn x ltac:(by right)) as [??]; rewrite !not_elem_of_cons; split_and!; try done; intros Heq;
       [apply Hp|apply Hc]; apply list_elem_of_fmap; by exists x).
  - split; [done|]. rewrite Forall_cons. cbn [snd]. intros [HF _]. by rewrite Es in HF.
Qed.

Lemma validate_table_ok es :
  Forall good_entry es -> NoDup (map patch_of es) -> NoDup (map canonical_of es) ->
  match validate_entries is_file es with
  | Ok es' => es' = es /\ Forall (fun e => source_exists is_file (replacement_of e) = true) es
  | Err x => exn_type x = ModuleNotFoundError /\
      ~ (Forall (fun e => source_exists is_file (replacement_of e) = true) es)
  end.
Proof using Type.
  intros Hg Hp Hc. pose proof (validate_loop_ok [] [] es Hg Hp Hc) as H. unfold validate_entries.
  destruct (validate_loop _ _ _ es); cbn; [split; [done|]|]; apply H; intros; split; apply not_elem_of_nil.
Qed.

(** ** One registration *)

(** Nobody knows the patch yet, and its module is neither registered for nor
    imported. *)
Record fresh (w : world) (e : entry) : Prop := Fresh {
  fr_entry : dget (entries (w_coord w)) (patch_of e) = None;
  fr_record : get (w_registry w) (patch_of e) = None;
  fr_ids : ids_for w (canonical_of e) = [];
  fr_unloaded : dget (sys_modules (w_env w)) (canonical_of e) = None
}.

Definition entry_object (e : entry) : Entry :=
  MkEntry (patch_of e) (canonical_of e) [canonical_of e; replacement_of e] REPLACEMENT
    (PModuleName (replacement_of e)) true LateFail None None None None false.

Definition armed_record (e : entry) : PatchRecord :=
  Record_ (patch_of e) ARMED [canonical_of e; replacement_of e] true None now.

(** The process after the registration of an entry *)
Definition with_entry (w : world) (e : entry) : world :=
  add_entry (entry_object e)
    (World (set_records (dset (records (w_registry w)) (patch_of e) (armed_record e)) (w_registry w))
       (w_coord w) (w_env w) (w_calls w)).

Definition registration_of (e : entry) : ImportRegistration :=
  Registration (patch_of e) (canonical_of e) [canonical_of e; replacement_of e] REPLACEMENT "armed" true.

Lemma dset_dset {V} (d : dict string V) k v v' : dset (dset d k v) k v' = dset d k v'.
Proof.
  induction d as [|[k0 v0] d IH]; simpl; [by rewrite decide_True|].
  case_decide; simpl; [by rewrite decide_True|]. rewrite decide_False by done. by f_equal.
Qed.

Lemma declare_fresh g e :
  good_entry e -> get g (patch_of e) = None ->
  exists r, declare (patch_of e) (Targets [canonical_of e; replacement_of e]) now g =
      (Ok r, set_records (dset (records g) (patch_of e) r) g) /\
    set_feature_enabled (patch_of e) true now (set_records (dset (records g) (patch_of e) r) g) =
      (Ok (armed_record e), set_records (dset (records g) (patch_of e) (armed_record e)) g).
Proof.
  intros [_ _ Hp Ht _ _ _ _] Hg. unfold get in Hg.
  exists (Record_ (patch_of e) ARMED [canonical_of e; replacement_of e] false None now). split.
  - unfold declare. munfold. by rewrite Hp, Ht, Hg.
  - unfold set_feature_enabled, require_record. munfold. rewrite ?Hp. cbn [records set_records].
    rewrite dget_dset_eq. cbn [status]. unfold set_records. cbn. by rewrite dset_dset.
Qed.

Lemma register_new w e :
  good_entry e -> fresh w e -> register (entry_object e) now w = (Ok (entry_object e, true), with_entry w e).
Proof.
  intros Hg [Hfe Hfr Hfi _]. destruct (declare_fresh (w_registry w) e Hg Hfr) as (r & Hd & Hf).
  unfold register, get_state. munfold. cbn [entry_object e_patch_id e_module_name e_targets e_feature_enabled].
  rewrite Hfe. change (is_callback (entry_object e)) with false. cbv iota. rewrite Hfi. cbn [entries_of]. munfold.
  cbn [List.find]. unfold on_reg. rewrite Hd. cbn [w_registry]. rewrite Hf. reflexivity.
Qed.

Lemma register_fresh w e :
  good_entry e -> fresh w e ->
  register_replacement tid now run_callback import_module factory (patch_of e) (canonical_of e)
    (PModuleName (replacement_of e)) (Some (Targets [canonical_of e; replacement_of e])) true LateFail w =
  (Ok (registration_of e), with_entry w e).
Proof.
  intros Hg Hf. pose proof (register_new w e Hg Hf) as Hr. destruct Hg as [Hc Hrep _ Ht Hd _ _ _]. destruct Hf as [_ _ _ Hfu].
  unfold register_replacement. rewrite (M_bind_ok _ _ _ (canonical_of e) w) by (unfold lift; by rewrite Hc).
  rewrite (M_bind_ok _ _ _ tt w) by (unfold lift, validate_replacement, mbind, result_bind; by rewrite Hrep).
  rewrite decide_False by congruence. rewrite (M_bind_ok _ _ _ tt w) by done.
  rewrite (M_bind_ok _ _ _ [canonical_of e; replacement_of e] w) by (unfold lift; f_equal; exact Ht).
  cbv zeta. fold (entry_object e). rewrite (M_bind_ok _ _ _ _ _ Hr). cbn [e_module_name entry_object].
  munfold. cbn [with_entry add_entry set_coord w_env]. rewrite Hfu. unfold view. munfold.
  cbn [with_entry add_entry set_coord w_registry entry_object e_patch_id]. unfold get. cbn [records set_records].
  rewrite dget_dset_eq. reflexivity.
Qed.

(** ** The whole table *)

Lemma ids_for_with_entry w e name :
  ids_for (with_entry w e) name =
    if decide (canonical_of e = name) then (ids_for w (canonical_of e) ++ [patch_of e])%list else ids_for w name.
Proof using Type. unfold ids_for, with_entry, add_entry. cbn. rewrite dget_dset. by case_decide. Qed.

Lemma fresh_with_entry w e e' :
  patch_of e <> patch_of e' -> canonical_of e <> canonical_of e' -> fresh w e' -> fresh (with_entry w e) e'.
Proof using Type.
  intros Hp Hc [H1 H2 H3 H4]. constructor.
  - cbn. by rewrite dget_dset_ne.
  - unfold get. cbn. by rewrite dget_dset_ne.
  - by rewrite ids_for_with_entry, decide_False.
  - done.
Qed.

Lemma fresh_rest w e es :
  patch_of e ∉ map patch_of es -> canonical_of e ∉ map canonical_of es -> Forall (fresh w) es ->
  Forall (fresh (with_entry w e)) es.
Proof using Type.
  intros Hp Hc H. rewrite Forall_forall in H |- *. intros x Hx. apply fresh_with_entry; [| |auto].
  - intros E. apply Hp. rewrite E. by apply list_elem_of_fmap_2.
  - intros E. apply Hc. rewrite E. by apply list_elem_of_fmap_2.
Qed.

Lemma register_each_fresh es w :
  Forall good_entry es -> NoDup (map patch_of es) -> NoDup (map canonical_of es) -> Forall (fresh w) es ->
  register_each tid now run_callback import_module factory es w = (Ok (map registration_of es), foldl with_entry w es).
Proof.
  revert w. induction es as [|e es IH]; intros w Hg Hp Hc Hf; [done|].
  apply Forall_cons in Hg as [Hge Hg], Hf as [Hfe Hf]. apply NoDup_cons in Hp as [Hp Hps], Hc as [Hc Hcs].
  destruct e as [[p c] r]. cbn [register_each]. rewrite (M_bind_ok _ _ _ _ _ (register_fresh w (p, c, r) Hge Hfe)).
  rewrite (M_bind_ok _ _ _ _ _ (IH (with_entry w (p, c, r)) Hg Hps Hcs (fresh_rest _ _ _ Hp Hc Hf))). done.
Qed.

Lemma fresh_after es es' w :
  NoDup (map patch_of (es ++ es')%list) -> NoDup (map canonical_of (es ++ es')%list) ->
  Forall (fresh w) es' -> Forall (fresh (foldl with_entry w es)) es'.
Proof using Type.
  revert w. induction es as [|e es IH]; intros w Hp Hc Hf; [done|]. cbn [foldl].
  change (NoDup (patch_of e :: map patch_of (es ++ es')%list)) in Hp.
  change (NoDup (canonical_of e :: map canonical_of (es ++ es')%list)) in Hc.
  apply NoDup_cons in Hp as [Hp Hps], Hc as [Hc Hcs]. apply IH; [done|done|].
  rewrite map_app in Hp. rewrite map_app in Hc. apply fresh_rest; [| |done]; intros H.
  - apply Hp, elem_of_app. by right.
  - apply Hc, elem_of_app. by right.
Qed.

Definition exists_source (e : entry) : Prop := source_exists is_file (replacement_of e) = true.

Lemma register_groups_fresh groups w :
  Forall good_entry (List.concat groups) -> NoDup (map patch_of (List.concat groups)) ->
  NoDup (map canonical_of (List.concat groups)) -> Forall exists_source (List.concat groups) ->
  Forall (fresh w) (List.concat groups) ->
  register_groups is_file tid now run_callback import_module factory groups w =
    (Ok (map registration_of (List.concat groups)), foldl with_entry w (List.concat groups)).
Proof.
  revert w. induction groups as [|g groups IH]; intros w Hg Hp Hc Hs Hf; [done|]. cbn [List.concat register_groups] in *.
  pose proof Hp as Hp'. pose proof Hc as Hc'. rewrite map_app in Hp. rewrite map_app in Hc.
  apply Forall_app in Hg as [Hg1 Hg2], Hs as [Hs1 Hs2], Hf as [Hf1 Hf2].
  apply NoDup_app in Hp as (Hp1 & _ & Hp2), Hc as (Hc1 & _ & Hc2).
  assert (register_entries is_file tid now run_callback import_module factory g w =
    (Ok (map registration_of g), foldl with_entry w g)) as Hr.
  { unfold register_entries. pose proof (validate_table_ok g Hg1 Hp1 Hc1) as Hv.
    destruct (validate_entries is_file g) as [g'|x]; [|by destruct Hv as [_ []]]. destruct Hv as [-> _].
    rewrite (M_bind_ok _ _ _ g w) by done. by apply register_each_fresh. }
  rewrite (M_bind_ok _ _ _ _ _ Hr).
  rewrite (M_bind_ok _ _ _ _ _ (IH (foldl with_entry w g) Hg2 Hp2 Hc2 Hs2 (fresh_after g (List.concat groups) w Hp' Hc' Hf2))).
  rewrite map_app, foldl_app. done.
Qed.

(** What the process has once the table is registered *)
Record armed (w w' : world) (es : list entry) : Prop := Armed {
  ar_entries : forall e, e ∈ es -> dget (entries (w_coord w')) (patch_of e) = Some (entry_object e) /\
    get (w_registry w') (patch_of e) = Some (armed_record e) /\ ids_for w' (canonical_of e) = [patch_of e];
  ar_other : forall p, p ∉ map patch_of es -> dget (entries (w_coord w')) p = dget (entries (w_coord w)) p /\
    get (w_registry w') p = get (w_registry w) p;
  ar_modules : forall c, c ∉ map canonical_of es -> ids_for w' c = ids_for w c;
  ar_process : w_env w' = w_env w /\ w_calls w' = w_calls w
}.

Lemma armed_foldl es w :
  NoDup (map patch_of es) -> NoDup (map canonical_of es) -> Forall (fresh w) es -> armed w (foldl with_entry w es) es.
Proof using Type.
  revert w. induction es as [|e es IH]; intros w Hp Hc Hf.
  { constructor; try done. intros e He. by apply elem_of_nil in He. }
  apply NoDup_cons in Hp as [Hp Hps], Hc as [Hc Hcs]. apply Forall_cons in Hf as [Hfe Hf].
  destruct (IH (with_entry w e) Hps Hcs (fresh_rest _ _ _ Hp Hc Hf)) as [H1 H2 H3 [H4 H5]].
  cbn [foldl]. constructor.
  - intros x [->|Hx]%elem_of_cons; [|auto]. destruct (H2 _ Hp) as [-> ->]. rewrite (H3 _ Hc).
    split_and!; [cbn; by rewrite dget_dset_eq|unfold get; cbn; by rewrite dget_dset_eq|].
    rewrite ids_for_with_entry, decide_True by done. by rewrite (fr_ids _ _ Hfe).
  - intros p Hn. cbn [map] in Hn. apply not_elem_of_cons in Hn as [Hne Hn]. destruct (H2 p Hn) as [-> ->].
    unfold get. cbn. by rewrite !dget_dset_ne.
  - intros c Hn. cbn [map] in Hn. apply not_elem_of_cons in Hn as [Hne Hn]. rewrite (H3 c Hn).
    by rewrite ids_for_with_entry, decide_False.
  - by rewrite H4, H5.
Qed.

(** ** A second registration *)

Lemma register_again w w0 e es :
  armed w0 w es -> e ∈ es -> good_entry e ->
  register_replacement tid now run_callback import_module factory (patch_of e) (canonical_of e)
    (PModuleName (replacement_of e)) (Some (Targets [canonical_of e; replacement_of e])) true LateFail w =
  (Ok (registration_of e), w).
Proof.
  intros [Ha _ _ _] He [Hc Hrep _ Ht Hd _ _ _]. destruct (Ha e He) as (Hent & Hrec & _).
  unfold register_replacement. rewrite (M_bind_ok _ _ _ (canonical_of e) w) by (unfold lift; by rewrite Hc).
  rewrite (M_bind_ok _ _ _ tt w) by (unfold lift, validate_replacement, mbind, result_bind; by rewrite Hrep).
  rewrite decide_False by congruence. rewrite (M_bind_ok _ _ _ tt w) by done.
  rewrite (M_bind_ok _ _ _ [canonical_of e; replacement_of e] w) by (unfold lift; f_equal; exact Ht).
  cbv zeta. fold (entry_object e).
  assert (raise_if_failed (entry_object e) w = (Ok tt, w)) as Hf.
  { unfold raise_if_failed. munfold. cbn [entry_object e_patch_id]. rewrite Hrec. reflexivity. }
  assert (register (entry_object e) now w = (Ok (entry_object e, false), w)) as Hr.
  { unfold register. rewrite (M_bind_ok _ _ _ w w) by done. cbn [entry_object e_patch_id]. rewrite Hent.
    replace (same_registration (entry_object e) (entry_object e)) with true
      by (unfold same_registration; by rewrite !bool_decide_true by done).
    cbn [negb]. rewrite (M_bind_ok _ _ _ _ _ Hf). done. }
  rewrite (M_bind_ok _ _ _ _ _ Hr). cbv iota. rewrite (M_bind_ok _ _ _ _ _ Hf).
  unfold view. munfold. cbn [entry_object e_patch_id]. rewrite Hrec. reflexivity.
Qed.

Lemma register_each_again w w0 es all :
  armed w0 w all -> es ⊆ all -> Forall good_entry es ->
  register_each tid now run_callback import_module factory es w = (Ok (map registration_of es), w).
Proof.
  intros Ha. induction es as [|[[p c] r] es IH]; intros Hs Hg; [done|]. apply Forall_cons in Hg as [Hge Hg].
  cbn [register_each]. rewrite (M_bind_ok _ _ _ _ _ (register_again w w0 (p, c, r) all Ha ltac:(set_solver) Hge)).
  rewrite (M_bind_ok _ _ _ _ _ (IH ltac:(set_solver) Hg)). done.
Qed.

Lemma register_groups_again w w0 groups all :
  armed w0 w all -> List.concat groups ⊆ all -> Forall good_entry (List.concat groups) ->
  NoDup (map patch_of (List.concat groups)) -> NoDup (map canonical_of (List.concat groups)) ->
  Forall exists_source (List.concat groups) ->
  register_groups is_file tid now run_callback import_module factory groups w =
    (Ok (map registration_of (List.concat groups)), w).
Proof.
  intros Ha. induction groups as [|g groups IH]; intros Hsub Hg Hp Hc Hs; [done|]. cbn [List.concat register_groups] in *.
  rewrite map_app in Hp. rewrite map_app in Hc.
  apply Forall_app in Hg as [Hg1 Hg2], Hs as [Hs1 Hs2]. apply NoDup_app in Hp as (Hp1 & _ & Hp2), Hc as (Hc1 & _ & Hc2).
  assert (register_entries is_file tid now run_callback import_module factory g w =
    (Ok (map registration_of g), w)) as Hr.
  { unfold register_entries. pose proof (validate_table_ok g Hg1 Hp1 Hc1) as Hv.
    destruct (validate_entries is_file g) as [g'|x]; [|by destruct Hv as [_ []]]. destruct Hv as [-> _].
    rewrite (M_bind_ok _ _ _ g w) by done. eapply register_each_again; [done|set_solver|done]. }
  rewrite (M_bind_ok _ _ _ _ _ Hr). rewrite (M_bind_ok _ _ _ _ _ (IH ltac:(set_solver) Hg2 Hp2 Hc2 Hs2)).
  rewrite map_app. done.
Qed.

(** ** Imports *)

Lemma find_armed w0 w es e finders spec path :
  armed w0 w es -> e ∈ es ->
  find_spec finders spec (canonical_of e) path None w =
    (Ok (FromLoader (ReplacementLoader (canonical_of e)) ("vllm-hcu replacement:" ++ patch_of e)), w).
Proof.
  intros [Ha _ _ _] He. destruct (Ha e He) as (Hent & Hrec & Hids).
  assert (entries_for (canonical_of e) w = (Ok [entry_object e], w)) as Hef.
  { unfold entries_for. rewrite (M_bind_ok _ _ _ w w) by done. rewrite Hids. cbn [entries_of].
    rewrite (M_bind_ok _ _ _ (entry_object e) w) by (unfold entry_at; by rewrite Hent). done. }
  unfold find_spec. rewrite (M_bind_ok _ _ _ _ _ Hef), (M_bind_ok _ _ _ w w) by done.
  unfold active_replacement. cbn [List.find]. unfold has_status, record_status. cbn [entry_object e_patch_id].
  rewrite Hrec. reflexivity.
Qed.

Local Abbreviation register_all env :=
  (register_all_module_exchanges is_file tid now run_callback import_module factory env).

Lemma register_all_fresh env w :
  Forall exists_source (table env) -> Forall (fresh w) (table env) ->
  register_all env w = (Ok (map registration_of (table env)), foldl with_entry w (table env)).
Proof.
  intros Hs Hf. destruct (table_distinct env) as [Hp Hc]. unfold register_all_module_exchanges. fold (table env).
  pose proof (validate_table_ok (table env) (table_good env) Hp Hc) as Hv.
  destruct (validate_entries is_file (table env)) as [g'|x]; [|by destruct Hv as [_ []]].
  rewrite (M_bind_ok _ _ _ g' w) by done. by apply register_groups_fresh; try done; apply table_good.
Qed.

Lemma register_all_again env w0 w :
  Forall exists_source (table env) -> armed w0 w (table env) ->
  register_all env w = (Ok (map registration_of (table env)), w).
Proof.
  intros Hs Ha. destruct (table_distinct env) as [Hp Hc]. unfold register_all_module_exchanges. fold (table env).
  pose proof (validate_table_ok (table env) (table_good env) Hp Hc) as Hv.
  destruct (validate_entries is_file (table env)) as [g'|x]; [|by destruct Hv as [_ []]].
  rewrite (M_bind_ok _ _ _ g' w) by done. by eapply register_groups_again; try done; apply table_good.
Qed.
End register.

(** C36: in a process that knows none of the patches and has loaded none of the
    modules, registering the exchanges arms the whole table in its order:
    every entry and only these are added, nothing is imported or called, and a
    later import of each of the modules gets the loader of its replacement.
    Registering again returns the same and changes nothing. *)
Theorem exchanges_armed is_file tid now run_callback import_module factory env w :
  Forall (fun e => source_exists is_file (replacement_of e) = true) (table env) ->
  Forall (fresh w) (table env) ->
  exists w', register_all_module_exchanges is_file tid now run_callback import_module factory env w =
      (Ok (map registration_of (table env)), w') /\
    armed now w w' (table env) /\
    (forall e finders spec path, e ∈ table env -> find_spec finders spec (canonical_of e) path None w' =
      (Ok (FromLoader (ReplacementLoader (canonical_of e)) ("vllm-hcu replacement:" ++ patch_of e)), w')) /\
    register_all_module_exchanges is_file tid now run_callback import_module factory env w' =
      (Ok (map registration_of (table env)), w').
Proof.
  intros Hs Hf. destruct (table_distinct env) as [Hp Hc].
  pose proof (armed_foldl now (table env) w Hp Hc Hf) as Ha.
  exists (foldl (with_entry now) w (table env)). split_and!; [by apply register_all_fresh|done| |].
  - intros e finders spec path He. by eapply find_armed.
  - by eapply register_all_again.
Qed.

(** When the source of any replacement is missing, the registration raises
    ModuleNotFoundError before it changes anything. *)
Theorem missing_source_registers_nothing is_file tid now run_callback import_module factory env w e :
  e ∈ table env -> source_exists is_file (replacement_of e) = false ->
  exists x, register_all_module_exchanges is_file tid now run_callback import_module factory env w = (Err x, w) /\
    exn_type x = ModuleNotFoundError.
Proof.
  intros He Hs. destruct (table_distinct env) as [Hp Hc]. unfold register_all_module_exchanges. fold (table env).
  pose proof (validate_table_ok is_file (table env) (table_good env) Hp Hc) as Hv.
  destruct (validate_entries is_file (table env)) as [g'|x].
  - destruct Hv as [_ Hv]. rewrite Forall_forall in Hv. specialize (Hv e He). congruence.
  - exists x. split; [|apply Hv]. by rewrite (M_bind_err _ _ _ x w).
Qed.

(** ** Witnesses: a new process, without and with the fused layer *)

Definition new_process : world :=
  World empty_registry (Coord [] [] false) (Env [] [] [] [] []) [].

Lemma new_process_fresh es : Forall (fresh new_process) es.
Proof. apply Forall_forall. intros e _. by constructor. Qed.

Lemma exchanges_armed_witness :
  exists w', register_all_module_exchanges (fun _ => true) 1 0 (fun _ _ => mret tt) (fun _ => mret (PyObject 0))
      (fun _ => mret (PyObject 0)) (fun _ => None) new_process =
      (Ok (map registration_of (table (fun _ => None))), w') /\
    find_spec (fun _ => None) (fun _ => None) "vllm.models.qwen4_exp.amd.ple_layer" 0 None w' =
      (Ok (FromLoader (ReplacementLoader "vllm.models.qwen4_exp.amd.ple_layer")
         "vllm-hcu replacement:module_exchange.qwen4_exp.fused_ple"), w').
Proof.
  destruct (exchanges_armed (fun _ => true) 1 0 (fun _ _ => mret tt) (fun _ => mret (PyObject 0))
    (fun _ => mret (PyObject 0)) (fun _ => None) new_process) as (w' & Hr & _ & Hf & _).
  - apply Forall_forall. intros e _. reflexivity.
  - apply new_process_fresh.
  - exists w'. split; [exact Hr|].
    apply (Hf ("module_exchange.qwen4_exp.fused_ple", "vllm.models.qwen4_exp.amd.ple_layer",
      "vllm_hcu.models.qwen4_exp.amd.ple_layer") (fun _ => None) (fun _ => None) 0%Z).
    apply (bool_decide_unpack _). vm_compute. exact I.
Defined.

Lemma missing_source_registers_nothing_witness :
  exists x, register_all_module_exchanges (fun f => negb (bool_decide (f = "models/step5_vl.py")) && endswith_char "y"%char f
        && negb (bool_decide (f = "models/step5_vl/__init__.py")))
      1 0 (fun _ _ => mret tt) (fun _ => mret (PyObject 0)) (fun _ => mret (PyObject 0)) (fun _ => None) new_process =
      (Err x, new_process) /\ exn_type x = ModuleNotFoundError.
Proof.
  apply (missing_source_registers_nothing _ 1 0 _ _ _ _ new_process
    ("module_exchange.step5.multimodal_model", "vllm.model_executor.models.step5_vl", "vllm_hcu.models.step5_vl")).
  - apply (bool_decide_unpack _). vm_compute. exact I.
  - vm_compute. reflexivity.
Defined.
