(* ===== verification/DsaPending.v ===== *)
(** * The table of pending region rows

    Models [Step4PendingTable] of
    src/vllm_hcu/model_executor/layers/step4_dsa.py: which buffer row holds the
    tokens of which region that is not complete yet.  Rows are recycled, least
    recently touched first; rows retired before the previous step go first. *)

From S2P Require Import Prelude Tensors.
Local Open Scope Z_scope.

Module DsaPending.

Record pending_table := PendingTable {
  capacity : Z;
  row_of_slot : gmap Z Z;
  slot_of_row : list Z;
  touched : list Z;
  step : Z
}.

(** [Step4PendingTable(capacity)] *)
Definition new_table (capacity : Z) : pending_table :=
  PendingTable capacity ∅ (replicate (Z.to_nat capacity) (-1)) (replicate (Z.to_nat capacity) (-1)) 0.

(** [l[i]] and [l[i] = x] of a list *)
Definition row_get {A} (l : list A) (i : Z) : result A :=
  match zget l (if i <? 0 then zlen l + i else i) with
  | Some x => Ok x
  | None => Err (Exn IndexError "list index out of range")
  end.

Definition row_set {A} (l : list A) (i : Z) (x : A) : result (list A) :=
  let j := if i <? 0 then zlen l + i else i in
  if (0 <=? j) && (j <? zlen l) then Ok (<[Z.to_nat j := x]> l)
  else Err (Exn IndexError "list assignment index out of range").

(** ** Assignments to the attributes *)

Definition set_mapping (m : gmap Z Z) (t : pending_table) : pending_table :=
  PendingTable (capacity t) m (slot_of_row t) (touched t) (step t).

(** [self._slot_of_row[row] = slot] *)
Definition set_slot (row slot : Z) : M pending_table unit :=
  t ← get_state;
  l ← lift (row_set (slot_of_row t) row slot);
  put_state (PendingTable (capacity t) (row_of_slot t) l (touched t) (step t)).

(** [self._touched[row] = when] *)
Definition set_touched (row when : Z) : M pending_table unit :=
  t ← get_state;
  l ← lift (row_set (touched t) row when);
  put_state (PendingTable (capacity t) (row_of_slot t) (slot_of_row t) l (step t)).

Definition touch (row : Z) : M pending_table unit := t ← get_state; set_touched row (step t).

(** ** The methods *)

Definition begin_step : M pending_table unit :=
  modify (fun t => PendingTable (capacity t) (row_of_slot t) (slot_of_row t) (touched t) (step t + 1)).

(** [get] is called [get_row], as [get] reads a dictionary *)
Definition get_row (slot : Z) : M pending_table Z :=
  t ← get_state;
  match row_of_slot t !! slot with
  | None => raise RuntimeError "Step-4 DSA: no pending tokens for region slot"
  | Some row => touch row ;; mret row
  end.

(** [1 << 40], the age a retirement takes off *)
Definition RETIRED : Z := Z.shiftl 1 40.

(** The step a row counts as touched at: a row retired by the previous step
    counts as touched by it. *)
Definition age (step touched : Z) : Z :=
  if (step - 1 - RETIRED <=? touched) && (touched <? 0) then touched + RETIRED else touched.

(** The loop of [_free_row]: a free row, or the oldest row of the rest and its
    age *)
Fixpoint scan_rows (t : pending_table) (rows : list Z) (oldest_row oldest_step : Z) : result (bool * Z) :=
  match rows with
  | [] => Ok (false, oldest_row)
  | row :: rows' =>
      slot ← row_get (slot_of_row t) row;
      if slot <? 0 then mret (true, row)
      else
        when ← row_get (touched t) row;
        let a := age (step t) when in
        if a <? oldest_step then scan_rows t rows' row a else scan_rows t rows' oldest_row oldest_step
  end.

(** [_free_row] *)
Definition free_row : M pending_table Z :=
  t ← get_state;
  found ← lift (scan_rows t (zrange 0 (capacity t)) (-1) (step t));
  if (found.1 : bool) then mret found.2
  else if found.2 <? 0
  then raise RuntimeError "Step-4 DSA: all pending region buffers are in use this step"
  else
    slot ← lift (row_get (slot_of_row t) found.2);
    modify (set_mapping (delete slot (row_of_slot t))) ;;
    set_slot found.2 (-1) ;;
    mret found.2.

Definition acquire (slot : Z) : M pending_table Z :=
  t ← get_state;
  row ← match row_of_slot t !! slot with
        | Some row => mret row
        | None =>
            row ← free_row;
            modify (fun t => set_mapping (<[slot := row]> (row_of_slot t)) t) ;;
            set_slot row slot ;;
            mret row
        end;
  touch row ;;
  mret row.

Definition release (slot : Z) : M pending_table unit :=
  t ← get_state;
  match row_of_slot t !! slot with
  | None => mret tt
  | Some row =>
      modify (set_mapping (delete slot (row_of_slot t))) ;;
      set_slot row (-1) ;;
      set_touched row (-1)
  end.

Definition retire (slot : Z) : M pending_table unit :=
  t ← get_state;
  match row_of_slot t !! slot with
  | None => mret tt
  | Some row => set_touched row (step t - RETIRED)
  end.

End DsaPending.

(** ** Rows are recycled safely

    Facts on DsaPending.v: the mapping of slots to rows stays one to one, a row
    touched in the current step is never handed to another slot, a row is found
    while fewer than [capacity] rows are touched, and the row recycled is the
    oldest. *)

Module DsaPendingCorrect.
Import DsaPending.

Lemma row_get_in {A} (l : list A) i x : zget l i = Some x -> row_get l i = Ok x.
Proof.
  intros H. pose proof (zget_Some _ _ _ H) as Hi. unfold row_get.
  destruct (Z.ltb_spec i 0); [lia|]. by rewrite H.
Qed.

Lemma row_set_in {A} (l : list A) i x : 0 <= i < zlen l -> row_set l i x = Ok (<[Z.to_nat i := x]> l).
Proof.
  intros Hi. unfold row_set. destruct (Z.ltb_spec i 0); [lia|].
  destruct (Z.leb_spec 0 i), (Z.ltb_spec i (zlen l)); try lia. done.
Qed.

(** ** The invariant *)

(** The time of a row is not in the future, and it is negative only for a
    retired row. *)
Definition time_ok (step when : Z) : Prop := when <= step /\ (when < 0 -> when <= step - RETIRED).

Record table_ok (t : pending_table) : Prop := TableOk {
  ok_slots : zlen (slot_of_row t) = capacity t;
  ok_touched : zlen (touched t) = capacity t;
  ok_step : 0 <= step t;
  ok_forward : forall slot row, row_of_slot t !! slot = Some row ->
    0 <= slot /\ zget (slot_of_row t) row = Some slot;
  ok_backward : forall slot row, zget (slot_of_row t) row = Some slot -> 0 <= slot ->
    row_of_slot t !! slot = Some row;
  ok_time : forall slot row when, row_of_slot t !! slot = Some row -> zget (touched t) row = Some when ->
    time_ok (step t) when
}.

(** The slot is mapped to the row, which the current step has touched. *)
Definition held (t : pending_table) (slot row : Z) : Prop :=
  row_of_slot t !! slot = Some row /\ zget (touched t) row = Some (step t).

(** The rows that cannot be recycled now *)
Definition busy (t : pending_table) (row : Z) : bool :=
  match zget (slot_of_row t) row, zget (touched t) row with
  | Some slot, Some when => (0 <=? slot) && (step t <=? age (step t) when)
  | _, _ => false
  end.

Definition busy_rows (t : pending_table) : Z := zlen (filter (fun row => busy t row) (zrange 0 (capacity t))).

(** What a call keeps: the step, the number of rows, and every row touched in
    this step. *)
Record keeps (t t' : pending_table) : Prop := Keeps {
  keeps_step : step t' = step t;
  keeps_capacity : capacity t' = capacity t;
  keeps_held : forall slot row, held t slot row -> held t' slot row
}.

#[export] Instance keeps_preorder : PreOrder keeps.
Proof.
  split; [by split|]. intros t1 t2 t3 [] []. split; [congruence|congruence|auto].
Qed.

Lemma RETIRED_pos : 0 < RETIRED.
Proof. done. Qed.

Lemma age_now step : 0 <= step -> age step step = step.
Proof. intros. unfold age. destruct (Z.ltb_spec step 0); [lia|]. by rewrite andb_false_r. Qed.

Lemma age_le step when : 0 <= step -> time_ok step when -> age step when <= step.
Proof.
  intros Hs [H1 H2]. unfold age. destruct (Z.leb_spec (step - 1 - RETIRED) when); simpl; [|lia].
  destruct (Z.ltb_spec when 0); [|lia]. specialize (H2 H0). lia.
Qed.

Lemma age_before step when : 0 <= step -> time_ok step when -> age (step + 1) when <= step.
Proof.
  intros Hs [H1 H2]. unfold age. destruct (Z.leb_spec (step + 1 - 1 - RETIRED) when); simpl; [|lia].
  destruct (Z.ltb_spec when 0); [|lia]. specialize (H2 H0). lia.
Qed.

Lemma held_inj t s1 s2 row1 row2 : table_ok t ->
  row_of_slot t !! s1 = Some row1 -> row_of_slot t !! s2 = Some row2 -> s1 <> s2 -> row1 <> row2.
Proof.
  intros Ht H1%(ok_forward _ Ht) H2%(ok_forward _ Ht) Hne ->. destruct H1, H2. congruence.
Qed.

Lemma mapped_row t slot row : table_ok t -> row_of_slot t !! slot = Some row ->
  0 <= slot /\ 0 <= row < capacity t /\ exists when, zget (touched t) row = Some when.
Proof.
  intros Ht H. destruct (ok_forward _ Ht _ _ H) as [Hs Hr]. pose proof (zget_Some _ _ _ Hr) as Hi.
  rewrite (ok_slots _ Ht) in Hi. split_and!; try lia.
  apply zget_is_Some. by rewrite (ok_touched _ Ht).
Qed.

Lemma new_table_ok cap : 0 <= cap -> table_ok (new_table cap).
Proof.
  intros Hc. split; simpl; try done.
  1,2: unfold zlen; rewrite length_replicate; lia.
  intros slot row H Hs. unfold zget in H. case_match; [done|]. apply lookup_replicate in H as [-> _]. lia.
Qed.

(** ** Touching a row *)

Definition touch_at (t : pending_table) (row when : Z) : pending_table :=
  PendingTable (capacity t) (row_of_slot t) (slot_of_row t) (<[Z.to_nat row := when]> (touched t)) (step t).

Lemma set_touched_run t row when : 0 <= row < zlen (touched t) ->
  set_touched row when t = (Ok tt, touch_at t row when).
Proof. intros. unfold set_touched. munfold. by rewrite row_set_in. Qed.

Lemma touch_run t row : 0 <= row < zlen (touched t) -> touch row t = (Ok tt, touch_at t row (step t)).
Proof. intros. unfold touch. munfold. by rewrite set_touched_run. Qed.

Lemma zget_touch_at t row when r : 0 <= row < zlen (touched t) ->
  zget (touched (touch_at t row when)) r = if decide (r = row) then Some when else zget (touched t) r.
Proof. apply zget_insert. Qed.

Lemma touch_at_ok t row when : table_ok t -> 0 <= row < capacity t -> time_ok (step t) when ->
  table_ok (touch_at t row when).
Proof.
  intros Ht Hr Hw. destruct Ht as [H1 H2 H3 H4 H5 H6]. split; simpl; try done.
  - by rewrite zlen_insert.
  - intros slot r w Hm Hg. rewrite zget_insert in Hg by lia. case_decide; [congruence|eauto].
Qed.

Lemma time_now t : table_ok t -> time_ok (step t) (step t).
Proof. intros Ht. pose proof (ok_step _ Ht). split; lia. Qed.

Lemma touch_now_keeps t row : table_ok t -> 0 <= row < capacity t -> keeps t (touch_at t row (step t)).
Proof.
  intros Ht Hr. split; [done..|]. intros slot r [H1 H2]. split; [done|].
  rewrite zget_touch_at by (rewrite (ok_touched _ Ht); lia). by case_decide.
Qed.

(** ** Counting busy rows *)

Lemma filter_mono {A} (p q : A -> bool) l :
  (forall x, x ∈ l -> p x -> q x) -> zlen (filter (fun x => p x) l) <= zlen (filter (fun x => q x) l).
Proof.
  induction l as [|x l IH]; intros H; [done|]. rewrite !filter_cons.
  assert (zlen (filter (fun x => p x) l) <= zlen (filter (fun x => q x) l)) as IH' by (apply IH; set_solver).
  destruct (decide (p x)) as [Hp|Hp], (decide (q x)) as [Hq|Hq]; rewrite ?zlen_cons; try lia.
  destruct Hq. apply H; [left|done].
Qed.

Lemma filter_one_more (p q : Z -> bool) y l : NoDup l ->
  (forall x, x ∈ l -> q x -> p x \/ x = y) -> zlen (filter (fun x => q x) l) <= zlen (filter (fun x => p x) l) + 1.
Proof.
  induction 1 as [|x l Hx Hl IH]; intros H; [done|]. rewrite !filter_cons.
  assert (forall z, z ∈ l -> q z -> p z \/ z = y) as H' by (intros z Hz; apply H; by right). specialize (IH H').
  destruct (decide (q x)) as [Hq|Hq]; [|destruct (decide (p x)); rewrite ?zlen_cons; lia].
  destruct (decide (p x)) as [Hp|Hp]; rewrite ?zlen_cons; [lia|].
  destruct (H x ltac:(left) Hq) as [|Heq]; [done|]. subst y.
  enough (zlen (filter (fun x => q x) l) <= zlen (filter (fun x => p x) l)) by lia.
  apply filter_mono. intros z Hz Hqz. destruct (H' z Hz Hqz); [done|]. by subst.
Qed.

Lemma NoDup_zrange s n : NoDup (zrange s n).
Proof. apply NoDup_seqZ. Qed.

Lemma busy_add t t' row : capacity t' = capacity t ->
  (forall r, r <> row -> busy t' r -> busy t r) -> busy_rows t' <= busy_rows t + 1.
Proof.
  intros Hc H. unfold busy_rows. rewrite Hc. apply (filter_one_more (busy t) (busy t') row).
  - apply NoDup_zrange.
  - intros x _ Hx. destruct (decide (x = row)); auto.
Qed.

Lemma busy_touch t row when r : table_ok t -> 0 <= row < capacity t -> r <> row ->
  busy (touch_at t row when) r -> busy t r.
Proof.
  intros Ht Hr Hne. unfold busy. cbn [slot_of_row step touch_at].
  rewrite zget_touch_at by (rewrite (ok_touched _ Ht); lia). by rewrite decide_False.
Qed.

(** After [begin_step] every row can be recycled. *)
Lemma begin_step_spec t : table_ok t ->
  exists t', begin_step t = (Ok tt, t') /\ table_ok t' /\ busy_rows t' = 0 /\ capacity t' = capacity t /\
    step t' = step t + 1 /\ row_of_slot t' = row_of_slot t.
Proof.
  intros Ht. eexists. split; [done|]. pose proof (ok_step _ Ht) as Hst.
  split_and!; try done.
  - destruct Ht as [H1 H2 H3 H4 H5 H6]. split; simpl; try done; [lia|].
    intros slot row when Hm Hw. destruct (H6 _ _ _ Hm Hw) as [A1 A2]. split; [lia|]. intros. specialize (A2 ltac:(lia)). lia.
  - unfold busy_rows, zlen. simpl.
    replace (length _) with 0%nat; [done|]. symmetry. apply length_zero_iff_nil.
    apply elem_of_nil_inv. intros row. rewrite list_elem_of_filter. intros [Hb _]. revert Hb. unfold busy. simpl.
    destruct (zget (slot_of_row t) row) as [slot|] eqn:Es; [|by intros []].
    destruct (zget (touched t) row) as [when|] eqn:Ew; [|by intros []].
    destruct (Z.leb_spec 0 slot); [|by intros []]. simpl.
    pose proof (age_before _ when Hst (ok_time _ Ht _ _ _ (ok_backward _ Ht _ _ Es H) Ew)).
    destruct (Z.leb_spec (step t + 1) (age (step t + 1) when)); [lia|by intros []].
Qed.

(** ** Reading a row *)

Lemma get_row_spec t slot row : table_ok t -> row_of_slot t !! slot = Some row ->
  exists t', get_row slot t = (Ok row, t') /\ table_ok t' /\ keeps t t' /\ held t' slot row /\
    row_of_slot t' = row_of_slot t /\ busy_rows t' <= busy_rows t + 1.
Proof.
  intros Ht Hm. destruct (mapped_row _ _ _ Ht Hm) as (Hs & Hr & _).
  assert (0 <= row < zlen (touched t)) as Hl by (rewrite (ok_touched _ Ht); lia).
  exists (touch_at t row (step t)). split_and!.
  - unfold get_row. munfold. by rewrite Hm, touch_run.
  - by apply touch_at_ok; [..|apply time_now].
  - by apply touch_now_keeps.
  - split; [done|]. rewrite zget_touch_at by done. by rewrite decide_True.
  - done.
  - apply (busy_add _ _ row); [done|]. intros r Hne. by apply busy_touch.
Qed.

Lemma get_row_missing t slot : row_of_slot t !! slot = None ->
  exists msg, get_row slot t = (Err (Exn RuntimeError msg), t).
Proof. intros H. eexists. unfold get_row. munfold. by rewrite H. Qed.

(** ** Finding a row *)

Definition age_of (t : pending_table) (row : Z) : Z := age (step t) (default 0 (zget (touched t) row)).

Lemma scan_rows_spec t rows o os : table_ok t -> Forall (fun row => 0 <= row < capacity t) rows ->
  exists found, scan_rows t rows o os = Ok found /\
    (found.1 = true -> found.2 ∈ rows /\ exists slot, zget (slot_of_row t) found.2 = Some slot /\ slot < 0) /\
    (found.1 = false ->
      Forall (fun row => exists slot, zget (slot_of_row t) row = Some slot /\ 0 <= slot) rows /\
      ((found.2 = o /\ Forall (fun row => os <= age_of t row) rows) \/
       (found.2 ∈ rows /\ age_of t found.2 < os /\ Forall (fun row => age_of t found.2 <= age_of t row) rows))).
Proof.
  intros Ht. revert o os. induction rows as [|row rows IH]; intros o os Hrows.
  { exists (false, o). split_and!; [done|done|]. intros _. split; [constructor|]. left. split; [done|constructor]. }
  apply Forall_cons in Hrows as [Hr Hrows].
  destruct (zget_is_Some (slot_of_row t) row) as [slot Es]; [by rewrite (ok_slots _ Ht)|].
  destruct (zget_is_Some (touched t) row) as [when Ew]; [by rewrite (ok_touched _ Ht)|].
  assert (age_of t row = age (step t) when) as Ea by (unfold age_of; by rewrite Ew).
  cbn [scan_rows]. rewrite (row_get_in _ _ _ Es). cbn.
  destruct (Z.ltb_spec slot 0) as [Hneg|Hpos].
  { exists (true, row). split_and!; [done| |done]. intros _. split; [left|]. eauto. }
  rewrite (row_get_in _ _ _ Ew). cbn. rewrite <- Ea.
  destruct (Z.ltb_spec (age_of t row) os) as [Hlt|Hge].
  - destruct (IH row (age_of t row) Hrows) as (found & E & H1 & H2). exists found. split_and!; [done|..].
    + intros Hf. destruct (H1 Hf) as [? ?]. split; [by right|done].
    + intros Hf. destruct (H2 Hf) as [H3 H4]. split; [constructor; eauto|]. right.
      destruct H4 as [[-> H4]|(Hin & Hl & H4)].
      * split_and!; [left|done|]. constructor; [lia|done].
      * split_and!; [by right|lia|]. constructor; [lia|done].
  - destruct (IH o os Hrows) as (found & E & H1 & H2). exists found. split_and!; [done|..].
    + intros Hf. destruct (H1 Hf) as [? ?]. split; [by right|done].
    + intros Hf. destruct (H2 Hf) as [H3 H4]. split; [constructor; eauto|].
      destruct H4 as [[-> H4]|(Hin & Hl & H4)].
      * left. split; [done|]. constructor; [lia|done].
      * right. split_and!; [by right|lia|]. constructor; [lia|done].
Qed.

(** The table without a slot's row *)
Definition unmap (t : pending_table) (slot row : Z) : pending_table :=
  PendingTable (capacity t) (delete slot (row_of_slot t)) (<[Z.to_nat row := -1]> (slot_of_row t)) (touched t) (step t).

Lemma unmap_ok t slot row : table_ok t -> row_of_slot t !! slot = Some row -> table_ok (unmap t slot row).
Proof.
  intros Ht Hm. destruct (mapped_row _ _ _ Ht Hm) as (Hs & Hr & _).
  destruct (ok_forward _ Ht _ _ Hm) as [_ Hrow].
  destruct Ht as [H1 H2 H3 H4 H5 H6]. split; simpl; try done.
  - by rewrite zlen_insert.
  - intros s r [Hne H]%lookup_delete_Some. destruct (H4 _ _ H) as [Ha Hb]. split; [done|].
    rewrite zget_insert by lia. case_decide; [|done]. subst. congruence.
  - intros s r H Hs'. rewrite zget_insert in H by lia. case_decide; [simplify_eq; lia|].
    apply lookup_delete_Some. split; [|eauto]. intros ->. specialize (H5 _ _ H Hs'). congruence.
  - intros s r w [_ H]%lookup_delete_Some. eauto.
Qed.

Lemma unmap_keeps t slot row : table_ok t -> row_of_slot t !! slot = Some row ->
  zget (touched t) row <> Some (step t) -> keeps t (unmap t slot row).
Proof.
  intros Ht Hm Hne. split; [done..|]. intros s r [H1 H2]. split; [|done].
  apply lookup_delete_Some. split; [|done]. intros ->. simplify_eq.
Qed.

(** Rows that are not busy exist while fewer than [capacity] are. *)
Lemma busy_rows_full t : (forall row, 0 <= row < capacity t -> busy t row) -> 0 <= capacity t ->
  busy_rows t = capacity t.
Proof.
  intros H Hc. unfold busy_rows.
  assert (filter (fun row => busy t row) (zrange 0 (capacity t)) = zrange 0 (capacity t)) as ->.
  { assert (forall x, x ∈ zrange 0 (capacity t) -> busy t x) as H' by (intros x Hx%elem_zrange; apply H; lia).
    revert H'. generalize (zrange 0 (capacity t)) as l. induction l as [|x l IH]; intros H'; [done|].
    rewrite filter_cons, decide_True by (apply H'; left). f_equal. apply IH. intros y Hy. apply H'. by right. }
  by apply zlen_zrange.
Qed.

(** A row to use, and the table once its old mapping is gone: the row was
    free, or it was the oldest of them all. *)
Lemma free_row_spec t : table_ok t -> busy_rows t < capacity t ->
  exists row t', free_row t = (Ok row, t') /\ table_ok t' /\ keeps t t' /\
    0 <= row < capacity t /\ (exists s, zget (slot_of_row t') row = Some s /\ s < 0) /\
    (t' = t \/ exists slot, row_of_slot t !! slot = Some row /\ t' = unmap t slot row /\ age_of t row < step t /\
       forall s r, row_of_slot t !! s = Some r -> age_of t row <= age_of t r).
Proof.
  intros Ht Hb. pose proof (zlen_nonneg (filter (fun row => busy t row) (zrange 0 (capacity t)))) as Hc.
  fold (busy_rows t) in Hc.
  destruct (scan_rows_spec t (zrange 0 (capacity t)) (-1) (step t) Ht) as ([free row] & E & H1 & H2).
  { apply Forall_forall. intros x Hx%elem_zrange. lia. }
  unfold free_row. munfold. rewrite E. cbn in *. destruct free.
  - destruct H1 as (Hin%elem_zrange & slot & Hs & Hneg); [done|].
    exists row, t. split_and!; try done; eauto; lia.
  - destruct H2 as [Hall H2]; [done|]. rewrite Forall_forall in Hall. destruct H2 as [[-> H2]|(Hin & Hlt & Hold)].
    { exfalso. enough (busy_rows t = capacity t) by lia. apply busy_rows_full; [|lia].
      intros r Hr. rewrite Forall_forall in H2. specialize (H2 r ltac:(apply elem_zrange; lia)).
      destruct (Hall r ltac:(apply elem_zrange; lia)) as (slot & Hs & Hpos).
      unfold busy, age_of in *. rewrite Hs.
      destruct (zget_is_Some (touched t) r) as [w Hw]; [by rewrite (ok_touched _ Ht)|].
      rewrite Hw in *. cbn in H2. destruct (Z.leb_spec 0 slot), (Z.leb_spec (step t) (age (step t) w)); try lia; done. }
    destruct (Hall _ Hin) as (slot & Hs & Hpos). apply elem_zrange in Hin.
    destruct (Z.ltb_spec row 0); [lia|]. rewrite (row_get_in _ _ _ Hs). cbn.
    pose proof (ok_backward _ Ht _ _ Hs Hpos) as Hm.
    unfold set_slot. munfold. cbn. rewrite row_set_in by (rewrite (ok_slots _ Ht); lia).
    exists row, (unmap t slot row). split_and!; try lia; [done|by apply unmap_ok| | |].
    + apply unmap_keeps; [done..|]. intros Hn. unfold age_of in Hlt. rewrite Hn in Hlt. cbn in Hlt.
      rewrite age_now in Hlt by apply (ok_step _ Ht). lia.
    + exists (-1). split; [|lia]. simpl. rewrite zget_insert by (rewrite (ok_slots _ Ht); lia). by rewrite decide_True.
    + right. exists slot. split_and!; try done. intros s r Hsr. rewrite Forall_forall in Hold. apply Hold, elem_zrange.
      destruct (mapped_row _ _ _ Ht Hsr) as (_ & ? & _). lia.
Qed.

(** The table once a slot has an unused row *)
Definition map_row (t : pending_table) (slot row : Z) : pending_table :=
  PendingTable (capacity t) (<[slot := row]> (row_of_slot t)) (<[Z.to_nat row := slot]> (slot_of_row t))
    (<[Z.to_nat row := step t]> (touched t)) (step t).

Lemma map_row_ok t slot row s : table_ok t -> 0 <= slot -> row_of_slot t !! slot = None ->
  zget (slot_of_row t) row = Some s -> s < 0 -> table_ok (map_row t slot row).
Proof.
  intros Ht Hs Hn Hrow Hneg. pose proof (zget_Some _ _ _ Hrow) as Hr.
  pose proof (time_now _ Ht) as Hnow. destruct Ht as [H1 H2 H3 H4 H5 H6]. split; simpl; try done.
  1,2: by rewrite zlen_insert.
  - intros s' r H. rewrite zget_insert by lia. apply lookup_insert_Some in H as [[<- <-]|[Hne H]].
    + by rewrite decide_True.
    + destruct (H4 _ _ H) as [Ha Hb]. split; [done|]. rewrite decide_False; [done|]. intros ->. simplify_eq. lia.
  - intros s' r H Hpos. rewrite zget_insert in H by lia. apply lookup_insert_Some.
    case_decide as E; [left; by simplify_eq|]. right. specialize (H5 _ _ H Hpos). split; [|done].
    intros ->. congruence.
  - intros s' r w H Hw. rewrite zget_insert in Hw by lia. case_decide as E; [by simplify_eq|].
    apply lookup_insert_Some in H as [[<- <-]|[Hne H]]; [done|]. eauto.
Qed.

Lemma map_row_keeps t slot row s : table_ok t -> row_of_slot t !! slot = None ->
  zget (slot_of_row t) row = Some s -> s < 0 -> keeps t (map_row t slot row).
Proof.
  intros Ht Hn Hrow Hneg. pose proof (zget_Some _ _ _ Hrow) as Hr. rewrite (ok_slots _ Ht) in Hr.
  split; [done..|]. intros s' r [H1 H2]. split; simpl.
  - apply lookup_insert_Some. right. split; [|done]. intros ->. congruence.
  - rewrite zget_insert by (rewrite (ok_touched _ Ht); lia). by case_decide.
Qed.

Lemma busy_map_row t slot row r : table_ok t -> 0 <= row < capacity t -> r <> row ->
  busy (map_row t slot row) r = busy t r.
Proof.
  intros Ht Hr Hne. unfold busy. cbn [slot_of_row step touched map_row].
  rewrite !zget_insert by (rewrite ?(ok_slots _ Ht), ?(ok_touched _ Ht); lia). by rewrite !decide_False.
Qed.

Lemma busy_unmap t slot row r : table_ok t -> 0 <= row < capacity t ->
  busy (unmap t slot row) r -> busy t r.
Proof.
  intros Ht Hr. unfold busy. cbn [slot_of_row step touched unmap].
  rewrite zget_insert by (rewrite (ok_slots _ Ht); lia). case_decide; [|done].
  destruct (zget (touched t) r); by intros [].
Qed.

(** [acquire]: the slot has a row, which this step has touched, and no row
    touched before in this step is taken from its slot. *)
Lemma acquire_spec t slot : table_ok t -> 0 <= slot -> busy_rows t < capacity t ->
  exists row t', acquire slot t = (Ok row, t') /\ table_ok t' /\ keeps t t' /\ held t' slot row /\
    busy_rows t' <= busy_rows t + 1 /\ (forall row0, row_of_slot t !! slot = Some row0 -> row = row0).
Proof.
  intros Ht Hs Hb. unfold acquire. munfold. destruct (row_of_slot t !! slot) as [row|] eqn:Hm.
  - destruct (mapped_row _ _ _ Ht Hm) as (_ & Hr & _).
    assert (0 <= row < zlen (touched t)) as Hl by (rewrite (ok_touched _ Ht); lia).
    rewrite touch_run by done. exists row, (touch_at t row (step t)). split_and!; [done|..].
    + by apply touch_at_ok; [..|apply time_now].
    + by apply touch_now_keeps.
    + split; [done|]. rewrite zget_touch_at by done. by rewrite decide_True.
    + apply (busy_add _ _ row); [done|]. intros r Hne. by apply busy_touch.
    + congruence.
  - destruct (free_row_spec t Ht Hb) as (row & t1 & E & Ht1 & Hk & Hr & (s & Hs1 & Hneg) & Hcase). rewrite E.
    assert (row_of_slot t1 !! slot = None) as Hn.
    { destruct Hcase as [->|(s' & _ & -> & _)]; [done|]. by apply lookup_delete_None; right. }
    assert (capacity t1 = capacity t) as Hc by apply Hk.
    unfold set_slot. munfold. cbn. rewrite row_set_in by (rewrite (ok_slots _ Ht1); lia). cbn.
    rewrite touch_run by (cbn; rewrite (ok_touched _ Ht1); lia). cbn.
    exists row, (map_row t1 slot row). split_and!; [done|..].
    + by eapply map_row_ok.
    + etrans; [done|]. by eapply map_row_keeps.
    + split; simpl; [by rewrite lookup_insert_eq|].
      rewrite zget_insert by (rewrite (ok_touched _ Ht1); lia). by rewrite decide_True.
    + apply (busy_add _ _ row); [done|]. intros r Hne. rewrite busy_map_row by (done || lia).
      destruct Hcase as [->|(s' & _ & -> & _)]; [done|]. by apply busy_unmap.
    + done.
Qed.

(** ** Giving rows back *)

Lemma release_spec t slot : table_ok t ->
  exists t', release slot t = (Ok tt, t') /\ table_ok t' /\ capacity t' = capacity t /\ step t' = step t /\
    (forall s, s <> slot -> row_of_slot t' !! s = row_of_slot t !! s).
Proof.
  intros Ht. unfold release. munfold. destruct (row_of_slot t !! slot) as [row|] eqn:Hm; [|by exists t].
  destruct (mapped_row _ _ _ Ht Hm) as (_ & Hr & _). unfold set_slot. munfold. cbn.
  rewrite row_set_in by (rewrite (ok_slots _ Ht); lia). cbn.
  rewrite set_touched_run by (cbn; rewrite (ok_touched _ Ht); lia).
  eexists. split_and!; [done| |done..|].
  - pose proof (unmap_ok _ _ _ Ht Hm) as Hu. destruct Hu as [H1 H2 H3 H4 H5 H6]. split; simpl in *; try done.
    + by rewrite zlen_insert.
    + intros s r w H Hw. rewrite zget_insert in Hw by (rewrite (ok_touched _ Ht); lia).
      case_decide as E; [|by eapply H6]. subst r. destruct (H4 _ _ H) as [Hs0 Hs1].
      rewrite zget_insert in Hs1 by (rewrite (ok_slots _ Ht); lia). rewrite decide_True in Hs1 by done. simplify_eq. lia.
  - intros s Hne. simpl. by rewrite lookup_delete_ne.
Qed.

Lemma retire_spec t slot : table_ok t ->
  exists t', retire slot t = (Ok tt, t') /\ table_ok t' /\ capacity t' = capacity t /\ step t' = step t /\
    row_of_slot t' = row_of_slot t.
Proof.
  intros Ht. unfold retire. munfold. destruct (row_of_slot t !! slot) as [row|] eqn:Hm; [|by exists t].
  destruct (mapped_row _ _ _ Ht Hm) as (_ & Hr & _).
  rewrite set_touched_run by (cbn; rewrite (ok_touched _ Ht); lia).
  eexists. split_and!; [done| |done..]. apply touch_at_ok; [done..|].
  pose proof (ok_step _ Ht). pose proof RETIRED_pos. split; lia.
Qed.
End DsaPendingCorrect.
