(* ===== verification/DsaSchedule.v ===== *)
(** * The schedule of a sparse-attention step

    Models the host side of [Step4DSAState] and [Step4DSAMetadataBuilder.build]
    of src/vllm_hcu/model_executor/layers/step4_dsa.py: for every request of a
    batch, which regions complete, where their summaries go, and which pending
    rows hold the tokens of the regions that do not.

    A batch goes through one of three paths: [general_schedule] for any batch,
    [decode_schedule] for one token per request, and [spec_decode_schedule] for
    a few tokens per request that may be rejected afterwards.  The last two
    also have a form whose tensors live in buffers of the state, which a
    captured graph reads again on every replay.

    Schedules are objects that are shared and changed in place
    ([completed_slots] is cleared), so they live in a store and are named by
    their place in it; a batch is named by [md_id].  The ring of pinned staging
    buffers, which orders copies on a stream, and log messages are left out.

    Three simplifications concern batches that fail.  The buffers of the state
    are written when the schedule is complete, so an exception raised before
    finds them as they were, while the source has written the vectors computed
    until then (and has allocated the verify buffers).  An index outside of the
    block table is an [IndexError] whether numpy or torch reads it.  Token
    counts that do not add up to the last entry of [query_start_loc] are
    refused also where one of the vectors has one entry and numpy would repeat
    it. *)

From S2P Require Import Prelude Tensors DsaPending.
Local Open Scope Z_scope.

Module DsaSchedule.
Import DsaPending.

(** ** Data *)

(** [Step4DSAMetadata], the fields the schedule reads.  A block table is the
    list of its rows. *)
Record metadata := Metadata {
  md_id : nat;
  num_decodes : Z;
  num_prefills : Z;
  num_decode_tokens : Z;
  num_actual_tokens : Z;
  block_table : list (list Z);
  block_table_np : option (list (list Z));
  seq_lens : list Z;
  seq_lens_cpu : list Z;
  query_start_loc_cpu : list Z;
  md_schedule : option nat
}.

(** [_RequestPlan] *)
Record request_plan := RequestPlan {
  row : Z;
  past : Z;
  qlen : Z;
  tok_start : Z;
  head : Z;
  buf_start : Z;
  pending_row_in : Z;
  pending_row_out : Z;
  tail : Z;
  nscore : Z;
  score_slots : option (list Z);
  keep_rows : list (Z * Z)
}.

(** The vectors of a decode schedule, one entry per request *)
Record decode_fields := DecodeFields {
  d_head : list Z;
  d_tail : list Z;
  d_slots : list Z;
  d_counts : list Z;
  d_live : list bool;
  d_nscore : list Z;
  d_pending_in : list Z;
  d_pending_out : list Z
}.

(** The vectors of a verify schedule: [head] to [tail_reg] have one entry per
    request, [counts] to [keep_rows] one per region, the rest one per token *)
Record verify_fields := VerifyFields {
  v_head : list Z;
  v_tail : list Z;
  v_pending_in : list Z;
  v_pending_out : list Z;
  v_tail_reg : list Z;
  v_counts : list Z;
  v_slots : list Z;
  v_live : list bool;
  v_keep_rows : list Z;
  v_tok_buf : list Z;
  v_tok_req : list Z;
  v_tok_seq : list Z;
  v_tok_nscore : list Z
}.

(** What the layers consume: the plans of the general path with the regions to
    compress, the vectors of the two others, or the width of the views of the
    state's buffers that hold them *)
Inductive schedule_body :=
  | General (requests : list request_plan) (buf_len : Z) (starts counts slots : list Z)
  | Decode (nd : Z) (f : decode_fields)
  | DecodeView (nd : Z)
  | Verify (nd nt nrm : Z) (f : verify_fields)
  | VerifyView (nd nt nrm : Z).

(** [Step4DSASchedule] *)
Record schedule := Schedule {
  body : schedule_body;
  completed_slots : list Z;
  max_nscore : Z;
  builder_owned : bool;
  sched_graph_regions : Z
}.

(** The constants of a model: the region size and the arguments of
    [Step4DSAState], and the switches of the module *)
Record config := Config {
  region : Z;
  spec_query_len : Z;
  max_pending : Z;
  max_num_reqs : Z;
  num_kv_groups : Z;
  graph_decode : bool;
  check_slots : bool;
  eager_fallback : bool
}.

(** [Step4DSAState] once its cache is allocated.  [buf] holds the persistent
    decode vectors, [spec_buf] the verify ones with the width of the block
    table they were made for. *)
Record dsa_state := DsaState {
  pending : pending_table;
  regions_per_page : Z;
  schedules : list schedule;
  schedule_key : option nat;
  current : option nat;
  layers_done : Z;
  registered : list Z;
  graph_regions : Z;
  buf : decode_fields;
  spec_buf : option (Z * verify_fields)
}.

(** ** Assignments to the attributes *)

Definition set_pending (p : pending_table) (s : dsa_state) : dsa_state :=
  DsaState p (regions_per_page s) (schedules s) (schedule_key s) (current s) (layers_done s) (registered s)
    (graph_regions s) (buf s) (spec_buf s).
Definition set_schedules (l : list schedule) (s : dsa_state) : dsa_state :=
  DsaState (pending s) (regions_per_page s) l (schedule_key s) (current s) (layers_done s) (registered s)
    (graph_regions s) (buf s) (spec_buf s).
(** [_schedule_key = md; _schedule = sched; _layers_done = 0] *)
Definition set_current (key : nat) (sched : nat) (s : dsa_state) : dsa_state :=
  DsaState (pending s) (regions_per_page s) (schedules s) (Some key) (Some sched) 0 (registered s)
    (graph_regions s) (buf s) (spec_buf s).
Definition set_layers_done (n : Z) (s : dsa_state) : dsa_state :=
  DsaState (pending s) (regions_per_page s) (schedules s) (schedule_key s) (current s) n (registered s)
    (graph_regions s) (buf s) (spec_buf s).
Definition set_graph_regions (n : Z) (s : dsa_state) : dsa_state :=
  DsaState (pending s) (regions_per_page s) (schedules s) (schedule_key s) (current s) (layers_done s) (registered s)
    n (buf s) (spec_buf s).
Definition set_buf (f : decode_fields) (s : dsa_state) : dsa_state :=
  DsaState (pending s) (regions_per_page s) (schedules s) (schedule_key s) (current s) (layers_done s) (registered s)
    (graph_regions s) f (spec_buf s).
Definition set_spec_buf (f : Z * verify_fields) (s : dsa_state) : dsa_state :=
  DsaState (pending s) (regions_per_page s) (schedules s) (schedule_key s) (current s) (layers_done s) (registered s)
    (graph_regions s) (buf s) (Some f).

(** A call on [self.pending] *)
Definition on_pending {A} (m : M pending_table A) : M dsa_state A := fun s =>
  let '(r, p) := m (pending s) in (r, set_pending p s).

(** A new schedule object *)
Definition new_schedule (sched : schedule) : M dsa_state nat := fun s =>
  (Ok (length (schedules s)), set_schedules (schedules s ++ [sched]) s).

(** The list a loop over [xs] collects *)
Fixpoint collect {S A B} (xs : list A) (f : A -> M S B) : M S (list B) :=
  match xs with
  | [] => mret []
  | x :: xs' => y ← f x; ys ← collect xs' f; mret (y :: ys)
  end.

Section schedule.
Context (c : config).

(** ** The end of a step *)

(** [pending.retire] or [pending.release] *)
Definition drop_slot (slot : Z) : M pending_table unit :=
  if 1 <? spec_query_len c then retire slot else release slot.

Definition clear_completed (i : nat) (s : dsa_state) : dsa_state :=
  set_schedules (alter (fun sched => Schedule (body sched) [] (max_nscore sched) (builder_owned sched)
                                       (sched_graph_regions sched)) i (schedules s)) s.

Definition end_step : M dsa_state unit :=
  s ← get_state;
  match current s with
  | None => mret tt
  | Some i =>
      match schedules s !! i with
      | None => mret tt
      | Some sched =>
          on_pending (for_each (completed_slots sched) drop_slot) ;;
          modify (clear_completed i)
      end
  end.

Definition finish_layer : M dsa_state unit :=
  modify (fun s => set_layers_done (layers_done s + 1) s) ;;
  s ← get_state;
  let owned := match i ← current s; schedules s !! i with
               | Some sched => builder_owned sched
               | None => false
               end in
  if (zlen (registered s) <=? layers_done s) && negb owned then end_step else mret tt.

(** ** The general path *)

(** [slot_of]: the summary slot of a region of a request *)
Definition slot_of (rpp : Z) (pages : list Z) (region_id : Z) : result Z :=
  page ← row_get pages (region_id / rpp);
  mret (page * rpp + region_id mod rpp).

(** The host table: the mirror when it has enough rows *)
Definition host_table (md : metadata) (rows : Z) : list (list Z) :=
  match block_table_np md with
  | Some t => if rows <=? zlen t then t else take (Z.to_nat rows) (block_table md)
  | None => take (Z.to_nat rows) (block_table md)
  end.

(** The first token of a request and the number of its tokens *)
Definition row_tokens (md : metadata) (row : Z) : result (Z * Z) :=
  a ← row_get (query_start_loc_cpu md) row;
  b ← row_get (query_start_loc_cpu md) (row + 1);
  mret (a, b - a).

(** The pending row of a request that resumes inside a region *)
Definition protect_head (md : metadata) (table : list (list Z)) (row : Z) : M dsa_state Z :=
  tokens ← lift (row_tokens md row);
  if tokens.2 <=? 0 then mret (-1)
  else
    seq ← lift (row_get (seq_lens_cpu md) row);
    let past := seq - tokens.2 in
    if past mod region c =? 0 then mret (-1)
    else
      s ← get_state;
      pages ← lift (row_get table row);
      slot ← lift (slot_of (regions_per_page s) pages (past / region c));
      on_pending (get_row slot).

(** What the loop over the requests has gathered *)
Record gathered := Gathered {
  g_requests : list request_plan;
  g_starts : list Z;
  g_counts : list Z;
  g_slots : list Z;
  g_buf : Z;
  g_completed : list Z
}.

(** The rows of the regions closed on tokens that may be rejected, with the
    offsets of the regions, and the slots to complete *)
Fixpoint keep_closed (nbuf head pending_in buf_off j : Z) (reg_slots : list Z)
    : M dsa_state (list (Z * Z) * list Z) :=
  match reg_slots with
  | [] => mret ([], [])
  | slot :: rest =>
      if nbuf - j * region c <? region c then mret ([], [])
      else
        here ← (if (j =? 0) && negb (head =? 0) then mret (pending_in, [])
                else keep ← on_pending (acquire slot); mret (keep, [slot]));
        others ← keep_closed nbuf head pending_in buf_off (j + 1) rest;
        mret ((here.1, buf_off + j * region c) :: others.1, here.2 ++ others.2)
  end.

(** Whether a request may be rolled back into the regions it closes *)
Definition may_roll_back (qlen : Z) : bool := (1 <? qlen) && (qlen <=? spec_query_len c).

(** One request of the second loop *)
Definition plan_row (md : metadata) (table : list (list Z)) (heads : list Z) (row : Z) (g : gathered)
    : M dsa_state gathered :=
  tokens ← lift (row_tokens md row);
  let '(tok_start, qlen) := tokens in
  if qlen <=? 0 then mret g
  else
    s ← get_state;
    seq ← lift (row_get (seq_lens_cpu md) row);
    let past := seq - qlen in
    let head := past mod region c in
    let first_region := past / region c in
    let nbuf := head + qlen in
    let nregions := (nbuf + region c - 1) / region c in
    pages ← lift (row_get table row);
    reg_slots ← collect (zrange 0 nregions)
                  (fun j => lift (slot_of (regions_per_page s) pages (first_region + j)));
    let starts := map (fun j => g_buf g + j * region c) (zrange 0 nregions) in
    let counts := map (fun j => if Z.min (region c) (nbuf - j * region c) =? region c then region c else 0)
                    (zrange 0 nregions) in
    first_slot ← lift (row_get reg_slots 0);
    last_slot ← lift (row_get reg_slots (-1));
    pending_in ← lift (row_get heads row);
    let completed := if negb (head =? 0) && (region c <=? nbuf) then [first_slot] else [] in
    let tail := nbuf mod region c in
    pending_out ← (if tail =? 0 then mret (-1) else on_pending (acquire last_slot));
    kept ← (if may_roll_back qlen then keep_closed nbuf head pending_in (g_buf g) 0 reg_slots else mret ([], []));
    mret (Gathered
      (g_requests g ++ [RequestPlan row past qlen tok_start head (g_buf g) pending_in pending_out tail
                          ((past + qlen - 1) / region c) None kept.1])
      (g_starts g ++ starts) (g_counts g ++ counts) (g_slots g ++ reg_slots) (g_buf g + nbuf)
      (g_completed g ++ completed ++ kept.2)).

Fixpoint plan_rows (md : metadata) (table : list (list Z)) (heads : list Z) (rows : list Z) (g : gathered)
    : M dsa_state gathered :=
  match rows with
  | [] => mret g
  | row :: rows' => g' ← plan_row md table heads row g; plan_rows md table heads rows' g'
  end.

(** The summary slots a request scores, from the device table *)
Definition with_score_slots (md : metadata) (rpp : Z) (p : request_plan) : result request_plan :=
  if nscore p <=? 0 then Ok p
  else
    pages ← row_get (block_table md) (row p);
    slots ← foldr (fun id acc => slot ← slot_of rpp pages id; ss ← acc; mret (slot :: ss))
              (Ok []) (zrange 0 (nscore p));
    mret (RequestPlan (row p) (past p) (qlen p) (tok_start p) (head p) (buf_start p) (pending_row_in p)
            (pending_row_out p) (tail p) (nscore p) (Some slots) (keep_rows p)).

(** [_general_schedule], between [end_step]/[begin_step] and the result *)
Definition general_body (md : metadata) : M dsa_state schedule :=
  let num_reqs := num_decodes md + num_prefills md in
  let table := host_table md num_reqs in
  heads ← collect (zrange 0 num_reqs) (protect_head md table);
  g ← plan_rows md table heads (zrange 0 num_reqs) (Gathered [] [] [] [] 0 []);
  s ← get_state;
  requests ← collect (g_requests g) (fun p => lift (with_score_slots md (regions_per_page s) p));
  mret (Schedule (General requests (g_buf g) (g_starts g) (g_counts g) (g_slots g)) (g_completed g) 0 false 0).

(** [_general_schedule] *)
Definition general_schedule (md : metadata) : M dsa_state schedule :=
  end_step ;;
  on_pending begin_step ;;
  general_body md.

(** ** The decode path *)

(** [block_table.shape[1]] *)
Definition table_width (md : metadata) : Z := match block_table md with [] => 0 | r :: _ => zlen r end.

Definition set_graph_width (n : Z) : M dsa_state unit := modify (set_graph_regions n).

(** [_trim_graph_width] *)
Definition trim_graph_width (md : metadata) : M dsa_state unit :=
  s ← get_state;
  let cap := table_width md * regions_per_page s in
  if cap <? graph_regions s then set_graph_width cap else mret tt.

(** The entries of one request, from its length and its pages *)
Record decode_row := DecodeRow {
  dr_head : Z;
  dr_slot : Z;
  dr_closes : bool;
  dr_tail : Z;
  dr_nscore : Z
}.

Definition decode_entry (rpp seq_len : Z) (pages : list Z) : result decode_row :=
  let past := Z.max (seq_len - 1) 0 in
  let head := past mod region c in
  let first_region := past / region c in
  page ← row_get pages (first_region / rpp);
  let real := (0 <? seq_len) && (0 <? page) in
  let closes := real && (head =? region c - 1) in
  let head' := if real then head else 0 in
  mret (DecodeRow head' (if real then page * rpp + first_region mod rpp else -1) closes
          (if closes then 0 else head' + (if real then 1 else 0)) (if real then first_region else 0)).

Fixpoint decode_entries (rpp : Z) (rows : list (Z * list Z)) : result (list decode_row) :=
  match rows with
  | [] => Ok []
  | (seq_len, pages) :: rows' =>
      r ← decode_entry rpp seq_len pages;
      rs ← decode_entries rpp rows';
      mret (r :: rs)
  end.

(** [_decode_slots_host]: the slots of the requests, from the host mirror *)
Fixpoint host_slots (rpp : Z) (rows : list (Z * list Z)) : result (list Z) :=
  match rows with
  | [] => Ok []
  | (seq_len, pages) :: rows' =>
      let first_region := Z.max (seq_len - 1) 0 / region c in
      page ← row_get pages (first_region / rpp);
      slots ← host_slots rpp rows';
      mret ((if (0 <? seq_len) && (0 <? page) then page * rpp + first_region mod rpp else -1) :: slots)
  end.

Definition decode_slots_host (md : metadata) (rpp nd : Z) (seq_np slots : list Z) : result (list Z) :=
  match block_table_np md with
  | Some table =>
      if zlen table <? nd then Ok slots
      else
        out ← host_slots rpp (zip seq_np (take (Z.to_nat nd) table));
        if check_slots c && negb (bool_decide (slots = out))
        then Err (Exn RuntimeError "Step-4 DSA: host slot derivation disagrees with the block table on device")
        else mret out
  | None => Ok slots
  end.

(** The pending row of a request that resumes inside its region *)
Definition decode_head (trash slot seq_len : Z) : M dsa_state Z :=
  if (0 <=? slot) && negb (Z.max (seq_len - 1) 0 mod region c =? 0)
  then on_pending (get_row slot) else mret trash.

(** The row of its tail, the slot to complete, and the regions it scores *)
Definition decode_tail (trash slot seq_len : Z) : M dsa_state (Z * list Z * Z) :=
  let past := Z.max (seq_len - 1) 0 in
  if slot <? 0 then mret (trash, [], 0)
  else if past mod region c =? region c - 1 then mret (trash, [slot], past / region c)
  else row ← on_pending (acquire slot); mret (row, [], past / region c).

(** [dst[nd:].fill_(v); dst[:nd].copy_(value)] for a buffer of
    [max_num_reqs] rows *)
Definition persist {A} (v : A) (value : list A) : list A :=
  value ++ replicate (Z.to_nat (max_num_reqs c) - length value) v.

Definition persist_decode (trash : Z) (f : decode_fields) : decode_fields :=
  DecodeFields (persist 0 (d_head f)) (persist 0 (d_tail f)) (persist (-1) (d_slots f)) (persist 0 (d_counts f))
    (persist false (d_live f)) (persist 0 (d_nscore f)) (persist trash (d_pending_in f)) (persist trash (d_pending_out f)).

(** [pending_trash_row] *)
Definition trash_row : Z := max_pending c.

(** The rows of a tensor's prefix: [t[:n]] *)
Definition prefix {A} (n : Z) (l : list A) : list A := take (Z.to_nat n) l.

(** [_decode_schedule] *)
Definition decode_schedule (persistent : bool) (md : metadata) : M dsa_state schedule :=
  let nd := num_decodes md in
  if persistent && (max_num_reqs c <? nd)
  then raise RuntimeError "Step-4 DSA: decode batch exceeds max_num_reqs"
  else
    (if persistent then trim_graph_width md else mret tt) ;;
    s ← get_state;
    let rpp := regions_per_page s in
    entries ← lift (decode_entries rpp (zip (prefix nd (seq_lens md)) (prefix nd (block_table md))));
    let seq_np := prefix nd (seq_lens_cpu md) in
    slots ← lift (decode_slots_host md rpp nd seq_np (map dr_slot entries));
    end_step ;;
    on_pending begin_step ;;
    rows_in ← collect (zip slots seq_np) (fun '(slot, seq) => decode_head trash_row slot seq);
    outs ← collect (zip slots seq_np) (fun '(slot, seq) => decode_tail trash_row slot seq);
    let f := DecodeFields (map dr_head entries) (map dr_tail entries) (map dr_slot entries)
               (map (fun e => if dr_closes e then region c else 0) entries) (map dr_closes entries)
               (map dr_nscore entries) rows_in (map (fun o => o.1.1) outs) in
    let widest := foldr Z.max 0 (map snd outs) in
    let completed := concat (map (fun o => o.1.2) outs) in
    if persistent then
      modify (set_buf (persist_decode trash_row f)) ;;
      if (graph_regions s <? widest) && negb (eager_fallback c)
      then raise RuntimeError "Step-4 DSA: a request needs more region scores than the captured decode width"
      else mret (Schedule (DecodeView nd) completed widest false
                   (if widest <=? graph_regions s then graph_regions s else 0))
    else mret (Schedule (Decode nd f) completed widest false 0).

(** ** The verify path *)

(** A request of a verify batch: its tokens, its length before them, and where
    it resumes.  A row that is padding is not [alive]. *)
Record verify_req := VerifyReq {
  vr_qlen : Z;
  vr_past : Z;
  vr_alive : bool;
  vr_head : Z;
  vr_first : Z
}.

Definition verify_entry (rpp qlen seq : Z) (pages : list Z) : result verify_req :=
  let past := seq - qlen in
  let alive := (0 <? qlen) && (0 <? seq) && (0 <=? past) in
  let first := if alive then past / region c else 0 in
  page0 ← row_get pages (Z.min (first / rpp) (zlen pages - 1));
  let alive' := alive && (0 <? page0) in
  mret (VerifyReq qlen past alive' (if alive' then past mod region c else 0) first).

Fixpoint verify_entries (rpp : Z) (rows : list (Z * Z * list Z)) : result (list verify_req) :=
  match rows with
  | [] => Ok []
  | (qlen, seq, pages) :: rows' =>
      r ← verify_entry rpp qlen seq pages;
      rs ← verify_entries rpp rows';
      mret (r :: rs)
  end.

(** [np.maximum(np.diff(qsl), 0)] *)
Fixpoint clamped_diff (qsl : list Z) : list Z :=
  match qsl with
  | a :: ((b :: _) as rest) => Z.max (b - a) 0 :: clamped_diff rest
  | _ => []
  end.

(** The regions of a request that is alive *)
Definition verify_regions (v : verify_req) : Z := - (- (vr_head v + vr_qlen v) / region c).

Definition verify_slots (rpp : Z) (v : verify_req) (pages : list Z) : M dsa_state (list Z) :=
  if vr_alive v
  then collect (zrange 0 (verify_regions v)) (fun j => lift (slot_of rpp pages (vr_first v + j)))
  else mret [].

Definition verify_head (v : verify_req) (reg_slots : list Z) : M dsa_state Z :=
  if vr_alive v && negb (vr_head v =? 0)
  then slot ← lift (row_get reg_slots 0); on_pending (get_row slot)
  else mret trash_row.

(** The entries of one request: for its [nrm] regions, and for its tail *)
Record verify_out := VerifyOut {
  vo_counts : list Z;
  vo_slots : list Z;
  vo_live : list bool;
  vo_keep : list Z;
  vo_tail : Z;
  vo_tail_reg : Z;
  vo_pending_out : Z;
  vo_completed : list Z
}.

(** A vector of [n] entries that starts with [l] *)
Definition padded {A} (n : Z) (v : A) (l : list A) : list A := l ++ replicate (Z.to_nat n - length l) v.

Definition verify_row (nrm base : Z) (v : verify_req) (pending_in : Z) (reg_slots : list Z) : M dsa_state verify_out :=
  if negb (vr_alive v)
  then mret (VerifyOut (padded nrm 0 []) (padded nrm 0 []) (padded nrm false []) (padded nrm trash_row []) 0 base
               trash_row [])
  else
    let nbuf := vr_head v + vr_qlen v in
    let nreg := zlen reg_slots in
    let closed := map (fun j => (j + 1) * region c <=? nbuf) (zrange 0 nreg) in
    first_slot ← lift (row_get reg_slots 0);
    last_slot ← lift (row_get reg_slots (-1));
    kept ← (if may_roll_back (vr_qlen v) then keep_closed nbuf (vr_head v) pending_in 0 0 reg_slots else mret ([], []));
    let tail := nbuf mod region c in
    out ← (if tail =? 0 then mret trash_row else on_pending (acquire last_slot));
    mret (VerifyOut (padded nrm 0 (map (fun b : bool => if b then region c else 0) closed)) (padded nrm 0 reg_slots)
            (padded nrm false closed) (padded nrm trash_row (map fst kept.1)) tail (base + nreg - 1) out
            ((if negb (vr_head v =? 0) && (region c <=? nbuf) then [first_slot] else []) ++ kept.2)).

(** The entries of the tokens, request by request; [t] is the next token and
    [start] the first token of the request *)
Fixpoint token_fields (nrm r t : Z) (vs : list (Z * verify_req)) : list (Z * Z * Z * Z) :=
  match vs with
  | [] => []
  | (start, v) :: vs' =>
      map (fun k =>
        let i := k - start in
        let pos := vr_past v + i in
        (r * (nrm * region c) + vr_head v + i, r,
         if vr_alive v then pos + 1 else 0, if vr_alive v then pos / region c else 0))
        (zrange t (vr_qlen v))
      ++ token_fields nrm (r + 1) (t + vr_qlen v) vs'
  end.

(** [_spec_fields]: the offset and the size of every vector in the one that is
    uploaded *)
Definition spec_fields (nr nrm tokens : Z) : dict string (Z * Z) :=
  let sizes := [("head", nr); ("tail", nr); ("pending_in", nr); ("pending_out", nr); ("tail_reg", nr);
                ("counts", nr * nrm); ("slots", nr * nrm); ("live", nr * nrm); ("keep_rows", nr * nrm);
                ("tok_buf", tokens); ("tok_req", tokens); ("tok_seq", tokens); ("tok_nscore", tokens)]%string in
  (foldl (fun '(layout, off) '(name, n) => (layout ++ [(name, (off, n))], off + n)) ([], 0) sizes).1.

(** The vectors inside buffers for [nr] requests and [tokens] tokens *)
Definition persist_verify (nr nrm tokens nd : Z) (f : verify_fields) : verify_fields :=
  VerifyFields (padded nr 0 (v_head f)) (padded nr 0 (v_tail f)) (padded nr trash_row (v_pending_in f))
    (padded nr trash_row (v_pending_out f)) (padded nr 0 (v_tail_reg f))
    (padded (nr * nrm) 0 (v_counts f)) (padded (nr * nrm) 0 (v_slots f)) (padded (nr * nrm) false (v_live f))
    (padded (nr * nrm) trash_row (v_keep_rows f))
    (v_tok_buf f ++ map (fun i => nd * nrm * region c + i) (zrange (zlen (v_tok_buf f)) (tokens - zlen (v_tok_buf f))))
    (padded tokens 0 (v_tok_req f)) (padded tokens 0 (v_tok_seq f)) (padded tokens 0 (v_tok_nscore f)).

(** [_ensure_spec_buffers]: an error when the table changed its width *)
Definition ensure_spec_buffers (md : metadata) : M dsa_state unit :=
  s ← get_state;
  match spec_buf s with
  | Some (width, _) =>
      if width =? table_width md then mret tt
      else raise RuntimeError "Step-4 DSA: block table width changed after the verify schedule buffers were allocated"
  | None => mret tt
  end.

Definition verify_width : Z := - (- (region c - 1 + Z.max (spec_query_len c) 1) / region c).

(** [_spec_decode_schedule] *)
Definition spec_decode_schedule (persistent : bool) (md : metadata) : M dsa_state schedule :=
  let nd := num_decodes md in
  let ndt := num_decode_tokens md in
  let q_max := Z.max (spec_query_len c) 1 in
  let nrm := verify_width in
  let qsl := prefix (nd + 1) (query_start_loc_cpu md) in
  let qlen := clamped_diff qsl in
  let table := host_table md nd in
  if existsb (fun q => q_max <? q) qlen
  then raise RuntimeError "Step-4 DSA: a verify row has more query tokens than spec_query_len"
  else if persistent && ((max_num_reqs c <? nd) || (max_num_reqs c * q_max <? ndt))
  then raise RuntimeError "Step-4 DSA: verify batch exceeds the persistent buffers"
  else
    (if persistent then trim_graph_width md ;; ensure_spec_buffers md else mret tt) ;;
    s ← get_state;
    let rpp := regions_per_page s in
    vs ← lift (verify_entries rpp (zip (zip qlen (prefix nd (seq_lens_cpu md))) (prefix nd table)));
    ntok ← lift (if nd =? 0 then Ok 0 else row_get qsl nd);
    let toks := token_fields nrm 0 0 (zip qsl vs) in
    if negb (zlen toks =? ntok) || (ndt <? ntok)
    then raise ValueError "operands could not be broadcast together"
    else
      let padding := zrange ntok (ndt - ntok) in
      end_step ;;
      on_pending begin_step ;;
      reg_slots ← collect (zip vs table) (fun '(v, pages) => verify_slots rpp v pages);
      rows_in ← collect (zip vs reg_slots) (fun '(v, slots) => verify_head v slots);
      outs ← collect (zip (zip (zrange 0 nd) vs) (zip rows_in reg_slots))
               (fun '((r, v), (p_in, slots)) => verify_row nrm (r * nrm) v p_in slots);
      let zeros := map (fun _ => 0) padding in
      let f := VerifyFields (map vr_head vs) (map vo_tail outs) rows_in (map vo_pending_out outs) (map vo_tail_reg outs)
                 (concat (map vo_counts outs)) (concat (map vo_slots outs)) (concat (map vo_live outs))
                 (concat (map vo_keep outs))
                 (map (fun t => t.1.1.1) toks ++ map (fun i => nd * nrm * region c + i) padding)
                 (map (fun t => t.1.1.2) toks ++ zeros) (map (fun t => t.1.2) toks ++ zeros)
                 (map snd toks ++ zeros) in
      let widest := foldr Z.max 0 (map snd toks) in
      let completed := concat (map vo_completed outs) in
      if persistent then
        modify (set_spec_buf (table_width md,
                  persist_verify (max_num_reqs c) nrm (max_num_reqs c * q_max) nd f)) ;;
        if (graph_regions s <? widest) && negb (eager_fallback c)
        then raise RuntimeError "Step-4 DSA: a request needs more region scores than the captured decode width"
        else if num_kv_groups c * (max_num_reqs c * spec_query_len c) <? num_kv_groups c * ndt
        then raise RuntimeError "Step-4 DSA: verify rows overflow the score pool"
        else mret (Schedule (VerifyView nd ndt nrm) completed widest false
                     (if widest <=? graph_regions s then graph_regions s else 0))
      else mret (Schedule (Verify nd ndt nrm f) completed widest false 0).

(** ** Choosing a path *)

(** [schedule] *)
Definition schedule_for (md : metadata) : M dsa_state nat :=
  s ← get_state;
  if bool_decide (schedule_key s = Some (md_id md)) then
    match current s with
    | Some i => mret i
    | None => raise AssertionError ""
    end
  else
    match md_schedule md with
    | Some i => modify (set_current (md_id md) i) ;; mret i
    | None =>
        sched ← (if (num_prefills md =? 0) && (num_decodes md <? num_decode_tokens md)
                 then spec_decode_schedule false md
                 else if (num_prefills md =? 0) && (0 <? num_decodes md)
                 then decode_schedule false md
                 else general_schedule md);
        i ← new_schedule sched;
        modify (set_current (md_id md) i) ;;
        mret i
    end.

(** [Step4DSAMetadataBuilder.build] once the batch is split: a decode-only
    batch gets its schedule here *)
Definition build (md : metadata) : M dsa_state metadata :=
  if graph_decode c && (num_prefills md =? 0) && (0 <? num_decodes md) then
    sched ← (if num_decodes md <? num_decode_tokens md
             then spec_decode_schedule true md
             else decode_schedule true md);
    i ← new_schedule (Schedule (body sched) (completed_slots sched) (max_nscore sched) true (sched_graph_regions sched));
    modify (set_current (md_id md) i) ;;
    mret (Metadata (md_id md) (num_decodes md) (num_prefills md) (num_decode_tokens md) (num_actual_tokens md)
            (block_table md) (block_table_np md) (seq_lens md) (seq_lens_cpu md) (query_start_loc_cpu md) (Some i))
  else mret md.

(** The batch of a step: short requests count as decodes only when there is
    no other *)
Definition split_batch (dense_equiv : bool) (split : Z * Z * Z) (num_tokens : Z) : Z * Z * Z :=
  let '(num_decodes, num_prefills, num_decode_tokens) := split in
  if (num_decodes <? num_decode_tokens) && ((0 <? num_prefills) || dense_equiv)
  then (0, num_decodes + num_prefills, 0)
  else (num_decodes, num_prefills, num_decode_tokens).
End schedule.
End DsaSchedule.
