(* ===== verification/DsaScheduleCorrect.v ===== *)
(** * What a schedule must plan

    The specification the three paths of DsaSchedule.v are proved against.  A
    batch is a list of items, one per row: the pages of the request, how many
    tokens it had, and how many it gets.  A plan of an item names the pending
    rows it reads and writes; it is right when the table maps the item's region
    slots to these rows and the current step has touched them. *)

From S2P Require Import Prelude Tensors DsaPending DsaSchedule.
Local Open Scope Z_scope.

Module DsaPlan.
Import DsaPending DsaPendingCorrect DsaSchedule.

Record item := Item {
  it_pages : list Z;
  it_past : Z;
  it_len : Z
}.

Section plan.
Context (c : config) (rpp : Z).

Definition it_head (it : item) : Z := it_past it mod region c.
Definition it_first (it : item) : Z := it_past it / region c.
Definition it_nbuf (it : item) : Z := it_head it + it_len it.
(** Regions touched, regions completed, and tokens left over *)
Definition it_nreg (it : item) : Z := (it_nbuf it + region c - 1) / region c.
Definition it_closed (it : item) : Z := it_nbuf it / region c.
Definition it_tail (it : item) : Z := it_nbuf it mod region c.

Definition it_slot (it : item) (j : Z) : Z :=
  default 0 (zget (it_pages it) ((it_first it + j) / rpp)) * rpp + (it_first it + j) mod rpp.
Definition it_slots (it : item) : list Z := map (it_slot it) (zrange 0 (it_nreg it)).

(** A request the engine may schedule: its pages are real (page 0 never is)
    and enough.  A row without tokens is padding. *)
Record item_ok (it : item) : Prop := ItemOk {
  item_past : 0 <= it_past it;
  item_len : 0 < it_len it;
  item_pages : Forall (fun p => 0 < p) (it_pages it);
  item_room : it_past it + it_len it <= zlen (it_pages it) * (rpp * region c)
}.

(** The pending rows of an item: of its head, of its tail, and of the regions
    it closes and may be rolled back into *)
Record plan := Plan {
  pl_in : Z;
  pl_out : Z;
  pl_keep : list Z
}.

Definition kept_regions (it : item) : Z := if may_roll_back c (it_len it) then it_closed it else 0.

Record plan_ok (t : pending_table) (it : item) (pl : plan) : Prop := PlanOk {
  plan_in : it_head it <> 0 -> held t (it_slot it 0) (pl_in pl);
  plan_out : it_tail it <> 0 -> held t (it_slot it (it_nreg it - 1)) (pl_out pl);
  plan_keep : zlen (pl_keep pl) = kept_regions it;
  plan_kept : forall j row, zget (pl_keep pl) j = Some row -> held t (it_slot it j) row
}.

Lemma plan_ok_mono t t' it pl : keeps t t' -> plan_ok t it pl -> plan_ok t' it pl.
Proof. intros Hk []. split; eauto using keeps_held. Qed.

(** Rows an item reads, and rows it takes besides *)
Definition head_cost (it : item) : Z := if it_head it =? 0 then 0 else 1.
Definition body_cost (it : item) : Z :=
  (if it_tail it =? 0 then 0 else 1) +
  (kept_regions it - if negb (it_head it =? 0) && (0 <? kept_regions it) then 1 else 0).

Context (Hregion : 0 < region c) (Hrpp : 0 < rpp).

Lemma head_range it : 0 <= it_head it < region c.
Proof using Hregion. apply Z.mod_pos_bound. lia. Qed.

Lemma tail_range it : 0 <= it_tail it < region c.
Proof using Hregion. apply Z.mod_pos_bound. lia. Qed.

Lemma nbuf_split it : it_nbuf it = region c * it_closed it + it_tail it.
Proof using Hregion. unfold it_closed, it_tail. apply Z.div_mod. lia. Qed.

Lemma nreg_split it : it_nreg it = it_closed it + if it_tail it =? 0 then 0 else 1.
Proof using Hregion.
  unfold it_nreg. rewrite (nbuf_split it). pose proof (tail_range it). destruct (Z.eqb_spec (it_tail it) 0) as [E|E].
  - rewrite E. replace (region c * it_closed it + 0 + region c - 1) with (region c - 1 + it_closed it * region c) by lia.
    rewrite Z.div_add by lia. rewrite Z.div_small by lia. lia.
  - replace (region c * it_closed it + it_tail it + region c - 1) with (it_tail it - 1 + (it_closed it + 1) * region c) by lia.
    rewrite Z.div_add by lia. rewrite Z.div_small by lia. lia.
Qed.

Lemma past_split it : it_past it = region c * it_first it + it_head it.
Proof using Hregion. unfold it_first, it_head. apply Z.div_mod. lia. Qed.

Lemma nbuf_pos it : item_ok it -> 0 < it_nbuf it.
Proof using Hregion. intros []. pose proof (head_range it). unfold it_nbuf. lia. Qed.

Lemma closed_nonneg it : item_ok it -> 0 <= it_closed it.
Proof using Hregion. intros H. pose proof (nbuf_pos it H). apply Z.div_pos; lia. Qed.

Lemma nreg_pos it : item_ok it -> 0 < it_nreg it.
Proof using Hregion.
  intros H. pose proof (nbuf_pos it H). pose proof (closed_nonneg it H). pose proof (nbuf_split it). pose proof (tail_range it).
  rewrite nreg_split. destruct (Z.eqb_spec (it_tail it) 0); nia.
Qed.

Lemma first_nonneg it : item_ok it -> 0 <= it_first it.
Proof using Hregion. intros []. apply Z.div_pos; lia. Qed.

(** Every region of an item lies in a page. *)
Lemma region_page it j : item_ok it -> 0 <= j < it_nreg it ->
  exists page, zget (it_pages it) ((it_first it + j) / rpp) = Some page /\ 0 < page.
Proof using Hregion Hrpp.
  intros Hit Hj. pose proof (first_nonneg it Hit) as Hf.
  destruct (zget_is_Some (it_pages it) ((it_first it + j) / rpp)) as [page Hp].
  - split; [apply Z.div_pos; lia|]. apply Z.div_lt_upper_bound; [lia|].
    assert (region c * (it_first it + j) < it_past it + it_len it).
    { pose proof (past_split it). pose proof (nbuf_split it). unfold it_nbuf in *. pose proof (nreg_split it). pose proof (tail_range it).
      destruct (Z.eqb_spec (it_tail it) 0); nia. }
    destruct Hit as [_ _ _ Hroom]. nia.
  - exists page. split; [done|]. destruct Hit as [_ _ Hpos _]. rewrite Forall_forall in Hpos.
    apply Hpos. by eapply zget_elem.
Qed.

Lemma zget_prefix {A} (l k : list A) i x : l `prefix_of` k -> zget l i = Some x -> zget k i = Some x.
Proof using Type. unfold zget. intros Hp. case_match; [done|]. intros Hl. by eapply prefix_lookup_Some. Qed.

Lemma slot_of_item it pages j : item_ok it -> it_pages it `prefix_of` pages -> 0 <= j < it_nreg it ->
  slot_of rpp pages (it_first it + j) = Ok (it_slot it j).
Proof using Hregion Hrpp.
  intros Hit Hpre Hj. destruct (region_page it j Hit Hj) as (page & Hp & _). unfold slot_of, it_slot.
  by rewrite (row_get_in _ _ _ (zget_prefix _ _ _ _ Hpre Hp)), Hp.
Qed.

Lemma slot_nonneg it j : item_ok it -> 0 <= j < it_nreg it -> 0 <= it_slot it j.
Proof using Hregion Hrpp.
  intros Hit Hj. destruct (region_page it j Hit Hj) as (page & Hp & Hpos). unfold it_slot. rewrite Hp. cbn.
  pose proof (Z.mod_pos_bound (it_first it + j) rpp Hrpp). nia.
Qed.

Lemma zlen_it_slots it : item_ok it -> zlen (it_slots it) = it_nreg it.
Proof using Hregion.
  intros Hit. unfold it_slots, zlen. rewrite length_map. fold (zlen (zrange 0 (it_nreg it))).
  apply zlen_zrange. pose proof (nreg_pos it Hit). lia.
Qed.

Lemma zget_it_slots it j : item_ok it -> 0 <= j < it_nreg it -> zget (it_slots it) j = Some (it_slot it j).
Proof using Hregion.
  intros Hit Hj. unfold it_slots. pose proof (zget_zrange 0 (it_nreg it) j Hj) as H. unfold zget in *.
  destruct (Z.ltb_spec j 0); [lia|]. by rewrite list_lookup_fmap, H.
Qed.

(** Going through the regions of an item collects its slots. *)
Lemma collect_slots {S} it pages (s : S) : item_ok it -> it_pages it `prefix_of` pages ->
  collect (zrange 0 (it_nreg it)) (fun j => lift (slot_of rpp pages (it_first it + j))) s = (Ok (it_slots it), s).
Proof using Hregion Hrpp.
  intros Hit Hpre. unfold it_slots.
  assert (Forall (fun j => 0 <= j < it_nreg it) (zrange 0 (it_nreg it))) as H
    by (apply Forall_forall; intros j Hj%elem_zrange; lia).
  induction H as [|j l Hj _ IH]; [done|]. cbn [collect map].
  rewrite (M_bind_ok _ _ s (it_slot it j) s) by (unfold lift; by rewrite (slot_of_item it pages)).
  by rewrite (M_bind_ok _ _ s _ s IH).
Qed.

Lemma first_slot_get it : item_ok it -> row_get (it_slots it) 0 = Ok (it_slot it 0).
Proof using Hregion. intros Hit. apply row_get_in, zget_it_slots; [done|]. pose proof (nreg_pos it Hit). lia. Qed.

Lemma last_slot_get it : item_ok it -> row_get (it_slots it) (-1) = Ok (it_slot it (it_nreg it - 1)).
Proof using Hregion.
  intros Hit. unfold row_get. cbn. rewrite zlen_it_slots by done. pose proof (nreg_pos it Hit).
  replace (it_nreg it + -1) with (it_nreg it - 1) by lia. by rewrite zget_it_slots by (done || lia).
Qed.

(** ** Loops over the table *)

(** The call moves the table [t] of the state to one that keeps what this step
    has touched, with at most [cost] more rows. *)
Definition moves {A} (m : M dsa_state A) (cost : Z) (s : dsa_state) (t : pending_table)
    (post : A -> pending_table -> Prop) : Prop :=
  exists a t', m (set_pending t s) = (Ok a, set_pending t' s) /\ table_ok t' /\ keeps t t' /\
    busy_rows t' <= busy_rows t + cost /\ post a t'.

Lemma moves_ret {A} (a : A) s t (post : A -> pending_table -> Prop) : table_ok t -> post a t -> moves (mret a) 0 s t post.
Proof. intros Ht Hp. exists a, t. split_and!; [done|done|reflexivity|lia|done]. Qed.

Lemma moves_lift {A} (r : result A) a s t (post : A -> pending_table -> Prop) :
  r = Ok a -> table_ok t -> post a t -> moves (lift r) 0 s t post.
Proof. intros -> Ht Hp. exists a, t. split_and!; [done|done|reflexivity|lia|done]. Qed.

(** Steps that leave the state *)
Lemma moves_pure {A B} (m : M dsa_state A) (f : A -> M dsa_state B) a k s t post :
  m (set_pending t s) = (Ok a, set_pending t s) -> moves (f a) k s t post -> moves (m ≫= f) k s t post.
Proof. intros E (b & t' & H & Hr). exists b, t'. split; [|done]. by rewrite (M_bind_ok _ _ _ _ _ E). Qed.

Lemma moves_lift_bind {A B} (r : result A) (f : A -> M dsa_state B) a k s t post :
  r = Ok a -> moves (f a) k s t post -> moves (lift r ≫= f) k s t post.
Proof. intros ->. by apply moves_pure. Qed.

Lemma moves_state_bind {B} (f : dsa_state -> M dsa_state B) k s t post :
  moves (f (set_pending t s)) k s t post -> moves (get_state ≫= f) k s t post.
Proof. by apply moves_pure. Qed.

Lemma moves_bind {A B} (m : M dsa_state A) (f : A -> M dsa_state B) k1 k2 s t post1 post2 :
  moves m k1 s t post1 ->
  (forall a t', table_ok t' -> keeps t t' -> busy_rows t' <= busy_rows t + k1 -> post1 a t' -> moves (f a) k2 s t' post2) ->
  moves (m ≫= f) (k1 + k2) s t post2.
Proof.
  intros (a & t1 & E1 & Ht1 & Hk1 & Hb1 & Hp1) H.
  destruct (H a t1 Ht1 Hk1 Hb1 Hp1) as (b & t2 & E2 & Ht2 & Hk2 & Hb2 & Hp2).
  exists b, t2. split_and!; [|done|by etrans|lia|done]. by rewrite (M_bind_ok _ _ _ _ _ E1).
Qed.

Lemma moves_weaken {A} (m : M dsa_state A) k k' s t (post post' : A -> pending_table -> Prop) :
  moves m k s t post -> k <= k' -> (forall a t', keeps t t' -> post a t' -> post' a t') -> moves m k' s t post'.
Proof.
  intros (a & t' & E & Ht' & Hk & Hb & Hp) Hle H. exists a, t'. split_and!; try done; [lia|]. by apply H.
Qed.

Lemma moves_acquire s t slot : table_ok t -> 0 <= slot -> busy_rows t < capacity t ->
  moves (on_pending (acquire slot)) 1 s t (fun row t' => held t' slot row).
Proof.
  intros Ht Hs Hb. destruct (acquire_spec t slot Ht Hs Hb) as (row & t' & E & Ht' & Hk & Hh & Hb' & _).
  exists row, t'. unfold on_pending. cbn. rewrite E. split_and!; done.
Qed.

Lemma moves_get s t slot row : table_ok t -> row_of_slot t !! slot = Some row ->
  moves (on_pending (get_row slot)) 1 s t (fun r t' => r = row /\ held t' slot row /\ row_of_slot t' = row_of_slot t).
Proof.
  intros Ht Hm. destruct (get_row_spec t slot row Ht Hm) as (t' & E & Ht' & Hk & Hh & Hr & Hb).
  exists row, t'. unfold on_pending. cbn. rewrite E. split_and!; done.
Qed.

(** A loop whose calls each move the table *)
Lemma moves_collect {X B} (xs : list X) (f : X -> M dsa_state B) (cost : X -> Z) s
    (inv : pending_table -> Prop) (pre : X -> pending_table -> Prop) (post : X -> B -> pending_table -> Prop) :
  (forall x, x ∈ xs -> 0 <= cost x) ->
  (forall x b t t', keeps t t' -> post x b t -> post x b t') ->
  (forall x t t', inv t -> inv t' -> keeps t t' -> pre x t -> pre x t') ->
  (forall x t, x ∈ xs -> table_ok t -> inv t -> pre x t -> busy_rows t + cost x <= capacity t ->
     moves (f x) (cost x) s t (fun b t' => post x b t' /\ inv t')) ->
  forall t, table_ok t -> inv t -> Forall (fun x => pre x t) xs -> busy_rows t + zsum (map cost xs) <= capacity t ->
  moves (collect xs f) (zsum (map cost xs)) s t (fun bs t' => Forall2 (fun x b => post x b t') xs bs /\ inv t').
Proof.
  intros Hc Hpost Hpre. revert Hc. induction xs as [|x xs IH]; intros Hc Hf t Ht Hi Hall Hb.
  { apply moves_ret; [done|]. split; [constructor|done]. }
  apply Forall_cons in Hall as [Hx Hall]. cbn [map zsum foldr] in *. fold (zsum (map cost xs)) in *.
  assert (forall y, y ∈ xs -> 0 <= cost y) as Hc' by (intros y Hy; apply Hc; by right).
  assert (0 <= zsum (map cost xs)) as Hs.
  { clear -Hc'. induction xs as [|a xs IH]; [done|]. cbn. pose proof (Hc' a ltac:(left)).
    enough (0 <= zsum (map cost xs)) by (unfold zsum in *; lia). apply IH. intros y Hy. apply Hc'. by right. }
  eapply moves_bind.
  { apply (Hf x t); [left|done|done|done|lia]. }
  intros b t1 Ht1 Hk Hb1 [Hp Hi1]. cbn beta. pose proof (keeps_capacity _ _ Hk) as Hcap.
  rewrite <- (Z.add_0_r (zsum (map cost xs))). eapply moves_bind.
  { apply (IH Hc' ltac:(intros; apply Hf; first [by right|done]) t1 Ht1 Hi1); [|lia].
    eapply Forall_impl; [exact Hall|]. intros y Hy. by eapply Hpre; [exact Hi| |..]. }
  intros bs t2 Ht2 Hk2 _ [Hps Hi2]. apply moves_ret; [done|]. split; [|done]. constructor; [|done]. by eapply Hpost.
Qed.
End plan.
End DsaPlan.

(** ** The general schedule plans every request

    [general_body] of DsaSchedule.v, on a batch of well-formed requests whose
    heads are in the table and for which the table has room: it returns the
    schedule of right plans. *)

Module DsaScheduleCorrect.
Import DsaPending DsaPendingCorrect DsaSchedule DsaPlan.

(** ** Batches

    A row without a request is padding.  A row of a block table starts with the
    pages of its request; what comes after them is not read. *)
Definition row_len (r : option item) : Z := match r with Some it => it_len it | None => 0 end.
Definition tok_at (rows : list (option item)) (r : Z) : Z := zsum (map row_len (take (Z.to_nat r) rows)).
Definition alive (rows : list (option item)) : list item := omap id rows.

Record describes (md : metadata) (rows : list (option item)) : Prop := Describes {
  desc_starts : forall r, 0 <= r <= zlen rows -> zget (query_start_loc_cpu md) r = Some (tok_at rows r);
  desc_lens : forall r it, zget rows r = Some (Some it) -> zget (seq_lens_cpu md) r = Some (it_past it + it_len it);
  desc_host : forall r it, zget rows r = Some (Some it) -> 
    exists pages, zget (host_table md (zlen rows)) r = Some pages /\ it_pages it `prefix_of` pages;
  desc_device : forall r it, zget rows r = Some (Some it) -> 
    exists pages, zget (block_table md) r = Some pages /\ it_pages it `prefix_of` pages
}.

Lemma tok_at_next rows r x : zget rows r = Some x -> tok_at rows (r + 1) = tok_at rows r + row_len x.
Proof.
  intros H. pose proof (zget_Some _ _ _ H) as Hr. unfold tok_at, zget in *. destruct (Z.ltb_spec r 0); [lia|].
  replace (Z.to_nat (r + 1)) with (S (Z.to_nat r)) by lia.
  rewrite (take_S_r _ _ _ H), map_app, zsum_app. cbn. lia.
Qed.

Lemma row_tokens_at md rows r x : describes md rows -> zget rows r = Some x ->
  row_tokens md r = Ok (tok_at rows r, row_len x).
Proof.
  intros Hd H. pose proof (zget_Some _ _ _ H) as Hr. unfold row_tokens.
  rewrite (row_get_in _ _ _ (desc_starts _ _ Hd r ltac:(lia))). cbn.
  rewrite (row_get_in _ _ _ (desc_starts _ _ Hd (r + 1) ltac:(lia))). cbn.
  rewrite (tok_at_next _ _ _ H). f_equal. f_equal. lia.
Qed.

Section general.
Context (c : config) (rpp : Z).
Context (Hregion : 0 < region c) (Hrpp : 0 < rpp).

Abbreviation it_head := (it_head c).
Abbreviation it_slot := (it_slot c rpp).
Abbreviation it_nbuf := (it_nbuf c).
Abbreviation it_nreg := (it_nreg c).
Abbreviation it_closed := (it_closed c).
Abbreviation it_tail := (it_tail c).
Abbreviation item_ok := (item_ok c rpp).
Abbreviation plan_ok := (plan_ok c rpp).

(** A request that resumes inside a region finds its head in the table. *)
Definition resumes (t : pending_table) (it : item) : Prop :=
  it_head it <> 0 -> exists row, row_of_slot t !! it_slot it 0 = Some row.

(** ** Heads *)

Section heads.
Context (md : metadata) (rows : list (option item)) (s : dsa_state).
Context (Hd : describes md rows) (Hs : regions_per_page s = rpp).
Context (Hok : Forall item_ok (alive rows)).

Lemma alive_in r it : zget rows r = Some (Some it) -> it ∈ alive rows.
Proof. intros H%zget_elem. apply list_elem_of_omap. exists (Some it). done. Qed.

Lemma row_ok r it : zget rows r = Some (Some it) -> item_ok it.
Proof using Hok. intros H. rewrite Forall_forall in Hok. by eapply Hok, alive_in. Qed.

Definition cost_at (cost : item -> Z) (r : Z) : Z :=
  match zget rows r with Some (Some it) => cost it | _ => 0 end.

Definition head_at (t0 : pending_table) (r b : Z) (t : pending_table) : Prop :=
  forall it, zget rows r = Some (Some it) -> it_head it <> 0 ->
    row_of_slot t0 !! it_slot it 0 = Some b /\ held t (it_slot it 0) b.

Lemma protect_head_moves t0 t r : 0 <= r < zlen rows -> table_ok t -> row_of_slot t = row_of_slot t0 ->
  (forall it, zget rows r = Some (Some it) -> resumes t it) ->
  moves (protect_head c md (host_table md (zlen rows)) r) (cost_at (head_cost c) r) s t
    (fun b t' => head_at t0 r b t' /\ row_of_slot t' = row_of_slot t0).
Proof using Hd Hok Hregion Hrpp Hs.
  intros Hr Ht Hmap Hres. destruct (zget_is_Some rows r Hr) as [x Hx].
  unfold protect_head. eapply moves_lift_bind; [exact (row_tokens_at _ _ _ _ Hd Hx)|]. cbn [fst snd].
  unfold cost_at, head_at. rewrite Hx. destruct x as [it|]; cbn [row_len].
  2:{ rewrite (proj2 (Z.leb_le 0 0)) by lia. apply moves_ret; [done|]. done. }
  pose proof (row_ok _ _ Hx) as Hit. pose proof (item_len _ _ _ Hit) as Hlen.
  rewrite (proj2 (Z.leb_gt (it_len it) 0)) by lia.
  eapply moves_lift_bind; [exact (row_get_in _ _ _ (desc_lens _ _ Hd _ _ Hx))|].
  replace (it_past it + it_len it - it_len it) with (it_past it) by lia.
  unfold head_cost, DsaPlan.it_head in *. destruct (Z.eqb_spec (it_past it mod region c) 0) as [E|E].
  { apply moves_ret; [done|]. split; [|done]. intros it' [= <-]. done. }
  destruct (desc_host _ _ Hd _ _ Hx) as (pages & Hpages & Hpre).
  apply moves_state_bind. eapply moves_lift_bind; [exact (row_get_in _ _ _ Hpages)|].
  cbn [regions_per_page set_pending]. rewrite Hs.
  eapply moves_lift_bind.
  { pose proof (nreg_pos c rpp Hregion it Hit). rewrite <- (Z.add_0_r (_ / _)). apply (slot_of_item c rpp Hregion Hrpp it pages 0 Hit Hpre). lia. }
  destruct (Hres it Hx E) as [row Hrow].
  eapply moves_weaken; [by apply (moves_get s t _ row)|lia|].
  intros b t' _ (-> & Hh & Hm). split; [|congruence]. intros it' [= <-] _. split; [congruence|done].
Qed.

Lemma heads_moves t : table_ok t -> Forall (resumes t) (alive rows) ->
  busy_rows t + zsum (map (cost_at (head_cost c)) (zrange 0 (zlen rows))) <= capacity t ->
  moves (collect (zrange 0 (zlen rows)) (protect_head c md (host_table md (zlen rows))))
    (zsum (map (cost_at (head_cost c)) (zrange 0 (zlen rows)))) s t
    (fun heads t' => Forall2 (fun r b => head_at t r b t') (zrange 0 (zlen rows)) heads /\ row_of_slot t' = row_of_slot t).
Proof using Hd Hok Hregion Hrpp Hs.
  intros Ht Hres Hb.
  apply (moves_collect _ _ _ s (fun t' => row_of_slot t' = row_of_slot t)
           (fun r t' => 0 <= r < zlen rows /\ row_of_slot t' = row_of_slot t) (fun r b => head_at t r b)); try done.
  - intros r _. unfold cost_at, head_cost. repeat case_match; lia.
  - intros r b t1 t2 Hk H it Hx Hne. destruct (H it Hx Hne). split; [done|]. by eapply keeps_held.
  - intros r t1 t2 _ Hi _ []. done.
  - intros r t1 _ Ht1 Hi [Hr _] _. eapply moves_weaken; [apply (protect_head_moves t); try done| |done].
    + intros it Hx Hne. rewrite Forall_forall in Hres. rewrite Hi. by apply (Hres _ (alive_in _ _ Hx)).
    + lia.
  - apply Forall_forall. intros r Hr%elem_zrange. split; [lia|done].
Qed.
End heads.

(** ** Regions that may be reopened *)

(** The regions of an item whose rows [keep_closed] takes: the first row of a
    resumed item is the head's *)
Definition first_taken (it : item) : Z := if it_head it =? 0 then 0 else 1.

Definition completed_of (it : item) : list Z :=
  (if negb (it_head it =? 0) && (region c <=? it_nbuf it) then [it_slot it 0] else []) ++
  (if may_roll_back c (it_len it)
   then map (it_slot it) (zrange (first_taken it) (it_closed it - first_taken it)) else []).

Lemma closed_bound it j : item_ok it -> (it_nbuf it - j * region c <? region c) = (it_closed it <=? j).
Proof using Hregion.
  intros Hit. pose proof (nbuf_split c Hregion it). pose proof (tail_range c Hregion it).
  destruct (Z.ltb_spec (it_nbuf it - j * region c) (region c)), (Z.leb_spec (it_closed it) j); try done; nia.
Qed.

Lemma closed_le_nreg it : item_ok it -> it_closed it <= it_nreg it.
Proof using Hregion. intros Hit. rewrite (nreg_split c Hregion it). case_match; lia. Qed.

Lemma zrange_of_S j n : zrange j (Z.of_nat (S n)) = j :: zrange (j + 1) (Z.of_nat n).
Proof. unfold zrange. rewrite seqZ_cons by lia. f_equal. f_equal; lia. Qed.

Lemma zrange_open j k : 0 < k -> zrange j k = j :: zrange (j + 1) (k - 1).
Proof. intros H. unfold zrange. rewrite seqZ_cons by lia. f_equal. Qed.

(** What [keep_closed] returns from region [j] on *)
Definition kept_from (it : item) (buf j : Z) (r : list (Z * Z) * list Z) (t : pending_table) : Prop :=
  let from := Z.max j (first_taken it) in
  exists keep, zlen keep = Z.max 0 (it_closed it - j) /\
    r.1 = zip keep (map (fun i => buf + i * region c) (zrange j (it_closed it - j))) /\
    r.2 = map (it_slot it) (zrange from (it_closed it - from)) /\
    forall i row, zget keep i = Some row -> held t (it_slot it (j + i)) row.

Lemma kept_none it buf j t : it_closed it <= j -> kept_from it buf j ([], []) t.
Proof. intros H. exists []. rewrite !zrange_nil by lia. split_and!; [by rewrite Z.max_l by lia|done|done|].
  intros i row Hi%zget_Some. unfold zlen in Hi. cbn in Hi. lia.
Qed.

Lemma kept_cons it buf j t t' row r taken : j < it_closed it -> keeps t t' -> held t (it_slot it j) row ->
  taken = (if decide (j = 0 /\ it_head it <> 0) then [] else [it_slot it j]) -> 0 <= j ->
  kept_from it buf (j + 1) r t' -> kept_from it buf j ((row, buf + j * region c) :: r.1, taken ++ r.2) t'.
Proof.
  intros Hj Hk Hh -> Hj0 (keep & H1 & H2 & H3 & H4). exists (row :: keep). cbn [fst snd]. split_and!.
  - rewrite zlen_cons, H1. lia.
  - rewrite (zrange_open j) by lia. cbn. by rewrite H2, (Z.sub_add_distr _ j 1).
  - rewrite H3. unfold first_taken. destruct (Z.eqb_spec (it_head it) 0) as [E|E].
    + rewrite decide_False by tauto. rewrite (Z.max_l j 0), (Z.max_l (j + 1) 0) by lia.
      rewrite (zrange_open j) by lia. cbn. by rewrite (Z.sub_add_distr _ j 1).
    + case_decide as Hd.
      * destruct Hd as [-> _]. done.
      * assert (j <> 0) by tauto. rewrite (Z.max_l j 1), (Z.max_l (j + 1) 1) by lia.
        rewrite (zrange_open j) by lia. cbn. by rewrite (Z.sub_add_distr _ j 1).
  - intros i rw Hi. destruct (decide (i = 0)) as [->|Hne].
    + injection Hi as <-. rewrite Z.add_0_r. by eapply keeps_held.
    + pose proof (zget_Some _ _ _ Hi). replace i with ((i - 1) + 1) in Hi by lia. rewrite zget_cons_S in Hi by lia.
      replace (j + i) with (j + 1 + (i - 1)) by lia. by apply H4.
Qed.

(** The loop from region [j] on *)
Lemma keep_closed_moves it p_in buf s n : item_ok it -> forall j t, table_ok t ->
  0 <= j -> j + Z.of_nat n = it_nreg it -> (j = 0 -> it_head it <> 0 -> held t (it_slot it 0) p_in) ->
  busy_rows t + Z.max 0 (it_closed it - Z.max j (first_taken it)) <= capacity t ->
  moves (keep_closed c (it_nbuf it) (it_head it) p_in buf j (map (it_slot it) (zrange j (Z.of_nat n))))
    (Z.max 0 (it_closed it - Z.max j (first_taken it))) s t (kept_from it buf j).
Proof using Hregion Hrpp.
  intros Hit. induction n as [|n IH]; intros j t Ht Hj Hn Hin Hb.
  { pose proof (closed_le_nreg it Hit). rewrite zrange_nil by lia. rewrite Z.max_l by lia.
    apply moves_ret; [done|]. apply kept_none. lia. }
  rewrite zrange_of_S. cbn [map keep_closed]. rewrite closed_bound by done.
  destruct (Z.leb_spec (it_closed it) j) as [Hc|Hc].
  { rewrite Z.max_l by lia. apply moves_ret; [done|]. by apply kept_none. }
  assert (forall here k t1, table_ok t1 -> keeps t t1 -> held t1 (it_slot it j) here.1 ->
    busy_rows t1 <= busy_rows t + k -> 0 <= k ->
    here.2 = (if decide (j = 0 /\ it_head it <> 0) then [] else [it_slot it j]) ->
    Z.max 0 (it_closed it - Z.max j (first_taken it)) = k + Z.max 0 (it_closed it - Z.max (j + 1) (first_taken it)) ->
    moves (others ← keep_closed c (it_nbuf it) (it_head it) p_in buf (j + 1) (map (it_slot it) (zrange (j + 1) (Z.of_nat n)));
           mret ((here.1, buf + j * region c) :: others.1, here.2 ++ others.2))
      (Z.max 0 (it_closed it - Z.max (j + 1) (first_taken it))) s t1 (kept_from it buf j)) as Hrest.
  { intros here k t1 Ht1 Hk Hh Hbusy Hk0 Htaken Hcost. pose proof (keeps_capacity _ _ Hk).
    rewrite <- (Z.add_0_r (Z.max _ _)). eapply moves_bind.
    - apply IH; try done; lia.
    - intros r t2 Ht2 Hk2 _ Hr. apply moves_ret; [done|]. by eapply kept_cons. }
  destruct ((j =? 0) && negb (it_head it =? 0)) eqn:E.
  - bool_prop. subst j. rename H0 into Hh.
    apply (moves_pure _ _ (p_in, [])); [done|]. unfold first_taken in *. rewrite (proj2 (Z.eqb_neq _ 0) Hh) in *.
    apply (Hrest (p_in, []) 0); [done|reflexivity|by apply Hin|lia|lia|by rewrite decide_True by (split; done)|done].
  - assert (~ (j = 0 /\ it_head it <> 0)) as Hne.
    { intros [-> Hne]. rewrite (proj2 (Z.eqb_neq _ 0) Hne) in E. done. }
    assert (Z.max 0 (it_closed it - Z.max j (first_taken it)) =
            1 + Z.max 0 (it_closed it - Z.max (j + 1) (first_taken it))) as Hcost.
    { unfold first_taken. destruct (Z.eqb_spec (it_head it) 0); [lia|].
      assert (j <> 0) by tauto. lia. }
    rewrite Hcost. eapply moves_bind.
    + rewrite <- (Z.add_0_r 1). eapply moves_bind.
      * apply moves_acquire; [done| |lia]. apply (slot_nonneg c rpp Hregion Hrpp it j Hit). lia.
      * intros row t1 Ht1 Hk1 Hb1 Hh1.
        apply (moves_ret (row, [it_slot it j]) s t1
          (fun h t' => held t' (it_slot it j) h.1 /\ h.2 = [it_slot it j])); done.
    + intros here t1 Ht1 Hk Hb1 [Hh Htaken]. apply (Hrest here 1); try done. by rewrite decide_False.
Qed.

(** ** The schedule of right plans *)

(** A request with a plan, the row it has in the batch, its first token and
    its place in the buffer *)
Record entry := Entry {
  e_row : Z;
  e_tok : Z;
  e_buf : Z;
  e_item : item;
  e_plan : plan
}.

Fixpoint entries (r tok buf : Z) (rows : list (option item)) (pls : list plan) : list entry :=
  match rows, pls with
  | None :: rows', _ => entries (r + 1) tok buf rows' pls
  | Some it :: rows', pl :: pls' =>
      Entry r tok buf it pl :: entries (r + 1) (tok + it_len it) (buf + it_nbuf it) rows' pls'
  | _, _ => []
  end.

Definition entry_plan_row (e : entry) : request_plan :=
  let it := e_item e in
  RequestPlan (e_row e) (it_past it) (it_len it) (e_tok e) (it_head it) (e_buf e) (pl_in (e_plan e)) (pl_out (e_plan e))
    (it_tail it) ((it_past it + it_len it - 1) / region c) None
    (zip (pl_keep (e_plan e)) (map (fun i => e_buf e + i * region c) (zrange 0 (kept_regions c it)))).

Definition starts_of (e : entry) : list Z := map (fun j => e_buf e + j * region c) (zrange 0 (it_nreg (e_item e))).
Definition counts_of (it : item) : list Z :=
  map (fun j => if j <? it_closed it then region c else 0) (zrange 0 (it_nreg it)).

Definition gathered_of (es : list entry) : gathered :=
  Gathered (map entry_plan_row es) (concat (map starts_of es)) (concat (map (fun e => counts_of (e_item e)) es))
    (concat (map (fun e => it_slots c rpp (e_item e)) es)) (zsum (map (fun e => it_nbuf (e_item e)) es))
    (concat (map (fun e => completed_of (e_item e)) es)).

Lemma gathered_snoc es e : e_buf e = zsum (map (fun e => it_nbuf (e_item e)) es) ->
  gathered_of (es ++ [e]) =
  Gathered (g_requests (gathered_of es) ++ [entry_plan_row e]) (g_starts (gathered_of es) ++ starts_of e)
    (g_counts (gathered_of es) ++ counts_of (e_item e)) (g_slots (gathered_of es) ++ it_slots c rpp (e_item e))
    (g_buf (gathered_of es) + it_nbuf (e_item e)) (g_completed (gathered_of es) ++ completed_of (e_item e)).
Proof.
  intros _. unfold gathered_of. cbn. rewrite !map_app, !concat_app, zsum_app. cbn. rewrite !app_nil_r, Z.add_0_r. done.
Qed.

Lemma counts_eq it : item_ok it ->
  map (fun j => if Z.min (region c) (it_nbuf it - j * region c) =? region c then region c else 0) (zrange 0 (it_nreg it)) =
  counts_of it.
Proof using Hregion.
  intros Hit. unfold counts_of. apply list_fmap_ext. intros i j Hj. pose proof (closed_bound it j Hit) as Hb.
  destruct (Z.ltb_spec (it_nbuf it - j * region c) (region c)), (Z.leb_spec (it_closed it) j); try done.
  - destruct (Z.eqb_spec (Z.min (region c) (it_nbuf it - j * region c)) (region c)); [lia|].
    destruct (Z.ltb_spec j (it_closed it)); [lia|done].
  - destruct (Z.eqb_spec (Z.min (region c) (it_nbuf it - j * region c)) (region c)); [|lia].
    destruct (Z.ltb_spec j (it_closed it)); [done|lia].
Qed.

Lemma first_taken_le it : item_ok it -> 0 < it_closed it -> first_taken it <= it_closed it.
Proof. unfold first_taken. case_match; lia. Qed.

Lemma keep_cost it : item_ok it -> may_roll_back c (it_len it) = true ->
  Z.max 0 (it_closed it - Z.max 0 (first_taken it)) =
  kept_regions c it - (if negb (it_head it =? 0) && (0 <? kept_regions c it) then 1 else 0).
Proof using Hregion.
  intros Hit Hm. unfold kept_regions. rewrite Hm. pose proof (closed_nonneg c rpp Hregion it Hit). unfold first_taken.
  destruct (Z.eqb_spec (it_head it) 0); cbn; [lia|]. destruct (Z.ltb_spec 0 (it_closed it)); lia.
Qed.

Section rows.
Context (md : metadata) (rows : list (option item)) (s : dsa_state) (heads : list Z).
Context (Hd : describes md rows) (Hs : regions_per_page s = rpp).
Context (Hok : Forall item_ok (alive rows)).

(** One request gets a right plan. *)
Lemma plan_row_moves r it h es t : zget rows r = Some (Some it) -> zget heads r = Some h ->
  (it_head it <> 0 -> held t (it_slot it 0) h) -> table_ok t -> busy_rows t + body_cost c it <= capacity t ->
  moves (plan_row c md (host_table md (zlen rows)) heads r (gathered_of es)) (body_cost c it) s t
    (fun g t' => exists pl, plan_ok t' it pl /\ pl_in pl = h /\
       g = gathered_of (es ++ [Entry r (tok_at rows r) (zsum (map (fun e => it_nbuf (e_item e)) es)) it pl])).
Proof using Hd Hok Hregion Hrpp Hs.
  intros Hx Hh Hheld Ht Hb. pose proof (row_ok _ Hok _ _ Hx) as Hit. pose proof (item_len _ _ _ Hit) as Hlen.
  unfold plan_row. eapply moves_lift_bind; [exact (row_tokens_at _ _ _ _ Hd Hx)|]. cbn [row_len].
  rewrite (proj2 (Z.leb_gt (it_len it) 0)) by lia. apply moves_state_bind. cbn [regions_per_page set_pending]. rewrite Hs.
  eapply moves_lift_bind; [exact (row_get_in _ _ _ (desc_lens _ _ Hd _ _ Hx))|].
  replace (it_past it + it_len it - it_len it) with (it_past it) by lia.
  destruct (desc_host _ _ Hd _ _ Hx) as (pages & Hpages & Hpre).
  eapply moves_lift_bind; [exact (row_get_in _ _ _ Hpages)|].
  apply (moves_pure _ _ (it_slots c rpp it)); [exact (collect_slots c rpp Hregion Hrpp it pages _ Hit Hpre)|].
  eapply moves_lift_bind; [exact (first_slot_get c rpp Hregion it Hit)|].
  eapply moves_lift_bind; [exact (last_slot_get c rpp Hregion it Hit)|].
  eapply moves_lift_bind; [exact (row_get_in _ _ _ Hh)|].
  change (it_past it mod region c) with (it_head it). change (it_head it + it_len it) with (it_nbuf it).
  change ((it_nbuf it + region c - 1) / region c) with (it_nreg it). change (it_nbuf it mod region c) with (it_tail it).
  rewrite counts_eq by done. unfold body_cost in *. pose proof (nreg_pos c rpp Hregion it Hit) as Hnreg.
  set (kcost := kept_regions c it - _) in *.
  assert (0 <= kcost) as Hk0.
  { unfold kcost, kept_regions. pose proof (closed_nonneg c rpp Hregion it Hit).
    destruct (may_roll_back c (it_len it)), (negb (it_head it =? 0)); cbn; try lia. destruct (Z.ltb_spec 0 (it_closed it)); lia. }
  eapply moves_bind with (post1 := fun out t' => it_tail it <> 0 -> held t' (it_slot it (it_nreg it - 1)) out).
  { destruct (Z.eqb_spec (it_tail it) 0) as [E|E]; [by apply moves_ret|].
    eapply moves_weaken; [apply moves_acquire; [done| |lia]|lia|done].
    apply (slot_nonneg c rpp Hregion Hrpp it _ Hit). lia. }
  intros out t1 Ht1 Hk1 Hb1 Hout. rewrite <- (Z.add_0_r kcost).
  eapply moves_bind with (post1 := fun kept t' => exists keep, zlen keep = kept_regions c it /\
    kept.1 = zip keep (map (fun i => zsum (map (fun e => it_nbuf (e_item e)) es) + i * region c) (zrange 0 (kept_regions c it))) /\
    kept.2 = (if may_roll_back c (it_len it)
              then map (it_slot it) (zrange (first_taken it) (it_closed it - first_taken it)) else []) /\
    forall i row, zget keep i = Some row -> held t' (it_slot it i) row).
  { pose proof (keeps_capacity _ _ Hk1) as Hcap. destruct (may_roll_back c (it_len it)) eqn:Hm.
    - pose proof (keep_cost it Hit Hm) as Hcost. fold kcost in Hcost. rewrite <- Hcost in *.
      unfold it_slots. replace (it_nreg it) with (Z.of_nat (Z.to_nat (it_nreg it))) by lia.
      eapply moves_weaken; [apply (keep_closed_moves it h _ s (Z.to_nat (it_nreg it)) Hit 0); try done; try lia| |].
      + intros _ Hne. by apply (keeps_held _ _ Hk1), Hheld.
      + done.
      + intros kept t2 _ (keep & A1 & A2 & A3 & A4). exists keep. unfold kept_regions. rewrite Hm.
        pose proof (closed_nonneg c rpp Hregion it Hit). rewrite Z.sub_0_r in *. split_and!; [lia|done| |].
        * rewrite A3. assert (0 <= first_taken it) as Hft by (unfold first_taken; destruct (it_head it =? 0); lia).
          by rewrite (Z.max_r 0 (first_taken it) Hft).
        * intros i row Hi. by apply A4.
    - unfold kcost, kept_regions in *. rewrite Hm in *. rewrite andb_false_r in *. apply moves_ret; [done|].
      exists []. split_and!; try done. intros i row Hi%zget_Some. unfold zlen in Hi. cbn in Hi. lia. }
  intros kept t2 Ht2 Hk2 _ (keep & A1 & A2 & A3 & A4). apply moves_ret; [done|].
  exists (Plan h out keep). split_and!; [|done|].
  - split; cbn; [|..|done|done].
    + intros Hne. apply (keeps_held _ _ Hk2), (keeps_held _ _ Hk1). by apply Hheld.
    + intros Hne. apply (keeps_held _ _ Hk2). by apply Hout.
  - rewrite gathered_snoc by done. rewrite A2, A3. unfold completed_of. done.
Qed.

(** The plans of items: right in [t], and with the head rows of [t0] *)
Definition plans_ok (t0 t : pending_table) (its : list item) (pls : list plan) : Prop :=
  Forall2 (fun it pl => plan_ok t it pl /\ (it_head it <> 0 -> row_of_slot t0 !! it_slot it 0 = Some (pl_in pl))) its pls.

Lemma plans_ok_mono t0 t t' its pls : keeps t t' -> plans_ok t0 t its pls -> plans_ok t0 t' its pls.
Proof.
  intros Hk H. eapply Forall2_impl; [exact H|]. intros it pl []. split; [by eapply plan_ok_mono|done].
Qed.

Lemma body_cost_nonneg it : item_ok it -> 0 <= body_cost c it.
Proof using Hregion.
  intros Hit. unfold body_cost, kept_regions. pose proof (closed_nonneg c rpp Hregion it Hit).
  destruct (it_tail it =? 0), (may_roll_back c (it_len it)), (negb (it_head it =? 0)); cbn; try lia;
    destruct (Z.ltb_spec 0 (it_closed it)); lia.
Qed.

Lemma cost_at_nonneg r : 0 <= cost_at rows (body_cost c) r.
Proof using Hok Hregion.
  unfold cost_at. destruct (zget rows r) as [[it|]|] eqn:Hx; try lia. apply body_cost_nonneg. by eapply row_ok.
Qed.

Lemma sum_cost_nonneg r n : 0 <= zsum (map (cost_at rows (body_cost c)) (zrange r n)).
Proof using Hok Hregion.
  generalize (zrange r n) as l. induction l as [|x l IH]; [done|]. cbn. pose proof (cost_at_nonneg x).
  unfold zsum in IH. lia.
Qed.

Lemma drop_row r x : zget rows r = Some x -> drop (Z.to_nat r) rows = x :: drop (Z.to_nat (r + 1)) rows.
Proof.
  intros H. pose proof (zget_Some _ _ _ H). unfold zget in H. destruct (Z.ltb_spec r 0); [lia|].
  rewrite (drop_S _ _ _ H). by replace (S (Z.to_nat r)) with (Z.to_nat (r + 1)) by lia.
Qed.

Lemma plan_rows_moves t0 n : forall r es t, 0 <= r -> r + Z.of_nat n = zlen rows -> table_ok t ->
  (forall i b, zget heads i = Some b -> r <= i -> head_at rows t0 i b t) -> zlen heads = zlen rows ->
  busy_rows t + zsum (map (cost_at rows (body_cost c)) (zrange r (Z.of_nat n))) <= capacity t ->
  moves (plan_rows c md (host_table md (zlen rows)) heads (zrange r (Z.of_nat n)) (gathered_of es))
    (zsum (map (cost_at rows (body_cost c)) (zrange r (Z.of_nat n)))) s t
    (fun g t' => exists pls, plans_ok t0 t' (alive (drop (Z.to_nat r) rows)) pls /\
       g = gathered_of (es ++ entries r (tok_at rows r) (zsum (map (fun e => it_nbuf (e_item e)) es)) (drop (Z.to_nat r) rows) pls)).
Proof using Hd Hok Hregion Hrpp Hs.
  induction n as [|n IH]; intros r es t Hr Hn Ht Hheads Hlen Hb.
  { rewrite zrange_nil by lia. apply moves_ret; [done|]. exists []. rewrite drop_ge by (unfold zlen in *; lia).
    split; [constructor|]. cbn. by rewrite app_nil_r. }
  rewrite zrange_of_S in *. cbn [map plan_rows zsum foldr] in *.
  change (foldr Z.add 0 (map (cost_at rows (body_cost c)) (zrange (r + 1) (Z.of_nat n)))) with
    (zsum (map (cost_at rows (body_cost c)) (zrange (r + 1) (Z.of_nat n)))) in *.
  pose proof (sum_cost_nonneg (r + 1) (Z.of_nat n)) as Hrest0.
  destruct (zget_is_Some rows r ltac:(lia)) as [x Hx]. rewrite (drop_row r x Hx).
  destruct (zget_is_Some heads r ltac:(lia)) as [h Hh].
  destruct x as [it|].
  - assert (cost_at rows (body_cost c) r = body_cost c it) as Hc by (unfold cost_at; by rewrite Hx).
    rewrite Hc in *. eapply moves_bind.
    { apply (plan_row_moves r it h es t); try done; [|lia]. intros Hne. by apply (Hheads r h Hh ltac:(lia) it Hx Hne). }
    intros g t1 Ht1 Hk1 Hb1 (pl & Hpl & Hin & ->). pose proof (keeps_capacity _ _ Hk1) as Hcap.
    eapply moves_weaken.
    { apply IH; try done; try lia. intros i b Hi Hge it' Hx' Hne.
      destruct (Hheads i b Hi ltac:(lia) it' Hx' Hne) as [A1 A2]. split; [done|]. by apply (keeps_held _ _ Hk1). }
    { lia. }
    intros g t2 Hk2 (pls & Hpls & ->). exists (pl :: pls). split.
    + cbn. constructor; [|done]. split; [by eapply plan_ok_mono|]. intros Hne. rewrite Hin.
      by apply (Hheads r h Hh ltac:(lia) it Hx Hne).
    + f_equal. rewrite <- app_assoc. f_equal. cbn [entries app]. f_equal.
      rewrite (tok_at_next _ _ _ Hx). rewrite map_app, zsum_app. cbn. by rewrite Z.add_0_r.
  - assert (cost_at rows (body_cost c) r = 0) as Hc by (unfold cost_at; by rewrite Hx). rewrite Hc in *.
    apply (moves_pure _ _ (gathered_of es)).
    { unfold plan_row. unfold lift, mbind, M_bind. rewrite (row_tokens_at _ _ _ _ Hd Hx). cbn [row_len].
      by rewrite (proj2 (Z.leb_le 0 0)) by lia. }
    eapply moves_weaken; [apply IH; try done; try lia|lia|].
    + intros i b Hi Hge. apply Hheads; [done|lia].
    + intros g t2 Hk2 (pls & Hpls & ->). exists pls. split; [done|]. f_equal. f_equal. cbn [entries].
      rewrite (tok_at_next _ _ _ Hx). cbn [row_len]. by rewrite Z.add_0_r.
Qed.
End rows.

(** ** The summaries a request scores *)

(** The summary slot of a region of a request *)
Definition region_slot (pages : list Z) (id : Z) : Z := default 0 (zget pages (id / rpp)) * rpp + id mod rpp.

Definition scored (e : entry) : request_plan :=
  let p := entry_plan_row e in
  RequestPlan (row p) (past p) (qlen p) (tok_start p) (head p) (buf_start p) (pending_row_in p) (pending_row_out p) (tail p)
    (nscore p) (if nscore p <=? 0 then None else Some (map (region_slot (it_pages (e_item e))) (zrange 0 (nscore p))))
    (keep_rows p).

Lemma region_slot_get it pages id : item_ok it -> it_pages it `prefix_of` pages -> 0 <= id ->
  id * region c < it_past it + it_len it -> slot_of rpp pages id = Ok (region_slot (it_pages it) id).
Proof using Hregion Hrpp.
  intros Hit Hpre Hid Hlt. destruct (zget_is_Some (it_pages it) (id / rpp)) as [page Hp].
  - split; [apply Z.div_pos; lia|]. apply Z.div_lt_upper_bound; [lia|]. destruct Hit as [_ _ _ Hroom]. nia.
  - unfold slot_of, region_slot. by rewrite (row_get_in _ _ _ (zget_prefix _ _ _ _ Hpre Hp)), Hp.
Qed.

Lemma score_slots_get it pages ids : item_ok it -> it_pages it `prefix_of` pages -> Forall (fun id => 0 <= id /\ id * region c < it_past it + it_len it) ids ->
  foldr (fun id acc => slot ← slot_of rpp pages id; ss ← acc; mret (slot :: ss)) (Ok []) ids =
  Ok (map (region_slot (it_pages it)) ids).
Proof using Hregion Hrpp.
  intros Hit Hpre. induction 1 as [|id ids [H1 H2] _ IH]; [done|]. cbn [foldr map].
  rewrite (region_slot_get it pages id Hit Hpre H1 H2), IH. done.
Qed.

Lemma with_score_slots_eq md rows e : describes md rows -> item_ok (e_item e) ->
  zget rows (e_row e) = Some (Some (e_item e)) -> with_score_slots md rpp (entry_plan_row e) = Ok (scored e).
Proof using Hregion Hrpp.
  intros Hd Hit Hx. unfold with_score_slots, scored. cbn [nscore entry_plan_row row]. case_if; [done|].
  destruct (desc_device _ _ Hd _ _ Hx) as (pages & Hpages & Hpre). rewrite (row_get_in _ _ _ Hpages). cbn -[zrange].
  pose proof (item_past _ _ _ Hit). pose proof (item_len _ _ _ Hit).
  rewrite (score_slots_get (e_item e) pages); [done|done|done|]. apply Forall_forall. intros id Hid%elem_zrange. split; [lia|].
  pose proof (Z.mul_div_le (it_past (e_item e) + it_len (e_item e) - 1) (region c) Hregion). nia.
Qed.

(** The entries of a batch name its rows. *)
Lemma entries_rows rows pls : forall r tok buf all, (forall i x, zget rows i = Some x -> zget all (r + i) = Some x) ->
  Forall (fun e => zget all (e_row e) = Some (Some (e_item e))) (entries r tok buf rows pls).
Proof.
  revert pls. induction rows as [|[it|] rows IH]; intros pls r tok buf all H; [constructor| |].
  - destruct pls as [|pl pls]; [constructor|]. cbn. constructor.
    + cbn. specialize (H 0 (Some it) eq_refl). by rewrite Z.add_0_r in H.
    + apply IH. intros i x Hi. rewrite <- Z.add_assoc. apply H. rewrite Z.add_comm, zget_cons_S; [done|].
      apply zget_Some in Hi. lia.
  - cbn. apply IH. intros i x Hi. rewrite <- Z.add_assoc. apply H. rewrite Z.add_comm, zget_cons_S; [done|].
    apply zget_Some in Hi. lia.
Qed.

Lemma collect_scored md rows es (s : dsa_state) : describes md rows -> Forall item_ok (alive rows) ->
  Forall (fun e => zget rows (e_row e) = Some (Some (e_item e))) es ->
  collect (map entry_plan_row es) (fun p => lift (with_score_slots md rpp p)) s = (Ok (map scored es), s).
Proof using Hregion Hrpp.
  intros Hd Hok. induction 1 as [|e es He _ IH]; [done|]. cbn [map collect].
  rewrite (M_bind_ok _ _ s (scored e) s).
  - by rewrite (M_bind_ok _ _ s _ s IH).
  - unfold lift. by rewrite (with_score_slots_eq md rows e Hd (row_ok _ Hok _ _ He) He).
Qed.

(** The schedule of the general path *)
Definition general_of (es : list entry) : schedule :=
  let g := gathered_of es in
  Schedule (General (map scored es) (g_buf g) (g_starts g) (g_counts g) (g_slots g)) (g_completed g) 0 false 0.

Definition total_cost (rows : list (option item)) : Z :=
  zsum (map (cost_at rows (head_cost c)) (zrange 0 (zlen rows))) +
  zsum (map (cost_at rows (body_cost c)) (zrange 0 (zlen rows))).

Theorem general_body_planned md rows s t : describes md rows -> regions_per_page s = rpp ->
  num_decodes md + num_prefills md = zlen rows ->
  Forall item_ok (alive rows) -> table_ok t -> Forall (resumes t) (alive rows) ->
  busy_rows t + total_cost rows <= capacity t ->
  moves (general_body c md) (total_cost rows) s t
    (fun sched t' => exists pls, plans_ok t t' (alive rows) pls /\ sched = general_of (entries 0 0 0 rows pls)).
Proof using Hregion Hrpp.
  intros Hd Hs Hn Hok Ht Hres Hb. unfold general_body, total_cost in *. rewrite Hn.
  pose proof (sum_cost_nonneg rows Hok 0 (zlen rows)) as H0.
  eapply moves_bind; [apply (heads_moves md rows s); try done; lia|].
  intros heads t1 Ht1 Hk1 Hb1 [Hheads Hmap]. pose proof (keeps_capacity _ _ Hk1).
  rewrite <- (Z.add_0_r (zsum (map (cost_at rows (body_cost c)) _))).
  assert (zlen heads = zlen rows) as Hlen.
  { apply Forall2_length in Hheads. unfold zlen in *. rewrite <- Hheads. unfold zrange. rewrite length_seqZ. lia. }
  eapply moves_bind.
  { change (Gathered [] [] [] [] 0 []) with (gathered_of []).
    assert (zlen rows = Z.of_nat (length rows)) as Hzl by done.
    pose proof (plan_rows_moves md rows s heads Hd Hs Hok t (length rows) 0 [] t1) as H1. rewrite <- Hzl in H1.
    apply H1; try done; try lia.
    intros i b Hi _. pose proof (zget_Some _ _ _ Hi) as Hir.
    rewrite Forall2_lookup in Hheads. specialize (Hheads (Z.to_nat i)).
    pose proof (zget_zrange 0 (zlen rows) i ltac:(lia)) as Hz. unfold zget in Hz, Hi.
    destruct (Z.ltb_spec i 0); [lia|]. rewrite Hz, Hi in Hheads. inversion Hheads. by subst. }
  intros g t2 Ht2 Hk2 _ (pls & Hpls & ->). apply moves_state_bind. cbn [regions_per_page set_pending]. rewrite Hs.
  cbn [app map zsum foldr] in *. rewrite drop_0 in *.
  apply (moves_pure _ _ (map scored (entries 0 0 0 rows pls))).
  - apply (collect_scored md rows); try done. apply entries_rows. done.
  - apply moves_ret; [done|]. exists pls. done.
Qed.
End general.
End DsaScheduleCorrect.
