(* ===== verification/DsaSummary.v ===== *)
(** * Region summaries and pending rows of the layers

    Models [_update_summaries] of [Step4Indexer] in
    src/vllm_hcu/model_executor/layers/step4_dsa.py, on each of its paths, and
    the part of [run] that moves through the schedule.

    A token is the pair of its proxy key and its logits, an abstract value; the
    compression of a region ([csa_compress_regions] on one region, arithmetic
    of a kernel) is a parameter.  What is modelled is which tokens reach it,
    where its results go, and which rows of the pending buffer are read and
    written.  A layer is its pending buffer, with one row past the table's
    capacity for writes nobody reads, and its summaries by slot. *)

From S2P Require Import Prelude Tensors DsaPending DsaSchedule DsaScheduleCorrect.
Local Open Scope Z_scope.

Module DsaSummary.
Import DsaPending DsaSchedule.

Section summary.
Context {T V : Type} (zero : T) (compress : list T -> V).
Context (c : config).

Record layer := Layer {
  pend : list (list T);
  summ : gmap Z V
}.

(** ** Slices *)

(** [l[start : start + n]] *)
Definition slice {A} (start n : Z) (l : list A) : list A := take (Z.to_nat n) (drop (Z.to_nat start) l).

(** [dst[start : start + n] = src] *)
Definition splice {A} (dst : list A) (start n : Z) (src : list A) : result (list A) :=
  if (0 <=? start) && (start + n <=? zlen dst) && (zlen src =? n)
  then Ok (take (Z.to_nat start) dst ++ src ++ drop (Z.to_nat (start + n)) dst)
  else Err (Exn RuntimeError "The expanded size of the tensor must match the existing size").

(** [pending[row, :n] = src] *)
Definition put_row (pending : list (list T)) (row n : Z) (src : list T) : result (list (list T)) :=
  old ← row_get pending row;
  new ← splice old 0 n src;
  row_set pending row new.

(** ** Compression and storage *)

(** [csa_compress_regions] and [_store_live_summary_rows]: a live region is
    compressed from the buffer and stored at its slot *)
Definition store_region (buffer : list T) (summ : gmap Z V) (r : Z * Z * Z * bool) : gmap Z V :=
  let '(start, count, slot, live) := r in
  if (live : bool) then <[slot := compress (slice start count buffer)]> summ else summ.

Definition store_regions (buffer : list T) (starts counts slots : list Z) (live : list bool) (summ : gmap Z V) : gmap Z V :=
  foldl (store_region buffer) summ (zip (zip (zip starts counts) slots) live).

(** ** The general path *)

(** The tokens of one request in the buffer: the pending head, then its own *)
Definition assemble (l : layer) (toks : list T) (buffer : list T) (p : request_plan) : result (list T) :=
  buffer' ← (if head p =? 0 then mret buffer
             else
               prow ← row_get (pend l) (pending_row_in p);
               splice buffer (buf_start p) (head p) (slice 0 (head p) prow));
  splice buffer' (buf_start p + head p) (qlen p) (slice (tok_start p) (qlen p) toks).

Fixpoint assemble_all (l : layer) (toks : list T) (buffer : list T) (ps : list request_plan) : result (list T) :=
  match ps with
  | [] => Ok buffer
  | p :: ps' => b ← assemble l toks buffer p; assemble_all l toks b ps'
  end.

Fixpoint keep_regions (buffer : list T) (pending : list (list T)) (keeps : list (Z * Z)) : result (list (list T)) :=
  match keeps with
  | [] => Ok pending
  | (row, off) :: keeps' =>
      p ← row_set pending row (slice off (region c) buffer);
      keep_regions buffer p keeps'
  end.

(** The regions and the tail of one request go back to the pending rows. *)
Definition rebuffer (buffer : list T) (pending : list (list T)) (p : request_plan) : result (list (list T)) :=
  pending' ← keep_regions buffer pending (keep_rows p);
  if tail p =? 0 then mret pending'
  else
    let stop := buf_start p + head p + qlen p in
    put_row pending' (pending_row_out p) (tail p) (slice (stop - tail p) (tail p) buffer).

Fixpoint rebuffer_all (buffer : list T) (pending : list (list T)) (ps : list request_plan) : result (list (list T)) :=
  match ps with
  | [] => Ok pending
  | p :: ps' => pending' ← rebuffer buffer pending p; rebuffer_all buffer pending' ps'
  end.

(** [_update_summaries] *)
Definition update_general (requests : list request_plan) (buf_len : Z) (starts counts slots : list Z)
    (toks : list T) (l : layer) : result layer :=
  match starts with
  | [] => Ok l
  | _ =>
      buffer ← assemble_all l toks (replicate (Z.to_nat buf_len) zero) requests;
      let live := map (fun n => 0 <? n) counts in
      let summ' := store_regions buffer starts counts slots live (summ l) in
      pend' ← rebuffer_all buffer (pend l) requests;
      mret (Layer pend' summ')
  end.

(** ** The decode path *)

(** The region of one request: the pending head, its token, and padding *)
Definition decode_region (l : layer) (toks : list T) (i head pending_in : Z) : result (list T) :=
  prow ← row_get (pend l) pending_in;
  tok ← row_get toks i;
  row_set (slice 0 head prow ++ replicate (Z.to_nat (region c - head)) zero) head tok.

Fixpoint decode_regions (l : layer) (toks : list T) (i : Z) (rows : list (Z * Z)) : result (list (list T)) :=
  match rows with
  | [] => Ok []
  | (head, pending_in) :: rows' =>
      b ← decode_region l toks i head pending_in;
      bs ← decode_regions l toks (i + 1) rows';
      mret (b :: bs)
  end.

(** [torch.where(tail_mask, buffer, pending[rows])] *)
Definition masked_row (pending : list (list T)) (tail : Z) (row : Z) (buffer : list T) : result (list T) :=
  old ← row_get pending row;
  mret (slice 0 tail buffer ++ drop (Z.to_nat tail) old).

Fixpoint masked_rows (pending : list (list T)) (rows : list (Z * Z * list T)) : result (list (Z * list T)) :=
  match rows with
  | [] => Ok []
  | (tail, row, buffer) :: rows' =>
      v ← masked_row pending tail row buffer;
      vs ← masked_rows pending rows';
      mret ((row, v) :: vs)
  end.

(** [pending[rows] = values] *)
Fixpoint scatter_rows (pending : list (list T)) (writes : list (Z * list T)) : result (list (list T)) :=
  match writes with
  | [] => Ok pending
  | (row, v) :: writes' => p ← row_set pending row v; scatter_rows p writes'
  end.

(** [_update_summaries_decode] *)
Definition update_decode (nd : Z) (f : decode_fields) (toks : list T) (l : layer) : result layer :=
  regions ← decode_regions l toks 0 (zip (d_head f) (d_pending_in f));
  let starts := map (fun i => i * region c) (zrange 0 nd) in
  let summ' := store_regions (concat regions) starts (d_counts f) (d_slots f) (d_live f) (summ l) in
  writes ← masked_rows (pend l) (zip (zip (d_tail f) (d_pending_out f)) regions);
  pend' ← scatter_rows (pend l) writes;
  mret (Layer pend' summ').

(** ** The verify path *)

(** The start of a request's buffer: the pending head and padding *)
Fixpoint verify_heads (l : layer) (nrm : Z) (rows : list (Z * Z)) : result (list T) :=
  match rows with
  | [] => Ok []
  | (head, pending_in) :: rows' =>
      prow ← row_get (pend l) pending_in;
      rest ← verify_heads l nrm rows';
      mret (slice 0 head prow ++ replicate (Z.to_nat (nrm * region c - head)) zero ++ rest)
  end.

(** [buffer.index_copy_(0, tok_buf, tokens)] *)
Fixpoint index_copy (buffer : list T) (writes : list (Z * T)) : result (list T) :=
  match writes with
  | [] => Ok buffer
  | (i, x) :: writes' => b ← row_set buffer i x; index_copy b writes'
  end.

(** [_update_summaries_spec] without the fused kernel *)
Definition update_verify (nd nt nrm : Z) (f : verify_fields) (toks : list T) (l : layer) : result layer :=
  heads ← verify_heads l nrm (zip (v_head f) (v_pending_in f));
  buffer ← index_copy (heads ++ replicate (Z.to_nat nt) zero) (zip (v_tok_buf f) toks);
  let starts := map (fun i => i * region c) (zrange 0 (nd * nrm)) in
  let summ' := store_regions buffer starts (v_counts f) (v_slots f) (v_live f) (summ l) in
  let by_region := map (fun g => slice (g * region c) (region c) buffer) (zrange 0 (nd * nrm)) in
  tails ← foldr (fun g acc => b ← row_get by_region g; bs ← acc; mret (b :: bs)) (Ok []) (v_tail_reg f);
  writes ← masked_rows (pend l) (zip (zip (v_tail f) (v_pending_out f)) tails);
  pend1 ← scatter_rows (pend l) writes;
  pend2 ← scatter_rows pend1 (zip (v_keep_rows f) by_region);
  mret (Layer pend2 summ').

(** ** The fused verify kernel *)

(** The token at place [off] of a request's buffer *)
Definition kernel_token (l : layer) (toks : list T) (nt head q_start q_len pending_in off : Z) : T :=
  let i := off - head in
  let tok := q_start + i in
  if (0 <=? i) && (i <? q_len) && (0 <=? tok) && (tok <? nt) then default zero (zget toks tok)
  else if off <? head then default zero (prow ← zget (pend l) pending_in; zget prow off)
  else zero.

(** The store of the first [n] tokens of a region into a row *)
Definition kernel_store (pending : list (list T)) (row n : Z) (values : list T) : list (list T) :=
  alter (fun old => slice 0 n values ++ drop (Z.to_nat n) old) (Z.to_nat row) pending.

(** [_spec_summaries_kernel], the program of region [g] *)
Definition summaries_program (nt nrm : Z) (f : verify_fields) (qsl : list Z) (toks : list T) (l : layer) (g : Z) : layer :=
  let req := g / nrm in
  let j := g mod nrm in
  let at_req (v : list Z) := default 0 (zget v req) in
  let head := at_req (v_head f) in
  let q_start := at_req qsl in
  let q_len := Z.max (default 0 (zget qsl (req + 1)) - q_start) 0 in
  let p_in := at_req (v_pending_in f) in
  let values := map (fun t => kernel_token l toks nt head q_start q_len p_in (j * region c + t)) (zrange 0 (region c)) in
  let summ' :=
    if default false (zget (v_live f) g)
    then <[default 0 (zget (v_slots f) g) := compress (slice 0 (default 0 (zget (v_counts f) g)) values)]> (summ l)
    else summ l in
  let pend1 :=
    if (g =? at_req (v_tail_reg f)) && negb (at_req (v_pending_out f) =? trash_row c)
    then kernel_store (pend l) (at_req (v_pending_out f)) (at_req (v_tail f)) values
    else pend l in
  let keep := default 0 (zget (v_keep_rows f) g) in
  let pend2 := if keep =? trash_row c then pend1 else kernel_store pend1 keep (region c) values in
  Layer pend2 summ'.

(** The programs of a launch, in the order the device runs them *)
Definition update_fused (order : list Z) (nt nrm : Z) (f : verify_fields) (qsl : list Z) (toks : list T) (l : layer) : layer :=
  foldl (summaries_program nt nrm f qsl toks) l order.

(** ** The layers of a step *)

(** The views [nd] requests, [nt] tokens wide of the state's buffers *)
Definition decode_view (nd : Z) (f : decode_fields) : decode_fields :=
  DecodeFields (prefix nd (d_head f)) (prefix nd (d_tail f)) (prefix nd (d_slots f)) (prefix nd (d_counts f))
    (prefix nd (d_live f)) (prefix nd (d_nscore f)) (prefix nd (d_pending_in f)) (prefix nd (d_pending_out f)).

Definition verify_view (nd nt nrm : Z) (f : verify_fields) : verify_fields :=
  VerifyFields (prefix nd (v_head f)) (prefix nd (v_tail f)) (prefix nd (v_pending_in f)) (prefix nd (v_pending_out f))
    (prefix nd (v_tail_reg f)) (prefix (nd * nrm) (v_counts f)) (prefix (nd * nrm) (v_slots f))
    (prefix (nd * nrm) (v_live f)) (prefix (nd * nrm) (v_keep_rows f)) (prefix nt (v_tok_buf f)) (prefix nt (v_tok_req f))
    (prefix nt (v_tok_seq f)) (prefix nt (v_tok_nscore f)).

(** [_SPEC_FUSED_SUMMARIES] and the order in which a launch of [n] programs
    runs *)
Context (fused : bool) (launch_order : Z -> list Z).

(** [_update_summaries]; [qsl] is [query_start_loc] *)
Definition update_verify_layer (nd nt nrm : Z) (f : verify_fields) (qsl : list Z) (toks : list T) (l : layer)
    : result layer :=
  if fused then Ok (update_fused (launch_order (nd * nrm)) nt nrm f qsl toks l)
  else update_verify nd nt nrm f toks l.

Definition update_layer (s : dsa_state) (b : schedule_body) (qsl : list Z) (toks : list T) (l : layer) : result layer :=
  match b with
  | General requests buf_len starts counts slots => update_general requests buf_len starts counts slots toks l
  | Decode nd f => update_decode nd f toks l
  | DecodeView nd => update_decode nd (decode_view nd (buf s)) toks l
  | Verify nd nt nrm f => update_verify_layer nd nt nrm f qsl toks l
  | VerifyView nd nt nrm =>
      match spec_buf s with
      | Some (_, f) => update_verify_layer nd nt nrm (verify_view nd nt nrm f) qsl toks l
      | None => Err (Exn TypeError "'NoneType' object is not subscriptable")
      end
  end.

(** The state of a model: the shared host state and its layers *)
Record dsa_model := Model {
  host : dsa_state;
  layers : list layer
}.

Definition on_host {A} (m : M dsa_state A) : M dsa_model A := fun w =>
  let '(r, s) := m (host w) in (r, Model s (layers w)).

(** [run], of the layer at place [i]: [toks] are its projected tokens *)
Definition run_layer (md : metadata) (i : Z) (toks : list T) : M dsa_model unit :=
  k ← on_host (schedule_for c md);
  w ← get_state;
  match schedules (host w) !! k with
  | None => raise AttributeError ""
  | Some sched =>
      l ← lift (row_get (layers w) i);
      l' ← lift (update_layer (host w) (body sched) (query_start_loc_cpu md) toks l);
      ls ← lift (row_set (layers w) i l');
      put_state (Model (host w) ls) ;;
      on_host (finish_layer c)
  end.

(** An eager forward pass: every layer in turn, each with its own tokens *)
Fixpoint run_layers (md : metadata) (i : Z) (toks : list (list T)) : M dsa_model unit :=
  match toks with
  | [] => mret tt
  | ts :: toks' => run_layer md i ts ;; run_layers md (i + 1) toks'
  end.

(** The replay of a graph captured [nd] requests and [nt] tokens wide: the
    kernels of every layer read the state's buffers, and no Python runs *)
Definition captured (b : schedule_body) (nd nt : Z) : schedule_body :=
  match b with
  | DecodeView _ => DecodeView nd
  | VerifyView _ _ nrm => VerifyView nd nt nrm
  | _ => b
  end.

Fixpoint replay_layers (s : dsa_state) (b : schedule_body) (qsl : list Z) (toks : list (list T)) (ls : list layer)
    : result (list layer) :=
  match toks, ls with
  | ts :: toks', l :: ls' =>
      l' ← update_layer s b qsl ts l;
      rest ← replay_layers s b qsl toks' ls';
      mret (l' :: rest)
  | _, _ => Ok ls
  end.

(** One step of the engine: an eager pass, a pass over a batch whose schedule
    the builder made, or a replay of a captured graph *)
Inductive step_kind :=
  | Eager
  | Built
  | Replay (width tokens : Z).

Definition engine_step (k : step_kind) (md : metadata) (qsl : list Z) (toks : list (list T)) : M dsa_model unit :=
  match k with
  | Eager => run_layers md 0 toks
  | Built => md' ← on_host (build c md); run_layers md' 0 toks
  | Replay width tokens =>
      md' ← on_host (build c md);
      w ← get_state;
      match i ← md_schedule md'; schedules (host w) !! i with
      | None => raise RuntimeError "CUDA graph capture reached the DSA indexer without a builder-supplied schedule"
      | Some sched =>
          ls ← lift (replay_layers (host w) (captured (body sched) width tokens) qsl toks (layers w));
          put_state (Model (host w) ls)
      end
  end.
End summary.
End DsaSummary.

(** ** The general path moves the right tokens

    [update_general] of DsaSummary.v on the schedule of right plans: every
    completed region is compressed from exactly its tokens and stored at its
    slot, and the rows of the plans get the tokens of their regions. *)

Module DsaSummaryCorrect.
Import DsaPending DsaPendingCorrect DsaSchedule DsaPlan DsaScheduleCorrect DsaSummary.

(** ** Slices *)

Section slices.
Context {A : Type}.
Implicit Types l : list A.

Lemma zlen_slice s n l : 0 <= s -> 0 <= n -> s + n <= zlen l -> zlen (slice s n l) = n.
Proof. intros. unfold slice, zlen in *. rewrite length_take, length_drop. lia. Qed.

Lemma slice_app_r k l1 l2 s n : zlen l1 = k -> 0 <= s -> slice (k + s) n (l1 ++ l2) = slice s n l2.
Proof.
  intros <- Hs. unfold slice, zlen. rewrite drop_app_ge by lia. f_equal. f_equal. lia.
Qed.

Lemma slice_app_l l1 l2 s n : 0 <= s -> 0 <= n -> s + n <= zlen l1 -> slice s n (l1 ++ l2) = slice s n l1.
Proof.
  intros Hs Hn Hl. unfold slice, zlen in *. rewrite drop_app_le by lia. rewrite take_app_le; [done|].
  rewrite length_drop. lia.
Qed.

Lemma slice_all l : slice 0 (zlen l) l = l.
Proof. unfold slice, zlen. rewrite Nat2Z.id. apply firstn_all. Qed.

Lemma slice_0_min l n : slice 0 n l = take (Z.to_nat n) l.
Proof. done. Qed.

Lemma splice_mid l1 l2 l3 src k : k = zlen l1 -> zlen src = zlen l2 ->
  splice (l1 ++ l2 ++ l3) k (zlen l2) src = Ok (l1 ++ src ++ l3).
Proof.
  intros -> Hl. unfold splice. pose proof (zlen_nonneg l1). pose proof (zlen_nonneg l3).
  rewrite !zlen_app. rewrite (proj2 (Z.leb_le 0 _)), (proj2 (Z.leb_le (_ + _) _)), Hl, Z.eqb_refl by lia. cbn.
  f_equal. unfold zlen. rewrite Nat2Z.id, take_app_length. f_equal. f_equal.
  rewrite app_assoc. rewrite drop_app_length'; [done|]. rewrite length_app. lia.
Qed.

Lemma zlen_replicate n (x : A) : 0 <= n -> zlen (replicate (Z.to_nat n) x) = n.
Proof. intros. unfold zlen. rewrite length_replicate. lia. Qed.

Lemma replicate_split n m (x : A) : 0 <= n -> 0 <= m ->
  replicate (Z.to_nat (n + m)) x = replicate (Z.to_nat n) x ++ replicate (Z.to_nat m) x.
Proof. intros. rewrite Z2Nat.inj_add by lia. apply replicate_add. Qed.
End slices.

Lemma zip_map_pair {X A B} (f : X -> A) (g : X -> B) l : zip (map f l) (map g l) = map (fun x => (f x, g x)) l.
Proof. induction l; cbn; [done|]. by f_equal. Qed.

Lemma zip_concat {X A B} (f : X -> list A) (g : X -> list B) l : (forall x, x ∈ l -> length (f x) = length (g x)) ->
  zip (concat (map f l)) (concat (map g l)) = concat (map (fun x => zip (f x) (g x)) l).
Proof.
  induction l as [|x l IH]; intros H; [done|]. cbn. rewrite zip_with_app by (apply H; left).
  f_equal. apply IH. intros y Hy. apply H. by right.
Qed.

(** ** Writes to the rows of a buffer *)

Section summary.
Context {T V : Type} (zero : T) (compress : list T -> V).
Context (c : config) (rpp : Z).
Context (Hregion : 0 < region c) (Hrpp : 0 < rpp).

Definition layer_ok (l : @layer T V) : Prop :=
  zlen (pend l) = max_pending c + 1 /\ Forall (fun row => zlen row = region c) (pend l).

(** The first tokens of a row *)
Definition write (pending : list (list T)) (w : Z * list T) : list (list T) :=
  alter (fun old => w.2 ++ drop (length w.2) old) (Z.to_nat w.1) pending.
Definition writes (ws : list (Z * list T)) (pending : list (list T)) : list (list T) := foldl write pending ws.

Lemma writes_app ws1 ws2 pending : writes (ws1 ++ ws2) pending = writes ws2 (writes ws1 pending).
Proof. apply foldl_app. Qed.

Lemma zget_write pending row vs r : 0 <= row ->
  zget (write pending (row, vs)) r =
  if decide (r = row) then (fun old => vs ++ drop (length vs) old) <$> zget pending r else zget pending r.
Proof.
  intros Hr. unfold write, zget. cbn. destruct (Z.ltb_spec r 0); [by rewrite decide_False by lia|].
  rewrite list_lookup_alter. repeat case_decide; subst; try done; lia.
Qed.

Lemma zget_writes_other ws pending r : Forall (fun w => 0 <= w.1) ws -> (r ∉ map fst ws) ->
  zget (writes ws pending) r = zget pending r.
Proof.
  intros Hpos. revert pending. induction Hpos as [|[row vs] ws Hr _ IH]; intros pending Hn; [done|].
  cbn [writes foldl]. fold (writes ws (write pending (row, vs))). cbn [map fst] in Hn.
  apply not_elem_of_cons in Hn as [Hne Hn]. rewrite IH by done. rewrite zget_write by done. by rewrite decide_False.
Qed.

Lemma zget_writes ws pending row vs old : Forall (fun w => 0 <= w.1) ws -> NoDup (map fst ws) -> (row, vs) ∈ ws ->
  zget pending row = Some old -> zget (writes ws pending) row = Some (vs ++ drop (length vs) old).
Proof.
  intros Hpos. revert pending. induction Hpos as [|[row' vs'] ws Hr Hpos IH]; intros pending Hnd Hin Hold.
  { by apply elem_of_nil in Hin. }
  cbn [map fst] in Hnd. apply NoDup_cons in Hnd as [Hn Hnd]. cbn [writes foldl]. fold (writes ws (write pending (row', vs'))).
  apply elem_of_cons in Hin as [[= -> ->]|Hin].
  - rewrite zget_writes_other by done. rewrite zget_write, decide_True by done. by rewrite Hold.
  - apply IH; [done..|]. rewrite zget_write by done. rewrite decide_False; [done|]. intros ->. apply Hn.
    apply list_elem_of_fmap. by exists (row', vs).
Qed.

Lemma writes_rows ws pending n : Forall (fun w => zlen w.2 <= n) ws ->
  Forall (fun row => zlen row = n) pending -> Forall (fun row => zlen row = n) (writes ws pending) /\
  zlen (writes ws pending) = zlen pending.
Proof.
  intros Hws. revert pending. induction Hws as [|w ws Hw _ IH]; intros pending Hp; [done|].
  cbn [writes foldl]. fold (writes ws (write pending w)).
  assert (Forall (fun row => zlen row = n) (write pending w)) as H1.
  { unfold write. apply Forall_alter; [done|]. intros old Hl Hold. unfold zlen in *.
    rewrite length_app, length_drop. cbn in Hold. lia. }
  destruct (IH _ H1) as [H2 H3]. split; [done|]. rewrite H3. unfold write, zlen. by rewrite length_alter.
Qed.

(** ** Insertions into the summaries *)

Definition sums (ss : list (Z * V)) (m : gmap Z V) : gmap Z V := foldl (fun m kv => <[kv.1 := kv.2]> m) m ss.

Lemma sums_app ss1 ss2 m : sums (ss1 ++ ss2) m = sums ss2 (sums ss1 m).
Proof. apply foldl_app. Qed.

Lemma lookup_sums_other ss m k : (k ∉ map fst ss) -> sums ss m !! k = m !! k.
Proof.
  revert m. induction ss as [|[k' v] ss IH]; intros m Hn; [done|]. cbn in *. fold (sums ss (<[k' := v]> m)).
  apply not_elem_of_cons in Hn as [Hne Hn]. rewrite IH by done. by rewrite lookup_insert_ne.
Qed.

Lemma lookup_sums ss m k v : NoDup (map fst ss) -> (k, v) ∈ ss -> sums ss m !! k = Some v.
Proof.
  revert m. induction ss as [|[k' v'] ss IH]; intros m Hnd Hin; [by apply elem_of_nil in Hin|].
  cbn in *. fold (sums ss (<[k' := v']> m)). apply NoDup_cons in Hnd as [Hn Hnd].
  apply elem_of_cons in Hin as [[= -> ->]|Hin]; [|by apply IH].
  rewrite lookup_sums_other by done. by rewrite lookup_insert_eq.
Qed.

(** ** Writing rows *)

Lemma row_set_write pending row v n : 0 <= row < zlen pending -> Forall (fun r => zlen r = n) pending -> zlen v = n ->
  row_set pending row v = Ok (write pending (row, v)).
Proof.
  intros Hr Hp Hv. rewrite row_set_in by done. f_equal. unfold write. cbn.
  apply list_eq. intros i. rewrite list_lookup_alter. destruct (decide (Z.to_nat row = i)) as [<-|Hne].
  - rewrite list_lookup_insert_eq by (unfold zlen in *; lia).
    destruct (lookup_lt_is_Some_2 pending (Z.to_nat row)) as [old Ho]; [unfold zlen in *; lia|]. rewrite Ho. cbn.
    rewrite Forall_lookup in Hp. specialize (Hp _ _ Ho). rewrite drop_ge by (unfold zlen in *; lia). by rewrite app_nil_r.
  - by rewrite list_lookup_insert_ne.
Qed.

Lemma write_row_write pending row n src k : 0 <= row < zlen pending -> Forall (fun r => zlen r = n) pending ->
  zlen src = k -> k <= n -> put_row pending row k src = Ok (write pending (row, src)).
Proof.
  intros Hr Hp Hsrc Hk. destruct (zget_is_Some pending row Hr) as [old Ho]. unfold put_row.
  rewrite (row_get_in _ _ _ Ho). cbn -[splice].
  assert (zlen old = n) as Hl by (rewrite Forall_forall in Hp; apply Hp; by eapply zget_elem).
  unfold splice. pose proof (zlen_nonneg src).
  rewrite Hsrc, Z.eqb_refl. destruct (Z.leb_spec (0 + k) (zlen old)); [|lia]. cbn -[Z.to_nat].
  replace (Z.to_nat (0 + k)) with (length src) by (unfold zlen in *; lia).
  rewrite row_set_in by done. f_equal. unfold write. cbn. apply list_eq. intros i. rewrite list_lookup_alter.
  destruct (decide (Z.to_nat row = i)) as [<-|Hne].
  - rewrite list_lookup_insert_eq by (unfold zlen in *; lia). unfold zget in Ho. destruct (Z.ltb_spec row 0); [lia|].
    by rewrite Ho.
  - by rewrite list_lookup_insert_ne.
Qed.

(** ** Entries *)

Abbreviation item_ok := (item_ok c rpp) (only parsing).
Abbreviation it_slot := (it_slot c rpp) (only parsing).

Section entries.
Context (l : @layer T V) (toks : list T).

(** The tokens of a request from the start of its first region *)
Definition buf_of (e : entry) : list T :=
  slice 0 (it_head c (e_item e)) (default [] (zget (pend l) (pl_in (e_plan e)))) ++ slice (e_tok e) (it_len (e_item e)) toks.

Definition region_of (buf : list T) (j : Z) : list T := slice (j * region c) (region c) buf.

Definition sums_of (e : entry) : list (Z * V) :=
  map (fun j => (it_slot (e_item e) j, compress (region_of (buf_of e) j))) (zrange 0 (it_closed c (e_item e))).

Definition tail_of (e : entry) : list T :=
  slice (it_closed c (e_item e) * region c) (it_tail c (e_item e)) (buf_of e).

Definition writes_of (e : entry) : list (Z * list T) :=
  zip (pl_keep (e_plan e)) (map (region_of (buf_of e)) (zrange 0 (kept_regions c (e_item e)))) ++
  (if it_tail c (e_item e) =? 0 then [] else [(pl_out (e_plan e), tail_of e)]).

Record entry_ok (t : pending_table) (e : entry) : Prop := EntryOk {
  entry_item : item_ok (e_item e);
  entry_plan : plan_ok c rpp t (e_item e) (e_plan e);
  entry_toks : 0 <= e_tok e /\ e_tok e + it_len (e_item e) <= zlen toks
}.

Context (t : pending_table).
Context (Hl : layer_ok l) (Ht : table_ok t) (Hcap : capacity t = max_pending c).

Lemma held_row slot row : held t slot row -> exists prow, zget (pend l) row = Some prow /\ zlen prow = region c.
Proof using Hl Ht Hcap.
  intros [Hm _]. destruct (mapped_row _ _ _ Ht Hm) as (_ & Hr & _). destruct Hl as [H1 H2].
  destruct (zget_is_Some (pend l) row) as [prow Hp]; [lia|]. exists prow. split; [done|].
  rewrite Forall_forall in H2. apply H2. by eapply zget_elem.
Qed.

Lemma zlen_head e : entry_ok t e -> zlen (slice 0 (it_head c (e_item e)) (default [] (zget (pend l) (pl_in (e_plan e))))) = it_head c (e_item e).
Proof using Hl Ht Hcap Hregion.
  intros [Hit Hpl _]. pose proof (head_range c Hregion (e_item e)).
  destruct (decide (it_head c (e_item e) = 0)) as [E|E]; [by rewrite E|].
  destruct (held_row _ _ (plan_in _ _ _ _ _ Hpl E)) as (prow & -> & Hn). cbn. rewrite zlen_slice; lia.
Qed.

Lemma zlen_buf e : entry_ok t e -> zlen (buf_of e) = it_nbuf c (e_item e).
Proof using Hl Ht Hcap Hregion.
  intros He. unfold buf_of. rewrite zlen_app, (zlen_head e He). destruct He as [Hit _ [H1 H2]].
  pose proof (item_len _ _ _ Hit). rewrite zlen_slice by lia. done.
Qed.

Lemma zlen_region e j : entry_ok t e -> 0 <= j < it_closed c (e_item e) -> zlen (region_of (buf_of e) j) = region c.
Proof using Hl Ht Hcap Hregion.
  intros He Hj. unfold region_of. pose proof (zlen_buf e He). pose proof (nbuf_split c Hregion (e_item e)).
  pose proof (tail_range c Hregion (e_item e)). apply zlen_slice; nia.
Qed.

Lemma zlen_tail e : entry_ok t e -> zlen (tail_of e) = it_tail c (e_item e).
Proof using Hl Ht Hcap Hregion.
  intros He. unfold tail_of. pose proof (zlen_buf e He). pose proof (nbuf_split c Hregion (e_item e)).
  pose proof (tail_range c Hregion (e_item e)). destruct He as [Hit _ _]. pose proof (closed_nonneg c rpp Hregion _ Hit).
  apply zlen_slice; nia.
Qed.

(** ** Assembling the buffer *)

Fixpoint placed (k : Z) (es : list entry) : Prop :=
  match es with
  | [] => True
  | e :: es' => e_buf e = k /\ placed (k + it_nbuf c (e_item e)) es'
  end.

Definition nbuf_sum (es : list entry) : Z := zsum (map (fun e => it_nbuf c (e_item e)) es).

Lemma nbuf_sum_nonneg es : Forall (entry_ok t) es -> 0 <= nbuf_sum es.
Proof using Hregion.
  induction 1 as [|e es [Hit _ _] _ IH]; [done|]. unfold nbuf_sum in *. cbn. pose proof (nbuf_pos c rpp Hregion _ Hit).
  unfold zsum in IH. lia.
Qed.

Lemma assemble_eq e before after : entry_ok t e -> zlen before = e_buf e -> 0 <= after ->
  assemble l toks (before ++ replicate (Z.to_nat (it_nbuf c (e_item e) + after)) zero) (scored c rpp e) =
  Ok ((before ++ buf_of e) ++ replicate (Z.to_nat after) zero).
Proof using Hl Ht Hcap Hregion.
  intros He Hb Hafter. pose proof (head_range c Hregion (e_item e)) as Hh. pose proof (zlen_head e He) as Hzh.
  pose proof He as [Hit Hpl [Ht1 Ht2]]. pose proof (item_len _ _ _ Hit) as Hlen.
  unfold it_nbuf. rewrite <- Z.add_assoc, !replicate_split by lia.
  unfold assemble. cbn [head pending_row_in buf_start qlen tok_start scored entry_plan_row].
  set (hz := replicate (Z.to_nat (it_head c (e_item e))) zero). set (lz := replicate (Z.to_nat (it_len (e_item e))) zero).
  assert (zlen hz = it_head c (e_item e)) as Hhz by (apply zlen_replicate; lia).
  assert (zlen lz = it_len (e_item e)) as Hlz by (apply zlen_replicate; lia).
  set (hd := slice 0 (it_head c (e_item e)) (default [] (zget (pend l) (pl_in (e_plan e))))).
  assert ((if it_head c (e_item e) =? 0 then mret (before ++ hz ++ lz ++ replicate (Z.to_nat after) zero)
           else prow ← row_get (pend l) (pl_in (e_plan e));
                splice (before ++ hz ++ lz ++ replicate (Z.to_nat after) zero) (e_buf e) (it_head c (e_item e))
                  (slice 0 (it_head c (e_item e)) prow)) =
          Ok (before ++ hd ++ lz ++ replicate (Z.to_nat after) zero)) as Hhead.
  { destruct (Z.eqb_spec (it_head c (e_item e)) 0) as [E|E].
    - unfold hz, hd. by rewrite E.
    - destruct (held_row _ _ (plan_in _ _ _ _ _ Hpl E)) as (prow & Hprow & Hn). unfold hd.
      rewrite (row_get_in _ _ _ Hprow), Hprow. cbn -[splice]. rewrite <- Hhz at 1. apply splice_mid; [done|].
      rewrite Hhz. by rewrite zlen_slice by lia. }
  match goal with |- context [mbind _ ?m] => replace m with
    (Ok (before ++ hd ++ lz ++ replicate (Z.to_nat after) zero)) by (symmetry; exact Hhead) end.
  cbn -[splice]. rewrite app_assoc. rewrite <- Hlz at 1. rewrite splice_mid.
  - unfold buf_of. fold hd. by rewrite <- !app_assoc.
  - rewrite zlen_app. unfold hd. lia.
  - rewrite Hlz. apply zlen_slice; lia.
Qed.

Lemma assemble_all_eq es : forall before, Forall (entry_ok t) es -> placed (zlen before) es ->
  assemble_all l toks (before ++ replicate (Z.to_nat (nbuf_sum es)) zero) (map (scored c rpp) es) =
  Ok (before ++ concat (map buf_of es)).
Proof using Hl Ht Hcap Hregion.
  induction es as [|e es IH]; intros before Hes Hp; [done|].
  apply Forall_cons in Hes as [He Hes]. destruct Hp as [Hb Hp]. cbn [map assemble_all concat].
  change (nbuf_sum (e :: es)) with (it_nbuf c (e_item e) + nbuf_sum es).
  rewrite assemble_eq by (done || by apply nbuf_sum_nonneg). cbn -[assemble_all].
  rewrite IH; [by rewrite <- app_assoc|done|]. rewrite zlen_app, (zlen_buf e He). done.
Qed.

(** A slice of the buffer inside the tokens of a request *)
Lemma slice_buffer es e x n : Forall (entry_ok t) es -> placed 0 es -> e ∈ es ->
  0 <= x -> 0 <= n -> x + n <= it_nbuf c (e_item e) ->
  slice (e_buf e + x) n (concat (map buf_of es)) = slice x n (buf_of e).
Proof using Hl Ht Hcap Hregion.
  enough (forall before k, zlen before = k -> Forall (entry_ok t) es -> placed k es -> e ∈ es ->
    0 <= x -> 0 <= n -> x + n <= it_nbuf c (e_item e) ->
    slice (e_buf e + x) n (before ++ concat (map buf_of es)) = slice x n (buf_of e)) as H.
  { intros. by apply (H [] 0). }
  induction es as [|e' es IH]; intros before k Hk Hes Hp Hin Hx Hn Hlt; [by apply elem_of_nil in Hin|].
  apply Forall_cons in Hes as [He' Hes]. destruct Hp as [Hb Hp]. cbn [map concat].
  apply elem_of_cons in Hin as [->|Hin].
  - rewrite (slice_app_r (e_buf e')) by lia. apply slice_app_l; try done. by rewrite (zlen_buf e' He').
  - rewrite app_assoc. eapply IH; try done. rewrite zlen_app, (zlen_buf e' He'). by rewrite Hk.
Qed.

(** ** Rows written *)

Lemma writes_of_rows e : entry_ok t e -> Forall (fun w => 0 <= w.1 < max_pending c /\ zlen w.2 <= region c) (writes_of e).
Proof using Hl Ht Hcap Hregion.
  intros He. pose proof He as [Hit Hpl _]. unfold writes_of. apply Forall_app. split.
  - apply Forall_forall. intros [row vs] Hw. cbn.
    apply list_elem_of_lookup in Hw as [i Hi]. apply lookup_zip_Some in Hi as [Hk Hv].
    pose proof (lookup_lt_Some _ _ _ Hk) as Hlt. pose proof (plan_keep _ _ _ _ _ Hpl) as Hkl.
    assert (held t (it_slot (e_item e) (Z.of_nat i)) row) as [Hm _].
    { apply (plan_kept _ _ _ _ _ Hpl). by rewrite zget_nat. }
    destruct (mapped_row _ _ _ Ht Hm) as (_ & Hr & _). split; [lia|].
    rewrite list_lookup_fmap in Hv. destruct (zrange _ _ !! i) as [j|] eqn:Hj; [|done]. injection Hv as <-.
    apply lookup_seqZ in Hj as [-> Hj]. cbn.
    rewrite (zlen_region e); [lia|done|]. unfold kept_regions in Hj. case_match; lia.
  - destruct (Z.eqb_spec (it_tail c (e_item e)) 0) as [E|E]; [constructor|]. apply Forall_singleton. cbn.
    destruct (plan_out _ _ _ _ _ Hpl E) as [Hm _]. destruct (mapped_row _ _ _ Ht Hm) as (_ & Hr & _).
    rewrite (zlen_tail e He). pose proof (tail_range c Hregion (e_item e)). lia.
Qed.

Lemma keep_regions_eq B e : entry_ok t e ->
  (forall x n, 0 <= x -> 0 <= n -> x + n <= it_nbuf c (e_item e) -> slice (e_buf e + x) n B = slice x n (buf_of e)) ->
  forall keep j k pending, Forall (fun row => 0 <= row < zlen pending) keep -> zlen keep = k -> 0 <= j ->
  j + k <= it_closed c (e_item e) -> Forall (fun r => zlen r = region c) pending ->
  keep_regions c B pending (zip keep (map (fun i => e_buf e + i * region c) (zrange j k))) =
  Ok (writes (zip keep (map (region_of (buf_of e)) (zrange j k))) pending).
Proof using Hl Ht Hcap Hregion.
  intros He HB. induction keep as [|row keep IH]; intros j k pending Hrows Hk Hj Hc Hp; [done|].
  apply Forall_cons in Hrows as [Hr Hrows]. rewrite zlen_cons in Hk. pose proof (zlen_nonneg keep).
  rewrite zrange_open by lia. cbn [map zip zip_with keep_regions].
  assert (slice (e_buf e + j * region c) (region c) B = region_of (buf_of e) j) as ->.
  { unfold region_of. apply HB; try nia. pose proof (nbuf_split c Hregion (e_item e)).
    pose proof (tail_range c Hregion (e_item e)). nia. }
  rewrite (row_set_write _ _ _ (region c)); [|done|done|apply zlen_region; [done|lia]].
  cbn -[keep_regions]. destruct (writes_rows [(row, region_of (buf_of e) j)] pending (region c)) as [H1 H2]; [|done|].
  { apply Forall_singleton. cbn. rewrite (zlen_region e); [lia|done|lia]. }
  cbn [writes foldl] in H1, H2.
  rewrite IH; [done| |lia|lia|lia|done]. eapply Forall_impl; [exact Hrows|]. intros r. by rewrite H2.
Qed.

Lemma rebuffer_eq B e pending : entry_ok t e -> zlen pending = max_pending c + 1 -> Forall (fun r => zlen r = region c) pending ->
  (forall x n, 0 <= x -> 0 <= n -> x + n <= it_nbuf c (e_item e) -> slice (e_buf e + x) n B = slice x n (buf_of e)) ->
  rebuffer c B pending (scored c rpp e) = Ok (writes (writes_of e) pending).
Proof using Hl Ht Hcap Hregion.
  intros He Hz Hp HB. pose proof He as [Hit Hpl _]. pose proof (writes_of_rows e He) as Hw. unfold writes_of in *.
  apply Forall_app in Hw as [Hw1 Hw2]. pose proof (plan_keep _ _ _ _ _ Hpl) as Hkl.
  pose proof (closed_nonneg c rpp Hregion _ Hit). pose proof (nbuf_split c Hregion (e_item e)).
  unfold rebuffer. cbn [keep_rows tail buf_start head qlen pending_row_out scored entry_plan_row].
  rewrite (keep_regions_eq B e He HB); try done; try lia.
  2:{ apply Forall_forall. intros row Hrow. apply elem_zget in Hrow as [i Hi].
      destruct (plan_kept _ _ _ _ _ Hpl _ _ Hi) as [Hm _]. destruct (mapped_row _ _ _ Ht Hm) as (_ & Hr & _). lia. }
  2:{ unfold kept_regions. destruct (may_roll_back c (it_len (e_item e))); lia. }
  cbn -[put_row]. rewrite writes_app. destruct (Z.eqb_spec (it_tail c (e_item e)) 0) as [E|E]; [done|].
  apply Forall_singleton in Hw2 as [Hr Hn]. cbn in Hr, Hn.
  destruct (writes_rows (zip (pl_keep (e_plan e)) (map (region_of (buf_of e)) (zrange 0 (kept_regions c (e_item e))))) pending (region c)) as [H1 H2]; [|done|].
  { eapply Forall_impl; [exact Hw1|]. by intros ? []. }
  assert (slice (e_buf e + it_head c (e_item e) + it_len (e_item e) - it_tail c (e_item e)) (it_tail c (e_item e)) B = tail_of e) as ->.
  { unfold tail_of. rewrite <- HB.
    - f_equal. unfold it_nbuf in *. lia.
    - nia.
    - pose proof (tail_range c Hregion (e_item e)). lia.
    - unfold it_nbuf in *. lia. }
  apply (write_row_write _ _ (region c)); [lia|done|by apply zlen_tail|]. rewrite <- (zlen_tail e He). done.
Qed.

Lemma rebuffer_all_eq B es : Forall (entry_ok t) es ->
  (forall e x n, e ∈ es -> 0 <= x -> 0 <= n -> x + n <= it_nbuf c (e_item e) -> slice (e_buf e + x) n B = slice x n (buf_of e)) ->
  forall pending, zlen pending = max_pending c + 1 -> Forall (fun r => zlen r = region c) pending ->
  rebuffer_all c B pending (map (scored c rpp) es) = Ok (writes (concat (map writes_of es)) pending).
Proof using Hl Ht Hcap Hregion.
  induction 1 as [|e es He Hes IH]; intros HB pending Hz Hp; [done|]. cbn [map rebuffer_all concat].
  rewrite (rebuffer_eq B e); [|done..|intros; apply HB; [left|done..]]. cbn -[rebuffer_all]. rewrite writes_app.
  destruct (writes_rows (writes_of e) pending (region c)) as [H1 H2]; [|done|].
  { eapply Forall_impl; [exact (writes_of_rows e He)|]. by intros ? []. }
  apply IH; [|lia|done]. intros e' x n Hin. apply HB. by right.
Qed.

(** ** Regions compressed *)

Lemma store_regions_eq B es m : Forall (entry_ok t) es ->
  (forall e x n, e ∈ es -> 0 <= x -> 0 <= n -> x + n <= it_nbuf c (e_item e) -> slice (e_buf e + x) n B = slice x n (buf_of e)) ->
  let counts := concat (map (fun e => counts_of c (e_item e)) es) in
  store_regions compress B (concat (map (starts_of c) es)) counts (concat (map (fun e => it_slots c rpp (e_item e)) es))
    (map (fun n => 0 <? n) counts) m = sums (concat (map sums_of es)) m.
Proof using Hl Ht Hcap Hregion.
  intros Hes HB counts. unfold counts, store_regions. rewrite concat_map, map_map.
  clear counts.
  rewrite zip_concat by (intros e _; unfold starts_of, counts_of; by rewrite !length_map).
  rewrite zip_concat.
  2:{ intros e _. unfold starts_of, counts_of, it_slots. rewrite zip_map_pair. by rewrite !length_map. }
  rewrite zip_concat.
  2:{ intros e _. unfold starts_of, counts_of, it_slots. rewrite !zip_map_pair. by rewrite !length_map. }
  revert m. induction Hes as [|e es He Hes IH]; intros m; [done|]. cbn [map concat]. rewrite foldl_app, sums_app.
  rewrite <- IH by (intros; apply HB; [by right|done..]). f_equal. clear IH.
  unfold starts_of, counts_of, it_slots, sums_of. rewrite map_map, !zip_map_pair.
  pose proof He as [Hit _ _]. pose proof (closed_nonneg c rpp Hregion _ Hit) as Hc0.
  pose proof (nreg_split c Hregion (e_item e)) as Hn. pose proof (nbuf_split c Hregion (e_item e)).
  pose proof (tail_range c Hregion (e_item e)).
  replace (it_nreg c (e_item e)) with (it_closed c (e_item e) + (if it_tail c (e_item e) =? 0 then 0 else 1)) by lia.
  rewrite zrange_app by (case_match; lia). rewrite map_app, foldl_app.
  replace (foldl _ _ (map _ (zrange (0 + it_closed c (e_item e)) _))) with
    (foldl (store_region compress B) m (map (fun j => (e_buf e + j * region c, region c, it_slot (e_item e) j, true)) (zrange 0 (it_closed c (e_item e))))).
  - unfold sums. assert (Forall (fun j => 0 <= j < it_closed c (e_item e)) (zrange 0 (it_closed c (e_item e)))) as Hall
      by (apply Forall_forall; intros j Hj%elem_zrange; lia).
    clear Hn. revert m. induction Hall as [|j js Hj _ IH]; intros m; [done|]. cbn [map foldl store_region fst snd].
    rewrite HB; [|left|nia|lia|nia]. apply IH.
  - assert (forall j, it_closed c (e_item e) <= j -> (j <? it_closed c (e_item e)) = false) as Hge by (intros; by apply Z.ltb_ge).
    assert (map (fun j => (e_buf e + j * region c, if j <? it_closed c (e_item e) then region c else 0, it_slot (e_item e) j,
        0 <? (if j <? it_closed c (e_item e) then region c else 0))) (zrange 0 (it_closed c (e_item e))) =
      map (fun j => (e_buf e + j * region c, region c, it_slot (e_item e) j, true)) (zrange 0 (it_closed c (e_item e)))) as ->.
    { apply list_fmap_ext. intros i j Hj. apply lookup_seqZ in Hj as [-> Hj]. destruct (Z.ltb_spec (0 + Z.of_nat i) (it_closed c (e_item e))); [|lia].
      by rewrite (proj2 (Z.ltb_lt 0 (region c)) Hregion). }
    set (j0 := 0 + it_closed c (e_item e)). assert (it_closed c (e_item e) <= j0) as Hj0 by lia.
    destruct (it_tail c (e_item e) =? 0); [by rewrite (zrange_nil j0 0) by lia|].
    rewrite (zrange_open j0 1), (zrange_nil (j0 + 1)) by lia. cbn [map foldl]. unfold store_region at 2.
    by rewrite Hge.
Qed.

(** ** The update *)

Theorem update_general_eq es : Forall (entry_ok t) es -> placed 0 es ->
  let g := gathered_of c rpp es in
  update_general zero compress c (map (scored c rpp) es) (g_buf g) (g_starts g) (g_counts g) (g_slots g) toks l =
  Ok (Layer (writes (concat (map writes_of es)) (pend l)) (sums (concat (map sums_of es)) (summ l))).
Proof using Hl Ht Hcap Hregion.
  intros Hes Hp. cbn [g_buf g_starts g_counts g_slots gathered_of]. unfold update_general.
  destruct es as [|e es']; [by destruct l|]. set (es := e :: es') in *.
  assert (concat (map (starts_of c) es) <> []) as Hne.
  { inversion Hes as [|? ? He]. destruct He as [Hit _ _]. pose proof (nreg_pos c rpp Hregion _ Hit).
    cbn. unfold starts_of at 1. by rewrite zrange_open by lia. }
  destruct (concat (map (starts_of c) es)) as [|x xs] eqn:E; [done|]. rewrite <- E. clear Hne E x xs.
  pose proof (assemble_all_eq es [] Hes Hp) as Ha. cbn [app] in Ha. unfold nbuf_sum in Ha. rewrite Ha.
  assert (forall e x n, e ∈ es -> 0 <= x -> 0 <= n -> x + n <= it_nbuf c (e_item e) ->
    slice (e_buf e + x) n (concat (map buf_of es)) = slice x n (buf_of e)) as HB by (intros; by apply slice_buffer).
  clearbody es. cbn [mbind result_bind]. pose proof Hl as [H1 H2]. rewrite rebuffer_all_eq by done.
  cbn [mbind result_bind]. by rewrite store_regions_eq.
Qed.

(** ** What an update does

    The rows of the plans start with the tokens of their regions, the
    completed regions have their summaries, and nothing else has changed but
    the trash row. *)

Record updated (es : list entry) (l' : @layer T V) : Prop := Updated {
  upd_ok : layer_ok l';
  upd_rows : forall row vs, (row, vs) ∈ concat (map writes_of es) -> exists rest, zget (pend l') row = Some (vs ++ rest);
  upd_other : forall row, row <> trash_row c -> (row ∉ map fst (concat (map writes_of es))) ->
    zget (pend l') row = zget (pend l) row;
  upd_sums : forall slot v, (slot, v) ∈ concat (map sums_of es) -> summ l' !! slot = Some v;
  upd_old : forall slot, (slot ∉ map fst (concat (map sums_of es))) -> summ l' !! slot = summ l !! slot
}.

(** The slots whose rows an entry writes *)
Definition targets (e : entry) : list Z :=
  map (it_slot (e_item e)) (zrange 0 (kept_regions c (e_item e))) ++
  (if it_tail c (e_item e) =? 0 then [] else [it_slot (e_item e) (it_nreg c (e_item e) - 1)]).

Lemma targets_sublist e : entry_ok t e -> targets e `sublist_of` it_slots c rpp (e_item e).
Proof using Hregion.
  intros [Hit _ _]. unfold targets, it_slots. pose proof (nreg_split c Hregion (e_item e)) as Hn.
  pose proof (closed_nonneg c rpp Hregion _ Hit). assert (kept_regions c (e_item e) <= it_closed c (e_item e)) as Hk.
  { unfold kept_regions. destruct (may_roll_back c (it_len (e_item e))); lia. }
  assert (0 <= kept_regions c (e_item e)) as Hk0.
  { unfold kept_regions. destruct (may_roll_back c (it_len (e_item e))); lia. }
  destruct (Z.eqb_spec (it_tail c (e_item e)) 0) as [E|E].
  - rewrite app_nil_r. replace (it_nreg c (e_item e)) with (kept_regions c (e_item e) + (it_nreg c (e_item e) - kept_regions c (e_item e))) by lia.
    rewrite zrange_app by lia. rewrite map_app. by apply sublist_inserts_r.
  - replace (it_nreg c (e_item e)) with (kept_regions c (e_item e) + ((it_nreg c (e_item e) - 1 - kept_regions c (e_item e)) + 1)) at 2 by lia.
    rewrite zrange_app, map_app by lia. apply sublist_app; [done|]. rewrite zrange_app, map_app by lia.
    apply sublist_inserts_l. rewrite zrange_open, zrange_nil by lia. cbn [map].
    replace (0 + kept_regions c (e_item e) + (it_nreg c (e_item e) - 1 - kept_regions c (e_item e))) with (it_nreg c (e_item e) - 1) by lia. done.
Qed.

Lemma targets_held e : entry_ok t e -> Forall2 (fun slot w => held t slot w.1) (targets e) (writes_of e).
Proof using Hregion.
  intros [Hit Hpl _]. unfold targets, writes_of. pose proof (plan_keep _ _ _ _ _ Hpl) as Hk. apply Forall2_app.
  - apply Forall2_lookup. intros i. rewrite list_lookup_fmap, lookup_zip_with, list_lookup_fmap.
    destruct (zrange 0 (kept_regions c (e_item e)) !! i) as [j|] eqn:Hj; cbn.
    + apply lookup_seqZ in Hj as [-> Hj].
      destruct (zget_is_Some (pl_keep (e_plan e)) (Z.of_nat i)) as [row Hrow]; [lia|].
      rewrite zget_nat in Hrow. rewrite Hrow. cbn. constructor. cbn.
      apply (plan_kept _ _ _ _ _ Hpl). by rewrite Z.add_0_l, zget_nat.
    + destruct (pl_keep (e_plan e) !! i); cbn; constructor.
  - destruct (Z.eqb_spec (it_tail c (e_item e)) 0) as [E|E]; [constructor|]. constructor; [|constructor].
    by apply (plan_out _ _ _ _ _ Hpl).
Qed.

Lemma concat_sublist {X} (f g : entry -> list X) es : Forall (fun e => f e `sublist_of` g e) es ->
  concat (map f es) `sublist_of` concat (map g es).
Proof. induction 1; cbn; [done|]. by apply sublist_app. Qed.

Lemma Forall2_concat_entries {X Y} (P : X -> Y -> Prop) (f : entry -> list X) (g : entry -> list Y) es :
  Forall (fun e => Forall2 P (f e) (g e)) es -> Forall2 P (concat (map f es)) (concat (map g es)).
Proof. induction 1; cbn; [constructor|]. by apply Forall2_app. Qed.

Lemma held_nodup slots (ws : list (Z * list T)) : Forall2 (fun slot w => held t slot w.1) slots ws -> NoDup slots -> NoDup (map fst ws).
Proof using Ht.
  induction 1 as [|slot w slots ws Hh Hall IH]; intros Hnd; [constructor|]. apply NoDup_cons in Hnd as [Hn Hnd].
  cbn. apply NoDup_cons. split; [|by apply IH]. intros (w' & E & Hw')%list_elem_of_fmap.
  apply list_elem_of_lookup in Hw' as [i Hi]. destruct (Forall2_lookup_r _ _ _ _ _ Hall Hi) as (slot' & Hs & Hh').
  rewrite <- E in Hh'. apply Hn. destruct (decide (slot = slot')) as [->|Hne]; [by eapply list_elem_of_lookup_2|].
  by destruct (held_inj t slot slot' w.1 w.1 Ht (proj1 Hh) (proj1 Hh') Hne).
Qed.

Definition slots_distinct (es : list entry) : Prop := NoDup (concat (map (fun e => it_slots c rpp (e_item e)) es)).

Lemma writes_nodup es : Forall (entry_ok t) es -> slots_distinct es -> NoDup (map fst (concat (map writes_of es))).
Proof using Ht Hregion.
  intros Hes Hs. apply (held_nodup (concat (map targets es))).
  - apply Forall2_concat_entries. eapply Forall_impl; [exact Hes|]. apply targets_held.
  - eapply sublist_NoDup; [exact Hs|]. apply concat_sublist. eapply Forall_impl; [exact Hes|]. apply targets_sublist.
Qed.

Lemma sums_nodup es : Forall (entry_ok t) es -> slots_distinct es -> NoDup (map fst (concat (map sums_of es))).
Proof using Hregion.
  intros Hes Hs. eapply sublist_NoDup; [exact Hs|]. rewrite concat_map, map_map. apply concat_sublist.
  eapply Forall_impl; [exact Hes|]. intros e [Hit _ _]. unfold sums_of, it_slots. rewrite map_map. cbn.
  pose proof (closed_le_nreg c rpp Hregion _ Hit). pose proof (closed_nonneg c rpp Hregion _ Hit).
  replace (it_nreg c (e_item e)) with (it_closed c (e_item e) + (it_nreg c (e_item e) - it_closed c (e_item e))) by lia.
  rewrite zrange_app, map_app by lia. by apply sublist_inserts_r.
Qed.

Lemma all_writes_rows es : Forall (entry_ok t) es ->
  Forall (fun w => 0 <= w.1 < max_pending c /\ zlen w.2 <= region c) (concat (map writes_of es)).
Proof using Hl Ht Hcap Hregion Hrpp.
  intros Hes. apply Forall_concat, Forall_fmap. eapply Forall_impl; [exact Hes|]. apply writes_of_rows.
Qed.

(** An update that makes some writes with the elements of the plans' *)
Lemma updated_writes es ws ss l' : Forall (entry_ok t) es -> slots_distinct es ->
  NoDup (map fst ws) -> NoDup (map fst ss) -> ws ≡ₚ concat (map writes_of es) -> ss ≡ₚ concat (map sums_of es) ->
  layer_ok l' -> (forall row, row <> trash_row c -> zget (pend l') row = zget (writes ws (pend l)) row) ->
  summ l' = sums ss (summ l) -> updated es l'.
Proof using Hl Ht Hcap Hregion Hrpp.
  intros Hes Hs Hnw Hns Hw Hss Hok Hp Hsum. pose proof (all_writes_rows es Hes) as Hrows. rewrite <- Hw in Hrows.
  assert (Forall (fun w => 0 <= w.1) ws) as Hpos by (eapply Forall_impl; [exact Hrows|]; cbn; lia).
  split; [done| | | |].
  - intros row vs Hin. rewrite <- Hw in Hin. rewrite Forall_forall in Hrows. destruct (Hrows _ Hin) as [Hr _]. cbn in Hr.
    destruct Hl as [H1 _]. destruct (zget_is_Some (pend l) row) as [old Ho]; [lia|].
    rewrite Hp by (unfold trash_row; lia). rewrite (zget_writes ws (pend l) row vs old Hpos Hnw Hin Ho). by eexists.
  - intros row Hne Hn. rewrite Hp by done. apply zget_writes_other; [done|]. by rewrite Hw.
  - intros slot v Hin. rewrite Hsum. apply lookup_sums; [done|]. by rewrite Hss.
  - intros slot Hn. rewrite Hsum. apply lookup_sums_other. by rewrite Hss.
Qed.

(** Writes in any order *)
Lemma updated_perm es ws ss : Forall (entry_ok t) es -> slots_distinct es ->
  ws ≡ₚ concat (map writes_of es) -> ss ≡ₚ concat (map sums_of es) ->
  updated es (Layer (writes ws (pend l)) (sums ss (summ l))).
Proof using Hl Ht Hcap Hregion Hrpp.
  intros Hes Hs Hw Hss. eapply updated_writes; try done; [rewrite Hw; by apply writes_nodup|rewrite Hss; by apply sums_nodup|].
  pose proof Hl as [H1 H2]. destruct (writes_rows ws (pend l) (region c)) as [H3 H4]; [|done|].
  - rewrite Hw. eapply Forall_impl; [exact (all_writes_rows es Hes)|]. by intros ? [].
  - split; cbn; [lia|done].
Qed.

Lemma updated_eq es : Forall (entry_ok t) es -> slots_distinct es ->
  updated es (Layer (writes (concat (map writes_of es)) (pend l)) (sums (concat (map sums_of es)) (summ l))).
Proof using Hl Ht Hcap Hregion Hrpp. intros. by apply updated_perm. Qed.
End entries.
End summary.
End DsaSummaryCorrect.
