(* ===== verification/DsaDecodeCorrect.v ===== *)
(** * The decode path is the general one

    [decode_schedule] of DsaSchedule.v plans every request of a batch with one
    token each, and [update_decode] of DsaSummary.v makes the writes of the
    plans, eagerly or from the persistent buffers at any captured width. *)

From S2P Require Import Prelude Tensors DsaPending DsaSchedule DsaScheduleCorrect DsaSummary.
Local Open Scope Z_scope.

Module DsaDecodeCorrect.
Import DsaPending DsaPendingCorrect DsaSchedule DsaPlan DsaScheduleCorrect DsaSummary DsaSummaryCorrect.

Lemma collect_map {S X Y B} (g : X -> Y) (f : Y -> M S B) xs : collect (map g xs) f = collect xs (fun x => f (g x)).
Proof. induction xs as [|x xs IH]; [done|]. cbn [map collect]. by rewrite IH. Qed.

Lemma zip_map_r {A B C} (f : B -> C) (l : list A) (k : list B) : zip l (map f k) = map (fun p => (p.1, f p.2)) (zip l k).
Proof. revert k. induction l as [|x l IH]; intros [|y k]; cbn; [done..|]. by rewrite IH. Qed.

Section decode.
Context (c : config) (rpp : Z).
Context (Hregion : 0 < region c) (Hrpp : 0 < rpp).

Abbreviation item_ok := (item_ok c rpp) (only parsing).
Abbreviation it_slot := (it_slot c rpp) (only parsing).
Abbreviation it_head := (it_head c) (only parsing).
Abbreviation it_tail := (it_tail c) (only parsing).
Abbreviation it_closed := (it_closed c) (only parsing).

(** ** Batches of one token per request *)

Definition row_seq (r : option item) : Z := match r with Some it => it_past it + it_len it | None => 0 end.

(** The pages of a row; those of padding are not read further than the first *)
Definition row_pages (r : option item) (pages : list Z) : Prop :=
  match r with Some it => it_pages it `prefix_of` pages | None => pages <> [] end.

Record describes_decode (md : metadata) (rows : list (option item)) : Prop := DescribesDecode {
  dd_count : num_decodes md = zlen rows;
  dd_one : Forall (fun it => it_len it = 1) (alive rows);
  dd_seq : prefix (zlen rows) (seq_lens md) = map row_seq rows;
  dd_seq_cpu : prefix (zlen rows) (seq_lens_cpu md) = map row_seq rows;
  dd_device : Forall2 row_pages rows (prefix (zlen rows) (block_table md));
  dd_host : forall table, block_table_np md = Some table -> zlen table < zlen rows \/
    Forall2 row_pages rows (prefix (zlen rows) table)
}.

(** The entries of a row *)
Definition dec_row (r : option item) : decode_row :=
  match r with
  | Some it => DecodeRow (it_head it) (it_slot it 0) (it_tail it =? 0) (it_tail it) (it_first c it)
  | None => DecodeRow 0 (-1) false 0 0
  end.

Definition row_slot (r : option item) : Z := match r with Some it => it_slot it 0 | None => -1 end.

Section one_token.
Context (it : item) (Hit : item_ok it) (Hone : it_len it = 1).

Lemma one_region : it_nreg c it = 1.
Proof using Hone Hregion.
  unfold it_nreg, it_nbuf. rewrite Hone. pose proof (head_range c Hregion it).
  replace (it_head it + 1 + region c - 1) with (it_head it + 1 * region c) by lia. rewrite Z.div_add by lia.
  rewrite Z.div_small by lia. lia.
Qed.

Lemma one_tail : (it_head it =? region c - 1) = (it_tail it =? 0) /\ it_tail it = (if it_tail it =? 0 then 0 else it_head it + 1).
Proof using Hone Hregion.
  unfold DsaPlan.it_tail, it_nbuf. rewrite Hone. pose proof (head_range c Hregion it).
  destruct (Z.eqb_spec (it_head it) (region c - 1)) as [E|E].
  - replace (it_head it + 1) with (region c) by lia. rewrite Z.mod_same by lia. done.
  - rewrite Z.mod_small by lia. destruct (Z.eqb_spec (it_head it + 1) 0); [lia|]. done.
Qed.

Lemma one_kept : kept_regions c it = 0.
Proof using Hone. unfold kept_regions, may_roll_back. by rewrite Hone. Qed.

Lemma one_page pages : it_pages it `prefix_of` pages -> exists page, row_get pages (it_first c it / rpp) = Ok page /\ 0 < page /\
  it_slot it 0 = page * rpp + it_first c it mod rpp.
Proof using Hit Hone Hregion Hrpp.
  intros Hpre. destruct (region_page c rpp Hregion Hrpp it 0 Hit) as (page & Hp & Hpos); [rewrite one_region; lia|].
  rewrite Z.add_0_r in Hp. exists page. split_and!; [by eapply row_get_in, zget_prefix|done|].
  unfold DsaPlan.it_slot. by rewrite Z.add_0_r, Hp.
Qed.

Lemma slot0_nonneg : 0 <= it_slot it 0.
Proof using Hit Hone Hregion Hrpp. apply (slot_nonneg c rpp Hregion Hrpp it 0 Hit). rewrite one_region. lia. Qed.
End one_token.

Lemma decode_entry_eq r pages : row_pages r pages -> (forall it, r = Some it -> item_ok it /\ it_len it = 1) ->
  decode_entry c rpp (row_seq r) pages = Ok (dec_row r).
Proof using Hregion Hrpp.
  intros Hp Hr. unfold decode_entry. destruct r as [it|]; cbn [row_seq row_pages dec_row] in *.
  - destruct (Hr it eq_refl) as [Hit Hone]. destruct (one_page it Hit Hone pages Hp) as (page & E & Hpos & Hslot).
    pose proof (item_past _ _ _ Hit). rewrite Z.max_l by lia. replace (it_past it + it_len it - 1) with (it_past it) by lia.
    fold (it_head it) (it_first c it). rewrite E. cbn.
    rewrite (proj2 (Z.ltb_lt 0 (it_past it + it_len it))), (proj2 (Z.ltb_lt 0 page)) by lia. cbn.
    destruct (one_tail it Hone) as [-> H2]. rewrite <- Hslot, <- H2. done.
  - destruct pages as [|page pages]; [done|]. rewrite Z.max_r by lia.
    rewrite !Z.div_0_l by lia. done.
Qed.

Lemma decode_entries_eq rows pages : Forall2 row_pages rows pages -> Forall item_ok (alive rows) ->
  Forall (fun it => it_len it = 1) (alive rows) ->
  decode_entries c rpp (zip (map row_seq rows) pages) = Ok (map dec_row rows).
Proof using Hregion Hrpp.
  intros Hp Hok Hone. rewrite Forall_forall in Hok, Hone.
  assert (forall it, Some it ∈ rows -> item_ok it /\ it_len it = 1) as Hr.
  { intros it Hin. assert (it ∈ alive rows) by (apply list_elem_of_omap; by exists (Some it)). auto. }
  clear Hok Hone. induction Hp as [|r p rows pages Hrp _ IH]; [done|]. cbn [map zip zip_with decode_entries].
  rewrite decode_entry_eq; [|done|intros it ->; apply Hr; left]. cbn -[decode_entries].
  rewrite IH; [done|]. intros it Hin. apply Hr. by right.
Qed.

Lemma host_slots_eq rows pages : Forall2 row_pages rows pages -> Forall item_ok (alive rows) ->
  Forall (fun it => it_len it = 1) (alive rows) ->
  host_slots c rpp (zip (map row_seq rows) pages) = Ok (map row_slot rows).
Proof using Hregion Hrpp.
  intros Hp Hok Hone. rewrite Forall_forall in Hok, Hone.
  assert (forall it, Some it ∈ rows -> item_ok it /\ it_len it = 1) as Hr.
  { intros it Hin. assert (it ∈ alive rows) by (apply list_elem_of_omap; by exists (Some it)). auto. }
  clear Hok Hone. induction Hp as [|r p rows pages Hrp _ IH]; [done|]. cbn [map zip zip_with host_slots].
  rewrite IH by (intros it Hin; apply Hr; by right).
  destruct r as [it|]; cbn [row_seq row_pages row_slot] in *.
  - destruct (Hr it ltac:(left)) as [Hit Hone]. destruct (one_page it Hit Hone p Hrp) as (page & E & Hpos & Hslot).
    pose proof (item_past _ _ _ Hit). rewrite Z.max_l by lia. replace (it_past it + it_len it - 1) with (it_past it) by lia.
    fold (it_first c it). rewrite E. cbn.
    rewrite (proj2 (Z.ltb_lt 0 (it_past it + it_len it))), (proj2 (Z.ltb_lt 0 page)) by lia. cbn. by rewrite Hslot.
  - destruct p as [|page p]; [done|]. rewrite Z.max_r by lia. rewrite !Z.div_0_l by lia. done.
Qed.

Lemma dec_row_slot rows : map dr_slot (map dec_row rows) = map row_slot rows.
Proof. rewrite map_map. apply list_fmap_ext. by intros ? [it|] ?. Qed.

Lemma decode_slots_host_eq md rows : describes_decode md rows -> Forall item_ok (alive rows) ->
  decode_slots_host c md rpp (zlen rows) (map row_seq rows) (map row_slot rows) = Ok (map row_slot rows).
Proof using Hregion Hrpp.
  intros Hd Hok. unfold decode_slots_host. destruct (block_table_np md) as [table|] eqn:E; [|done].
  destruct (Z.ltb_spec (zlen table) (zlen rows)); [done|]. destruct (dd_host _ _ Hd table E); [lia|].
  fold (prefix (zlen rows) table). rewrite host_slots_eq by (done || apply Hd). cbn.
  rewrite bool_decide_true by done. by rewrite andb_false_r.
Qed.

(** ** Plans *)

(** A row of padding is planned to the trash row. *)
Definition row_plan (t0 t : pending_table) (r : option item) (pl : plan) : Prop :=
  match r with
  | None => pl = Plan (trash_row c) (trash_row c) []
  | Some it => plan_ok c rpp t it pl /\ (it_head it <> 0 -> row_of_slot t0 !! it_slot it 0 = Some (pl_in pl)) /\
      (it_head it = 0 -> pl_in pl = trash_row c) /\ (it_tail it = 0 -> pl_out pl = trash_row c)
  end.

Definition row_cost (cost : item -> Z) (r : option item) : Z := match r with Some it => cost it | None => 0 end.

Section moves.
Context (s : dsa_state) (rows : list (option item)).
Context (Hok : Forall item_ok (alive rows)) (Hone : Forall (fun it => it_len it = 1) (alive rows)).

Lemma alive_row it : Some it ∈ rows -> item_ok it /\ it_len it = 1.
Proof using Hok Hone.
  intros Hin. rewrite Forall_forall in Hok, Hone. assert (it ∈ alive rows) by (apply list_elem_of_omap; by exists (Some it)). auto.
Qed.

Definition head_ok (t0 : pending_table) (r : option item) (b : Z) (t : pending_table) : Prop :=
  match r with
  | None => b = trash_row c
  | Some it => (it_head it <> 0 -> row_of_slot t0 !! it_slot it 0 = Some b /\ held t (it_slot it 0) b) /\
      (it_head it = 0 -> b = trash_row c)
  end.

Lemma row_past it : item_ok it -> it_len it = 1 -> Z.max (row_seq (Some it) - 1) 0 = it_past it.
Proof. intros [] Hl. cbn. lia. Qed.

Lemma decode_head_moves t0 t r : r ∈ rows -> table_ok t -> row_of_slot t = row_of_slot t0 ->
  (forall it, r = Some it -> resumes c rpp t it) ->
  moves (decode_head c (trash_row c) (row_slot r) (row_seq r)) (row_cost (head_cost c) r) s t
    (fun b t' => head_ok t0 r b t' /\ row_of_slot t' = row_of_slot t0).
Proof using Hok Hone Hregion Hrpp.
  intros Hin Ht Hm Hres. unfold decode_head. destruct r as [it|]; [|by apply moves_ret].
  destruct (alive_row it Hin) as [Hit Hl]. rewrite (row_past it Hit Hl). cbn [row_slot row_cost head_ok].
  rewrite (proj2 (Z.leb_le 0 _) (slot0_nonneg it Hit Hl)). fold (it_head it). unfold head_cost. cbn [andb].
  destruct (Z.eqb_spec (it_head it) 0) as [E|E]; cbn [negb]; [by apply moves_ret|].
  destruct (Hres it eq_refl E) as [row Hrow].
  eapply moves_weaken; [by apply (moves_get s t _ row)|lia|].
  intros b t' _ (-> & Hh & Hm'). split; [|congruence]. split; [|done]. intros _. split; [congruence|done].
Qed.

Definition tail_ok (r : option item) (o : Z * list Z * Z) (t : pending_table) : Prop :=
  match r with
  | None => o = (trash_row c, [], 0)
  | Some it => (it_tail it <> 0 -> held t (it_slot it 0) o.1.1 /\ o.1.2 = []) /\
      (it_tail it = 0 -> o.1.1 = trash_row c /\ o.1.2 = [it_slot it 0]) /\ o.2 = it_first c it
  end.

Lemma decode_tail_moves t r : r ∈ rows -> table_ok t -> busy_rows t + row_cost (body_cost c) r <= capacity t ->
  moves (decode_tail c (trash_row c) (row_slot r) (row_seq r)) (row_cost (body_cost c) r) s t
    (fun o t' => tail_ok r o t' /\ True).
Proof using Hok Hone Hregion Hrpp.
  intros Hin Ht Hb. unfold decode_tail. destruct r as [it|]; [|by apply moves_ret].
  destruct (alive_row it Hin) as [Hit Hl]. rewrite (row_past it Hit Hl). cbn [row_slot row_cost tail_ok] in *.
  destruct (Z.ltb_spec (it_slot it 0) 0); [pose proof (slot0_nonneg it Hit Hl); lia|].
  fold (it_head it) (it_first c it). unfold body_cost in *. rewrite (one_kept it Hl) in *. rewrite andb_false_r in *.
  destruct (one_tail it Hl) as [-> _]. destruct (Z.eqb_spec (it_tail it) 0) as [E|E].
  - apply moves_ret; [done|]. done.
  - match goal with |- moves _ ?k _ _ _ => replace k with (1 + 0) by done end. eapply moves_bind.
    + apply moves_acquire; [done|by apply slot0_nonneg|lia].
    + intros row t' Ht' Hk _ Hh. apply moves_ret; [done|]. done.
Qed.

Lemma row_cost_nonneg r : r ∈ rows -> 0 <= row_cost (body_cost c) r.
Proof using Hok Hone Hregion Hrpp.
  intros Hin. destruct r as [it|]; [|done]. destruct (alive_row it Hin) as [Hit _]. by apply (body_cost_nonneg c rpp Hregion).
Qed.

(** Heads first, then tails: every row gets a right plan. *)
Lemma decode_rows_moves t : table_ok t -> Forall (resumes c rpp t) (alive rows) ->
  let cost := zsum (map (row_cost (head_cost c)) rows) + zsum (map (row_cost (body_cost c)) rows) in
  busy_rows t + cost <= capacity t ->
  moves (ins ← collect rows (fun r => decode_head c (trash_row c) (row_slot r) (row_seq r));
         outs ← collect rows (fun r => decode_tail c (trash_row c) (row_slot r) (row_seq r));
         mret (ins, outs)) cost s t
    (fun io t' => exists prs, Forall2 (row_plan t t') rows prs /\ io.1 = map pl_in prs /\
       map (fun o => o.1.1) io.2 = map pl_out prs /\ Forall2 (fun r o => tail_ok r o t') rows io.2).
Proof using Hok Hone Hregion Hrpp.
  intros Ht Hres cost Hb. rewrite Forall_forall in Hres.
  assert (forall r, 0 <= row_cost (head_cost c) r) as Hh0.
  { intros [it|]; [|done]. cbn. unfold head_cost. case_match; lia. }
  assert (0 <= zsum (map (row_cost (body_cost c)) rows)) as Hb0.
  { assert (Forall (fun r => 0 <= row_cost (body_cost c) r) rows) as H
      by (apply Forall_forall; intros r; apply row_cost_nonneg).
    clear -H. induction H as [|r rows Hr _ IH]; [done|]. cbn. unfold zsum in IH. lia. }
  subst cost. eapply moves_bind.
  { apply (moves_collect rows _ (row_cost (head_cost c)) s (fun t' => row_of_slot t' = row_of_slot t)
      (fun r t' => row_of_slot t' = row_of_slot t) (head_ok t)); try done.
    - intros [it|] b t1 t2 Hk; cbn; [|done]. intros [H1 H2]. split; [|done]. intros Hne. destruct (H1 Hne). split; [done|].
      by eapply keeps_held.
    - intros r t1 Hin Ht1 Hi _ _. apply (decode_head_moves t t1 r); try done. intros it -> Hne. rewrite Hi.
      apply Hres; [|done]. apply list_elem_of_omap. by exists (Some it).
    - apply Forall_forall. done.
    - lia. }
  intros ins t1 Ht1 Hk1 Hb1 [Hins _]. pose proof (keeps_capacity _ _ Hk1).
  rewrite <- (Z.add_0_r (zsum (map (row_cost (body_cost c)) rows))). eapply moves_bind.
  { apply (moves_collect rows _ (row_cost (body_cost c)) s (fun _ => True) (fun _ _ => True) tail_ok); try done.
    - intros r. apply row_cost_nonneg.
    - intros [it|] o t2 t3 Hk; cbn; [|done]. intros (A1 & A2 & A3). split_and!; [|done|done]. intros Hne.
      destruct (A1 Hne). split; [by eapply keeps_held|done].
    - intros r t2 Hin Ht2 _ _ Hb2. by apply decode_tail_moves.
    - apply Forall_forall. done.
    - lia. }
  intros outs t2 Ht2 Hk2 _ [Houts _]. apply moves_ret; [done|].
  exists (zip_with (fun i (o : Z * list Z * Z) => Plan i o.1.1 []) ins outs).
  assert (length ins = length rows) as L1 by (symmetry; by eapply Forall2_length).
  assert (length outs = length rows) as L2 by (symmetry; by eapply Forall2_length).
  cbn [fst snd]. split_and!; [|..|done].
  - clear -Hins Houts Hk2 Hone Hok Hregion. assert (forall it, Some it ∈ rows -> it_len it = 1) as Hl.
    { intros it Hin. rewrite Forall_forall in Hone. apply Hone, list_elem_of_omap. by exists (Some it). }
    clear Hone Hok. revert outs Houts. induction Hins as [|r i rows ins Hi _ IH]; intros outs Houts; [constructor|].
    apply Forall2_cons_inv_l in Houts as (o & outs' & Ho & Houts' & ->). cbn. constructor; [|apply IH; [|done]; intros; apply Hl; by right].
    destruct r as [it|]; cbn in *; [|by subst].
    destruct Hi as [Hi1 Hi2], Ho as (Ho1 & Ho2 & Ho3). pose proof (Hl it ltac:(left)) as Hone.
    split_and!; [|naive_solver..]. split; cbn.
    + intros Hne. apply (keeps_held _ _ Hk2). by apply Hi1.
    + intros Hne. rewrite (one_region it Hone). by apply Ho1.
    + by rewrite one_kept.
    + intros j row Hj%zget_Some. unfold zlen in Hj. cbn in Hj. lia.
  - clear -L1 L2. revert outs rows L1 L2. induction ins as [|i ins IH]; intros [|o outs] [|r rows] L1 L2; cbn in *; try done.
    f_equal. eapply IH; [|by injection L2]. by injection L1.
  - clear -L1 L2. revert ins rows L1 L2. induction outs as [|o outs IH]; intros [|i ins] [|r rows] L1 L2; cbn in *; try done.
    f_equal. eapply IH; [by injection L1|]. by injection L2.
Qed.
End moves.

(** ** The schedule *)

Definition fields_of (rows : list (option item)) (prs : list plan) : decode_fields :=
  DecodeFields (map dr_head (map dec_row rows)) (map dr_tail (map dec_row rows)) (map row_slot rows)
    (map (fun e => if dr_closes e then region c else 0) (map dec_row rows)) (map dr_closes (map dec_row rows))
    (map dr_nscore (map dec_row rows)) (map pl_in prs) (map pl_out prs).

Definition trimmed (md : metadata) (s : dsa_state) : dsa_state :=
  if table_width md * regions_per_page s <? graph_regions s
  then set_graph_regions (table_width md * regions_per_page s) s else s.

(** Slots to drop belong to regions that are complete. *)
Definition only_closed (rows : list (option item)) (completed : list Z) : Prop :=
  Forall (fun slot => exists it j, it ∈ alive rows /\ 0 <= j < it_closed it /\ slot = it_slot it j) completed.

Lemma tails_closed rows outs t : Forall item_ok (alive rows) -> Forall (fun it => it_len it = 1) (alive rows) ->
  Forall2 (fun r o => tail_ok r o t) rows outs ->
  only_closed rows (concat (map (fun o => o.1.2) outs)).
Proof using Hregion.
  intros Hok Hone H. unfold only_closed. apply Forall_forall. intros slot Hin. apply list_elem_of_In, in_concat in Hin as (l & Hl & Hs).
  apply in_map_iff in Hl as (o & <- & Ho%list_elem_of_In). apply list_elem_of_lookup in Ho as [i Hi].
  destruct (Forall2_lookup_r _ _ _ _ _ H Hi) as (r & Hr & Hro). destruct r as [it|]; cbn in Hro.
  - destruct Hro as (H1 & H2 & _). assert (it ∈ alive rows) as Ha.
    { apply list_elem_of_omap. exists (Some it). split; [|done]. by eapply list_elem_of_lookup_2. }
    destruct (decide (it_tail it = 0)) as [E|E].
    + destruct (H2 E) as [_ E2]. rewrite E2 in Hs. destruct Hs as [<-|[]]. exists it, 0. split_and!; try done.
      rewrite Forall_forall in Hok, Hone. pose proof (Hok _ Ha) as Hit. pose proof (nreg_split c Hregion it) as Hn.
      rewrite (one_region it (Hone _ Ha)) in Hn. rewrite E in Hn. cbn in Hn. lia.
    + destruct (H1 E) as [_ E2]. rewrite E2 in Hs. done.
  - subst o. done.
Qed.

Definition cost_of (rows : list (option item)) : Z :=
  zsum (map (row_cost (head_cost c)) rows) + zsum (map (row_cost (body_cost c)) rows).

Theorem decode_schedule_planned (persistent : bool) md rows s s' t :
  let s0 := if persistent then trimmed md s else s in
  describes_decode md rows -> regions_per_page s = rpp -> Forall item_ok (alive rows) ->
  (end_step c ;; on_pending begin_step) s0 = (Ok tt, set_pending t s') ->
  table_ok t -> Forall (resumes c rpp t) (alive rows) -> busy_rows t + cost_of rows <= capacity t ->
  (persistent = true -> zlen rows <= max_num_reqs c /\
     (eager_fallback c = true \/ Forall (fun it => it_first c it <= graph_regions s0) (alive rows)) /\ 0 <= graph_regions s0) ->
  exists prs t' completed, table_ok t' /\ keeps t t' /\ Forall2 (row_plan t t') rows prs /\ only_closed rows completed /\
    exists sched, completed_slots sched = completed /\ builder_owned sched = false /\
      body sched = (if persistent then DecodeView (zlen rows) else Decode (zlen rows) (fields_of rows prs)) /\
      decode_schedule c persistent md s =
        (Ok sched, if persistent then set_buf (persist_decode c (trash_row c) (fields_of rows prs)) (set_pending t' s')
                   else set_pending t' s').
Proof using Hregion Hrpp.
  intros s0 Hd Hs Hok Hopen Ht Hres Hb Hp.
  destruct (decode_rows_moves s' rows Hok (dd_one _ _ Hd) t Ht Hres Hb) as ([ins outs] & t' & E & Ht' & Hk & _ & prs & Hprs & Hin & Hout & Htails).
  cbn [fst snd] in *. exists prs, t', (concat (map (fun o => o.1.2) outs)). split_and!; try done.
  { eapply tails_closed; [done|apply Hd|done]. }
  apply M_bind_inv in E as (ins' & s1 & E1 & E). apply M_bind_inv in E as (outs' & s2 & E2 & E).
  injection E as <- <- E3. subst s2.
  apply M_bind_inv in Hopen as ([] & s3 & Hend & Hbegin).
  assert (regions_per_page s0 = rpp) as Hs0.
  { subst s0. destruct persistent; [|done]. unfold trimmed. by case_match. }
  unfold decode_schedule. rewrite (dd_count _ _ Hd).
  assert (persistent && (max_num_reqs c <? zlen rows) = false) as ->.
  { destruct persistent; [|done]. destruct (Hp eq_refl) as [Hle _]. cbn. apply Z.ltb_ge. lia. }
  rewrite (M_bind_ok _ _ s tt s0).
  2:{ subst s0. destruct persistent; [|done]. unfold trim_graph_width, trimmed, set_graph_width. munfold. by case_match. }
  rewrite (M_bind_ok _ _ s0 s0 s0) by done. rewrite Hs0.
  rewrite (dd_seq _ _ Hd), (dd_seq_cpu _ _ Hd).
  rewrite (M_bind_ok _ _ s0 (map dec_row rows) s0).
  2:{ unfold lift. by rewrite decode_entries_eq by (done || apply Hd). }
  rewrite dec_row_slot.
  rewrite (M_bind_ok _ _ s0 (map row_slot rows) s0).
  2:{ unfold lift. by rewrite decode_slots_host_eq. }
  rewrite (M_bind_ok _ _ s0 tt s3 Hend), (M_bind_ok _ _ s3 tt _ Hbegin).
  rewrite zip_map_pair, !collect_map.
  rewrite (M_bind_ok _ _ _ ins' s1 E1), (M_bind_ok _ _ s1 outs' _ E2). subst ins'. rewrite Hout.
  change (DecodeFields _ _ _ _ _ _ _ _) with (fields_of rows prs). destruct persistent; [|by (eexists; split; [|split; [|split; [|reflexivity]]])].
  rewrite (M_bind_ok (modify _) _ (set_pending t' s') tt
    (set_buf (persist_decode c (trash_row c) (fields_of rows prs)) (set_pending t' s'))) by done.
  destruct (Hp eq_refl) as (_ & Hwide & Hg0).
  assert ((graph_regions s0 <? foldr Z.max 0 (map snd outs')) && negb (eager_fallback c) = false) as ->; [|by (eexists; split; [|split; [|split; [|reflexivity]]])].
  destruct Hwide as [->|Hwide]; [by rewrite andb_false_r|]. apply andb_false_intro1, Z.ltb_ge.
  assert (Forall (fun w => w <= graph_regions s0) (map snd outs')) as Hall.
  { apply Forall_forall. intros w Hw. apply list_elem_of_fmap in Hw as (o & -> & Ho).
    apply list_elem_of_lookup in Ho as [i Hi]. destruct (Forall2_lookup_r _ _ _ _ _ Htails Hi) as (r & Hr & Hro).
    destruct r as [it|]; cbn in Hro; [|by subst].
    destruct Hro as (_ & _ & ->). rewrite Forall_forall in Hwide. apply Hwide, list_elem_of_omap. exists (Some it).
    split; [|done]. by eapply list_elem_of_lookup_2. }
  clear -Hall Hg0. induction Hall; cbn; lia.
Qed.
End decode.
End DsaDecodeCorrect.

(** ** The decode update makes the writes of the plans

    [update_decode] of DsaSummary.v on the vectors of planned rows, with rows
    of padding anywhere. *)

Module DsaDecodeUpdate.
Import DsaPending DsaPendingCorrect DsaSchedule DsaPlan DsaScheduleCorrect DsaSummary DsaSummaryCorrect DsaDecodeCorrect.

Section update.
Context {T V : Type} (zero : T) (compress : list T -> V).
Context (c : config) (rpp : Z).
Context (Hregion : 0 < region c) (Hrpp : 0 < rpp).

Abbreviation it_slot := (it_slot c rpp) (only parsing).
Abbreviation it_head := (it_head c) (only parsing).
Abbreviation it_tail := (it_tail c) (only parsing).
Abbreviation it_closed := (it_closed c) (only parsing).

(** ** Scattering rows *)

(** A row written with tokens is not written again. *)
Fixpoint fresh (ws : list (Z * Z * list T)) : Prop :=
  match ws with
  | [] => True
  | (n, row, _) :: ws' => (n = 0 \/ (row ∉ map (fun w => w.1.2) ws')) /\ fresh ws'
  end.

Definition write_of (w : Z * Z * list T) : list (Z * list T) :=
  if w.1.1 =? 0 then [] else [(w.1.2, slice 0 w.1.1 w.2)].

Lemma scatter_writes n pend0 ws : forall p,
  Forall (fun w => 0 <= w.1.2 < zlen p /\ 0 <= w.1.1 <= n /\ zlen w.2 = n) ws -> Forall (fun r => zlen r = n) p ->
  (forall w, w ∈ ws -> zget p w.1.2 = zget pend0 w.1.2) -> fresh ws ->
  exists vs, masked_rows pend0 ws = Ok vs /\ scatter_rows p vs = Ok (writes (concat (map write_of ws)) p).
Proof.
  induction ws as [|[[k row] b] ws IH]; intros p Hws Hp Hagree Hf; [by exists []|].
  apply Forall_cons in Hws as [(Hr & Hk & Hb) Hws]. destruct Hf as [Hf1 Hf2]. cbn [fst snd] in *.
  destruct (zget_is_Some p row Hr) as [old Ho].
  assert (zget pend0 row = Some old) as Ho' by (rewrite <- Ho; symmetry; apply (Hagree (k, row, b)); left).
  assert (zlen old = n) as Hon by (rewrite Forall_forall in Hp; apply Hp; by eapply zget_elem).
  assert (zlen (slice 0 k b) = k) as Hsl by (apply zlen_slice; lia).
  assert (Ok (write p (row, slice 0 k b)) = row_set p row (slice 0 k b ++ drop (Z.to_nat k) old)) as Hset.
  { rewrite row_set_in by done. f_equal. apply list_eq. intros i. unfold write. cbn. rewrite list_lookup_alter.
    unfold zget in Ho. destruct (Z.ltb_spec row 0); [lia|]. destruct (decide (Z.to_nat row = i)) as [<-|Hne].
    - rewrite Ho, list_lookup_insert_eq by (unfold zlen in *; lia). cbn. repeat f_equal. unfold zlen in Hsl. lia.
    - by rewrite list_lookup_insert_ne. }
  set (p1 := write p (row, slice 0 k b)) in *.
  assert (Forall (fun r => zlen r = n) p1 /\ zlen p1 = zlen p) as [Hp1 Hz1].
  { apply (writes_rows [(row, slice 0 k b)]); [|done]. apply Forall_singleton. cbn. lia. }
  destruct (IH p1) as (vs & E1 & E2); try done.
  { eapply Forall_impl; [exact Hws|]. intros w. by rewrite Hz1. }
  { intros w Hw. rewrite <- Hagree by (by right). unfold p1. rewrite zget_write by lia. case_decide as E; [|done].
    destruct Hf1 as [->|Hf1]; [by destruct (zget p w.1.2)|]. exfalso. apply Hf1. apply list_elem_of_fmap.
    exists w. split; [|done]. by destruct w as [[? ?] ?]. }
  exists ((row, slice 0 k b ++ drop (Z.to_nat k) old) :: vs). split.
  - cbn [masked_rows]. unfold masked_row. rewrite (row_get_in _ _ _ Ho'). cbn -[masked_rows]. rewrite E1. done.
  - cbn [scatter_rows]. rewrite <- Hset. cbn [mbind result_bind map concat]. rewrite E2, writes_app. f_equal. f_equal.
    unfold write_of. cbn [fst snd]. destruct (Z.eqb_spec k 0) as [->|Hk0]; [|done]. unfold p1, write. cbn.
    apply list_eq. intros i. rewrite list_lookup_alter. case_decide; [subst|done]. by destruct (p !! _).
Qed.

(** ** Regions stored one after another *)

Lemma store_rows {X} (f : X -> list T) (count slot : X -> Z) (live : X -> bool) (sum : X -> list (Z * V)) xs :
  (forall x, x ∈ xs -> zlen (f x) = region c) ->
  (forall x, x ∈ xs -> live x = true -> 0 <= count x <= region c /\ sum x = [(slot x, compress (slice 0 (count x) (f x)))]) ->
  (forall x, x ∈ xs -> live x = false -> sum x = []) ->
  forall k before m, 0 <= k -> zlen before = k * region c ->
  foldl (store_region compress (before ++ concat (map f xs))) m
    (zip (zip (zip (map (fun i => i * region c) (zrange k (zlen xs))) (map count xs)) (map slot xs)) (map live xs)) =
  sums (concat (map sum xs)) m.
Proof using Hregion.
  induction xs as [|x xs IH]; intros Hf Hlive Hdead k before m Hk0 Hb; [by rewrite zrange_nil|].
  rewrite zlen_cons, zrange_open by (pose proof (zlen_nonneg xs); lia). cbn [map zip zip_with foldl concat].
  rewrite sums_app. pose proof (Hf x ltac:(left)) as Hx. rewrite app_assoc.
  replace (zlen xs + 1 - 1) with (zlen xs) by lia.
  rewrite IH; [|intros; apply Hf; by right|intros y Hy; apply Hlive; by right|intros y Hy; apply Hdead; by right|lia|rewrite zlen_app; lia].
  f_equal. unfold store_region. destruct (live x) eqn:E.
  - destruct (Hlive x ltac:(left) E) as [Hc ->]. cbn. f_equal. f_equal. rewrite <- app_assoc.
    rewrite <- (Z.add_0_r (k * region c)), slice_app_r by lia. apply slice_app_l; lia.
  - by rewrite (Hdead x ltac:(left) E).
Qed.

(** Rows whose requests have distinct keys *)
Lemma alive_inj {K} (key : item -> K) rows r r' it it' : NoDup (map key (alive rows)) ->
  zget rows r = Some (Some it) -> zget rows r' = Some (Some it') -> key it = key it' -> r = r'.
Proof.
  revert r r'. induction rows as [|x rows IH]; intros r r' Hnd H H' E.
  { apply zget_Some in H. unfold zlen in H. cbn in H. lia. }
  assert (forall q j, zget rows q = Some (Some j) -> key j ∈ map key (alive rows)) as Hin.
  { intros q j Hq. apply list_elem_of_fmap. exists j. split; [done|]. apply list_elem_of_omap. exists (Some j). split; [|done].
    by eapply zget_elem. }
  pose proof (zget_Some _ _ _ H). pose proof (zget_Some _ _ _ H').
  assert (forall q y, 0 < q -> zget (x :: rows) q = Some y -> zget rows (q - 1) = Some y) as Hs.
  { intros q y Hq Hy. replace q with (q - 1 + 1) in Hy by lia. by rewrite zget_cons_S in Hy by lia. }
  destruct (decide (r = 0)) as [->|Hr], (decide (r' = 0)) as [->|Hr']; [done|..].
  - injection H as ->. cbn in Hnd. apply NoDup_cons in Hnd as [Hn _]. destruct Hn. rewrite E. eapply Hin. apply (Hs r'); [lia|done].
  - injection H' as ->. cbn in Hnd. apply NoDup_cons in Hnd as [Hn _]. destruct Hn. rewrite <- E. eapply Hin. apply (Hs r); [lia|done].
  - enough (r - 1 = r' - 1) by lia. apply IH; [|apply Hs; [lia|done]|apply Hs; [lia|done]|done].
    destruct x; [|done]. cbn in Hnd. by apply NoDup_cons in Hnd as [_ ?].
Qed.

(** ** Rows with their plans *)

Definition drow : Type := Z * option item * plan.
Definition drows (rows : list (option item)) (prs : list plan) : list drow := zip (zip (zrange 0 (zlen rows)) rows) prs.

(** The entry of a row that is a request: its token has the row's number *)
Definition entry_at (x : drow) : option entry :=
  match x.1.2 with Some it => Some (Entry x.1.1 x.1.1 0 it x.2) | None => None end.
Definition dentries (rows : list (option item)) (prs : list plan) : list entry := omap entry_at (drows rows prs).

Lemma concat_omap {X Y Z'} (g : X -> option Y) (f : Y -> list Z') xs :
  concat (map f (omap g xs)) = concat (map (fun x => match g x with Some y => f y | None => [] end) xs).
Proof. induction xs as [|x xs IH]; [done|]. cbn. destruct (g x); cbn; by rewrite IH. Qed.

Lemma map_rows {B} (g : option item -> B) rows prs : length prs = length rows ->
  map g rows = map (fun x : drow => g x.1.2) (drows rows prs).
Proof.
  intros Hl. unfold drows. generalize 0 as k. revert prs Hl.
  induction rows as [|r rows IH]; intros [|pl prs] Hl k; try done.
  rewrite zlen_cons, zrange_open by (pose proof (zlen_nonneg rows); lia). cbn. f_equal.
  replace (zlen rows + 1 - 1) with (zlen rows) by lia. apply IH. by injection Hl.
Qed.

Lemma map_plans {B} (g : plan -> B) rows prs : length prs = length rows ->
  map g prs = map (fun x : drow => g x.2) (drows rows prs).
Proof.
  intros Hl. unfold drows. generalize 0 as k. revert prs Hl.
  induction rows as [|r rows IH]; intros [|pl prs] Hl k; try done.
  rewrite zlen_cons, zrange_open by (pose proof (zlen_nonneg rows); lia). cbn. f_equal.
  replace (zlen rows + 1 - 1) with (zlen rows) by lia. apply IH. by injection Hl.
Qed.

Lemma drows_length rows prs : length prs = length rows -> zlen (drows rows prs) = zlen rows.
Proof.
  intros Hl. unfold drows, zlen. rewrite !length_zip_with. unfold zrange. rewrite length_seqZ. lia.
Qed.

Lemma drows_elem rows prs r row pl : (r, row, pl) ∈ drows rows prs ->
  0 <= r < zlen rows /\ zget rows r = Some row /\ zget prs r = Some pl.
Proof.
  intros Hin. apply list_elem_of_lookup in Hin as [i Hi]. unfold drows in Hi.
  apply lookup_zip_with_Some in Hi as ([r' row'] & pl' & [= -> -> ->] & Hi & Hpl).
  apply lookup_zip_with_Some in Hi as (r'' & row'' & [= -> ->] & Hr & Hrow).
  apply lookup_seqZ in Hr as [-> Hr]. rewrite Z.add_0_l in *. split_and!; [lia|lia|..]; by rewrite zget_nat.
Qed.

Lemma drows_index rows prs i x : drows rows prs !! i = Some x -> x ∈ drows rows prs /\ x.1.1 = 0 + Z.of_nat i.
Proof.
  intros H. split; [by eapply list_elem_of_lookup_2|]. unfold drows in H.
  apply lookup_zip_with_Some in H as ([r row] & pl & -> & H & _).
  apply lookup_zip_with_Some in H as (r' & row' & [= -> ->] & Hr & _). by apply lookup_seqZ in Hr as [-> _].
Qed.

Lemma drows_nodup rows prs : NoDup (map (fun x : drow => x.1.1) (drows rows prs)).
Proof.
  apply NoDup_alt. intros i j v Hi Hj. rewrite list_lookup_fmap in Hi, Hj.
  destruct (drows rows prs !! i) as [x|] eqn:Ei; [|done]. destruct (drows rows prs !! j) as [y|] eqn:Ej; [|done].
  apply drows_index in Ei as [_ Ei]. apply drows_index in Ej as [_ Ej]. cbn in Hi, Hj. simplify_eq. lia.
Qed.

Section rows.
Context (l : @layer T V) (toks : list T) (t0 t : pending_table).
Context (rows : list (option item)) (prs : list plan).
Context (Hl : layer_ok c l) (Ht : table_ok t) (Hcap : capacity t = max_pending c).
Context (Hok : Forall (item_ok c rpp) (alive rows)) (Hone : Forall (fun it => it_len it = 1) (alive rows)).
Context (Hprs : Forall2 (row_plan c rpp t0 t) rows prs).
Context (Htoks : zlen rows <= zlen toks).
Context (Hslots : NoDup (map (fun it => it_slot it 0) (alive rows))).

Lemma drow_at r it pl : (r, Some it, pl) ∈ drows rows prs ->
  item_ok c rpp it /\ it_len it = 1 /\ row_plan c rpp t0 t (Some it) pl /\ entry_ok c rpp toks t (Entry r r 0 it pl).
Proof using Hok Hone Hprs Htoks.
  intros Hin. destruct (drows_elem _ _ _ _ _ Hin) as (Hr & Hrow & Hpl).
  assert (Some it ∈ rows) as Hin' by (by eapply zget_elem).
  destruct (alive_row c rpp rows Hok Hone it Hin') as [Hit Hlen].
  assert (row_plan c rpp t0 t (Some it) pl) as Hp.
  { unfold zget in Hrow, Hpl. destruct (Z.ltb_spec r 0); [lia|].
    destruct (Forall2_lookup_l _ _ _ _ _ Hprs Hrow) as (pl' & E & Hrp). congruence. }
  split_and!; try done. split; cbn; [done|apply Hp|lia].
Qed.

Lemma drow_pad r pl : (r, None, pl) ∈ drows rows prs -> pl = Plan (trash_row c) (trash_row c) [].
Proof using Hprs.
  intros Hin. destruct (drows_elem _ _ _ _ _ Hin) as (Hr & Hrow & Hpl). unfold zget in Hrow, Hpl.
  destruct (Z.ltb_spec r 0); [lia|]. destruct (Forall2_lookup_l _ _ _ _ _ Hprs Hrow) as (pl' & E & Hrp). cbn in Hrp. congruence.
Qed.

(** The region of a row *)
Definition drow_region (x : drow) : list T :=
  match entry_at x with
  | Some e => buf_of c l toks e ++ replicate (Z.to_nat (region c - it_nbuf c (e_item e))) zero
  | None => default zero (zget toks x.1.1) :: replicate (Z.to_nat (region c - 1)) zero
  end.

Lemma zlen_drow x : x ∈ drows rows prs -> zlen (drow_region x) = region c.
Proof using Hl Ht Hcap Hok Hone Hprs Htoks Hregion Hrpp.
  destruct x as [[r [it|]] pl]; intros Hin; unfold drow_region; cbn [entry_at fst snd].
  - destruct (drow_at _ _ _ Hin) as (Hit & Hlen & _ & He). rewrite zlen_app, (zlen_buf c rpp Hregion l toks t Hl Ht Hcap _ He).
    cbn [e_item]. unfold it_nbuf. rewrite Hlen. pose proof (head_range c Hregion it).
    rewrite zlen_replicate by lia. lia.
  - rewrite zlen_cons, zlen_replicate by lia. lia.
Qed.

Lemma decode_region_eq x : x ∈ drows rows prs ->
  decode_region zero c l toks x.1.1 (dr_head (dec_row c rpp x.1.2)) (pl_in x.2) = Ok (drow_region x).
Proof using Hl Ht Hcap Hok Hone Hprs Htoks Hregion Hrpp.
  destruct x as [[r [it|]] pl]; intros Hin; unfold decode_region, drow_region; cbn [entry_at fst snd dec_row dr_head].
  - destruct (drow_at _ _ _ Hin) as (Hit & Hlen & (Hplan & _ & Htrash & _) & He). destruct (drows_elem _ _ _ _ _ Hin) as (Hr & _ & _).
    assert (exists prow, zget (pend l) (pl_in pl) = Some prow /\ zlen prow = region c) as (prow & Hp & Hpl).
    { destruct (decide (it_head it = 0)) as [E|E].
      - rewrite (Htrash E). destruct Hl as [H1 H2]. pose proof (ok_slots _ Ht). pose proof (zlen_nonneg (slot_of_row t)).
        destruct (zget_is_Some (pend l) (trash_row c)) as [prow Hp]; [unfold trash_row; lia|]. exists prow. split; [done|].
        rewrite Forall_forall in H2. apply H2. by eapply zget_elem.
      - by eapply held_row; [..|by eapply plan_in]. }
    rewrite (row_get_in _ _ _ Hp). cbn -[row_set Z.to_nat]. destruct (zget_is_Some toks r) as [tok Htok]; [lia|].
    rewrite (row_get_in _ _ _ Htok). cbn -[row_set Z.to_nat]. pose proof (head_range c Hregion it) as Hh.
    assert (zlen (slice 0 (it_head it) prow) = it_head it) as Hsl by (apply zlen_slice; lia).
    rewrite row_set_in by (rewrite zlen_app, zlen_replicate by lia; lia). f_equal.
    unfold buf_of. cbn [e_item e_plan e_tok]. rewrite Hp. cbn [default]. unfold it_nbuf. rewrite Hlen.
    assert (slice r 1 toks = [tok]) as ->.
    { unfold slice. unfold zget in Htok. destruct (Z.ltb_spec r 0); [lia|]. rewrite (drop_S _ _ _ Htok). done. }
    replace (region c - it_head it) with (1 + (region c - (it_head it + 1))) by lia. rewrite replicate_split by lia.
    change (replicate (Z.to_nat 1) zero) with [zero]. rewrite <- app_assoc.
    rewrite insert_app_r_alt by (unfold zlen in Hsl; lia). f_equal. unfold zlen in Hsl.
    replace (Z.to_nat (it_head it) - length (slice 0 (it_head it) prow))%nat with 0%nat by lia. done.
  - rewrite (drow_pad _ _ Hin). cbn [pl_in]. destruct (drows_elem _ _ _ _ _ Hin) as (Hr & _ & _).
    destruct Hl as [H1 H2]. pose proof (ok_slots _ Ht). pose proof (zlen_nonneg (slot_of_row t)).
    destruct (zget_is_Some (pend l) (trash_row c)) as [prow Hp]; [unfold trash_row; lia|].
    rewrite (row_get_in _ _ _ Hp). cbn -[row_set Z.to_nat]. destruct (zget_is_Some toks r) as [tok Htok]; [lia|].
    rewrite (row_get_in _ _ _ Htok), Htok. cbn -[row_set Z.to_nat]. rewrite Z.sub_0_r.
    replace (region c) with (1 + (region c - 1)) at 1 by lia. rewrite replicate_split by lia.
    change (slice 0 0 prow) with (@nil T). cbn [app].
    rewrite row_set_in; [done|]. rewrite zlen_app, !zlen_replicate by lia. lia.
Qed.

Lemma decode_regions_eq xs : forall k, (forall i x, xs !! i = Some x -> x ∈ drows rows prs /\ x.1.1 = k + Z.of_nat i) ->
  decode_regions zero c l toks k (map (fun x : drow => (dr_head (dec_row c rpp x.1.2), pl_in x.2)) xs) =
  Ok (map drow_region xs).
Proof using Hl Ht Hcap Hok Hone Hprs Htoks Hregion Hrpp.
  induction xs as [|x xs IH]; intros k H; [done|]. cbn [map decode_regions].
  destruct (H 0%nat x eq_refl) as [Hin Hx]. replace k with x.1.1 by lia.
  rewrite (decode_region_eq x Hin). cbn [mbind result_bind]. rewrite IH; [done|].
  intros i y Hy. destruct (H (S i) y Hy) as [Hy1 Hy2]. split; [done|]. lia.
Qed.


(** What a row writes and stores *)
Lemma drow_write x : x ∈ drows rows prs ->
  write_of (dr_tail (dec_row c rpp x.1.2), pl_out x.2, drow_region x) =
  match entry_at x with Some e => writes_of c l toks e | None => [] end.
Proof using Hl Ht Hcap Hok Hone Hprs Htoks Hregion Hrpp.
  destruct x as [[r [it|]] pl]; intros Hin; unfold write_of, drow_region, writes_of; cbn [entry_at fst snd dec_row dr_tail e_item e_plan].
  - destruct (drow_at _ _ _ Hin) as (Hit & Hlen & (Hplan & _ & _ & _) & He). rewrite (one_kept c it Hlen).
    rewrite zrange_nil by lia. pose proof (plan_keep _ _ _ _ _ Hplan) as Hk. rewrite (one_kept c it Hlen) in Hk.
    destruct (pl_keep pl); [|by rewrite zlen_cons in Hk; pose proof (zlen_nonneg l0); lia].
    cbn [zip zip_with app map]. destruct (Z.eqb_spec (it_tail it) 0) as [E|E]; [done|]. do 2 f_equal.
    unfold tail_of. cbn [e_item]. pose proof (nreg_split c Hregion it) as Hn. rewrite (one_region c Hregion it Hlen) in Hn.
    destruct (Z.eqb_spec (it_tail it) 0); [done|]. assert (it_closed it = 0) as -> by lia.
    pose proof (tail_range c Hregion it). apply slice_app_l; [lia|lia|].
    rewrite (zlen_buf c rpp Hregion l toks t Hl Ht Hcap _ He). cbn [e_item]. rewrite (nbuf_split c Hregion it).
    pose proof (closed_nonneg c rpp Hregion it Hit). nia.
  - done.
Qed.

Lemma drow_sum x : x ∈ drows rows prs ->
  (dr_closes (dec_row c rpp x.1.2) = true -> 0 <= region c <= region c /\
    match entry_at x with Some e => sums_of compress c rpp l toks e | None => [] end =
    [(row_slot c rpp x.1.2, compress (slice 0 (region c) (drow_region x)))]) /\
  (dr_closes (dec_row c rpp x.1.2) = false -> match entry_at x with Some e => sums_of compress c rpp l toks e | None => [] end = []).
Proof using Hl Ht Hcap Hok Hone Hprs Htoks Hregion Hrpp.
  destruct x as [[r [it|]] pl]; intros Hin; unfold drow_region, sums_of; cbn [entry_at fst snd dec_row dr_closes e_item row_slot]; [|done].
  destruct (drow_at _ _ _ Hin) as (Hit & Hlen & _ & He).
  pose proof (nreg_split c Hregion it) as Hn. rewrite (one_region c Hregion it Hlen) in Hn. pose proof (nbuf_split c Hregion it) as Hnb.
  split; intros E.
  - split; [lia|]. rewrite E in Hn. assert (it_closed it = 1) as Hc by lia. rewrite Hc.
    rewrite zrange_open, zrange_nil by lia. cbn [map]. do 3 f_equal. unfold region_of. apply Z.eqb_eq in E.
    rewrite Z.mul_0_l. symmetry. apply slice_app_l; [lia|lia|].
    rewrite (zlen_buf c rpp Hregion l toks t Hl Ht Hcap _ He). cbn [e_item]. nia.
  - rewrite E in Hn. assert (it_closed it = 0) as -> by lia. by rewrite zrange_nil by lia.
Qed.

Lemma drow_fresh xs : NoDup (map (fun x : drow => x.1.1) xs) -> (forall x, x ∈ xs -> x ∈ drows rows prs) ->
  fresh (map (fun x : drow => (dr_tail (dec_row c rpp x.1.2), pl_out x.2, drow_region x)) xs).
Proof using Hl Ht Hcap Hok Hone Hprs Htoks Hregion Hrpp Hslots.
  induction xs as [|x xs IH]; intros Hnd Hall; [done|]. cbn [map fresh]. apply NoDup_cons in Hnd as [Hn Hnd].
  split; [|apply IH; [done|intros; apply Hall; by right]].
  destruct x as [[r [it|]] pl]; cbn [fst snd dec_row dr_tail] in *; [|by left].
  destruct (decide (it_tail it = 0)) as [E|E]; [by left|right].
  destruct (drow_at r it pl (Hall _ ltac:(left))) as (Hit & Hlen & (Hplan & _) & _).
  pose proof (plan_out _ _ _ _ _ Hplan E) as Hh. rewrite (one_region c Hregion it Hlen) in Hh.
  change (1 - 1) with 0 in Hh. destruct (mapped_row _ _ _ Ht (proj1 Hh)) as (_ & Hr & _).
  intros Hin. apply list_elem_of_fmap in Hin as (w & Ew & Hw). apply list_elem_of_fmap in Hw as (y & -> & Hy).
  cbn [fst snd] in Ew. rewrite Ew in *. clear Ew. cbn [fst snd] in *. pose proof (Hall y ltac:(by right)) as Hy'. destruct y as [[r' [it'|]] pl']; cbn [fst snd] in *.
  2:{ rewrite (drow_pad _ _ Hy') in Hr. cbn in Hr. unfold trash_row in Hr. lia. }
  destruct (drow_at r' it' pl' Hy') as (Hit' & Hlen' & (Hplan' & _ & _ & Hout') & _).
  destruct (decide (it_tail it' = 0)) as [E'|E'].
  { rewrite (Hout' E') in Hr. unfold trash_row in Hr. lia. }
  pose proof (plan_out _ _ _ _ _ Hplan' E') as Hh'. rewrite (one_region c Hregion it' Hlen') in Hh'. change (1 - 1) with 0 in Hh'.
  assert (it_slot it 0 = it_slot it' 0) as Heq.
  { destruct (decide (it_slot it 0 = it_slot it' 0)) as [|Hne]; [done|]. exfalso.
    by apply (held_inj t _ _ _ _ Ht (proj1 Hh) (proj1 Hh') Hne). }
  apply Hn. apply list_elem_of_fmap. exists (r', Some it', pl'). split; [|done]. cbn.
  destruct (drows_elem _ _ _ _ _ (Hall _ ltac:(left))) as (_ & Hrow & _). destruct (drows_elem _ _ _ _ _ Hy') as (_ & Hrow' & _).
  symmetry. by eapply (alive_inj _ rows r' r it' it Hslots).
Qed.

(** The update of the decode path *)
Theorem update_decode_eq :
  update_decode zero compress c (zlen rows) (fields_of c rpp rows prs) toks l =
  Ok (Layer (writes (concat (map (writes_of c l toks) (dentries rows prs))) (pend l))
        (sums (concat (map (sums_of compress c rpp l toks) (dentries rows prs))) (summ l))).
Proof using Hl Ht Hcap Hok Hone Hprs Htoks Hregion Hrpp Hslots.
  assert (length prs = length rows) as Hlen by (symmetry; by eapply Forall2_length).
  unfold update_decode, fields_of. cbn [d_head d_pending_in d_counts d_slots d_live d_tail d_pending_out].
  rewrite !map_map. rewrite !(map_rows _ rows prs Hlen), !(map_plans _ rows prs Hlen), !zip_map_pair.
  rewrite decode_regions_eq by apply drows_index. cbn [mbind result_bind]. rewrite zip_map_pair.
  pose proof (drows_nodup rows prs) as Hnd.
  pose proof Hl as [Hl1 Hl2].
  destruct (scatter_writes (region c) (pend l)
    (map (fun x : drow => (dr_tail (dec_row c rpp x.1.2), pl_out x.2, drow_region x)) (drows rows prs)) (pend l)) as (vs & E1 & E2); try done.
  { apply Forall_fmap, Forall_forall. intros x Hx. cbn. rewrite (zlen_drow x Hx).
    destruct x as [[r [it|]] pl]; cbn [fst snd dec_row dr_tail].
    - destruct (drow_at _ _ _ Hx) as (Hit & Hone1 & (Hplan & _ & _ & Hout) & _). pose proof (tail_range c Hregion it).
      split_and!; try lia; destruct (decide (it_tail it = 0)) as [E|E].
      + rewrite (Hout E). unfold trash_row. pose proof (zlen_nonneg (slot_of_row t)). pose proof (ok_slots _ Ht). lia.
      + destruct (mapped_row _ _ _ Ht (proj1 (plan_out _ _ _ _ _ Hplan E))) as (_ & Hr & _). lia.
      + rewrite (Hout E). unfold trash_row. lia.
      + destruct (mapped_row _ _ _ Ht (proj1 (plan_out _ _ _ _ _ Hplan E))) as (_ & Hr & _). lia.
    - rewrite (drow_pad _ _ Hx). cbn. unfold trash_row. pose proof (zlen_nonneg (slot_of_row t)). pose proof (ok_slots _ Ht). lia. }
  { by apply drow_fresh. }
  rewrite E1. cbn [mbind result_bind]. rewrite E2. cbn [mbind result_bind mret result_ret]. f_equal. f_equal.
  - f_equal. unfold dentries. rewrite concat_omap, map_map. f_equal. apply list_fmap_ext. intros i x Hx. apply drow_write.
    by eapply list_elem_of_lookup_2.
  - unfold dentries, store_regions. rewrite concat_omap. rewrite <- (drows_length rows prs Hlen).
    apply (store_rows drow_region (fun x => if dr_closes (dec_row c rpp x.1.2) then region c else 0)
      (fun x => row_slot c rpp x.1.2) (fun x => dr_closes (dec_row c rpp x.1.2))
      (fun x => match entry_at x with Some e => sums_of compress c rpp l toks e | None => [] end) (drows rows prs)) with (k := 0) (before := []);
      [|..|lia|done].
    + intros x. apply zlen_drow.
    + intros x Hx Hc. destruct (drow_sum x Hx) as [H1 _]. rewrite Hc. by apply H1.
    + intros x Hx Hc. destruct (drow_sum x Hx) as [_ H2]. by apply H2.
Qed.
End rows.

(** ** The persistent vectors *)

(** Rows without a request fill a batch up to [n] rows. *)
Definition pad_rows (n : Z) (rows : list (option item)) : list (option item) :=
  rows ++ replicate (Z.to_nat n - length rows) None.
Definition pad_plans (n : Z) (prs : list plan) : list plan :=
  prs ++ replicate (Z.to_nat n - length prs) (Plan (trash_row c) (trash_row c) []).

Lemma prefix_padded {X} w n (v : X) l : zlen l <= w -> w <= n -> prefix w (padded n v l) = l ++ replicate (Z.to_nat w - length l) v.
Proof.
  intros H1 H2. unfold prefix, padded, zlen in *. rewrite take_app_ge by lia. f_equal. rewrite take_replicate. f_equal. lia.
Qed.

Lemma view_persisted {X Y} (F : X -> Y) w v z (l : list X) : F z = v -> zlen l <= w <= max_num_reqs c ->
  prefix w (persist c v (map F l)) = map F (l ++ replicate (Z.to_nat w - length l) z).
Proof.
  intros Hz Hw. change (persist c v (map F l)) with (padded (max_num_reqs c) v (map F l)).
  rewrite prefix_padded by (unfold zlen in *; rewrite ?length_map; lia). rewrite map_app, length_map. f_equal.
  change (map F (replicate ?k z)) with (F <$> replicate k z). by rewrite fmap_replicate, Hz.
Qed.

(** What a captured graph of width [w] reads is the vectors of the batch filled
    up to [w] rows. *)
Lemma decode_view_persisted w rows prs : zlen rows <= w <= max_num_reqs c -> length prs = length rows ->
  decode_view w (persist_decode c (trash_row c) (fields_of c rpp rows prs)) = fields_of c rpp (pad_rows w rows) (pad_plans w prs).
Proof.
  intros Hw Hl. unfold decode_view, persist_decode, fields_of, pad_rows, pad_plans.
  cbn [d_head d_tail d_slots d_counts d_live d_nscore d_pending_in d_pending_out]. rewrite !map_map.
  assert (zlen prs <= w <= max_num_reqs c) by (unfold zlen in *; lia).
  f_equal; by apply view_persisted.
Qed.

Lemma pad_alive n rows : alive (pad_rows n rows) = alive rows.
Proof.
  unfold alive, pad_rows. rewrite omap_app. rewrite <- (app_nil_r (omap id rows)) at 2. f_equal.
  induction (Z.to_nat n - length rows)%nat as [|k IH]; [done|exact IH].
Qed.

Lemma pad_plans_ok t0 t n rows prs : Forall2 (row_plan c rpp t0 t) rows prs ->
  Forall2 (row_plan c rpp t0 t) (pad_rows n rows) (pad_plans n prs).
Proof.
  intros H. apply Forall2_app; [done|]. rewrite (Forall2_length _ _ _ H). by apply Forall2_replicate.
Qed.

Lemma pad_length n rows : zlen rows <= n -> zlen (pad_rows n rows) = n.
Proof. intros H. unfold pad_rows, zlen in *. rewrite length_app, length_replicate. lia. Qed.
End update.
End DsaDecodeUpdate.
