(* ===== verification/DsaVerifyCorrect.v ===== *)
(** * The verify path plans every request

    [spec_decode_schedule] of DsaSchedule.v on a batch of requests with a few
    tokens each: every request gets a right plan, and the vectors name its
    regions, its tail and its tokens. *)

From S2P Require Import Prelude Tensors DsaPending DsaSchedule DsaScheduleCorrect DsaSummary DsaDecodeCorrect.
Local Open Scope Z_scope.

Module DsaVerifyCorrect.
Import DsaPending DsaPendingCorrect DsaSchedule DsaPlan DsaScheduleCorrect DsaSummary DsaSummaryCorrect DsaDecodeCorrect DsaDecodeUpdate.

Section verify.
Context (c : config) (rpp : Z).
Context (Hregion : 0 < region c) (Hrpp : 0 < rpp).

Abbreviation item_ok := (item_ok c rpp) (only parsing).
Abbreviation it_slot := (it_slot c rpp) (only parsing).
Abbreviation it_head := (it_head c) (only parsing).
Abbreviation it_tail := (it_tail c) (only parsing).
Abbreviation it_nbuf := (it_nbuf c) (only parsing).
Abbreviation it_nreg := (it_nreg c) (only parsing).
Abbreviation it_closed := (it_closed c) (only parsing).
Abbreviation nrm := (verify_width c) (only parsing).
Abbreviation trash := (trash_row c) (only parsing).

(** ** Batches *)

Record describes_verify (md : metadata) (rows : list (option item)) : Prop := DescribesVerify {
  dv_count : num_decodes md = zlen rows;
  dv_len : Forall (fun it => it_len it <= Z.max (spec_query_len c) 1) (alive rows);
  dv_starts : prefix (zlen rows + 1) (query_start_loc_cpu md) = map (tok_at rows) (zrange 0 (zlen rows + 1));
  dv_seq : prefix (zlen rows) (seq_lens_cpu md) = map row_seq rows;
  dv_host : Forall2 row_pages rows (prefix (zlen rows) (host_table md (zlen rows)));
  dv_tokens : tok_at rows (zlen rows) <= num_decode_tokens md
}.

Definition ver_req (r : option item) : verify_req :=
  match r with
  | Some it => VerifyReq (it_len it) (it_past it) true (it_head it) (it_first c it)
  | None => VerifyReq 0 0 false 0 0
  end.

Lemma verify_entry_eq r pages : row_pages r pages -> (forall it, r = Some it -> item_ok it) ->
  verify_entry c rpp (row_len r) (row_seq r) pages = Ok (ver_req r).
Proof using Hregion Hrpp.
  intros Hp Hr. unfold verify_entry. destruct r as [it|]; cbn [row_seq row_pages row_len ver_req] in *.
  - pose proof (Hr it eq_refl) as Hit. pose proof (item_past _ _ _ Hit). pose proof (item_len _ _ _ Hit).
    replace (it_past it + it_len it - it_len it) with (it_past it) by lia.
    rewrite (proj2 (Z.ltb_lt 0 (it_len it))), (proj2 (Z.ltb_lt 0 (it_past it + it_len it))), (proj2 (Z.leb_le 0 (it_past it))) by lia.
    cbn [andb]. fold (it_first c it) (it_head it).
    destruct (region_page c rpp Hregion Hrpp it 0 Hit) as (page & Hpg & Hpos); [pose proof (nreg_pos c rpp Hregion it Hit); lia|].
    rewrite Z.add_0_r in Hpg. apply (zget_prefix _ pages) in Hpg; [|done]. rewrite Z.min_l by (apply zget_Some in Hpg; lia). rewrite (row_get_in _ _ _ Hpg). cbn [mbind result_bind].
    by rewrite (proj2 (Z.ltb_lt 0 page)) by lia.
  - cbn. destruct pages as [|page pages]; [done|]. rewrite Z.div_0_l by lia.
    rewrite Z.min_l by (rewrite zlen_cons; pose proof (zlen_nonneg pages); lia). done.
Qed.

Lemma verify_entries_eq rows pages : Forall2 row_pages rows pages -> Forall item_ok (alive rows) ->
  verify_entries c rpp (zip (zip (map row_len rows) (map row_seq rows)) pages) = Ok (map ver_req rows).
Proof using Hregion Hrpp.
  intros Hp Hok. rewrite Forall_forall in Hok.
  assert (forall it, Some it ∈ rows -> item_ok it) as Hr.
  { intros it Hin. apply Hok, list_elem_of_omap. by exists (Some it). }
  clear Hok. induction Hp as [|r p rows pages Hrp _ IH]; [done|]. cbn [map zip zip_with verify_entries].
  rewrite verify_entry_eq; [|done|intros it ->; apply Hr; left]. cbn [mbind result_bind].
  rewrite IH; [done|]. intros it Hin. apply Hr. by right.
Qed.

Lemma clamped_diff_eq (f : Z -> Z) n : forall k, 0 <= n ->
  clamped_diff (map f (zrange k (n + 1))) = map (fun i => Z.max (f (i + 1) - f i) 0) (zrange k n).
Proof.
  intros k Hn. remember (Z.to_nat n) as m eqn:Hm. revert n k Hn Hm. induction m as [|m IH]; intros n k Hn Hm.
  - assert (n = 0) as -> by lia. rewrite (zrange_open k), !zrange_nil by lia. done.
  - rewrite (zrange_open k (n + 1)), (zrange_open k n) by lia. replace (n + 1 - 1) with (n - 1 + 1) by lia.
    cbn [map]. rewrite <- (IH (n - 1) (k + 1)) by lia. rewrite (zrange_open (k + 1)) by lia. done.
Qed.

Lemma row_lens_eq rows : Forall item_ok (alive rows) ->
  map (fun i => Z.max (tok_at rows (i + 1) - tok_at rows i) 0) (zrange 0 (zlen rows)) = map row_len rows.
Proof.
  intros Hok. apply list_eq. intros i. rewrite !list_lookup_fmap. destruct (rows !! i) as [r|] eqn:Hr.
  - pose proof (lookup_lt_Some _ _ _ Hr). unfold zrange. rewrite lookup_seqZ_lt by (unfold zlen; lia). cbn [fmap option_fmap option_map].
    rewrite Z.add_0_l. rewrite <- zget_nat in Hr. rewrite (tok_at_next _ _ _ Hr). f_equal.
    destruct r as [it|]; cbn; [|lia]. rewrite Forall_forall in Hok.
    assert (item_ok it) as Hit by (apply Hok, list_elem_of_omap; exists (Some it); split; [by eapply zget_elem|done]).
    pose proof (item_len _ _ _ Hit). lia.
  - apply lookup_ge_None in Hr. unfold zrange. rewrite lookup_seqZ_ge by (unfold zlen; lia). done.
Qed.

(** ** Plans *)

Section moves.
Context (s : dsa_state) (rows : list (option item)).
Context (Hok : Forall item_ok (alive rows)).

Lemma row_item it : Some it ∈ rows -> item_ok it.
Proof using Hok. intros Hin. rewrite Forall_forall in Hok. apply Hok, list_elem_of_omap. by exists (Some it). Qed.

Definition row_slots (r : option item) : list Z := match r with Some it => it_slots c rpp it | None => [] end.

Lemma regions_eq it : - (- (it_head it + it_len it) / region c) = it_nreg it.
Proof using Hregion.
  change (it_head it + it_len it) with (it_nbuf it). rewrite nreg_split by done. pose proof (nbuf_split c Hregion it). pose proof (tail_range c Hregion it).
  destruct (Z.eqb_spec (it_tail it) 0) as [E|E].
  - replace (- it_nbuf it) with ((- it_closed it) * region c) by lia. rewrite Z.div_mul by lia. lia.
  - replace (- it_nbuf it) with (region c - it_tail it + (- it_closed it - 1) * region c) by lia.
    rewrite Z.div_add by lia. rewrite Z.div_small by lia. lia.
Qed.

Lemma verify_slots_run r pages (st : dsa_state) : r ∈ rows -> row_pages r pages ->
  verify_slots c rpp (ver_req r) pages st = (Ok (row_slots r), st).
Proof using Hok Hregion Hrpp.
  intros Hin Hp. unfold verify_slots. destruct r as [it|]; cbn [ver_req vr_alive row_slots row_pages] in *; [|done].
  unfold verify_regions. cbn [vr_head vr_qlen vr_first]. rewrite regions_eq.
  apply (collect_slots c rpp Hregion Hrpp); [by apply row_item|done].
Qed.

Lemma verify_head_moves t0 t r : r ∈ rows -> table_ok t -> row_of_slot t = row_of_slot t0 ->
  (forall it, r = Some it -> resumes c rpp t it) ->
  moves (verify_head c (ver_req r) (row_slots r)) (row_cost (head_cost c) r) s t
    (fun b t' => head_ok c rpp t0 r b t' /\ row_of_slot t' = row_of_slot t0).
Proof using Hok Hregion Hrpp.
  intros Hin Ht Hm Hres. unfold verify_head. destruct r as [it|]; [|by apply moves_ret].
  cbn [ver_req vr_alive vr_head row_slots row_cost head_ok andb]. unfold head_cost.
  destruct (Z.eqb_spec (it_head it) 0) as [E|E]; cbn [negb]; [by apply moves_ret|].
  eapply moves_lift_bind; [apply (first_slot_get c rpp Hregion); by apply row_item|].
  destruct (Hres it eq_refl E) as [row Hrow].
  eapply moves_weaken; [by apply (moves_get s t _ row)|lia|].
  intros b t' _ (-> & Hh & Hm'). split; [|congruence]. split; [|done]. intros _. split; [congruence|done].
Qed.

(** The vectors of a row with its plan *)
Definition row_closed (it : item) : list bool := map (fun j => (j + 1) * region c <=? it_nbuf it) (zrange 0 (it_nreg it)).

Definition ver_out (base : Z) (r : option item) (pl : plan) (completed : list Z) : verify_out :=
  match r with
  | None => VerifyOut (padded nrm 0 []) (padded nrm 0 []) (padded nrm false []) (padded nrm trash []) 0 base trash []
  | Some it => VerifyOut (padded nrm 0 (map (fun b : bool => if b then region c else 0) (row_closed it)))
      (padded nrm 0 (it_slots c rpp it)) (padded nrm false (row_closed it)) (padded nrm trash (pl_keep pl))
      (it_tail it) (base + it_nreg it - 1) (pl_out pl) completed
  end.

(** What a row's outcome says of a plan with its head [h] *)
Definition out_ok (base : Z) (r : option item) (h : Z) (o : verify_out) (t : pending_table) : Prop :=
  exists pl, o = ver_out base r pl (match r with Some it => completed_of c rpp it | None => [] end) /\ pl_in pl = h /\
    match r with
    | None => pl = Plan h trash []
    | Some it => plan_ok c rpp t it pl /\ (it_tail it = 0 -> pl_out pl = trash)
    end.

Lemma map_fst_zip {A B} (l : list A) (k : list B) : length l = length k -> map fst (zip l k) = l.
Proof. revert k. induction l as [|x l IH]; intros [|y k] H; cbn in *; [done..|]. f_equal. apply IH. by injection H. Qed.

Lemma verify_row_moves base t r h : r ∈ rows -> table_ok t -> busy_rows t + row_cost (body_cost c) r <= capacity t ->
  (forall it, r = Some it -> it_head it <> 0 -> held t (it_slot it 0) h) ->
  moves (verify_row c nrm base (ver_req r) h (row_slots r)) (row_cost (body_cost c) r) s t
    (fun o t' => out_ok base r h o t' /\ True).
Proof using Hok Hregion Hrpp.
  intros Hin Ht Hb Hheld. unfold verify_row. destruct r as [it|].
  2:{ cbn [ver_req vr_alive negb row_cost]. apply moves_ret; [done|]. split; [|done]. by exists (Plan h trash []). }
  pose proof (row_item it Hin) as Hit. cbn [ver_req vr_alive negb vr_head vr_qlen row_slots row_cost] in *.
  change (it_head it + it_len it) with (it_nbuf it). change (it_nbuf it mod region c) with (it_tail it).
  rewrite (zlen_it_slots c rpp Hregion it Hit).
  eapply moves_lift_bind; [exact (first_slot_get c rpp Hregion it Hit)|].
  eapply moves_lift_bind; [exact (last_slot_get c rpp Hregion it Hit)|].
  unfold body_cost in *. pose proof (nreg_pos c rpp Hregion it Hit) as Hnreg.
  set (kcost := kept_regions c it - _) in *. rewrite (Z.add_comm _ kcost) in Hb |- *.
  eapply moves_bind with (post1 := fun kept t' => exists keep, zlen keep = kept_regions c it /\
    map fst kept.1 = keep /\
    kept.2 = (if may_roll_back c (it_len it)
              then map (it_slot it) (zrange (first_taken c it) (it_closed it - first_taken c it)) else []) /\
    forall i row, zget keep i = Some row -> held t' (it_slot it i) row).
  { destruct (may_roll_back c (it_len it)) eqn:Hm.
    - pose proof (keep_cost c rpp Hregion it Hit Hm) as Hcost. fold kcost in Hcost. rewrite <- Hcost in *.
      unfold it_slots. replace (it_nreg it) with (Z.of_nat (Z.to_nat (it_nreg it))) by lia.
      eapply moves_weaken; [apply (keep_closed_moves c rpp Hregion Hrpp it h _ s (Z.to_nat (it_nreg it)) Hit 0); try done; try lia| |].
      + intros _ Hne. by apply Hheld.
      + destruct (it_tail it =? 0); lia.
      + done.
      + intros kept t2 _ (keep & A1 & A2 & A3 & A4). exists keep. unfold kept_regions. rewrite Hm.
        pose proof (closed_nonneg c rpp Hregion it Hit). rewrite Z.sub_0_r in *. split_and!; [lia| | |].
        * rewrite A2. apply map_fst_zip. rewrite length_map. unfold zlen, zrange in *. rewrite length_seqZ. lia.
        * rewrite A3. assert (0 <= first_taken c it) as Hft by (unfold first_taken; destruct (it_head it =? 0); lia).
          by rewrite (Z.max_r 0 (first_taken c it) Hft).
        * intros i row Hi. by apply A4.
    - unfold kcost, kept_regions in *. rewrite Hm in *. rewrite andb_false_r in *. apply moves_ret; [done|].
      exists []. split_and!; try done. intros i row Hi%zget_Some. unfold zlen in Hi. cbn in Hi. lia. }
  intros kept t1 Ht1 Hk1 Hb1 (keep & A1 & A2 & A3 & A4). pose proof (keeps_capacity _ _ Hk1) as Hcap.
  rewrite <- (Z.add_0_r (if it_tail it =? 0 then 0 else 1)).
  eapply moves_bind with (post1 := fun out t' => (it_tail it <> 0 -> held t' (it_slot it (it_nreg it - 1)) out) /\ (it_tail it = 0 -> out = trash)).
  { destruct (Z.eqb_spec (it_tail it) 0) as [E|E]; [by apply moves_ret|].
    eapply moves_weaken; [apply moves_acquire; [done| |lia]|lia|done].
    apply (slot_nonneg c rpp Hregion Hrpp it _ Hit). lia. }
  intros out t2 Ht2 Hk2 _ [Hout Htrash]. apply moves_ret; [done|]. split; [|done]. exists (Plan h out keep).
  split_and!; [|done| |done].
  - cbn [ver_out pl_keep pl_out]. unfold row_closed, completed_of. by rewrite A2, A3.
  - split; cbn [pl_in pl_out pl_keep]; [..|done|].
    + intros Hne. apply (keeps_held _ _ Hk2), (keeps_held _ _ Hk1). by apply Hheld.
    + done.
    + intros j row Hj. apply (keeps_held _ _ Hk2). by apply A4.
Qed.

(** The slots of the regions of all rows *)
Lemma collect_row_slots rs pages (st : dsa_state) : (forall r, r ∈ rs -> r ∈ rows) -> Forall2 row_pages rs pages ->
  collect (zip (map ver_req rs) pages) (fun '(v, pages) => verify_slots c rpp v pages) st = (Ok (map row_slots rs), st).
Proof using Hok Hregion Hrpp.
  intros Hin H. induction H as [|r p rs pages Hr _ IH]; [done|]. cbn [map zip zip_with collect].
  rewrite (M_bind_ok _ _ st _ st (verify_slots_run r p st (Hin r ltac:(left)) Hr)).
  rewrite (M_bind_ok _ _ st _ st (IH ltac:(intros; apply Hin; by right))). done.
Qed.

(** A row of the batch with its number and the row of its head *)
Definition hrows (ins : list Z) : list (Z * option item * Z) := zip (zip (zrange 0 (zlen rows)) rows) ins.

Lemma zip_hrows k rs ins : length ins = length rs ->
  zip (zip (zrange k (zlen rs)) (map ver_req rs)) (zip ins (map row_slots rs)) =
  map (fun x : Z * option item * Z => (x.1.1, ver_req x.1.2, (x.2, row_slots x.1.2))) (zip (zip (zrange k (zlen rs)) rs) ins).
Proof.
  revert k ins. induction rs as [|r rs IH]; intros k [|h ins] Hl; try done.
  rewrite zlen_cons, zrange_open by (pose proof (zlen_nonneg rs); lia). cbn. f_equal.
  replace (zlen rs + 1 - 1) with (zlen rs) by lia. apply IH. by injection Hl.
Qed.

Lemma hrows_elem ins k r h : (k, r, h) ∈ hrows ins -> r ∈ rows /\ zget rows k = Some r /\ zget ins k = Some h.
Proof.
  intros Hin. apply list_elem_of_lookup in Hin as [i Hi]. unfold hrows in Hi.
  apply lookup_zip_with_Some in Hi as ([k' r'] & h' & [= -> -> ->] & Hi & Hh).
  apply lookup_zip_with_Some in Hi as (k'' & r'' & [= -> ->] & Hk & Hr).
  apply lookup_seqZ in Hk as [-> Hk]. rewrite Z.add_0_l. rewrite !zget_nat. split_and!; [by eapply list_elem_of_lookup_2|done..].
Qed.

Definition hcost (x : Z * option item * Z) : Z := row_cost (body_cost c) x.1.2.

Lemma hcost_sum ins : length ins = length rows -> zsum (map hcost (hrows ins)) = zsum (map (row_cost (body_cost c)) rows).
Proof.
  unfold hrows. generalize 0 as k. revert ins. generalize rows as rs. clear Hok.
  induction rs as [|r rs IH]; intros [|h ins] k Hl; try done.
  rewrite zlen_cons, zrange_open by (pose proof (zlen_nonneg rs); lia). cbn. f_equal.
  replace (zlen rs + 1 - 1) with (zlen rs) by lia. apply IH. by injection Hl.
Qed.

(** Heads first, then the rest *)
Lemma verify_rows_moves t : table_ok t -> Forall (resumes c rpp t) (alive rows) ->
  busy_rows t + cost_of c rows <= capacity t ->
  moves (ins ← collect rows (fun r => verify_head c (ver_req r) (row_slots r));
         outs ← collect (hrows ins) (fun x => verify_row c nrm (x.1.1 * nrm) (ver_req x.1.2) x.2 (row_slots x.1.2));
         mret (ins, outs)) (cost_of c rows) s t
    (fun io t' => length io.1 = length rows /\ Forall2 (fun r b => head_ok c rpp t r b t') rows io.1 /\
       Forall2 (fun x o => out_ok (x.1.1 * nrm) x.1.2 x.2 o t') (hrows io.1) io.2).
Proof using Hok Hregion Hrpp.
  intros Ht Hres Hb. rewrite Forall_forall in Hres. unfold cost_of in *.
  assert (forall r, 0 <= row_cost (head_cost c) r) as Hh0.
  { intros [it|]; [|done]. cbn. unfold head_cost. case_match; lia. }
  assert (forall r, r ∈ rows -> 0 <= row_cost (body_cost c) r) as Hbn.
  { intros [it|] Hin; [|done]. apply (body_cost_nonneg c rpp Hregion). by apply row_item. }
  assert (0 <= zsum (map (row_cost (body_cost c)) rows)) as Hb0.
  { clear -Hbn. induction rows as [|r rs IH]; [done|]. cbn. pose proof (Hbn r ltac:(left)).
    enough (0 <= zsum (map (row_cost (body_cost c)) rs)) by (unfold zsum in *; lia). apply IH. intros. apply Hbn. by right. }
  eapply moves_bind.
  { apply (moves_collect rows _ (row_cost (head_cost c)) s (fun t' => row_of_slot t' = row_of_slot t)
      (fun r t' => row_of_slot t' = row_of_slot t) (head_ok c rpp t)); try done.
    - intros [it|] b t1 t2 Hk; cbn; [|done]. intros [H1 H2]. split; [|done]. intros Hne. destruct (H1 Hne). split; [done|].
      by eapply keeps_held.
    - intros r t1 Hin Ht1 Hi _ _. apply (verify_head_moves t t1 r); try done. intros it -> Hne. rewrite Hi.
      apply Hres; [|done]. apply list_elem_of_omap. by exists (Some it).
    - apply Forall_forall. done.
    - lia. }
  intros ins t1 Ht1 Hk1 Hb1 [Hins _]. pose proof (keeps_capacity _ _ Hk1).
  assert (length ins = length rows) as Hlen by (symmetry; by eapply Forall2_length).
  rewrite <- (hcost_sum ins Hlen) in *. rewrite <- (Z.add_0_r (zsum (map hcost _))). eapply moves_bind.
  { apply (moves_collect (hrows ins) _ hcost s (fun _ => True)
      (fun x t' => forall it, x.1.2 = Some it -> it_head it <> 0 -> held t' (it_slot it 0) x.2)
      (fun x => out_ok (x.1.1 * nrm) x.1.2 x.2)); try done.
    - intros [[k r] h] Hin. apply Hbn. by eapply hrows_elem.
    - intros [[k r] h] o t2 t3 Hk. cbn. intros (pl & A1 & A2 & A3). exists pl. split_and!; [done|done|].
      destruct r; [|done]. destruct A3. split; [by eapply plan_ok_mono|done].
    - intros [[k r] h] t2 t3 _ _ Hk Hp it E Hne. apply (keeps_held _ _ Hk). by apply Hp.
    - intros [[k r] h] t2 Hin Ht2 _ Hp Hb2. apply verify_row_moves; try done. by eapply hrows_elem.
    - apply Forall_forall. intros [[k r] h] Hin it E Hne. cbn in E. subst r. cbn [snd].
      destruct (hrows_elem _ _ _ _ Hin) as (_ & Hr & Hh). pose proof (zget_Some _ _ _ Hr). unfold zget in Hr, Hh.
      destruct (Z.ltb_spec k 0); [lia|]. destruct (Forall2_lookup_l _ _ _ _ _ Hins Hr) as (h' & E & Hho). simplify_eq.
      cbn in Hho. by apply Hho.
    - lia. }
  intros outs t2 Ht2 Hk2 _ [Houts _]. apply moves_ret; [done|]. cbn [fst snd]. split_and!; [done| |done].
  eapply Forall2_impl; [exact Hins|]. intros [it|] b; cbn; [|done]. intros [H1 H2]. split; [|done]. intros Hne.
  destruct (H1 Hne). split; [done|]. by eapply keeps_held.
Qed.

(** The plans behind the outcomes *)
Lemma out_plans t0 t ins outs : Forall2 (fun r b => head_ok c rpp t0 r b t) rows ins ->
  Forall2 (fun x o => out_ok (x.1.1 * nrm) x.1.2 x.2 o t) (hrows ins) outs ->
  exists prs, Forall2 (row_plan c rpp t0 t) rows prs /\ ins = map pl_in prs /\
    outs = map (fun x : drow => ver_out (x.1.1 * nrm) x.1.2 x.2 (match x.1.2 with Some it => completed_of c rpp it | None => [] end)) (drows rows prs).
Proof.
  unfold hrows, drows. generalize 0 as k. clear Hok. revert ins outs. induction rows as [|r rs IH]; intros ins outs k Hins Houts.
  { apply Forall2_nil_inv_l in Hins as ->. exists []. split_and!; [done|done|].
    rewrite zip_with_nil_r in Houts. apply Forall2_nil_inv_l in Houts as ->. by rewrite zip_with_nil_r. }
  apply Forall2_cons_inv_l in Hins as (h & ins' & Hh & Hins & ->).
  rewrite zlen_cons, zrange_open in * by (pose proof (zlen_nonneg rs); lia). replace (zlen rs + 1 - 1) with (zlen rs) in * by lia.
  cbn [zip zip_with] in *. apply Forall2_cons_inv_l in Houts as (o & outs' & Ho & Houts & ->). cbn [fst snd] in Ho.
  destruct (IH ins' outs' (k + 1) Hins Houts) as (prs & H1 & H2 & H3). destruct Ho as (pl & -> & Hin & Hpl).
  exists (pl :: prs). cbn [map zip zip_with fst snd]. split_and!; [|by rewrite Hin, H2|by rewrite <- H3].
  constructor; [|done]. destruct r as [it|]; cbn in *.
  - destruct Hpl as [Hpl Htrash], Hh as [Hh1 Hh2]. rewrite Hin. split_and!; [done| |done|done]. intros Hne. by apply Hh1.
  - by subst.
Qed.
End moves.

(** ** Tokens *)

(** The tokens of a request, from the row [r] of the batch on *)
Definition item_toks (r : Z) (it : item) : list (Z * Z * Z * Z) :=
  map (fun i => (r * (nrm * region c) + it_head it + i, r, it_past it + i + 1, (it_past it + i) / region c)) (zrange 0 (it_len it)).

Fixpoint ver_toks (r : Z) (rows : list (option item)) : list (Z * Z * Z * Z) :=
  match rows with
  | [] => []
  | Some it :: rows' => item_toks r it ++ ver_toks (r + 1) rows'
  | None :: rows' => ver_toks (r + 1) rows'
  end.

Lemma zlen_ver_toks rows : forall r, Forall item_ok (alive rows) -> zlen (ver_toks r rows) = tok_at rows (zlen rows).
Proof.
  intros r Hok. unfold tok_at, zlen. rewrite Nat2Z.id, firstn_all. revert r.
  induction rows as [|[it|] rows IH]; intros r; [done| |].
  - cbn in Hok. apply Forall_cons in Hok as [Hit Hok]. pose proof (item_len _ _ _ Hit).
    cbn [ver_toks map zsum foldr row_len]. rewrite length_app, Nat2Z.inj_add. fold (zsum (map row_len rows)).
    rewrite IH by done. f_equal. unfold item_toks. rewrite length_map. unfold zrange. rewrite length_seqZ. lia.
  - cbn [ver_toks map zsum foldr row_len]. fold (zsum (map row_len rows)). rewrite IH by done. lia.
Qed.

Lemma zrange_shift k n : zrange k n = map (fun i => k + i) (zrange 0 n).
Proof. unfold zrange. rewrite fmap_add_seqZ. by rewrite Z.add_0_r. Qed.

Lemma token_fields_eq rows : forall r t qsl, Forall item_ok (alive rows) ->
  (forall i, 0 <= i < zlen rows -> zget qsl i = Some (t + tok_at rows i)) ->
  token_fields c nrm r t (zip qsl (map ver_req rows)) = ver_toks r rows.
Proof.
  induction rows as [|row rows IH]; intros r t qsl Hok Hq; [by destruct qsl|].
  pose proof (zlen_nonneg rows). rewrite zlen_cons in Hq. pose proof (Hq 0 ltac:(lia)) as H0.
  destruct qsl as [|q qsl]; [done|]. unfold tok_at in H0. cbn in H0. injection H0 as ->. cbn [zip zip_with map token_fields].
  rewrite Z.add_0_r.
  assert (forall i, 0 <= i < zlen rows -> zget qsl i = Some (t + row_len row + tok_at rows i)) as Hq'.
  { intros i Hi. specialize (Hq (i + 1) ltac:(lia)). rewrite zget_cons_S in Hq by lia. rewrite Hq. f_equal.
    unfold tok_at, zsum. replace (Z.to_nat (i + 1)) with (S (Z.to_nat i)) by lia. cbn [take map foldr]. lia. }
  destruct row as [it|]; cbn [ver_req vr_qlen vr_past vr_alive vr_head ver_toks].
  - apply Forall_cons in Hok as [Hit Hok]. rewrite <- (IH (r + 1) (t + it_len it) qsl Hok Hq'). f_equal.
    unfold item_toks. rewrite (zrange_shift t). rewrite map_map. apply list_fmap_ext. intros i x _.
    replace (t + x - t) with x by lia. done.
  - rewrite zrange_nil by lia. cbn [map app]. rewrite Z.add_0_r. apply IH; [done|]. cbn [row_len] in Hq'. by rewrite Z.add_0_r in Hq'.
Qed.

Lemma tok_nscore_bound rows n : Forall (fun it => it_past it + it_len it - 1 < (n + 1) * region c) (alive rows) ->
  forall r, Forall (fun w => w <= n) (map snd (ver_toks r rows)).
Proof using Hregion.
  induction rows as [|[it|] rows IH]; intros H r; [constructor| |apply IH; done]. cbn in H. apply Forall_cons in H as [H1 H].
  cbn [ver_toks]. rewrite map_app. apply Forall_app. split; [|by apply IH]. unfold item_toks. rewrite map_map.
  apply Forall_fmap, Forall_forall. intros i Hi%elem_zrange. cbn. enough ((it_past it + i) / region c < n + 1) by lia.
  apply Z.div_lt_upper_bound; lia.
Qed.

(** ** The vectors *)

Definition row_out (x : drow) : verify_out :=
  ver_out (x.1.1 * nrm) x.1.2 x.2 (match x.1.2 with Some it => completed_of c rpp it | None => [] end).

Definition vfields (rows : list (option item)) (prs : list plan) (nt : Z) : verify_fields :=
  let outs := map row_out (drows rows prs) in
  let toks := ver_toks 0 rows in
  let padding := zrange (zlen toks) (nt - zlen toks) in
  let zeros := map (fun _ => 0) padding in
  VerifyFields (map vr_head (map ver_req rows)) (map vo_tail outs) (map pl_in prs) (map vo_pending_out outs)
    (map vo_tail_reg outs) (concat (map vo_counts outs)) (concat (map vo_slots outs)) (concat (map vo_live outs))
    (concat (map vo_keep outs))
    (map (fun t => t.1.1.1) toks ++ map (fun i => zlen rows * nrm * region c + i) padding)
    (map (fun t => t.1.1.2) toks ++ zeros) (map (fun t => t.1.2) toks ++ zeros) (map snd toks ++ zeros).

Lemma completed_closed it : item_ok it ->
  Forall (fun slot => exists j, 0 <= j < it_closed it /\ slot = it_slot it j) (completed_of c rpp it).
Proof using Hregion.
  intros Hit. unfold completed_of. apply Forall_app. pose proof (nbuf_split c Hregion it). pose proof (tail_range c Hregion it). split.
  - destruct (negb (it_head it =? 0)); cbn; [|constructor]. destruct (Z.leb_spec (region c) (it_nbuf it)); [|constructor].
    apply Forall_singleton. exists 0. split; [|done]. nia.
  - destruct (may_roll_back c (it_len it)); [|constructor]. apply Forall_fmap, Forall_forall. intros j Hj%elem_zrange. cbn.
    exists j. split; [|done]. unfold first_taken in Hj. destruct (it_head it =? 0); lia.
Qed.

Lemma vo_completed_closed rows prs : Forall item_ok (alive rows) ->
  only_closed c rpp rows (concat (map vo_completed (map row_out (drows rows prs)))).
Proof using Hregion.
  intros Hok. apply Forall_concat, Forall_fmap, Forall_fmap, Forall_forall. intros [[k r] pl] Hin. cbn.
  destruct (drows_elem _ _ _ _ _ Hin) as (_ & Hr & _). destruct r as [it|]; [|constructor]. cbn.
  assert (it ∈ alive rows) as Ha by (apply list_elem_of_omap; exists (Some it); split; [by eapply zget_elem|done]).
  rewrite Forall_forall in Hok. eapply Forall_impl; [exact (completed_closed it (Hok _ Ha))|].
  intros slot (j & Hj & ->). by exists it, j.
Qed.

Lemma zip_prefix {A B} (l : list A) (k : list B) : zip l (prefix (zlen l) k) = zip l k.
Proof.
  unfold prefix, zlen. rewrite Nat2Z.id. revert k. induction l as [|x l IH]; intros [|y k]; [done..|]. cbn. by rewrite IH.
Qed.

Definition spec_room (md : metadata) (rows : list (option item)) (s0 : dsa_state) : Prop :=
  zlen rows <= max_num_reqs c /\ num_decode_tokens md <= max_num_reqs c * Z.max (spec_query_len c) 1 /\
  0 < spec_query_len c /\ 0 <= num_kv_groups c /\ 0 <= graph_regions s0 /\
  (eager_fallback c = true \/ Forall (fun it => it_past it + it_len it - 1 < (graph_regions s0 + 1) * region c) (alive rows)) /\
  (forall width f, spec_buf s0 = Some (width, f) -> width = table_width md).

Theorem spec_schedule_planned (persistent : bool) md rows s s' t :
  let s0 := if persistent then trimmed md s else s in
  describes_verify md rows -> regions_per_page s = rpp -> Forall item_ok (alive rows) ->
  (end_step c ;; on_pending begin_step) s0 = (Ok tt, set_pending t s') ->
  table_ok t -> Forall (resumes c rpp t) (alive rows) -> busy_rows t + cost_of c rows <= capacity t ->
  (persistent = true -> spec_room md rows s0) ->
  exists prs t' completed, table_ok t' /\ keeps t t' /\ Forall2 (row_plan c rpp t t') rows prs /\ only_closed c rpp rows completed /\
    exists sched, completed_slots sched = completed /\ builder_owned sched = false /\
      body sched = (if persistent then VerifyView (zlen rows) (num_decode_tokens md) nrm
                    else Verify (zlen rows) (num_decode_tokens md) nrm (vfields rows prs (num_decode_tokens md))) /\
      spec_decode_schedule c persistent md s =
        (Ok sched, if persistent
                   then set_spec_buf (table_width md,
                          persist_verify c (max_num_reqs c) nrm (max_num_reqs c * Z.max (spec_query_len c) 1) (zlen rows)
                            (vfields rows prs (num_decode_tokens md))) (set_pending t' s')
                   else set_pending t' s').
Proof using Hregion Hrpp.
  intros s0 Hd Hs Hok Hopen Ht Hres Hb Hp.
  destruct (verify_rows_moves s' rows Hok t Ht Hres Hb) as ([ins outs] & t' & E & Ht' & Hk & _ & Hlen & Hins & Houts).
  cbn [fst snd] in *. destruct (out_plans rows t t' ins outs Hins Houts) as (prs & Hprs & Hpin & Hpouts).
  exists prs, t', (concat (map vo_completed (map row_out (drows rows prs)))). split_and!; try done.
  { by apply vo_completed_closed. }
  apply M_bind_inv in E as (ins' & s1 & E1 & E). apply M_bind_inv in E as (outs' & s2 & E2 & E).
  injection E as <- <- E3. subst s2.
  apply M_bind_inv in Hopen as ([] & s3 & Hend & Hbegin).
  assert (regions_per_page s0 = rpp) as Hs0.
  { subst s0. destruct persistent; [|done]. unfold trimmed. by case_match. }
  unfold spec_decode_schedule. rewrite (dv_count _ _ Hd), (dv_starts _ _ Hd), (dv_seq _ _ Hd).
  pose proof (zlen_nonneg rows) as Hz. rewrite clamped_diff_eq, row_lens_eq by done.
  assert (existsb (fun q => Z.max (spec_query_len c) 1 <? q) (map row_len rows) = false) as ->.
  { apply not_true_iff_false. rewrite existsb_exists. intros (q & Hq & Hlt%Z.ltb_lt). apply in_map_iff in Hq as (r & <- & Hr).
    destruct r as [it|]; cbn in Hlt; [|lia]. pose proof (dv_len _ _ Hd) as Hle. rewrite Forall_forall in Hle.
    specialize (Hle it ltac:(apply list_elem_of_omap; exists (Some it); split; [by apply list_elem_of_In|done])). cbn in Hle. lia. }
  assert (persistent && ((max_num_reqs c <? zlen rows) || (max_num_reqs c * Z.max (spec_query_len c) 1 <? num_decode_tokens md)) = false) as ->.
  { destruct persistent; [|done]. destruct (Hp eq_refl) as (H1 & H2 & _). cbn.
    by rewrite (proj2 (Z.ltb_ge _ _) H1), (proj2 (Z.ltb_ge _ _) H2). }
  rewrite (M_bind_ok _ _ s tt s0).
  2:{ subst s0. destruct persistent; [|done]. destruct (Hp eq_refl) as (_ & _ & _ & _ & _ & _ & Hwidth). unfold trim_graph_width, ensure_spec_buffers, trimmed, set_graph_width in *.
      munfold. destruct (table_width md * regions_per_page s <? graph_regions s); cbn in *;
        (destruct (spec_buf s) as [[width f]|] eqn:Ef; [|done]); by rewrite (Hwidth _ _ eq_refl), Z.eqb_refl. }
  rewrite (M_bind_ok _ _ s0 s0 s0) by done. rewrite Hs0.
  rewrite (M_bind_ok _ _ s0 (map ver_req rows) s0).
  2:{ unfold lift. by rewrite verify_entries_eq by (done || apply Hd). }
  assert (zlen (ver_toks 0 rows) = tok_at rows (zlen rows)) as Hnt by (by apply zlen_ver_toks).
  rewrite (M_bind_ok _ _ s0 (tok_at rows (zlen rows)) s0).
  2:{ unfold lift. destruct (Z.eqb_spec (zlen rows) 0) as [Ez|Ez].
      - by rewrite Ez.
      - rewrite (row_get_in _ _ (tok_at rows (zlen rows))); [done|]. unfold zget. destruct (Z.ltb_spec (zlen rows) 0); [lia|].
        rewrite list_lookup_fmap. unfold zrange. rewrite lookup_seqZ_lt by lia. cbn [fmap option_fmap option_map].
      by rewrite Z2Nat.id, !Z.add_0_l by lia. }
  rewrite token_fields_eq; [|done|].
  2:{ intros i Hi. unfold zget. destruct (Z.ltb_spec i 0); [lia|]. rewrite list_lookup_fmap. unfold zrange.
      rewrite lookup_seqZ_lt by lia. cbn [fmap option_fmap option_map].
      by rewrite Z2Nat.id, !Z.add_0_l by lia. }
  rewrite Hnt, Z.eqb_refl. pose proof (dv_tokens _ _ Hd) as Htok.
  destruct (Z.ltb_spec (num_decode_tokens md) (tok_at rows (zlen rows))); [lia|]. cbn [negb orb].
  rewrite (M_bind_ok _ _ s0 tt s3 Hend), (M_bind_ok _ _ s3 tt _ Hbegin).
  rewrite <- (zip_prefix (map ver_req rows) (host_table md (zlen rows))).
  replace (zlen (map ver_req rows)) with (zlen rows) by (unfold zlen; by rewrite length_map).
  rewrite (M_bind_ok _ _ _ _ _ (collect_row_slots rows Hok rows _ (set_pending t s') ltac:(done) (dv_host _ _ Hd))).
  rewrite zip_map_pair, collect_map. rewrite (M_bind_ok _ _ _ ins' s1 E1).
  rewrite (zip_hrows 0 rows ins' Hlen), collect_map. fold (hrows rows ins').
  rewrite (M_bind_ok _ _ s1 outs' _ E2). rewrite <- Hnt. fold row_out in Hpouts.
  change (map (fun x : drow => ver_out (x.1.1 * nrm) x.1.2 x.2 _) (drows rows prs)) with (map row_out (drows rows prs)) in Hpouts.
  subst ins' outs'. change (VerifyFields _ _ _ _ _ _ _ _ _ _ _ _ _) with (vfields rows prs (num_decode_tokens md)).
  destruct persistent; [|by (eexists; split; [|split; [|split; [|reflexivity]]])].
  rewrite (M_bind_ok (modify _) _ (set_pending t' s') tt
    (set_spec_buf (table_width md, persist_verify c (max_num_reqs c) nrm (max_num_reqs c * Z.max (spec_query_len c) 1) (zlen rows)
       (vfields rows prs (num_decode_tokens md))) (set_pending t' s'))) by done.
  destruct (Hp eq_refl) as (H1 & H2 & H3 & H4 & Hg0 & Hwide & _).
  assert ((graph_regions s0 <? foldr Z.max 0 (map snd (ver_toks 0 rows))) && negb (eager_fallback c) = false) as ->.
  { destruct Hwide as [->|Hwide]; [by rewrite andb_false_r|]. apply andb_false_intro1, Z.ltb_ge.
    assert (Forall (fun w => w <= graph_regions s0) (map snd (ver_toks 0 rows))) as Hall by (by apply tok_nscore_bound).
    clear -Hall Hg0. induction Hall; cbn; lia. }
  assert ((num_kv_groups c * (max_num_reqs c * spec_query_len c) <? num_kv_groups c * num_decode_tokens md) = false) as ->.
  { apply Z.ltb_ge. rewrite Z.max_l in H2 by lia. nia. }
  by (eexists; split; [|split; [|split; [|reflexivity]]]).
Qed.
End verify.
End DsaVerifyCorrect.

(** ** The verify update makes the writes of the plans

    [update_verify] and the fused kernel [update_fused] of DsaSummary.v, the
    kernel with its programs in any order, on the vectors of planned rows. *)

Module DsaVerifyUpdate.
Import DsaPending DsaPendingCorrect DsaSchedule DsaPlan DsaScheduleCorrect DsaSummary DsaSummaryCorrect DsaDecodeCorrect DsaDecodeUpdate DsaVerifyCorrect.

(** ** Vectors of [n] entries per row *)

Lemma zget_app_l {X} (l k : list X) i : i < zlen l -> zget (l ++ k) i = zget l i.
Proof. intros H. unfold zget, zlen in *. case_match; [done|]. apply lookup_app_l. lia. Qed.

Lemma zget_app_r {X} (l k : list X) i : 0 <= i -> zget (l ++ k) (zlen l + i) = zget k i.
Proof.
  intros H. unfold zget, zlen. destruct (Z.ltb_spec i 0), (Z.ltb_spec (Z.of_nat (length l) + i) 0); try lia.
  rewrite lookup_app_r by lia. f_equal. lia.
Qed.

Lemma zget_app_ge {X} (l k : list X) i : zlen l <= i -> zget (l ++ k) i = zget k (i - zlen l).
Proof. intros H. replace i with (zlen l + (i - zlen l)) at 1 by lia. apply zget_app_r. lia. Qed.

Lemma zget_concat_rows {X Y} (h : X -> list Y) n xs r x j : (forall y, y ∈ xs -> zlen (h y) = n) -> zget xs r = Some x -> 0 <= j < n ->
  zget (concat (map h xs)) (r * n + j) = zget (h x) j.
Proof.
  revert r. induction xs as [|y xs IH]; intros r Hn Hx Hj; [by apply zget_Some in Hx; unfold zlen in Hx; cbn in Hx; lia|].
  pose proof (zget_Some _ _ _ Hx) as Hr. cbn [map concat]. pose proof (Hn y ltac:(left)) as Hy.
  destruct (decide (r = 0)) as [->|Hne].
  - injection Hx as ->. rewrite Z.mul_0_l, Z.add_0_l. apply zget_app_l. lia.
  - replace (r * n + j) with (zlen (h y) + ((r - 1) * n + j)) by lia. rewrite zget_app_r by nia.
    apply IH; [intros; apply Hn; by right| |done]. replace r with (r - 1 + 1) in Hx by lia. by rewrite zget_cons_S in Hx by lia.
Qed.

Lemma zlen_concat {X Y} (h : X -> list Y) n xs : (forall y, y ∈ xs -> zlen (h y) = n) -> zlen (concat (map h xs)) = zlen xs * n.
Proof.
  induction xs as [|y xs IH]; intros H; [done|]. cbn [map concat]. rewrite zlen_app, zlen_cons, IH, (H y) by set_solver. lia.
Qed.

Lemma zrange_mul n w : forall k, 0 <= n -> 0 <= w ->
  zrange (k * n) (w * n) = concat (map (fun r => map (fun j => r * n + j) (zrange 0 n)) (zrange k w)).
Proof.
  intros k Hn Hw. remember (Z.to_nat w) as m eqn:Hm. revert k w Hw Hm. induction m as [|m IH]; intros k w Hw Hm.
  - assert (w = 0) as -> by lia. by rewrite !zrange_nil by lia.
  - replace (w * n) with (n + (w - 1) * n) by lia. rewrite zrange_app by nia. rewrite (zrange_open k w) by lia. cbn [map concat].
    rewrite <- IH by lia. f_equal; [apply zrange_shift|]. f_equal. lia.
Qed.

Lemma zget_ext {X} (l k : list X) : zlen l = zlen k -> (forall i, 0 <= i < zlen l -> zget l i = zget k i) -> l = k.
Proof.
  intros Hl H. apply list_eq. intros i. destruct (decide (Z.of_nat i < zlen l)) as [Hi|Hi].
  - rewrite <- !zget_nat. apply H. lia.
  - rewrite !lookup_ge_None_2; [done|unfold zlen in *; lia..].
Qed.

Lemma map_zget {X Y} (G : X -> Y) xs (d : Y) :
  map G xs = map (fun r => match zget xs r with Some x => G x | None => d end) (zrange 0 (zlen xs)).
Proof.
  apply zget_ext.
  - unfold zlen. rewrite !length_map. unfold zrange. rewrite length_seqZ. lia.
  - intros i Hi. unfold zlen in Hi. rewrite length_map in Hi. rewrite !zget_map, zget_zrange by (unfold zlen; lia). cbn [fmap option_fmap option_map].
    rewrite Z.add_0_l. by destruct (zget_is_Some xs i Hi) as [x ->].
Qed.

Lemma concat_nested {X Y W} (F : Y -> list W) (h : X -> list Y) xs :
  concat (map F (concat (map h xs))) = concat (map (fun x => concat (map F (h x))) xs).
Proof. induction xs as [|x xs IH]; [done|]. cbn [map concat]. by rewrite map_app, concat_app, IH. Qed.

Lemma zget_slice {X} (l : list X) s n i : 0 <= s -> 0 <= i < n -> zget (slice s n l) i = zget l (s + i).
Proof.
  intros Hs Hi. unfold zget, slice. destruct (Z.ltb_spec i 0), (Z.ltb_spec (s + i) 0); try lia.
  rewrite lookup_take_lt by lia. rewrite lookup_drop. f_equal. lia.
Qed.

Lemma padded_eq {X} n (v : X) l : 0 <= n -> zlen l <= n -> padded n v l = map (fun j => default v (zget l j)) (zrange 0 n).
Proof.
  intros Hn Hl. apply zget_ext.
  - unfold padded, zlen in *. rewrite length_app, length_replicate, length_map. unfold zrange. rewrite length_seqZ. lia.
  - intros i [Hi0 Hi]. assert (i < n) as Hin.
    { unfold padded, zlen in *. rewrite length_app, length_replicate in Hi. lia. }
    rewrite zget_map, zget_zrange by lia. cbn [fmap option_fmap option_map]. rewrite Z.add_0_l. unfold padded.
    destruct (decide (i < zlen l)) as [H|H].
    + rewrite zget_app_l by done. by destruct (zget_is_Some l i ltac:(lia)) as [x ->].
    + replace i with (zlen l + (i - zlen l)) at 1 by lia. rewrite zget_app_r by lia.
      assert (zget l i = None) as ->. { unfold zget. case_match; [done|]. apply lookup_ge_None_2. unfold zlen in *. lia. }
      unfold zget. destruct (Z.ltb_spec (i - zlen l) 0); [lia|]. apply lookup_replicate_2. unfold zlen in *. lia.
Qed.

Lemma concat_both {X Y} (f g : X -> list Y) xs :
  concat (map (fun x => f x ++ g x) xs) ≡ₚ concat (map f xs) ++ concat (map g xs).
Proof.
  induction xs as [|x xs IH]; [done|]. cbn [map concat]. rewrite IH. rewrite <- !app_assoc. apply Permutation_app_head.
  rewrite !app_assoc. apply Permutation_app_tail, Permutation_app_comm.
Qed.

Lemma concat_below {Y} (h : Z -> Y) m n : forall k, k <= m <= k + n ->
  concat (map (fun j => if j <? m then [h j] else []) (zrange k n)) = map h (zrange k (m - k)).
Proof.
  intros k Hm. replace n with ((m - k) + (n - (m - k))) by lia. rewrite zrange_app by lia. rewrite map_app, concat_app.
  replace (concat (map _ (zrange (k + (m - k)) _))) with (@nil Y).
  - rewrite app_nil_r. assert (Forall (fun j => j < m) (zrange k (m - k))) as H by (apply Forall_forall; intros j Hj%elem_zrange; lia).
    induction H as [|j js Hj _ IH]; [done|]. cbn [map concat]. rewrite IH. by rewrite (proj2 (Z.ltb_lt j m)) by lia.
  - symmetry. apply concat_nil_Forall, Forall_fmap, Forall_forall. intros j Hj%elem_zrange. cbn. by rewrite (proj2 (Z.ltb_ge j m)) by lia.
Qed.

Lemma concat_one {Y} (x : Y) (b : bool) m n : forall k, k <= m < k + n ->
  concat (map (fun j => if (j =? m) && b then [x] else []) (zrange k n)) = if b then [x] else [].
Proof.
  intros k Hm. replace n with ((m - k) + (1 + (n - (m - k) - 1))) by lia. rewrite !zrange_app by lia. rewrite !map_app, !concat_app.
  assert (forall s q, (m < s \/ s + q <= m) -> concat (map (fun j => if (j =? m) && b then [x] else []) (zrange s q)) = []) as Hnil.
  { intros s q Hs. apply concat_nil_Forall, Forall_fmap, Forall_forall. intros j Hj%elem_zrange. cbn.
    by rewrite (proj2 (Z.eqb_neq j m)) by lia. }
  rewrite (Hnil k), (Hnil (k + (m - k) + 1)) by lia. rewrite (zrange_open _ 1), (zrange_nil _ (1 - 1)) by lia. cbn [map concat app].
  replace (k + (m - k)) with m by lia. rewrite Z.eqb_refl. cbn [andb]. cbn [app]. by destruct b.
Qed.

Lemma concat_zip {X Y} (ks : list X) (F : Z -> Y) n : forall k, zlen ks <= n ->
  concat (map (fun j => match zget ks (j - k) with Some row => [(row, F j)] | None => [] end) (zrange k n)) =
  zip ks (map F (zrange k (zlen ks))).
Proof.
  revert n. induction ks as [|x ks IH]; intros n k Hn.
  - rewrite (zrange_nil k (zlen _)) by done. cbn [zip zip_with map]. apply concat_nil_Forall, Forall_fmap, Forall_forall.
    intros j Hj%elem_zrange. cbn. destruct (zget [] (j - k)) eqn:E; [|done]. apply zget_Some in E. unfold zlen in E. cbn in E. lia.
  - rewrite zlen_cons in *. pose proof (zlen_nonneg ks). rewrite (zrange_open k n), (zrange_open k (zlen ks + 1)) by lia.
    cbn [map concat zip zip_with]. rewrite Z.sub_diag. cbn [app]. change (zget (x :: ks) 0) with (Some x). cbn [app]. f_equal.
    replace (zlen ks + 1 - 1) with (zlen ks) by lia. fold (zip ks (map F (zrange (k + 1) (zlen ks)))). rewrite <- (IH (n - 1)) by lia.
    f_equal. apply list_fmap_ext. intros i j Hj. apply lookup_seqZ in Hj as [-> Hj].
    replace (k + 1 + Z.of_nat i - k) with (k + 1 + Z.of_nat i - (k + 1) + 1) by lia. by rewrite zget_cons_S by lia.
Qed.

Lemma zget_self {X} (d : X) l : l = map (fun i => default d (zget l i)) (zrange 0 (zlen l)).
Proof.
  rewrite <- (map_id l) at 1. rewrite (map_zget _ l d). apply map_ext. intros i. by destruct (zget l i).
Qed.

Lemma map_zrange_const {X} (v : X) k n : map (fun _ => v) (zrange k n) = replicate (Z.to_nat n) v.
Proof.
  unfold zrange. rewrite <- (length_seqZ k n). generalize (seqZ k n) as l. induction l as [|x l IH]; [done|]. cbn. by rewrite IH.
Qed.

Lemma take_map_zrange {X} (F : Z -> X) k n m : 0 <= n <= m -> take (Z.to_nat n) (map F (zrange k m)) = map F (zrange k n).
Proof.
  intros H. replace m with (n + (m - n)) by lia. rewrite zrange_app, map_app by lia. apply take_app_length'.
  rewrite length_map. unfold zrange. rewrite length_seqZ. done.
Qed.

Lemma elem_zip {X Y} (l : list X) (k : list Y) x y : (x, y) ∈ zip l k -> exists i, zget l i = Some x /\ zget k i = Some y.
Proof.
  intros Hin. apply list_elem_of_lookup in Hin as [i Hi]. apply lookup_zip_Some in Hi as [H1 H2].
  exists (Z.of_nat i). by rewrite !zget_nat.
Qed.

Lemma zip_elem {X Y} (l : list X) (k : list Y) x y i : zget l i = Some x -> zget k i = Some y -> (x, y) ∈ zip l k.
Proof.
  intros H1 H2. unfold zget in *. destruct (Z.ltb_spec i 0); [done|]. apply list_elem_of_lookup. exists (Z.to_nat i).
  by apply lookup_zip_Some.
Qed.

(** [index_copy] puts values at their places. *)
Lemma index_copy_get {X} ws : forall b : list X, Forall (fun w => 0 <= w.1 < zlen b) ws ->
  exists b', index_copy b ws = Ok b' /\ zlen b' = zlen b /\ forall p,
    ((forall x, (p, x) ∉ ws) -> zget b' p = zget b p) /\
    (forall x, (p, x) ∈ ws -> (forall y, (p, y) ∈ ws -> y = x) -> zget b' p = Some x).
Proof.
  induction ws as [|[i x] ws IH]; intros b Hws.
  { exists b. split_and!; [done..|]. intros p. split; [done|]. intros x Hx. by apply elem_of_nil in Hx. }
  apply Forall_cons in Hws as [Hi Hws]. cbn in Hi. destruct (IH (<[Z.to_nat i := x]> b)) as (b' & E & Hz & Hp).
  { eapply Forall_impl; [exact Hws|]. intros w. by rewrite zlen_insert. }
  exists b'. cbn [index_copy]. rewrite row_set_in by done. cbn [mbind result_bind]. split_and!; [done|by rewrite Hz, zlen_insert|].
  intros p. destruct (Hp p) as [H1 H2]. assert (zget (<[Z.to_nat i := x]> b) p = if decide (p = i) then Some x else zget b p) as Hins by (by apply zget_insert).
  split.
  - intros Hn. rewrite H1 by (intros y Hy; apply (Hn y); by right). rewrite Hins, decide_False; [done|]. intros ->.
    apply (Hn x). left.
  - intros y Hy Hu. destruct (decide (p ∈ map fst ws)) as [Hz'|Hno].
    + apply list_elem_of_fmap in Hz' as ([q z] & -> & Hz'). cbn in *. apply H2; [by rewrite <- (Hu z) by (by right)|]. intros v Hv. apply Hu. by right.
    + assert (forall z, (p, z) ∉ ws) as Hnone.
      { intros z Hz'. apply Hno, list_elem_of_fmap. by exists (p, z). }
      rewrite H1 by done. rewrite Hins.
      apply elem_of_cons in Hy as [[= -> ->]|Hy]; [by rewrite decide_True|]. by destruct (Hnone y).
Qed.

(** Full rows written one after another *)
Lemma scatter_full {X} n ws : forall p : list (list X), Forall (fun w => 0 <= w.1 < zlen p /\ zlen w.2 = n) ws ->
  Forall (fun r => zlen r = n) p -> scatter_rows p ws = Ok (writes ws p).
Proof.
  induction ws as [|[row v] ws IH]; intros p Hws Hp; [done|]. apply Forall_cons in Hws as [[Hr Hv] Hws]. cbn in Hr, Hv.
  cbn [scatter_rows]. rewrite (row_set_write p row v n Hr Hp Hv). cbn [mbind result_bind writes foldl].
  destruct (writes_rows [(row, v)] p n) as [H1 H2]; [apply Forall_singleton; cbn; lia|done|]. cbn [writes foldl] in H1, H2.
  apply IH; [|done]. eapply Forall_impl; [exact Hws|]. intros w. by rewrite H2.
Qed.

(** Writes to one row do not change what another holds. *)
Lemma writes_skip {X} row trash ws : forall p : list (list X), row <> trash -> Forall (fun w => 0 <= w.1) ws ->
  zget (writes ws p) row = zget (writes (filter (fun w => w.1 <> trash) ws) p) row.
Proof.
  assert (forall ws (p q : list (list X)), Forall (fun w => 0 <= w.1) ws -> zget p row = zget q row -> zget (writes ws p) row = zget (writes ws q) row) as Hext.
  { clear. induction ws as [|[r v] ws IH]; intros p q Hws E; [done|]. apply Forall_cons in Hws as [Hr Hws]. cbn [writes foldl].
    apply IH; [done|]. rewrite !zget_write by done. by rewrite E. }
  intros p Hne Hws. revert p. induction Hws as [|[r v] ws Hr Hws IH]; intros p; [done|]. rewrite filter_cons. cbn [writes foldl fst].
  destruct (decide (r <> trash)) as [H|H].
  - cbn [writes foldl]. apply IH.
  - rewrite <- IH. apply Hext; [done|]. rewrite zget_write by done. rewrite decide_False; [done|]. intros ->. by apply H.
Qed.

Section vectors.
Context (c : config) (rpp : Z).

Abbreviation it_slot := (it_slot c rpp) (only parsing).
Abbreviation it_head := (it_head c) (only parsing).
Abbreviation it_tail := (it_tail c) (only parsing).
Abbreviation it_nbuf := (it_nbuf c) (only parsing).
Abbreviation it_nreg := (it_nreg c) (only parsing).
Abbreviation it_closed := (it_closed c) (only parsing).
Abbreviation nrm := (verify_width c) (only parsing).
Abbreviation trash := (trash_row c) (only parsing).

(** What the vectors hold for region [j] of a row *)
Definition at_count (x : drow) (j : Z) : Z :=
  match x.1.2 with Some it => if j <? it_closed it then region c else 0 | None => 0 end.
Definition at_live (x : drow) (j : Z) : bool := match x.1.2 with Some it => j <? it_closed it | None => false end.
Definition at_slot (x : drow) (j : Z) : Z :=
  match x.1.2 with Some it => if j <? it_nreg it then it_slot it j else 0 | None => 0 end.
Definition at_keep (x : drow) (j : Z) : Z :=
  match x.1.2 with Some it => default trash (zget (pl_keep x.2) j) | None => trash end.

Definition per_region {X} (g : drow -> Z -> X) (xs : list drow) : list X :=
  concat (map (fun x => map (g x) (zrange 0 nrm)) xs).

Definition at_head (x : drow) : Z := match x.1.2 with Some it => it_head it | None => 0 end.
Definition at_tail (x : drow) : Z := match x.1.2 with Some it => it_tail it | None => 0 end.

(** A place of the buffer outside of every request's *)
Definition spare (rows : list (option item)) (size p : Z) : Prop :=
  0 <= p < size /\ forall r it, zget rows r = Some (Some it) -> p < r * (nrm * region c) \/ (r + 1) * (nrm * region c) <= p.

(** The vectors of planned rows, for [nt] tokens.  What they hold for padding
    where nobody looks is open: the eager and the persistent ones differ. *)
Record verify_vectors (rows : list (option item)) (prs : list plan) (nt : Z) (f : verify_fields) : Prop := VerifyVectors {
  vv_head : v_head f = map at_head (drows rows prs);
  vv_tail : v_tail f = map at_tail (drows rows prs);
  vv_in : v_pending_in f = map pl_in prs;
  vv_out : v_pending_out f = map pl_out prs;
  vv_tail_reg : exists tr, v_tail_reg f = map (fun x : drow => tr x.1.1) (drows rows prs) /\
    (forall r, 0 <= r < zlen rows -> 0 <= tr r < zlen rows * nrm) /\
    (forall r it, zget rows r = Some (Some it) -> tr r = r * nrm + it_nreg it - 1);
  vv_counts : v_counts f = per_region at_count (drows rows prs);
  vv_slots : v_slots f = per_region at_slot (drows rows prs);
  vv_live : v_live f = per_region at_live (drows rows prs);
  vv_keep : v_keep_rows f = per_region at_keep (drows rows prs);
  vv_tok_buf : exists rest, v_tok_buf f = map (fun v => v.1.1.1) (ver_toks c 0 rows) ++ rest /\
    zlen rest = nt - tok_at rows (zlen rows) /\ Forall (spare rows (zlen rows * nrm * region c + nt)) rest
}.

Lemma zlen_per {X} (g : drow -> Z -> X) xs : 0 <= nrm -> zlen (per_region g xs) = zlen xs * nrm.
Proof.
  intros H. apply zlen_concat. intros x _. unfold zlen. rewrite length_map. unfold zrange. rewrite length_seqZ. lia.
Qed.

Lemma zget_per {X} (g : drow -> Z -> X) xs r j x : zget xs r = Some x -> 0 <= j < nrm ->
  zget (per_region g xs) (r * nrm + j) = Some (g x j).
Proof.
  intros Hx Hj. unfold per_region. rewrite (zget_concat_rows _ nrm xs r x j); [|intros y _|done|done].
  - by rewrite zget_map, zget_zrange by lia.
  - unfold zlen. rewrite length_map. unfold zrange. rewrite length_seqZ. lia.
Qed.

Lemma zget_drows rows prs r : length prs = length rows -> 0 <= r < zlen rows ->
  exists row pl, zget (drows rows prs) r = Some (r, row, pl) /\ zget rows r = Some row /\ zget prs r = Some pl.
Proof.
  intros Hl Hr. destruct (zget_is_Some (drows rows prs) r) as [[[r' row] pl] Hx]; [by rewrite drows_length|].
  pose proof (zget_elem _ _ _ Hx) as Hin. apply drows_elem in Hin as (_ & H1 & H2).
  unfold zget in Hx. destruct (Z.ltb_spec r 0); [lia|]. apply drows_index in Hx as [_ Hx]. cbn in Hx.
  assert (r' = r) as -> by lia. exists row, pl. split_and!; [|done|done].
  unfold zget. destruct (Z.ltb_spec r 0); [lia|]. unfold drows.
  apply lookup_zip_with_Some. exists (r, row), pl. unfold zget in H1, H2. destruct (Z.ltb_spec r 0); [lia|].
  split_and!; [done| |done]. apply lookup_zip_with_Some. exists r, row. split_and!; [done| |done].
  apply lookup_seqZ. lia.
Qed.

Context (Hregion : 0 < region c) (Hrpp : 0 < rpp).

Lemma width_pos : 0 < nrm.
Proof using Hregion.
  unfold verify_width. assert (- (region c - 1 + Z.max (spec_query_len c) 1) / region c < 0); [|lia].
  apply Z.div_lt_upper_bound; [done|]. lia.
Qed.

(** The regions of a request fit the width. *)
Lemma nreg_width it : it_len it <= Z.max (spec_query_len c) 1 -> it_nreg it <= nrm.
Proof using Hregion.
  intros Hlen. rewrite <- (regions_eq c Hregion). unfold verify_width. pose proof (head_range c Hregion it).
  enough (- (region c - 1 + Z.max (spec_query_len c) 1) / region c <= - (it_head it + it_len it) / region c) by lia.
  apply Z.div_le_mono; lia.
Qed.

(** Requests of a batch never share a slot. *)
Lemma slots_inj rows r r' it it' j j' : NoDup (concat (map (it_slots c rpp) (alive rows))) ->
  zget rows r = Some (Some it) -> zget rows r' = Some (Some it') -> 0 <= j < it_nreg it -> 0 <= j' < it_nreg it' ->
  it_slot it j = it_slot it' j' -> r = r' /\ j = j'.
Proof.
  assert (forall i k, 0 <= k < it_nreg i -> it_slot i k ∈ it_slots c rpp i) as Hin.
  { intros i k Hk. apply list_elem_of_fmap. exists k. split; [done|]. apply elem_zrange. lia. }
  revert r r'. induction rows as [|x rows IH]; intros r r' Hnd H H' Hj Hj' E.
  { apply zget_Some in H. unfold zlen in H. cbn in H. lia. }
  assert (forall q i k, zget rows q = Some (Some i) -> 0 <= k < it_nreg i -> it_slot i k ∈ concat (map (it_slots c rpp) (alive rows))) as Hall.
  { intros q i k Hq Hk. apply list_elem_of_In, in_concat. exists (it_slots c rpp i). split; apply list_elem_of_In; [|by apply Hin].
    apply list_elem_of_fmap. exists i. split; [done|]. apply list_elem_of_omap. exists (Some i). split; [by eapply zget_elem|done]. }
  pose proof (zget_Some _ _ _ H). pose proof (zget_Some _ _ _ H').
  assert (forall q y, 0 < q -> zget (x :: rows) q = Some y -> zget rows (q - 1) = Some y) as Hs.
  { intros q y Hq Hy. replace q with (q - 1 + 1) in Hy by lia. by rewrite zget_cons_S in Hy by lia. }
  destruct (decide (r = 0)) as [->|Hr], (decide (r' = 0)) as [->|Hr'].
  - injection H as ->. injection H' as ->. split; [done|]. cbn in Hnd. apply NoDup_app in Hnd as [Hnd _].
    unfold it_slots in Hnd. rewrite NoDup_alt in Hnd.
    assert (Z.to_nat j = Z.to_nat j'); [|lia]. apply (Hnd _ _ (it_slot it' j)); rewrite list_lookup_fmap.
    + rewrite lookup_seqZ_lt by lia. cbn. do 2 f_equal. lia.
    + rewrite lookup_seqZ_lt by lia. cbn. rewrite E. do 2 f_equal. lia.
  - injection H as ->. cbn in Hnd. apply NoDup_app in Hnd as (_ & Hd & _). destruct (Hd (it_slot it j)); [by apply Hin|].
    rewrite E. apply (Hall (r' - 1)); [apply Hs; [lia|done]|done].
  - injection H' as ->. cbn in Hnd. apply NoDup_app in Hnd as (_ & Hd & _). destruct (Hd (it_slot it' j')); [by apply Hin|].
    rewrite <- E. apply (Hall (r - 1)); [apply Hs; [lia|done]|done].
  - destruct (IH (r - 1) (r' - 1)); [|apply Hs; [lia|done]|apply Hs; [lia|done]|done..|].
    + destruct x; [|done]. cbn in Hnd. by apply NoDup_app in Hnd as (_ & _ & ?).
    + split; [lia|done].
Qed.

(** ** The vectors of a schedule *)

Lemma row_vectors x : (forall it, x.1.2 = Some it -> item_ok c rpp it /\ it_nreg it <= nrm /\ zlen (pl_keep x.2) <= nrm) ->
  vo_counts (row_out c rpp x) = map (at_count x) (zrange 0 nrm) /\ vo_slots (row_out c rpp x) = map (at_slot x) (zrange 0 nrm) /\
  vo_live (row_out c rpp x) = map (at_live x) (zrange 0 nrm) /\ vo_keep (row_out c rpp x) = map (at_keep x) (zrange 0 nrm).
Proof using Hregion Hrpp.
  intros Hx. pose proof width_pos as Hw. unfold row_out, at_count, at_slot, at_live, at_keep. destruct x as [[r [it|]] pl]; cbn [fst snd] in *.
  2:{ cbn [ver_out vo_counts vo_slots vo_live vo_keep]. rewrite !padded_eq by (unfold zlen; cbn; lia).
    split_and!; apply map_ext; intros j; unfold zget; by destruct (j <? 0). }
  destruct (Hx it eq_refl) as (Hit & Hfit & Hkeep). pose proof (nreg_pos c rpp Hregion it Hit) as Hn.
  cbn [ver_out vo_counts vo_slots vo_live vo_keep]. pose proof (zlen_it_slots c rpp Hregion it Hit) as Hs.
  assert (zlen (row_closed c it) = it_nreg it) as Hrc by (unfold row_closed, zlen; rewrite length_map; unfold zrange; rewrite length_seqZ; lia).
  assert (zlen (map (fun b : bool => if b then region c else 0) (row_closed c it)) = it_nreg it) as Hrc' by (rewrite <- Hrc; unfold zlen; by rewrite length_map).
  assert (forall j, 0 <= j -> zget (row_closed c it) j = if j <? it_nreg it then Some (j <? it_closed it) else None) as Hget.
  { intros j Hj. destruct (Z.ltb_spec j (it_nreg it)) as [H|H].
    - unfold row_closed. rewrite zget_map, zget_zrange by lia. cbn [fmap option_fmap option_map]. f_equal. rewrite Z.add_0_l.
      pose proof (closed_bound c rpp Hregion it j Hit) as Hb. pose proof (nbuf_split c Hregion it). pose proof (tail_range c Hregion it).
      destruct (Z.leb_spec ((j + 1) * region c) (it_nbuf it)), (Z.ltb_spec j (it_closed it)); try done; nia.
    - destruct (zget (row_closed c it) j) eqn:E; [|done]. apply zget_Some in E. lia. }
  pose proof (closed_le_nreg c rpp Hregion it Hit) as Hcl.
  split_and!; rewrite padded_eq by lia; apply map_ext_in; intros j Hj%list_elem_of_In%elem_zrange.
  - rewrite zget_map, Hget by lia. destruct (Z.ltb_spec j (it_nreg it)); cbn; [done|].
    by rewrite (proj2 (Z.ltb_ge j (it_closed it))) by lia.
  - destruct (Z.ltb_spec j (it_nreg it)); [by rewrite (zget_it_slots c rpp Hregion it j Hit) by lia|].
    destruct (zget (it_slots c rpp it) j) eqn:E; [|done]. apply zget_Some in E. lia.
  - rewrite Hget by lia. destruct (Z.ltb_spec j (it_nreg it)); cbn; [done|]. by rewrite (proj2 (Z.ltb_ge j (it_closed it))) by lia.
  - done.
Qed.

Section planned.
Context (t0 t : pending_table) (rows : list (option item)) (prs : list plan).
Context (Hok : Forall (item_ok c rpp) (alive rows)).
Context (Hlen : Forall (fun it => it_len it <= Z.max (spec_query_len c) 1) (alive rows)).
Context (Hprs : Forall2 (row_plan c rpp t0 t) rows prs).

Lemma planned_rows x : x ∈ drows rows prs ->
  (forall it, x.1.2 = Some it -> item_ok c rpp it /\ it_nreg it <= nrm /\ zlen (pl_keep x.2) <= nrm) /\
  (x.1.2 = None -> x.2 = Plan trash trash []).
Proof using Hok Hlen Hprs Hregion.
  destruct x as [[r row] pl]. intros Hin. destruct (drows_elem _ _ _ _ _ Hin) as (Hr & Hrow & Hpl). cbn [fst snd].
  assert (row_plan c rpp t0 t row pl) as Hp.
  { unfold zget in Hrow, Hpl. destruct (Z.ltb_spec r 0); [lia|]. destruct (Forall2_lookup_l _ _ _ _ _ Hprs Hrow) as (pl' & E & Hrp). congruence. }
  split; [|intros ->; done]. intros it ->. destruct Hp as (Hp & _).
  assert (it ∈ alive rows) as Ha by (apply list_elem_of_omap; exists (Some it); split; [by eapply zget_elem|done]).
  pose proof (proj1 (Forall_forall _ _) Hok _ Ha) as Hit. pose proof (nreg_width it (proj1 (Forall_forall _ _) Hlen _ Ha)) as Hfit.
  split_and!; [done|done|]. rewrite (plan_keep _ _ _ _ _ Hp). pose proof (closed_le_nreg c rpp Hregion it Hit).
  pose proof (nreg_pos c rpp Hregion it Hit). unfold kept_regions. case_match; lia.
Qed.

Lemma per_out {X} (vo : verify_out -> list X) (g : drow -> Z -> X) : (forall x, x ∈ drows rows prs -> vo (row_out c rpp x) = map (g x) (zrange 0 nrm)) ->
  concat (map vo (map (row_out c rpp) (drows rows prs))) = per_region g (drows rows prs).
Proof using Type. intros H. rewrite map_map. unfold per_region. f_equal. apply map_ext_in. intros x Hx. by apply H, list_elem_of_In. Qed.

Lemma drows_get x : x ∈ drows rows prs -> zget (drows rows prs) x.1.1 = Some x.
Proof using Type.
  intros Hin. apply list_elem_of_lookup in Hin as [i Hi]. pose proof (drows_index _ _ _ _ Hi) as [_ ->].
  by rewrite Z.add_0_l, zget_nat.
Qed.

(** *** Filling up to [w] rows *)

Section padded.
Context (w nr : Z) (Hw : zlen rows <= w <= nr).

Abbreviation pad := (Plan trash trash []) (only parsing).

Lemma drows_pad : drows (pad_rows w rows) (pad_plans c w prs) =
  drows rows prs ++ map (fun r => (r, None, pad)) (zrange (zlen rows) (w - zlen rows)).
Proof using Hw Hprs.
  assert (length prs = length rows) as Hl by (symmetry; by eapply Forall2_length).
  unfold drows. rewrite (pad_length w rows) by lia. unfold pad_rows, pad_plans. rewrite Hl.
  replace (zrange 0 w) with (zrange 0 (zlen rows) ++ zrange (zlen rows) (w - zlen rows)).
  - rewrite !zip_with_app; [|by unfold zrange; rewrite ?length_zip_with, length_seqZ; unfold zlen; lia..]. f_equal.
    replace (w - zlen rows) with (Z.of_nat (Z.to_nat w - length rows)) by (unfold zlen; unfold zlen in Hw; lia).
    generalize (zlen rows) as k. induction (Z.to_nat w - length rows)%nat as [|n IH]; intros k; [done|].
    rewrite zrange_of_S. cbn [replicate zip_with map]. by rewrite IH.
  - pose proof (zlen_nonneg rows). rewrite <- (zrange_app 0) by lia. f_equal. lia.
Qed.

Lemma req_field {X} (F : drow -> X) v : (forall r, F (r, None, pad) = v) ->
  prefix w (padded nr v (map F (drows rows prs))) = map F (drows (pad_rows w rows) (pad_plans c w prs)).
Proof using Hw Hprs.
  intros HF. assert (length prs = length rows) as Hl by (symmetry; by eapply Forall2_length).
  pose proof (drows_length rows prs Hl) as Hd. rewrite prefix_padded by (unfold zlen in *; rewrite ?length_map; lia).
  rewrite drows_pad, map_app, map_map, length_map. f_equal. rewrite (map_ext _ (fun _ => v)) by (intros; apply HF).
  rewrite map_zrange_const. f_equal. unfold zlen in *. lia.
Qed.

Lemma reg_field {X} (g : drow -> Z -> X) v : (forall r j, g (r, None, pad) j = v) ->
  prefix (w * nrm) (padded (nr * nrm) v (per_region g (drows rows prs))) = per_region g (drows (pad_rows w rows) (pad_plans c w prs)).
Proof using Hw Hprs Hregion.
  intros Hg. assert (length prs = length rows) as Hl by (symmetry; by eapply Forall2_length). pose proof width_pos as Hwp.
  pose proof (drows_length rows prs Hl) as Hd. pose proof (zlen_per g (drows rows prs) ltac:(lia)) as Hz. rewrite Hd in Hz.
  rewrite prefix_padded by nia. rewrite drows_pad. unfold per_region. rewrite map_app, concat_app, map_map. f_equal.
  replace (Z.to_nat (w * nrm) - length (concat (map (fun x => map (g x) (zrange 0 nrm)) (drows rows prs))))%nat
    with (Z.to_nat ((w - zlen rows) * nrm)) by (unfold per_region, zlen in *; nia).
  replace (w - zlen rows) with (Z.of_nat (Z.to_nat (w - zlen rows))) by lia.
  remember (Z.to_nat (w - zlen rows)) as m eqn:Em. clear Em. generalize (zlen rows) as k.
  induction m as [|n IH]; intros k; [done|]. rewrite zrange_of_S. cbn [map concat]. rewrite <- IH.
  replace (Z.to_nat (Z.of_nat (S n) * nrm)) with (Z.to_nat nrm + Z.to_nat (Z.of_nat n * nrm))%nat by lia.
  rewrite replicate_add. f_equal. rewrite (map_ext _ (fun _ => v)) by (intros; apply Hg). by rewrite map_zrange_const.
Qed.

Lemma tail_reg_field (F : drow -> Z) : (forall x, x ∈ drows rows prs -> 0 <= F x < zlen rows * nrm) ->
  exists tr, prefix w (padded nr 0 (map F (drows rows prs))) = map (fun x : drow => tr x.1.1) (drows (pad_rows w rows) (pad_plans c w prs)) /\
    (forall r, 0 <= r < zlen (pad_rows w rows) -> 0 <= tr r < zlen (pad_rows w rows) * nrm) /\
    (forall x, x ∈ drows rows prs -> tr x.1.1 = F x).
Proof using Hw Hprs Hregion.
  intros HF. assert (length prs = length rows) as Hl by (symmetry; by eapply Forall2_length). pose proof width_pos as Hwp.
  pose proof (drows_length rows prs Hl) as Hd. rewrite (pad_length w rows) by lia.
  exists (fun r => match zget (drows rows prs) r with Some x => F x | None => 0 end). split_and!.
  - rewrite prefix_padded by (unfold zlen in *; rewrite ?length_map; lia). rewrite drows_pad, map_app, map_map, length_map. f_equal.
    + apply map_ext_in. intros x Hx%list_elem_of_In. by rewrite (drows_get x Hx).
    + cbn [fst]. rewrite (map_ext_in _ (fun _ => 0)).
      * rewrite map_zrange_const. f_equal. unfold zlen in *. lia.
      * intros r Hr%list_elem_of_In%elem_zrange. destruct (zget (drows rows prs) r) eqn:E; [|done]. apply zget_Some in E. lia.
  - intros r Hr. destruct (zget (drows rows prs) r) as [x|] eqn:E; [|nia]. specialize (HF x (zget_elem _ _ _ E)). nia.
  - intros x Hx. by rewrite (drows_get x Hx).
Qed.

Lemma pad_get r it : zget (pad_rows w rows) r = Some (Some it) -> zget rows r = Some (Some it).
Proof using Type.
  intros H. unfold pad_rows in H. destruct (decide (r < zlen rows)) as [Hr|Hr]; [by rewrite zget_app_l in H|].
  rewrite zget_app_ge in H by lia. unfold zget in H. case_match; [done|]. apply lookup_replicate in H as [H _]. done.
Qed.

Lemma pad_toks r0 : ver_toks c r0 (pad_rows w rows) = ver_toks c r0 rows.
Proof using Type.
  unfold pad_rows. generalize (Z.to_nat w - length rows)%nat as k. intros k. revert r0.
  generalize rows as rs. clear. induction rs as [|[it|] rs IH]; intros r0; cbn [app ver_toks]; [|by rewrite IH..].
  revert r0. induction k as [|k IH]; intros r0; [done|apply IH].
Qed.

Lemma pad_tok_at : tok_at (pad_rows w rows) (zlen (pad_rows w rows)) = tok_at rows (zlen rows).
Proof using Type.
  unfold tok_at, zlen. rewrite !Nat2Z.id, !firstn_all. unfold pad_rows. rewrite map_app, zsum_app.
  enough (zsum (map row_len (replicate (Z.to_nat w - length rows) None)) = 0) by lia.
  clear. induction (Z.to_nat w - length rows)%nat as [|k IH]; [done|exact IH].
Qed.

(** What a captured graph [w] rows and [nt'] tokens wide reads: the vectors of
    the batch filled up to [w] rows. *)
Theorem verify_view_vectors nt nt' tokens : tok_at rows (zlen rows) <= nt' <= tokens -> tok_at rows (zlen rows) <= nt <= tokens ->
  verify_vectors (pad_rows w rows) (pad_plans c w prs) nt'
    (verify_view w nt' nrm (persist_verify c nr nrm tokens (zlen rows) (vfields c rpp rows prs nt))).
Proof using Hok Hlen Hprs Hregion Hrpp Hw.
  intros Hnt' Hnt. assert (length prs = length rows) as Hl by (symmetry; by eapply Forall2_length). pose proof width_pos as Hwp.
  assert (forall x, x ∈ drows rows prs -> vo_counts (row_out c rpp x) = map (at_count x) (zrange 0 nrm) /\ vo_slots (row_out c rpp x) = map (at_slot x) (zrange 0 nrm) /\
    vo_live (row_out c rpp x) = map (at_live x) (zrange 0 nrm) /\ vo_keep (row_out c rpp x) = map (at_keep x) (zrange 0 nrm)) as Hvec.
  { intros x Hx. apply row_vectors, planned_rows, Hx. }
  assert (length (pad_plans c w prs) = length (pad_rows w rows)) as Hlp.
  { unfold pad_plans, pad_rows. rewrite !length_app, !length_replicate. lia. }
  split; unfold verify_view, persist_verify, vfields; cbn [v_head v_tail v_pending_in v_pending_out v_tail_reg v_counts v_slots v_live v_keep_rows v_tok_buf].
  - rewrite map_map, (map_rows _ rows prs Hl). rewrite (map_ext _ at_head) by (by intros [[r [it|]] pl]). by apply req_field.
  - rewrite map_map. rewrite (map_ext _ at_tail) by (by intros [[r [it|]] pl]). by apply req_field.
  - rewrite (map_plans _ rows prs Hl), (map_plans _ _ _ Hlp). by apply req_field.
  - rewrite map_map, (map_plans _ _ _ Hlp). rewrite (map_ext_in _ (fun x : drow => pl_out x.2)); [by apply req_field|].
    intros x Hx%list_elem_of_In. destruct (planned_rows x Hx) as [_ H]. destruct x as [[r [it|]] pl]; [done|]. cbn in *. by rewrite H.
  - rewrite map_map. assert (forall x, x ∈ drows rows prs -> 0 <= vo_tail_reg (row_out c rpp x) < zlen rows * nrm) as Hreg.
    { intros x Hx. destruct (planned_rows x Hx) as [H _]. destruct x as [[r row] pl]. destruct (drows_elem _ _ _ _ _ Hx) as (Hr & _ & _).
      destruct row as [it|]; cbn in *; [|nia]. destruct (H it eq_refl) as (Hit & Hfit & _). pose proof (nreg_pos c rpp Hregion it Hit). nia. }
    destruct (tail_reg_field (fun x => vo_tail_reg (row_out c rpp x)) Hreg) as (tr & H1 & H2 & H3). exists tr. split_and!; [done|done|].
    intros r it Hr%pad_get. destruct (zget_drows rows prs r Hl) as (row & pl & Hx & Hrow & _); [by apply zget_Some in Hr|].
    assert (row = Some it) as -> by congruence. exact (H3 _ (zget_elem _ _ _ Hx)).
  - rewrite (per_out _ at_count) by (intros x Hx; apply (Hvec x Hx)). by apply reg_field.
  - rewrite (per_out _ at_slot) by (intros x Hx; apply (Hvec x Hx)). by apply reg_field.
  - rewrite (per_out _ at_live) by (intros x Hx; apply (Hvec x Hx)). by apply reg_field.
  - rewrite (per_out _ at_keep) by (intros x Hx; apply (Hvec x Hx)). by apply reg_field.
  - rewrite pad_toks, pad_tok_at. pose proof (zlen_ver_toks c rpp rows 0 Hok) as Hz. rewrite Hz.
    set (ntok := tok_at rows (zlen rows)) in *. set (base := zlen rows * nrm * region c).
    assert (zlen (map (fun t => t.1.1.1) (ver_toks c 0 rows)) = ntok) as Hzm by (unfold zlen in *; by rewrite length_map).
    assert (zlen (map (fun t => t.1.1.1) (ver_toks c 0 rows) ++ map (fun i => base + i) (zrange ntok (nt - ntok))) = nt) as Hzl.
    { rewrite zlen_app, Hzm. unfold zlen. rewrite length_map. unfold zrange. rewrite length_seqZ. lia. }
    rewrite Hzl. rewrite <- app_assoc, <- map_app.
    assert (zrange ntok (nt - ntok) ++ zrange nt (tokens - nt) = zrange ntok (tokens - ntok)) as ->.
    { replace (tokens - ntok) with ((nt - ntok) + (tokens - nt)) by lia. rewrite (zrange_app ntok) by lia. do 2 f_equal. lia. }
    exists (map (fun i => base + i) (zrange ntok (nt' - ntok))). split_and!.
    + unfold prefix. rewrite take_app_ge by (unfold zlen in *; lia). f_equal.
      rewrite <- (take_map_zrange _ ntok (nt' - ntok) (tokens - ntok)) by lia. f_equal. unfold zlen in *. lia.
    + unfold zlen. rewrite length_map. unfold zrange. rewrite length_seqZ. lia.
    + apply Forall_fmap, Forall_forall. intros i Hi%elem_zrange. unfold spare. rewrite (pad_length w rows) by lia. subst base.
      pose proof (zlen_nonneg (ver_toks c 0 rows)) as Hn0. rewrite Hz in Hn0. pose proof (zlen_nonneg rows).
      rewrite <- !Z.mul_assoc. assert (0 < nrm * region c) as HA by nia. set (A := nrm * region c) in *.
      split; [nia|]. intros r it Hr%pad_get%zget_Some. right. nia.
Qed.
End padded.

(** The vectors of an eager schedule *)
Lemma vfields_vectors nt : tok_at rows (zlen rows) <= nt -> verify_vectors rows prs nt (vfields c rpp rows prs nt).
Proof using Hok Hlen Hprs Hregion Hrpp.
  intros Hnt. assert (length prs = length rows) as Hl by (symmetry; by eapply Forall2_length).
  assert (zlen rows <= zlen rows <= zlen rows) as Hn by lia. assert (tok_at rows (zlen rows) <= nt <= nt) as Hn' by lia.
  pose proof (verify_view_vectors (zlen rows) (zlen rows) Hn nt nt nt Hn' Hn') as H.
  assert (pad_rows (zlen rows) rows = rows /\ pad_plans c (zlen rows) prs = prs) as [E1 E2].
  { unfold pad_rows, pad_plans, zlen. rewrite Nat2Z.id, Hl, Nat.sub_diag. cbn. by rewrite !app_nil_r. }
  rewrite E1, E2 in H. clear E1 E2.
  assert (forall {X} n (v : X) l, zlen l = n -> prefix n (padded n v l) = l) as Hid.
  { intros X n v xs <-. rewrite prefix_padded by lia. unfold zlen. rewrite Nat2Z.id, Nat.sub_diag. cbn. by rewrite app_nil_r. }
  pose proof width_pos as Hwp. pose proof (drows_length rows prs Hl) as Hd.
  assert (forall {X} (vo : verify_out -> X), zlen (map vo (map (row_out c rpp) (drows rows prs))) = zlen rows) as Hz1 by (intros; rewrite <- Hd; unfold zlen; by rewrite !length_map).
  assert (forall {X} (vo : verify_out -> list X) g, (forall x, x ∈ drows rows prs -> vo (row_out c rpp x) = map (g x) (zrange 0 nrm)) ->
    zlen (concat (map vo (map (row_out c rpp) (drows rows prs)))) = zlen rows * nrm) as Hz2
    by (intros X vo g Hg; rewrite (per_out vo g Hg), zlen_per by lia; by rewrite Hd).
  assert (forall x, x ∈ drows rows prs -> vo_counts (row_out c rpp x) = map (at_count x) (zrange 0 nrm) /\ vo_slots (row_out c rpp x) = map (at_slot x) (zrange 0 nrm) /\
    vo_live (row_out c rpp x) = map (at_live x) (zrange 0 nrm) /\ vo_keep (row_out c rpp x) = map (at_keep x) (zrange 0 nrm)) as Hvec.
  { intros x Hx. apply row_vectors, planned_rows, Hx. }
  destruct H as [H1 H2 H3 H4 H5 H6 H7 H8 H9 H10]. unfold verify_view, persist_verify in *.
  cbn [v_head v_tail v_pending_in v_pending_out v_tail_reg v_counts v_slots v_live v_keep_rows v_tok_buf] in *.
  assert (zlen prs = zlen rows) as Hlz by (unfold zlen; lia).
  rewrite Hid in H1, H2, H3, H4, H5 by (unfold vfields; cbn [v_head v_tail v_pending_in v_pending_out v_tail_reg]; (apply Hz1 || done || (unfold zlen; by rewrite !length_map))).
  rewrite (Hid _ (zlen rows * nrm)) in H6 by (unfold vfields; cbn [v_counts v_slots v_live v_keep_rows]; eapply Hz2; intros x Hx; by apply (Hvec x Hx)).
  rewrite (Hid _ (zlen rows * nrm)) in H7 by (unfold vfields; cbn [v_counts v_slots v_live v_keep_rows]; eapply Hz2; intros x Hx; by apply (Hvec x Hx)).
  rewrite (Hid _ (zlen rows * nrm)) in H8 by (unfold vfields; cbn [v_counts v_slots v_live v_keep_rows]; eapply Hz2; intros x Hx; by apply (Hvec x Hx)).
  rewrite (Hid _ (zlen rows * nrm)) in H9 by (unfold vfields; cbn [v_counts v_slots v_live v_keep_rows]; eapply Hz2; intros x Hx; by apply (Hvec x Hx)).
  split; try done. destruct H10 as (rest & E & Hr). exists rest. split; [|done]. rewrite <- E.
  set (tb := v_tok_buf _). assert (zlen tb = nt) as Hz.
  { subst tb. unfold vfields. cbn [v_tok_buf]. pose proof (zlen_ver_toks c rpp rows 0 Hok) as Hz. rewrite Hz. rewrite zlen_app. unfold zlen in *.
    rewrite !length_map. unfold zrange. rewrite length_seqZ. lia. }
  rewrite Hz, Z.sub_diag. unfold prefix. rewrite take_app_le by (unfold zlen in *; lia). unfold zlen in Hz. rewrite firstn_all2 by lia. done.
Qed.
End planned.
End vectors.

Section update.
Context {T V : Type} (zero : T) (compress : list T -> V).
Context (c : config) (rpp : Z).
Context (Hregion : 0 < region c) (Hrpp : 0 < rpp).

Abbreviation it_slot := (it_slot c rpp) (only parsing).
Abbreviation it_head := (it_head c) (only parsing).
Abbreviation it_tail := (it_tail c) (only parsing).
Abbreviation it_nbuf := (it_nbuf c) (only parsing).
Abbreviation it_nreg := (it_nreg c) (only parsing).
Abbreviation it_closed := (it_closed c) (only parsing).
Abbreviation nrm := (verify_width c) (only parsing).
Abbreviation trash := (trash_row c) (only parsing).

Section rows.
Context (l : @layer T V) (toks : list T) (t0 t : pending_table).
Context (rows : list (option item)) (prs : list plan) (nt : Z) (f : verify_fields).
Context (Hl : layer_ok c l) (Ht : table_ok t) (Hcap : capacity t = max_pending c).
Context (Hok : Forall (item_ok c rpp) (alive rows)).
Context (Hlen : Forall (fun it => it_len it <= Z.max (spec_query_len c) 1) (alive rows)).
Context (Hprs : Forall2 (row_plan c rpp t0 t) rows prs).
Context (Hnt : zlen toks = nt) (Htoks : tok_at rows (zlen rows) <= nt).
Context (Hslots : NoDup (concat (map (it_slots c rpp) (alive rows)))).
Context (Hf : verify_vectors c rpp rows prs nt f).

(** The entry of a row that is a request *)
Definition ventry (x : drow) : option entry :=
  match x.1.2 with Some it => Some (Entry x.1.1 (tok_at rows x.1.1) 0 it x.2) | None => None end.
Definition ventries : list entry := omap ventry (drows rows prs).

Lemma tok_at_mono r r' : 0 <= r <= r' -> tok_at rows r <= tok_at rows r'.
Proof using Hok.
  intros Hr. unfold tok_at. replace (Z.to_nat r') with (Z.to_nat r + (Z.to_nat r' - Z.to_nat r))%nat by lia.
  rewrite <- take_take_drop, map_app, zsum_app.
  enough (0 <= zsum (map row_len (take (Z.to_nat r' - Z.to_nat r) (drop (Z.to_nat r) rows)))) by lia.
  assert (forall x, x ∈ take (Z.to_nat r' - Z.to_nat r) (drop (Z.to_nat r) rows) -> 0 <= row_len x) as H.
  { intros [it|] Hin; [|done]. rewrite Forall_forall in Hok. cbn.
    assert (it ∈ alive rows) as Ha.
    { apply list_elem_of_omap. exists (Some it). split; [|done]. apply elem_of_take in Hin as (i & Hi & _).
      rewrite lookup_drop in Hi. by eapply list_elem_of_lookup_2. }
    pose proof (item_len _ _ _ (Hok _ Ha)). lia. }
  revert H. generalize (take (Z.to_nat r' - Z.to_nat r) (drop (Z.to_nat r) rows)) as xs. induction xs as [|x xs IH]; intros H; [done|].
  cbn. pose proof (H x ltac:(left)). enough (0 <= zsum (map row_len xs)) by (unfold zsum in *; lia). apply IH. intros y Hy. apply H. by right.
Qed.

Record vrow (r : Z) (it : item) (pl : plan) : Prop := VRow {
  vrow_ok : item_ok c rpp it;
  vrow_fits : 0 < it_nreg it <= nrm;
  vrow_plan : row_plan c rpp t0 t (Some it) pl;
  vrow_get : zget rows r = Some (Some it);
  vrow_range : 0 <= r < zlen rows;
  vrow_entry : entry_ok c rpp toks t (Entry r (tok_at rows r) 0 it pl)
}.

Lemma vrow_at r it pl : (r, Some it, pl) ∈ drows rows prs -> vrow r it pl.
Proof using Hok Hlen Hprs Hnt Htoks Hregion.
  intros Hin. destruct (drows_elem _ _ _ _ _ Hin) as (Hr & Hrow & Hpl).
  assert (it ∈ alive rows) as Ha by (apply list_elem_of_omap; exists (Some it); split; [by eapply zget_elem|done]).
  pose proof (proj1 (Forall_forall _ _) Hok _ Ha) as Hit. pose proof (proj1 (Forall_forall _ _) Hlen _ Ha) as Hfit.
  assert (row_plan c rpp t0 t (Some it) pl) as Hp.
  { unfold zget in Hrow, Hpl. destruct (Z.ltb_spec r 0); [lia|].
    destruct (Forall2_lookup_l _ _ _ _ _ Hprs Hrow) as (pl' & E & Hrp). congruence. }
  assert (0 <= tok_at rows r /\ tok_at rows r + it_len it <= nt) as [H1 H2].
  { change (it_len it) with (row_len (Some it)). rewrite <- (tok_at_next _ _ _ Hrow).
    pose proof (tok_at_mono 0 r ltac:(lia)) as Hm. change (tok_at rows 0) with 0 in Hm.
    pose proof (tok_at_mono (r + 1) (zlen rows) ltac:(lia)). lia. }
  split; try done.
  - split; [by eapply nreg_pos|by apply nreg_width].
  - split; cbn; [done|apply Hp|lia].
Qed.

Lemma vrow_pad r pl : (r, None, pl) ∈ drows rows prs -> pl = Plan trash trash [].
Proof using Hprs.
  intros Hin. destruct (drows_elem _ _ _ _ _ Hin) as (Hr & Hrow & Hpl). unfold zget in Hrow, Hpl.
  destruct (Z.ltb_spec r 0); [lia|]. destruct (Forall2_lookup_l _ _ _ _ _ Hprs Hrow) as (pl' & E & Hrp). cbn in Hrp. congruence.
Qed.

(** ** What one region writes and stores *)

Definition tail_writes (e : entry) (j : Z) : list (Z * list T) :=
  if (j =? it_nreg (e_item e) - 1) && negb (it_tail (e_item e) =? 0) then [(pl_out (e_plan e), tail_of c l toks e)] else [].
Definition keep_writes (e : entry) (j : Z) : list (Z * list T) :=
  match zget (pl_keep (e_plan e)) j with Some row => [(row, region_of c (buf_of c l toks e) j)] | None => [] end.
Definition region_sums (e : entry) (j : Z) : list (Z * V) :=
  if j <? it_closed (e_item e) then [(it_slot (e_item e) j, compress (region_of c (buf_of c l toks e) j))] else [].

Definition on_region {X} (F : entry -> Z -> list X) (g : Z) : list X :=
  match zget (drows rows prs) (g / nrm) with
  | Some x => match ventry x with Some e => F e (g mod nrm) | None => [] end
  | None => []
  end.

Lemma on_region_at {X} (F : entry -> Z -> list X) r j x : zget (drows rows prs) r = Some x -> 0 <= j < nrm ->
  on_region F (r * nrm + j) = match ventry x with Some e => F e j | None => [] end.
Proof.
  intros Hx Hj. unfold on_region. rewrite (Z.add_comm (r * nrm)), Z.div_add, Z.mod_add by lia.
  by rewrite Z.div_small, Z.mod_small, Z.add_0_l, Hx by lia.
Qed.

Definition launched : list Z := zrange 0 (zlen rows * nrm).

Lemma launched_elem g : g ∈ launched -> exists r j, g = r * nrm + j /\ 0 <= r < zlen rows /\ 0 <= j < nrm.
Proof using Hregion.
  intros Hg%elem_zrange. pose proof (width_pos c Hregion). exists (g / nrm), (g mod nrm).
  split_and!; [rewrite Z.mul_comm; apply Z.div_mod; lia|apply Z.div_pos; lia|apply Z.div_lt_upper_bound; lia|apply Z.mod_pos_bound; lia..].
Qed.

Lemma regions_launched {X} (F : entry -> Z -> list X) :
  concat (map (on_region F) launched) = concat (map (fun e => concat (map (F e) (zrange 0 nrm))) ventries).
Proof using Hregion Hprs.
  assert (length prs = length rows) as Hl' by (symmetry; by eapply Forall2_length).
  pose proof (width_pos c Hregion). unfold launched, ventries. rewrite concat_omap.
  rewrite <- (Z.mul_0_l nrm) at 1. rewrite zrange_mul by (pose proof (zlen_nonneg rows); lia).
  rewrite (map_zget _ (drows rows prs) []), (drows_length rows prs Hl').
  rewrite concat_nested. f_equal. apply list_fmap_ext. intros i r Hr. apply lookup_seqZ in Hr as [-> Hi].
  destruct (zget_is_Some (drows rows prs) (0 + Z.of_nat i)) as [x Hx]; [rewrite drows_length; [lia|done]|]. rewrite Hx, map_map.
  transitivity (concat (map (fun j => match ventry x with Some e => F e j | None => [] end) (zrange 0 nrm))).
  - f_equal. apply list_fmap_ext. intros k j Hj. apply lookup_seqZ in Hj as [-> Hj]. apply on_region_at; [done|lia].
  - destruct (ventry x); [done|]. apply concat_nil_Forall, Forall_fmap, Forall_forall. done.
Qed.
(** Together the regions make the writes of the plans. *)

Lemma ventries_elem e : e ∈ ventries -> exists r it pl, e = Entry r (tok_at rows r) 0 it pl /\ vrow r it pl /\
  (r, Some it, pl) ∈ drows rows prs.
Proof using Hok Hlen Hprs Hnt Htoks Hregion.
  intros ([[r [it|]] pl] & Hin & E)%list_elem_of_omap; [|done]. injection E as <-. exists r, it, pl.
  split_and!; [done|by apply vrow_at|done].
Qed.

Lemma ventries_ok : Forall (entry_ok c rpp toks t) ventries.
Proof using Hok Hlen Hprs Hnt Htoks Hregion.
  apply Forall_forall. intros e (r & it & pl & -> & Hv & _)%ventries_elem. apply Hv.
Qed.

Lemma closed_bounds it r pl : vrow r it pl -> 0 <= it_closed it <= it_nreg it /\ 0 <= kept_regions c it <= it_closed it.
Proof using Hregion Hrpp.
  intros Hv. pose proof (vrow_ok _ _ _ Hv) as Hit. pose proof (closed_nonneg c rpp Hregion it Hit).
  pose proof (closed_le_nreg c rpp Hregion it Hit). unfold kept_regions. case_match; lia.
Qed.

Lemma keep_writes_all e : e ∈ ventries ->
  concat (map (keep_writes e) (zrange 0 nrm)) = zip (pl_keep (e_plan e)) (map (region_of c (buf_of c l toks e)) (zrange 0 (kept_regions c (e_item e)))).
Proof using Hok Hlen Hprs Hnt Htoks Hregion Hrpp.
  intros (r & it & pl & -> & Hv & _)%ventries_elem. pose proof (closed_bounds it r pl Hv). pose proof (vrow_fits _ _ _ Hv).
  pose proof (plan_keep _ _ _ _ _ (entry_plan _ _ _ _ _ (vrow_entry _ _ _ Hv))) as Hk. cbn in Hk. cbn [e_item e_plan]. rewrite <- Hk.
  rewrite <- (concat_zip _ _ nrm) by lia. unfold keep_writes. cbn [e_plan]. f_equal. apply list_fmap_ext. intros i j _. by rewrite Z.sub_0_r.
Qed.

Lemma tail_writes_all e : e ∈ ventries ->
  concat (map (tail_writes e) (zrange 0 nrm)) = if it_tail (e_item e) =? 0 then [] else [(pl_out (e_plan e), tail_of c l toks e)].
Proof using Hok Hlen Hprs Hnt Htoks Hregion Hrpp.
  intros (r & it & pl & -> & Hv & _)%ventries_elem. pose proof (vrow_fits _ _ _ Hv). unfold tail_writes. cbn [e_item].
  rewrite concat_one by lia. by destruct (it_tail it =? 0).
Qed.

Lemma region_sums_all e : e ∈ ventries -> concat (map (region_sums e) (zrange 0 nrm)) = sums_of compress c rpp l toks e.
Proof using Hok Hlen Hprs Hnt Htoks Hregion Hrpp.
  intros (r & it & pl & -> & Hv & _)%ventries_elem. pose proof (closed_bounds it r pl Hv). pose proof (vrow_fits _ _ _ Hv).
  unfold region_sums, sums_of. cbn [e_item]. set (e := Entry _ _ _ _ _).
  rewrite concat_below by lia. by rewrite Z.sub_0_r.
Qed.

Lemma launched_writes : concat (map (on_region keep_writes) launched) ++ concat (map (on_region tail_writes) launched) ≡ₚ
  concat (map (writes_of c l toks) ventries).
Proof using Hok Hlen Hprs Hnt Htoks Hregion Hrpp.
  rewrite !regions_launched. unfold writes_of.
  rewrite (map_ext_in (fun e => concat (map (keep_writes e) (zrange 0 nrm))) _ ventries (fun e H => keep_writes_all e (proj2 (list_elem_of_In _ _) H))).
  rewrite (map_ext_in (fun e => concat (map (tail_writes e) (zrange 0 nrm))) _ ventries (fun e H => tail_writes_all e (proj2 (list_elem_of_In _ _) H))).
  by rewrite <- concat_both.
Qed.
(** ** The tokens of one region *)

Definition area (e : entry) : list T :=
  buf_of c l toks e ++ replicate (Z.to_nat (nrm * region c - it_nbuf (e_item e))) zero.

Lemma nbuf_area it r pl : vrow r it pl -> it_nbuf it <= nrm * region c.
Proof using Hregion.
  intros Hv. pose proof (vrow_fits _ _ _ Hv). pose proof (nreg_split c Hregion it). pose proof (nbuf_split c Hregion it).
  pose proof (tail_range c Hregion it). destruct (Z.eqb_spec (it_tail it) 0); nia.
Qed.

Lemma zlen_area r it pl : vrow r it pl -> zlen (area (Entry r (tok_at rows r) 0 it pl)) = nrm * region c.
Proof using Hl Ht Hcap Hregion.
  intros Hv. pose proof (nbuf_area _ _ _ Hv). unfold area. rewrite zlen_app, (zlen_buf c rpp Hregion l toks t Hl Ht Hcap _ (vrow_entry _ _ _ Hv)).
  cbn [e_item]. rewrite zlen_replicate by lia. lia.
Qed.

(** Slices of the area inside the tokens of the request *)
Lemma area_slice r it pl s n : vrow r it pl -> 0 <= s -> 0 <= n -> s + n <= it_nbuf it ->
  slice s n (area (Entry r (tok_at rows r) 0 it pl)) = slice s n (buf_of c l toks (Entry r (tok_at rows r) 0 it pl)).
Proof using Hl Ht Hcap Hregion.
  intros Hv Hs Hn Hb. apply slice_app_l; [done|done|]. by rewrite (zlen_buf c rpp Hregion l toks t Hl Ht Hcap _ (vrow_entry _ _ _ Hv)).
Qed.

Lemma zget_area r it pl off : vrow r it pl -> 0 <= off < nrm * region c ->
  zget (area (Entry r (tok_at rows r) 0 it pl)) off =
  if off <? it_head it then prow ← zget (pend l) (pl_in pl); zget prow off
  else if off <? it_nbuf it then zget toks (tok_at rows r + (off - it_head it))
  else Some zero.
Proof using Hl Ht Hcap Hregion.
  intros Hv Hoff. pose proof (vrow_entry _ _ _ Hv) as He. pose proof (zlen_buf c rpp Hregion l toks t Hl Ht Hcap _ He) as Hb.
  pose proof (zlen_head c rpp Hregion l toks t Hl Ht Hcap _ He) as Hh. cbn [e_item e_plan] in *.
  pose proof (head_range c Hregion it). pose proof (item_len _ _ _ (vrow_ok _ _ _ Hv)).
  unfold area. cbn [e_item]. destruct (Z.ltb_spec off (it_nbuf it)) as [H1|H1].
  - rewrite zget_app_l by lia. unfold buf_of. cbn [e_item e_plan e_tok]. destruct (Z.ltb_spec off (it_head it)) as [H2|H2].
    + rewrite zget_app_l by lia.
      destruct (held_row c l t Hl Ht Hcap _ _ (plan_in _ _ _ _ _ (entry_plan _ _ _ _ _ He) ltac:(cbn; lia))) as (prow & E & _).
      cbn [e_plan] in E. rewrite E. cbn [default mbind option_bind]. by rewrite zget_slice by lia.
    + rewrite zget_app_ge, Hh by lia. apply zget_slice; [|unfold DsaPlan.it_nbuf in *; lia]. apply (entry_toks _ _ _ _ _ He).
  - rewrite (proj2 (Z.ltb_ge off (it_head it))) by (unfold DsaPlan.it_nbuf in *; lia).
    rewrite zget_app_ge, Hb by lia.
    unfold zget. destruct (Z.ltb_spec (off - it_nbuf it) 0); [lia|]. apply lookup_replicate_2. lia.
Qed.

Lemma kernel_values (l' : @layer T V) r it pl j : vrow r it pl -> 0 <= j < nrm ->
  (j = 0 -> it_head it <> 0 -> zget (pend l') (pl_in pl) = zget (pend l) (pl_in pl)) ->
  map (fun i => kernel_token zero l' toks nt (it_head it) (tok_at rows r) (it_len it) (pl_in pl) (j * region c + i)) (zrange 0 (region c)) =
  slice (j * region c) (region c) (area (Entry r (tok_at rows r) 0 it pl)).
Proof using Hl Ht Hcap Hregion Hrpp Hnt.
  intros Hv Hj Hin. pose proof (zlen_area _ _ _ Hv) as Ha. pose proof (head_range c Hregion it) as Hh.
  apply zget_ext.
  - rewrite zlen_slice by nia. unfold zlen. rewrite length_map. unfold zrange. rewrite length_seqZ. lia.
  - intros i Hi. unfold zlen in Hi. rewrite length_map in Hi. unfold zrange in Hi. rewrite length_seqZ in Hi.
    rewrite zget_map, zget_zrange by lia. cbn [fmap option_fmap option_map]. rewrite Z.add_0_l, zget_slice by lia.
    set (off := j * region c + i). assert (0 <= off < nrm * region c) as Hoff by (subst off; nia).
    rewrite (zget_area _ _ _ _ Hv Hoff). unfold kernel_token. unfold DsaPlan.it_nbuf.
    destruct (entry_toks _ _ _ _ _ (vrow_entry _ _ _ Hv)) as [Ht1 Ht2]. cbn [e_tok e_item] in *.
    destruct (Z.ltb_spec off (it_head it)) as [H1|H1].
    + rewrite (proj2 (Z.leb_gt 0 (off - it_head it))) by lia. cbn [andb].
      assert (j = 0) as -> by (subst off; nia). rewrite (Hin eq_refl ltac:(lia)).
      destruct (held_row c l t Hl Ht Hcap _ _ (plan_in _ _ _ _ _ (entry_plan _ _ _ _ _ (vrow_entry _ _ _ Hv)) ltac:(cbn; lia))) as (prow & E & Hp).
      cbn [e_plan] in E. rewrite E. cbn [mbind option_bind]. by destruct (zget_is_Some prow off ltac:(lia)) as [x ->].
    + rewrite (proj2 (Z.leb_le 0 (off - it_head it))) by lia. cbn [andb].
      destruct (Z.ltb_spec (off - it_head it) (it_len it)), (Z.ltb_spec off (it_head it + it_len it)); try lia; cbn [andb]; [|done].
      rewrite (proj2 (Z.leb_le 0 (tok_at rows r + (off - it_head it)))), (proj2 (Z.ltb_lt (tok_at rows r + (off - it_head it)) nt)) by lia.
      cbn [andb]. by destruct (zget_is_Some toks (tok_at rows r + (off - it_head it)) ltac:(lia)) as [x ->].
Qed.
(** What the vectors hold at a region *)
Lemma vectors_at r row pl j : zget (drows rows prs) r = Some (r, row, pl) -> zget prs r = Some pl -> 0 <= j < nrm ->
  let x : drow := (r, row, pl) in
  zget (v_head f) r = Some (at_head c x) /\ zget (v_tail f) r = Some (at_tail c x) /\
  zget (v_pending_in f) r = Some (pl_in pl) /\ zget (v_pending_out f) r = Some (pl_out pl) /\
  zget (v_live f) (r * nrm + j) = Some (at_live c x j) /\ zget (v_slots f) (r * nrm + j) = Some (at_slot c rpp x j) /\
  zget (v_counts f) (r * nrm + j) = Some (at_count c x j) /\ zget (v_keep_rows f) (r * nrm + j) = Some (at_keep c x j).
Proof using Hf.
  intros Hx Hpl Hj x. destruct Hf as [H1 H2 H3 H4 _ H5 H6 H7 H8 _]. rewrite H1, H2, H3, H4, H5, H6, H7, H8.
  rewrite !zget_map, Hx, Hpl. repeat rewrite (zget_per _ _ _ _ _ _ Hx Hj). done.
Qed.

(** A row that is written is not the trash row. *)
Lemma held_not_trash slot row : held t slot row -> 0 <= row /\ row <> trash.
Proof using Ht Hcap. intros [Hm _]. destruct (mapped_row _ _ _ Ht Hm) as (_ & Hr & _). unfold trash_row. lia. Qed.

Lemma kept_at r it pl j : vrow r it pl ->
  match zget (pl_keep pl) j with Some row => held t (it_slot it j) row /\ 0 <= j < it_closed it | None => True end.
Proof using Hregion Hrpp.
  intros Hv. destruct (zget (pl_keep pl) j) as [row|] eqn:E; [|done].
  pose proof (entry_plan _ _ _ _ _ (vrow_entry _ _ _ Hv)) as Hp. cbn in Hp. split; [by apply (plan_kept _ _ _ _ _ Hp)|].
  pose proof (plan_keep _ _ _ _ _ Hp) as Hk. pose proof (closed_bounds _ _ _ Hv). apply zget_Some in E. lia.
Qed.

Lemma slice_slice {X} s n k (xs : list X) : 0 <= k <= n -> slice 0 k (slice s n xs) = slice s k xs.
Proof. intros H. unfold slice. rewrite drop_0, take_take. f_equal. lia. Qed.

Lemma area_region r it pl j : vrow r it pl -> 0 <= j < it_closed it ->
  slice (j * region c) (region c) (area (Entry r (tok_at rows r) 0 it pl)) = region_of c (buf_of c l toks (Entry r (tok_at rows r) 0 it pl)) j.
Proof using Hl Ht Hcap Hregion.
  intros Hv Hj. pose proof (nbuf_split c Hregion it). pose proof (tail_range c Hregion it). apply area_slice; [done|nia..].
Qed.

Lemma area_tail r it pl : vrow r it pl -> it_tail it <> 0 ->
  slice 0 (it_tail it) (slice ((it_nreg it - 1) * region c) (region c) (area (Entry r (tok_at rows r) 0 it pl))) =
  tail_of c l toks (Entry r (tok_at rows r) 0 it pl).
Proof using Hl Ht Hcap Hregion Hrpp.
  intros Hv Hne. pose proof (nbuf_split c Hregion it). pose proof (tail_range c Hregion it). pose proof (nreg_split c Hregion it) as Hn.
  rewrite (proj2 (Z.eqb_neq _ 0) Hne) in Hn. rewrite slice_slice by lia. unfold tail_of. cbn [e_item].
  pose proof (closed_bounds _ _ _ Hv). replace (it_nreg it - 1) with (it_closed it) by lia. apply area_slice; [done|nia..].
Qed.

Lemma kernel_store_write (pending : list (list T)) row n values : 0 <= n <= zlen values -> kernel_store pending row n values = write pending (row, slice 0 n values).
Proof.
  intros Hn. unfold kernel_store, write. cbn [fst snd].
  replace (length (slice 0 n values)) with (Z.to_nat n); [done|]. pose proof (zlen_slice 0 n values ltac:(lia) ltac:(lia) ltac:(lia)) as H.
  unfold zlen in H. lia.
Qed.

(** ** The buffer without the kernel *)

Abbreviation size := (nrm * region c) (only parsing).

Definition head_area (x : drow) : list T :=
  slice 0 (at_head c x) (default [] (zget (pend l) (pl_in x.2))) ++ replicate (Z.to_nat (size - at_head c x)) zero.

Lemma row_in x : x ∈ drows rows prs -> exists prow, zget (pend l) (pl_in x.2) = Some prow /\ zlen prow = region c.
Proof using Hl Ht Hcap Hregion Hrpp Hok Hlen Hprs Hnt Htoks.
  intros Hin. assert (pl_in x.2 = trash \/ exists slot, held t slot (pl_in x.2)) as [E|[slot Hh]]; [|..|by eapply held_row].
  - destruct x as [[r [it|]] pl]; [|left; by rewrite (vrow_pad _ _ Hin)]. destruct (vrow_plan _ _ _ (vrow_at _ _ _ Hin)) as (Hp & _ & Htrash & _).
    cbn. destruct (decide (it_head it = 0)) as [E|E]; [left; by apply Htrash|right]. eexists. by apply (plan_in _ _ _ _ _ Hp).
  - destruct Hl as [H1 H2]. pose proof (ok_slots _ Ht). pose proof (zlen_nonneg (slot_of_row t)).
    destruct (zget_is_Some (pend l) (pl_in x.2)) as [prow Hp]; [rewrite E; unfold trash_row; lia|]. exists prow. split; [done|].
    rewrite Forall_forall in H2. apply H2. by eapply zget_elem.
Qed.

Lemma at_head_range x : 0 <= at_head c x < region c.
Proof using Hregion. unfold at_head. destruct x.1.2; [by apply head_range|lia]. Qed.

Lemma zlen_head_area x : x ∈ drows rows prs -> zlen (head_area x) = size.
Proof using Hl Ht Hcap Hregion Hrpp Hok Hlen Hprs Hnt Htoks.
  intros Hin. destruct (row_in x Hin) as (prow & E & Hp). pose proof (at_head_range x). pose proof (width_pos c Hregion).
  unfold head_area. rewrite E. cbn [default id]. rewrite zlen_app, zlen_slice, zlen_replicate by nia. lia.
Qed.

Lemma verify_heads_eq xs : (forall x, x ∈ xs -> x ∈ drows rows prs) ->
  verify_heads zero c l nrm (map (fun x => (at_head c x, pl_in x.2)) xs) = Ok (concat (map head_area xs)).
Proof using Hl Ht Hcap Hregion Hrpp Hok Hlen Hprs Hnt Htoks.
  induction xs as [|x xs IH]; intros H; [done|]. cbn [map verify_heads]. destruct (row_in x (H x ltac:(left))) as (prow & E & Hp).
  rewrite (row_get_in _ _ _ E). cbn [mbind result_bind]. rewrite IH by (intros y Hy; apply H; by right).
  cbn [mbind result_bind mret result_ret concat]. unfold head_area. by rewrite E, <- app_assoc.
Qed.

(** Where tokens go *)
Lemma zlen_item_toks r it : 0 <= it_len it -> zlen (item_toks c r it) = it_len it.
Proof using Type. intros H. unfold item_toks, zlen. rewrite length_map. unfold zrange. rewrite length_seqZ. lia. Qed.

Lemma tok_at_cons x rs r : 0 <= r -> tok_at (x :: rs) (r + 1) = row_len x + tok_at rs r.
Proof using Type. intros H. unfold tok_at. by replace (Z.to_nat (r + 1)) with (S (Z.to_nat r)) by lia. Qed.

Lemma ver_toks_get rs : forall r0 i v, Forall (fun it => 0 < it_len it) (alive rs) -> zget (ver_toks c r0 rs) i = Some v ->
  exists r it k, zget rs r = Some (Some it) /\ 0 <= k < it_len it /\ i = tok_at rs r + k /\ v.1.1.1 = (r0 + r) * size + it_head it + k.
Proof using Type.
  induction rs as [|[it|] rs IH]; intros r0 i v Hpos Hv.
  - apply zget_Some in Hv. unfold zlen in Hv. cbn in Hv. lia.
  - apply Forall_cons in Hpos as [Hlen0 Hpos]. cbn [ver_toks] in Hv. pose proof (zlen_item_toks r0 it ltac:(lia)) as Hz.
    destruct (decide (i < zlen (item_toks c r0 it))) as [H|H].
    + rewrite zget_app_l in Hv by done. pose proof (zget_Some _ _ _ Hv) as Hi. rewrite Hz in Hi. unfold item_toks in Hv.
      rewrite zget_map, zget_zrange in Hv by lia. injection Hv as <-.
      exists 0, it, i. cbn [fst]. split_and!; [done|lia|lia|change (i = 0 + i); lia|lia].
    + rewrite zget_app_ge in Hv by lia. destruct (IH _ _ _ Hpos Hv) as (r & it' & k & H1 & H2 & H3 & H4). pose proof (zget_Some _ _ _ H1).
      exists (r + 1), it', k. rewrite zget_cons_S, tok_at_cons by lia. cbn [row_len]. split_and!; [done|lia|lia|lia|lia].
  - destruct (IH (r0 + 1) i v Hpos Hv) as (r & it' & k & H1 & H2 & H3 & H4). pose proof (zget_Some _ _ _ H1).
    exists (r + 1), it', k. rewrite zget_cons_S, tok_at_cons by lia. cbn [row_len]. split_and!; [done|lia|lia|lia|lia].
Qed.

Lemma ver_toks_at rs : forall r0 r it k, Forall (fun it => 0 < it_len it) (alive rs) -> zget rs r = Some (Some it) -> 0 <= k < it_len it ->
  exists v, zget (ver_toks c r0 rs) (tok_at rs r + k) = Some v /\ v.1.1.1 = (r0 + r) * size + it_head it + k.
Proof using Type.
  assert (forall rs r, Forall (fun it => 0 < it_len it) (alive rs) -> 0 <= tok_at rs r) as Hnn.
  { clear. intros rs r H. unfold tok_at. revert r. induction rs as [|[it|] rs IH]; intros r; [by destruct (Z.to_nat r)|..].
    - apply Forall_cons in H as [H0 H]. destruct (Z.to_nat r) as [|n] eqn:E; [done|]. cbn. specialize (IH H (Z.of_nat n)). rewrite Nat2Z.id in IH.
      unfold zsum in IH. lia.
    - destruct (Z.to_nat r) as [|n] eqn:E; [done|]. cbn. specialize (IH H (Z.of_nat n)). by rewrite Nat2Z.id in IH. }
  induction rs as [|x rs IH]; intros r0 r it k Hpos Hr Hk; [by apply zget_Some in Hr; unfold zlen in Hr; cbn in Hr; lia|].
  pose proof (zget_Some _ _ _ Hr) as Hr0. destruct (decide (r = 0)) as [->|Hne].
  - injection Hr as ->. apply Forall_cons in Hpos as [H0 Hpos]. cbn [ver_toks]. unfold tok_at. cbn [Z.to_nat take map zsum foldr]. rewrite Z.add_0_l.
    rewrite zget_app_l by (rewrite zlen_item_toks; lia). unfold item_toks. rewrite zget_map, zget_zrange by lia. eexists. split; [done|]. cbn [fst]. lia.
  - replace r with (r - 1 + 1) in Hr |- * by lia. rewrite zget_cons_S in Hr by lia. rewrite tok_at_cons by lia.
    destruct x as [it'|]; cbn [ver_toks row_len].
    + apply Forall_cons in Hpos as [H0 Hpos]. destruct (IH (r0 + 1) (r - 1) it k Hpos Hr Hk) as (v & H1 & H2).
      exists v. pose proof (Hnn rs (r - 1) Hpos). rewrite zget_app_ge; rewrite zlen_item_toks by lia; [|lia]. split; [|lia].
      rewrite <- H1. f_equal. lia.
    + destruct (IH (r0 + 1) (r - 1) it k Hpos Hr Hk) as (v & H1 & H2). exists v. split; [done|]. lia.
Qed.


(** The buffer holds the area of every request. *)
Lemma buffer_eq : exists b, index_copy (concat (map head_area (drows rows prs)) ++ replicate (Z.to_nat nt) zero) (zip (v_tok_buf f) toks) = Ok b /\
  zlen b = zlen rows * size + nt /\
  forall r it pl, (r, Some it, pl) ∈ drows rows prs -> slice (r * size) size b = area (Entry r (tok_at rows r) 0 it pl).
Proof using Hl Ht Hcap Hregion Hrpp Hok Hlen Hprs Hnt Htoks Hf.
  assert (length prs = length rows) as Hl' by (symmetry; by eapply Forall2_length). pose proof (width_pos c Hregion) as Hw.
  destruct (vv_tok_buf _ _ _ _ _ _ Hf) as (rest & Htb & Hrest & Hspare).
  assert (Forall (fun it => 0 < it_len it) (alive rows)) as Hpos by (eapply Forall_impl; [exact Hok|]; intros it []; done).
  pose proof (zlen_ver_toks c rpp rows 0 Hok) as Hvt. pose proof (zlen_nonneg rows) as Hrows0. pose proof (zlen_nonneg toks).
  assert (zlen (map (fun v => v.1.1.1) (ver_toks c 0 rows)) = tok_at rows (zlen rows)) as Hvm by (unfold zlen; by rewrite length_map).
  assert (zlen (concat (map head_area (drows rows prs)) ++ replicate (Z.to_nat nt) zero) = zlen rows * size + nt) as Hbl.
  { rewrite zlen_app, zlen_replicate by lia. rewrite (zlen_concat _ size) by (intros; by apply zlen_head_area). by rewrite drows_length. }
  (* the places of the tokens *)
  assert (forall p x, (p, x) ∈ zip (v_tok_buf f) toks ->
    (exists r it k, zget rows r = Some (Some it) /\ 0 <= k < it_len it /\ p = r * size + it_head it + k /\ zget toks (tok_at rows r + k) = Some x)
    \/ spare c rows (zlen rows * size + nt) p) as Hplace.
  { intros p x Hin. apply elem_zip in Hin as (i & Hi & Hx). rewrite Htb in Hi. pose proof (zget_Some _ _ _ Hi).
    destruct (decide (i < tok_at rows (zlen rows))) as [H1|H1].
    - left. rewrite zget_app_l, zget_map in Hi by lia. destruct (zget (ver_toks c 0 rows) i) as [v|] eqn:Ev; [|done]. injection Hi as <-.
      destruct (ver_toks_get rows 0 i v Hpos Ev) as (r & it & k & H2 & H3 & -> & H4). exists r, it, k. split_and!; [done|lia|lia|lia|done].
    - right. rewrite zget_app_ge in Hi by lia. rewrite Forall_forall in Hspare. rewrite Z.mul_assoc. apply Hspare. by eapply zget_elem. }
  assert (forall r it, zget rows r = Some (Some it) -> exists pl, (r, Some it, pl) ∈ drows rows prs) as Hdr.
  { intros r it Hr. destruct (zget_drows rows prs r Hl') as (row & pl & Hx & Hrow & _); [by apply zget_Some in Hr|].
    exists pl. assert (row = Some it) as -> by congruence. by eapply zget_elem. }
  destruct (index_copy_get (zip (v_tok_buf f) toks) (concat (map head_area (drows rows prs)) ++ replicate (Z.to_nat nt) zero)) as (b & E & Hz & Hb).
  { rewrite Hbl. apply Forall_forall. intros [p x] Hin. cbn. destruct (Hplace p x Hin) as [(r & it & k & H1 & H2 & -> & _)|[H1 _]]; [|lia].
    destruct (Hdr r it H1) as [pl Hel]. pose proof (vrow_at _ _ _ Hel) as Hv. pose proof (nbuf_area _ _ _ Hv).
    pose proof (vrow_range _ _ _ Hv). pose proof (head_range c Hregion it). unfold DsaPlan.it_nbuf in *. nia. }
  exists b. split_and!; [done|by rewrite Hz|]. intros r it pl Hel. pose proof (vrow_at _ _ _ Hel) as Hv.
  pose proof (vrow_range _ _ _ Hv) as Hr. pose proof (head_range c Hregion it) as Hh. pose proof (nbuf_area _ _ _ Hv) as Hna.
  assert (zlen (slice (r * size) size b) = size) as Hsl by (apply zlen_slice; nia).
  apply zget_ext; [rewrite Hsl; by rewrite (zlen_area _ _ _ Hv)|]. intros off Hoff. rewrite Hsl in Hoff.
  rewrite zget_slice by nia. rewrite (zget_area _ _ _ _ Hv Hoff). destruct (Hb (r * size + off)) as [Hb1 Hb2].
  (* only its own tokens land in the area *)
  assert (forall x, (r * size + off, x) ∈ zip (v_tok_buf f) toks -> it_head it <= off < it_nbuf it /\ zget toks (tok_at rows r + (off - it_head it)) = Some x) as Hown.
  { intros x Hin. destruct (Hplace _ _ Hin) as [(r' & it' & k & H1 & H2 & H3 & H4)|[_ Hs]].
    - destruct (Hdr r' it' H1) as [pl' Hel']. pose proof (nbuf_area _ _ _ (vrow_at _ _ _ Hel')). pose proof (head_range c Hregion it').
      unfold DsaPlan.it_nbuf in *. assert (r' = r) as -> by nia. assert (it' = it) as -> by (rewrite (vrow_get _ _ _ Hv) in H1; congruence).
      split; [lia|]. by replace (off - it_head it) with k by lia.
    - destruct (Hs r it (vrow_get _ _ _ Hv)); nia. }
  assert (zget (concat (map head_area (drows rows prs)) ++ replicate (Z.to_nat nt) zero) (r * size + off) = zget (head_area (r, Some it, pl)) off) as Hhead.
  { rewrite zget_app_l by (rewrite (zlen_concat _ size) by (intros; by apply zlen_head_area); rewrite drows_length by done; nia).
    destruct (zget_drows rows prs r Hl' Hr) as (row & pl0 & Hx & _ & Hpl0). destruct (drows_elem _ _ _ _ _ Hel) as (_ & _ & Hpl).
    assert (Hx' : zget (drows rows prs) r = Some (r, Some it, pl)).
    { rewrite Hx. destruct (drows_elem _ _ _ _ _ (zget_elem _ _ _ Hx)) as (_ & Hrow & _). rewrite (vrow_get _ _ _ Hv) in Hrow. congruence. }
    apply zget_concat_rows; [intros; by apply zlen_head_area|done|lia]. }
  destruct (row_in _ Hel) as (prow & Eprow & Hprow). cbn [snd] in Eprow.
  destruct (Z.ltb_spec off (it_head it)) as [H1|H1].
  - rewrite Hb1, Hhead by (intros x Hin; apply Hown in Hin as [? _]; lia). unfold head_area, at_head. cbn [fst snd].
    rewrite Eprow. cbn [default id mbind option_bind]. rewrite zget_app_l by (rewrite zlen_slice; lia). by rewrite zget_slice by lia.
  - destruct (Z.ltb_spec off (it_nbuf it)) as [H2|H2].
    + unfold DsaPlan.it_nbuf in H2. destruct (ver_toks_at rows 0 r it (off - it_head it) Hpos (vrow_get _ _ _ Hv) ltac:(lia)) as (v & Hv1 & Hv2).
      pose proof (entry_toks _ _ _ _ _ (vrow_entry _ _ _ Hv)) as [Ht1 Ht2]. cbn [e_tok e_item] in Ht1, Ht2.
      destruct (zget_is_Some toks (tok_at rows r + (off - it_head it)) ltac:(lia)) as [x Hx]. rewrite Hx. apply Hb2.
      * apply (zip_elem _ _ _ _ (tok_at rows r + (off - it_head it))); [|done]. rewrite Htb, zget_app_l.
        -- rewrite zget_map, Hv1. cbn [fmap option_fmap option_map]. f_equal. lia.
        -- apply zget_Some in Hv1. lia.
      * intros y Hy. apply Hown in Hy as [_ Hy]. congruence.
    + rewrite Hb1, Hhead by (intros x Hin; apply Hown in Hin as [? _]; lia). unfold head_area, at_head. cbn [fst snd].
      rewrite Eprow. cbn [default id]. unfold DsaPlan.it_nbuf in H2. pose proof (item_len _ _ _ (vrow_ok _ _ _ Hv)).
      rewrite zget_app_ge; rewrite zlen_slice by lia; [|lia]. unfold zget. destruct (Z.ltb_spec (off - it_head it) 0); [lia|]. apply lookup_replicate_2. lia.
Qed.

Lemma ventries_items : map e_item ventries = alive rows.
Proof using Hprs.
  assert (length prs = length rows) as Hl' by (symmetry; by eapply Forall2_length).
  unfold alive. rewrite <- (map_id rows). rewrite (map_rows (fun x => x) rows prs Hl'). unfold ventries.
  induction (drows rows prs) as [|[[r [it|]] pl] xs IH]; cbn; [done| |done]. by f_equal.
Qed.

Lemma ventries_distinct : slots_distinct c rpp ventries.
Proof using Hprs Hslots. unfold slots_distinct. rewrite <- (map_map e_item (it_slots c rpp)), ventries_items. exact Hslots. Qed.

Lemma launched_sums : concat (map (on_region region_sums) launched) = concat (map (sums_of compress c rpp l toks) ventries).
Proof using Hok Hlen Hprs Hnt Htoks Hregion Hrpp.
  rewrite regions_launched. f_equal. apply map_ext_in. intros e He%list_elem_of_In. by apply region_sums_all.
Qed.

Section buffer.
(** *** Summaries *)

Lemma row_launched g : g ∈ launched -> exists r j row pl, g = r * nrm + j /\ 0 <= j < nrm /\
  zget (drows rows prs) r = Some (r, row, pl) /\ zget rows r = Some row /\ zget prs r = Some pl.
Proof using Hregion Hprs.
  intros Hg. assert (length prs = length rows) as Hl' by (symmetry; by eapply Forall2_length).
  destruct (launched_elem g Hg) as (r & j & -> & Hr & Hj). destruct (zget_drows rows prs r Hl' Hr) as (row & pl & Hx & Hrow & Hpl).
  by exists r, j, row, pl.
Qed.

Lemma zlen_launched : zlen launched = zlen rows * nrm.
Proof using Hregion. apply zlen_zrange. pose proof (width_pos c Hregion). pose proof (zlen_nonneg rows). nia. Qed.

Lemma per_launched {X} (d : X) (v : list X) (g : drow -> Z -> X) : v = per_region c g (drows rows prs) ->
  v = map (fun i => default d (zget v i)) launched.
Proof using Hregion Hprs.
  intros ->. assert (length prs = length rows) as Hl' by (symmetry; by eapply Forall2_length). pose proof (width_pos c Hregion).
  rewrite (zget_self d (per_region c g (drows rows prs))) at 1. rewrite zlen_per by lia. by rewrite drows_length.
Qed.

Context (b : list T) (Hbuf : forall r it pl, (r, Some it, pl) ∈ drows rows prs -> slice (r * size) size b = area (Entry r (tok_at rows r) 0 it pl)).
Context (Hblen : zlen b = zlen rows * size + nt).

Lemma buffer_region r it pl j : (r, Some it, pl) ∈ drows rows prs -> 0 <= j < nrm ->
  slice ((r * nrm + j) * region c) (region c) b = slice (j * region c) (region c) (area (Entry r (tok_at rows r) 0 it pl)).
Proof using Hbuf Hregion.
  intros Hel Hj. rewrite <- (Hbuf _ _ _ Hel). unfold slice. rewrite skipn_firstn_comm, drop_drop, take_take.
  assert (0 <= r) as Hr by (apply drows_elem in Hel; lia).
  pose proof (width_pos c Hregion). assert (0 <= r * size) by nia. assert (0 <= j * region c) by nia.
  assert (region c <= size - j * region c) by nia.
  replace ((r * nrm + j) * region c) with (r * size + j * region c) by lia. rewrite Z2Nat.inj_add by lia. f_equal. lia.
Qed.

Lemma launched_store m :
  store_regions compress b (map (fun i => i * region c) launched) (v_counts f) (v_slots f) (v_live f) m =
  sums (concat (map (on_region region_sums) launched)) m.
Proof using Hbuf Hl Ht Hcap Hregion Hrpp Hok Hlen Hprs Hnt Htoks Hf.
  rewrite (per_launched 0 (v_counts f) (at_count c)) by apply Hf. rewrite (per_launched 0 (v_slots f) (at_slot c rpp)) by apply Hf.
  rewrite (per_launched false (v_live f) (at_live c)) by apply Hf. unfold store_regions. rewrite !zip_map_pair.
  assert (Forall (fun g => g ∈ launched) launched) as Hall by (by apply Forall_forall). revert m.
  induction Hall as [|g gs Hg _ IH]; intros m; [done|]. cbn [map foldl concat]. rewrite sums_app, <- IH. f_equal. clear IH.
  destruct (row_launched g Hg) as (r & j & row & pl & -> & Hj & Hx & Hrow & Hpl).
  destruct (vectors_at r row pl j Hx Hpl Hj) as (_ & _ & _ & _ & V5 & V6 & V7 & _). rewrite V5, V6, V7. cbn [default id store_region].
  rewrite (on_region_at _ r j _ Hx Hj). unfold at_live, at_slot, at_count. cbn [fst snd]. destruct row as [it|]; [|done].
  cbn [ventry fst snd]. unfold region_sums. cbn [e_item]. destruct (Z.ltb_spec j (it_closed it)) as [H|H]; [|done].
  pose proof (zget_elem _ _ _ Hx) as Hel. pose proof (vrow_at _ _ _ Hel) as Hv. pose proof (closed_bounds _ _ _ Hv) as [Hc _].
  rewrite (proj2 (Z.ltb_lt j (it_nreg it))) by lia. cbn [sums foldl fst snd].
  by rewrite (buffer_region _ _ _ _ Hel Hj), (area_region _ _ _ _ Hv (conj (proj1 Hj) H)).
Qed.

(** *** Tails *)


Lemma zlen_region_of g : g ∈ launched -> zlen (slice (g * region c) (region c) b) = region c.
Proof using Hblen Hregion Hnt.
  intros Hg%elem_zrange. pose proof (zlen_nonneg toks). apply zlen_slice; nia.
Qed.

Lemma tails_eq tr xs : (forall x, x ∈ xs -> 0 <= tr x < zlen rows * nrm) ->
  foldr (fun g acc => b ← row_get (map (fun g => slice (g * region c) (region c) b) launched) g; bs ← acc; mret (b :: bs)) (Ok []) (map tr xs) =
  Ok (map (fun x : drow => slice (tr x * region c) (region c) b) xs).
Proof using Type.
  induction xs as [|x xs IH]; intros H; [done|]. cbn [map foldr]. rewrite IH by (intros y Hy; apply H; by right).
  rewrite (row_get_in _ _ (slice (tr x * region c) (region c) b)); [done|]. unfold launched.
  by rewrite zget_map, zget_zrange by (apply H; left).
Qed.

Definition tail_triple (tr : Z -> Z) (x : drow) : Z * Z * list T := (at_tail c x, pl_out x.2, slice (tr x.1.1 * region c) (region c) b).

Lemma tail_row x : x ∈ drows rows prs -> 0 <= pl_out x.2 <= max_pending c /\ 0 <= at_tail c x <= region c.
Proof using Hl Ht Hcap Hregion Hrpp Hok Hlen Hprs Hnt Htoks.
  intros Hx. pose proof (zlen_nonneg (slot_of_row t)). pose proof (ok_slots _ Ht). destruct x as [[r [it|]] pl]; unfold at_tail; cbn [fst snd].
  - destruct (vrow_plan _ _ _ (vrow_at _ _ _ Hx)) as (Hp & _ & _ & Hout). pose proof (tail_range c Hregion it). split; [|lia].
    destruct (decide (it_tail it = 0)) as [E|E]; [rewrite (Hout E); unfold trash_row; lia|].
    destruct (mapped_row _ _ _ Ht (proj1 (plan_out _ _ _ _ _ Hp E))) as (_ & Hr & _). lia.
  - rewrite (vrow_pad _ _ Hx). cbn. unfold trash_row. lia.
Qed.

Lemma tails_fresh tr xs : NoDup (map (fun x : drow => x.1.1) xs) -> (forall x, x ∈ xs -> x ∈ drows rows prs) ->
  fresh (map (tail_triple tr) xs).
Proof using Hl Ht Hcap Hok Hlen Hprs Hnt Htoks Hregion Hrpp Hslots.
  induction xs as [|x xs IH]; intros Hnd Hall; [done|]. cbn [map fresh tail_triple]. apply NoDup_cons in Hnd as [Hn Hnd].
  split; [|apply IH; [done|intros; apply Hall; by right]].
  destruct x as [[r [it|]] pl]; unfold at_tail; cbn [fst snd] in *; [|by left].
  destruct (decide (it_tail it = 0)) as [E|E]; [by left|right].
  destruct (vrow_at r it pl (Hall _ ltac:(left))) as [Hit Hfit (Hplan & _) Hrow _ _].
  pose proof (plan_out _ _ _ _ _ Hplan E) as Hh. destruct (held_not_trash _ _ Hh) as [_ Hne].
  intros Hin. apply list_elem_of_fmap in Hin as (w & Ew & Hw). apply list_elem_of_fmap in Hw as (y & -> & Hy).
  cbn [tail_triple fst snd] in Ew. pose proof (Hall y ltac:(by right)) as Hy'. destruct y as [[r' [it'|]] pl']; cbn [fst snd] in *.
  2:{ rewrite (vrow_pad _ _ Hy') in Ew. by cbn in Ew. }
  destruct (vrow_at r' it' pl' Hy') as [Hit' Hfit' (Hplan' & _ & _ & Hout') Hrow' _ _].
  destruct (decide (it_tail it' = 0)) as [E'|E']; [rewrite (Hout' E') in Ew; by rewrite Ew in Hne|].
  pose proof (plan_out _ _ _ _ _ Hplan' E') as Hh'. rewrite <- Ew in Hh'.
  assert (it_slot it (it_nreg it - 1) = it_slot it' (it_nreg it' - 1)) as Es.
  { destruct (decide (it_slot it (it_nreg it - 1) = it_slot it' (it_nreg it' - 1))) as [|Hd]; [done|]. exfalso.
    by apply (held_inj t _ _ _ _ Ht (proj1 Hh) (proj1 Hh') Hd). }
  destruct (slots_inj c rpp rows r r' it it' (it_nreg it - 1) (it_nreg it' - 1) Hslots Hrow Hrow' ltac:(lia) ltac:(lia) Es) as [-> _].
  apply Hn, list_elem_of_fmap. by exists (r', Some it', pl').
Qed.

Lemma tail_triple_writes tr : (forall r it, zget rows r = Some (Some it) -> tr r = r * nrm + it_nreg it - 1) ->
  concat (map write_of (map (tail_triple tr) (drows rows prs))) = concat (map (on_region tail_writes) launched).
Proof using Hbuf Hl Ht Hcap Hok Hlen Hprs Hnt Htoks Hregion Hrpp.
  intros Htr. rewrite regions_launched.
  rewrite (map_ext_in _ (fun e => if it_tail (e_item e) =? 0 then [] else [(pl_out (e_plan e), tail_of c l toks e)]) ventries)
    by (intros e He%list_elem_of_In; by apply tail_writes_all).
  unfold ventries. rewrite concat_omap, map_map. f_equal. apply map_ext_in. intros [[r [it|]] pl] Hx%list_elem_of_In; [|done].
  unfold write_of, tail_triple, at_tail. cbn [fst snd ventry e_item e_plan]. destruct (Z.eqb_spec (it_tail it) 0) as [E|E]; [done|].
  pose proof (vrow_at _ _ _ Hx) as Hv. pose proof (vrow_fits _ _ _ Hv). rewrite (Htr _ _ (vrow_get _ _ _ Hv)).
  replace (r * nrm + it_nreg it - 1) with (r * nrm + (it_nreg it - 1)) by lia.
  rewrite (buffer_region _ _ _ (it_nreg it - 1) Hx ltac:(lia)). by rewrite (area_tail _ _ _ Hv E).
Qed.

(** *** Regions that may be reopened *)

Definition kept_row (g : Z) : Z * list T := (default 0 (zget (v_keep_rows f) g), slice (g * region c) (region c) b).

Lemma kept_filter : filter (fun w : Z * list T => w.1 <> trash) (map kept_row launched) = concat (map (on_region keep_writes) launched).
Proof using Hbuf Hl Ht Hcap Hok Hlen Hprs Hnt Htoks Hregion Hrpp Hf.
  assert (Forall (fun g => g ∈ launched) launched) as Hall by (by apply Forall_forall).
  induction Hall as [|g gs Hg _ IH]; [done|]. cbn [map concat]. rewrite filter_cons, IH. clear IH.
  destruct (row_launched g Hg) as (r & j & row & pl & -> & Hj & Hx & Hrow & Hpl).
  destruct (vectors_at r row pl j Hx Hpl Hj) as (_ & _ & _ & _ & _ & _ & _ & V8). unfold kept_row. rewrite V8. cbn [default id fst].
  rewrite (on_region_at _ r j _ Hx Hj). unfold at_keep. cbn [fst snd]. destruct row as [it|]; [|by rewrite decide_False by (intros H; by apply H)].
  cbn [ventry fst snd]. unfold keep_writes. cbn [e_plan]. pose proof (zget_elem _ _ _ Hx) as Hel. pose proof (vrow_at _ _ _ Hel) as Hv.
  pose proof (kept_at _ _ _ j Hv) as Hk. destruct (zget (pl_keep pl) j) as [row|] eqn:E; cbn [default id].
  - destruct Hk as [Hh Hjc]. destruct (held_not_trash _ _ Hh) as [_ Hne]. rewrite decide_True by done.
    by rewrite (buffer_region _ _ _ _ Hel Hj), (area_region _ _ _ _ Hv Hjc).
  - by rewrite decide_False by (intros H; by apply H).
Qed.

Lemma kept_rows : Forall (fun w : Z * list T => 0 <= w.1 <= max_pending c /\ zlen w.2 = region c) (map kept_row launched).
Proof using Hblen Hl Ht Hcap Hok Hlen Hprs Hnt Htoks Hregion Hrpp Hf.
  apply Forall_fmap, Forall_forall. intros g Hg. cbn. split; [|by apply zlen_region_of].
  destruct (row_launched g Hg) as (r & j & row & pl & -> & Hj & Hx & Hrow & Hpl).
  destruct (vectors_at r row pl j Hx Hpl Hj) as (_ & _ & _ & _ & _ & _ & _ & V8). rewrite V8. cbn [default id].
  pose proof (zlen_nonneg (slot_of_row t)). pose proof (ok_slots _ Ht).
  unfold at_keep. cbn [fst snd]. destruct row as [it|]; [|unfold trash_row; lia].
  pose proof (kept_at _ _ _ j (vrow_at _ _ _ (zget_elem _ _ _ Hx))) as Hk. destruct (zget (pl_keep pl) j) as [row|]; cbn [default id]; [|unfold trash_row; lia].
  destruct Hk as [[Hm _] _]. destruct (mapped_row _ _ _ Ht Hm) as (_ & Hr & _). lia.
Qed.

End buffer.

Theorem update_verify_updated :
  exists l', update_verify zero compress c (zlen rows) nt nrm f toks l = Ok l' /\ updated compress c rpp l toks ventries l'.
Proof using Hl Ht Hcap Hok Hlen Hprs Hnt Htoks Hregion Hrpp Hf Hslots.
  assert (length prs = length rows) as Hl' by (symmetry; by eapply Forall2_length). pose proof Hl as [Hl1 Hl2].
  destruct buffer_eq as (b & Eb & Hblen & Hbuf). destruct (vv_tail_reg _ _ _ _ _ _ Hf) as (tr & Htr & Htr1 & Htr2).
  assert (NoDup (map (fun x : drow => x.1.1) (drows rows prs))) as Hnd by apply drows_nodup.
  assert (forall x, x ∈ drows rows prs -> 0 <= tr x.1.1 < zlen rows * nrm) as Htrd.
  { intros [[r row] pl] Hx. apply Htr1. by apply drows_elem in Hx as [? _]. }
  destruct (scatter_writes (region c) (pend l) (map (tail_triple b tr) (drows rows prs)) (pend l)) as (vs & E1 & E2); try done.
  { apply Forall_fmap, Forall_forall. intros x Hx. destruct (tail_row x Hx). cbn. split_and!; try lia.
    apply (zlen_region_of b Hblen). apply elem_zrange. specialize (Htrd x Hx). lia. }
  { by apply tails_fresh. }
  rewrite tail_triple_writes in E2 by done.
  destruct (writes_rows (concat (map (on_region tail_writes) launched)) (pend l) (region c)) as [Hp1 Hp2]; [|done|].
  { assert (Forall (fun w : Z * list T => 0 <= w.1 < max_pending c /\ zlen w.2 <= region c) (concat (map (writes_of c l toks) ventries))) as Hall
      by (apply (all_writes_rows c rpp Hregion Hrpp l toks t Hl Ht Hcap); apply ventries_ok).
    rewrite <- launched_writes in Hall. apply Forall_app in Hall as [_ Hall]. eapply Forall_impl; [exact Hall|]. by intros ? []. }
  pose proof (kept_rows b Hblen) as Hkept.
  eexists. split.
  - unfold update_verify. rewrite (vv_head _ _ _ _ _ _ Hf), (vv_in _ _ _ _ _ _ Hf), (map_plans pl_in rows prs Hl'), zip_map_pair.
    rewrite verify_heads_eq by done. cbn [mbind result_bind]. rewrite Eb. cbn [mbind result_bind].
    change (zrange 0 (zlen rows * nrm)) with launched. rewrite (launched_store b Hbuf), Htr.
    rewrite (tails_eq b (fun x : drow => tr x.1.1)) by done. cbn [mbind result_bind].
    rewrite (vv_tail _ _ _ _ _ _ Hf), (vv_out _ _ _ _ _ _ Hf), (map_plans pl_out rows prs Hl'), !zip_map_pair.
    change (map (fun x : drow => (at_tail c x, pl_out x.2, slice (tr x.1.1 * region c) (region c) b)) (drows rows prs)) with
      (map (tail_triple b tr) (drows rows prs)).
    rewrite E1. cbn [mbind result_bind]. rewrite E2. cbn [mbind result_bind].
    rewrite (per_launched 0 (v_keep_rows f) (at_keep c)) by apply Hf. rewrite zip_map_pair.
    change (map (fun x => (default 0 (zget (v_keep_rows f) x), slice (x * region c) (region c) b)) launched) with (map (kept_row b) launched).
    rewrite (scatter_full (region c)); [done| |done].
    eapply Forall_impl; [exact Hkept|]. intros w [? ?]. lia.
  - rewrite launched_sums.
    assert (concat (map (on_region tail_writes) launched) ++ concat (map (on_region keep_writes) launched) ≡ₚ concat (map (writes_of c l toks) ventries)) as Hws
      by (rewrite Permutation_app_comm; apply launched_writes).
    eapply (updated_writes compress c rpp Hregion Hrpp l toks t Hl Ht Hcap ventries
      (concat (map (on_region tail_writes) launched) ++ concat (map (on_region keep_writes) launched))); try done.
    + by apply ventries_ok.
    + by apply ventries_distinct.
    + rewrite Hws. apply (writes_nodup c rpp Hregion l toks t Ht); [by apply ventries_ok|by apply ventries_distinct].
    + apply (sums_nodup compress c rpp Hregion l toks t); [by apply ventries_ok|by apply ventries_distinct].
    + destruct (writes_rows (map (kept_row b) launched) (writes (concat (map (on_region tail_writes) launched)) (pend l)) (region c)) as [H1 H2];
        [|done|split; cbn [pend]; [lia|done]]. eapply Forall_impl; [exact Hkept|]. intros w [? ?]. lia.
    + intros row Hne. cbn [pend]. rewrite writes_app, <- (kept_filter b Hbuf). apply writes_skip; [done|].
      eapply Forall_impl; [exact Hkept|]. intros w [? ?]. lia.
Qed.

(** ** The fused kernel *)

Definition kernel_writes (e : entry) (j : Z) : list (Z * list T) := tail_writes e j ++ keep_writes e j.

Context (qsl : list Z).
Context (Hqsl : forall r it, zget rows r = Some (Some it) ->
  zget qsl r = Some (tok_at rows r) /\ zget qsl (r + 1) = Some (tok_at rows r + it_len it)).

Lemma program_eq l' r j : 0 <= r < zlen rows -> 0 <= j < nrm ->
  (forall it pl, (r, Some it, pl) ∈ drows rows prs -> j = 0 -> it_head it <> 0 -> zget (pend l') (pl_in pl) = zget (pend l) (pl_in pl)) ->
  summaries_program zero compress c nt nrm f qsl toks l' (r * nrm + j) =
  Layer (writes (on_region kernel_writes (r * nrm + j)) (pend l')) (sums (on_region region_sums (r * nrm + j)) (summ l')).
Proof using Hl Ht Hcap Hregion Hrpp Hok Hlen Hprs Hnt Htoks Hf Hqsl.
  intros Hr Hj Hin. assert (length prs = length rows) as Hl' by (symmetry; by eapply Forall2_length).
  destruct (zget_drows rows prs r Hl' Hr) as (row & pl & Hx & Hrow & Hpl).
  destruct (vectors_at r row pl j Hx Hpl Hj) as (V1 & V2 & V3 & V4 & V5 & V6 & V7 & V8).
  destruct (vv_tail_reg _ _ _ _ _ _ Hf) as (tr & Htr & _ & Htr2).
  rewrite !(on_region_at _ r j _ Hx Hj). pose proof (zget_elem _ _ _ Hx) as Hel.
  unfold summaries_program. rewrite (Z.add_comm (r * nrm)), Z.div_add, Z.mod_add by lia.
  rewrite Z.div_small, Z.mod_small, Z.add_0_l by lia. rewrite (Z.add_comm j (r * nrm)).
  rewrite V1, V2, V3, V4, V5, V6, V7, V8, Htr, zget_map, Hx. cbn [fmap option_fmap option_map default id fst snd].
  destruct row as [it|].
  2:{ rewrite (vrow_pad _ _ Hel). cbn. rewrite !Z.eqb_refl, andb_false_r. done. }
  pose proof (vrow_at _ _ _ Hel) as Hv. cbn [ventry fst snd]. unfold at_head, at_tail, at_live, at_slot, at_count, at_keep. cbn [fst snd].
  destruct (Hqsl _ _ Hrow) as [-> ->]. cbn [default id]. pose proof (item_len _ _ _ (vrow_ok _ _ _ Hv)) as Hlen0.
  replace (Z.max (tok_at rows r + it_len it - tok_at rows r) 0) with (it_len it) by lia.
  rewrite (kernel_values l' r it pl j Hv Hj) by (intros; by apply (Hin it pl)).
  set (e := Entry r (tok_at rows r) 0 it pl) in *. set (vals := slice (j * region c) (region c) (area e)).
  pose proof (zlen_area _ _ _ Hv) as Harea. fold e in Harea.
  assert (zlen vals = region c) as Hvals by (apply zlen_slice; nia).
  pose proof (closed_bounds _ _ _ Hv) as [Hc1 _]. pose proof (tail_range c Hregion it) as Htail.
  f_equal.
  - unfold kernel_writes. rewrite writes_app. rewrite (Htr2 _ _ Hrow).
    replace (r * nrm + j =? r * nrm + it_nreg it - 1) with (j =? it_nreg it - 1)
      by (destruct (Z.eqb_spec j (it_nreg it - 1)), (Z.eqb_spec (r * nrm + j) (r * nrm + it_nreg it - 1)); lia).
    assert ((if (j =? it_nreg it - 1) && negb (pl_out pl =? trash) then kernel_store (pend l') (pl_out pl) (it_tail it) vals else pend l') =
      writes (tail_writes e j) (pend l')) as ->.
    { unfold tail_writes. cbn [e_item e_plan e]. destruct (vrow_plan _ _ _ Hv) as (Hp & _ & _ & Htrash).
      destruct (Z.eqb_spec (it_tail it) 0) as [E|E].
      - rewrite (Htrash E), Z.eqb_refl, !andb_false_r. done.
      - destruct (held_not_trash _ _ (plan_out _ _ _ _ _ Hp E)) as [_ Hne]. rewrite (proj2 (Z.eqb_neq _ trash) Hne).
        destruct (Z.eqb_spec j (it_nreg it - 1)) as [->|]; [|done]. cbn [andb negb writes foldl].
        rewrite kernel_store_write by lia. subst vals e. by rewrite (area_tail _ _ _ Hv E). }
    unfold keep_writes. cbn [e_plan e]. pose proof (kept_at _ _ _ j Hv) as Hk. destruct (zget (pl_keep pl) j) as [row|] eqn:E; cbn [default id].
    + destruct Hk as [Hh Hjc]. destruct (held_not_trash _ _ Hh) as [_ Hne]. rewrite (proj2 (Z.eqb_neq _ trash) Hne).
      rewrite kernel_store_write by lia. cbn [writes foldl]. rewrite <- Hvals, slice_all. subst vals e. by rewrite (area_region _ _ _ _ Hv Hjc).
    + by rewrite Z.eqb_refl.
  - unfold region_sums. cbn [e_item e]. destruct (Z.ltb_spec j (it_closed it)) as [H|H]; [|done].
    rewrite (proj2 (Z.ltb_lt j (it_nreg it))) by lia. cbn [sums foldl fst snd]. rewrite <- Hvals, slice_all. subst vals e.
    by rewrite (area_region _ _ _ _ Hv (conj (proj1 Hj) H)).
Qed.
(** The rows a region writes are those of its slot. *)
Lemma region_target r j row vs : 0 <= r < zlen rows -> 0 <= j < nrm -> (row, vs) ∈ on_region kernel_writes (r * nrm + j) ->
  exists it, zget rows r = Some (Some it) /\ j < it_nreg it /\ held t (it_slot it j) row.
Proof using Hl Ht Hcap Hregion Hrpp Hok Hlen Hprs Hnt Htoks.
  intros Hr Hj. assert (length prs = length rows) as Hl' by (symmetry; by eapply Forall2_length).
  destruct (zget_drows rows prs r Hl' Hr) as (rw & pl & Hx & Hrow & Hpl). rewrite (on_region_at _ r j _ Hx Hj).
  destruct rw as [it|]; cbn [ventry fst snd]; [|by intros ?%elem_of_nil].
  pose proof (vrow_at _ _ _ (zget_elem _ _ _ Hx)) as Hv. pose proof (closed_bounds _ _ _ Hv) as [Hc _].
  pose proof (entry_plan _ _ _ _ _ (vrow_entry _ _ _ Hv)) as Hp. cbn [e_item e_plan] in Hp.
  intros Hin. exists it. unfold kernel_writes in Hin. apply elem_of_app in Hin as [Hin|Hin].
  - unfold tail_writes in Hin. cbn [e_item e_plan] in Hin. destruct (Z.eqb_spec j (it_nreg it - 1)) as [->|]; [|by apply elem_of_nil in Hin].
    destruct (Z.eqb_spec (it_tail it) 0) as [E|E]; [by apply elem_of_nil in Hin|]. apply list_elem_of_singleton in Hin as [= -> ->].
    split_and!; [done|lia|]. by apply (plan_out _ _ _ _ _ Hp).
  - unfold keep_writes in Hin. cbn [e_plan] in Hin. pose proof (kept_at _ _ _ j Hv) as Hk.
    destruct (zget (pl_keep pl) j) as [row'|]; [|by apply elem_of_nil in Hin]. apply list_elem_of_singleton in Hin as [= -> ->].
    destruct Hk as [Hh Hjc]. split_and!; [done|lia|done].
Qed.

Lemma fused_fold order : forall before, NoDup (before ++ order) -> (forall g, g ∈ before ++ order -> g ∈ launched) ->
  foldl (summaries_program zero compress c nt nrm f qsl toks)
    (Layer (writes (concat (map (on_region kernel_writes) before)) (pend l)) (sums (concat (map (on_region region_sums) before)) (summ l))) order =
  Layer (writes (concat (map (on_region kernel_writes) (before ++ order))) (pend l))
    (sums (concat (map (on_region region_sums) (before ++ order))) (summ l)).
Proof using Hl Ht Hcap Hregion Hrpp Hok Hlen Hprs Hnt Htoks Hf Hqsl Hslots.
  induction order as [|g order IH]; intros before Hnd Hall; [by rewrite app_nil_r|]. cbn [foldl].
  destruct (launched_elem g) as (r & j & -> & Hr & Hj); [apply Hall; set_solver|].
  rewrite program_eq; [|done|done|].
  - cbn [pend summ]. rewrite <- writes_app, <- sums_app.
    pose proof (IH (before ++ [r * nrm + j])) as H. rewrite <- app_assoc in H. cbn [app] in H.
    specialize (H Hnd Hall). rewrite !map_app, !concat_app in H. cbn [map concat] in H. rewrite !app_nil_r in H. rewrite !map_app, !concat_app. exact H.
  - intros it pl Hel -> Hne. cbn [pend]. destruct (vrow_at _ _ _ Hel) as [_ Hfit (Hp & _) Hrow _ _].
    pose proof (plan_in _ _ _ _ _ Hp Hne) as Hh.
    assert (forall w, w ∈ concat (map (on_region kernel_writes) before) -> 0 <= w.1 /\ w.1 <> pl_in pl) as Hw.
    { intros [row vs] Hw. apply list_elem_of_In, in_concat in Hw as (ws & Hws & Hw). apply in_map_iff in Hws as (g & <- & Hg).
      apply list_elem_of_In in Hw, Hg. destruct (launched_elem g) as (r' & j' & -> & Hr' & Hj'); [apply Hall; set_solver|].
      destruct (region_target r' j' row vs Hr' Hj' Hw) as (it' & Hrow' & Hj2 & Hh').
      split; cbn; [by eapply held_not_trash|]. intros ->.
      assert (it_slot it' j' = it_slot it 0) as Es.
      { destruct (decide (it_slot it' j' = it_slot it 0)) as [|Hd]; [done|]. by destruct (held_inj t _ _ _ _ Ht (proj1 Hh') (proj1 Hh) Hd). }
      destruct (slots_inj c rpp rows r' r it' it j' 0 Hslots Hrow' Hrow) as [-> ->]; [lia|lia|done|].
      apply NoDup_app in Hnd as (_ & Hd & _). apply (Hd _ Hg). left. }
    apply zget_writes_other.
    + apply Forall_forall. intros w H. by apply Hw.
    + intros (w & E & H)%list_elem_of_fmap. by destruct (Hw w H).
Qed.

(** The programs of a launch may run in any order. *)
Theorem update_fused_updated order : order ≡ₚ launched ->
  updated compress c rpp l toks ventries (update_fused zero compress c order nt nrm f qsl toks l).
Proof using Hl Ht Hcap Hregion Hrpp Hok Hlen Hprs Hnt Htoks Hf Hqsl Hslots.
  intros Ho. assert (NoDup launched) as Hnd by apply NoDup_zrange.
  pose proof (fused_fold order []) as H. cbn [app map concat writes sums foldl] in H.
  replace (Layer (pend l) (summ l)) with l in H by (by destruct l).
  unfold update_fused. rewrite H; [|by rewrite Ho|intros g; by rewrite Ho].
  apply (updated_perm compress c rpp Hregion Hrpp l toks t Hl Ht Hcap); [by apply ventries_ok|by apply ventries_distinct|..].
  - rewrite <- launched_writes, Ho. rewrite (map_ext _ (fun g => on_region tail_writes g ++ on_region keep_writes g)).
    + rewrite concat_both. apply Permutation_app_comm.
    + intros g. unfold on_region. destruct (zget (drows rows prs) (g / nrm)) as [x|]; [|done]. by destruct (ventry x).
  - by rewrite <- launched_sums, Ho.
Qed.
End rows.
End update.

End DsaVerifyUpdate.
