(* ===== verification/DsaEngine.v ===== *)
(** * Every completed region has the summary of its tokens

    The reference of the sparse-attention state is a store that keeps every
    token: a map from summary slots to the tokens of their regions, written by
    position.  The program keeps the tokens of incomplete regions in rows that
    are recycled, and compresses a region when it completes; this file shows
    that over any sequence of steps its summaries are those of the reference. *)

From S2P Require Import Prelude Tensors DsaPending DsaSchedule DsaScheduleCorrect DsaSummary DsaDecodeCorrect DsaVerifyCorrect.
Local Open Scope Z_scope.

Module DsaStream.
Import DsaPending DsaPendingCorrect DsaSchedule DsaPlan DsaScheduleCorrect DsaSummary DsaSummaryCorrect DsaDecodeCorrect DsaDecodeUpdate DsaVerifyCorrect DsaVerifyUpdate.

Section stream.
Context {T V : Type} (compress : list T -> V).
Context (c : config) (rpp : Z).
Context (Hregion : 0 < region c) (Hrpp : 0 < rpp).

Abbreviation it_slot := (it_slot c rpp) (only parsing).
Abbreviation it_head := (it_head c) (only parsing).
Abbreviation it_tail := (it_tail c) (only parsing).
Abbreviation it_nbuf := (it_nbuf c) (only parsing).
Abbreviation it_nreg := (it_nreg c) (only parsing).
Abbreviation it_closed := (it_closed c) (only parsing).
Abbreviation it_first := (it_first c) (only parsing).

(** ** The reference *)

(** A request of a batch, with the place of its first token *)
Definition load : Type := Z * item.

Abbreviation store := (gmap Z (list T)).

(** The tokens of a request from the start of its first region: those the
    store has, then its new ones *)
Definition ref_buf (st : store) (toks : list T) (x : load) : list T :=
  slice 0 (it_head x.2) (default [] (st !! it_slot x.2 0)) ++ slice x.1 (it_len x.2) toks.

Definition ref_regions (st : store) (toks : list T) (x : load) : list (Z * list T) :=
  map (fun j => (it_slot x.2 j, region_of c (ref_buf st toks x) j)) (zrange 0 (it_nreg x.2)).

Definition ref_step (xs : list load) (toks : list T) (st : store) : store :=
  sums (concat (map (ref_regions st toks) xs)) st.

(** A request goes on where another left off, or, if its tokens could be
    rejected, anywhere in them; its pages may have grown. *)
Definition continues (it' it : item) : Prop :=
  it_pages it' `prefix_of` it_pages it /\
  (it_past it = it_past it' + it_len it' \/
   (may_roll_back c (it_len it') = true /\ it_past it' <= it_past it <= it_past it' + it_len it')).

(** *** What the reference says of a request

    The store holds the tokens [xs] of a request with these pages. *)
Definition holds_request (st : store) (pages : list Z) (xs : list T) : Prop :=
  forall j, 0 <= j -> j * region c < zlen xs -> st !! region_slot rpp pages j = Some (slice (j * region c) (region c) xs).

Lemma load_slot it j : it_slot it j = region_slot rpp (it_pages it) (it_first it + j).
Proof using Type. done. Qed.

Lemma zlen_take {X} n (l : list X) : 0 <= n <= zlen l -> zlen (take (Z.to_nat n) l) = n.
Proof using Type. intros H. unfold zlen in *. rewrite length_take. lia. Qed.

Lemma ref_buf_drop st toks x xs : item_ok c rpp x.2 -> holds_request st (it_pages x.2) xs -> it_past x.2 <= zlen xs ->
  ref_buf st toks x = drop (Z.to_nat (it_first x.2 * region c)) (take (Z.to_nat (it_past x.2)) xs ++ slice x.1 (it_len x.2) toks).
Proof using Hregion.
  intros Hit Hst Hn. pose proof (past_split c Hregion x.2) as Hp. pose proof (head_range c Hregion x.2) as Hh.
  pose proof (first_nonneg c rpp Hregion x.2 Hit) as Hf. pose proof (item_past _ _ _ Hit). assert (0 <= it_first x.2 * region c) as Hf0 by nia.
  rewrite drop_app_le by (rewrite length_take; unfold zlen in *; lia). unfold ref_buf. f_equal. rewrite skipn_firstn_comm.
  replace (Z.to_nat (it_past x.2) - Z.to_nat (it_first x.2 * region c))%nat with (Z.to_nat (it_head x.2)) by lia.
  destruct (decide (it_head x.2 = 0)) as [->|Hne]; [done|].
  rewrite load_slot, Z.add_0_r, Hst by lia. cbn [default id]. apply slice_slice. lia.
Qed.

(** A step puts the tokens of a request after those it goes on from, and drops
    those it does not. *)
Theorem ref_step_request xs x toks st before : item_ok c rpp x.2 -> x ∈ xs ->
  NoDup (concat (map (fun y => it_slots c rpp y.2) xs)) ->
  (forall j, 0 <= j < it_first x.2 -> region_slot rpp (it_pages x.2) j ∉ concat (map (fun y => it_slots c rpp y.2) xs)) ->
  holds_request st (it_pages x.2) before -> it_past x.2 <= zlen before -> 0 <= x.1 /\ x.1 + it_len x.2 <= zlen toks ->
  holds_request (ref_step xs toks st) (it_pages x.2) (take (Z.to_nat (it_past x.2)) before ++ slice x.1 (it_len x.2) toks).
Proof using Hregion Hrpp.
  intros Hit Hin Hnd Hkept Hst Hn [Ht1 Ht2] j Hj Hlt. pose proof (item_past _ _ _ Hit). pose proof (item_len _ _ _ Hit).
  rewrite zlen_app, zlen_take, zlen_slice in Hlt by lia. pose proof (past_split c Hregion x.2) as Hp. pose proof (head_range c Hregion x.2) as Hh.
  assert (map fst (concat (map (ref_regions st toks) xs)) = concat (map (fun y => it_slots c rpp y.2) xs)) as Hslots.
  { rewrite concat_map, map_map. f_equal. apply map_ext. intros y. unfold ref_regions, it_slots. by rewrite map_map. }
  unfold ref_step. destruct (decide (j < it_first x.2)) as [Hf|Hf].
  - rewrite lookup_sums_other by (rewrite Hslots; apply Hkept; lia). rewrite Hst by nia. f_equal. unfold slice.
    assert (0 <= j * region c /\ j * region c + region c <= it_past x.2) as [Hr0 Hr1] by nia. unfold zlen in Hn.
    rewrite drop_app_le by (rewrite length_take; lia). rewrite take_app_le by (rewrite length_drop, length_take; lia).
    rewrite skipn_firstn_comm, take_take. f_equal. lia.
  - replace (region_slot rpp (it_pages x.2) j) with (it_slot x.2 (j - it_first x.2)) by (rewrite load_slot; f_equal; lia).
    pose proof (nreg_split c Hregion x.2) as Hnr. pose proof (nbuf_split c Hregion x.2) as Hnb. pose proof (tail_range c Hregion x.2).
    unfold DsaPlan.it_nbuf in Hnb. assert (0 <= j - it_first x.2 < it_nreg x.2) as Hjr by (destruct (Z.eqb_spec (it_tail x.2) 0); nia).
    rewrite (lookup_sums _ _ _ (region_of c (ref_buf st toks x) (j - it_first x.2))); [| by rewrite Hslots|].
    + rewrite (ref_buf_drop st toks x before) by done. f_equal. unfold region_of, slice. rewrite drop_drop.
      pose proof (first_nonneg c rpp Hregion x.2 Hit). assert (0 <= it_first x.2 * region c /\ 0 <= (j - it_first x.2) * region c) as [Hz1 Hz2] by nia.
      rewrite <- Z2Nat.inj_add by lia. do 3 f_equal. lia.
    + apply list_elem_of_In, in_concat. exists (ref_regions st toks x). split; [apply in_map; by apply list_elem_of_In|].
      unfold ref_regions. apply in_map_iff. exists (j - it_first x.2). split; [done|]. apply list_elem_of_In, elem_zrange. lia.
Qed.

(** A step leaves the tokens of a request alone whose regions it does not
    write. *)
Lemma ref_step_other xs toks st pages before : holds_request st pages before ->
  (forall j, 0 <= j -> j * region c < zlen before -> region_slot rpp pages j ∉ concat (map (fun y => it_slots c rpp y.2) xs)) ->
  holds_request (ref_step xs toks st) pages before.
Proof using Type.
  intros Hst Hkept j Hj Hlt. unfold ref_step. rewrite lookup_sums_other; [by apply Hst|].
  replace (map fst (concat (map (ref_regions st toks) xs))) with (concat (map (fun y => it_slots c rpp y.2) xs)); [by apply Hkept|].
  rewrite concat_map, map_map. f_equal. apply map_ext. intros y. unfold ref_regions, it_slots. by rewrite map_map.
Qed.

(** ** What holds between two steps *)

(** The slots a following request may resume in have rows that start with
    their tokens; complete regions have their summaries. *)
Definition rows_hold (t : pending_table) (l : @layer T V) (st : store) (slots : list Z) : Prop :=
  forall slot, slot ∈ slots -> exists row vs rest,
    row_of_slot t !! slot = Some row /\ st !! slot = Some vs /\ zget (pend l) row = Some (vs ++ rest).

Definition summaries_hold (l : @layer T V) (st : store) : Prop :=
  forall slot vs, st !! slot = Some vs -> zlen vs = region c -> summ l !! slot = Some (compress vs).

(** The slots whose rows a request leaves *)
Definition open_slots (it : item) : list Z :=
  map (it_slot it) (zrange 0 (kept_regions c it)) ++ (if it_tail it =? 0 then [] else [it_slot it (it_nreg it - 1)]).

(** The length of a region of a request's tokens *)
Definition region_len (it : item) (j : Z) : Z := Z.min (region c) (it_nbuf it - j * region c).

(** A request that continues another resumes in a slot that it left, with the
    tokens it needs. *)
Lemma continues_open it' it : item_ok c rpp it' -> item_ok c rpp it -> continues it' it -> it_head it <> 0 ->
  exists j, 0 <= j < it_nreg it' /\ it_slot it 0 = it_slot it' j /\ it_slot it' j ∈ open_slots it' /\ it_head it <= region_len it' j.
Proof using Hregion Hrpp.
  intros Hit' Hit [Hpages Hpast] Hne. pose proof (past_split c Hregion it) as Hp. pose proof (past_split c Hregion it') as Hp'.
  pose proof (head_range c Hregion it) as Hh. pose proof (head_range c Hregion it') as Hh'.
  pose proof (nbuf_split c Hregion it') as Hb'. pose proof (tail_range c Hregion it') as Ht'. pose proof (nreg_split c Hregion it') as Hn'.
  pose proof (closed_nonneg c rpp Hregion it' Hit') as Hc'. pose proof (item_len _ _ _ Hit'). unfold DsaPlan.it_nbuf in Hb'.
  set (j := it_first it - it_first it').
  assert (0 <= j /\ (j < it_closed it' /\ j < kept_regions c it' \/ j = it_closed it' /\ it_tail it' <> 0 /\ it_head it <= it_tail it')) as [Hj0 Hj].
  { unfold kept_regions. destruct Hpast as [E|[Hm E]]; [|rewrite Hm].
    - assert (j = it_closed it') as Ej by (subst j; nia). split; [lia|]. right. split; [done|]. subst j. nia.
    - assert (0 <= j <= it_closed it') as Hjr by (subst j; nia). split; [lia|]. destruct (decide (j = it_closed it')) as [Ej|]; [|left; lia].
      right. split; [done|]. subst j. nia. }
  assert (0 <= j < it_nreg it') as Hjn by (rewrite Hn'; destruct (Z.eqb_spec (it_tail it') 0); lia).
  exists j. split_and!; [lia|lia| | |].
  - destruct (region_page c rpp Hregion Hrpp it' j Hit' Hjn) as (page & Hpg & _). unfold DsaPlan.it_slot. rewrite Z.add_0_r.
    replace (it_first it' + j) with (it_first it) in * by (subst j; lia). rewrite Hpg. do 2 f_equal.
    unfold zget in *. case_match; [done|]. by rewrite (prefix_lookup_Some _ _ _ _ Hpg Hpages).
  - unfold open_slots. apply elem_of_app. destruct Hj as [[_ Hj]|(-> & Hj & _)].
    + left. apply list_elem_of_fmap. exists j. split; [done|]. apply elem_zrange. lia.
    + right. rewrite (proj2 (Z.eqb_neq _ 0) Hj) in *. apply list_elem_of_singleton. f_equal. lia.
  - unfold region_len, DsaPlan.it_nbuf. rewrite Hb'. destruct Hj as [[Hj _]|(-> & _ & Hj)]; nia.
Qed.

(** ** One step of one layer *)

Definition load_of (e : entry) : load := (e_tok e, e_item e).

Section layer_step.
Context (l l' : @layer T V) (toks : list T) (st : store) (t1 t2 : pending_table) (es : list entry) (open : list Z).
Context (Hl : layer_ok c l) (Ht2 : table_ok t2) (Hcap : capacity t2 = max_pending c).
Context (Hes : Forall (entry_ok c rpp toks t2) es) (Hdist : slots_distinct c rpp es).
Context (Hheads : Forall (fun e => it_head (e_item e) <> 0 -> row_of_slot t1 !! it_slot (e_item e) 0 = Some (pl_in (e_plan e))) es).
Context (Hup : updated compress c rpp l toks es l').
Context (Hrows : rows_hold t1 l st open) (Hsums : summaries_hold l st).
Context (Hresume : Forall (fun e => it_head (e_item e) <> 0 -> it_slot (e_item e) 0 ∈ open /\
  it_head (e_item e) <= zlen (default [] (st !! it_slot (e_item e) 0))) es).

(** The buffer is the reference's. *)
Lemma buf_ref e : e ∈ es -> buf_of c l toks e = ref_buf st toks (load_of e).
Proof using Hregion Hrows Hheads Hresume.
  intros He. unfold buf_of, ref_buf, load_of. cbn [fst snd]. f_equal. pose proof (head_range c Hregion (e_item e)) as Hh.
  destruct (decide (it_head (e_item e) = 0)) as [->|Hne]; [done|].
  pose proof (proj1 (Forall_forall _ _) Hheads e He Hne) as Hr. destruct (proj1 (Forall_forall _ _) Hresume e He Hne) as [Ho Hn].
  destruct (Hrows _ Ho) as (row & vs & rest & H1 & H2 & H3). rewrite H1 in Hr. injection Hr as ->. rewrite H2 in *. rewrite H3.
  cbn [default id] in *. apply slice_app_l; lia.
Qed.

Abbreviation written := (concat (map (ref_regions st toks) (map load_of es))) (only parsing).

Lemma written_slots : map fst written = concat (map (fun e => it_slots c rpp (e_item e)) es).
Proof using Type.
  rewrite map_map, concat_map, map_map. f_equal. apply map_ext. intros e. unfold ref_regions, it_slots, load_of. by rewrite map_map.
Qed.

Lemma written_elem slot vs : (slot, vs) ∈ written -> exists e j, e ∈ es /\ 0 <= j < it_nreg (e_item e) /\
  slot = it_slot (e_item e) j /\ vs = region_of c (buf_of c l toks e) j.
Proof using Hregion Hrows Hheads Hresume.
  intros Hin%list_elem_of_In%in_concat. destruct Hin as (ws & Hws & Hin). rewrite map_map in Hws. apply in_map_iff in Hws as (e & <- & He%list_elem_of_In).
  unfold ref_regions, load_of in Hin. cbn [fst snd] in Hin. apply in_map_iff in Hin as (j & [= <- <-] & Hj%list_elem_of_In%elem_zrange).
  exists e, j. split_and!; [done|lia|lia|done|]. by rewrite (buf_ref e He).
Qed.

Lemma written_in e j : e ∈ es -> 0 <= j < it_nreg (e_item e) -> (it_slot (e_item e) j, region_of c (buf_of c l toks e) j) ∈ written.
Proof using Hregion Hrows Hheads Hresume.
  intros He Hj. apply list_elem_of_In, in_concat. exists (ref_regions st toks (load_of e)). split.
  - apply in_map, in_map. by apply list_elem_of_In.
  - rewrite (buf_ref e He). unfold ref_regions. apply in_map_iff. exists j. split; [done|]. apply list_elem_of_In, elem_zrange. cbn. lia.
Qed.

(** A completed region has its summary. *)
Lemma step_summaries : summaries_hold l' (ref_step (map load_of es) toks st).
Proof using Hregion Hrows Hheads Hresume Hsums Hup Hdist Hes Hl Ht2 Hcap Hrpp.
  intros slot vs Hst Hlen. unfold ref_step in Hst. assert (NoDup (map fst written)) as Hnd by (by rewrite written_slots).
  destruct (decide (slot ∈ map fst written)) as [Hin|Hn].
  - apply list_elem_of_fmap in Hin as ([slot' vs'] & E & Hin). cbn in E. subst slot'.
    rewrite (lookup_sums _ _ _ _ Hnd Hin) in Hst. injection Hst as ->. destruct (written_elem _ _ Hin) as (e & j & He & Hj & -> & ->).
    apply (upd_sums _ _ _ _ _ _ _ Hup). apply list_elem_of_In, in_concat. exists (sums_of compress c rpp l toks e). split.
    + apply in_map. by apply list_elem_of_In.
    + unfold sums_of. apply in_map_iff. exists j. split; [done|]. apply list_elem_of_In, elem_zrange.
      pose proof (proj1 (Forall_forall _ _) Hes e He) as Heok. pose proof (zlen_buf c rpp Hregion l toks t2 Hl Ht2 Hcap e Heok) as Hz.
      pose proof (nbuf_split c Hregion (e_item e)). pose proof (tail_range c Hregion (e_item e)).
      split; [lia|]. rewrite Z.add_0_l. destruct (decide (j < it_closed (e_item e))) as [|Hge]; [done|exfalso].
      unfold region_of, slice, zlen in Hlen. rewrite length_take, length_drop in Hlen. unfold zlen in Hz. nia.
  - rewrite lookup_sums_other in Hst by done. rewrite (upd_old _ _ _ _ _ _ _ Hup).
    + by apply Hsums.
    + intros Hin. apply Hn. rewrite written_slots. apply list_elem_of_In, in_concat.
      rewrite concat_map, map_map in Hin. apply list_elem_of_In, in_concat in Hin as (ss & Hss & Hin).
      apply in_map_iff in Hss as (e & <- & He). exists (it_slots c rpp (e_item e)). split; [by apply (in_map (fun e => it_slots c rpp (e_item e)))|].
      unfold sums_of in Hin. rewrite map_map in Hin. apply in_map_iff in Hin as (j & <- & Hj%list_elem_of_In%elem_zrange). cbn.
      apply in_map_iff. exists j. split; [done|]. apply list_elem_of_In, elem_zrange.
      pose proof (closed_le_nreg c rpp Hregion _ (entry_item _ _ _ _ _ (proj1 (Forall_forall _ _) Hes e (proj2 (list_elem_of_In _ _) He)))). lia.
Qed.

(** The slots left open have their rows. *)
Lemma step_rows : rows_hold t2 l' (ref_step (map load_of es) toks st) (concat (map (fun e => open_slots (e_item e)) es)).
Proof using Hregion Hrows Hheads Hresume Hsums Hup Hdist Hes Hl Ht2 Hcap Hrpp.
  intros slot Hin%list_elem_of_In%in_concat. destruct Hin as (ss & Hss & Hin%list_elem_of_In). apply in_map_iff in Hss as (e & <- & He%list_elem_of_In).
  pose proof (proj1 (Forall_forall _ _) Hes e He) as Heok. pose proof Heok as [Hit Hp _]. assert (NoDup (map fst written)) as Hnd by (by rewrite written_slots).
  pose proof (nreg_split c Hregion (e_item e)) as Hn. pose proof (closed_nonneg c rpp Hregion _ Hit).
  pose proof (closed_le_nreg c rpp Hregion _ Hit). pose proof (plan_keep _ _ _ _ _ Hp) as Hk.
  assert (0 <= kept_regions c (e_item e) <= it_closed (e_item e)) as Hkept by (unfold kept_regions; destruct (may_roll_back c (it_len (e_item e))); lia).
  assert (exists j row vs, 0 <= j < it_nreg (e_item e) /\ slot = it_slot (e_item e) j /\ held t2 slot row /\
    (row, vs) ∈ writes_of c l toks e /\ vs = region_of c (buf_of c l toks e) j) as (j & row & vs & Hj & -> & Hh & Hw & ->).
  { unfold open_slots in Hin. apply elem_of_app in Hin as [Hin|Hin].
    - apply list_elem_of_fmap in Hin as (j & -> & Hj%elem_zrange). destruct (zget_is_Some (pl_keep (e_plan e)) j ltac:(lia)) as [row Hrow].
      exists j, row, (region_of c (buf_of c l toks e) j). split_and!; [lia|lia|done|by apply (plan_kept _ _ _ _ _ Hp)| |done].
      unfold writes_of. apply elem_of_app. left. apply (zip_elem _ _ _ _ j Hrow). rewrite zget_map, zget_zrange by lia. cbn. by rewrite ?Z.add_0_l.
    - destruct (Z.eqb_spec (it_tail (e_item e)) 0) as [E|E]; [by apply elem_of_nil in Hin|]. apply list_elem_of_singleton in Hin as ->.
      exists (it_nreg (e_item e) - 1), (pl_out (e_plan e)), (tail_of c l toks e). split_and!; [lia|lia|done|by apply (plan_out _ _ _ _ _ Hp)| |].
      + unfold writes_of. apply elem_of_app. right. rewrite (proj2 (Z.eqb_neq _ 0) E). by left.
      + unfold tail_of, region_of. replace (it_nreg (e_item e) - 1) with (it_closed (e_item e)) by lia.
        pose proof (zlen_buf c rpp Hregion l toks t2 Hl Ht2 Hcap e Heok) as Hz. pose proof (nbuf_split c Hregion (e_item e)).
        pose proof (tail_range c Hregion (e_item e)). unfold slice, zlen in *.
        assert (length (drop (Z.to_nat (it_closed (e_item e) * region c)) (buf_of c l toks e)) = Z.to_nat (it_tail (e_item e))) as Hd
          by (rewrite length_drop; lia).
        by rewrite !firstn_all2 by lia. }
  assert ((row, region_of c (buf_of c l toks e) j) ∈ concat (map (writes_of c l toks) es)) as Hall.
  { apply list_elem_of_In, in_concat. exists (writes_of c l toks e). split; [apply in_map|]; by apply list_elem_of_In. }
  destruct (upd_rows _ _ _ _ _ _ _ Hup _ _ Hall) as [rest Hrest]. exists row, (region_of c (buf_of c l toks e) j), rest.
  split_and!; [apply Hh| |done]. unfold ref_step. apply lookup_sums; [done|]. by apply written_in.
Qed.
(** The regions have the lengths of their tokens. *)
Lemma step_lens : Forall (fun e => forall j, 0 <= j < it_nreg (e_item e) ->
  zlen (default [] (ref_step (map load_of es) toks st !! it_slot (e_item e) j)) = region_len (e_item e) j) es.
Proof using Hregion Hrows Hheads Hresume Hdist Hes Hl Ht2 Hcap Hrpp.
  apply Forall_forall. intros e He j Hj. assert (NoDup (map fst written)) as Hnd by (by rewrite written_slots).
  unfold ref_step. rewrite (lookup_sums _ _ _ _ Hnd (written_in e j He Hj)). cbn [default id].
  pose proof (zlen_buf c rpp Hregion l toks t2 Hl Ht2 Hcap e (proj1 (Forall_forall _ _) Hes e He)) as Hz.
  pose proof (nbuf_split c Hregion (e_item e)). pose proof (tail_range c Hregion (e_item e)). pose proof (nreg_split c Hregion (e_item e)) as Hn.
  assert (j * region c <= it_nbuf (e_item e)) as Hle by (destruct (Z.eqb_spec (it_tail (e_item e)) 0); nia).
  assert (0 <= j * region c) by nia. unfold region_of, region_len, slice, zlen in *. rewrite length_take, length_drop. lia.
Qed.
End layer_step.
End stream.
End DsaStream.

(** ** The engine's steps

    Steps of the engine, each an eager pass over the layers, a pass over a
    batch whose schedule the builder made, or a replay of a captured graph:
    none fails, and all keep what DsaStream.v states of the layers. *)

Module DsaEngine.
Import DsaPending DsaPendingCorrect DsaSchedule DsaPlan DsaScheduleCorrect DsaSummary DsaSummaryCorrect DsaDecodeCorrect DsaDecodeUpdate DsaVerifyCorrect DsaVerifyUpdate DsaStream.

(** ** Batches as loads *)

Fixpoint loads (one : bool) (r tok : Z) (rows : list (option item)) : list load :=
  match rows with
  | [] => []
  | None :: rows' => loads one (r + 1) tok rows'
  | Some it :: rows' => (if one then r else tok, it) :: loads one (r + 1) (tok + it_len it) rows'
  end.

Lemma loads_items one rows : forall r tok, map snd (loads one r tok rows) = alive rows.
Proof. induction rows as [|[it|] rows IH]; intros r tok; [done| |exact (IH _ _)]. cbn. f_equal. exact (IH _ _). Qed.

Lemma entries_loads c rows : forall r tok buf pls, length (pls : list plan) = length (alive rows) ->
  map load_of (entries c r tok buf rows pls) = loads false r tok rows.
Proof.
  induction rows as [|[it|] rows IH]; intros r tok buf pls Hl; [done| |by apply IH].
  destruct pls as [|pl pls]; [done|]. cbn in *. f_equal. apply IH. by injection Hl.
Qed.

Lemma drows_loads (f : drow -> option entry) (one : bool) rows : (forall r pl, f (r, None, pl) = None) ->
  (forall r it pl, exists e, f (r, Some it, pl) = Some e /\ load_of e = (if one then r else tok_at rows r, it)) ->
  forall prs, length prs = length rows -> map load_of (omap f (drows rows prs)) = loads one 0 0 rows.
Proof.
  intros Hn Hs.
  enough (forall before rs prs, rows = before ++ rs -> length prs = length rs ->
    map load_of (omap f (zip (zip (zrange (zlen before) (zlen rs)) rs) prs)) = loads one (zlen before) (zsum (map row_len before)) rs) as H.
  { intros prs Hl. by apply (H [] rows prs). }
  intros before rs. revert before. induction rs as [|x rs IH]; intros before prs E Hl; [by rewrite zrange_nil by done|].
  destruct prs as [|pl prs]; [done|]. rewrite zlen_cons, zrange_open by (pose proof (zlen_nonneg rs); lia).
  replace (zlen rs + 1 - 1) with (zlen rs) by lia. cbn [zip zip_with].
  specialize (IH (before ++ [x]) prs ltac:(by rewrite <- app_assoc) ltac:(by injection Hl)).
  rewrite zlen_app, map_app, zsum_app in IH. change (zlen [x]) with 1 in IH. cbn [map zsum foldr] in IH.
  destruct x as [it|]; cbn [loads row_len omap list_omap] in *.
  - destruct (Hs (zlen before) it pl) as (e & -> & He). cbn [map]. rewrite He, IH. rewrite Z.add_0_r. f_equal. f_equal.
    destruct one; [done|]. rewrite E. unfold tok_at, zlen. rewrite Nat2Z.id, take_app_length. done.
  - rewrite Hn, IH. by rewrite !Z.add_0_r.
Qed.

Section engine.
Context {T V : Type} (zero : T) (compress : list T -> V).
Context (c : config) (rpp : Z) (fused : bool) (launch_order : Z -> list Z).
Context (Hregion : 0 < region c) (Hrpp : 0 < rpp).

Abbreviation it_slot := (it_slot c rpp) (only parsing).
Abbreviation it_head := (it_head c) (only parsing).
Abbreviation it_tail := (it_tail c) (only parsing).
Abbreviation it_nbuf := (it_nbuf c) (only parsing).
Abbreviation it_nreg := (it_nreg c) (only parsing).
Abbreviation it_closed := (it_closed c) (only parsing).
Abbreviation nrm := (verify_width c) (only parsing).

(** ** Rows a batch needs *)

Context (Hspec : spec_query_len c <= region c + 1).

(** Two rows per request are enough. *)
Lemma item_cost it : item_ok c rpp it -> 0 <= head_cost c it /\ 0 <= body_cost c it /\ head_cost c it + body_cost c it <= 2.
Proof using Hregion Hspec.
  intros Hit. pose proof (body_cost_nonneg c rpp Hregion it Hit). pose proof (item_len _ _ _ Hit).
  pose proof (nbuf_split c Hregion it) as Hb. pose proof (tail_range c Hregion it). pose proof (head_range c Hregion it).
  pose proof (closed_nonneg c rpp Hregion it Hit). unfold DsaPlan.it_nbuf in Hb.
  unfold head_cost, body_cost, kept_regions in *. destruct (may_roll_back c (it_len it)) eqn:Hm.
  - unfold may_roll_back in Hm. apply andb_prop in Hm as [Hq1%Z.ltb_lt Hq2%Z.leb_le].
    destruct (Z.eqb_spec (it_head it) 0), (Z.eqb_spec (it_tail it) 0), (Z.ltb_spec 0 (it_closed it)); cbn [negb andb] in *; nia.
  - destruct (Z.eqb_spec (it_head it) 0), (Z.eqb_spec (it_tail it) 0); cbn in *; lia.
Qed.

Lemma batch_cost rows : Forall (item_ok c rpp) (alive rows) ->
  cost_of c rows <= 2 * zlen (alive rows) /\ total_cost c rows = cost_of c rows.
Proof using Hregion Hspec.
  intros Hok. assert (forall f, map (cost_at rows f) (zrange 0 (zlen rows)) = map (row_cost f) rows) as Heq.
  { intros f. rewrite (map_zget _ rows 0). apply map_ext. intros r. unfold cost_at. by destruct (zget rows r) as [[]|]. }
  split; [|unfold total_cost, cost_of; by rewrite !Heq]. unfold cost_of. clear Heq.
  induction rows as [|[it|] rows IH]; [done| |exact (IH Hok)]. apply Forall_cons in Hok as [Hit Hok]. specialize (IH Hok).
  pose proof (item_cost it Hit). change (alive (Some it :: rows)) with (it :: alive rows). rewrite zlen_cons. cbn. unfold zsum in *. lia.
Qed.

(** ** The state between steps *)

Context (nl G W : Z).

Definition to_complete (s : dsa_state) : list Z :=
  match current s with
  | Some i => match schedules s !! i with Some sched => completed_slots sched | None => [] end
  | None => []
  end.

Record host_ok (s : dsa_state) (open : list Z) (next : nat) : Prop := HostOk {
  ho_table : table_ok (pending s);
  ho_capacity : capacity (pending s) = max_pending c;
  ho_rpp : regions_per_page s = rpp;
  ho_layers : zlen (registered s) = nl;
  ho_open : forall slot, slot ∈ open -> exists row, row_of_slot (pending s) !! slot = Some row;
  ho_complete : spec_query_len c <= 1 -> forall slot, slot ∈ to_complete s -> slot ∉ open;
  ho_key : forall k, schedule_key s = Some k -> (k < next)%nat;
  ho_graph : 0 <= graph_regions s /\ Z.min G (W * rpp) <= graph_regions s;
  ho_width : forall w f, spec_buf s = Some (w, f) -> w = W
}.

(** What the end of a step leaves alone *)
Record same_host (s s' : dsa_state) : Prop := SameHost {
  sh_rpp : regions_per_page s' = regions_per_page s;
  sh_registered : registered s' = registered s;
  sh_key : schedule_key s' = schedule_key s;
  sh_current : current s' = current s;
  sh_graph : graph_regions s' = graph_regions s;
  sh_buf : buf s' = buf s;
  sh_spec : spec_buf s' = spec_buf s;
  sh_count : length (schedules s') = length (schedules s)
}.

Lemma drop_slots_run slots : forall t, table_ok t -> exists t', for_each slots (drop_slot c) t = (Ok tt, t') /\ table_ok t' /\
  capacity t' = capacity t /\ step t' = step t /\
  forall s, (1 < spec_query_len c \/ s ∉ slots) -> row_of_slot t' !! s = row_of_slot t !! s.
Proof using Type.
  induction slots as [|slot slots IH]; intros t Ht; [by exists t|]. cbn [for_each].
  assert (exists t1, drop_slot c slot t = (Ok tt, t1) /\ table_ok t1 /\ capacity t1 = capacity t /\ step t1 = step t /\
    forall s, (1 < spec_query_len c \/ s <> slot) -> row_of_slot t1 !! s = row_of_slot t !! s) as (t1 & E1 & Ht1 & Hc1 & Hs1 & Hr1).
  { unfold drop_slot. destruct (Z.ltb_spec 1 (spec_query_len c)).
    - destruct (retire_spec t slot Ht) as (t1 & E & H1 & H2 & H3 & H4). exists t1. split_and!; try done. intros s _. by rewrite H4.
    - destruct (release_spec t slot Ht) as (t1 & E & H1 & H2 & H3 & H4). exists t1. split_and!; try done. intros s [Hlt|Hne]; [lia|]. by apply H4. }
  destruct (IH t1 Ht1) as (t' & E & H1 & H2 & H3 & H4). exists t'. rewrite (M_bind_ok _ _ _ _ _ E1).
  split_and!; [done|done|congruence|congruence|]. intros s Hs. rewrite H4 by (destruct Hs as [|Hs]; [by left|right; by apply not_elem_of_cons in Hs as [_ ?]]).
  apply Hr1. destruct Hs as [|Hs]; [by left|right]. by apply not_elem_of_cons in Hs as [? _].
Qed.

Lemma end_step_run s open next : host_ok s open next -> exists s', end_step c s = (Ok tt, s') /\ host_ok s' open next /\
  same_host s s' /\ (forall slot, slot ∈ open -> row_of_slot (pending s') !! slot = row_of_slot (pending s) !! slot).
Proof using Type.
  intros Hs. pose proof (ho_complete _ _ _ Hs) as Hcomp. unfold end_step. munfold. unfold to_complete in Hcomp.
  destruct (current s) as [i|] eqn:Ec; [|by exists s]. destruct (schedules s !! i) as [sched|] eqn:Ei; [|by exists s].
  destruct (drop_slots_run (completed_slots sched) (pending s) (ho_table _ _ _ Hs)) as (t' & E & Ht & Hcap & _ & Hrow).
  unfold on_pending. rewrite E. eexists. split; [done|].
  assert (forall slot, slot ∈ open -> row_of_slot t' !! slot = row_of_slot (pending s) !! slot) as Hr.
  { intros slot Hin. apply Hrow. destruct (Z.le_gt_cases (spec_query_len c) 1) as [H|H]; [right|by left]. intros Hin'. by apply (Hcomp H slot). }
  split_and!; [|split; cbn; try done; by rewrite length_alter|done]. destruct Hs as [H1 H2 H3 H4 H5 H6 H7 H8 H9]. split; cbn; try done.
  - congruence.
  - intros slot Hin. rewrite Hr by done. by apply H5.
  - intros _ slot. unfold to_complete, clear_completed. cbn. rewrite Ec, list_lookup_alter, decide_True, Ei by done. cbn. by intros ?%elem_of_nil.
Qed.

(** A new step may take any row. *)
Lemma opened s open next : host_ok s open next -> exists t s', (end_step c ;; on_pending begin_step) s = (Ok tt, set_pending t s') /\
  table_ok t /\ capacity t = max_pending c /\ busy_rows t = 0 /\ same_host s s' /\
  (forall slot, slot ∈ open -> row_of_slot t !! slot = row_of_slot (pending s) !! slot).
Proof using Type.
  intros Hs. destruct (end_step_run s open next Hs) as (s' & E & Hs' & Hsame & Hr).
  destruct (begin_step_spec (pending s') (ho_table _ _ _ Hs')) as (t & Eb & Ht & Hb & Hcap & _ & Hrow).
  exists t, s'. rewrite (M_bind_ok _ _ _ _ _ E). split_and!; try done.
  - unfold on_pending. by rewrite Eb.
  - rewrite Hcap. apply Hs'.
  - intros slot Hin. rewrite Hrow. by apply Hr.
Qed.
(** ** A planned step *)

(** What the layers read of a schedule *)
Abbreviation updates := (update_layer zero compress c fused launch_order) (only parsing).

Lemma updates_ext s s' b qsl toks l : buf s' = buf s -> spec_buf s' = spec_buf s -> updates s' b qsl toks l = updates s b qsl toks l.
Proof using Type. intros H1 H2. unfold update_layer. by rewrite H1, H2. Qed.

(** The schedule [b] of the state [s2] does the loads [xs] to layers whose
    open slots had rows in [s]: on the tokens of each, of as many as [size]
    says, the update makes the writes of right plans. *)
Record planned (s s2 : dsa_state) (b : schedule_body) (qsl : list Z) (size : Z -> Prop) (xs : list load) (open : list Z) : Prop := Planned {
  pd_table : table_ok (pending s2);
  pd_capacity : capacity (pending s2) = max_pending c;
  pd_entries : exists es t1, map load_of es = xs /\
    (forall slot, slot ∈ open -> row_of_slot t1 !! slot = row_of_slot (pending s) !! slot) /\
    Forall (fun e => it_head (e_item e) <> 0 -> row_of_slot t1 !! it_slot (e_item e) 0 = Some (pl_in (e_plan e))) es /\
    Forall (fun e => plan_ok c rpp (pending s2) (e_item e) (e_plan e)) es /\
    forall l toks, layer_ok c l -> size (zlen toks) ->
      Forall (entry_ok c rpp toks (pending s2)) es /\
      exists l', updates s2 b qsl toks l = Ok l' /\ updated compress c rpp l toks es l'
}.

(** The heads of a batch resume in open slots. *)
Definition resumable (open : list Z) (its : list item) : Prop :=
  Forall (fun it => it_head it <> 0 -> it_slot it 0 ∈ open) its.

Lemma resumable_resumes s open next t its : host_ok s open next ->
  (forall slot, slot ∈ open -> row_of_slot t !! slot = row_of_slot (pending s) !! slot) -> resumable open its ->
  Forall (resumes c rpp t) its.
Proof using Type.
  intros Hs Hr H. eapply Forall_impl; [exact H|]. intros it Hit Hne. specialize (Hit Hne).
  destruct (ho_open _ _ _ Hs _ Hit) as [row Hrow]. exists row. by rewrite Hr.
Qed.

(** The slots open after a batch *)
Definition opens (xs : list load) : list Z := concat (map (fun x => open_slots c rpp x.2) xs).

(** A slot the schedule completes is not open. *)
Lemma completed_not_open rows xs completed : Forall (item_ok c rpp) (alive rows) -> NoDup (concat (map (it_slots c rpp) (alive rows))) ->
  map snd xs = alive rows -> only_closed c rpp rows completed -> spec_query_len c <= 1 ->
  forall slot, slot ∈ completed -> slot ∉ opens xs.
Proof using Hregion.
  intros Hok Hnd Hxs Hclosed Hq slot Hin Hopen. destruct (proj1 (Forall_forall _ _) Hclosed slot Hin) as (it & j & Hit & Hj & ->).
  assert (forall it, it ∈ alive rows -> exists r, zget rows r = Some (Some it)) as Hrow.
  { intros i (y & Hy & E)%list_elem_of_omap. cbn in E. subst y. by apply elem_zget. }
  unfold opens in Hopen. rewrite <- (map_map snd (open_slots c rpp)), Hxs in Hopen.
  apply list_elem_of_In, in_concat in Hopen as (ss & Hss & Hopen). apply in_map_iff in Hss as (it' & <- & Hit'%list_elem_of_In).
  apply list_elem_of_In in Hopen. unfold open_slots, kept_regions in Hopen.
  assert (may_roll_back c (it_len it') = false) as Hm.
  { unfold may_roll_back. destruct (Z.ltb_spec 1 (it_len it')), (Z.leb_spec (it_len it') (spec_query_len c)); try done. lia. }
  rewrite Hm, zrange_nil in Hopen by lia. cbn [map app] in Hopen.
  pose proof (proj1 (Forall_forall _ _) Hok _ Hit) as Hok1. pose proof (proj1 (Forall_forall _ _) Hok _ Hit') as Hok2.
  pose proof (closed_le_nreg c rpp Hregion it Hok1). pose proof (nreg_pos c rpp Hregion it' Hok2). pose proof (nreg_split c Hregion it') as Hn'.
  destruct (Z.eqb_spec (it_tail it') 0) as [E|E]; [by apply elem_of_nil in Hopen|]. apply list_elem_of_singleton in Hopen.
  destruct (Hrow it Hit) as [r Hr]. destruct (Hrow it' Hit') as [r' Hr'].
  destruct (slots_inj c rpp rows r r' it it' j (it_nreg it' - 1) Hnd Hr Hr') as [-> Ej]; [lia|lia|done|].
  assert (it' = it) as -> by congruence. lia.
Qed.

Lemma only_closed_general rows pls buf r tok : Forall (item_ok c rpp) (alive rows) -> length pls = length (alive rows) ->
  only_closed c rpp rows (concat (map (fun e => completed_of c rpp (e_item e)) (entries c r tok buf rows pls))).
Proof using Hregion.
  intros Hok Hl. assert (map e_item (entries c r tok buf rows pls) = alive rows) as Hits.
  { rewrite <- (loads_items false rows r tok), <- (entries_loads c rows r tok buf pls Hl), map_map. done. }
  rewrite <- (map_map e_item (completed_of c rpp)), Hits. apply Forall_concat, Forall_fmap, Forall_forall. intros it Hit. cbn.
  eapply Forall_impl; [exact (completed_closed c rpp Hregion it (proj1 (Forall_forall _ _) Hok _ Hit))|].
  intros slot (j & Hj & ->). by exists it, j.
Qed.

Lemma entries_plans t0 t rows : forall r tok buf pls, plans_ok c rpp t0 t (alive rows) pls ->
  Forall (fun e => plan_ok c rpp t (e_item e) (e_plan e) /\ (it_head (e_item e) <> 0 -> row_of_slot t0 !! it_slot (e_item e) 0 = Some (pl_in (e_plan e))))
    (entries c r tok buf rows pls) /\ placed c buf (entries c r tok buf rows pls).
Proof using Type.
  induction rows as [|[it|] rows IH]; intros r tok buf pls H; [done| |by apply IH].
  inversion H as [|? pl ? pls' Hp Hps]; subst. cbn [entries]. destruct (IH (r + 1) (tok + it_len it) (buf + it_nbuf it) pls' Hps) as [H1 H2].
  split; [constructor; [exact Hp|done]|]. cbn. done.
Qed.
(** ** The paths *)

(** A batch the engine may schedule: its requests are well-formed, few enough,
    share no slot, and resume where a slot is open. *)
Record batch_ok (rows : list (option item)) (open : list Z) : Prop := BatchOk {
  bo_items : Forall (item_ok c rpp) (alive rows);
  bo_slots : NoDup (concat (map (it_slots c rpp) (alive rows)));
  bo_room : 2 * zlen (alive rows) <= max_pending c;
  bo_resume : resumable open (alive rows)
}.

(** What making a schedule keeps of the state *)
Record carries (s s2 : dsa_state) : Prop := Carries {
  ca_rpp : regions_per_page s2 = rpp;
  ca_registered : registered s2 = registered s;
  ca_graph : 0 <= graph_regions s2 /\ Z.min G (W * rpp) <= graph_regions s2;
  ca_width : forall w f, spec_buf s2 = Some (w, f) -> w = W
}.

Lemma load_bounds rows : Forall (item_ok c rpp) (alive rows) -> forall r tok,
  0 <= tok -> Forall (fun x => tok <= x.1 /\ x.1 + it_len x.2 <= tok + zsum (map row_len rows)) (loads false r tok rows).
Proof using Type.
  induction rows as [|[it|] rows IH]; intros Hok r tok Htok; [constructor| |].
  - apply Forall_cons in Hok as [[_ Hlen _ _] Hok]. cbn [loads map zsum foldr row_len]. fold (zsum (map row_len rows)).
    assert (0 <= zsum (map row_len rows)) as H0.
    { clear -Hok. induction rows as [|[i|] rows IH]; [done| |exact (IH Hok)]. apply Forall_cons in Hok as [[_ Hl _ _] Hok].
      specialize (IH Hok). cbn. unfold zsum in IH. lia. }
    constructor; [cbn; lia|]. eapply Forall_impl; [exact (IH Hok (r + 1) (tok + it_len it) ltac:(lia))|]. cbn. intros x. lia.
  - cbn [loads map zsum foldr row_len]. fold (zsum (map row_len rows)). exact (IH Hok (r + 1) tok Htok).
Qed.

Lemma general_planned md rows s open next qsl : host_ok s open next -> describes md rows ->
  num_decodes md + num_prefills md = zlen rows -> batch_ok rows open ->
  exists sched s2, general_schedule c md s = (Ok sched, s2) /\ builder_owned sched = false /\ carries s s2 /\
    only_closed c rpp rows (completed_slots sched) /\
    planned s s2 (body sched) qsl (fun n => tok_at rows (zlen rows) <= n) (loads false 0 0 rows) open.
Proof using Hregion Hrpp Hspec.
  intros Hs Hd Hn [Hok Hnd Hroom Hres]. destruct (opened s open next Hs) as (t & s' & E & Ht & Hcap & Hb & Hsame & Hr).
  pose proof (resumable_resumes s open next t _ Hs Hr Hres) as Hresumes. destruct (batch_cost rows Hok) as [Hc1 Hc2].
  assert (regions_per_page s' = rpp) as Hrp by (rewrite (sh_rpp _ _ Hsame); apply Hs).
  destruct (general_body_planned c rpp Hregion Hrpp md rows s' t Hd Hrp Hn Hok Ht Hresumes) as (sched & t' & Eb & Ht' & Hk & _ & pls & Hpls & ->); [lia|].
  exists (general_of c rpp (entries c 0 0 0 rows pls)), (set_pending t' s').
  assert (length pls = length (alive rows)) as Hl by (symmetry; by eapply Forall2_length).
  destruct (entries_plans t t' rows 0 0 0 pls Hpls) as [Hplans Hplaced].
  pose proof (keeps_capacity _ _ Hk) as Hcap'. split_and!.
  - unfold general_schedule. apply M_bind_inv in E as ([] & s3 & E1 & E2). rewrite (M_bind_ok _ _ _ _ _ E1), (M_bind_ok _ _ _ _ _ E2). exact Eb.
  - done.
  - split; cbn; try apply Hs; [done|by rewrite (sh_registered _ _ Hsame)|rewrite (sh_graph _ _ Hsame); apply Hs|].
    intros w f. rewrite (sh_spec _ _ Hsame). apply Hs.
  - by apply only_closed_general.
  - split; [done|cbn; lia|]. exists (entries c 0 0 0 rows pls), t. split_and!; [by apply entries_loads|done|..].
    + eapply Forall_impl; [exact Hplans|]. by intros e [].
    + eapply Forall_impl; [exact Hplans|]. by intros e [].
    + intros l toks Hl0 Hsize. cbn [pending set_pending].
      assert (Forall (entry_ok c rpp toks t') (entries c 0 0 0 rows pls)) as Hes.
      { apply Forall_forall. intros e He. destruct (proj1 (Forall_forall _ _) Hplans e He) as [Hp _].
        assert (load_of e ∈ loads false 0 0 rows) as Hload by (rewrite <- (entries_loads c rows 0 0 0 pls Hl); apply list_elem_of_fmap; by exists e).
        pose proof (proj1 (Forall_forall _ _) (load_bounds rows Hok 0 0 ltac:(lia)) _ Hload) as [Hb1 Hb2]. cbn in Hb1, Hb2.
        assert (tok_at rows (zlen rows) = zsum (map row_len rows)) as Et by (unfold tok_at, zlen; by rewrite Nat2Z.id, firstn_all).
        split; [|done|lia]. assert (e_item e ∈ alive rows) as Hin by (rewrite <- (loads_items false rows 0 0); apply list_elem_of_fmap; by exists (load_of e)).
        exact (proj1 (Forall_forall _ _) Hok _ Hin). }
      split; [done|]. eexists. split; [apply (update_general_eq zero compress c rpp Hregion l toks t'); try done; lia|].
      apply (updated_eq compress c rpp Hregion Hrpp l toks t'); try done; [lia|].
      unfold slots_distinct. rewrite <- (map_map e_item (it_slots c rpp)).
      replace (map e_item (entries c 0 0 0 rows pls)) with (alive rows); [done|].
      rewrite <- (loads_items false rows 0 0), <- (entries_loads c rows 0 0 0 pls Hl), map_map. done.
Qed.
(** *** One token per request *)

Lemma trimmed_ok md s open next : 0 <= W -> host_ok s open next -> table_width md = W -> host_ok (trimmed md s) open next /\
  pending (trimmed md s) = pending s /\ regions_per_page (trimmed md s) = rpp.
Proof using Hrpp.
  intros HW Hs Hw. unfold trimmed. rewrite Hw. destruct Hs as [H1 H2 H3 H4 H5 H6 H7 H8 H9]. rewrite H3.
  destruct (Z.ltb_spec (W * rpp) (graph_regions s)); [|by split_and!].
  split_and!; [|done..]. split; cbn; try done. nia.
Qed.

Lemma loads_pad one w rows : forall r tok, loads one r tok (pad_rows w rows) = loads one r tok rows.
Proof using Type.
  unfold pad_rows. generalize (Z.to_nat w - length rows)%nat as k. intros k. induction rows as [|[it|] rows IH]; intros r tok; cbn [app loads]; [|by rewrite IH..].
  revert r. induction k as [|k IH]; intros r; [done|apply IH].
Qed.

Lemma dentries_loads rows prs : length prs = length rows -> map load_of (dentries rows prs) = loads true 0 0 rows.
Proof using Type. intros Hl. apply (drows_loads entry_at true); [done| |done]. intros r it pl. by eexists. Qed.

Lemma ventries_loads rows prs : length prs = length rows -> map load_of (ventries rows prs) = loads false 0 0 rows.
Proof using Type. intros Hl. apply (drows_loads (ventry rows) false); [done| |done]. intros r it pl. by eexists. Qed.

Lemma distinct_loads es one rows : map load_of es = loads one 0 0 rows -> NoDup (concat (map (it_slots c rpp) (alive rows))) -> slots_distinct c rpp es.
Proof using Type.
  intros He Hnd. unfold slots_distinct. rewrite <- (map_map e_item (it_slots c rpp)).
  replace (map e_item es) with (alive rows); [done|]. rewrite <- (loads_items one rows 0 0), <- He, map_map. done.
Qed.

(** Plans of rows are plans of entries *)
Lemma row_plans_entries (f : drow -> option entry) t0 t rows prs : Forall2 (row_plan c rpp t0 t) rows prs ->
  (forall x e, f x = Some e -> x.1.2 = Some (e_item e) /\ x.2 = e_plan e) ->
  Forall (fun e => plan_ok c rpp t (e_item e) (e_plan e) /\ (it_head (e_item e) <> 0 -> row_of_slot t0 !! it_slot (e_item e) 0 = Some (pl_in (e_plan e))))
    (omap f (drows rows prs)).
Proof using Type.
  intros Hp Hf. apply Forall_forall. intros e ([[r row] pl] & Hin & E)%list_elem_of_omap. destruct (Hf _ _ E) as [H1 H2]. cbn in H1, H2. subst.
  destruct (drows_elem _ _ _ _ _ Hin) as (Hr & Hrow & Hpl). unfold zget in Hrow, Hpl. destruct (Z.ltb_spec r 0); [lia|].
  destruct (Forall2_lookup_l _ _ _ _ _ Hp Hrow) as (pl' & E' & Hrp). assert (pl' = e_plan e) as -> by congruence. destruct Hrp as (A & B & _). done.
Qed.

(** The slots of a batch with one token each *)
Lemma one_slots its : Forall (item_ok c rpp) its -> Forall (fun it => it_len it = 1) its ->
  NoDup (concat (map (it_slots c rpp) its)) -> NoDup (map (fun it => it_slot it 0) its).
Proof using Hregion.
  intros Hok Hone. replace (concat (map (it_slots c rpp) its)) with (map (fun it => it_slot it 0) its); [done|].
  induction its as [|it its IH]; [done|]. apply Forall_cons in Hok as [Hit Hok]. apply Forall_cons in Hone as [H1 Hone].
  cbn [map concat]. rewrite <- IH by done. unfold it_slots. rewrite (one_region c Hregion it H1), zrange_open, zrange_nil by lia. done.
Qed.

(** What an update reads, and how many tokens: [w] rows and [tk] tokens of the
    state's buffers *)
Definition decode_room (persistent : bool) (md : metadata) (rows : list (option item)) : Prop :=
  persistent = true -> 0 <= W /\ table_width md = W /\ zlen rows <= max_num_reqs c /\
    (eager_fallback c = true \/ Forall (fun it => it_first c it <= Z.min G (W * rpp)) (alive rows)).

Lemma decode_planned persistent md rows s open next qsl : host_ok s open next -> describes_decode md rows -> batch_ok rows open ->
  decode_room persistent md rows ->
  exists sched s2, decode_schedule c persistent md s = (Ok sched, s2) /\ builder_owned sched = false /\ carries s s2 /\
    only_closed c rpp rows (completed_slots sched) /\
    (persistent = false -> planned s s2 (body sched) qsl (fun n => zlen rows <= n) (loads true 0 0 rows) open) /\
    (persistent = true -> body sched = DecodeView (zlen rows) /\ forall w, zlen rows <= w <= max_num_reqs c ->
       planned s s2 (DecodeView w) qsl (fun n => w <= n) (loads true 0 0 rows) open).
Proof using Hregion Hrpp Hspec.
  intros Hs Hd [Hok Hnd Hroom Hres] Hper. set (s0 := if persistent then trimmed md s else s).
  assert (host_ok s0 open next /\ pending s0 = pending s) as [Hs0 Hp0].
  { subst s0. destruct persistent; [|done]. destruct (Hper eq_refl) as (HW & Hw & _). by destruct (trimmed_ok md s open next HW Hs Hw) as (? & ? & _). }
  destruct (opened s0 open next Hs0) as (t & s' & E & Ht & Hcap & Hb & Hsame & Hr). rewrite Hp0 in Hr.
  pose proof (resumable_resumes s open next t _ Hs Hr Hres) as Hresumes. destruct (batch_cost rows Hok) as [Hc1 _].
  destruct (decode_schedule_planned c rpp Hregion Hrpp persistent md rows s s' t Hd (ho_rpp _ _ _ Hs) Hok E Ht Hresumes)
    as (prs & t' & completed & Ht' & Hk & Hprs & Hclosed & sched & <- & Howned & Hbody & Hrun); [lia| |].
  { intros ->. destruct (Hper eq_refl) as (HW & Hw & Hn & Hwide). pose proof (ho_graph _ _ _ Hs0) as [Hg1 Hg2]. split_and!; [done| |done].
    destruct Hwide as [|Hwide]; [by left|right]. eapply Forall_impl; [exact Hwide|]. cbn. intros it Hle. fold s0. lia. }
  pose proof (keeps_capacity _ _ Hk) as Hcap'. assert (length prs = length rows) as Hl by (symmetry; by eapply Forall2_length).
  assert (forall w s2 b, zlen rows <= w -> pending s2 = t' ->
    (forall l toks, updates s2 b qsl toks l = update_decode zero compress c w (fields_of c rpp (pad_rows w rows) (pad_plans c w prs)) toks l) ->
    planned s s2 b qsl (fun n => w <= n) (loads true 0 0 rows) open) as Hplan.
  { intros w s2 b Hw Hp2 Hup. pose proof (pad_plans_ok c rpp t t' w rows prs Hprs) as Hprs'.
    assert (length (pad_plans c w prs) = length (pad_rows w rows)) as Hlw by (symmetry; by eapply Forall2_length).
    assert (map load_of (dentries (pad_rows w rows) (pad_plans c w prs)) = loads true 0 0 rows) as Hload by (rewrite dentries_loads by done; apply loads_pad).
    assert (Forall (fun e => plan_ok c rpp t' (e_item e) (e_plan e) /\ (it_head (e_item e) <> 0 -> row_of_slot t !! it_slot (e_item e) 0 = Some (pl_in (e_plan e))))
      (dentries (pad_rows w rows) (pad_plans c w prs))) as Hplans.
    { apply row_plans_entries; [done|]. intros [[r [it|]] pl] e [= <-]. done. }
    split; [by rewrite Hp2|rewrite Hp2; lia|]. exists (dentries (pad_rows w rows) (pad_plans c w prs)), t. rewrite Hp2.
    split_and!; [done|done|eapply Forall_impl; [exact Hplans|]; by intros e []..|].
    intros l toks Hl0 Hsize. pose proof (pad_length w rows Hw) as Hzw. rewrite <- (pad_alive w rows) in Hok, Hnd.
    pose proof (dd_one _ _ Hd) as Hone. rewrite <- (pad_alive w rows) in Hone.
    assert (Forall (entry_ok c rpp toks t') (dentries (pad_rows w rows) (pad_plans c w prs))) as Hes.
    { apply Forall_forall. intros e ([[r [it|]] pl] & Hin & [= <-])%list_elem_of_omap.
      assert (zlen (pad_rows w rows) <= zlen toks) as Htk by lia.
      by destruct (drow_at c rpp toks t t' (pad_rows w rows) (pad_plans c w prs) Hok Hone Hprs' Htk r it pl Hin) as (_ & _ & _ & He). }
    split; [done|]. eexists. split.
    - rewrite Hup. rewrite <- Hzw at 1. apply (update_decode_eq zero compress c rpp Hregion Hrpp l toks t t'); try done; [lia|lia|]. by apply one_slots.
    - apply (updated_eq compress c rpp Hregion Hrpp l toks t'); try done; [lia|].
      apply (distinct_loads _ true (pad_rows w rows)); [by rewrite dentries_loads by done|done]. }
  eexists sched, _. split; [exact Hrun|]. split; [done|]. split; [|split; [done|split]].
  - assert (carries s (set_pending t' s')) as [A1 A2 A3 A4].
    { assert (registered s0 = registered s) as R1.
      { subst s0. destruct persistent; [|done]. unfold trimmed. by case_match. }
      split; cbn; [rewrite (sh_rpp _ _ Hsame); apply Hs0|by rewrite (sh_registered _ _ Hsame)|
        rewrite (sh_graph _ _ Hsame); apply Hs0|]. intros w f. rewrite (sh_spec _ _ Hsame). apply Hs0. }
    destruct persistent; by split.
  - intros ->. rewrite Hbody. apply (Hplan (zlen rows)); [lia|done|]. intros l toks. cbn [updates update_layer].
    unfold pad_rows, pad_plans, zlen. by rewrite Nat2Z.id, Hl, Nat.sub_diag, !app_nil_r.
  - intros ->. split; [done|]. intros w Hw. apply Hplan; [lia|done|]. intros l toks. cbn [update_layer buf set_buf].
    by rewrite decode_view_persisted.
Qed.
(** *** A few tokens per request *)

Context (Hlaunch : forall n, launch_order n ≡ₚ zrange 0 n).

(** [query_start_loc] on the device: right for requests *)
Definition starts_ok (qsl : list Z) (rows : list (option item)) : Prop :=
  forall r it, zget rows r = Some (Some it) -> zget qsl r = Some (tok_at rows r) /\ zget qsl (r + 1) = Some (tok_at rows r + it_len it).

Lemma pad_tok r w rows : r <= zlen rows -> tok_at (pad_rows w rows) r = tok_at rows r.
Proof using Type. intros Hr. unfold tok_at, pad_rows. rewrite take_app_le; [done|]. unfold zlen in Hr. lia. Qed.

Lemma pad_starts qsl w rows : starts_ok qsl rows -> starts_ok qsl (pad_rows w rows).
Proof using Type.
  intros H r it Hr. assert (zget rows r = Some (Some it)) as Hr' by (by eapply pad_get). pose proof (zget_Some _ _ _ Hr').
  rewrite pad_tok by lia. by apply H.
Qed.

Lemma host_starts md rows : describes_verify c md rows -> starts_ok (query_start_loc_cpu md) rows.
Proof using Type.
  intros Hd r it Hr. pose proof (zget_Some _ _ _ Hr) as Hrange. change (it_len it) with (row_len (Some it)). rewrite <- (tok_at_next _ _ _ Hr).
  assert (forall i, 0 <= i <= zlen rows -> zget (query_start_loc_cpu md) i = Some (tok_at rows i)) as H; [|split; apply H; lia].
  intros i Hi. assert (zget (prefix (zlen rows + 1) (query_start_loc_cpu md)) i = Some (tok_at rows i)) as H.
  { rewrite (dv_starts _ _ _ Hd), zget_map, zget_zrange by lia. cbn. by rewrite ?Z.add_0_l. }
  unfold zget, prefix in *. destruct (Z.ltb_spec i 0); [lia|]. by rewrite lookup_take_lt in H by lia.
Qed.

Definition verify_room (persistent : bool) (md : metadata) (rows : list (option item)) : Prop :=
  persistent = true -> 0 <= W /\ table_width md = W /\ zlen rows <= max_num_reqs c /\
    num_decode_tokens md <= max_num_reqs c * Z.max (spec_query_len c) 1 /\ 0 < spec_query_len c /\ 0 <= num_kv_groups c /\
    (eager_fallback c = true \/ Forall (fun it => it_past it + it_len it - 1 < (Z.min G (W * rpp) + 1) * region c) (alive rows)).

Lemma verify_planned persistent md rows s open next qsl : host_ok s open next -> describes_verify c md rows -> batch_ok rows open ->
  verify_room persistent md rows -> starts_ok qsl rows ->
  exists sched s2, spec_decode_schedule c persistent md s = (Ok sched, s2) /\ builder_owned sched = false /\ carries s s2 /\
    only_closed c rpp rows (completed_slots sched) /\
    (persistent = false -> planned s s2 (body sched) qsl (fun n => n = num_decode_tokens md) (loads false 0 0 rows) open) /\
    (persistent = true -> body sched = VerifyView (zlen rows) (num_decode_tokens md) nrm /\
       forall w tk, zlen rows <= w <= max_num_reqs c -> tok_at rows (zlen rows) <= tk <= max_num_reqs c * Z.max (spec_query_len c) 1 ->
       planned s s2 (VerifyView w tk nrm) qsl (fun n => n = tk) (loads false 0 0 rows) open).
Proof using Hregion Hrpp Hspec Hlaunch.
  intros Hs Hd [Hok Hnd Hroom Hres] Hper Hqsl. set (s0 := if persistent then trimmed md s else s).
  assert (host_ok s0 open next /\ pending s0 = pending s) as [Hs0 Hp0].
  { subst s0. destruct persistent; [|done]. destruct (Hper eq_refl) as (HW & Hw & _). by destruct (trimmed_ok md s open next HW Hs Hw) as (? & ? & _). }
  destruct (opened s0 open next Hs0) as (t & s' & E & Ht & Hcap & Hb & Hsame & Hr). rewrite Hp0 in Hr.
  pose proof (resumable_resumes s open next t _ Hs Hr Hres) as Hresumes. destruct (batch_cost rows Hok) as [Hc1 _].
  destruct (spec_schedule_planned c rpp Hregion Hrpp persistent md rows s s' t Hd (ho_rpp _ _ _ Hs) Hok E Ht Hresumes)
    as (prs & t' & completed & Ht' & Hk & Hprs & Hclosed & sched & <- & Howned & Hbody & Hrun); [lia| |].
  { intros ->. destruct (Hper eq_refl) as (HW & Hw & Hn & Hnt & Hq & Hkv & Hwide). pose proof (ho_graph _ _ _ Hs0) as [Hg1 Hg2].
    fold s0. split_and!; try done.
    - destruct Hwide as [|Hwide]; [by left|right]. eapply Forall_impl; [exact Hwide|]. cbn. intros it Hle. nia.
    - intros w f Hf. rewrite Hw. by eapply (ho_width _ _ _ Hs0). }
  pose proof (keeps_capacity _ _ Hk) as Hcap'. assert (length prs = length rows) as Hl by (symmetry; by eapply Forall2_length).
  pose proof (dv_len _ _ _ Hd) as Hlen. pose proof (dv_tokens _ _ _ Hd) as Htok.
  assert (forall w tk s2 b f, zlen rows <= w -> tok_at rows (zlen rows) <= tk -> pending s2 = t' ->
    verify_vectors c rpp (pad_rows w rows) (pad_plans c w prs) tk f ->
    (forall l toks, updates s2 b qsl toks l = update_verify_layer zero compress c fused launch_order w tk nrm f qsl toks l) ->
    planned s s2 b qsl (fun n => n = tk) (loads false 0 0 rows) open) as Hplan.
  { intros w tk s2 b f Hw Htk Hp2 Hf Hup. pose proof (pad_plans_ok c rpp t t' w rows prs Hprs) as Hprs'.
    assert (length (pad_plans c w prs) = length (pad_rows w rows)) as Hlw by (symmetry; by eapply Forall2_length).
    set (es := ventries (pad_rows w rows) (pad_plans c w prs)).
    assert (map load_of es = loads false 0 0 rows) as Hload by (subst es; rewrite ventries_loads by done; apply loads_pad).
    assert (Forall (fun e => plan_ok c rpp t' (e_item e) (e_plan e) /\ (it_head (e_item e) <> 0 -> row_of_slot t !! it_slot (e_item e) 0 = Some (pl_in (e_plan e)))) es) as Hplans.
    { apply row_plans_entries; [done|]. intros [[r [it|]] pl] e [= <-]. done. }
    split; [by rewrite Hp2|rewrite Hp2; lia|]. exists es, t. rewrite Hp2.
    split_and!; [done|done|eapply Forall_impl; [exact Hplans|]; by intros e []..|].
    intros l toks Hl0 Hsize. pose proof (pad_length w rows Hw) as Hzw. pose proof (pad_starts qsl w rows Hqsl) as Hqsl'.
    rewrite <- (pad_alive w rows) in Hok, Hnd, Hlen. assert (tok_at (pad_rows w rows) (zlen (pad_rows w rows)) <= tk) as Htk' by (by rewrite pad_tok_at).
    split; [by apply (ventries_ok c rpp Hregion toks t t' (pad_rows w rows) (pad_plans c w prs) tk)|].
    rewrite Hup. unfold update_verify_layer. destruct fused.
    - eexists. split; [done|]. apply (update_fused_updated zero compress c rpp Hregion Hrpp l toks t t'); try done; [lia|].
      rewrite Hlaunch. unfold launched. by rewrite Hzw.
    - assert (capacity t' = max_pending c) as Hcap'' by lia.
      pose proof (update_verify_updated zero compress c rpp Hregion Hrpp l toks t t' (pad_rows w rows) (pad_plans c w prs) tk f Hl0 Ht' Hcap'' Hok Hlen Hprs' Hsize Htk' Hnd Hf) as H.
      rewrite Hzw in H. exact H. }
  eexists sched, _. split; [exact Hrun|]. split; [done|]. split; [|split; [done|split]].
  - assert (carries s (set_pending t' s')) as [A1 A2 A3 A4].
    { assert (registered s0 = registered s) as R1.
      { subst s0. destruct persistent; [|done]. unfold trimmed. by case_match. }
      split; cbn; [rewrite (sh_rpp _ _ Hsame); apply Hs0|by rewrite (sh_registered _ _ Hsame)|
        rewrite (sh_graph _ _ Hsame); apply Hs0|]. intros w f. rewrite (sh_spec _ _ Hsame). apply Hs0. }
    destruct persistent; [|by split]. split; try done. cbn. intros w f [= <- _]. by destruct (Hper eq_refl) as (_ & ? & _).
  - intros ->. rewrite Hbody. apply (Hplan (zlen rows) _ _ _ (vfields c rpp rows prs (num_decode_tokens md))); [lia|done|done| |done].
    unfold pad_rows, pad_plans, zlen. rewrite Nat2Z.id, Hl, Nat.sub_diag, !app_nil_r. by apply (vfields_vectors c rpp Hregion Hrpp t t').
  - intros ->. split; [done|]. intros w tk Hw Htk. eapply (Hplan w tk); [lia|lia|done| |intros l toks; reflexivity].
    destruct (Hper eq_refl) as (_ & _ & _ & Hnt & _). apply (verify_view_vectors c rpp Hregion Hrpp t t'); try done; lia.
Qed.
(** ** The schedule of a step *)

Definition verify_batch (md : metadata) : bool := (num_prefills md =? 0) && (num_decodes md <? num_decode_tokens md).
Definition decode_batch (md : metadata) : bool := (num_prefills md =? 0) && (0 <? num_decodes md).
Definition one_token (md : metadata) : bool := negb (verify_batch md) && decode_batch md.

(** The metadata say what the rows are, the way its path reads them. *)
Definition described (md : metadata) (rows : list (option item)) : Prop :=
  if verify_batch md then describes_verify c md rows
  else if decode_batch md then describes_decode md rows
  else describes md rows /\ num_decodes md + num_prefills md = zlen rows.

Definition step_loads (md : metadata) (rows : list (option item)) : list load := loads (one_token md) 0 0 rows.

(** Whether the step's schedule lives in the state's buffers *)
Definition persists (k : step_kind) (md : metadata) : bool :=
  match k with Eager => false | _ => graph_decode c && decode_batch md end.

Definition room_ok (persistent : bool) (md : metadata) (rows : list (option item)) : Prop :=
  if verify_batch md then verify_room persistent md rows else if decode_batch md then decode_room persistent md rows else True.

(** How many tokens each layer gets *)
Definition size_ok (k : step_kind) (md : metadata) (rows : list (option item)) (n : Z) : Prop :=
  match k with
  | Replay w tk => if verify_batch md then n = tk else w <= n
  | _ => if verify_batch md then n = num_decode_tokens md else if decode_batch md then zlen rows <= n else tok_at rows (zlen rows) <= n
  end.

(** A captured graph is wide enough for the batch, and [qsl] tells it where
    the tokens of the requests are. *)
Definition replay_ok (k : step_kind) (md : metadata) (rows : list (option item)) (qsl : list Z) : Prop :=
  match k with
  | Replay w tk => persists k md = true /\ zlen rows <= w <= max_num_reqs c /\ (verify_batch md = true ->
      starts_ok qsl rows /\ tok_at rows (zlen rows) <= tk <= max_num_reqs c * Z.max (spec_query_len c) 1)
  | _ => True
  end.

(** The schedule [sched] of the batch [md] is the current one. *)
Record ready (s s2 : dsa_state) (md : metadata) (sched : schedule) (i : nat) : Prop := Ready {
  rd_current : current s2 = Some i;
  rd_key : schedule_key s2 = Some (md_id md);
  rd_sched : schedules s2 !! i = Some sched;
  rd_done : layers_done s2 = 0;
  rd_carries : carries s s2
}.

Lemma planned_ext s s2 s3 b qsl size xs open : pending s3 = pending s2 -> buf s3 = buf s2 -> spec_buf s3 = spec_buf s2 ->
  planned s s2 b qsl size xs open -> planned s s3 b qsl size xs open.
Proof using Type.
  intros H1 H2 H3 [A B (es & t1 & C1 & C2 & C3 & C4 & C5)]. split; [by rewrite H1|by rewrite H1|]. exists es, t1. rewrite H1.
  split_and!; [done..|]. intros l toks Hl Hn. destruct (C5 l toks Hl Hn) as [D1 (l' & D2 & D3)]. split; [done|]. exists l'.
  split; [|done]. by rewrite (updates_ext s2 s3).
Qed.

(** Putting a schedule in place *)
Definition placed_schedule (md : metadata) (sched : schedule) (s : dsa_state) : dsa_state :=
  set_current (md_id md) (length (schedules s)) (set_schedules (schedules s ++ [sched]) s).

Lemma placed_ready s s2 md sched : carries s s2 -> ready s (placed_schedule md sched s2) md sched (length (schedules s2)).
Proof using Type. intros [H1 H2 H3 H4]. split; cbn; try done. by rewrite lookup_app_r, Nat.sub_diag by lia. Qed.

Lemma schedule_ready md s s2 i sched : ready s s2 md sched i -> schedule_for c md s2 = (Ok i, s2).
Proof using Type. intros [H1 H2 _ _ _]. unfold schedule_for. munfold. by rewrite H1, H2, bool_decide_true. Qed.

Lemma eager_ready md rows s open next k : host_ok s open next -> md_schedule md = None -> (next <= md_id md)%nat -> described md rows -> batch_ok rows open ->
  persists k md = false -> (forall w tk, k <> Replay w tk) ->
  exists sched i s2, schedule_for c md s = (Ok i, s2) /\ ready s s2 md sched i /\ builder_owned sched = false /\
    only_closed c rpp rows (completed_slots sched) /\
    planned s s2 (body sched) (query_start_loc_cpu md) (size_ok k md rows) (step_loads md rows) open.
Proof using Hregion Hrpp Hspec Hlaunch.
  intros Hs Hnone Hid Hd Hbatch Hpers Hk.
  assert (exists sched s2, (if (num_prefills md =? 0) && (num_decodes md <? num_decode_tokens md) then spec_decode_schedule c false md
      else if (num_prefills md =? 0) && (0 <? num_decodes md) then decode_schedule c false md else general_schedule c md) s = (Ok sched, s2) /\
    builder_owned sched = false /\ carries s s2 /\ only_closed c rpp rows (completed_slots sched) /\
    planned s s2 (body sched) (query_start_loc_cpu md) (size_ok k md rows) (step_loads md rows) open) as (sched & s2 & E & Howned & Hca & Hclosed & Hplan).
  { change ((num_prefills md =? 0) && (num_decodes md <? num_decode_tokens md)) with (verify_batch md).
    change ((num_prefills md =? 0) && (0 <? num_decodes md)) with (decode_batch md). unfold described in Hd. unfold step_loads, one_token.
    assert (forall n, size_ok k md rows n = if verify_batch md then n = num_decode_tokens md else if decode_batch md then zlen rows <= n else tok_at rows (zlen rows) <= n) as Hsz
      by (intros n; destruct k as [| |w tk]; [done|done|by destruct (Hk w tk)]).
    assert (forall s s2 b qsl xs open (P : Z -> Prop), (forall n, size_ok k md rows n -> P n) -> planned s s2 b qsl P xs open -> planned s s2 b qsl (size_ok k md rows) xs open) as Hweak.
    { intros ? ? ? ? ? ? P HP [A B (es & t1 & C1 & C2 & C3 & C4 & C5)]. split; [done|done|]. exists es, t1. split_and!; try done. intros l toks Hl Hn. apply C5; [done|by apply HP]. }
    destruct (verify_batch md) eqn:Ev; [|destruct (decode_batch md) eqn:Ed].
    - destruct (verify_planned false md rows s open next (query_start_loc_cpu md) Hs Hd Hbatch ltac:(done) (host_starts md rows Hd)) as (sched & s2 & H1 & H2 & H3 & H4 & H5 & _).
      exists sched, s2. split_and!; try done. apply (Hweak _ _ _ _ _ _ _ (fun n H => eq_ind _ id H _ (Hsz n))). by apply H5.
    - destruct (decode_planned false md rows s open next (query_start_loc_cpu md) Hs Hd Hbatch ltac:(done)) as (sched & s2 & H1 & H2 & H3 & H4 & H5 & _).
      exists sched, s2. split_and!; try done. apply (Hweak _ _ _ _ _ _ _ (fun n H => eq_ind _ id H _ (Hsz n))). by apply H5.
    - destruct Hd as [Hd Hn]. destruct (general_planned md rows s open next (query_start_loc_cpu md) Hs Hd Hn Hbatch) as (sched & s2 & H1 & H2 & H3 & H4 & H5).
      exists sched, s2. split_and!; try done. by apply (Hweak _ _ _ _ _ _ _ (fun n H => eq_ind _ id H _ (Hsz n))). }
  exists sched, (length (schedules s2)), (placed_schedule md sched s2). split_and!; [|by apply placed_ready|done|done|by apply (planned_ext s s2)].
  unfold schedule_for. rewrite (M_bind_ok _ _ s s s) by done. rewrite bool_decide_false, Hnone.
  - rewrite (M_bind_ok _ _ _ _ _ E). done.
  - intros H. apply (ho_key _ _ _ Hs) in H. lia.
Qed.
(** What the layers of a step read *)
Definition read_body (k : step_kind) (b : schedule_body) : schedule_body :=
  match k with Replay w tk => captured b w tk | _ => b end.
Definition read_starts (k : step_kind) (md : metadata) (qsl : list Z) : list Z :=
  match k with Replay _ _ => qsl | _ => query_start_loc_cpu md end.

Definition owned (sched : schedule) : schedule :=
  Schedule (body sched) (completed_slots sched) (max_nscore sched) true (sched_graph_regions sched).

Definition scheduled_md (md : metadata) (i : nat) : metadata :=
  Metadata (md_id md) (num_decodes md) (num_prefills md) (num_decode_tokens md) (num_actual_tokens md)
    (block_table md) (block_table_np md) (seq_lens md) (seq_lens_cpu md) (query_start_loc_cpu md) (Some i).

Lemma built_ready k md qsl rows s open next : host_ok s open next -> described md rows -> batch_ok rows open ->
  persists k md = true -> room_ok true md rows -> replay_ok k md rows qsl ->
  exists sched i s2, build c md s = (Ok (scheduled_md md i), s2) /\ ready s s2 md sched i /\ builder_owned sched = true /\
    only_closed c rpp rows (completed_slots sched) /\
    planned s s2 (read_body k (body sched)) (read_starts k md qsl) (size_ok k md rows) (step_loads md rows) open.
Proof using Hregion Hrpp Hspec Hlaunch.
  intros Hs Hd Hbatch Hpers Hroom Hrep.
  assert (graph_decode c && (num_prefills md =? 0) && (0 <? num_decodes md) = true) as Hbuild.
  { unfold persists, decode_batch in Hpers. rewrite <- andb_assoc. by destruct k. }
  assert (decode_batch md = true) as Hdec by (unfold decode_batch; rewrite <- andb_assoc in Hbuild; by apply andb_prop in Hbuild as [_ ?]).
  assert (verify_batch md = (num_decodes md <? num_decode_tokens md)) as Hver.
  { unfold verify_batch. unfold decode_batch in Hdec. by apply andb_prop in Hdec as [-> _]. }
  assert (exists sched s2, (if num_decodes md <? num_decode_tokens md then spec_decode_schedule c true md else decode_schedule c true md) s = (Ok sched, s2) /\
    carries s s2 /\ only_closed c rpp rows (completed_slots sched) /\
    planned s s2 (read_body k (body sched)) (read_starts k md qsl) (size_ok k md rows) (step_loads md rows) open) as (sched & s2 & E & Hca & Hclosed & Hplan).
  { unfold described in Hd. unfold step_loads, one_token, room_ok, size_ok, replay_ok in *. rewrite <- Hver. rewrite Hdec in *.
    destruct (verify_batch md) eqn:Ev.
    - assert (starts_ok (read_starts k md qsl) rows) as Hstarts by (destruct k; [by apply host_starts..|by apply Hrep]).
      destruct (verify_planned true md rows s open next (read_starts k md qsl) Hs Hd Hbatch Hroom Hstarts) as (sched & s2 & H1 & _ & H3 & H4 & _ & H5).
      exists sched, s2. split_and!; try done. destruct (H5 eq_refl) as [-> Hp]. destruct (Hroom eq_refl) as (_ & _ & Hn & Hnt & _).
      pose proof (dv_tokens _ _ _ Hd). destruct k as [| |w tk]; cbn [read_body captured]; [by apply Hp..|]. destruct Hrep as (_ & Hw & Htk). by apply Hp, Htk.
    - destruct (decode_planned true md rows s open next (read_starts k md qsl) Hs Hd Hbatch Hroom) as (sched & s2 & H1 & _ & H3 & H4 & _ & H5).
      exists sched, s2. split_and!; try done. destruct (H5 eq_refl) as [-> Hp]. destruct (Hroom eq_refl) as (_ & _ & Hn & _).
      destruct k as [| |w tk]; cbn [read_body captured]; [by apply Hp..|]. destruct Hrep as (_ & Hw & _). by apply Hp. }
  exists (owned sched), (length (schedules s2)), (placed_schedule md (owned sched) s2). split_and!; [|by apply placed_ready|done|done|by apply (planned_ext s s2)].
  unfold build. rewrite Hbuild. rewrite (M_bind_ok _ _ _ _ _ E). done.
Qed.
(** ** The layers of a step *)

Abbreviation dsa_model := (@dsa_model T V) (only parsing).
Abbreviation layer := (@layer T V) (only parsing).
Abbreviation store := (gmap Z (list T)) (only parsing).

(** Each layer's update *)
Definition updated_all (s : dsa_state) (b : schedule_body) (qsl : list Z) (toks : list (list T)) (ls ls' : list layer) : Prop :=
  Forall2 (fun (x : list T * layer) l' => updates s b qsl x.1 x.2 = Ok l') (zip toks ls) ls' /\ length toks = length ls.

Lemma replay_run s b qsl toks : forall ls ls', updated_all s b qsl toks ls ls' ->
  replay_layers zero compress c fused launch_order s b qsl toks ls = Ok ls'.
Proof using Type.
  induction toks as [|ts toks IH]; intros [|l ls] ls' [H Hl]; try done; cbn [zip zip_with] in H.
  - by apply Forall2_nil_inv_l in H as ->.
  - apply Forall2_cons_inv_l in H as (l' & ls1 & Hu & H & ->). cbn [replay_layers]. cbn in Hu. rewrite Hu. cbn [mbind result_bind].
    rewrite (IH ls ls1); [done|]. split; [done|]. by injection Hl.
Qed.

(** After the last layer the step ends, unless the builder owns the schedule. *)
Definition finished (sched : schedule) (s s' : dsa_state) : Prop :=
  if builder_owned sched then s' = s else end_step c s = (Ok tt, s').

Lemma finish_layer_eq s i sched : current s = Some i -> schedules s !! i = Some sched ->
  finish_layer c s = if (zlen (registered s) <=? layers_done s + 1) && negb (builder_owned sched)
    then end_step c (set_layers_done (layers_done s + 1) s) else (Ok tt, set_layers_done (layers_done s + 1) s).
Proof using Type.
  intros Hc Hs. unfold finish_layer. munfold. cbn [current set_layers_done schedules registered layers_done]. rewrite Hc. cbn. rewrite Hs.
  by destruct ((zlen (registered s) <=? layers_done s + 1) && negb (builder_owned sched)).
Qed.

Lemma run_layers_ready md i sched toks : forall k s before ls ls' s',
  current s = Some i -> schedule_key s = Some (md_id md) -> schedules s !! i = Some sched -> layers_done s = k ->
  zlen (registered s) = k + zlen toks -> toks <> [] -> zlen before = k ->
  updated_all s (body sched) (query_start_loc_cpu md) toks ls ls' ->
  finished sched (set_layers_done (k + zlen toks) s) s' ->
  run_layers zero compress c fused launch_order md k toks (Model s (before ++ ls)) = (Ok tt, Model s' (before ++ ls')).
Proof using Type.
  induction toks as [|ts toks IH]; intros k s before ls ls' s' Hcur Hkey Hsched Hdone Hreg Hne Hbefore [Hup Hl] Hfin; [done|].
  destruct ls as [|l ls]; [done|]. cbn [zip zip_with] in Hup. apply Forall2_cons_inv_l in Hup as (l' & ls1 & Hu & Hup & ->). cbn in Hu.
  rewrite zlen_cons in *. cbn [run_layers].
  assert (run_layer zero compress c fused launch_order md k ts (Model s (before ++ l :: ls)) =
    (let '(r, s1) := finish_layer c s in (r, Model s1 (before ++ l' :: ls)))) as Hrun.
  { unfold run_layer. rewrite (M_bind_ok _ _ _ i (Model s (before ++ l :: ls))).
    2:{ unfold on_host. cbn [host]. unfold schedule_for. munfold. by rewrite Hkey, Hcur, bool_decide_true. }
    rewrite (M_bind_ok _ _ _ _ _ (eq_refl : get_state (Model s (before ++ l :: ls)) = _)). cbn [host layers]. rewrite Hsched.
    assert (zget (before ++ l :: ls) k = Some l) as Hget.
    { rewrite zget_app_ge by lia. by rewrite Hbefore, Z.sub_diag. }
    munfold. rewrite (row_get_in _ _ _ Hget). cbn [host]. rewrite Hu. rewrite row_set_in.
    - replace (<[Z.to_nat k:=l']> (before ++ l :: ls)) with (before ++ l' :: ls); [done|].
      rewrite insert_app_r_alt by (unfold zlen in *; lia). unfold zlen in Hbefore. replace (Z.to_nat k - length before)%nat with 0%nat by lia. done.
    - apply zget_Some in Hget. lia. }
  rewrite (finish_layer_eq s i sched Hcur Hsched), Hdone, Hreg in Hrun. pose proof (zlen_nonneg toks).
  destruct toks as [|ts' toks].
  - change (zlen (@nil (list T))) with 0 in *. rewrite (proj2 (Z.leb_le _ (k + 1))) in Hrun by lia. cbn [andb] in Hrun.
    cbn [zip zip_with] in Hup. apply Forall2_nil_inv_l in Hup as ->. destruct ls; [|done]. unfold finished in Hfin. rewrite Z.add_0_l in Hfin.
    cbn [run_layers]. destruct (builder_owned sched); cbn [negb] in Hrun.
    + rewrite (M_bind_ok _ _ _ _ _ Hrun). by rewrite Hfin.
    + rewrite Hfin in Hrun. by rewrite (M_bind_ok _ _ _ _ _ Hrun).
  - rewrite zlen_cons in *. pose proof (zlen_nonneg toks). rewrite (proj2 (Z.leb_gt _ (k + 1))) in Hrun by lia. cbn [andb] in Hrun.
    rewrite (M_bind_ok _ _ _ _ _ Hrun).
    rewrite (app_assoc before [l'] ls : before ++ l' :: ls = (before ++ [l']) ++ ls), (app_assoc before [l'] ls1 : before ++ l' :: ls1 = (before ++ [l']) ++ ls1).
    apply IH; cbn [current schedule_key schedules layers_done registered set_layers_done]; try done.
    + lia.
    + rewrite zlen_app. change (zlen [l']) with 1. lia.
    + split; [|by injection Hl]. eapply Forall2_impl; [exact Hup|]. intros x y Hxy. rewrite <- Hxy. by apply updates_ext.
    + replace (set_layers_done (k + 1 + (zlen toks + 1)) (set_layers_done (k + 1) s)) with (set_layers_done (k + (zlen toks + 1 + 1)) s); [done|].
      unfold set_layers_done. cbn. f_equal. lia.
Qed.
(** ** A step keeps what holds of the layers *)

Definition opened_by (prev : list item) : list Z := concat (map (open_slots c rpp) prev).

Record layer_inv (t : pending_table) (l : layer) (st : store) (prev : list item) : Prop := LayerInv {
  li_ok : layer_ok c l;
  li_rows : rows_hold t l st (opened_by prev);
  li_summaries : summaries_hold compress c l st;
  li_lens : Forall (fun it => forall j, 0 <= j < it_nreg it -> zlen (default [] (st !! it_slot it j)) = region_len c it j) prev
}.

(** A request starts at a region, or it continues one of the step before. *)
Definition goes_on (prev : list item) (it : item) : Prop :=
  it_head it = 0 \/ exists it', it' ∈ prev /\ continues c it' it.

Lemma goes_on_open t l st prev it : layer_inv t l st prev -> Forall (item_ok c rpp) prev -> item_ok c rpp it -> goes_on prev it -> it_head it <> 0 ->
  it_slot it 0 ∈ opened_by prev /\ it_head it <= zlen (default [] (st !! it_slot it 0)).
Proof using Hregion Hrpp.
  intros Hinv Hprev Hit [|(it' & Hin & Hc)] Hne; [done|]. pose proof (proj1 (Forall_forall _ _) Hprev _ Hin) as Hit'.
  destruct (continues_open c rpp Hregion Hrpp it' it Hit' Hit Hc Hne) as (j & Hj & -> & Hopen & Hlen). split.
  - apply list_elem_of_In, in_concat. exists (open_slots c rpp it'). split; [apply in_map|]; by apply list_elem_of_In.
  - by rewrite (proj1 (Forall_forall _ _) (li_lens _ _ _ _ Hinv) _ Hin j Hj).
Qed.

Lemma goes_on_resumable t l st prev its : layer_inv t l st prev -> Forall (item_ok c rpp) prev -> Forall (item_ok c rpp) its ->
  Forall (goes_on prev) its -> resumable (opened_by prev) its.
Proof using Hregion Hrpp.
  intros Hinv Hprev Hits Hgo. apply Forall_forall. intros it Hin Hne.
  destruct (goes_on_open t l st prev it Hinv Hprev (proj1 (Forall_forall _ _) Hits _ Hin) (proj1 (Forall_forall _ _) Hgo _ Hin) Hne). done.
Qed.

Lemma layer_step s s2 b qsl size xs l st prev toks : layer_inv (pending s) l st prev -> Forall (item_ok c rpp) prev ->
  planned s s2 b qsl size xs (opened_by prev) -> NoDup (concat (map (it_slots c rpp) (map snd xs))) ->
  Forall (goes_on prev) (map snd xs) -> size (zlen toks) ->
  exists l', updates s2 b qsl toks l = Ok l' /\ layer_inv (pending s2) l' (ref_step c rpp xs toks st) (map snd xs).
Proof using Hregion Hrpp.
  intros Hinv Hprev [Ht2 Hcap (es & t1 & Hxs & Hrows & Hheads & _ & Hup)] Hnd Hgo Hsize.
  pose proof Hinv as [Hl Hr Hs Hlens]. destruct (Hup l toks Hl Hsize) as [Hes (l' & E & Hu)]. exists l'. split; [done|].
  assert (map snd xs = map e_item es) as Hits by (rewrite <- Hxs, map_map; done).
  assert (slots_distinct c rpp es) as Hdist by (unfold slots_distinct; by rewrite <- (map_map e_item (it_slots c rpp)), <- Hits).
  assert (Forall (fun e => it_head (e_item e) <> 0 -> it_slot (e_item e) 0 ∈ opened_by prev /\
    it_head (e_item e) <= zlen (default [] (st !! it_slot (e_item e) 0))) es) as Hresume.
  { apply Forall_forall. intros e He Hne. apply (goes_on_open (pending s) l st prev); try done.
    - by destruct (proj1 (Forall_forall _ _) Hes e He).
    - apply (proj1 (Forall_forall _ _) Hgo). rewrite Hits. apply list_elem_of_fmap. by exists e. }
  assert (rows_hold t1 l st (opened_by prev)) as Hr1.
  { intros slot Hin. destruct (Hr slot Hin) as (row & vs & rest & H1 & H2). exists row, vs, rest. by rewrite Hrows. }
  subst xs. split.
  - apply Hu.
  - unfold opened_by. rewrite Hits, map_map. by eapply (step_rows compress c rpp Hregion Hrpp l l' toks st t1 (pending s2) es (opened_by prev)).
  - by eapply (step_summaries compress c rpp Hregion Hrpp l l' toks st t1 (pending s2) es (opened_by prev)).
  - rewrite Hits. apply Forall_fmap. eapply Forall_impl; [eapply (step_lens c rpp Hregion Hrpp l toks st t1 (pending s2) es (opened_by prev)); done|]. done.
Qed.

(** The layers of the model against their stores *)
Record streams (w : dsa_model) (sts : list store) (prev : list item) (next : nat) : Prop := Streams {
  sr_host : host_ok (host w) (opened_by prev) next;
  sr_prev : Forall (item_ok c rpp) prev;
  sr_layers : Forall2 (fun l st => layer_inv (pending (host w)) l st prev) (layers w) sts;
  sr_count : zlen (layers w) = nl
}.

(** A step of the engine with its batch *)
Record dsa_step := Step {
  st_kind : step_kind;
  st_md : metadata;
  st_qsl : list Z;
  st_toks : list (list T);
  st_rows : list (option item)
}.

Record step_ok (prev : list item) (next : nat) (x : dsa_step) : Prop := StepOk {
  so_described : described (st_md x) (st_rows x);
  so_items : Forall (item_ok c rpp) (alive (st_rows x));
  so_slots : NoDup (concat (map (it_slots c rpp) (alive (st_rows x))));
  so_few : 2 * zlen (alive (st_rows x)) <= max_pending c;
  so_go : Forall (goes_on prev) (alive (st_rows x));
  so_fresh : md_schedule (st_md x) = None /\ (next <= md_id (st_md x))%nat;
  so_room : room_ok (persists (st_kind x) (st_md x)) (st_md x) (st_rows x);
  so_replay : replay_ok (st_kind x) (st_md x) (st_rows x) (st_qsl x);
  so_toks : zlen (st_toks x) = nl /\ Forall (fun ts => size_ok (st_kind x) (st_md x) (st_rows x) (zlen ts)) (st_toks x)
}.

Definition step_stores (x : dsa_step) (sts : list store) : list store :=
  zip_with (ref_step c rpp (step_loads (st_md x) (st_rows x))) (st_toks x) sts.

Lemma layers_step s s2 b qsl (size : Z -> Prop) xs prev : Forall (item_ok c rpp) prev ->
  planned s s2 b qsl size xs (opened_by prev) -> NoDup (concat (map (it_slots c rpp) (map snd xs))) -> Forall (goes_on prev) (map snd xs) ->
  forall toks ls sts, Forall (fun ts => size (zlen ts)) toks -> length toks = length ls -> Forall2 (fun l st => layer_inv (pending s) l st prev) ls sts ->
  exists ls', updated_all s2 b qsl toks ls ls' /\
    Forall2 (fun l st => layer_inv (pending s2) l st (map snd xs)) ls' (zip_with (ref_step c rpp xs) toks sts).
Proof using Hregion Hrpp.
  intros Hprev Hplan Hnd Hgo toks. induction toks as [|ts toks IH]; intros ls sts Hsize Hl H.
  { destruct ls; [|done]. exists []. split; [by split|constructor]. }
  destruct ls as [|l ls]; [done|]. apply Forall2_cons_inv_l in H as (st & sts' & Hst & H & ->). apply Forall_cons in Hsize as [Hts Hsize].
  destruct (layer_step s s2 b qsl size xs l st prev ts Hst Hprev Hplan Hnd Hgo Hts) as (l' & E & Hinv).
  destruct (IH ls sts' Hsize ltac:(by injection Hl) H) as (ls' & [Hup Hlen] & Hall). exists (l' :: ls').
  split; [|by constructor]. split; [by constructor|done].
Qed.

Lemma ready_host s s2 md sched i its ls sts : ready s s2 md sched i -> table_ok (pending s2) -> capacity (pending s2) = max_pending c ->
  zlen (registered s) = nl -> (spec_query_len c <= 1 -> forall slot, slot ∈ completed_slots sched -> slot ∉ opened_by its) ->
  0 < nl -> zlen ls = nl -> Forall2 (fun l st => layer_inv (pending s2) l st its) ls sts -> host_ok s2 (opened_by its) (S (md_id md)).
Proof using Type.
  intros [Hc Hk Hsched Hdone [R1 R2 R3 R4]] Ht Hcap Hreg Hcomp Hnl Hls Hall. split; try done.
  - by rewrite R2.
  - intros slot Hin. destruct ls as [|l ls]; [unfold zlen in Hls; cbn in Hls; lia|].
    apply Forall2_cons_inv_l in Hall as (st & sts' & Hl & _ & _). destruct (li_rows _ _ _ _ Hl slot Hin) as (row & vs & rest & H & _). by exists row.
  - unfold to_complete. rewrite Hc, Hsched. exact Hcomp.
  - intros k. rewrite Hk. intros [= <-]. lia.
Qed.

Lemma layer_inv_rows t t' l st its : (forall slot, slot ∈ opened_by its -> row_of_slot t' !! slot = row_of_slot t !! slot) ->
  layer_inv t l st its -> layer_inv t' l st its.
Proof using Type.
  intros H [A B C D]. split; try done. intros slot Hin. destruct (B slot Hin) as (row & vs & rest & H1 & H2). exists row, vs, rest. by rewrite H.
Qed.

Lemma layers_done_ok n s open next : host_ok s open next -> host_ok (set_layers_done n s) open next.
Proof using Type. intros []. by split. Qed.

(** The first layer makes the schedule. *)
Lemma run_layers_first md s s2 i toks ls : schedule_for c md s = (Ok i, s2) -> schedule_for c md s2 = (Ok i, s2) -> toks <> [] ->
  run_layers zero compress c fused launch_order md 0 toks (Model s ls) = run_layers zero compress c fused launch_order md 0 toks (Model s2 ls).
Proof using Type.
  intros E1 E2 Hne. destruct toks as [|ts toks]; [done|]. cbn [run_layers].
  assert (run_layer zero compress c fused launch_order md 0 ts (Model s ls) = run_layer zero compress c fused launch_order md 0 ts (Model s2 ls)) as E.
  { unfold run_layer. rewrite (M_bind_ok _ _ _ i (Model s2 ls)) by (unfold on_host; cbn [host layers]; by rewrite E1).
    rewrite (M_bind_ok _ _ _ i (Model s2 ls)); [done|]. unfold on_host. cbn [host layers]. by rewrite E2. }
  unfold mbind, M_bind. by rewrite E.
Qed.

Context (Hnl : 0 < nl).

(** A step of the engine does not fail, and its layers follow the reference. *)
Theorem engine_step_streams w sts prev next x : streams w sts prev next -> step_ok prev next x ->
  exists w', engine_step zero compress c fused launch_order (st_kind x) (st_md x) (st_qsl x) (st_toks x) w = (Ok tt, w') /\
    streams w' (step_stores x sts) (alive (st_rows x)) (S (md_id (st_md x))).
Proof using Hregion Hrpp Hspec Hlaunch Hnl.
  intros [Hhost Hprev Hlayers Hcount] [Hd Hitems Hslots Hfew Hgo [Hnone Hid] Hroom Hrep [Htoks Hsizes]].
  destruct w as [s ls]. cbn [host layers] in *. set (md := st_md x) in *. set (rows := st_rows x) in *. set (k := st_kind x) in *.
  assert (length (st_toks x) = length ls) as Hlen by (unfold zlen in *; lia).
  assert (map snd (step_loads md rows) = alive rows) as Hloads by apply loads_items.
  assert (batch_ok rows (opened_by prev)) as Hbatch.
  { split; [done|done|done|]. destruct ls as [|l ls]; [unfold zlen in Hcount; cbn in Hcount; lia|].
    apply Forall2_cons_inv_l in Hlayers as (st & sts' & Hl & _). by eapply goes_on_resumable. }
  assert (st_toks x <> []) as Hne by (intros E; rewrite E in Htoks; unfold zlen in Htoks; cbn in Htoks; lia).
  assert (forall s2 sched i b qsl, ready s s2 md sched i -> only_closed c rpp rows (completed_slots sched) ->
    planned s s2 b qsl (size_ok k md rows) (step_loads md rows) (opened_by prev) ->
    exists ls', updated_all s2 b qsl (st_toks x) ls ls' /\ host_ok s2 (opened_by (alive rows)) (S (md_id md)) /\
      Forall2 (fun l st => layer_inv (pending s2) l st (alive rows)) ls' (step_stores x sts) /\ zlen ls' = nl) as Hstep.
  { intros s2 sched i b qsl Hready Hclosed Hplan. rewrite <- Hloads in Hslots, Hgo.
    destruct (layers_step s s2 b qsl (size_ok k md rows) (step_loads md rows) prev Hprev Hplan Hslots Hgo (st_toks x) ls sts Hsizes Hlen Hlayers) as (ls' & Hup & Hall).
    rewrite Hloads in *. assert (zlen ls' = nl) as Hls'.
    { destruct Hup as [Hup _]. apply Forall2_length in Hup. rewrite length_zip_with in Hup. unfold zlen in *. lia. }
    exists ls'. split_and!; try done. eapply (ready_host s s2 md sched i); try done; [apply Hplan|apply Hplan|apply Hhost|].
    intros Hq slot Hin. pose proof (completed_not_open rows (step_loads md rows) _ Hitems Hslots Hloads Hclosed Hq slot Hin) as Hn.
    unfold opens in Hn. rewrite <- (map_map snd (open_slots c rpp)), Hloads in Hn. exact Hn. }
  destruct (persists k md) eqn:Hpers.
  - destruct (built_ready k md (st_qsl x) rows s _ next Hhost Hd Hbatch Hpers Hroom Hrep) as (sched & i & s2 & Eb & Hready & Howned & Hclosed & Hplan).
    destruct (Hstep s2 sched i _ _ Hready Hclosed Hplan) as (ls' & Hup & Hhost2 & Hall & Hcount').
    pose proof Hready as [Rc Rk Rs Rd _]. destruct k as [| |w tk] eqn:Ek; [done|..]; cbn [engine_step read_body read_starts] in *.
    + exists (Model (set_layers_done (0 + zlen (st_toks x)) s2) ls'). split.
      * rewrite (M_bind_ok _ _ _ (scheduled_md md i) (Model s2 ls)) by (unfold on_host; cbn [host layers]; by rewrite Eb).
        apply (run_layers_ready (scheduled_md md i) i sched (st_toks x) 0 s2 [] ls ls'); try done.
        -- rewrite (ca_registered _ _ (rd_carries _ _ _ _ _ Hready)), (ho_layers _ _ _ Hhost). lia.
        -- unfold finished. by rewrite Howned.
      * split; [by apply layers_done_ok|done|done|done].
    + exists (Model s2 ls'). split; [|by split].
      rewrite (M_bind_ok _ _ _ (scheduled_md md i) (Model s2 ls)) by (unfold on_host; cbn [host layers]; by rewrite Eb).
      munfold. cbn [md_schedule scheduled_md host layers]. cbn. rewrite Rs. by rewrite (replay_run s2 _ _ _ ls ls' Hup).
  - assert (forall w tk, k <> Replay w tk) as Hk by (intros w tk E; unfold replay_ok in Hrep; rewrite E in Hrep, Hpers; destruct Hrep as [H _]; congruence).
    destruct (eager_ready md rows s _ next k Hhost Hnone Hid Hd Hbatch Hpers Hk) as (sched & i & s2 & Es & Hready & Howned & Hclosed & Hplan).
    destruct (Hstep s2 sched i _ _ Hready Hclosed Hplan) as (ls' & Hup & Hhost2 & Hall & Hcount').
    pose proof Hready as [Rc Rk Rs Rd _].
    destruct (end_step_run (set_layers_done (0 + zlen (st_toks x)) s2) _ _ (layers_done_ok _ _ _ _ Hhost2)) as (s' & Ee & Hhost' & _ & Hrows).
    exists (Model s' ls'). split.
    + assert (run_layers zero compress c fused launch_order md 0 (st_toks x) (Model s ls) = (Ok tt, Model s' ls')) as Hrun.
      { rewrite (run_layers_first md s s2 i) by (done || by eapply schedule_ready).
        apply (run_layers_ready md i sched (st_toks x) 0 s2 [] ls ls'); try done.
        - rewrite (ca_registered _ _ (rd_carries _ _ _ _ _ Hready)), (ho_layers _ _ _ Hhost). lia.
        - unfold finished. by rewrite Howned. }
      destruct k as [| |w tk]; [done| |by destruct (Hk w tk)]. cbn [engine_step].
      rewrite (M_bind_ok _ _ _ md (Model s ls)); [done|]. unfold on_host. cbn [host layers]. unfold build.
      assert (graph_decode c && (num_prefills md =? 0) && (0 <? num_decodes md) = false) as ->; [|done].
      unfold persists, decode_batch in Hpers. by rewrite <- andb_assoc.
    + split; [done|done| |done]. cbn [host layers]. eapply Forall2_impl; [exact Hall|]. intros l st. apply layer_inv_rows. exact Hrows.
Qed.


(** ** Any sequence of steps *)

Fixpoint run_steps (xs : list dsa_step) : M dsa_model unit :=
  match xs with
  | [] => mret tt
  | x :: xs' => engine_step zero compress c fused launch_order (st_kind x) (st_md x) (st_qsl x) (st_toks x) ;; run_steps xs'
  end.

Fixpoint stores_after (xs : list dsa_step) (sts : list store) : list store :=
  match xs with [] => sts | x :: xs' => stores_after xs' (step_stores x sts) end.

Fixpoint steps_ok (prev : list item) (next : nat) (xs : list dsa_step) : Prop :=
  match xs with
  | [] => True
  | x :: xs' => step_ok prev next x /\ steps_ok (alive (st_rows x)) (S (md_id (st_md x))) xs'
  end.

Lemma run_steps_stream xs : forall w sts prev next, streams w sts prev next -> steps_ok prev next xs ->
  exists w' prev' next', run_steps xs w = (Ok tt, w') /\ streams w' (stores_after xs sts) prev' next'.
Proof using Hregion Hrpp Hspec Hlaunch Hnl.
  induction xs as [|x xs IH]; intros w sts prev next Hw Hxs; [by exists w, prev, next|]. destruct Hxs as [Hx Hxs].
  destruct (engine_step_streams w sts prev next x Hw Hx) as (w1 & E & Hw1). destruct (IH w1 _ _ _ Hw1 Hxs) as (w' & p' & n' & E' & Hw').
  exists w', p', n'. split; [|done]. cbn [run_steps]. by rewrite (M_bind_ok _ _ _ _ _ E).
Qed.

(** The state before the first step: no region has a row, and the vectors of
    the state and the buffers of the layers hold anything. *)
Definition new_state (names : list Z) (f : decode_fields) : dsa_state :=
  DsaState (new_table (max_pending c)) rpp [] None None 0 names G f None.

Lemma new_streams names f ls : zlen names = nl -> zlen ls = nl -> Forall (layer_ok c) ls -> 0 <= max_pending c -> 0 <= G ->
  streams (Model (new_state names f) ls) (map (fun _ => ∅) ls) [] 0.
Proof using Type.
  intros Hn Hls Hok Hcap HG. split; [|constructor| |done].
  - split; cbn; try done; try lia.
    + by apply new_table_ok.
    + by intros slot ?%elem_of_nil.
    + by intros _ slot ?%elem_of_nil.
  - clear Hls. induction Hok as [|l ls Hl _ IH]; constructor; [|done]. split; [done| | |constructor].
    + by intros slot ?%elem_of_nil.
    + intros slot vs. by rewrite lookup_empty.
Qed.

Lemma steps_summaries names f ls xs : zlen names = nl -> zlen ls = nl -> Forall (layer_ok c) ls -> 0 <= max_pending c -> 0 <= G ->
  steps_ok [] 0 xs ->
  exists w', run_steps xs (Model (new_state names f) ls) = (Ok tt, w') /\
    Forall2 (summaries_hold compress c) (layers w') (stores_after xs (map (fun _ => ∅) ls)).
Proof using Hregion Hrpp Hspec Hlaunch Hnl.
  intros Hn Hls Hok Hcap HG Hxs. destruct (run_steps_stream xs _ _ _ _ (new_streams names f ls Hn Hls Hok Hcap HG) Hxs) as (w' & prev' & next' & E & Hw').
  exists w'. split; [done|]. eapply Forall2_impl; [apply Hw'|]. intros l st Hl. apply Hl.
Qed.

(** ** The tokens of a request *)

(** The slots a step writes *)
Definition step_slots (x : dsa_step) : list Z := concat (map (it_slots c rpp) (alive (st_rows x))).

(** What layer [i] has seen of a request after the steps: the steps that
    schedule it put its new tokens after those they go on from; the other steps,
    and the other requests, leave the regions of its tokens alone. *)
Inductive request_tokens (i : nat) : list dsa_step -> list Z -> list T -> Prop :=
  | rt_new pages : request_tokens i [] pages []
  | rt_scheduled xs x pages toks p it ts :
      request_tokens i xs pages toks -> pages `prefix_of` it_pages it ->
      (p, it) ∈ step_loads (st_md x) (st_rows x) -> st_toks x !! i = Some ts -> 0 <= p /\ p + it_len it <= zlen ts ->
      it_past it <= zlen toks -> (forall j, 0 <= j < it_first c it -> region_slot rpp (it_pages it) j ∉ step_slots x) ->
      request_tokens i (xs ++ [x]) (it_pages it) (take (Z.to_nat (it_past it)) toks ++ slice p (it_len it) ts)
  | rt_waits xs x pages toks :
      request_tokens i xs pages toks ->
      (forall j, 0 <= j -> j * region c < zlen toks -> region_slot rpp pages j ∉ step_slots x) ->
      request_tokens i (xs ++ [x]) pages toks.

Lemma stores_after_app xs ys sts : stores_after (xs ++ ys) sts = stores_after ys (stores_after xs sts).
Proof using Type. revert sts. induction xs as [|x xs IH]; intros sts; [done|]. cbn. apply IH. Qed.

Lemma steps_items prev next xs : steps_ok prev next xs ->
  Forall (fun x => Forall (item_ok c rpp) (alive (st_rows x)) /\ NoDup (step_slots x) /\ zlen (st_toks x) = nl) xs.
Proof using Type.
  revert prev next. induction xs as [|x xs IH]; intros prev next H; [constructor|]. destruct H as [Hx Hxs].
  constructor; [|by eapply IH]. destruct Hx as [_ ? ? _ _ _ _ _ [? _]]. done.
Qed.

Lemma region_slot_prefix pages pages' j n : pages `prefix_of` pages' -> 0 <= j -> j * region c < n -> n <= zlen pages * (rpp * region c) ->
  region_slot rpp pages' j = region_slot rpp pages j.
Proof using Hregion Hrpp.
  intros [more ->] Hj Hlt Hn. unfold region_slot. assert (0 <= j / rpp < zlen pages) as Hr.
  { split; [by apply Z.div_pos; lia|]. apply Z.div_lt_upper_bound; [lia|]. nia. }
  by rewrite zget_app_l by lia.
Qed.

(** The reference holds the tokens of the request. *)
Lemma request_held i xs pages toks (sts : list store) :
  request_tokens i xs pages toks ->
  Forall (fun x => Forall (item_ok c rpp) (alive (st_rows x)) /\ NoDup (step_slots x) /\ zlen (st_toks x) = nl) xs ->
  zlen sts = nl -> (i < length sts)%nat ->
  exists st, stores_after xs sts !! i = Some st /\ holds_request c rpp st pages toks /\ zlen toks <= zlen pages * (rpp * region c).
Proof using Hregion Hrpp Hnl.
  intros Hr Hxs Hlen Hi. induction Hr as [pages|xs x pages toks p it ts Hr IH Hpre Hin Hts [Hp0 Hp1] Hpast Hkept|xs x pages toks Hr IH Hkept].
  { destruct (lookup_lt_is_Some_2 sts i Hi) as [st Hst]. exists st. split; [done|]. split.
    - intros j Hj Hlt. change (zlen (@nil T)) with 0 in Hlt. nia.
    - change (zlen (@nil T)) with 0. pose proof (zlen_nonneg pages). nia. }
  all: apply Forall_app in Hxs as [Hxs Hx]; apply Forall_singleton in Hx as (Hits & Hnd & Hn).
  all: destruct (IH Hxs) as (st & Hst & Hh & Hroom).
  all: assert (exists ts0, st_toks x !! i = Some ts0 /\ stores_after (xs ++ [x]) sts !! i = Some (ref_step c rpp (step_loads (st_md x) (st_rows x)) ts0 st)) as (ts0 & Hts0 & Hnew).
  1,3: destruct (lookup_lt_is_Some_2 (st_toks x) i) as [ts0 Hts0]; [unfold zlen in *; lia|]; exists ts0; split; [done|];
    rewrite stores_after_app; cbn; unfold step_stores; rewrite lookup_zip_with, Hts0, Hst; done.
  all: assert (concat (map (fun y : Z * item => it_slots c rpp y.2) (step_loads (st_md x) (st_rows x))) = step_slots x) as Hslots
    by (unfold step_slots; rewrite <- (loads_items (one_token (st_md x)) (st_rows x) 0 0), map_map; done).
  all: eexists; split; [exact Hnew|].
  - simplify_eq. assert (it ∈ alive (st_rows x)) as Hit.
    { rewrite <- (loads_items (one_token (st_md x)) (st_rows x) 0 0). apply list_elem_of_fmap. by exists (p, it). }
    pose proof (proj1 (Forall_forall _ _) Hits it Hit) as Hok. pose proof (item_past _ _ _ Hok). pose proof (item_len _ _ _ Hok). split.
    + refine (ref_step_request c rpp Hregion Hrpp (step_loads (st_md x) (st_rows x)) (p, it) _ st toks Hok Hin _ _ _ Hpast (conj Hp0 Hp1));
        [by rewrite Hslots|by rewrite Hslots|].
      intros j Hj Hlt. rewrite (region_slot_prefix pages _ j (zlen toks)) by done. by apply Hh.
    + rewrite zlen_app, zlen_take, zlen_slice by lia. apply (item_room _ _ _ Hok).
  - split; [|done]. apply ref_step_other; [done|]. by rewrite Hslots.
Qed.

(** C21: the sparse attention of every layer scores a request with the
    summaries of exactly its own tokens.  Over any sequence of steps (prefills,
    decodes of one token, verifications of several; run eagerly, with a
    schedule the builder made, or replayed from a captured graph), no step fails,
    and in every layer the summary of each complete region of a request is the
    compression of the tokens of that region, rejected tokens left out, however
    the rows of incomplete regions were recycled in between.  The requests of a
    step write distinct slots, start at a region or go on from the step before,
    and take at most half the rows; a speculative window is at most one region
    and a token; the programs of a kernel run in any order. *)
Theorem request_summaries names f ls xs : zlen names = nl -> zlen ls = nl -> Forall (layer_ok c) ls -> 0 <= max_pending c -> 0 <= G ->
  steps_ok [] 0 xs ->
  exists w', run_steps xs (Model (new_state names f) ls) = (Ok tt, w') /\
    forall i l pages toks, layers w' !! i = Some l -> request_tokens i xs pages toks ->
      forall j, 0 <= j -> (j + 1) * region c <= zlen toks ->
        summ l !! region_slot rpp pages j = Some (compress (slice (j * region c) (region c) toks)).
Proof using Hregion Hrpp Hspec Hlaunch Hnl.
  intros Hn Hls Hok Hcap HG Hxs. destruct (steps_summaries names f ls xs Hn Hls Hok Hcap HG Hxs) as (w' & E & Hsum).
  exists w'. split; [done|]. intros i l pages toks Hl Hr j Hj Hle.
  destruct (Forall2_lookup_l _ _ _ _ _ Hsum Hl) as (st & Hst & Hs).
  assert (i < length ls)%nat as Hi.
  { apply Forall2_length in Hsum. apply lookup_lt_Some in Hl. rewrite Hsum in Hl.
    assert (forall ys (sts : list store), length (stores_after ys sts) <= length sts)%nat as Hlen.
    { induction ys as [|y ys IH]; intros sts; [done|]. cbn. etrans; [apply IH|]. unfold step_stores. rewrite length_zip_with. lia. }
    specialize (Hlen xs (map (fun _ => ∅) ls)). rewrite length_map in Hlen. lia. }
  destruct (request_held i xs pages toks (map (fun _ => ∅) ls) Hr (steps_items _ _ _ Hxs)) as (st' & Hst' & Hh & _);
    [unfold zlen in *; by rewrite length_map|by rewrite length_map|]. simplify_eq.
  apply Hs; [apply Hh; nia|]. apply zlen_slice; nia.
Qed.
End engine.
End DsaEngine.

(** ** Example: a prompt of three tokens, and a decode replayed from a graph *)

Module DsaExample.
Import DsaPending DsaPendingCorrect DsaSchedule DsaPlan DsaScheduleCorrect DsaSummary DsaSummaryCorrect DsaDecodeCorrect DsaDecodeUpdate DsaVerifyCorrect DsaVerifyUpdate DsaStream DsaEngine.

(** Regions of two tokens, two to a page; rows for four regions *)
Definition demo_config : config := Config 2 1 4 2 1 true true true.

Definition prompt_step : dsa_step (T:=Z) :=
  Step Eager (Metadata 0 0 1 0 3 [[1; 2; 0]] None [3] [3] [0; 3] None) [0; 3] [[10; 11; 12]] [Some (Item [1; 2] 0 3)].
Definition decode_step : dsa_step (T:=Z) :=
  Step (Replay 2 2) (Metadata 1 1 0 1 1 [[1; 2; 0]] None [4] [4] [0; 1] None) [0; 1] [[13; 0]] [Some (Item [1; 2] 3 1)].

Definition demo_layer : layer (T:=Z) (V:=list Z) := Layer (replicate 5 [0; 0]) ∅.
Definition demo_fields : decode_fields := DecodeFields [0; 0] [0; 0] [0; 0] [0; 0] [false; false] [0; 0] [0; 0] [0; 0].

Lemma demo_items : Forall (item_ok demo_config 2) [Item [1; 2] 0 3; Item [1; 2] 3 1].
Proof. repeat constructor; vm_compute; congruence. Qed.

Lemma one_row (it : item) r x : zget [Some it] r = Some (Some x) -> r = 0 /\ x = it.
Proof.
  intros H. pose proof (zget_Some _ _ _ H) as Hr. change (zlen [Some it]) with 1 in Hr.
  assert (r = 0) as -> by lia. by injection H as <-.
Qed.

Lemma demo_prompt : step_ok (T:=Z) demo_config 2 1 8 3 [] 0 prompt_step.
Proof.
  pose proof demo_items as Hit. apply Forall_cons in Hit as [Hit _].
  split; [|by repeat constructor| |done|by constructor; [left|constructor]|done|done|done|by split; [|repeat constructor]].
  - split; [|done]. split.
    + intros r Hr. change (zlen (st_rows prompt_step)) with 1 in Hr. assert (r = 0 \/ r = 1) as [-> | ->] by lia; done.
    + intros r it [-> ->]%one_row. done.
    + intros r it [-> ->]%one_row. exists [1; 2; 0]. split; [done|by exists [0]].
    + intros r it [-> ->]%one_row. exists [1; 2; 0]. split; [done|by exists [0]].
  - apply (bool_decide_unpack _). vm_compute. exact I.
Qed.

Lemma demo_decode : step_ok (T:=Z) demo_config 2 1 8 3 [Item [1; 2] 0 3] 1 decode_step.
Proof.
  pose proof demo_items as Hit. apply Forall_cons in Hit as [_ Hit].
  split; [|done| |done| |done| | |by split; [|repeat constructor]].
  - split; [done|by repeat constructor|done|done| |done]. constructor; [by exists [0]|constructor].
  - apply (bool_decide_unpack _). vm_compute. exact I.
  - constructor; [|constructor]. right. exists (Item [1; 2] 0 3). split; [by left|]. split; [done|by left].
  - intros _. by split_and!; [| | |left].
  - by split_and!.
Qed.

Lemma demo_tokens : request_tokens (T:=Z) demo_config 2 0 [prompt_step; decode_step] [1; 2] [10; 11; 12; 13].
Proof.
  apply (rt_scheduled demo_config 2 0 [prompt_step] decode_step [1; 2] [10; 11; 12] 0 (Item [1; 2] 3 1) [13; 0]); try done.
  - apply (rt_scheduled demo_config 2 0 [] prompt_step [1; 2] [] 0 (Item [1; 2] 0 3) [10; 11; 12]); try done.
    + constructor.
    + by left.
    + intros j Hj. change (it_first demo_config (Item [1; 2] 0 3)) with 0 in Hj. lia.
  - by left.
  - intros j Hj. change (it_first demo_config (Item [1; 2] 3 1)) with 1 in Hj. assert (j = 0) as -> by lia.
    apply (bool_decide_unpack _). vm_compute. exact I.
Qed.

Lemma request_summaries_witness :
  exists w', run_steps 0 (fun l => l) demo_config false (fun n => zrange 0 n) [prompt_step; decode_step]
      (Model (new_state demo_config 2 8 [7] demo_fields) [demo_layer]) = (Ok tt, w') /\
    forall l, layers w' !! 0%nat = Some l -> summ l !! 2 = Some [10; 11] /\ summ l !! 3 = Some [12; 13].
Proof.
  destruct (request_summaries 0 (fun l => l) demo_config 2 false (fun n => zrange 0 n) eq_refl eq_refl
    ltac:(vm_compute; congruence) 1 8 3 (fun n => reflexivity _) eq_refl [7] demo_fields [demo_layer] [prompt_step; decode_step])
    as (w' & E & H).
  - done.
  - done.
  - by repeat constructor.
  - done.
  - done.
  - split; [exact demo_prompt|]. split; [exact demo_decode|exact I].
  - exists w'. split; [exact E|]. intros l Hl. split.
    + exact (H 0%nat l [1; 2] [10; 11; 12; 13] Hl demo_tokens 0 ltac:(done) ltac:(done)).
    + exact (H 0%nat l [1; 2] [10; 11; 12; 13] Hl demo_tokens 1 ltac:(done) ltac:(done)).
Defined.
End DsaExample.
